(* ===== verification/_CoqProject ===== *)
-Q . S2P
Prelude.v
Machine.v
CString.v
Spin.v
Kalloc.v
Proc.v
Signal.v
Sched.v
Syscall.v
Asm.v
AsmSwitch.v
Trap.v
Monitor.v
Pipe.v
SleepLock.v
Clock.v
Bio.v
Log.v
LogOps.v
Vm.v
VmSpec.v
VmUser.v
VmSpace.v
VmCopy.v
VmMain.v
FsBlock.v
FsInode.v
FsDinode.v
FsFile.v
FsData.v
FsStore.v
FsCrash.v
FsTrunc.v
FsCache.v
FsPath.v
FsDir.v
FsNamei.v
File.v
FileWrite.v
FsTxn.v
PipeTable.v
SysFile.v
SysFileSpec.v
Examples.v
Exec.v
ExecSpace.v
ExecLoad.v
ExecStack.v
ExecFile.v
ExecSpec.v
ExecExample.v
Life.v
LifeSpec.v
LifeFork.v
LifeStart.v
LifeWait.v
LifeExit.v
LifeExample.v
LifeInit.v
Mkfs.v
MkfsSpec.v
MkfsFiles.v
MkfsRoot.v
MkfsMain.v
MkfsImage.v
MkfsBoot.v
Console.v
Kbd.v
Print.v
Ide.v
Sh.v
ShPrint.v
Grep.v
UString.v
User.v
UserSpec.v
ShRun.v
Umalloc.v
