(* ===== verification/Prelude.v ===== *)
(** * xv6 with signals

    A verification library for the xv6 kernel extended with signals and a
    lock-free scheduler (the C sources under [src/]). The C code is translated
    into executable definitions; machine integers are [Z] with the wrap-around
    written out ([u32], [s32]), memory is a function from addresses to bytes,
    and a kernel routine is a function [M S A] that returns ([Ok]), panics
    ([Panic]) or waits for ever ([Hang]).

    ** The parts and the files

    - [Prelude]: record update, machine integers, the kernel monad, shared
      lemmas and hint databases.
    - [Machine] ([types.h], [param.h], [memlayout.h], [mmu.h], [x86.h]):
      constants, byte memory, address arithmetic, atomic instructions, the
      trap frame.
    - [CString] ([string.c]): memory and string routines.
    - [Spin] ([spinlock.c]): spin locks and interrupt nesting on one
      processor; the class [SpinLock] is what clients rely on.
    - [Kalloc] ([kalloc.c]): the page allocator, whose free list in memory
      refines a list of pages; the class [PageAlloc] is what clients rely on.
    - [Proc], [Signal] ([proc.c], [exec.c], [trapasm.S]): the process table
      and signals, down to the bytes on the user stack.
    - [Sched] ([proc.c], [spinlock.c]): the lock-free scheduler as an
      interleaving machine; every access to a process state is one step, and
      every processor has its interrupt flag and its nesting of [pushcli].
    - [Syscall] ([syscall.c], [sysproc.c]): argument fetching and dispatch.
    - [Asm] ([vectors.S], [trapasm.S], [swtch.S], [usys.S]): the assembly code
      over a small processor, with the way into the kernel and back;
      [AsmSwitch] has the context switch. [Trap] ([trap.c], [mmu.h]): the
      descriptor table and [trap].
    - [Monitor]: interleaving of operations whose segments run under a lock,
      with sleep and wakeup; what an operation does without the lock is a
      segment of its own. Used by [Pipe] ([pipe.c]), [SleepLock]
      ([sleeplock.c]), [Clock] ([sysproc.c], [trap.c]), [LogOps], [Ide] and
      [Console].
    - [Bio] ([bio.c], [ide.c]): the buffer cache over a disk; the class
      [BufCache] is what the log relies on.
    - [Log], [LogOps] ([log.c]): commit and recovery with crashes between any
      two block writes; whole operations of any number of threads, from
      [begin_op] to the commit.
    - [Vm] ([vm.c], [proc.c]): page tables in memory. [VmSpec] gives the
      hardware's walk and the ownership invariant, [VmUser] the routines on
      page ranges, [VmSpace] whole address spaces, [VmCopy] [copyuvm] and
      [copyout], [VmMain] [growproc] and the main statements.
    - [FsBlock] ([fs.c], [fs.h]): superblock and block allocator over the
      class [BlockStore], blocks that are read, changed through the log and
      released. [FsInode]: inodes, the inode cache, [bmap], [itrunc], [readi]
      and [writei]. [FsDinode] to [FsCache] hold their proofs: the inode on
      disk, [bmap] with the ownership of blocks, bytes of files, truncation,
      reference counts. [FsPath], [FsDir], [FsNamei]: path names
      and directories.
    - [FsStore], [FsTxn] ([log.c]): the log and the buffer cache implement
      [BlockStore] within one transaction, and the class [Transactions] across
      several. [FsCrash] composes them with [writei] and a crash.
    - [File], [FileWrite] ([file.c]): the file table over [Transactions] and
      the class [PipeLayer], which [PipeTable] implements with [Pipe].
    - [SysFile], [SysFileSpec] ([sysfile.c]): the system calls on files, and
      the counting of descriptors.
    - [Examples]: a disk as [mkfs] makes it, on which the theorems of the file
      system apply.
    - [Exec] ([exec.c], [elf.h]): loading a program. [ExecSpace] describes an
      address space under construction, [ExecLoad] the image that the program
      headers ask for, [ExecStack] the layout of the arguments, [ExecFile] the
      transaction that reads the file; [ExecSpec] composes them, [ExecExample]
      has a program on a disk.
    - [Life] ([proc.c]): [fork], [exit], [wait] and what they do to slots,
      stacks, memory, files and directories. [LifeSpec] says who owns what,
      [LifeFork], [LifeWait] and [LifeExit] verify the three calls, [LifeStart]
      the first run of a new process on the processor of [Asm],
      [LifeInit] the making of the first process ([userinit]);
      [LifeExample] has three processes.
    - [Mkfs] ([mkfs.c]): the program that makes the disk image. [MkfsSpec] has
      files growing by [iappend], [MkfsFiles] inodes with their bytes,
      [MkfsRoot] the loop over the command line, [MkfsMain] the bitmap and the
      root directory, [MkfsImage] the finished image; [MkfsBoot] starts the
      kernel's file system on it ([forkret] in [proc.c]).
    - [Ide] ([ide.c], [memide.c]): the queue of disk requests, the registers
      of a command and the interrupt, with errors of the drive, which implement
      the synchronous disk that [Bio] is proved against, and the disk in memory that can take
      their place.
    - [Console] ([console.c], [uart.c]): the screen, the input
      line with its editing keys and the sleeping readers. [Kbd] ([kbd.c],
      [kbd.h]): scan codes to the characters the console is given.
    - [Print] ([console.c], [printf.c], [ulib.c]): formatted
      output in the kernel and in user space, and [atoi].
    - [Sh], [ShPrint] ([sh.c]): the shell's parser and its inverse. [Grep]
      ([grep.c]): the matcher and the loop over lines. [UString] ([ulib.c]):
      the string routines of user space. [Umalloc] ([umalloc.c]): [malloc] and [free] over the bytes of the heap.
    - [User] ([ulib.c], [cat.c], [wc.c], [grep.c], [ls.c], [init.c] and the
      other small programs): user programs as trees of system calls, run
      over a table of descriptors, with an oracle for what the rest of the
      system does; [UserSpec] verifies cat, wc, grep and ls. [ShRun] ([sh.c]):
      the shell's [runcmd] and main loop, and init.

    ** What the theorems show

    The allocator, the buffer cache, spin locks and sleep locks implement
    simple abstract objects. Page-table code is verified against the hardware
    walk with an ownership invariant that excludes leaks and double use, on
    the out-of-memory paths too. The log is atomic under crashes at every
    block write, recovery can be restarted, and operations are isolated: a
    commit runs alone and the log is never overrun. Pipes
    are queues in every interleaving, and no wakeup is lost unless a writer is
    killed. The file system is verified from the bits of the block bitmap up:
    every block has one owner, [writei] and [readi] agree with the file seen
    as an array of bytes, freeing a file frees all its blocks, a directory is
    a map from names to inode numbers, a write is atomic under crashes, and
    [filewrite] stays within the log however long the write is. [exec] gives
    the process the image computed from the bytes of the file and the
    arguments, or leaves every page, the process and the file system as they
    were. [fork] makes a faithful copy of a process on pages of its own or
    changes nothing, [exit] gives up all files and [wait] all memory, and
    between the calls every page, open file and inode reference is accounted
    for. [userinit] establishes this accounting with the first process, and a
    new process starts where its trap frame says. [mkfs] makes a disk
    on which all invariants of the file system hold and from which the
    kernel, once booted, reads the files that were put on it. The disk driver
    serves requests in order and loses no wakeup, and its panics are those of
    requests that are not allowed; the console's ring buffer is a line editor
    over a queue, and printing never leaves the screen. The shell's parser terminates on every line and inverts printing,
    and the shell starts for every line exactly the processes, with exactly
    the descriptors, that the command denotes; the matcher of grep accepts
    the languages that patterns denote, and grep prints the matching lines
    however they are cut into reads. The
    user-level allocator keeps its circular list ordered and disjoint from the
    blocks in use, and loses no memory. The entry code builds exactly the
    trap frame that [trap] expects and [trapret] resumes from it; user programs
    can raise no trap but a system call; [swtch] resumes the contexts it
    saves. Signal delivery, the handler frame and [sigret] are specified to
    the byte. The scheduler keeps a process on one processor at a time and never
    panics, as long as no step hands on a process in other hands and its
    functions are called as the rest of the kernel does; the races that break
    the first proviso are exhibited by schedules. Several theorems state behaviour that
    the comments of the code do not intend; the manifest lists them as
    findings.

    ** Bounds and fuel

    Loops that are not structural take a fuel argument computed from their
    inputs ([deallocuvm] from the size in pages, [mappages] from the length of
    the range, [namex] from the length of the path, [filewrite] from the number
    of bytes, and so on); the theorems on these routines show that they
    return, so the fuel is enough. The loops of user programs that read to
    the end of a file have a fuel argument, and their theorems hold for any
    fuel above the number of bytes or lines. [Hang] otherwise stands for waiting that no
    step of the same processor can end.

    ** Not modelled

    Set-up of devices and controllers ([lapic.c], [ioapic.c], [picirq.c],
    [mp.c], the initialisation in [uart.c] and [ide.c]), segment
    descriptors, the boot loader and assembly start-up code, which only
    program hardware; and the test programs. The processes that user programs
    start run one after the other, a child before its parent goes on; what
    they do to each other through files and pipes is not followed. In
    the file system a thread runs without others: sleeping for an inode lock
    or for log space that another thread holds is [Hang]. *)

From Stdlib Require Export ZArith Lia.
From stdpp Require Export base numbers gmap strings option list.
#[global] Open Scope Z_scope.

(** ** Record update *)

(** [Settable T] gives the eta-expansion of a record through its
    projections; [Setter proj] is derived from it by abstracting one
    projection, and [r <| proj := v |>] is the update. *)
Class Settable (T : Type) := eta_of : T → T.
Class Setter {R T : Type} (proj : R → T) := set_field : (T → T) → R → R.

Ltac solve_setter proj :=
  match type of proj with
  | ?R → _ =>
      let e := eval hnf in (@eta_of R _) in
      match eval pattern proj in e with
      | ?s _ => exact (λ f, s (λ r, f (proj r)))
      end
  end.

#[export] Hint Extern 0 (Setter ?proj) => solve_setter proj : typeclass_instances.

Declare Scope kernel_scope.
Delimit Scope kernel_scope with kernel.
#[global] Open Scope kernel_scope.

Notation "r <| proj := v |>" := (set_field (proj := proj) (λ _, v) r)
  (at level 1, left associativity, proj at level 10, v at level 99,
   format "r  <|  proj  :=  v  |>") : kernel_scope.

(** ** Machine integers *)

(** A C [uint] is a [Z] kept in [[0, 2^32)], a C [int] one kept in
    [[-2^31, 2^31)]; the conversions below are the wrap-around. *)
Definition u32 (z : Z) : Z := z mod 4294967296.
Definition s32 (z : Z) : Z := (z + 2147483648) mod 4294967296 - 2147483648.
Definition u8 (z : Z) : Z := z mod 256.
Definition u16 (z : Z) : Z := z mod 65536.
Definition s8 (z : Z) : Z := (z + 128) mod 256 - 128.

(** [C] truth values: zero is false, anything else is true. *)
Definition truthy (z : Z) : bool := negb (z =? 0).

(** Arithmetic with division and remainder by constants. *)
Ltac zmod := Z.to_euclidean_division_equations; lia.

Lemma u32_range z : 0 ≤ u32 z < 4294967296.
Proof. unfold u32. apply Z.mod_pos_bound. lia. Qed.

Lemma u32_small z : 0 ≤ z < 4294967296 → u32 z = z.
Proof. intros. unfold u32. by apply Z.mod_small. Qed.

Lemma u32_u32 z : u32 (u32 z) = u32 z.
Proof. apply u32_small, u32_range. Qed.

Lemma u32_add_l a b : u32 (u32 a + b) = u32 (a + b).
Proof. unfold u32. by rewrite Zplus_mod_idemp_l. Qed.

Lemma u32_add_r a b : u32 (a + u32 b) = u32 (a + b).
Proof. unfold u32. by rewrite Zplus_mod_idemp_r. Qed.

Lemma u32_sub_l a b : u32 (u32 a - b) = u32 (a - b).
Proof. unfold u32. by rewrite Zminus_mod_idemp_l. Qed.

Lemma u32_sub_r a b : u32 (a - u32 b) = u32 (a - b).
Proof. unfold u32. by rewrite Zminus_mod_idemp_r. Qed.

Lemma s32_range z : -2147483648 ≤ s32 z < 2147483648.
Proof. unfold s32. pose proof (Z.mod_pos_bound (z + 2147483648) 4294967296). lia. Qed.

Lemma s32_small z : -2147483648 ≤ z < 2147483648 → s32 z = z.
Proof. intros. unfold s32. rewrite Z.mod_small; lia. Qed.

Lemma u32_s32 z : u32 (s32 z) = u32 z.
Proof.
  unfold u32, s32. rewrite Zminus_mod_idemp_l. f_equal. lia.
Qed.

Lemma u8_range z : 0 ≤ u8 z < 256.
Proof. unfold u8. apply Z.mod_pos_bound. lia. Qed.

Lemma u8_small z : 0 ≤ z < 256 → u8 z = z.
Proof. intros. unfold u8. by apply Z.mod_small. Qed.

(** ** Outcomes and the kernel monad *)

(** A kernel routine returns, panics (the machine stops), or hangs in a
    busy-wait that nothing in a sequential run can end. *)
Inductive outcome (S A : Type) : Type :=
| Ok (a : A) (s : S)
| Panic (msg : string)
| Hang.
Arguments Ok {S A} _ _.
Arguments Panic {S A} _.
Arguments Hang {S A}.

Definition M (S A : Type) : Type := S → outcome S A.

#[export] Instance M_ret S : MRet (M S) := λ A a s, Ok a s.
#[export] Instance M_bind S : MBind (M S) := λ A B f m s,
  match m s with
  | Ok a s' => f a s'
  | Panic e => Panic e
  | Hang => Hang
  end.
#[export] Instance M_fmap S : FMap (M S) := λ A B f m s,
  match m s with
  | Ok a s' => Ok (f a) s'
  | Panic e => Panic e
  | Hang => Hang
  end.

Section ops.
Context {S : Type}.

Definition panic {A} (msg : string) : M S A := λ _, Panic msg.
Definition hang {A} : M S A := λ _, Hang.
Definition get : M S S := λ s, Ok s s.
Definition put (s : S) : M S () := λ _, Ok () s.
Definition gets {A} (f : S → A) : M S A := λ s, Ok (f s) s.
Definition modify (f : S → S) : M S () := λ s, Ok () (f s).
Definition when (b : bool) (m : M S ()) : M S () := if b then m else mret ().

(** [for] over a range of values, and the same with an early [return]
    or [break] carrying a value out of the loop. *)
Fixpoint for_each {A} (l : list A) (body : A → M S ()) : M S () :=
  match l with
  | [] => mret ()
  | x :: l' => body x;; for_each l' body
  end.

Fixpoint for_until {A R} (l : list A) (body : A → M S (option R)) : M S (option R) :=
  match l with
  | [] => mret None
  | x :: l' =>
      r ← body x;
      match r with
      | Some v => mret (Some v)
      | None => for_until l' body
      end
  end.
End ops.

(** The result of a run that is known not to panic. *)
Definition run {S A} (m : M S A) (s : S) : option (A * S) :=
  match m s with
  | Ok a s' => Some (a, s')
  | _ => None
  end.

Section laws.
Context {S A B : Type}.

Lemma bind_ok (m : M S A) (f : A → M S B) s a s' :
  m s = Ok a s' → (m ≫= f) s = f a s'.
Proof. intros H. unfold mbind, M_bind. by rewrite H. Qed.

Lemma bind_panic (m : M S A) (f : A → M S B) s e :
  m s = Panic e → (m ≫= f) s = Panic e.
Proof. intros H. unfold mbind, M_bind. by rewrite H. Qed.

Lemma bind_inv (m : M S A) (f : A → M S B) s b s' :
  (m ≫= f) s = Ok b s' → ∃ a s1, m s = Ok a s1 ∧ f a s1 = Ok b s'.
Proof. unfold mbind, M_bind. destruct (m s); naive_solver. Qed.

Lemma bind_get (f : S → M S B) s : (get ≫= f) s = f s s.
Proof. done. Qed.
Lemma bind_gets (g : S → A) (f : A → M S B) s : (gets g ≫= f) s = f (g s) s.
Proof. done. Qed.
Lemma bind_modify g (f : () → M S B) s : (modify g ≫= f) s = f () (g s).
Proof. done. Qed.
Lemma bind_put s' (f : () → M S B) s : (put s' ≫= f) s = f () s'.
Proof. done. Qed.
Lemma bind_ret (a : A) (f : A → M S B) s : (mret a ≫= f) s = f a s.
Proof. done. Qed.
Lemma bind_panic_l msg (f : A → M S B) s : (panic msg ≫= f) s = Panic msg.
Proof. done. Qed.
Lemma bind_assoc {C} (m : M S A) (f : A → M S B) (g : B → M S C) s :
  ((m ≫= f) ≫= g) s = (m ≫= λ a, f a ≫= g) s.
Proof. unfold mbind, M_bind. by destruct (m s). Qed.
End laws.

Create Rewrite HintDb monad.
#[export] Hint Rewrite @bind_get @bind_gets @bind_modify @bind_put @bind_ret
  @bind_panic_l @bind_assoc : monad.

(** Evaluate the monadic plumbing at the head of the goal. *)
Ltac mrun :=
  unfold get, gets, put, modify, when, panic, hang, mret, M_ret, fmap, M_fmap,
    mbind, M_bind; cbv beta iota.

Ltac minv H :=
  let a := fresh "a" in let s := fresh "s" in let E := fresh "E" in
  apply bind_inv in H as (a & s & E & H).

(** ** Lists as C arrays *)

(** The last update of an array element in range; outside the range the
    source would write past the array, which each use rules out. *)
Lemma list_insert_same {A} (l : list A) i x : l !! i = Some x → <[i := x]> l = l.
Proof. apply list_insert_id. Qed.

Lemma lookup_insert_list {A} (l : list A) (i j : nat) x :
  (i < length l)%nat →
  <[i := x]> l !! j = if decide (i = j) then Some x else l !! j.
Proof.
  intros Hi. case_decide; subst.
  - by apply list_lookup_insert_eq.
  - by apply list_lookup_insert_ne.
Qed.

Lemma alter_insert_list {A} (l : list A) i x f :
  l !! i = Some x → alter f i l = <[i := f x]> l.
Proof.
  revert i. induction l as [|y l IH]; intros [|i]; simpl; try done.
  - by intros [= ->].
  - intros H. change (y :: alter f i l = y :: <[i := f x]> l). f_equal. by apply IH.
Qed.

Lemma omap_all {A B} (f : A → B) (g : B → option A) (l : list A) :
  (∀ x, g (f x) = Some x) → omap g (f <$> l) = l.
Proof. intros H. induction l as [|x l IH]; csimpl; [done|]. by rewrite H, IH. Qed.

Lemma omap_none {A B C} (f : A → B) (g : B → option C) (l : list A) :
  (∀ x, g (f x) = None) → omap g (f <$> l) = [].
Proof. intros H. induction l as [|x l IH]; csimpl; [done|]. by rewrite H, IH. Qed.

(** Sums over a list that changes in one place. *)
Lemma sum_list_insert {A} (f : A → nat) (l : list A) i x y :
  l !! i = Some x → (sum_list_with f (<[i := y]> l) + f x = sum_list_with f l + f y)%nat.
Proof. revert i. induction l as [|z l IH]; intros [|i]; simpl; try done; [intros [= ->]; lia | intros Hi; specialize (IH i Hi); lia]. Qed.

Lemma sum_list_lookup {A} (f : A → nat) (l : list A) i x : l !! i = Some x → (f x ≤ sum_list_with f l)%nat.
Proof. intros Hi. by eapply sum_list_with_in, list_elem_of_lookup_2. Qed.

(** Two entries of a list whose sum is at most one. *)
Lemma sum_list_unique {A} (f : A → nat) (l : list A) i j x y :
  (sum_list_with f l ≤ 1)%nat → l !! i = Some x → l !! j = Some y → f x = 1%nat → f y = 1%nat → i = j.
Proof.
  revert i j. induction l as [|z l IH]; intros [|i] [|j]; simpl; try done; intros Hs Hi Hj Hx Hy.
  - injection Hi as ->. pose proof (sum_list_lookup f l j y Hj). lia.
  - injection Hj as ->. pose proof (sum_list_lookup f l i x Hi). lia.
  - f_equal. apply IH; try done. lia.
Qed.

Create HintDb xv6.
Create Rewrite HintDb xv6.
#[export] Hint Resolve u32_range s32_range u8_range : xv6.
#[export] Hint Rewrite u32_u32 u32_add_l u32_add_r u32_sub_l u32_sub_r u32_s32 : xv6.
