(* ===== verification/Machine.v ===== *)
(** * The machine: memory, atomic instructions, address macros

    Byte-addressed memory, the x86 instructions the C code reaches through
    [src/x86.h], the trap frame, and the constants and macros of
    [src/param.h], [src/memlayout.h] and [src/mmu.h]. *)
From S2P Require Import Prelude.

(** ** Constants *)

Definition NPROC : nat := 64.
Definition KSTACKSIZE : Z := 4096.
Definition NCPU : nat := 8.
Definition NOFILE : nat := 16.
Definition NFILE : nat := 100.
Definition NINODE : nat := 50.
Definition NDEV : Z := 10.
Definition ROOTDEV : Z := 1.
Definition MAXARG : nat := 32.
Definition MAXOPBLOCKS : Z := 10.
Definition LOGSIZE : Z := MAXOPBLOCKS * 3.
Definition NBUF : Z := MAXOPBLOCKS * 3.
Definition FSSIZE : Z := 1000.

Definition EXTMEM : Z := 0x100000.
Definition PHYSTOP : Z := 0xE000000.
Definition DEVSPACE : Z := 0xFE000000.
Definition KERNBASE : Z := 0x80000000.
Definition KERNLINK : Z := KERNBASE + EXTMEM.
Definition V2P (a : Z) : Z := u32 (a - KERNBASE).
Definition P2V (a : Z) : Z := u32 (a + KERNBASE).

Definition FL_IF : Z := 0x200.
Definition SEG_KCODE : Z := 1.
Definition SEG_KDATA : Z := 2.
Definition SEG_UCODE : Z := 3.
Definition SEG_UDATA : Z := 4.
Definition SEG_TSS : Z := 5.
Definition DPL_USER : Z := 0x3.

Definition NPDENTRIES : Z := 1024.
Definition NPTENTRIES : Z := 1024.
Definition PGSIZE : Z := 4096.
Definition PTXSHIFT : Z := 12.
Definition PDXSHIFT : Z := 22.

(** ** Address macros of [mmu.h] *)

Definition PDX (va : Z) : Z := Z.land (Z.shiftr (u32 va) PDXSHIFT) 0x3FF.
Definition PTX (va : Z) : Z := Z.land (Z.shiftr (u32 va) PTXSHIFT) 0x3FF.
Definition PGADDR (d t o : Z) : Z :=
  u32 (Z.lor (Z.lor (Z.shiftl d PDXSHIFT) (Z.shiftl t PTXSHIFT)) o).
Definition PGROUNDUP (sz : Z) : Z := Z.land (u32 (sz + PGSIZE - 1)) 0xFFFFF000.
Definition PGROUNDDOWN (a : Z) : Z := Z.land (u32 a) 0xFFFFF000.

Definition PTE_P : Z := 0x001.
Definition PTE_W : Z := 0x002.
Definition PTE_U : Z := 0x004.
Definition PTE_ADDR (pte : Z) : Z := Z.land (u32 pte) 0xFFFFF000.
Definition PTE_FLAGS (pte : Z) : Z := Z.land (u32 pte) 0xFFF.

(** ** Byte-addressed memory *)

(** Memory maps an address to the byte it holds; 32-bit words are
    little-endian. Pointer arithmetic is not wrapped: a C pointer that
    leaves the address space is undefined behaviour. *)
Definition mem : Type := Z → Z.

Definition store8 (m : mem) (a v : Z) : mem := λ x, if x =? a then u8 v else m x.

Definition load32 (m : mem) (a : Z) : Z :=
  m a + 256 * m (a + 1) + 65536 * m (a + 2) + 16777216 * m (a + 3).

Definition store32 (m : mem) (a v : Z) : mem :=
  store8 (store8 (store8 (store8 m a v) (a + 1) (v / 256))
            (a + 2) (v / 65536)) (a + 3) (v / 16777216).

(** Bytes are bytes. *)
Definition wf_mem (m : mem) : Prop := ∀ a, 0 ≤ m a < 256.

(** ** Instructions of [x86.h] *)

(** [lock; cmpxchgl]: compare the cell with [expected], store [newval] on
    equality; the result is the zero flag and the cell. *)
Definition cas {A} `{EqDecision A} (cell expected newval : A) : bool * A :=
  if decide (cell = expected) then (true, newval) else (false, cell).

(** [lock; xchgl]: the old value and the cell. *)
Definition xchg (cell newval : Z) : Z * Z := (cell, newval).

(** [rep stosb] and [rep stosl]. *)
Fixpoint stosb (m : mem) (addr data : Z) (cnt : nat) : mem :=
  match cnt with
  | O => m
  | S cnt' => stosb (store8 m addr data) (addr + 1) data cnt'
  end.

Fixpoint stosl (m : mem) (addr data : Z) (cnt : nat) : mem :=
  match cnt with
  | O => m
  | S cnt' => stosl (store32 m addr data) (addr + 4) data cnt'
  end.

(** The trap frame built by the hardware and [trapasm.S]. *)
Record trapframe := Trapframe {
  tf_edi : Z; tf_esi : Z; tf_ebp : Z; tf_oesp : Z;
  tf_ebx : Z; tf_edx : Z; tf_ecx : Z; tf_eax : Z;
  tf_gs : Z; tf_padding1 : Z; tf_fs : Z; tf_padding2 : Z;
  tf_es : Z; tf_padding3 : Z; tf_ds : Z; tf_padding4 : Z;
  tf_trapno : Z;
  tf_err : Z; tf_eip : Z; tf_cs : Z; tf_padding5 : Z; tf_eflags : Z;
  tf_esp : Z; tf_ss : Z; tf_padding6 : Z
}.

#[export] Instance eta_trapframe : Settable trapframe := λ t,
  Trapframe (tf_edi t) (tf_esi t) (tf_ebp t) (tf_oesp t)
    (tf_ebx t) (tf_edx t) (tf_ecx t) (tf_eax t)
    (tf_gs t) (tf_padding1 t) (tf_fs t) (tf_padding2 t)
    (tf_es t) (tf_padding3 t) (tf_ds t) (tf_padding4 t)
    (tf_trapno t) (tf_err t) (tf_eip t) (tf_cs t) (tf_padding5 t)
    (tf_eflags t) (tf_esp t) (tf_ss t) (tf_padding6 t).

(** [memset(tf, 0, sizeof( *tf))]. *)
Definition zero_trapframe : trapframe :=
  Trapframe 0 0 0 0 0 0 0 0 0 0 0 0 0 0 0 0 0 0 0 0 0 0 0 0 0.

(** ** Lemmas *)

Lemma cas_true {A} `{EqDecision A} (cell e n : A) :
  (cas cell e n).1 = true ↔ cell = e.
Proof. unfold cas. case_decide; naive_solver. Qed.

Lemma store8_eq m a v : store8 m a v a = u8 v.
Proof. unfold store8. by rewrite Z.eqb_refl. Qed.

Lemma store8_ne m a v x : x ≠ a → store8 m a v x = m x.
Proof. intros H. unfold store8. by rewrite (proj2 (Z.eqb_neq _ _) H). Qed.

Lemma store8_wf m a v : wf_mem m → wf_mem (store8 m a v).
Proof.
  intros H x. unfold store8. case_match; [apply u8_range | apply H].
Qed.

Lemma store32_wf m a v : wf_mem m → wf_mem (store32 m a v).
Proof. intros H. by repeat apply store8_wf. Qed.

Lemma store32_byte m a v x :
  store32 m a v x =
    if decide (a ≤ x < a + 4) then u8 (v / 256 ^ (x - a)) else m x.
Proof.
  unfold store32, store8. case_decide as Hx.
  - assert (x = a ∨ x = a + 1 ∨ x = a + 2 ∨ x = a + 3) as [-> | [-> | [-> | ->]]] by lia;
      repeat match goal with
        | |- context [?u =? ?v] => destruct (Z.eqb_spec u v); try lia
        end.
    + replace (a - a) with 0 by lia. by rewrite Z.pow_0_r, Z.div_1_r.
    + by replace (a + 1 - a) with 1 by lia.
    + by replace (a + 2 - a) with 2 by lia.
    + by replace (a + 3 - a) with 3 by lia.
  - repeat match goal with
      | |- context [?u =? ?v] => destruct (Z.eqb_spec u v); try lia
      end.
Qed.

Lemma load32_store32_eq m a v : 0 ≤ v < 4294967296 → load32 (store32 m a v) a = v.
Proof.
  intros Hv. unfold load32. rewrite !store32_byte.
  rewrite !decide_True by lia.
  replace (a - a) with 0 by lia. replace (a + 1 - a) with 1 by lia.
  replace (a + 2 - a) with 2 by lia. replace (a + 3 - a) with 3 by lia.
  unfold u8. change (256 ^ 0) with 1. change (256 ^ 1) with 256.
  change (256 ^ 2) with 65536. change (256 ^ 3) with 16777216. zmod.
Qed.

Lemma load32_ext m m' a :
  (∀ x, a ≤ x < a + 4 → m x = m' x) → load32 m a = load32 m' a.
Proof. intros H. unfold load32. by rewrite !H by lia. Qed.

Lemma load32_store32_ne m a b v :
  a + 4 ≤ b ∨ b + 4 ≤ a → load32 (store32 m a v) b = load32 m b.
Proof.
  intros H. apply load32_ext. intros x Hx.
  rewrite store32_byte. rewrite decide_False by lia. done.
Qed.

Lemma load32_range m a : wf_mem m → 0 ≤ load32 m a < 4294967296.
Proof.
  intros H. unfold load32.
  pose proof (H a). pose proof (H (a + 1)). pose proof (H (a + 2)). pose proof (H (a + 3)).
  lia.
Qed.

Lemma stosb_byte m d c n x :
  stosb m d c n x = if decide (d ≤ x < d + Z.of_nat n) then u8 c else m x.
Proof.
  revert m d. induction n as [|n IH]; intros m d; simpl stosb.
  - rewrite decide_False by lia. done.
  - rewrite IH. destruct (decide (x = d)) as [->|Hne].
    + rewrite decide_False by lia. rewrite decide_True by lia. apply store8_eq.
    + rewrite store8_ne by done.
      destruct (decide (d + 1 ≤ x < d + 1 + Z.of_nat n)).
      * rewrite decide_True by lia. done.
      * rewrite decide_False by lia. done.
Qed.

Lemma stosl_byte m d v n x :
  stosl m d v n x =
    if decide (d ≤ x < d + 4 * Z.of_nat n)
    then u8 (v / 256 ^ ((x - d) mod 4)) else m x.
Proof.
  revert m d. induction n as [|n IH]; intros m d; simpl stosl.
  - rewrite decide_False by lia. done.
  - rewrite IH. rewrite store32_byte.
    destruct (decide (d ≤ x < d + 4)).
    + rewrite decide_False by lia. rewrite decide_True by lia.
      by rewrite Z.mod_small by lia.
    + destruct (decide (d + 4 ≤ x < d + 4 + 4 * Z.of_nat n)).
      * rewrite decide_True by lia. do 3 f_equal.
        replace (x - d) with (x - (d + 4) + 1 * 4) by lia. by rewrite Z.mod_add by lia.
      * rewrite decide_False by lia. done.
Qed.

#[export] Hint Resolve store8_wf store32_wf load32_range : xv6.

(** *** Page rounding *)

Lemma land_page_mask a : 0 ≤ a < 4294967296 → Z.land a 0xFFFFF000 = a - a mod 4096.
Proof.
  intros Ha.
  assert (Z.land a 0xFFFFF000 = Z.shiftl (Z.shiftr a 12) 12) as ->.
  { change 0xFFFFF000 with (Z.shiftl (Z.ones 20) 12).
    replace (Z.shiftr a 12) with (Z.land (Z.shiftr a 12) (Z.ones 20)).
    - apply Z.bits_inj'. intros n Hn.
      rewrite Z.land_spec, !Z.shiftl_spec by done.
      destruct (Z.leb_spec 12 n).
      + rewrite Z.land_spec, Z.shiftr_spec by lia. by replace (n - 12 + 12) with n by lia.
      + rewrite !(Z.testbit_neg_r _ (n - 12)) by lia. apply andb_false_r.
    - rewrite Z.land_ones by lia. apply Z.mod_small.
      rewrite Z.shiftr_div_pow2 by lia. change (2 ^ 12) with 4096. change (2 ^ 20) with 1048576.
      zmod. }
  rewrite Z.shiftl_mul_pow2, Z.shiftr_div_pow2 by lia. change (2 ^ 12) with 4096. zmod.
Qed.

Lemma PGROUNDDOWN_spec a : 0 ≤ a < 4294967296 → PGROUNDDOWN a = a - a mod 4096.
Proof. intros Ha. unfold PGROUNDDOWN. rewrite u32_small by done. by apply land_page_mask. Qed.

(** Rounding up gives the least page boundary at or above the size, as
    long as the size is at most the last page boundary. *)
Lemma PGROUNDUP_spec sz :
  0 ≤ sz ≤ 0xFFFFF000 →
  sz ≤ PGROUNDUP sz < sz + PGSIZE ∧ PGROUNDUP sz mod PGSIZE = 0.
Proof.
  intros Hsz. unfold PGROUNDUP, PGSIZE. rewrite u32_small by lia.
  rewrite land_page_mask by lia. zmod.
Qed.

(** Past the last page boundary the sum wraps and rounds to zero. *)
Lemma PGROUNDUP_wraps sz :
  0xFFFFF000 < sz < 4294967296 → PGROUNDUP sz = 0.
Proof.
  intros Hsz. unfold PGROUNDUP, PGSIZE, u32.
  replace ((sz + 4096 - 1) mod 4294967296) with (sz + 4096 - 1 - 4294967296) by zmod.
  rewrite land_page_mask by lia. zmod.
Qed.

Lemma PDX_spec va : 0 ≤ va < 4294967296 → PDX va = va / 4194304.
Proof.
  intros H. unfold PDX, PDXSHIFT. rewrite u32_small by done.
  change 0x3FF with (Z.ones 10). rewrite Z.land_ones, Z.shiftr_div_pow2 by lia.
  change (2 ^ 22) with 4194304. change (2 ^ 10) with 1024. apply Z.mod_small. zmod.
Qed.

Lemma PTX_spec va : 0 ≤ va < 4294967296 → PTX va = (va / 4096) mod 1024.
Proof.
  intros H. unfold PTX, PTXSHIFT. rewrite u32_small by done.
  change 0x3FF with (Z.ones 10). by rewrite Z.land_ones, Z.shiftr_div_pow2 by lia.
Qed.

Lemma lor_disjoint_add a b n :
  0 ≤ n → 0 ≤ b < 2 ^ n → Z.lor (Z.shiftl a n) b = a * 2 ^ n + b.
Proof.
  intros Hn Hb. rewrite <- Z.shiftl_mul_pow2 by done.
  rewrite <- Z.lxor_lor, Z.add_nocarry_lxor; [done | |];
    apply Z.bits_inj'; intros i Hi; rewrite Z.land_spec, Z.bits_0, Z.shiftl_spec by done;
    (destruct (Z.leb_spec n i);
     [ assert (Z.testbit b i = false) as ->;
       [ destruct (Z.eq_dec b 0) as [->|]; [apply Z.bits_0 |];
         apply Z.bits_above_log2; [lia |];
         apply Z.log2_lt_pow2; [lia |];
         apply Z.lt_le_trans with (2 ^ n); [lia | apply Z.pow_le_mono_r; lia]
       | apply andb_false_r ]
     | by rewrite (Z.testbit_neg_r _ (i - n)) by lia ]).
Qed.

Lemma PGADDR_spec d t o :
  0 ≤ d < 1024 → 0 ≤ t < 1024 → 0 ≤ o < 4096 →
  PGADDR d t o = d * 4194304 + t * 4096 + o.
Proof.
  intros Hd Ht Ho. unfold PGADDR, PDXSHIFT, PTXSHIFT.
  rewrite <- Z.lor_assoc. rewrite (lor_disjoint_add t o 12) by lia.
  change (2 ^ 12) with 4096.
  rewrite (lor_disjoint_add d (t * 4096 + o) 22) by lia.
  change (2 ^ 22) with 4194304. rewrite u32_small; lia.
Qed.
