(* ===== verification/CString.v ===== *)
(** * Memory and string routines

    The kernel's routines of [src/string.c] over the byte memory of
    [Machine]. Pointers are addresses; a routine that scans for a NUL has
    no bound of its own, so it takes fuel and the theorems say how much
    is enough. *)
From S2P Require Import Prelude Machine.

Module KString.

(** [memset]: word stores when pointer and length are word-aligned. *)
Definition memset (m : mem) (dst c n : Z) : mem :=
  if (Z.rem (s32 dst) 4 =? 0) && (n mod 4 =? 0) then
    let c := Z.land c 0xFF in
    stosl m dst
      (u32 (Z.lor (Z.lor (Z.lor (Z.shiftl c 24) (Z.shiftl c 16)) (Z.shiftl c 8)) c))
      (Z.to_nat (n / 4))
  else stosb m dst c (Z.to_nat n).

Fixpoint memcmp_loop (m : mem) (s1 s2 : Z) (n : nat) : Z :=
  match n with
  | O => 0
  | S n' =>
      if negb (m s1 =? m s2) then m s1 - m s2
      else memcmp_loop m (s1 + 1) (s2 + 1) n'
  end.

Definition memcmp (m : mem) (v1 v2 n : Z) : Z := memcmp_loop m v1 v2 (Z.to_nat n).

(** The two copy loops of [memmove]: [*--d = *--s] and [*d++ = *s++]. *)
Fixpoint copy_down (m : mem) (d s : Z) (n : nat) : mem :=
  match n with
  | O => m
  | S n' => copy_down (store8 m (d - 1) (m (s - 1))) (d - 1) (s - 1) n'
  end.

Fixpoint copy_up (m : mem) (d s : Z) (n : nat) : mem :=
  match n with
  | O => m
  | S n' => copy_up (store8 m d (m s)) (d + 1) (s + 1) n'
  end.

Definition memmove (m : mem) (dst src n : Z) : mem :=
  if (src <? dst) && (dst <? src + n) then
    copy_down m (dst + n) (src + n) (Z.to_nat n)
  else copy_up m dst src (Z.to_nat n).

Definition memcpy (m : mem) (dst src n : Z) : mem := memmove m dst src n.

(** [while(n > 0 && *p && *p == *q) n--, p++, q++;] then the difference. *)
Fixpoint strncmp_loop (m : mem) (p q : Z) (n : nat) : Z :=
  match n with
  | O => 0
  | S n' =>
      if truthy (m p) && (m p =? m q) then strncmp_loop m (p + 1) (q + 1) n'
      else m p - m q
  end.

Definition strncmp (m : mem) (p q n : Z) : Z := strncmp_loop m p q (Z.to_nat n).

(** [while(n-- > 0 && ( *s++ = *t++) != 0);] returns the memory, [s] and
    the iterations left for the padding loop. *)
Fixpoint strncpy_copy (m : mem) (s t : Z) (n : nat) : mem * Z * nat :=
  match n with
  | O => (m, s, O)
  | S n' =>
      let m' := store8 m s (m t) in
      if truthy (m t) then strncpy_copy m' (s + 1) (t + 1) n' else (m', s + 1, n')
  end.

Fixpoint strncpy_pad (m : mem) (s : Z) (n : nat) : mem :=
  match n with
  | O => m
  | S n' => strncpy_pad (store8 m s 0) (s + 1) n'
  end.

Definition strncpy (m : mem) (s t n : Z) : mem :=
  let '(m', s', n') := strncpy_copy m s t (Z.to_nat n) in strncpy_pad m' s' n'.

(** [while(--n > 0 && ( *s++ = *t++) != 0);] with [n - 1] iterations. *)
Fixpoint safestrcpy_copy (m : mem) (s t : Z) (n : nat) : mem * Z :=
  match n with
  | O => (m, s)
  | S n' =>
      let m' := store8 m s (m t) in
      if truthy (m t) then safestrcpy_copy m' (s + 1) (t + 1) n' else (m', s + 1)
  end.

Definition safestrcpy (m : mem) (s t n : Z) : mem :=
  if n <=? 0 then m
  else
    let '(m', s') := safestrcpy_copy m s t (Z.to_nat (n - 1)) in
    store8 m' s' 0.

Fixpoint strlen_loop (m : mem) (s n : Z) (fuel : nat) : option Z :=
  match fuel with
  | O => None
  | S fuel' => if truthy (m (s + n)) then strlen_loop m s (n + 1) fuel' else Some n
  end.

Definition strlen (fuel : nat) (m : mem) (s : Z) : option Z := strlen_loop m s 0 fuel.

End KString.

Import KString.

(** ** Copying *)

(** Memory after moving [n] bytes from [src] to [dst], read off the
    memory before the move. *)
Definition moved (m : mem) (dst src n : Z) : mem :=
  λ a, if decide (dst ≤ a < dst + n) then m (src + (a - dst)) else m a.

Lemma store8_load m a b : wf_mem m → store8 m a (m b) a = m b.
Proof. intros H. rewrite store8_eq. apply u8_small, H. Qed.

Lemma copy_down_spec n : ∀ m d s x,
  wf_mem m → s ≤ d →
  copy_down m d s n x = moved m (d - Z.of_nat n) (s - Z.of_nat n) (Z.of_nat n) x.
Proof.
  induction n as [|n IH]; intros m d s x Hwf Hle; simpl copy_down; unfold moved.
  - rewrite decide_False by lia. done.
  - rewrite IH by (try apply store8_wf; (done || lia)). unfold moved.
    destruct (decide (x = d - 1)) as [->|Hne].
    + rewrite decide_False by lia. rewrite decide_True by lia.
      rewrite store8_load by done. f_equal. lia.
    + destruct (decide (d - 1 - Z.of_nat n ≤ x < d - 1 - Z.of_nat n + Z.of_nat n)).
      * rewrite decide_True by lia. rewrite store8_ne by lia. f_equal. lia.
      * rewrite decide_False by lia. by rewrite store8_ne.
Qed.

Lemma copy_up_spec n : ∀ m d s x,
  wf_mem m → (d ≤ s ∨ s + Z.of_nat n ≤ d) →
  copy_up m d s n x = moved m d s (Z.of_nat n) x.
Proof.
  induction n as [|n IH]; intros m d s x Hwf Hle; simpl copy_up; unfold moved.
  - rewrite decide_False by lia. done.
  - rewrite IH by (try apply store8_wf; (done || lia)). unfold moved.
    destruct (decide (x = d)) as [->|Hne].
    + rewrite decide_False by lia. rewrite decide_True by lia.
      rewrite store8_load by done. f_equal. lia.
    + destruct (decide (d + 1 ≤ x < d + 1 + Z.of_nat n)).
      * rewrite decide_True by lia. rewrite store8_ne by lia. f_equal. lia.
      * rewrite decide_False by lia. by rewrite store8_ne.
Qed.

Lemma memmove_byte m dst src n x :
  wf_mem m → 0 ≤ n → memmove m dst src n x = moved m dst src n x.
Proof.
  intros Hwf Hn. unfold memmove.
  destruct (Z.ltb_spec src dst), (Z.ltb_spec dst (src + n)); cbn [andb].
  2-4: by rewrite copy_up_spec, Z2Nat.id by (rewrite ?Z2Nat.id; done || lia).
  rewrite copy_down_spec, Z2Nat.id by (done || lia).
  unfold moved. replace (dst + n - n) with dst by lia. by replace (src + n - n) with src by lia.
Qed.

(** [memmove] copies correctly whatever the overlap: afterwards the
    [n] bytes at [dst] are those that were at [src] before the call, and
    no other byte changed. *)
Theorem memmove_correct m dst src n x :
  wf_mem m → 0 ≤ n → memmove m dst src n x = moved m dst src n x.
Proof. apply memmove_byte. Qed.

Lemma memmove_correct_witness :
  memmove (λ a, u8 a) 101 100 3 103 = 102.
Proof. rewrite (memmove_correct (λ a, u8 a) 101 100 3 103); [done | intros a; apply u8_range | lia]. Defined.

(** ** Filling *)

Lemma rem4_mod4 z : Z.rem z 4 = 0 ↔ z mod 4 = 0.
Proof. zmod. Qed.

(** The word that [memset] hands to [stosl] repeats the byte four times. *)
Lemma memset_word c :
  0 ≤ c < 256 →
  u32 (Z.lor (Z.lor (Z.lor (Z.shiftl c 24) (Z.shiftl c 16)) (Z.shiftl c 8)) c)
  = c * 16843009.
Proof.
  intros Hc. rewrite <- !Z.lor_assoc.
  rewrite (lor_disjoint_add c c 8) by lia.
  rewrite (lor_disjoint_add c (c * 2 ^ 8 + c) 16) by lia.
  rewrite (lor_disjoint_add c (c * 2 ^ 16 + (c * 2 ^ 8 + c)) 24) by lia.
  rewrite u32_small; lia.
Qed.

Lemma repeated_byte c k : 0 ≤ c < 256 → 0 ≤ k < 4 → u8 (c * 16843009 / 256 ^ k) = c.
Proof.
  intros Hc Hk. assert (k = 0 ∨ k = 1 ∨ k = 2 ∨ k = 3) as [-> | [-> | [-> | ->]]] by lia.
  all: unfold u8.
  - change (256 ^ 0) with 1. zmod.
  - change (256 ^ 1) with 256. zmod.
  - change (256 ^ 2) with 65536. zmod.
  - change (256 ^ 3) with 16777216. zmod.
Qed.

Lemma memset_byte m dst c n x :
  0 ≤ n →
  memset m dst c n x = if decide (dst ≤ x < dst + n) then u8 c else m x.
Proof.
  intros Hn. unfold memset.
  assert (Z.land c 0xFF = u8 c) as ->.
  { change 0xFF with (Z.ones 8). by rewrite Z.land_ones by lia. }
  rewrite memset_word by apply u8_range.
  destruct (Z.eqb_spec (Z.rem (s32 dst) 4) 0), (Z.eqb_spec (n mod 4) 0); cbn [andb].
  2-4: by rewrite stosb_byte, Z2Nat.id by done.
  rewrite stosl_byte, Z2Nat.id by zmod.
  replace (dst + 4 * (n / 4)) with (dst + n) by zmod.
  case_decide; [|done]. apply repeated_byte; [apply u8_range | apply Z.mod_pos_bound; lia].
Qed.

(** both paths of [memset] (word stores and byte stores) fill exactly
    the [n] bytes at [dst] with the low byte of [c]. *)
Theorem memset_correct m dst c n x :
  0 ≤ n →
  memset m dst c n x = if decide (dst ≤ x < dst + n) then u8 c else m x.
Proof. apply memset_byte. Qed.

Lemma memset_correct_witness :
  memset (λ _, 7) 100 0x1FF 8 103 = 255 ∧ memset (λ _, 7) 101 0x1FF 8 109 = 7.
Proof.
  split; [rewrite (memset_correct (λ _, 7) 100 0x1FF 8 103) by lia; reflexivity |].
  rewrite (memset_correct (λ _, 7) 101 0x1FF 8 109) by lia. reflexivity.
Defined.

(** ** Comparing *)

Lemma memcmp_zero m n : ∀ p q,
  memcmp_loop m p q n = 0 ↔ ∀ i, 0 ≤ i < Z.of_nat n → m (p + i) = m (q + i).
Proof.
  induction n as [|n IH]; intros p q; simpl memcmp_loop.
  - split; [lia | done].
  - destruct (Z.eqb_spec (m p) (m q)) as [He|He]; cbn [negb].
    + rewrite IH. split; intros H i Hi.
      * destruct (decide (i = 0)) as [->|]; [by rewrite !Z.add_0_r |].
        replace (p + i) with (p + 1 + (i - 1)) by lia.
        replace (q + i) with (q + 1 + (i - 1)) by lia. apply H. lia.
      * rewrite <- !Z.add_assoc. apply H. lia.
    + split; [lia |]. intros H. specialize (H 0 ltac:(lia)). rewrite !Z.add_0_r in H. lia.
Qed.

(** Equality of two C strings up to [n] bytes: no difference at or before
    the first NUL. *)
Definition str_agree (m : mem) (p q n : Z) : Prop :=
  ∀ i, 0 ≤ i < n → (∀ j, 0 ≤ j < i → m (p + j) ≠ 0) → m (p + i) = m (q + i).

Lemma str_agree_step m p q n :
  0 < n → m p = m q → (str_agree m p q n ↔ (m p = 0 ∨ str_agree m (p + 1) (q + 1) (n - 1))).
Proof.
  intros Hn Heq. unfold str_agree. split.
  - intros H. destruct (decide (m p = 0)) as [|Hp]; [by left | right]. intros i Hi Hj.
    rewrite <- !Z.add_assoc. apply H; [lia |]. intros j Hj'.
    destruct (decide (j = 0)) as [->|]; [by rewrite Z.add_0_r |].
    replace (p + j) with (p + 1 + (j - 1)) by lia. apply Hj. lia.
  - intros H i Hi Hj. destruct (decide (i = 0)) as [->|]; [by rewrite !Z.add_0_r |].
    destruct H as [H|H].
    + exfalso. apply (Hj 0); [lia | by rewrite Z.add_0_r].
    + replace (p + i) with (p + 1 + (i - 1)) by lia.
      replace (q + i) with (q + 1 + (i - 1)) by lia. apply H; [lia |].
      intros j Hj'. rewrite <- Z.add_assoc. apply Hj. lia.
Qed.

Lemma strncmp_loop_zero m n : ∀ p q,
  strncmp_loop m p q n = 0 ↔ str_agree m p q (Z.of_nat n).
Proof.
  induction n as [|n IH]; intros p q; simpl strncmp_loop.
  - split; [|done]. intros _ i Hi. lia.
  - unfold truthy. destruct (Z.eqb_spec (m p) (m q)) as [He|He].
    + rewrite (str_agree_step m p q) by (done || lia).
      replace (Z.of_nat (S n) - 1) with (Z.of_nat n) by lia. rewrite <- IH.
      destruct (Z.eqb_spec (m p) 0); cbn [negb andb].
      * split; [by left | lia].
      * split; [by right | by intros [?|?]].
    + rewrite andb_false_r. split; [lia |]. intros H.
      specialize (H 0 ltac:(lia)). rewrite !Z.add_0_r in H. specialize (H ltac:(lia)). lia.
Qed.

(** [strncmp] (and so [namecmp] on directory entries) returns zero
    exactly when the two strings agree up to the first NUL or [n] bytes. *)
Theorem strncmp_zero_iff m p q n :
  0 ≤ n → strncmp m p q n = 0 ↔ str_agree m p q n.
Proof.
  intros Hn. unfold strncmp. by rewrite strncmp_loop_zero, Z2Nat.id.
Qed.

Lemma strncmp_zero_iff_witness :
  strncmp (λ a, if a mod 4 =? 3 then 0 else a mod 4) 0 8 14 = 0 ↔
  str_agree (λ a, if a mod 4 =? 3 then 0 else a mod 4) 0 8 14.
Proof. apply (strncmp_zero_iff _ 0 8 14). lia. Defined.

(** ** Bounded copies of strings *)

Lemma safestrcpy_copy_spec N : ∀ m s t k m' s',
  wf_mem m →
  s + Z.of_nat N < t ∨ t + Z.of_nat N < s →
  0 ≤ k ≤ Z.of_nat N →
  (∀ i, 0 ≤ i < k → m (t + i) ≠ 0) → (k < Z.of_nat N → m (t + k) = 0) →
  safestrcpy_copy m s t N = (m', s') →
  s' = s + Z.min (k + 1) (Z.of_nat N) ∧
  ∀ a, m' a = if decide (s ≤ a < s') then m (t + (a - s)) else m a.
Proof.
  induction N as [|N IH]; intros m s t k m' s' Hwf Hdis Hk Hne Hz; simpl safestrcpy_copy.
  - intros [= <- <-]. split; [lia |]. intros a. by rewrite decide_False by lia.
  - unfold truthy. destruct (Z.eqb_spec (m t) 0) as [Ht|Ht]; cbn [negb].
    + intros [= <- <-]. assert (k = 0) as ->.
      { destruct (decide (k = 0)); [done |]. exfalso.
        apply (Hne 0); [lia |]. by rewrite Z.add_0_r. }
      split; [lia |]. intros a. destruct (decide (a = s)) as [->|].
      * rewrite decide_True, store8_load by (done || lia). f_equal. lia.
      * rewrite decide_False by lia. by apply store8_ne.
    + assert (0 < k) as Hk0.
      { destruct (decide (k = 0)) as [->|]; [|lia]. exfalso. apply Ht.
        rewrite <- (Z.add_0_r t). apply Hz. lia. }
      intros E. apply IH with (k := k - 1) in E as [-> Ha];
        [| by apply store8_wf | lia | lia | |].
      * split; [lia |]. intros a. rewrite Ha. destruct (decide (a = s)) as [->|].
        -- rewrite decide_False by lia. rewrite decide_True by lia.
           rewrite store8_load by done. f_equal. lia.
        -- case_decide.
           ++ rewrite decide_True by lia. rewrite store8_ne by lia. f_equal. lia.
           ++ rewrite decide_False by lia. by apply store8_ne.
      * intros i Hi. rewrite store8_ne by lia. rewrite <- Z.add_assoc. apply Hne. lia.
      * intros Hlt. rewrite store8_ne by lia. rewrite <- Z.add_assoc.
        replace (1 + (k - 1)) with k by lia. apply Hz. lia.
Qed.

(** [safestrcpy] into a buffer of [n] bytes copies the string up to
    its NUL or to [n - 1] bytes, always terminates it, and writes no byte
    outside the buffer. *)
Theorem safestrcpy_correct m s t n k :
  wf_mem m → 0 < n → (s + n ≤ t ∨ t + n ≤ s) →
  0 ≤ k < n → (∀ i, 0 ≤ i < k → m (t + i) ≠ 0) → (m (t + k) = 0 ∨ k = n - 1) →
  (∀ i, 0 ≤ i < k → safestrcpy m s t n (s + i) = m (t + i)) ∧
  safestrcpy m s t n (s + k) = 0 ∧
  (∀ a, ¬ (s ≤ a < s + n) → safestrcpy m s t n a = m a).
Proof.
  intros Hwf Hn Hdis Hk Hne Hend. unfold safestrcpy.
  rewrite (proj2 (Z.leb_gt n 0)) by lia.
  destruct (safestrcpy_copy m s t (Z.to_nat (n - 1))) as [m' s'] eqn:E.
  apply safestrcpy_copy_spec with (k := k) in E as [-> Ha];
    rewrite ?Z2Nat.id by lia; try (done || lia).
  rewrite Z2Nat.id in * by lia. split_and!.
  - intros i Hi. rewrite store8_ne by lia. rewrite Ha, decide_True by lia. f_equal. lia.
  - destruct (decide (k = n - 1)) as [->|].
    + replace (s + Z.min (n - 1 + 1) (n - 1)) with (s + (n - 1)) by lia. by rewrite store8_eq.
    + rewrite store8_ne, Ha, decide_True by lia.
      replace (s + k - s) with k by lia. by destruct Hend.
  - intros a Ha'. rewrite store8_ne, Ha, decide_False by lia. done.
Qed.

Lemma safestrcpy_correct_witness :
  let m := λ a, if a =? 200 then 104 else if a =? 201 then 105 else 0 in
  (∀ i, 0 ≤ i < 2 → safestrcpy m 100 200 16 (100 + i) = m (200 + i)) ∧
  safestrcpy m 100 200 16 (100 + 2) = 0 ∧
  (∀ a, ¬ (100 ≤ a < 100 + 16) → safestrcpy m 100 200 16 a = m a).
Proof.
  intros m. apply (safestrcpy_correct m 100 200 16 2); try lia.
  - intros a. unfold m. repeat case_match; lia.
  - intros i Hi. assert (i = 0 ∨ i = 1) as [-> | ->] by lia; done.
  - by left.
Defined.
