(* ===== verification/Spin.v ===== *)
(** * Interrupt nesting and spin locks

    [src/spinlock.c] and the per-CPU lookup of [src/proc.c] ([mycpu],
    [cpuid]). The state is what the executing processor sees: the CPU
    table, its own APIC id, its interrupt flag and the kernel stack that
    [getcallerpcs] walks. *)
From S2P Require Import Prelude Machine.

(** ** State *)

Record cpu := Cpu {
  apicid : Z;              (* Local APIC ID *)
  ncli : Z;                (* Depth of pushcli nesting *)
  intena : Z;              (* Were interrupts enabled before pushcli? *)
  cpu_proc : option nat    (* The process running on this cpu *)
}.
#[export] Instance eta_cpu : Settable cpu := λ c,
  Cpu (apicid c) (ncli c) (intena c) (cpu_proc c).

Record spinlock := Spinlock {
  locked : Z;
  lk_name : string;
  lk_cpu : option nat;     (* index in cpus[] of the holder, None for 0 *)
  pcs : list Z
}.
#[export] Instance eta_spinlock : Settable spinlock := λ l,
  Spinlock (locked l) (lk_name l) (lk_cpu l) (pcs l).

(** [cpus[0..ncpu)], the APIC id of the executing processor, its EFLAGS
    and the memory of its stack. *)
Record mach := Mach {
  cpus : list cpu;
  lapicid : Z;
  eflags : Z;
  stack_mem : mem
}.
#[export] Instance eta_mach : Settable mach := λ s,
  Mach (cpus s) (lapicid s) (eflags s) (stack_mem s).

(** ** Operations *)

Definition readeflags : M mach Z := gets eflags.
Definition cli : M mach () :=
  modify (λ s, s <| eflags := Z.land (eflags s) (Z.lnot FL_IF) |>).
Definition sti : M mach () :=
  modify (λ s, s <| eflags := Z.lor (eflags s) FL_IF |>).

(** The index of the first CPU with this APIC id. *)
Fixpoint find_cpu (id : Z) (i : nat) (cs : list cpu) : option nat :=
  match cs with
  | [] => None
  | c :: cs' => if apicid c =? id then Some i else find_cpu id (S i) cs'
  end.

Definition mycpu : M mach nat :=
  fl ← readeflags;
  if truthy (Z.land fl FL_IF) then panic "mycpu called with interrupts enabled"
  else
    s ← get;
    match find_cpu (lapicid s) 0 (cpus s) with
    | Some i => mret i
    | None => panic "unknown apicid"
    end.

Definition cpuid : M mach nat := mycpu.

(** Field access through the pointer [mycpu()] returned. *)
Definition cpu_get {A} (f : cpu → A) : M mach A :=
  i ← mycpu;
  s ← get;
  match cpus s !! i with
  | Some c => mret (f c)
  | None => panic "bad cpu index"
  end.

Definition cpu_set (f : cpu → cpu) : M mach () :=
  i ← mycpu; modify (λ s, s <| cpus := alter f i (cpus s) |>).

Definition pushcli : M mach () :=
  fl ← readeflags;
  cli;;
  n ← cpu_get ncli;
  when (n =? 0) (cpu_set (λ c, c <| intena := Z.land fl FL_IF |>));;
  cpu_set (λ c, c <| ncli := ncli c + 1 |>).

Definition popcli : M mach () :=
  fl ← readeflags;
  if truthy (Z.land fl FL_IF) then panic "popcli - interruptible"
  else
    cpu_set (λ c, c <| ncli := ncli c - 1 |>);;
    n ← cpu_get ncli;
    if n <? 0 then panic "popcli"
    else
      e ← cpu_get intena;
      when ((n =? 0) && truthy e) sti.

Definition initlock (name : string) (lk : spinlock) : spinlock :=
  lk <| lk_name := name |> <| locked := 0 |> <| lk_cpu := None |>.

(** Check whether this cpu is holding the lock. *)
Definition holding (lk : spinlock) : M mach bool :=
  pushcli;;
  r ← (if truthy (locked lk) then
         i ← mycpu; mret (bool_decide (lk_cpu lk = Some i))
       else mret false);
  popcli;;
  mret r.

(** Follow the saved-[%ebp] chain from the argument's address [v]. *)
Fixpoint walk_ebp (m : mem) (ebp : Z) (i : nat) : list Z :=
  match i with
  | O => []
  | S i' =>
      if (ebp =? 0) || (ebp <? KERNBASE) || (ebp =? 0xffffffff) then replicate i 0
      else load32 m (ebp + 4) :: walk_ebp m (load32 m ebp) i'
  end.

Definition getcallerpcs (m : mem) (v : Z) : list Z := walk_ebp m (u32 (v - 8)) 10.

(** [v] is the address of the parameter [lk] in the caller's frame. The
    spin on [xchg] ends at once on a free lock; on a lock held by another
    CPU nothing in a sequential run can end it. *)
Definition acquire (v : Z) (lk : spinlock) : M mach spinlock :=
  pushcli;;
  h ← holding lk;
  if h : bool then panic "acquire"
  else
    let '(old, new) := xchg (locked lk) 1 in
    if truthy old then hang
    else
      i ← mycpu;
      s ← get;
      mret (lk <| locked := new |> <| lk_cpu := Some i |>
               <| pcs := getcallerpcs (stack_mem s) v |>).

Definition release (lk : spinlock) : M mach spinlock :=
  h ← holding lk;
  if negb h then panic "release"
  else
    let lk' := lk <| pcs := <[0%nat := 0]> (pcs lk) |> <| lk_cpu := None |> <| locked := 0 |> in
    popcli;;
    mret lk'.

(** ** Lemmas *)

Lemma if_cleared f : Z.land (Z.land f (Z.lnot FL_IF)) FL_IF = 0.
Proof.
  rewrite <- Z.land_assoc, (Z.land_comm (Z.lnot FL_IF)), Z.land_lnot_diag. apply Z.land_0_r.
Qed.

(** Interrupts are off on the executing processor. *)
Definition if_off (s : mach) : Prop := Z.land (eflags s) FL_IF = 0.

(** The executing processor is [cpus[i]], holding [c]. *)
Definition on_cpu (s : mach) (i : nat) (c : cpu) : Prop :=
  find_cpu (lapicid s) 0 (cpus s) = Some i ∧ cpus s !! i = Some c.

(** The interrupt flag can only be on when no [pushcli] is pending. *)
Definition cli_inv (s : mach) (c : cpu) : Prop :=
  0 ≤ ncli c ∧ (0 < ncli c → if_off s).

Lemma cli_off f : Z.land (Z.land f (Z.lnot FL_IF)) FL_IF = 0.
Proof. apply if_cleared. Qed.

Lemma cli_noop f : Z.land f FL_IF = 0 → Z.land f (Z.lnot FL_IF) = f.
Proof.
  intros H. apply Z.bits_inj'. intros n Hn. rewrite Z.land_spec, Z.lnot_spec by done.
  assert (Z.testbit (Z.land f FL_IF) n = false) as Hb by (rewrite H; apply Z.bits_0).
  rewrite Z.land_spec in Hb. destruct (Z.testbit f n), (Z.testbit FL_IF n); done.
Qed.

Lemma sti_after_cli f :
  truthy (Z.land f FL_IF) = true → Z.lor (Z.land f (Z.lnot FL_IF)) FL_IF = f.
Proof.
  intros H. apply Z.bits_inj'. intros n Hn.
  rewrite Z.lor_spec, Z.land_spec, Z.lnot_spec by done.
  destruct (Z.eq_dec n 9) as [->|Hne].
  - unfold truthy in H. change FL_IF with (2 ^ 9) in *.
    destruct (Z.testbit f 9) eqn:E; [done |]. exfalso.
    destruct (Z.eqb_spec (Z.land f (2 ^ 9)) 0) as [|Hz]; [done |]. apply Hz.
    apply Z.bits_inj'. intros k Hk. rewrite Z.land_spec, Z.bits_0, Z.pow2_bits_eqb by lia.
    destruct (Z.eqb_spec 9 k) as [<-|]; [by rewrite E | apply andb_false_r].
  - change FL_IF with (2 ^ 9). rewrite Z.pow2_bits_eqb by lia.
    rewrite (proj2 (Z.eqb_neq 9 n)) by done. rewrite orb_false_r. apply andb_true_r.
Qed.

Lemma find_cpu_lookup id cs : ∀ k i,
  find_cpu id k cs = Some i → ∃ c, (k ≤ i)%nat ∧ cs !! (i - k)%nat = Some c ∧ apicid c = id.
Proof.
  induction cs as [|c cs IH]; intros k i; simpl; [done |].
  destruct (Z.eqb_spec (apicid c) id) as [He|He].
  - intros [= <-]. exists c. rewrite Nat.sub_diag. done.
  - intros H. apply IH in H as (c' & Hle & Hl & Ha). exists c'. split; [lia |].
    replace (i - k)%nat with (S (i - S k)) by lia. done.
Qed.

Lemma find_cpu_insert id cs i c c' : ∀ k,
  apicid c' = apicid c → cs !! i = Some c →
  find_cpu id k (<[i := c']> cs) = find_cpu id k cs.
Proof.
  revert i. induction cs as [|d cs IH]; intros i k Ha Hl; [done |].
  destruct i as [|i]; simpl in *.
  - injection Hl as ->. by rewrite Ha.
  - case_match; [done |]. by apply IH.
Qed.

Lemma on_cpu_insert s i c c' fl :
  on_cpu s i c → apicid c' = apicid c →
  on_cpu (Mach (<[i := c']> (cpus s)) (lapicid s) fl (stack_mem s)) i c'.
Proof.
  intros [Hf Hl] Ha. split; simpl.
  - by rewrite (find_cpu_insert _ _ _ c).
  - apply list_lookup_insert_eq. by eapply lookup_lt_Some.
Qed.

Lemma mycpu_ok s i c : on_cpu s i c → if_off s → mycpu s = Ok i s.
Proof.
  intros [Hf _] Hoff. unfold mycpu, readeflags. mrun.
  unfold if_off in Hoff. rewrite Hoff. simpl. by rewrite Hf.
Qed.

Lemma cpu_get_ok {A} (f : cpu → A) s i c :
  on_cpu s i c → if_off s → cpu_get f s = Ok (f c) s.
Proof.
  intros Hc Hoff. unfold cpu_get. rewrite (bind_ok _ _ _ _ _ (mycpu_ok _ _ _ Hc Hoff)).
  destruct Hc as [_ Hl]. mrun. by rewrite Hl.
Qed.

Lemma cpu_set_ok f s i c :
  on_cpu s i c → if_off s →
  cpu_set f s = Ok () (Mach (<[i := f c]> (cpus s)) (lapicid s) (eflags s) (stack_mem s)).
Proof.
  intros Hc Hoff. unfold cpu_set. rewrite (bind_ok _ _ _ _ _ (mycpu_ok _ _ _ Hc Hoff)).
  destruct Hc as [_ Hl]. mrun. unfold set_field.
  by rewrite (alter_insert_list _ _ c).
Qed.

(** The state after [n > 0] nested [pushcli]s on [cpus[i] = c]. *)
Definition pushed (s : mach) (i : nat) (c : cpu) (n : Z) : mach :=
  Mach (<[i := Cpu (apicid c) (ncli c + n)
                   (if ncli c =? 0 then Z.land (eflags s) FL_IF else intena c)
                   (cpu_proc c)]> (cpus s))
       (lapicid s) (Z.land (eflags s) (Z.lnot FL_IF)) (stack_mem s).

Lemma pushed_off s i c n : if_off (pushed s i c n).
Proof. apply cli_off. Qed.

Lemma pushed_on_cpu s i c n :
  on_cpu s i c → on_cpu (pushed s i c n) i
    (Cpu (apicid c) (ncli c + n)
       (if ncli c =? 0 then Z.land (eflags s) FL_IF else intena c) (cpu_proc c)).
Proof. intros Hc. by apply on_cpu_insert with c. Qed.

Lemma pushcli_ok s i c : on_cpu s i c → 0 ≤ ncli c → pushcli s = Ok () (pushed s i c 1).
Proof.
  intros Hc Hn. unfold pushcli, readeflags, cli.
  set (s1 := s <| eflags := Z.land (eflags s) (Z.lnot FL_IF) |>).
  assert (on_cpu s1 i c) as Hc1 by apply Hc.
  assert (if_off s1) as Hoff by apply cli_off.
  rewrite bind_gets, bind_modify. fold s1.
  rewrite (bind_ok _ _ _ _ _ (cpu_get_ok ncli _ _ _ Hc1 Hoff)).
  destruct (Z.eqb_spec (ncli c) 0) as [Hz|Hz]; unfold when.
  - rewrite (bind_ok _ _ _ _ _ (cpu_set_ok _ _ _ _ Hc1 Hoff)).
    erewrite cpu_set_ok; [| by apply (on_cpu_insert s1 i c) | done].
    unfold pushed, set_field. simpl. rewrite list_insert_insert_eq.
    by rewrite (proj2 (Z.eqb_eq _ _) Hz).
  - rewrite bind_ret.
    erewrite cpu_set_ok by done. unfold pushed, set_field. simpl.
    by rewrite (proj2 (Z.eqb_neq _ _) Hz).
Qed.

Lemma popcli_ok s i c :
  on_cpu s i c → if_off s → 1 ≤ ncli c →
  popcli s = Ok () (Mach (<[i := Cpu (apicid c) (ncli c - 1) (intena c) (cpu_proc c)]> (cpus s))
                      (lapicid s)
                      (if (ncli c =? 1) && truthy (intena c)
                       then Z.lor (eflags s) FL_IF else eflags s)
                      (stack_mem s)).
Proof.
  intros Hc Hoff Hn. unfold popcli, readeflags.
  rewrite bind_gets.
  unfold if_off in Hoff. rewrite Hoff. cbn [truthy negb Z.eqb].
  rewrite (bind_ok _ _ _ _ _ (cpu_set_ok _ _ _ _ Hc Hoff)).
  set (c' := Cpu (apicid c) (ncli c - 1) (intena c) (cpu_proc c)).
  change (c <| ncli := ncli c - 1 |>) with c'.
  assert (on_cpu (Mach (<[i:=c']> (cpus s)) (lapicid s) (eflags s) (stack_mem s)) i c') as Hc'
    by by apply on_cpu_insert with c.
  rewrite (bind_ok _ _ _ _ _ (cpu_get_ok ncli _ _ _ Hc' Hoff)).
  change (ncli c') with (ncli c - 1).
  rewrite (proj2 (Z.ltb_ge _ _)) by lia.
  rewrite (bind_ok _ _ _ _ _ (cpu_get_ok intena _ _ _ Hc' Hoff)).
  change (intena c') with (intena c).
  replace (ncli c - 1 =? 0) with (ncli c =? 1) by (destruct (Z.eqb_spec (ncli c) 1), (Z.eqb_spec (ncli c - 1) 0); lia).
  by destruct ((ncli c =? 1) && truthy (intena c)).
Qed.

(** [n] nested calls. *)
Fixpoint repeat_op (n : nat) (m : M mach ()) : M mach () :=
  match n with
  | O => mret ()
  | S n' => m;; repeat_op n' m
  end.

Lemma pushed_push s i c n :
  on_cpu s i c → 0 ≤ ncli c → 1 ≤ n → pushcli (pushed s i c n) = Ok () (pushed s i c (n + 1)).
Proof.
  intros Hc Hn Hn1. erewrite pushcli_ok; [| by apply pushed_on_cpu | simpl; lia].
  f_equal. unfold pushed. simpl. rewrite list_insert_insert_eq.
  rewrite (proj2 (Z.eqb_neq (ncli c + n) 0)) by lia.
  rewrite (cli_noop (Z.land _ _)) by apply cli_off.
  by replace (ncli c + n + 1) with (ncli c + (n + 1)) by lia.
Qed.

Lemma pushed_pop s i c n :
  on_cpu s i c → 0 ≤ ncli c → 1 ≤ n → popcli (pushed s i c (n + 1)) = Ok () (pushed s i c n).
Proof.
  intros Hc Hn Hn1. erewrite popcli_ok; [| by apply pushed_on_cpu | apply pushed_off | simpl; lia].
  unfold pushed. simpl. rewrite list_insert_insert_eq.
  rewrite (proj2 (Z.eqb_neq (ncli c + (n + 1)) 1)) by lia.
  by replace (ncli c + (n + 1) - 1) with (ncli c + n) by lia.
Qed.

Lemma pushed_many s i c n : ∀ k,
  on_cpu s i c → 0 ≤ ncli c → 1 ≤ k →
  repeat_op n pushcli (pushed s i c k) = Ok () (pushed s i c (k + Z.of_nat n)).
Proof.
  induction n as [|n IH]; intros k Hc Hn Hk; cbn [repeat_op].
  - change (Z.of_nat 0) with 0. by rewrite Z.add_0_r.
  - erewrite bind_ok by by apply pushed_push. rewrite IH by (done || lia).
    do 2 f_equal. lia.
Qed.

Lemma popped_many s i c n : ∀ k,
  on_cpu s i c → 0 ≤ ncli c → 1 ≤ k →
  repeat_op n popcli (pushed s i c (k + Z.of_nat n)) = Ok () (pushed s i c k).
Proof.
  induction n as [|n IH]; intros k Hc Hn Hk; cbn [repeat_op].
  - change (Z.of_nat 0) with 0. by rewrite Z.add_0_r.
  - replace (k + Z.of_nat (S n)) with (k + Z.of_nat n + 1) by lia.
    erewrite bind_ok by (apply pushed_pop; (done || lia)). by apply IH.
Qed.

Lemma repeat_op_snoc n m s s' :
  repeat_op n m s = Ok () s' → repeat_op (S n) m s = m s'.
Proof.
  revert s. induction n as [|n IH]; intros s H.
  - injection H as <-. simpl. mrun. by destruct (m s) as [[]| |].
  - simpl in H. change (repeat_op (S (S n)) m s) with ((m;; repeat_op (S n) m) s).
    minv H. erewrite bind_ok by done. by apply IH.
Qed.

(** The state after balanced [pushcli]s and [popcli]s: only the saved
    [intena] of an outermost pair may have changed. *)
Definition settled (s : mach) (i : nat) (c : cpu) : mach :=
  Mach (<[i := Cpu (apicid c) (ncli c)
                   (if ncli c =? 0 then Z.land (eflags s) FL_IF else intena c)
                   (cpu_proc c)]> (cpus s))
       (lapicid s) (eflags s) (stack_mem s).

Lemma pushed_last_pop s i c :
  on_cpu s i c → cli_inv s c → popcli (pushed s i c 1) = Ok () (settled s i c).
Proof.
  intros Hc [Hn Hoff].
  erewrite popcli_ok; [| by apply pushed_on_cpu | apply pushed_off | simpl; lia].
  unfold pushed, settled. simpl. rewrite list_insert_insert_eq.
  replace (ncli c + 1 - 1) with (ncli c) by lia. do 2 f_equal.
  destruct (Z.eqb_spec (ncli c) 0) as [Hz|Hz].
  - rewrite Hz. cbn [Z.add Z.eqb Pos.eqb andb].
    destruct (truthy (Z.land (eflags s) FL_IF)) eqn:Et.
    + by apply sti_after_cli.
    + apply cli_noop. unfold truthy in Et. by apply negb_false_iff, Z.eqb_eq in Et.
  - rewrite (proj2 (Z.eqb_neq (ncli c + 1) 1)) by lia. cbn [andb].
    apply cli_noop, Hoff. lia.
Qed.

(** [pushcli] and [popcli] nest: after any number of [pushcli]s
    interrupts are off, and as many [popcli]s bring back exactly the
    EFLAGS (so the interrupt flag) and the nesting depth of the start. *)
Theorem pushcli_popcli_nest s i c n :
  on_cpu s i c → cli_inv s c →
  ∃ s1 s2 c2,
    repeat_op (S n) pushcli s = Ok () s1 ∧ if_off s1 ∧
    repeat_op (S n) popcli s1 = Ok () s2 ∧
    eflags s2 = eflags s ∧ on_cpu s2 i c2 ∧ ncli c2 = ncli c ∧
    (∀ j, j ≠ i → cpus s2 !! j = cpus s !! j).
Proof.
  intros Hc Hinv. pose proof Hinv as [Hn _].
  eexists (pushed s i c (1 + Z.of_nat n)), (settled s i c), _.
  split_and!; [| apply pushed_off | | done | by apply on_cpu_insert with c | done |].
  - cbn [repeat_op]. erewrite bind_ok by by apply pushcli_ok. by apply pushed_many.
  - erewrite repeat_op_snoc by by apply popped_many. by apply pushed_last_pop.
  - intros j Hj. simpl. by apply list_lookup_insert_ne.
Qed.

(** A concrete machine: one CPU, interrupts on. *)
Definition mach_example : mach := Mach [Cpu 0 0 0 None] 0 0x202 (λ _, 0).

Lemma pushcli_popcli_nest_witness :
  ∃ s1 s2 c2,
    repeat_op 3 pushcli mach_example = Ok () s1 ∧ if_off s1 ∧
    repeat_op 3 popcli s1 = Ok () s2 ∧
    eflags s2 = 0x202 ∧ on_cpu s2 0 c2 ∧ ncli c2 = 0 ∧
    (∀ j, j ≠ 0%nat → cpus s2 !! j = cpus mach_example !! j).
Proof.
  apply (pushcli_popcli_nest mach_example 0 (Cpu 0 0 0 None) 2).
  - split; reflexivity.
  - split; simpl; lia.
Defined.

(** ** Locks *)

(** Does [cpus[i]] hold the lock? *)
Definition held_by (lk : spinlock) (i : nat) : bool :=
  truthy (locked lk) && bool_decide (lk_cpu lk = Some i).

Lemma holding_ok lk s i c :
  on_cpu s i c → cli_inv s c → holding lk s = Ok (held_by lk i) (settled s i c).
Proof.
  intros Hc Hinv. unfold holding, held_by.
  erewrite bind_ok by (apply pushcli_ok; [done | apply Hinv]).
  destruct (truthy (locked lk)); cbn [andb].
  - erewrite bind_ok; last first.
    { erewrite bind_ok by (eapply mycpu_ok; [by apply pushed_on_cpu | apply pushed_off]). done. }
    by erewrite bind_ok by by apply pushed_last_pop.
  - rewrite bind_ret. by erewrite bind_ok by by apply pushed_last_pop.
Qed.

Lemma settled_pushed s i c n :
  on_cpu s i c → 0 ≤ ncli c → 1 ≤ n →
  ∀ c', on_cpu (pushed s i c n) i c' → settled (pushed s i c n) i c' = pushed s i c n.
Proof.
  intros Hc Hn Hn1 c' Hc'.
  pose proof (pushed_on_cpu s i c n Hc) as Hp. destruct Hc' as [_ Hl], Hp as [_ Hl'].
  rewrite Hl in Hl'. injection Hl' as ->.
  unfold settled, pushed. simpl. rewrite (proj2 (Z.eqb_neq (ncli c + n) 0)) by lia.
  by rewrite list_insert_insert_eq.
Qed.

Lemma holding_pushed lk s i c :
  on_cpu s i c → 0 ≤ ncli c →
  holding lk (pushed s i c 1) = Ok (held_by lk i) (pushed s i c 1).
Proof.
  intros Hc Hn. pose proof (pushed_on_cpu s i c 1 Hc) as Hp.
  erewrite holding_ok; [| done | split; [simpl; lia | intros; apply pushed_off]].
  by rewrite (settled_pushed s i c 1).
Qed.

(** What [acquire] does, on each of its three branches. *)
Lemma acquire_spec v lk s i c :
  on_cpu s i c → 0 ≤ ncli c →
  acquire v lk s =
    if held_by lk i then Panic "acquire"
    else if truthy (locked lk) then Hang
    else Ok (Spinlock 1 (lk_name lk) (Some i) (getcallerpcs (stack_mem s) v))
            (pushed s i c 1).
Proof.
  intros Hc Hn. unfold acquire.
  erewrite bind_ok by by apply pushcli_ok.
  erewrite bind_ok by by apply holding_pushed.
  destruct (held_by lk i); [done |]. unfold xchg.
  destruct (truthy (locked lk)); [done |].
  erewrite bind_ok by (eapply mycpu_ok; [by apply pushed_on_cpu | apply pushed_off]).
  done.
Qed.

Lemma release_not_held lk s i c :
  on_cpu s i c → cli_inv s c → held_by lk i = false → release lk s = Panic "release".
Proof.
  intros Hc Hinv Hh. unfold release. erewrite bind_ok by by apply holding_ok.
  by rewrite Hh.
Qed.

Lemma acquire_free v lk s i c :
  on_cpu s i c → cli_inv s c → locked lk = 0 →
  ∃ lk1, acquire v lk s = Ok lk1 (pushed s i c 1) ∧ held_by lk1 i = true.
Proof.
  intros Hc [Hn _] Hf. eexists. split.
  - erewrite acquire_spec by done. unfold held_by. by rewrite Hf.
  - by apply bool_decide_eq_true.
Qed.

(** A spin lock taken and released: [acquire] of a free lock by a
    processor returns with the lock held by it and interrupts off; a
    second [acquire] by the same processor panics, by any other processor
    spins; [release] by a processor that does not hold it panics; and
    [release] by the holder frees it and restores EFLAGS and the nesting
    depth. *)
Theorem spinlock_correct v lk s i c :
  on_cpu s i c → cli_inv s c → locked lk = 0 →
  ∃ lk1 s1,
    acquire v lk s = Ok lk1 s1 ∧ held_by lk1 i = true ∧ if_off s1 ∧
    (∀ v', acquire v' lk1 s1 = Panic "acquire") ∧
    (∀ v' s' j c', j ≠ i → on_cpu s' j c' → cli_inv s' c' →
       acquire v' lk1 s' = Hang ∧ release lk1 s' = Panic "release") ∧
    ∃ lk2 s2 c2,
      release lk1 s1 = Ok lk2 s2 ∧ locked lk2 = 0 ∧ lk_cpu lk2 = None ∧
      eflags s2 = eflags s ∧ on_cpu s2 i c2 ∧ ncli c2 = ncli c.
Proof.
  intros Hc Hinv Hfree. pose proof Hinv as [Hn _].
  set (lk1 := Spinlock 1 (lk_name lk) (Some i) (getcallerpcs (stack_mem s) v)).
  assert (held_by lk1 i = true) as Hh by by apply bool_decide_eq_true.
  exists lk1, (pushed s i c 1). split_and!; [| done | apply pushed_off | | |].
  - erewrite acquire_spec by done. unfold held_by. by rewrite Hfree.
  - intros v'. erewrite acquire_spec; [by rewrite Hh | by apply pushed_on_cpu | simpl; lia].
  - intros v' s' j c' Hne Hc' Hinv'. assert (held_by lk1 j = false) as Hj.
    { unfold held_by. simpl. apply bool_decide_eq_false. congruence. }
    split; [| by eapply release_not_held]. erewrite acquire_spec by (done || apply Hinv').
    by rewrite Hj.
  - eexists _, (settled s i c), _. split.
    + unfold release. erewrite bind_ok by by apply holding_pushed. rewrite Hh. cbn [negb].
      by erewrite bind_ok by by apply pushed_last_pop.
    + split_and!; [done | done | done | by apply on_cpu_insert with c | done].
Qed.

Lemma spinlock_correct_witness :
  ∃ lk1 s1,
    acquire 0 (Spinlock 0 "l" None []) mach_example = Ok lk1 s1 ∧ held_by lk1 0 = true ∧ if_off s1 ∧
    (∀ v', acquire v' lk1 s1 = Panic "acquire") ∧
    (∀ v' s' j c', j ≠ 0%nat → on_cpu s' j c' → cli_inv s' c' →
       acquire v' lk1 s' = Hang ∧ release lk1 s' = Panic "release") ∧
    ∃ lk2 s2 c2,
      release lk1 s1 = Ok lk2 s2 ∧ locked lk2 = 0 ∧ lk_cpu lk2 = None ∧
      eflags s2 = 0x202 ∧ on_cpu s2 0 c2 ∧ ncli c2 = 0.
Proof.
  apply (spinlock_correct 0 (Spinlock 0 "l" None []) mach_example 0 (Cpu 0 0 0 None)).
  - split; reflexivity.
  - split; simpl; lia.
  - reflexivity.
Defined.

(** ** The lock interface

    What the clients of a spin lock rely on: the state [L] holds the lock
    and the processor that runs; a [ready] lock can be taken, after which
    it is [held]; a [held] lock can be released. *)
Class SpinLock (L : Type) := {
  lk_init : string → L → L;
  lk_acquire : M L ();
  lk_release : M L ();
  cpu_ready : L → Prop;
  lk_ready : L → Prop;
  lk_held : L → Prop;
  lk_init_ok name l : cpu_ready l → lk_ready (lk_init name l);
  lk_acquire_ok l : lk_ready l → ∃ l', lk_acquire l = Ok () l' ∧ lk_held l';
  lk_release_ok l : lk_held l → ∃ l', lk_release l = Ok () l' ∧ lk_ready l'
}.

(** A component's state is its lock beside its data. *)
Section lifting.
Context {L D : Type}.

Definition on_lock {A} (m : M L A) : M (L * D) A := λ '(l, d),
  match m l with
  | Ok a l' => Ok a (l', d)
  | Panic e => Panic e
  | Hang => Hang
  end.

Definition on_data {A} (m : M D A) : M (L * D) A := λ '(l, d),
  match m d with
  | Ok a d' => Ok a (l, d')
  | Panic e => Panic e
  | Hang => Hang
  end.

Lemma on_lock_ok {A} (m : M L A) l d a l' :
  m l = Ok a l' → on_lock m (l, d) = Ok a (l', d).
Proof. intros H. unfold on_lock. by rewrite H. Qed.

Lemma on_data_ok {A} (m : M D A) l d a d' :
  m d = Ok a d' → on_data m (l, d) = Ok a (l, d').
Proof. intros H. unfold on_data. by rewrite H. Qed.

(** [acquire(&lock); ... release(&lock);] around an update of the data. *)
Definition locked_section `{SpinLock L} {A} (m : M D A) : M (L * D) A :=
  on_lock lk_acquire;;
  a ← on_data m;
  on_lock lk_release;;
  mret a.

Lemma locked_section_ok `{SpinLock L} {A} (m : M D A) l d a d' :
  lk_ready l → m d = Ok a d' →
  ∃ l', locked_section m (l, d) = Ok a (l', d') ∧ lk_ready l'.
Proof.
  intros Hr Hm. destruct (lk_acquire_ok l Hr) as (l1 & E1 & Hh).
  destruct (lk_release_ok l1 Hh) as (l2 & E2 & Hr2).
  exists l2. split; [|done]. unfold locked_section.
  erewrite bind_ok by by apply on_lock_ok.
  erewrite bind_ok by by apply on_data_ok.
  by erewrite bind_ok by by apply on_lock_ok.
Qed.
End lifting.

(** The locks of [spinlock.c] implement the interface. *)
Definition spin_cpu_ready (l : mach * spinlock) : Prop :=
  ∃ i c, on_cpu l.1 i c ∧ cli_inv l.1 c.

Definition spin_ready (l : mach * spinlock) : Prop :=
  spin_cpu_ready l ∧ locked l.2 = 0.

Definition spin_held (l : mach * spinlock) : Prop :=
  ∃ i c, on_cpu l.1 i c ∧ if_off l.1 ∧ 1 ≤ ncli c ∧ held_by l.2 i = true.

Definition spin_acquire (l : mach * spinlock) : outcome (mach * spinlock) () :=
  match acquire 0 l.2 l.1 with
  | Ok lk s => Ok () (s, lk)
  | Panic e => Panic e
  | Hang => Hang
  end.

Definition spin_release (l : mach * spinlock) : outcome (mach * spinlock) () :=
  match release l.2 l.1 with
  | Ok lk s => Ok () (s, lk)
  | Panic e => Panic e
  | Hang => Hang
  end.

Lemma spin_acquire_ok l :
  spin_ready l → ∃ l', spin_acquire l = Ok () l' ∧ spin_held l'.
Proof.
  destruct l as [s lk]. intros [(i & c & Hc & Hinv) Hf]. simpl in *.
  destruct (acquire_free 0 lk s i c Hc Hinv Hf) as (lk1 & E & Hh).
  exists (pushed s i c 1, lk1). unfold spin_acquire. simpl. rewrite E. split; [done |].
  eexists i, _. split_and!; [by apply pushed_on_cpu | apply pushed_off | | done].
  simpl. destruct Hinv. lia.
Qed.

Lemma spin_release_ok l :
  spin_held l → ∃ l', spin_release l = Ok () l' ∧ spin_ready l'.
Proof.
  destruct l as [s lk]. intros (i & c & Hc & Hoff & Hn & Hh). simpl in *.
  unfold spin_release, release. simpl.
  erewrite bind_ok by (apply holding_ok; [done | split; [lia | done]]).
  rewrite Hh. cbn [negb].
  assert (on_cpu (settled s i c) i
    (Cpu (apicid c) (ncli c) (if ncli c =? 0 then Z.land (eflags s) FL_IF else intena c) (cpu_proc c)))
    as Hc1 by by apply on_cpu_insert with c.
  erewrite bind_ok by (apply popcli_ok; done).
  eexists. split; [done |]. split; [| done].
  eexists i, _. split; [by apply on_cpu_insert with (1 := Hc1) |].
  split; simpl; [lia |]. intros Hlt.
  rewrite (proj2 (Z.eqb_neq (ncli c) 1)) by lia. done.
Qed.

#[export] Program Instance spinlock_impl : SpinLock (mach * spinlock) := {|
  lk_init name l := (l.1, initlock name l.2);
  lk_acquire := spin_acquire;
  lk_release := spin_release;
  cpu_ready := spin_cpu_ready;
  lk_ready := spin_ready;
  lk_held := spin_held;
  lk_acquire_ok := spin_acquire_ok;
  lk_release_ok := spin_release_ok
|}.
Next Obligation. intros name [s lk] H. by split. Qed.
