(* ===== verification/Kalloc.v ===== *)
(** * The physical page allocator

    [src/kalloc.c]: a free list threaded through the free pages
    themselves, guarded by a spin lock once [kinit2] has run. The
    concrete list in memory refines the abstract list of free pages. *)
From S2P Require Import Prelude Machine CString Spin.
Import KString.

(** ** State and operations *)

Record kmem := Kmem {
  use_lock : bool;
  freelist : Z;            (* struct run *freelist, 0 for none *)
  kmem_mem : mem           (* the memory the pages live in *)
}.
#[export] Instance eta_kmem : Settable kmem := λ k,
  Kmem (use_lock k) (freelist k) (kmem_mem k).

Section kalloc.
(** The lock, and [end], the first address after the kernel image
    (defined by the linker script). *)
Context {L : Type} `{SpinLock L}.
Variable end_ : Z.

(** [if(kmem.use_lock) acquire(&kmem.lock); ... if(kmem.use_lock) release(&kmem.lock);] *)
Definition guarded {A} (m : M kmem A) : M (L * kmem) A :=
  k ← gets snd;
  if use_lock k then locked_section m else on_data m.

(** [r->next = kmem.freelist; kmem.freelist = r;] *)
Definition push_page (v : Z) : M kmem () :=
  modify (λ k, k <| kmem_mem := store32 (kmem_mem k) v (freelist k) |>);;
  modify (λ k, k <| freelist := v |>).

Definition kfree (v : Z) : M (L * kmem) () :=
  if truthy (u32 v mod PGSIZE) || (v <? end_) || (PHYSTOP <=? V2P v) then panic "kfree"
  else
    on_data (modify (λ k, k <| kmem_mem := memset (kmem_mem k) v 1 PGSIZE |>));;
    guarded (push_page v).

(** [r = kmem.freelist; if(r) kmem.freelist = r->next;] *)
Definition pop_page : M kmem Z :=
  r ← gets freelist;
  when (truthy r) (modify (λ k, k <| freelist := load32 (kmem_mem k) r |>));;
  mret r.

Definition kalloc : M (L * kmem) Z := guarded pop_page.

(** [for(; p + PGSIZE <= vend; p += PGSIZE) kfree(p);] *)
Fixpoint freerange_loop (fuel : nat) (p vend : Z) : M (L * kmem) () :=
  match fuel with
  | O => hang
  | S fuel' =>
      if p + PGSIZE <=? vend then kfree p;; freerange_loop fuel' (p + PGSIZE) vend
      else mret ()
  end.

Definition freerange (vstart vend : Z) : M (L * kmem) () :=
  let p := PGROUNDUP vstart in
  freerange_loop (S (Z.to_nat ((vend - p) / PGSIZE))) p vend.

Definition kinit1 (vstart vend : Z) : M (L * kmem) () :=
  modify (λ '(l, k), (lk_init "kmem" l, k));;
  on_data (modify (λ k, k <| use_lock := false |>));;
  freerange vstart vend.

Definition kinit2 (vstart vend : Z) : M (L * kmem) () :=
  freerange vstart vend;;
  on_data (modify (λ k, k <| use_lock := true |>)).

(** ** Specification *)

(** The addresses [kfree] accepts. *)
Definition page_ok (p : Z) : Prop :=
  p mod PGSIZE = 0 ∧ end_ ≤ p ∧ KERNBASE ≤ p < KERNBASE + PHYSTOP.

(** The free list starting at [a] in memory runs through the pages [l]. *)
Fixpoint chain (m : mem) (a : Z) (l : list Z) : Prop :=
  match l with
  | [] => a = 0
  | p :: l' => a = p ∧ chain m (load32 m p) l'
  end.

Definition kmem_inv (k : kmem) (l : list Z) : Prop :=
  wf_mem (kmem_mem k) ∧ chain (kmem_mem k) (freelist k) l ∧ Forall page_ok l ∧ NoDup l.

(** Addresses of the page [p]. *)
Definition in_page (p a : Z) : Prop := p ≤ a < p + PGSIZE.

Lemma page_ok_nonzero p : page_ok p → p ≠ 0.
Proof. unfold page_ok, KERNBASE. lia. Qed.

Lemma page_ok_u32 p : page_ok p → u32 p = p.
Proof. unfold page_ok, KERNBASE, PHYSTOP. intros. apply u32_small. lia. Qed.

Lemma page_disjoint p q a :
  page_ok p → page_ok q → p ≠ q → in_page p a → ¬ in_page q a.
Proof. unfold page_ok, in_page, PGSIZE. intros (Hp & _) (Hq & _) Hne Ha Hb. zmod. Qed.

(** A change confined to a page outside the list leaves the chain. *)
Lemma chain_frame m m' p a l :
  page_ok p → Forall page_ok l → p ∉ l →
  (∀ x, ¬ in_page p x → m' x = m x) →
  chain m a l → chain m' a l.
Proof.
  intros Hp Hl Hin Hframe. revert a.
  induction l as [|q l IH]; intros a; simpl; [done |].
  apply Forall_cons_1 in Hl as [Hq Hl]. apply not_elem_of_cons in Hin as [Hne Hin].
  intros [-> Hc]. split; [done |].
  assert (load32 m' q = load32 m q) as ->; [| by apply IH].
  apply load32_ext. intros x Hx. apply Hframe.
  apply page_disjoint with q; unfold in_page, PGSIZE; (done || lia).
Qed.

(** The guard of [kfree] accepts exactly the allocator's pages: an
    address below [KERNBASE] wraps in [V2P] past [PHYSTOP]. *)
Lemma kfree_guard v :
  0 ≤ v < 4294967296 →
  truthy (u32 v mod PGSIZE) || (v <? end_) || (PHYSTOP <=? V2P v) = false ↔ page_ok v.
Proof.
  intros Hv. rewrite u32_small by done.
  unfold truthy, page_ok, V2P, u32, KERNBASE, PHYSTOP, PGSIZE.
  destruct (Z.eqb_spec (v mod 4096) 0), (Z.ltb_spec v end_),
    (Z.leb_spec 0xE000000 ((v - 0x80000000) mod 4294967296)); cbn [negb orb];
    split; try done; intros; try (exfalso; zmod); zmod.
Qed.

(** The lock is taken when it is in use; otherwise it is not needed. *)
Definition lock_ok (l : L) (k : kmem) : Prop := use_lock k = true → lk_ready l.

Lemma guarded_ok {A} (m : M kmem A) l k a k' :
  lock_ok l k → use_lock k' = use_lock k → m k = Ok a k' →
  ∃ l', guarded m (l, k) = Ok a (l', k') ∧ lock_ok l' k'.
Proof.
  intros Hl Hu Hm. unfold guarded, lock_ok. rewrite bind_gets. cbn [snd].
  destruct (use_lock k) eqn:E.
  - destruct (locked_section_ok m l k a k') as (l' & Hr & Hok); [by apply Hl | done |].
    exists l'. by rewrite Hr.
  - exists l. rewrite (on_data_ok _ _ _ _ _ Hm). split; [done | congruence].
Qed.

(** The memory after [kfree p]: the page is junk but for its link. *)
Definition freed_mem (m : mem) (p next : Z) : mem :=
  store32 (memset m p 1 PGSIZE) p next.

Lemma freed_mem_frame m p next x : ¬ in_page p x → freed_mem m p next x = m x.
Proof.
  unfold freed_mem, in_page. intros Hx. rewrite store32_byte, decide_False by (unfold PGSIZE in *; lia).
  by rewrite memset_byte, decide_False by (unfold PGSIZE in *; lia).
Qed.

Lemma freed_mem_wf m p next : wf_mem m → wf_mem (freed_mem m p next).
Proof.
  intros Hm. apply store32_wf. intros a. rewrite memset_byte by (unfold PGSIZE; lia).
  case_decide; [apply u8_range | apply Hm].
Qed.

Lemma load32_freed m p next :
  0 ≤ next < 4294967296 → load32 (freed_mem m p next) p = next.
Proof. apply load32_store32_eq. Qed.

Lemma chain_head_range m a l : chain m a l → Forall page_ok l → 0 ≤ a < 4294967296.
Proof.
  destruct l as [|p l]; simpl; [lia |]. intros [-> _] Hl.
  apply Forall_cons_1 in Hl as [Hp _]. unfold page_ok, KERNBASE, PHYSTOP in Hp. lia.
Qed.

Lemma kfree_ok p l k pages :
  kmem_inv k pages → page_ok p → p ∉ pages → lock_ok l k →
  ∃ l', kfree p (l, k) =
          Ok () (l', Kmem (use_lock k) p (freed_mem (kmem_mem k) p (freelist k))) ∧
        kmem_inv (Kmem (use_lock k) p (freed_mem (kmem_mem k) p (freelist k))) (p :: pages) ∧
        lock_ok l' (Kmem (use_lock k) p (freed_mem (kmem_mem k) p (freelist k))).
Proof.
  intros (Hwf & Hc & Hl & Hnd) Hp Hin Hlk. unfold kfree.
  rewrite (proj2 (kfree_guard p ltac:(unfold page_ok, KERNBASE, PHYSTOP in Hp; lia)) Hp).
  erewrite bind_ok by (apply on_data_ok; reflexivity).
  destruct (guarded_ok (push_page p) l (k <| kmem_mem := memset (kmem_mem k) p 1 PGSIZE |>) ()
    (Kmem (use_lock k) p (freed_mem (kmem_mem k) p (freelist k))))
    as (l' & Hr & Hok'); [done | done | |].
  { unfold push_page. mrun. reflexivity. }
  exists l'. split_and!; [exact Hr | | exact Hok'].
  split_and!; simpl.
  - by apply freed_mem_wf.
  - split; [done |]. rewrite load32_freed by by eapply chain_head_range.
    eapply chain_frame; [exact Hp | done | done | | done].
    intros x Hx. by apply freed_mem_frame.
  - by constructor.
  - by constructor.
Qed.

Lemma kalloc_ok l k pages :
  kmem_inv k pages → lock_ok l k →
  ∃ l', kalloc (l, k) =
          Ok (default 0 (head pages))
             (l', Kmem (use_lock k)
                    (default 0 (head (tail pages))) (kmem_mem k)) ∧
        kmem_inv (Kmem (use_lock k) (default 0 (head (tail pages))) (kmem_mem k)) (tail pages) ∧
        lock_ok l' (Kmem (use_lock k) (default 0 (head (tail pages))) (kmem_mem k)).
Proof.
  intros (Hwf & Hc & Hl & Hnd) Hlk.
  set (k' := Kmem (use_lock k) (default 0 (head (tail pages))) (kmem_mem k)).
  assert (pop_page k = Ok (default 0 (head pages)) k') as Hpop.
  { subst k'. clear Hlk. destruct k as [u f m]. unfold pop_page. rewrite bind_gets.
    destruct pages as [|p pages]; simpl in *.
    - by subst f.
    - destruct Hc as [-> Hc]. apply Forall_cons_1 in Hl as [Hp _].
      unfold truthy. rewrite (proj2 (Z.eqb_neq _ _) (page_ok_nonzero _ Hp)).
      unfold when. cbn [negb]. rewrite bind_modify. unfold set_field. simpl.
      assert (load32 m p = default 0 (head pages)) as ->; [| done].
      by destruct pages; [| destruct Hc]. }
  destruct (guarded_ok pop_page l k _ k' Hlk eq_refl Hpop) as (l' & Hr & Hok').
  exists l'. split_and!; [exact Hr | | exact Hok'].
  destruct pages as [|p pages]; simpl in *; [by split_and! |].
  apply Forall_cons_1 in Hl as [Hp Hl]. apply NoDup_cons_1_2 in Hnd. split_and!; try done.
  destruct Hc as [_ Hc]. by destruct pages as [|q pages]; simpl in *; [| destruct Hc].
Qed.

(** The pages [freerange] frees, in the order it frees them. *)
Definition pages_from (p : Z) (n : nat) : list Z := (λ i, p + Z.of_nat i * PGSIZE) <$> seq 0 n.

Lemma pages_from_S p n : pages_from p (S n) = p :: pages_from (p + PGSIZE) n.
Proof.
  unfold pages_from. cbn [seq fmap list_fmap]. rewrite Z.mul_0_l, Z.add_0_r. f_equal.
  rewrite <- seq_shift, <- list_fmap_compose. apply list_fmap_ext. intros _ i _. simpl. lia.
Qed.

Lemma freerange_loop_ok n : ∀ fuel p vend l k pages,
  (n < fuel)%nat → p + Z.of_nat n * PGSIZE ≤ vend < p + Z.of_nat (S n) * PGSIZE →
  kmem_inv k pages → Forall page_ok (pages_from p n) →
  (∀ q, q ∈ pages → q ∉ pages_from p n) → lock_ok l k →
  ∃ l' k', freerange_loop fuel p vend (l, k) = Ok () (l', k') ∧
    kmem_inv k' (reverse (pages_from p n) ++ pages) ∧ use_lock k' = use_lock k ∧ lock_ok l' k'.
Proof.
  induction n as [|n IH]; intros [|fuel] p vend l k pages Hf Hv Hk Hok Hfresh Hlk; try lia;
    cbn [freerange_loop].
  - rewrite (proj2 (Z.leb_gt _ _)) by lia. by exists l, k.
  - rewrite (proj2 (Z.leb_le _ _)) by (unfold PGSIZE in *; lia).
    rewrite pages_from_S in *. apply Forall_cons_1 in Hok as [Hp Hok].
    destruct (kfree_ok p l k pages) as (l1 & Hr & Hk1 & Hlk1); try done.
    { intros Hin. apply (Hfresh p Hin). by left. }
    erewrite bind_ok by done.
    edestruct (IH fuel (p + PGSIZE) vend l1) as (l2 & k2 & Hr2 & Hk2 & Hu & Hlk2);
      [lia | lia | exact Hk1 | done | | done |].
    { intros q [->|Hq]%elem_of_cons.
      - intros Hin. unfold pages_from in Hin. apply list_elem_of_fmap in Hin as (i & Hi & _).
        unfold PGSIZE in Hi. lia.
      - intros Hin. apply (Hfresh q Hq). by right. }
    exists l2, k2. split_and!; [done | | done | done].
    rewrite reverse_cons, <- (assoc_L (++)). done.
Qed.

(** C26: the page allocator refines a list of free pages. Allocating
    returns the head page and leaves the tail, or returns 0 on the empty
    list, and touches no memory; freeing a page that is not free pushes
    it and touches no byte outside it; freeing anything that is not a
    page of the allocator panics. *)
Theorem kalloc_kfree_refine l k pages :
  kmem_inv k pages → lock_ok l k →
  (∃ l' k', kalloc (l, k) = Ok (default 0 (head pages)) (l', k') ∧
     kmem_inv k' (tail pages) ∧ kmem_mem k' = kmem_mem k ∧ lock_ok l' k') ∧
  (∀ p, page_ok p → p ∉ pages →
     ∃ l' k', kfree p (l, k) = Ok () (l', k') ∧ kmem_inv k' (p :: pages) ∧
       (∀ a, ¬ in_page p a → kmem_mem k' a = kmem_mem k a) ∧ lock_ok l' k') ∧
  (∀ v, 0 ≤ v < 4294967296 → ¬ page_ok v → kfree v (l, k) = Panic "kfree").
Proof.
  intros Hk Hlk. split_and!.
  - destruct (kalloc_ok l k pages Hk Hlk) as (l' & Hr & Hk' & Hlk'). eexists l', _. by split_and!.
  - intros p Hp Hin. destruct (kfree_ok p l k pages Hk Hp Hin Hlk) as (l' & Hr & Hk' & Hlk').
    eexists l', _. split_and!; try done. intros a Ha. by apply freed_mem_frame.
  - intros v Hv Hno. unfold kfree.
    destruct (_ || _ || _) eqn:E; [done |]. by apply kfree_guard in E.
Qed.

(** [freerange] over a range whose pages are all usable returns,
    having freed exactly the whole pages inside it, last page first. *)
Theorem freerange_correct l k pages vstart vend n :
  kmem_inv k pages → lock_ok l k →
  PGROUNDUP vstart + Z.of_nat n * PGSIZE ≤ vend < PGROUNDUP vstart + Z.of_nat (S n) * PGSIZE →
  Forall page_ok (pages_from (PGROUNDUP vstart) n) →
  (∀ q, q ∈ pages → q ∉ pages_from (PGROUNDUP vstart) n) →
  ∃ l' k', freerange vstart vend (l, k) = Ok () (l', k') ∧
    kmem_inv k' (reverse (pages_from (PGROUNDUP vstart) n) ++ pages).
Proof.
  intros Hk Hlk Hv Hok Hfresh. unfold freerange.
  edestruct (freerange_loop_ok n (S (Z.to_nat ((vend - PGROUNDUP vstart) / PGSIZE))))
    as (l' & k' & Hr & Hk' & _ & _); try done; [| by exists l', k'].
  unfold PGSIZE in *. zmod.
Qed.
End kalloc.

(** ** Concrete runs *)

(** A kernel ending at [0x80200000], with a free spin lock on a one-CPU
    machine. *)
Definition lock_example : mach * spinlock := (mach_example, Spinlock 0 "kmem" None []).

Lemma lock_example_ready : lk_ready lock_example.
Proof.
  split; [|done]. exists 0%nat, (Cpu 0 0 0 None). split; [done |]. split; simpl; [done | lia].
Qed.

Lemma example_inv u : kmem_inv 0x80200000 (Kmem u 0x80400000 (λ _, 0)) [0x80400000].
Proof.
  split_and!; simpl.
  - intros a. lia.
  - done.
  - repeat constructor; done.
  - apply NoDup_singleton.
Qed.

Lemma kalloc_kfree_refine_witness :
  (∃ l' k', kalloc (lock_example, Kmem true 0x80400000 (λ _, 0)) = Ok 0x80400000 (l', k') ∧
     kmem_inv 0x80200000 k' [] ∧ kmem_mem k' = (λ _, 0) ∧ lock_ok l' k') ∧
  kfree 0x80200000 0x80400001 (lock_example, Kmem true 0x80400000 (λ _, 0)) = Panic "kfree".
Proof.
  destruct (kalloc_kfree_refine 0x80200000 lock_example (Kmem true 0x80400000 (λ _, 0)) [0x80400000])
    as (Ha & _ & Hp).
  - apply example_inv.
  - intros _. apply lock_example_ready.
  - split; [exact Ha |]. apply Hp; [lia |]. intros (Hm & _). discriminate Hm.
Defined.

Lemma freerange_correct_witness :
  ∃ l' k', freerange 0x80200000 0x803FF001 0x80401800
             (lock_example, Kmem false 0 (λ _, 0)) = Ok () (l', k') ∧
    kmem_inv 0x80200000 k' (reverse (pages_from 0x80400000 1) ++ []).
Proof.
  apply (freerange_correct 0x80200000 lock_example (Kmem false 0 (λ _, 0)) [] 0x803FF001 0x80401800 1).
  - split_and!; simpl; [intros a; lia | done | constructor | constructor].
  - intros [=].
  - vm_compute. split; congruence.
  - repeat constructor; vm_compute; congruence.
  - intros q Hq. by apply elem_of_nil in Hq.
Defined.

(** ** What the allocator promises *)

(** The allocator as its clients see it: a state with memory and a list of
    free pages that nobody else touches. [pa_write] is the client's own use
    of memory. *)
Class PageAlloc (K : Type) := {
  pa_inv : K → list Z → Prop;
  pa_mem : K → mem;
  pa_page : Z → Prop;
  pa_kalloc : M K Z;
  pa_kfree : Z → M K ();
  pa_write : (mem → mem) → M K ();

  pa_page_ok p : pa_page p → p mod PGSIZE = 0 ∧ KERNBASE < p < KERNBASE + PHYSTOP;
  pa_free_ok s l : pa_inv s l → Forall pa_page l ∧ NoDup l ∧ wf_mem (pa_mem s);
  pa_kalloc_ok s l :
    pa_inv s l →
    ∃ s', pa_kalloc s = Ok (default 0 (head l)) s' ∧ pa_inv s' (tail l) ∧ pa_mem s' = pa_mem s;
  pa_kfree_ok s l p :
    pa_inv s l → pa_page p → p ∉ l →
    ∃ s', pa_kfree p s = Ok () s' ∧ pa_inv s' (p :: l) ∧
      ∀ a, ¬ in_page p a → pa_mem s' a = pa_mem s a;
  pa_write_ok s l f :
    pa_inv s l → wf_mem (f (pa_mem s)) →
    (∀ p a, p ∈ l → in_page p a → f (pa_mem s) a = pa_mem s a) →
    ∃ s', pa_write f s = Ok () s' ∧ pa_inv s' l ∧ pa_mem s' = f (pa_mem s)
}.

Section implementation.
Context {L : Type} `{SpinLock L}.
Variable end_ : Z.
(** The linker script places the kernel, which ends at [end_], above
    [KERNLINK]. *)
Hypothesis end_above : KERNBASE < end_.

Definition kmem_write (f : mem → mem) : M (L * kmem) () :=
  on_data (modify (λ k, k <| kmem_mem := f (kmem_mem k) |>)).

Lemma chain_ext m m' l : ∀ a,
  Forall (page_ok end_) l → (∀ p x, p ∈ l → in_page p x → m' x = m x) → chain m a l → chain m' a l.
Proof.
  induction l as [|p l IH]; intros a Hl Hm; simpl; [done|].
  apply Forall_cons_1 in Hl as [Hp Hl]. intros [-> Hc]. split; [done|].
  rewrite (load32_ext m' m).
  - apply IH; [done| |done]. intros q x Hq. apply Hm. by right.
  - intros x Hx. apply (Hm p); [left|]. unfold in_page, PGSIZE. lia.
Qed.

#[export] Instance kmem_alloc : PageAlloc (L * kmem).
Proof using All.
  refine {|
    pa_inv := λ s l, kmem_inv end_ s.2 l ∧ lock_ok s.1 s.2;
    pa_mem := λ s, kmem_mem s.2;
    pa_page := page_ok end_;
    pa_kalloc := kalloc; pa_kfree := kfree end_; pa_write := kmem_write
  |}.
  - intros p (H1 & H2 & H3). split; [done|lia].
  - intros s l [(H1 & _ & H3 & H4) _]. done.
  - intros [l k] pages [Hk Hl]. destruct (kalloc_ok end_ l k pages Hk Hl) as (l' & Hr & Hk' & Hl').
    eexists. split; [exact Hr|]. done.
  - intros [l k] pages p [Hk Hl] Hp Hin.
    destruct (kfree_ok end_ p l k pages Hk Hp Hin Hl) as (l' & Hr & Hk' & Hl').
    eexists. split; [exact Hr|]. split; [done|]. intros a Ha. by apply freed_mem_frame.
  - intros [l k] pages f [(H1 & H2 & H3 & H4) Hl] Hwf Hf. eexists. split; [by apply on_data_ok|].
    split; [|done]. split; [|done]. split_and!; try done. simpl in *. by eapply chain_ext.
Defined.
End implementation.
