(* ===== verification/Proc.v ===== *)
(** * Processes: the process table and its state

    The data of [src/proc.h] and the global state of [src/proc.c]: the
    process table, the running process, and the memory the kernel sees
    under the running process's page table. Signals, scheduling and the
    life cycle build on it. *)
From S2P Require Import Prelude Machine.

(** ** Data *)

Inductive procstate :=
| UNUSED | MINUS_UNUSED | EMBRYO | SLEEPING | MINUS_SLEEPING
| RUNNABLE | MINUS_RUNNABLE | RUNNING | ZOMBIE | MINUS_ZOMBIE.

#[export] Instance procstate_eq_dec : EqDecision procstate.
Proof. solve_decision. Defined.

(** Sleep channels: the addresses the kernel sleeps on. A process slot,
    or the address of some other object. *)
Inductive channel := CNull | CProc (i : nat) | CAddr (a : Z).

#[export] Instance channel_eq_dec : EqDecision channel.
Proof. solve_decision. Defined.

Record context := Context {
  ctx_edi : Z; ctx_esi : Z; ctx_ebx : Z; ctx_ebp : Z; ctx_eip : Z
}.

(** Signal numbers and the special handlers of [src/types.h]. *)
Definition SIG_DFL : Z := 0.
Definition SIG_IGN : Z := 1.
Definition SIGKILL : Z := 9.
Definition SIGSTOP : Z := 17.
Definition SIGCONT : Z := 19.
Definition SIGTEST : Z := 20.
Definition SIG_HANDLERS_NUM : nat := 32.
Definition SIG_MAX : Z := 31.
Definition SIG_MIN : Z := 0.
Definition UINT_SIZE : Z := 4.

(** [struct proc]. Pointers to table entries are indices; [tf] and
    [context] are the structures the pointers of that name point to, on
    the process's own kernel stack; [tf_backup] stays an address. *)
Record proc := Proc {
  sz : Z;
  pgdir : Z;
  kstack : Z;
  state : procstate;
  pid : Z;
  parent : option nat;
  tf : trapframe;
  ctx : context;
  chan : channel;
  killed : Z;
  ofile : list (option nat);
  cwd : option nat;
  name : list Z;
  psignals : Z;
  sigmask : Z;
  sigmask_backup : Z;
  sig_handlers : list Z;
  tf_backup : Z;
  frozen : Z
}.

#[export] Instance eta_proc : Settable proc := λ p,
  Proc (sz p) (pgdir p) (kstack p) (state p) (pid p) (parent p) (tf p) (ctx p)
    (chan p) (killed p) (ofile p) (cwd p) (name p) (psignals p) (sigmask p)
    (sigmask_backup p) (sig_handlers p) (tf_backup p) (frozen p).

(** A slot of the zero-initialised table. *)
Definition proc0 : proc :=
  Proc 0 0 0 UNUSED 0 None zero_trapframe (Context 0 0 0 0 0) CNull 0
    (replicate NOFILE None) None (replicate 16 0) 0 0 0
    (replicate SIG_HANDLERS_NUM 0) 0 0.

(** [ptable], [nextpid], [initproc], the process running on this CPU, and
    memory under its page table (user addresses below its size, the
    kernel above [KERNBASE]). *)
Record kst := Kst {
  procs : list proc;
  cur : option nat;
  nextpid : Z;
  initproc : option nat;
  ks_mem : mem
}.
#[export] Instance eta_kst : Settable kst := λ s,
  Kst (procs s) (cur s) (nextpid s) (initproc s) (ks_mem s).

(** ** Access to the running process *)

(** A null dereference in the kernel traps, and [trap] panics. *)
Definition fault {A} : M kst A := panic "trap".

Definition myproc : M kst (option nat) := gets cur.

Definition proc_at (i : nat) : M kst proc :=
  s ← get;
  match procs s !! i with
  | Some p => mret p
  | None => fault
  end.

Definition upd_proc (i : nat) (f : proc → proc) : M kst () :=
  modify (λ s, s <| procs := alter f i (procs s) |>).

(** [myproc()], dereferenced. *)
Definition curproc : M kst proc :=
  i ← myproc;
  match i with
  | Some i => proc_at i
  | None => fault
  end.

Definition upd_cur (f : proc → proc) : M kst () :=
  i ← myproc;
  match i with
  | Some i => upd_proc i f
  | None => fault
  end.

(** ** Lemmas *)

(** The running process is slot [i], holding [p]. *)
Definition running (s : kst) (i : nat) (p : proc) : Prop :=
  cur s = Some i ∧ procs s !! i = Some p.

(** The state with slot [i] replaced. *)
Definition with_proc (s : kst) (i : nat) (p : proc) : kst :=
  s <| procs := <[i := p]> (procs s) |>.

Section running.
Variables (s : kst) (i : nat) (p : proc).
Hypothesis Hrun : running s i p.

Lemma curproc_ok : curproc s = Ok p s.
Proof.
  destruct Hrun as [Hc Hl]. unfold curproc, myproc, proc_at. rewrite bind_gets, Hc.
  rewrite bind_get. by rewrite Hl.
Qed.

Lemma upd_cur_ok f : upd_cur f s = Ok () (with_proc s i (f p)).
Proof.
  destruct Hrun as [Hc Hl]. unfold upd_cur, myproc, upd_proc. rewrite bind_gets, Hc.
  unfold modify, with_proc, set_field. by rewrite (alter_insert_list _ _ p).
Qed.

Lemma running_with q : running (with_proc s i q) i q.
Proof.
  destruct Hrun as [Hc Hl]. split; [done |]. simpl.
  apply list_lookup_insert_eq. by eapply lookup_lt_Some.
Qed.
End running.

Lemma with_with s i p q : with_proc (with_proc s i p) i q = with_proc s i q.
Proof. unfold with_proc, set_field. simpl. by rewrite list_insert_insert_eq. Qed.

Lemma with_same s i p : running s i p → with_proc s i p = s.
Proof.
  intros [_ Hl]. unfold with_proc, set_field. rewrite list_insert_id by done. by destruct s.
Qed.

#[export] Hint Resolve running_with : xv6.
#[export] Hint Rewrite with_with : xv6.

(** *** Running the current process symbolically *)

(** The state where the running slot [i] holds [p] and memory is [m]. *)
Definition at_proc (s : kst) (i : nat) (p : proc) (m : mem) : kst :=
  with_proc (s <| ks_mem := m |>) i p.

(** Slot [i] of [s] is the running process. *)
Definition cur_slot (s : kst) (i : nat) : Prop := cur s = Some i ∧ (i < length (procs s))%nat.

Lemma running_cur_slot s i p : running s i p → cur_slot s i.
Proof. intros [Hc Hl]. split; [done | by eapply lookup_lt_Some]. Qed.

Lemma running_at s i p : running s i p → s = at_proc s i p (ks_mem s).
Proof.
  intros Hr. unfold at_proc. rewrite <- (with_same s i p Hr) at 1. by destruct s.
Qed.

Section symbolic.
Context {B : Type}.
Variables (s : kst) (i : nat) (p : proc) (m : mem).
Hypothesis Hs : cur_slot s i.

Lemma at_running : running (at_proc s i p m) i p.
Proof. destruct Hs as [Hc Hl]. split; [done |]. by apply list_lookup_insert_eq. Qed.

Lemma at_curproc (k : proc → M kst B) : (curproc ≫= k) (at_proc s i p m) = k p (at_proc s i p m).
Proof. erewrite bind_ok by (eapply curproc_ok, at_running). done. Qed.

Lemma at_upd f (k : () → M kst B) :
  (upd_cur f ≫= k) (at_proc s i p m) = k () (at_proc s i (f p) m).
Proof.
  erewrite bind_ok by (eapply upd_cur_ok, at_running). unfold at_proc. by rewrite with_with.
Qed.

Lemma at_upd_last f : upd_cur f (at_proc s i p m) = Ok () (at_proc s i (f p) m).
Proof. erewrite upd_cur_ok by apply at_running. unfold at_proc. by rewrite with_with. Qed.

Lemma at_mem (k : mem → M kst B) : (gets ks_mem ≫= k) (at_proc s i p m) = k m (at_proc s i p m).
Proof. done. Qed.

Lemma at_set_mem g (k : () → M kst B) :
  (modify (λ s, s <| ks_mem := g (ks_mem s) |>) ≫= k) (at_proc s i p m)
  = k () (at_proc s i p (g m)).
Proof. done. Qed.
End symbolic.

(** ** Trap frames in memory *)

(** The 19 words of [struct trapframe], lowest address first. *)
Definition tf_words (t : trapframe) : list Z :=
  [tf_edi t; tf_esi t; tf_ebp t; tf_oesp t; tf_ebx t; tf_edx t; tf_ecx t; tf_eax t;
   tf_gs t + 65536 * tf_padding1 t; tf_fs t + 65536 * tf_padding2 t;
   tf_es t + 65536 * tf_padding3 t; tf_ds t + 65536 * tf_padding4 t;
   tf_trapno t; tf_err t; tf_eip t; tf_cs t + 65536 * tf_padding5 t; tf_eflags t;
   tf_esp t; tf_ss t + 65536 * tf_padding6 t].

Definition SIZEOF_TRAPFRAME : Z := 76.

Fixpoint store_words (m : mem) (a : Z) (ws : list Z) : mem :=
  match ws with
  | [] => m
  | w :: ws' => store_words (store32 m a w) (a + 4) ws'
  end.

Fixpoint load_words (m : mem) (a : Z) (n : nat) : list Z :=
  match n with
  | O => []
  | S n' => load32 m a :: load_words m (a + 4) n'
  end.

Definition store_tf (m : mem) (a : Z) (t : trapframe) : mem := store_words m a (tf_words t).

Definition load_tf (m : mem) (a : Z) : trapframe :=
  let w k := load32 m (a + 4 * k) in
  Trapframe (w 0) (w 1) (w 2) (w 3) (w 4) (w 5) (w 6) (w 7)
    (w 8 mod 65536) (w 8 / 65536) (w 9 mod 65536) (w 9 / 65536)
    (w 10 mod 65536) (w 10 / 65536) (w 11 mod 65536) (w 11 / 65536)
    (w 12) (w 13) (w 14) (w 15 mod 65536) (w 15 / 65536) (w 16)
    (w 17) (w 18 mod 65536) (w 18 / 65536).

(** Every field fits its C type. *)
Definition tf_ok (t : trapframe) : Prop :=
  Forall (λ w, 0 ≤ w < 4294967296) (tf_words t) ∧
  Forall (λ h, 0 ≤ h < 65536)
    [tf_gs t; tf_fs t; tf_es t; tf_ds t; tf_cs t; tf_ss t;
     tf_padding1 t; tf_padding2 t; tf_padding3 t; tf_padding4 t; tf_padding5 t; tf_padding6 t].

Lemma store_words_below m ws : ∀ a x, x < a → store_words m a ws x = m x.
Proof.
  revert m. induction ws as [|w ws IH]; intros m a x Hx; simpl; [done |].
  rewrite IH by lia. rewrite store32_byte. by rewrite decide_False by lia.
Qed.

Lemma store_words_above m ws : ∀ a x, a + 4 * Z.of_nat (length ws) ≤ x → store_words m a ws x = m x.
Proof.
  revert m. induction ws as [|w ws IH]; intros m a x Hx; cbn [length store_words] in *; [done |].
  rewrite IH by lia. rewrite store32_byte. by rewrite decide_False by lia.
Qed.

Lemma load_store_words m ws : ∀ a k w,
  Forall (λ w, 0 ≤ w < 4294967296) ws → ws !! k = Some w →
  load32 (store_words m a ws) (a + 4 * Z.of_nat k) = w.
Proof.
  revert m. induction ws as [|w0 ws IH]; intros m a k w Hws Hk; [done |].
  apply Forall_cons_1 in Hws as [Hw Hws]. destruct k as [|k]; cbn [store_words].
  - injection Hk as <-. change (Z.of_nat 0) with 0. rewrite Z.mul_0_r, Z.add_0_r.
    rewrite (load32_ext _ (store32 m a w0)); [by apply load32_store32_eq |].
    intros x Hx. apply store_words_below. lia.
  - replace (a + 4 * Z.of_nat (S k)) with (a + 4 + 4 * Z.of_nat k) by lia. by apply IH.
Qed.

(** A trap frame stored and loaded back is the same frame. *)
Lemma load_store_tf m a t : tf_ok t → load_tf (store_tf m a t) a = t.
Proof.
  intros [Hw Hh]. unfold load_tf, store_tf.
  assert (∀ k w, (0 <=? k) = true → tf_words t !! Z.to_nat k = Some w →
    load32 (store_words m a (tf_words t)) (a + 4 * k) = w) as E.
  { intros k w Hk Hl. apply Z.leb_le in Hk.
    replace (a + 4 * k) with (a + 4 * Z.of_nat (Z.to_nat k)) by lia. by apply load_store_words. }
  rewrite (E 0 _ eq_refl eq_refl), (E 1 _ eq_refl eq_refl), (E 2 _ eq_refl eq_refl), (E 3 _ eq_refl eq_refl), (E 4 _ eq_refl eq_refl), (E 5 _ eq_refl eq_refl), (E 6 _ eq_refl eq_refl), (E 7 _ eq_refl eq_refl), (E 8 _ eq_refl eq_refl), (E 9 _ eq_refl eq_refl), (E 10 _ eq_refl eq_refl), (E 11 _ eq_refl eq_refl), (E 12 _ eq_refl eq_refl), (E 13 _ eq_refl eq_refl), (E 14 _ eq_refl eq_refl), (E 15 _ eq_refl eq_refl), (E 16 _ eq_refl eq_refl), (E 17 _ eq_refl eq_refl), (E 18 _ eq_refl eq_refl).
  clear E Hw. destruct t; simpl in *.
  repeat (apply Forall_cons_1 in Hh as [? Hh]). f_equal; zmod.
Qed.

Lemma load_tf_ext m m' a :
  (∀ x, a ≤ x < a + SIZEOF_TRAPFRAME → m x = m' x) → load_tf m a = load_tf m' a.
Proof.
  intros H. unfold SIZEOF_TRAPFRAME in H. unfold load_tf.
  assert (∀ k, 0 ≤ k ≤ 18 → load32 m (a + 4 * k) = load32 m' (a + 4 * k)) as E.
  { intros k Hk. apply load32_ext. intros x Hx. apply H. lia. }
  by rewrite !E by lia.
Qed.

Lemma store_tf_frame m a t x :
  ¬ (a ≤ x < a + SIZEOF_TRAPFRAME) → store_tf m a t x = m x.
Proof.
  unfold SIZEOF_TRAPFRAME. intros H. unfold store_tf.
  destruct (decide (x < a)); [by apply store_words_below |].
  apply store_words_above. simpl length. lia.
Qed.
