(* ===== verification/Signal.v ===== *)
(** * Signals

    The signal code of [src/proc.c] (from [kill] on), of [src/exec.c]
    ([default_sighandlers]) and the trampoline of [src/trapasm.S]:
    sending, masking, delivering on the way back to user space, the
    user-handler frame and [sigret]. *)
From S2P Require Import Prelude Machine Proc.

(** ** Operations *)

(** [1 << sig] as a 32-bit pattern. *)
Definition sigbit (sig : Z) : Z := u32 (Z.shiftl 1 sig).

(** The loops [for(sig = SIG_MIN; sig <= SIG_MAX; sig++)]. *)
Definition all_sigs : list Z := seqZ SIG_MIN (SIG_MAX - SIG_MIN + 1).

(** The word at index [k] of [p->sig_handlers]; [struct proc] continues
    with [tf_backup], which is where index 32 lands. *)
Definition handler_word (p : proc) (k : Z) : Z :=
  if k <? 32 then nth (Z.to_nat k) (sig_handlers p) 0 else tf_backup p.

Definition set_handler_word (k v : Z) (p : proc) : proc :=
  if k <? 32 then p <| sig_handlers := <[Z.to_nat k := v]> (sig_handlers p) |>
  else p <| tf_backup := v |>.

Definition sigprocmask (mask : Z) : M kst Z :=
  p ← curproc;
  upd_cur (λ p, p <| sigmask := mask |>);;
  mret (sigmask p).

(** One slot of the loop of [kill]: [Some r] is [return r]. *)
Definition kill_slot (pid_ signum : Z) (i : nat) : M kst (option Z) :=
  p ← proc_at i;
  if pid p =? pid_ then
    let expected_on := Z.lor (psignals p) (sigbit signum) in
    let '(ok, cell) := cas (psignals p) expected_on expected_on in
    upd_proc i (λ p, p <| psignals := cell |>);;
    if negb ok then
      when (negb (signum =? 1))
        (upd_proc i (λ p, p <| psignals := Z.lor (psignals p) (sigbit signum) |>));;
      mret (Some 0)
    else mret None
  else mret None.

Definition kill (pid_ signum : Z) : M kst Z :=
  if (signum <? SIG_MIN) || (SIG_MAX <? signum) then mret (-1)
  else
    r ← for_until (seq 0 NPROC) (kill_slot pid_ signum);
    mret (default (-1) r).

Definition sigkill_handler : M kst () :=
  upd_cur (λ p, p <| killed := 1 |>);;
  p ← curproc;
  when (bool_decide (state p = SLEEPING))
    (upd_cur (λ p, p <| state := (cas (state p) SLEEPING RUNNABLE).2 |>)).

Definition sigstop_handler : M kst () :=
  p ← curproc;
  if bool_decide (state p = SLEEPING) then mret ()
  else upd_cur (λ p, p <| frozen := 1 |>).

Definition sigcont_handler : M kst () := upd_cur (λ p, p <| frozen := 0 |>).

(** [new_sighandlers[i] = old_sighandlers[i]] for each of the 32 entries. *)
Definition copySigHandlers (old_sighandlers : list Z) : list Z :=
  (λ i, nth i old_sighandlers 0) <$> seq 0 SIG_HANDLERS_NUM.

(** [exec.c]: every handler that is not [SIG_IGN] becomes [SIG_DFL]. *)
Definition default_sighandlers (p : proc) : proc :=
  p <| sig_handlers :=
    (λ h, if negb (h =? SIG_DFL) && negb (h =? SIG_IGN) then SIG_DFL else h)
      <$> sig_handlers p |>.

(** [sigaction]: [act] and [oldact] are user addresses of two words, the
    handler and the mask, [oldact] possibly null. *)
Definition sigaction (signum act oldact : Z) : M kst Z :=
  if (signum =? SIGSTOP) || (signum =? SIGKILL) then mret 1
  else if (SIG_MAX <? signum) || (signum <? SIG_MIN) then mret 1
  else
    p ← curproc;
    when (negb (oldact =? 0))
      (modify (λ s, s <| ks_mem := store32 (ks_mem s) oldact (handler_word p signum) |>);;
       modify (λ s, s <| ks_mem := store32 (ks_mem s) (oldact + 4) (handler_word p (signum + 1)) |>));;
    m ← gets ks_mem;
    upd_cur (set_handler_word signum (load32 m act));;
    upd_cur (set_handler_word (signum + 1) (load32 m (act + 4)));;
    if load32 m (act + 4) <=? 0 then mret 1 else mret 0.

(** The bytes between [sigret_caller_start] and [sigret_caller_end]:
    [movl $SYS_sigret, %eax; int $T_SYSCALL]. *)
Definition sigret_code : list Z := [0xb8; 24; 0; 0; 0; 0xcd; 64].

Fixpoint store_bytes (m : mem) (a : Z) (bs : list Z) : mem :=
  match bs with
  | [] => m
  | b :: bs' => store_bytes (store8 m a b) (a + 1) bs'
  end.

(** Set up the user stack and registers so that the process resumes in
    the handler, which returns into the trampoline. *)
Definition user_handler (sig : Z) : M kst () :=
  p ← curproc;
  (* back-up trap frame *)
  modify (λ s, s <| ks_mem := store_tf (ks_mem s) (kstack p) (tf p) |>);;
  upd_cur (λ p, p <| tf_backup := kstack p |>);;
  m ← gets ks_mem;
  old ← sigprocmask (load32 m (handler_word p sig + 4));
  upd_cur (λ p, p <| sigmask_backup := old |>);;
  (* make room for the sigret code and copy it *)
  let sigret_size := Z.of_nat (length sigret_code) in
  upd_cur (λ p, p <| tf := (tf p) <| tf_esp := u32 (tf_esp (tf p) - sigret_size) |> |>);;
  p1 ← curproc;
  let sigret_caller_addr := tf_esp (tf p1) in
  modify (λ s, s <| ks_mem := store_bytes (ks_mem s) (tf_esp (tf p1)) sigret_code |>);;
  (* push signum *)
  upd_cur (λ p, p <| tf := (tf p) <| tf_esp := u32 (tf_esp (tf p) - UINT_SIZE) |> |>);;
  p2 ← curproc;
  modify (λ s, s <| ks_mem := store32 (ks_mem s) (tf_esp (tf p2)) sig |>);;
  (* push the address of the sigret code *)
  upd_cur (λ p, p <| tf := (tf p) <| tf_esp := u32 (tf_esp (tf p) - UINT_SIZE) |> |>);;
  p3 ← curproc;
  modify (λ s, s <| ks_mem := store32 (ks_mem s) (tf_esp (tf p3)) sigret_caller_addr |>);;
  (* resume in the handler *)
  upd_cur (λ p, p <| tf := (tf p) <| tf_eip := u32 (handler_word p sig) |> |>).

Definition handleSignal (sig : Z) : M kst () :=
  p ← curproc;
  let h := handler_word p sig in
  if h =? SIG_IGN then mret ()
  else if h =? SIG_DFL then
    if sig =? SIGCONT then sigcont_handler
    else if sig =? SIGSTOP then sigstop_handler
    else if sig =? SIGKILL then sigkill_handler
    else when (negb (sig =? SIGKILL) && negb (sig =? SIGSTOP) && negb (sig =? SIGCONT))
           sigkill_handler
  else user_handler sig.

(** [cas(&p->psignals, expected, expected ^ (1 << sig))]. *)
Definition take_signal (sig expected : Z) : M kst bool :=
  p ← curproc;
  let '(ok, cell) := cas (psignals p) expected (Z.lxor expected (sigbit sig)) in
  upd_cur (λ p, p <| psignals := cell |>);;
  mret ok.

(** One iteration of [handle_signals]. *)
Definition handle_one (sig : Z) : M kst () :=
  p ← curproc;
  let expected := Z.lor (psignals p) (sigbit sig) in
  blocked ←
    (if truthy (Z.land (sigmask p) (sigbit sig)) && negb (sig =? SIGSTOP) && negb (sig =? SIGKILL)
     then take_signal sig expected else mret false);
  if blocked : bool then mret ()   (* continue *)
  else
    ok ← take_signal sig expected;
    when ok (handleSignal sig).

(** Called by [trapret] with the frame about to be restored. *)
Definition handle_signals (t : trapframe) : M kst () :=
  i ← myproc;
  match i with
  | None => mret ()
  | Some _ =>
      if negb (Z.land (tf_cs t) 3 =? DPL_USER) then mret ()
      else for_each all_sigs handle_one
  end.

Definition sigret : M kst Z :=
  p ← curproc;
  m ← gets ks_mem;
  upd_cur (λ p, p <| tf := load_tf m (tf_backup p) |>);;
  upd_cur (λ p, p <| sigmask := sigmask_backup p |>);;
  p' ← curproc;
  handle_signals (tf p');;
  mret 0.

(** Can a frozen process be scheduled to act on a pending signal? *)
Definition canRunEvenIfFrozen (p : proc) : bool :=
  existsb (λ sig,
    truthy (Z.land (psignals p) (sigbit sig)) &&
    (let handler := handler_word p sig in
     ((handler =? SIG_DFL) && ((sig =? SIGCONT) || (sig =? SIGKILL)))
     || (handler =? SIGCONT) || (handler =? SIGKILL))) all_sigs.

(** ** Signal sets as bit vectors *)

Definition valid_sig (sig : Z) : Prop := SIG_MIN ≤ sig ≤ SIG_MAX.

Lemma valid_nonneg sig : valid_sig sig → 0 ≤ sig.
Proof. unfold valid_sig, SIG_MIN. lia. Qed.

Lemma sigbit_pow sig : valid_sig sig → sigbit sig = 2 ^ sig.
Proof.
  unfold valid_sig, SIG_MIN, SIG_MAX, sigbit. intros H.
  rewrite Z.shiftl_1_l, u32_small; [done |]. split; [apply Z.pow_nonneg; lia |].
  apply Z.le_lt_trans with (2 ^ 31); [apply Z.pow_le_mono_r; lia | done].
Qed.

Lemma sigbit_testbit sig n :
  valid_sig sig → 0 ≤ n → Z.testbit (sigbit sig) n = (sig =? n).
Proof.
  intros H Hn. rewrite sigbit_pow by done. apply Z.pow2_bits_eqb.
  unfold valid_sig, SIG_MIN in H. lia.
Qed.

Lemma sigbit_test ps sig :
  valid_sig sig → truthy (Z.land ps (sigbit sig)) = Z.testbit ps sig.
Proof.
  intros H. pose proof (valid_nonneg sig H).
  assert (Z.land ps (sigbit sig) = if Z.testbit ps sig then sigbit sig else 0) as ->.
  { apply Z.bits_inj'. intros n Hn. rewrite Z.land_spec, sigbit_testbit by done.
    destruct (Z.eqb_spec sig n) as [<-|Hne].
    - destruct (Z.testbit ps sig); [by rewrite sigbit_testbit, Z.eqb_refl | by rewrite Z.bits_0].
    - rewrite andb_false_r. destruct (Z.testbit ps sig); [| by rewrite Z.bits_0].
      rewrite sigbit_testbit by done. by rewrite (proj2 (Z.eqb_neq _ _)). }
  destruct (Z.testbit ps sig); [| done]. rewrite sigbit_pow by done.
  unfold truthy. rewrite (proj2 (Z.eqb_neq _ _)); [done |]. apply Z.pow_nonzero; lia.
Qed.

Lemma clearbit_testbit ps sig n :
  0 ≤ sig → 0 ≤ n → Z.testbit (Z.clearbit ps sig) n = Z.testbit ps n && negb (sig =? n).
Proof. intros. apply Z.clearbit_eqb. Qed.

(** Setting the bit changes the set exactly when it was clear. *)
Lemma lor_sigbit ps sig :
  valid_sig sig → ps = Z.lor ps (sigbit sig) ↔ Z.testbit ps sig = true.
Proof.
  intros H. pose proof (valid_nonneg sig H). split.
  - intros ->. rewrite Z.lor_spec, sigbit_testbit, Z.eqb_refl by (done || lia). apply orb_true_r.
  - intros Ht. apply Z.bits_inj'. intros n Hn. rewrite Z.lor_spec, sigbit_testbit by (done || lia).
    destruct (Z.eqb_spec sig n) as [<-|]; [by rewrite Ht | by rewrite orb_false_r].
Qed.

Lemma lxor_sigbit ps sig :
  valid_sig sig → Z.lxor (Z.lor ps (sigbit sig)) (sigbit sig) = Z.clearbit ps sig.
Proof.
  intros H. pose proof (valid_nonneg sig H). apply Z.bits_inj'. intros n Hn.
  rewrite Z.lxor_spec, Z.lor_spec, clearbit_testbit, sigbit_testbit by (done || lia).
  destruct (Z.testbit ps n), (sig =? n); done.
Qed.

Lemma clearbit_absent ps sig :
  0 ≤ sig → Z.testbit ps sig = false → Z.clearbit ps sig = ps.
Proof.
  intros H Ht. apply Z.bits_inj'. intros n Hn. rewrite clearbit_testbit by done.
  destruct (Z.eqb_spec sig n) as [<-|]; [by rewrite Ht | by rewrite andb_true_r].
Qed.

Lemma clear_all ps l n :
  Forall (λ x, 0 ≤ x) l → 0 ≤ n →
  Z.testbit (fold_left Z.clearbit l ps) n = Z.testbit ps n && negb (existsb (Z.eqb n) l).
Proof.
  intros Hl Hn. revert ps. induction l as [|x l IH]; intros ps; simpl.
  - by rewrite andb_true_r.
  - apply Forall_cons_1 in Hl as [Hx Hl]. rewrite IH by done.
    rewrite clearbit_testbit by done. rewrite (Z.eqb_sym n x).
    by destruct (Z.testbit ps n), (x =? n), (existsb (Z.eqb n) l).
Qed.

Lemma all_sigs_valid : Forall valid_sig all_sigs.
Proof.
  apply Forall_forall. intros x Hx. unfold all_sigs in Hx. apply elem_of_seqZ in Hx.
  unfold valid_sig, SIG_MIN, SIG_MAX in *. lia.
Qed.

Lemma all_sigs_in sig : valid_sig sig → sig ∈ all_sigs.
Proof.
  unfold valid_sig, all_sigs. intros H. apply elem_of_seqZ. unfold SIG_MIN, SIG_MAX in *. lia.
Qed.

Lemma clear_all_sigs ps : 0 ≤ ps < 4294967296 → fold_left Z.clearbit all_sigs ps = 0.
Proof.
  intros Hps. apply Z.bits_inj'. intros n Hn. rewrite Z.bits_0, clear_all; [| | done].
  - destruct (Z.leb_spec n 31) as [Hle|Hgt].
    + assert (existsb (Z.eqb n) all_sigs = true) as ->; [| apply andb_false_r].
      apply existsb_exists. exists n. split; [| apply Z.eqb_refl].
      apply list_elem_of_In, all_sigs_in. unfold valid_sig, SIG_MIN, SIG_MAX. lia.
    + assert (Z.testbit ps n = false) as ->; [| done].
      destruct (Z.eq_dec ps 0) as [->|]; [apply Z.bits_0 |].
      apply Z.bits_above_log2; [lia |]. apply Z.log2_lt_pow2; [lia |].
      apply Z.lt_le_trans with (2 ^ 32); [change (2 ^ 32) with 4294967296; lia | apply Z.pow_le_mono_r; lia].
  - eapply Forall_impl; [apply all_sigs_valid |]. unfold valid_sig, SIG_MIN. simpl. lia.
Qed.

(** ** Sending *)

(** The process table has [NPROC] slots. *)
Definition table_ok (s : kst) : Prop := length (procs s) = NPROC.

Lemma proc_at_ok s i p : procs s !! i = Some p → proc_at i s = Ok p s.
Proof. intros H. unfold proc_at. rewrite bind_get. by rewrite H. Qed.

Lemma upd_proc_ok s i p f :
  procs s !! i = Some p → upd_proc i f s = Ok () (with_proc s i (f p)).
Proof.
  intros H. unfold upd_proc, modify, with_proc, set_field. by rewrite (alter_insert_list _ _ p).
Qed.

(** A pending signal can be sent to this slot: the pid matches and the
    bit is clear. *)
Definition kill_target (pid_ signum : Z) (p : proc) : bool :=
  (pid p =? pid_) && negb (Z.testbit (psignals p) signum).

Definition signalled (signum : Z) (p : proc) : proc :=
  if signum =? 1 then p else p <| psignals := Z.lor (psignals p) (sigbit signum) |>.

Lemma psignals_self p : p <| psignals := psignals p |> = p.
Proof. by destruct p. Qed.

Lemma kill_slot_ok pid_ signum s i p :
  valid_sig signum → procs s !! i = Some p →
  kill_slot pid_ signum i s =
    if kill_target pid_ signum p then Ok (Some 0) (with_proc s i (signalled signum p))
    else Ok None s.
Proof.
  intros Hs Hl. unfold kill_slot, kill_target, signalled.
  erewrite bind_ok by by apply proc_at_ok.
  destruct (pid p =? pid_); [|done]. cbn [andb]. unfold cas.
  pose proof (lor_sigbit (psignals p) signum Hs) as Hlor.
  destruct (Z.testbit (psignals p) signum) eqn:Et; cbn [negb].
  - rewrite decide_True by by apply Hlor.
    erewrite bind_ok by by apply upd_proc_ok.
    rewrite <- (proj2 Hlor eq_refl), psignals_self.
    cbn [negb]. unfold with_proc, set_field. rewrite list_insert_id by done. by destruct s.
  - rewrite decide_False by (intros E; apply Hlor in E; congruence).
    erewrite bind_ok by by apply upd_proc_ok. rewrite psignals_self. cbn [negb].
    assert (with_proc s i p = s) as ->.
    { unfold with_proc, set_field. rewrite list_insert_id by done. by destruct s. }
    destruct (signum =? 1); cbn [negb]; unfold when.
    + rewrite bind_ret. f_equal. unfold with_proc, set_field.
      rewrite list_insert_id by done. by destruct s.
    + by erewrite bind_ok by by apply upd_proc_ok.
Qed.

Lemma kill_loop_ok pid_ signum s : valid_sig signum → ∀ l k,
  (∀ j p, l !! j = Some p → procs s !! (k + j)%nat = Some p) →
  for_until (seq k (length l)) (kill_slot pid_ signum) s =
    match list_find (kill_target pid_ signum) l with
    | Some (j, p) => Ok (Some 0) (with_proc s (k + j) (signalled signum p))
    | None => Ok None s
    end.
Proof.
  intros Hs l. induction l as [|p l IH]; intros k Hl; [done |].
  cbn [length seq for_until list_find].
  pose proof (Hl 0%nat p eq_refl) as Hp. rewrite Nat.add_0_r in Hp.
  pose proof (kill_slot_ok pid_ signum s k p Hs Hp) as Hk.
  destruct (kill_target pid_ signum p) eqn:Et.
  - rewrite decide_True by done. erewrite bind_ok by done. by rewrite Nat.add_0_r.
  - rewrite decide_False by (rewrite Is_true_true; congruence).
    erewrite bind_ok by done. cbv beta iota. rewrite IH.
    + destruct (list_find _ l) as [[j q]|]; simpl; [| done].
      by replace (k + S j)%nat with (S (k + j)) by lia.
    + intros j q Hj. replace (S k + j)%nat with (k + S j)%nat by lia. by apply Hl.
Qed.

(** C39: [kill(pid, signum)]: an invalid signal number is refused; otherwise
    the first slot with this pid that does not have the signal pending gets
    it (unless [signum] is 1, which is accepted and dropped) and the call
    returns 0; when there is no such slot the call returns -1 and nothing
    changes. *)
Theorem kill_correct pid_ signum s :
  table_ok s →
  kill pid_ signum s =
    if (signum <? SIG_MIN) || (SIG_MAX <? signum) then Ok (-1) s
    else match list_find (kill_target pid_ signum) (procs s) with
         | Some (i, p) => Ok 0 (with_proc s i (signalled signum p))
         | None => Ok (-1) s
         end.
Proof.
  intros Ht. unfold kill. destruct (_ || _) eqn:E; [done |].
  assert (valid_sig signum) as Hs.
  { apply orb_false_iff in E as [E1%Z.ltb_ge E2%Z.ltb_ge]. by split. }
  pose proof (kill_loop_ok pid_ signum s Hs (procs s) 0 (λ j p H, H)) as Hk.
  rewrite Ht in Hk. unfold mbind, M_bind. rewrite Hk.
  by destruct (list_find _ _) as [[i p]|].
Qed.

(** A table with one process, pid 5, in slot 0, running. *)
Definition proc_example : proc := proc0 <| pid := 5 |> <| state := RUNNING |>.
Definition kst_example (p : proc) : kst :=
  Kst (p :: replicate 63 proc0) (Some 0%nat) 6 (Some 0%nat) (λ _, 0).

Lemma kill_correct_witness :
  kill 5 SIGKILL (kst_example proc_example) =
    Ok 0 (with_proc (kst_example proc_example) 0 (proc_example <| psignals := 512 |>)).
Proof. rewrite (kill_correct 5 SIGKILL (kst_example proc_example)); reflexivity. Defined.

(** ** Delivery with the kernel's own handlers *)

(** [sigmask] blocks every signal but [SIGSTOP] and [SIGKILL]. *)
Definition unblocked (p : proc) (sig : Z) : bool :=
  negb (Z.testbit (sigmask p) sig) || (sig =? SIGSTOP) || (sig =? SIGKILL).

(** The signal is pending, not blocked and handled by default. *)
Definition delivered (p : proc) (sig : Z) : bool :=
  Z.testbit (psignals p) sig && unblocked p sig && (handler_word p sig =? SIG_DFL).

(** Every handler is one of the two constants. *)
Definition kernel_handlers (p : proc) : Prop :=
  ∀ sig, valid_sig sig → handler_word p sig = SIG_DFL ∨ handler_word p sig = SIG_IGN.

(** The fields delivery may change. *)
Definition sig_state (p : proc) (ps k f : Z) : proc :=
  p <| psignals := ps |> <| killed := k |> <| frozen := f |>.

Definition kill_action (sig : Z) (k : Z) : Z :=
  if (sig =? SIGCONT) || (sig =? SIGSTOP) then k else 1.
Definition freeze_action (sig : Z) (f : Z) : Z :=
  if sig =? SIGCONT then 0 else if sig =? SIGSTOP then 1 else f.

Lemma take_signal_ok s i p sig :
  running s i p → valid_sig sig →
  take_signal sig (Z.lor (psignals p) (sigbit sig)) s =
    Ok (Z.testbit (psignals p) sig)
       (with_proc s i (p <| psignals := Z.clearbit (psignals p) sig |>)).
Proof.
  intros Hrun Hs. unfold take_signal. erewrite bind_ok by by eapply curproc_ok.
  unfold cas. pose proof (lor_sigbit (psignals p) sig Hs) as Hlor. case_decide as Hd.
  - erewrite bind_ok by by apply upd_cur_ok. rewrite lxor_sigbit by done.
    by rewrite (proj1 Hlor Hd).
  - erewrite bind_ok by by apply upd_cur_ok.
    destruct (Z.testbit (psignals p) sig) eqn:Et; [exfalso; by apply Hd, Hlor |].
    by rewrite clearbit_absent by (done || by apply valid_nonneg).
Qed.

(** The handlers run in the process itself, so its state is [RUNNING]. *)
Lemma sigkill_ok s i p :
  running s i p → state p = RUNNING →
  sigkill_handler s = Ok () (with_proc s i (p <| killed := 1 |>)).
Proof.
  intros Hr Hst. unfold sigkill_handler. erewrite bind_ok by by apply upd_cur_ok.
  erewrite bind_ok by (eapply curproc_ok, running_with; done).
  rewrite bool_decide_eq_false_2; [done |]. simpl. by rewrite Hst.
Qed.

Lemma sigstop_ok s i p :
  running s i p → state p = RUNNING →
  sigstop_handler s = Ok () (with_proc s i (p <| frozen := 1 |>)).
Proof.
  intros Hr Hst. unfold sigstop_handler. erewrite bind_ok by by eapply curproc_ok.
  rewrite bool_decide_eq_false_2 by by rewrite Hst. by apply upd_cur_ok.
Qed.

Lemma sigcont_ok s i p :
  running s i p → sigcont_handler s = Ok () (with_proc s i (p <| frozen := 0 |>)).
Proof. intros Hr. by apply upd_cur_ok. Qed.

Lemma handleSignal_default s i p sig :
  running s i p → valid_sig sig → kernel_handlers p → state p = RUNNING →
  handleSignal sig s =
    Ok () (with_proc s i
      (if handler_word p sig =? SIG_DFL
       then sig_state p (psignals p) (kill_action sig (killed p)) (freeze_action sig (frozen p))
       else p)).
Proof.
  intros Hr Hs Hh Hst. unfold handleSignal. erewrite bind_ok by by eapply curproc_ok.
  destruct (Hh sig Hs) as [-> | ->].
  - change (SIG_DFL =? SIG_IGN) with false. change (SIG_DFL =? SIG_DFL) with true. cbv iota.
    unfold kill_action, freeze_action.
    destruct (sig =? SIGCONT); [erewrite sigcont_ok by done; by destruct p |].
    destruct (sig =? SIGSTOP); [erewrite sigstop_ok by done; by destruct p |].
    destruct (sig =? SIGKILL); unfold when; cbn [negb andb orb];
      erewrite sigkill_ok by done; by destruct p.
  - simpl. by rewrite with_same.
Qed.

(** One iteration of the loop. *)
Lemma handle_one_default s i p sig :
  running s i p → valid_sig sig → kernel_handlers p → state p = RUNNING →
  handle_one sig s =
    Ok () (with_proc s i
      (if delivered p sig
       then sig_state p (Z.clearbit (psignals p) sig) (kill_action sig (killed p))
              (freeze_action sig (frozen p))
       else sig_state p (Z.clearbit (psignals p) sig) (killed p) (frozen p))).
Proof.
  intros Hr Hs Hh Hst. unfold handle_one, delivered, unblocked.
  erewrite bind_ok by by eapply curproc_ok. rewrite sigbit_test by done.
  set (p1 := p <| psignals := Z.clearbit (psignals p) sig |>).
  assert (running (with_proc s i p1) i p1) as Hr1 by (by eapply running_with).
  assert (sig_state p (Z.clearbit (psignals p) sig) (killed p) (frozen p) = p1) as Ep1
    by by destruct p.
  (* the second test-and-clear finds the bit as it was *)
  assert (
    (ok ← take_signal sig (Z.lor (psignals p) (sigbit sig)); when ok (handleSignal sig)) s =
    Ok () (with_proc s i
      (if Z.testbit (psignals p) sig && (handler_word p sig =? SIG_DFL)
       then sig_state p (Z.clearbit (psignals p) sig) (kill_action sig (killed p))
              (freeze_action sig (frozen p))
       else p1))) as Hsecond.
  { erewrite bind_ok by by apply take_signal_ok. fold p1.
    destruct (Z.testbit (psignals p) sig); unfold when; cbn [andb]; [| done].
    rewrite (handleSignal_default _ i p1) by done. rewrite with_with.
    change (handler_word p1 sig) with (handler_word p sig).
    by destruct (handler_word p sig =? SIG_DFL); [destruct p |]. }
  rewrite Ep1.
  destruct (Z.testbit (sigmask p) sig); cbn [negb orb andb].
  - destruct (sig =? SIGSTOP); cbn [negb andb orb];
      [rewrite bind_ret, Hsecond, andb_true_r; done |].
    destruct (sig =? SIGKILL); cbn [negb andb orb];
      [rewrite bind_ret, Hsecond, andb_true_r; done |].
    rewrite andb_false_r. erewrite bind_ok by by apply take_signal_ok. fold p1.
    destruct (Z.testbit (psignals p) sig) eqn:Et; [done |].
    assert (p1 = p) as E1.
    { unfold p1. rewrite clearbit_absent by (done || by apply valid_nonneg). apply psignals_self. }
    rewrite E1 in *. rewrite with_same by done. by rewrite Hsecond, with_same by done.
  - rewrite bind_ret, Hsecond, andb_true_r. done.
Qed.

(** The process after the signals in [done] have been looked at. *)
Definition after_signals (p : proc) (done : list Z) : proc :=
  sig_state p
    (fold_left Z.clearbit done (psignals p))
    (fold_left (λ k sig, if delivered p sig then kill_action sig k else k) done (killed p))
    (fold_left (λ f sig, if delivered p sig then freeze_action sig f else f) done (frozen p)).

Lemma after_signals_delivered p done sig :
  Forall (λ x, 0 ≤ x) done → valid_sig sig → sig ∉ done →
  delivered (after_signals p done) sig = delivered p sig.
Proof.
  intros Hd Hs Hin. unfold delivered. f_equal. f_equal. simpl.
  rewrite clear_all by (done || by apply valid_nonneg).
  assert (existsb (Z.eqb sig) done = false) as ->; [| apply andb_true_r].
  apply not_true_iff_false. rewrite existsb_exists. intros (x & Hx & ->%Z.eqb_eq).
  by apply Hin, list_elem_of_In.
Qed.

Lemma handle_loop_default s i p l : ∀ done,
  running s i p → kernel_handlers p → state p = RUNNING →
  Forall valid_sig (done ++ l) → NoDup (done ++ l) →
  for_each l handle_one (with_proc s i (after_signals p done)) =
    Ok () (with_proc s i (after_signals p (done ++ l))).
Proof.
  induction l as [|sig l IH]; intros done Hr Hh Hst Hv Hnd; cbn [for_each].
  - by rewrite app_nil_r.
  - pose proof (proj1 (Forall_app _ _ _) Hv) as [Hvd [Hvs Hvl]%Forall_cons_1].
    assert (sig ∉ done) as Hin.
    { apply NoDup_app in Hnd as (_ & Hdis & _). intros H. apply (Hdis sig H). by left. }
    assert (Forall (λ x, 0 ≤ x) done) as Hpos.
    { eapply Forall_impl; [exact Hvd | apply valid_nonneg]. }
    erewrite bind_ok; last first.
    { apply (handle_one_default _ i (after_signals p done)); try done. by eapply running_with. }
    rewrite with_with, after_signals_delivered by done.
    rewrite (cons_middle sig done l) in Hv, Hnd |- *. rewrite (assoc_L (++)) in Hv, Hnd |- *.
    rewrite <- (IH (done ++ [sig])) by done.
    do 3 f_equal. unfold after_signals. rewrite !fold_left_app. cbn [fold_left].
    by destruct (delivered p sig).
Qed.

(** The kernel-mode result of delivery, in closed form. *)
Definition fatal (p : proc) (sig : Z) : bool :=
  delivered p sig && negb (sig =? SIGSTOP) && negb (sig =? SIGCONT).

Lemma fold_kill p l k :
  fold_left (λ k sig, if delivered p sig then kill_action sig k else k) l k =
    if existsb (fatal p) l then 1 else k.
Proof.
  revert k. induction l as [|sig l IH]; intros k; simpl; [done |].
  rewrite IH. unfold fatal at 2, kill_action.
  destruct (delivered p sig), (sig =? SIGCONT), (sig =? SIGSTOP), (existsb (fatal p) l); done.
Qed.

Lemma fold_freeze_other p l f :
  SIGSTOP ∉ l → SIGCONT ∉ l →
  fold_left (λ f sig, if delivered p sig then freeze_action sig f else f) l f = f.
Proof.
  revert f. induction l as [|sig l IH]; intros f; simpl; [done |].
  rewrite !not_elem_of_cons. intros [H1 H2] [H3 H4]. rewrite IH by done.
  unfold freeze_action. rewrite (proj2 (Z.eqb_neq sig SIGCONT)) by done.
  rewrite (proj2 (Z.eqb_neq sig SIGSTOP)) by done. by destruct (delivered p sig).
Qed.

Lemma fold_freeze p f :
  fold_left (λ f sig, if delivered p sig then freeze_action sig f else f) all_sigs f =
    if delivered p SIGCONT then 0 else if delivered p SIGSTOP then 1 else f.
Proof.
  change all_sigs with (seqZ 0 17 ++ [SIGSTOP; 18; SIGCONT] ++ seqZ 20 12).
  rewrite !fold_left_app, !(fold_freeze_other p (seqZ _ _));
    try (rewrite elem_of_seqZ; unfold SIGSTOP, SIGCONT; lia).
  cbn [fold_left]. unfold freeze_action.
  destruct (delivered p SIGSTOP), (delivered p 18), (delivered p SIGCONT); done.
Qed.

(** C14: delivery on return to user space, for a running process whose
    handlers are all [SIG_DFL] or [SIG_IGN]: every pending bit is consumed,
    blocked ones included; the process is marked killed exactly when an unblocked signal
    other than [SIGSTOP]/[SIGCONT] is pending with the default action; and
    [SIGCONT] wins over [SIGSTOP] for the frozen flag. [SIGSTOP] and [SIGKILL]
    are delivered whatever the mask. On a trap from the kernel, or when the
    processor runs no process, nothing happens. *)
Theorem handle_signals_default s t :
  match cur s with
  | None => handle_signals t s = Ok () s
  | Some i =>
      ∀ p, procs s !! i = Some p → state p = RUNNING → kernel_handlers p → 0 ≤ psignals p < 4294967296 →
      handle_signals t s =
        if Z.land (tf_cs t) 3 =? DPL_USER then
          Ok () (with_proc s i
            (p <| psignals := 0 |>
               <| killed := if existsb (fatal p) all_sigs then 1 else killed p |>
               <| frozen := if delivered p SIGCONT then 0
                            else if delivered p SIGSTOP then 1 else frozen p |>))
        else Ok () s
  end.
Proof.
  destruct (cur s) as [i|] eqn:Hcur; [|unfold handle_signals, myproc; by rewrite bind_gets, Hcur].
  intros p Hp Hst Hh Hps. assert (Hr : running s i p) by done. unfold handle_signals, myproc. rewrite bind_gets, Hcur.
  destruct (_ =? DPL_USER); [| done]. cbn [negb].
  rewrite <- (with_same s i p) at 1 by done.
  replace p with (after_signals p []) at 1 by by destruct p.
  rewrite (handle_loop_default s i p all_sigs []); try done;
    [| apply all_sigs_valid | apply NoDup_seqZ].
  do 2 f_equal. unfold after_signals. cbn [app].
  by rewrite clear_all_sigs, fold_kill, fold_freeze by done.
Qed.

(** Pending: [SIGKILL], [SIGSTOP], a blocked signal 3. *)
Definition pending_example : proc :=
  proc_example <| psignals := 131592 |> <| sigmask := 131592 |>.

Lemma kernel_handlers_example p :
  sig_handlers p = replicate SIG_HANDLERS_NUM 0 → kernel_handlers p.
Proof.
  intros H sig Hs. left. unfold handler_word, valid_sig, SIG_MIN, SIG_MAX in *.
  rewrite (proj2 (Z.ltb_lt _ _)) by lia.
  rewrite H, nth_lookup, lookup_replicate_2; [done | unfold SIG_HANDLERS_NUM; lia].
Qed.

Lemma handle_signals_default_witness :
  handle_signals (zero_trapframe <| tf_cs := 27 |>) (kst_example pending_example) =
    Ok () (with_proc (kst_example pending_example) 0
      (pending_example <| psignals := 0 |> <| killed := 1 |> <| frozen := 1 |>)).
Proof.
  rewrite (handle_signals_default (kst_example pending_example) (zero_trapframe <| tf_cs := 27 |>) pending_example); try done.
  by apply kernel_handlers_example.
Defined.

(** ** The user-handler frame *)

Lemma at_sigprocmask {B} s i p m mask (k : Z → M kst B) :
  cur_slot s i →
  (sigprocmask mask ≫= k) (at_proc s i p m) =
    k (sigmask p) (at_proc s i (p <| sigmask := mask |>) m).
Proof.
  intros Hs. unfold sigprocmask. rewrite bind_assoc, at_curproc by done.
  rewrite bind_assoc, at_upd by done. done.
Qed.

Ltac at_step :=
  repeat first
    [ rewrite at_curproc by done | rewrite at_upd by done | rewrite at_mem
    | rewrite at_sigprocmask by done
    | rewrite (at_set_mem _ _ _ _ (λ m, store_tf m _ _))
    | rewrite (at_set_mem _ _ _ _ (λ m, store_bytes m _ _))
    | rewrite (at_set_mem _ _ _ _ (λ m, store32 m _ _))
    | rewrite at_upd_last by done ]; cbv beta zeta.

(** The process and memory after [user_handler]. *)
Definition handler_proc (p : proc) (m : mem) (sig : Z) : proc :=
  let h := handler_word p sig in
  p <| tf_backup := kstack p |>
    <| sigmask := load32 (store_tf m (kstack p) (tf p)) (h + 4) |>
    <| sigmask_backup := sigmask p |>
    <| tf := (tf p) <| tf_esp := u32 (u32 (u32 (tf_esp (tf p) - 7) - 4) - 4) |>
                    <| tf_eip := u32 h |> |>.

Definition handler_mem (p : proc) (m : mem) (sig : Z) : mem :=
  let e1 := u32 (tf_esp (tf p) - 7) in
  let e2 := u32 (e1 - 4) in
  let e3 := u32 (e2 - 4) in
  store32 (store32 (store_bytes (store_tf m (kstack p) (tf p)) e1 sigret_code) e2 sig) e3 e1.

Lemma user_handler_run s i p sig :
  running s i p → valid_sig sig →
  user_handler sig s = Ok () (at_proc s i (handler_proc p (ks_mem s) sig)
                                (handler_mem p (ks_mem s) sig)).
Proof.
  intros Hr Hsig. pose proof (running_cur_slot s i p Hr) as Hc.
  rewrite (running_at s i p Hr) at 1. unfold user_handler. at_step.
  unfold handler_proc, handler_mem, handler_word, valid_sig, SIG_MAX in *.
  rewrite (proj2 (Z.ltb_lt sig 32)) by lia. reflexivity.
Qed.

Lemma store_bytes_byte bs : ∀ m a x,
  store_bytes m a bs x =
    if decide (a ≤ x < a + Z.of_nat (length bs)) then u8 (nth (Z.to_nat (x - a)) bs 0) else m x.
Proof.
  induction bs as [|b bs IH]; intros m a x; cbn [store_bytes length].
  - by rewrite decide_False by lia.
  - rewrite IH. destruct (decide (x = a)) as [->|Hne].
    + rewrite decide_False, decide_True by lia. rewrite store8_eq, Z.sub_diag. done.
    + rewrite store8_ne by done. case_decide.
      * rewrite decide_True by lia.
        replace (Z.to_nat (x - a)) with (S (Z.to_nat (x - (a + 1)))) by lia. done.
      * by rewrite decide_False by lia.
Qed.

(** A user stack pointer below the kernel, with room for the frame, and a
    kernel stack above it. *)
Definition stacks_ok (p : proc) : Prop :=
  15 ≤ tf_esp (tf p) ≤ KERNBASE ∧ KERNBASE ≤ kstack p.

Lemma esp_steps e :
  15 ≤ e < 4294967296 →
  u32 (e - 7) = e - 7 ∧ u32 (e - 7 - 4) = e - 11 ∧ u32 (e - 11 - 4) = e - 15.
Proof. intros He. rewrite !u32_small by lia. lia. Qed.

Lemma handler_mem_frame p m sig x :
  stacks_ok p → tf_esp (tf p) ≤ x → handler_mem p m sig x = store_tf m (kstack p) (tf p) x.
Proof.
  unfold stacks_ok, KERNBASE. intros [He Hk] Hx. unfold handler_mem.
  destruct (esp_steps (tf_esp (tf p)) ltac:(lia)) as (-> & -> & ->).
  rewrite !store32_byte, !decide_False by lia.
  by rewrite store_bytes_byte, decide_False by (simpl length; lia).
Qed.

(** C21: the frame [user_handler] builds: the process resumes in its
    handler, with the stack pointer 15 bytes lower; on the stack are the
    return address, which points at the [sigret] code just above, the
    signal number as argument, and that code; the interrupted frame is
    saved at the bottom of the kernel stack and the old mask saved. *)
Theorem user_handler_frame s i p sig :
  running s i p → valid_sig sig → stacks_ok p → tf_ok (tf p) →
  ∃ s' p',
    user_handler sig s = Ok () s' ∧ running s' i p' ∧
    tf_eip (tf p') = u32 (handler_word p sig) ∧
    tf_esp (tf p') = tf_esp (tf p) - 15 ∧
    load32 (ks_mem s') (tf_esp (tf p')) = tf_esp (tf p') + 8 ∧
    load32 (ks_mem s') (tf_esp (tf p') + 4) = sig ∧
    (∀ k b, sigret_code !! k = Some b → ks_mem s' (tf_esp (tf p') + 8 + Z.of_nat k) = b) ∧
    tf_backup p' = kstack p ∧ load_tf (ks_mem s') (kstack p) = tf p ∧
    sigmask_backup p' = sigmask p.
Proof.
  intros Hr Hs Hok Htf. pose proof Hok as [He Hk].
  pose proof (running_cur_slot s i p Hr) as Hc. unfold KERNBASE in He, Hk.
  eexists _, (handler_proc p (ks_mem s) sig). split; [by apply user_handler_run |].
  split; [by apply at_running |].
  assert (tf_esp (tf (handler_proc p (ks_mem s) sig)) = tf_esp (tf p) - 15) as Eesp.
  { simpl. by destruct (esp_steps (tf_esp (tf p)) ltac:(lia)) as (-> & -> & ->). }
  rewrite Eesp. cbn [at_proc with_proc set_field ks_mem].
  assert (handler_mem p (ks_mem s) sig =
    store32 (store32 (store_bytes (store_tf (ks_mem s) (kstack p) (tf p)) (tf_esp (tf p) - 7)
      sigret_code) (tf_esp (tf p) - 11) sig) (tf_esp (tf p) - 15) (tf_esp (tf p) - 7)) as Em.
  { unfold handler_mem. by destruct (esp_steps (tf_esp (tf p)) ltac:(lia)) as (-> & -> & ->). }
  split_and!; try done.
  - rewrite Em, load32_store32_eq by lia. lia.
  - rewrite Em, load32_store32_ne by lia.
    replace (tf_esp (tf p) - 15 + 4) with (tf_esp (tf p) - 11) by lia.
    apply load32_store32_eq. unfold valid_sig, SIG_MIN, SIG_MAX in Hs. lia.
  - intros k b Hb. rewrite Em. pose proof (lookup_lt_Some _ _ _ Hb) as Hlt. simpl length in Hlt.
    rewrite !store32_byte, !decide_False by lia.
    rewrite store_bytes_byte, decide_True by (simpl length; lia).
    replace (Z.to_nat _) with k by lia. rewrite nth_lookup, Hb. simpl.
    apply u8_small. do 7 (destruct k as [|k]; [injection Hb as <-; lia |]). done.
  - etrans; [| by apply (load_store_tf (ks_mem s) (kstack p) (tf p))].
    apply load_tf_ext. intros x Hx. apply handler_mem_frame; [done | lia].
Qed.

(** A process running user code at [0x1000], its stack at [0x3000], its
    kernel stack at [0x8dfff000], with a user handler at [0x500] for
    [SIGTEST]. *)
Definition user_frame : trapframe :=
  zero_trapframe <| tf_cs := 27 |> <| tf_eip := 0x1000 |> <| tf_esp := 0x3000 |>
                 <| tf_eax := 7 |>.
Definition user_example : proc :=
  proc_example <| kstack := 0x8dfff000 |> <| tf := user_frame |>
    <| sig_handlers := <[20%nat := 0x500]> (replicate SIG_HANDLERS_NUM 0) |>.

Lemma user_frame_ok : tf_ok user_frame.
Proof. split; repeat constructor; simpl; lia. Qed.

Lemma user_example_stacks : stacks_ok user_example.
Proof. split; unfold KERNBASE; simpl; lia. Qed.

Lemma user_handler_frame_witness :
  ∃ s' p',
    user_handler SIGTEST (kst_example user_example) = Ok () s' ∧ running s' 0 p' ∧
    tf_eip (tf p') = 0x500 ∧ tf_esp (tf p') = 0x3000 - 15 ∧
    load32 (ks_mem s') (tf_esp (tf p')) = tf_esp (tf p') + 8 ∧
    load32 (ks_mem s') (tf_esp (tf p') + 4) = SIGTEST ∧
    (∀ k b, sigret_code !! k = Some b → ks_mem s' (tf_esp (tf p') + 8 + Z.of_nat k) = b) ∧
    tf_backup p' = 0x8dfff000 ∧ load_tf (ks_mem s') 0x8dfff000 = user_frame ∧
    sigmask_backup p' = 0.
Proof.
  apply (user_handler_frame (kst_example user_example) 0 user_example SIGTEST).
  - done.
  - done.
  - apply user_example_stacks.
  - apply user_frame_ok.
Defined.

(** ** Returning from a handler *)

(** A signal that is not pending is passed over, whatever its handler. *)
Lemma handle_one_idle s i p sig :
  running s i p → valid_sig sig → Z.testbit (psignals p) sig = false →
  handle_one sig s = Ok () s.
Proof.
  intros Hr Hs Ht. unfold handle_one. erewrite bind_ok by by eapply curproc_ok.
  assert (take_signal sig (Z.lor (psignals p) (sigbit sig)) s = Ok false s) as Htake.
  { erewrite take_signal_ok by done. rewrite Ht.
    rewrite clearbit_absent by (done || by apply valid_nonneg).
    by rewrite psignals_self, with_same. }
  destruct (_ && _ && _); [erewrite bind_ok by done | rewrite bind_ret]; cbv beta iota;
    by erewrite bind_ok by done.
Qed.

Lemma handle_loop_idle s i p l :
  running s i p → Forall valid_sig l → psignals p = 0 → for_each l handle_one s = Ok () s.
Proof.
  intros Hr Hl Hps. induction Hl as [|sig l Hs _ IH]; cbn [for_each]; [done |].
  erewrite bind_ok; [exact IH |]. eapply handle_one_idle; [done | done |]. by rewrite Hps, Z.bits_0.
Qed.

Lemma handle_signals_idle s i p t :
  running s i p → psignals p = 0 → handle_signals t s = Ok () s.
Proof.
  intros Hr Hps. unfold handle_signals, myproc. rewrite bind_gets.
  destruct (cur s); [| done]. destruct (negb _); [done |].
  eapply handle_loop_idle; [done | apply all_sigs_valid | done].
Qed.

Lemma sigret_run s i p m :
  cur_slot s i → psignals p = 0 →
  sigret (at_proc s i p m) =
    Ok 0 (at_proc s i (p <| tf := load_tf m (tf_backup p) |> <| sigmask := sigmask_backup p |>) m).
Proof.
  intros Hc Hps. unfold sigret. at_step.
  erewrite bind_ok by (eapply handle_signals_idle; [by apply at_running | done]). done.
Qed.

(** C17: [user_handler] followed by [sigret] is the identity on the
    interrupted context: whatever the handler did to its own registers
    [t2] and to memory [m2], as long as the saved frame at the bottom of
    the kernel stack is intact and no further signal is pending, [sigret]
    brings back the interrupted trap frame and signal mask. *)
Theorem sigret_restores s i p sig s1 p1 t2 m2 :
  running s i p → valid_sig sig → stacks_ok p → tf_ok (tf p) → psignals p = 0 →
  user_handler sig s = Ok () s1 → running s1 i p1 →
  (∀ x, kstack p ≤ x < kstack p + SIZEOF_TRAPFRAME → m2 x = ks_mem s1 x) →
  ∃ s3 p3,
    sigret (at_proc s1 i (p1 <| tf := t2 |>) m2) = Ok 0 s3 ∧ running s3 i p3 ∧
    tf p3 = tf p ∧ sigmask p3 = sigmask p ∧ ks_mem s3 = m2.
Proof.
  intros Hr Hs Hok Htf Hps Hu Hr1 Hm. pose proof (running_cur_slot s i p Hr) as Hc.
  rewrite (user_handler_run s i p sig Hr Hs) in Hu. injection Hu as <-.
  assert (p1 = handler_proc p (ks_mem s) sig) as ->.
  { destruct (at_running s i (handler_proc p (ks_mem s) sig) (handler_mem p (ks_mem s) sig) Hc)
      as [_ Hl]. destruct Hr1 as [_ Hl1]. congruence. }
  pose proof (running_cur_slot _ _ _ Hr1) as Hc1.
  eexists _, _. split; [by apply sigret_run |]. split; [by apply at_running |].
  split_and!; [| done | done]. simpl.
  etrans; [| by apply (load_store_tf (ks_mem s) (kstack p) (tf p))].
  apply load_tf_ext. intros x Hx. rewrite Hm by done.
  apply handler_mem_frame; [done |]. destruct Hok. unfold KERNBASE in *. lia.
Qed.

Lemma sigret_restores_witness :
  ∃ s3 p3,
    sigret (at_proc
        (at_proc (kst_example user_example) 0 (handler_proc user_example (λ _, 0) SIGTEST)
           (handler_mem user_example (λ _, 0) SIGTEST)) 0
        ((handler_proc user_example (λ _, 0) SIGTEST) <| tf := zero_trapframe |>)
        (handler_mem user_example (λ _, 0) SIGTEST)) = Ok 0 s3 ∧
    running s3 0 p3 ∧ tf p3 = user_frame ∧ sigmask p3 = 0 ∧
    ks_mem s3 = handler_mem user_example (λ _, 0) SIGTEST.
Proof.
  apply (sigret_restores (kst_example user_example) 0 user_example SIGTEST
    (at_proc (kst_example user_example) 0 (handler_proc user_example (λ _, 0) SIGTEST)
       (handler_mem user_example (λ _, 0) SIGTEST))).
  - done.
  - done.
  - apply user_example_stacks.
  - apply user_frame_ok.
  - done.
  - by apply user_handler_run.
  - apply at_running. split; [done | simpl; lia].
  - done.
Defined.

(** There is one backup per process: when two signals with user
    handlers are delivered in the same pass, the second [user_handler]
    saves the frame of the first handler over the interrupted one. The
    frame that [sigret] can restore is then the first handler's, and the
    interrupted context is lost. *)
Theorem second_handler_overwrites_backup s i p a b s1 p1 :
  running s i p → valid_sig a → valid_sig b → tf_ok (tf p) →
  30 ≤ tf_esp (tf p) ≤ KERNBASE → KERNBASE ≤ kstack p →
  user_handler a s = Ok () s1 → running s1 i p1 →
  ∃ s2 p2,
    user_handler b s1 = Ok () s2 ∧ running s2 i p2 ∧
    load_tf (ks_mem s2) (tf_backup p2) = tf p1 ∧
    tf_eip (tf p1) = u32 (handler_word p a) ∧
    tf_esp (tf p1) = tf_esp (tf p) - 15.
Proof.
  intros Hr Ha Hb Htf He Hk Hu Hr1. pose proof (running_cur_slot s i p Hr) as Hc.
  rewrite (user_handler_run s i p a Hr Ha) in Hu. injection Hu as <-.
  assert (p1 = handler_proc p (ks_mem s) a) as ->.
  { destruct (at_running s i (handler_proc p (ks_mem s) a) (handler_mem p (ks_mem s) a) Hc)
      as [_ Hl]. destruct Hr1 as [_ Hl1]. congruence. }
  unfold KERNBASE in He, Hk.
  assert (tf_esp (tf (handler_proc p (ks_mem s) a)) = tf_esp (tf p) - 15) as Eesp.
  { simpl. by destruct (esp_steps (tf_esp (tf p)) ltac:(lia)) as (-> & -> & ->). }
  assert (stacks_ok (handler_proc p (ks_mem s) a)) as Hok1.
  { unfold stacks_ok, KERNBASE. rewrite Eesp. simpl. lia. }
  eexists _, _. split; [by apply user_handler_run |].
  split; [apply at_running; by eapply running_cur_slot |].
  split_and!; [| done | done].
  etrans; [| apply (load_store_tf (handler_mem p (ks_mem s) a) (kstack p))].
  - apply load_tf_ext. intros x Hx.
    apply (handler_mem_frame (handler_proc p (ks_mem s) a)); [done |]. rewrite Eesp.
    simpl in Hx. lia.
  - destruct Htf as [Hw Hh]. unfold tf_words in Hw.
    repeat (apply Forall_cons_1 in Hw as [? Hw]).
    split; [| exact Hh]. unfold tf_words. repeat constructor; simpl; try done; try lia.
    all: try apply u32_range.
Qed.

Lemma second_handler_overwrites_backup_witness :
  ∃ s2 p2,
    user_handler 20 (at_proc (kst_example user_example) 0 (handler_proc user_example (λ _, 0) 20)
        (handler_mem user_example (λ _, 0) 20)) = Ok () s2 ∧
    running s2 0 p2 ∧
    load_tf (ks_mem s2) (tf_backup p2) = tf (handler_proc user_example (λ _, 0) 20) ∧
    tf_eip (tf (handler_proc user_example (λ _, 0) 20)) = 0x500 ∧
    tf_esp (tf (handler_proc user_example (λ _, 0) 20)) = 0x3000 - 15.
Proof.
  apply (second_handler_overwrites_backup (kst_example user_example) 0 user_example 20 20
    (at_proc (kst_example user_example) 0 (handler_proc user_example (λ _, 0) 20)
       (handler_mem user_example (λ _, 0) 20))).
  - done.
  - done.
  - done.
  - apply user_frame_ok.
  - unfold KERNBASE. simpl. lia.
  - done.
  - by apply user_handler_run.
  - apply at_running. split; [done | simpl; lia].
Defined.

(** ** Installing handlers *)

(** Words 0 to 32 are laid out one after the other. *)
Lemma handler_word_set p j v k :
  length (sig_handlers p) = SIG_HANDLERS_NUM → 0 ≤ j ≤ 32 → 0 ≤ k ≤ 32 →
  handler_word (set_handler_word j v p) k = if k =? j then v else handler_word p k.
Proof.
  unfold SIG_HANDLERS_NUM. intros Hlen Hj Hk. unfold handler_word, set_handler_word.
  destruct (Z.ltb_spec j 32), (Z.ltb_spec k 32), (Z.eqb_spec k j); try lia; simpl; try done.
  - subst k. by rewrite nth_lookup, list_lookup_insert_eq by lia.
  - rewrite !nth_lookup, list_lookup_insert_ne by lia. done.
Qed.

Lemma set_handler_word_length p j v :
  length (sig_handlers (set_handler_word j v p)) = length (sig_handlers p).
Proof. unfold set_handler_word. destruct (j <? 32); simpl; [apply length_insert | done]. Qed.

(** What [sigaction] leaves in user memory: the old pair, when asked. *)
Definition sigaction_mem (p : proc) (m : mem) (signum oldact : Z) : mem :=
  if oldact =? 0 then m
  else store32 (store32 m oldact (handler_word p signum)) (oldact + 4) (handler_word p (signum + 1)).

Lemma sigaction_run s i p signum act oldact :
  running s i p → valid_sig signum → signum ≠ SIGSTOP → signum ≠ SIGKILL →
  let m := sigaction_mem p (ks_mem s) signum oldact in
  sigaction signum act oldact s =
    Ok (if load32 m (act + 4) <=? 0 then 1 else 0)
       (at_proc s i (set_handler_word (signum + 1) (load32 m (act + 4))
                       (set_handler_word signum (load32 m act) p)) m).
Proof.
  intros Hr Hs Hstop Hkill m. pose proof (running_cur_slot s i p Hr) as Hc.
  rewrite (running_at s i p Hr) at 1. unfold sigaction.
  rewrite (proj2 (Z.eqb_neq _ _) Hstop), (proj2 (Z.eqb_neq _ _) Hkill).
  destruct Hs as [Hs1 Hs2].
  rewrite (proj2 (Z.ltb_ge SIG_MAX signum)), (proj2 (Z.ltb_ge signum SIG_MIN)) by done.
  cbn [orb]. rewrite at_curproc by done. unfold m, sigaction_mem. clear m. unfold when.
  destruct (oldact =? 0); cbn [negb].
  - rewrite bind_ret. at_step. by destruct (_ <=? 0).
  - rewrite bind_assoc. at_step. by destruct (_ <=? 0).
Qed.

(** [sigaction(signum, act, oldact)] on a valid signal: the handler of
    [signum] becomes the one at [act]; the mask is stored in the word
    after it, which is the handler of the next signal, so that handler is
    replaced by the mask (for signal 31, the word is [tf_backup]); no other
    handler changes. It returns 1 when the new mask is 0, with the change
    made all the same. *)
Theorem sigaction_correct s i p signum act oldact :
  running s i p → valid_sig signum → signum ≠ SIGSTOP → signum ≠ SIGKILL →
  length (sig_handlers p) = SIG_HANDLERS_NUM →
  ∃ r s' p',
    sigaction signum act oldact s = Ok r s' ∧ running s' i p' ∧
    (r = 1 ↔ load32 (ks_mem s') (act + 4) ≤ 0) ∧
    (∀ k, 0 ≤ k ≤ 32 →
       handler_word p' k =
         if k =? signum then load32 (ks_mem s') act
         else if k =? signum + 1 then load32 (ks_mem s') (act + 4)
         else handler_word p k) ∧
    ks_mem s' = sigaction_mem p (ks_mem s) signum oldact.
Proof.
  intros Hr Hs Hstop Hkill Hlen. eexists _, _, _.
  split; [by apply sigaction_run |]. split; [apply at_running; by eapply running_cur_slot |].
  cbn [at_proc with_proc set_field ks_mem]. split_and!; [| | done].
  - destruct (Z.leb_spec (load32 (sigaction_mem p (ks_mem s) signum oldact) (act + 4)) 0);
      split; try done; lia.
  - intros k Hk. unfold valid_sig, SIG_MIN, SIG_MAX in Hs.
    rewrite handler_word_set by (rewrite ?set_handler_word_length; done || lia).
    rewrite handler_word_set by (done || lia).
    destruct (Z.eqb_spec k (signum + 1)), (Z.eqb_spec k signum); try done. lia.
Qed.

(** A handler pair at [0x100]: function [0x500], mask 1. *)
Definition act_mem : mem := store32 (store32 (λ _, 0) 0x100 0x500) 0x104 1.
Definition act_state : kst := (kst_example user_example) <| ks_mem := act_mem |>.

Lemma sigaction_correct_witness :
  ∃ r s' p',
    sigaction 8 0x100 0 act_state = Ok r s' ∧ running s' 0 p' ∧
    (r = 1 ↔ load32 (ks_mem s') (0x100 + 4) ≤ 0) ∧
    (∀ k, 0 ≤ k ≤ 32 →
       handler_word p' k =
         if k =? 8 then load32 (ks_mem s') 0x100
         else if k =? 8 + 1 then load32 (ks_mem s') (0x100 + 4)
         else handler_word user_example k) ∧
    ks_mem s' = sigaction_mem user_example act_mem 8 0.
Proof. by apply (sigaction_correct act_state 0 user_example 8 0x100 0). Defined.

(** [SIGKILL] can be ignored: a process that installs a handler with
    mask 1 for signal 8 has its [SIGKILL] handler overwritten by 1, which
    is [SIG_IGN]; a [kill(pid, SIGKILL)] then succeeds, is consumed on the
    way to user space, and leaves the process alive. The direct request
    [sigaction(SIGKILL, ...)] is refused. *)
Theorem sigkill_can_be_ignored :
  fst <$> run (r0 ← sigaction SIGKILL 0x100 0;
       r1 ← sigaction 8 0x100 0;
       r2 ← kill 5 SIGKILL;
       handle_signals user_frame;;
       p ← curproc;
       mret (r0, r1, r2, handler_word p SIGKILL, psignals p, killed p)) act_state
  = Some (1, 0, 0, SIG_IGN, 0, 0).
Proof. vm_compute. reflexivity. Qed.

(** [exec] leaves every handler [SIG_DFL] or [SIG_IGN], keeping the
    ignored ones, and a forked child starts with its parent's handlers. *)
Theorem exec_fork_handlers p sig :
  valid_sig sig → length (sig_handlers p) = SIG_HANDLERS_NUM →
  handler_word (default_sighandlers p) sig =
    (if handler_word p sig =? SIG_IGN then SIG_IGN else SIG_DFL) ∧
  copySigHandlers (sig_handlers p) = sig_handlers p.
Proof.
  intros Hs Hlen. unfold SIG_HANDLERS_NUM in Hlen. split.
  - unfold handler_word, valid_sig, SIG_MIN, SIG_MAX in *.
    rewrite (proj2 (Z.ltb_lt _ _)) by lia. unfold default_sighandlers. simpl.
    rewrite !nth_lookup, list_lookup_fmap.
    destruct (lookup_lt_is_Some_2 (sig_handlers p) (Z.to_nat sig)) as [h Hh]; [lia |].
    rewrite Hh. simpl. destruct (Z.eqb_spec h SIG_DFL), (Z.eqb_spec h SIG_IGN); cbn [negb andb];
      rewrite ?Z.eqb_refl; try done; unfold SIG_DFL, SIG_IGN in *; subst; done.
  - unfold copySigHandlers. apply list_eq. intros k. rewrite list_lookup_fmap.
    destruct (decide (k < 32)%nat) as [Hk|Hk].
    + rewrite lookup_seq_lt by done. simpl.
      destruct (lookup_lt_is_Some_2 (sig_handlers p) k) as [h Hh]; [lia |].
      by rewrite nth_lookup, Hh.
    + rewrite (lookup_ge_None_2 (seq _ _)) by (rewrite length_seq; unfold SIG_HANDLERS_NUM; lia).
      by rewrite lookup_ge_None_2 by lia.
Qed.

Lemma exec_fork_handlers_witness :
  handler_word (default_sighandlers user_example) 20 =
    (if handler_word user_example 20 =? SIG_IGN then SIG_IGN else SIG_DFL) ∧
  copySigHandlers (sig_handlers user_example) = sig_handlers user_example.
Proof. by apply (exec_fork_handlers user_example 20). Defined.
