(* ===== verification/Sched.v ===== *)
(** * The lock-free scheduler

    [src/proc.c] replaces the process-table lock by compare-and-swap on
    the process state, with an intermediate [MINUS_] state for a process
    that is leaving its processor. This file models that protocol as the
    interleaving of several processors, one shared-memory access per step:
    [scheduler], [sched], [yield], [sleep], [wakeup1], [wakeup], [wait],
    [exit], [forkret], and the slots of [allocproc] and [fork]. Each
    processor has its interrupt flag, the nesting count and the saved flag
    of [pushcli] and [popcli], and its [c->proc], so that every panic of
    these functions is in the model. *)
From stdpp Require Import functions.
From S2P Require Import Prelude Machine Proc.

(** ** Processors and interrupts *)

(** [ncli], [intena] and [proc] of [struct cpu], and [FL_IF]. *)
Record icpu := ICpu { c_ncli : Z; c_intena : bool; c_if : bool; c_proc : option nat }.
#[export] Instance eta_icpu : Settable icpu := λ i, ICpu (c_ncli i) (c_intena i) (c_if i) (c_proc i).

Definition push_cli (i : icpu) : icpu :=
  i <| c_if := false |>
    <| c_intena := if c_ncli i =? 0 then c_if i else c_intena i |>
    <| c_ncli := c_ncli i + 1 |>.

(** [None] is a panic: interrupts on, or no [pushcli] to undo. *)
Definition pop_cli (i : icpu) : option icpu :=
  if c_if i then None
  else
    let i := i <| c_ncli := c_ncli i - 1 |> in
    if c_ncli i <? 0 then None
    else Some (if (c_ncli i =? 0) && c_intena i then i <| c_if := true |> else i).

(** [mycpu], on the processor itself: a panic with interrupts on. *)
Definition my_cpu (i : icpu) : option icpu := if c_if i then None else Some i.

(** [myproc]: the processor afterwards, and [c->proc]. *)
Definition my_proc (i : icpu) : option (icpu * option nat) :=
  i1 ← my_cpu (push_cli i);
  i2 ← pop_cli i1;
  Some (i2, c_proc i1).

(** ** Program counters *)

(** Where a processor is inside [wakeup1(chan)]; the number is the slot. *)
Inductive wpc :=
| WTest (j : nat)      (* p->state == SLEEPING ? *)
| WTest2 (j : nat)     (* p->state == MINUS_SLEEPING ? *)
| WChan (j : nat)      (* p->chan == chan ? *)
| WCas (j : nat)       (* cas(&p->state, SLEEPING, MINUS_RUNNABLE) *)
| WSpin (j : nat)      (* p->state == RUNNING ? break *)
| WFin (j : nat)       (* if (p->state != RUNNING) *)
| WFin2 (j : nat)      (* cas(&p->state, MINUS_RUNNABLE, RUNNABLE) *)
| WDone.

(** The argument [lk] of [sleep]: 0, [&ptable.lock], another spin lock. *)
Inductive lkarg := LkNull | LkPtable | LkOther.

(** The caller of [sched()]. *)
Inductive resume := RYield | RSleep (lk : lkarg) | RWait | RDead.

(** Where a process is in the kernel code that changes process states.
    [KUser] is everywhere else; [KDead] is after the last [sched] of
    [exit], or a slot that has never been used. *)
Inductive kpc :=
| KUser
| KYield                                   (* yield: the cas *)
| KSleepChan (c : channel) (lk : lkarg)    (* sleep: p->chan = chan *)
| KSleepCas (lk : lkarg)                   (* sleep: the cas *)
| KSched (r : resume) | KSwtch (r : resume)(* sched: the checks; swtch *)
| KExitCas | KExitLoop (j : nat) | KExitZ (j : nat) | KExitWake (j : nat) (w : wpc)
| KWaitCas | KWaitChan | KWaitScan (j : nat) (havekids : bool) | KWaitReap (j : nat)
| KWaitFree (j : nat) | KWaitBack (j : nat) | KWaitDone (j : nat)
| KWaitNone | KWaitNoneCas
| KWake (c : channel) (w : wpc)            (* wakeup *)
| KAlloc (j : nat) | KAllocCas (j : nat)   (* allocproc *)
| KDead
| KBack (r : resume)                       (* sched: after swtch *)
| KForkret.                                (* forkret *)

(** Where a processor is in [scheduler]; the first number is the slot.
    The flag of the [SPost] points records the control flow: the processor
    has already handed the process on. *)
Inductive cpc :=
| SLoop (k : nat)                (* cas(&p->state, RUNNABLE, RUNNING) *)
| SFrozen (k : nat)              (* if (p->frozen) ... *)
| SUnrun (k : nat)               (* cas(&p->state, RUNNING, RUNNABLE) *)
| SSwitch (k : nat)              (* c->proc = p; swtch *)
| SRun (k : nat)                 (* the process itself runs *)
| SBack (k : nat)                (* switchkvm; c->proc = 0 *)
| SPost1 (k : nat)               (* cas(MINUS_SLEEPING, SLEEPING) *)
| SPost1k (k : nat)              (* p->killed == 1 ? *)
| SPost1c (k : nat)              (* cas(SLEEPING, RUNNABLE) *)
| SPost2 (k : nat) (rel : bool)  (* cas(MINUS_RUNNABLE, RUNNABLE) *)
| SPost3 (k : nat) (rel : bool)  (* p->state == MINUS_ZOMBIE ? *)
| SPost4 (k : nat) (rel : bool)  (* p->chan = 0 *)
| SPost5 (k : nat) (rel : bool)  (* cas(MINUS_ZOMBIE, ZOMBIE) *)
| SWake (k : nat) (c : channel) (w : wpc) (* wakeup1(p->parent) *)
| SStart                         (* sti *)
| SOpen                          (* pushcli, or an interrupt before it *)
| SIntr (c : channel) (w : wpc). (* wakeup in an interrupt of the scheduler *)

(** Shared memory, the program counters of processors and processes, the
    processors, and what is on a kernel stack: the variable [intena] of
    [sched], and the slot of a [fork] that is under way, with whether its
    parent is set. *)
Record gst := Gst {
  st : nat → procstate;          (* p->state *)
  ch : nat → channel;            (* p->chan *)
  kl : nat → bool;               (* p->killed == 1 *)
  fz : nat → bool;               (* p->frozen, with no signal that lets it run *)
  par : nat → option nat;        (* p->parent *)
  pc : nat → cpc;
  kc : nat → kpc;
  ci : nat → icpu;
  si : nat → bool;
  fk : nat → option (nat * bool)
}.
#[export] Instance eta_gst : Settable gst := λ g,
  Gst (st g) (ch g) (kl g) (fz g) (par g) (pc g) (kc g) (ci g) (si g) (fk g).

(** What a process does next when it is in [KUser]: call one of the functions
    of this file; [pushcli] and [popcli], as in [acquire] and [release] of
    some spin lock; be interrupted, or return from the interrupt; the later
    parts of [fork]. *)
Inductive kop :=
| ONone | OYield | OSleep (c : channel) (lk : lkarg) | OExit | OWait | OWakeup (c : channel) | OFork
| OFail                                    (* fork: no memory for the child *)
| OForkPar                                 (* fork: np->parent = curproc *)
| OForkEnd                                 (* fork: the cas *)
| OKill (j : nat) | OFreeze (j : nat) (b : bool)
| OPush | OPop | OIntr | OIret.

(** ** Steps *)

Section steps.
(** The number of process slots, [NPROC] in the source. *)
Variable np : nat.

(** [cas(&p->state, e, n)] on slot [j]: success and the new memory. *)
Definition cas_state (j : nat) (e n : procstate) (g : gst) : bool * gst :=
  let '(ok, cell) := cas (st g j) e n in (ok, g <| st := <[j := cell]> (st g) |>).

(** One step of [wakeup1(chan)] between its [pushcli] and [popcli]. *)
Definition wakeup1_step (chan : channel) (w : wpc) (g : gst) : wpc * gst :=
  match w with
  | WTest j =>
      if (j <? np)%nat
      then (if decide (st g j = SLEEPING) then WChan j else WTest2 j, g)
      else (WDone, g)
  | WTest2 j => (if decide (st g j = MINUS_SLEEPING) then WChan j else WTest (S j), g)
  | WChan j => (if decide (ch g j = chan) then WCas j else WTest (S j), g)
  | WCas j =>
      let '(ok, g') := cas_state j SLEEPING MINUS_RUNNABLE g in
      (if ok then WFin j else WSpin j, g')
  | WSpin j => (if decide (st g j = RUNNING) then WFin j else WCas j, g)
  | WFin j => (if decide (st g j = RUNNING) then WTest (S j) else WFin2 j, g)
  | WFin2 j => let '(_, g') := cas_state j MINUS_RUNNABLE RUNNABLE g in (WTest (S j), g')
  | WDone => (WDone, g)
  end.

(** A process step goes on, switches to the scheduler, or panics. *)
Inductive kres := KNext (g : gst) | KSwitch (g : gst) | KPanic.

Definition set_kc (p : nat) (k : kpc) (g : gst) : gst := g <| kc := <[p := k]> (kc g) |>.
Definition set_ci (c : nat) (i : icpu) (g : gst) : gst := g <| ci := <[c := i]> (ci g) |>.
Definition set_fk (p : nat) (f : option (nat * bool)) (g : gst) : gst := g <| fk := <[p := f]> (fk g) |>.

(** [pushcli], [popcli] and [myproc] on processor [c]. *)
Definition pushed (c : nat) (g : gst) : gst := set_ci c (push_cli (ci g c)) g.
Definition popped (c : nat) (g : gst) (next : gst → kres) : kres :=
  match pop_cli (ci g c) with Some i => next (set_ci c i g) | None => KPanic end.
Definition with_proc (c : nat) (g : gst) (next : option nat → gst → kres) : kres :=
  match my_proc (ci g c) with Some (i, q) => next q (set_ci c i g) | None => KPanic end.

(** Where the process goes on when it is switched to again. *)
Definition resume_pc (r : resume) : kpc := match r with RDead => KDead | _ => KBack r end.

(** [sched]: the checks, [swtch], and the rest of [sched] and of its
    caller: [popcli] in [yield], [acquire(lk)] and [popcli] in [sleep], the
    next round in [wait], [panic("zombie exit")] in [exit]. *)
Definition sched_step (c p : nat) (k : kpc) (g : gst) : kres :=
  match k with
  | KSched r =>
      with_proc c g (λ q g,
        match q, my_cpu (ci g c) with
        | Some q, Some i =>
            if negb (c_ncli i =? 1) then KPanic                 (* sched locks *)
            else if decide (st g q = RUNNING) then KPanic       (* sched running *)
            else if c_if i then KPanic                          (* sched interruptible *)
            else KNext (set_kc p (KSwtch r) (g <| si := <[p := c_intena i]> (si g) |>))
        | _, _ => KPanic
        end)
  | KSwtch r => KSwitch (set_kc p (resume_pc r) g)
  | KBack r =>
      match my_cpu (ci g c) with
      | None => KPanic
      | Some i =>
          let g := set_ci c (i <| c_intena := si g p |>) g in
          match r with
          | RYield => popped c g (λ g, KNext (set_kc p KUser g))
          | RSleep lk =>
              let g := match lk with LkNull => g | _ => pushed c g end in
              popped c g (λ g, KNext (set_kc p KUser g))
          | RWait => KNext (set_kc p KWaitCas g)
          | RDead => KPanic
          end
      end
  | _ => KPanic
  end.

(** [yield] after its [pushcli]. *)
Definition yield_step (c p : nat) (g : gst) : kres :=
  with_proc c g (λ q g,
    match q with
    | Some q =>
        let '(ok, g') := cas_state q RUNNING MINUS_RUNNABLE g in
        if ok then KNext (set_kc p (KSched RYield) g') else KPanic
    | None => KPanic
    end).

(** [sleep] up to its [pushcli]. *)
Definition sleep_entry (c p : nat) (chan : channel) (lk : lkarg) (g : gst) : kres :=
  with_proc c g (λ q g,
    match q, lk with
    | None, _ => KPanic                                         (* sleep *)
    | _, LkNull => KPanic                                       (* sleep without lk *)
    | Some _, _ => KNext (set_kc p (KSleepChan chan lk) (pushed c g))
    end).

(** [sleep] from its [pushcli] to [sched]. *)
Definition sleep_step (c p : nat) (k : kpc) (g : gst) : kres :=
  match k with
  | KSleepChan chan lk => KNext (set_kc p (KSleepCas lk) (g <| ch := <[p := chan]> (ch g) |>))
  | KSleepCas lk =>
      let '(ok, g') := cas_state p RUNNING MINUS_SLEEPING g in
      if ok then
        match lk with
        | LkPtable => KNext (set_kc p (KSched (RSleep lk)) g')
        | _ => popped c g' (λ g, KNext (set_kc p (KSched (RSleep lk)) g))   (* release(lk) *)
        end
      else KPanic
  | _ => KPanic
  end.

(** [exit] from the cas on: pass the children to [initproc] (slot 0),
    waking it for each one already a zombie. *)
Definition exit_step (c p : nat) (k : kpc) (g : gst) : kres :=
  match k with
  | KExitCas =>
      let '(ok, g') := cas_state p RUNNING MINUS_ZOMBIE g in
      if ok then KNext (set_kc p (KExitLoop 0) g') else KPanic
  | KExitLoop j =>
      if (j <? np)%nat then
        if decide (par g j = Some p)
        then KNext (set_kc p (KExitZ j) (g <| par := <[j := Some 0%nat]> (par g) |>))
        else KNext (set_kc p (KExitLoop (S j)) g)
      else KNext (set_kc p (KSched RDead) g)
  | KExitZ j =>
      if decide (st g j = ZOMBIE) then KNext (set_kc p (KExitWake j (WTest 0)) (pushed c g))
      else KNext (set_kc p (KExitLoop (S j)) g)
  | KExitWake j WDone => popped c g (λ g, KNext (set_kc p (KExitLoop (S j)) g))
  | KExitWake j w =>
      let '(w', g') := wakeup1_step (CProc 0) w g in KNext (set_kc p (KExitWake j w') g')
  | _ => KPanic
  end.

(** [wait] after its [pushcli]. *)
Definition wait_step (c p : nat) (k : kpc) (g : gst) : kres :=
  match k with
  | KWaitCas =>
      let '(ok, g') := cas_state p RUNNING MINUS_SLEEPING g in
      if ok then KNext (set_kc p KWaitChan g') else KPanic
  | KWaitChan => KNext (set_kc p (KWaitScan 0 false) (g <| ch := <[p := CProc p]> (ch g) |>))
  | KWaitScan j havekids =>
      if (j <? np)%nat then
        if decide (par g j = Some p) then KNext (set_kc p (KWaitReap j) g)
        else KNext (set_kc p (KWaitScan (S j) havekids) g)
      else if negb havekids || kl g p then KNext (set_kc p KWaitNone g)
      else KNext (set_kc p (KSched RWait) g)
  | KWaitReap j =>
      let '(ok, g') := cas_state j ZOMBIE MINUS_UNUSED g in
      KNext (set_kc p (if ok then KWaitFree j else KWaitScan (S j) true) g')
  | KWaitFree j =>  (* free the stack and page table, clear the slot *)
      KNext (set_kc p (KWaitBack j)
        (g <| par := <[j := None]> (par g) |> <| kl := <[j := false]> (kl g) |>
           <| ch := <[p := CNull]> (ch g) |>))
  | KWaitBack j =>
      let '(_, g') := cas_state p MINUS_SLEEPING RUNNING g in
      KNext (set_kc p (KWaitDone j) g')
  | KWaitDone j =>
      let '(_, g') := cas_state j MINUS_UNUSED UNUSED g in
      popped c g' (λ g, KNext (set_kc p KUser g))
  | KWaitNone => KNext (set_kc p KWaitNoneCas (g <| ch := <[p := CNull]> (ch g) |>))
  | KWaitNoneCas =>
      let '(ok, g') := cas_state p MINUS_SLEEPING RUNNING g in
      if ok then popped c g' (λ g, KNext (set_kc p KUser g)) else KPanic
  | _ => KPanic
  end.

(** [wakeup] between the two [pushcli] and the two [popcli], its own and
    those of [wakeup1]. *)
Definition wakeup_step (c p : nat) (k : kpc) (g : gst) : kres :=
  match k with
  | KWake chan WDone => popped c g (λ g, popped c g (λ g, KNext (set_kc p KUser g)))
  | KWake chan w => let '(w', g') := wakeup1_step chan w g in KNext (set_kc p (KWake chan w') g')
  | _ => KPanic
  end.

(** [allocproc]'s search and cas, after its [pushcli]. The new process's
    context is set up with the slot, which nobody else looks at while it
    is [EMBRYO]. *)
Definition alloc_step (c p : nat) (k : kpc) (g : gst) : kres :=
  match k with
  | KAlloc j =>
      if (j <? np)%nat then
        if decide (st g j = UNUSED) then KNext (set_kc p (KAllocCas j) g)
        else KNext (set_kc p (KAlloc (S j)) g)
      else popped c g (λ g, KNext (set_kc p KUser g))
  | KAllocCas j =>
      let '(ok, g') := cas_state j UNUSED EMBRYO g in
      if ok then
        popped c g' (λ g, KNext (set_kc p KUser (set_fk p (Some (j, false)) (set_kc j KForkret (set_fk j None g)))))
      else KNext (set_kc p (KAlloc 0) g')
  | _ => KPanic
  end.

(** The rest of [fork], which may be interrupted anywhere: when there is no
    memory for the child the slot is given back by a plain store; otherwise
    the parent is set, and later the cas is made. *)
Definition fork_step (c p : nat) (op : kop) (g : gst) : kres :=
  match op, fk g p with
  | OFail, Some (j, false) => KNext (set_fk p None (g <| st := <[j := UNUSED]> (st g) |>))
  | OForkPar, Some (j, false) => KNext (set_fk p (Some (j, true)) (g <| par := <[j := Some p]> (par g) |>))
  | OForkEnd, Some (j, true) =>
      let '(_, g') := cas_state j EMBRYO RUNNABLE (pushed c g) in
      popped c g' (λ g, KNext (set_fk p None g))
  | _, _ => KNext g
  end.

(** The start of an operation, from anywhere else in the kernel or from
    user code. In the middle of [fork] only interrupts and spin locks come
    in between. *)
Definition user_step (c : nat) (op : kop) (p : nat) (g : gst) : kres :=
  match op, fk g p with
  | OSleep _ _, Some _ | OExit, Some _ | OWait, Some _ | OFork, Some _ => KNext g
  | ONone, _ => KNext g
  | (OFail | OForkPar | OForkEnd), _ => fork_step c p op g
  | OYield, _ => KNext (set_kc p KYield (pushed c g))
  | OSleep chan lk, None => sleep_entry c p chan lk g
  | OExit, None =>
      with_proc c g (λ q g,
        if decide (q = Some 0%nat) then KPanic                  (* init exiting *)
        else KNext (set_kc p KExitCas (pushed c g)))
  | OWait, None => with_proc c g (λ q g, KNext (set_kc p KWaitCas (pushed c g)))
  | OWakeup chan, _ => KNext (set_kc p (KWake chan (WTest 0)) (pushed c (pushed c g)))
  | OFork, None => with_proc c g (λ q g, KNext (set_kc p (KAlloc 0) (pushed c g)))
  | OKill j, _ => KNext (g <| kl := <[j := true]> (kl g) |>)
  | OFreeze j b, _ => KNext (g <| fz := <[j := b]> (fz g) |>)
  | OPush, _ => KNext (pushed c g)
  | OPop, _ => popped c g KNext
  | OIntr, _ => KNext (if c_if (ci g c) then set_ci c ((ci g c) <| c_if := false |>) g else g)
  | OIret, _ => KNext (set_ci c ((ci g c) <| c_if := true |>) g)
  end.

Definition proc_step (c : nat) (op : kop) (p : nat) (g : gst) : kres :=
  match kc g p with
  | KUser => user_step c op p g
  | KYield => yield_step c p g
  | KSleepChan _ _ | KSleepCas _ => sleep_step c p (kc g p) g
  | KSched _ | KSwtch _ | KBack _ => sched_step c p (kc g p) g
  | KExitCas | KExitLoop _ | KExitZ _ | KExitWake _ _ => exit_step c p (kc g p) g
  | KWaitCas | KWaitChan | KWaitScan _ _ | KWaitReap _ | KWaitFree _ | KWaitBack _
  | KWaitDone _ | KWaitNone | KWaitNoneCas => wait_step c p (kc g p) g
  | KWake _ _ => wakeup_step c p (kc g p) g
  | KAlloc _ | KAllocCas _ => alloc_step c p (kc g p) g
  | KForkret => popped c g (λ g, KNext (set_kc p KUser g))
  | KDead => KPanic   (* panic("zombie exit") *)
  end.

Definition set_pc (c : nat) (l : cpc) (g : gst) : gst := g <| pc := <[c := l]> (pc g) |>.

(** [popcli] in the scheduler, which then is at [l]. *)
Definition pop_to (c : nat) (l : cpc) (g : gst) : option gst :=
  i ← pop_cli (ci g c); Some (set_pc c l (set_ci c i g)).

(** One step of processor [c] in [scheduler]; a step of the process it
    runs is passed on to [proc_step]. [None] is a panic. *)
Definition scheduler_step (op : kop) (c : nat) (g : gst) : option gst :=
  match pc g c with
  | SStart => Some (set_pc c SOpen (set_ci c ((ci g c) <| c_if := true |>) g))
  | SOpen =>
      match op with
      | OWakeup chan =>
          Some (set_pc c (SIntr chan (WTest 0)) (pushed c (pushed c (set_ci c ((ci g c) <| c_if := false |>) g))))
      | _ => Some (set_pc c (SLoop 0) (pushed c g))
      end
  | SIntr chan WDone =>
      i ← pop_cli (ci g c); i' ← pop_cli i;
      Some (set_pc c SOpen (set_ci c (i' <| c_if := true |>) g))
  | SIntr chan w => let '(w', g') := wakeup1_step chan w g in Some (set_pc c (SIntr chan w') g')
  | SLoop k =>
      if (k <? np)%nat then
        let '(ok, g') := cas_state k RUNNABLE RUNNING g in
        Some (set_pc c (if ok then SFrozen k else SLoop (S k)) g')
      else pop_to c SStart g
  | SFrozen k => Some (set_pc c (if fz g k then SUnrun k else SSwitch k) g)
  | SUnrun k =>
      let '(_, g') := cas_state k RUNNING RUNNABLE g in Some (set_pc c (SLoop (S k)) g')
  | SSwitch k => Some (set_pc c (SRun k) (set_ci c ((ci g c) <| c_proc := Some k |>) g))
  | SRun k =>
      match proc_step c op k g with
      | KNext g' => Some g'
      | KSwitch g' => Some (set_pc c (SBack k) g')
      | KPanic => None
      end
  | SBack k => Some (set_pc c (SPost1 k) (set_ci c ((ci g c) <| c_proc := None |>) g))
  | SPost1 k =>
      let '(ok, g') := cas_state k MINUS_SLEEPING SLEEPING g in
      Some (set_pc c (if ok then SPost1k k else SPost2 k false) g')
  | SPost1k k => Some (set_pc c (if kl g k then SPost1c k else SPost2 k true) g)
  | SPost1c k =>
      let '(_, g') := cas_state k SLEEPING RUNNABLE g in Some (set_pc c (SPost2 k true) g')
  | SPost2 k rel =>
      let '(ok, g') := cas_state k MINUS_RUNNABLE RUNNABLE g in
      Some (set_pc c (SPost3 k (rel || ok)) g')
  | SPost3 k rel =>
      Some (set_pc c (if decide (st g k = MINUS_ZOMBIE) then SPost4 k rel else SLoop (S k)) g)
  | SPost4 k rel => Some (set_pc c (SPost5 k rel) (g <| ch := <[k := CNull]> (ch g) |>))
  | SPost5 k rel =>
      let '(ok, g') := cas_state k MINUS_ZOMBIE ZOMBIE g in
      Some (if ok then set_pc c (SWake k (from_option CProc CNull (par g k)) (WTest 0)) (pushed c g')
            else set_pc c (SLoop (S k)) g')
  | SWake k chan WDone => pop_to c (SLoop (S k)) g
  | SWake k chan w => let '(w', g') := wakeup1_step chan w g in Some (set_pc c (SWake k chan w') g')
  end.

(** A run of the machine along a schedule of processors and choices. *)
Fixpoint run_schedule (tr : list (nat * kop)) (g : gst) : option gst :=
  match tr with
  | [] => Some g
  | (c, op) :: tr' => scheduler_step op c g ≫= run_schedule tr'
  end.
End steps.

(** After [userinit]: slot 0 is runnable, every processor enters
    [scheduler] with interrupts off. *)
Definition sched_init : gst :=
  Gst (λ i, if decide (i = 0%nat) then RUNNABLE else UNUSED) (λ _, CNull) (λ _, false) (λ _, false)
    (λ _, None) (λ _, SStart) (λ i, if decide (i = 0%nat) then KForkret else KDead)
    (λ _, ICpu 0 false false None) (λ _, false) (λ _, None).

(** What the callers of these functions see to. [yield], [wait] and [exit] are
    called with no spin lock held, [exit] not by [initproc]; [sleep] with a
    spin lock that is not [ptable.lock] and is the only one held; [popcli] is
    matched by a [pushcli]; an interrupt handler returns with no lock held. *)
Definition allowed (g : gst) (c : nat) (op : kop) : Prop :=
  match pc g c with
  | SRun p =>
      kc g p = KUser →
      match op with
      | OYield | OWait | OIret => c_ncli (ci g c) = 0
      | OExit => c_ncli (ci g c) = 0 ∧ p ≠ 0%nat
      | OSleep _ lk => c_ncli (ci g c) = 1 ∧ lk = LkOther
      | OPop => 1 ≤ c_ncli (ci g c)
      | _ => True
      end
  | _ => True
  end.

(** ** Ownership *)

(** Processor [c] has process [p] in its hands: it took it with the
    [RUNNABLE] to [RUNNING] cas and has not yet handed it on. *)
Definition held_slot (l : cpc) (p : nat) : Prop :=
  match l with
  | SFrozen q | SUnrun q | SSwitch q | SRun q | SBack q | SPost1 q
  | SPost2 q false | SPost3 q false | SPost4 q false | SPost5 q false => q = p
  | _ => False
  end.

Definition owns (g : gst) (c p : nat) : Prop := held_slot (pc g c) p.

(** The states a process on a processor may be in, by where it is. *)
Definition leaving (s : procstate) : Prop :=
  s = MINUS_SLEEPING ∨ s = MINUS_RUNNABLE ∨ s = MINUS_ZOMBIE.

Definition kc_state (k : kpc) (s : procstate) : Prop :=
  match k with
  | KSched RWait | KSwtch RWait => s = MINUS_SLEEPING
  | KSched RDead | KSwtch RDead => s = MINUS_ZOMBIE
  | KSched RYield | KSwtch RYield => s = MINUS_RUNNABLE
  | KSched (RSleep _) | KSwtch (RSleep _) => s = MINUS_SLEEPING
  | KBack RDead => False
  | KExitLoop _ | KExitZ _ | KExitWake _ _ | KDead => s = MINUS_ZOMBIE
  | KWaitChan | KWaitScan _ _ | KWaitReap _ | KWaitFree _ | KWaitBack _
  | KWaitNone | KWaitNoneCas => s = MINUS_SLEEPING
  | _ => s = RUNNING
  end.

Definition pc_state (g : gst) (l : cpc) : Prop :=
  match l with
  | SFrozen p | SUnrun p | SSwitch p => st g p = RUNNING
  | SRun p => kc_state (kc g p) (st g p) ∧ kc g p ≠ KDead
  | SBack p | SPost1 p => leaving (st g p)
  | SPost2 p false => st g p = MINUS_RUNNABLE ∨ st g p = MINUS_ZOMBIE
  | SPost3 p false | SPost4 p false | SPost5 p false => st g p = MINUS_ZOMBIE
  | _ => True
  end.

Definition dead (s : procstate) : Prop :=
  s = MINUS_ZOMBIE ∨ s = ZOMBIE ∨ s = MINUS_UNUSED ∨ s = UNUSED.

(** Where a process that no processor runs will continue. *)
Definition parked (g : gst) (p : nat) : Prop :=
  kc g p = KForkret ∨ (∃ r, kc g p = KBack r ∧ r ≠ RDead)
  ∨ kc g p = KDead ∧ dead (st g p).

(** The invariant of the protocol: a process is in the hands of at most one
    processor, in a state that matches what that processor does with it; a
    slot being filled belongs to one [fork]. *)
Record sched_inv (g : gst) : Prop := {
  inv_excl : ∀ c c' p, owns g c p → owns g c' p → c = c';
  inv_pc : ∀ c, pc_state g (pc g c);
  inv_parked : ∀ p, (∀ c, pc g c ≠ SRun p) → parked g p;
  inv_embryo : ∀ p j b, fk g p = Some (j, b) → st g j = EMBRYO;
  inv_fork : ∀ p p' j b b', fk g p = Some (j, b) → fk g p' = Some (j, b') → p = p'
}.

(** The slot a processor is about to hand on by its last cas although it
    is not, or not any more, the one that holds it. *)
Definition handing_on (g : gst) (c : nat) : option nat :=
  match pc g c with
  | SPost2 p true => if decide (st g p = MINUS_RUNNABLE) then Some p else None
  | SPost5 p true => if decide (st g p = MINUS_ZOMBIE) then Some p else None
  | SWake _ _ (WFin2 p) | SIntr _ (WFin2 p) => if decide (st g p = MINUS_RUNNABLE) then Some p else None
  | SRun q =>
      match kc g q with
      | KWake _ (WFin2 p) | KExitWake _ (WFin2 p) =>
          if decide (st g p = MINUS_RUNNABLE) then Some p else None
      | _ => None
      end
  | _ => None
  end.

(** The step of [c] takes a process out of another processor's hands. *)
Definition steals (g : gst) (c : nat) : Prop :=
  ∃ p c', handing_on g c = Some p ∧ owns g c' p.

(** Reachability by steps that steal no process. *)
Inductive reach (np : nat) : gst → Prop :=
| reach_init : reach np sched_init
| reach_step g g' c op :
    reach np g → allowed g c op → ¬ steals g c → scheduler_step np op c g = Some g' → reach np g'.

(** ** Preservation *)

Lemma cas_state_cases j e n g ok g' :
  cas_state j e n g = (ok, g') →
  ok = true ∧ st g j = e ∧ g' = g <| st := <[j := n]> (st g) |>
  ∨ ok = false ∧ st g j ≠ e ∧ g' = g <| st := <[j := st g j]> (st g) |>.
Proof.
  unfold cas_state, cas. destruct (decide (st g j = e)); intros [= <- <-]; [left|right]; done.
Qed.

Lemma fn_insert_id {A} (f : nat → A) j i : <[j := f j]> f i = f i.
Proof. destruct (decide (i = j)) as [->|]; [by rewrite fn_lookup_insert|by rewrite fn_lookup_insert_ne]. Qed.

Ltac fn_cases i j := destruct (decide (i = j)) as [->|?];
  [rewrite ?fn_lookup_insert in *|rewrite ?fn_lookup_insert_ne in * by done].

(** A state change of slot [j] that no other processor and no other process
    than [p] relies on. *)
Definition free_change (g : gst) (p : option nat) (j : nat) (s : procstate) : Prop :=
  s = st g j
  ∨ (∀ c', ¬ owns g c' j) ∧ (kc g j = KDead → dead s)
    ∧ (∀ q b, Some q ≠ p → fk g q ≠ Some (j, b)).

Section preservation.
Variables (g : gst) (c : nat).
Hypothesis Hinv : sched_inv g.

(** A process in a processor's hands is running or leaving. *)
Lemma owned_state c' p : owns g c' p → st g p = RUNNING ∨ leaving (st g p).
Proof.
  unfold owns. pose proof (inv_pc _ Hinv c') as Hpc. unfold leaving.
  destruct (pc g c') as [| | | |q| | | | |? []|? []|? []|? []| | | |]; simpl in *; intros; subst; try tauto.
  destruct Hpc as [Hs _]. destruct (kc g p) as [| | | |[]|[]| | | | | | | | | | | | | | | | | |[]|];
    simpl in Hs; tauto.
Qed.

Lemma not_owned p : st g p ≠ RUNNING → ¬ leaving (st g p) → ∀ c', ¬ owns g c' p.
Proof. intros H1 H2 c' Ho. by destruct (owned_state _ _ Ho). Qed.

Lemma not_owned_parked p : (∀ c', ¬ owns g c' p) → parked g p.
Proof. intros Ho. apply (inv_parked _ Hinv). intros c' E. apply (Ho c'). unfold owns. by rewrite E. Qed.

(** [pc_state] reads the state and the counter of the held slot only. *)
Lemma pc_state_frame g' l :
  pc_state g l → (∀ q, held_slot l q → st g' q = st g q ∧ kc g' q = kc g q) → pc_state g' l.
Proof.
  destruct l as [| | | |q| |q| | |q []|q []|q []|q []| | | |]; simpl; intros Hp Hq; try done;
    destruct (Hq _ eq_refl) as [-> ?]; try done.
  by replace (kc g' q) with (kc g q).
Qed.

(** *** A step of the process that [c] runs *)
Lemma inv_proc_step g' p k j s f :
  pc g c = SRun p → pc g' = pc g →
  (∀ i, kc g' i = <[p := k]> (kc g) i) →
  (∀ i, st g' i = <[j := s]> (st g) i) →
  (∀ i, fk g' i = <[p := f]> (fk g) i) →
  j = p ∨ free_change g (Some p) j s →
  kc_state k (st g' p) → k ≠ KDead →
  (∀ i b, f = Some (i, b) → st g' i = EMBRYO ∧ ∀ q b', q ≠ p → fk g q ≠ Some (i, b')) →
  sched_inv g'.
Proof using Hinv.
  intros Hc Hpc Hkc Hst Hfk Hj Hks Hnd Hf.
  assert (Hown : owns g c p) by (unfold owns; by rewrite Hc).
  assert (Hp : ∀ i, i ≠ p → st g' i = st g i ∨ i = j ∧ st g' i = s ∧ free_change g (Some p) j s).
  { intros i Hi. rewrite Hst. fn_cases i j; [|by left]. destruct Hj; [done|]. by right. }
  split.
  - intros c1 c2 q. unfold owns. rewrite Hpc. apply (inv_excl _ Hinv).
  - intros c'. rewrite Hpc. destruct (decide (c' = c)) as [->|Hne].
    { rewrite Hc. simpl. rewrite Hkc, fn_lookup_insert. done. }
    apply pc_state_frame; [apply (inv_pc _ Hinv)|]. intros q Hq.
    assert (q ≠ p) by (intros ->; by apply Hne, (inv_excl _ Hinv c' c p)).
    split; [|by rewrite Hkc, fn_lookup_insert_ne].
    destruct (Hp q) as [?|(-> & -> & [?|(Hno & _)])]; try done. by destruct (Hno c').
  - intros q Hq. assert (q ≠ p) by (intros ->; apply (Hq c); by rewrite Hpc).
    assert (Hk : parked g q) by (apply (inv_parked _ Hinv); by rewrite <- Hpc).
    unfold parked in *. rewrite Hkc, fn_lookup_insert_ne by done.
    destruct (Hp q) as [->|(-> & -> & [->|(_ & Hd & _)])]; try done.
    destruct Hk as [?|[?|[? _]]]; auto.
  - intros q i b. rewrite Hfk. fn_cases q p; [intros ->; by apply (Hf i b)|]. intros Hq.
    pose proof (inv_embryo _ Hinv _ _ _ Hq) as He.
    destruct (decide (i = p)) as [->|Hi].
    { destruct (owned_state _ _ Hown) as [?|[?|[?|?]]]; congruence. }
    destruct (Hp i Hi) as [->|(-> & -> & [->|(_ & _ & Hn)])]; try done.
    by destruct (Hn q b); [congruence|].
  - intros q q' i b b'. rewrite !Hfk. fn_cases q p; fn_cases q' p; intros Hq Hq'; try done.
    + by destruct (proj2 (Hf _ _ Hq) q' b').
    + by destruct (proj2 (Hf _ _ Hq') q b).
    + by apply (inv_fork _ Hinv _ _ i b b').
Qed.

(** *** A step of the scheduler of [c] *)
Lemma inv_sched_step g' l j s :
  (∀ q, pc g c ≠ SRun q) → (∀ q, l ≠ SRun q) →
  pc g' = <[c := l]> (pc g) → kc g' = kc g → fk g' = fk g →
  (∀ i, st g' i = <[j := s]> (st g) i) →
  free_change g None j s ∨ held_slot (pc g c) j ∧ st g j ≠ EMBRYO ∧ (dead (st g j) → dead s) →
  (∀ q, held_slot l q → held_slot (pc g c) q ∨ ∀ c', ¬ owns g c' q) →
  pc_state g' l →
  sched_inv g'.
Proof using Hinv.
  intros Hc Hl Hpc Hkc Hfk Hst Hj Hq Hps.
  assert (Hp : ∀ i, st g' i = st g i ∨ i = j ∧ st g' i = s).
  { intros i. rewrite Hst. fn_cases i j; auto. }
  assert (Hex : ∀ c' q, c' ≠ c → owns g c' q → held_slot l q → False).
  { intros c' q Hne Ho Hlq. destruct (Hq _ Hlq) as [Ho'|Ho']; [|by apply (Ho' c')].
    by apply Hne, (inv_excl _ Hinv c' c q). }
  split.
  - intros c1 c2 q. unfold owns. rewrite Hpc. fn_cases c1 c; fn_cases c2 c; try done.
    + intros H1 H2. by destruct (Hex c2 q).
    + intros H1 H2. by destruct (Hex c1 q).
    + apply (inv_excl _ Hinv).
  - intros c'. rewrite Hpc. fn_cases c' c; [done|].
    apply pc_state_frame; [apply (inv_pc _ Hinv)|]. intros q Ho. rewrite Hkc. split; [|done].
    destruct (Hp q) as [?|(-> & ->)]; [done|].
    destruct Hj as [[?|(Hno & _)]|(Ho' & _)]; [done|by destruct (Hno c')|].
    by destruct (inv_excl _ Hinv c' c j).
  - intros q Hr. assert (Hk : parked g q).
    { apply (inv_parked _ Hinv). intros c' E. apply (Hr c'). rewrite Hpc. fn_cases c' c; [|done].
      by destruct (Hc q). }
    unfold parked in *. rewrite Hkc. destruct (Hp q) as [->|(-> & ->)]; [done|].
    destruct Hj as [[->|(_ & Hd & _)]|(_ & _ & Hd)]; [done| |];
      destruct Hk as [?|[?|[? ?]]]; auto 6.
  - intros q i b. rewrite Hfk. intros Hf. pose proof (inv_embryo _ Hinv _ _ _ Hf) as He.
    destruct (Hp i) as [->|(-> & ->)]; [done|].
    destruct Hj as [[->|(_ & _ & Hn)]|(_ & Hn & _)]; [done| |done]. by destruct (Hn q b).
  - intros q q' i b b'. rewrite !Hfk. apply (inv_fork _ Hinv).
Qed.

(** A slot nobody holds, about to be allocated, gets a fresh context. *)
Lemma inv_new_context j :
  st g j = UNUSED → sched_inv (set_kc j KForkret (set_fk j None g)).
Proof using Hinv.
  intros Hj. assert (Hno : ∀ c', ¬ owns g c' j).
  { apply not_owned; rewrite Hj; [done|]. unfold leaving. intuition congruence. }
  split; unfold set_kc, set_fk; simpl.
  - apply (inv_excl _ Hinv).
  - intros c'. apply pc_state_frame; [apply (inv_pc _ Hinv)|]. intros q Hq. simpl. split; [done|].
    fn_cases q j; [by destruct (Hno c')|done].
  - intros q Hq. unfold parked; simpl. fn_cases q j; [by left|]. by apply (inv_parked _ Hinv).
  - intros q i b. fn_cases q j; [done|]. apply (inv_embryo _ Hinv).
  - intros q q' i b b'. fn_cases q j; fn_cases q' j; try done. apply (inv_fork _ Hinv).
Qed.

(** [swtch] into the scheduler. *)
Lemma inv_swtch p r :
  pc g c = SRun p → kc g p = KSwtch r →
  sched_inv (set_pc c (SBack p) (set_kc p (resume_pc r) g)).
Proof using Hinv.
  intros Hc Hk. pose proof (inv_pc _ Hinv c) as Hs. rewrite Hc in Hs. simpl in Hs.
  rewrite Hk in Hs. destruct Hs as [Hs _].
  assert (Hex : ∀ c', owns g c' p → c' = c).
  { intros c' Ho. apply (inv_excl _ Hinv c' c p); [done|]. unfold owns. by rewrite Hc. }
  split; unfold set_kc, set_pc; simpl.
  - intros c1 c2 q. unfold owns; simpl. fn_cases c1 c; fn_cases c2 c; simpl; try done.
    + intros <- Ho. symmetry. by apply Hex.
    + intros Ho <-. by apply Hex.
    + apply (inv_excl _ Hinv).
  - intros c'. fn_cases c' c.
    { simpl. unfold leaving. destruct r; simpl in Hs; tauto. }
    apply pc_state_frame; [apply (inv_pc _ Hinv)|]. intros q Hq. simpl. split; [done|].
    fn_cases q p; [by pose proof (Hex c' Hq)|done].
  - intros q Hq. unfold parked; simpl. fn_cases q p.
    { unfold dead. destruct r; simpl in *; eauto 6. }
    apply (inv_parked _ Hinv). intros c' E. specialize (Hq c'). fn_cases c' c; [congruence|done].
  - apply (inv_embryo _ Hinv).
  - apply (inv_fork _ Hinv).
Qed.

(** [swtch] into the process. *)
Lemma inv_dispatch p i : pc g c = SSwitch p → sched_inv (set_pc c (SRun p) (set_ci c i g)).
Proof using Hinv.
  intros Hc. pose proof (inv_pc _ Hinv c) as Hs. rewrite Hc in Hs. simpl in Hs.
  assert (Ho : owns g c p) by (unfold owns; by rewrite Hc).
  assert (Hpk : parked g p).
  { apply (inv_parked _ Hinv). intros c' E. assert (c' = c) as ->; [|congruence].
    apply (inv_excl _ Hinv c' c p); [|done]. unfold owns. by rewrite E. }
  assert (Heq : ∀ c' q, held_slot (<[c := SRun p]> (pc g) c') q = owns g c' q).
  { intros c' q. unfold owns. fn_cases c' c; [by rewrite Hc|done]. }
  split; unfold set_pc, set_ci; simpl.
  - intros c1 c2 q. unfold owns; simpl. rewrite !Heq. apply (inv_excl _ Hinv).
  - intros c'. fn_cases c' c; simpl; [|apply (inv_pc _ Hinv)]. rewrite Hs.
    destruct Hpk as [->|[(r & -> & Hr)|[_ Hd]]]; [done|by destruct r|]. rewrite Hs in Hd. unfold dead in Hd. intuition congruence.
  - intros q Hq. apply (inv_parked _ Hinv). intros c' E. specialize (Hq c').
    fn_cases c' c; congruence.
  - apply (inv_embryo _ Hinv).
  - apply (inv_fork _ Hinv).
Qed.
End preservation.

(** One step of [wakeup1] changes at most one slot: from [SLEEPING], or, by
    the last cas, from [MINUS_RUNNABLE]. *)
Lemma wakeup1_effect np chan w g w' g' :
  wakeup1_step np chan w g = (w', g') →
  ∃ j s, g' = g <| st := <[j := s]> (st g) |>
    ∧ (s = st g j ∨ st g j = SLEEPING ∧ s = MINUS_RUNNABLE
       ∨ w = WFin2 j ∧ st g j = MINUS_RUNNABLE ∧ s = RUNNABLE)
  ∨ g' = g.
Proof.
  destruct w as [j|j|j|j|j|j|j|]; simpl; try (repeat case_match; intros [= <- <-]; exists 0%nat, UNUSED; by right).
  - destruct (cas_state j _ _ g) as [ok g1] eqn:E. intros [= <- <-].
    destruct (cas_state_cases _ _ _ _ _ _ E) as [(_ & ? & ->)|(_ & ? & ->)]; eexists _, _; left; eauto.
  - destruct (cas_state j _ _ g) as [ok g1] eqn:E. intros [= <- <-].
    destruct (cas_state_cases _ _ _ _ _ _ E) as [(_ & ? & ->)|(_ & ? & ->)]; eexists _, _; left; eauto 6.
Qed.

Section process_steps.
Variables (np : nat) (g : gst) (c p : nat).
Hypothesis Hinv : sched_inv g.
Hypothesis Hc : pc g c = SRun p.

Lemma running_state : kc_state (kc g p) (st g p) ∧ kc g p ≠ KDead.
Proof. pose proof (inv_pc _ Hinv c) as H. by rewrite Hc in H. Qed.

(** A step that changes at most slot [j], the process itself or one that
    nobody relies on, and nothing about forks. *)
Lemma inv_plain g' k j s :
  pc g' = pc g → (∀ i, kc g' i = <[p := k]> (kc g) i) → (∀ i, st g' i = <[j := s]> (st g) i) →
  fk g' = fk g → j = p ∨ free_change g None j s → kc_state k (st g' p) → k ≠ KDead → sched_inv g'.
Proof using Hinv Hc.
  intros Hpc Hk Hs Hf Hj Hks Hd.
  assert (Hown : owns g c p) by (unfold owns; by rewrite Hc).
  apply (inv_proc_step g c Hinv g' p k j s (fk g p)); auto.
  - intros i. by rewrite Hf, fn_insert_id.
  - destruct Hj as [?|[?|(H1 & H2 & H3)]]; [by left|by right; left|]. right; right. eauto.
  - intros i b Hi. pose proof (inv_embryo _ Hinv _ _ _ Hi) as He. split.
    + rewrite Hs. fn_cases i j; [|done]. destruct Hj as [->|[->|(_ & _ & H3)]]; [|done|by destruct (H3 p b)].
      destruct (owned_state g Hinv c p Hown) as [?|[?|[?|?]]]; congruence.
    + intros q b' Hq Hqi. by apply Hq, (inv_fork _ Hinv _ _ i b' b).
Qed.

(** A step that changes no process state. *)
Lemma inv_pure g' k :
  pc g' = pc g → (∀ i, kc g' i = <[p := k]> (kc g) i) → (∀ i, st g' i = st g i) → fk g' = fk g →
  kc_state k (st g p) → k ≠ KDead → sched_inv g'.
Proof using Hinv Hc.
  intros Hpc Hk Hs Hf Hks Hd. apply (inv_plain g' k p (st g p)); auto.
  - intros i. by rewrite Hs, fn_insert_id.
  - by rewrite Hs.
Qed.

(** A step that changes the state of the process itself. *)
Lemma inv_self g' k s :
  pc g' = pc g → (∀ i, kc g' i = <[p := k]> (kc g) i) → (∀ i, st g' i = <[p := s]> (st g) i) → fk g' = fk g →
  kc_state k s → k ≠ KDead → sched_inv g'.
Proof using Hinv Hc.
  intros Hpc Hk Hs Hf Hks Hd. apply (inv_plain g' k p s); auto. by rewrite Hs, fn_lookup_insert.
Qed.

(** A step that changes another slot, which nobody relies on. *)
Lemma free_not_self q j s : free_change g q j s → j = p → s = st g p.
Proof using Hc. intros [->|(Hno & _)] ->; [done|]. destruct (Hno c). unfold owns. by rewrite Hc. Qed.

Lemma inv_other g' k j s :
  pc g' = pc g → (∀ i, kc g' i = <[p := k]> (kc g) i) → (∀ i, st g' i = <[j := s]> (st g) i) → fk g' = fk g →
  free_change g None j s → kc_state k (st g p) → k ≠ KDead → sched_inv g'.
Proof using Hinv Hc.
  intros Hpc Hk Hs Hf Hj Hks Hd. apply (inv_plain g' k j s); auto.
  rewrite Hs. destruct (decide (j = p)) as [E|]; [|by rewrite fn_lookup_insert_ne by done].
  by rewrite <- E, fn_lookup_insert, (free_not_self _ _ _ Hj E).
Qed.

(** A step of [fork], which changes the slot it has. *)
Lemma inv_forking g' j s f :
  pc g' = pc g → kc g' = kc g → (∀ i, st g' i = <[j := s]> (st g) i) → (∀ i, fk g' i = <[p := f]> (fk g) i) →
  free_change g (Some p) j s →
  (∀ i b, f = Some (i, b) → i = j ∧ s = EMBRYO ∧ ∀ q b', q ≠ p → fk g q ≠ Some (i, b')) → sched_inv g'.
Proof using Hinv Hc.
  intros Hpc Hk Hs Hf Hj Hfj. destruct running_state as [Hr Hd].
  apply (inv_proc_step g c Hinv g' p (kc g p) j s f); auto.
  - intros i. by rewrite Hk, fn_insert_id.
  - rewrite Hs. destruct (decide (j = p)) as [E|]; [|by rewrite fn_lookup_insert_ne by done].
    by rewrite <- E, fn_lookup_insert, (free_not_self _ _ _ Hj E), E.
  - intros i b Hi. destruct (Hfj i b Hi) as (-> & -> & ?). by rewrite Hs, fn_lookup_insert.
Qed.

(** A slot in a state that is neither running nor leaving is in nobody's
    hands. *)
Lemma free_slot j s q :
  st g j ≠ RUNNING → ¬ leaving (st g j) → (dead (st g j) → dead s) →
  (st g j = EMBRYO → q = Some p ∧ ∃ b, fk g p = Some (j, b)) → free_change g q j s.
Proof using Hinv.
  intros H1 H2 H3 H4. right.
  assert (Hno : ∀ c', ¬ owns g c' j) by (by apply (not_owned g)).
  split_and!; [done| |].
  - destruct (not_owned_parked g Hinv j Hno) as [E|[(r & E & _)|[E ?]]]; rewrite E; auto; done.
  - intros r b Hr Hf. pose proof (inv_embryo _ Hinv _ _ _ Hf) as He. destruct (H4 He) as (-> & b' & Hp).
    by rewrite (inv_fork _ Hinv _ _ _ _ _ Hf Hp) in Hr.
Qed.
End process_steps.

Ltac state_solve := unfold leaving, dead in *; intuition congruence.
Ltac cas_split H :=
  lazymatch goal with
  | |- context [cas_state ?j ?e ?n ?g] =>
      let ok := fresh "ok" in let g1 := fresh "g1" in let E := fresh "E" in
      destruct (cas_state j e n g) as [ok g1] eqn:E;
      destruct (cas_state_cases _ _ _ _ _ _ E) as [(-> & H & ->)|(-> & H & ->)]
  end.

(** ** The interrupt state *)

Definition good_cpu (i : icpu) : Prop := 0 ≤ c_ncli i ∧ (c_if i = true → c_ncli i = 0).

Lemma push_good i : good_cpu i → good_cpu (push_cli i).
Proof. intros [H1 H2]. split; simpl; [lia | done]. Qed.

Lemma pop_spec i : good_cpu i → 1 ≤ c_ncli i →
  ∃ i', pop_cli i = Some i' ∧ good_cpu i' ∧ c_ncli i' = c_ncli i - 1 ∧ c_proc i' = c_proc i.
Proof.
  intros [H1 H2] Hn. unfold pop_cli. destruct (c_if i) eqn:Ei; [specialize (H2 eq_refl); lia|]. simpl.
  rewrite (proj2 (Z.ltb_ge _ _)) by lia. eexists. split; [done|].
  destruct (Z.eqb_spec (c_ncli i - 1) 0) as [E|E], (c_intena i); simpl; (split; [split; simpl; intros; congruence || lia|done]).
Qed.

Lemma my_proc_spec i : good_cpu i →
  ∃ i', my_proc i = Some (i', c_proc i) ∧ good_cpu i' ∧ c_ncli i' = c_ncli i ∧ c_proc i' = c_proc i ∧ c_if i' = c_if i.
Proof.
  intros [H1 H2]. unfold my_proc, my_cpu, push_cli, pop_cli. simpl. rewrite (proj2 (Z.ltb_ge _ _)) by lia. simpl.
  replace (c_ncli i + 1 - 1) with (c_ncli i) by lia. eexists. split; [done|].
  destruct (Z.eqb_spec (c_ncli i) 0) as [E|E].
  - destruct (c_if i); simpl; (split; [split; simpl; done || lia|done]).
  - destruct (c_if i); [by specialize (H2 eq_refl)|]. simpl. split; [split; simpl; [lia|done]|done].
Qed.

Lemma popped_inv c g next g' : popped c g next = KNext g' → ∃ i, next (set_ci c i g) = KNext g'.
Proof. unfold popped. destruct (pop_cli (ci g c)); [eauto | done]. Qed.

Section process_preserve.
Variables (np : nat) (g : gst) (c p : nat).
Hypothesis Hinv : sched_inv g.
Hypothesis Hc : pc g c = SRun p.
Hypothesis Hgood : good_cpu (ci g c).
Hypothesis Hmy : c_proc (ci g c) = Some p.

Lemma with_proc_inv next g' : with_proc c g next = KNext g' → ∃ i, next (Some p) (set_ci c i g) = KNext g'.
Proof using Hgood Hmy. destruct (my_proc_spec _ Hgood) as (i & E & _). unfold with_proc. rewrite E, Hmy. eauto. Qed.

Ltac pure k := eapply (inv_pure g c p Hinv Hc _ k); simpl; auto; try done.
Ltac self k := eapply (inv_self g c p Hinv Hc _ k); simpl; auto; try done.

Lemma inv_yield g' : yield_step c p g = KNext g' → sched_inv g'.
Proof using Hinv Hc Hgood Hmy.
  intros (i & E)%with_proc_inv. revert E. cas_split Hs; intros [= <-]. self (KSched RYield).
Qed.

Lemma inv_sleep_entry g' chan lk : kc g p = KUser → sleep_entry c p chan lk g = KNext g' → sched_inv g'.
Proof using Hinv Hc Hgood Hmy.
  intros Hk (i & E)%with_proc_inv. destruct (running_state g c p Hinv Hc) as [Hs _]. rewrite Hk in Hs.
  destruct lk; simplify_eq; [pure (KSleepChan chan LkPtable)|pure (KSleepChan chan LkOther)].
Qed.

Lemma inv_sleep g' k : kc g p = k → sleep_step c p k g = KNext g' → sched_inv g'.
Proof using Hinv Hc.
  intros Hk. destruct (running_state g c p Hinv Hc) as [Hs _]. rewrite Hk in Hs.
  destruct k as [| |chan lk|lk| | | | | | | | | | | | | | | | | | | | |]; try done; simpl.
  - intros [= <-]. pure (KSleepCas lk).
  - cas_split Hr; [|done]. destruct lk; [intros (i & [= <-])%popped_inv | intros [= <-] | intros (i & [= <-])%popped_inv];
      [self (KSched (RSleep LkNull)) | self (KSched (RSleep LkPtable)) | self (KSched (RSleep LkOther))].
Qed.

Lemma inv_sched g' k : kc g p = k → sched_step c p k g = KNext g' → sched_inv g'.
Proof using Hinv Hc Hgood Hmy.
  intros Hk. destruct (running_state g c p Hinv Hc) as [Hs _]. rewrite Hk in Hs.
  destruct k as [| | | |r|r| | | | | | | | | | | | | | | | | |r|]; try done; cbn [sched_step].
  - intros (i & E)%with_proc_inv. repeat (case_match; try done). simplify_eq. pure (KSwtch r).
  - destruct (my_cpu (ci g c)) as [i|]; [|done]. destruct r as [|lk| |]; [| | |done].
    + intros (i' & [= <-])%popped_inv. pure KUser.
    + destruct lk; intros (i' & [= <-])%popped_inv; pure KUser.
    + intros [= <-]. pure KWaitCas.
Qed.

(** A process inside [wakeup1], the last cas of which steals nothing. *)
Lemma inv_wakeup1 chan w w' g1 k :
  wakeup1_step np chan w g = (w', g1) →
  (∀ j, w = WFin2 j → st g j = MINUS_RUNNABLE → ∀ c', ¬ owns g c' j) →
  kc_state k (st g p) → k ≠ KDead → sched_inv (set_kc p k g1).
Proof using Hinv Hc.
  intros Hw Hn Hk Hd. destruct (wakeup1_effect _ _ _ _ _ _ Hw) as (j & s & [[-> Hs]| ->]).
  - eapply (inv_other g c p Hinv Hc _ k j s); simpl; auto.
    destruct Hs as [->|[[Hj ->]|(-> & Hj & ->)]]; [by left| |].
    + apply (free_slot g p Hinv); state_solve.
    + right. assert (Hno : ∀ c', ¬ owns g c' j) by auto. split_and!; [done| |].
      * destruct (not_owned_parked g Hinv j Hno) as [E|[(r & E & _)|[E ?]]]; rewrite E; try done. state_solve.
      * intros q b _ Hq. pose proof (inv_embryo _ Hinv _ _ _ Hq). congruence.
  - pure k.
Qed.

Lemma inv_wakeup g' k :
  kc g p = k → ¬ steals g c → wakeup_step np c p k g = KNext g' → sched_inv g'.
Proof using Hinv Hc.
  intros Hk Hn. destruct (running_state g c p Hinv Hc) as [Hs _]. rewrite Hk in Hs.
  destruct k as [| | | | | | | | | | | | | | | | | | |chan w| | | | |]; try done.
  assert (Hn' : ∀ j, w = WFin2 j → st g j = MINUS_RUNNABLE → ∀ c', ¬ owns g c' j).
  { intros j -> Hj c' Ho. apply Hn. exists j, c'. unfold handing_on. rewrite Hc, Hk, decide_True; done. }
  destruct w; cbn [wakeup_step];
    try (match goal with |- context [wakeup1_step ?n ?ch ?w g] =>
      destruct (wakeup1_step n ch w g) as [w' g1] eqn:E end; intros [= <-];
      by eapply (inv_wakeup1 _ _ _ _ _ E)).
  intros (i & (i' & [= <-])%popped_inv)%popped_inv. pure KUser.
Qed.

Lemma inv_exit g' k :
  kc g p = k → ¬ steals g c → exit_step np c p k g = KNext g' → sched_inv g'.
Proof using Hinv Hc.
  intros Hk Hn. destruct (running_state g c p Hinv Hc) as [Hs _]. rewrite Hk in Hs.
  destruct k as [| | | | | | |j|j|j w| | | | | | | | | | | | | | |]; try done.
  - simpl. cas_split Hr; intros [= <-]. self (KExitLoop 0).
  - simpl. repeat case_match; intros [= <-]; [pure (KExitZ j)|pure (KExitLoop (S j))|pure (KSched RDead)].
  - simpl. case_decide; intros [= <-]; [pure (KExitWake j (WTest 0))|pure (KExitLoop (S j))].
  - assert (Hn' : ∀ i, w = WFin2 i → st g i = MINUS_RUNNABLE → ∀ c', ¬ owns g c' i).
    { intros i -> Hj c' Ho. apply Hn. exists i, c'. unfold handing_on. rewrite Hc, Hk, decide_True; done. }
    destruct w; cbn [exit_step];
      try (match goal with |- context [wakeup1_step ?n ?ch ?w g] =>
        destruct (wakeup1_step n ch w g) as [w' g1] eqn:E end; intros [= <-];
        by eapply (inv_wakeup1 _ _ _ _ _ E)).
    intros (i & [= <-])%popped_inv. pure (KExitLoop (S j)).
Qed.

Lemma inv_wait g' k : kc g p = k → wait_step np c p k g = KNext g' → sched_inv g'.
Proof using Hinv Hc.
  intros Hk. destruct (running_state g c p Hinv Hc) as [Hs _]. rewrite Hk in Hs.
  destruct k; try done; simpl.
  - cas_split Hr; intros [= <-]. self KWaitChan.
  - intros [= <-]. pure (KWaitScan 0 false).
  - repeat case_match; intros [= <-];
      [pure (KWaitReap j)|pure (KWaitScan (S j) havekids)|pure KWaitNone|pure (KSched RWait)].
  - cas_split Hr; intros [= <-].
    + eapply (inv_other g c p Hinv Hc _ (KWaitFree j) j MINUS_UNUSED); simpl; auto; try done.
      apply (free_slot g p Hinv); state_solve.
    + eapply (inv_other g c p Hinv Hc _ (KWaitScan (S j) true) j _); simpl; auto; try done. by left.
  - intros [= <-]. pure (KWaitBack j).
  - cas_split Hr; intros [= <-]; [self (KWaitDone j)|]. simpl in Hs. congruence.
  - cas_split Hr; intros (i & [= <-])%popped_inv.
    + eapply (inv_other g c p Hinv Hc _ KUser j UNUSED); simpl; auto; try done.
      apply (free_slot g p Hinv); state_solve.
    + eapply (inv_other g c p Hinv Hc _ KUser j _); simpl; auto; try done. by left.
  - intros [= <-]. pure KWaitNoneCas.
  - cas_split Hr; [|done]. intros (i & [= <-])%popped_inv. self KUser.
Qed.

Lemma inv_alloc g' k : kc g p = k → alloc_step np c p k g = KNext g' → sched_inv g'.
Proof using Hinv Hc.
  intros Hk. destruct (running_state g c p Hinv Hc) as [Hs _]. rewrite Hk in Hs.
  destruct k as [| | | | | | | | | | | | | | | | | | | |j|j| | |]; try done; simpl in Hs |- *.
  - repeat case_match; [intros [= <-]|intros [= <-]|intros (i & [= <-])%popped_inv];
      [pure (KAllocCas j)|pure (KAlloc (S j))|pure KUser].
  - cas_split Hr; [intros (i & [= <-])%popped_inv|intros [= <-]].
    + pose proof (inv_new_context g Hinv j Hr) as Hinv1.
      assert (Hpj : p ≠ j) by (intros Ep; rewrite <- Ep in Hr; rewrite Hs in Hr; discriminate Hr).
      assert (Hf : ∀ q b, <[j := None]> (fk g) q ≠ Some (j, b)).
      { intros q b. fn_cases q j; [done|]. intros Hq. pose proof (inv_embryo _ Hinv _ _ _ Hq). congruence. }
      eapply (inv_proc_step _ c Hinv1 _ p KUser j EMBRYO (Some (j, false))); simpl; auto; try done.
      * right. right. split_and!.
        -- apply (not_owned _ Hinv1); simpl; state_solve.
        -- simpl. by rewrite fn_lookup_insert.
        -- intros q b _. apply Hf.
      * by rewrite fn_lookup_insert_ne.
      * intros i' b [= <- <-]. rewrite fn_lookup_insert. split; [done|]. intros q b' _. apply Hf.
    + eapply (inv_other g c p Hinv Hc _ (KAlloc 0) j _); simpl; auto; try done. by left.
Qed.

Lemma inv_forks g' op : kc g p = KUser → fork_step c p op g = KNext g' → sched_inv g'.
Proof using Hinv Hc.
  intros Hk. assert (∀ j b s, fk g p = Some (j, b) → free_change g (Some p) j s) as Hfree.
  { intros j b s Hf. pose proof (inv_embryo _ Hinv _ _ _ Hf) as He. apply (free_slot g p Hinv); try state_solve. eauto. }
  unfold fork_step. destruct (fk g p) as [[j b]|] eqn:Hf; [|by destruct op; intros [= <-]].
  destruct op; try (by intros [= <-]); destruct b; try (by intros [= <-]).
  - intros [= <-]. by apply (inv_forking g c p Hinv Hc _ j UNUSED None); [.. |eapply Hfree|].
  - intros [= <-]. apply (inv_forking g c p Hinv Hc _ j EMBRYO (Some (j, true))); try done.
    + intros i. simpl. rewrite <- (inv_embryo _ Hinv _ _ _ Hf). by rewrite fn_insert_id.
    + by eapply Hfree.
    + intros i b [= <- <-]. split_and!; try done. intros q b' Hq Hqj. by apply Hq, (inv_fork _ Hinv _ _ j b' false).
  - cas_split Hr; intros (i & [= <-])%popped_inv; simpl in *.
    + by apply (inv_forking g c p Hinv Hc _ j RUNNABLE None); [.. |eapply Hfree|].
    + by rewrite (inv_embryo _ Hinv _ _ _ Hf) in Hr.
Qed.

Lemma inv_user g' op : kc g p = KUser → user_step c op p g = KNext g' → sched_inv g'.
Proof using Hinv Hc Hgood Hmy.
  intros Hk. destruct (running_state g c p Hinv Hc) as [Hs _]. rewrite Hk in Hs. simpl in Hs.
  assert (Hid : ∀ i, kc g i = <[p := KUser]> (kc g) i) by (intros i; by rewrite <- Hk, fn_insert_id).
  unfold user_step. destruct op as [| |chan lk| | |chan| | | | |j|j b| | | |]; destruct (fk g p) as [[j' b']|];
    try (by intros [= <-]); try (by apply inv_forks); try (by apply inv_sleep_entry).
  all: first
    [ intros (i & [= <-])%popped_inv; by pure KUser
    | intros (i & E)%with_proc_inv; try case_decide; simplify_eq; first [by pure KExitCas | by pure KWaitCas | by pure (KAlloc 0)]
    | intros [= <-]; first [by pure KYield | by pure (KWake chan (WTest 0)) | by pure KUser | by case_match; pure KUser] ].
Qed.

Lemma inv_proc op g' : ¬ steals g c → proc_step np c op p g = KNext g' → sched_inv g'.
Proof using Hinv Hc Hgood Hmy.
  intros Hn. unfold proc_step. destruct (kc g p) eqn:Hk; try done;
    first [ by apply inv_user | by apply inv_yield | by apply inv_sleep | by apply inv_sched
          | by apply inv_exit | by apply inv_wait | by apply inv_wakeup | by apply inv_alloc | idtac ].
  intros (i & [= <-])%popped_inv. destruct (running_state g c p Hinv Hc) as [Hs _]. rewrite Hk in Hs. pure KUser.
Qed.
End process_preserve.
(** Only [sched] leaves the processor. *)
Lemma proc_step_switch np c op p g g' :
  proc_step np c op p g = KSwitch g' → ∃ r, kc g p = KSwtch r ∧ g' = set_kc p (resume_pc r) g.
Proof.
  unfold proc_step, user_step, yield_step, sleep_entry, sleep_step, sched_step, exit_step, wait_step, wakeup_step,
    alloc_step, fork_step, with_proc, popped.
  destruct (kc g p) eqn:Hk; intros E; repeat (case_match; try discriminate); simplify_eq; eauto.
Qed.

Section scheduler_preserve.
Variables (np : nat) (g : gst) (c : nat).
Hypothesis Hinv : sched_inv g.

(** A step of the scheduler that changes no process state. *)
Lemma inv_sched_pure g' l :
  (∀ q, pc g c ≠ SRun q) → (∀ q, l ≠ SRun q) → pc g' = <[c := l]> (pc g) → kc g' = kc g → fk g' = fk g →
  st g' = st g → (∀ q, held_slot l q → held_slot (pc g c) q) → pc_state g' l → sched_inv g'.
Proof using Hinv.
  intros H1 H2 H3 H4 H0 H5 H6 H7. apply (inv_sched_step g c Hinv g' l 0%nat (st g 0%nat)); auto.
  - intros i. by rewrite H5, fn_insert_id.
  - left. by left.
Qed.

Lemma inv_take k g' op :
  pc g c = SLoop k → scheduler_step np op c g = Some g' → sched_inv g'.
Proof using Hinv.
  intros Hc. unfold scheduler_step. rewrite Hc. case_match.
  - cas_split Hs; intros [= <-].
    + apply (inv_sched_step g c Hinv _ (SFrozen k) k RUNNING); simpl; rewrite ?Hc; try done.
      * left. apply (free_slot g 0 Hinv); state_solve.
      * intros q <-. right. apply (not_owned g Hinv); state_solve.
      * by rewrite fn_lookup_insert.
    + apply (inv_sched_step g c Hinv _ (SLoop (S k)) k (st g k)); simpl; rewrite ?Hc; try done.
      left. by left.
  - unfold pop_to. destruct (pop_cli (ci g c)); intros [= <-]. apply (inv_sched_pure _ SStart); simpl; rewrite ?Hc; done.
Qed.

(** [cas_held]: the processor that holds [k] changes its state. *)
Lemma inv_held g' l k s :
  held_slot (pc g c) k → (∀ q, pc g c ≠ SRun q) → (∀ q, l ≠ SRun q) →
  pc g' = <[c := l]> (pc g) → kc g' = kc g → fk g' = fk g → (∀ i, st g' i = <[k := s]> (st g) i) →
  (dead (st g k) → dead s) → (∀ q, held_slot l q → q = k) → pc_state g' l → sched_inv g'.
Proof using Hinv.
  intros Hk H1 H2 H3 H4 H0 H5 H6 H7 H8. apply (inv_sched_step g c Hinv g' l k s); auto.
  - right. split_and!; [done| |done]. intros He.
    destruct (owned_state g Hinv c k Hk) as [?|?]; state_solve.
  - intros q Hq. left. by rewrite (H7 q Hq).
Qed.

(** The processor changes, or leaves alone, a slot it does not hold, and
    holds nothing afterwards. *)
Lemma inv_not_held g' l k s :
  (∀ q, pc g c ≠ SRun q) → (∀ q, held_slot l q → False) →
  pc g' = <[c := l]> (pc g) → kc g' = kc g → fk g' = fk g → (∀ i, st g' i = <[k := s]> (st g) i) →
  free_change g None k s → pc_state g' l → sched_inv g'.
Proof using Hinv.
  intros H1 H2 H3 H4 H0 H5 H6 H7. apply (inv_sched_step g c Hinv g' l k s); auto.
  - intros q ->. by apply (H2 q).
  - intros q Hq. by destruct (H2 q).
Qed.

(** The last cas on a slot that nobody holds. *)
Lemma free_unowned k s :
  (∀ c', ¬ owns g c' k) → st g k ≠ EMBRYO → (dead (st g k) → dead s) → free_change g None k s.
Proof using Hinv.
  intros Ho He Hd. right. split_and!; [done| |].
  - destruct (not_owned_parked g Hinv k Ho) as [E|[(r & E & _)|[E ?]]]; rewrite E; auto; done.
  - intros q b _ Hq. pose proof (inv_embryo _ Hinv _ _ _ Hq). congruence.
Qed.

(** [wakeup1] in the scheduler. *)
Lemma inv_sched_wakeup1 chan w w' g1 l : (∀ q, pc g c ≠ SRun q) → (∀ q, held_slot l q → False) → (∀ g2, pc_state g2 l) →
  (∀ j, w = WFin2 j → st g j = MINUS_RUNNABLE → ∀ c', ¬ owns g c' j) →
  wakeup1_step np chan w g = (w', g1) → sched_inv (set_pc c l g1).
Proof using Hinv.
  intros Hc Hl Hps Hn E. destruct (wakeup1_effect _ _ _ _ _ _ E) as (j & s & [[-> Hs]| ->]).
  - apply (inv_not_held _ l j s); simpl; try done.
    destruct Hs as [->|[[Hj ->]|(-> & Hj & ->)]]; [by left| |].
    + apply (free_slot g 0 Hinv); state_solve.
    + apply free_unowned; [by apply Hn|congruence|state_solve].
  - apply (inv_sched_pure _ l); simpl; try done; [intros q ->; by apply (Hl q) | intros q Hq; by destruct (Hl q)].
Qed.

Lemma inv_wake_parent k chan w g' op :
  ¬ steals g c → pc g c = SWake k chan w → scheduler_step np op c g = Some g' → sched_inv g'.
Proof using Hinv.
  intros Hn Hc. unfold scheduler_step. rewrite Hc.
  assert (Hn' : ∀ j, w = WFin2 j → st g j = MINUS_RUNNABLE → ∀ c', ¬ owns g c' j).
  { intros j -> Hj c' Ho. apply Hn. exists j, c'. unfold handing_on. rewrite Hc, decide_True; done. }
  destruct w; try (destruct (wakeup1_step np chan _ g) as [w' g1] eqn:E; intros [= <-];
    eapply (inv_sched_wakeup1 _ _ _ _ (SWake k chan w')); rewrite ?Hc; done).
  unfold pop_to. destruct (pop_cli (ci g c)); intros [= <-]. apply (inv_sched_pure _ (SLoop (S k))); simpl; rewrite ?Hc; done.
Qed.

(** Interrupts of the scheduler, between [sti] and [pushcli]. *)
Lemma inv_open g' op : ¬ steals g c → match pc g c with SStart | SOpen | SIntr _ _ => True | _ => False end →
  scheduler_step np op c g = Some g' → sched_inv g'.
Proof using Hinv.
  intros Hn. unfold scheduler_step. destruct (pc g c) as [| | | | | | | | | | | | | | | |chan w] eqn:Hc; try done; intros _.
  - intros [= <-]. apply (inv_sched_pure _ SOpen); simpl; rewrite ?Hc; done.
  - destruct op; intros [= <-]; first [by apply (inv_sched_pure _ (SLoop 0)); simpl; rewrite ?Hc
      | match goal with |- context [SIntr ?ch _] => by apply (inv_sched_pure _ (SIntr ch (WTest 0))); simpl; rewrite ?Hc end].
  - assert (Hn' : ∀ j, w = WFin2 j → st g j = MINUS_RUNNABLE → ∀ c', ¬ owns g c' j).
    { intros j -> Hj c' Ho. apply Hn. exists j, c'. unfold handing_on. rewrite Hc, decide_True; done. }
    destruct w; try (destruct (wakeup1_step np chan _ g) as [w' g1] eqn:E; intros [= <-];
      eapply (inv_sched_wakeup1 _ _ _ _ (SIntr chan w')); rewrite ?Hc; done).
    destruct (pop_cli (ci g c)) as [i|]; [|done]. simpl. destruct (pop_cli i) as [i'|]; [|done]. intros [= <-].
    apply (inv_sched_pure _ SOpen); simpl; rewrite ?Hc; done.
Qed.

(** After [swtch] returns: the four cas and what lies between them. *)
Lemma inv_post g' op :
  ¬ steals g c →
  match pc g c with
  | SPost1 _ | SPost1k _ | SPost1c _ | SPost2 _ _ | SPost3 _ _ | SPost4 _ _ | SPost5 _ _ => True
  | _ => False
  end → scheduler_step np op c g = Some g' → sched_inv g'.
Proof using Hinv.
  intros Hn. unfold scheduler_step. pose proof (inv_pc _ Hinv c) as Hs.
  unfold steals, handing_on in Hn.
  destruct (pc g c) as [| | | | | |k|k|k|k rel|k rel|k rel|k rel| | | |] eqn:Hc; simpl in Hs; try done; intros _.
  - cas_split Hr; intros [= <-].
    + apply (inv_held _ (SPost1k k) k SLEEPING); simpl; rewrite ?Hc; try done. state_solve.
    + apply (inv_held _ (SPost2 k false) k (st g k)); simpl; rewrite ?Hc; try done.
      rewrite fn_lookup_insert. state_solve.
  - intros [= <-]. destruct (kl g k).
    + apply (inv_sched_pure _ (SPost1c k)); simpl; rewrite ?Hc; done.
    + apply (inv_sched_pure _ (SPost2 k true)); simpl; rewrite ?Hc; done.
  - cas_split Hr; intros [= <-].
    + apply (inv_not_held _ (SPost2 k true) k RUNNABLE); simpl; rewrite ?Hc; try done.
      apply (free_slot g 0 Hinv); state_solve.
    + apply (inv_not_held _ (SPost2 k true) k (st g k)); simpl; rewrite ?Hc; try done. by left.
  - destruct rel; cas_split Hr; intros [= <-]; simpl.
    + apply (inv_not_held _ (SPost3 k true) k RUNNABLE); simpl; rewrite ?Hc; try done.
      apply free_unowned; [|congruence|state_solve]. intros c' Ho. apply Hn. exists k, c'.
      by rewrite decide_True.
    + apply (inv_not_held _ (SPost3 k true) k (st g k)); simpl; rewrite ?Hc; try done. by left.
    + apply (inv_held _ (SPost3 k true) k RUNNABLE); simpl; rewrite ?Hc; try done. state_solve.
    + apply (inv_held _ (SPost3 k false) k (st g k)); simpl; rewrite ?Hc; try done.
      rewrite fn_lookup_insert. state_solve.
  - intros [= <-]. case_decide.
    + apply (inv_sched_pure _ (SPost4 k rel)); simpl; rewrite ?Hc; try done; by destruct rel.
    + apply (inv_sched_pure _ (SLoop (S k))); simpl; rewrite ?Hc; done.
  - intros [= <-]. apply (inv_sched_pure _ (SPost5 k rel)); simpl; rewrite ?Hc; try done; by destruct rel.
  - destruct rel; cas_split Hr; intros [= <-]; simpl.
    + apply (inv_not_held _ (SWake k (from_option CProc CNull (par g k)) (WTest 0)) k ZOMBIE);
        simpl; rewrite ?Hc; try done.
      apply free_unowned; [|congruence|state_solve]. intros c' Ho. apply Hn. exists k, c'.
      by rewrite decide_True.
    + apply (inv_not_held _ (SLoop (S k)) k (st g k)); simpl; rewrite ?Hc; try done. by left.
    + apply (inv_held _ (SWake k (from_option CProc CNull (par g k)) (WTest 0)) k ZOMBIE);
        simpl; rewrite ?Hc; try done. state_solve.
    + done.
Qed.

Lemma inv_step g' op :
  ¬ steals g c → (∀ p, pc g c = SRun p → good_cpu (ci g c) ∧ c_proc (ci g c) = Some p) →
  scheduler_step np op c g = Some g' → sched_inv g'.
Proof using Hinv.
  intros Hn Hcpu Hstep. pose proof (inv_pc _ Hinv c) as Hs.
  destruct (pc g c) as [k|k|k|k|k|k|k|k|k|k ?|k ?|k ?|k ?|k ? w| | |] eqn:Hc; simpl in Hs;
    try (eapply inv_post; [done|by rewrite Hc|done]); try (eapply inv_open; [done|by rewrite Hc|done]).
  - by eapply inv_take.
  - unfold scheduler_step in Hstep. rewrite Hc in Hstep. destruct (fz g k); simplify_eq.
    + apply (inv_sched_pure _ (SUnrun k)); simpl; rewrite ?Hc; done.
    + apply (inv_sched_pure _ (SSwitch k)); simpl; rewrite ?Hc; done.
  - unfold scheduler_step in Hstep. rewrite Hc in Hstep. revert Hstep. cas_split Hr; intros [= <-]; [|done].
    apply (inv_held _ (SLoop (S k)) k RUNNABLE); simpl; rewrite ?Hc; try done. state_solve.
  - unfold scheduler_step in Hstep. rewrite Hc in Hstep. simplify_eq. by apply inv_dispatch.
  - unfold scheduler_step in Hstep. rewrite Hc in Hstep.
    destruct (proc_step np c op k g) as [g1|g1|] eqn:E; simplify_eq; [destruct (Hcpu k eq_refl); by eapply inv_proc|].
    destruct (proc_step_switch _ _ _ _ _ _ E) as (r & Hk & ->). by apply inv_swtch.
  - unfold scheduler_step in Hstep. rewrite Hc in Hstep. simplify_eq.
    apply (inv_sched_pure _ (SPost1 k)); simpl; rewrite ?Hc; done.
  - by eapply inv_wake_parent.
Qed.
End scheduler_preserve.

(** ** Interrupts *)

(** The depth of [pushcli] nesting, by where the process is. *)
Definition kc_ncli (k : kpc) (n : Z) : Prop :=
  match k with
  | KUser | KDead => True
  | KSleepChan _ lk | KSleepCas lk => n = 2 ∧ lk = LkOther
  | KExitWake _ _ => n = 2
  | KWake _ _ => 2 ≤ n
  | KAlloc _ | KAllocCas _ => 1 ≤ n
  | _ => n = 1
  end.

(** Processor [i] as it is while it runs process [p], which is at [k]. *)
Definition run_fits (p : nat) (k : kpc) (i : icpu) : Prop :=
  good_cpu i ∧ c_proc i = Some p ∧ kc_ncli k (c_ncli i).

Definition cpu_fits (g : gst) (c : nat) : Prop :=
  match pc g c with
  | SRun p => run_fits p (kc g p) (ci g c)
  | SStart | SOpen => good_cpu (ci g c) ∧ c_ncli (ci g c) = 0
  | SWake _ _ _ | SIntr _ _ => good_cpu (ci g c) ∧ c_ncli (ci g c) = 2
  | _ => good_cpu (ci g c) ∧ c_ncli (ci g c) = 1
  end.

Definition int_inv (g : gst) : Prop := ∀ c, cpu_fits g c.

(** What a step of process [p] on processor [c] changes. *)
Record proc_local (c p : nat) (g g' : gst) : Prop := {
  pl_pc : pc g' = pc g;
  pl_ci c' : c' ≠ c → ci g' c' = ci g c';
  pl_kc q : q ≠ p → kc g' q = kc g q ∨ st g q = UNUSED;
  pl_fits : run_fits p (kc g' p) (ci g' c)
}.

(** No panic, and everything else as it has to be. *)
Definition sound (c p : nat) (g : gst) (r : kres) : Prop :=
  match r with
  | KPanic => False
  | KNext g' => proc_local c p g g'
  | KSwitch g' => ∃ r, kc g p = KSwtch r ∧ g' = set_kc p (resume_pc r) g
  end.

Ltac pop_ok :=
  match goal with
  | |- context [pop_cli ?i] =>
      let i' := fresh "i" in let E := fresh "E" in let Hg := fresh "Hg" in let Hn := fresh "Hn" in let Hp := fresh "Hp" in
      destruct (pop_spec i) as (i' & E & Hg & Hn & Hp);
      [rewrite ?fn_lookup_insert; eauto using push_good | rewrite ?fn_lookup_insert; simpl in *; lia |];
      rewrite ?fn_lookup_insert in *; rewrite E
  end.
Ltac local_ok :=
  split; simpl;
  [ done
  | intros; by rewrite ?fn_lookup_insert_ne by done
  | intros; left; by rewrite ?fn_lookup_insert_ne by done
  | rewrite ?fn_lookup_insert; split_and!; simpl in *; eauto using push_good; try lia; try congruence ].

Section process_sound.
Variables (np : nat) (g : gst) (c p : nat).
Hypothesis Hinv : sched_inv g.
Hypothesis Hc : pc g c = SRun p.
Hypothesis Hfit : run_fits p (kc g p) (ci g c).

Lemma with_proc_sound next :
  (∀ i, good_cpu i → c_ncli i = c_ncli (ci g c) → c_proc i = Some p → c_if i = c_if (ci g c) → sound c p g (next (Some p) (set_ci c i g))) →
  sound c p g (with_proc c g next).
Proof using Hfit.
  intros Hn. destruct Hfit as (Hg & Hp & _). destruct (my_proc_spec _ Hg) as (i & E & Hgi & Hni & Hpi & Hii).
  unfold with_proc. rewrite E, Hp. apply Hn; congruence.
Qed.

Lemma sound_yield : kc g p = KYield → sound c p g (yield_step c p g).
Proof using Hinv Hc Hfit.
  intros Hk. destruct (running_state g c p Hinv Hc) as [Hs _]. pose proof Hfit as (Hg & Hp & Hn). rewrite Hk in Hs, Hn. simpl in Hs, Hn.
  apply with_proc_sound. intros i Hgi Hni Hpi _. unfold cas_state, cas. simpl. rewrite decide_True by done. simpl. local_ok.
Qed.

Lemma sound_sleep k : kc g p = k → match k with KSleepChan _ _ | KSleepCas _ => True | _ => False end → sound c p g (sleep_step c p k g).
Proof using Hinv Hc Hfit.
  intros Hk. destruct (running_state g c p Hinv Hc) as [Hs _]. pose proof Hfit as (Hg & Hp & Hn). rewrite Hk in Hs, Hn.
  destruct k as [| |chan lk|lk| | | | | | | | | | | | | | | | | | | | |]; try done; intros _; destruct Hn as [Hn ->]; simpl in Hs.
  - simpl. local_ok.
  - unfold sleep_step, cas_state, cas. rewrite decide_True by done. unfold popped. simpl. pop_ok. local_ok.
Qed.

Lemma sound_sched k : kc g p = k → match k with KSched _ | KSwtch _ | KBack _ => k ≠ KBack RDead | _ => False end → sound c p g (sched_step c p k g).
Proof using Hinv Hc Hfit.
  intros Hk. destruct (running_state g c p Hinv Hc) as [Hs _]. pose proof Hfit as (Hg & Hp & Hn). rewrite Hk in Hs, Hn.
  destruct k as [| | | |r|r| | | | | | | | | | | | | | | | | |r|]; try done; intros Hr; simpl in Hn.
  - cbn [sched_step]. apply with_proc_sound. intros i Hgi Hni Hpi _. simpl. rewrite fn_lookup_insert.
    assert (c_if i = false) as Hi by (destruct (c_if i) eqn:E; [destruct Hgi as [_ H]; specialize (H E); lia|done]).
    unfold my_cpu. rewrite Hi, Hni, Hn. simpl. rewrite decide_False by (destruct r; simpl in Hs; congruence). rewrite Hi. local_ok.
  - simpl. eauto.
  - assert (c_if (ci g c) = false) as Hi by (destruct (c_if (ci g c)) eqn:E; [destruct Hg as [_ H]; specialize (H E); lia|done]).
    assert (good_cpu ((ci g c) <| c_intena := si g p |>)) as Hg1 by (by destruct Hg).
    cbn [sched_step]. unfold my_cpu. rewrite Hi. cbv zeta. destruct r as [|lk| |]; [| | |done]; unfold popped, pushed; simpl.
    + pop_ok. local_ok.
    + destruct lk; simpl; pop_ok; local_ok.
    + local_ok.
Qed.

Lemma sound_wakeup1 chan w (k : wpc → kpc) : (∀ w', kc_ncli (k w') (c_ncli (ci g c))) →
  sound c p g (let '(w', g') := wakeup1_step np chan w g in KNext (set_kc p (k w') g')).
Proof using Hfit.
  intros Hn. pose proof Hfit as (Hg & Hp & _).
  destruct (wakeup1_step np chan w g) as [w' g'] eqn:E. destruct (wakeup1_effect _ _ _ _ _ _ E) as (j & s & [[-> _]| ->]); local_ok.
Qed.

Lemma sound_wakeup k : kc g p = k → match k with KWake _ _ => True | _ => False end → sound c p g (wakeup_step np c p k g).
Proof using Hfit.
  intros Hk. pose proof Hfit as (Hg & Hp & Hn). rewrite Hk in Hn.
  destruct k as [| | | | | | | | | | | | | | | | | | |chan w| | | | |]; try done; intros _; simpl in Hn.
  destruct w; cbn [wakeup_step]; try (by apply (sound_wakeup1 _ _ (KWake chan))).
  unfold popped. pop_ok. simpl. rewrite fn_lookup_insert. pop_ok. local_ok.
Qed.

Lemma sound_exit k : kc g p = k → match k with KExitCas | KExitLoop _ | KExitZ _ | KExitWake _ _ => True | _ => False end →
  sound c p g (exit_step np c p k g).
Proof using Hinv Hc Hfit.
  intros Hk. destruct (running_state g c p Hinv Hc) as [Hs _]. pose proof Hfit as (Hg & Hp & Hn). rewrite Hk in Hs, Hn.
  destruct k as [| | | | | | |j|j|j w| | | | | | | | | | | | | | |]; try done; intros _; simpl in Hs, Hn.
  - unfold exit_step, cas_state, cas. rewrite decide_True by done. simpl. local_ok.
  - simpl. repeat case_match; local_ok.
  - simpl. case_decide; local_ok.
  - destruct w; cbn [exit_step]; try (by apply (sound_wakeup1 _ _ (KExitWake j))).
    unfold popped. pop_ok. local_ok.
Qed.

Lemma sound_wait k : kc g p = k →
  match k with
  | KWaitCas | KWaitChan | KWaitScan _ _ | KWaitReap _ | KWaitFree _ | KWaitBack _ | KWaitDone _ | KWaitNone | KWaitNoneCas => True
  | _ => False
  end → sound c p g (wait_step np c p k g).
Proof using Hinv Hc Hfit.
  intros Hk. destruct (running_state g c p Hinv Hc) as [Hs _]. pose proof Hfit as (Hg & Hp & Hn). rewrite Hk in Hs, Hn.
  destruct k; try done; intros _; simpl in Hs, Hn; unfold wait_step, cas_state, cas.
  - rewrite decide_True by done. simpl. local_ok.
  - local_ok.
  - repeat case_match; local_ok.
  - case_decide; local_ok.
  - local_ok.
  - case_decide; local_ok.
  - unfold popped. case_decide; simpl; pop_ok; local_ok.
  - local_ok.
  - rewrite decide_True by done. unfold popped. simpl. pop_ok. local_ok.
Qed.

Lemma sound_alloc k : kc g p = k → match k with KAlloc _ | KAllocCas _ => True | _ => False end → sound c p g (alloc_step np c p k g).
Proof using Hinv Hc Hfit.
  intros Hk. destruct (running_state g c p Hinv Hc) as [Hs _]. pose proof Hfit as (Hg & Hp & Hn). rewrite Hk in Hs, Hn.
  destruct k as [| | | | | | | | | | | | | | | | | | | |j|j| | |]; try done; intros _; simpl in Hs, Hn; unfold alloc_step, cas_state, cas, popped.
  - destruct (j <? np)%nat; [case_decide; local_ok|]. pop_ok. local_ok.
  - case_decide as Hj; simpl; [|local_ok]. pop_ok. split; simpl.
    + done.
    + intros; by rewrite fn_lookup_insert_ne.
    + intros q Hq. rewrite fn_lookup_insert_ne by done. fn_cases q j; [by right | by left].
    + rewrite !fn_lookup_insert. split_and!; [done | congruence | done].
Qed.

Lemma sound_fork op : kc g p = KUser → sound c p g (fork_step c p op g).
Proof using Hfit.
  intros Hk. pose proof Hfit as (Hg & Hp & Hn). pose proof (proj1 Hg) as Hg0.
  assert (sound c p g (KNext g)) as Hid by (simpl; split; auto).
  unfold fork_step. destruct (fk g p) as [[j b]|]; [|by destruct op]. destruct op; try done; destruct b; try done; simpl.
  - local_ok.
  - local_ok.
  - unfold cas_state, cas, pushed, popped. simpl. case_decide; simpl; pop_ok; local_ok; by rewrite Hk.
Qed.

Lemma sound_user op : kc g p = KUser → allowed g c op → sound c p g (user_step c op p g).
Proof using Hc Hfit.
  intros Hk Hal. unfold allowed in Hal. rewrite Hc in Hal. specialize (Hal Hk). pose proof Hfit as (Hg & Hp & Hn). pose proof (proj1 Hg) as Hg0.
  assert (sound c p g (KNext g)) as Hid by (simpl; split; auto).
  unfold user_step. destruct op as [| |chan lk| | |chan| | | | |j|j b| | | |]; destruct (fk g p) as [[j' b']|] eqn:Hf;
    try (by apply Hid); try (by apply sound_fork); try (by simpl; unfold pushed, set_ci, set_kc; local_ok; rewrite Hk).
  - destruct Hal as [Hal ->]. apply with_proc_sound. intros i Hgi Hni Hpi _. simpl. local_ok. split; [lia | done].
  - destruct Hal as [Hal Hp0]. apply with_proc_sound. intros i Hgi Hni Hpi _. rewrite decide_False by congruence. simpl. local_ok.
  - apply with_proc_sound. intros i Hgi Hni Hpi _. simpl. local_ok.
  - apply with_proc_sound. intros i Hgi Hni Hpi _. simpl. local_ok.
  - unfold popped. pop_ok. local_ok. by rewrite Hk.
  - unfold popped. pop_ok. local_ok. by rewrite Hk.
  - case_match; [|done]. local_ok. by split.
  - case_match; [|done]. local_ok. by split.
  - local_ok. by split.
  - local_ok. by split.
Qed.

Lemma sound_proc op : allowed g c op → sound c p g (proc_step np c op p g).
Proof using Hinv Hc Hfit.
  intros Hal. destruct (running_state g c p Hinv Hc) as [Hs Hd]. unfold proc_step. pose proof Hfit as (Hg & Hp & Hn).
  assert (∃ k, kc g p = k) as [k Hk] by eauto. rewrite Hk. rewrite Hk in Hs, Hd, Hn. destruct k; try done;
    first [ by apply sound_user | by apply sound_yield | by apply sound_sleep | by apply sound_sched; try done
          | by apply sound_exit | by apply sound_wait | by apply sound_wakeup | by apply sound_alloc | idtac ].
  - apply sound_sched; [done|]. by intros [= ->].
  - unfold popped. pop_ok. local_ok.
Qed.
End process_sound.

(** *** Scheduler steps *)

Lemma int_frame g g' c : int_inv g → (∀ c', c' ≠ c → pc g' c' = pc g c') → (∀ c', c' ≠ c → ci g' c' = ci g c') →
  (∀ q c', c' ≠ c → pc g c' = SRun q → kc g' q = kc g q) → cpu_fits g' c → int_inv g'.
Proof.
  intros Hi Hp Hci Hk Hf c'. destruct (decide (c' = c)) as [->|Hne]; [done|]. pose proof (Hi c') as Hc'.
  unfold cpu_fits in *. rewrite Hp, Hci by done. destruct (pc g c') as [| | | |q| | | | | | | | | | | |] eqn:E; try done.
  by rewrite (Hk q c' Hne E).
Qed.

Section scheduler_sound.
Variables (np : nat) (g : gst) (c : nat).
Hypothesis Hinv : sched_inv g.
Hypothesis Hint : int_inv g.

(** A step of the scheduler to [l], with processor [i]. *)
Lemma int_sched g' l i : pc g' = <[c := l]> (pc g) → (∀ c', ci g' c' = <[c := i]> (ci g) c') → kc g' = kc g →
  good_cpu i → c_ncli i = match l with SStart | SOpen => 0 | SWake _ _ _ | SIntr _ _ => 2 | _ => 1 end → (∀ q, l ≠ SRun q) → int_inv g'.
Proof using Hint.
  intros Hp Hci Hk Hg Hn Hl. apply (int_frame g g' c Hint).
  - intros c' Hne. by rewrite Hp, fn_lookup_insert_ne.
  - intros c' Hne. by rewrite Hci, fn_lookup_insert_ne.
  - intros q c' _ _. by rewrite Hk.
  - unfold cpu_fits. rewrite Hp, Hci, !fn_lookup_insert. destruct l; try done. by destruct (Hl k).
Qed.

(** The same, with the processor as it was. *)
Lemma int_sched_same g' l : pc g' = <[c := l]> (pc g) → ci g' = ci g → kc g' = kc g → (∀ q, pc g c ≠ SRun q) → (∀ q, l ≠ SRun q) →
  match l with SStart | SOpen => 0 | SWake _ _ _ | SIntr _ _ => 2 | _ => 1 end
    = match pc g c with SStart | SOpen => 0 | SWake _ _ _ | SIntr _ _ => 2 | _ => 1 end → int_inv g'.
Proof using Hint.
  intros Hp Hci Hk Hs Hl He. apply (int_frame g g' c Hint).
  - intros c' Hne. by rewrite Hp, fn_lookup_insert_ne.
  - intros c' Hne. by rewrite Hci.
  - intros q c' _ _. by rewrite Hk.
  - pose proof (Hint c) as Hf. unfold cpu_fits in *. rewrite Hp, Hci, fn_lookup_insert.
    destruct (pc g c); try (by destruct (Hs _ eq_refl)); destruct l; try (by destruct (Hl _ eq_refl)); destruct Hf; split; done || lia.
Qed.

(** The step of a process, or its switch to the scheduler. *)
Lemma int_run p op : pc g c = SRun p → allowed g c op → ∃ g', scheduler_step np op c g = Some g' ∧ int_inv g'.
Proof using Hinv Hint.
  intros Hc Hal. pose proof (Hint c) as Hf. unfold cpu_fits in Hf. rewrite Hc in Hf.
  pose proof (sound_proc np g c p Hinv Hc Hf op Hal) as Hs. unfold scheduler_step. rewrite Hc.
  assert (∀ q c', c' ≠ c → pc g c' = SRun q → q ≠ p ∧ st g q ≠ UNUSED) as Ho.
  { intros q c' Hne Hq. assert (owns g c' q) as Hoq by (unfold owns; by rewrite Hq). split.
    - intros ->. apply Hne. apply (inv_excl _ Hinv c' c p); [done|]. unfold owns. by rewrite Hc.
    - destruct (owned_state g Hinv c' q Hoq) as [->|[->|[->| ->]]]; done. }
  destruct (proc_step np c op p g) as [g'|g'|]; [| |done]; eexists; (split; [done|]).
  - destruct Hs as [H1 H2 H3 H4]. apply (int_frame g g' c Hint); [intros c' _; by rewrite H1 | done | |].
    + intros q c' Hne Hq. destruct (Ho q c' Hne Hq). by destruct (H3 q).
    + unfold cpu_fits. by rewrite H1, Hc.
  - destruct Hs as (r & Hk & ->). rewrite Hk in Hf. destruct Hf as (Hg & _ & Hn).
    apply (int_frame g _ c Hint); unfold set_pc, set_kc; simpl; [intros c' Hne; by rewrite fn_lookup_insert_ne | done | |].
    + intros q c' Hne Hq. destruct (Ho q c' Hne Hq). by rewrite fn_lookup_insert_ne.
    + unfold cpu_fits. simpl. by rewrite fn_lookup_insert.
Qed.

Lemma int_dispatch k : pc g c = SSwitch k → int_inv (set_pc c (SRun k) (set_ci c ((ci g c) <| c_proc := Some k |>) g)).
Proof using Hinv Hint.
  intros Hc. pose proof (Hint c) as Hf. unfold cpu_fits in Hf. rewrite Hc in Hf. destruct Hf as [Hg Hn].
  apply (int_frame g _ c Hint); simpl; [intros c' Hne; by rewrite fn_lookup_insert_ne | intros c' Hne; by rewrite fn_lookup_insert_ne | done |].
  unfold cpu_fits. simpl. rewrite !fn_lookup_insert. split; [by destruct Hg|]. split; [done|]. simpl.
  assert (parked g k) as Hpk.
  { apply (inv_parked _ Hinv). intros c' E. assert (c' = c) as ->; [|congruence].
    apply (inv_excl _ Hinv c' c k); unfold owns; [by rewrite E | by rewrite Hc]. }
  by destruct Hpk as [->|[(r & -> & _)|[-> _]]].
Qed.

(** [wakeup1] in the scheduler. *)
Lemma int_wakeup1 chan w (l : wpc → cpc) : pc g c = l w → (∀ w, (∃ k, l w = SWake k chan w) ∨ l w = SIntr chan w) →
  ∃ g', (let '(w', g') := wakeup1_step np chan w g in Some (set_pc c (l w') g')) = Some g' ∧ int_inv g'.
Proof using Hint.
  intros Hc Hl. destruct (wakeup1_step np chan w g) as [w' g'] eqn:E. eexists. split; [done|].
  assert (pc g' = pc g ∧ ci g' = ci g ∧ kc g' = kc g) as (E1 & E2 & E3).
  { by destruct (wakeup1_effect _ _ _ _ _ _ E) as (j & s & [[-> _]| ->]). }
  apply (int_sched_same _ (l w')); simpl; rewrite ?E1, ?E2, ?E3, ?Hc; try done; intros;
    destruct (Hl w) as [[? Ew]|Ew], (Hl w') as [[? Ew']|Ew']; rewrite ?Ew, ?Ew'; done.
Qed.

Ltac same H l := eexists; split; [done|]; apply (int_sched_same _ l); simpl; rewrite ?H; done.

(** No step panics, and the interrupt state fits afterwards. *)
Lemma int_step op : allowed g c op → ∃ g', scheduler_step np op c g = Some g' ∧ int_inv g'.
Proof using Hinv Hint.
  intros Hal. pose proof (Hint c) as Hf. unfold cpu_fits in Hf.
  destruct (pc g c) as [k|k|k|k|k|k|k|k|k|k rel|k rel|k rel|k rel|k chan w| | |chan w] eqn:Hc; try (by eapply int_run);
    unfold scheduler_step; rewrite Hc; destruct Hf as [Hg Hn].
  - destruct (k <? np)%nat; [unfold cas_state, cas; case_decide; [same Hc (SFrozen k)|same Hc (SLoop (S k))]|].
    unfold pop_to. pop_ok. eexists. split; [done|]. eapply (int_sched _ SStart); done || lia.
  - destruct (fz g k); [same Hc (SUnrun k)|same Hc (SSwitch k)].
  - unfold cas_state, cas; case_decide; same Hc (SLoop (S k)).
  - eexists. split; [done|]. by apply int_dispatch.
  - eexists. split; [done|]. by eapply (int_sched _ (SPost1 k)).
  - unfold cas_state, cas; case_decide; [same Hc (SPost1k k)|same Hc (SPost2 k false)].
  - destruct (kl g k); [same Hc (SPost1c k)|same Hc (SPost2 k true)].
  - unfold cas_state, cas; case_decide; same Hc (SPost2 k true).
  - unfold cas_state, cas; case_decide; [same Hc (SPost3 k (rel || true))|same Hc (SPost3 k (rel || false))].
  - case_decide; [same Hc (SPost4 k rel)|same Hc (SLoop (S k))].
  - same Hc (SPost5 k rel).
  - unfold cas_state, cas; case_decide; [|same Hc (SLoop (S k))]. eexists. split; [done|].
    eapply (int_sched _ (SWake k (from_option CProc CNull (par g k)) (WTest 0)) (push_cli (ci g c))); eauto using push_good; simpl; done || lia.
  - destruct w; try (apply (int_wakeup1 chan _ (SWake k chan) Hc); eauto).
    unfold pop_to. pop_ok. eexists. split; [done|]. eapply (int_sched _ (SLoop (S k))); done || lia.
  - eexists. split; [done|]. apply (int_sched _ SOpen ((ci g c) <| c_if := true |>)); try done. split; simpl; lia.
  - assert (∀ i, good_cpu i → c_ncli i = 0 → good_cpu (push_cli i) ∧ c_ncli (push_cli i) = 1) as Hpush.
    { intros i Hi Hn0. split; [by apply push_good | simpl; lia]. }
    destruct op; eexists; (split; [done|]);
      first [ by eapply (int_sched _ (SLoop 0) (push_cli (ci g c))); [..|apply Hpush|apply Hpush|] | idtac ].
    set (i := (ci g c) <| c_if := false |>).
    assert (good_cpu i ∧ c_ncli i = 0) as [Hgi Hni] by (unfold i; destruct Hg; split; [split|]; done).
    eapply (int_sched _ (SIntr c0 (WTest 0)) (push_cli (push_cli i))); eauto using push_good; simpl; [|lia].
    intros c'. rewrite !fn_lookup_insert. fn_cases c' c; done.
  - destruct w; try (apply (int_wakeup1 chan _ (SIntr chan) Hc); eauto).
    pop_ok. simpl. pop_ok. eexists. split; [done|]. eapply (int_sched _ SOpen); try done; [split; simpl; [lia|intros; lia] | simpl; lia].
Qed.
End scheduler_sound.

(** ** Theorems *)

Lemma inv_init : sched_inv sched_init.
Proof.
  split; simpl; try done. intros p _. unfold parked, dead; simpl. case_decide; auto 8.
Qed.

Lemma int_init : int_inv sched_init.
Proof. intros c. by split. Qed.

Lemma reach_inv np g : reach np g → sched_inv g ∧ int_inv g.
Proof.
  induction 1 as [|g g' c op _ [IH1 IH2] Hal Hn Hs]; [split; [apply inv_init | apply int_init]|].
  destruct (int_step np g c IH1 IH2 op Hal) as (g1 & E & Hi). rewrite Hs in E. injection E as <-. split; [|done].
  eapply (inv_step np g c IH1 g' op Hn); [|done]. intros p Hc. pose proof (IH2 c) as Hf. unfold cpu_fits in Hf. rewrite Hc in Hf.
  by destruct Hf as (? & ? & _).
Qed.

(** *** Schedules and reachability *)

Definition allowedb (g : gst) (c : nat) (op : kop) : bool :=
  match pc g c with
  | SRun p =>
      match kc g p, op with
      | KUser, (OYield | OWait | OIret) => c_ncli (ci g c) =? 0
      | KUser, OExit => (c_ncli (ci g c) =? 0) && negb (p =? 0)%nat
      | KUser, OSleep _ lk => (c_ncli (ci g c) =? 1) && match lk with LkOther => true | _ => false end
      | KUser, OPop => 1 <=? c_ncli (ci g c)
      | _, _ => true
      end
  | _ => true
  end.

Lemma allowedb_ok g c op : allowedb g c op = true → allowed g c op.
Proof.
  unfold allowedb, allowed. destruct (pc g c) as [| | | |p| | | | | | | | | | | |]; try done. intros H Hk. rewrite Hk in H.
  destruct op as [| |chan lk| | | | | | | | | | | | |]; try done.
  - by apply Z.eqb_eq.
  - apply andb_true_iff in H as [H1%Z.eqb_eq H2]. split; [done | by destruct lk].
  - apply andb_true_iff in H as [H1%Z.eqb_eq H2%negb_true_iff%Nat.eqb_neq]. done.
  - by apply Z.eqb_eq.
  - by apply Z.leb_le.
  - by apply Z.eqb_eq.
Qed.

(** All calls along a schedule are allowed. *)
Fixpoint calls_allowed (np : nat) (tr : list (nat * kop)) (g : gst) : bool :=
  match tr with
  | [] => true
  | (c, op) :: tr' => allowedb g c op && match scheduler_step np op c g with Some g' => calls_allowed np tr' g' | None => false end
  end.

(** Nothing is handed on along a schedule, so nothing is stolen. *)
Fixpoint quiet (np : nat) (tr : list (nat * kop)) (g : gst) : bool :=
  match tr with
  | [] => true
  | (c, op) :: tr' =>
      match handing_on g c, scheduler_step np op c g with
      | None, Some g' => quiet np tr' g'
      | _, _ => false
      end
  end.

Lemma quiet_reach np tr g g' :
  reach np g → calls_allowed np tr g = true → quiet np tr g = true → run_schedule np tr g = Some g' → reach np g'.
Proof.
  revert g. induction tr as [|[c op] tr IH]; intros g Hg; simpl; [by intros _ _ [= <-]|].
  intros [Ha%allowedb_ok Hr]%andb_true_iff. destruct (handing_on g c) eqn:Hh; [done|].
  destruct (scheduler_step np op c g) as [g1|] eqn:E; [|done]. simpl. intros Hq.
  apply IH; [|done|done]. eapply reach_step; [done|done| |done]. intros (p & c' & Hp & _). congruence.
Qed.

Definition adv (c n : nat) : list (nat * kop) := repeat (c, ONone) n.

(** Processor 0 runs process 0, which forks; processor 1 runs the child. *)
Definition two_running : list (nat * kop) :=
  adv 0 6 ++ [(0%nat, OFork)] ++ adv 0 3 ++ [(0%nat, OIntr); (0%nat, OIret); (0%nat, OForkPar); (0%nat, OForkEnd)] ++ adv 1 7.

(** C1: the claim of the comment on the scheduler's first cas, "this line
    elminate from 2 cpu's run the same process". It is about every state
    that the machine reaches as long as no step hands on a process that is
    in another processor's hands, and as long as the rest of the kernel
    calls [yield], [wait] and [exit] with no spin lock held, [sleep] with
    one spin lock, which is the only one held and not [ptable.lock],
    [popcli] only after [pushcli], does not exit [initproc], and returns from
    interrupts with no lock held. In such a state each process is held by at
    most one processor; a running process is in the state its position in the
    kernel requires, is the [c->proc] of its processor, and runs at the depth
    of [pushcli] its position requires; interrupts are on only at depth 0; and
    no such call panics: not [sched] (locks, running, interruptible), [yield],
    [sleep], [wait], [exit], [wakeup], [mycpu], [pushcli] or [popcli], and no
    zombie runs again. *)
Theorem scheduler_exclusive np g :
  reach np g →
  (∀ c c' p, owns g c p → owns g c' p → c = c')
  ∧ (∀ c p, pc g c = SRun p → kc_state (kc g p) (st g p) ∧ c_proc (ci g c) = Some p ∧ kc_ncli (kc g p) (c_ncli (ci g c)))
  ∧ (∀ c, c_if (ci g c) = true → c_ncli (ci g c) = 0)
  ∧ (∀ c op, allowed g c op → scheduler_step np op c g ≠ None).
Proof.
  intros [Hr Hi]%reach_inv. split_and!.
  - apply (inv_excl _ Hr).
  - intros c p Hc. split; [by apply (running_state g c p Hr Hc)|]. pose proof (Hi c) as Hf. unfold cpu_fits in Hf.
    rewrite Hc in Hf. by destruct Hf as (_ & ? & ?).
  - intros c. pose proof (Hi c) as Hf. unfold cpu_fits in Hf. destruct (pc g c); by destruct Hf as [[? ?] ?].
  - intros c op Ha. destruct (int_step np g c Hr Hi op Ha) as (g' & -> & _). done.
Qed.

Lemma scheduler_exclusive_witness :
  ∃ g, run_schedule 2 two_running sched_init = Some g ∧ owns g 0 0 ∧ owns g 1 1 ∧ ¬ owns g 1 0.
Proof.
  destruct (run_schedule 2 two_running sched_init) as [g|] eqn:E; [|by vm_compute in E].
  assert (Hr : reach 2 g) by (by apply (quiet_reach 2 two_running sched_init); [constructor|vm_compute|vm_compute|]).
  destruct (scheduler_exclusive 2 g Hr) as [Hex _].
  assert (H0 : owns g 0 0) by (vm_compute in E; injection E as <-; reflexivity).
  exists g. split_and!; [done|done| |].
  - vm_compute in E. injection E as <-. reflexivity.
  - intros H1. by specialize (Hex _ _ _ H0 H1).
Defined.

(** The process on processor [c] acquires a spin lock and sleeps on [chan]. *)
Definition lock_and_sleep (c : nat) (chan : channel) : list (nat * kop) := [(c, OPush); (c, OSleep chan LkOther)].

(** Process 0 sleeps and processor 0 stops after its first cas; processor 1
    wakes and runs it, and it yields, after releasing its lock; processor 0
    goes on. *)
Definition post_switch_schedule : list (nat * kop) :=
  two_running
  ++ lock_and_sleep 0 (CAddr 5) ++ adv 0 6
  ++ [(1%nat, OWakeup (CAddr 5))] ++ adv 1 9
  ++ lock_and_sleep 1 (CAddr 6) ++ adv 1 16
  ++ [(1%nat, OPop); (1%nat, OYield)] ++ adv 1 1 ++ adv 0 10.

(** Without that proviso exclusion fails: the cas of [scheduler] from
    [MINUS_RUNNABLE] to [RUNNABLE] after a successful
    [MINUS_SLEEPING]-to-[SLEEPING] cas can meet the process when it is
    already yielding on another processor, and then two processors run the
    same process on the same kernel stack. *)
Theorem post_switch_race :
  calls_allowed 2 post_switch_schedule sched_init = true ∧
  ∃ g, run_schedule 2 post_switch_schedule sched_init = Some g
    ∧ pc g 0%nat = SRun 0 ∧ pc g 1%nat = SRun 0 ∧ kc g 0%nat = KSched RYield.
Proof. split; [vm_compute; reflexivity|]. eexists. split; [vm_compute; reflexivity|]. done. Qed.

(** Process 1 calls [wait] with its old channel still set while process 0
    is in [wakeup1] on that channel, returns, and yields between the two
    reads of its state. *)
Definition wakeup_schedule : list (nat * kop) :=
  two_running
  ++ lock_and_sleep 1 (CAddr 5) ++ adv 1 9
  ++ [(0%nat, OWakeup (CAddr 5))] ++ adv 0 9
  ++ adv 1 8 ++ [(1%nat, OPop); (1%nat, OWait)] ++ adv 1 1
  ++ [(0%nat, OWakeup (CAddr 5))] ++ adv 0 8 ++ adv 1 6 ++ adv 0 1
  ++ [(1%nat, OYield)] ++ adv 1 1 ++ adv 0 4
  ++ lock_and_sleep 0 (CAddr 6) ++ adv 0 12.

(** The last cas of [wakeup1] has the same flaw: it fires whenever the
    second read of the state is not [RUNNING], also when the process was
    not woken by this [wakeup1] but is yielding on another processor. *)
Theorem wakeup1_race :
  calls_allowed 2 wakeup_schedule sched_init = true ∧
  ∃ g, run_schedule 2 wakeup_schedule sched_init = Some g
    ∧ pc g 0%nat = SRun 1 ∧ pc g 1%nat = SRun 1 ∧ kc g 1%nat = KSched RYield.
Proof. split; [vm_compute; reflexivity|]. eexists. split; [vm_compute; reflexivity|]. done. Qed.

(** *** [wakeup1] when no other processor interferes *)

Fixpoint wakeup1_iter (np : nat) (chan : channel) (n : nat) (w : wpc) (g : gst) : wpc * gst :=
  match n with
  | O => (w, g)
  | S n' => let '(w', g') := wakeup1_step np chan w g in wakeup1_iter np chan n' w' g'
  end.

Lemma wakeup1_iter_add np chan n m w g w' g' :
  wakeup1_iter np chan n w g = (w', g') →
  wakeup1_iter np chan (n + m) w g = wakeup1_iter np chan m w' g'.
Proof.
  revert w g. induction n as [|n IH]; intros w g; simpl; [by intros [= -> ->]|].
  destruct (wakeup1_step np chan w g) as [w1 g1]. apply IH.
Qed.

Definition woken (chan : channel) (s : procstate) (c : channel) : procstate :=
  if decide (s = SLEEPING ∧ c = chan) then RUNNABLE else s.

(** One slot: at most five steps. *)
Lemma wakeup1_slot np chan j g :
  (j < np)%nat → ¬ (st g j = MINUS_SLEEPING ∧ ch g j = chan) →
  ∃ n g', wakeup1_iter np chan n (WTest j) g = (WTest (S j), g')
    ∧ (∀ i, st g' i = <[j := woken chan (st g j) (ch g j)]> (st g) i)
    ∧ ch g' = ch g ∧ kl g' = kl g ∧ fz g' = fz g ∧ par g' = par g ∧ pc g' = pc g ∧ kc g' = kc g.
Proof.
  intros Hj Hm. apply Nat.ltb_lt in Hj. unfold woken.
  destruct (decide (st g j = SLEEPING)) as [Hs|Hs], (decide (ch g j = chan)) as [Hch|Hch].
  - eexists 5%nat, _. split.
    + cbn [wakeup1_iter]. cbn [wakeup1_step]. rewrite Hj, decide_True by done.
      cbn [wakeup1_step]. rewrite decide_True by done. unfold cas_state, cas.
      cbn [wakeup1_step]. unfold cas_state, cas. rewrite decide_True by done.
      simpl. rewrite fn_lookup_insert. simpl. unfold cas_state, cas. simpl.
      rewrite fn_lookup_insert. simpl. reflexivity.
    + simpl. rewrite decide_True by done. split_and!; try done.
      intros i. fn_cases i j; done.
  - eexists 2%nat, g. simpl. rewrite Hj, decide_True by done. simpl. rewrite !decide_False by tauto.
    split_and!; try done. intros i. by rewrite fn_insert_id.
  - eexists 2%nat, g. simpl. rewrite Hj, decide_False by done. simpl. rewrite !decide_False by tauto.
    split_and!; try done. intros i. by rewrite fn_insert_id.
  - destruct (decide (st g j = MINUS_SLEEPING)).
    + eexists 3%nat, g. simpl. rewrite Hj, decide_False by done. simpl. rewrite decide_True by done.
      simpl. rewrite !decide_False by tauto. split_and!; try done. intros i. by rewrite fn_insert_id.
    + eexists 2%nat, g. simpl. rewrite Hj, decide_False by done. simpl. rewrite !decide_False by tauto.
      split_and!; try done. intros i. by rewrite fn_insert_id.
Qed.

Lemma wakeup1_from np chan k : ∀ j g,
  (np - j = k)%nat → (∀ i, (j ≤ i < np)%nat → ¬ (st g i = MINUS_SLEEPING ∧ ch g i = chan)) →
  ∃ n g', wakeup1_iter np chan n (WTest j) g = (WDone, g')
    ∧ (∀ i, st g' i = if decide (j ≤ i < np)%nat then woken chan (st g i) (ch g i) else st g i)
    ∧ ch g' = ch g ∧ kl g' = kl g ∧ fz g' = fz g ∧ par g' = par g ∧ pc g' = pc g ∧ kc g' = kc g.
Proof.
  induction k as [|k IH]; intros j g Hk Hm.
  - eexists 1%nat, g. simpl. destruct (Nat.ltb_spec j np); [lia|]. split_and!; try done.
    intros i. rewrite decide_False by lia. done.
  - destruct (wakeup1_slot np chan j g) as (n1 & g1 & E1 & Hs1 & Hc1 & Hr1); [lia|apply Hm; lia|].
    destruct (IH (S j) g1) as (n2 & g2 & E2 & Hs2 & Hc2 & Hr2); [lia| |].
    { intros i Hi. rewrite Hs1, fn_lookup_insert_ne, Hc1 by lia. apply Hm. lia. }
    exists (n1 + n2)%nat, g2. rewrite (wakeup1_iter_add _ _ _ _ _ _ _ _ E1). split; [done|].
    split; [|destruct_and!; split_and!; congruence].
    intros i. rewrite Hs2. rewrite Hc1, Hs1.
    fn_cases i j; [rewrite decide_False by lia; rewrite decide_True by lia; done|].
    by destruct (decide (S j ≤ i < np)%nat), (decide (j ≤ i < np)%nat); try lia.
Qed.

(** [wakeup1(chan)], when no process is on its way to sleep on [chan]
    and no other processor interferes, returns after finitely many steps
    with exactly the processes that slept on [chan] made [RUNNABLE];
    nothing else changes, in particular not their [chan] field. *)
Theorem wakeup1_wakes np chan g :
  (∀ j, (j < np)%nat → ¬ (st g j = MINUS_SLEEPING ∧ ch g j = chan)) →
  ∃ n g', wakeup1_iter np chan n (WTest 0) g = (WDone, g')
    ∧ (∀ j, st g' j = if decide ((j < np)%nat ∧ st g j = SLEEPING ∧ ch g j = chan)
                      then RUNNABLE else st g j)
    ∧ ch g' = ch g ∧ pc g' = pc g ∧ kc g' = kc g.
Proof.
  intros Hm. destruct (wakeup1_from np chan (np - 0) 0 g) as (n & g' & E & Hs & Hr); [done| |].
  { intros i Hi. apply Hm. lia. }
  exists n, g'. split; [done|]. destruct_and! Hr. split_and!; try done. intros j. rewrite Hs.
  unfold woken. repeat case_decide; try done; exfalso; intuition lia.
Qed.

Definition sleepers : gst :=
  Gst (λ i, if decide (i = 2%nat) then RUNNING else SLEEPING)
    (λ i, if decide (i = 1%nat) then CAddr 5 else CAddr 7) (λ _, false) (λ _, false)
    (λ _, None) (λ _, SLoop 0) (λ _, KUser) (λ _, ICpu 1 true false None) (λ _, true) (λ _, None).

Lemma wakeup1_wakes_witness :
  ∃ n g', wakeup1_iter 3 (CAddr 7) n (WTest 0) sleepers = (WDone, g')
    ∧ st g' 0%nat = RUNNABLE ∧ st g' 1%nat = SLEEPING ∧ st g' 2%nat = RUNNING.
Proof.
  destruct (wakeup1_wakes 3 (CAddr 7) sleepers) as (n & g' & E & Hs & _).
  { intros j _ [H _]. simpl in H. by case_decide. }
  exists n, g'. rewrite !Hs. split_and!; [exact E|done..].
Defined.

Lemma spin_step np chan j g w :
  st g j ≠ SLEEPING → st g j ≠ RUNNING → w = WCas j ∨ w = WSpin j →
  ∃ w' g', wakeup1_step np chan w g = (w', g') ∧ (w' = WCas j ∨ w' = WSpin j)
    ∧ ∀ i, st g' i = st g i.
Proof.
  intros H1 H2 [->| ->]; simpl.
  - unfold cas_state, cas. rewrite decide_False by done. eexists _, _. split_and!; [done|by right|].
    intros i. simpl. apply fn_insert_id.
  - rewrite decide_False by done. eexists _, _. split_and!; [done|by left|done].
Qed.

(** once [wakeup1] has found a process going to sleep on its channel it
    leaves the busy wait only through the states [SLEEPING] and [RUNNING]:
    while the process is in any other state (it was woken by someone else
    and is [RUNNABLE] but stopped, or it went on to exit) the processor
    spins, with its interrupts off. *)
Theorem wakeup1_spins np chan j g n :
  st g j ≠ SLEEPING → st g j ≠ RUNNING →
  ∃ w g', wakeup1_iter np chan n (WCas j) g = (w, g') ∧ w ≠ WDone ∧ ∀ i, st g' i = st g i.
Proof.
  intros H1 H2.
  assert (∀ w, w = WCas j ∨ w = WSpin j → ∃ w' g', wakeup1_iter np chan n w g = (w', g')
    ∧ (w' = WCas j ∨ w' = WSpin j) ∧ ∀ i, st g' i = st g i) as Hgen.
  { revert g H1 H2. induction n as [|n IH]; intros g H1 H2 w Hw; [by eexists _, _|]. simpl.
    destruct (spin_step np chan j g w H1 H2 Hw) as (w1 & g1 & -> & Hw1 & Hs1).
    destruct (IH g1) with (w := w1) as (w2 & g2 & -> & Hw2 & Hs2); rewrite ?Hs1; try done.
    eexists _, _. split_and!; [done|done|]. intros i. by rewrite Hs2, Hs1. }
  destruct (Hgen (WCas j)) as (w & g' & E & Hw & Hs); [by left|].
  exists w, g'. split_and!; [done| |done]. by destruct Hw as [->| ->].
Qed.

Lemma wakeup1_spins_witness :
  ∃ w g', wakeup1_iter 8 (CAddr 7) 100 (WCas 5)
      (sleepers <| st := <[5%nat := ZOMBIE]> (st sleepers) |>) = (w, g')
    ∧ w ≠ WDone ∧ st g' 5%nat = ZOMBIE.
Proof.
  destruct (wakeup1_spins 8 (CAddr 7) 5 (sleepers <| st := <[5%nat := ZOMBIE]> (st sleepers) |>) 100)
    as (w & g' & E & Hw & Hs); [done|done|].
  exists w, g'. split_and!; [exact E|exact Hw|by rewrite Hs].
Defined.
