(* ===== verification/Syscall.v ===== *)
(** * System calls: arguments and dispatch

    [src/syscall.c] (fetching arguments from user memory, the dispatch
    through [syscalls]) and the calls of [src/sysproc.c] that only touch the
    process table. A function that returns -1 or fills in its out-parameter
    is modelled by an [option]. *)
From S2P Require Import Prelude Machine Proc Signal.

(** ** Fetching arguments *)

(** [fetchint]: the [int] at user address [addr]. *)
Definition fetchint (addr : Z) : M kst (option Z) :=
  p ← curproc;
  if (sz p <=? addr) || (sz p <? u32 (addr + 4)) then mret None
  else m ← gets ks_mem; mret (Some (s32 (load32 m addr))).

(** The loop of [fetchstr]: [fuel] bytes from [s] up to [ep]. *)
Fixpoint fetchstr_loop (m : mem) (s : Z) (fuel : nat) : option Z :=
  match fuel with
  | O => None
  | S fuel' => if m s =? 0 then Some s else fetchstr_loop m (s + 1) fuel'
  end.

(** [fetchstr]: the pointer and the length of the string at [addr]. *)
Definition fetchstr (addr : Z) : M kst (option (Z * Z)) :=
  p ← curproc;
  if sz p <=? addr then mret None
  else
    m ← gets ks_mem;
    mret ((λ s, (addr, s - addr)) <$> fetchstr_loop m addr (Z.to_nat (sz p - addr))).

Definition argint (n : Z) : M kst (option Z) :=
  p ← curproc;
  fetchint (u32 (tf_esp (tf p) + 4 + 4 * n)).

Definition argptr (n size : Z) : M kst (option Z) :=
  p ← curproc;
  oi ← argint n;
  match oi with
  | None => mret None
  | Some i =>
      if (size <? 0) || (sz p <=? u32 i) || (sz p <? u32 (u32 i + size)) then mret None
      else mret (Some (u32 i))
  end.

Definition argstr (n : Z) : M kst (option (Z * Z)) :=
  oaddr ← argint n;
  match oaddr with
  | None => mret None
  | Some addr => fetchstr (u32 addr)
  end.

(** ** System calls *)

Definition sys_kill : M kst Z :=
  opid ← argint 0;
  match opid with
  | None => mret (-1)
  | Some pid_ =>
      osig ← argint 1;
      match osig with
      | None => mret (-1)
      | Some signum => kill pid_ signum
      end
  end.

Definition sys_getpid : M kst Z := p ← curproc; mret (pid p).

Definition sys_sigprocmask : M kst Z :=
  omask ← argint 0;
  match omask with
  | None => mret (-1)
  | Some new_mask => sigprocmask (u32 new_mask)
  end.

Definition sys_sigaction : M kst Z :=
  osig ← argint 0;
  match osig with
  | None => mret (-1)
  | Some signum =>
      oact ← argptr 1 8;
      match oact with
      | None => mret (-1)
      | Some act =>
          oold ← argptr 2 8;
          match oold with
          | None => mret (-1)
          | Some oldact => sigaction signum act oldact
          end
      end
  end.

Definition sys_sigret : M kst Z := sigret.

(** The handlers of [syscalls] that other files define. *)
Record other_calls := OtherCalls {
  sys_fork : M kst Z; sys_exit : M kst Z; sys_wait : M kst Z; sys_pipe : M kst Z;
  sys_read : M kst Z; sys_exec : M kst Z; sys_fstat : M kst Z; sys_chdir : M kst Z;
  sys_dup : M kst Z; sys_sbrk : M kst Z; sys_sleep : M kst Z; sys_uptime : M kst Z;
  sys_open : M kst Z; sys_write : M kst Z; sys_mknod : M kst Z; sys_unlink : M kst Z;
  sys_link : M kst Z; sys_mkdir : M kst Z; sys_close : M kst Z
}.

Section dispatch.
Variable oc : other_calls.

(** The table [syscalls], indexed by the call number; entry 0 is null. *)
Definition syscalls : list (option (M kst Z)) :=
  [ None; Some (sys_fork oc); Some (sys_exit oc); Some (sys_wait oc); Some (sys_pipe oc);
    Some (sys_read oc); Some sys_kill; Some (sys_exec oc); Some (sys_fstat oc);
    Some (sys_chdir oc); Some (sys_dup oc); Some sys_getpid; Some (sys_sbrk oc);
    Some (sys_sleep oc); Some (sys_uptime oc); Some (sys_open oc); Some (sys_write oc);
    Some (sys_mknod oc); Some (sys_unlink oc); Some (sys_link oc); Some (sys_mkdir oc);
    Some (sys_close oc); Some sys_sigprocmask; Some sys_sigaction; Some sys_sigret ].

Definition set_eax (v : Z) (p : proc) : proc := p <| tf := (tf p) <| tf_eax := u32 v |> |>.

(** [syscall]. [myproc()] is read once at the start, so the result goes to
    the process that made the call. *)
Definition syscall : M kst () :=
  me ← myproc;
  p ← curproc;
  let num := s32 (tf_eax (tf p)) in
  let entry := if (0 <? num) && (num <? Z.of_nat (length syscalls))
               then mjoin (syscalls !! Z.to_nat num) else None in
  match me, entry with
  | Some i, Some f => v ← f; upd_proc i (set_eax v)
  | Some i, None => upd_proc i (set_eax (-1))
  | None, _ => fault
  end.
End dispatch.

(** ** Fetching stays inside the process *)

(** Page tables give the process [0, sz), below the kernel. *)
Definition user_size (p : proc) : Prop := 0 ≤ sz p ≤ KERNBASE.

Lemma fetchint_run s i p addr :
  running s i p → user_size p → 0 ≤ addr < 4294967296 →
  fetchint addr s =
    Ok (if addr + 4 <=? sz p then Some (s32 (load32 (ks_mem s) addr)) else None) s.
Proof.
  unfold user_size, KERNBASE. intros Hr Hsz Ha. unfold fetchint.
  erewrite bind_ok by by eapply curproc_ok.
  destruct (Z.leb_spec (sz p) addr); simpl.
  - by rewrite (proj2 (Z.leb_gt _ _)) by lia.
  - rewrite u32_small by lia. destruct (Z.ltb_spec (sz p) (addr + 4)), (Z.leb_spec (addr + 4) (sz p)); try lia; done.
Qed.

Lemma argint_run s i p n :
  running s i p → user_size p →
  let a := u32 (tf_esp (tf p) + 4 + 4 * n) in
  argint n s = Ok (if a + 4 <=? sz p then Some (s32 (load32 (ks_mem s) a)) else None) s.
Proof.
  intros Hr Hsz a. unfold argint. erewrite bind_ok by by eapply curproc_ok.
  eapply fetchint_run; [done|done|]. apply u32_range.
Qed.

Lemma argptr_run s i p n size :
  running s i p → user_size p → -2147483648 ≤ size < 2147483648 → wf_mem (ks_mem s) →
  let a := u32 (tf_esp (tf p) + 4 + 4 * n) in
  let ptr := load32 (ks_mem s) a in
  argptr n size s =
    Ok (if decide (a + 4 ≤ sz p ∧ 0 ≤ size ∧ ptr < sz p ∧ ptr + size ≤ sz p)
        then Some ptr else None) s.
Proof.
  intros Hr Hsz Hn Hwf a ptr. unfold argptr. erewrite bind_ok by by eapply curproc_ok.
  erewrite bind_ok by by eapply argint_run. fold a.
  destruct (Z.leb_spec (a + 4) (sz p)); [|by rewrite decide_False by lia].
  fold ptr. rewrite u32_s32. pose proof (load32_range (ks_mem s) a Hwf) as Hp. fold ptr in Hp.
  unfold user_size, KERNBASE in Hsz. rewrite (u32_small ptr) by lia.
  destruct (Z.ltb_spec size 0); [by rewrite decide_False by lia|].
  destruct (Z.leb_spec (sz p) ptr); simpl; [by rewrite decide_False by lia|].
  rewrite u32_small by lia.
  destruct (Z.ltb_spec (sz p) (ptr + size)); [by rewrite decide_False by lia|].
  by rewrite decide_True by lia.
Qed.

(** The first [n] bytes at [a] have no NUL. *)
Definition no_nul (m : mem) (a n : Z) : Prop := ∀ k, 0 ≤ k < n → m (a + k) ≠ 0.

Lemma fetchstr_loop_spec m fuel : ∀ s,
  match fetchstr_loop m s fuel with
  | Some e => s ≤ e < s + Z.of_nat fuel ∧ m e = 0 ∧ no_nul m s (e - s)
  | None => no_nul m s (Z.of_nat fuel)
  end.
Proof.
  unfold no_nul. induction fuel as [|fuel IH]; intros s; cbn [fetchstr_loop]; [lia|].
  destruct (Z.eqb_spec (m s) 0) as [E|E]; [split_and!; [lia|lia|done|lia]|].
  specialize (IH (s + 1)). destruct (fetchstr_loop m (s + 1) fuel) as [e|].
  - destruct IH as (He & H0 & Hn). split_and!; [lia|lia|done|]. intros k Hk.
    destruct (decide (k = 0)) as [->|]; [by rewrite Z.add_0_r|].
    replace (s + k) with (s + 1 + (k - 1)) by lia. apply Hn. lia.
  - intros k Hk. destruct (decide (k = 0)) as [->|]; [by rewrite Z.add_0_r|].
    replace (s + k) with (s + 1 + (k - 1)) by lia. apply IH. lia.
Qed.

(** C40: the pointer [argptr] returns is the argument word on the user stack,
    and it returns one exactly when that word and the [size] bytes it points
    to lie inside the process: no wrap-around of [(uint)i+size] can make a
    kernel address pass, whatever the user puts on its stack. *)
Theorem argptr_safe s i p n size :
  running s i p → user_size p → wf_mem (ks_mem s) → -2147483648 ≤ size < 2147483648 →
  let a := u32 (tf_esp (tf p) + 4 + 4 * n) in
  ∃ r, argptr n size s = Ok r s ∧
    ∀ ptr, r = Some ptr ↔
      a + 4 ≤ sz p ∧ 0 ≤ size ∧ ptr = load32 (ks_mem s) a ∧ 0 ≤ ptr < sz p ∧ ptr + size ≤ sz p.
Proof.
  intros Hr Hsz Hwf Hn a. eexists. split; [by eapply argptr_run|]. fold a. intros ptr.
  pose proof (load32_range (ks_mem s) a Hwf) as Hp.
  case_decide as H; split; try (intros [= <-]); try lia.
  intros (_ & _ & -> & _). done.
Qed.

(** [fetchstr] accepts exactly the strings that end inside the process,
    and returns their length; the kernel reads no byte past [sz]. *)
Theorem fetchstr_correct s i p addr :
  running s i p → 0 ≤ sz p → 0 ≤ addr →
  ∃ r, fetchstr addr s = Ok r s ∧
    ∀ ptr len, r = Some (ptr, len) ↔
      ptr = addr ∧ 0 ≤ len ∧ addr + len < sz p ∧ ks_mem s (addr + len) = 0 ∧
      no_nul (ks_mem s) addr len.
Proof.
  intros Hr Hsz Ha. unfold fetchstr. erewrite bind_ok by by eapply curproc_ok.
  destruct (Z.leb_spec (sz p) addr).
  { eexists. split; [done|]. split; [done|]. lia. }
  rewrite bind_gets. eexists. split; [done|]. intros ptr len.
  pose proof (fetchstr_loop_spec (ks_mem s) (Z.to_nat (sz p - addr)) addr) as Hl.
  destruct (fetchstr_loop _ _ _) as [e|]; simpl.
  - destruct Hl as (He & H0 & Hn). split.
    + intros [= <- <-]. replace (addr + (e - addr)) with e by lia. split_and!; [done|lia..|done|done].
    + intros (-> & H1 & H2 & H3 & H4). do 2 f_equal. destruct (decide (e - addr = len)); [done|exfalso].
      destruct (decide (e - addr < len)).
      * apply (H4 (e - addr)); [lia|]. by replace (addr + (e - addr)) with e by lia.
      * apply (Hn len); [lia|done].
  - split; [done|]. intros (-> & H1 & H2 & H3 & _). exfalso. apply (Hl len); [lia|done].
Qed.

(** ** Examples *)

(** A process of two pages whose stack, at [0x1ff0], holds a return address
    and the arguments 20, [0x100] and 3. *)
Definition call_mem : mem :=
  store32 (store32 (store32 (λ _, 0) 0x1ff4 20) 0x1ff8 0x100) 0x1ffc 3.
Definition call_proc (num : Z) : proc :=
  user_example <| sz := 0x2000 |>
    <| tf := user_frame <| tf_esp := 0x1ff0 |> <| tf_eax := num |> |>.
Definition call_state (num : Z) (m : mem) : kst := (kst_example (call_proc num)) <| ks_mem := m |>.

Lemma call_mem_wf : wf_mem call_mem.
Proof. unfold call_mem. repeat apply store32_wf. by intros a. Qed.

Lemma argptr_safe_witness :
  ∃ r, argptr 1 8 (call_state 23 call_mem) = Ok r (call_state 23 call_mem) ∧ r = Some 0x100.
Proof.
  destruct (argptr_safe (call_state 23 call_mem) 0 (call_proc 23) 1 8) as (r & E & Hr).
  - done.
  - unfold user_size, KERNBASE. simpl. lia.
  - apply call_mem_wf.
  - lia.
  - exists r. split; [exact E|]. apply Hr. unfold KERNBASE. by vm_compute.
Defined.

Lemma fetchstr_correct_witness :
  ∃ r, fetchstr 0x1ff9 (call_state 23 call_mem) = Ok r (call_state 23 call_mem)
    ∧ r = Some (0x1ff9, 1).
Proof.
  destruct (fetchstr_correct (call_state 23 call_mem) 0 (call_proc 23) 0x1ff9) as (r & E & Hr).
  - done.
  - simpl. lia.
  - lia.
  - exists r. split; [exact E|]. apply Hr. split_and!; [done|lia|simpl; lia|done|].
    intros k Hk. assert (k = 0) as -> by lia. by vm_compute.
Defined.

(** ** Dispatch *)

Lemma upd_proc_with s i p f :
  procs s !! i = Some p → upd_proc i f s = Ok () (with_proc s i (f p)).
Proof. intros Hl. unfold upd_proc, modify, with_proc, set_field. by rewrite (alter_insert_list _ _ p). Qed.

Lemma syscalls_total oc n : (1 ≤ n ≤ 24)%nat → ∃ f : M kst Z, syscalls oc !! n = Some (Some f).
Proof. intros Hn. do 25 (destruct n as [|n]; [try lia; by eexists|]). lia. Qed.

Lemma syscall_call oc s i p num (f : M kst Z) v s' p' :
  running s i p → s32 (tf_eax (tf p)) = Z.of_nat num → (1 ≤ num)%nat →
  syscalls oc !! num = Some (Some f) →
  f s = Ok v s' → procs s' !! i = Some p' →
  syscall oc s = Ok () (with_proc s' i (set_eax v p')).
Proof.
  intros Hr Hnum H1 Hf Hv Hp. unfold syscall, myproc. rewrite bind_gets.
  erewrite bind_ok by by eapply curproc_ok. rewrite (proj1 Hr), Hnum.
  pose proof (lookup_lt_Some _ _ _ Hf) as Hlt.
  assert ((0 <? Z.of_nat num) && (Z.of_nat num <? Z.of_nat (length (syscalls oc))) = true) as ->.
  { apply andb_true_intro. rewrite !Z.ltb_lt. change (length (syscalls oc)) with 25%nat in Hlt |- *. lia. }
  rewrite Nat2Z.id, Hf. cbn [mjoin option_join]. erewrite bind_ok by done.
  by apply upd_proc_with.
Qed.

(** [syscall] on every call number. The 24 numbers of [syscall.h] all
    have a handler, whose result the caller finds in its [eax]; any other
    number, negative ones included, changes nothing but [eax], which
    becomes -1. *)
Theorem syscall_dispatch oc s i p :
  running s i p →
  let num := s32 (tf_eax (tf p)) in
  (num < 1 ∨ 24 < num → syscall oc s = Ok () (with_proc s i (set_eax (-1) p))) ∧
  (1 ≤ num ≤ 24 → ∃ f : M kst Z, syscalls oc !! Z.to_nat num = Some (Some f) ∧
     ∀ v s' p', f s = Ok v s' → procs s' !! i = Some p' →
       syscall oc s = Ok () (with_proc s' i (set_eax v p'))).
Proof.
  intros Hr num. split.
  - intros Hn. unfold syscall, myproc. rewrite bind_gets. erewrite bind_ok by by eapply curproc_ok.
    fold num. rewrite (proj1 Hr). change (Z.of_nat (length (syscalls oc))) with 25.
    replace ((0 <? num) && (num <? 25)) with false
      by (destruct (Z.ltb_spec 0 num), (Z.ltb_spec num 25); first [reflexivity | exfalso; lia]).
    apply upd_proc_with, (proj2 Hr).
  - intros Hn. destruct (syscalls_total oc (Z.to_nat num)) as [f Hf]; [lia|].
    exists f. split; [done|]. intros v s' p' Hv Hp.
    eapply (syscall_call oc s i p (Z.to_nat num)); [done|unfold num; lia|lia|done..].
Qed.

Definition no_calls : other_calls :=
  let n := mret (-1) in OtherCalls n n n n n n n n n n n n n n n n n n n.

Lemma syscall_dispatch_witness :
  syscall no_calls (call_state 4294967295 call_mem)
    = Ok () (with_proc (call_state 4294967295 call_mem) 0 (set_eax (-1) (call_proc 4294967295)))
  ∧ syscall no_calls (call_state 11 call_mem)
    = Ok () (with_proc (call_state 11 call_mem) 0 (set_eax 5 (call_proc 11))).
Proof.
  split.
  - destruct (syscall_dispatch no_calls (call_state 4294967295 call_mem) 0 (call_proc 4294967295)) as [H _];
      [done|]. apply H. left. by vm_compute.
  - destruct (syscall_dispatch no_calls (call_state 11 call_mem) 0 (call_proc 11)) as [_ H]; [done|].
    destruct H as (f & Hf & H); [by vm_compute|]. injection Hf as <-. by apply H.
Defined.

(** ** [sigret] as a system call *)

Lemma syscall_sigret oc s i p m :
  cur_slot s i → psignals p = 0 → tf_eax (tf p) = 24 →
  syscall oc (at_proc s i p m) = Ok ()
    (at_proc s i (p <| tf := (load_tf m (tf_backup p)) <| tf_eax := 0 |> |>
                    <| sigmask := sigmask_backup p |>) m).
Proof.
  intros Hc Hps Heax.
  pose proof (sigret_run s i p m Hc Hps) as Hrun.
  etrans; [eapply (syscall_call oc (at_proc s i p m) i p 24 _ _ _ _)|].
  - by apply at_running.
  - by rewrite Heax.
  - lia.
  - reflexivity.
  - exact Hrun.
  - by apply at_running.
  - unfold at_proc. rewrite with_with. reflexivity.
Qed.

(** A signal handler loses the interrupted [eax]. [sigret] restores the
    whole frame, but it is reached through [syscall], which then stores the
    result 0 of [sigret] in the restored frame: the program resumes with
    every register as it was, except [eax], which is 0. *)
Theorem sigret_clobbers_eax oc s i p sig s1 p1 t2 m2 :
  running s i p → valid_sig sig → stacks_ok p → tf_ok (tf p) → psignals p = 0 →
  user_handler sig s = Ok () s1 → running s1 i p1 → tf_eax t2 = 24 →
  (∀ x, kstack p ≤ x < kstack p + SIZEOF_TRAPFRAME → m2 x = ks_mem s1 x) →
  ∃ s3 p3,
    syscall oc (at_proc s1 i (p1 <| tf := t2 |>) m2) = Ok () s3 ∧ running s3 i p3 ∧
    tf p3 = (tf p) <| tf_eax := 0 |> ∧ sigmask p3 = sigmask p.
Proof.
  intros Hr Hs Hok Htf Hps Hu Hr1 Heax Hm. pose proof (running_cur_slot s i p Hr) as Hc.
  rewrite (user_handler_run s i p sig Hr Hs) in Hu. injection Hu as <-.
  pose proof (running_cur_slot _ _ _ Hr1) as Hc1.
  assert (p1 = handler_proc p (ks_mem s) sig) as ->.
  { destruct (at_running s i (handler_proc p (ks_mem s) sig) (handler_mem p (ks_mem s) sig) Hc)
      as [_ Hl]. destruct Hr1 as [_ Hl1]. congruence. }
  eexists _, _. split; [by apply syscall_sigret |]. split; [by apply at_running |].
  split; [| done]. simpl.
  replace (load_tf m2 (kstack p)) with (tf p); [done|]. symmetry.
  etrans; [| by apply (load_store_tf (ks_mem s) (kstack p) (tf p))].
  apply load_tf_ext. intros x Hx. rewrite Hm by done.
  apply handler_mem_frame; [done |]. destruct Hok. unfold KERNBASE in *. lia.
Qed.

Lemma sigret_clobbers_eax_witness :
  ∃ s3 p3,
    syscall no_calls (at_proc
        (at_proc (kst_example user_example) 0 (handler_proc user_example (λ _, 0) SIGTEST)
           (handler_mem user_example (λ _, 0) SIGTEST)) 0
        ((handler_proc user_example (λ _, 0) SIGTEST) <| tf := zero_trapframe <| tf_eax := 24 |> |>)
        (handler_mem user_example (λ _, 0) SIGTEST)) = Ok () s3 ∧
    running s3 0 p3 ∧ tf p3 = user_frame <| tf_eax := 0 |> ∧ sigmask p3 = 0.
Proof.
  apply (sigret_clobbers_eax no_calls (kst_example user_example) 0 user_example SIGTEST
    (at_proc (kst_example user_example) 0 (handler_proc user_example (λ _, 0) SIGTEST)
       (handler_mem user_example (λ _, 0) SIGTEST))).
  - done.
  - done.
  - apply user_example_stacks.
  - apply user_frame_ok.
  - done.
  - by apply user_handler_run.
  - apply at_running. split; [done | simpl; lia].
  - done.
  - done.
Defined.

(** [sigret] trusts [tf_backup]. A process that never had a handler has
    [tf_backup = 0], and calling [sigret] makes the kernel take the trap
    frame from user address 0: the process chooses every register it
    resumes with, the code segment (so the privilege level) and [eflags]
    included. *)
Theorem sigret_forges_frame oc s i p t m :
  cur_slot s i → psignals p = 0 → tf_backup p = 0 → tf_eax (tf p) = 24 → tf_ok t →
  ∃ s' p',
    syscall oc (at_proc s i p (store_tf m 0 t)) = Ok () s' ∧ running s' i p' ∧
    tf p' = t <| tf_eax := 0 |>.
Proof.
  intros Hc Hps Hb Heax Ht. eexists _, _. split; [by apply syscall_sigret|].
  split; [by apply at_running|]. simpl. by rewrite Hb, load_store_tf.
Qed.

(** Ring 0 code segment, interrupts off, at address [0x400]. *)
Definition forged : trapframe :=
  zero_trapframe <| tf_cs := SEG_KCODE * 8 |> <| tf_eip := 0x400 |>.

Lemma sigret_forges_frame_witness :
  ∃ s' p',
    syscall no_calls (at_proc (kst_example (call_proc 24)) 0 (call_proc 24)
        (store_tf (λ _, 0) 0 forged)) = Ok () s' ∧ running s' 0 p' ∧
    tf p' = forged ∧ Z.land (tf_cs (tf p')) 3 = 0.
Proof.
  destruct (sigret_forges_frame no_calls (kst_example (call_proc 24)) 0 (call_proc 24) forged (λ _, 0))
    as (s' & p' & E & Hr & Htf).
  - split; [done|simpl; lia].
  - done.
  - done.
  - done.
  - split; unfold tf_words; repeat (apply Forall_cons_2; [by vm_compute|]); apply Forall_nil_2.
  - exists s', p'. rewrite Htf. done.
Defined.
