(* ===== verification/Asm.v ===== *)
(** * Assembly: entering and leaving the kernel, switching stacks

    The assembly files [vectors.S], [trapasm.S], [swtch.S], [usys.S] and
    [initcode.S] as lists of instructions, with the part of the processor they
    use: registers, flat memory, the stack, and what the hardware does for an
    interrupt and for [iret]. Calls of C functions are a parameter. A selector
    is pushed with zeros above it. *)
From stdpp Require Import functions.
From S2P Require Import Prelude Machine Proc.

(** ** The processor *)

Inductive reg := EAX | ECX | EDX | EBX | ESP | EBP | ESI | EDI.
Inductive sreg := ES | CS | SS | DS | FS | GS.
#[export] Instance reg_eq_dec : EqDecision reg.
Proof. solve_decision. Defined.
#[export] Instance sreg_eq_dec : EqDecision sreg.
Proof. solve_decision. Defined.

Record x86 := X86 { gpr : reg → Z; seg : sreg → Z; eip : Z; eflags : Z; x_mem : mem }.
#[export] Instance eta_x86 : Settable x86 := λ c, X86 (gpr c) (seg c) (eip c) (eflags c) (x_mem c).

(** The C functions called from assembly. *)
Inductive cfun := Ctrap | Chandle_signals.

Inductive instr :=
| PushR (r : reg) | PushS (s : sreg) | PushI (n : Z) | PopR (r : reg) | PopS (s : sreg) | Pushal | Popal
| MovI (n : Z) (r : reg) | MovR (r r' : reg) | MovwI (n : Z) (r : reg) | MovwS (r : reg) (s : sreg)
| Load (disp : Z) (b r : reg) | Store (r b : reg) | AddI (n : Z) (r : reg)
| Call (f : cfun) | Jmp (a : Z) | Ret | Iret | Int (n : Z).

Definition set_reg (r : reg) (v : Z) (c : x86) : x86 := c <| gpr := <[r := u32 v]> (gpr c) |>.
Definition set_seg (s : sreg) (v : Z) (c : x86) : x86 := c <| seg := <[s := v mod 65536]> (seg c) |>.

Definition push (w : Z) (c : x86) : x86 :=
  let a := u32 (gpr c ESP - 4) in (set_reg ESP a c) <| x_mem := store32 (x_mem c) a w |>.
Definition top (c : x86) : Z := load32 (x_mem c) (gpr c ESP).
Definition drop_words (n : Z) (c : x86) : x86 := set_reg ESP (gpr c ESP + 4 * n) c.

Definition pushes (ws : list Z) (c : x86) : x86 := fold_left (λ c w, push w c) ws c.

(** The current privilege level. *)
Definition cpl (sel : Z) : Z := Z.land sel 3.

(** [pushal] pushes the stack pointer it started with; [popal] skips it. *)
Definition pushal (c : x86) : x86 :=
  pushes [gpr c EAX; gpr c ECX; gpr c EDX; gpr c EBX; gpr c ESP; gpr c EBP; gpr c ESI; gpr c EDI] c.

Definition pop_reg (r : reg) (c : x86) : x86 := let w := top c in set_reg r w (drop_words 1 c).
Definition pop_seg (s : sreg) (c : x86) : x86 := let w := top c in set_seg s w (drop_words 1 c).

Definition popal (c : x86) : x86 :=
  pop_reg EAX (pop_reg ECX (pop_reg EDX (pop_reg EBX (drop_words 1 (pop_reg EBP (pop_reg ESI (pop_reg EDI c))))))).

(** [iret]: to an outer ring, the stack changes too. *)
Definition iret (c : x86) : x86 :=
  let w k := load32 (x_mem c) (gpr c ESP + 4 * k) in
  let c1 := set_seg CS (w 1) ((drop_words 3 c) <| eip := w 0 |> <| eflags := w 2 |>) in
  if cpl (seg c CS) <? cpl (w 1 mod 65536) then set_seg SS (w 4) (set_reg ESP (w 3) c1) else c1.

(** ** Gates *)

(** A gate as the processor reads it, and the stack in the task state. *)
Record gate := Gate { g_present : bool; g_trap : bool; g_dpl : Z; g_sel : Z; g_off : Z }.
Record tss := Tss { ts_esp0 : Z; ts_ss0 : Z }.

(** TF, RF, VM and NT are cleared by any gate, IF by an interrupt gate. *)
Definition gate_flags (g : gate) (fl : Z) : Z :=
  let fl := Z.land fl (Z.lnot 0x34100) in if g_trap g then fl else Z.land fl (Z.lnot FL_IF).

(** Delivery through a gate to ring 0, with an error code for some vectors. *)
Definition deliver (t : tss) (g : gate) (err : option Z) (c : x86) : x86 :=
  let c1 :=
    if 0 <? cpl (seg c CS) then
      pushes [seg c SS; gpr c ESP] (set_seg SS (ts_ss0 t) (set_reg ESP (ts_esp0 t) c))
    else c in
  let c2 := pushes ([eflags c; seg c CS; eip c] ++ match err with Some e => [e] | None => [] end) c1 in
  (set_seg CS (g_sel g) c2) <| eip := g_off g |> <| eflags := gate_flags g (eflags c) |>.

(** The instruction [int n] with the table [idt]: a gate closed to the
    current ring gives a general protection fault (vector 13) whose error code
    names the gate; [eip] is then that of the instruction itself, two bytes
    before. *)
Definition int_n (t : tss) (idt : Z → gate) (n : Z) (c : x86) : x86 :=
  if g_present (idt n) && (cpl (seg c CS) <=? g_dpl (idt n)) then deliver t (idt n) None c
  else deliver t (idt 13) (Some (8 * n + 2)) (c <| eip := eip c - 2 |>).

(** ** Instructions *)

Section asm.
Variable ccall : cfun → M x86 ().
Variable task : tss.
Variable idt : Z → gate.

Definition step (i : instr) : M x86 () :=
  match i with
  | PushR r => modify (λ c, push (gpr c r) c)
  | PushS s => modify (λ c, push (seg c s) c)
  | PushI n => modify (push n)
  | PopR r => modify (pop_reg r)
  | PopS s => modify (pop_seg s)
  | Pushal => modify pushal
  | Popal => modify popal
  | MovI n r => modify (set_reg r n)
  | MovR r r' => modify (λ c, set_reg r' (gpr c r) c)
  | MovwI n r => modify (λ c, set_reg r (gpr c r / 65536 * 65536 + n mod 65536) c)
  | MovwS r s => modify (λ c, set_seg s (gpr c r) c)
  | Load disp b r => modify (λ c, set_reg r (load32 (x_mem c) (gpr c b + disp)) c)
  | Store r b => modify (λ c, c <| x_mem := store32 (x_mem c) (gpr c b) (gpr c r) |>)
  | AddI n r => modify (λ c, set_reg r (gpr c r + n) c)
  | Call f => ccall f
  | Jmp a => modify (λ c, c <| eip := a |>)
  | Ret => modify (λ c, let w := top c in (drop_words 1 c) <| eip := w |>)
  | Iret => modify iret
  | Int n => modify (int_n task idt n)
  end.

Fixpoint run (code : list instr) : M x86 () :=
  match code with
  | [] => mret ()
  | i :: code' => step i;; run code'
  end.
End asm.

(** ** The code *)

Definition T_SYSCALL : Z := 64.

(** The vectors for which the processor pushes an error code. *)
Definition has_err (n : Z) : bool := (n =? 8) || ((10 <=? n) && (n <=? 14)) || (n =? 17).

(** Entry [n] of vectors.S; [alltraps] is the address of that label. *)
Definition vector (alltraps n : Z) : list instr :=
  (if has_err n then [] else [PushI 0]) ++ [PushI n; Jmp alltraps].

Definition alltraps : list instr :=
  [PushS DS; PushS ES; PushS FS; PushS GS; Pushal;
   MovwI (Z.shiftl SEG_KDATA 3) EAX; MovwS EAX DS; MovwS EAX ES;
   PushR ESP; Call Ctrap; AddI 4 ESP].

(** [alltraps] falls through to [trapret]. *)
Definition trapret : list instr :=
  [PushR ESP; Call Chandle_signals; AddI 4 ESP; Popal; PopS GS; PopS FS; PopS ES; PopS DS; AddI 8 ESP; Iret].

Definition swtch : list instr :=
  [Load 4 ESP EAX; Load 8 ESP EDX;
   PushR EBP; PushR EBX; PushR ESI; PushR EDI;
   Store ESP EAX; MovR EDX ESP;
   PopR EDI; PopR ESI; PopR EBX; PopR EBP; Ret].

(** [SYSCALL(name)] of usys.S, up to the [int], and after it. *)
Definition sys_stub (num : Z) : list instr := [MovI num EAX; Int T_SYSCALL].
Definition sys_stub_end : list instr := [Ret].

(** * What the assembly code does

    Traps build a trap frame on the kernel stack and return through it;
    [swtch] saves a context and resumes another. *)

Definition word (w : Z) : Prop := 0 ≤ w < 4294967296.
Definition half (w : Z) : Prop := 0 ≤ w < 65536.

(** Registers and bytes are in range. *)
Record regs_ok (c : x86) : Prop := {
  ro_gpr r : word (gpr c r);
  ro_seg s : half (seg c s);
  ro_mem : wf_mem (x_mem c)
}.
Definition x86_ok (c : x86) : Prop := regs_ok c ∧ word (eip c) ∧ word (eflags c).

Lemma half_word w : half w → word w.
Proof. unfold half, word. lia. Qed.

Ltac all_words := repeat (apply Forall_cons; split); [..|by apply Forall_nil]; unfold word in *; try lia.

(** ** Registers *)

Lemma gpr_set_reg r v c r' : gpr (set_reg r v c) r' = if decide (r = r') then u32 v else gpr c r'.
Proof. done. Qed.
Lemma gpr_set_seg s v c r : gpr (set_seg s v c) r = gpr c r.
Proof. done. Qed.
Lemma seg_set_seg s v c s' : seg (set_seg s v c) s' = if decide (s = s') then v mod 65536 else seg c s'.
Proof. done. Qed.
Lemma gpr_push w c r : gpr (push w c) r = if decide (ESP = r) then u32 (u32 (gpr c ESP - 4)) else gpr c r.
Proof. done. Qed.

Lemma seg_push w c s : seg (push w c) s = seg c s.
Proof. done. Qed.

(** ** The stack *)

(** [c'] is [c] with the words [ws] pushed, the last one on top. *)
Record pushed (c c' : x86) (ws : list Z) : Prop := {
  pd_esp : gpr c' ESP = gpr c ESP - 4 * Z.of_nat (length ws);
  pd_gpr r : r ≠ ESP → gpr c' r = gpr c r;
  pd_seg s : seg c' s = seg c s;
  pd_flags : eflags c' = eflags c;
  pd_word k w : ws !! k = Some w → load32 (x_mem c') (gpr c ESP - 4 * (Z.of_nat k + 1)) = w;
  pd_frame x : x < gpr c ESP - 4 * Z.of_nat (length ws) ∨ gpr c ESP ≤ x → x_mem c' x = x_mem c x;
  pd_wf : wf_mem (x_mem c) → wf_mem (x_mem c')
}.

Lemma pushed_nil c : pushed c c [].
Proof. split; try done. simpl. lia. Qed.

Lemma pushed_one c w : word w → 4 ≤ gpr c ESP → word (gpr c ESP) → pushed c (push w c) [w].
Proof.
  intros Hw He1 He2. unfold word in *. set (e := gpr c ESP) in *. assert (u32 (e - 4) = e - 4) as Ea by (apply u32_small; lia).
  assert (x_mem (push w c) = store32 (x_mem c) (e - 4) w) as Em by (unfold push; fold e; by rewrite Ea).
  split; rewrite ?Em; try done; cbn [length].
  - rewrite gpr_push, decide_True by done. fold e. rewrite u32_u32, Ea. lia.
  - intros r Hr. by rewrite gpr_push, decide_False.
  - intros [|k] w' Hk; [|done]. injection Hk as <-. fold e. replace (e - 4 * (Z.of_nat 0 + 1)) with (e - 4) by lia. by apply load32_store32_eq.
  - intros x Hx. fold e in Hx. rewrite store32_byte, decide_False by lia. done.
  - intros Hm. by apply store32_wf.
Qed.

Lemma pushed_app c c1 c2 ws1 ws2 : pushed c c1 ws1 → pushed c1 c2 ws2 → pushed c c2 (ws1 ++ ws2).
Proof.
  intros [A B C E F G W] [A' B' C' E' F' G' W']. rewrite A in *. split.
  - rewrite A', length_app. lia.
  - intros r Hr. by rewrite B', B.
  - intros s. by rewrite C', C.
  - congruence.
  - intros k w Hk. apply lookup_app_Some in Hk as [Hk|[Hl Hk]].
    + rewrite <- (F k w Hk). apply load32_ext. intros x Hx. apply lookup_lt_Some in Hk. apply G'. lia.
    + rewrite <- (F' _ w Hk). f_equal. lia.
  - intros x Hx. rewrite length_app in Hx. rewrite G', G by lia. done.
  - auto.
Qed.

Lemma pushed_more c c1 ws w : pushed c c1 ws → word w → word (gpr c ESP) → 4 * Z.of_nat (length ws) + 4 ≤ gpr c ESP → pushed c (push w c1) (ws ++ [w]).
Proof.
  intros Hp Hw He Hr. eapply pushed_app; [done|]. pose proof (pd_esp _ _ _ Hp). unfold word in *. apply pushed_one; [done | lia | unfold word; lia].
Qed.

Lemma pushes_ok ws : ∀ c, Forall word ws → word (gpr c ESP) → 4 * Z.of_nat (length ws) ≤ gpr c ESP → pushed c (pushes ws c) ws.
Proof.
  induction ws as [|w ws IH]; intros c Hws He Hr; [apply pushed_nil|]. apply Forall_cons in Hws as [Hw Hws]. cbn [length] in Hr.
  change (pushes (w :: ws) c) with (pushes ws (push w c)). apply (pushed_app _ (push w c) _ [w]); [apply pushed_one; [done | lia | done]|].
  pose proof (pd_esp _ _ _ (pushed_one c w Hw ltac:(lia) He)) as E. cbn [length] in E. unfold word in *. apply IH; [done | rewrite E; unfold word; lia | rewrite E; lia].
Qed.

(** Popping words. *)
Section pops.
Variable m : mem.
Hypothesis Hm : wf_mem m.

(** The stack pointer is [p] and memory [m]. *)
Definition stack_at (c : x86) (p : Z) : Prop := gpr c ESP = p ∧ x_mem c = m.

Lemma drop_at c p n : stack_at c p → word (p + 4 * n) →
  stack_at (drop_words n c) (p + 4 * n) ∧ (∀ r, r ≠ ESP → gpr (drop_words n c) r = gpr c r) ∧ (∀ s, seg (drop_words n c) s = seg c s).
Proof using.
  intros [Hp Hc] Hw. unfold word in Hw. split; [split; [|done] | split; [|done]].
  - unfold drop_words. by rewrite gpr_set_reg, decide_True, Hp, u32_small.
  - intros r Hr. unfold drop_words. by rewrite gpr_set_reg, decide_False.
Qed.

Lemma pop_reg_at c p r : stack_at c p → word (p + 4) → r ≠ ESP →
  stack_at (pop_reg r c) (p + 4) ∧ gpr (pop_reg r c) r = load32 m p ∧
  (∀ r', r' ≠ r → r' ≠ ESP → gpr (pop_reg r c) r' = gpr c r') ∧ (∀ s, seg (pop_reg r c) s = seg c s).
Proof using Hm.
  intros Hs Hw Hr. destruct (drop_at c p 1 Hs Hw) as ((A & B) & C & D). destruct Hs as [Hp Hc]. unfold pop_reg, top. rewrite Hp, Hc.
  split; [split; [by rewrite gpr_set_reg, decide_False|done]|]. split; [|split; [|done]].
  - rewrite gpr_set_reg, decide_True by done. apply u32_small, load32_range, Hm.
  - intros r' H1 H2. rewrite gpr_set_reg, decide_False by done. by apply C.
Qed.

Lemma pop_seg_at c p s : stack_at c p → word (p + 4) →
  stack_at (pop_seg s c) (p + 4) ∧ seg (pop_seg s c) s = load32 m p mod 65536 ∧
  (∀ s', s' ≠ s → seg (pop_seg s c) s' = seg c s') ∧ (∀ r, r ≠ ESP → gpr (pop_seg s c) r = gpr c r).
Proof using.
  intros Hs Hw. destruct (drop_at c p 1 Hs Hw) as ((A & B) & C & D). destruct Hs as [Hp Hc]. unfold pop_seg, top. rewrite Hp, Hc.
  split; [split; [exact A | exact B]|]. split; [by rewrite seg_set_seg, decide_True|]. split; [|exact C].
  intros s' Hs'. rewrite seg_set_seg, decide_False by done. apply D.
Qed.

(** [popal] and the four segment registers. *)
Lemma popal_at c p : stack_at c p → word p → word (p + 32) →
  stack_at (popal c) (p + 32) ∧ (∀ s, seg (popal c) s = seg c s) ∧
  gpr (popal c) EDI = load32 m p ∧ gpr (popal c) ESI = load32 m (p + 4) ∧ gpr (popal c) EBP = load32 m (p + 8) ∧
  gpr (popal c) EBX = load32 m (p + 16) ∧ gpr (popal c) EDX = load32 m (p + 20) ∧ gpr (popal c) ECX = load32 m (p + 24) ∧
  gpr (popal c) EAX = load32 m (p + 28).
Proof using Hm.
  intros Hs H0 Hw. unfold word in *.
  destruct (pop_reg_at c p EDI Hs) as (S1 & A1 & B1 & C1); [unfold word; lia | done |]. set (c1 := pop_reg EDI c) in *.
  destruct (pop_reg_at c1 _ ESI S1) as (S2 & A2 & B2 & C2); [unfold word; lia | done |]. set (c2 := pop_reg ESI c1) in *.
  destruct (pop_reg_at c2 _ EBP S2) as (S3 & A3 & B3 & C3); [unfold word; lia | done |]. set (c3 := pop_reg EBP c2) in *.
  destruct (drop_at c3 _ 1 S3) as (S4 & B4 & C4); [unfold word; lia |]. set (c4 := drop_words 1 c3) in *.
  destruct (pop_reg_at c4 _ EBX S4) as (S5 & A5 & B5 & C5); [unfold word; lia | done |]. set (c5 := pop_reg EBX c4) in *.
  destruct (pop_reg_at c5 _ EDX S5) as (S6 & A6 & B6 & C6); [unfold word; lia | done |]. set (c6 := pop_reg EDX c5) in *.
  destruct (pop_reg_at c6 _ ECX S6) as (S7 & A7 & B7 & C7); [unfold word; lia | done |]. set (c7 := pop_reg ECX c6) in *.
  destruct (pop_reg_at c7 _ EAX S7) as (S8 & A8 & B8 & C8); [unfold word; lia | done |].
  change (popal c) with (pop_reg EAX c7). set (c8 := pop_reg EAX c7) in *. clearbody c8 c7 c6 c5 c4 c3 c2 c1.
  split; [by replace (p + 32) with (p + 4 + 4 + 4 + 4 * 1 + 4 + 4 + 4 + 4) by lia|]. split; [intros s; by rewrite C8, C7, C6, C5, C4, C3, C2, C1|].
  rewrite A8, (B8 ECX), A7, (B8 EDX), (B7 EDX), A6, (B8 EBX), (B7 EBX), (B6 EBX), A5 by done.
  rewrite (B8 EBP), (B7 EBP), (B6 EBP), (B5 EBP), (B4 EBP), A3 by done.
  rewrite (B8 ESI), (B7 ESI), (B6 ESI), (B5 ESI), (B4 ESI), (B3 ESI), A2 by done.
  rewrite (B8 EDI), (B7 EDI), (B6 EDI), (B5 EDI), (B4 EDI), (B3 EDI), (B2 EDI), A1 by done.
  split_and!; (done || (f_equal; lia)).
Qed.

Definition pop_segs (c : x86) : x86 := pop_seg DS (pop_seg ES (pop_seg FS (pop_seg GS c))).

Lemma pop_segs_at c p : stack_at c p → word p → word (p + 16) →
  let c' := pop_segs c in
  stack_at c' (p + 16) ∧ (∀ r, r ≠ ESP → gpr c' r = gpr c r) ∧ seg c' CS = seg c CS ∧ seg c' SS = seg c SS ∧
  seg c' GS = load32 m p mod 65536 ∧ seg c' FS = load32 m (p + 4) mod 65536 ∧ seg c' ES = load32 m (p + 8) mod 65536 ∧
  seg c' DS = load32 m (p + 12) mod 65536.
Proof using.
  intros Hs H0 Hw. cbv zeta. unfold pop_segs, word in *.
  destruct (pop_seg_at c p GS Hs) as (S1 & A1 & B1 & C1); [unfold word; lia |]. set (c1 := pop_seg GS c) in *.
  destruct (pop_seg_at c1 _ FS S1) as (S2 & A2 & B2 & C2); [unfold word; lia |]. set (c2 := pop_seg FS c1) in *.
  destruct (pop_seg_at c2 _ ES S2) as (S3 & A3 & B3 & C3); [unfold word; lia |]. set (c3 := pop_seg ES c2) in *.
  destruct (pop_seg_at c3 _ DS S3) as (S4 & A4 & B4 & C4); [unfold word; lia |]. set (c4 := pop_seg DS c3) in *.
  clearbody c4 c3 c2 c1. split; [by replace (p + 16) with (p + 4 + 4 + 4 + 4) by lia|].
  split; [intros r Hr; by rewrite C4, C3, C2, C1|].
  rewrite A4, (B4 ES), A3, (B4 FS), (B3 FS), A2, (B4 GS), (B3 GS), (B2 GS), A1 by done.
  split_and!; try (by rewrite B4, B3, B2, B1); do 2 f_equal; lia.
Qed.
End pops.

(** ** Running code *)

Section spec.
Variable ccall : cfun → M x86 ().
Variable task : tss.
Variable idt : Z → gate.
Notation run := (run ccall task idt).

Lemma run_app code1 code2 c : run (code1 ++ code2) c = (run code1;; run code2) c.
Proof.
  revert c. induction code1 as [|i code1 IH]; intros c; [done|]. cbn [app Asm.run]. rewrite bind_assoc.
  unfold mbind, M_bind. destruct (step ccall task idt i c); [apply IH | done | done].
Qed.

(** [alltraps] up to the call of [trap]. *)
Definition alltraps_head : list instr :=
  [PushS DS; PushS ES; PushS FS; PushS GS; Pushal; MovwI (Z.shiftl SEG_KDATA 3) EAX; MovwS EAX DS; MovwS EAX ES; PushR ESP].

Lemma alltraps_split : alltraps = alltraps_head ++ [Call Ctrap; AddI 4 ESP].
Proof. reflexivity. Qed.

(** The words pushed by [vector] and [alltraps]. *)
Definition error_words (n : Z) (err : option Z) : list Z := match err with Some e => [e] | None => [] end ++ (if has_err n then [] else [0]).
Definition register_words (c : x86) (e : Z) : list Z :=
  [seg c DS; seg c ES; seg c FS; seg c GS; gpr c EAX; gpr c ECX; gpr c EDX; gpr c EBX; e; gpr c EBP; gpr c ESI; gpr c EDI].

Lemma vector_ok c a n : word n → word (gpr c ESP) → 8 ≤ gpr c ESP →
  ∃ c', run (vector a n) c = Ok () c' ∧ pushed c c' ((if has_err n then [] else [0]) ++ [n]).
Proof.
  intros Hn He Hr. unfold vector. destruct (has_err n); eexists; (split; [reflexivity|]).
  - destruct (pushed_one c n) as [A B C D E F G]; [done | lia | done |]. by split.
  - destruct (pushes_ok [0; n] c) as [A B C D E F G]; [all_words | done | simpl; lia |]. by split.
Qed.

Definition frame_pushed (c : x86) : x86 := pushal (pushes [seg c DS; seg c ES; seg c FS; seg c GS] c).
Definition kernel_data (c : x86) : x86 :=
  let c := set_reg EAX (gpr c EAX / 65536 * 65536 + Z.shiftl SEG_KDATA 3 mod 65536) c in
  let c := set_seg DS (gpr c EAX) c in set_seg ES (gpr c EAX) c.

Lemma alltraps_head_run c : run alltraps_head c = (let c := kernel_data (frame_pushed c) in Ok () (push (gpr c ESP) c)).
Proof. unfold alltraps_head. cbn [Asm.run step]. rewrite !bind_modify, !seg_push. done. Qed.

Lemma frame_pushed_ok c : regs_ok c → 48 ≤ gpr c ESP → pushed c (frame_pushed c) (register_words c (gpr c ESP - 16)).
Proof.
  intros [Hg Hs Hm] He. pose proof (Hg ESP) as He'. unfold frame_pushed. set (e := gpr c ESP) in *.
  set (c1 := pushes _ c). assert (pushed c c1 [seg c DS; seg c ES; seg c FS; seg c GS]) as Hp1.
  { apply pushes_ok; [all_words; apply half_word, Hs | done | simpl; fold e; lia]. }
  clearbody c1. pose proof (pd_esp _ _ _ Hp1) as A1. pose proof (pd_gpr _ _ _ Hp1) as B1. fold e in A1. change (4 * Z.of_nat (length _)) with 16 in A1.
  unfold pushal. rewrite A1, !B1 by done. apply (pushed_app _ c1 _ [_; _; _; _]); [done|].
  apply pushes_ok; [all_words; apply Hg | rewrite A1; unfold word in *; lia | rewrite A1; simpl; lia].
Qed.

Lemma kernel_data_ok c : word (gpr c EAX) →
  seg (kernel_data c) DS = 16 ∧ seg (kernel_data c) ES = 16 ∧ (∀ s, s ≠ DS → s ≠ ES → seg (kernel_data c) s = seg c s) ∧
  (∀ r, r ≠ EAX → gpr (kernel_data c) r = gpr c r) ∧ eflags (kernel_data c) = eflags c ∧ x_mem (kernel_data c) = x_mem c.
Proof.
  intros Ha. unfold kernel_data. set (ax := gpr c EAX / 65536 * 65536 + Z.shiftl SEG_KDATA 3 mod 65536).
  assert (u32 ax mod 65536 = 16) as Eax.
  { unfold ax. change (Z.shiftl SEG_KDATA 3 mod 65536) with 16. unfold word in Ha. rewrite u32_small by zmod. zmod. }
  split; [exact Eax|]. split; [exact Eax|]. split; [|split; [|done]].
  - intros s H1 H2. by rewrite !seg_set_seg, !decide_False.
  - intros r Hr. by rewrite !gpr_set_seg, gpr_set_reg, decide_False.
Qed.

(** The rest of the frame, and the data segments of the kernel. *)
Lemma alltraps_head_ok c : regs_ok c → 52 ≤ gpr c ESP →
  ∃ c', run alltraps_head c = Ok () c' ∧ gpr c' ESP = gpr c ESP - 52 ∧ load32 (x_mem c') (gpr c ESP - 52) = gpr c ESP - 48 ∧
    seg c' DS = 16 ∧ seg c' ES = 16 ∧ (∀ s, s ≠ DS → s ≠ ES → seg c' s = seg c s) ∧ eflags c' = eflags c ∧ wf_mem (x_mem c') ∧
    (∀ x, x < gpr c ESP - 52 ∨ gpr c ESP ≤ x → x_mem c' x = x_mem c x) ∧
    (∀ k w, register_words c (gpr c ESP - 16) !! k = Some w → load32 (x_mem c') (gpr c ESP - 4 * (Z.of_nat k + 1)) = w).
Proof.
  intros Hok He. pose proof (ro_gpr _ Hok) as Hg. pose proof (Hg ESP) as He'.
  pose proof (frame_pushed_ok c Hok ltac:(lia)) as Hp. rewrite alltraps_head_run. set (e := gpr c ESP) in *. set (c2 := frame_pushed c) in *. clearbody c2.
  pose proof (pd_esp _ _ _ Hp) as A2. fold e in A2. change (4 * Z.of_nat (length _)) with 48 in A2.
  destruct (kernel_data_ok c2) as (K1 & K2 & K3 & K4 & K5 & K6); [rewrite (pd_gpr _ _ _ Hp) by done; apply Hg|].
  set (c3 := kernel_data c2) in *. clearbody c3. cbv zeta. rewrite (K4 ESP), A2 by done. assert (gpr c3 ESP = e - 48) as A3 by (by rewrite K4, A2).
  assert (word (e - 48)) as Hw by (unfold word in *; lia).
  destruct (pushed_one c3 (e - 48)) as [A4 B4 C4 F4 W4 X4 M4]; [done | lia | by rewrite A3 |]. rewrite A3 in *. cbn [length] in *.
  set (c4 := push (e - 48) c3) in *. clearbody c4. exists c4. split; [done|]. split; [lia|].
  split; [rewrite <- (W4 0%nat (e - 48) eq_refl); f_equal; lia|]. split; [congruence|]. split; [congruence|].
  split; [intros s H1 H2; by rewrite C4, K3, (pd_seg _ _ _ Hp)|]. split; [rewrite F4, K5; apply Hp|].
  split; [apply M4; rewrite K6; apply (pd_wf _ _ _ Hp), Hok|]. split.
  - intros x Hx. rewrite X4, K6 by lia. apply (pd_frame _ _ _ Hp). fold e. change (4 * Z.of_nat (length _)) with 48. lia.
  - intros k w Hk. rewrite <- (pd_word _ _ _ Hp k w Hk). fold e. apply load32_ext. intros x Hx. rewrite X4, K6; [done|].
    apply lookup_lt_Some in Hk. cbn [register_words length] in Hk. lia.
Qed.

(** ** Entering the kernel *)

(** The words [ws], pushed from the address [e] down. *)
Definition stacked (m : mem) (e : Z) (ws : list Z) : Prop :=
  ∀ k w, ws !! k = Some w → load32 m (e - 4 * (Z.of_nat k + 1)) = w.

Lemma stacked_app m m' e ws1 ws2 :
  stacked m e ws1 → stacked m' (e - 4 * Z.of_nat (length ws1)) ws2 → (∀ x, e - 4 * Z.of_nat (length ws1) ≤ x → m' x = m x) →
  stacked m' e (ws1 ++ ws2).
Proof.
  intros H1 H2 Hm k w [Hk|[Hl Hk]]%lookup_app_Some.
  - rewrite <- (H1 k w Hk). apply load32_ext. intros x Hx. apply lookup_lt_Some in Hk. apply Hm. lia.
  - rewrite <- (H2 _ w Hk). f_equal. lia.
Qed.

Definition from_user (c : x86) : bool := 0 <? cpl (seg c CS).
Definition entry_stack (c : x86) : Z := if from_user c then ts_esp0 task else gpr c ESP.
Definition outer_words (c : x86) : list Z := if from_user c then [seg c SS; gpr c ESP] else [].
Definition frame_size (c : x86) : Z := if from_user c then 76 else 68.
Definition frame_of (c : x86) (n e : Z) : list Z :=
  outer_words c ++ [eflags c; seg c CS; eip c; e; n] ++ register_words c (entry_stack c - frame_size c + 32).

(** The processor gives an error code exactly for the vectors that expect
    one. *)
Definition err_code (n e : Z) : option Z := if has_err n then Some e else None.
Definition err_word (n e : Z) : Z := if has_err n then e else 0.

(** After the processor has delivered the interrupt. *)
Record delivered (c c' : x86) (g : gate) (ws : list Z) : Prop := {
  dl_ok : regs_ok c';
  dl_esp : gpr c' ESP = entry_stack c - 4 * Z.of_nat (length ws);
  dl_gpr r : r ≠ ESP → gpr c' r = gpr c r;
  dl_cs : seg c' CS = g_sel g mod 65536;
  dl_seg s : s ≠ CS → s ≠ SS → seg c' s = seg c s;
  dl_ss : from_user c = false → seg c' SS = seg c SS;
  dl_flags : eflags c' = gate_flags g (eflags c);
  dl_eip : eip c' = g_off g;
  dl_words : stacked (x_mem c') (entry_stack c) ws;
  dl_frame x : x < entry_stack c - 4 * Z.of_nat (length ws) ∨ entry_stack c ≤ x → x_mem c' x = x_mem c x
}.

Lemma deliver_ok g err c :
  x86_ok c → word (entry_stack c) → 24 ≤ entry_stack c → (∀ e, err = Some e → word e) →
  delivered c (deliver task g err c) g (outer_words c ++ [eflags c; seg c CS; eip c] ++ match err with Some e => [e] | None => [] end).
Proof.
  intros ([Hg Hs Hm] & Hip & Hfl) He Hr Herr. unfold deliver. fold (from_user c).
  set (c0 := if from_user c then set_seg SS (ts_ss0 task) (set_reg ESP (ts_esp0 task) c) else c).
  set (c2 := pushes _ _). set (ws := outer_words c ++ _).
  assert (from_user c = false → seg c0 SS = seg c SS) as U0 by (unfold c0; by intros ->).
  assert (gpr c0 ESP = entry_stack c) as E0.
  { unfold c0, entry_stack in *. destruct (from_user c); [apply u32_small, He | done]. }
  assert ((∀ r, r ≠ ESP → gpr c0 r = gpr c r) ∧ (∀ s, s ≠ SS → seg c0 s = seg c s) ∧ half (seg c0 SS) ∧ x_mem c0 = x_mem c) as (G0 & S0 & SS0 & M0).
  { unfold c0. destruct (from_user c); [|by split_and!]. split; [|split; [|split; [|done]]].
    - intros r Hr'. by rewrite gpr_set_seg, gpr_set_reg, decide_False.
    - intros s Hs'. by rewrite seg_set_seg, decide_False.
    - rewrite seg_set_seg, decide_True by done. apply Z.mod_pos_bound. lia. }
  assert (Forall word ws ∧ (length ws ≤ 6)%nat) as [Hws Hlen].
  { unfold ws, outer_words. pose proof (half_word _ (Hs SS)). pose proof (half_word _ (Hs CS)). pose proof (Hg ESP).
    destruct (from_user c), err as [e|]; simpl; (split; [|lia]); repeat (apply Forall_cons; split); try done; try (by apply Herr); by apply Forall_nil. }
  assert (pushed c0 c2 ws) as [A B C F W X M].
  { replace c2 with (pushes ws c0); [apply pushes_ok; [done | by rewrite E0 | rewrite E0; lia]|].
    unfold ws, c2, c0, outer_words. destruct (from_user c); [|done]. unfold pushes. by rewrite !fold_left_app. }
  rewrite E0 in *. clearbody c0 c2 ws. split.
  - split.
    + intros r. change (word (gpr c2 r)). destruct (decide (r = ESP)) as [->|Hr']; [rewrite A; unfold word in *; lia | rewrite B, G0 by done; apply Hg].
    + intros s. change (half (seg (set_seg CS (g_sel g) c2) s)). rewrite seg_set_seg. case_decide; [apply Z.mod_pos_bound; lia|].
      rewrite C. destruct (decide (s = SS)) as [->|]; [done | rewrite S0 by done; apply Hs].
    + apply M. by rewrite M0.
  - exact A.
  - intros r Hr'. by rewrite <- G0, <- B.
  - done.
  - intros s H1 H2. change (seg (set_seg CS (g_sel g) c2) s = seg c s). rewrite seg_set_seg, decide_False, C, S0 by done. done.
  - intros Hu. change (seg c2 SS = seg c SS). by rewrite C, U0.
  - done.
  - done.
  - exact W.
  - intros x Hx. rewrite <- M0. by apply X.
Qed.

(** The state in which [trap] is called. *)
Record in_trap (c c1 : x86) (g : gate) (n e : Z) : Prop := {
  it_esp : gpr c1 ESP = entry_stack c - frame_size c - 4;
  it_arg : load32 (x_mem c1) (gpr c1 ESP) = entry_stack c - frame_size c;
  it_cs : seg c1 CS = g_sel g mod 65536;
  it_ds : seg c1 DS = 16 ∧ seg c1 ES = 16;
  it_ss : from_user c = false → seg c1 SS = seg c SS;
  it_flags : eflags c1 = gate_flags g (eflags c);
  it_words : stacked (x_mem c1) (entry_stack c) (frame_of c n e);
  it_frame x : x < entry_stack c - frame_size c - 4 ∨ entry_stack c ≤ x → x_mem c1 x = x_mem c x;
  it_wf : wf_mem (x_mem c1)
}.

Lemma length_frame c n e : 4 * Z.of_nat (length (frame_of c n e)) = frame_size c.
Proof. unfold frame_of, outer_words, frame_size. by destruct (from_user c). Qed.

Lemma entry_ok g a n e c :
  x86_ok c → word (entry_stack c) → 80 ≤ entry_stack c → word e → 0 ≤ n < 256 →
  ∃ c1, run (vector a n ++ alltraps_head) (deliver task g (err_code n e) c) = Ok () c1 ∧ in_trap c c1 g n (err_word n e).
Proof.
  intros Hok He Hr Hwe Hn. destruct (deliver_ok g (err_code n e) c Hok He ltac:(lia)) as [D1 D2 D3 D4 D5 DS D6 D7 D8 D9].
  { intros e'. unfold err_code. destruct (has_err n); [by intros [= <-] | done]. }
  set (cd := deliver task g (err_code n e) c) in *. clearbody cd. set (ws := outer_words c ++ _) in *.
  destruct (vector_ok cd a n) as (cv & Ev & [A B C F W X M]); [unfold word; lia | apply D1 | |].
  { rewrite D2. unfold ws, outer_words, err_code. destruct (from_user c), (has_err n); simpl; lia. }
  set (wv := (if has_err n then [] else [0]) ++ [n]) in *.
  assert (ws ++ wv = outer_words c ++ [eflags c; seg c CS; eip c; err_word n e; n]) as Ew.
  { unfold ws, wv, err_code, err_word. rewrite <- app_assoc. f_equal. by destruct (has_err n). }
  assert (4 * Z.of_nat (length (ws ++ wv)) = frame_size c - 48) as Hl.
  { rewrite Ew. unfold outer_words, frame_size. by destruct (from_user c). }
  assert (gpr cv ESP = entry_stack c - frame_size c + 48) as Hev by (rewrite A, D2; rewrite length_app in Hl; lia).
  assert (68 ≤ frame_size c ≤ 76) as Hfs by (unfold frame_size; destruct (from_user c); lia).
  assert (regs_ok cv) as Hokv.
  { split; [|intros s; rewrite C; apply D1 | apply M, D1]. intros r. destruct (decide (r = ESP)) as [->|Hr']; [rewrite Hev; unfold word in *; lia | rewrite B by done; apply D1]. }
  destruct (alltraps_head_ok cv Hokv) as (c1 & E1 & H1 & H2 & H3 & H4 & H5 & H6 & H7 & H8 & H9); [rewrite Hev; lia|]. rewrite Hev in *.
  exists c1. split; [rewrite run_app, (bind_ok _ _ _ _ _ Ev); exact E1|]. split.
  - lia.
  - rewrite H1. etransitivity; [exact H2 | lia].
  - rewrite H5, C, D4 by done. done.
  - done.
  - intros Hu. rewrite H5, C by done. by apply DS.
  - by rewrite H6, F, D6.
  - unfold frame_of. rewrite app_assoc, <- Ew. apply (stacked_app (x_mem cv)).
    + apply (stacked_app (x_mem cd)); [exact D8 | intros k w Hk; rewrite <- D2; by apply W | intros x Hx; apply X; right; by rewrite D2].
    + rewrite Hl. intros k w Hk. rewrite <- (H9 k w); [f_equal; lia|]. rewrite <- Hk. unfold register_words.
      rewrite !C, !B, !D3, !D5 by done. do 2 f_equal. do 8 f_equal. f_equal. lia.
    + intros x Hx. apply H8. lia.
  - intros x Hx. rewrite length_app in Hl. rewrite H8, X, D9 by lia. done.
  - done.
Qed.

(** ** Leaving the kernel *)

Definition trapret_tail : list instr := [AddI 4 ESP; Popal; PopS GS; PopS FS; PopS ES; PopS DS; AddI 8 ESP; Iret].

Lemma trapret_split : trapret = [PushR ESP; Call Chandle_signals] ++ trapret_tail.
Proof. reflexivity. Qed.

(** [c'] runs on from the frame [t] at the address [a]. *)
Record resumed (c c' : x86) (a : Z) (t : trapframe) : Prop := {
  rs_edi : gpr c' EDI = tf_edi t; rs_esi : gpr c' ESI = tf_esi t; rs_ebp : gpr c' EBP = tf_ebp t; rs_ebx : gpr c' EBX = tf_ebx t;
  rs_edx : gpr c' EDX = tf_edx t; rs_ecx : gpr c' ECX = tf_ecx t; rs_eax : gpr c' EAX = tf_eax t;
  rs_gs : seg c' GS = tf_gs t; rs_fs : seg c' FS = tf_fs t; rs_es : seg c' ES = tf_es t; rs_ds : seg c' DS = tf_ds t;
  rs_eip : eip c' = tf_eip t; rs_cs : seg c' CS = tf_cs t; rs_flags : eflags c' = tf_eflags t;
  rs_stack : if 0 <? cpl (tf_cs t) then gpr c' ESP = tf_esp t ∧ seg c' SS = tf_ss t else gpr c' ESP = a + 68 ∧ seg c' SS = seg c SS;
  rs_mem : x_mem c' = x_mem c
}.

Lemma iret_at m c p : wf_mem m → stack_at m c p → word p → word (p + 20) → cpl (seg c CS) = 0 →
  let w k := load32 m (p + 4 * k) in
  eip (iret c) = w 0 ∧ seg (iret c) CS = w 1 mod 65536 ∧ eflags (iret c) = w 2 ∧ x_mem (iret c) = m ∧
  (∀ r, r ≠ ESP → gpr (iret c) r = gpr c r) ∧ (∀ s, s ≠ CS → s ≠ SS → seg (iret c) s = seg c s) ∧
  if 0 <? cpl (w 1 mod 65536) then gpr (iret c) ESP = w 3 ∧ seg (iret c) SS = w 4 mod 65536
  else gpr (iret c) ESP = p + 12 ∧ seg (iret c) SS = seg c SS.
Proof.
  intros Hm Hs Hp Hw Hcpl w. unfold word in *. destruct (drop_at m c p 3 Hs) as ([D1 D2] & D3 & D4); [unfold word; lia|]. destruct Hs as [Hsp Hsm].
  unfold iret. rewrite Hcpl, Hsp, Hsm. fold (w 0) (w 1) (w 2) (w 3) (w 4).
  set (c1 := set_seg CS (w 1) _). assert (eip c1 = w 0 ∧ eflags c1 = w 2 ∧ x_mem c1 = m ∧ seg c1 CS = w 1 mod 65536) as (E1 & E2 & E3 & E4) by done.
  assert (gpr c1 ESP = p + 12) as E5 by exact D1.
  assert (∀ r, r ≠ ESP → gpr c1 r = gpr c r) as E6 by exact D3.
  assert (∀ s, s ≠ CS → seg c1 s = seg c s) as E7.
  { intros s Hs. unfold c1. rewrite seg_set_seg, decide_False by done. apply D4. }
  clearbody c1. destruct (0 <? cpl (w 1 mod 65536)).
  - split; [done|]. split; [exact E4|]. split; [done|]. split; [done|]. split; [|split; [|split]].
    + intros r Hr. rewrite gpr_set_seg, gpr_set_reg, decide_False by done. by apply E6.
    + intros s H1 H2. rewrite seg_set_seg, decide_False by done. by apply E7.
    + rewrite gpr_set_seg, gpr_set_reg, decide_True by done. apply u32_small, load32_range, Hm.
    + by rewrite seg_set_seg, decide_True.
  - split; [done|]. split; [done|]. split; [done|]. split; [done|]. split; [done|]. split; [intros s H1 _; by apply E7|]. split; [done | by apply E7].
Qed.

Definition add_esp (n : Z) (c : x86) : x86 := set_reg ESP (gpr c ESP + n) c.

Lemma trapret_tail_run c : run trapret_tail c = Ok () (iret (add_esp 8 (pop_segs (popal (add_esp 4 c))))).
Proof. unfold trapret_tail. cbn [Asm.run step]. rewrite !bind_modify. unfold pop_segs, add_esp. done. Qed.

Lemma add_esp_at m c p n : x_mem c = m → gpr c ESP + n = p → word p →
  stack_at m (add_esp n c) p ∧ (∀ r, r ≠ ESP → gpr (add_esp n c) r = gpr c r) ∧ ∀ s, seg (add_esp n c) s = seg c s.
Proof.
  intros Hm Hp Hw. unfold word in Hw. split; [split; [|done] | split; [|done]].
  - unfold add_esp. by rewrite gpr_set_reg, decide_True, Hp, u32_small.
  - intros r Hr. unfold add_esp. by rewrite gpr_set_reg, decide_False.
Qed.

Lemma trapret_tail_ok c a :
  gpr c ESP = a - 4 → word a → word (a + 76) → wf_mem (x_mem c) → cpl (seg c CS) = 0 →
  ∃ c', run trapret_tail c = Ok () c' ∧ resumed c c' a (load_tf (x_mem c) a).
Proof.
  intros He Ha Hw Hm Hcpl. rewrite trapret_tail_run. eexists. split; [reflexivity|]. unfold word in *.
  set (m := x_mem c) in *. destruct (add_esp_at m c a 4 eq_refl) as (S0 & _ & Sg0); [lia | done |]. set (c0 := add_esp 4 c) in *. clearbody c0.
  destruct (popal_at m Hm c0 a S0) as (S1 & Sg1 & P1 & P2 & P3 & P4 & P5 & P6 & P7); [unfold word; lia .. |].
  set (c1 := popal c0) in *. clearbody c1. destruct (pop_segs_at m c1 (a + 32) S1) as ([E2 M2] & G2 & CS2 & SS2 & Q1 & Q2 & Q3 & Q4); [unfold word; lia .. |].
  set (c2 := pop_segs c1) in *. clearbody c2. rewrite Sg1, Sg0 in CS2, SS2.
  destruct (add_esp_at m c2 (a + 56) 8 M2) as ([E3 M3] & G3 & Sg3); [lia | unfold word; lia |]. set (c3 := add_esp 8 c2) in *. clearbody c3.
  destruct (iret_at m c3 (a + 56) Hm (conj E3 M3)) as (I1 & I2 & I3 & I4 & I5 & I6 & I7); [unfold word; lia | unfold word; lia | by rewrite Sg3, CS2 |].
  unfold load_tf. rewrite <- !Z.add_assoc in *. split; cbn [tf_edi tf_esi tf_ebp tf_ebx tf_edx tf_ecx tf_eax tf_gs tf_fs tf_es tf_ds tf_eip tf_cs tf_eflags tf_esp tf_ss];
    rewrite ?I1, ?I2, ?I3, ?I4, ?I5, ?I6, ?Sg3, ?G3, ?G2 by done; try done.
  - rewrite P1. f_equal. lia.
  - destruct (0 <? cpl (load32 m (a + 4 * 15) mod 65536)) eqn:Eq; change (56 + 4 * 1) with (4 * 15) in I7; rewrite Eq in I7; destruct I7 as [I7 I8]; rewrite I7, I8.
    + done.
    + rewrite Sg3, SS2. split; [lia | done].
Qed.

(** ** The whole path *)

(** The frame as [struct trapframe]; in the kernel, [esp] and [ss] are not
    part of it. *)
Definition frame_tf (c : x86) (n e : Z) (m : mem) : trapframe :=
  let b := entry_stack c in
  Trapframe (gpr c EDI) (gpr c ESI) (gpr c EBP) (b - frame_size c + 32) (gpr c EBX) (gpr c EDX) (gpr c ECX) (gpr c EAX)
    (seg c GS) 0 (seg c FS) 0 (seg c ES) 0 (seg c DS) 0 n e (eip c) (seg c CS) 0 (eflags c)
    (if from_user c then gpr c ESP else load32 m b) (if from_user c then seg c SS else load32 m (b + 4) mod 65536)
    (if from_user c then 0 else load32 m (b + 4) / 65536).

Lemma frame_loads c n e m : regs_ok c → stacked m (entry_stack c) (frame_of c n e) →
  load_tf m (entry_stack c - frame_size c) = frame_tf c n e m.
Proof.
  intros [_ Hs _] Hst. set (b := entry_stack c) in *. set (a := b - frame_size c).
  assert (∀ k w, (k <=? 16) = true → (0 <=? k) = true → frame_of c n e !! Z.to_nat (frame_size c / 4 - 1 - k) = Some w → load32 m (a + 4 * k) = w) as E.
  { intros k w Hk1%Z.leb_le Hk2%Z.leb_le Hk. rewrite <- (Hst _ _ Hk). f_equal. unfold a, frame_size in *. destruct (from_user c); zmod. }
  assert (from_user c = true → load32 m (a + 4 * 17) = gpr c ESP ∧ load32 m (a + 4 * 18) = seg c SS) as Eu.
  { intros Hu. unfold frame_of, outer_words, a, frame_size in *. rewrite Hu in *. split; [rewrite <- (Hst 1%nat _ eq_refl) | rewrite <- (Hst 0%nat _ eq_refl)]; f_equal; lia. }
  assert (∀ s, seg c s mod 65536 = seg c s ∧ seg c s / 65536 = 0) as Hh.
  { intros s. specialize (Hs s). unfold half in Hs. split; [apply Z.mod_small | apply Z.div_small]; lia. }
  unfold load_tf, frame_tf. fold b. fold a. unfold frame_of, outer_words, frame_size, register_words in E.
  destruct (from_user c) eqn:Hu.
  - destruct (Eu eq_refl) as [-> ->].
    repeat match goal with |- context [load32 m (a + 4 * ?k)] => rewrite (E k _ eq_refl eq_refl eq_refl) end.
    rewrite !(proj1 (Hh _)), !(proj2 (Hh _)). unfold a, frame_size. by rewrite Hu.
  - repeat match goal with |- context [load32 m (a + 4 * ?k)] => rewrite (E k _ eq_refl eq_refl eq_refl) end.
    rewrite !(proj1 (Hh _)), !(proj2 (Hh _)). unfold a, frame_size. rewrite Hu. f_equal; do 2 f_equal; try lia.
Qed.

(** What the C compiler's calling convention promises: the stack pointer and
    the segment registers are back. *)
Record returned (c c' : x86) : Prop := {
  re_esp : gpr c' ESP = gpr c ESP;
  re_seg s : seg c' s = seg c s;
  re_wf : wf_mem (x_mem c')
}.

(** All registers are as in [c]. *)
Definition same_regs (c c' : x86) : Prop :=
  (∀ r, gpr c' r = gpr c r) ∧ (∀ s, seg c' s = seg c s) ∧ eip c' = eip c ∧ eflags c' = eflags c.

Lemma resumed_same c c4 c' n e m :
  (from_user c = false → seg c4 SS = seg c SS) → resumed c4 c' (entry_stack c - frame_size c) (frame_tf c n e m) → same_regs c c'.
Proof.
  intros Hss [A1 A2 A3 A4 A5 A6 A7 B1 B2 B3 B4 C1 C2 C3 D M].
  cbn [frame_tf tf_edi tf_esi tf_ebp tf_ebx tf_edx tf_ecx tf_eax tf_gs tf_fs tf_es tf_ds tf_eip tf_cs tf_eflags tf_esp tf_ss] in *.
  fold (from_user c) in D. destruct (from_user c) eqn:Hu; destruct D as [D1 D2].
  - split; [intros []; congruence|]. split; [intros []; congruence | done].
  - unfold entry_stack, frame_size in D1. rewrite Hu in D1. split; [intros []; try congruence; lia|]. split; [|done].
    intros []; try congruence. by rewrite D2, Hss.
Qed.

Section roundtrip.
Variables (g : gate) (a n e : Z) (c : x86).
Hypotheses (Hok : x86_ok c) (He : 84 ≤ entry_stack c) (Hw : word (entry_stack c + 8)) (Hwe : word e) (Hn : 0 ≤ n < 256) (Hg : cpl (g_sel g mod 65536) = 0).
Let tfa := entry_stack c - frame_size c.

Lemma return_ok c1 c2 c4 :
  in_trap c c1 g n (err_word n e) → returned c1 c2 → returned (push tfa (add_esp 4 c2)) c4 →
  run (vector a n ++ alltraps_head) (deliver task g (err_code n e) c) = Ok () c1 →
  ccall Ctrap c1 = Ok () c2 → ccall Chandle_signals (push tfa (add_esp 4 c2)) = Ok () c4 →
  ∃ c', run (vector a n ++ alltraps ++ trapret) (deliver task g (err_code n e) c) = Ok () c' ∧
    resumed c4 c' tfa (load_tf (x_mem c4) tfa) ∧ (∀ s, seg c4 s = seg c1 s).
Proof.
  intros [T1 T2 T3 T4 TS T5 T6 T7 T8] [R1 R2 R3] [Q1 Q2 Q3] E0 E1 E2. fold tfa in T1, T2. unfold word in *.
  assert (68 ≤ frame_size c ≤ 76) as Hfs by (unfold frame_size; destruct (from_user c); lia). assert (8 ≤ tfa) as Ht8 by (unfold tfa; lia).
  destruct (add_esp_at (x_mem c2) c2 tfa 4 eq_refl) as ([E3 M3] & G3 & Sg3); [lia | unfold word, tfa; lia |].
  set (c3 := add_esp 4 c2) in *.
  assert (run (vector a n ++ alltraps ++ [PushR ESP; Call Chandle_signals]) (deliver task g (err_code n e) c) = Ok () c4) as Er.
  { rewrite alltraps_split, <- app_assoc, app_assoc, run_app, (bind_ok _ _ _ _ _ E0). cbn [app Asm.run step].
    rewrite (bind_ok _ _ _ _ _ E1). rewrite !bind_modify. change (set_reg ESP (gpr c2 ESP + 4) c2) with c3. rewrite E3, (bind_ok _ _ _ _ _ E2). done. }
  clearbody c3. destruct (pushed_one c3 tfa) as [P1 _ P3 _ _ _ _]; [unfold word, tfa; lia | lia | rewrite E3; unfold word, tfa; lia |]. cbn [length] in P1.
  assert (∀ s, seg c4 s = seg c1 s) as Hseg by (intros s; by rewrite Q2, P3, Sg3, R2).
  destruct (trapret_tail_ok c4 tfa) as (c' & Et & Hr); [lia | unfold word, tfa; lia | unfold word, tfa; lia | done | by rewrite Hseg, T3 |].
  exists c'. split; [|done]. rewrite trapret_split, !app_assoc, run_app, <- !app_assoc, (bind_ok _ _ _ _ _ Er). exact Et.
Qed.

(** C22: The way through the kernel. When the processor delivers interrupt or exception [n] to a
    program in user space or in the kernel, the entry in vectors.S and
    [alltraps] call [trap] in ring 0 with the kernel's data segments, with the
    flags of the gate and with a pointer to a [struct trapframe] that has the
    program's registers, [n] and the error code, and change nothing else in
    memory. When [trap] and [handle_signals] have returned, [trapret] loads
    every register from that frame as it is then; in particular, if they have
    left it alone, the program runs on with all its registers. *)
Theorem trap_roundtrip :
  ∃ c1, run (vector a n ++ alltraps_head) (deliver task g (err_code n e) c) = Ok () c1 ∧ wf_mem (x_mem c1) ∧
    gpr c1 ESP = tfa - 4 ∧ load32 (x_mem c1) (tfa - 4) = tfa ∧ load_tf (x_mem c1) tfa = frame_tf c n (err_word n e) (x_mem c) ∧
    cpl (seg c1 CS) = 0 ∧ seg c1 DS = 16 ∧ seg c1 ES = 16 ∧ eflags c1 = gate_flags g (eflags c) ∧
    (∀ x, x < tfa - 4 ∨ entry_stack c ≤ x → x_mem c1 x = x_mem c x) ∧
    ∀ c2 c4, ccall Ctrap c1 = Ok () c2 → returned c1 c2 →
      ccall Chandle_signals (push tfa (add_esp 4 c2)) = Ok () c4 → returned (push tfa (add_esp 4 c2)) c4 →
      ∃ c', run (vector a n ++ alltraps ++ trapret) (deliver task g (err_code n e) c) = Ok () c' ∧
        resumed c4 c' tfa (load_tf (x_mem c4) tfa) ∧
        (load_tf (x_mem c4) tfa = load_tf (x_mem c1) tfa → same_regs c c').
Proof.
  pose proof Hok as (Hro & _). unfold word in Hw.
  destruct (entry_ok g a n e c Hok) as (c1 & E1 & Hin); [unfold word; lia | lia | done | done |].
  exists c1. split; [done|]. pose proof Hin as [T1 T2 T3 T4 TS T5 T6 T7 T8]. fold tfa in T1, T2. split; [done|]. split; [done|]. rewrite T1 in T2. split; [exact T2|].
  assert (load_tf (x_mem c1) tfa = frame_tf c n (err_word n e) (x_mem c)) as El.
  { unfold tfa. rewrite (frame_loads c n (err_word n e)) by done. unfold frame_tf. destruct (from_user c) eqn:Hu; [done|].
    by rewrite !(load32_ext (x_mem c1) (x_mem c)) by (intros x Hx; apply T7; lia). }
  split; [exact El|]. split; [by rewrite T3|]. split; [apply T4|]. split; [apply T4|]. split; [done|]. split; [exact T7|].
  intros c2 c4 Et R1 Eh R2. destruct (return_ok c1 c2 c4 Hin R1 R2 E1 Et Eh) as (c' & Er & Hres & Hseg).
  exists c'. split; [done|]. split; [done|]. intros Hst. rewrite Hst, El in Hres. apply (resumed_same c c4 c' n (err_word n e) (x_mem c)); [|exact Hres].
  intros Hu. by rewrite Hseg, TS.
Qed.
End roundtrip.
End spec.

(** ** An example: a timer interrupt in user space *)

Definition user_x86 : x86 :=
  X86 (λ r, match r with ESP => 0x2ff0 | EAX => 7 | _ => 1 end) (λ s, match s with CS => 27 | _ => 35 end) 0x40 0x202 (λ _, 0).
Definition user_task : tss := Tss 0x80401000 16.
Definition no_call (f : cfun) : M x86 () := mret ().

Lemma user_x86_ok : x86_ok user_x86.
Proof. split; [split|split]; [intros []; by vm_compute | intros []; by vm_compute | intros x; by vm_compute | by vm_compute | by vm_compute]. Qed.

Lemma trap_roundtrip_witness :
  ∃ c', run no_call user_task (λ _, Gate true false 0 8 0) (vector 0 32 ++ alltraps ++ trapret) (deliver user_task (Gate true false 0 8 0) None user_x86) = Ok () c' ∧
    same_regs user_x86 c'.
Proof.
  destruct (trap_roundtrip no_call user_task (λ _, Gate true false 0 8 0) (Gate true false 0 8 0) 0 32 0 user_x86 user_x86_ok
    ltac:(by vm_compute) ltac:(by vm_compute) ltac:(by vm_compute) ltac:(lia) eq_refl) as (c1 & _ & Hwf & Hesp & _ & _ & _ & _ & _ & _ & _ & Hret).
  change (entry_stack user_task user_x86 - frame_size user_x86) with 0x80400fb4 in *.
  destruct (add_esp_at (x_mem c1) c1 0x80400fb4 4 eq_refl) as ([E3 M3] & _ & _); [lia | by vm_compute |].
  destruct (pushed_one (add_esp 4 c1) 0x80400fb4) as [P1 _ P3 _ _ P6 P7]; [by vm_compute | rewrite E3; lia | rewrite E3; by vm_compute |].
  destruct (Hret c1 (push 0x80400fb4 (add_esp 4 c1)) eq_refl (Build_returned c1 c1 eq_refl (λ _, eq_refl) Hwf) eq_refl
    (Build_returned _ _ eq_refl (λ _, eq_refl) (P7 ltac:(by rewrite M3)))) as (c' & E & _ & Hsame).
  exists c'. split; [exact E|]. apply Hsame. apply load_tf_ext. intros x Hx. rewrite P6, M3 by (rewrite E3; right; apply Hx). done.
Defined.
