(* ===== verification/AsmSwitch.v ===== *)
(** * Switching stacks (swtch.S)

    [swtch] saves a context on the stack it leaves and resumes the context it
    is given; switching back resumes the caller with its registers. *)
From stdpp Require Import functions.
From S2P Require Import Prelude Machine Proc Asm.

(** [struct context] at the address [a]. *)
Definition ctx_of (m : mem) (a : Z) : context :=
  Context (load32 m a) (load32 m (a + 4)) (load32 m (a + 8)) (load32 m (a + 12)) (load32 m (a + 16)).

Lemma ctx_of_ext m m' a : (∀ x, a ≤ x < a + 20 → m x = m' x) → ctx_of m a = ctx_of m' a.
Proof. intros H. unfold ctx_of. by rewrite !(load32_ext m m') by (intros; apply H; lia). Qed.

(** [c] runs in the context [k] with its stack at [e]. *)
Record runs_in (c : x86) (k : context) (e : Z) : Prop := {
  ri_edi : gpr c EDI = ctx_edi k; ri_esi : gpr c ESI = ctx_esi k; ri_ebx : gpr c EBX = ctx_ebx k; ri_ebp : gpr c EBP = ctx_ebp k;
  ri_eip : eip c = ctx_eip k; ri_esp : gpr c ESP = e
}.

Section switch.
Variable ccall : cfun → M x86 ().
Variable task : tss.
Variable idt : Z → gate.
Notation run := (run ccall task idt).

(** The arguments, and that the call does not overwrite what it reads. *)
Definition old_arg (c : x86) : Z := load32 (x_mem c) (gpr c ESP + 4).
Definition new_arg (c : x86) : Z := load32 (x_mem c) (gpr c ESP + 8).

Definition apart (a n b k : Z) : Prop := a + n ≤ b ∨ b + k ≤ a.

Record can_switch (c : x86) : Prop := {
  cs_ok : regs_ok c;
  cs_room : 16 ≤ gpr c ESP;
  cs_new : word (new_arg c + 20);
  cs_cell : apart (old_arg c) 4 (gpr c ESP - 16) 20;
  cs_ctx : apart (new_arg c) 20 (gpr c ESP - 16) 16 ∧ apart (new_arg c) 20 (old_arg c) 4
}.

(** The four registers pushed, and the cell. *)
Definition saved (c : x86) : x86 :=
  let c := set_reg EDX (new_arg c) (set_reg EAX (old_arg c) c) in
  let c := pushes [gpr c EBP; gpr c EBX; gpr c ESI; gpr c EDI] c in
  c <| x_mem := store32 (x_mem c) (gpr c EAX) (gpr c ESP) |>.

Definition restored (c : x86) : x86 :=
  let c := pop_reg EBP (pop_reg EBX (pop_reg ESI (pop_reg EDI (set_reg ESP (gpr c EDX) c)))) in
  let w := top c in (drop_words 1 c) <| eip := w |>.

Lemma gpr_push_other w c r : r ≠ ESP → gpr (push w c) r = gpr c r.
Proof. intros Hr. by rewrite gpr_push, decide_False. Qed.

Lemma swtch_run c : run swtch c = Ok () (restored (saved c)).
Proof.
  unfold swtch. cbn [Asm.run step]. rewrite !bind_modify, !gpr_push_other by done. unfold saved, restored. cbv zeta.
  change (gpr (set_reg EAX (load32 (x_mem c) (gpr c ESP + 4)) c) ESP) with (gpr c ESP).
  change (x_mem (set_reg EAX (load32 (x_mem c) (gpr c ESP + 4)) c)) with (x_mem c). fold (old_arg c) (new_arg c).
  set (c1 := set_reg EDX (new_arg c) (set_reg EAX (old_arg c) c)). cbn [pushes fold_left]. clearbody c1.
  set (c2 := push (gpr c1 EDI) _). assert (gpr c2 EAX = gpr c1 EAX) as -> by (unfold c2; by rewrite !gpr_push_other). clearbody c2. done.
Qed.

Lemma saved_ok c : can_switch c → let e := gpr c ESP in
  gpr (saved c) EDX = new_arg c ∧ wf_mem (x_mem (saved c)) ∧ (∀ s, seg (saved c) s = seg c s) ∧ eflags (saved c) = eflags c ∧
  ctx_of (x_mem (saved c)) (e - 16) = Context (gpr c EDI) (gpr c ESI) (gpr c EBX) (gpr c EBP) (load32 (x_mem c) e) ∧
  load32 (x_mem (saved c)) (old_arg c) = e - 16 ∧
  (∀ x, ¬ (e - 16 ≤ x < e) → ¬ (old_arg c ≤ x < old_arg c + 4) → x_mem (saved c) x = x_mem c x).
Proof.
  intros [[Hg Hs Hm] Hr Hn Hc [Hx1 Hx2]] e. pose proof (load32_range (x_mem c) (e + 4) Hm) as Ho. pose proof (load32_range (x_mem c) (e + 8) Hm) as Hn'.
  fold (old_arg c) in Ho. fold (new_arg c) in Hn'. unfold saved. set (c1 := set_reg EDX (new_arg c) (set_reg EAX (old_arg c) c)).
  assert (gpr c1 EDX = new_arg c) as E1 by (apply u32_small; exact Hn'). assert (gpr c1 EAX = old_arg c) as E2 by (apply u32_small; exact Ho).
  assert (gpr c1 ESP = e) as E3 by done. assert (∀ r, r ≠ EAX → r ≠ EDX → gpr c1 r = gpr c r) as E4.
  { intros r H1 H2. unfold c1. by rewrite !gpr_set_reg, !decide_False. }
  assert ((∀ s, seg c1 s = seg c s) ∧ eflags c1 = eflags c ∧ x_mem c1 = x_mem c) as (E5 & E6 & E7) by done. clearbody c1. cbv zeta.
  rewrite !(E4 EBP), !(E4 EBX), !(E4 ESI), !(E4 EDI) by done. pose proof (Hg ESP) as He. fold e in He, Hr, Hc, Hx1. unfold word, apart in *.
  destruct (pushes_ok [gpr c EBP; gpr c EBX; gpr c ESI; gpr c EDI] c1) as [A B C F W X M].
  { all_words; apply Hg. } { rewrite E3. done. } { rewrite E3. simpl. lia. }
  set (c2 := pushes _ c1) in *. clearbody c2. rewrite E3, E7 in *. change (4 * Z.of_nat (length _)) with 16 in A, X.
  rewrite A, (B EAX), E2 by done. set (m' := store32 (x_mem c2) (old_arg c) (e - 16)).
  change (x_mem (c2 <| x_mem := m' |>)) with m'. change (gpr (c2 <| x_mem := m' |>)) with (gpr c2).
  assert (∀ x, ¬ (old_arg c ≤ x < old_arg c + 4) → m' x = x_mem c2 x) as Hm'.
  { intros x Hx. unfold m'. by rewrite store32_byte, decide_False. }
  split; [by rewrite B, E1|]. split; [by apply store32_wf, M|]. split; [intros s; by rewrite <- E5, <- C|]. split; [by rewrite <- E6, <- F|].
  split; [|split; [apply load32_store32_eq; lia|]].
  - rewrite (ctx_of_ext m' (x_mem c2)) by (intros; apply Hm'; lia). unfold ctx_of.
    rewrite <- (W 3%nat (gpr c EDI) eq_refl), <- (W 2%nat (gpr c ESI) eq_refl), <- (W 1%nat (gpr c EBX) eq_refl), <- (W 0%nat (gpr c EBP) eq_refl).
    rewrite <- (load32_ext (x_mem c2) (x_mem c) e) by (intros x Hx; apply X; lia). f_equal; f_equal; lia.
  - intros x H1 H2. rewrite Hm', X by lia. done.
Qed.

Lemma restored_ok c : wf_mem (x_mem c) → word (gpr c EDX) → word (gpr c EDX + 20) →
  runs_in (restored c) (ctx_of (x_mem c) (gpr c EDX)) (gpr c EDX + 20) ∧ x_mem (restored c) = x_mem c ∧
  (∀ s, seg (restored c) s = seg c s) ∧ eflags (restored c) = eflags c.
Proof.
  intros Hm H0 Hw. unfold word in *. set (p := gpr c EDX) in *. set (m := x_mem c) in *. unfold restored. fold p.
  set (c0 := set_reg ESP p c). assert (stack_at m c0 p) as S0.
  { split; [|done]. unfold c0. by rewrite gpr_set_reg, decide_True, u32_small. }
  assert (∀ s, seg c0 s = seg c s) as G0 by done. assert (eflags c0 = eflags c) as F0 by done. clearbody c0.
  destruct (pop_reg_at m Hm c0 p EDI S0) as (S1 & A1 & B1 & C1); [unfold word; lia | done |].
  assert (eflags (pop_reg EDI c0) = eflags c0) as F1 by done. set (c1 := pop_reg EDI c0) in *. clearbody c1.
  destruct (pop_reg_at m Hm c1 _ ESI S1) as (S2 & A2 & B2 & C2); [unfold word; lia | done |].
  assert (eflags (pop_reg ESI c1) = eflags c1) as F2 by done. set (c2 := pop_reg ESI c1) in *. clearbody c2.
  destruct (pop_reg_at m Hm c2 _ EBX S2) as (S3 & A3 & B3 & C3); [unfold word; lia | done |].
  assert (eflags (pop_reg EBX c2) = eflags c2) as F3 by done. set (c3 := pop_reg EBX c2) in *. clearbody c3.
  destruct (pop_reg_at m Hm c3 _ EBP S3) as (S4 & A4 & B4 & C4); [unfold word; lia | done |].
  assert (eflags (pop_reg EBP c3) = eflags c3) as F4 by done. set (c4 := pop_reg EBP c3) in *. clearbody c4.
  destruct (drop_at m c4 _ 1 S4) as ([S5 M5] & B5 & C5); [unfold word; lia |]. destruct S4 as [S4 M4]. cbv zeta. unfold top. rewrite S4, M4.
  assert (eflags (drop_words 1 c4) = eflags c4) as F5 by done. set (c5 := drop_words 1 c4) in *. clearbody c5.
  split; [split|split; [exact M5|split; [intros s; change (seg c5 s = seg c s); by rewrite C5, C4, C3, C2, C1 | change (eflags c5 = eflags c); congruence]]].
  - change (gpr c5 EDI = load32 m p). by rewrite B5, B4, B3, B2, A1.
  - change (gpr c5 ESI = load32 m (p + 4)). by rewrite B5, B4, B3, A2.
  - change (gpr c5 EBX = load32 m (p + 8)). rewrite B5, B4, A3 by done. f_equal. lia.
  - change (gpr c5 EBP = load32 m (p + 12)). rewrite B5, A4 by done. f_equal. lia.
  - change (load32 m (p + 4 + 4 + 4 + 4) = load32 m (p + 16)). f_equal. lia.
  - change (gpr c5 ESP = p + 20). lia.
Qed.

Lemma swtch_ok c : can_switch c → let e := gpr c ESP in
  ∃ c', run swtch c = Ok () c' ∧ runs_in c' (ctx_of (x_mem c) (new_arg c)) (new_arg c + 20) ∧
    ctx_of (x_mem c') (e - 16) = Context (gpr c EDI) (gpr c ESI) (gpr c EBX) (gpr c EBP) (load32 (x_mem c) e) ∧
    load32 (x_mem c') (old_arg c) = e - 16 ∧ (∀ s, seg c' s = seg c s) ∧ eflags c' = eflags c ∧
    (∀ x, ¬ (e - 16 ≤ x < e) → ¬ (old_arg c ≤ x < old_arg c + 4) → x_mem c' x = x_mem c x).
Proof.
  intros Hc e. destruct (saved_ok c Hc) as (S1 & S2 & S3 & S4 & S5 & S6 & S7). fold e in S5, S6, S7.
  pose proof (load32_range (x_mem c) (e + 8) (ro_mem _ (cs_ok _ Hc))) as Hn. fold (new_arg c) in Hn.
  destruct (restored_ok (saved c) S2) as (R1 & R2 & R3 & R4); [by rewrite S1 | rewrite S1; apply Hc |]. rewrite S1 in R1.
  destruct Hc as [_ _ _ _ [Hx1 Hx2]]. fold e in Hx1. unfold apart in *.
  rewrite (ctx_of_ext (x_mem (saved c)) (x_mem c)) in R1 by (intros x Hx; apply S7; lia).
  exists (restored (saved c)). split; [apply swtch_run|]. rewrite R2, R4. split; [done|]. split; [done|]. split; [done|]. split; [intros s; by rewrite R3|]. done.
Qed.

(** C24: Switching contexts. [swtch(old, new)] saves the callee-saved registers and the return
    address of its caller on the stack as a [struct context], stores its
    address through [old], and goes on in the context at [new], on that
    context's stack, with nothing else in memory or in the flags and segment
    registers changed. And a later [swtch] to the saved context, whatever has
    happened in between outside those twenty bytes, returns to the first
    caller with its registers and its stack pointer. *)
Theorem swtch_correct c : can_switch c → let e := gpr c ESP in
  ∃ c', run swtch c = Ok () c' ∧ runs_in c' (ctx_of (x_mem c) (new_arg c)) (new_arg c + 20) ∧
    load32 (x_mem c') (old_arg c) = e - 16 ∧ (∀ s, seg c' s = seg c s) ∧ eflags c' = eflags c ∧
    (∀ x, ¬ (e - 16 ≤ x < e) → ¬ (old_arg c ≤ x < old_arg c + 4) → x_mem c' x = x_mem c x) ∧
    ∀ c2, can_switch c2 → new_arg c2 = e - 16 → (∀ x, e - 16 ≤ x < e + 4 → x_mem c2 x = x_mem c' x) →
      ∃ c3, run swtch c2 = Ok () c3 ∧ gpr c3 EDI = gpr c EDI ∧ gpr c3 ESI = gpr c ESI ∧ gpr c3 EBX = gpr c EBX ∧ gpr c3 EBP = gpr c EBP ∧
        eip c3 = load32 (x_mem c) e ∧ gpr c3 ESP = e + 4.
Proof.
  intros Hc e. destruct (swtch_ok c Hc) as (c' & E & R & K & O & Sg & F & X). fold e in K, O, X. exists c'.
  split; [done|]. split; [done|]. split; [done|]. split; [done|]. split; [done|]. split; [done|].
  intros c2 Hc2 Hn Hm. destruct (swtch_ok c2 Hc2) as (c3 & E3 & [A B C D G H] & _). rewrite Hn in *.
  rewrite (ctx_of_ext (x_mem c2) (x_mem c')), K in * by (intros; apply Hm; lia). cbn [ctx_edi ctx_esi ctx_ebx ctx_ebp ctx_eip] in *.
  exists c3. split_and!; try done. lia.
Qed.
End switch.

(** ** An example: to an empty context and back *)

Definition switch_x86 : x86 :=
  X86 (λ r, match r with ESP => 0x1000 | EDI => 5 | _ => 1 end) (λ _, 16) 0 0
    (store32 (store32 (store32 (λ _, 0) 0x1000 0x80104321) 0x1004 0x2000) 0x1008 0x3000).

Lemma switch_x86_ok : can_switch switch_x86.
Proof.
  split; [split| | | |].
  - intros []; by vm_compute.
  - intros s. by vm_compute.
  - by do 3 apply store32_wf.
  - by vm_compute.
  - by vm_compute.
  - right. by vm_compute.
  - split; right; by vm_compute.
Qed.

Lemma swtch_correct_witness :
  ∃ c', run no_call user_task (λ _, Gate true false 0 8 0) swtch switch_x86 = Ok () c' ∧ gpr c' ESP = 0x3014 ∧ load32 (x_mem c') 0x2000 = 0xff0.
Proof.
  destruct (swtch_correct no_call user_task (λ _, Gate true false 0 8 0) switch_x86 switch_x86_ok) as (c' & E & [_ _ _ _ _ Hsp] & Hold & _).
  exists c'. split; [exact E|]. split; [rewrite Hsp; reflexivity | exact Hold].
Defined.
