(* ===== verification/Trap.v ===== *)
(** * Traps in C (trap.c, mmu.h, traps.h)

    The interrupt descriptor table that [tvinit] builds, read the way the
    processor reads it, and the handler [trap]. *)
From stdpp Require Import functions.
From S2P Require Import Prelude Machine Proc Signal Syscall Asm.

Definition T_IRQ0 : Z := 32.
Definition IRQ_TIMER : Z := 0.
Definition IRQ_KBD : Z := 1.
Definition IRQ_COM1 : Z := 4.
Definition IRQ_IDE : Z := 14.
Definition IRQ_SPURIOUS : Z := 31.
Definition STS_IG32 : Z := 0xE.
Definition STS_TG32 : Z := 0xF.

(** ** Gates *)

(** The bit fields of [struct gatedesc]. *)
Record gatedesc := Gatedesc {
  gd_off_15_0 : Z; gd_cs : Z; gd_args : Z; gd_rsv1 : Z; gd_type : Z; gd_s : Z; gd_dpl : Z; gd_p : Z; gd_off_31_16 : Z
}.

Definition SETGATE (istrap : bool) (sel off d : Z) : gatedesc :=
  Gatedesc (Z.land off 0xffff) sel 0 0 (if istrap then STS_TG32 else STS_IG32) 0 d 1 (Z.shiftr off 16).

(** [tvinit], for the entry addresses [vectors]. *)
Definition tvinit (vectors : Z → Z) : list gatedesc :=
  let idt := (λ i, SETGATE false (Z.shiftl SEG_KCODE 3) (vectors i) 0) <$> seqZ 0 256 in
  <[Z.to_nat T_SYSCALL := SETGATE true (Z.shiftl SEG_KCODE 3) (vectors T_SYSCALL) DPL_USER]> idt.

(** The two words of a descriptor: bit fields from the lowest bit up. *)
Definition gate_words (d : gatedesc) : Z * Z :=
  (gd_off_15_0 d + 65536 * gd_cs d,
   gd_args d + 32 * gd_rsv1 d + 256 * gd_type d + 4096 * gd_s d + 8192 * gd_dpl d + 32768 * gd_p d + 65536 * gd_off_31_16 d).

(** What the processor takes from them. *)
Definition read_gate (w : Z * Z) : gate :=
  Gate (Z.testbit (snd w) 15) (Z.testbit (snd w) 8) (Z.land (Z.shiftr (snd w) 13) 3) (Z.shiftr (fst w) 16)
    (Z.land (fst w) 0xffff + 65536 * Z.shiftr (snd w) 16).

Definition idt_of (vectors : Z → Z) (n : Z) : gate :=
  read_gate (gate_words (nth (Z.to_nat n) (tvinit vectors) (SETGATE false 0 0 0))).

(** ** [trap] *)

Section trap.
(** The parts of other components: the system calls, [exit] and [yield], the
    tick of the clock, the device handlers, and this processor's number. *)
Variable oc : other_calls.
Variables exit yield tick ideintr kbdintr uartintr lapiceoi : M kst ().
Variable cpuid : Z.

(** [myproc() && myproc()->killed], and the same for user space. *)
Definition is_killed : M kst bool :=
  i ← myproc;
  match i with
  | None => mret false
  | Some i => p ← proc_at i; mret (truthy (killed p))
  end.
Definition in_user (t : trapframe) : bool := Z.land (tf_cs t) 3 =? DPL_USER.
Definition exit_if_killed (t : trapframe) : M kst () :=
  k ← is_killed;
  when (k && in_user t) exit.

Definition yield_on_tick (t : trapframe) : M kst () :=
  i ← myproc;
  match i with
  | None => mret ()
  | Some i => p ← proc_at i; when (bool_decide (state p = RUNNING) && (tf_trapno t =? T_IRQ0 + IRQ_TIMER)) yield
  end.

(** The [switch]; messages are left out. *)
Definition trap_switch (t : trapframe) : M kst () :=
  let n := tf_trapno t in
  if n =? T_IRQ0 + IRQ_TIMER then when (cpuid =? 0) tick;; lapiceoi
  else if n =? T_IRQ0 + IRQ_IDE then ideintr;; lapiceoi
  else if n =? T_IRQ0 + IRQ_IDE + 1 then mret ()
  else if n =? T_IRQ0 + IRQ_KBD then kbdintr;; lapiceoi
  else if n =? T_IRQ0 + IRQ_COM1 then uartintr;; lapiceoi
  else if (n =? T_IRQ0 + 7) || (n =? T_IRQ0 + IRQ_SPURIOUS) then lapiceoi
  else
    i ← myproc;
    match i with
    | Some _ => if Z.land (tf_cs t) 3 =? 0 then panic "trap" else upd_cur (λ p, p <| killed := 1 |>)
    | None => panic "trap"
    end.

Definition trap (t : trapframe) : M kst () :=
  if tf_trapno t =? T_SYSCALL then
    p ← curproc;
    when (truthy (killed p)) exit;;
    upd_cur (λ p, p <| tf := t |>);;
    syscall oc;;
    p ← curproc;
    when (truthy (killed p)) exit
  else
    trap_switch t;;
    exit_if_killed t;;
    yield_on_tick t;;
    exit_if_killed t.
End trap.

(** ** The descriptor table *)

Lemma land_low16 x : 0 ≤ x → Z.land x 0xffff = x mod 65536.
Proof. intros. change 0xffff with (Z.ones 16). by rewrite Z.land_ones. Qed.

Lemma read_setgate (istrap : bool) sel off d :
  0 ≤ sel < 65536 → word off → 0 ≤ d < 4 → read_gate (gate_words (SETGATE istrap sel off d)) = Gate true istrap d sel off.
Proof.
  unfold word. intros Hs Ho Hd. unfold read_gate, gate_words, SETGATE, STS_TG32, STS_IG32. cbn -[Z.mul Z.add Z.testbit Z.shiftr Z.land].
  rewrite !land_low16 by (try lia; zmod). rewrite !Z.shiftr_div_pow2 by lia.
  change (2 ^ 16) with 65536. change (2 ^ 13) with 8192. set (lo := off mod 65536). set (hi := off / 65536).
  set (ty := if istrap then 15 else 14). set (w1 := _ + 65536 * hi).
  assert (0 ≤ hi < 65536) as Hhi by (unfold hi; zmod). assert (14 ≤ ty ≤ 15) as Hty by (unfold ty; destruct istrap; lia).
  assert (Z.testbit w1 15 = true) as ->.
  { apply Z.testbit_true; [lia|]. change (2 ^ 15) with 32768. unfold w1. zmod. }
  assert (Z.testbit w1 8 = istrap) as ->.
  { destruct istrap; [apply Z.testbit_true | apply Z.testbit_false]; try lia; change (2 ^ 8) with 256; unfold w1, ty; zmod. }
  change 3 with (Z.ones 2). rewrite Z.land_ones by lia. change (2 ^ 2) with 4.
  f_equal; unfold w1, lo, hi, ty in *; zmod.
Qed.

Lemma idt_gate vectors n : (∀ i, word (vectors i)) → 0 ≤ n < 256 →
  idt_of vectors n = Gate true (n =? T_SYSCALL) (if n =? T_SYSCALL then 3 else 0) 8 (vectors n).
Proof.
  intros Hv Hn. unfold idt_of, tvinit. rewrite nth_lookup. destruct (Z.eqb_spec n T_SYSCALL) as [->|Hne].
  - rewrite list_lookup_insert_eq by (rewrite length_fmap, length_seqZ; unfold T_SYSCALL; lia). by apply read_setgate.
  - rewrite list_lookup_insert_ne by (unfold T_SYSCALL in *; lia). rewrite list_lookup_fmap, lookup_seqZ_lt by lia. cbn [fmap option_fmap option_map default from_option id].
    replace (0 + Z.of_nat (Z.to_nat n)) with n by lia. by apply read_setgate.
Qed.

(** The number of the trap that [int n] in user space causes. *)
Definition user_trapno (n : Z) : Z := if n =? T_SYSCALL then T_SYSCALL else 13.

Lemma user_int task vectors n c : (∀ i, word (vectors i)) → 0 ≤ n < 256 → cpl (seg c CS) = 3 →
  int_n task (idt_of vectors) n c =
    let m := user_trapno n in
    deliver task (idt_of vectors m) (err_code m (8 * n + 2)) (if n =? T_SYSCALL then c else c <| eip := eip c - 2 |>).
Proof.
  intros Hv Hn Hc. unfold int_n, user_trapno. rewrite Hc. cbv zeta.
  assert (g_present (idt_of vectors n) && (3 <=? g_dpl (idt_of vectors n)) = (n =? T_SYSCALL)) as ->.
  { rewrite idt_gate by done. cbn [g_present g_dpl andb]. by destruct (n =? T_SYSCALL). }
  destruct (Z.eqb_spec n T_SYSCALL) as [->|Hne]; done.
Qed.

Section gates.
Variable ccall : cfun → M x86 ().
Variable task : tss.
Variable idt : Z → gate.

Lemma user_int_ok vectors a n c :
  (∀ i, word (vectors i)) → 0 ≤ n < 256 → x86_ok c → 2 ≤ eip c → cpl (seg c CS) = 3 →
  80 ≤ ts_esp0 task → word (ts_esp0 task) →
  let m := user_trapno n in
  let c0 := int_n task (idt_of vectors) n c in
  eip c0 = vectors m ∧
  ∃ c1, run ccall task idt (vector a m ++ alltraps_head) c0 = Ok () c1 ∧ cpl (seg c1 CS) = 0 ∧
    let t := load_tf (x_mem c1) (load32 (x_mem c1) (gpr c1 ESP)) in
    tf_trapno t = m ∧ tf_err t = (if n =? T_SYSCALL then 0 else 8 * n + 2) ∧
    tf_eip t = (if n =? T_SYSCALL then eip c else eip c - 2) ∧ tf_cs t = seg c CS ∧ tf_esp t = gpr c ESP ∧ tf_eax t = gpr c EAX ∧
    (Z.testbit (eflags c1) 9 = (n =? T_SYSCALL) && Z.testbit (eflags c) 9).
Proof.
  intros Hv Hn Hok Hip Hc Hst Hw m c0. unfold c0. rewrite user_int by done. cbv zeta. fold m.
  set (cu := if n =? T_SYSCALL then c else c <| eip := eip c - 2 |>).
  assert (x86_ok cu) as Hoku.
  { unfold cu. destruct (n =? T_SYSCALL); [done|]. destruct Hok as ([A B C] & D & E). split; [by split|]. split; [unfold word in *; simpl; lia | done]. }
  assert (from_user cu = true) as Hu by (unfold from_user, cu; destruct (n =? T_SYSCALL); by (try change (seg (c <| eip := eip c - 2 |>) CS) with (seg c CS)); rewrite Hc).
  assert (0 ≤ m < 256) as Hm by (unfold m, user_trapno, T_SYSCALL; destruct (n =? 64); lia).
  assert (entry_stack task cu = ts_esp0 task) as Ee by (unfold entry_stack; by rewrite Hu).
  assert (frame_size cu = 76) as Ef by (unfold frame_size; by rewrite Hu).
  destruct (entry_ok ccall task idt (idt_of vectors m) a m (8 * n + 2) cu Hoku) as (c1 & E1 & [T1 T2 T3 T4 TS T5 T6 T7 T8]); [by rewrite Ee | by rewrite Ee | unfold word; lia | done |].
  rewrite Ee, Ef in *. split; [by rewrite (idt_gate vectors m) by done|]. exists c1. split; [done|].
  rewrite idt_gate in T3, T5 by done. split; [by rewrite T3|]. rewrite T2.
  assert (load_tf (x_mem c1) (ts_esp0 task - 76) = frame_tf task cu m (err_word m (8 * n + 2)) (x_mem c1)) as ->.
  { pose proof (frame_loads task idt cu m (err_word m (8 * n + 2)) (x_mem c1) (proj1 Hoku)) as Hl. rewrite Ee, Ef in Hl. by apply Hl. }
  unfold frame_tf. rewrite Hu. cbn [tf_trapno tf_err tf_eip tf_cs tf_esp tf_eax].
  split; [done|]. split; [unfold m, user_trapno, err_word; by destruct (n =? T_SYSCALL)|]. unfold cu. rewrite T5. unfold gate_flags, m, user_trapno, cu.
  assert (Z.testbit (Z.lnot 0x34100) 9 = true ∧ Z.testbit (Z.lnot FL_IF) 9 = false) as [B1 B2] by done.
  destruct (n =? T_SYSCALL); cbn [g_trap]; (split; [done|]; split; [done|]; split; [done|]; split; [done|]).
  - by rewrite Z.eqb_refl, Z.land_spec, B1, andb_true_r.
  - change (13 =? T_SYSCALL) with false. cbn iota. by rewrite Z.land_spec, B2, andb_false_r.
Qed.

(** C23: The gates keep user programs from raising any trap but a system call. With the descriptor table
    that [tvinit] builds, the instruction [int n] in user space enters [trap]
    at ring 0: for [n = 64] with a frame for trap 64 that resumes after the
    instruction, interrupts staying as they were; for every other [n] with a
    frame for a general protection fault (13) at the instruction itself, whose
    error code names [n], with interrupts off. No [int] can make [trap] believe in a
    timer, disk, keyboard or serial interrupt. The stubs of usys.S come in as
    trap 64 with the number of their system call in [eax]. *)
Theorem user_int_traps vectors a c :
  (∀ i, word (vectors i)) → x86_ok c → 2 ≤ eip c → cpl (seg c CS) = 3 → 80 ≤ ts_esp0 task → word (ts_esp0 task) →
  (∀ n, 0 ≤ n < 256 →
    let m := user_trapno n in
    let c0 := int_n task (idt_of vectors) n c in
    eip c0 = vectors m ∧
    ∃ c1, run ccall task idt (vector a m ++ alltraps_head) c0 = Ok () c1 ∧ cpl (seg c1 CS) = 0 ∧
      let t := load_tf (x_mem c1) (load32 (x_mem c1) (gpr c1 ESP)) in
      tf_trapno t = m ∧ tf_err t = (if n =? T_SYSCALL then 0 else 8 * n + 2) ∧
      tf_eip t = (if n =? T_SYSCALL then eip c else eip c - 2) ∧ tf_cs t = seg c CS ∧ tf_esp t = gpr c ESP ∧ tf_eax t = gpr c EAX ∧
      (Z.testbit (eflags c1) 9 = (n =? T_SYSCALL) && Z.testbit (eflags c) 9)) ∧
  (∀ num, word num →
    ∃ c0 c1, run ccall task (idt_of vectors) (sys_stub num) c = Ok () c0 ∧ eip c0 = vectors T_SYSCALL ∧
      run ccall task idt (vector a T_SYSCALL ++ alltraps_head) c0 = Ok () c1 ∧
      let t := load_tf (x_mem c1) (load32 (x_mem c1) (gpr c1 ESP)) in
      tf_trapno t = T_SYSCALL ∧ tf_eax t = num ∧ tf_eip t = eip c ∧ tf_esp t = gpr c ESP).
Proof.
  intros Hv Hok Hip Hc Hst Hw. split; [intros n Hn; by apply user_int_ok|]. intros num Hnum. set (c' := set_reg EAX num c).
  assert (gpr c' EAX = num) as Ea by (unfold c'; by rewrite gpr_set_reg, decide_True, u32_small).
  assert (x86_ok c') as Hok'.
  { destruct Hok as ([A B C] & D & E). split; [split; [|exact B | exact C] | by split]. intros r.
    unfold c'. rewrite gpr_set_reg. case_decide; [apply u32_range | apply A]. }
  destruct (user_int_ok vectors a T_SYSCALL c') as (E0 & c1 & E1 & _ & T1 & _ & T3 & _ & T5 & T6 & _); [done | done | done | exact Hip | exact Hc | done | done |].
  exists (int_n task (idt_of vectors) T_SYSCALL c'), c1. split; [done|]. split; [exact E0|]. split; [exact E1|]. split; [exact T1|].
  split; [by rewrite T6|]. split; [exact T3|]. exact T5.
Qed.
End gates.

(** ** Killed processes *)

Section killed.
Variable oc : other_calls.
Variables exit yield tick ideintr kbdintr uartintr lapiceoi : M kst ().
Variable cpuid : Z.
Notation trap := (trap oc exit yield tick ideintr kbdintr uartintr lapiceoi cpuid).

(** [exit] does not return. *)
Hypothesis exit_ends : ∀ s s', exit s ≠ Ok () s'.

Lemma when_exit b s s' : when b exit s = Ok () s' → b = false ∧ s' = s.
Proof using exit_ends. destruct b; simpl; [by intros ?%exit_ends | by intros [= ->]]. Qed.

Lemma is_killed_ok s k s' : is_killed s = Ok k s' → s' = s ∧ ∀ i p, running s i p → k = truthy (killed p).
Proof using.
  unfold is_killed, myproc. rewrite bind_gets. destruct (cur s) as [i|] eqn:Ei.
  - intros (p & s1 & E1 & [= <- <-])%bind_inv. unfold proc_at in E1. rewrite bind_get in E1. destruct (procs s !! i) eqn:Ep; [|done]. injection E1 as <- <-.
    split; [done|]. intros j q [Hc Hq]. congruence.
  - intros [= <- <-]. split; [done|]. intros j q [Hc _]. congruence.
Qed.

Lemma exit_if_killed_ok t s s' : exit_if_killed exit t s = Ok () s' → s' = s ∧ (in_user t = true → ∀ i p, running s i p → truthy (killed p) = false).
Proof using exit_ends.
  unfold exit_if_killed. intros (k & s1 & [-> Hk]%is_killed_ok & [Hb ->]%when_exit)%bind_inv. split; [done|].
  intros Hu i p Hr. rewrite <- (Hk i p Hr). rewrite Hu, andb_true_r in Hb. done.
Qed.

(** The traps that are not meant to happen. *)
Definition unexpected (t : trapframe) : Prop :=
  tf_trapno t ∉ [T_SYSCALL; T_IRQ0 + IRQ_TIMER; T_IRQ0 + IRQ_IDE; T_IRQ0 + IRQ_IDE + 1; T_IRQ0 + IRQ_KBD; T_IRQ0 + IRQ_COM1; T_IRQ0 + 7; T_IRQ0 + IRQ_SPURIOUS].

Lemma unexpected_switch t s : unexpected t →
  trap_switch tick ideintr kbdintr uartintr lapiceoi cpuid t s =
    match cur s with
    | Some i => if Z.land (tf_cs t) 3 =? 0 then Panic "trap" else upd_cur (λ p, p <| killed := 1 |>) s
    | None => Panic "trap"
    end.
Proof using.
  unfold unexpected. rewrite !not_elem_of_cons. intros (H1 & H2 & H3 & H4 & H5 & H6 & H7 & H8 & _). unfold trap_switch.
  rewrite !(proj2 (Z.eqb_neq _ _)) by done. cbn [orb]. unfold myproc. rewrite bind_gets. destruct (cur s); [by destruct (_ =? 0) | done].
Qed.

(** A killed process does not leave [trap] for user space. If [trap], called for a frame of user space, returns
    at all, then the process that is running then is not marked as killed,
    whichever trap it was and whatever the system call, the device handlers and
    the other processes did meanwhile. A trap that nobody expects is the end of
    the process in user space (it is marked and exits) and a panic in the
    kernel. *)
Theorem trap_killed t s :
  in_user t = true →
  (∀ s' i p, trap t s = Ok () s' → running s' i p → truthy (killed p) = false) ∧
  (∀ i p, unexpected t → running s i p → trap t s = exit (with_proc s i (p <| killed := 1 |>))) ∧
  (∀ t', unexpected t' → Z.land (tf_cs t') 3 = 0 → trap t' s = Panic "trap").
Proof using exit_ends.
  intros Hu. split; [|split].
  - intros s' i p. unfold Trap.trap. destruct (tf_trapno t =? T_SYSCALL).
    + intros (p1 & s1 & E1 & E2)%bind_inv Hr. apply bind_inv in E2 as ([] & s2 & E2 & E3). apply bind_inv in E3 as ([] & s3 & E3 & E4).
      apply bind_inv in E4 as ([] & s4 & E4 & E5). apply bind_inv in E5 as (p5 & s5 & E5 & [Hb ->]%when_exit).
      assert (s5 = s4 ∧ running s4 (default 0%nat (cur s4)) p5) as [-> Hr5].
      { unfold curproc, myproc, proc_at in E5. rewrite bind_gets in E5. destruct (cur s4) as [j|] eqn:Ej; [|done]. rewrite bind_get in E5.
        destruct (procs s4 !! j) eqn:Ep; [|done]. injection E5 as <- <-. by split_and!. }
      destruct Hr as [Hc Hp], Hr5 as [Hc5 Hp5]. rewrite Hc in Hp5. simpl in Hp5. congruence.
    + intros ([] & s1 & E1 & E2)%bind_inv Hr. apply bind_inv in E2 as ([] & s2 & E2 & E3). apply bind_inv in E3 as ([] & s3 & E3 & E4).
      apply exit_if_killed_ok in E4 as [-> Hk]. by apply (Hk Hu i p).
  - intros i p Hx Hr. unfold Trap.trap. assert (tf_trapno t ≠ T_SYSCALL) as Hne by (unfold unexpected in Hx; by apply not_elem_of_cons in Hx as [? _]).
    rewrite (proj2 (Z.eqb_neq _ _)) by done.
    assert (trap_switch tick ideintr kbdintr uartintr lapiceoi cpuid t s = Ok () (with_proc s i (p <| killed := 1 |>))) as E.
    { rewrite unexpected_switch by done. rewrite (proj1 Hr). unfold in_user, DPL_USER in Hu. apply Z.eqb_eq in Hu. rewrite Hu. simpl. by apply upd_cur_ok. }
    rewrite (bind_ok _ _ _ _ _ E). set (s1 := with_proc s i (p <| killed := 1 |>)).
    assert (exit_if_killed exit t s1 = exit s1) as E1.
    { unfold exit_if_killed, is_killed, myproc. rewrite bind_assoc, bind_gets. pose proof (running_with s i p Hr (p <| killed := 1 |>)) as [Hc Hp]. fold s1 in Hc, Hp.
      rewrite Hc. unfold proc_at. rewrite bind_assoc, bind_assoc, bind_get, Hp, !bind_ret, Hu. done. }
    unfold mbind, M_bind. rewrite E1. destruct (exit s1) as [[] s2| |] eqn:Ee; [by apply exit_ends in Ee | done | done].
  - intros t' Hx Hk. unfold Trap.trap. assert (tf_trapno t' ≠ T_SYSCALL) as Hne by (unfold unexpected in Hx; by apply not_elem_of_cons in Hx as [? _]).
    rewrite (proj2 (Z.eqb_neq _ _)) by done. rewrite (bind_panic _ _ _ "trap"); [done|]. rewrite unexpected_switch, Hk by done. by destruct (cur s).
Qed.
End killed.

(** ** Examples *)

(** [int 32] does not look like the timer. *)
Lemma user_int_traps_witness :
  ∃ c1, run no_call user_task (λ _, Gate true false 0 8 0) (vector 0 13 ++ alltraps_head) (int_n user_task (idt_of (λ i, 0x80105000 + i)) 32 user_x86) = Ok () c1 ∧
    tf_trapno (load_tf (x_mem c1) (load32 (x_mem c1) (gpr c1 ESP))) = 13.
Proof.
  assert (∀ i, word (0x80105000 + i mod 256)) as Hw by (intros i; unfold word; zmod).
  destruct (user_int_traps no_call user_task (λ _, Gate true false 0 8 0) (λ i, 0x80105000 + i mod 256) 0 user_x86 Hw user_x86_ok ltac:(by vm_compute) eq_refl
    ltac:(by vm_compute) ltac:(by vm_compute)) as [Hint _]. destruct (Hint 32 ltac:(lia)) as (_ & c1 & E & _ & Ht & _).
  exists c1. split; [exact E | exact Ht].
Defined.

(** A process that divides by zero, which is trap 0. *)
Definition zero_divide : trapframe := zero_trapframe <| tf_cs := 27 |>.

Lemma trap_killed_witness :
  trap no_calls (panic "exit") (mret ()) (mret ()) (mret ()) (mret ()) (mret ()) (mret ()) 0 zero_divide (kst_example proc_example) = Panic "exit".
Proof.
  destruct (trap_killed no_calls (panic "exit") (mret ()) (mret ()) (mret ()) (mret ()) (mret ()) (mret ()) 0 ltac:(intros s s'; discriminate)
    zero_divide (kst_example proc_example) eq_refl) as (_ & Hx & _).
  rewrite (Hx 0%nat proc_example); [reflexivity | | by split].
  unfold unexpected. apply (bool_decide_unpack _). vm_compute. done.
Defined.
