(* ===== verification/Monitor.v ===== *)
(** * Threads that sleep under a lock

    Pipes, sleep locks, the log and the clock all use the same pattern: a
    structure protected by a spinlock, and operations that hold the lock
    except while they are inside [sleep(chan, lk)]. Between two points
    where the lock is released an operation runs alone, so it is a sequence
    of atomic segments; an access without the lock is a segment as well. This
    file defines that pattern once: the threads,
    their interleavings, and the two proof rules the clients use, an
    invariant rule and a rule for lost wakeups. *)
From S2P Require Import Prelude.

(** What one segment leaves behind: the protected state, the channels it
    woke, what it did that an observer can see, and how it ended: asleep, back
    at its caller, or on its way to another segment. *)
Inductive ending (C L R : Type) := Sleeps (c : C) (l : L) | Returns (r : R) | Goes (l : L).
Arguments Sleeps {C L R} c l.
Arguments Returns {C L R} r.
Arguments Goes {C L R} l.

Record segment (S C L R E : Type) := Segment {
  seg_state : S; seg_wakes : list C; seg_events : list E; seg_end : ending C L R
}.
Arguments Segment {S C L R E} _ _ _ _.
Arguments seg_state {S C L R E} _.
Arguments seg_wakes {S C L R E} _.
Arguments seg_events {S C L R E} _.
Arguments seg_end {S C L R E} _.

Section monitor.
Context {S C L R E : Type} `{!EqDecision C}.

(** The next segment of an operation at local state [l]. *)
Variable run_segment : L → S → segment S C L R E.

(** How a waiting operation's view of its own process may change, for
    example when the process is killed. *)
Variable adjust : L → L → Prop.

(** A thread has returned, waits for the lock, or sleeps on a channel. *)
Inductive thread := TDone (r : option R) | TReady (l : L) | TAsleep (c : C) (l : L).

(** [wakeup(c)] for every [c] in the list. *)
Definition wake (cs : list C) (t : thread) : thread :=
  match t with
  | TAsleep c l => if decide (c ∈ cs) then TReady l else t
  | _ => t
  end.

Definition ended (e : ending C L R) : thread :=
  match e with Sleeps c l => TAsleep c l | Returns r => TDone (Some r) | Goes l => TReady l end.

(** One step: a thread starts an operation, a sleeping thread is woken by
    something outside the monitor (a signal), the process of a waiting
    thread changes, or a ready thread runs its next segment; [ok] restricts
    the segments that may run. *)
Inductive mstep (ok : L → S → Prop) : S * list thread → list E → S * list thread → Prop :=
| mstep_call s ts i r l :
    ts !! i = Some (TDone r) → mstep ok (s, ts) [] (s, <[i := TReady l]> ts)
| mstep_spurious s ts i c l :
    ts !! i = Some (TAsleep c l) → mstep ok (s, ts) [] (s, <[i := TReady l]> ts)
| mstep_adjust s ts i l l' :
    ts !! i = Some (TReady l) → adjust l l' → mstep ok (s, ts) [] (s, <[i := TReady l']> ts)
| mstep_segment s ts i l :
    ts !! i = Some (TReady l) → ok l s →
    let g := run_segment l s in
    mstep ok (s, ts) (seg_events g)
      (seg_state g, <[i := ended (seg_end g)]> (wake (seg_wakes g) <$> ts)).

(** Runs, with everything that was observed. *)
Inductive mruns (ok : L → S → Prop) : S * list thread → list E → S * list thread → Prop :=
| mruns_refl x : mruns ok x [] x
| mruns_step x es y fs z : mruns ok x es y → mstep ok y fs z → mruns ok x (es ++ fs) z.

(** ** The threads after a step *)

(** Thread [i] moves on to [t], and the channels [cs] are woken. *)
Definition moved_on (i : nat) (t : thread) (cs : list C) (ts : list thread) : list thread := <[i := t]> (wake cs <$> ts).

Lemma wake_none (ts : list thread) : wake [] <$> ts = ts.
Proof.
  induction ts as [|t ts IH]; [done|]. csimpl. rewrite IH. f_equal. destruct t as [| |c l]; [done|done|].
  simpl. by destruct (decide (c ∈ [])) as [?%elem_of_nil|].
Qed.

Lemma moved_self i t t' cs (ts : list thread) : ts !! i = Some t → moved_on i t' cs ts !! i = Some t'.
Proof. intros Hi. apply list_lookup_insert_eq. rewrite length_fmap. by eapply lookup_lt_Some. Qed.

Lemma moved_other i j t u cs (ts : list thread) : i ≠ j → ts !! j = Some u → moved_on i t cs ts !! j = Some (wake cs u).
Proof. intros Hne Hj. unfold moved_on. by rewrite list_lookup_insert_ne, list_lookup_fmap, Hj by done. Qed.

Lemma moved_lookup i j t t' u cs (ts : list thread) : ts !! i = Some t → moved_on i t' cs ts !! j = Some u →
  (j = i ∧ u = t') ∨ (j ≠ i ∧ ∃ v, ts !! j = Some v ∧ u = wake cs v).
Proof.
  intros Hi Hj. destruct (decide (i = j)) as [->|Hne].
  - rewrite (moved_self _ _ _ _ _ Hi) in Hj. injection Hj as <-. by left.
  - right. split; [done|]. unfold moved_on in Hj. rewrite list_lookup_insert_ne, list_lookup_fmap in Hj by done.
    destruct (ts !! j) as [v|]; [|done]. injection Hj as <-. by exists v.
Qed.

(** ** Invariants *)

Lemma monitor_invariant (I : list E → S → Prop) (ok : L → S → Prop) :
  (∀ es l s, I es s → ok l s →
     I (es ++ seg_events (run_segment l s)) (seg_state (run_segment l s))) →
  ∀ x es y, mruns ok x es y → I [] x.1 → I es y.1.
Proof.
  intros Hseg x es y H Hx. induction H as [x|x es y fs z _ IH Hstep]; [done|].
  specialize (IH Hx). destruct Hstep; simpl in *; rewrite ?app_nil_r; try done. by apply Hseg.
Qed.

(** ** Sleepers *)

(** [Q c l s]: sleeping on [c] in local state [l] is justified in [s]. *)
Definition sleepers_ok (Q : C → L → S → Prop) (x : S * list thread) : Prop :=
  ∀ i c l, x.2 !! i = Some (TAsleep c l) → Q c l x.1.

Lemma wake_asleep cs t c l : wake cs t = TAsleep c l → t = TAsleep c l ∧ c ∉ cs.
Proof. destruct t as [| |c' l']; simpl; try done. case_decide; intros [= <- <-]. done. Qed.

(** Making a thread ready leaves the other sleepers alone. *)
Lemma sleepers_ready Q s ts i l t :
  sleepers_ok Q (s, ts) → ts !! i = Some t → sleepers_ok Q (s, <[i := TReady l]> ts).
Proof.
  intros HQ Hi j c' l' Hj. simpl in *. destruct (decide (i = j)) as [->|].
  - by rewrite list_lookup_insert_eq in Hj by by eapply lookup_lt_Some.
  - rewrite list_lookup_insert_ne in Hj by done. by apply (HQ j).
Qed.

(** The rule for lost wakeups: if a segment that goes to sleep does so for a
    reason, and a segment that takes away the reason to sleep on a channel
    wakes that channel, then nobody ever sleeps without a reason. [I] is an
    invariant of the state. *)
Section sleep_rule.
Variables (I : S → Prop) (Q : C → L → S → Prop) (ok : L → S → Prop).
Hypothesis HI : ∀ l s, I s → ok l s → I (seg_state (run_segment l s)).
Hypothesis Hsleep : ∀ l s c l', I s → ok l s → seg_end (run_segment l s) = Sleeps c l' →
  Q c l' (seg_state (run_segment l s)).
Hypothesis Hwake : ∀ l s c l', I s → ok l s → Q c l' s → c ∉ seg_wakes (run_segment l s) →
  Q c l' (seg_state (run_segment l s)).

Lemma sleepers_step x es y :
  I x.1 → sleepers_ok Q x → mstep ok x es y → I y.1 ∧ sleepers_ok Q y.
Proof using All.
  intros Hx HQ Hstep.
  destruct Hstep as [s ts i r l Hi|s ts i c l Hi|s ts i l l1 Hi ?|s ts i l Hi Hok g];
    simpl in *; (split; [first [done|by apply HI]|]); intros j c' l' Hj; simpl in *.
  - by apply (sleepers_ready Q s ts i l _ HQ Hi j).
  - by apply (sleepers_ready Q s ts i l _ HQ Hi j).
  - by apply (sleepers_ready Q s ts i l1 _ HQ Hi j).
  - destruct (decide (i = j)) as [->|].
    + rewrite list_lookup_insert_eq in Hj by (rewrite length_fmap; by eapply lookup_lt_Some).
      injection Hj as Hj. unfold ended, g in Hj. destruct (seg_end _) eqn:Ee; [|done|done].
      injection Hj as -> ->. by apply Hsleep.
    + rewrite list_lookup_insert_ne in Hj by done. rewrite list_lookup_fmap in Hj.
      destruct (ts !! j) as [t|] eqn:Et; [|done]. injection Hj as Hj.
      apply wake_asleep in Hj as [-> Hc]. apply Hwake; auto. by apply (HQ j).
Qed.

Lemma no_lost_wakeup x es y :
  mruns ok x es y → I x.1 → sleepers_ok Q x → I y.1 ∧ sleepers_ok Q y.
Proof using All.
  intros H HIx HQx. induction H as [x|x es y fs z _ IH Hstep]; [done|].
  destruct (IH HIx HQx). by eapply sleepers_step.
Qed.
End sleep_rule.

(** ** Concrete schedules *)

Inductive act := ACall (i : nat) (l : L) | ASeg (i : nat).

(** Run a schedule; [okb] decides which segments may run. *)
Fixpoint run_acts (okb : L → S → bool) (acts : list act) (s : S) (ts : list thread) (es : list E) :
    option (S * list thread * list E) :=
  match acts with
  | [] => Some (s, ts, es)
  | ACall i l :: acts' =>
      match ts !! i with
      | Some (TDone _) => run_acts okb acts' s (<[i := TReady l]> ts) (es ++ [])
      | _ => None
      end
  | ASeg i :: acts' =>
      match ts !! i with
      | Some (TReady l) =>
          if okb l s then
            let g := run_segment l s in
            run_acts okb acts' (seg_state g) (<[i := ended (seg_end g)]> (wake (seg_wakes g) <$> ts))
              (es ++ seg_events g)
          else None
      | _ => None
      end
  end.

Lemma run_acts_runs okb (ok : L → S → Prop) acts x0 : ∀ s ts es s' ts' es',
  (∀ l s, okb l s = true → ok l s) →
  mruns ok x0 es (s, ts) → run_acts okb acts s ts es = Some (s', ts', es') →
  mruns ok x0 es' (s', ts').
Proof.
  induction acts as [|[i l|i] acts IH]; intros s ts es s' ts' es' Hok Hr; simpl.
  - by intros [= <- <- <-].
  - destruct (ts !! i) as [[r| |]|] eqn:Hi; try done. apply IH; [done|].
    eapply mruns_step; [done|]. by eapply mstep_call.
  - destruct (ts !! i) as [[|l|]|] eqn:Hi; try done. destruct (okb l s) eqn:Ho; [|done].
    apply IH; [done|]. eapply mruns_step; [done|]. apply mstep_segment; auto.
Qed.
End monitor.
Arguments thread : clear implicits.
Arguments act : clear implicits.

Definition any_segment {L S : Type} (l : L) (s : S) : Prop := True.
