(* ===== verification/Pipe.v ===== *)
(** * Pipes

    [src/pipe.c]: a ring buffer of [PIPESIZE] bytes indexed by two [uint]
    counters that only ever grow and wrap, with a reader side and a writer
    side that sleep on the addresses of [nread] and [nwrite]. *)
From S2P Require Import Prelude Machine Monitor.

Definition PIPESIZE : Z := 512.

(** [struct pipe] without its lock. *)
Record pipe := Pipe {
  data : list Z; nread : Z; nwrite : Z; readopen : bool; writeopen : bool
}.
#[export] Instance eta_pipe : Settable pipe := λ p,
  Pipe (data p) (nread p) (nwrite p) (readopen p) (writeopen p).

(** The two channels, [&p->nread] and [&p->nwrite]. *)
Inductive pchan := CRead | CWrite.
#[export] Instance pchan_eq_dec : EqDecision pchan.
Proof. solve_decision. Defined.

(** What [pipealloc] puts into a page of unknown contents [d]. *)
Definition pipe_new (d : list Z) : pipe := Pipe d 0 0 true true.

(** [p->nwrite == p->nread + PIPESIZE], in [uint] arithmetic. *)
Definition pipe_full (p : pipe) : bool := nwrite p =? u32 (nread p + PIPESIZE).
Definition pipe_empty (p : pipe) : bool := nread p =? nwrite p.

(** [p->data[p->nwrite++ % PIPESIZE] = b] *)
Definition put_byte (b : Z) (p : pipe) : pipe :=
  p <| data := <[Z.to_nat (nwrite p mod PIPESIZE) := b]> (data p) |>
    <| nwrite := u32 (nwrite p + 1) |>.

(** [p->data[p->nread++ % PIPESIZE]] *)
Definition get_byte (p : pipe) : Z * pipe :=
  (nth (Z.to_nat (nread p mod PIPESIZE)) (data p) 0, p <| nread := u32 (nread p + 1) |>).

(** Operations in progress. [killed] is the flag of the calling process as
    the segment reads it. *)
Inductive pipe_op :=
| OpWrite (killed : bool) (n : Z) (rest : list Z)   (* pipewrite, [rest] still to store *)
| OpRead (killed : bool) (n : nat)                  (* piperead *)
| OpClose (writable : bool).                        (* pipeclose *)

(** Results: the return value and, for a read, the bytes; for a close,
    whether the page was freed. *)
Inductive pipe_res := RWrite (r : Z) | RRead (r : Z) (bs : list Z) | RClose (freed : bool).

Inductive pipe_ev := EPut (b : Z) | EGet (b : Z).

Definition pipe_seg := segment pipe pchan pipe_op pipe_res pipe_ev.

(** [pipewrite] from the loop test on. *)
Fixpoint pipewrite (killed : bool) (n : Z) (rest : list Z) (es : list pipe_ev) (p : pipe) : pipe_seg :=
  match rest with
  | [] => Segment p [CRead] es (Returns (RWrite n))
  | b :: rest' =>
      if pipe_full p then
        if negb (readopen p) || killed then Segment p [] es (Returns (RWrite (-1)))
        else Segment p [CRead] es (Sleeps CWrite (OpWrite killed n rest))
      else pipewrite killed n rest' (es ++ [EPut b]) (put_byte b p)
  end.

(** The copy loop of [piperead]. *)
Fixpoint piperead_copy (n : nat) (p : pipe) : list Z * pipe :=
  match n with
  | O => ([], p)
  | S n' =>
      if pipe_empty p then ([], p)
      else let '(b, p1) := get_byte p in let '(bs, p2) := piperead_copy n' p1 in (b :: bs, p2)
  end.

Definition piperead (killed : bool) (n : nat) (p : pipe) : pipe_seg :=
  if pipe_empty p && writeopen p then
    if killed then Segment p [] [] (Returns (RRead (-1) []))
    else Segment p [] [] (Sleeps CRead (OpRead killed n))
  else
    let '(bs, p') := piperead_copy n p in
    Segment p' [CWrite] (EGet <$> bs) (Returns (RRead (Z.of_nat (length bs)) bs)).

Definition pipeclose (writable : bool) (p : pipe) : pipe_seg :=
  let p' := if writable then p <| writeopen := false |> else p <| readopen := false |> in
  Segment p' [if writable then CRead else CWrite] []
    (Returns (RClose (negb (readopen p') && negb (writeopen p')))).

Definition pipe_segment (l : pipe_op) (p : pipe) : pipe_seg :=
  match l with
  | OpWrite killed n rest => pipewrite killed n rest [] p
  | OpRead killed n => piperead killed n p
  | OpClose writable => pipeclose writable p
  end.

(** ** The abstract queue *)

(** The number of bytes in the buffer. *)
Definition used (p : pipe) : Z := u32 (nwrite p - nread p).

(** The byte [k] places behind the read position. *)
Definition slot (p : pipe) (k : Z) : Z := nth (Z.to_nat ((nread p + k) mod PIPESIZE)) (data p) 0.

(** The contents, oldest byte first. *)
Definition contents (p : pipe) : list Z := slot p <$> seqZ 0 (used p).

(** The counters are [uint]s at most [PIPESIZE] apart. *)
Definition pipe_inv (p : pipe) : Prop :=
  length (data p) = 512%nat ∧ 0 ≤ nread p < 4294967296 ∧ 0 ≤ nwrite p < 4294967296 ∧ used p ≤ PIPESIZE.

Lemma pipe_full_spec p : pipe_inv p → pipe_full p = (used p =? PIPESIZE).
Proof.
  unfold pipe_inv, pipe_full, used, PIPESIZE. intros (_ & Hr & Hw & Hu).
  apply eq_bool_prop_intro. rewrite !Is_true_true, !Z.eqb_eq. unfold u32 in *. zmod.
Qed.

Lemma pipe_empty_spec p : pipe_inv p → pipe_empty p = (used p =? 0).
Proof.
  unfold pipe_inv, pipe_empty, used, PIPESIZE. intros (_ & Hr & Hw & Hu).
  apply eq_bool_prop_intro. rewrite !Is_true_true, !Z.eqb_eq. unfold u32 in *. zmod.
Qed.

(** The write position is [used] places behind the read position, also
    after the counters have wrapped: [PIPESIZE] divides 2^32. *)
Lemma write_position p : (nread p + used p) mod PIPESIZE = nwrite p mod PIPESIZE.
Proof. unfold used, u32, PIPESIZE. zmod. Qed.

Lemma contents_length p : length (contents p) = Z.to_nat (used p).
Proof. unfold contents. rewrite length_fmap, length_seqZ. done. Qed.

Lemma contents_nil p : used p = 0 → contents p = [].
Proof. intros H. unfold contents. by rewrite H. Qed.

(** Storing a byte appends it. *)
Lemma put_byte_contents b p :
  pipe_inv p → used p < PIPESIZE →
  pipe_inv (put_byte b p) ∧ contents (put_byte b p) = contents p ++ [b].
Proof.
  intros (Hl & Hr & Hw & Hu) Hlt. pose proof (u32_range (nwrite p - nread p)) as Hnn. fold (used p) in Hnn.
  assert (Hused : used (put_byte b p) = used p + 1).
  { unfold used, put_byte, PIPESIZE in *; simpl. unfold u32 in *. zmod. }
  split.
  { split; [simpl; by rewrite length_insert|]. split; [exact Hr|]. split; [apply u32_range|lia]. }
  unfold contents. rewrite Hused, seqZ_app, fmap_app by lia. f_equal.
  - apply list_fmap_ext. intros i k Hk. apply lookup_seqZ in Hk as [-> Hk].
    unfold slot, put_byte; simpl. rewrite !nth_lookup, list_lookup_insert_ne; [done|].
    rewrite <- write_position. unfold PIPESIZE in *. zmod.
  - replace (seqZ (0 + used p) 1) with [used p] by (cbn; f_equal; lia).
    cbn [fmap list_fmap]. unfold slot, put_byte. simpl. rewrite nth_lookup.
    replace ((nread p + used p) mod PIPESIZE) with (nwrite p mod PIPESIZE) by (by rewrite write_position).
    rewrite list_lookup_insert_eq; [done|]. rewrite Hl. unfold PIPESIZE. zmod.
Qed.

(** Taking a byte removes the oldest. *)
Lemma get_byte_contents p :
  pipe_inv p → 0 < used p →
  pipe_inv (get_byte p).2 ∧ contents p = (get_byte p).1 :: contents (get_byte p).2.
Proof.
  intros (Hl & Hr & Hw & Hu) Hlt.
  assert (Hused : used (get_byte p).2 = used p - 1).
  { unfold used, get_byte, PIPESIZE in *; simpl. unfold u32 in *. zmod. }
  split.
  { split; [done|]. split; [apply u32_range|]. split; [exact Hw|lia]. }
  unfold contents. rewrite Hused, (seqZ_cons 0 (used p)) by lia. simpl. f_equal.
  - unfold slot. by rewrite Z.add_0_r.
  - apply list_eq. intros i. rewrite !list_lookup_fmap.
    destruct (seqZ (Z.succ 0) (Z.pred (used p)) !! i) as [k|] eqn:Ek.
    + apply lookup_seqZ in Ek as [-> Ek].
      assert (seqZ 0 (used p - 1) !! i = Some (Z.of_nat i)) as -> by (apply lookup_seqZ; lia).
      simpl. f_equal. unfold slot, get_byte; simpl. do 2 f_equal. unfold u32, PIPESIZE. zmod.
    + apply lookup_ge_None in Ek. rewrite length_seqZ in Ek.
      assert (seqZ 0 (used p - 1) !! i = None) as -> by (apply lookup_ge_None; rewrite length_seqZ; lia).
      done.
Qed.

(** ** Segments *)

(** [pipewrite] appends a prefix of the bytes, and either all of them or as
    many as fit. *)
Lemma pipewrite_spec killed n rest : ∀ es p,
  pipe_inv p →
  ∃ done rest', rest = done ++ rest' ∧
    let g := pipewrite killed n rest es p in
    pipe_inv (seg_state g) ∧ contents (seg_state g) = contents p ++ done ∧
    seg_events g = es ++ (EPut <$> done) ∧
    readopen (seg_state g) = readopen p ∧ writeopen (seg_state g) = writeopen p ∧
    (rest' = [] ∧ seg_wakes g = [CRead] ∧ seg_end g = Returns (RWrite n)
     ∨ rest' ≠ [] ∧ used (seg_state g) = PIPESIZE ∧
       if negb (readopen p) || killed
       then seg_wakes g = [] ∧ seg_end g = Returns (RWrite (-1))
       else seg_wakes g = [CRead] ∧ seg_end g = Sleeps CWrite (OpWrite killed n rest')).
Proof.
  induction rest as [|b rest IH]; intros es p Hp; cbn [pipewrite].
  - exists [], []. rewrite !app_nil_r. split; [done|]. cbv zeta. split_and!; try done. left. done.
  - rewrite (pipe_full_spec p Hp). destruct (Z.eqb_spec (used p) PIPESIZE) as [Hf|Hf].
    + exists [], (b :: rest). split; [done|]. cbv zeta.
      destruct (negb (readopen p) || killed); simpl; rewrite !app_nil_r; split_and!; try done; right; done.
    + destruct (put_byte_contents b p Hp) as [Hp1 Hc1]; [destruct Hp; lia|].
      destruct (IH (es ++ [EPut b]) (put_byte b p) Hp1) as (dn & rest' & -> & H).
      exists (b :: dn), rest'. split; [done|]. cbv zeta in *. destruct H as (H1 & H2 & H3 & H4 & H5 & H6).
      split_and!; [done|by rewrite H2, Hc1, <- app_assoc|by rewrite H3, <- app_assoc|done|done|done].
Qed.

(** [piperead]'s loop takes as many bytes as there are, up to [n]. *)
Lemma piperead_copy_spec n : ∀ p,
  pipe_inv p →
  let '(bs, p') := piperead_copy n p in
  pipe_inv p' ∧ contents p = bs ++ contents p' ∧ length bs = Nat.min n (length (contents p))
  ∧ readopen p' = readopen p ∧ writeopen p' = writeopen p.
Proof.
  induction n as [|n IH]; intros p Hp; simpl; [done|].
  rewrite (pipe_empty_spec p Hp). destruct (Z.eqb_spec (used p) 0) as [He|He].
  - by rewrite (contents_nil p He).
  - destruct (get_byte_contents p Hp) as [Hp1 Hc1].
    { pose proof (u32_range (nwrite p - nread p)). fold (used p) in *. lia. }
    rewrite Hc1. specialize (IH _ Hp1). unfold get_byte in *. cbn [fst snd] in *.
    destruct (piperead_copy n _) as [bs p']. destruct IH as (H1 & H2 & H3 & H4 & H5).
    split_and!; simpl; try done; [by rewrite H2|by rewrite H3].
Qed.

Definition ev_put (e : pipe_ev) : option Z := match e with EPut b => Some b | _ => None end.
Definition ev_get (e : pipe_ev) : option Z := match e with EGet b => Some b | _ => None end.

(** Every byte stored so far, every byte handed out so far. *)
Definition puts (es : list pipe_ev) : list Z := omap ev_put es.
Definition gots (es : list pipe_ev) : list Z := omap ev_get es.

(** The effect of a segment on the contents. *)
Lemma pipe_segment_queue l p :
  pipe_inv p →
  let g := pipe_segment l p in
  pipe_inv (seg_state g) ∧
  contents p ++ puts (seg_events g) = gots (seg_events g) ++ contents (seg_state g).
Proof.
  intros Hp. destruct l as [killed n rest|killed n|w]; simpl.
  - destruct (pipewrite_spec killed n rest [] p Hp) as (dn & rest' & -> & H). cbv zeta in H.
    destruct H as (H1 & H2 & H3 & _). split; [done|]. rewrite H2, H3. simpl.
    unfold puts, gots. by rewrite (omap_all EPut ev_put), (omap_none EPut ev_get) by done.
  - unfold piperead. destruct (pipe_empty p && writeopen p).
    { destruct killed; simpl; split; [done|by rewrite app_nil_r|done|by rewrite app_nil_r]. }
    pose proof (piperead_copy_spec n p Hp) as H. destruct (piperead_copy n p) as [bs p'].
    destruct H as (H1 & H2 & _). simpl. split; [done|].
    unfold puts, gots. by rewrite (omap_none EGet ev_put), (omap_all EGet ev_get), app_nil_r by done.
  - rewrite app_nil_r. by destruct w.
Qed.

(** A process waiting in the pipe may be killed, or have been. *)
Definition pipe_adjust (l l' : pipe_op) : Prop :=
  match l, l' with
  | OpWrite _ n rest, OpWrite _ n' rest' => n = n' ∧ rest = rest'
  | OpRead _ n, OpRead _ n' => n = n'
  | _, _ => False
  end.

(** ** Theorems *)

Definition pipe_runs := mruns pipe_segment pipe_adjust.
Definition idle : thread pchan pipe_op pipe_res := TDone None.

(** C18: a pipe is a queue. Whatever reads, writes, closes, sleeps and kills
    are interleaved on a fresh pipe, and however often the [uint] counters
    wrap, the bytes handed out so far followed by the bytes in the buffer
    are exactly the bytes stored so far, in order; and the buffer never
    holds more than [PIPESIZE] bytes. *)
Theorem pipe_fifo d ts es p ts' :
  length d = 512%nat →
  pipe_runs any_segment (pipe_new d, ts) es (p, ts') →
  puts es = gots es ++ contents p ∧ (length (contents p) ≤ 512)%nat.
Proof.
  intros Hd Hr.
  apply (monitor_invariant _ _ (λ es p, pipe_inv p ∧ puts es = gots es ++ contents p)) in Hr.
  - destruct Hr as [Hp Hq]. split; [done|]. rewrite contents_length.
    destruct Hp as (_ & _ & _ & Hu). unfold PIPESIZE in Hu. cbn [fst] in Hu. lia.
  - intros es' l p' [Hp Hq] _. destruct (pipe_segment_queue l p' Hp) as [Hp' Hq']. split; [done|].
    unfold puts, gots in *. rewrite !omap_app, Hq, <- !app_assoc. by rewrite Hq'.
  - simpl. split; [|done]. by vm_compute.
Qed.

(** Write three bytes, read two, on one thread. *)
Definition write_read : list (act pipe_op) :=
  [ACall 0 (OpWrite false 3 [7; 8; 9]); ASeg 0; ACall 0 (OpRead false 2); ASeg 0].

Lemma pipe_fifo_witness :
  ∃ es p ts',
    pipe_runs any_segment (pipe_new (replicate 512 0), [idle]) es (p, ts')
    ∧ puts es = [7; 8; 9] ∧ gots es = [7; 8] ∧ puts es = gots es ++ contents p.
Proof.
  destruct (run_acts pipe_segment (λ _ _, true) write_read (pipe_new (replicate 512 0)) [idle] [])
    as [[[p ts'] es]|] eqn:E; [|by vm_compute in E].
  assert (Hr : pipe_runs any_segment (pipe_new (replicate 512 0), [idle]) es (p, ts')).
  { by eapply run_acts_runs; [|apply mruns_refl|exact E]. }
  exists es, p, ts'. split; [exact Hr|]. split_and!.
  - vm_compute in E. by injection E as <- <- <-.
  - vm_compute in E. by injection E as <- <- <-.
  - by apply (pipe_fifo (replicate 512 0) [idle] es p ts').
Defined.

(** Why a thread may sleep. *)
Definition pipe_reason (c : pchan) (l : pipe_op) (p : pipe) : Prop :=
  match c with
  | CRead => used p = 0 ∧ writeopen p = true
  | CWrite => used p = PIPESIZE ∧ readopen p = true
  end.

(** A write that fails has stored nothing before it failed. *)
Definition clean_failure (l : pipe_op) (p : pipe) : Prop :=
  seg_end (pipe_segment l p) = Returns (RWrite (-1)) → seg_events (pipe_segment l p) = [].

Lemma contents_used p : pipe_inv p → used p = Z.of_nat (length (contents p)).
Proof.
  intros _. rewrite contents_length. pose proof (u32_range (nwrite p - nread p)). unfold used in *. lia.
Qed.

Lemma pipe_sleep_reason l p c l' :
  pipe_inv p → seg_end (pipe_segment l p) = Sleeps c l' →
  pipe_reason c l' (seg_state (pipe_segment l p)).
Proof.
  intros Hp. destruct l as [killed n rest|killed n|w]; simpl.
  - destruct (pipewrite_spec killed n rest [] p Hp) as (dn & rest' & -> & H). cbv zeta in H.
    destruct H as (_ & _ & _ & Hro & _ & [(_ & _ & ->)|(_ & Hu & H)]); [done|].
    destruct (readopen p), killed; simpl in H; destruct H as [_ ->]; try done. intros [= <- _]. by split.
  - unfold piperead. destruct (pipe_empty p && writeopen p) eqn:E.
    + destruct killed; [done|]. simpl. intros [= <- <-]. apply andb_true_iff in E as [E1 E2].
      rewrite pipe_empty_spec in E1 by done. apply Z.eqb_eq in E1. by split.
    + by destruct (piperead_copy n p).
  - done.
Qed.

Lemma pipe_reason_stable l p c l' :
  pipe_inv p → clean_failure l p → pipe_reason c l' p → c ∉ seg_wakes (pipe_segment l p) →
  pipe_reason c l' (seg_state (pipe_segment l p)).
Proof.
  intros Hp Hok Hq Hc. unfold clean_failure in Hok.
  destruct l as [killed n rest|killed n|w]; simpl in *.
  - destruct (pipewrite_spec killed n rest [] p Hp) as (dn & rest' & -> & H). cbv zeta in H.
    destruct H as (Hp' & Hct & Hev & Hro & Hwo & H).
    assert (Hlen : used (seg_state (pipewrite killed n (dn ++ rest') [] p)) = used p + Z.of_nat (length dn)).
    { rewrite (contents_used _ Hp'), (contents_used _ Hp), Hct, length_app. lia. }
    destruct c; simpl in *.
    + destruct H as [(_ & Hw & _)|(_ & _ & H)]; [rewrite Hw in Hc; by destruct Hc; constructor|].
      destruct (negb (readopen p) || killed); destruct H as [Hw Hr]; [|rewrite Hw in Hc; by destruct Hc; constructor].
      specialize (Hok Hr). rewrite Hev in Hok. simpl in Hok. apply fmap_nil_inv in Hok as ->.
      rewrite Hlen, Hwo. simpl. by rewrite Z.add_0_r.
    + rewrite Hlen, Hro. destruct Hp' as (_ & _ & _ & Hu). rewrite Hlen in Hu. split; [lia|apply Hq].
  - unfold piperead in *. destruct (pipe_empty p && writeopen p) eqn:E; [by destruct killed|].
    destruct c; simpl in *.
    + rewrite (pipe_empty_spec p Hp) in E. destruct Hq as [Hu Hq]. by rewrite Hu, Hq in E.
    + destruct (piperead_copy n p). simpl in Hc. by destruct Hc; constructor.
  - unfold pipeclose in *. destruct w, c; simpl in *; try done; by destruct Hc; constructor.
Qed.

(** C29: no wakeup is lost. As long as no write fails after it has stored
    bytes, in every interleaving a thread asleep in [piperead] is waiting for
    an empty pipe with an open write end, and a thread asleep in [pipewrite]
    for a full pipe with an open read end: data, space or end-of-file never
    go unnoticed by a sleeper. *)
Theorem pipe_sleepers_justified d ts es p ts' i c l :
  length d = 512%nat → Forall (λ t, ∀ c l, t ≠ TAsleep c l) ts →
  pipe_runs clean_failure (pipe_new d, ts) es (p, ts') →
  ts' !! i = Some (TAsleep c l) → pipe_reason c l p.
Proof.
  intros Hd Hts Hr Hi.
  apply (no_lost_wakeup pipe_segment pipe_adjust pipe_inv pipe_reason clean_failure) in Hr.
  - apply (proj2 Hr i c l Hi).
  - intros l0 s Hs _. by apply pipe_segment_queue.
  - intros. by apply pipe_sleep_reason.
  - intros. by apply pipe_reason_stable.
  - simpl. by vm_compute.
  - intros j c' l' Hj. simpl in Hj. by destruct (Forall_lookup_1 _ _ _ _ Hts Hj c' l').
Qed.

(** A reader on an empty pipe goes to sleep. *)
Lemma pipe_sleepers_justified_witness :
  ∃ es p ts',
    pipe_runs clean_failure (pipe_new (replicate 512 0), [idle]) es (p, ts')
    ∧ ts' !! 0%nat = Some (TAsleep CRead (OpRead false 2)) ∧ used p = 0 ∧ writeopen p = true.
Proof.
  destruct (run_acts pipe_segment (λ l _, match l with OpRead _ _ => true | _ => false end)
    [ACall 0 (OpRead false 2); ASeg 0] (pipe_new (replicate 512 0)) [idle] [])
    as [[[p ts'] es]|] eqn:E; [|by vm_compute in E].
  assert (Hr : pipe_runs clean_failure (pipe_new (replicate 512 0), [idle]) es (p, ts')).
  { eapply run_acts_runs; [|apply mruns_refl|exact E]. intros [| |] s H; try done.
    unfold clean_failure; simpl. unfold piperead. repeat case_match; done. }
  exists es, p, ts'. split; [exact Hr|].
  assert (Hi : ts' !! 0%nat = Some (TAsleep CRead (OpRead false 2))).
  { vm_compute in E. by injection E as <- <- <-. }
  split; [exact Hi|].
  apply (pipe_sleepers_justified (replicate 512 0) [idle] es p ts' 0 CRead (OpRead false 2));
    [done| |exact Hr|exact Hi]. by repeat constructor.
Defined.

(** A reader sleeps; a killed writer stores a full buffer and fails. *)
Definition killed_write : list (act pipe_op) :=
  [ACall 0 (OpRead false 1); ASeg 0; ACall 1 (OpWrite true 513 (replicate 513 7)); ASeg 1].

(** The proviso is needed. [pipewrite] tests [killed] before it calls
    [wakeup(&p->nread)], so a killed writer that fills the buffer returns -1
    and leaves a reader asleep on a pipe that holds 512 bytes. *)
Theorem pipe_killed_writer_loses_wakeup :
  ∃ es p ts' l,
    pipe_runs any_segment (pipe_new (replicate 512 0), [idle; idle]) es (p, ts')
    ∧ ts' !! 0%nat = Some (TAsleep CRead l) ∧ length (contents p) = 512%nat
    ∧ ts' !! 1%nat = Some (TDone (Some (RWrite (-1)))).
Proof.
  destruct (run_acts pipe_segment (λ _ _, true) killed_write (pipe_new (replicate 512 0)) [idle; idle] [])
    as [[[p ts'] es]|] eqn:E; [|by vm_compute in E].
  assert (Hr : pipe_runs any_segment (pipe_new (replicate 512 0), [idle; idle]) es (p, ts')).
  { by eapply run_acts_runs; [|apply mruns_refl|exact E]. }
  exists es, p, ts', (OpRead false 1). split; [exact Hr|].
  rewrite contents_length. vm_compute in E. by injection E as <- <- <-.
Qed.

(** What one call returns. [piperead] returns the oldest bytes, as many
    as there are up to [n], or 0 at end of file; [pipewrite] returns [n] when
    it could store everything, and -1 only when the pipe is full and its
    read end closed or the caller killed. *)
Theorem pipe_calls_return killed n p rest :
  pipe_inv p →
  (∀ r bs, seg_end (piperead killed n p) = Returns (RRead r bs) → r ≠ -1 →
     bs = take n (contents p) ∧ r = Z.of_nat (length bs)
     ∧ contents (seg_state (piperead killed n p)) = drop n (contents p)
     ∧ (r = 0 → (0 < n)%nat → contents p = [] ∧ writeopen p = false)) ∧
  (∀ r, seg_end (pipewrite killed (Z.of_nat (length rest)) rest [] p) = Returns (RWrite r) →
     r = Z.of_nat (length rest)
       ∧ contents (seg_state (pipewrite killed (Z.of_nat (length rest)) rest [] p)) = contents p ++ rest
     ∨ r = -1 ∧ (readopen p = false ∨ killed = true)
       ∧ used (seg_state (pipewrite killed (Z.of_nat (length rest)) rest [] p)) = PIPESIZE).
Proof.
  intros Hp. split.
  - intros r bs. unfold piperead. pose proof (pipe_empty_spec p Hp) as He.
    pose proof (piperead_copy_spec n p Hp) as H. destruct (pipe_empty p && writeopen p) eqn:E.
    { destruct killed; simpl; [|done]. by intros [= <- <-]. }
    destruct (piperead_copy n p) as [bs' p']. simpl. intros [= <- <-] _.
    destruct H as (_ & Hc & Hl & _).
    assert (bs' = take n (contents p)) as Hbs.
    { rewrite Hc in Hl |- *. rewrite length_app in Hl.
      destruct (decide (n ≤ length bs')%nat).
      - assert (n = length bs') as -> by lia. by rewrite take_app_length.
      - assert (contents p' = []) as -> by (apply nil_length_inv; lia).
        rewrite app_nil_r, take_ge by lia. done. }
    split; [done|]. split; [done|]. split.
    { apply (app_inv_head bs'). rewrite <- Hc, Hbs. by rewrite take_drop. }
    intros Hz Hn. destruct (contents p) eqn:Ec; [|rewrite Hbs in Hz; destruct n; simpl in Hz; lia].
    split; [done|]. rewrite He, (contents_used p Hp), Ec in E. by simpl in E.
  - intros r. destruct (pipewrite_spec killed (Z.of_nat (length rest)) rest [] p Hp) as (dn & rest' & E & H).
    cbv zeta in H. destruct H as (_ & Hc & _ & _ & _ & [(-> & _ & ->)|(_ & Hu & H)]).
    + intros [= <-]. left. rewrite app_nil_r in E. subst dn. done.
    + destruct (readopen p), killed; simpl in H; destruct H as [_ ->]; try done; intros [= <-]; right; auto.
Qed.

Lemma pipe_calls_return_witness :
  ∃ r bs, seg_end (piperead false 2 (put_byte 8 (put_byte 7 (pipe_new (replicate 512 0)))))
      = Returns (RRead r bs) ∧ bs = [7; 8] ∧ r = 2.
Proof.
  destruct (pipe_calls_return false 2 (put_byte 8 (put_byte 7 (pipe_new (replicate 512 0)))) []) as [H _].
  { by vm_compute. }
  exists 2, [7; 8]. split; [by vm_compute|].
  destruct (H 2 [7; 8]) as (Hb & Hr & _); [by vm_compute|done|]. split; [done|exact Hr].
Defined.
