(* ===== verification/SleepLock.v ===== *)
(** * Sleep locks

    [src/sleeplock.c]: a long-term lock whose waiters sleep on the address
    of the lock, protected by a spinlock. *)
From S2P Require Import Prelude Machine Monitor.

(** [struct sleeplock] without its spinlock and name. *)
Record sleeplock := SleepLock { locked : bool; lpid : Z }.

Definition initsleeplock : sleeplock := SleepLock false 0.

(** Calls in progress, with the pid of the caller. *)
Inductive slop := OpAcquire (pid : Z) | OpRelease | OpHolding (pid : Z).
Inductive slres := RUnit | RHolding (b : bool).
Inductive slev := EAcquired (pid : Z) | EReleased.

Definition sl_seg := segment sleeplock () slop slres slev.

Definition acquiresleep (pid : Z) (lk : sleeplock) : sl_seg :=
  if locked lk then Segment lk [] [] (Sleeps () (OpAcquire pid))
  else Segment (SleepLock true pid) [] [EAcquired pid] (Returns RUnit).

Definition releasesleep (lk : sleeplock) : sl_seg :=
  Segment (SleepLock false 0) [()] [EReleased] (Returns RUnit).

Definition holdingsleep (pid : Z) (lk : sleeplock) : sl_seg :=
  Segment lk [] [] (Returns (RHolding (locked lk && (lpid lk =? pid)))).

Definition sl_segment (l : slop) (lk : sleeplock) : sl_seg :=
  match l with
  | OpAcquire pid => acquiresleep pid lk
  | OpRelease => releasesleep lk
  | OpHolding pid => holdingsleep pid lk
  end.

(** Callers release a lock only when it is held. *)
Definition disciplined (l : slop) (lk : sleeplock) : Prop := l = OpRelease → locked lk = true.

Definition sl_runs := mruns sl_segment (λ _ _, False).

(** Who holds the lock after the events: the last to acquire it, if nobody
    released it since. [None] marks an acquisition of a held lock or a
    release of a free one. *)
Fixpoint holder (h : option Z) (es : list slev) : option (option Z) :=
  match es with
  | [] => Some h
  | EAcquired pid :: es' => match h with None => holder (Some pid) es' | Some _ => None end
  | EReleased :: es' => match h with Some _ => holder None es' | None => None end
  end.

Lemma holder_app h es fs : holder h (es ++ fs) = holder h es ≫= λ h', holder h' fs.
Proof.
  revert h. induction es as [|[pid|] es IH]; intros h; simpl; [done|destruct h; simpl..]; auto.
Qed.

Definition lock_holder (lk : sleeplock) : option Z := if locked lk then Some (lpid lk) else None.

Lemma sl_segment_holder l lk :
  disciplined l lk →
  holder (lock_holder lk) (seg_events (sl_segment l lk)) = Some (lock_holder (seg_state (sl_segment l lk))).
Proof.
  unfold disciplined. intros Hd. destruct lk as [b q], l as [pid| |pid]; simpl in *; try done.
  - by destruct b.
  - by rewrite Hd.
Qed.

(** A sleep lock excludes. In every interleaving of calls in which a lock
    is released only while held, acquisitions and releases alternate, the
    lock's fields name the process that acquired it last, [holdingsleep]
    answers accordingly, and a thread sleeps in [acquiresleep] only while
    somebody else holds the lock. *)
Theorem sleeplock_excludes ts es lk ts' :
  Forall (λ t, ∀ c l, t ≠ TAsleep c l) ts →
  sl_runs disciplined (initsleeplock, ts) es (lk, ts') →
  holder None es = Some (lock_holder lk)
  ∧ (∀ pid, seg_end (holdingsleep pid lk) = Returns (RHolding (bool_decide (lock_holder lk = Some pid))))
  ∧ (∀ i l, ts' !! i = Some (TAsleep () l) → locked lk = true).
Proof.
  intros Hts Hr. split_and!.
  - apply (monitor_invariant _ _ (λ es lk, holder None es = Some (lock_holder lk))) in Hr; [done| |done].
    intros es' l s Hh Hok. rewrite holder_app, Hh. by apply sl_segment_holder.
  - intros pid. unfold holdingsleep, lock_holder. simpl. do 2 f_equal.
    destruct (locked lk); simpl; [|done].
    destruct (Z.eqb_spec (lpid lk) pid); symmetry;
      [by apply bool_decide_eq_true; f_equal|apply bool_decide_eq_false; congruence].
  - intros i l Hi. pose proof (no_lost_wakeup sl_segment (λ _ _, False) (λ _, True)
      (λ _ _ lk, locked lk = true) disciplined) as HQ.
    destruct (HQ) with (x := (initsleeplock, ts)) (es := es) (y := (lk, ts')) as [_ H]; try done.
    + intros [pid| |pid] s [] l' _ _; simpl; try done. unfold acquiresleep.
      by destruct (locked s) eqn:E.
    + intros [pid| |pid] s [] l' _ _ Hq Hc; simpl in *; try done.
      * unfold acquiresleep. by destruct (locked s) eqn:E.
      * by destruct Hc; constructor.
    + intros j c l' Hj. by destruct (Forall_lookup_1 _ _ _ _ Hts Hj c l').
    + by apply (H i () l).
Qed.

(** Two processes: 3 takes the lock, 4 sleeps. *)
Definition two_acquire : list (act slop) :=
  [ACall 0 (OpAcquire 3); ACall 1 (OpAcquire 4); ASeg 0; ASeg 1].

Lemma sleeplock_excludes_witness :
  ∃ es lk ts', sl_runs disciplined (initsleeplock, [TDone None; TDone None]) es (lk, ts')
    ∧ holder None es = Some (Some 3) ∧ ts' !! 1%nat = Some (TAsleep () (OpAcquire 4)) ∧ locked lk = true.
Proof.
  destruct (run_acts sl_segment (λ l _, match l with OpRelease => false | _ => true end) two_acquire
    initsleeplock [TDone None; TDone None] []) as [[[lk ts'] es]|] eqn:E; [|by vm_compute in E].
  assert (Hr : sl_runs disciplined (initsleeplock, [TDone None; TDone None]) es (lk, ts')).
  { eapply run_acts_runs; [|apply mruns_refl|exact E]. by intros [] s H ?. }
  exists es, lk, ts'. split; [exact Hr|].
  assert (Hi : ts' !! 1%nat = Some (TAsleep () (OpAcquire 4))).
  { vm_compute in E. by injection E as <- <- <-. }
  destruct (sleeplock_excludes [TDone None; TDone None] es lk ts') as (Hh & _ & Hs); [by repeat constructor|exact Hr|].
  split_and!; [|exact Hi|by apply (Hs 1%nat (OpAcquire 4))].
  rewrite Hh. vm_compute in E. by injection E as <- <- <-.
Defined.
