(* ===== verification/Clock.v ===== *)
(** * Clock ticks

    [ticks] and its lock: the timer interrupt of [src/trap.c], and
    [sys_sleep] and [sys_uptime] of [src/sysproc.c]. *)
From S2P Require Import Prelude Machine Monitor.

(** Operations in progress: [sys_sleep] before and after it has read
    [ticks0], [sys_uptime], and the timer interrupt on processor 0. *)
Inductive ckop :=
| OpSleep (killed : bool) (n : Z) (ticks0 : option Z)
| OpUptime
| OpTimer.
Inductive ckres := RSleep (r : Z) | RUptime (r : Z) | RTimer.
Inductive ckev := ETick.

Definition ck_seg := segment Z () ckop ckres ckev.

(** [while(ticks - ticks0 < n)]: the difference is a [uint], so the [int]
    [n] is compared as a [uint]. *)
Definition sys_sleep (killed : bool) (n : Z) (ticks0 : option Z) (ticks : Z) : ck_seg :=
  let t0 := default ticks ticks0 in
  let waited := u32 (ticks - t0) in
  if waited <? u32 n then
    if killed then Segment ticks [] [] (Returns (RSleep (-1)))
    else Segment ticks [] [] (Sleeps () (OpSleep killed n (Some t0)))
  else Segment ticks [] [] (Returns (RSleep 0)).

Definition sys_uptime (ticks : Z) : ck_seg := Segment ticks [] [] (Returns (RUptime (s32 ticks))).

(** The [IRQ_TIMER] case of [trap]. *)
Definition trap_timer (ticks : Z) : ck_seg := Segment (u32 (ticks + 1)) [()] [ETick] (Returns RTimer).

Definition ck_segment (l : ckop) (ticks : Z) : ck_seg :=
  match l with
  | OpSleep killed n ticks0 => sys_sleep killed n ticks0 ticks
  | OpUptime => sys_uptime ticks
  | OpTimer => trap_timer ticks
  end.

(** A sleeping process may be killed. *)
Definition ck_adjust (l l' : ckop) : Prop :=
  match l, l' with
  | OpSleep _ n t, OpSleep _ n' t' => n = n' ∧ t = t'
  | _, _ => False
  end.
Definition ck_runs := mruns ck_segment ck_adjust.


(** [t0] is when the call started; it has not waited long enough yet. *)
Definition still_early (l : ckop) (ticks : Z) : Prop :=
  match l with
  | OpSleep _ n (Some t0) => u32 (ticks - t0) < u32 n
  | _ => False
  end.

(** [sys_sleep(n)] that started at [t0] and is not killed returns 0 when
    the clock has advanced by exactly [(uint)n] ticks, also across a wrap of
    [ticks], and is woken in time: in every interleaving with timer
    interrupts, a thread asleep in [sys_sleep] still has ticks to wait. A
    negative [n] therefore sleeps for more than 2^31 ticks. *)
Theorem sys_sleep_duration ts es ticks ts' :
  Forall (λ t, ∀ c l, t ≠ TAsleep c l) ts →
  ck_runs any_segment (0, ts) es (ticks, ts') →
  (∀ i l, ts' !! i = Some (TAsleep () l) → still_early l ticks) ∧
  (∀ n t0 k, 0 ≤ t0 < 4294967296 → 0 ≤ k < 4294967296 →
     seg_end (sys_sleep false n (Some t0) (u32 (t0 + k))) =
       if k <? u32 n then Sleeps () (OpSleep false n (Some t0)) else Returns (RSleep 0)).
Proof.
  intros Hts Hr. split.
  - intros i l Hi. pose proof (no_lost_wakeup ck_segment ck_adjust (λ _, True)
      (λ _ l ticks, still_early l ticks) any_segment) as HQ.
    destruct HQ with (x := (0, ts)) (es := es) (y := (ticks, ts')) as [_ H]; try done.
    + intros [killed n ot| |] s [] l' _ _; simpl; try done. unfold sys_sleep.
      destruct (Z.ltb_spec (u32 (s - default s ot)) (u32 n)); [|done]. destruct killed; [done|].
      simpl. by intros [= <-].
    + intros [killed n ot| |] s [] l' _ _ Hq Hc; simpl in *; try done.
      * unfold sys_sleep. destruct (_ <? _); [by destruct killed|done].
      * by destruct Hc; constructor.
    + intros j c l' Hj. by destruct (Forall_lookup_1 _ _ _ _ Hts Hj c l').
    + by apply (H i () l).
  - intros n t0 k Ht Hk. unfold sys_sleep. simpl default.
    replace (u32 (u32 (t0 + k) - t0)) with k by (unfold u32; zmod).
    by destruct (k <? u32 n).
Qed.

(** Process 0 sleeps two ticks; one passes. *)
Definition sleep_tick : list (act ckop) :=
  [ACall 0 (OpSleep false 2 None); ASeg 0; ACall 1 OpTimer; ASeg 1; ASeg 0].

Lemma sys_sleep_duration_witness :
  ∃ es ts', ck_runs any_segment (0, [TDone None; TDone None]) es (1, ts')
    ∧ ts' !! 0%nat = Some (TAsleep () (OpSleep false 2 (Some 0)))
    ∧ still_early (OpSleep false 2 (Some 0)) 1
    ∧ seg_end (sys_sleep false (-1) (Some 4294967290) (u32 (4294967290 + 4294967294)))
      = Sleeps () (OpSleep false (-1) (Some 4294967290)).
Proof.
  destruct (run_acts ck_segment (λ _ _, true) sleep_tick 0 [TDone None; TDone None] [])
    as [[[ticks ts'] es]|] eqn:E; [|by vm_compute in E].
  assert (Hr : ck_runs any_segment (0, [TDone None; TDone None]) es (ticks, ts')).
  { by eapply run_acts_runs; [|apply mruns_refl|exact E]. }
  destruct (sys_sleep_duration [TDone None; TDone None] es ticks ts') as [H1 H2];
    [by repeat constructor|exact Hr|].
  assert (ticks = 1) as -> by (vm_compute in E; by injection E as <- <- <-).
  exists es, ts'. split; [exact Hr|].
  assert (Hi : ts' !! 0%nat = Some (TAsleep () (OpSleep false 2 (Some 0)))).
  { vm_compute in E. by injection E as <- <-. }
  split; [exact Hi|]. split; [by apply (H1 0%nat)|]. apply H2; lia.
Defined.
