(* ===== verification/Bio.v ===== *)
(** * The buffer cache

    [src/bio.c] over the synchronous effect of the disk driver
    [src/ide.c]: buffers in least-recently-used order, reference counts,
    the two flags, and the panics. The last part states what the cache
    promises to the log and the file system as a class, and proves that
    the code keeps the promise. *)
From S2P Require Import Prelude Machine.

Definition BSIZE : Z := 512.

(** The bytes of a block, by offset. *)
Definition block : Type := mem.

(** [struct buf]: the flags [B_VALID] and [B_DIRTY], the device and block
    number, the state of the sleep lock, the reference count, the data.
    The list pointers are the position in the list of buffers. *)
Record buf := Buf {
  b_valid : bool; b_dirty : bool; b_dev : Z; b_blockno : Z;
  b_locked : bool; b_refcnt : Z; b_data : block
}.
#[export] Instance eta_buf : Settable buf := λ b,
  Buf (b_valid b) (b_dirty b) (b_dev b) (b_blockno b) (b_locked b) (b_refcnt b) (b_data b).

(** [bcache], most recently used first; the drives, by number and block;
    every block written so far. *)
Record bio := Bio {
  bufs : list buf; drives : Z → Z → block; written : list (Z * Z * block); havedisk1 : bool
}.
#[export] Instance eta_bio : Settable bio := λ s,
  Bio (bufs s) (drives s) (written s) (havedisk1 s).

(** [binit]: every buffer zero, linked in. *)
Definition buf0 : buf := Buf false false 0 0 false 0 (λ _, 0).
Definition binit (d : Z → Z → block) (hd1 : bool) : bio :=
  Bio (replicate (Z.to_nat NBUF) buf0) d [] hd1.

(** The scans of [bget]: forward from [head.next], backward from
    [head.prev]. *)
Fixpoint scan_fwd (f : buf → bool) (l : list buf) : option nat :=
  match l with
  | [] => None
  | b :: l' => if f b then Some 0%nat else S <$> scan_fwd f l'
  end.

Fixpoint scan_bwd (f : buf → bool) (l : list buf) : option nat :=
  match l with
  | [] => None
  | b :: l' =>
      match scan_bwd f l' with
      | Some i => Some (S i)
      | None => if f b then Some 0%nat else None
      end
  end.

Definition is_block (dev bn : Z) (b : buf) : bool := (b_dev b =? dev) && (b_blockno b =? bn).
Definition is_free (b : buf) : bool := (b_refcnt b =? 0) && negb (b_dirty b).

Definition buf_at (i : nat) : M bio buf :=
  l ← gets bufs;
  match l !! i with Some b => mret b | None => panic "trap" end.
Definition upd_buf (i : nat) (f : buf → buf) : M bio () :=
  modify (λ s, s <| bufs := alter f i (bufs s) |>).

(** [acquiresleep(&b->lock)]: waits for ever when this thread holds it. *)
Definition lock_buf (i : nat) : M bio () :=
  b ← buf_at i;
  if b_locked b then hang else upd_buf i (λ b, b <| b_locked := true |>).

Definition bget (dev bn : Z) : M bio nat :=
  l ← gets bufs;
  match scan_fwd (is_block dev bn) l with
  | Some i =>
      upd_buf i (λ b, b <| b_refcnt := u32 (b_refcnt b + 1) |>);;
      lock_buf i;; mret i
  | None =>
      match scan_bwd is_free l with
      | Some i =>
          upd_buf i (λ b, b <| b_dev := dev |> <| b_blockno := bn |> <| b_valid := false |>
                            <| b_dirty := false |> <| b_refcnt := 1 |>);;
          lock_buf i;; mret i
      | None => panic "bget: no buffers"
      end
  end.

(** [iderw], with the effect of [idestart] and [ideintr]: the request has
    completed when it returns. *)
Definition iderw (i : nat) : M bio () :=
  b ← buf_at i;
  hd1 ← gets havedisk1;
  if negb (b_locked b) then panic "iderw: buf not locked"
  else if b_valid b && negb (b_dirty b) then panic "iderw: nothing to do"
  else if negb (b_dev b =? 0) && negb hd1 then panic "iderw: ide disk 1 not present"
  else if FSSIZE <=? b_blockno b then panic "incorrect blockno"
  else
    let drive := Z.land (b_dev b) 1 in
    (if b_dirty b
     then modify (λ s, s <| drives := (λ d n, if (d =? drive) && (n =? b_blockno b)
                                              then b_data b else drives s d n) |>
                         <| written := written s ++ [(drive, b_blockno b, b_data b)] |>)
     else d ← gets drives; upd_buf i (λ b', b' <| b_data := d drive (b_blockno b) |>));;
    upd_buf i (λ b, b <| b_valid := true |> <| b_dirty := false |>).

(** The buffer a [struct buf *] of block [bn] of [dev] points to. *)
Definition find_buf (dev bn : Z) : M bio nat :=
  l ← gets bufs;
  match scan_fwd (is_block dev bn) l with Some i => mret i | None => panic "trap" end.

Definition bread (dev bn : Z) : M bio () :=
  i ← bget dev bn;
  b ← buf_at i;
  when (negb (b_valid b)) (iderw i).

Definition bwrite (dev bn : Z) : M bio () :=
  i ← find_buf dev bn;
  b ← buf_at i;
  if negb (b_locked b) then panic "bwrite"
  else upd_buf i (λ b, b <| b_dirty := true |>);; iderw i.

(** Move the buffer at position [i] to the head of the list. *)
Definition to_front (i : nat) (l : list buf) : list buf :=
  match l !! i with Some b => b :: delete i l | None => l end.

Definition brelse (dev bn : Z) : M bio () :=
  i ← find_buf dev bn;
  b ← buf_at i;
  if negb (b_locked b) then panic "brelse"
  else
    upd_buf i (λ b, b <| b_locked := false |>);;
    upd_buf i (λ b, b <| b_refcnt := u32 (b_refcnt b - 1) |>);;
    b' ← buf_at i;
    when (b_refcnt b' =? 0) (modify (λ s, s <| bufs := to_front i (bufs s) |>)).

(** [b->data] and [b->flags |= B_DIRTY] as the callers use them. *)
Definition set_data (dev bn : Z) (v : block) : M bio () :=
  i ← find_buf dev bn; upd_buf i (λ b, b <| b_data := v |>).
Definition set_dirty (dev bn : Z) : M bio () :=
  i ← find_buf dev bn; upd_buf i (λ b, b <| b_dirty := true |>).

(** ** What the cache promises *)

(** A cache of the blocks of one device. [bc_view] is the contents a reader
    gets, [bc_disk] what is on the disk, [bc_held] the blocks the thread has
    locked, [bc_pinned] those marked dirty, [bc_busy] the number of buffers
    that are one or the other. *)
Class BufCache (B : Type) := {
  bc_inv : B → Prop;
  bc_view : B → Z → block;
  bc_disk : B → Z → block;
  bc_writes : B → list (Z * block);
  bc_held : B → Z → bool;
  bc_pinned : B → Z → bool;
  bc_busy : B → nat;
  bc_read : Z → M B ();
  bc_set : Z → block → M B ();
  bc_write : Z → M B ();
  bc_release : Z → M B ();
  bc_pin : Z → M B ();

  bc_clean s b :
    bc_inv s → bc_held s b = false → bc_pinned s b = false → bc_view s b = bc_disk s b;
  bc_quiet s :
    bc_inv s → (∀ b, bc_held s b = false) → (∀ b, bc_pinned s b = false) → bc_busy s = 0%nat;
  bc_read_ok s b :
    bc_inv s → 0 ≤ b < FSSIZE → bc_held s b = false →
    bc_pinned s b = true ∨ (bc_busy s < Z.to_nat NBUF)%nat →
    ∃ s', bc_read b s = Ok () s' ∧ bc_inv s' ∧
      (∀ x, bc_view s' x = bc_view s x) ∧ (∀ x, bc_disk s' x = bc_disk s x) ∧
      bc_writes s' = bc_writes s ∧
      (∀ x, bc_held s' x = (x =? b) || bc_held s x) ∧ (∀ x, bc_pinned s' x = bc_pinned s x) ∧
      bc_busy s' = if bc_pinned s b then bc_busy s else S (bc_busy s);
  bc_set_ok s b v :
    bc_inv s → bc_held s b = true →
    ∃ s', bc_set b v s = Ok () s' ∧ bc_inv s' ∧
      (∀ x, bc_view s' x = if x =? b then v else bc_view s x) ∧ (∀ x, bc_disk s' x = bc_disk s x) ∧
      bc_writes s' = bc_writes s ∧
      (∀ x, bc_held s' x = bc_held s x) ∧ (∀ x, bc_pinned s' x = bc_pinned s x) ∧
      bc_busy s' = bc_busy s;
  bc_write_ok s b :
    bc_inv s → bc_held s b = true →
    ∃ s', bc_write b s = Ok () s' ∧ bc_inv s' ∧
      (∀ x, bc_view s' x = bc_view s x) ∧
      (∀ x, bc_disk s' x = if x =? b then bc_view s b else bc_disk s x) ∧
      bc_writes s' = bc_writes s ++ [(b, bc_view s b)] ∧
      (∀ x, bc_held s' x = bc_held s x) ∧
      (∀ x, bc_pinned s' x = negb (x =? b) && bc_pinned s x) ∧
      bc_busy s' = bc_busy s;
  bc_release_ok s b :
    bc_inv s → bc_held s b = true → bc_pinned s b = true ∨ bc_view s b = bc_disk s b →
    ∃ s', bc_release b s = Ok () s' ∧ bc_inv s' ∧
      (∀ x, bc_view s' x = bc_view s x) ∧ (∀ x, bc_disk s' x = bc_disk s x) ∧
      bc_writes s' = bc_writes s ∧
      (∀ x, bc_held s' x = negb (x =? b) && bc_held s x) ∧ (∀ x, bc_pinned s' x = bc_pinned s x) ∧
      S (bc_busy s') = if bc_pinned s b then S (bc_busy s) else bc_busy s;
  bc_pin_ok s b :
    bc_inv s → bc_held s b = true →
    ∃ s', bc_pin b s = Ok () s' ∧ bc_inv s' ∧
      (∀ x, bc_view s' x = bc_view s x) ∧ (∀ x, bc_disk s' x = bc_disk s x) ∧
      bc_writes s' = bc_writes s ∧
      (∀ x, bc_held s' x = bc_held s x) ∧ (∀ x, bc_pinned s' x = (x =? b) || bc_pinned s x) ∧
      bc_busy s' = bc_busy s
}.

(** ** The list of buffers as a map *)

(** The buffer of block [bn] of the root device. *)
Definition look (l : list buf) (bn : Z) : option buf :=
  scan_fwd (is_block ROOTDEV bn) l ≫= λ i, l !! i.

Definition bkey (b : buf) : option Z := if b_dev b =? 0 then None else Some (b_blockno b).

(** A buffer never used, or one of the root device: readable, counted once
    while locked, and a copy of the disk block unless locked or dirty. *)
Definition buf_ok (d : Z → Z → block) (b : buf) : Prop :=
  b_dev b = 0 ∧ b_locked b = false ∧ b_dirty b = false ∧ b_refcnt b = 0
  ∨ b_dev b = ROOTDEV ∧ b_valid b = true ∧ 0 ≤ b_blockno b < FSSIZE
    ∧ b_refcnt b = (if b_locked b then 1 else 0)
    ∧ (b_locked b = false → b_dirty b = false → b_data b = d 1 (b_blockno b)).

Definition is_busy (b : buf) : bool := b_locked b || b_dirty b.
Definition busy_count (l : list buf) : nat := length (List.filter is_busy l).

Record bufs_inv (d : Z → Z → block) (l : list buf) : Prop := {
  bi_len : length l = Z.to_nat NBUF;
  bi_nodup : NoDup (omap bkey l);
  bi_ok : Forall (buf_ok d) l
}.

Lemma bufs_inv_perm d l l' : l ≡ₚ l' → bufs_inv d l → bufs_inv d l'.
Proof.
  intros Hp [H1 H2 H3]. split; [by rewrite <- Hp|by rewrite <- Hp|by rewrite <- Hp].
Qed.

Lemma busy_count_perm l l' : l ≡ₚ l' → busy_count l = busy_count l'.
Proof.
  unfold busy_count. induction 1 as [|x l l' _ IH|x y l|l1 l2 l3 _ IH1 _ IH2]; simpl; [done| | |congruence].
  - destruct (is_busy x); simpl; congruence.
  - by destruct (is_busy x), (is_busy y).
Qed.

Lemma is_block_root bn b : is_block ROOTDEV bn b = true ↔ b_dev b = ROOTDEV ∧ b_blockno b = bn.
Proof. unfold is_block. by rewrite andb_true_iff, !Z.eqb_eq. Qed.

Lemma look_cons b l bn :
  look (b :: l) bn = if is_block ROOTDEV bn b then Some b else look l bn.
Proof.
  unfold look. simpl. destruct (is_block ROOTDEV bn b); [done|].
  destruct (scan_fwd (is_block ROOTDEV bn) l); done.
Qed.

Lemma look_elem l bn b : look l bn = Some b → b ∈ l ∧ b_dev b = ROOTDEV ∧ b_blockno b = bn.
Proof.
  induction l as [|c l IH]; [done|]. rewrite look_cons. destruct (is_block ROOTDEV bn c) eqn:E.
  - intros [= ->]. split; [left|by apply is_block_root].
  - intros H. destruct (IH H). split; [by right|done].
Qed.

Lemma look_key l b :
  NoDup (omap bkey l) → b ∈ l → b_dev b = ROOTDEV → look l (b_blockno b) = Some b.
Proof.
  induction l as [|c l IH]; [by intros _ ?%elem_of_nil|]. csimpl. intros Hnd Hin Hdev. rewrite look_cons.
  destruct (is_block ROOTDEV (b_blockno b) c) eqn:E.
  - apply elem_of_cons in Hin as [->|Hin]; [done|]. exfalso. apply is_block_root in E as [E1 E2].
    assert (bkey c = Some (b_blockno c)) as Hc by (unfold bkey; by rewrite E1).
    rewrite Hc in Hnd. apply NoDup_cons in Hnd as [Hnd _]. apply Hnd.
    apply list_elem_of_omap. exists b. split; [done|]. unfold bkey. by rewrite Hdev, E2.
  - apply elem_of_cons in Hin as [->|Hin].
    + assert (is_block ROOTDEV (b_blockno c) c = true) by (by apply is_block_root). congruence.
    + apply IH; [|done|done]. destruct (bkey c); [by apply NoDup_cons in Hnd as [_ ?]|done].
Qed.

Lemma look_perm l l' bn : NoDup (omap bkey l) → l ≡ₚ l' → look l bn = look l' bn.
Proof.
  intros Hnd Hp. assert (Hnd' : NoDup (omap bkey l')) by (by rewrite <- Hp).
  destruct (look l bn) as [b|] eqn:E.
  - apply look_elem in E as (Hin & Hd & <-). symmetry. apply look_key; [done|by rewrite <- Hp|done].
  - destruct (look l' bn) as [b|] eqn:E'; [|done]. apply look_elem in E' as (Hin & Hd & <-).
    rewrite look_key in E; [done|done|by rewrite Hp|done].
Qed.

(** A found buffer splits the list at the position the scan returns. *)
Lemma look_split l bn b :
  look l bn = Some b → ∃ l1 l2, l = l1 ++ b :: l2 ∧ scan_fwd (is_block ROOTDEV bn) l = Some (length l1).
Proof.
  revert b. induction l as [|c l IH]; [done|]. intros b. rewrite look_cons. simpl.
  destruct (is_block ROOTDEV bn c) eqn:E.
  - intros [= ->]. by exists [], l.
  - intros H. destruct (IH b H) as (l1 & l2 & -> & Hs). exists (c :: l1), l2. by rewrite Hs.
Qed.

Lemma look_none l bn : look l bn = None → scan_fwd (is_block ROOTDEV bn) l = None.
Proof.
  induction l as [|c l IH]; [done|]. rewrite look_cons. simpl. destruct (is_block ROOTDEV bn c); [done|].
  intros H. by rewrite IH.
Qed.

Lemma scan_bwd_split f l :
  match scan_bwd f l with
  | Some i => ∃ l1 b l2, l = l1 ++ b :: l2 ∧ i = length l1 ∧ f b = true
  | None => Forall (λ b, f b = false) l
  end.
Proof.
  induction l as [|c l IH]; simpl; [by constructor|]. destruct (scan_bwd f l) as [i|].
  - destruct IH as (l1 & b & l2 & -> & -> & Hf). by exists (c :: l1), b, l2.
  - destruct (f c) eqn:E; [by exists [], c, l|]. by constructor.
Qed.

(** *** Symbolic execution at a split list *)

Definition with_bufs (s : bio) (l : list buf) : bio := s <| bufs := l |>.

Section at_split.
Context {A : Type}.
Variables (s : bio) (l1 : list buf) (b : buf) (l2 : list buf).
Hypothesis E : bufs s = l1 ++ b :: l2.

Lemma at_buf (k : buf → M bio A) : (buf_at (length l1) ≫= k) s = k b s.
Proof using E. unfold buf_at. rewrite bind_assoc, bind_gets. by rewrite E, list_lookup_middle. Qed.

Lemma upd_at f : upd_buf (length l1) f s = Ok () (with_bufs s (l1 ++ f b :: l2)).
Proof using E.
  unfold upd_buf, modify, with_bufs, set_field. rewrite E. do 2 f_equal.
  by rewrite alter_app_r_alt, Nat.sub_diag by done.
Qed.

Lemma at_upd_buf f (k : () → M bio A) :
  (upd_buf (length l1) f ≫= k) s = k () (with_bufs s (l1 ++ f b :: l2)).
Proof using E. by erewrite bind_ok by apply upd_at. Qed.
End at_split.

(** *** Replacing one buffer *)

Section swap.
Variables (d d' : Z → Z → block) (b b' : buf) (rest : list buf).
Hypothesis Hinv : bufs_inv d (b :: rest).
Hypothesis Hdev : b_dev b = ROOTDEV.
Hypothesis Hdev' : b_dev b' = ROOTDEV.
Hypothesis Hbn : b_blockno b' = b_blockno b.

Lemma swap_key_notin : b_blockno b ∉ omap bkey rest.
Proof using Hinv Hdev.
  destruct Hinv as [_ Hnd _]. csimpl in Hnd. unfold bkey at 1 in Hnd. rewrite Hdev in Hnd.
  by apply NoDup_cons in Hnd as [? _].
Qed.

Lemma swap_inv :
  buf_ok d' b' → (∀ n, n ≠ b_blockno b → d' 1 n = d 1 n) → bufs_inv d' (b' :: rest).
Proof using All.
  intros Hok Hd. pose proof swap_key_notin as Hni. destruct Hinv as [Hl Hnd Hf]. split; [done| |].
  - csimpl in *. unfold bkey at 1. unfold bkey at 1 in Hnd. by rewrite Hdev', Hbn; rewrite Hdev in Hnd.
  - apply Forall_cons_1 in Hf as [_ Hf]. constructor; [done|]. rewrite Forall_forall in Hf |- *.
    intros c Hc. destruct (Hf c Hc) as [H0|(H1 & H2 & H3 & H4 & H5)]; [by left|right].
    split_and!; try done; try apply H3. intros Hlk Hdt. rewrite H5 by done. symmetry. apply Hd. intros E.
    apply Hni, list_elem_of_omap. exists c. split; [done|]. unfold bkey. rewrite H1. simpl. congruence.
Qed.

Lemma swap_look l l' x :
  l ≡ₚ b :: rest → l' ≡ₚ b' :: rest →
  look l x = (if x =? b_blockno b then Some b else look rest x)
  ∧ look l' x = (if x =? b_blockno b then Some b' else look rest x).
Proof using All.
  intros Hp Hp'. destruct Hinv as [_ Hnd _].
  assert (Hnd' : NoDup (omap bkey (b' :: rest))).
  { csimpl in *. unfold bkey at 1. unfold bkey at 1 in Hnd. by rewrite Hdev', Hbn; rewrite Hdev in Hnd. }
  rewrite (look_perm l (b :: rest)), (look_perm l' (b' :: rest)); [|by rewrite Hp'|done|by rewrite Hp|done].
  rewrite !look_cons. unfold is_block. rewrite Hdev, Hdev', Hbn. simpl.
  rewrite (Z.eqb_sym x). by destruct (b_blockno b =? x).
Qed.
End swap.

(** ** The interface implemented *)

Definition bio_inv (s : bio) : Prop := bufs_inv (drives s) (bufs s) ∧ havedisk1 s = true.
Definition bio_disk (s : bio) (bn : Z) : block := drives s 1 bn.
Definition bio_view (s : bio) (bn : Z) : block :=
  from_option b_data (drives s 1 bn) (look (bufs s) bn).
Definition bio_held (s : bio) (bn : Z) : bool := from_option b_locked false (look (bufs s) bn).
Definition bio_pinned (s : bio) (bn : Z) : bool := from_option b_dirty false (look (bufs s) bn).
Definition bio_busy (s : bio) : nat := busy_count (bufs s).
Definition bio_writes (s : bio) : list (Z * block) :=
  omap (λ '(dr, n, v), if dr =? 1 then Some (n, v) else None) (written s).

Lemma look_ok s bn b :
  bio_inv s → look (bufs s) bn = Some b →
  b_dev b = ROOTDEV ∧ b_blockno b = bn ∧ b_valid b = true ∧ 0 ≤ bn < FSSIZE
  ∧ b_refcnt b = (if b_locked b then 1 else 0)
  ∧ (b_locked b = false → b_dirty b = false → b_data b = drives s 1 bn).
Proof.
  intros [[_ _ Hf] _] Hl. apply look_elem in Hl as (Hin & Hd & <-).
  rewrite Forall_forall in Hf. destruct (Hf b Hin) as [(H0 & _)|(H1 & H2 & H3 & H4 & H5)]; [by rewrite H0 in Hd|].
  split_and!; try done; apply H3.
Qed.

Lemma bio_clean s bn :
  bio_inv s → bio_held s bn = false → bio_pinned s bn = false → bio_view s bn = bio_disk s bn.
Proof.
  unfold bio_held, bio_pinned, bio_view, bio_disk. intros Hi. destruct (look (bufs s) bn) as [b|] eqn:E; [|done].
  simpl. apply (look_ok s bn b Hi E).
Qed.

(** The common shape of the operations: one buffer [b] of block [bn] is
    replaced by [b'], the rest of the list is the same up to order, and the
    disk changes at most at [bn]. *)
Definition replaces (s s' : bio) (b b' : buf) : Prop :=
  b_dev b' = ROOTDEV ∧ b_blockno b' = b_blockno b
  ∧ havedisk1 s' = havedisk1 s
  ∧ ∃ rest, bufs s ≡ₚ b :: rest ∧ bufs s' ≡ₚ b' :: rest.

Lemma replaces_inv s s' bn b b' :
  bio_inv s → look (bufs s) bn = Some b → replaces s s' b b' →
  buf_ok (drives s') b' → (∀ n, n ≠ bn → drives s' 1 n = drives s 1 n) → bio_inv s'.
Proof.
  intros Hi Hl (Hd & Hbn & Hh & rest & Hp & Hp') Hok Hdr.
  destruct (look_ok s bn b Hi Hl) as (Hdev & Hb & _). destruct Hi as [Hi Hhd].
  split; [|congruence]. eapply bufs_inv_perm; [symmetry; exact Hp'|].
  eapply (swap_inv (drives s) _ b); try done; [by eapply bufs_inv_perm|by rewrite Hb].
Qed.

Lemma replaces_look s s' bn b b' x :
  bio_inv s → look (bufs s) bn = Some b → replaces s s' b b' →
  look (bufs s') x = if x =? bn then Some b' else look (bufs s) x.
Proof.
  intros Hi Hl (Hd & Hbn & Hh & rest & Hp & Hp').
  destruct (look_ok s bn b Hi Hl) as (Hdev & Hb & _). destruct Hi as [Hi Hhd].
  destruct (swap_look (drives s) (drives s') b b' rest) with (l := bufs s) (l' := bufs s') (x := x) as [E1 E2]; try done.
  - by eapply bufs_inv_perm.
  - rewrite E2, E1, Hb. by destruct (x =? bn).
Qed.

Lemma replaces_busy s s' b b' :
  replaces s s' b b' →
  (bio_busy s' + (if is_busy b then 1 else 0) = bio_busy s + (if is_busy b' then 1 else 0))%nat.
Proof.
  intros (_ & _ & _ & rest & Hp & Hp'). unfold bio_busy. rewrite (busy_count_perm _ _ Hp), (busy_count_perm _ _ Hp').
  unfold busy_count. simpl. destruct (is_busy b), (is_busy b'); simpl; lia.
Qed.

(** *** The operations *)

Lemma find_at s bn b :
  look (bufs s) bn = Some b →
  ∃ l1 l2, bufs s = l1 ++ b :: l2 ∧
    ∀ A (k : nat → M bio A), (find_buf ROOTDEV bn ≫= k) s = k (length l1) s.
Proof.
  intros Hl. destruct (look_split _ _ _ Hl) as (l1 & l2 & E & Hs). exists l1, l2. split; [done|].
  intros A k. unfold find_buf. rewrite bind_assoc, bind_gets. by rewrite Hs.
Qed.

(** Changing a buffer in place. *)
Lemma replaces_middle s l1 b l2 s' b' :
  bufs s = l1 ++ b :: l2 → bufs s' = l1 ++ b' :: l2 → havedisk1 s' = havedisk1 s →
  b_dev b' = ROOTDEV → b_blockno b' = b_blockno b → replaces s s' b b'.
Proof.
  intros E E' Hh Hd Hb. split_and!; try done. exists (l1 ++ l2). rewrite E, E'.
  split; by rewrite Permutation_middle.
Qed.

Ltac destruct_look s bn b Hl :=
  destruct (look (bufs s) bn) as [b|] eqn:Hl; [|done].

Lemma bio_set_ok s bn v :
  bio_inv s → bio_held s bn = true →
  ∃ s', set_data ROOTDEV bn v s = Ok () s' ∧ bio_inv s' ∧
    (∀ x, bio_view s' x = if x =? bn then v else bio_view s x) ∧ (∀ x, bio_disk s' x = bio_disk s x) ∧
    bio_writes s' = bio_writes s ∧
    (∀ x, bio_held s' x = bio_held s x) ∧ (∀ x, bio_pinned s' x = bio_pinned s x) ∧
    bio_busy s' = bio_busy s.
Proof.
  intros Hi Hh. unfold bio_held in Hh. destruct_look s bn b Hl. simpl in Hh.
  destruct (find_at s bn b Hl) as (l1 & l2 & E & Hf). destruct (look_ok s bn b Hi Hl) as (Hd & Hb & Hv & Hr & Hc & _).
  set (b' := b <| b_data := v |>). set (s' := with_bufs s (l1 ++ b' :: l2)).
  assert (Hrep : replaces s s' b b') by (by eapply replaces_middle).
  exists s'. split; [|split].
  - unfold set_data. rewrite Hf. by apply upd_at.
  - eapply replaces_inv; [done..| |done]. right. simpl. rewrite Hb, Hh in *. done.
  - unfold bio_view, bio_held, bio_pinned.
    split_and!; try done; try (intros x; rewrite (replaces_look s s' bn b b' x Hi Hl Hrep)).
    + by destruct (x =? bn).
    + destruct (Z.eqb_spec x bn) as [->|]; [by rewrite Hl|done].
    + destruct (Z.eqb_spec x bn) as [->|]; [by rewrite Hl|done].
    + pose proof (replaces_busy s s' b b' Hrep) as Hy. unfold is_busy, b' in Hy. simpl in Hy. lia.
Qed.

Lemma bio_pin_ok s bn :
  bio_inv s → bio_held s bn = true →
  ∃ s', set_dirty ROOTDEV bn s = Ok () s' ∧ bio_inv s' ∧
    (∀ x, bio_view s' x = bio_view s x) ∧ (∀ x, bio_disk s' x = bio_disk s x) ∧
    bio_writes s' = bio_writes s ∧
    (∀ x, bio_held s' x = bio_held s x) ∧ (∀ x, bio_pinned s' x = (x =? bn) || bio_pinned s x) ∧
    bio_busy s' = bio_busy s.
Proof.
  intros Hi Hh. unfold bio_held in Hh. destruct_look s bn b Hl. simpl in Hh.
  destruct (find_at s bn b Hl) as (l1 & l2 & E & Hf). destruct (look_ok s bn b Hi Hl) as (Hd & Hb & Hv & Hr & Hc & _).
  set (b' := b <| b_dirty := true |>). set (s' := with_bufs s (l1 ++ b' :: l2)).
  assert (Hrep : replaces s s' b b') by (by eapply replaces_middle).
  exists s'. split; [|split].
  - unfold set_dirty. rewrite Hf. by apply upd_at.
  - eapply replaces_inv; [done..| |done]. right. simpl. rewrite Hb, Hh in *. done.
  - unfold bio_view, bio_held, bio_pinned.
    split_and!; try done; try (intros x; rewrite (replaces_look s s' bn b b' x Hi Hl Hrep)).
    + destruct (Z.eqb_spec x bn) as [->|]; [by rewrite Hl|done].
    + destruct (Z.eqb_spec x bn) as [->|]; [by rewrite Hl|done].
    + by destruct (x =? bn).
    + pose proof (replaces_busy s s' b b' Hrep) as Hy. unfold is_busy, b' in Hy. simpl in Hy. rewrite Hh in Hy. simpl in Hy. lia.
Qed.

(** [iderw] on a locked dirty buffer writes it through. *)
Lemma iderw_write s l1 b l2 :
  bufs s = l1 ++ b :: l2 → havedisk1 s = true → b_locked b = true → b_dirty b = true →
  b_dev b = ROOTDEV → b_blockno b < FSSIZE →
  iderw (length l1) s = Ok ()
    (with_bufs (s <| drives := (λ d n, if (d =? 1) && (n =? b_blockno b) then b_data b else drives s d n) |>
                  <| written := written s ++ [(1, b_blockno b, b_data b)] |>)
       (l1 ++ (b <| b_valid := true |> <| b_dirty := false |>) :: l2)).
Proof.
  intros E Hh Hl Hd Hdev Hb. unfold iderw. erewrite at_buf by done. rewrite bind_gets, Hh, Hl, Hd, Hdev.
  rewrite (proj2 (Z.leb_gt _ _)) by done. simpl. rewrite andb_false_r.
  rewrite bind_modify. by erewrite upd_at by done.
Qed.

(** [iderw] on a locked invalid buffer reads the block. *)
Lemma iderw_read s l1 b l2 :
  bufs s = l1 ++ b :: l2 → havedisk1 s = true → b_locked b = true → b_dirty b = false →
  b_valid b = false → b_dev b = ROOTDEV → b_blockno b < FSSIZE →
  iderw (length l1) s = Ok ()
    (with_bufs s (l1 ++ (b <| b_data := drives s 1 (b_blockno b) |>
                           <| b_valid := true |> <| b_dirty := false |>) :: l2)).
Proof.
  intros E Hh Hl Hd Hv Hdev Hb. unfold iderw. erewrite at_buf by done.
  rewrite bind_gets, Hh, Hl, Hd, Hv, Hdev.
  rewrite (proj2 (Z.leb_gt _ _)) by done. simpl.
  rewrite bind_assoc, bind_gets. erewrite at_upd_buf by done. simpl.
  erewrite upd_at by done. done.
Qed.

Lemma bio_write_ok s bn :
  bio_inv s → bio_held s bn = true →
  ∃ s', bwrite ROOTDEV bn s = Ok () s' ∧ bio_inv s' ∧
    (∀ x, bio_view s' x = bio_view s x) ∧
    (∀ x, bio_disk s' x = if x =? bn then bio_view s bn else bio_disk s x) ∧
    bio_writes s' = bio_writes s ++ [(bn, bio_view s bn)] ∧
    (∀ x, bio_held s' x = bio_held s x) ∧
    (∀ x, bio_pinned s' x = negb (x =? bn) && bio_pinned s x) ∧
    bio_busy s' = bio_busy s.
Proof.
  intros Hi Hh. unfold bio_held in Hh. destruct_look s bn b Hl. simpl in Hh.
  destruct (find_at s bn b Hl) as (l1 & l2 & E & Hf).
  destruct (look_ok s bn b Hi Hl) as (Hd & Hb & Hv & Hr & Hc & _).
  eexists. split.
  { unfold bwrite. rewrite Hf. erewrite at_buf by done. rewrite Hh. simpl.
    erewrite at_upd_buf by done. erewrite iderw_write; [reflexivity|done| |done..|]; [apply Hi|simpl; lia]. }
  set (b' := b <| b_dirty := true |> <| b_valid := true |> <| b_dirty := false |>).
  match goal with |- bio_inv ?x ∧ _ => set (s' := x) end.
  assert (Hrep : replaces s s' b b') by (by eapply replaces_middle).
  assert (Hdr : ∀ n, drives s' 1 n = if n =? bn then b_data b else drives s 1 n).
  { intros n. simpl. by rewrite Hb. }
  split.
  - eapply replaces_inv; [done..| |].
    + right. simpl. rewrite Hb, Hh in *. rewrite Z.eqb_refl. done.
    + intros n Hn. rewrite Hdr. by destruct (Z.eqb_spec n bn).
  - unfold bio_view, bio_held, bio_pinned, bio_disk.
    split_and!; try (intros x; rewrite ?Hdr, ?(replaces_look s s' bn b b' x Hi Hl Hrep)).
    + destruct (Z.eqb_spec x bn) as [->|]; [by rewrite Hl|done].
    + by rewrite Hl.
    + unfold bio_writes, s'. simpl. rewrite omap_app. simpl. by rewrite Hl, Hb.
    + destruct (Z.eqb_spec x bn) as [->|]; [by rewrite Hl|done].
    + by destruct (x =? bn).
    + pose proof (replaces_busy s s' b b' Hrep) as Hy. unfold is_busy, b' in Hy. simpl in Hy.
      rewrite Hh in Hy. simpl in Hy. lia.
Qed.

Lemma bio_release_ok s bn :
  bio_inv s → bio_held s bn = true → bio_pinned s bn = true ∨ bio_view s bn = bio_disk s bn →
  ∃ s', brelse ROOTDEV bn s = Ok () s' ∧ bio_inv s' ∧
    (∀ x, bio_view s' x = bio_view s x) ∧ (∀ x, bio_disk s' x = bio_disk s x) ∧
    bio_writes s' = bio_writes s ∧
    (∀ x, bio_held s' x = negb (x =? bn) && bio_held s x) ∧ (∀ x, bio_pinned s' x = bio_pinned s x) ∧
    S (bio_busy s') = if bio_pinned s bn then S (bio_busy s) else bio_busy s.
Proof.
  intros Hi Hh Hcl. unfold bio_held, bio_pinned, bio_view, bio_disk in *. destruct_look s bn b Hl. simpl in Hh, Hcl.
  destruct (find_at s bn b Hl) as (l1 & l2 & E & Hf).
  destruct (look_ok s bn b Hi Hl) as (Hd & Hb & Hv & Hr & Hc & _). rewrite Hh in Hc.
  set (b' := b <| b_locked := false |> <| b_refcnt := 0 |>).
  set (s' := with_bufs s (b' :: l1 ++ l2)).
  assert (Hrep : replaces s s' b b').
  { split_and!; try done. exists (l1 ++ l2). split; [by rewrite E, Permutation_middle|done]. }
  exists s'. split; [|split].
  - unfold brelse. rewrite Hf. erewrite at_buf by done. rewrite Hh. simpl.
    erewrite at_upd_buf by done. erewrite at_upd_buf by done. erewrite at_buf by done. simpl.
    rewrite Hc. simpl. unfold modify. f_equal. unfold s', with_bufs, set_field, to_front. simpl.
    rewrite list_lookup_middle by done. f_equal. f_equal.
    by rewrite delete_middle.
  - eapply replaces_inv; [done..| |done]. right. simpl. rewrite Hb. split_and!; try done; try apply Hr.
    intros _ Hdt. destruct Hcl as [Hcl|Hcl]; [congruence|done].
  - split_and!; try done; try (intros x; rewrite (replaces_look s s' bn b b' x Hi Hl Hrep)).
    + destruct (Z.eqb_spec x bn) as [->|]; [by rewrite Hl|done].
    + by destruct (x =? bn).
    + destruct (Z.eqb_spec x bn) as [->|]; [by rewrite Hl|done].
    + pose proof (replaces_busy s s' b b' Hrep) as Hy. unfold is_busy, b' in Hy. simpl in Hy.
      rewrite Hh in Hy. simpl in *. destruct (b_dirty b); lia.
Qed.

(** A block that is cached and not locked. *)
Lemma bio_read_cached s bn b :
  bio_inv s → look (bufs s) bn = Some b → b_locked b = false →
  ∃ s', bread ROOTDEV bn s = Ok () s' ∧ drives s' = drives s ∧ written s' = written s ∧
    replaces s s' b (b <| b_refcnt := 1 |> <| b_locked := true |>).
Proof.
  intros Hi Hl Hlk. destruct (look_ok s bn b Hi Hl) as (Hd & Hb & Hv & Hr & Hc & _). rewrite Hlk in Hc.
  destruct (look_split _ _ _ Hl) as (l1 & l2 & E & Hs).
  set (b' := b <| b_refcnt := 1 |> <| b_locked := true |>).
  exists (with_bufs s (l1 ++ b' :: l2)). split_and!; try done; [|by eapply replaces_middle].
  unfold bread, bget. rewrite bind_assoc, bind_gets, Hs, bind_assoc.
  erewrite at_upd_buf by done. unfold lock_buf. rewrite !bind_assoc. erewrite at_buf by done. simpl. rewrite Hlk.
  erewrite at_upd_buf by done. rewrite bind_ret. erewrite at_buf by done. simpl. rewrite Hv. simpl.
  unfold mret, M_ret. do 4 f_equal. unfold b', set_field; simpl. by rewrite Hc.
Qed.

Lemma free_exists s : bio_inv s → (bio_busy s < Z.to_nat NBUF)%nat → scan_bwd is_free (bufs s) ≠ None.
Proof.
  intros [[Hlen _ Hok] _] Hb Hn. pose proof (scan_bwd_split is_free (bufs s)) as H. rewrite Hn in H.
  assert (bio_busy s = length (bufs s)); [|lia].
  unfold bio_busy, busy_count. clear Hlen Hb Hn.
  induction (bufs s) as [|b l IH]; [done|]. apply Forall_cons_1 in Hok as [Hb Hok], H as [Hf H].
  simpl. replace (is_busy b) with true; [by simpl; rewrite IH|]. unfold is_busy, is_free in *.
  destruct Hb as [(_ & -> & Hd & Hr)|(_ & _ & _ & Hr & _)].
  - by rewrite Hr, Hd in Hf.
  - destruct (b_locked b); [done|]. rewrite Hr in Hf. by destruct (b_dirty b).
Qed.

(** A block that is not cached takes over a free buffer. *)
Lemma bio_read_recycle s bn :
  bio_inv s → 0 ≤ bn < FSSIZE → look (bufs s) bn = None → scan_bwd is_free (bufs s) ≠ None →
  ∃ s' b0 rest, let b' := Buf true false ROOTDEV bn true 1 (drives s 1 bn) in
    bread ROOTDEV bn s = Ok () s' ∧ drives s' = drives s ∧ written s' = written s ∧
    havedisk1 s' = havedisk1 s ∧ is_free b0 = true ∧ bufs s ≡ₚ b0 :: rest ∧ bufs s' ≡ₚ b' :: rest.
Proof.
  intros Hi Hbn Hl Hf. pose proof (scan_bwd_split is_free (bufs s)) as H.
  destruct (scan_bwd is_free (bufs s)) as [i|] eqn:Es; [|done]. destruct H as (l1 & b0 & l2 & E & -> & Hfree).
  eexists _, b0, (l1 ++ l2). cbv zeta. split.
  - unfold bread, bget. rewrite bind_assoc, bind_gets, (look_none _ _ Hl), Es, bind_assoc.
    erewrite at_upd_buf by done. unfold lock_buf. rewrite !bind_assoc. erewrite at_buf by done. simpl.
    assert (b_locked b0 = false) as ->.
    { destruct Hi as [[_ _ Hok] _]. rewrite E, Forall_app, Forall_cons in Hok.
      destruct Hok as (_ & [(_ & ? & _)|(_ & _ & _ & Hr & _)] & _); [done|].
      unfold is_free in Hfree. rewrite Hr in Hfree. by destruct (b_locked b0). }
    erewrite at_upd_buf by done. rewrite bind_ret. erewrite at_buf by done. simpl.
    erewrite iderw_read; [reflexivity|done|apply Hi|done..|simpl; lia].
  - split_and!; try done; [by rewrite E, Permutation_middle|]. simpl. by rewrite Permutation_middle.
Qed.

(** *** Reading a block that takes over buffer [b0] *)

Section recycle.
Variables (s s' : bio) (bn : Z) (b0 : buf) (rest : list buf).
Let b' : buf := Buf true false ROOTDEV bn true 1 (drives s 1 bn).
Hypothesis Hi : bio_inv s.
Hypothesis Hbn : 0 ≤ bn < FSSIZE.
Hypothesis Hl : look (bufs s) bn = None.
Hypothesis Hd : drives s' = drives s.
Hypothesis Hhd : havedisk1 s' = havedisk1 s.
Hypothesis Hfree : is_free b0 = true.
Hypothesis Hp1 : bufs s ≡ₚ b0 :: rest.
Hypothesis Hp2 : bufs s' ≡ₚ b' :: rest.

Lemma recycle_inv0 : bufs_inv (drives s) (b0 :: rest).
Proof using Hi Hp1. by apply (bufs_inv_perm _ _ _ Hp1), Hi. Qed.

Lemma recycle_clean : b_locked b0 = false ∧ b_dirty b0 = false.
Proof using Hi Hp1 Hfree.
  destruct recycle_inv0 as [_ _ Hok]. apply Forall_cons_1 in Hok as [Hok _].
  unfold is_free in Hfree. destruct Hok as [(_ & ? & ? & _)|(_ & _ & _ & Hr & _)]; [done|].
  rewrite Hr in Hfree. by destruct (b_locked b0), (b_dirty b0).
Qed.

Lemma recycle_fresh : bn ∉ omap bkey rest.
Proof using Hi Hp1 Hl.
  intros (c & Hc & Hk)%list_elem_of_omap. unfold bkey in Hk.
  destruct recycle_inv0 as [_ _ Hok]. apply Forall_cons_1 in Hok as [_ Hok]. rewrite Forall_forall in Hok.
  destruct (Hok c Hc) as [(H0 & _)|(H1 & _)]; [by rewrite H0 in Hk|]. rewrite H1 in Hk. injection Hk as Hk.
  assert (look (bufs s) (b_blockno c) = Some c) as H; [|by rewrite Hk, Hl in H].
  apply look_key; [apply Hi|by rewrite Hp1; right|done].
Qed.

Lemma recycle_inv : bio_inv s'.
Proof using All.
  split; [|rewrite Hhd; apply Hi]. rewrite Hd. eapply bufs_inv_perm; [symmetry; exact Hp2|].
  pose proof recycle_fresh as Hni. destruct recycle_inv0 as [Hlen Hnd Hok]. split; [done| |].
  - csimpl in *. apply NoDup_cons. split; [done|].
    destruct (bkey b0); [by apply NoDup_cons in Hnd as [_ ?]|done].
  - apply Forall_cons_1 in Hok as [_ Hok]. constructor; [|done]. right. simpl. split_and!; try done; apply Hbn.
Qed.

Lemma recycle_look x : look (bufs s') x = if x =? bn then Some b' else look rest x.
Proof using All.
  rewrite (look_perm _ _ x (bi_nodup _ _ (proj1 recycle_inv)) Hp2), look_cons. unfold is_block. simpl.
  by rewrite (Z.eqb_sym bn x).
Qed.

(** The block that loses its buffer had a clean one. *)
Lemma recycle_old x : x ≠ bn → look (bufs s) x = look rest x ∨ look (bufs s) x = Some b0 ∧ look rest x = None.
Proof using Hi Hp1.
  intros Hx. rewrite (look_perm _ _ x (bi_nodup _ _ (proj1 Hi)) Hp1), look_cons.
  destruct (is_block ROOTDEV x b0) eqn:Ex; [right|by left]. split; [done|].
  apply is_block_root in Ex as [Ex1 <-]. destruct (look rest (b_blockno b0)) as [c|] eqn:Ec; [|done].
  exfalso. apply look_elem in Ec as (Hc & Hcd & Hcb). apply (swap_key_notin _ _ _ recycle_inv0 Ex1).
  apply list_elem_of_omap. exists c. split; [done|]. unfold bkey. by rewrite Hcd, Hcb.
Qed.

Lemma recycle_same :
  (∀ x, bio_view s' x = bio_view s x)
  ∧ (∀ x, bio_held s' x = (x =? bn) || bio_held s x) ∧ (∀ x, bio_pinned s' x = bio_pinned s x)
  ∧ bio_busy s' = S (bio_busy s).
Proof using All.
  destruct recycle_clean as [Hlk Hdt]. unfold bio_held, bio_view, bio_pinned. rewrite Hd.
  split_and!; try (intros x; rewrite recycle_look; destruct (Z.eqb_spec x bn) as [->|Hx];
    [by rewrite Hl|]; destruct (recycle_old x Hx) as [->|[Ho ->]]; [done|]; rewrite Ho; simpl; try done).
  - destruct (look_ok s x b0 Hi Ho) as (_ & _ & _ & _ & _ & Hdat). symmetry. by apply Hdat.
  - unfold bio_busy. rewrite (busy_count_perm _ _ Hp1), (busy_count_perm _ _ Hp2).
    unfold busy_count. simpl. unfold is_busy at 2. by rewrite Hlk, Hdt.
Qed.
End recycle.

Lemma bio_read_ok s bn :
  bio_inv s → 0 ≤ bn < FSSIZE → bio_held s bn = false →
  bio_pinned s bn = true ∨ (bio_busy s < Z.to_nat NBUF)%nat →
  ∃ s', bread ROOTDEV bn s = Ok () s' ∧ bio_inv s' ∧
    (∀ x, bio_view s' x = bio_view s x) ∧ (∀ x, bio_disk s' x = bio_disk s x) ∧
    bio_writes s' = bio_writes s ∧
    (∀ x, bio_held s' x = (x =? bn) || bio_held s x) ∧ (∀ x, bio_pinned s' x = bio_pinned s x) ∧
    bio_busy s' = if bio_pinned s bn then bio_busy s else S (bio_busy s).
Proof.
  intros Hi Hbn Hh Hroom. destruct (look (bufs s) bn) as [b|] eqn:Hl.
  - unfold bio_held, bio_pinned, bio_view, bio_disk, bio_writes in *. rewrite Hl in *. simpl in *.
    destruct (bio_read_cached s bn b Hi Hl Hh) as (s' & E & Hd & Hw & Hrep).
    destruct (look_ok s bn b Hi Hl) as (_ & Hb & Hv & Hr & _).
    exists s'. split; [done|]. split.
    { eapply replaces_inv; [done..| |by rewrite Hd]. right. simpl. rewrite Hb.
      destruct Hrep as [? _]. split_and!; try done; apply Hr. }
    rewrite Hd, Hw. split_and!; try done;
      try (intros x; rewrite (replaces_look s s' bn b _ x Hi Hl Hrep)).
    + destruct (Z.eqb_spec x bn) as [->|]; [by rewrite Hl|done].
    + by destruct (x =? bn).
    + destruct (Z.eqb_spec x bn) as [->|]; [by rewrite Hl|done].
    + pose proof (replaces_busy s s' b _ Hrep) as Hy. unfold is_busy in Hy. simpl in Hy.
      rewrite Hh in Hy. simpl in Hy. destruct (b_dirty b); lia.
  - assert (Hp : bio_pinned s bn = false) by (unfold bio_pinned; by rewrite Hl).
    destruct Hroom as [?|Hroom]; [congruence|].
    destruct (bio_read_recycle s bn Hi Hbn Hl (free_exists s Hi Hroom))
      as (s' & b0 & rest & E & Hd & Hw & Hhd & Hfree & Hp1 & Hp2).
    destruct (recycle_same s s' bn b0 rest) as (H1 & H2 & H3 & H4); try done.
    exists s'. split; [done|]. split; [by apply (recycle_inv s s' bn b0 rest)|].
    unfold bio_disk, bio_writes. rewrite Hd, Hw, Hp. done.
Qed.

Lemma bio_quiet s :
  bio_inv s → (∀ b, bio_held s b = false) → (∀ b, bio_pinned s b = false) → bio_busy s = 0%nat.
Proof.
  intros [[_ Hnd Hok] _] Hh Hp. unfold bio_busy, busy_count.
  assert (∀ b, b ∈ bufs s → is_busy b = false) as Hall.
  { intros b Hb. destruct (proj1 (Forall_forall _ _) Hok b Hb) as [(_ & Hl & Hd & _)|(Hdev & _)].
    - unfold is_busy. by rewrite Hl, Hd.
    - pose proof (look_key _ _ Hnd Hb Hdev) as E. specialize (Hh (b_blockno b)). specialize (Hp (b_blockno b)).
      unfold bio_held, bio_pinned in *. rewrite E in Hh, Hp. unfold is_busy. simpl in *. by rewrite Hh, Hp. }
  clear Hnd Hok Hh Hp. induction (bufs s) as [|b l IH]; [done|]. simpl. rewrite (Hall b) by left.
  apply IH. intros c Hc. apply Hall. by right.
Qed.

#[export] Instance bio_cache : BufCache bio := {|
  bc_inv := bio_inv; bc_view := bio_view; bc_disk := bio_disk; bc_writes := bio_writes;
  bc_held := bio_held; bc_pinned := bio_pinned; bc_busy := bio_busy;
  bc_read := bread ROOTDEV; bc_set := set_data ROOTDEV; bc_write := bwrite ROOTDEV;
  bc_release := brelse ROOTDEV; bc_pin := set_dirty ROOTDEV;
  bc_clean := bio_clean; bc_quiet := bio_quiet; bc_read_ok := bio_read_ok; bc_set_ok := bio_set_ok;
  bc_write_ok := bio_write_ok; bc_release_ok := bio_release_ok; bc_pin_ok := bio_pin_ok
|}.

(** ** Theorems *)

(** A whole update of a block as the log does it. *)
Definition update_block (bn : Z) (v : block) : M bio () :=
  bread ROOTDEV bn;; set_data ROOTDEV bn v;; bwrite ROOTDEV bn;; brelse ROOTDEV bn.

(** The cache is transparent. Reading a block, changing it, writing it
    through and releasing it succeeds whenever a buffer is free, changes
    exactly that block for later readers and on the disk, with one disk
    write, keeps every other block's contents although a buffer may have
    been recycled, and leaves locks, dirty marks and the number of buffers
    in use as they were. *)
Theorem update_block_correct s bn v :
  bio_inv s → 0 ≤ bn < FSSIZE → bio_held s bn = false → bio_pinned s bn = false →
  (bio_busy s < Z.to_nat NBUF)%nat →
  ∃ s', update_block bn v s = Ok () s' ∧ bio_inv s' ∧
    (∀ x, bio_view s' x = if x =? bn then v else bio_view s x) ∧
    (∀ x, bio_disk s' x = if x =? bn then v else bio_disk s x) ∧
    bio_writes s' = bio_writes s ++ [(bn, v)] ∧
    (∀ x, bio_held s' x = bio_held s x) ∧ (∀ x, bio_pinned s' x = bio_pinned s x) ∧
    bio_busy s' = bio_busy s.
Proof.
  intros Hi Hbn Hh Hp Hb.
  destruct (bio_read_ok s bn Hi Hbn Hh (or_intror Hb)) as (s1 & E1 & I1 & V1 & D1 & W1 & H1 & P1 & B1).
  destruct (bio_set_ok s1 bn v I1) as (s2 & E2 & I2 & V2 & D2 & W2 & H2 & P2 & B2).
  { by rewrite H1, Z.eqb_refl. }
  destruct (bio_write_ok s2 bn I2) as (s3 & E3 & I3 & V3 & D3 & W3 & H3 & P3 & B3).
  { by rewrite H2, H1, Z.eqb_refl. }
  destruct (bio_release_ok s3 bn I3) as (s4 & E4 & I4 & V4 & D4 & W4 & H4 & P4 & B4).
  { by rewrite H3, H2, H1, Z.eqb_refl. }
  { right. by rewrite V3, D3, Z.eqb_refl. }
  exists s4. unfold update_block.
  rewrite (bind_ok _ _ _ _ _ E1), (bind_ok _ _ _ _ _ E2), (bind_ok _ _ _ _ _ E3).
  split; [done|]. split; [done|]. split_and!.
  - intros x. by rewrite V4, V3, V2, V1.
  - intros x. rewrite D4, D3, D2, D1, V2. by rewrite Z.eqb_refl.
  - rewrite W4, W3, W2, W1, V2. by rewrite Z.eqb_refl.
  - intros x. rewrite H4, H3, H2, H1. destruct (Z.eqb_spec x bn) as [->|]; [by rewrite Hh|done].
  - intros x. rewrite P4, P3, P2, P1. destruct (Z.eqb_spec x bn) as [->|]; [by rewrite Hp|done].
  - rewrite P3, Z.eqb_refl in B4. simpl in B4. rewrite B3, B2, B1, Hp in B4. lia.
Qed.

Lemma binit_inv d : bio_inv (binit d true).
Proof.
  split; [|done]. split; [done| |].
  - replace (omap bkey (bufs (binit d true))) with (@nil Z) by done. constructor.
  - unfold binit. cbn [bufs drives]. apply Forall_replicate. by left.
Qed.

Lemma update_block_correct_witness :
  ∃ s', update_block 7 (λ _, 1) (binit (λ _ _ _, 0) true) = Ok () s' ∧ bio_disk s' 7 = (λ _, 1)
    ∧ bio_view s' 8 = (λ _, 0) ∧ bio_writes s' = [(7, λ _, 1)].
Proof.
  destruct (update_block_correct (binit (λ _ _ _, 0) true) 7 (λ _, 1)) as (s' & E & _ & V & D & W & _).
  - apply binit_inv.
  - unfold FSSIZE. lia.
  - done.
  - done.
  - by vm_compute; lia.
  - exists s'. split; [exact E|]. by rewrite V, D, W.
Defined.

(** the cache panics exactly when it must: a block that is not cached
    cannot be read when every buffer is locked or dirty. *)
Theorem bget_exhausted s bn :
  bio_inv s → look (bufs s) bn = None → bio_busy s = Z.to_nat NBUF →
  bread ROOTDEV bn s = Panic "bget: no buffers".
Proof.
  intros [[Hlen _ Hok] _] Hl Hb. unfold bread, bget. rewrite bind_assoc, bind_gets, (look_none _ _ Hl).
  replace (scan_bwd is_free (bufs s)) with (@None nat); [done|]. symmetry.
  pose proof (scan_bwd_split is_free (bufs s)) as H.
  destruct (scan_bwd is_free (bufs s)) as [i|]; [|done]. exfalso.
  destruct H as (l1 & b & l2 & E & _ & Hf). rewrite <- Hlen in Hb. unfold bio_busy, busy_count in Hb.
  rewrite E, List.filter_app, !length_app in Hb. simpl in Hb.
  pose proof (List.filter_length_le is_busy l1). pose proof (List.filter_length_le is_busy l2).
  rewrite E, Forall_app, Forall_cons in Hok. destruct Hok as (_ & Hob & _).
  assert (is_busy b = false) as Hnb; [|rewrite Hnb in Hb; lia].
  unfold is_free, is_busy in *. destruct Hob as [(_ & -> & -> & _)|(_ & _ & _ & Hr & _)]; [done|].
  rewrite Hr in Hf. by destruct (b_locked b), (b_dirty b).
Qed.

(** Thirty dirty buffers. *)
Definition full_cache : bio :=
  Bio ((λ n, Buf true true ROOTDEV n false 0 (λ _, 0)) <$> seqZ 100 30) (λ _ _ _, 0) [] true.

Lemma bget_exhausted_witness : bread ROOTDEV 7 full_cache = Panic "bget: no buffers".
Proof.
  apply bget_exhausted.
  - split; [|done]. split; [done| |].
    + replace (omap bkey (bufs full_cache)) with (seqZ 100 30) by done. apply NoDup_seqZ.
    + unfold full_cache. cbn [bufs drives]. apply Forall_fmap, Forall_forall. intros n Hn%elem_of_seqZ.
      right. simpl. unfold FSSIZE. split_and!; try done; lia.
  - done.
  - done.
Defined.
