(* ===== verification/Log.v ===== *)
(** * The log

    [src/log.c]: write-ahead logging over the buffer cache. The disk side
    ([commit], [recover_from_log] and the functions they call) against the
    interface of the cache: a crash at any disk write leaves all or nothing
    of a transaction after recovery. [begin_op], [end_op] and [log_write]
    are in [LogOps]. *)
From S2P Require Import Prelude Machine Monitor Bio.

(** [struct log] without its lock; [lh_block] has [LOGSIZE] entries. *)
Record log := Log {
  l_start : Z; l_size : Z; outstanding : Z; committing : bool; lh_n : Z; lh_block : list Z
}.
#[export] Instance eta_log : Settable log := λ l,
  Log (l_start l) (l_size l) (outstanding l) (committing l) (lh_n l) (lh_block l).

(** The header block: [struct logheader] over [b->data]. *)
Definition hb_n (h : block) : Z := s32 (load32 h 0).
Definition hb_block (h : block) (i : Z) : Z := s32 (load32 h (4 + 4 * i)).

Definition blk (lg : log) (i : Z) : Z := nth (Z.to_nat i) (lh_block lg) 0.

Section log.
Context {B : Type} `{BufCache B}.

(** The log and the cache together; lifting of cache operations. *)
Definition onb {A} (m : M B A) : M (log * B) A := λ '(lg, s),
  match m s with
  | Ok a s' => Ok a (lg, s')
  | Panic msg => Panic msg
  | Hang => Hang
  end.
Definition getlog : M (log * B) log := gets fst.
Definition updlog (f : log → log) : M (log * B) () := modify (λ '(lg, s), (f lg, s)).
Definition bdata (b : Z) : M (log * B) block := onb (gets (λ s, bc_view s b)).

Definition install_one (tail : Z) : M (log * B) () :=
  lg ← getlog;
  let lbuf := l_start lg + tail + 1 in
  let dbuf := blk lg tail in
  onb (bc_read lbuf);;
  onb (bc_read dbuf);;
  v ← bdata lbuf;
  onb (bc_set dbuf v);;
  onb (bc_write dbuf);;
  onb (bc_release lbuf);;
  onb (bc_release dbuf).

Definition install_trans : M (log * B) () :=
  lg ← getlog; for_each (seqZ 0 (lh_n lg)) install_one.

Definition read_head : M (log * B) () :=
  lg ← getlog;
  onb (bc_read (l_start lg));;
  h ← bdata (l_start lg);
  updlog (λ lg, lg <| lh_n := hb_n h |>);;
  for_each (seqZ 0 (hb_n h)) (λ i,
    updlog (λ lg, lg <| lh_block := <[Z.to_nat i := hb_block h i]> (lh_block lg) |>));;
  onb (bc_release (l_start lg)).

(** [hb->n = log.lh.n] and the loop over [hb->block[i]]. *)
Definition put_head (lg : log) (h : block) : block :=
  fold_left (λ h i, store32 h (4 + 4 * i) (blk lg i)) (seqZ 0 (lh_n lg)) (store32 h 0 (lh_n lg)).

Definition write_head : M (log * B) () :=
  lg ← getlog;
  onb (bc_read (l_start lg));;
  h ← bdata (l_start lg);
  onb (bc_set (l_start lg) (put_head lg h));;
  onb (bc_write (l_start lg));;
  onb (bc_release (l_start lg)).

Definition recover_from_log : M (log * B) () :=
  read_head;;
  install_trans;;
  updlog (λ lg, lg <| lh_n := 0 |>);;
  write_head.

Definition write_log_one (tail : Z) : M (log * B) () :=
  lg ← getlog;
  let to := l_start lg + tail + 1 in
  let from := blk lg tail in
  onb (bc_read to);;
  onb (bc_read from);;
  v ← bdata from;
  onb (bc_set to v);;
  onb (bc_write to);;
  onb (bc_release from);;
  onb (bc_release to).

Definition write_log : M (log * B) () :=
  lg ← getlog; for_each (seqZ 0 (lh_n lg)) write_log_one.

Definition commit : M (log * B) () :=
  lg ← getlog;
  when (0 <? lh_n lg)
    (write_log;; write_head;; install_trans;;
     updlog (λ lg, lg <| lh_n := 0 |>);; write_head).

(** [initlog] with the superblock's log position. *)
Definition initlog (logstart nlog : Z) : M (log * B) () :=
  updlog (λ lg, lg <| l_start := logstart |> <| l_size := nlog |>);;
  recover_from_log.

(** ** Quiet states *)

(** No block is locked; contents, disk, dirty marks, the writes so far and
    the number of buffers in use are as given. *)
Record quiet (s : B) (v d : Z → block) (p : Z → bool) (ws : list (Z * block)) (k : nat) : Prop := {
  q_inv : bc_inv s;
  q_view : ∀ x, bc_view s x = v x;
  q_disk : ∀ x, bc_disk s x = d x;
  q_pin : ∀ x, bc_pinned s x = p x;
  q_held : ∀ x, bc_held s x = false;
  q_writes : bc_writes s = ws;
  q_busy : bc_busy s = k
}.

Definition upd (f : Z → block) (x : Z) (y : block) : Z → block := λ z, if z =? x then y else f z.
Definition unpin (p : Z → bool) (x : Z) : Z → bool := λ z, negb (z =? x) && p z.

Lemma onb_ok {A C} (m : M B A) (k : A → M (log * B) C) lg s a s' :
  m s = Ok a s' → (onb m ≫= k) (lg, s) = k a (lg, s').
Proof. intros E. unfold mbind, M_bind, onb. by rewrite E. Qed.

Lemma onb_last {A} (m : M B A) lg s a s' : m s = Ok a s' → onb m (lg, s) = Ok a (lg, s').
Proof. intros E. unfold onb. by rewrite E. Qed.

Lemma bdata_ok {C} b (k : block → M (log * B) C) lg s :
  (bdata b ≫= k) (lg, s) = k (bc_view s b) (lg, s).
Proof. done. Qed.

(** Copying block [src] over block [dst] with both locked, in either order
    of locking. *)
Section copy.
Variables (s : B) (v d : Z → block) (p : Z → bool) (ws : list (Z * block)) (k : nat).
Variables (src dst : Z) (lg : log).
Hypothesis Hq : quiet s v d p ws k.
Hypothesis Hne : src ≠ dst.
Hypothesis Hsrc : 0 ≤ src < FSSIZE.
Hypothesis Hdst : 0 ≤ dst < FSSIZE.

(** Both blocks are locked, nothing else has changed. *)
Definition both_locked (s2 : B) : Prop :=
  bc_inv s2 ∧ (∀ x, bc_view s2 x = v x) ∧ (∀ x, bc_disk s2 x = d x) ∧ bc_writes s2 = ws
  ∧ (∀ x, bc_held s2 x = (x =? src) || (x =? dst)) ∧ (∀ x, bc_pinned s2 x = p x)
  ∧ bc_busy s2 = (k + (if p src then 0 else 1) + (if p dst then 0 else 1))%nat.

Lemma lock_both a b :
  a = src ∧ b = dst ∨ a = dst ∧ b = src →
  (k < Z.to_nat NBUF)%nat → p a = false → p b = true ∨ (S k < Z.to_nat NBUF)%nat →
  ∃ s2, both_locked s2 ∧ ∀ A (m : M (log * B) A),
    (onb (bc_read a);; onb (bc_read b);; m) (lg, s) = m (lg, s2).
Proof using Hq Hne Hsrc Hdst.
  intros Hab Hk Hpa Hroom. destruct Hq as [I V D P Hh W Bz].
  destruct (bc_read_ok s a I) as (s1 & E1 & I1 & V1 & D1 & W1 & H1 & P1 & B1);
    [by destruct Hab as [[-> _]|[-> _]]|done|right; lia|].
  rewrite P, Hpa in B1.
  destruct (bc_read_ok s1 b I1) as (s2 & E2 & I2 & V2 & D2 & W2 & H2 & P2 & B2).
  { by destruct Hab as [[_ ->]|[_ ->]]. }
  { rewrite H1, Hh. destruct (Z.eqb_spec b a); [|done]. subst. destruct Hab as [[? ?]|[? ?]]; congruence. }
  { rewrite P1, P, B1. destruct Hroom; [by left|right; lia]. }
  exists s2. split.
  - split_and!; try done; try (intros x).
    + by rewrite V2, V1, V.
    + by rewrite D2, D1, D.
    + by rewrite W2, W1, W.
    + rewrite H2, H1, Hh, orb_false_r. destruct Hab as [[-> ->]|[-> ->]]; [apply orb_comm|done].
    + by rewrite P2, P1, P.
    + rewrite B2, P1, P, B1, Bz. destruct Hab as [[<- <-]|[<- <-]]; rewrite Hpa; destruct (p b); lia.
  - intros A m. by rewrite (onb_ok _ _ _ _ _ _ E1), (onb_ok _ _ _ _ _ _ E2).
Qed.

Lemma copy_locked s2 :
  both_locked s2 →
  ∃ s', (v ← bdata src; onb (bc_set dst v);; onb (bc_write dst);;
         onb (bc_release src);; onb (bc_release dst)) (lg, s2) = Ok () (lg, s')
    ∧ quiet s' (upd v dst (v src)) (upd d dst (v src)) (unpin p dst) (ws ++ [(dst, v src)])
        (if p dst then k - 1 else k)%nat.
Proof using Hq Hne.
  intros (I2 & V2 & D2 & W2 & H2 & P2 & B2). destruct Hq as [I V D P Hh W Bz].
  assert (Hclean : p src = true ∨ v src = d src).
  { destruct (p src) eqn:Ep; [by left|right]. rewrite <- V, <- D. apply bc_clean; [done|done|by rewrite P]. }
  assert (Hsd : (src =? dst) = false) by (by apply Z.eqb_neq).
  assert (Hds : (dst =? src) = false) by (by apply Z.eqb_neq; congruence).
  destruct (bc_set_ok s2 dst (v src) I2) as (s3 & E3 & I3 & V3 & D3 & W3 & H3 & P3 & B3).
  { by rewrite H2, Z.eqb_refl, orb_true_r. }
  destruct (bc_write_ok s3 dst I3) as (s4 & E4 & I4 & V4 & D4 & W4 & H4 & P4 & B4).
  { by rewrite H3, H2, Z.eqb_refl, orb_true_r. }
  rewrite V3, Z.eqb_refl in D4, W4.
  destruct (bc_release_ok s4 src I4) as (s5 & E5 & I5 & V5 & D5 & W5 & H5 & P5 & B5).
  { by rewrite H4, H3, H2, Z.eqb_refl. }
  { rewrite P4, P3, P2, V4, V3, D4, D3, D2, V2, Hsd. exact Hclean. }
  destruct (bc_release_ok s5 dst I5) as (s6 & E6 & I6 & V6 & D6 & W6 & H6 & P6 & B6).
  { by rewrite H5, H4, H3, H2, Z.eqb_refl, Hds, orb_true_r. }
  { right. by rewrite V5, V4, V3, D5, D4, Z.eqb_refl. }
  exists s6. split.
  { rewrite bdata_ok, V2, (onb_ok _ _ _ _ _ _ E3), (onb_ok _ _ _ _ _ _ E4), (onb_ok _ _ _ _ _ _ E5).
    by apply onb_last. }
  split; try done.
  - intros x. by rewrite V6, V5, V4, V3, V2.
  - intros x. by rewrite D6, D5, D4, D3, D2.
  - intros x. by rewrite P6, P5, P4, P3, P2.
  - intros x. rewrite H6, H5, H4, H3, H2. by destruct (x =? src), (x =? dst).
  - by rewrite W6, W5, W4, W3, W2.
  - rewrite P5, P4, Z.eqb_refl in B6. simpl in B6.
    rewrite P4, P3, P2, Hsd in B5. simpl in B5. rewrite B4, B3, B2 in B5.
    destruct (p src), (p dst); lia.
Qed.
End copy.

(** ** Running the loops *)

Lemma quiet_ext s v d p ws k v' d' p' :
  quiet s v d p ws k → (∀ x, v x = v' x) → (∀ x, d x = d' x) → (∀ x, p x = p' x) →
  quiet s v' d' p' ws k.
Proof.
  intros [I V D P Hh W Bz] Hv Hd Hp. split; try done; intros x; [rewrite V|rewrite D|rewrite P]; done.
Qed.

(** A list of block writes applied in order. *)
Definition apply_writes (ws : list (Z * block)) (f : Z → block) : Z → block :=
  fold_left (λ f '(x, y), upd f x y) ws f.

Lemma apply_app ws1 ws2 f : apply_writes (ws1 ++ ws2) f = apply_writes ws2 (apply_writes ws1 f).
Proof. apply fold_left_app. Qed.

Lemma apply_notin ws : ∀ f x, x ∉ ws.*1 → apply_writes ws f x = f x.
Proof.
  induction ws as [|[a y] ws IH]; intros f x Hx; [done|]. csimpl in Hx.
  apply not_elem_of_cons in Hx as [Hxa Hx]. simpl. rewrite IH by done. unfold upd.
  by rewrite (proj2 (Z.eqb_neq _ _)).
Qed.

Lemma apply_in ws : ∀ f x y, NoDup ws.*1 → (x, y) ∈ ws → apply_writes ws f x = y.
Proof.
  induction ws as [|[a z] ws IH]; intros f x y Hnd Hin; [by apply elem_of_nil in Hin|].
  csimpl in Hnd. apply NoDup_cons in Hnd as [Hna Hnd]. simpl.
  apply elem_of_cons in Hin as [[= <- <-]|Hin]; [|by apply IH].
  rewrite apply_notin by done. unfold upd. by rewrite Z.eqb_refl.
Qed.

Lemma apply_ext ws f g x : (∀ x, f x = g x) → apply_writes ws f x = apply_writes ws g x.
Proof.
  revert f g. induction ws as [|[a y] ws IH]; intros f g Hfg; simpl; [done|].
  apply IH. intros z. unfold upd. by rewrite Hfg.
Qed.

(** Writing a prefix first makes no difference to writing everything. *)
Lemma apply_take_twice ws j f x :
  NoDup ws.*1 → apply_writes ws (apply_writes (take j ws) f) x = apply_writes ws f x.
Proof.
  intros Hnd. destruct (decide (x ∈ ws.*1)) as [Hin|Hnin].
  - apply list_elem_of_fmap in Hin as ([x' y] & -> & Hin). simpl. by rewrite !(apply_in ws _ x' y).
  - rewrite !(apply_notin ws) by done. apply apply_notin. intros Hin. apply Hnin.
    rewrite <- (take_drop j ws), fmap_app, elem_of_app. by left.
Qed.

(** The position and size of the log, and a header that fits it: distinct
    home blocks outside the log. *)
Record log_ok (lg : log) : Prop := {
  lo_start : 0 ≤ l_start lg;
  lo_end : l_start lg + l_size lg ≤ FSSIZE;
  lo_n : 0 ≤ lh_n lg < l_size lg;
  lo_size : l_size lg ≤ LOGSIZE;
  lo_len : length (lh_block lg) = Z.to_nat LOGSIZE;
  lo_blk : ∀ i, 0 ≤ i < lh_n lg → 0 ≤ blk lg i < FSSIZE ∧ ¬ (l_start lg ≤ blk lg i < l_start lg + l_size lg);
  lo_inj : ∀ i j, 0 ≤ i < lh_n lg → 0 ≤ j < lh_n lg → blk lg i = blk lg j → i = j
}.

(** Block [x] belongs to the log. *)
Definition in_log (lg : log) (x : Z) : Prop := l_start lg ≤ x < l_start lg + l_size lg.

Section loops.
Variable lg : log.
Hypothesis Hlg : log_ok lg.

(** The writes of [write_log] and of [install_trans] for the entries [ts],
    when the blocks they copy hold [v0]. *)
Definition to_log (v0 : Z → block) (ts : list Z) : list (Z * block) :=
  (λ i, (l_start lg + i + 1, v0 (blk lg i))) <$> ts.
Definition to_home (v0 : Z → block) (ts : list Z) : list (Z * block) :=
  (λ i, (blk lg i, v0 (l_start lg + i + 1))) <$> ts.

Lemma write_log_loop p k v0 ts : ∀ s v d ws,
  quiet s v d p ws k → (k < Z.to_nat NBUF)%nat →
  (∀ i, i ∈ ts → 0 ≤ i < lh_n lg) →
  (∀ i, 0 ≤ i < lh_n lg → p (blk lg i) = true ∧ v (blk lg i) = v0 (blk lg i)) →
  (∀ x, in_log lg x → p x = false) →
  ∃ s', for_each ts write_log_one (lg, s) = Ok () (lg, s')
    ∧ quiet s' (apply_writes (to_log v0 ts) v) (apply_writes (to_log v0 ts) d) p (ws ++ to_log v0 ts) k.
Proof using Hlg.
  unfold in_log. induction ts as [|i ts IH]; intros s v d ws Hq Hk Hts Hp Hlog.
  { exists s. rewrite app_nil_r. done. }
  destruct (Hts i) as [Hi0 Hi1]; [left|]. destruct (lo_blk lg Hlg i) as [Hb Hnl]; [lia|].
  destruct (Hp i) as [Hpi Hvi]; [lia|]. pose proof (lo_start lg Hlg). pose proof (lo_end lg Hlg).
  pose proof (lo_n lg Hlg).
  destruct (lock_both s v d p ws k (blk lg i) (l_start lg + i + 1) lg Hq) with (a := l_start lg + i + 1) (b := blk lg i)
    as (s2 & Hs2 & Hrun); [lia|lia|lia|by right|done|apply Hlog; lia|by left|].
  destruct (copy_locked s v d p ws k (blk lg i) (l_start lg + i + 1) lg Hq) with (s2 := s2)
    as (s3 & E3 & Hq3); [lia|done|].
  rewrite (Hlog (l_start lg + i + 1)) in Hq3 by lia. rewrite Hvi in Hq3.
  apply quiet_ext with (v' := upd v (l_start lg + i + 1) (v0 (blk lg i)))
    (d' := upd d (l_start lg + i + 1) (v0 (blk lg i))) (p' := p) in Hq3; [|done|done|].
  2: { intros x. unfold unpin. destruct (Z.eqb_spec x (l_start lg + i + 1)) as [->|]; [|done].
       simpl. symmetry. apply Hlog. lia. }
  destruct (IH s3 _ _ _ Hq3) as (s4 & E4 & Hq4); [done|intros j Hj; apply Hts; by right| |done|].
  { intros j Hj. destruct (Hp j Hj) as [? ?]. split; [done|]. unfold upd.
    destruct (lo_blk lg Hlg j Hj) as [_ Hnj]. by rewrite (proj2 (Z.eqb_neq _ _)) by lia. }
  exists s4. split.
  - cbn [for_each]. rewrite (bind_ok (write_log_one i) _ (lg, s) () (lg, s3)); [exact E4|]. unfold write_log_one.
    change (getlog ≫= ?f) with (gets fst ≫= f). rewrite bind_gets. cbn [fst]. cbv zeta. by rewrite Hrun.
  - by rewrite <- app_assoc in Hq4.
Qed.

(** Unpin every block of a list. *)
Definition unpins (p : Z → bool) (bs : list Z) : Z → bool := fold_left unpin bs p.

Lemma unpins_spec bs : ∀ p x, unpins p bs x = bool_decide (x ∉ bs) && p x.
Proof.
  induction bs as [|b bs IH]; intros p x; [done|]. cbn [unpins fold_left]. fold (unpins (unpin p b) bs).
  rewrite IH. unfold unpin. destruct (Z.eqb_spec x b) as [->|Hne]; simpl.
  - rewrite andb_false_r, bool_decide_eq_false_2; [done|]. intros Hc. apply Hc. left.
  - f_equal. apply bool_decide_ext. rewrite not_elem_of_cons. tauto.
Qed.

Lemma install_loop v0 ts : ∀ s v d p ws k,
  quiet s v d p ws k → (k < Z.to_nat NBUF)%nat →
  (∀ i, i ∈ ts → 0 ≤ i < lh_n lg) →
  (∀ i, i ∈ ts → p (blk lg i) = true) ∨ (S k < Z.to_nat NBUF)%nat →
  (∀ x, in_log lg x → p x = false ∧ v x = v0 x) →
  ∃ s' k', for_each ts install_one (lg, s) = Ok () (lg, s') ∧ (k' ≤ k)%nat
    ∧ quiet s' (apply_writes (to_home v0 ts) v) (apply_writes (to_home v0 ts) d)
        (unpins p (blk lg <$> ts)) (ws ++ to_home v0 ts) k'.
Proof using Hlg.
  unfold in_log. induction ts as [|i ts IH]; intros s v d p ws k Hq Hk Hts Hroom Hlog.
  { exists s, k. rewrite app_nil_r. done. }
  destruct (Hts i) as [Hi0 Hi1]; [left|]. destruct (lo_blk lg Hlg i) as [Hb Hnl]; [lia|].
  pose proof (lo_start lg Hlg). pose proof (lo_end lg Hlg). pose proof (lo_n lg Hlg).
  destruct (Hlog (l_start lg + i + 1)) as [Hpl Hvl]; [lia|].
  assert (Hri : p (blk lg i) = true ∨ (S k < Z.to_nat NBUF)%nat).
  { destruct Hroom as [Hr|Hr]; [left; apply Hr; left|by right]. }
  destruct (lock_both s v d p ws k (l_start lg + i + 1) (blk lg i) lg Hq) with (a := l_start lg + i + 1) (b := blk lg i)
    as (s2 & Hs2 & Hrun); [lia|lia|lia|by left|done|done|done|].
  destruct (copy_locked s v d p ws k (l_start lg + i + 1) (blk lg i) lg Hq) with (s2 := s2)
    as (s3 & E3 & Hq3); [lia|done|].
  rewrite Hvl in Hq3. set (k1 := (if p (blk lg i) then k - 1 else k)%nat) in *.
  destruct (IH s3 _ _ _ _ _ Hq3) as (s4 & k4 & E4 & Hk4 & Hq4); [destruct (p (blk lg i)); lia
    |intros j Hj; apply Hts; by right| | |].
  { right. unfold k1. change (Z.to_nat NBUF) with 30%nat in *. destruct Hri as [->|?]; [lia|destruct (p (blk lg i)); lia]. }
  { intros x Hx. destruct (Hlog x Hx) as [Hpx Hvx]. unfold unpin, upd. rewrite Hpx, andb_false_r.
    split; [done|]. by rewrite (proj2 (Z.eqb_neq _ _)) by lia. }
  exists s4, k4. split_and!.
  - cbn [for_each]. rewrite (bind_ok (install_one i) _ (lg, s) () (lg, s3)); [exact E4|]. unfold install_one.
    change (getlog ≫= ?f) with (gets fst ≫= f). rewrite bind_gets. cbn [fst]. cbv zeta. by rewrite Hrun.
  - unfold k1 in *. destruct (p (blk lg i)); lia.
  - by rewrite <- app_assoc in Hq4.
Qed.
End loops.

(** ** The header block *)

Definition put_blocks (lg : log) (ts : list Z) (h : block) : block :=
  fold_left (λ h i, store32 h (4 + 4 * i) (blk lg i)) ts h.

Lemma put_blocks_head lg ts : ∀ h, Forall (λ i, 0 ≤ i) ts → load32 (put_blocks lg ts h) 0 = load32 h 0.
Proof.
  induction ts as [|i ts IH]; intros h Hts; [done|]. apply Forall_cons_1 in Hts as [Hi Hts].
  cbn [put_blocks fold_left]. fold (put_blocks lg ts (store32 h (4 + 4 * i) (blk lg i))).
  rewrite IH by done. apply load32_store32_ne. lia.
Qed.

Lemma put_blocks_other lg ts : ∀ h j, Forall (λ i, i ≠ j) ts →
  load32 (put_blocks lg ts h) (4 + 4 * j) = load32 h (4 + 4 * j).
Proof.
  induction ts as [|i ts IH]; intros h j Hts; [done|]. apply Forall_cons_1 in Hts as [Hi Hts].
  cbn [put_blocks fold_left]. fold (put_blocks lg ts (store32 h (4 + 4 * i) (blk lg i))).
  rewrite IH by done. apply load32_store32_ne. lia.
Qed.

Lemma put_blocks_in lg ts : ∀ h j, NoDup ts → j ∈ ts → 0 ≤ blk lg j < 4294967296 →
  load32 (put_blocks lg ts h) (4 + 4 * j) = blk lg j.
Proof.
  induction ts as [|i ts IH]; intros h j Hnd Hj Hb; [by apply elem_of_nil in Hj|].
  apply NoDup_cons in Hnd as [Hni Hnd].
  cbn [put_blocks fold_left]. fold (put_blocks lg ts (store32 h (4 + 4 * i) (blk lg i))).
  apply elem_of_cons in Hj as [->|Hj]; [|by apply IH].
  rewrite put_blocks_other by (apply Forall_forall; by intros x Hx ->).
  by apply load32_store32_eq.
Qed.

Lemma seqZ_nonneg n : Forall (λ i, 0 ≤ i) (seqZ 0 n).
Proof. apply Forall_forall. intros i Hi%elem_of_seqZ. lia. Qed.

Lemma put_head_n lg h : 0 ≤ lh_n lg ≤ LOGSIZE → hb_n (put_head lg h) = lh_n lg.
Proof.
  unfold LOGSIZE, MAXOPBLOCKS. intros Hn. unfold hb_n, put_head.
  change (fold_left _ ?ts ?h0) with (put_blocks lg ts h0).
  rewrite put_blocks_head by apply seqZ_nonneg.
  rewrite load32_store32_eq by lia. apply s32_small. lia.
Qed.

Lemma put_head_block lg h i :
  0 ≤ i < lh_n lg → 0 ≤ blk lg i < FSSIZE → hb_block (put_head lg h) i = blk lg i.
Proof.
  unfold FSSIZE. intros Hi Hb. unfold hb_block, put_head.
  change (fold_left _ ?ts ?h0) with (put_blocks lg ts h0).
  rewrite put_blocks_in; [apply s32_small; lia|apply NoDup_seqZ|apply elem_of_seqZ; lia|lia].
Qed.

(** The in-memory header after [read_head]. *)
Definition load_blocks (h : block) (ts : list Z) (lg : log) : log :=
  fold_left (λ lg i, lg <| lh_block := <[Z.to_nat i := hb_block h i]> (lh_block lg) |>) ts lg.
Definition read_log (lg : log) (h : block) : log :=
  load_blocks h (seqZ 0 (hb_n h)) (lg <| lh_n := hb_n h |>).

Lemma load_blocks_fields h ts : ∀ lg,
  let lg' := load_blocks h ts lg in
  l_start lg' = l_start lg ∧ l_size lg' = l_size lg ∧ lh_n lg' = lh_n lg
  ∧ length (lh_block lg') = length (lh_block lg).
Proof.
  induction ts as [|i ts IH]; intros lg; [done|].
  destruct (IH (lg <| lh_block := <[Z.to_nat i := hb_block h i]> (lh_block lg) |>)) as (H1 & H2 & H3 & H4).
  split_and!; [exact H1|exact H2|exact H3|].
  etrans; [exact H4|]. apply length_insert.
Qed.

Lemma load_blocks_blk h ts : ∀ lg j,
  Forall (λ i, 0 ≤ i < Z.of_nat (length (lh_block lg))) ts → 0 ≤ j →
  blk (load_blocks h ts lg) j = if bool_decide (j ∈ ts) then hb_block h j else blk lg j.
Proof.
  induction ts as [|i ts IH]; intros lg j Hts Hj; [done|]. apply Forall_cons_1 in Hts as [Hi Hts].
  cbn [load_blocks fold_left]. fold (load_blocks h ts (lg <| lh_block := <[Z.to_nat i := hb_block h i]> (lh_block lg) |>)).
  rewrite IH; [|by simpl; rewrite length_insert|done].
  destruct (bool_decide_reflect (j ∈ ts)) as [Hin|Hin]; [by rewrite bool_decide_eq_true_2 by (by right)|].
  unfold blk. simpl. rewrite !nth_lookup. destruct (decide (i = j)) as [->|Hne].
  - rewrite bool_decide_eq_true_2 by left. rewrite list_lookup_insert_eq by lia. done.
  - rewrite list_lookup_insert_ne by lia. rewrite bool_decide_eq_false_2; [done|].
    apply not_elem_of_cons. done.
Qed.

Lemma read_log_spec lg h :
  0 ≤ hb_n h ≤ LOGSIZE → length (lh_block lg) = Z.to_nat LOGSIZE →
  l_start (read_log lg h) = l_start lg ∧ l_size (read_log lg h) = l_size lg
  ∧ lh_n (read_log lg h) = hb_n h ∧ length (lh_block (read_log lg h)) = Z.to_nat LOGSIZE
  ∧ ∀ i, 0 ≤ i < hb_n h → blk (read_log lg h) i = hb_block h i.
Proof.
  intros Hn Hlen. unfold read_log.
  destruct (load_blocks_fields h (seqZ 0 (hb_n h)) (lg <| lh_n := hb_n h |>)) as (H1 & H2 & H3 & H4).
  split_and!; [done|done|done|by rewrite H4|].
  intros i Hi. rewrite load_blocks_blk; [|apply Forall_forall; intros j Hj%elem_of_seqZ; simpl; lia|lia].
  by rewrite bool_decide_eq_true_2 by (apply elem_of_seqZ; lia).
Qed.

(** ** [write_head], [read_head], [commit] and [recover_from_log] *)

Lemma at_getlog {C} (k : log → M (log * B) C) lg s : (getlog ≫= k) (lg, s) = k lg (lg, s).
Proof. done. Qed.

Lemma at_updlog {C} f (k : () → M (log * B) C) lg s : (updlog f ≫= k) (lg, s) = k () (f lg, s).
Proof. done. Qed.

Lemma for_each_updlog (f : Z → log → log) ts : ∀ lg s,
  for_each ts (λ i, updlog (f i)) (lg, s) = Ok () (fold_left (λ lg i, f i lg) ts lg, s).
Proof. induction ts as [|i ts IH]; intros lg s; [done|]. cbn [for_each fold_left]. by rewrite at_updlog. Qed.

Lemma write_head_ok lg s v d p ws k :
  quiet s v d p ws k → 0 ≤ l_start lg < FSSIZE → p (l_start lg) = false → (k < Z.to_nat NBUF)%nat →
  let h := put_head lg (v (l_start lg)) in
  ∃ s', write_head (lg, s) = Ok () (lg, s')
    ∧ quiet s' (upd v (l_start lg) h) (upd d (l_start lg) h) p (ws ++ [(l_start lg, h)]) k.
Proof.
  intros [I V D P Hh W Bz] Hst Hp Hk h. set (b := l_start lg) in *.
  destruct (bc_read_ok s b I Hst (Hh b)) as (s1 & E1 & I1 & V1 & D1 & W1 & H1 & P1 & B1); [right; lia|].
  rewrite P, Hp in B1.
  destruct (bc_set_ok s1 b h I1) as (s2 & E2 & I2 & V2 & D2 & W2 & H2 & P2 & B2); [by rewrite H1, Z.eqb_refl|].
  destruct (bc_write_ok s2 b I2) as (s3 & E3 & I3 & V3 & D3 & W3 & H3 & P3 & B3); [by rewrite H2, H1, Z.eqb_refl|].
  rewrite V2, Z.eqb_refl in D3, W3.
  destruct (bc_release_ok s3 b I3) as (s4 & E4 & I4 & V4 & D4 & W4 & H4 & P4 & B4).
  { by rewrite H3, H2, H1, Z.eqb_refl. }
  { right. by rewrite V3, V2, D3, Z.eqb_refl. }
  exists s4. split.
  { unfold write_head. rewrite at_getlog. fold b. rewrite (onb_ok _ _ _ _ _ _ E1), bdata_ok, V1, V.
    rewrite (onb_ok _ _ _ _ _ _ E2), (onb_ok _ _ _ _ _ _ E3). by apply onb_last. }
  split; try done.
  - intros x. by rewrite V4, V3, V2, V1, V.
  - intros x. by rewrite D4, D3, D2, D1, D.
  - intros x. rewrite P4, P3, P2, P1, P. destruct (Z.eqb_spec x b) as [->|]; [by rewrite Hp|done].
  - intros x. rewrite H4, H3, H2, H1, Hh, orb_false_r. by destruct (x =? b).
  - by rewrite W4, W3, W2, W1, W.
  - rewrite P3, Z.eqb_refl in B4. simpl in B4. lia.
Qed.

Lemma read_head_ok lg s v d p ws k :
  quiet s v d p ws k → 0 ≤ l_start lg < FSSIZE → p (l_start lg) = false → (k < Z.to_nat NBUF)%nat →
  ∃ s', read_head (lg, s) = Ok () (read_log lg (v (l_start lg)), s') ∧ quiet s' v d p ws k.
Proof.
  intros [I V D P Hh W Bz] Hst Hp Hk. set (b := l_start lg) in *.
  destruct (bc_read_ok s b I Hst (Hh b)) as (s1 & E1 & I1 & V1 & D1 & W1 & H1 & P1 & B1); [right; lia|].
  rewrite P, Hp in B1.
  destruct (bc_release_ok s1 b I1) as (s2 & E2 & I2 & V2 & D2 & W2 & H2 & P2 & B2).
  { by rewrite H1, Z.eqb_refl. }
  { right. rewrite V1, D1. apply bc_clean; [done..|by rewrite P]. }
  exists s2. split.
  - unfold read_head. rewrite at_getlog. fold b. rewrite (onb_ok _ _ _ _ _ _ E1), bdata_ok, V1, V.
    rewrite at_updlog. erewrite bind_ok by apply for_each_updlog. by apply onb_last.
  - split; try done.
    + intros x. by rewrite V2, V1, V.
    + intros x. by rewrite D2, D1, D.
    + intros x. by rewrite P2, P1, P.
    + intros x. rewrite H2, H1, Hh, orb_false_r. by destruct (x =? b).
    + by rewrite W2, W1, W.
    + rewrite P1, P, Hp in B2. lia.
Qed.

(** The log's own writes when it installs what is on the disk [d]. *)
Definition entries (lg : log) : list Z := seqZ 0 (lh_n lg).
Definition cleared (lg : log) : log := lg <| lh_n := 0 |>.
Definition recovery_writes (lg : log) (d : Z → block) : list (Z * block) :=
  to_home lg d (entries lg) ++ [(l_start lg, put_head (cleared lg) (d (l_start lg)))].

Lemma entries_in lg i : i ∈ entries lg ↔ 0 ≤ i < lh_n lg.
Proof. unfold entries. rewrite elem_of_seqZ. lia. Qed.

Lemma start_in_range lg : log_ok lg → 0 ≤ l_start lg < FSSIZE.
Proof. intros [H1 H2 H3 _ _ _ _]. lia. Qed.

Lemma to_home_notin lg v0 ts x :
  log_ok lg → (∀ i, i ∈ ts → 0 ≤ i < lh_n lg) → in_log lg x → x ∉ (to_home lg v0 ts).*1.
Proof.
  intros Hlg Hts Hx (? & -> & (i & -> & Hi)%list_elem_of_fmap)%list_elem_of_fmap.
  destruct (lo_blk lg Hlg i (Hts i Hi)) as [_ Hn]. by apply Hn.
Qed.

Lemma recover_run lg s d ws k :
  let lg' := read_log lg (d (l_start lg)) in
  quiet s d d (λ _, false) ws k → log_ok lg' → l_start lg' = l_start lg → (S k < Z.to_nat NBUF)%nat →
  ∃ s' k', recover_from_log (lg, s) = Ok () (cleared lg', s') ∧ (k' ≤ k)%nat
    ∧ quiet s' (apply_writes (recovery_writes lg' d) d) (apply_writes (recovery_writes lg' d) d)
        (λ _, false) (ws ++ recovery_writes lg' d) k'.
Proof.
  intros lg' Hq Hlg Hst Hk. pose proof (start_in_range lg' Hlg) as Hr.
  destruct (read_head_ok lg s d d (λ _, false) ws k Hq) as (s1 & E1 & Hq1); [by rewrite <- Hst|done|lia|].
  fold lg' in E1.
  destruct (install_loop lg' Hlg d (entries lg') s1 d d (λ _, false) ws k Hq1) as (s2 & k2 & E2 & Hk2 & Hq2);
    [lia|intros i; by rewrite entries_in|by right|done|].
  set (v2 := apply_writes (to_home lg' d (entries lg')) d) in *.
  assert (Hp2 : ∀ x, unpins (λ _, false) (blk lg' <$> entries lg') x = false).
  { intros x. by rewrite unpins_spec, andb_false_r. }
  apply (quiet_ext _ _ _ _ _ _ v2 v2 (λ _, false)) in Hq2; [|done|done|done].
  destruct (write_head_ok (cleared lg') s2 v2 v2 (λ _, false) _ k2 Hq2) as (s3 & E3 & Hq3); [done|done|lia|].
  simpl in Hq3.
  assert (Hv : v2 (l_start lg') = d (l_start lg')).
  { apply apply_notin, to_home_notin; [done|intros i; by rewrite entries_in|].
    unfold in_log. destruct (lo_n lg' Hlg). lia. }
  rewrite Hv in Hq3.
  exists s3, k2. split_and!; [|done|].
  - unfold recover_from_log. rewrite (bind_ok _ _ _ _ _ E1).
    assert (install_trans (lg', s1) = Ok () (lg', s2)) as Ei by exact E2.
    rewrite (bind_ok _ _ _ _ _ Ei), at_updlog. exact E3.
  - unfold recovery_writes. rewrite apply_app. by rewrite <- app_assoc in Hq3.
Qed.

(** The writes of [commit] when the cache holds [v]. *)
Definition home (lg : log) (v : Z → block) : list (Z * block) := (λ i, (blk lg i, v (blk lg i))) <$> entries lg.
Definition commit_head (lg : log) (v : Z → block) : block := put_head lg (v (l_start lg)).
Definition commit_writes (lg : log) (v : Z → block) : list (Z * block) :=
  to_log lg v (entries lg)
  ++ [(l_start lg, commit_head lg v)]
  ++ home lg v
  ++ [(l_start lg, put_head (cleared lg) (commit_head lg v))].

Lemma to_log_notin lg v ts x :
  (∀ i, i ∈ ts → 0 ≤ i < lh_n lg) → (x ≤ l_start lg ∨ l_start lg + lh_n lg < x) → x ∉ (to_log lg v ts).*1.
Proof.
  intros Hts Hx (? & -> & (i & -> & Hi)%list_elem_of_fmap)%list_elem_of_fmap.
  specialize (Hts i Hi). simpl in Hx. lia.
Qed.

Lemma to_log_at lg v i f :
  0 ≤ i < lh_n lg → apply_writes (to_log lg v (entries lg)) f (l_start lg + i + 1) = v (blk lg i).
Proof.
  intros Hi. apply apply_in.
  - unfold to_log. rewrite <- list_fmap_compose. apply NoDup_fmap_2_strong; [|apply NoDup_seqZ].
    intros x y _ _. simpl. lia.
  - apply list_elem_of_fmap. exists i. split; [done|]. by apply entries_in.
Qed.

Lemma home_in lg v f i :
  log_ok lg → 0 ≤ i < lh_n lg → apply_writes (home lg v) f (blk lg i) = v (blk lg i).
Proof.
  intros Hlg Hi. apply apply_in.
  - unfold home. rewrite <- list_fmap_compose. apply NoDup_fmap_2_strong; [|apply NoDup_seqZ].
    intros x y Hx Hy. apply entries_in in Hx, Hy. by apply (lo_inj lg Hlg).
  - apply list_elem_of_fmap. exists i. split; [done|]. by apply entries_in.
Qed.

Lemma home_notin lg v x : (∀ i, 0 ≤ i < lh_n lg → blk lg i ≠ x) → x ∉ (home lg v).*1.
Proof.
  intros Hx (? & -> & (i & -> & Hi)%list_elem_of_fmap)%list_elem_of_fmap.
  apply entries_in in Hi. by apply (Hx i).
Qed.

Section commit.
Variables (lg : log) (s : B) (v d : Z → block) (p : Z → bool) (ws : list (Z * block)) (k : nat).
Hypothesis Hlg : log_ok lg.
Hypothesis Hn : 0 < lh_n lg.
Hypothesis Hq : quiet s v d p ws k.
Hypothesis Hk : (k < Z.to_nat NBUF)%nat.
Hypothesis Hpin : ∀ i, 0 ≤ i < lh_n lg → p (blk lg i) = true.
Hypothesis Hlog : ∀ x, in_log lg x → p x = false.

Let v1 := apply_writes (to_log lg v (entries lg)) v.
Let v2 := upd v1 (l_start lg) (commit_head lg v).

Lemma in_log_start : in_log lg (l_start lg).
Proof using Hlg Hn. clear Hk. unfold in_log. destruct (lo_n lg Hlg). lia. Qed.

Lemma install_copies : to_home lg v2 (entries lg) = home lg v.
Proof using Hlg.
  clear Hk Hn. apply list_fmap_ext. intros j i Hi. apply list_elem_of_lookup_2, entries_in in Hi. f_equal.
  unfold v2, upd. rewrite (proj2 (Z.eqb_neq _ _)) by lia. by apply to_log_at.
Qed.

Lemma commit_run :
  ∃ s' k' p', commit (lg, s) = Ok () (cleared lg, s') ∧ (k' ≤ k)%nat
    ∧ (∀ x, p' x = true → p x = true ∧ ∀ i, 0 ≤ i < lh_n lg → blk lg i ≠ x)
    ∧ quiet s' (apply_writes (commit_writes lg v) v) (apply_writes (commit_writes lg v) d) p'
        (ws ++ commit_writes lg v) k'.
Proof using All.
  pose proof (start_in_range lg Hlg) as Hr. pose proof in_log_start as Hins.
  destruct (write_log_loop lg Hlg p k v (entries lg) s v d ws Hq Hk) as (s1 & E1 & Hq1);
    [intros i; by rewrite entries_in|intros i Hi; split; [by apply Hpin|done]|done|]. fold v1 in Hq1.
  assert (Hv1 : v1 (l_start lg) = v (l_start lg)).
  { apply apply_notin, to_log_notin; [intros i; by rewrite entries_in|by left]. }
  destruct (write_head_ok lg s1 _ _ p _ k Hq1) as (s2 & E2 & Hq2); [done|by apply Hlog|done|].
  rewrite Hv1 in Hq2. fold (commit_head lg v) v2 in Hq2.
  destruct (install_loop lg Hlg v2 (entries lg) s2 _ _ _ _ k Hq2) as (s3 & k3 & E3 & Hk3 & Hq3);
    [done|intros i; by rewrite entries_in|left; intros i Hi; by apply Hpin, entries_in| |].
  { intros x Hx. split; [by apply Hlog|done]. }
  rewrite install_copies in Hq3.
  set (p3 := unpins p (blk lg <$> entries lg)) in *.
  assert (Hp3 : ∀ x, p3 x = true → p x = true ∧ ∀ i, 0 ≤ i < lh_n lg → blk lg i ≠ x).
  { intros x. unfold p3. rewrite unpins_spec, andb_true_iff, bool_decide_eq_true. intros [Hx Hpx].
    split; [done|]. intros i Hi <-. apply Hx, list_elem_of_fmap. exists i. split; [done|]. by apply entries_in. }
  destruct (write_head_ok (cleared lg) s3 _ _ p3 _ k3 Hq3) as (s4 & E4 & Hq4); [done| |lia|].
  { destruct (p3 (l_start (cleared lg))) eqn:E; [|done]. destruct (Hp3 _ E) as [E' _].
    simpl in E'. rewrite Hlog in E'; done. }
  simpl in Hq4.
  assert (Hv3 : apply_writes (home lg v) v2 (l_start lg) = commit_head lg v).
  { rewrite apply_notin; [unfold v2, upd; by rewrite Z.eqb_refl|]. apply home_notin. intros i Hi E.
    destruct (lo_blk lg Hlg i Hi) as [_ Hni]. apply Hni. by rewrite E. }
  rewrite Hv3 in Hq4.
  exists s4, k3, p3. split_and!; [|done|done|].
  - unfold commit. rewrite at_getlog, (proj2 (Z.ltb_lt _ _)) by done. unfold when.
    assert (write_log (lg, s) = Ok () (lg, s1)) as Ew by exact E1.
    assert (install_trans (lg, s2) = Ok () (lg, s3)) as Ei by exact E3.
    rewrite (bind_ok _ _ _ _ _ Ew), (bind_ok _ _ _ _ _ E2), (bind_ok _ _ _ _ _ Ei), at_updlog. exact E4.
  - unfold commit_writes. rewrite !apply_app. by rewrite <- !app_assoc in Hq4.
Qed.
End commit.

(** ** Crashes *)

(** A machine that has just booted on disk [d]: the cache is empty, and the
    in-memory log has only its position. *)
Definition booted (lg lg0 : log) (s0 : B) (d : Z → block) : Prop :=
  quiet s0 d d (λ _, false) [] 0 ∧ l_start lg0 = l_start lg ∧ l_size lg0 = l_size lg
  ∧ length (lh_block lg0) = Z.to_nat LOGSIZE.

(** The header on [d] is the one of [lg], as far as [read_head] reads it. *)
Definition header_of (lg : log) (h : block) : Prop :=
  hb_n h = lh_n lg ∧ ∀ i, 0 ≤ i < lh_n lg → hb_block h i = blk lg i.

Section crash.
Variables (lg lg0 : log) (s0 : B) (d : Z → block).
Hypothesis Hlg : log_ok lg.
Hypothesis Hboot : booted lg lg0 s0 d.

(** Recovery with the header of [lg], or of the cleared log, on the disk. *)
Lemma recover_header lgh :
  log_ok lgh → l_start lgh = l_start lg → l_size lgh = l_size lg → header_of lgh (d (l_start lg)) →
  ∃ lg1 s1 h0, recover_from_log (lg0, s0) = Ok () (lg1, s1) ∧ hb_n h0 = 0
    ∧ hb_n (bc_disk s1 (l_start lg)) = 0
    ∧ bc_writes s1 = to_home lgh d (entries lgh) ++ [(l_start lg, h0)]
    ∧ ∀ x, ¬ in_log lg x → bc_disk s1 x = apply_writes (to_home lgh d (entries lgh)) d x.
Proof using Hlg Hboot.
  intros Hlgh Est Esz [Hhn Hhb]. destruct Hboot as (Hq & Hst & Hsz & Hlen).
  pose proof (lo_n lgh Hlgh) as Hn0. pose proof (lo_size lgh Hlgh) as Hs0. set (h := d (l_start lg)) in *.
  destruct (read_log_spec lg0 h) as (R1 & R2 & R3 & R4 & R5); [lia|done|]. set (lg' := read_log lg0 h) in *.
  assert (Hblk : ∀ i, 0 ≤ i < lh_n lgh → blk lg' i = blk lgh i).
  { intros i Hi. rewrite R5 by lia. by apply Hhb. }
  assert (Hlg' : log_ok lg').
  { destruct Hlgh as [L1 L2 L3 L4 L5 L6 L7]. split; rewrite ?R1, ?R2, ?R3, ?R4, ?Hst, ?Hsz, <- ?Est, <- ?Esz, ?Hhn; try done.
    - intros i Hi. rewrite Hblk by done. by apply L6.
    - intros i j Hi Hj. rewrite !Hblk by done. by apply L7. }
  destruct (recover_run lg0 s0 d [] 0) as (s1 & k1 & E1 & _ & Hq1); rewrite ?Hst; fold h lg'; try done;
    [by rewrite R1|by apply Nat.ltb_lt|].
  rewrite Hst in Hq1, E1. fold h lg' in Hq1, E1.
  assert (Hth : to_home lg' d (entries lg') = to_home lgh d (entries lgh)).
  { unfold entries. rewrite R3, Hhn. apply list_fmap_ext. intros j i Hi.
    apply list_elem_of_lookup_2, elem_of_seqZ in Hi. rewrite Hblk by lia. by rewrite R1, Hst, Est. }
  exists (cleared lg'), s1, (put_head (cleared lg') (d (l_start lg'))).
  split_and!; [done|by apply put_head_n| | |].
  - rewrite (q_disk _ _ _ _ _ _ Hq1). unfold recovery_writes. rewrite apply_app. simpl. unfold upd.
    rewrite R1, Hst, Z.eqb_refl. by apply put_head_n.
  - rewrite (q_writes _ _ _ _ _ _ Hq1). unfold recovery_writes. by rewrite Hth, R1, Hst.
  - intros x Hx. rewrite (q_disk _ _ _ _ _ _ Hq1). unfold recovery_writes. rewrite apply_app. simpl. unfold upd.
    rewrite R1, Hst, (proj2 (Z.eqb_neq _ _)); [by rewrite Hth|]. intros ->. apply Hx. unfold in_log.
    pose proof (lo_n lg Hlg). lia.
Qed.

Lemma cleared_ok : log_ok (cleared lg).
Proof using Hlg. destruct Hlg as [L1 L2 L3 L4 L5 L6 L7]. split; simpl; try done; lia. Qed.
End crash.

Lemma header_empty lg h : hb_n h = 0 → header_of (cleared lg) h.
Proof. intros Hn. split; simpl; [done|lia]. Qed.

Lemma header_commit lg v : log_ok lg → header_of lg (commit_head lg v).
Proof.
  intros Hlg. pose proof (lo_n lg Hlg). pose proof (lo_size lg Hlg). split.
  - apply put_head_n. lia.
  - intros i Hi. apply put_head_block; [done|]. by apply (lo_blk lg Hlg).
Qed.

(** *** The disk after some of the writes of a commit *)

Section commit_prefix.
Variables (lg : log) (v d : Z → block).
Hypothesis Hlg : log_ok lg.
Hypothesis Hn : 0 < lh_n lg.

Lemma not_start x : ¬ in_log lg x → (x =? l_start lg) = false.
Proof using Hlg Hn. intros Hx. apply Z.eqb_neq. intros ->. by apply Hx, in_log_start. Qed.

Lemma outside_to_log ts x :
  ¬ in_log lg x → (∀ i, i ∈ ts → 0 ≤ i < lh_n lg) → x ∉ (to_log lg v ts).*1.
Proof using Hlg.
  clear Hn. intros Hx Hts. apply to_log_notin; [done|]. unfold in_log in Hx. pose proof (lo_n lg Hlg). lia.
Qed.

Lemma log_not_home x : in_log lg x → x ∉ (home lg v).*1.
Proof using Hlg.
  intros Hx. apply home_notin. intros i Hi E. destruct (lo_blk lg Hlg i Hi) as [_ Hni]. apply Hni. by rewrite E.
Qed.

(** Before the header is written, nothing outside the log has changed. *)
Lemma prefix_log j :
  (j ≤ Z.to_nat (lh_n lg))%nat →
  let dj := apply_writes (take j (commit_writes lg v)) d in
  dj (l_start lg) = d (l_start lg) ∧ ∀ x, ¬ in_log lg x → dj x = d x.
Proof using Hlg.
  clear Hn. intros Hj dj.
  assert (Htk : take j (commit_writes lg v) = to_log lg v (take j (entries lg))).
  { unfold commit_writes, to_log. rewrite take_app_le by (unfold entries; rewrite length_fmap, length_seqZ; lia).
    by rewrite fmap_take. }
  assert (Hte : ∀ i, i ∈ take j (entries lg) → 0 ≤ i < lh_n lg).
  { intros i Hi. apply entries_in. rewrite <- (take_drop j (entries lg)), elem_of_app. by left. }
  unfold dj. rewrite Htk. split.
  - apply apply_notin, to_log_notin; [done|by left].
  - intros x Hx. by apply apply_notin, outside_to_log.
Qed.

(** The disk once the header is written. *)
Definition headed : Z → block :=
  upd (apply_writes (to_log lg v (entries lg)) d) (l_start lg) (commit_head lg v).

Lemma headed_outside x : ¬ in_log lg x → headed x = d x.
Proof using Hlg Hn.
  intros Hx. unfold headed, upd. rewrite not_start by done. apply apply_notin, outside_to_log; [done|].
  intros i. by rewrite entries_in.
Qed.

Lemma headed_log i : 0 ≤ i < lh_n lg → headed (l_start lg + i + 1) = v (blk lg i).
Proof.
  clear Hn Hlg. intros Hi. unfold headed, upd. rewrite (proj2 (Z.eqb_neq _ _)) by lia. by apply to_log_at.
Qed.

Lemma prefix_headed m :
  take (Z.to_nat (lh_n lg) + 1 + m) (commit_writes lg v) =
    to_log lg v (entries lg) ++ [(l_start lg, commit_head lg v)]
    ++ take m (home lg v ++ [(l_start lg, put_head (cleared lg) (commit_head lg v))]).
Proof.
  clear Hn Hlg. unfold commit_writes.
  assert (HlA : length (to_log lg v (entries lg)) = Z.to_nat (lh_n lg)).
  { unfold to_log, entries. by rewrite length_fmap, length_seqZ. }
  rewrite take_app_ge by lia. f_equal. rewrite HlA.
  by replace (Z.to_nat (lh_n lg) + 1 + m - Z.to_nat (lh_n lg))%nat with (S m) by lia.
Qed.

(** While the blocks are installed, the header is in place, and installing
    everything from the log gives the new contents. *)
Lemma prefix_install m :
  (m ≤ Z.to_nat (lh_n lg))%nat →
  let dj := apply_writes (take m (home lg v)) headed in
  dj (l_start lg) = commit_head lg v
  ∧ to_home lg dj (entries lg) = home lg v
  ∧ ∀ x, ¬ in_log lg x → apply_writes (home lg v) dj x = apply_writes (home lg v) d x.
Proof using Hlg Hn.
  intros Hm dj.
  assert (Hsub : ∀ x, x ∉ (home lg v).*1 → x ∉ (take m (home lg v)).*1).
  { intros x Hx Hin. apply Hx. rewrite <- (take_drop m (home lg v)), fmap_app, elem_of_app. by left. }
  split_and!.
  - unfold dj. rewrite apply_notin; [unfold headed, upd; by rewrite Z.eqb_refl|].
    by apply Hsub, log_not_home, in_log_start.
  - apply list_fmap_ext. intros j i Hi. apply list_elem_of_lookup_2, entries_in in Hi. f_equal.
    unfold dj. rewrite apply_notin; [by apply headed_log|]. apply Hsub, log_not_home.
    unfold in_log. pose proof (lo_n lg Hlg). lia.
  - intros x Hx. destruct (decide (x ∈ (home lg v).*1)) as [Hin|Hnin].
    + apply list_elem_of_fmap in Hin as (? & -> & (i & -> & Hi)%list_elem_of_fmap).
      apply entries_in in Hi. simpl. by rewrite !home_in.
    + rewrite !(apply_notin (home lg v)) by done. unfold dj.
      rewrite apply_notin by (by apply Hsub). by apply headed_outside.
Qed.
End commit_prefix.

(** ** Theorems *)

Lemma to_home_cleared lg d x : apply_writes (to_home (cleared lg) d (entries (cleared lg))) d x = d x.
Proof. done. Qed.

Lemma crash_recovers lg v d j lg0 s0 :
  log_ok lg → 0 < lh_n lg → hb_n (d (l_start lg)) = 0 →
  booted lg lg0 s0 (apply_writes (take j (commit_writes lg v)) d) →
  ∃ lg1 s1, recover_from_log (lg0, s0) = Ok () (lg1, s1) ∧ hb_n (bc_disk s1 (l_start lg)) = 0
    ∧ ((j ≤ Z.to_nat (lh_n lg))%nat ∧ (∀ x, ¬ in_log lg x → bc_disk s1 x = d x)
       ∨ (Z.to_nat (lh_n lg) < j)%nat
         ∧ (∀ x, ¬ in_log lg x → bc_disk s1 x = apply_writes (home lg v) d x)).
Proof.
  intros Hlg Hn Hd0 Hboot. pose proof (cleared_ok lg Hlg) as Hcl.
  destruct (decide (j ≤ Z.to_nat (lh_n lg))%nat) as [Hj|Hj].
  { destruct (prefix_log lg v d Hlg j Hj) as [H1 H2].
    destruct (recover_header lg lg0 s0 _ Hlg Hboot (cleared lg)) as (lg1 & s1 & h0 & E & _ & Hh & _ & Hx);
      [done|done|done|by apply header_empty; rewrite H1|].
    exists lg1, s1. split_and!; [done|done|left]. split; [done|]. intros x Hnx.
    rewrite Hx by done. rewrite to_home_cleared. by apply H2. }
  destruct (Nat.le_exists_sub (Z.to_nat (lh_n lg) + 1) j) as (m & Hm & _); [lia|].
  rewrite Nat.add_comm in Hm. subst j. rewrite prefix_headed in Hboot. rewrite !apply_app in Hboot.
  change (apply_writes [(l_start lg, commit_head lg v)] _) with (headed lg v d) in Hboot.
  assert (HlC : length (home lg v) = Z.to_nat (lh_n lg)) by (unfold home, entries; by rewrite length_fmap, length_seqZ).
  destruct (decide (m ≤ Z.to_nat (lh_n lg))%nat) as [Hmn|Hmn].
  - rewrite take_app_le in Hboot by lia.
    destruct (prefix_install lg v d Hlg Hn m Hmn) as (H1 & H2 & H3).
    destruct (recover_header lg lg0 s0 _ Hlg Hboot lg) as (lg1 & s1 & h0 & E & _ & Hh & _ & Hx);
      [done|done|done|rewrite H1; by apply header_commit|].
    exists lg1, s1. split_and!; [done|done|right]. split; [lia|]. intros x Hnx.
    rewrite Hx, H2 by done. by apply H3.
  - rewrite take_ge in Hboot by (rewrite length_app, HlC; simpl; lia). rewrite apply_app in Hboot.
    destruct (recover_header lg lg0 s0 _ Hlg Hboot (cleared lg)) as (lg1 & s1 & h0 & E & _ & Hh & _ & Hx);
      [done|done|done| |].
    { simpl. unfold upd. rewrite Z.eqb_refl. by apply header_empty, put_head_n. }
    exists lg1, s1. split_and!; [done|done|right]. split; [lia|]. intros x Hnx.
    rewrite Hx by done. rewrite to_home_cleared. simpl. unfold upd.
    rewrite (not_start lg Hlg Hn) by done.
    destruct (prefix_install lg v d Hlg Hn (Z.to_nat (lh_n lg)) (le_n _)) as (_ & _ & H3).
    specialize (H3 x Hnx). rewrite take_ge in H3 by lia. rewrite <- H3.
    destruct (decide (x ∈ (home lg v).*1)) as [Hin|Hnin].
    + apply list_elem_of_fmap in Hin as (? & -> & (i & -> & Hi)%list_elem_of_fmap).
      apply entries_in in Hi. simpl. by rewrite !home_in.
    + by rewrite !(apply_notin (home lg v)) by done.
Qed.

(** C12: the log makes a transaction atomic. A commit of [n] blocks writes
    the disk in a fixed order; if the machine stops after any number [j] of
    these block writes and boots again, [recover_from_log] succeeds, leaves
    an empty log, and outside the log the disk is as before the transaction
    when [j <= n], and has every block of the transaction, and only those,
    changed when [j > n]: the write of the header is the commit point. *)
Theorem log_crash_atomic lg s v d p ws k :
  log_ok lg → 0 < lh_n lg → quiet s v d p ws k → (k < Z.to_nat NBUF)%nat →
  (∀ i, 0 ≤ i < lh_n lg → p (blk lg i) = true) → (∀ x, in_log lg x → p x = false) →
  hb_n (d (l_start lg)) = 0 →
  ∃ lg' s', commit (lg, s) = Ok () (lg', s') ∧ lh_n lg' = 0
    ∧ bc_writes s' = ws ++ commit_writes lg v
    ∧ ∀ j lg0 s0, booted lg lg0 s0 (apply_writes (take j (commit_writes lg v)) d) →
      ∃ lg1 s1, recover_from_log (lg0, s0) = Ok () (lg1, s1)
        ∧ hb_n (bc_disk s1 (l_start lg)) = 0
        ∧ ((j ≤ Z.to_nat (lh_n lg))%nat ∧ (∀ x, ¬ in_log lg x → bc_disk s1 x = d x)
           ∨ (Z.to_nat (lh_n lg) < j)%nat
             ∧ (∀ x, ¬ in_log lg x → bc_disk s1 x = apply_writes (home lg v) d x)).
Proof.
  intros Hlg Hn Hq Hk Hp Hl Hd0.
  destruct (commit_run lg s v d p ws k Hlg Hn Hq Hk Hp Hl) as (s' & k' & p' & E & _ & _ & Hq').
  exists (cleared lg), s'. split_and!; [done|done|apply (q_writes _ _ _ _ _ _ Hq')|].
  intros j lg0 s0 Hboot. by apply crash_recovers.
Qed.

(** Recovery can itself be interrupted. If the machine stops after any
    number of the block writes of [recover_from_log] and recovers again, the
    disk outside the log ends up the same as with one uninterrupted
    recovery. *)
Theorem log_recovery_restartable lg lg0 s0 d :
  log_ok lg → booted lg lg0 s0 d → header_of lg (d (l_start lg)) →
  ∃ lg1 s1, recover_from_log (lg0, s0) = Ok () (lg1, s1)
    ∧ ∀ j lg2 s2, booted lg lg2 s2 (apply_writes (take j (bc_writes s1)) d) →
      ∃ lg3 s3, recover_from_log (lg2, s2) = Ok () (lg3, s3)
        ∧ ∀ x, ¬ in_log lg x → bc_disk s3 x = bc_disk s1 x.
Proof.
  intros Hlg Hboot Hh.
  destruct (recover_header lg lg0 s0 d Hlg Hboot lg Hlg eq_refl eq_refl Hh)
    as (lg1 & s1 & h0 & E1 & Hh0 & _ & Hw & Hx1).
  exists lg1, s1. split; [done|]. intros j lg2 s2 Hb2. rewrite Hw in Hb2.
  set (ths := to_home lg d (entries lg)) in *.
  assert (Hnl : ∀ (ts : list (Z * block)) x, ts.*1 ⊆ ths.*1 → in_log lg x → x ∉ ts.*1).
  { intros ts x Hsub Hx Hin%Hsub. revert Hin. apply to_home_notin; [done| |done].
    intros i. by rewrite entries_in. }
  destruct (decide (j ≤ length ths)%nat) as [Hj|Hj].
  - rewrite take_app_le in Hb2 by done.
    assert (Hsub : (take j ths).*1 ⊆ ths.*1) by (rewrite fmap_take; apply subseteq_take).
    assert (Hst : in_log lg (l_start lg)) by (unfold in_log; pose proof (lo_n lg Hlg); lia).
    destruct (recover_header lg lg2 s2 _ Hlg Hb2 lg Hlg eq_refl eq_refl) as (lg3 & s3 & h3 & E3 & _ & _ & _ & Hx3).
    { rewrite apply_notin by (by apply Hnl). done. }
    exists lg3, s3. split; [done|]. intros x Hnx. rewrite Hx3, Hx1 by done.
    assert (to_home lg (apply_writes (take j ths) d) (entries lg) = ths) as ->.
    { apply list_fmap_ext. intros n i Hi. apply list_elem_of_lookup_2, entries_in in Hi. f_equal.
      apply apply_notin, Hnl; [done|]. unfold in_log. pose proof (lo_n lg Hlg). lia. }
    apply apply_take_twice. unfold ths, to_home. rewrite <- list_fmap_compose.
    apply NoDup_fmap_2_strong; [|apply NoDup_seqZ].
    intros i i' Hi Hi'. apply entries_in in Hi, Hi'. by apply (lo_inj lg Hlg).
  - rewrite take_ge, apply_app in Hb2 by (rewrite length_app; simpl; lia).
    destruct (recover_header lg lg2 s2 _ Hlg Hb2 (cleared lg)) as (lg3 & s3 & h3 & E3 & _ & _ & _ & Hx3);
      [by apply cleared_ok|done|done| |].
    { simpl. unfold upd. rewrite Z.eqb_refl. by apply header_empty. }
    exists lg3, s3. split; [done|]. intros x Hnx. rewrite Hx3, Hx1 by done. rewrite to_home_cleared.
    simpl. unfold upd. rewrite (proj2 (Z.eqb_neq _ _)); [done|]. intros ->. apply Hnx.
    unfold in_log. pose proof (lo_n lg Hlg). lia.
Qed.
End log.

(** ** Examples *)

Lemma look_replicate n x : look (replicate n buf0) x = None.
Proof. induction n as [|n IH]; [done|]. cbn [replicate]. by rewrite look_cons. Qed.

Lemma quiet_binit (d : Z → block) : quiet (binit (λ _, d) true) d d (λ _, false) [] 0.
Proof.
  split; try done. apply binit_inv.
Qed.

(** A log at blocks 2 to 31 whose transaction is block 50. *)
Definition log_example : log := Log 2 30 0 true 1 (50 :: replicate 29 0).
Definition boot_log : log := Log 2 30 0 false 0 (replicate 30 0).
Definition zero_disk : Z → block := λ _ _, 0.
Definition seven_view : Z → block := λ x, if x =? 50 then λ _, 7 else λ _, 0.
Definition dirty_cache : bio :=
  Bio (Buf true true ROOTDEV 50 false 0 (λ _, 7) :: replicate 29 buf0) (λ _, zero_disk) [] true.

Lemma log_example_ok : log_ok log_example.
Proof.
  split; unfold in_log; simpl; unfold FSSIZE, LOGSIZE, MAXOPBLOCKS; try lia; try done.
  - intros i Hi. assert (i = 0) as -> by lia. unfold blk. simpl. lia.
Qed.

Lemma dirty_cache_quiet :
  quiet dirty_cache seven_view zero_disk (λ x, x =? 50) [] 1.
Proof.
  assert (Hl : ∀ x, look (bufs dirty_cache) x =
    if x =? 50 then Some (Buf true true ROOTDEV 50 false 0 (λ _, 7)) else None).
  { intros x. unfold dirty_cache. cbn [bufs]. rewrite look_cons, look_replicate. unfold is_block.
    cbn [b_dev b_blockno]. rewrite Z.eqb_refl, (Z.eqb_sym x 50). done. }
  split; try done.
  - split; [|done]. split; [done| |].
    + replace (omap bkey (bufs dirty_cache)) with [50] by done. apply NoDup_singleton.
    + unfold dirty_cache. cbn [bufs drives]. constructor; [|apply Forall_replicate; by left].
      right. simpl. unfold FSSIZE. split_and!; try done; lia.
  - intros x. change (bc_view dirty_cache x) with (bio_view dirty_cache x). unfold bio_view. rewrite Hl. unfold seven_view. by destruct (x =? 50).
  - intros x. change (bc_pinned dirty_cache x) with (bio_pinned dirty_cache x). unfold bio_pinned. rewrite Hl. by destruct (x =? 50).
  - intros x. change (bc_held dirty_cache x) with (bio_held dirty_cache x). unfold bio_held. rewrite Hl. by destruct (x =? 50).
Qed.

Lemma booted_example (d : Z → block) : booted log_example boot_log (binit (λ _, d) true) d.
Proof. split; [apply quiet_binit|done]. Qed.

Lemma log_crash_atomic_witness :
  ∃ lg' s', commit (log_example, dirty_cache) = Ok () (lg', s')
    ∧ ∀ j, ∃ lg1 s1,
      recover_from_log (boot_log,
        binit (λ _, apply_writes (take j (commit_writes log_example seven_view)) zero_disk) true) = Ok () (lg1, s1)
      ∧ bio_disk s1 50 = if (j <=? 1)%nat then λ _, 0 else λ _, 7.
Proof.
  destruct (log_crash_atomic log_example dirty_cache seven_view zero_disk (λ x, x =? 50) [] 1)
    as (lg' & s' & E & _ & _ & Hcr).
  - apply log_example_ok.
  - simpl. lia.
  - apply dirty_cache_quiet.
  - by apply Nat.ltb_lt.
  - intros i Hi. simpl in Hi. by assert (i = 0) as -> by lia.
  - intros x Hx. unfold in_log in Hx. simpl in Hx. apply Z.eqb_neq. lia.
  - done.
  - exists lg', s'. split; [exact E|]. intros j.
    destruct (Hcr j boot_log (binit (λ _, apply_writes (take j (commit_writes log_example seven_view)) zero_disk) true))
      as (lg1 & s1 & E1 & _ & H); [apply booted_example|].
    exists lg1, s1. split; [exact E1|]. assert (Hx : ¬ in_log log_example 50) by (unfold in_log; simpl; lia).
    destruct H as [[Hj H]|[Hj H]]; specialize (H 50 Hx); simpl in Hj.
    + assert (j = 0 ∨ j = 1)%nat as [->| ->] by lia; exact H.
    + rewrite (proj2 (Nat.leb_gt j 1)) by lia. exact H.
Defined.

(** The disk on which the header of the transaction and its log block are
    written. *)
Definition committed_disk : Z → block :=
  apply_writes (take 2 (commit_writes log_example seven_view)) zero_disk.

Lemma log_recovery_restartable_witness :
  ∃ lg1 s1, recover_from_log (boot_log, binit (λ _, committed_disk) true) = Ok () (lg1, s1)
    ∧ ∀ j, ∃ lg3 s3,
      recover_from_log (boot_log, binit (λ _, apply_writes (take j (bio_writes s1)) committed_disk) true)
        = Ok () (lg3, s3) ∧ bio_disk s3 50 = bio_disk s1 50.
Proof.
  destruct (log_recovery_restartable log_example boot_log (binit (λ _, committed_disk) true) committed_disk)
    as (lg1 & s1 & E & H).
  - apply log_example_ok.
  - apply booted_example.
  - split; [done|]. intros i Hi. simpl in Hi. by assert (i = 0) as -> by lia.
  - exists lg1, s1. split; [exact E|]. intros j.
    destruct (H j boot_log (binit (λ _, apply_writes (take j (bio_writes s1)) committed_disk) true))
      as (lg3 & s3 & E3 & Hx); [apply booted_example|].
    exists lg3, s3. split; [exact E3|]. apply Hx. unfold in_log. simpl. lia.
Defined.
