(* ===== verification/LogOps.v ===== *)
(** * Transactions in progress

    [begin_op], [end_op] and [log_write] of [src/log.c] for threads that run
    file-system operations concurrently. A thread's local state is the rest
    of its operation: the blocks it still writes to the log. What it does
    under [log.lock] is one segment each; the tests with which [log_write]
    starts are made without the lock, and are segments of their own, so that
    the operations of other threads come in between. What [commit] does to
    the disk is in the file on the log. *)
From S2P Require Import Prelude Machine Monitor Bio Log.

(** Where an operation is: before [begin_op], in [log_write] of block [b] (at
    the two parts of its first test, at the second test, or at [acquire]),
    before [end_op], and in [end_op] before and after [commit]. [bs] are the
    blocks it writes after that. *)
Inductive lop :=
| OBegin (bs : list Z)
| OFull (b : Z) (bs : list Z) | OSize (b : Z) (bs : list Z) | OTrans (b : Z) (bs : list Z) | OAdd (b : Z) (bs : list Z)
| OEnd | OCommit | OCommitDone.
Inductive lres := REnded | RPanic (msg : string).

Definition log_seg := segment log () lop lres ().

(** The next call of an operation that still writes [bs]. *)
Definition next_op (bs : list Z) : lop :=
  match bs with [] => OEnd | b :: bs' => OFull b bs' end.

Definition begin_op (bs : list Z) (lg : log) : log_seg :=
  if committing lg then Segment lg [] [] (Sleeps () (OBegin bs))
  else if LOGSIZE <? lh_n lg + (outstanding lg + 1) * MAXOPBLOCKS then Segment lg [] [] (Sleeps () (OBegin bs))
  else Segment (lg <| outstanding := outstanding lg + 1 |>) [] [] (Goes (next_op bs)).

(** [end_op] up to the call of [commit]. *)
Definition end_op (lg : log) : log_seg :=
  let lg1 := lg <| outstanding := outstanding lg - 1 |> in
  if committing lg then Segment lg1 [] [] (Returns (RPanic "log.committing"))
  else if outstanding lg1 =? 0 then Segment (lg1 <| committing := true |>) [] [] (Goes OCommit)
  else Segment lg1 [()] [] (Returns REnded).

(** What [commit] does to the log in memory. *)
Definition commit_mem (lg : log) : log_seg := Segment (lg <| lh_n := 0 |>) [] [] (Goes OCommitDone).

(** [end_op] after [commit]. *)
Definition commit_done (lg : log) : log_seg :=
  Segment (lg <| committing := false |>) [()] [] (Returns REnded).

(** The search for [blockno] among the first [n] entries: its index, or [n]. *)
Fixpoint find_block (l : list Z) (n : nat) (b : Z) : nat :=
  match n, l with
  | S n', x :: l' => if x =? b then O else S (find_block l' n' b)
  | _, _ => O
  end.

(** The tests of [log_write]. *)
Definition log_full (lg : log) : bool := LOGSIZE <=? lh_n lg.
Definition log_over (lg : log) : bool := l_size lg - 1 <=? lh_n lg.
Definition no_trans (lg : log) : bool := outstanding lg <? 1.

(** [log_write] under the lock. *)
Definition log_add (b : Z) (lg : log) : log :=
  let i := find_block (lh_block lg) (Z.to_nat (lh_n lg)) b in
  let lg1 := lg <| lh_block := <[i := b]> (lh_block lg) |> in
  if Z.of_nat i =? lh_n lg then lg1 <| lh_n := lh_n lg + 1 |> else lg1.

Definition log_segment (l : lop) (lg : log) : log_seg :=
  match l with
  | OBegin bs => begin_op bs lg
  | OFull b bs =>
      if log_full lg then Segment lg [] [] (Returns (RPanic "too big a transaction"))
      else Segment lg [] [] (Goes (OSize b bs))
  | OSize b bs =>
      if log_over lg then Segment lg [] [] (Returns (RPanic "too big a transaction"))
      else Segment lg [] [] (Goes (OTrans b bs))
  | OTrans b bs =>
      if no_trans lg then Segment lg [] [] (Returns (RPanic "log_write outside of trans"))
      else Segment lg [] [] (Goes (OAdd b bs))
  | OAdd b bs => Segment (log_add b lg) [] [] (Goes (next_op bs))
  | OEnd => end_op lg
  | OCommit => commit_mem lg
  | OCommitDone => commit_done lg
  end.

(** Threads of the log. *)
Notation lthread := (thread () lop lres).
Notation log_step := (mstep log_segment (λ _ _, False) any_segment).

(** A thread calls [begin_op] first, and it writes at most [MAXOPBLOCKS]
    blocks before its [end_op]; a thread that has panicked does no more. *)
Definition starts_op (x y : log * list lthread) : Prop :=
  ∀ i r l, x.2 !! i = Some (TDone r) → y.2 !! i = Some (TReady l) →
    (∃ bs, l = OBegin bs ∧ Z.of_nat (length bs) ≤ MAXOPBLOCKS) ∧ ∀ m, r ≠ Some (RPanic m).

Inductive log_runs : log * list lthread → log * list lthread → Prop :=
| log_runs_refl x : log_runs x x
| log_runs_step x y es z : log_runs x y → log_step y es z → starts_op y z → log_runs x z.

(** The log after [initlog]. *)
Definition fresh_log (start size : Z) : log :=
  Log start size 0 false 0 (replicate (Z.to_nat LOGSIZE) 0).

(** ** What a thread contributes *)

Definition op_blocks (l : lop) : list Z :=
  match l with
  | OBegin bs => bs
  | OFull b bs | OSize b bs | OTrans b bs | OAdd b bs => b :: bs
  | _ => []
  end.

(** Between [begin_op] and [end_op], where it stays if it panics. *)
Definition in_trans (t : lthread) : nat :=
  match t with
  | TReady (OFull _ _ | OSize _ _ | OTrans _ _ | OAdd _ _ | OEnd) | TDone (Some (RPanic _)) => 1
  | _ => 0
  end.

Definition in_commit (t : lthread) : nat :=
  match t with TReady (OCommit | OCommitDone) => 1 | _ => 0 end.

(** The blocks it may still add to the log. *)
Definition to_add (t : lthread) : nat :=
  match t with
  | TReady l => match l with OBegin _ => 0 | _ => length (op_blocks l) end
  | _ => 0
  end.

(** Why [begin_op] may sleep. *)
Definition must_wait (lg : log) : Prop :=
  committing lg = true ∨ LOGSIZE < lh_n lg + (outstanding lg + 1) * MAXOPBLOCKS.

Definition thread_ok (lg : log) (t : lthread) : Prop :=
  match t with
  | TReady l => Z.of_nat (length (op_blocks l)) ≤ MAXOPBLOCKS
  | TAsleep _ l => (∃ bs, l = OBegin bs) ∧ Z.of_nat (length (op_blocks l)) ≤ MAXOPBLOCKS ∧ must_wait lg
  | TDone (Some (RPanic m)) => m = "too big a transaction" ∧ l_size lg ≤ LOGSIZE
  | TDone _ => True
  end.

Record ops_inv (lg : log) (ts : list lthread) : Prop := {
  oi_out : outstanding lg = Z.of_nat (sum_list_with in_trans ts);
  oi_commits : sum_list_with in_commit ts = Nat.b2n (committing lg);
  oi_iso : committing lg = true → outstanding lg = 0;
  oi_three : outstanding lg ≤ 3;
  oi_n : 0 ≤ lh_n lg;
  oi_room : lh_n lg + Z.of_nat (sum_list_with to_add ts) ≤ LOGSIZE;
  oi_len : length (lh_block lg) = Z.to_nat LOGSIZE;
  oi_nodup : NoDup (take (Z.to_nat (lh_n lg)) (lh_block lg));
  oi_thread i t : ts !! i = Some t → thread_ok lg t
}.

Lemma find_block_spec n : ∀ l b,
  (n ≤ length l)%nat →
  (find_block l n b = n ∧ b ∉ take n l) ∨ ((find_block l n b < n)%nat ∧ l !! find_block l n b = Some b).
Proof.
  induction n as [|n IH]; intros l b Hl.
  { left. split; [by destruct l|]. apply not_elem_of_nil. }
  destruct l as [|x l]; simpl in Hl; [lia|]. simpl. destruct (Z.eqb_spec x b) as [->|Hne].
  - right. split; [lia|done].
  - destruct (IH l b ltac:(lia)) as [[-> Hn]|[H1 H2]].
    + left. split; [done|]. apply not_elem_of_cons. done.
    + right. split; [lia|done].
Qed.

(** Recording a block keeps the entries distinct. *)
Lemma log_add_distinct lg b :
  0 ≤ lh_n lg < LOGSIZE → length (lh_block lg) = Z.to_nat LOGSIZE →
  NoDup (take (Z.to_nat (lh_n lg)) (lh_block lg)) →
  let lg' := log_add b lg in
  NoDup (take (Z.to_nat (lh_n lg')) (lh_block lg')) ∧ b ∈ take (Z.to_nat (lh_n lg')) (lh_block lg')
  ∧ lh_n lg ≤ lh_n lg' ≤ lh_n lg + 1 ∧ length (lh_block lg') = Z.to_nat LOGSIZE.
Proof.
  intros Hn Hl Hnd. unfold log_add. set (n := Z.to_nat (lh_n lg)) in *. cbv zeta.
  set (i := find_block (lh_block lg) n b).
  assert (n < length (lh_block lg))%nat as Hlt by (rewrite Hl; unfold n, LOGSIZE, MAXOPBLOCKS in *; lia).
  destruct (find_block_spec n (lh_block lg) b ltac:(lia)) as [[Hi Hb]|[Hi Hb]]; fold i in Hi, Hb.
  - rewrite (proj2 (Z.eqb_eq _ _)) by lia. simpl. replace (Z.to_nat (lh_n lg + 1)) with (S n) by lia. rewrite Hi.
    rewrite (take_S_r _ n b) by (apply list_lookup_insert_eq; lia). rewrite take_insert_ge by lia.
    split; [|split; [apply elem_of_app; right; left | split; [lia | by rewrite length_insert]]].
    apply NoDup_app. split_and!; [done| |apply NoDup_singleton].
    intros x Hx Hx'. apply list_elem_of_singleton in Hx' as ->. done.
  - rewrite (proj2 (Z.eqb_neq _ _)) by lia. simpl. rewrite list_insert_id by done. fold n.
    split; [done|]. split; [|split; [lia | done]]. apply list_elem_of_lookup. exists i. by rewrite lookup_take_lt.
Qed.

(** ** One thread moves *)

Lemma wake_in_trans cs t lg : thread_ok lg t → in_trans (wake cs t) = in_trans t ∧ in_commit (wake cs t) = in_commit t
  ∧ to_add (wake cs t) = to_add t.
Proof. destruct t as [| |c l]; simpl; try done. intros ([bs ->] & _ & _). by case_decide. Qed.

Lemma sum_wake f cs lg ts : (f = in_trans ∨ f = in_commit ∨ f = to_add) →
  (∀ i t, ts !! i = Some t → thread_ok lg t) → sum_list_with f (wake cs <$> ts) = sum_list_with f ts.
Proof.
  intros Hf. induction ts as [|t ts IH]; intros Hts; [done|]. csimpl. rewrite IH by (intros i u Hu; apply (Hts (S i) u Hu)).
  destruct (wake_in_trans cs t lg (Hts 0%nat t eq_refl)) as (E1 & E2 & E3). destruct Hf as [->|[->| ->]]; congruence.
Qed.

Section change.
Variables (lg lg' : log) (ts : list lthread) (i : nat) (t t' : lthread) (cs : list ()).
Hypotheses (Hinv : ops_inv lg ts) (Hi : ts !! i = Some t).

Lemma sum_change f : (f = in_trans ∨ f = in_commit ∨ f = to_add) →
  (sum_list_with f (<[i := t']> (wake cs <$> ts)) + f t = sum_list_with f ts + f t')%nat.
Proof using Hinv Hi.
  intros Hf. rewrite <- (sum_wake f cs lg ts Hf (oi_thread _ _ Hinv)).
  destruct (wake_in_trans cs t lg (oi_thread _ _ Hinv i t Hi)) as (E1 & E2 & E3).
  assert (f t = f (wake cs t)) as -> by (destruct Hf as [->|[->| ->]]; congruence).
  apply sum_list_insert. by rewrite list_lookup_fmap, Hi.
Qed.

(** The invariant after thread [i] went from [t] to [t'] and the log from
    [lg] to [lg']. *)
Lemma ops_change :
  outstanding lg' + Z.of_nat (in_trans t) = outstanding lg + Z.of_nat (in_trans t') →
  (Nat.b2n (committing lg') + in_commit t = Nat.b2n (committing lg) + in_commit t')%nat →
  (committing lg' = true → outstanding lg' = 0) → outstanding lg' ≤ 3 → 0 ≤ lh_n lg' →
  lh_n lg' + Z.of_nat (sum_list_with to_add ts) + Z.of_nat (to_add t') ≤ LOGSIZE + Z.of_nat (to_add t) →
  length (lh_block lg') = Z.to_nat LOGSIZE → NoDup (take (Z.to_nat (lh_n lg')) (lh_block lg')) →
  thread_ok lg' t' → l_size lg' = l_size lg → (must_wait lg → must_wait lg' ∨ () ∈ cs) →
  ops_inv lg' (<[i := t']> (wake cs <$> ts)).
Proof using Hinv Hi.
  intros Ho Hc Hiso H3 Hn Hroom Hl Hnd Ht' Hsz Hmw.
  pose proof (sum_change in_trans ltac:(auto)) as S1. pose proof (sum_change in_commit ltac:(auto)) as S2.
  pose proof (sum_change to_add ltac:(auto)) as S3. pose proof (oi_out _ _ Hinv) as Ho1. pose proof (oi_commits _ _ Hinv) as Hc1.
  split; try done; try lia.
  intros j u Hj. destruct (moved_lookup _ _ _ _ _ _ _ Hi Hj) as [[-> ->]|(_ & v & Ev & ->)]; [done|].
  pose proof (oi_thread _ _ Hinv j v Ev) as Hv. destruct v as [[[|m]|]|l|[] l]; simpl in *; try done; [by rewrite Hsz|].
  destruct Hv as ([bs ->] & Hb & Hw). case_decide as Hd; [done|]. split; [by eexists|]. split; [done|].
  by destruct (Hmw Hw).
Qed.
End change.

(** A thread that is still to add blocks is in a transaction. *)
Lemma to_add_trans lg t : thread_ok lg t → Z.of_nat (to_add t) ≤ MAXOPBLOCKS * Z.of_nat (in_trans t).
Proof. unfold MAXOPBLOCKS. destruct t as [|l|]; simpl; try lia. destruct l; simpl; unfold MAXOPBLOCKS; lia. Qed.

Lemma to_add_sum lg ts : (∀ i t, ts !! i = Some t → thread_ok lg t) →
  Z.of_nat (sum_list_with to_add ts) ≤ MAXOPBLOCKS * Z.of_nat (sum_list_with in_trans ts).
Proof.
  unfold MAXOPBLOCKS. induction ts as [|t ts IH]; intros Hts; simpl; [lia|].
  pose proof (to_add_trans lg t (Hts 0%nat t eq_refl)). unfold MAXOPBLOCKS in *.
  specialize (IH (λ i u Hu, Hts (S i) u Hu)). lia.
Qed.

Lemma next_op_trans bs : in_trans (TReady (next_op bs)) = 1%nat ∧ in_commit (TReady (next_op bs)) = 0%nat
  ∧ to_add (TReady (next_op bs)) = length bs.
Proof. by destruct bs. Qed.

(** ** Every segment keeps the invariant *)

Section segments.
Variables (lg : log) (ts : list lthread) (i : nat).
Hypothesis Hinv : ops_inv lg ts.

Notation kept l := (ops_inv (seg_state (log_segment l lg))
  (<[i := ended (seg_end (log_segment l lg))]> (wake (seg_wakes (log_segment l lg)) <$> ts))).

Lemma begin_op_kept bs : ts !! i = Some (TReady (OBegin bs)) → kept (OBegin bs).
Proof using Hinv.
  intros Hi. pose proof Hinv as [Ho Hc Hiso H3 Hn Hroom Hl Hnd Ht]. pose proof (Ht i _ Hi) as Hb. simpl in Hb.
  assert (must_wait lg → ops_inv lg (<[i := TAsleep () (OBegin bs)]> (wake [] <$> ts))) as Hw.
  { intros Hw. apply (ops_change lg lg ts i (TReady (OBegin bs))); simpl; try done; try lia; eauto 6. }
  simpl. unfold begin_op. destruct (committing lg) eqn:Ec; [apply Hw; by left|].
  case_match eqn:E; [apply Z.ltb_lt in E; apply Hw; by right|]. apply Z.ltb_ge in E.
  destruct (next_op_trans bs) as (N1 & N2 & N3). pose proof (to_add_sum lg ts Ht). unfold LOGSIZE, MAXOPBLOCKS in *.
  apply (ops_change lg _ ts i (TReady (OBegin bs))); cbn [seg_state seg_end ended]; rewrite ?N1, ?N2, ?N3; simpl; try done; try lia.
  - congruence.
  - unfold LOGSIZE, MAXOPBLOCKS. lia.
  - destruct bs; simpl in *; unfold MAXOPBLOCKS; lia.
  - unfold must_wait, LOGSIZE, MAXOPBLOCKS. simpl. rewrite Ec. intros [?|?]; [done|]. left. right. lia.
Qed.

(** A test that leaves the log alone. *)
Lemma test_kept l l' : ts !! i = Some (TReady l) →
  in_trans (TReady l') = in_trans (TReady l) → in_commit (TReady l') = in_commit (TReady l) →
  to_add (TReady l') = to_add (TReady l) → Z.of_nat (length (op_blocks l')) ≤ MAXOPBLOCKS →
  ops_inv lg (<[i := TReady l']> (wake [] <$> ts)).
Proof using Hinv.
  intros Hi E1 E2 E3 Hb. pose proof Hinv as [Ho Hc Hiso H3 Hn Hroom Hl Hnd Ht].
  apply (ops_change lg lg ts i (TReady l)); rewrite ?E1, ?E2, ?E3; try done; try lia. by left.
Qed.

(** The panic of a transaction that does not fit. *)
Lemma too_big_kept l : ts !! i = Some (TReady l) → in_trans (TReady l) = 1%nat → in_commit (TReady l) = 0%nat →
  l_size lg ≤ LOGSIZE → ops_inv lg (<[i := TDone (Some (RPanic "too big a transaction"))]> (wake [] <$> ts)).
Proof using Hinv.
  intros Hi E1 E2 Hs. pose proof Hinv as [Ho Hc Hiso H3 Hn Hroom Hl Hnd Ht].
  apply (ops_change lg lg ts i (TReady l)); rewrite ?E1, ?E2; try done; simpl; try lia. by left.
Qed.

Lemma add_kept b bs : ts !! i = Some (TReady (OAdd b bs)) → kept (OAdd b bs).
Proof using Hinv.
  intros Hi. pose proof Hinv as [Ho Hc Hiso H3 Hn Hroom Hl Hnd Ht].
  pose proof (sum_list_lookup to_add ts i _ Hi) as Ha. pose proof (Ht i _ Hi) as Hb. simpl in Ha, Hb.
  destruct (log_add_distinct lg b) as (D1 & _ & D2 & D3); [lia | done | done |]. destruct (next_op_trans bs) as (N1 & N2 & N3).
  assert (outstanding (log_add b lg) = outstanding lg ∧ committing (log_add b lg) = committing lg ∧ l_size (log_add b lg) = l_size lg)
    as (E1 & E2 & E3) by (unfold log_add; cbv zeta; by case_match).
  apply (ops_change lg _ ts i (TReady (OAdd b bs))); cbn [log_segment seg_state seg_end ended];
    rewrite ?N1, ?N2, ?N3, ?E1, ?E2, ?E3; simpl; try done; try lia.
  - destruct bs; simpl in *; lia.
  - unfold must_wait. rewrite E1, E2. intros [?|?]; left; [by left | right; lia].
Qed.

(** A thread inside an operation is counted. *)
Lemma in_trans_out t : ts !! i = Some t → in_trans t = 1%nat → 1 ≤ outstanding lg ∧ committing lg = false.
Proof using Hinv.
  intros Hi Ht. pose proof (sum_list_lookup in_trans ts i t Hi). rewrite (oi_out _ _ Hinv).
  split; [lia|]. destruct (committing lg) eqn:E; [|done]. pose proof (oi_iso _ _ Hinv E) as H0.
  rewrite (oi_out _ _ Hinv) in H0. lia.
Qed.

Lemma end_op_kept : ts !! i = Some (TReady OEnd) → kept OEnd.
Proof using Hinv.
  intros Hi. pose proof Hinv as [Ho Hc Hiso H3 Hn Hroom Hl Hnd Ht]. destruct (in_trans_out _ Hi eq_refl) as [H1 Ec].
  simpl. unfold end_op. rewrite Ec. cbn [outstanding]. destruct (Z.eqb_spec (outstanding (lg <| outstanding := outstanding lg - 1 |>)) 0) as [E|E];
    simpl in E; apply (ops_change lg _ ts i (TReady OEnd)); simpl; rewrite ?Ec; try done; try lia.
  - unfold must_wait. simpl. auto.
  - right. left.
Qed.

Lemma commit_kept l : ts !! i = Some (TReady l) → l = OCommit ∨ l = OCommitDone → kept l.
Proof using Hinv.
  intros Hi Hl'. pose proof Hinv as [Ho Hc Hiso H3 Hn Hroom Hl Hnd Ht].
  assert (committing lg = true) as Ec.
  { pose proof (sum_list_lookup in_commit ts i _ Hi) as Hs. rewrite Hc in Hs.
    destruct (committing lg); [done|]. destruct Hl' as [->| ->]; simpl in Hs; lia. }
  destruct Hl' as [->| ->]; apply (ops_change lg _ ts i _ _ _ Hinv Hi); simpl; rewrite ?Ec; try done; try lia.
  - intros _. by apply Hiso.
  - rewrite take_0. constructor.
  - unfold must_wait. simpl. auto.
  - right. left.
Qed.

Lemma segment_kept l : ts !! i = Some (TReady l) → kept l.
Proof using Hinv.
  intros Hi. pose proof (oi_thread _ _ Hinv i _ Hi) as Hb. simpl in Hb.
  destruct l as [bs|b bs|b bs|b bs|b bs| | |]; try (by apply commit_kept; auto).
  - by apply begin_op_kept.
  - simpl. unfold log_full. pose proof (sum_list_lookup to_add ts i _ Hi) as Ha. pose proof (oi_room _ _ Hinv). simpl in Ha.
    rewrite (proj2 (Z.leb_gt _ _)) by lia. by apply (test_kept (OFull b bs)).
  - simpl. unfold log_over. pose proof (sum_list_lookup to_add ts i _ Hi) as Ha. pose proof (oi_room _ _ Hinv). simpl in Ha.
    case_match eqn:E; [|by apply (test_kept (OSize b bs))]. apply Z.leb_le in E. apply (too_big_kept (OSize b bs)); try done. lia.
  - simpl. unfold no_trans. destruct (in_trans_out _ Hi eq_refl). rewrite (proj2 (Z.ltb_ge _ _)) by done.
    by apply (test_kept (OTrans b bs)).
  - by apply add_kept.
  - by apply end_op_kept.
Qed.
End segments.

Lemma ops_step x es y : ops_inv x.1 x.2 → log_step x es y → starts_op x y → ops_inv y.1 y.2.
Proof.
  intros Hinv Hs Hst.
  destruct Hs as [lg ts i r l Hi|lg ts i c l Hi|lg ts i l l' Hi []|lg ts i l Hi _ g]; cbn [fst snd] in *; [| |by apply segment_kept];
    pose proof Hinv as [Ho Hc Hiso H3 Hn Hroom Hl Hnd Ht]; rewrite <- (wake_none ts).
  - destruct (Hst i r l Hi) as [(bs & -> & Hb) Hr]; [simpl; apply list_lookup_insert_eq; by eapply lookup_lt_Some|].
    destruct r as [[|m]|]; [| by destruct (Hr m) |]; apply (ops_change lg lg ts i _ _ _ Hinv Hi); simpl; try done; try lia; by left.
  - destruct (Ht i _ Hi) as ([bs ->] & Hb & _). apply (ops_change lg lg ts i _ _ _ Hinv Hi); simpl; try done; try lia. by left.
Qed.

Lemma ops_fresh start size (ts : list lthread) : Forall (λ t, t = TDone None) ts → ops_inv (fresh_log start size) ts.
Proof.
  intros Hts. assert (∀ f : lthread → nat, f (TDone None) = 0%nat → sum_list_with f ts = 0%nat) as Hs.
  { intros f Hf. induction Hts as [|t ts -> _ IH]; [done|]. simpl. by rewrite Hf, IH. }
  split; rewrite ?Hs; try done; simpl; unfold LOGSIZE, MAXOPBLOCKS; try lia; [constructor|].
  intros i t Hi. by rewrite (Forall_lookup_1 _ _ _ _ Hts Hi).
Qed.

Lemma ops_runs x y : log_runs x y → ops_inv x.1 x.2 → ops_inv y.1 y.2 ∧ l_size y.1 = l_size x.1.
Proof.
  intros Hr Hx. induction Hr as [x|x y es z _ IH Hs Hst]; [done|]. destruct (IH Hx) as [Hy Es]. split; [by eapply ops_step|].
  rewrite <- Es. destruct Hs as [| |?????? []|lg ts i l Hi _ g]; try done. unfold g. simpl.
  destruct l; simpl; unfold begin_op, end_op, log_add; cbv zeta; by repeat case_match.
Qed.

Lemma commit_exists (ts : list lthread) : sum_list_with in_commit ts = 1%nat →
  ∃ i l, ts !! i = Some (TReady l) ∧ (l = OCommit ∨ l = OCommitDone).
Proof.
  induction ts as [|t ts IH]; [done|]. simpl. intros Hs. destruct (in_commit t) eqn:Et.
  - destruct (IH Hs) as (i & l & Hi & Hl). by exists (S i), l.
  - exists 0%nat. destruct t as [|l|]; try done. exists l. destruct l; try done; auto.
Qed.


(** ** Concrete schedules *)

Definition log_act (a : act lop) (x : log * list lthread) : option (log * list lthread) :=
  match a with
  | ACall i l =>
      match x.2 !! i, l with
      | Some (TDone (None | Some REnded)), OBegin bs =>
          if Z.of_nat (length bs) <=? MAXOPBLOCKS then Some (x.1, <[i := TReady l]> x.2) else None
      | _, _ => None
      end
  | ASeg i =>
      match x.2 !! i with
      | Some (TReady l) =>
          let g := log_segment l x.1 in
          Some (seg_state g, <[i := ended (seg_end g)]> (wake (seg_wakes g) <$> x.2))
      | _ => None
      end
  end.

Fixpoint log_acts (acts : list (act lop)) (x : log * list lthread) : option (log * list lthread) :=
  match acts with
  | [] => Some x
  | a :: acts' => match log_act a x with Some y => log_acts acts' y | None => None end
  end.

Lemma log_act_runs a x y z : log_runs x y → log_act a y = Some z → log_runs x z.
Proof.
  intros Hr. destruct y as [lg ts], a as [i l|i]; simpl.
  - destruct (ts !! i) as [[r| |]|] eqn:Hi; try done. intros E.
    assert (∃ bs, l = OBegin bs ∧ Z.of_nat (length bs) ≤ MAXOPBLOCKS ∧ (∀ m, r ≠ Some (RPanic m)) ∧ z = (lg, <[i := TReady l]> ts))
      as (bs & -> & Hb & Hp & ->).
    { destruct r as [[|m]|], l as [bs| | | | | | |]; try done; case_match eqn:Eb; try done; apply Z.leb_le in Eb; simplify_eq; eauto. }
    eapply log_runs_step; [done | by eapply mstep_call|]. intros j r' l' Hj Hj'. simpl in *.
    destruct (decide (i = j)) as [->|Hne]; [|rewrite list_lookup_insert_ne in Hj' by done; congruence].
    rewrite list_lookup_insert_eq in Hj' by by eapply lookup_lt_Some. simplify_eq. eauto.
  - destruct (ts !! i) as [[|l|]|] eqn:Hi; try done. intros [= <-].
    eapply log_runs_step; [done | by apply (mstep_segment _ _ any_segment lg ts i l Hi)|]. intros j r' l' Hj Hj'. simpl in *.
    destruct (decide (i = j)) as [->|Hne]; [congruence|]. rewrite list_lookup_insert_ne in Hj' by done.
    rewrite list_lookup_fmap, Hj in Hj'. done.
Qed.

Lemma log_acts_runs acts x : ∀ y z, log_runs x y → log_acts acts y = Some z → log_runs x z.
Proof.
  induction acts as [|a acts IH]; intros y z Hr; simpl; [by intros [= ->]|].
  destruct (log_act a y) as [y'|] eqn:E; [|done]. apply IH. by eapply log_act_runs.
Qed.

(** Four threads start an operation, and the fourth has to wait; the tests of
    two [log_write]s are made before either adds its block, which is the same. *)
Definition four_begin : list (act lop) :=
  [ACall 0 (OBegin [50]); ASeg 0; ACall 1 (OBegin [50]); ASeg 1; ACall 2 (OBegin []); ASeg 2; ACall 3 (OBegin [60]); ASeg 3;
   ASeg 0; ASeg 1; ASeg 1; ASeg 0; ASeg 0; ASeg 1; ASeg 1; ASeg 0].


(** Three operations of [MAXOPBLOCKS] blocks each, on the log that [mkfs]
    makes: [LOGSIZE] blocks, the header included. *)
Definition three_full_ops : list (act lop) :=
  flat_map (λ i, [ACall i (OBegin (seqZ (100 + 10 * Z.of_nat i) 10)); ASeg i]) (seq 0 3)
  ++ replicate 40 (ASeg 0) ++ replicate 40 (ASeg 1) ++ replicate 38 (ASeg 2).

(** The admission test of [begin_op] promises too much. It reserves
    [LOGSIZE] data blocks, but a log of [LOGSIZE] blocks has one less,
    because the header takes one: three operations that keep within
    [MAXOPBLOCKS] are all admitted, and the last write of the third panics
    with "too big a transaction". *)
Theorem log_admission_overcommits :
  ∃ lg ts', log_runs (fresh_log 2 LOGSIZE, replicate 3 (TDone None)) (lg, ts')
    ∧ outstanding lg = 3 ∧ lh_n lg = 29
    ∧ ts' !! 2%nat = Some (TDone (Some (RPanic "too big a transaction"))).
Proof.
  destruct (log_acts three_full_ops (fresh_log 2 LOGSIZE, replicate 3 (TDone None))) as [[lg ts']|] eqn:E; [|by vm_compute in E].
  exists lg, ts'. split.
  - eapply log_acts_runs; [apply log_runs_refl | exact E].
  - vm_compute in E. by injection E as <- <-.
Qed.
