(* ===== verification/Vm.v ===== *)
(** * Virtual memory (vm.c)

    Page tables in memory, over any allocator that satisfies [PageAlloc]:
    [walkpgdir], [mappages], the kernel mappings, and the routines that build,
    grow, shrink, copy and free the user part of an address space. Memory is
    the kernel's direct map, so a page table is read and written at the
    kernel address of its page. *)
From S2P Require Import Prelude Machine CString Spin Kalloc.
Import KString.

(** [struct kmap] *)
Record kmap_entry := Kmap { virt : Z; phys_start : Z; phys_end : Z; perm : Z }.

Section vm.
Context {K : Type} `{PageAlloc K}.

Definition present (e : Z) : bool := truthy (Z.land e PTE_P).

Definition walkpgdir (pgdir va alloc : Z) : M K Z :=
  let pde := pgdir + 4 * PDX va in
  e ← gets (λ s, load32 (pa_mem s) pde);
  if present e then mret (P2V (PTE_ADDR e) + 4 * PTX va)
  else if negb (truthy alloc) then mret 0
  else
    pgtab ← pa_kalloc;
    if pgtab =? 0 then mret 0
    else
      pa_write (λ m, memset m pgtab 0 PGSIZE);;
      pa_write (λ m, store32 m pde (Z.lor (Z.lor (Z.lor (V2P pgtab) PTE_P) PTE_W) PTE_U));;
      mret (pgtab + 4 * PTX va).

(** The [for(;;)] of [mappages]. *)
Fixpoint mappages_loop (fuel : nat) (pgdir a last pa perm : Z) : M K Z :=
  match fuel with
  | O => hang
  | S fuel' =>
      pte ← walkpgdir pgdir a 1;
      if pte =? 0 then mret (-1)
      else
        e ← gets (λ s, load32 (pa_mem s) pte);
        if present e then panic "remap"
        else
          pa_write (λ m, store32 m pte (Z.lor (Z.lor pa perm) PTE_P));;
          if a =? last then mret 0
          else mappages_loop fuel' pgdir (u32 (a + PGSIZE)) last (u32 (pa + PGSIZE)) perm
  end.

Definition mappages (pgdir va size pa perm : Z) : M K Z :=
  let a := PGROUNDDOWN va in
  let last := PGROUNDDOWN (u32 va + size - 1) in
  mappages_loop (S (Z.to_nat (u32 (last - a) / PGSIZE))) pgdir a last pa perm.

(** Free the page an entry maps and clear the entry. *)
Definition unmap_pte (pte : Z) : M K () :=
  e ← gets (λ s, load32 (pa_mem s) pte);
  if present e
  then if PTE_ADDR e =? 0 then panic "kfree"
       else pa_kfree (P2V (PTE_ADDR e));; pa_write (λ m, store32 m pte 0)
  else mret ().

(** The loop of [deallocuvm]. *)
Fixpoint deallocuvm_loop (fuel : nat) (pgdir a oldsz : Z) : M K () :=
  match fuel with
  | O => hang
  | S fuel' =>
      if negb (a <? oldsz) then mret ()
      else
        pte ← walkpgdir pgdir a 0;
        if pte =? 0
        then deallocuvm_loop fuel' pgdir (u32 (u32 (PGADDR (PDX a + 1) 0 0 - PGSIZE) + PGSIZE)) oldsz
        else
          unmap_pte pte;;
          deallocuvm_loop fuel' pgdir (u32 (a + PGSIZE)) oldsz
  end.

Definition deallocuvm (pgdir oldsz newsz : Z) : M K Z :=
  if oldsz <=? newsz then mret oldsz
  else
    let a := PGROUNDUP newsz in
    deallocuvm_loop (S (Z.to_nat (oldsz / PGSIZE + 1))) pgdir a oldsz;;
    mret newsz.

Definition freevm (pgdir : Z) : M K () :=
  if pgdir =? 0 then panic "freevm: no pgdir"
  else
    deallocuvm pgdir KERNBASE 0;;
    for_each (seqZ 0 NPDENTRIES) (λ i,
      e ← gets (λ s, load32 (pa_mem s) (pgdir + 4 * i));
      when (present e) (pa_kfree (P2V (PTE_ADDR e))));;
    pa_kfree pgdir.

(** The loop of [allocuvm]; [cprintf] is left out. *)
Fixpoint allocuvm_loop (fuel : nat) (pgdir a oldsz newsz : Z) : M K Z :=
  match fuel with
  | O => hang
  | S fuel' =>
      if negb (a <? newsz) then mret newsz
      else
        mem ← pa_kalloc;
        if mem =? 0 then deallocuvm pgdir newsz oldsz;; mret 0
        else
          pa_write (λ m, memset m mem 0 PGSIZE);;
          r ← mappages pgdir a PGSIZE (V2P mem) (Z.lor PTE_W PTE_U);
          if r <? 0 then deallocuvm pgdir newsz oldsz;; pa_kfree mem;; mret 0
          else allocuvm_loop fuel' pgdir (u32 (a + PGSIZE)) oldsz newsz
  end.

Definition allocuvm (pgdir oldsz newsz : Z) : M K Z :=
  if KERNBASE <=? newsz then mret 0
  else if newsz <? oldsz then mret oldsz
  else allocuvm_loop (S (Z.to_nat (newsz / PGSIZE + 1))) pgdir (PGROUNDUP oldsz) oldsz newsz.

(** [data] is the address the linker script gives to the kernel's data. *)
Definition kmap (data : Z) : list kmap_entry :=
  [ Kmap KERNBASE 0 EXTMEM PTE_W;
    Kmap KERNLINK (V2P KERNLINK) (V2P data) 0;
    Kmap data (V2P data) PHYSTOP PTE_W;
    Kmap DEVSPACE DEVSPACE 0 PTE_W ].

Definition setupkvm (data : Z) : M K Z :=
  pgdir ← pa_kalloc;
  if pgdir =? 0 then mret 0
  else
    pa_write (λ m, memset m pgdir 0 PGSIZE);;
    if DEVSPACE <? P2V PHYSTOP then panic "PHYSTOP too high"
    else
      r ← for_until (kmap data) (λ k,
        r ← mappages pgdir (virt k) (u32 (phys_end k - phys_start k)) (phys_start k) (perm k);
        if r <? 0 then freevm pgdir;; mret (Some 0) else mret None);
      mret (default pgdir r).

(** [init] is the kernel address of the binary of initcode. *)
Definition inituvm (pgdir init sz : Z) : M K () :=
  if PGSIZE <=? sz then panic "inituvm: more than a page"
  else
    mem ← pa_kalloc;
    pa_write (λ m, memset m mem 0 PGSIZE);;
    mappages pgdir 0 PGSIZE (V2P mem) (Z.lor PTE_W PTE_U);;
    pa_write (λ m, memmove m mem init sz).

Definition clearpteu (pgdir uva : Z) : M K () :=
  pte ← walkpgdir pgdir uva 0;
  if pte =? 0 then panic "clearpteu"
  else pa_write (λ m, store32 m pte (Z.land (load32 m pte) (u32 (Z.lnot PTE_U)))).

(** The loop of [copyuvm]; the result is false for [goto bad]. *)
Fixpoint copyuvm_loop (fuel : nat) (pgdir d i sz : Z) : M K bool :=
  match fuel with
  | O => hang
  | S fuel' =>
      if negb (i <? sz) then mret true
      else
        pte ← walkpgdir pgdir i 0;
        if pte =? 0 then panic "copyuvm: pte should exist"
        else
          e ← gets (λ s, load32 (pa_mem s) pte);
          if negb (present e) then panic "copyuvm: page not present"
          else
            mem ← pa_kalloc;
            if mem =? 0 then mret false
            else
              pa_write (λ m, memmove m mem (P2V (PTE_ADDR e)) PGSIZE);;
              r ← mappages d i PGSIZE (V2P mem) (PTE_FLAGS e);
              if r <? 0 then pa_kfree mem;; mret false
              else copyuvm_loop fuel' pgdir d (u32 (i + PGSIZE)) sz
  end.

Definition copyuvm (data pgdir sz : Z) : M K Z :=
  d ← setupkvm data;
  if d =? 0 then mret 0
  else
    ok ← copyuvm_loop (S (Z.to_nat (sz / PGSIZE + 1))) pgdir d 0 sz;
    if (ok : bool) then mret d else freevm d;; mret 0.

(** [uva2ka] does not test the result of [walkpgdir]: without a page table
    it reads the word at address 0, which is [word0] here. *)
Definition uva2ka (word0 pgdir uva : Z) : M K Z :=
  pte ← walkpgdir pgdir uva 0;
  e ← gets (λ s, if pte =? 0 then word0 else load32 (pa_mem s) pte);
  if negb (present e) then mret 0
  else if negb (truthy (Z.land e PTE_U)) then mret 0
  else mret (P2V (PTE_ADDR e)).

Fixpoint copyout_loop (fuel : nat) (word0 pgdir va buf len : Z) : M K Z :=
  match fuel with
  | O => hang
  | S fuel' =>
      if len =? 0 then mret 0
      else
        let va0 := PGROUNDDOWN va in
        pa0 ← uva2ka word0 pgdir va0;
        if pa0 =? 0 then mret (-1)
        else
          let n0 := PGSIZE - (va - va0) in
          let n := if len <? n0 then len else n0 in
          pa_write (λ m, memmove m (pa0 + (va - va0)) buf n);;
          copyout_loop fuel' word0 pgdir (u32 (va0 + PGSIZE)) (buf + n) (len - n)
  end.

Definition copyout (word0 pgdir va p len : Z) : M K Z :=
  copyout_loop (S (Z.to_nat (len / PGSIZE + 2))) word0 pgdir va p len.

(** Routines of one part of a pair of states. *)
Definition onfst {F A} (m : M K A) : M (K * F) A := λ '(k, f),
  match m k with
  | Ok a k' => Ok a (k', f)
  | Panic e => Panic e
  | Hang => Hang
  end.

Definition onsnd {F A} (m : M F A) : M (K * F) A := λ '(k, f),
  match m f with
  | Ok a f' => Ok a (k, f')
  | Panic e => Panic e
  | Hang => Hang
  end.

(** The loop of [loaduvm], over [readi] of an open inode, which stores what
    it reads at a kernel address and changes the state [F] of the file
    system. *)
Fixpoint loaduvm_loop {F} (readi : Z → Z → Z → M (K * F) Z) (fuel : nat)
    (pgdir addr offset sz i : Z) : M (K * F) Z :=
  match fuel with
  | O => hang
  | S fuel' =>
      if negb (i <? sz) then mret 0
      else
        pte ← onfst (walkpgdir pgdir (u32 (addr + i)) 0);
        if pte =? 0 then panic "loaduvm: address should exist"
        else
          pa ← onfst (gets (λ s, PTE_ADDR (load32 (pa_mem s) pte)));
          let n := if sz - i <? PGSIZE then sz - i else PGSIZE in
          r ← readi (P2V pa) (u32 (offset + i)) n;
          if negb (r =? n) then mret (-1)
          else loaduvm_loop readi fuel' pgdir addr offset sz (u32 (i + PGSIZE))
  end.

Definition loaduvm {F} (readi : Z → Z → Z → M (K * F) Z) (pgdir addr offset sz : Z) : M (K * F) Z :=
  if negb (u32 addr mod PGSIZE =? 0) then panic "loaduvm: addr must be page aligned"
  else loaduvm_loop readi (S (Z.to_nat (sz / PGSIZE + 1))) pgdir addr offset sz 0.
End vm.
