(* ===== verification/VmSpec.v ===== *)
(** * Page tables: the hardware's view and its invariants

    [entry m d v] is what the paging hardware finds for virtual page [v] in
    the page directory [d]. Every page of the allocator has one role: free,
    a page directory, a page table, a user frame, or in other hands. The
    invariants say that memory agrees with the roles; they are what makes
    the address spaces disjoint. *)
From stdpp Require Import functions.
From S2P Require Import Prelude Machine CString Spin Kalloc Vm.
Import KString.

(** ** Page-table entries *)

Definition page_of (a : Z) : Z := a - a mod PGSIZE.

Definition pde (m : mem) (d i : Z) : Z := load32 m (d + 4 * i).

(** The kernel address of the page an entry points to. *)
Definition frame (e : Z) : Z := P2V (PTE_ADDR e).

(** The walk of the paging hardware, for virtual page [v]. *)
Definition entry (m : mem) (d v : Z) : Z :=
  if present (pde m d (v / 1024)) then load32 m (frame (pde m d (v / 1024)) + 4 * (v mod 1024))
  else 0.

Definition VPAGES : Z := 1048576.
Definition UPAGES : Z := 524288.

Lemma present_spec e : present e = true ↔ e mod 2 = 1.
Proof.
  unfold present, PTE_P, truthy. change 1 with (Z.ones 1) at 1. rewrite Z.land_ones by lia.
  change (2 ^ 1) with 2. destruct (Z.eqb_spec (e mod 2) 0); simpl; split; intros; try done; zmod.
Qed.

Lemma present_0 : present 0 = false.
Proof. done. Qed.

(** A page address and flags, as the code combines them. *)
Lemma lor_page pa f : pa mod 4096 = 0 → 0 ≤ f < 4096 → Z.lor pa f = pa + f.
Proof.
  intros Hpa Hf. replace pa with (Z.shiftl (pa / 4096) 12) at 1
    by (rewrite Z.shiftl_mul_pow2 by lia; change (2 ^ 12) with 4096; zmod).
  rewrite lor_disjoint_add by lia. change (2 ^ 12) with 4096. zmod.
Qed.

Lemma PTE_ADDR_page pa f :
  pa mod 4096 = 0 → 0 ≤ f < 4096 → 0 ≤ pa < 4294967296 → PTE_ADDR (pa + f) = pa.
Proof.
  intros H1 H2 H3. unfold PTE_ADDR. rewrite u32_small by zmod.
  rewrite land_page_mask by zmod. zmod.
Qed.

Lemma PTE_FLAGS_spec e : 0 ≤ e < 4294967296 → PTE_FLAGS e = e mod 4096.
Proof.
  intros. unfold PTE_FLAGS. rewrite u32_small by done.
  change 0xFFF with (Z.ones 12). by rewrite Z.land_ones.
Qed.

Lemma walk_index va : 0 ≤ va < 4294967296 → PDX va = va / 4096 / 1024.
Proof. intros. rewrite PDX_spec by done. zmod. Qed.

(** ** Roles of pages *)

Inductive role := Other | Free | Dir | Table (d i : Z) | Frame (d v : Z).

#[export] Instance role_eq_dec : EqDecision role.
Proof. solve_decision. Defined.

Definition tabular (r : role) : Prop := match r with Dir | Table _ _ => True | _ => False end.
Definition plain (r : role) : Prop := match r with Other | Frame _ _ => True | _ => False end.

Section spec.
Context {K : Type} `{PageAlloc K}.

Implicit Types (s : K) (m : mem) (p d t v a : Z).

Lemma page_range p : pa_page p → p mod 4096 = 0 ∧ 0x80000000 < p < 0x8E000000.
Proof. intros Hp%pa_page_ok. unfold PGSIZE, KERNBASE, PHYSTOP in Hp. lia. Qed.

Lemma page_nonzero p : pa_page p → (p =? 0) = false.
Proof. intros Hp%page_range. lia. Qed.

Lemma V2P_page p : pa_page p → V2P p = p - 0x80000000.
Proof. intros Hp%page_range. unfold V2P, KERNBASE. apply u32_small. lia. Qed.

Lemma V2P_aligned p : pa_page p → V2P p mod 4096 = 0 ∧ 0 ≤ V2P p < 0xE000000.
Proof. intros Hp. rewrite V2P_page by done. apply page_range in Hp. zmod. Qed.

Lemma frame_page p f : pa_page p → 0 ≤ f < 4096 → frame (V2P p + f) = p.
Proof.
  intros Hp Hf. pose proof (V2P_aligned p Hp). unfold frame. rewrite PTE_ADDR_page by lia.
  rewrite V2P_page by done. apply page_range in Hp. unfold P2V, KERNBASE. rewrite u32_small; lia.
Qed.

Lemma present_page p f : pa_page p → present (V2P p + f) = present f.
Proof.
  intros Hp. pose proof (V2P_aligned p Hp) as [Hm _].
  apply eq_true_iff_eq. rewrite !present_spec. zmod.
Qed.

Lemma page_of_spec p a : pa_page p → page_of a = p ↔ in_page p a.
Proof. intros Hp%page_range. unfold page_of, in_page, PGSIZE. zmod. Qed.

Lemma page_of_entry p j x : pa_page p → 0 ≤ j < 1024 → 0 ≤ x < 4 → page_of (p + 4 * j + x) = p.
Proof. intros Hp Hj Hx. apply page_of_spec; [done|]. unfold in_page, PGSIZE. lia. Qed.

(** Entries of one page are read where no other page is written. *)
Lemma load_entry_ext m m' p j :
  pa_page p → 0 ≤ j < 1024 → (∀ a, page_of a = p → m' a = m a) →
  load32 m' (p + 4 * j) = load32 m (p + 4 * j).
Proof.
  intros Hp Hj Hm. apply load32_ext. intros a Ha. apply Hm.
  replace a with (p + 4 * j + (a - (p + 4 * j))) by lia. apply page_of_entry; [done|done|lia].
Qed.
(** ** Invariants *)

(** The free pages are the allocator's, and directories and tables in memory
    are those the roles say. *)
Record pt_ok (s : K) (R : Z → role) : Prop := {
  pt_free : ∃ l, pa_inv s l ∧ ∀ p, p ∈ l ↔ R p = Free;
  pt_page p : R p ≠ Other → pa_page p;
  pt_pde d i : R d = Dir → 0 ≤ i < 1024 →
    pde (pa_mem s) d i = 0 ∨ ∃ t, pde (pa_mem s) d i = V2P t + 7 ∧ R t = Table d i;
  pt_tab t d i : R t = Table d i →
    R d = Dir ∧ 0 ≤ i < 1024 ∧ pde (pa_mem s) d i = V2P t + 7
}.

(** The user part of every directory maps exactly the frames that carry its
    name. *)
Definition frames_ok (m : mem) (R : Z → role) : Prop :=
  (∀ d v, R d = Dir → 0 ≤ v < UPAGES → present (entry m d v) = true →
     R (frame (entry m d v)) = Frame d v) ∧
  (∀ p d v, R p = Frame d v →
     R d = Dir ∧ 0 ≤ v < UPAGES ∧ present (entry m d v) = true ∧ frame (entry m d v) = p).

Definition vm_ok (s : K) (R : Z → role) : Prop := pt_ok s R ∧ frames_ok (pa_mem s) R.

(** Roles are compared page by page. *)
Lemma pt_ok_ext s R R' : (∀ p, R p = R' p) → pt_ok s R → pt_ok s R'.
Proof.
  intros E [(l & Hl & Hf) H2 H3 H4]. split.
  - exists l. split; [done|]. intros p. by rewrite <- E.
  - intros p. rewrite <- E. apply H2.
  - intros d i Hd Hi. rewrite <- E in Hd. destruct (H3 d i Hd Hi) as [?|(t & ? & ?)]; [by left|].
    right. exists t. by rewrite <- E.
  - intros t d i Ht. rewrite <- E in Ht. rewrite <- E. by apply H4.
Qed.

#[export] Instance pt_ok_proper : Proper (eq ==> pointwise_relation Z eq ==> iff) pt_ok.
Proof. intros s ? <- R R' E. split; by apply pt_ok_ext. Qed.

Lemma frames_ok_ext m R R' : (∀ p, R p = R' p) → frames_ok m R → frames_ok m R'.
Proof.
  intros E [H1 H2]. split.
  - intros d v Hd Hv He. rewrite <- E in Hd. rewrite <- E. by apply H1.
  - intros p d v Hp. rewrite <- E in Hp. rewrite <- E. by apply H2.
Qed.

#[export] Instance frames_ok_proper m : Proper (pointwise_relation Z eq ==> iff) (frames_ok m).
Proof. intros R R' E. split; by apply frames_ok_ext. Qed.

Lemma insert_twice (R : Z → role) p r1 r2 :
  pointwise_relation Z eq (<[p := r2]> (<[p := r1]> R)) (<[p := r2]> R).
Proof.
  intros q. destruct (decide (q = p)) as [->|]; [by rewrite !fn_lookup_insert|].
  by rewrite !fn_lookup_insert_ne.
Qed.

Lemma pt_page_role s R p r : pt_ok s R → R p = r → r ≠ Other → pa_page p.
Proof. intros Hok <- Hr. by eapply pt_page. Qed.

Lemma pt_wf s R : pt_ok s R → wf_mem (pa_mem s).
Proof. intros [(l & Hl & _) _ _ _]. by apply (pa_free_ok s l). Qed.

(** The entry of a page as a slot in memory, or no table. *)
Definition slot (s : K) (R : Z → role) (d v r : Z) : Prop :=
  ∃ t, R t = Table d (v / 1024) ∧ r = t + 4 * (v mod 1024).

Lemma entry_cases s R d v :
  pt_ok s R → R d = Dir → 0 ≤ v < VPAGES →
  (pde (pa_mem s) d (v / 1024) = 0 ∧ entry (pa_mem s) d v = 0) ∨
  ∃ t, R t = Table d (v / 1024) ∧ pde (pa_mem s) d (v / 1024) = V2P t + 7 ∧
    entry (pa_mem s) d v = load32 (pa_mem s) (t + 4 * (v mod 1024)).
Proof.
  intros Hok Hd Hv. unfold VPAGES in Hv.
  destruct (pt_pde s R Hok d (v / 1024) Hd) as [E|(t & E & Ht)]; [zmod| |].
  - left. split; [done|]. unfold entry. by rewrite E.
  - right. exists t. split; [done|]. split; [done|]. unfold entry. rewrite E.
    assert (pa_page t) as Hp by (by eapply pt_page_role).
    rewrite present_page, frame_page by (done || lia). done.
Qed.

Lemma entry_slot s R d v r :
  pt_ok s R → slot s R d v r → entry (pa_mem s) d v = load32 (pa_mem s) r.
Proof.
  intros Hok (t & Ht & ->). destruct (pt_tab s R Hok _ _ _ Ht) as (Hd & Hi & E).
  assert (pa_page t) as Hp by (by eapply pt_page_role).
  unfold entry. rewrite E, present_page, frame_page by (done || lia). done.
Qed.

(** Memory that agrees on directories and tables gives the same entries. *)
Lemma entry_frame s R m' d v :
  pt_ok s R → R d = Dir → 0 ≤ v < VPAGES →
  (∀ a, tabular (R (page_of a)) → m' a = pa_mem s a) →
  pde m' d (v / 1024) = pde (pa_mem s) d (v / 1024) ∧ entry m' d v = entry (pa_mem s) d v.
Proof.
  intros Hok Hd Hv Hm. unfold VPAGES in Hv.
  assert (pde m' d (v / 1024) = pde (pa_mem s) d (v / 1024)) as E.
  { apply load_entry_ext; [by eapply pt_page_role | zmod |]. intros a Ha. apply Hm. by rewrite Ha, Hd. }
  split; [done|]. unfold entry. rewrite E.
  destruct (entry_cases s R d v) as [[-> _]|(t & Ht & -> & _)]; [done|done|done|done|].
  assert (pa_page t) as Hp by (by eapply pt_page_role).
  rewrite present_page, frame_page by (done || lia).
  apply load_entry_ext; [done | zmod |]. intros a Ha. apply Hm. by rewrite Ha, Ht.
Qed.

(** Steps that leave directories and tables alone. *)
Lemma pt_step s s' R R' :
  pt_ok s R →
  (∃ l, pa_inv s' l ∧ ∀ p, p ∈ l ↔ R' p = Free) → (∀ p, R' p ≠ Other → pa_page p) →
  (∀ p, tabular (R p) ∨ tabular (R' p) → R' p = R p) →
  (∀ a, tabular (R (page_of a)) → pa_mem s' a = pa_mem s a) →
  pt_ok s' R' ∧
  ∀ d v, R d = Dir → 0 ≤ v < VPAGES → entry (pa_mem s') d v = entry (pa_mem s) d v.
Proof.
  intros Hok Hl Hp HR Hm.
  assert (∀ d i, R d = Dir → 0 ≤ i < 1024 → pde (pa_mem s') d i = pde (pa_mem s) d i) as Hpde.
  { intros d i Hd Hi. destruct (entry_frame s R (pa_mem s') d (1024 * i)) as [E _];
      [done | done | unfold VPAGES; lia | done |].
    by replace (1024 * i / 1024) with i in E by zmod. }
  split; [|intros; by eapply entry_frame].
  split; [done | done | |].
  - intros d i Hd Hi. assert (R d = Dir) as Hd' by (rewrite <- HR, Hd; [done | by rewrite Hd; right]).
    rewrite Hpde by done. destruct (pt_pde s R Hok d i Hd' Hi) as [?|(t & E & Ht)]; [by left|].
    right. exists t. split; [done|]. by rewrite HR, Ht by (rewrite Ht; by left).
  - intros t d i Ht. assert (R t = Table d i) as Ht' by (rewrite <- HR, Ht; [done | by rewrite Ht; right]).
    destruct (pt_tab s R Hok _ _ _ Ht') as (Hd & Hi & E).
    split; [by rewrite HR, Hd by (rewrite Hd; by left)|]. by rewrite Hpde.
Qed.

(** The invariant on frames sees memory only through the entries. *)
Lemma frames_ext m m' R :
  (∀ d v, R d = Dir → 0 ≤ v < VPAGES → entry m' d v = entry m d v) →
  frames_ok m R → frames_ok m' R.
Proof.
  intros He [H1 H2]. split.
  - intros d v Hd Hv. rewrite He by (unfold UPAGES, VPAGES in *; done || lia). by apply H1.
  - intros p d v Hp. destruct (H2 p d v Hp) as (Hd & Hv & Hr).
    rewrite He by (unfold UPAGES, VPAGES in *; done || lia). done.
Qed.
(** ** What the operations do to the invariants *)

Definition same_entries (m m' : mem) (R : Z → role) : Prop :=
  ∀ d v, R d = Dir → 0 ≤ v < VPAGES → entry m' d v = entry m d v.

Lemma plain_not_free r : plain r → r ≠ Free.
Proof. by destruct r. Qed.

Lemma plain_not_tabular r : plain r → ¬ tabular r.
Proof. destruct r; simpl; tauto. Qed.

(** An update of the role of one page between roles that are not tables. *)
Lemma recast_tabular (R : Z → role) p r :
  ¬ tabular (R p) → ¬ tabular r →
  ∀ q, tabular (R q) ∨ tabular (<[p := r]> R q) → <[p := r]> R q = R q.
Proof.
  intros H1 H2 q. destruct (decide (q = p)) as [->|].
  - rewrite fn_lookup_insert. tauto.
  - by rewrite fn_lookup_insert_ne.
Qed.

Lemma recast_page s R p r :
  pt_ok s R → pa_page p → ∀ q, <[p := r]> R q ≠ Other → pa_page q.
Proof.
  intros Hok Hp q. destruct (decide (q = p)) as [->|]; [done|].
  rewrite fn_lookup_insert_ne by done. by eapply pt_page.
Qed.

Lemma pt_alloc s R :
  pt_ok s R →
  (∃ s', pa_kalloc s = Ok 0 s' ∧ pt_ok s' R ∧ pa_mem s' = pa_mem s ∧ ∀ p, R p ≠ Free) ∨
  (∃ p s', pa_kalloc s = Ok p s' ∧ R p = Free ∧ pa_page p ∧ pt_ok s' (<[p := Other]> R) ∧
     pa_mem s' = pa_mem s).
Proof.
  intros Hok. destruct (pt_free s R Hok) as (l & Hl & Hf).
  destruct (pa_kalloc_ok s l Hl) as (s' & Hr & Hi & Hm).
  destruct (pa_free_ok s l Hl) as (Hpg & Hnd & _). destruct l as [|p l]; simpl in *.
  - left. exists s'. split; [done|]. split; [|split; [done|]].
    + eapply pt_step; [done | eauto | by apply (pt_page s R) | naive_solver | by rewrite Hm].
    + intros p Hp%Hf. by apply elem_of_nil in Hp.
  - right. apply NoDup_cons in Hnd as [Hnp Hnd]. apply Forall_cons_1 in Hpg as [Hp Hpg].
    assert (R p = Free) as Hfp by (apply Hf; left). exists p, s'. split_and!; try done.
    eapply pt_step; [done | | by eapply (recast_page s R) | | by rewrite Hm].
    + exists l. split; [done|]. intros q. destruct (decide (q = p)) as [->|].
      * rewrite fn_lookup_insert. naive_solver.
      * rewrite fn_lookup_insert_ne by done. rewrite <- Hf, elem_of_cons. naive_solver.
    + apply recast_tabular; [rewrite Hfp|]; by intros [].
Qed.

Lemma pt_kfree s R p :
  pt_ok s R → pa_page p → plain (R p) →
  ∃ s', pa_kfree p s = Ok () s' ∧ pt_ok s' (<[p := Free]> R) ∧
    (∀ a, page_of a ≠ p → pa_mem s' a = pa_mem s a) ∧ same_entries (pa_mem s) (pa_mem s') R.
Proof.
  intros Hok Hp Hpl. destruct (pt_free s R Hok) as (l & Hl & Hf).
  destruct (pa_kfree_ok s l p Hl Hp) as (s' & Hr & Hi & Hm).
  { rewrite Hf. by apply plain_not_free. }
  assert (∀ a, page_of a ≠ p → pa_mem s' a = pa_mem s a) as Hm'.
  { intros a Ha. apply Hm. by rewrite <- page_of_spec. }
  exists s'. split; [done|].
  destruct (pt_step s s' R (<[p := Free]> R)) as [Hok' He]; [done | | by eapply (recast_page s R) | | |].
  - exists (p :: l). split; [done|]. intros q. rewrite elem_of_cons, Hf.
    destruct (decide (q = p)) as [->|].
    + rewrite fn_lookup_insert. naive_solver.
    + rewrite fn_lookup_insert_ne by done. naive_solver.
  - apply recast_tabular; [by apply plain_not_tabular | by intros []].
  - intros a Ha. apply Hm'. intros E. rewrite E in Ha. by eapply plain_not_tabular.
  - done.
Qed.

Lemma pt_write s R p f :
  pt_ok s R → plain (R p) → wf_mem (f (pa_mem s)) →
  (∀ a, page_of a ≠ p → f (pa_mem s) a = pa_mem s a) →
  ∃ s', pa_write f s = Ok () s' ∧ pt_ok s' R ∧ pa_mem s' = f (pa_mem s) ∧
    same_entries (pa_mem s) (pa_mem s') R.
Proof.
  intros Hok Hpl Hwf Hm. destruct (pt_free s R Hok) as (l & Hl & Hf).
  destruct (pa_write_ok s l f Hl Hwf) as (s' & Hr & Hi & Hm').
  { intros q a Hq%Hf Ha. apply Hm. apply page_of_spec in Ha; [|by eapply pt_page_role].
    rewrite Ha. intros ->. by apply plain_not_free in Hpl. }
  exists s'. split; [done|].
  destruct (pt_step s s' R R) as [Hok' He]; [done | eauto | by apply (pt_page s R) | done | | done].
  intros a Ha. rewrite Hm'. apply Hm. intros E. rewrite E in Ha. by eapply plain_not_tabular.
Qed.

Lemma pt_recast s R p r :
  pt_ok s R → pa_page p → plain (R p) → plain r → pt_ok s (<[p := r]> R).
Proof.
  intros Hok Hp Hpl Hr. destruct (pt_free s R Hok) as (l & Hl & Hf).
  eapply pt_step; [done | | by eapply (recast_page s R) | | done].
  - exists l. split; [done|]. intros q. rewrite Hf. destruct (decide (q = p)) as [->|].
    + rewrite fn_lookup_insert. by destruct (R p), r.
    + by rewrite fn_lookup_insert_ne.
  - by apply recast_tabular; apply plain_not_tabular.
Qed.

(** Writes by the page-table code itself: within a directory or table. *)
Lemma pt_table_write s R p f :
  pt_ok s R → tabular (R p) → wf_mem (f (pa_mem s)) →
  (∀ a, page_of a ≠ p → f (pa_mem s) a = pa_mem s a) →
  ∃ s' l, pa_write f s = Ok () s' ∧ pa_inv s' l ∧ (∀ q, q ∈ l ↔ R q = Free) ∧
    pa_mem s' = f (pa_mem s).
Proof.
  intros Hok Hpl Hwf Hm. destruct (pt_free s R Hok) as (l & Hl & Hf).
  destruct (pa_write_ok s l f Hl Hwf) as (s' & Hr & Hi & Hm'); [|naive_solver].
  intros q a Hq%Hf Ha. apply Hm. apply page_of_spec in Ha; [|by eapply pt_page_role].
  rewrite Ha. intros ->. by rewrite Hq in Hpl.
Qed.
(** Two slots of tables are the same word or four bytes apart. *)
Lemma store_entry_frame m p j e a :
  pa_page p → 0 ≤ j < 1024 → page_of a ≠ p → store32 m (p + 4 * j) e a = m a.
Proof.
  intros Hp Hj Ha. rewrite store32_byte, decide_False; [done|]. intros Hr. apply Ha.
  apply page_of_spec; [done|]. unfold in_page, PGSIZE. lia.
Qed.

Lemma load_store_entry m p q i j e :
  pa_page p → pa_page q → 0 ≤ i < 1024 → 0 ≤ j < 1024 → 0 ≤ e < 4294967296 →
  load32 (store32 m (p + 4 * i) e) (q + 4 * j) =
  if decide (p = q ∧ i = j) then e else load32 m (q + 4 * j).
Proof.
  intros Hp Hq Hi Hj He. case_decide as Hd.
  - destruct Hd as [-> ->]. by apply load32_store32_eq.
  - apply load32_store32_ne. apply page_range in Hp, Hq.
    destruct (decide (p = q)) as [->|Hne]; [assert (i ≠ j) by tauto; lia|].
    assert (p + 4096 ≤ q ∨ q + 4096 ≤ p) by zmod. lia.
Qed.

(** Setting an entry changes exactly that entry. *)
Lemma pt_set s R d v r e f :
  pt_ok s R → slot s R d v r → 0 ≤ v < VPAGES → 0 ≤ e < 4294967296 →
  f (pa_mem s) = store32 (pa_mem s) r e →
  ∃ s', pa_write f s = Ok () s' ∧ pt_ok s' R ∧
    (∀ d' v', R d' = Dir → 0 ≤ v' < VPAGES →
       entry (pa_mem s') d' v' = if decide (d' = d ∧ v' = v) then e else entry (pa_mem s) d' v') ∧
    (∀ a, ¬ tabular (R (page_of a)) → pa_mem s' a = pa_mem s a).
Proof.
  intros Hok (t & Ht & ->) Hv He Hf. unfold VPAGES in *.
  assert (pa_page t) as Hp by (by eapply pt_page_role).
  assert (∀ a, page_of a ≠ t → f (pa_mem s) a = pa_mem s a) as Hm.
  { intros a Ha. rewrite Hf. apply store_entry_frame; [done | zmod | done]. }
  destruct (pt_table_write s R t f) as (s' & l & Hr & Hi & Hl & Hs'); [done | by rewrite Ht | | done |].
  { rewrite Hf. by eapply store32_wf, pt_wf. }
  assert (∀ d' i, R d' = Dir → 0 ≤ i < 1024 → pde (pa_mem s') d' i = pde (pa_mem s) d' i) as Hpde.
  { intros d' i Hd' Hi'. unfold pde. rewrite Hs', Hf, load_store_entry, decide_False;
      [done | intros [-> _]; congruence | done | by eapply pt_page_role | zmod | done | done]. }
  assert (pt_ok s' R) as Hok'.
  { split; [eauto | by apply (pt_page s R) | |].
    - intros d' i Hd' Hi'. rewrite Hpde by done. by apply (pt_pde s R).
    - intros t' d' i' Ht'. destruct (pt_tab s R Hok _ _ _ Ht') as (? & ? & ?). by rewrite Hpde. }
  exists s'. split_and!; [done | done | |].
  - intros d' v' Hd' Hv'. destruct (entry_cases s R d' v' Hok Hd' Hv') as [[E ->]|(t' & Ht' & E & ->)].
    + destruct (decide (d' = d ∧ v' = v)) as [[-> ->]|].
      * destruct (pt_tab s R Hok _ _ _ Ht) as (_ & _ & E'). rewrite E in E'.
        pose proof (V2P_aligned t Hp). lia.
      * unfold entry. rewrite Hpde, E by (done || zmod). done.
    + assert (slot s' R d' v' (t' + 4 * (v' mod 1024))) as Hsl by (by exists t').
      rewrite (entry_slot s' R _ _ _ Hok' Hsl), Hs', Hf.
      rewrite load_store_entry; [|done | by eapply pt_page_role | zmod | zmod | done].
      apply decide_ext. split.
      * intros [-> Hj]. rewrite Ht in Ht'. injection Ht' as -> Hi'. split; [done | zmod].
      * intros [-> ->]. split; [|done].
        destruct (pt_tab s R Hok _ _ _ Ht) as (_ & _ & E'). rewrite E in E'.
        rewrite !V2P_page in E' by (done || by eapply pt_page_role). lia.
  - intros a Ha. rewrite Hs'. apply Hm. intros Ea. apply Ha. by rewrite Ea, Ht.
Qed.

Section link.
Context (s s' : K) (R : Z → role) (d t i : Z).
Context (Hok : pt_ok s R) (Hd : R d = Dir) (Hi : 0 ≤ i < 1024) (Hz : pde (pa_mem s) d i = 0).
Context (Hp : pa_page t) (Ho : R t = Other).
Context (Hload : ∀ q j, pa_page q → 0 ≤ j < 1024 → load32 (pa_mem s') (q + 4 * j) =
  if decide (d = q ∧ i = j) then V2P t + 7 else load32 (pa_mem s) (q + 4 * j)).

Lemma pt_link_ok l :
  pa_inv s' l → (∀ q, q ∈ l ↔ R q = Free) → pt_ok s' (<[t := Table d i]> R).
Proof using All.
  intros Hinv Hl. assert (d ≠ t) as Hdt by congruence.
  split; [| by eapply (recast_page s R) | |].
  - exists l. split; [done|]. intros q. rewrite Hl. destruct (decide (q = t)) as [->|].
    + rewrite fn_lookup_insert, Ho. done.
    + by rewrite fn_lookup_insert_ne.
  - intros d' j Hd' Hj. assert (d' ≠ t) as Hne by (intros ->; by rewrite fn_lookup_insert in Hd').
    rewrite fn_lookup_insert_ne in Hd' by done.
    unfold pde. rewrite Hload by (done || by eapply pt_page_role). case_decide as E.
    + destruct E as [<- <-]. right. exists t. by rewrite fn_lookup_insert.
    + destruct (pt_pde s R Hok d' j Hd' Hj) as [?|(t' & E' & Ht')]; [by left|].
      right. exists t'. split; [done|]. rewrite fn_lookup_insert_ne by congruence. done.
  - intros t' d' j Ht'. destruct (decide (t' = t)) as [->|].
    + rewrite fn_lookup_insert in Ht'. injection Ht' as <- <-.
      rewrite fn_lookup_insert_ne by done. split; [done|]. split; [done|].
      unfold pde. rewrite Hload, decide_True by (done || by eapply pt_page_role). done.
    + rewrite fn_lookup_insert_ne in Ht' by done.
      destruct (pt_tab s R Hok _ _ _ Ht') as (Hd' & Hj & E).
      rewrite fn_lookup_insert_ne by congruence. split; [done|]. split; [done|].
      unfold pde. rewrite Hload, decide_False; [done | | by eapply pt_page_role | done].
      intros [<- <-]. rewrite Hz in E. assert (pa_page t') as Hp' by (by eapply pt_page_role).
      pose proof (V2P_aligned t' Hp'). lia.
Qed.

Lemma pt_link_entries : (∀ a, page_of a = t → pa_mem s a = 0) → same_entries (pa_mem s) (pa_mem s') R.
Proof using All.
  intros Hzero d' v Hd' Hv. unfold VPAGES in Hv.
  assert (pa_page d') as Hpd by (by eapply pt_page_role).
  assert (pde (pa_mem s') d' (v / 1024) =
    if decide (d = d' ∧ i = v / 1024) then V2P t + 7 else pde (pa_mem s) d' (v / 1024)) as E.
  { unfold pde. by rewrite Hload by (done || zmod). }
  destruct (entry_cases s R d' v) as [[E' ->]|(t' & Ht' & E' & ->)]; [done..| |].
  - unfold entry. rewrite E. case_decide as Ed; [|by rewrite E'].
    rewrite present_page, frame_page by (done || lia). cbn [present].
    change (present 7) with true. cbv iota.
    rewrite Hload, decide_False by (done || zmod || (intros [? _]; congruence)).
    unfold load32. rewrite !Hzero; [done| ..].
    all: rewrite <- ?Z.add_assoc; (apply page_of_spec; [done|]); unfold in_page, PGSIZE; zmod.
  - assert (pa_page t') as Hp' by (by eapply pt_page_role).
    pose proof (V2P_aligned t' Hp').
    unfold entry. rewrite E, decide_False by (intros [? Hiv]; subst d'; rewrite <- Hiv, Hz in E'; lia).
    rewrite E', present_page, frame_page by (done || lia). change (present 7) with true. cbv iota.
    rewrite Hload, decide_False by (done || zmod || (intros [? _]; congruence)). done.
Qed.
End link.

(** Linking a cleared page as a new table changes no entry. *)
Lemma pt_link s R d t i :
  pt_ok s R → R d = Dir → 0 ≤ i < 1024 → pde (pa_mem s) d i = 0 →
  pa_page t → R t = Other → (∀ a, page_of a = t → pa_mem s a = 0) →
  ∃ s', pa_write (λ m, store32 m (d + 4 * i) (V2P t + 7)) s = Ok () s' ∧
    pt_ok s' (<[t := Table d i]> R) ∧ same_entries (pa_mem s) (pa_mem s') R ∧
    (∀ a, ¬ tabular (R (page_of a)) → pa_mem s' a = pa_mem s a).
Proof.
  intros Hok Hd Hi Hz Hp Ho Hzero.
  assert (pa_page d) as Hpd by (by eapply pt_page_role).
  assert (d ≠ t) as Hdt by congruence.
  pose proof (V2P_aligned t Hp) as Hal.
  destruct (pt_table_write s R d (λ m, store32 m (d + 4 * i) (V2P t + 7)))
    as (s' & l & Hr & Hinv & Hl & Hs'); [done | by rewrite Hd | | |].
  { by eapply store32_wf, pt_wf. }
  { intros a Ha. by apply store_entry_frame. }
  assert (∀ q j, pa_page q → 0 ≤ j < 1024 → load32 (pa_mem s') (q + 4 * j) =
      if decide (d = q ∧ i = j) then V2P t + 7 else load32 (pa_mem s) (q + 4 * j)) as Hload.
  { intros q j Hq Hj. rewrite Hs', load_store_entry by (done || lia). done. }
  exists s'. split; [done|]. split; [|split].
  - by apply (pt_link_ok s s' R d t i) with (l := l).
  - by apply (pt_link_entries s s' R d t i).
  - intros a Ha. rewrite Hs'. apply store_entry_frame; [done | done |].
    intros Ea. apply Ha. by rewrite Ea, Hd.
Qed.
End spec.
