(* ===== verification/VmUser.v ===== *)
(** * Page tables: what the routines of vm.c do

    Each routine against the invariants of [VmSpec]: which entries it sets,
    which pages change role, and that nothing else moves, on the success and
    on the out-of-memory paths. *)
From stdpp Require Import functions.
From S2P Require Import Prelude Machine CString Spin Kalloc Vm VmSpec.
Import KString.

Section user.
Context {K : Type} `{PageAlloc K}.

Implicit Types (s : K) (m : mem) (p d t v a : Z).

(** Free pages that became tables of [d]. *)
Definition grows (d : Z) (R R' : Z → role) : Prop :=
  ∀ p, R' p = R p ∨ (R p = Free ∧ ∃ i, R' p = Table d i).

Definition same_data (m m' : mem) (R : Z → role) : Prop :=
  ∀ a, plain (R (page_of a)) → m' a = m a.

Lemma grows_refl d R : grows d R R.
Proof. by left. Qed.

Lemma grows_trans d R1 R2 R3 : grows d R1 R2 → grows d R2 R3 → grows d R1 R3.
Proof.
  intros H1 H2 p. destruct (H1 p) as [E1|(E1 & i & E1')], (H2 p) as [E2|(E2 & j & E2')].
  - left. congruence.
  - right. split; [congruence | eauto].
  - right. split; [done|]. exists i. congruence.
  - congruence.
Qed.

Lemma grows_role d R R' p r : grows d R R' → R p = r → r ≠ Free → R' p = r.
Proof. intros Hg Hp Hr. destruct (Hg p) as [->|[? _]]; congruence. Qed.

Lemma grows_plain d R R' p : grows d R R' → plain (R p) → R' p = R p.
Proof. intros Hg Hp. eapply grows_role; [done | done |]. by apply plain_not_free. Qed.

(** ** walkpgdir *)

Lemma walk_hit s R d va alloc r :
  pt_ok s R → 0 ≤ va < 4294967296 → slot s R d (va / 4096) r →
  walkpgdir d va alloc s = Ok r s ∧ (r =? 0) = false.
Proof.
  intros Hok Hva (t & Ht & ->). destruct (pt_tab s R Hok _ _ _ Ht) as (Hd & Hi & E).
  assert (pa_page t) as Hp by (by eapply pt_page_role).
  unfold walkpgdir. rewrite bind_gets, walk_index, PTX_spec by done.
  fold (pde (pa_mem s) d (va / 4096 / 1024)). rewrite E. fold (frame (V2P t + 7)).
  rewrite present_page, frame_page by (done || lia). split; [done|]. apply page_range in Hp. zmod.
Qed.

Lemma slot_cases s R d v :
  pt_ok s R → R d = Dir → 0 ≤ v < VPAGES →
  (pde (pa_mem s) d (v / 1024) = 0 ∧ entry (pa_mem s) d v = 0) ∨ ∃ r, slot s R d v r.
Proof.
  intros Hok Hd Hv. destruct (entry_cases s R d v) as [?|(t & Ht & _)]; [done..|by left|].
  right. eexists. by exists t.
Qed.

Lemma walk_noalloc s R d va :
  pt_ok s R → R d = Dir → 0 ≤ va < 4294967296 →
  ∃ r, walkpgdir d va 0 s = Ok r s ∧
    ((r = 0 ∧ pde (pa_mem s) d (va / 4096 / 1024) = 0) ∨
     ((r =? 0) = false ∧ slot s R d (va / 4096) r)).
Proof.
  intros Hok Hd Hva. destruct (slot_cases s R d (va / 4096)) as [[E _]|[r Hs]];
    [done | done | unfold VPAGES; zmod | |].
  - exists 0. split; [|by left]. unfold walkpgdir. rewrite bind_gets, walk_index by done.
    fold (pde (pa_mem s) d (va / 4096 / 1024)). by rewrite E.
  - destruct (walk_hit s R d va 0 r) as [Hw Hr]; [done..|]. exists r. split; [done | by right].
Qed.

Lemma pde_flags p : pa_page p → Z.lor (Z.lor (Z.lor (V2P p) PTE_P) PTE_W) PTE_U = V2P p + 7.
Proof.
  intros Hp. unfold PTE_P, PTE_W, PTE_U. rewrite <- !Z.lor_assoc.
  change (Z.lor _ _) with (Z.lor (V2P p) 7) at 1. apply lor_page; [by apply V2P_aligned | lia].
Qed.

(** A page taken from the allocator and cleared. *)
Lemma clear_page s R p :
  pt_ok s R → pa_page p → plain (R p) →
  ∃ s', pa_write (λ m, memset m p 0 PGSIZE) s = Ok () s' ∧ pt_ok s' R ∧
    same_entries (pa_mem s) (pa_mem s') R ∧
    (∀ a, pa_mem s' a = if decide (page_of a = p) then 0 else pa_mem s a).
Proof.
  intros Hok Hp Hpl.
  assert (∀ a, memset (pa_mem s) p 0 PGSIZE a = if decide (page_of a = p) then 0 else pa_mem s a) as Hm.
  { intros a. rewrite memset_byte by done. apply decide_ext. by rewrite page_of_spec. }
  destruct (pt_write s R p (λ m, memset m p 0 PGSIZE)) as (s' & Hr & Hok' & Hs' & He); [done | done | | |].
  - intros a. simpl. rewrite Hm. case_decide; [lia|]. by apply (pt_wf s R).
  - intros a Ha. simpl. rewrite Hm. by rewrite decide_False.
  - exists s'. split_and!; try done. intros a. rewrite Hs'. apply Hm.
Qed.

Lemma recast_same_entries m m' R p r :
  ¬ tabular (R p) → same_entries m m' (<[p := r]> R) → same_entries m m' R.
Proof.
  intros Hp He d v Hd. apply He. rewrite fn_lookup_insert_ne; [done|].
  intros ->. apply Hp. by rewrite Hd.
Qed.

Lemma walk_alloc s R d va :
  pt_ok s R → R d = Dir → 0 ≤ va < 4294967296 →
  ∃ r s' R', walkpgdir d va 1 s = Ok r s' ∧ pt_ok s' R' ∧ grows d R R' ∧
    same_entries (pa_mem s) (pa_mem s') R ∧ same_data (pa_mem s) (pa_mem s') R ∧
    ((r = 0 ∧ ∀ p, R' p ≠ Free) ∨ ((r =? 0) = false ∧ slot s' R' d (va / 4096) r)).
Proof.
  intros Hok Hd Hva. destruct (slot_cases s R d (va / 4096)) as [[E _]|[r Hs]];
    [done | done | unfold VPAGES; zmod | |].
  2: { destruct (walk_hit s R d va 1 r) as [Hw Hr]; [done..|].
       exists r, s, R. split_and!; [done | done | apply grows_refl | done | done | by right]. }
  unfold walkpgdir. rewrite bind_gets, walk_index, PTX_spec by done.
  fold (pde (pa_mem s) d (va / 4096 / 1024)).
  rewrite E. change (present 0) with false. change (negb (truthy 1)) with false. cbv iota.
  destruct (pt_alloc s R Hok) as [(s1 & Ha & Hok1 & Hm1 & Hf)|(p & s1 & Ha & Hfp & Hp & Hok1 & Hm1)];
    rewrite (bind_ok _ _ _ _ _ Ha).
  { exists 0, s1, R. unfold same_entries, same_data. rewrite Hm1.
    split_and!; [done | done | apply grows_refl | done | done | by left]. }
  rewrite page_nonzero by done.
  destruct (clear_page s1 (<[p := Other]> R) p) as (s2 & Hc & Hok2 & He2 & Hm2);
    [done | done | by rewrite fn_lookup_insert |].
  rewrite (bind_ok _ _ _ _ _ Hc). rewrite pde_flags by done.
  assert (d ≠ p) as Hdp by congruence.
  assert (¬ tabular (R p)) as Hnt by (rewrite Hfp; tauto).
  destruct (pt_link s2 (<[p := Other]> R) d p (va / 4096 / 1024)) as (s3 & Hl & Hok3 & He3 & Hm3).
  - done.
  - by rewrite fn_lookup_insert_ne.
  - zmod.
  - unfold pde in *. rewrite <- E, <- Hm1. apply load_entry_ext; [by eapply (pt_page_role s R) | zmod |].
    intros a Ea. rewrite Hm2, decide_False by congruence. done.
  - done.
  - by rewrite fn_lookup_insert.
  - intros a Ea. by rewrite Hm2, decide_True.
  - rewrite (bind_ok _ _ _ _ _ Hl). rewrite insert_twice in Hok3.
    eexists _, s3, _. split_and!; [reflexivity | exact Hok3 | | | |].
    + intros q. destruct (decide (q = p)) as [->|].
      * right. rewrite fn_lookup_insert. eauto.
      * left. by rewrite fn_lookup_insert_ne.
    + intros d' v Hd' Hv. assert (p ≠ d') by congruence.
      rewrite He3, He2, Hm1 by (done || by rewrite fn_lookup_insert_ne). done.
    + intros a Ea. assert (page_of a ≠ p) by (intros Ep; by rewrite Ep, Hfp in Ea).
      rewrite Hm3, Hm2, decide_False, Hm1; [done | done |].
      rewrite fn_lookup_insert_ne by done. by apply plain_not_tabular.
    + right. split; [apply page_range in Hp; zmod|]. exists p. by rewrite fn_lookup_insert.
Qed.
(** ** mappages *)

(** [k] pages from page [v0] of [d] now map the physical range at [pa]. *)
Definition mapped (m m' : mem) (R : Z → role) (d v0 k pa perm : Z) : Prop :=
  ∀ d' v, R d' = Dir → 0 ≤ v < VPAGES →
    entry m' d' v =
    if decide (d' = d ∧ v0 ≤ v < v0 + k) then pa + (v - v0) * 4096 + Z.lor perm PTE_P
    else entry m d' v.

Lemma lor_flag_range f : 0 ≤ f < 4096 → 0 ≤ Z.lor f PTE_P < 4096.
Proof.
  intros Hf. split; [apply Z.lor_nonneg; unfold PTE_P; lia|].
  change 4096 with (2 ^ 12). destruct (decide (Z.lor f PTE_P = 0)) as [->|]; [done|].
  assert (0 ≤ Z.lor f PTE_P) by (apply Z.lor_nonneg; unfold PTE_P; lia).
  apply Z.log2_lt_pow2; [lia|]. rewrite Z.log2_lor by (unfold PTE_P; lia).
  destruct (decide (f = 0)) as [->|]; [done|].
  assert (Z.log2 f < 12) by (apply Z.log2_lt_pow2; lia). change (Z.log2 PTE_P) with 0. lia.
Qed.

Lemma present_lor f : present (Z.lor f PTE_P) = true.
Proof.
  apply present_spec. change 2 with (2 ^ 1). rewrite <- Z.land_ones by lia.
  rewrite Z.land_lor_distr_l. change (Z.land PTE_P (Z.ones 1)) with 1. apply Z.bits_inj'. intros i Hi.
  rewrite Z.lor_spec, Z.land_spec. destruct (decide (i = 0)) as [->|]; [by rewrite orb_true_r|].
  rewrite Z.testbit_ones_nonneg by lia. destruct (Z.ltb_spec i 1); [lia|].
  by rewrite andb_false_r.
Qed.

Lemma pte_word pa perm :
  pa mod 4096 = 0 → 0 ≤ pa < 4294967296 → 0 ≤ perm < 4096 →
  Z.lor (Z.lor pa perm) PTE_P = pa + Z.lor perm PTE_P ∧ 0 ≤ pa + Z.lor perm PTE_P < 4294967296.
Proof.
  intros Hpa Hr Hp. pose proof (lor_flag_range perm Hp). split; [|zmod].
  rewrite <- Z.lor_assoc. by apply lor_page.
Qed.

(** One round of the loop. *)
Lemma map_one s R d a pa perm :
  pt_ok s R → R d = Dir → a mod 4096 = 0 → 0 ≤ a < 4294967296 →
  pa mod 4096 = 0 → 0 ≤ pa < 4294967296 → 0 ≤ perm < 4096 →
  present (entry (pa_mem s) d (a / 4096)) = false →
  ∃ r s1 R', walkpgdir d a 1 s = Ok r s1 ∧ pt_ok s1 R' ∧ grows d R R' ∧
    same_entries (pa_mem s) (pa_mem s1) R ∧ same_data (pa_mem s) (pa_mem s1) R ∧
    ((r = 0 ∧ ∀ p, R' p ≠ Free) ∨
     ((r =? 0) = false ∧ present (load32 (pa_mem s1) r) = false ∧
      ∃ s', pa_write (λ m, store32 m r (Z.lor (Z.lor pa perm) PTE_P)) s1 = Ok () s' ∧ pt_ok s' R' ∧
        mapped (pa_mem s) (pa_mem s') R d (a / 4096) 1 pa perm ∧
        same_data (pa_mem s) (pa_mem s') R)).
Proof.
  intros Hok Hd Ha1 Ha2 Hpa1 Hpa2 Hperm Habs.
  destruct (walk_alloc s R d a) as (r & s1 & R' & Hw & Hok1 & Hg & He & Hdata & Hc); [done..|].
  exists r, s1, R'. split_and!; try done. destruct Hc as [Hc|[Hr Hs]]; [by left|]. right.
  assert (R' d = Dir) as Hd' by (by eapply grows_role).
  assert (0 ≤ a / 4096 < VPAGES) as Hv by (unfold VPAGES; zmod).
  rewrite <- (entry_slot s1 R' d (a / 4096) r) by done.
  rewrite (He d (a / 4096)) by done. split; [done|]. split; [done|].
  destruct (pte_word pa perm) as [Hw1 Hw2]; [done..|].
  destruct (pt_set s1 R' d (a / 4096) r (pa + Z.lor perm PTE_P)
    (λ m, store32 m r (Z.lor (Z.lor pa perm) PTE_P))) as (s' & Hr' & Hok' & He' & Hm');
    [done | done | done | done | by rewrite Hw1 |].
  exists s'. split_and!; [done | done | |].
  - intros d' v Hd1 Hv1. rewrite He' by (done || by eapply grows_role).
    rewrite (He d' v) by done. destruct (decide (d' = d ∧ v = a / 4096)) as [[-> ->]|Hn].
    + rewrite decide_True by (split; [done|lia]). lia.
    + rewrite decide_False; [done|]. intros [-> ?]. apply Hn. split; [done|lia].
  - intros x Hx. rewrite Hm', Hdata; [done | done |].
    rewrite (grows_plain d R R') by done. by apply plain_not_tabular.
Qed.

Lemma mapped_app m1 m2 m3 R R' d v0 k pa perm :
  (∀ d', R d' = Dir → R' d' = Dir) → 0 ≤ k →
  mapped m1 m2 R d v0 1 pa perm → mapped m2 m3 R' d (v0 + 1) k (pa + 4096) perm →
  mapped m1 m3 R d v0 (k + 1) pa perm.
Proof.
  intros HR Hk H1 H2 d' v Hd Hv. rewrite H2, H1 by auto.
  destruct (decide (d' = d)) as [->|]; [|by rewrite !decide_False by tauto].
  repeat case_decide; lia.
Qed.

Lemma mappages_loop_ok n : ∀ s R d a pa perm fuel,
  (n ≤ fuel)%nat → (0 < n)%nat →
  pt_ok s R → R d = Dir → a mod 4096 = 0 → 0 ≤ a → a + 4096 * Z.of_nat n ≤ 4294967296 →
  pa mod 4096 = 0 → 0 ≤ pa → pa + 4096 * Z.of_nat n ≤ 4294967296 → 0 ≤ perm < 4096 →
  (∀ v, a / 4096 ≤ v < a / 4096 + Z.of_nat n → present (entry (pa_mem s) d v) = false) →
  ∃ k r s' R', mappages_loop fuel d a (a + 4096 * (Z.of_nat n - 1)) pa perm s = Ok r s' ∧
    pt_ok s' R' ∧ grows d R R' ∧ same_data (pa_mem s) (pa_mem s') R ∧
    mapped (pa_mem s) (pa_mem s') R d (a / 4096) k pa perm ∧
    ((r = 0 ∧ k = Z.of_nat n) ∨ (r = -1 ∧ 0 ≤ k < Z.of_nat n ∧ ∀ p, R' p ≠ Free)).
Proof.
  induction n as [|n IH]; [lia|].
  intros s R d a pa perm [|fuel] Hfuel _ Hok Hd Ha1 Ha2 Ha3 Hpa1 Hpa2 Hpa3 Hperm Habs; [lia|].
  cbn [mappages_loop].
  destruct (map_one s R d a pa perm) as (r & s1 & R1 & Hw & Hok1 & Hg & He & Hdata & Hc);
    [done.. | lia | done | lia | done | apply Habs; lia |].
  rewrite (bind_ok _ _ _ _ _ Hw). destruct Hc as [[-> Hf]|(Hr & Hp & s2 & Hw2 & Hok2 & Hmap & Hdata2)].
  { exists 0, (-1), s1, R1. split_and!; [done | done | done | done | | right; split_and!; done || lia].
    intros d' v Hd' Hv. rewrite He, decide_False by (done || lia). done. }
  rewrite Hr, bind_gets, Hp, (bind_ok _ _ _ _ _ Hw2).
  destruct n as [|n].
  { destruct (Z.eqb_spec a (a + 4096 * (Z.of_nat 1 - 1))); [|lia]. exists 1, 0, s2, R1. split_and!; try done. left. split; [done|lia]. }
  destruct (Z.eqb_spec a (a + 4096 * (Z.of_nat (S (S n)) - 1))); [lia|]. rewrite !u32_small by (unfold PGSIZE; lia).
  assert ((a + 4096) / 4096 = a / 4096 + 1) as Ediv by zmod.
  destruct (IH s2 R1 d (a + 4096) (pa + 4096) perm fuel)
    as (k & r' & s3 & R3 & Hl & Hok3 & Hg3 & Hdata3 & Hmap3 & Hc).
  all: try (done || lia || zmod).
  { by eapply grows_role. }
  { intros v Hv. rewrite Hmap, decide_False by (done || (unfold VPAGES; zmod) || lia).
    apply Habs. lia. }
  exists (k + 1), r', s3, R3. split_and!.
  - rewrite <- Hl. unfold PGSIZE. f_equal. lia.
  - done.
  - by eapply grows_trans.
  - intros x Hx. rewrite Hdata3, Hdata2; [done | done |]. by rewrite (grows_plain d R R1).
  - rewrite Ediv in Hmap3. eapply mapped_app; [| |done|done]; [|lia]. intros d' Hd'. by eapply grows_role.
  - destruct Hc as [[-> ->]|(-> & Hk & Hf)]; [left; lia | right; split_and!; [done | lia | lia | done]].
Qed.
(** The range that [mappages] maps, for any [va] and [size]. *)
Lemma mappages_ok s R d va size pa perm n :
  pt_ok s R → R d = Dir → 0 ≤ va → 0 < size → va + size ≤ 4294967296 →
  n = (va + size - 1) / 4096 - va / 4096 + 1 →
  pa mod 4096 = 0 → 0 ≤ pa → pa + 4096 * n ≤ 4294967296 → 0 ≤ perm < 4096 →
  (∀ v, va / 4096 ≤ v < va / 4096 + n → present (entry (pa_mem s) d v) = false) →
  ∃ k r s' R', mappages d va size pa perm s = Ok r s' ∧
    pt_ok s' R' ∧ grows d R R' ∧ same_data (pa_mem s) (pa_mem s') R ∧
    mapped (pa_mem s) (pa_mem s') R d (va / 4096) k pa perm ∧
    ((r = 0 ∧ k = n) ∨ (r = -1 ∧ 0 ≤ k < n ∧ ∀ p, R' p ≠ Free)).
Proof.
  intros Hok Hd Hva Hsz Hend Hn Hpa1 Hpa2 Hpa3 Hperm Habs. unfold mappages.
  rewrite (u32_small va) by lia.
  rewrite !PGROUNDDOWN_spec by lia.
  replace (va + size - 1 - (va + size - 1) mod 4096)
    with (va - va mod 4096 + 4096 * (Z.of_nat (Z.to_nat n) - 1)) by (rewrite Z2Nat.id; zmod).
  destruct (mappages_loop_ok (Z.to_nat n) s R d (va - va mod 4096) pa perm
    (S (Z.to_nat (u32 (va - va mod 4096 + 4096 * (Z.of_nat (Z.to_nat n) - 1) -
       (va - va mod 4096)) / PGSIZE)))) as (k & r & s' & R' & Hrun & Hrest).
  all: rewrite ?Z2Nat.id by zmod.
  all: try (done || zmod).
  - unfold PGSIZE. rewrite u32_small by zmod. zmod.
  - replace ((va - va mod 4096) / 4096) with (va / 4096) by zmod. done.
  - replace ((va - va mod 4096) / 4096) with (va / 4096) in Hrest by zmod.
    rewrite Z2Nat.id in Hrest by zmod. rewrite Z2Nat.id in Hrun by zmod.
    exists k, r, s', R'. done.
Qed.

Lemma mappages_remap s R d va size pa perm :
  pt_ok s R → R d = Dir → 0 ≤ va < 4294967296 →
  present (entry (pa_mem s) d (va / 4096)) = true →
  mappages d va size pa perm s = Panic "remap".
Proof.
  intros Hok Hd Hva Hp. unfold mappages. cbn [mappages_loop]. rewrite PGROUNDDOWN_spec by lia.
  destruct (slot_cases s R d (va / 4096)) as [[_ E]|[r Hs]]; [done | done | unfold VPAGES; zmod | |].
  { by rewrite E in Hp. }
  destruct (walk_hit s R d (va - va mod 4096) 1 r) as [Hw Hr]; [done | zmod | |].
  { by replace ((va - va mod 4096) / 4096) with (va / 4096) by zmod. }
  rewrite (bind_ok _ _ _ _ _ Hw), Hr, bind_gets.
  by rewrite <- (entry_slot s R d (va / 4096) r), Hp.
Qed.
(** ** deallocuvm *)

Lemma frames_unmap m m' R d v p :
  frames_ok m R → R p = Frame d v →
  (∀ d' v', R d' = Dir → 0 ≤ v' < VPAGES →
     entry m' d' v' = if decide (d' = d ∧ v' = v) then 0 else entry m d' v') →
  frames_ok m' (<[p := Free]> R).
Proof.
  intros [H1 H2] Hp He. split.
  - intros d' v' Hd' Hv' Hpr. assert (d' ≠ p) by (intros ->; by rewrite fn_lookup_insert in Hd').
    rewrite fn_lookup_insert_ne in Hd' by done.
    rewrite He in Hpr |- * by (unfold UPAGES, VPAGES in *; done || lia).
    case_decide as Hdv; [done|]. specialize (H1 d' v' Hd' Hv' Hpr).
    rewrite fn_lookup_insert_ne; [done|]. intros E.
    assert (Frame d v = Frame d' v') as [= -> ->] by congruence. by apply Hdv.
  - intros q d' v' Hq. assert (q ≠ p) by (intros ->; by rewrite fn_lookup_insert in Hq).
    rewrite fn_lookup_insert_ne in Hq by done. destruct (H2 q d' v' Hq) as (Hd' & Hv' & Hpr & Hfr).
    rewrite fn_lookup_insert_ne by (intros ->; congruence). split; [done|]. split; [done|].
    rewrite He by (unfold UPAGES, VPAGES in *; done || lia). rewrite decide_False; [done|].
    intros [-> ->]. destruct (H2 p d v Hp) as (_ & _ & _ & ?). congruence.
Qed.

(** The frames of pages [v0 .. v1) of [d] went back to the allocator. *)
Definition dropped (d v0 v1 : Z) (R R' : Z → role) : Prop :=
  ∀ p, R' p = match R p with
              | Frame d' v => if decide (d' = d ∧ v0 ≤ v < v1) then Free else R p
              | r => r
              end.

(** Pages [v0 .. v1) of [d] are not mapped any more; all others as before. *)
Definition unmapped (m m' : mem) (R : Z → role) (d v0 v1 : Z) : Prop :=
  ∀ d' v, R d' = Dir → 0 ≤ v < VPAGES →
    if decide (d' = d ∧ v0 ≤ v < v1) then present (entry m' d' v) = false
    else entry m' d' v = entry m d' v.

Lemma dropped_dir d v0 v1 R R' p : dropped d v0 v1 R R' → R p = Dir → R' p = Dir.
Proof. intros Hd Hp. by rewrite Hd, Hp. Qed.

(** What freeing pages [v0 .. v1) of [d] does. *)
Definition freed_range (s s' : K) (R R' : Z → role) (d v0 v1 : Z) : Prop :=
  vm_ok s' R' ∧ dropped d v0 v1 R R' ∧ unmapped (pa_mem s) (pa_mem s') R d v0 v1 ∧
  same_data (pa_mem s) (pa_mem s') R'.

(** A range without frames is freed by doing nothing. *)
Lemma freed_none s R d v0 v1 :
  vm_ok s R → v1 ≤ UPAGES → (∀ v, v0 ≤ v < v1 → present (entry (pa_mem s) d v) = false) →
  freed_range s s R R d v0 v1.
Proof.
  intros [Hok [H1 H2]] Hv Hn. split_and!; try done.
  - intros p. destruct (R p) as [| | | |d' v] eqn:Ep; try done. case_decide as Hc; [|done].
    destruct (H2 p d' v Ep) as (_ & _ & Hpr & _). destruct Hc as [-> Hc]. by rewrite Hn in Hpr.
  - intros d' v Hd' Hv'. case_decide as Hc; [|done]. destruct Hc as [-> Hc]. by apply Hn.
Qed.

Lemma unmap_pte_ok s R d v r :
  vm_ok s R → 0 ≤ v < UPAGES → slot s R d v r →
  ∃ s' R', unmap_pte r s = Ok () s' ∧ freed_range s s' R R' d v (v + 1).
Proof.
  intros Hvm Hv Hs. pose proof Hvm as [Hok [H1 H2]].
  assert (R d = Dir) as Hd by (destruct Hs as (t & Ht & _); by apply (pt_tab s R Hok) in Ht as (? & _)).
  unfold unmap_pte. rewrite bind_gets. rewrite <- (entry_slot s R d v r) by done.
  destruct (present (entry (pa_mem s) d v)) eqn:Hpr.
  2: { exists s, R. split; [done|]. apply freed_none; [done | lia |]. intros w Hw. by replace w with v by lia. }
  specialize (H1 d v Hd Hv Hpr) as Hfr. fold (frame (entry (pa_mem s) d v)).
  set (p := frame (entry (pa_mem s) d v)) in *.
  assert (pa_page p) as Hp by (by eapply pt_page_role).
  assert ((PTE_ADDR (entry (pa_mem s) d v) =? 0) = false) as ->.
  { apply Z.eqb_neq. intros E. apply page_range in Hp. subst p. unfold frame in Hp.
    rewrite E in Hp. unfold P2V, KERNBASE in Hp. rewrite u32_small in Hp; lia. }
  destruct (pt_kfree s R p) as (s1 & Hk & Hok1 & Hm1 & He1); [done | done | by rewrite Hfr |].
  assert (slot s1 (<[p := Free]> R) d v r) as Hs1.
  { destruct Hs as (t & Ht & ->). exists t. rewrite fn_lookup_insert_ne by congruence. done. }
  destruct (pt_set s1 (<[p := Free]> R) d v r 0 (λ m, store32 m r 0))
    as (s' & Hw & Hok' & He' & Hm'); [done | done | unfold UPAGES, VPAGES in *; lia | done | done |].
  assert (∀ d' v', R d' = Dir → 0 ≤ v' < VPAGES →
    entry (pa_mem s') d' v' = if decide (d' = d ∧ v' = v) then 0 else entry (pa_mem s) d' v') as He.
  { intros d' v' Hd' Hv'. rewrite He', He1; [done..| |done]. rewrite fn_lookup_insert_ne by congruence. done. }
  rewrite (bind_ok _ _ _ _ _ Hk). exists s', (<[p := Free]> R). split; [done|]. split_and!.
  - split; [done|]. by eapply frames_unmap.
  - intros q. destruct (decide (q = p)) as [->|Hq].
    + rewrite fn_lookup_insert, Hfr, decide_True by (split; [done|lia]). done.
    + rewrite fn_lookup_insert_ne by done. case_match eqn:Er; try done.
      rewrite decide_False; [done|]. intros [-> Hvv]. replace v0 with v in * by lia.
      destruct (H2 q d v Er) as (_ & _ & _ & Eq). apply Hq. by rewrite <- Eq.
  - intros d' v' Hd' Hv'. rewrite He by done.
    destruct (decide (d' = d)) as [->|]; [|by rewrite !decide_False by tauto].
    repeat case_decide; done || lia.
  - intros a Ha. destruct (decide (page_of a = p)) as [Ea|Ea].
    + by rewrite Ea, fn_lookup_insert in Ha.
    + rewrite Hm', Hm1; [done | done |]. by apply plain_not_tabular.
Qed.

Lemma same_data_trans m1 m2 m3 R R' :
  (∀ p, plain (R' p) → plain (R p)) → same_data m1 m2 R → same_data m2 m3 R' → same_data m1 m3 R'.
Proof. intros HR H1 H2 a Ha. rewrite H2, H1; auto. Qed.

Lemma dropped_plain d v0 v1 R R' p : dropped d v0 v1 R R' → plain (R' p) → R' p = R p.
Proof. intros Hd. rewrite Hd. destruct (R p); try done. by case_decide. Qed.

Lemma dropped_app d v0 v1 v2 R1 R2 R3 :
  v0 ≤ v1 → v1 ≤ v2 → dropped d v0 v1 R1 R2 → dropped d v1 v2 R2 R3 → dropped d v0 v2 R1 R3.
Proof.
  intros ?? H1 H2 p. rewrite H2, H1. destruct (R1 p) as [| | | |d' v]; try done.
  destruct (decide (d' = d)) as [->|]; [|by rewrite !decide_False by tauto].
  repeat case_decide; done || lia.
Qed.

Lemma unmapped_app m1 m2 m3 R R' d v0 v1 v2 :
  v0 ≤ v1 → v1 ≤ v2 → (∀ p, R p = Dir → R' p = Dir) →
  unmapped m1 m2 R d v0 v1 → unmapped m2 m3 R' d v1 v2 → unmapped m1 m3 R d v0 v2.
Proof.
  intros ?? HR H1 H2 d' v Hd Hv. specialize (H1 d' v Hd Hv). specialize (H2 d' v (HR _ Hd) Hv).
  destruct (decide (d' = d)) as [->|]; [|by rewrite !decide_False in * by tauto; congruence].
  repeat case_decide; try congruence; lia.
Qed.
Lemma freed_app s1 s2 s3 R1 R2 R3 d v0 v1 v2 :
  v0 ≤ v1 → v1 ≤ v2 →
  freed_range s1 s2 R1 R2 d v0 v1 → freed_range s2 s3 R2 R3 d v1 v2 →
  freed_range s1 s3 R1 R3 d v0 v2.
Proof.
  intros ?? (_ & Hd1 & Hu1 & Hs1) (Hok & Hd2 & Hu2 & Hs2). split_and!; [done | | |].
  - by eapply dropped_app; [| |done|done].
  - eapply unmapped_app; [| | |done|done]; [done | done |]. intros. by eapply dropped_dir.
  - eapply same_data_trans; [|done|done]. intros p Hp. by rewrite <- (dropped_plain _ _ _ _ _ _ Hd2).
Qed.

(** Where the loop continues when there is no page table. *)
Lemma next_table v :
  0 ≤ v < UPAGES →
  u32 (u32 (PGADDR (PDX (4096 * v) + 1) 0 0 - PGSIZE) + PGSIZE) = 4096 * ((v / 1024 + 1) * 1024).
Proof.
  intros Hv. unfold UPAGES in Hv. rewrite u32_add_l, PDX_spec, PGADDR_spec by zmod.
  unfold PGSIZE. rewrite u32_small by zmod. zmod.
Qed.

Lemma freed_empty s s' R R' d v0 v1 v0' v1' :
  v1 ≤ v0 → v1' ≤ v0' → freed_range s s' R R' d v0 v1 → freed_range s s' R R' d v0' v1'.
Proof.
  intros H1 H2 (Hok & Hd & Hu & Hs). split_and!; [done | | | done].
  - intros p. rewrite Hd. destruct (R p); try done. by rewrite !decide_False by lia.
  - intros d' v Hd' Hv. specialize (Hu d' v Hd' Hv). by rewrite !decide_False in * by lia.
Qed.

Lemma deallocuvm_loop_ok n : ∀ fuel s R d v v1 oldsz,
  (n < fuel)%nat → v1 - v ≤ Z.of_nat n →
  vm_ok s R → R d = Dir → 0 ≤ v → v1 ≤ UPAGES → v1 = (oldsz + 4095) / 4096 →
  ∃ s' R', deallocuvm_loop fuel d (4096 * v) oldsz s = Ok () s' ∧ freed_range s s' R R' d v v1.
Proof.
  induction n as [|n IH]; intros [|fuel] s R d v v1 oldsz Hf Hn Hok Hd Hv Hv1 E1; [lia| |lia|];
    cbn [deallocuvm_loop]; destruct (Z.ltb_spec (4096 * v) oldsz) as [Hlt|Hge]; cbn [negb].
  1: exfalso; zmod.
  1, 3: exists s, R; split; [done|]; apply freed_none; [done | done | zmod].
  assert (v < v1) as Hlt' by zmod.
  assert (4096 * v / 4096 = v) as Ediv by zmod.
  destruct (walk_noalloc s R d (4096 * v)) as (r & Hw & Hc);
    [apply Hok | done | unfold UPAGES in *; lia |].
  rewrite (bind_ok _ _ _ _ _ Hw). rewrite Ediv in Hc. destruct Hc as [[-> Hz]|[Hr Hs]].
  - assert (∀ w, v ≤ w < (v / 1024 + 1) * 1024 → present (entry (pa_mem s) d w) = false) as Hze.
    { intros w Hw'. unfold entry. replace (w / 1024) with (v / 1024) by zmod. by rewrite Hz. }
    change (0 =? 0) with true. cbv iota. rewrite next_table by lia.
    set (v' := (v / 1024 + 1) * 1024) in *. assert (v < v') by zmod.
    destruct (IH fuel s R d v' v1 oldsz) as (s' & R' & Hl & Hfr); [lia | lia | done | done | lia | done | done |].
    exists s', R'. split; [done|]. destruct (decide (v' ≤ v1)).
    + eapply freed_app; [| | |exact Hfr]; [lia | lia |]. apply freed_none; [done | lia | done].
    + eapply (freed_app s s s' R R R' d v v1 v1); [lia | lia | |].
      * apply freed_none; [done | lia |]. intros w Hw'. apply Hze. lia.
      * eapply freed_empty; [| |exact Hfr]; lia.
  - rewrite Hr. replace (u32 (4096 * v + PGSIZE)) with (4096 * (v + 1))
      by (unfold PGSIZE, UPAGES in *; rewrite u32_small; lia).
    destruct (unmap_pte_ok s R d v r) as (s1 & R1 & Hone & Hfr1); [done | lia | done |].
    rewrite (bind_ok _ _ _ _ _ Hone).
    destruct (IH fuel s1 R1 d (v + 1) v1 oldsz) as (s' & R' & Hl & Hfr);
      [lia | lia | apply Hfr1 | eapply dropped_dir; [apply Hfr1 | done] | lia | done | done |].
    exists s', R'. split; [done|]. eapply freed_app; [| |done|done]; lia.
Qed.
(** Sizes in pages, rounded up. *)
Definition pages_up (sz : Z) : Z := (sz + 4095) / 4096.

Lemma PGROUNDUP_pages sz : 0 ≤ sz ≤ 0xFFFFF000 → PGROUNDUP sz = 4096 * pages_up sz.
Proof. intros Hsz. pose proof (PGROUNDUP_spec sz Hsz) as Hs. unfold PGSIZE, pages_up in *. zmod. Qed.

Lemma deallocuvm_ok s R d oldsz newsz :
  vm_ok s R → R d = Dir → 0 ≤ newsz < oldsz → oldsz ≤ KERNBASE →
  ∃ s' R', deallocuvm d oldsz newsz s = Ok newsz s' ∧
    freed_range s s' R R' d (pages_up newsz) (pages_up oldsz).
Proof.
  intros Hok Hd Hsz Hk. unfold KERNBASE in Hk. unfold deallocuvm.
  destruct (Z.leb_spec oldsz newsz); [lia|]. rewrite PGROUNDUP_pages by lia. unfold PGSIZE.
  destruct (deallocuvm_loop_ok (Z.to_nat (oldsz / 4096 + 1)) (S (Z.to_nat (oldsz / 4096 + 1)))
    s R d (pages_up newsz) (pages_up oldsz) oldsz) as (s' & R' & Hl & Hfr).
  all: try (done || lia).
  1-3: unfold UPAGES, pages_up; zmod.
  exists s', R'. split; [|done]. by rewrite (bind_ok _ _ _ _ _ Hl).
Qed.

(** ** allocuvm *)

Lemma frames_map m m' R d v p e :
  frames_ok m R → R d = Dir → 0 ≤ v < UPAGES → present (entry m d v) = false →
  R p = Other → present e = true → frame e = p →
  (∀ d' v', R d' = Dir → 0 ≤ v' < VPAGES →
     entry m' d' v' = if decide (d' = d ∧ v' = v) then e else entry m d' v') →
  frames_ok m' (<[p := Frame d v]> R).
Proof.
  intros [H1 H2] Hd Hv Habs Hp Hpr Hfr He. split.
  - intros d' v' Hd' Hv' Hpr'. assert (d' ≠ p) by (intros ->; by rewrite fn_lookup_insert in Hd').
    rewrite fn_lookup_insert_ne in Hd' by done.
    rewrite He in Hpr' |- * by (unfold UPAGES, VPAGES in *; done || lia).
    case_decide as Hdv; [destruct Hdv as [-> ->]; by rewrite Hfr, fn_lookup_insert|].
    rewrite fn_lookup_insert_ne; [by apply H1|]. intros E.
    specialize (H1 d' v' Hd' Hv' Hpr'). congruence.
  - intros q d' v' Hq. destruct (decide (q = p)) as [->|Hqp].
    + rewrite fn_lookup_insert in Hq. injection Hq as <- <-.
      rewrite fn_lookup_insert_ne by congruence. split; [done|]. split; [done|].
      rewrite He, decide_True by (unfold UPAGES, VPAGES in *; done || lia). done.
    + rewrite fn_lookup_insert_ne in Hq by done. destruct (H2 q d' v' Hq) as (Hd' & Hv' & Hr).
      rewrite fn_lookup_insert_ne by congruence. split; [done|]. split; [done|].
      rewrite He by (unfold UPAGES, VPAGES in *; done || lia). rewrite decide_False; [done|].
      intros [-> ->]. destruct Hr as [Hr _]. congruence.
Qed.

Lemma frames_grow_user m m' R R' d :
  frames_ok m R → grows d R R' →
  (∀ d' v, R d' = Dir → 0 ≤ v < UPAGES → entry m' d' v = entry m d' v) → frames_ok m' R'.
Proof.
  intros [H1 H2] Hg He.
  assert (∀ d', R' d' = Dir → R d' = Dir) as HD.
  { intros d' Hd'. destruct (Hg d') as [E|(_ & i & E)]; congruence. }
  split.
  - intros d' v Hd' Hv. rewrite He by auto. intros Hpr.
    eapply grows_role; [done | apply H1; auto | done].
  - intros p d' v Hp. assert (R p = Frame d' v) as Hp'.
    { destruct (Hg p) as [E|(_ & i & E)]; congruence. }
    destruct (H2 p d' v Hp') as (Hd' & Hv & Hr). split; [by eapply grows_role|]. split; [done|].
    by rewrite He.
Qed.

Lemma frames_grow m m' R R' d :
  frames_ok m R → grows d R R' → same_entries m m' R → frames_ok m' R'.
Proof.
  intros Hf Hg He. eapply frames_grow_user; [done..|]. intros d' v Hd Hv. apply He; [done|].
  unfold UPAGES, VPAGES in *. lia.
Qed.

(** Pages without a part in an address space change hands. *)
Definition idle (r : role) : Prop := r = Other ∨ r = Free.

Lemma frames_idle m R p r : frames_ok m R → idle (R p) → idle r → frames_ok m (<[p := r]> R).
Proof.
  intros [H1 H2] Hp Hr. unfold idle in *. split.
  - intros d v Hd Hv Hpr. assert (d ≠ p) by (intros ->; rewrite fn_lookup_insert in Hd; destruct Hr; congruence).
    rewrite fn_lookup_insert_ne in Hd by done. specialize (H1 d v Hd Hv Hpr).
    rewrite fn_lookup_insert_ne; [done|]. intros E. destruct Hp; congruence.
  - intros q d v Hq. assert (q ≠ p) by (intros ->; rewrite fn_lookup_insert in Hq; destruct Hr; congruence).
    rewrite fn_lookup_insert_ne in Hq by done. destruct (H2 q d v Hq) as (Hd & Hv).
    rewrite fn_lookup_insert_ne; [done|]. intros ->. destruct Hp; congruence.
Qed.

(** Mapping a page the caller holds. *)
Lemma map_user_page s R d v p perm :
  vm_ok s R → R d = Dir → 0 ≤ v < UPAGES → R p = Other → pa_page p → 0 ≤ perm < 4096 →
  present (entry (pa_mem s) d v) = false →
  ∃ r s' R', mappages d (4096 * v) PGSIZE (V2P p) perm s = Ok r s' ∧ grows d R R' ∧
    same_data (pa_mem s) (pa_mem s') R ∧
    (((r <? 0) = false ∧ vm_ok s' (<[p := Frame d v]> R') ∧
      mapped (pa_mem s) (pa_mem s') R d v 1 (V2P p) perm) ∨
     ((r <? 0) = true ∧ vm_ok s' R' ∧ same_entries (pa_mem s) (pa_mem s') R ∧ ∀ q, R' q ≠ Free)).
Proof.
  intros [Hok Hfr] Hd Hv Hp Hpp Hperm Habs. unfold UPAGES in Hv.
  pose proof (V2P_aligned p Hpp) as [Hal1 Hal2].
  assert (4096 * v / 4096 = v) as Ediv by zmod.
  destruct (mappages_ok s R d (4096 * v) PGSIZE (V2P p) perm 1)
    as (k & r & s' & R' & Hm & Hok' & Hg & Hdata & Hmap & Hc); unfold PGSIZE in *.
  all: try (done || lia || zmod).
  { rewrite Ediv. intros w Hw. by replace w with v by lia. }
  rewrite Ediv in Hmap. exists r, s', R'. split; [done|]. split; [done|]. split; [done|].
  assert (R' p = Other) as Hp' by (by eapply grows_role).
  destruct Hc as [[-> ->]|(-> & Hk & Hex)]; [left|right]; (split; [done|]).
  - split; [|done]. split; [by apply pt_recast; rewrite ?Hp'|].
    apply (frames_map (pa_mem s) _ R' d v p (V2P p + Z.lor perm PTE_P)).
    + by eapply frames_grow.
    + by eapply grows_role.
    + done.
    + done.
    + done.
    + rewrite present_page by done. apply present_lor.
    + apply frame_page; [done|]. by apply lor_flag_range.
    + intros d' v' Hd' Hv'. assert (R d' = Dir) as Hd1.
      { destruct (Hg d') as [E|(_ & i & E)]; congruence. }
      rewrite Hmap by done. destruct (decide (d' = d)) as [->|]; [|by rewrite !decide_False by tauto].
      repeat case_decide; done || lia.
  - assert (same_entries (pa_mem s) (pa_mem s') R) as He.
    { intros d' v' Hd' Hv'. rewrite Hmap, decide_False by (done || lia). done. }
    split; [|by split]. split; [done|]. by eapply frames_grow.
Qed.
(** Pages [v0 .. v1) of [d] were added on fresh frames, page [v] with flags
    [fl v] and contents [ct v]; the only other pages taken from the allocator
    are page tables of [d]. *)
Record grown (fl : Z → Z) (ct : Z → Z → Z) (m m' : mem) (R R' : Z → role) (d v0 v1 : Z) : Prop := {
  grown_role p : R' p = R p ∨
    (R p = Free ∧ ((∃ i, R' p = Table d i) ∨ ∃ v, v0 ≤ v < v1 ∧ R' p = Frame d v));
  grown_page v : v0 ≤ v < v1 → ∃ p, R' p = Frame d v ∧ entry m' d v = V2P p + fl v ∧
    ∀ a, page_of a = p → m' a = ct v (a - p);
  grown_entry d' v : R d' = Dir → 0 ≤ v < VPAGES → ¬ (d' = d ∧ v0 ≤ v < v1) →
    entry m' d' v = entry m d' v;
  grown_data : same_data m m' R
}.

Lemma grown_none fl ct m R d v : grown fl ct m m R R d v v.
Proof. split; [by left | lia | done | done]. Qed.

Lemma grown_free fl ct m m' R R' d v0 v1 p : grown fl ct m m' R R' d v0 v1 → R' p = Free → R p = Free.
Proof. intros Hg Hp. destruct (grown_role _ _ _ _ _ _ _ _ _ Hg p) as [?|[? _]]; congruence. Qed.

Lemma grown_keeps fl ct m m' R R' d v0 v1 p r :
  grown fl ct m m' R R' d v0 v1 → R p = r → r ≠ Free → R' p = r.
Proof. intros Hg Hp Hr. destruct (grown_role _ _ _ _ _ _ _ _ _ Hg p) as [?|[? _]]; congruence. Qed.

(** One round of a loop: page [p] was free, is filled ([m2]) and mapped. *)
Lemma grown_step fl ct perm m m1 m2 m' R R1 R' d v0 v p :
  grown fl ct m m1 R R1 d v0 v → Z.lor perm PTE_P = fl v → 0 ≤ v0 ≤ v → v < UPAGES → R d = Dir → R1 p = Free → pa_page p →
  (∀ a, m2 a = if decide (page_of a = p) then ct v (a - p) else m1 a) →
  same_entries m1 m2 (<[p := Other]> R1) → grows d (<[p := Other]> R1) R' →
  same_data m2 m' (<[p := Other]> R1) →
  mapped m2 m' (<[p := Other]> R1) d v 1 (V2P p) perm →
  grown fl ct m m' R (<[p := Frame d v]> R') d v0 (v + 1).
Proof.
  intros Hg Hfl Hv Hv' Hd Hp Hpp Hm2 He2 Hgr Hda Hmap. unfold UPAGES in Hv'.
  assert (∀ q, R q = Dir → <[p := Other]> R1 q = Dir) as HD.
  { intros q Hq. rewrite fn_lookup_insert_ne by (intros ->; apply (grown_free _ _ _ _ _ _ _ _ _ _ Hg) in Hp; congruence).
    by eapply grown_keeps. }
  assert (∀ q r, q ≠ p → R1 q = r → r ≠ Free → <[p := Frame d v]> R' q = r) as HR.
  { intros q r Hq Hr Hf. rewrite fn_lookup_insert_ne by done.
    eapply grows_role; [done| |done]. by rewrite fn_lookup_insert_ne. }
  split.
  - intros q. destruct (decide (q = p)) as [->|Hq].
    { rewrite fn_lookup_insert. right. split; [by eapply grown_free|]. right. exists v. split; [lia|done]. }
    rewrite fn_lookup_insert_ne by done. destruct (Hgr q) as [->|(Hf & i & Hi)];
      rewrite fn_lookup_insert_ne in * by done.
    + destruct (grown_role _ _ _ _ _ _ _ _ _ Hg q) as [?|(? & [?|(w & ? & ?)])]; [by left|right..].
      * split; [done | by left].
      * split; [done|]. right. exists w. split; [lia|done].
    + right. split; [by eapply grown_free | left; eauto].
  - intros w Hw. destruct (decide (w = v)) as [->|Hwv].
    + exists p. rewrite fn_lookup_insert. split; [done|]. split.
      * rewrite Hmap, decide_True by (done || (unfold VPAGES; lia) || auto || (split; [done|lia])).
        rewrite Hfl. lia.
      * intros a Ea. rewrite Hda by (by rewrite Ea, fn_lookup_insert). by rewrite Hm2, decide_True.
    + destruct (grown_page _ _ _ _ _ _ _ _ _ Hg w) as (q & Hq & Eq & Hz); [lia|].
      assert (q ≠ p) as Hqp by congruence. exists q. split; [by apply HR|]. split.
      * rewrite Hmap, decide_False, He2 by (auto || (unfold VPAGES; lia) || lia). done.
      * intros a Ea. rewrite Hda by (by rewrite Ea, fn_lookup_insert_ne, Hq).
        rewrite Hm2, decide_False by congruence. auto.
  - intros d' w Hd' Hw Hn. rewrite Hmap, decide_False, He2 by (auto || (intros [-> ?]; apply Hn; split; [done|lia])).
    apply (grown_entry _ _ _ _ _ _ _ _ _ Hg); [done..|]. intros [-> ?]. apply Hn. split; [done|lia].
  - intros a Ha. assert (R (page_of a) ≠ Free) as Hnf by (by apply plain_not_free).
    assert (page_of a ≠ p) as Hap by (intros E; apply Hnf; rewrite E; by eapply grown_free).
    assert (R1 (page_of a) = R (page_of a)) as E1 by (by eapply grown_keeps).
    rewrite Hda by (by rewrite fn_lookup_insert_ne, E1). rewrite Hm2, decide_False by done.
    by apply (grown_data _ _ _ _ _ _ _ _ _ Hg).
Qed.

(** Undoing it: freeing the whole range returns all but the page tables, and
    the page [held] by the caller, if any. *)
Lemma undo_grown s s1 s2 R R1 R2 d v0 v1 (held : Z → Prop) :
  frames_ok (pa_mem s) R → 0 ≤ v0 → v1 ≤ UPAGES → R d = Dir →
  (∀ v, v0 ≤ v < v1 → present (entry (pa_mem s) d v) = false) →
  (∀ q, (¬ held q ∧ (R1 q = R q ∨ (R q = Free ∧ ((∃ i, R1 q = Table d i) ∨
            ∃ v, v0 ≤ v < v1 ∧ R1 q = Frame d v)))) ∨
        (held q ∧ R q = Free ∧ R1 q = Other)) →
  (∀ d' v, R d' = Dir → 0 ≤ v < VPAGES → ¬ (d' = d ∧ v0 ≤ v < v1) →
     entry (pa_mem s1) d' v = entry (pa_mem s) d' v) →
  same_data (pa_mem s) (pa_mem s1) R →
  freed_range s1 s2 R1 R2 d v0 v1 →
  (∀ q, (¬ held q ∧ (R2 q = R q ∨ (R q = Free ∧ ∃ i, R2 q = Table d i))) ∨
        (held q ∧ R q = Free ∧ R2 q = Other)) ∧
  unmapped (pa_mem s) (pa_mem s2) R d v0 v1 ∧ same_data (pa_mem s) (pa_mem s2) R.
Proof.
  intros [_ H2] Hv0 Hv1 Hd Habs Hrole Hent Hdata (Hok & Hdr & Hun & Hda).
  assert (∀ q w, R q = Frame d w → ¬ (v0 ≤ w < v1)) as Hnf.
  { intros q w Hq Hw. destruct (H2 q d w Hq) as (_ & _ & Hpr & _). by rewrite Habs in Hpr. }
  assert (∀ q, R q ≠ Free → R2 q = R q) as Hkeep.
  { intros q Hq. destruct (Hrole q) as [[_ [E|[? _]]]|(_ & ? & _)]; [|done|done].
    rewrite Hdr, E. destruct (R q) as [| | | |d' w] eqn:Eq; try done.
    rewrite decide_False; [done|]. intros [-> ?]. by eapply Hnf. }
  split_and!.
  - intros q. destruct (Hrole q) as [[Hh Hc]|(Hh & Hf & Ho)]; [left|right].
    + split; [done|]. destruct (decide (R q = Free)) as [Hf|Hf]; [|left; by apply Hkeep].
      destruct Hc as [E|(_ & [[i E]|(w & Hw & E)])]; rewrite Hdr, E.
      * left. by rewrite Hf.
      * right. eauto.
      * left. by rewrite decide_True.
    + split; [done|]. split; [done|]. by rewrite Hdr, Ho.
  - intros d' v Hd' Hv. assert (R1 d' = Dir) as Hd1.
    { destruct (Hrole d') as [[_ [?|[? _]]]|(_ & ? & _)]; congruence. }
    specialize (Hun d' v Hd1 Hv). case_decide; [done|]. rewrite Hun. by apply Hent.
  - intros a Ha. rewrite Hda, Hdata; [done | done |]. rewrite Hkeep; [done|]. by apply plain_not_free.
Qed.
(** Out of memory: but for two, all free pages went into tables and frames
    of [d]. *)
Definition exhausted (R : Z → role) (d v0 v1 : Z) : Prop :=
  ∃ sx Rx x y, vm_ok sx Rx ∧ ∀ p, R p = Free →
    p = x ∨ p = y ∨ (∃ i, Rx p = Table d i) ∨ ∃ v, v0 ≤ v < v1 ∧ Rx p = Frame d v.

Lemma role_injective s R d p q :
  vm_ok s R → ((∃ i, R p = Table d i) ∨ ∃ v, R p = Frame d v) → R p = R q → p = q.
Proof.
  intros [Hok [_ H2]] [[i Ei]|[v Ev]] E.
  - rewrite Ei in E. symmetry in E. destruct (pt_tab s R Hok _ _ _ Ei) as (_ & _ & E1).
    destruct (pt_tab s R Hok _ _ _ E) as (_ & _ & E2).
    rewrite E1, !V2P_page in E2 by (by eapply pt_page_role). lia.
  - rewrite Ev in E. destruct (H2 p d v Ev) as (_ & _ & _ & <-).
    by destruct (H2 q d v) as (_ & _ & _ & <-).
Qed.

(** There are at most [n] free pages. *)
Definition few_free (R : Z → role) (n : Z) : Prop :=
  ∀ l, NoDup l → (∀ p, p ∈ l → R p = Free) → Z.of_nat (length l) ≤ n.

(** So an allocator with more than that many pages does not run out. *)
Lemma exhausted_bound R d v0 v1 :
  exhausted R d v0 v1 → few_free R (1026 + Z.max 0 (v1 - v0)).
Proof.
  intros (sx & Rx & x & y & Hvm & Hx) l Hnd Hl.
  set (space := Other :: Free :: (Table d <$> seqZ 0 1024) ++ (Frame d <$> seqZ v0 (v1 - v0))).
  set (f := λ p, if decide (p = x) then Other else if decide (p = y) then Free else Rx p).
  assert (∀ p, p ∈ l → p = x ∨ p = y ∨ (∃ i, Rx p = Table d i) ∨ ∃ v, v0 ≤ v < v1 ∧ Rx p = Frame d v)
    as Hc by auto.
  assert (length (f <$> l) ≤ length space)%nat as Hle.
  { apply submseteq_length, NoDup_submseteq.
    - apply NoDup_fmap_2_strong; [|done]. intros p q Hp%Hc Hq%Hc. unfold f.
      repeat case_decide; subst; try done; intros E.
      1, 2: destruct Hq as [?|[?|[[? ?]|(? & _ & ?)]]]; congruence.
      1, 2: destruct Hp as [?|[?|[[? ?]|(? & _ & ?)]]]; congruence.
      destruct Hp as [?|[?|Hp]]; [done..|]. eapply role_injective; [done | | done].
      destruct Hp as [?|(w & _ & ?)]; eauto.
    - intros r (p & -> & Hp%Hc)%list_elem_of_fmap. unfold f, space.
      case_decide; [left|]. case_decide; [right; left|]. right. right. apply elem_of_app.
      destruct Hp as [?|[?|[[i Ei]|(v & Hv & Ev)]]]; [done|done|left|right]; apply list_elem_of_fmap.
      + exists i. rewrite Ei. split; [done|]. apply elem_of_seqZ.
        apply (pt_tab sx Rx (proj1 Hvm)) in Ei as (_ & ? & _). lia.
      + exists v. rewrite Ev. split; [done|]. apply elem_of_seqZ. lia. }
  unfold space in Hle.
  rewrite length_fmap, !length_cons, length_app, !length_fmap, !length_seqZ in Hle. lia.
Qed.

Section alloc.
Context (s0 : K) (R0 : Z → role) (d oldsz newsz v0 v1 : Z).
Context (Hok0 : vm_ok s0 R0) (Hd0 : R0 d = Dir).
Context (Hsz : 0 ≤ oldsz ≤ newsz) (Hnew : newsz < KERNBASE).
Context (Hv0 : v0 = pages_up oldsz) (Hv1 : v1 = pages_up newsz).
Context (Habs : ∀ v, v0 ≤ v < v1 → present (entry (pa_mem s0) d v) = false).

(** The result on the out-of-memory paths. *)
Definition undone (s' : K) (R' : Z → role) : Prop :=
  grows d R0 R' ∧ unmapped (pa_mem s0) (pa_mem s') R0 d v0 v1 ∧
  same_data (pa_mem s0) (pa_mem s') R0 ∧ exhausted R0 d v0 v1.

Lemma alloc_dir m R v : grown (λ _, 7) (λ _ _, 0) (pa_mem s0) m R0 R d v0 v → R d = Dir.
Proof using Hd0. intros Hg. by eapply grown_keeps. Qed.

(** [kalloc] returns 0. *)
Lemma alloc_fails_1 s R v :
  vm_ok s R → grown (λ _, 7) (λ _ _, 0) (pa_mem s0) (pa_mem s) R0 R d v0 v → v0 ≤ v < v1 → (∀ p, R p ≠ Free) →
  ∃ s' R', (deallocuvm d newsz oldsz;; mret 0) s = Ok 0 s' ∧ vm_ok s' R' ∧ undone s' R'.
Proof using All.
  intros Hok Hg Hv Hf. unfold KERNBASE in Hnew.
  destruct (deallocuvm_ok s R d newsz oldsz) as (s' & R' & Hde & Hfr);
    [done | by eapply alloc_dir | unfold pages_up in *; zmod | unfold KERNBASE; lia |].
  rewrite <- Hv0, <- Hv1 in Hfr.
  destruct (undo_grown s0 s s' R0 R R' d v0 v1 (λ _, False)) as (Hr & Hun & Hda).
  { apply Hok0. } { unfold pages_up in *; zmod. } { unfold UPAGES, pages_up in *; zmod. }
  { done. } { done. }
  { intros q. left. split; [tauto|]. destruct (grown_role _ _ _ _ _ _ _ _ _ Hg q) as [?|(? & [?|(w & ? & ?)])];
      [by left | right.. ]; (split; [done|]); [by left | right; exists w; split; [lia | done]]. }
  { intros d' w Hd' Hw Hn. apply (grown_entry _ _ _ _ _ _ _ _ _ Hg); [done..|]. intros [-> ?].
    apply Hn. split; [done|lia]. }
  { apply (grown_data _ _ _ _ _ _ _ _ _ Hg). }
  { done. }
  exists s', R'. rewrite (bind_ok _ _ _ _ _ Hde). split; [done|]. split; [apply Hfr|].
  split_and!; [|done|done|].
  - intros q. destruct (Hr q) as [[_ ?]|[[] _]]. done.
  - exists s, R, 0, 0. split; [done|]. intros p Hp. right; right.
    destruct (grown_role _ _ _ _ _ _ _ _ _ Hg p) as [E|(_ & [?|(w & ? & ?)])].
    + by destruct (Hf p); rewrite E.
    + by left.
    + right. exists w. split; [lia|done].
Qed.
(** [mappages] returns -1, with page [p] still in hand. *)
Lemma alloc_fails_2 s s2 s3 R R3 v p :
  vm_ok s R → grown (λ _, 7) (λ _ _, 0) (pa_mem s0) (pa_mem s) R0 R d v0 v → v0 ≤ v < v1 →
  R p = Free → pa_page p →
  (∀ a, pa_mem s2 a = if decide (page_of a = p) then 0 else pa_mem s a) →
  same_entries (pa_mem s) (pa_mem s2) (<[p := Other]> R) →
  grows d (<[p := Other]> R) R3 → same_data (pa_mem s2) (pa_mem s3) (<[p := Other]> R) →
  vm_ok s3 R3 → same_entries (pa_mem s2) (pa_mem s3) (<[p := Other]> R) → (∀ q, R3 q ≠ Free) →
  ∃ s' R', (deallocuvm d newsz oldsz;; pa_kfree p;; mret 0) s3 = Ok 0 s' ∧ vm_ok s' R' ∧ undone s' R'.
Proof using All.
  intros Hok Hg Hv Hp Hpp Hm2 He2 Hg3 Hda3 Hok3 He3 Hf. unfold KERNBASE in Hnew.
  assert (R0 p = Free) as Hp0 by (by eapply grown_free).
  assert (∀ q, q ≠ p → R q ≠ Free → R3 q = R q) as Hkeep.
  { intros q Hq Hr. eapply grows_role; [done| |done]. by rewrite fn_lookup_insert_ne. }
  assert (R3 p = Other) as Hp3 by (eapply grows_role; [done | apply fn_lookup_insert | done]).
  assert (∀ q, R0 q ≠ Free → <[p := Other]> R q = R0 q) as HR0.
  { intros q Hq. rewrite fn_lookup_insert_ne by congruence. by eapply grown_keeps. }
  destruct (deallocuvm_ok s3 R3 d newsz oldsz) as (s' & R' & Hde & Hfr);
    [done | | unfold pages_up in *; zmod | unfold KERNBASE; lia |].
  { eapply grows_role; [done | rewrite HR0; [exact Hd0 | congruence] | done]. }
  rewrite <- Hv0, <- Hv1 in Hfr.
  assert (∀ q, q ≠ p → R3 q = R0 q ∨ (R0 q = Free ∧ ((∃ i, R3 q = Table d i) ∨
            ∃ w, v0 ≤ w < v1 ∧ R3 q = Frame d w))) as Hrole.
  { intros q Hq. destruct (Hg3 q) as [->|(Hfq & Hi)]; rewrite fn_lookup_insert_ne in * by done.
    - destruct (grown_role _ _ _ _ _ _ _ _ _ Hg q) as [?|(? & [?|(w & ? & ?)])];
        [by left | right.. ]; (split; [done|]); [by left | right; exists w; split; [lia | done]].
    - right. split; [by eapply grown_free | by left]. }
  destruct (undo_grown s0 s3 s' R0 R3 R' d v0 v1 (λ q, q = p)) as (Hr & Hun & Hda).
  { apply Hok0. } { unfold pages_up in *; zmod. } { unfold UPAGES, pages_up in *; zmod. }
  { done. } { done. }
  { intros q. destruct (decide (q = p)) as [->|]; [by right | left; auto]. }
  { intros d' w Hd' Hw Hn. rewrite He3, He2 by (done || by rewrite HR0, Hd' by congruence).
    apply (grown_entry _ _ _ _ _ _ _ _ _ Hg); [done..|]. intros [-> ?]. apply Hn. split; [done|lia]. }
  { intros a Ha. assert (R0 (page_of a) ≠ Free) by (by apply plain_not_free).
    rewrite Hda3 by (by rewrite HR0). rewrite Hm2, decide_False by congruence.
    by apply (grown_data _ _ _ _ _ _ _ _ _ Hg). }
  { done. }
  destruct (Hr p) as [[? _]|(_ & _ & Hp')]; [done|]. destruct Hfr as ([Hpt' Hfo'] & _).
  destruct (pt_kfree s' R' p) as (s4 & Hk & Hok4 & Hm4 & He4); [done | done | by rewrite Hp' |].
  exists s4, (<[p := Free]> R'). rewrite (bind_ok _ _ _ _ _ Hde), (bind_ok _ _ _ _ _ Hk).
  split; [done|]. split; [split; [done|]; apply frames_idle; [by eapply frames_ext | by left | by right]|]. split_and!.
  - intros q. destruct (decide (q = p)) as [->|]; [left; by rewrite fn_lookup_insert|].
    rewrite fn_lookup_insert_ne by done. destruct (Hr q) as [[_ ?]|[? _]]; done.
  - intros d' w Hd' Hw. specialize (Hun d' w Hd' Hw).
    rewrite (He4 d' w); [done | | done]. destruct (Hr d') as [[_ [?|[? _]]]|(_ & ? & _)]; congruence.
  - intros a Ha. rewrite Hm4, Hda; [done | done |]. intros E. by rewrite E, Hp0 in Ha.
  - exists s3, R3, p, p. split; [done|]. intros q Hq.
    destruct (decide (q = p)) as [->|Hqp]; [by left|right; right].
    destruct (Hrole q Hqp) as [E|[_ ?]]; [|done]. by destruct (Hf q); rewrite E.
Qed.

Lemma alloc_loop_ok n : ∀ fuel s R v,
  (n < fuel)%nat → v1 - v ≤ Z.of_nat n → vm_ok s R → v0 ≤ v ≤ v1 →
  grown (λ _, 7) (λ _ _, 0) (pa_mem s0) (pa_mem s) R0 R d v0 v →
  ∃ r s' R', allocuvm_loop fuel d (4096 * v) oldsz newsz s = Ok r s' ∧ vm_ok s' R' ∧
    ((r = newsz ∧ grown (λ _, 7) (λ _ _, 0) (pa_mem s0) (pa_mem s') R0 R' d v0 v1) ∨ (r = 0 ∧ undone s' R')).
Proof using All.
  unfold KERNBASE in Hnew. unfold pages_up in *.
  induction n as [|n IH]; intros [|fuel] s R v Hf Hn Hok Hv Hg; [lia| |lia|];
    cbn [allocuvm_loop]; destruct (Z.ltb_spec (4096 * v) newsz) as [Hlt|Hge]; cbn [negb].
  1: exfalso; zmod.
  1, 3: exists newsz, s, R; split; [done|]; split; [done|]; left; split; [done|];
    by replace v1 with v by zmod.
  assert (v < v1) as Hlt' by zmod. assert (0 ≤ v < UPAGES) as Hvu by (unfold UPAGES; zmod).
  destruct (pt_alloc s R) as [(s1 & Ha & Hok1 & Hm1 & Hnf)|(p & s1 & Ha & Hfp & Hp & Hok1 & Hm1)];
    [apply Hok | |]; rewrite (bind_ok _ _ _ _ _ Ha).
  { assert (vm_ok s1 R) as Hvm1 by (split; [done | rewrite Hm1; apply Hok]).
    rewrite <- Hm1 in Hg.
    destruct (alloc_fails_1 s1 R v) as (s' & R' & Hr & Hrest); [done | done | lia | done |].
    exists 0, s', R'. split; [exact Hr|]. destruct Hrest. eauto. }
  rewrite page_nonzero by done.
  destruct (clear_page s1 (<[p := Other]> R) p) as (s2 & Hc & Hok2 & He2 & Hm2);
    [done | done | by rewrite fn_lookup_insert |].
  rewrite (bind_ok _ _ _ _ _ Hc). rewrite Hm1 in *.
  assert (vm_ok s2 (<[p := Other]> R)) as Hvm2.
  { split; [done|]. eapply frames_ext; [exact He2|]. apply frames_idle; [apply Hok | by right | by left]. }
  assert (R0 p = Free) as Hp0 by (by eapply grown_free).
  assert (R d = Dir) as Hd by (by eapply alloc_dir).
  assert (present (entry (pa_mem s2) d v) = false) as Habs2.
  { assert (0 ≤ v < VPAGES) by (unfold UPAGES, VPAGES in *; lia).
    rewrite He2 by (done || (rewrite fn_lookup_insert_ne; congruence)).
    rewrite (grown_entry _ _ _ _ _ _ _ _ _ Hg) by (done || lia). apply Habs. lia. }
  destruct (map_user_page s2 (<[p := Other]> R) d v p (Z.lor PTE_W PTE_U))
    as (r & s3 & R3 & Hmp & Hg3 & Hda3 & Hcase).
  { done. } { rewrite fn_lookup_insert_ne; congruence. } { done. } { by rewrite fn_lookup_insert. }
  { done. } { done. } { done. }
  rewrite (bind_ok _ _ _ _ _ Hmp). destruct Hcase as [(-> & Hok3 & Hmap)|(-> & Hok3 & He3 & Hnf)].
  - replace (u32 (4096 * v + PGSIZE)) with (4096 * (v + 1))
      by (unfold PGSIZE, UPAGES in *; rewrite u32_small; lia).
    destruct (IH fuel s3 (<[p := Frame d v]> R3) (v + 1)) as (r' & s' & R' & Hl & Hrest);
      [lia | lia | done | lia | |].
    { eapply (grown_step _ _ (Z.lor PTE_W PTE_U)); [exact Hg | reflexivity | zmod | apply Hvu | done | done | done | exact Hm2 | done..]. }
    exists r', s', R'. done.
  - destruct (alloc_fails_2 s s2 s3 R R3 v p) as (s' & R' & Hr & Hrest); [done | done | lia | done.. |].
    exists 0, s', R'. split; [exact Hr|]. destruct Hrest. eauto.
Qed.
End alloc.
End user.
