(* ===== verification/VmSpace.v ===== *)
(** * Whole address spaces

    [freevm] returns every page of an address space to the allocator,
    [setupkvm] builds one with the kernel's mappings, and [copyuvm] makes a
    copy of another's user part. *)
From stdpp Require Import functions.
From S2P Require Import Prelude Machine CString Spin Kalloc Vm VmSpec VmUser.
Import KString.

Section space.
Context {K : Type} `{PageAlloc K}.

Implicit Types (s : K) (m : mem) (p d t v a : Z).

(** ** freevm *)

(** The directory [d] and its tables taken out of use. *)
Definition retired (d : Z) (R : Z → role) (p : Z) : role :=
  if decide (p = d) then Other
  else match R p with Table d' _ => if decide (d' = d) then Other else R p | r => r end.

Lemma retired_inv d R p r :
  retired d R p = r → r ≠ Other → R p = r ∧ p ≠ d ∧ ∀ i, r ≠ Table d i.
Proof.
  unfold retired. intros <-. destruct (decide (p = d)); [done|].
  destruct (R p); try done. case_decide; [done|]. naive_solver.
Qed.

Lemma retired_keep d R p r : R p = r → p ≠ d → (∀ i, r ≠ Table d i) → retired d R p = r.
Proof.
  unfold retired. intros <- Hp Hr. rewrite decide_False by done.
  destruct (R p); try done. rewrite decide_False; [done|]. intros ->. by eapply Hr.
Qed.

Lemma pt_retire s R d : pt_ok s R → R d = Dir → pt_ok s (retired d R).
Proof.
  intros Hok Hd. split.
  - destruct (pt_free s R Hok) as (l & Hl & Hf). exists l. split; [done|]. intros p. rewrite Hf. split.
    + intros Hp. apply retired_keep; [done | congruence | done].
    + intros Hp. by apply retired_inv in Hp as [? _].
  - intros p Hp. destruct (retired d R p) eqn:E; [done|..];
      (apply retired_inv in E as [E _]; [by eapply pt_page_role | done]).
  - intros d' i Hd' Hi. apply retired_inv in Hd' as (Hd' & Hne & _); [|done].
    destruct (pt_pde s R Hok d' i Hd' Hi) as [?|(t & E & Ht)]; [by left|right].
    exists t. split; [done|]. apply retired_keep; [done | congruence | congruence].
  - intros t d' i Ht. apply retired_inv in Ht as (Ht & Hne & Hnt); [|done].
    destruct (pt_tab s R Hok _ _ _ Ht) as (Hd' & Hi & E). split; [|done].
    apply retired_keep; [done | | done]. intros ->. by eapply Hnt.
Qed.

Lemma frames_retire m R d :
  frames_ok m R → R d = Dir → (∀ v, 0 ≤ v < UPAGES → present (entry m d v) = false) →
  frames_ok m (retired d R).
Proof.
  intros [H1 H2] Hd Habs. split.
  - intros d' v Hd' Hv Hpr. apply retired_inv in Hd' as (Hd' & Hne & _); [|done].
    specialize (H1 d' v Hd' Hv Hpr). apply retired_keep; [done | congruence | done].
  - intros p d' v Hp. apply retired_inv in Hp as (Hp & Hne & _); [|done].
    destruct (H2 p d' v Hp) as (Hd' & Hv & Hpr & Hfr). split; [|done].
    apply retired_keep; [done | | done]. intros ->. by rewrite Habs in Hpr.
Qed.

(** Roles while the tables are being freed: those below entry [i] are. *)
Definition freed_below (d i : Z) (R R' : Z → role) : Prop :=
  ∀ p, R' p = match R p with
              | Table d' j => if decide (d' = d) then if decide (j < i) then Free else Other else R p
              | r => if decide (p = d) then Other else r
              end.

(** The other address spaces. *)
Definition others_same (d : Z) (m m' : mem) (R : Z → role) : Prop :=
  ∀ d' v, R d' = Dir → d' ≠ d → 0 ≤ v < VPAGES → entry m' d' v = entry m d' v.

Lemma free_tables_ok n : ∀ s0 s R0 R d i,
  pt_ok s0 R0 → R0 d = Dir → vm_ok s R → freed_below d i R0 R →
  (∀ a, page_of a = d → pa_mem s a = pa_mem s0 a) → same_data (pa_mem s0) (pa_mem s) R0 →
  others_same d (pa_mem s0) (pa_mem s) R0 → 0 ≤ i → i + Z.of_nat n = 1024 →
  ∃ s' R', for_each (seqZ i (Z.of_nat n)) (λ i,
      e ← gets (λ s, load32 (pa_mem s) (d + 4 * i));
      when (present e) (pa_kfree (P2V (PTE_ADDR e)))) s = Ok () s' ∧
    vm_ok s' R' ∧ freed_below d 1024 R0 R' ∧ same_data (pa_mem s0) (pa_mem s') R0 ∧
    others_same d (pa_mem s0) (pa_mem s') R0.
Proof.
  induction n as [|n IH]; intros s0 s R0 R d i Hok0 Hd0 Hok Hfb Hdir Hda Hot Hi Hn.
  { exists s, R. replace (seqZ i (Z.of_nat 0)) with (@nil Z) by done. split_and!; try done.
    by replace 1024 with i by lia. }
  rewrite seqZ_cons by lia. cbn [for_each].
  replace (Z.pred (Z.of_nat (S n))) with (Z.of_nat n) by lia.
  assert (pa_page d) as Hpd by (by eapply (pt_page_role s0 R0)).
  assert (load32 (pa_mem s) (d + 4 * i) = pde (pa_mem s0) d i) as Epde.
  { apply load_entry_ext; [done | lia | done]. }
  rewrite bind_assoc, bind_gets, Epde.
  destruct (pt_pde s0 R0 Hok0 d i Hd0) as [E|(t & E & Ht)]; [lia| |].
  - rewrite E. change (present 0) with false. cbn [when]. rewrite bind_ret.
    apply (IH s0 s R0 R); try done; [|lia|lia].
    intros p. rewrite Hfb. destruct (R0 p) as [| | |d' j|] eqn:Ep; try done.
    case_decide; [|done]. subst d'. destruct (pt_tab s0 R0 Hok0 _ _ _ Ep) as (_ & _ & E').
    assert (j ≠ i). { intros ->. rewrite E in E'. assert (pa_page p) as Hp by (by eapply (pt_page_role s0 R0)).
      pose proof (V2P_aligned p Hp). lia. }
    repeat case_decide; done || lia.
  - assert (pa_page t) as Hpt by (by eapply (pt_page_role s0 R0)).
    rewrite E. fold (frame (V2P t + 7)). rewrite present_page, frame_page by (done || lia).
    change (present 7) with true. cbn [when].
    assert (R t = Other) as HRt by (rewrite Hfb, Ht, decide_True, decide_False by (done || lia); done).
    destruct (pt_kfree s R t) as (s1 & Hk & Hok1 & Hm1 & He1); [apply Hok | done | by rewrite HRt |].
    rewrite (bind_ok _ _ _ _ _ Hk).
    apply (IH s0 s1 R0 (<[t := Free]> R)); try done; [| | | | |lia|lia].
    + split; [done|]. apply frames_idle; [|by left|by right]. eapply frames_ext; [done | apply Hok].
    + intros p. destruct (decide (p = t)) as [->|Hpt'].
      * rewrite fn_lookup_insert, Ht, decide_True, decide_True by (done || lia). done.
      * rewrite fn_lookup_insert_ne, Hfb by done. destruct (R0 p) as [| | |d' j|] eqn:Ep; try done.
        case_decide; [|done]. subst d'. destruct (pt_tab s0 R0 Hok0 _ _ _ Ep) as (_ & _ & E').
        assert (j ≠ i). { intros ->. rewrite E, !V2P_page in E' by (done || by eapply (pt_page_role s0 R0)). lia. }
        repeat case_decide; done || lia.
    + intros a Ha. rewrite Hm1, Hdir; [done | done | congruence].
    + intros a Ha. rewrite Hm1, Hda; [done | done |]. intros Ea. by rewrite Ea, Ht in Ha.
    + intros d' v Hd' Hne Hv. rewrite He1, Hot; [done..| |done]. rewrite Hfb, Hd'. by rewrite decide_False.
Qed.

(** Everything that belonged to [d] is free. *)
Definition released (d : Z) (R R' : Z → role) : Prop :=
  ∀ p, R' p = match R p with
              | Dir => if decide (p = d) then Free else Dir
              | Table d' i => if decide (d' = d) then Free else Table d' i
              | Frame d' v => if decide (d' = d) then Free else Frame d' v
              | r => r
              end.

Lemma released_roles s s1 R R1 R2 d p :
  vm_ok s R → vm_ok s1 R1 → dropped d 0 UPAGES R R1 → freed_below d 1024 R1 R2 → p ≠ d →
  R2 p = match R p with
         | Dir => if decide (p = d) then Free else Dir
         | Table d' i => if decide (d' = d) then Free else Table d' i
         | Frame d' v => if decide (d' = d) then Free else Frame d' v
         | r => r
         end.
Proof.
  intros [_ [_ H2]] Hvm Hdr Hfb Hne. rewrite Hfb. pose proof (Hdr p) as E.
  destruct (R p) as [| | |d' i|d' v] eqn:Ep; rewrite E.
  - by case_decide.
  - by rewrite decide_False.
  - by rewrite !decide_False.
  - case_decide; [|done]. apply (pt_tab s1 R1 (proj1 Hvm)) in E as (_ & ? & _).
    by rewrite decide_True by lia.
  - destruct (H2 p d' v Ep) as (_ & Hv & _).
    repeat case_decide; try done; lia || tauto.
Qed.

Lemma freevm_ok s R d :
  vm_ok s R → R d = Dir →
  ∃ s' R', freevm d s = Ok () s' ∧ vm_ok s' R' ∧ released d R R' ∧
    same_data (pa_mem s) (pa_mem s') R' ∧ others_same d (pa_mem s) (pa_mem s') R.
Proof.
  intros Hvm Hd. unfold freevm. assert (pa_page d) as Hpd by (eapply pt_page_role; [apply Hvm | done | done]).
  rewrite page_nonzero by done.
  destruct (deallocuvm_ok s R d KERNBASE 0) as (s1 & R1 & Hde & Hvm1 & Hdr & Hun & Hda1);
    [done | done | done | done |].
  change (pages_up 0) with 0 in *. change (pages_up KERNBASE) with UPAGES in *.
  rewrite (bind_ok _ _ _ _ _ Hde). clear Hde.
  assert (R1 d = Dir) as Hd1 by (by eapply dropped_dir).
  assert (∀ v, 0 ≤ v < UPAGES → present (entry (pa_mem s1) d v) = false) as Habs.
  { intros v Hv. specialize (Hun d v Hd). rewrite decide_True in Hun by done. apply Hun.
    unfold UPAGES, VPAGES in *. lia. }
  destruct (free_tables_ok 1024 s1 s1 R1 (retired d R1) d 0) as (s2 & R2 & Hft & Hvm2 & Hfb & Hda2 & Hot2).
  { apply Hvm1. } { done. }
  { split; [apply pt_retire; [apply Hvm1 | done] | apply frames_retire; [apply Hvm1 | done | done]]. }
  { intros p. unfold retired. destruct (decide (p = d)) as [->|]; [by rewrite Hd1|].
    destruct (R1 p) eqn:E; try done. case_decide; [|done]. subst.
    apply (pt_tab s1 R1 (proj1 Hvm1)) in E as (_ & ? & _). rewrite decide_False by lia. done. }
  { done. } { done. } { done. } { lia. } { done. }
  change (Z.of_nat 1024) with NPDENTRIES in Hft. rewrite (bind_ok _ _ _ _ _ Hft).
  assert (R2 d = Other) as Hd2 by (rewrite Hfb, Hd1; by rewrite decide_True).
  destruct (pt_kfree s2 R2 d) as (s3 & Hk & Hok3 & Hm3 & He3); [apply Hvm2 | done | by rewrite Hd2 |].
  exists s3, (<[d := Free]> R2). split; [done|]. split; [|split_and!].
  - split; [done|]. apply frames_idle; [|by left|by right]. eapply frames_ext; [done | apply Hvm2].
  - intros p. destruct (decide (d = p)) as [<-|Hne].
    { rewrite fn_lookup_insert, Hd, decide_True by done. done. }
    rewrite fn_lookup_insert_ne by done. by apply (released_roles s s1 R R1 R2 d p).
  - intros a Ha. destruct (decide (page_of a = d)) as [E|Hne]; [by rewrite E, fn_lookup_insert in Ha|].
    rewrite fn_lookup_insert_ne in Ha by done.
    assert (plain (R1 (page_of a))) as Ha1.
    { rewrite Hfb in Ha. destruct (R1 (page_of a)) eqn:E1; try done; repeat case_decide; try done.
      apply (pt_tab s1 R1 (proj1 Hvm1)) in E1 as (_ & ? & _). lia. }
    rewrite Hm3, Hda2, Hda1 by done. done.
  - intros d' v Hd' Hne Hv. assert (R1 d' = Dir) as Hd1' by (by eapply dropped_dir).
    rewrite He3, Hot2 by (done || by rewrite Hfb, Hd1', decide_False).
    specialize (Hun d' v Hd' Hv). by rewrite decide_False in Hun by tauto.
Qed.
(** ** setupkvm *)

(** A cleared page becomes an empty directory. *)
Lemma new_dir s R d :
  vm_ok s R → pa_page d → R d = Other → (∀ a, page_of a = d → pa_mem s a = 0) →
  vm_ok s (<[d := Dir]> R) ∧ ∀ v, 0 ≤ v < VPAGES → entry (pa_mem s) d v = 0.
Proof.
  intros [Hok [H1 H2]] Hp Ho Hz.
  assert (∀ i, 0 ≤ i < 1024 → pde (pa_mem s) d i = 0) as Hpde.
  { intros i Hi. unfold pde, load32. rewrite !Hz; [done|..];
      (rewrite <- ?Z.add_assoc; apply page_of_spec; [done|]; unfold in_page, PGSIZE; lia). }
  assert (∀ v, 0 ≤ v < VPAGES → entry (pa_mem s) d v = 0) as He.
  { intros v Hv. unfold entry, VPAGES in *. rewrite Hpde by zmod. done. }
  split; [|done]. split; split.
  - destruct (pt_free s R Hok) as (l & Hl & Hf). exists l. split; [done|]. intros p. rewrite Hf.
    destruct (decide (p = d)) as [->|]; [by rewrite fn_lookup_insert, Ho | by rewrite fn_lookup_insert_ne].
  - by eapply recast_page.
  - intros d' i Hd' Hi. destruct (decide (d' = d)) as [->|Hne]; [left; by apply Hpde|].
    rewrite fn_lookup_insert_ne in Hd' by done.
    destruct (pt_pde s R Hok d' i Hd' Hi) as [?|(t & E & Ht)]; [by left|right].
    exists t. split; [done|]. rewrite fn_lookup_insert_ne; congruence.
  - intros t d' i Ht. assert (t ≠ d) by (intros ->; by rewrite fn_lookup_insert in Ht).
    rewrite fn_lookup_insert_ne in Ht by done. destruct (pt_tab s R Hok _ _ _ Ht) as (Hd' & Hi & E).
    split; [|done]. rewrite fn_lookup_insert_ne; congruence.
  - intros d' v Hd' Hv Hpr. destruct (decide (d' = d)) as [->|Hne].
    { rewrite He in Hpr by (unfold UPAGES, VPAGES in *; lia). done. }
    rewrite fn_lookup_insert_ne in Hd' by done. specialize (H1 d' v Hd' Hv Hpr).
    rewrite fn_lookup_insert_ne; congruence.
  - intros p d' v Hp'. assert (p ≠ d) by (intros ->; by rewrite fn_lookup_insert in Hp').
    rewrite fn_lookup_insert_ne in Hp' by done. destruct (H2 p d' v Hp') as (Hd' & Hr).
    split; [|done]. rewrite fn_lookup_insert_ne; congruence.
Qed.

(** The pages of a region of the kernel's map, and what maps them. *)
Definition ksize (k : kmap_entry) : Z := u32 (phys_end k - phys_start k).
Definition khit (k : kmap_entry) (v : Z) : Prop :=
  virt k / 4096 ≤ v < virt k / 4096 + ksize k / 4096.
Definition kpte (k : kmap_entry) (v : Z) : Z :=
  phys_start k + (v - virt k / 4096) * 4096 + Z.lor (perm k) PTE_P.

Definition kregion (k : kmap_entry) : Prop :=
  virt k mod 4096 = 0 ∧ KERNBASE ≤ virt k ∧ 0 < ksize k ∧ ksize k mod 4096 = 0 ∧
  virt k + ksize k ≤ 4294967296 ∧ phys_start k mod 4096 = 0 ∧ 0 ≤ phys_start k ∧
  phys_start k + ksize k ≤ 4294967296 ∧ 0 ≤ perm k < 4096.

#[local] Instance khit_dec k v : Decision (khit k v).
Proof. unfold khit. apply _. Defined.

Lemma kmap_step s R d k :
  vm_ok s R → R d = Dir → kregion k →
  (∀ v, khit k v → present (entry (pa_mem s) d v) = false) →
  ∃ r s' R', mappages d (virt k) (u32 (phys_end k - phys_start k)) (phys_start k) (perm k) s = Ok r s' ∧
    vm_ok s' R' ∧ grows d R R' ∧ same_data (pa_mem s) (pa_mem s') R ∧
    others_same d (pa_mem s) (pa_mem s') R ∧
    (∀ v, 0 ≤ v < UPAGES → entry (pa_mem s') d v = entry (pa_mem s) d v) ∧
    (((r <? 0) = true ∧ ∀ p, R' p ≠ Free) ∨
     ((r <? 0) = false ∧ ∀ v, 0 ≤ v < VPAGES →
        entry (pa_mem s') d v = if decide (khit k v) then kpte k v else entry (pa_mem s) d v)).
Proof.
  intros [Hok Hfr] Hd (H1 & H2 & H3 & H4 & H5 & H6 & H7 & H8 & H9) Habs. unfold KERNBASE in H2.
  fold (ksize k).
  destruct (mappages_ok s R d (virt k) (ksize k) (phys_start k) (perm k) (ksize k / 4096))
    as (n & r & s' & R' & Hm & Hok' & Hg & Hda & Hmap & Hc); try (done || lia || zmod).
  exists r, s', R'. split; [done|].
  assert (0 ≤ n ≤ ksize k / 4096) as Hn by (destruct Hc as [[_ ->]|(_ & ? & _)]; zmod).
  assert (∀ d' v, R d' = Dir → 0 ≤ v < UPAGES → entry (pa_mem s') d' v = entry (pa_mem s) d' v) as Hu.
  { intros d' v Hd' Hv. unfold UPAGES in Hv. rewrite Hmap, decide_False by (done || (unfold VPAGES; lia) || zmod).
    done. }
  split; [split; [done | by eapply frames_grow_user]|]. split; [done|]. split; [done|]. split_and!.
  - intros d' v Hd' Hne Hv. rewrite Hmap, decide_False by tauto. done.
  - auto.
  - destruct Hc as [[-> ->]|(-> & _ & Hf)]; [right|by left]. split; [done|]. intros v Hv.
    rewrite Hmap by done. unfold khit, kpte. repeat case_decide; done || tauto.
Qed.

(** The entries after mapping the regions [ks] over [g]. *)
Fixpoint kfind (ks : list kmap_entry) (g : Z → Z) (v : Z) : Z :=
  match ks with
  | [] => g v
  | k :: ks' => kfind ks' (λ v, if decide (khit k v) then kpte k v else g v) v
  end.

Lemma kfind_ext ks : ∀ g g' v, (∀ v, 0 ≤ v < VPAGES → g v = g' v) → 0 ≤ v < VPAGES → kfind ks g v = kfind ks g' v.
Proof.
  induction ks as [|k ks IH]; intros g g' v Hg Hv; cbn [kfind]; [auto|].
  apply IH; [|done]. intros w Hw. case_decide; auto.
Qed.

(** The regions are disjoint from each other and from what [g] maps. *)
Fixpoint kdisjoint (ks : list kmap_entry) (g : Z → Z) : Prop :=
  match ks with
  | [] => True
  | k :: ks' =>
      kregion k ∧ (∀ v, khit k v → present (g v) = false) ∧
      kdisjoint ks' (λ v, if decide (khit k v) then kpte k v else g v)
  end.

Lemma kdisjoint_ext ks : ∀ g g',
  (∀ v, 0 ≤ v < VPAGES → g v = g' v) → kdisjoint ks g → kdisjoint ks g'.
Proof.
  induction ks as [|k ks IH]; intros g g' Hg; cbn [kdisjoint]; [done|].
  intros (Hk & Hd & Hr). split; [done|]. split.
  - intros v Hv. rewrite <- Hg; [by apply Hd|]. destruct Hk as (H1 & H2 & H3 & H4 & H5 & _).
    clear -Hv H1 H2 H3 H4 H5. unfold khit, VPAGES, KERNBASE in *. zmod.
  - eapply IH; [|done]. intros v Hv. simpl. case_decide; auto.
Qed.

Definition kmap_body (d : Z) (k : kmap_entry) : M K (option Z) :=
  r ← mappages d (virt k) (u32 (phys_end k - phys_start k)) (phys_start k) (perm k);
  if r <? 0 then freevm d;; mret (Some 0) else mret None.

Lemma others_same_trans d m1 m2 m3 R R' :
  (∀ d', R d' = Dir → R' d' = Dir) →
  others_same d m1 m2 R → others_same d m2 m3 R' → others_same d m1 m3 R.
Proof. intros HR H1 H2 d' v Hd' Hne Hv. rewrite H2, H1 by auto. done. Qed.

Lemma kmap_loop_ok d ks : ∀ s R,
  vm_ok s R → R d = Dir → kdisjoint ks (entry (pa_mem s) d) →
  ∃ r s' R1 R', for_until ks (kmap_body d) s = Ok r s' ∧ vm_ok s' R' ∧ grows d R R1 ∧
    others_same d (pa_mem s) (pa_mem s') R ∧
    ((r = None ∧ R' = R1 ∧ same_data (pa_mem s) (pa_mem s') R ∧
      ∀ v, 0 ≤ v < VPAGES → entry (pa_mem s') d v = kfind ks (entry (pa_mem s) d) v) ∨
     (r = Some 0 ∧ released d R1 R' ∧ (∀ p, R1 p ≠ Free) ∧ (∃ s1, vm_ok s1 R1) ∧
      ∀ a, plain (R (page_of a)) → plain (R' (page_of a)) → pa_mem s' a = pa_mem s a)).
Proof.
  induction ks as [|k ks IH]; intros s R Hvm Hd Hks; cbn [for_until].
  { exists None, s, R, R. split; [done|]. split; [done|]. split; [apply grows_refl|]. split; [done|].
    left. done. }
  destruct Hks as (Hk & Habs & Hks).
  destruct (kmap_step s R d k) as (r & s1 & R1 & Hm & Hvm1 & Hg & Hda & Hot & Hu & Hc); [done..|].
  assert (R1 d = Dir) as Hd1 by (by eapply grows_role).
  assert (∀ d', R d' = Dir → R1 d' = Dir) as HD by (intros d' Hd'; by eapply grows_role).
  assert (kmap_body d k s = (if r <? 0 then freevm d;; mret (Some 0) else mret None) s1) as Hb
    by (unfold kmap_body; by rewrite (bind_ok _ _ _ _ _ Hm)).
  destruct Hc as [[E Hf]|[E He]]; rewrite E in Hb.
  - destruct (freevm_ok s1 R1 d) as (s2 & R2 & Hfv & Hvm2 & Hrel & Hda2 & Hot2); [done..|].
    rewrite (bind_ok _ _ _ _ _ Hfv) in Hb. rewrite (bind_ok _ _ _ _ _ Hb).
    exists (Some 0), s2, R1, R2. split; [done|]. split; [done|]. split; [done|]. split.
    { by eapply others_same_trans. }
    right. split_and!; [done | done | done | eauto |]. intros a Ha Ha'. rewrite Hda2, Hda by done. done.
  - destruct (IH s1 R1) as (r' & s2 & R2 & R' & Hl & Hvm2 & Hg2 & Hot2 & Hcase); [done | done | |].
    { eapply kdisjoint_ext; [|done]. intros v Hv. by rewrite He. }
    rewrite (bind_ok _ _ _ _ _ Hb). exists r', s2, R2, R'. split; [exact Hl|]. split; [done|].
    split; [by eapply grows_trans|]. split; [by eapply others_same_trans|].
    destruct Hcase as [(-> & -> & Hda2 & He2)|(-> & Hrel & Hf & Hx & Hda2)]; [left|right]; (split; [done|]).
    + split; [done|]. split.
      * intros a Ha. rewrite Hda2, Hda by (done || by rewrite (grows_plain d R R1)). done.
      * intros v Hv. rewrite He2 by done. cbn [kfind]. apply kfind_ext; [|done]. intros w Hw. by rewrite He.
    + split_and!; [done | done | done |]. intros a Ha Ha'.
      rewrite Hda2, Hda by (done || by rewrite (grows_plain d R R1)). done.
Qed.

(** What the linker script guarantees about [data]. *)
Definition data_ok (data : Z) : Prop :=
  data mod 4096 = 0 ∧ KERNLINK < data < KERNBASE + PHYSTOP.

(** The kernel's part of every address space, as the comment on [kmap]
    describes it. *)
Definition kernel_pte (data v : Z) : Z :=
  if decide (0x80000 ≤ v < 0x80100) then (v - 0x80000) * 4096 + 3
  else if decide (0x80100 ≤ v < data / 4096) then (v - 0x80000) * 4096 + 1
  else if decide (data / 4096 ≤ v < 0x8E000) then (v - 0x80000) * 4096 + 3
  else if decide (0xFE000 ≤ v < 0x100000) then v * 4096 + 3
  else 0.

(** The four regions of [kmap], with the pages they cover. *)
Definition kregion_at (k : kmap_entry) (lo hi : Z) (pte : Z → Z) : Prop :=
  kregion k ∧ (∀ v, khit k v ↔ lo ≤ v < hi) ∧ ∀ v, kpte k v = pte v.

Lemma kregion_intro va start end_ pm size :
  u32 (end_ - start) = size → va mod 4096 = 0 → KERNBASE ≤ va → 0 < size → size mod 4096 = 0 →
  va + size ≤ 4294967296 → start mod 4096 = 0 → 0 ≤ start → start + size ≤ 4294967296 → 0 ≤ pm < 4096 →
  kregion_at (Kmap va start end_ pm) (va / 4096) (va / 4096 + size / 4096)
    (λ v, start + (v - va / 4096) * 4096 + Z.lor pm PTE_P).
Proof. intros E. intros. unfold kregion_at, kregion, khit, kpte, ksize. simpl. by rewrite E. Qed.

Lemma kmap_regions data :
  data_ok data →
  ∃ k1 k2 k3 k4, kmap data = [k1; k2; k3; k4] ∧
    kregion_at k1 0x80000 0x80100 (λ v, (v - 0x80000) * 4096 + 3) ∧
    kregion_at k2 0x80100 (data / 4096) (λ v, (v - 0x80000) * 4096 + 1) ∧
    kregion_at k3 (data / 4096) 0x8E000 (λ v, (v - 0x80000) * 4096 + 3) ∧
    kregion_at k4 0xFE000 0x100000 (λ v, v * 4096 + 3).
Proof.
  intros [Hm Hr]. unfold KERNLINK, KERNBASE, EXTMEM, PHYSTOP in Hr.
  assert (V2P data = data - 0x80000000) as Ed by (unfold V2P, KERNBASE; apply u32_small; lia).
  eexists _, _, _, _. split; [reflexivity|]. rewrite Ed.
  change (V2P KERNLINK) with 0x100000. unfold KERNLINK, KERNBASE, EXTMEM, PHYSTOP, DEVSPACE, PTE_W.
  assert (∀ k lo hi lo' hi' f f', kregion_at k lo hi f → lo = lo' → hi = hi' → (∀ v, f v = f' v) →
    kregion_at k lo' hi' f') as Hext.
  { intros k lo hi lo' hi' f f' (? & ? & Hf) <- <- Hff. split_and!; try done. intros v. by rewrite Hf. }
  split_and!; eapply Hext.
  1: apply (kregion_intro _ _ _ _ 0x100000); done.
  4: apply (kregion_intro _ _ _ _ (data - 0x80100000)); try done; try (rewrite u32_small); unfold KERNBASE; zmod.
  7: apply (kregion_intro _ _ _ _ (0x8E000000 - data)); try done; try (rewrite u32_small); unfold KERNBASE; zmod.
  10: apply (kregion_intro _ _ _ _ 0x2000000); done.
  all: try intros v; cbv beta; try change (Z.lor 2 PTE_P) with 3; try change (Z.lor 0 PTE_P) with 1; zmod.
Qed.

Lemma kmap_disjoint data : data_ok data → kdisjoint (kmap data) (λ _, 0).
Proof.
  intros Hdo. destruct (kmap_regions data Hdo) as (k1 & k2 & k3 & k4 & -> & H1 & H2 & H3 & H4).
  destruct Hdo as [Hm Hr]. unfold KERNLINK, KERNBASE, EXTMEM, PHYSTOP in Hr.
  destruct H1 as (Hk1 & Hh1 & _), H2 as (Hk2 & Hh2 & _), H3 as (Hk3 & Hh3 & _), H4 as (Hk4 & Hh4 & _).
  cbn [kdisjoint]. split_and!; try done; intros v; [rewrite Hh2|rewrite Hh3|rewrite Hh4]; intros Hv;
    repeat (rewrite decide_False; [|rewrite ?Hh1, ?Hh2, ?Hh3; zmod]); done.
Qed.

Lemma kernel_pte_kfind data v :
  data_ok data → kfind (kmap data) (λ _, 0) v = kernel_pte data v.
Proof.
  intros Hdo. destruct (kmap_regions data Hdo) as (k1 & k2 & k3 & k4 & -> & H1 & H2 & H3 & H4).
  destruct Hdo as [Hm Hr]. unfold KERNLINK, KERNBASE, EXTMEM, PHYSTOP in Hr.
  destruct H1 as (_ & Hh1 & Hp1), H2 as (_ & Hh2 & Hp2), H3 as (_ & Hh3 & Hp3), H4 as (_ & Hh4 & Hp4).
  cbn [kfind]. unfold kernel_pte. rewrite Hp1, Hp2, Hp3, Hp4.
  rewrite (decide_ext (khit k4 v) (0xFE000 ≤ v < 0x100000)) by apply Hh4.
  rewrite (decide_ext (khit k3 v) (data / 4096 ≤ v < 0x8E000)) by apply Hh3.
  rewrite (decide_ext (khit k2 v) (0x80100 ≤ v < data / 4096)) by apply Hh2.
  rewrite (decide_ext (khit k1 v) (0x80000 ≤ v < 0x80100)) by apply Hh1.
  repeat case_decide; zmod.
Qed.

(** ** setupkvm *)

Lemma setupkvm_unfold data s :
  setupkvm data s =
  (pgdir ← pa_kalloc;
   if pgdir =? 0 then mret 0
   else pa_write (λ m, memset m pgdir 0 PGSIZE);;
        r ← for_until (kmap data) (kmap_body pgdir); mret (default pgdir r)) s.
Proof. done. Qed.

(** Free pages that became tables or frames of [d]. *)
Definition takes (d : Z) (R R' : Z → role) : Prop :=
  ∀ p, R' p = R p ∨ (R p = Free ∧ ((∃ i, R' p = Table d i) ∨ ∃ v, R' p = Frame d v)).

Lemma grows_takes d R R' : grows d R R' → takes d R R'.
Proof. intros Hg p. destruct (Hg p) as [?|[? ?]]; [by left | right; eauto]. Qed.

Lemma takes_trans d R1 R2 R3 : takes d R1 R2 → takes d R2 R3 → takes d R1 R3.
Proof.
  intros H1 H2 p. destruct (H1 p) as [E1|[E1 ?]], (H2 p) as [E2|[E2 ?]].
  - left. congruence.
  - right. split; [congruence | done].
  - right. by rewrite E2.
  - destruct H0 as [[? ?]|[? ?]]; congruence.
Qed.

Lemma takes_role d R R' p r : takes d R R' → R p = r → r ≠ Free → R' p = r.
Proof. intros Hg Hp Hr. destruct (Hg p) as [->|[? _]]; congruence. Qed.

(** A new directory, its tables and frames come and go without a trace. *)
Lemma undo_setup s R R1 R' d p :
  vm_ok s R → R d = Free → takes d (<[d := Dir]> R) R1 → released d R1 R' → R' p = R p.
Proof.
  intros [Hok [_ H2]] Hd Hg Hrel. rewrite Hrel.
  assert (∀ i, R p ≠ Table d i) as Hnt.
  { intros i E. destruct (pt_tab s R Hok _ _ _ E). congruence. }
  assert (∀ v, R p ≠ Frame d v) as Hnf.
  { intros v E. destruct (H2 p d v E). congruence. }
  destruct (decide (d = p)) as [<-|Hne].
  - assert (R1 d = Dir) as -> by (eapply takes_role; [done | apply fn_lookup_insert | done]).
    by rewrite decide_True, Hd.
  - destruct (Hg p) as [->|(E & [[i ->]|[v ->]])]; rewrite fn_lookup_insert_ne in * by done.
    2, 3: by rewrite decide_True.
    destruct (R p) as [| | |d' i|d' v]; try done.
    + by rewrite decide_False.
    + destruct (decide (d' = d)) as [->|]; [by destruct (Hnt i) | done].
    + destruct (decide (d' = d)) as [->|]; [by destruct (Hnf v) | done].
Qed.

Lemma setupkvm_ok s R data :
  vm_ok s R → data_ok data →
  ∃ d s' R', setupkvm data s = Ok d s' ∧ vm_ok s' R' ∧
    same_data (pa_mem s) (pa_mem s') R ∧ same_entries (pa_mem s) (pa_mem s') R ∧
    (((d =? 0) = false ∧ R d = Free ∧ grows d (<[d := Dir]> R) R' ∧
      ∀ v, 0 ≤ v < VPAGES → entry (pa_mem s') d v = kernel_pte data v) ∨
     (d = 0 ∧ (∀ p, R' p = R p) ∧ ∃ d', exhausted R d' 0 0)).
Proof.
  intros Hvm Hdata. rewrite setupkvm_unfold.
  destruct (pt_alloc s R) as [(s1 & Ha & Hok1 & Hm1 & Hnf)|(d & s1 & Ha & Hfd & Hp & Hok1 & Hm1)];
    [apply Hvm | |]; rewrite (bind_ok _ _ _ _ _ Ha).
  { exists 0, s1, R. split; [done|]. unfold vm_ok, same_data, same_entries. rewrite Hm1.
    split; [split; [done | apply Hvm]|]. split; [done|]. split; [done|]. right. split; [done|]. split; [done|].
    exists 0, s, R, 0, 0. split; [done|]. intros p Hfp. by destruct (Hnf p). }
  rewrite page_nonzero by done.
  destruct (clear_page s1 (<[d := Other]> R) d) as (s2 & Hc & Hok2 & He2 & Hm2);
    [done | done | by rewrite fn_lookup_insert |].
  rewrite (bind_ok _ _ _ _ _ Hc). rewrite Hm1 in *.
  destruct (new_dir s2 (<[d := Other]> R) d) as [Hvm2 Hz].
  { split; [done|]. eapply frames_ext; [exact He2|]. apply frames_idle; [apply Hvm | by right | by left]. }
  { done. } { by rewrite fn_lookup_insert. } { intros a Ea. by rewrite Hm2, decide_True. }
  destruct (kmap_loop_ok d (kmap data) s2 (<[d := Dir]> (<[d := Other]> R)))
    as (r & s3 & R1 & R' & Hl & Hvm3 & Hg & Hot & Hcase); [done | by rewrite fn_lookup_insert | |].
  { eapply kdisjoint_ext; [|by apply kmap_disjoint]. intros v Hv. by rewrite Hz. }
  rewrite (bind_ok _ _ _ _ _ Hl).
  assert (grows d (<[d := Dir]> R) R1) as Hg'.
  { intros p. destruct (Hg p) as [E|E]; rewrite insert_twice in E; [by left | by right]. }
  assert (same_entries (pa_mem s) (pa_mem s3) R) as He.
  { intros d' v Hd' Hv. assert (d' ≠ d) by congruence.
    rewrite Hot, He2; [done | | done | | done | done]; by rewrite !fn_lookup_insert_ne. }
  assert (∀ a, plain (R (page_of a)) → plain ((<[d := Dir]> (<[d := Other]> R)) (page_of a)) ∧
            pa_mem s2 a = pa_mem s a) as Hpl.
  { intros a Ea. assert (page_of a ≠ d) by (intros E; by rewrite E, Hfd in Ea).
    rewrite !fn_lookup_insert_ne, Hm2, decide_False by done. done. }
  exists (default d r), s3, R'. split; [done|]. split; [done|].
  destruct Hcase as [(-> & -> & Hda & Hent)|(-> & Hrel & Hf & [sx Hx] & Hda)].
  - split; [|split; [done|left]].
    + intros a Ea. destruct (Hpl a Ea) as [? <-]. by apply Hda.
    + split; [by apply page_nonzero|]. split; [done|]. split; [done|]. intros v Hv.
      rewrite Hent, <- kernel_pte_kfind by done. apply kfind_ext; [|done]. intros w Hw. by rewrite Hz.
  - assert (∀ p, R' p = R p) as HR.
    { intros p. eapply undo_setup; [done | done | by apply grows_takes | done]. }
    split; [|split; [done|right]].
    + intros a Ea. destruct (Hpl a Ea) as [? <-]. apply Hda; [done | by rewrite HR].
    + split; [done|]. split; [done|]. exists d, sx, R1, d, d. split; [done|]. intros p Hfp.
      destruct (decide (p = d)) as [->|Hne]; [by left|]. right; right. left.
      destruct (Hg' p) as [E|[_ ?]]; [|done]. rewrite fn_lookup_insert_ne in E by done.
      by destruct (Hf p); rewrite E.
Qed.
End space.
