(* ===== verification/VmCopy.v ===== *)
(** * Copies of address spaces and copying out

    [copyuvm] against the parent's address space, [copyout] and [uva2ka]
    against the bytes the user sees. *)
From stdpp Require Import functions.
From S2P Require Import Prelude Machine CString Spin Kalloc Vm VmSpec VmUser VmSpace.
Import KString.

Section copy.
Context {K : Type} `{PageAlloc K}.

Implicit Types (s : K) (m : mem) (p d t v a : Z).

(** A page filled from another page. *)
Lemma copy_page s R p q :
  pt_ok s R → pa_page p → pa_page q → p ≠ q → plain (R p) →
  ∃ s', pa_write (λ m, memmove m p q PGSIZE) s = Ok () s' ∧ pt_ok s' R ∧
    same_entries (pa_mem s) (pa_mem s') R ∧
    (∀ a, pa_mem s' a = if decide (page_of a = p) then pa_mem s (q + (a - p)) else pa_mem s a).
Proof.
  intros Hok Hp Hq Hne Hpl. pose proof (pt_wf s R Hok) as Hwf.
  assert (∀ a, memmove (pa_mem s) p q PGSIZE a =
    if decide (page_of a = p) then pa_mem s (q + (a - p)) else pa_mem s a) as Hm.
  { intros a. rewrite memmove_byte by done. unfold moved. apply decide_ext. by rewrite page_of_spec. }
  destruct (pt_write s R p (λ m, memmove m p q PGSIZE)) as (s' & Hr & Hok' & Hs' & He); [done | done | | |].
  - intros a. simpl. rewrite Hm. case_decide; apply Hwf.
  - intros a Ha. simpl. rewrite Hm. by rewrite decide_False.
  - exists s'. split_and!; try done. intros a. rewrite Hs'. apply Hm.
Qed.

Section loop.
Context (s0 : K) (R0 : Z → role) (d0 d sz v1 : Z).
Context (Hok0 : vm_ok s0 R0) (Hd0 : R0 d0 = Dir) (Hd : R0 d = Dir) (Hdd : d ≠ d0).
Context (Hsz : 0 ≤ sz ≤ KERNBASE) (Hv1 : v1 = pages_up sz).
Context (Hpar : ∀ v, 0 ≤ v < v1 → present (entry (pa_mem s0) d0 v) = true).
Context (Habs : ∀ v, 0 ≤ v < v1 → present (entry (pa_mem s0) d v) = false).

(** The flags and the contents of the parent's page. *)
Definition pflags (v : Z) : Z := entry (pa_mem s0) d0 v mod 4096.
Definition pbytes (v x : Z) : Z := pa_mem s0 (frame (entry (pa_mem s0) d0 v) + x).

(** Stopped half-way for lack of memory. *)
Definition half_copied (s' : K) (R' : Z → role) : Prop :=
  takes d R0 R' ∧ others_same d (pa_mem s0) (pa_mem s') R0 ∧ same_data (pa_mem s0) (pa_mem s') R0 ∧
  ∃ sx Rx x, vm_ok sx Rx ∧ (∀ p i, R0 p = Table d i → Rx p = Table d i) ∧ ∀ p, R0 p = Free →
    p = x ∨ (∃ i, Rx p = Table d i) ∨ ∃ v, 0 ≤ v < v1 ∧ Rx p = Frame d v.

Lemma grown_takes fl ct m m' R R' v0 v : grown fl ct m m' R R' d v0 v → takes d R R'.
Proof.
  intros Hg p. destruct (grown_role _ _ _ _ _ _ _ _ _ Hg p) as [?|(? & [?|(w & _ & ?)])];
    [by left | right; eauto | right; eauto].
Qed.

Lemma grown_others fl ct m m' R R' v0 v : grown fl ct m m' R R' d v0 v → others_same d m m' R.
Proof. intros Hg d' w Hd' Hne Hw. apply (grown_entry _ _ _ _ _ _ _ _ _ Hg); tauto. Qed.

Lemma flags_lor e : 0 ≤ e < 4294967296 → present e = true → Z.lor (PTE_FLAGS e) PTE_P = e mod 4096.
Proof.
  intros He Hp%present_spec. rewrite PTE_FLAGS_spec by done. unfold PTE_P.
  assert (e mod 4096 = Z.lor (Z.shiftl (e mod 4096 / 2) 1) 1) as ->.
  { rewrite lor_disjoint_add by lia. change (2 ^ 1) with 2. zmod. }
  by rewrite <- Z.lor_assoc.
Qed.

Lemma entry_range s R d' v :
  pt_ok s R → R d' = Dir → 0 ≤ v < VPAGES → 0 ≤ entry (pa_mem s) d' v < 4294967296.
Proof.
  intros Hok Hd' Hv. destruct (entry_cases s R d' v) as [[_ ->]|(t & _ & _ & ->)]; [done..|lia|].
  by eapply load32_range, pt_wf.
Qed.

(** The parent does not notice the copying. *)
Lemma parent_view fl ct s R v :
  vm_ok s R → grown fl ct (pa_mem s0) (pa_mem s) R0 R d 0 v → 0 ≤ v < v1 →
  ∃ r, walkpgdir d0 (4096 * v) 0 s = Ok r s ∧ (r =? 0) = false ∧
    load32 (pa_mem s) r = entry (pa_mem s0) d0 v ∧
    R (frame (entry (pa_mem s0) d0 v)) = Frame d0 v ∧
    (∀ a, page_of a = frame (entry (pa_mem s0) d0 v) → pa_mem s a = pa_mem s0 a).
Proof using All.
  intros [Hok _] Hg Hv. assert (0 ≤ v < UPAGES) as Hvu by (unfold UPAGES, pages_up, KERNBASE in *; zmod).
  assert (0 ≤ v < VPAGES) as Hvv by (unfold UPAGES, VPAGES in *; lia).
  assert (entry (pa_mem s) d0 v = entry (pa_mem s0) d0 v) as He by (eapply grown_others; done).
  assert (R0 (frame (entry (pa_mem s0) d0 v)) = Frame d0 v) as Hf by (apply Hok0; auto).
  destruct (slot_cases s R d0 v) as [[_ E]|[r Hs]]; [done | by eapply grown_keeps | done | |].
  { specialize (Hpar v Hv). rewrite <- He, E in Hpar. done. }
  destruct (walk_hit s R d0 (4096 * v) 0 r) as [Hw Hr].
  { done. } { unfold UPAGES in Hvu. lia. } { by replace (4096 * v / 4096) with v by zmod. }
  exists r. split_and!; [done | done | | by eapply grown_keeps |].
  - by rewrite <- (entry_slot s R d0 v r).
  - intros a Ea. apply (grown_data _ _ _ _ _ _ _ _ _ Hg). by rewrite Ea, Hf.
Qed.

Lemma copy_fails_1 s R v :
  vm_ok s R → grown pflags pbytes (pa_mem s0) (pa_mem s) R0 R d 0 v → v ≤ v1 → (∀ p, R p ≠ Free) →
  half_copied s R.
Proof using All.
  intros Hok Hg Hv Hf. split_and!.
  - by eapply grown_takes.
  - by eapply grown_others.
  - apply (grown_data _ _ _ _ _ _ _ _ _ Hg).
  - exists s, R, 0. split; [done|]. split; [intros p i Hp; by eapply grown_keeps|]. intros p Hp. right.
    destruct (grown_role _ _ _ _ _ _ _ _ _ Hg p) as [E|(_ & [?|(w & ? & ?)])].
    + by destruct (Hf p); rewrite E.
    + by left.
    + right. exists w. split; [lia | done].
Qed.

(** [mappages] failed with page [p] in hand, which is freed. *)
Lemma copy_fails_2 s s2 s3 R R3 v p :
  vm_ok s R → grown pflags pbytes (pa_mem s0) (pa_mem s) R0 R d 0 v → v ≤ v1 →
  R p = Free → pa_page p →
  (∀ a, page_of a ≠ p → pa_mem s2 a = pa_mem s a) →
  same_entries (pa_mem s) (pa_mem s2) (<[p := Other]> R) →
  grows d (<[p := Other]> R) R3 → same_data (pa_mem s2) (pa_mem s3) (<[p := Other]> R) →
  vm_ok s3 R3 → same_entries (pa_mem s2) (pa_mem s3) (<[p := Other]> R) → (∀ q, R3 q ≠ Free) →
  ∃ s' R', (pa_kfree p;; mret false) s3 = Ok false s' ∧ vm_ok s' R' ∧ half_copied s' R'.
Proof using All.
  intros Hok Hg Hv Hp Hpp Hm2 He2 Hg3 Hda3 Hok3 He3 Hf.
  assert (R0 p = Free) as Hp0 by (by eapply grown_free).
  assert (R3 p = Other) as Hp3 by (eapply grows_role; [done | apply fn_lookup_insert | done]).
  assert (∀ q, R0 q ≠ Free → <[p := Other]> R q = R0 q) as HR0.
  { intros q Hq. rewrite fn_lookup_insert_ne by congruence. by eapply grown_keeps. }
  destruct (pt_kfree s3 R3 p) as (s4 & Hk & Hok4 & Hm4 & He4); [apply Hok3 | done | by rewrite Hp3 |].
  exists s4, (<[p := Free]> R3). rewrite (bind_ok _ _ _ _ _ Hk). split; [done|]. split.
  { split; [done|]. apply frames_idle; [|by left|by right]. eapply frames_ext; [done | apply Hok3]. }
  assert (∀ q, q ≠ p → R3 q = R0 q ∨ (R0 q = Free ∧ ((∃ i, R3 q = Table d i) ∨
            ∃ w, 0 ≤ w < v1 ∧ R3 q = Frame d w))) as Hrole.
  { intros q Hq. destruct (Hg3 q) as [->|(Hfq & Hi)]; rewrite fn_lookup_insert_ne in * by done.
    - destruct (grown_role _ _ _ _ _ _ _ _ _ Hg q) as [?|(? & [?|(w & ? & ?)])];
        [by left | right.. ]; (split; [done|]); [by left | right; exists w; split; [lia | done]].
    - right. split; [by eapply grown_free | by left]. }
  split_and!.
  - intros q. destruct (decide (q = p)) as [->|Hq]; [left; by rewrite fn_lookup_insert|].
    rewrite fn_lookup_insert_ne by done.
    destruct (Hrole q Hq) as [?|(? & [?|(w & _ & ?)])]; [by left | right; eauto | right; eauto].
  - intros d' w Hd' Hne Hw. assert (R3 d' = Dir) as Hd3.
    { eapply grows_role; [done | rewrite HR0; [done | congruence] | done]. }
    rewrite He4, He3, He2 by (done || (rewrite HR0; [done | congruence])).
    by eapply grown_others.
  - intros a Ea. assert (R0 (page_of a) ≠ Free) by (by apply plain_not_free).
    assert (page_of a ≠ p) by congruence.
    rewrite Hm4, Hda3, Hm2 by (done || by rewrite HR0). by apply (grown_data _ _ _ _ _ _ _ _ _ Hg).
  - exists s3, R3, p. split; [done|]. split.
    { intros q i Hq. destruct (Hrole q) as [?|[? _]]; congruence. }
    intros q Hq. destruct (decide (q = p)) as [->|Hqp]; [by left|right].
    destruct (Hrole q Hqp) as [E|[_ ?]]; [|done]. by destruct (Hf q); rewrite E.
Qed.

Lemma copy_loop_ok n : ∀ fuel s R v,
  (n < fuel)%nat → v1 - v ≤ Z.of_nat n → vm_ok s R → 0 ≤ v ≤ v1 →
  grown pflags pbytes (pa_mem s0) (pa_mem s) R0 R d 0 v →
  ∃ b s' R', copyuvm_loop fuel d0 d (4096 * v) sz s = Ok b s' ∧ vm_ok s' R' ∧
    ((b = true ∧ grown pflags pbytes (pa_mem s0) (pa_mem s') R0 R' d 0 v1) ∨
     (b = false ∧ half_copied s' R')).
Proof using All.
  induction n as [|n IH]; intros [|fuel] s R v Hf Hn Hok Hv Hg; [lia| |lia|];
    cbn [copyuvm_loop]; destruct (Z.ltb_spec (4096 * v) sz) as [Hlt|Hge]; cbn [negb].
  1: exfalso; unfold pages_up in *; zmod.
  1, 3: exists true, s, R; split; [done|]; split; [done|]; left; split; [done|];
    by replace v1 with v by (unfold pages_up in *; zmod).
  assert (v < v1) as Hlt' by (unfold pages_up in *; zmod).
  assert (0 ≤ v < UPAGES) as Hvu by (unfold UPAGES, pages_up, KERNBASE in *; zmod).
  assert (0 ≤ v < VPAGES) as Hvv by (unfold UPAGES, VPAGES in *; lia).
  destruct (parent_view pflags pbytes s R v) as (r & Hw & Hr & He & Hfr & Hby); [done | done | lia |].
  rewrite (bind_ok _ _ _ _ _ Hw), Hr, bind_gets, He, Hpar by lia. cbn [negb].
  fold (frame (entry (pa_mem s0) d0 v)).
  destruct (pt_alloc s R) as [(s1 & Ha & Hok1 & Hm1 & Hnf)|(p & s1 & Ha & Hfp & Hp & Hok1 & Hm1)];
    [apply Hok | |]; rewrite (bind_ok _ _ _ _ _ Ha).
  { assert (vm_ok s1 R) as Hvm1 by (split; [done | rewrite Hm1; apply Hok]). rewrite <- Hm1 in Hg.
    exists false, s1, R. split; [done|]. split; [done|]. right. split; [done|].
    eapply copy_fails_1; [done | done | lia | done]. }
  rewrite page_nonzero by done.
  assert (pa_page (frame (entry (pa_mem s0) d0 v))) as Hq by (eapply pt_page_role; [apply Hok | done | done]).
  destruct (copy_page s1 (<[p := Other]> R) p (frame (entry (pa_mem s0) d0 v)))
    as (s2 & Hc & Hok2 & He2 & Hm2); [done | done | done | congruence | by rewrite fn_lookup_insert |].
  rewrite (bind_ok _ _ _ _ _ Hc). rewrite Hm1 in *.
  assert (R d = Dir) as HRd by (by eapply grown_keeps).
  assert (<[p := Other]> R d = Dir) as HRd' by (rewrite fn_lookup_insert_ne; congruence).
  pose proof (entry_range s0 R0 d0 v (proj1 Hok0) Hd0 Hvv) as Her.
  destruct (map_user_page s2 (<[p := Other]> R) d v p (PTE_FLAGS (entry (pa_mem s0) d0 v)))
    as (r' & s3 & R3 & Hmp & Hg3 & Hda3 & Hcase).
  { split; [done|]. eapply frames_ext; [exact He2|]. apply frames_idle; [apply Hok | by right | by left]. }
  { done. } { done. } { by rewrite fn_lookup_insert. } { done. }
  { rewrite PTE_FLAGS_spec by done. by apply Z.mod_pos_bound. }
  { rewrite He2, (grown_entry _ _ _ _ _ _ _ _ _ Hg) by (done || lia). apply Habs. lia. }
  rewrite (bind_ok _ _ _ _ _ Hmp). destruct Hcase as [(-> & Hok3 & Hmap)|(-> & Hok3 & He3 & Hnf)].
  - replace (u32 (4096 * v + PGSIZE)) with (4096 * (v + 1))
      by (unfold PGSIZE, UPAGES in *; rewrite u32_small; lia).
    apply (IH fuel s3 (<[p := Frame d v]> R3) (v + 1)); [lia | lia | done | lia |].
    eapply (grown_step _ _ (PTE_FLAGS (entry (pa_mem s0) d0 v)));
      [exact Hg | apply flags_lor; [done | apply Hpar; lia] | lia | apply Hvu | done | done | done | | done..].
    intros a. rewrite Hm2. case_decide as Ea; [|done]. unfold pbytes. apply Hby.
    apply page_of_spec; [done|]. apply page_of_spec in Ea; [|done]. unfold in_page in *. lia.
  - destruct (copy_fails_2 s s2 s3 R R3 v p) as (s' & R' & Hkf & Hrest);
      [done | done | lia | done | done | | done.. |].
    { intros a Ea. by rewrite Hm2, decide_False. }
    exists false, s', R'. split; [exact Hkf|]. destruct Hrest. eauto.
Qed.
End loop.

(** ** copyuvm *)

Lemma kernel_pte_user data v : data_ok data → 0 ≤ v < UPAGES → kernel_pte data v = 0.
Proof.
  intros [Hm Hr] Hv. unfold KERNLINK, KERNBASE, EXTMEM, PHYSTOP, UPAGES, kernel_pte in *.
  by repeat (rewrite decide_False by zmod).
Qed.

(** The exhausted loop, seen from before [setupkvm]. *)
Lemma half_copied_exhausted s1 R R1 d v1 s' R' :
  half_copied s1 R1 d v1 s' R' → grows d (<[d := Dir]> R) R1 → exhausted R d 0 v1.
Proof.
  intros (_ & _ & _ & sx & Rx & x & Hvm & Ht & Hx) Hg. exists sx, Rx, d, x. split; [done|].
  intros p Hp. destruct (decide (p = d)) as [->|Hne]; [by left|right].
  destruct (Hg p) as [E|(_ & i & E)]; [|right; left; eauto].
  rewrite fn_lookup_insert_ne in E by done. rewrite Hp in E. by apply Hx.
Qed.

Lemma copied_page s s1 R R1 R2 m2 d0 d v1 v :
  vm_ok s R → R d0 = Dir → grows d (<[d := Dir]> R) R1 → R d = Free →
  same_data (pa_mem s) (pa_mem s1) R → same_entries (pa_mem s) (pa_mem s1) R →
  present (entry (pa_mem s) d0 v) = true → 0 ≤ v < UPAGES → 0 ≤ v < v1 →
  grown (pflags s1 d0) (pbytes s1 d0) (pa_mem s1) m2 R1 R2 d 0 v1 → vm_ok s1 R1 →
  ∃ p, R p = Free ∧ R2 p = Frame d v ∧
    entry m2 d v = V2P p + entry (pa_mem s) d0 v mod 4096 ∧
    ∀ x, 0 ≤ x < 4096 → m2 (p + x) = pa_mem s (frame (entry (pa_mem s) d0 v) + x).
Proof.
  intros [Hok Hfr] Hd0 Hg1 Hfd Hda He Hpr Hvu Hv Hg Hvm1.
  assert (0 ≤ v < VPAGES) as Hvv by (unfold UPAGES, VPAGES in *; lia).
  destruct (grown_page _ _ _ _ _ _ _ _ _ Hg v) as (p & Hp & Ep & Hby); [lia|]. exists p.
  assert (∀ w, R p ≠ Frame d w) as Hnf.
  { intros w E. destruct (proj2 Hfr p d w E). congruence. }
  assert (R p = Free) as Hfp.
  { destruct (grown_role _ _ _ _ _ _ _ _ _ Hg p) as [E|[E _]]; rewrite Hp in * || idtac.
    - symmetry in E. destruct (Hg1 p) as [E'|[E' _]].
      + destruct (decide (p = d)) as [->|]; [rewrite fn_lookup_insert in E'; congruence|].
        rewrite fn_lookup_insert_ne in E' by done. destruct (Hnf v). congruence.
      + destruct (decide (p = d)) as [->|]; [done|]. by rewrite fn_lookup_insert_ne in E'.
    - destruct (Hg1 p) as [E'|[E' _]]; destruct (decide (p = d)) as [->|]; try done;
        rewrite fn_lookup_insert_ne in E' by done; congruence. }
  assert (pa_page p) as Hpp by (by eapply pt_page_role).
  assert (R (frame (entry (pa_mem s) d0 v)) = Frame d0 v) as Hf by (by apply Hfr).
  assert (pa_page (frame (entry (pa_mem s) d0 v))) as Hpf by (by eapply pt_page_role).
  split; [done|]. split; [done|]. split.
  - rewrite Ep. unfold pflags. by rewrite He.
  - intros x Hx. rewrite Hby by (apply page_of_spec; [done|]; unfold in_page, PGSIZE; lia).
    replace (p + x - p) with x by lia. unfold pbytes. rewrite He by done. apply Hda.
    assert (page_of (frame (entry (pa_mem s) d0 v) + x) = frame (entry (pa_mem s) d0 v)) as ->
      by (apply page_of_spec; [done|]; unfold in_page, PGSIZE; lia). by rewrite Hf.
Qed.

(** Also: the pages of the copy are all taken from the free ones. *)
Lemma copyuvm_ok s R data d0 sz :
  vm_ok s R → data_ok data → R d0 = Dir → 0 ≤ sz ≤ KERNBASE →
  (∀ v, 0 ≤ v < pages_up sz → present (entry (pa_mem s) d0 v) = true) →
  ∃ d s' R', copyuvm data d0 sz s = Ok d s' ∧ vm_ok s' R' ∧
    same_data (pa_mem s) (pa_mem s') R ∧ same_entries (pa_mem s) (pa_mem s') R ∧
    ((R d = Free ∧ R' d = Dir ∧ takes d (<[d := Dir]> R) R' ∧
      (∀ v, 0 ≤ v < pages_up sz → ∃ p, R p = Free ∧ R' p = Frame d v ∧
         entry (pa_mem s') d v = V2P p + entry (pa_mem s) d0 v mod 4096 ∧
         ∀ x, 0 ≤ x < 4096 → pa_mem s' (p + x) = pa_mem s (frame (entry (pa_mem s) d0 v) + x)) ∧
      (∀ v, pages_up sz ≤ v < VPAGES → entry (pa_mem s') d v = kernel_pte data v)) ∨
     (d = 0 ∧ (∀ p, R' p = R p) ∧ few_free R (1026 + pages_up sz))).
Proof.
  intros Hvm Hdata Hd0 Hsz Hpar. unfold copyuvm.
  destruct (setupkvm_ok s R data) as (d & s1 & R1 & Hset & Hvm1 & Hda1 & He1 & Hcase); [done..|].
  assert (pages_up sz = Z.max 0 (pages_up sz - 0)) as Epu by (unfold pages_up; zmod).
  rewrite (bind_ok _ _ _ _ _ Hset). destruct Hcase as [(Hnz & Hfd & Hg1 & Hk)|(-> & HR & [d' Hex])].
  2: { exists 0, s1, R1. split_and!; try done. right. split; [done|]. split; [done|].
       rewrite Epu. apply (exhausted_bound R d'). destruct Hex as (sx & Rx & x & y & Hx1 & Hx2). exists sx, Rx, x, y. split; [done|].
       intros p Hp. destruct (Hx2 p Hp) as [?|[?|[?|(v & ? & _)]]]; [by left | right; by left | auto | lia]. }
  rewrite Hnz.
  assert (∀ q r, R q = r → r ≠ Free → R1 q = r) as Hkeep.
  { intros q r Hq Hr. eapply grows_role; [done| |done]. rewrite fn_lookup_insert_ne; congruence. }
  assert (R1 d = Dir) as Hd1 by (eapply grows_role; [done | apply fn_lookup_insert | done]).
  assert (∀ v, 0 ≤ v < pages_up sz → 0 ≤ v < UPAGES ∧ 0 ≤ v < VPAGES) as Hrange.
  { intros v Hv. unfold pages_up, UPAGES, VPAGES, KERNBASE in *. zmod. }
  destruct (copy_loop_ok s1 R1 d0 d sz (pages_up sz)) with
    (n := Z.to_nat (sz / PGSIZE + 1)) (fuel := S (Z.to_nat (sz / PGSIZE + 1))) (s := s1) (R := R1) (v := 0)
    as (b & s2 & R2 & Hl & Hvm2 & Hc); try done.
  { by apply Hkeep. } { congruence. }
  { intros v Hv. rewrite He1 by (done || by apply Hrange). auto. }
  { intros v Hv. rewrite Hk, kernel_pte_user by (done || by apply Hrange). done. }
  { lia. } { unfold PGSIZE, pages_up in *. zmod. } { unfold pages_up. zmod. } { apply grown_none. }
  rewrite Z.mul_0_r in Hl. rewrite (bind_ok _ _ _ _ _ Hl).
  destruct Hc as [[-> Hg]|[-> Hh]].
  - exists d, s2, R2. split; [done|]. split; [done|]. split; [|split; [|left]].
    + intros a Ha. assert (R (page_of a) ≠ Free) by (by apply plain_not_free).
      rewrite (grown_data _ _ _ _ _ _ _ _ _ Hg) by (by erewrite Hkeep). by apply Hda1.
    + intros d' v Hd' Hv. rewrite (grown_entry _ _ _ _ _ _ _ _ _ Hg); [by apply He1 | by apply Hkeep | done |].
      intros [-> _]. congruence.
    + split; [done|]. split; [by eapply grown_keeps|].
      split; [eapply takes_trans; [by apply grows_takes | by eapply grown_takes]|]. split.
      * intros v Hv. apply (copied_page s s1 R R1 R2 (pa_mem s2) d0 d (pages_up sz) v);
          auto; by apply Hrange.
      * intros v Hv. rewrite (grown_entry _ _ _ _ _ _ _ _ _ Hg); [apply Hk | done | | lia].
        all: unfold pages_up in *; zmod.
  - pose proof Hh as (Htk & Hot & Hda2 & _).
    assert (R2 d = Dir) as Hd2 by (by eapply takes_role).
    destruct (freevm_ok s2 R2 d) as (s3 & R3 & Hfv & Hvm3 & Hrel & Hda3 & Hot3); [done..|].
    assert (∀ p, R3 p = R p) as HR.
    { intros p. eapply undo_setup; [done | done | | done]. eapply takes_trans; [by apply grows_takes | done]. }
    rewrite (bind_ok _ _ _ _ _ Hfv). exists 0, s3, R3. split; [done|]. split; [done|]. split; [|split; [|right]].
    + intros a Ha. assert (R (page_of a) ≠ Free) by (by apply plain_not_free).
      rewrite Hda3, Hda2, Hda1; [done | done | by erewrite Hkeep | by rewrite HR].
    + intros d' v Hd' Hv. assert (d' ≠ d) by congruence.
      rewrite Hot3, Hot, He1; try done; [by apply Hkeep|]. eapply takes_role; [done | by apply Hkeep | done].
    + split; [done|]. split; [done|].
      rewrite Epu. apply (exhausted_bound R d). by eapply half_copied_exhausted.
Qed.

(** [copyuvm] makes a faithful, separate copy. Given a parent whose first
    [sz] bytes are mapped, the call either returns a new page directory whose
    user pages carry the parent's flags and bytes on frames of their own and
    whose kernel part is the standard one, or it returns 0, when the free
    pages did not suffice, with every page back where it was; the pages it
    takes were free, and the parent, the other address spaces and all other
    pages keep their roles and contents. *)
Theorem copyuvm_correct s R data d0 sz :
  vm_ok s R → data_ok data → R d0 = Dir → 0 ≤ sz ≤ KERNBASE →
  (∀ v, 0 ≤ v < pages_up sz → present (entry (pa_mem s) d0 v) = true) →
  ∃ d s' R', copyuvm data d0 sz s = Ok d s' ∧ vm_ok s' R' ∧
    same_data (pa_mem s) (pa_mem s') R ∧ same_entries (pa_mem s) (pa_mem s') R ∧
    ((R d = Free ∧ R' d = Dir ∧ takes d (<[d := Dir]> R) R' ∧
      (∀ v, 0 ≤ v < pages_up sz → ∃ p, R p = Free ∧ R' p = Frame d v ∧
         entry (pa_mem s') d v = V2P p + entry (pa_mem s) d0 v mod 4096 ∧
         ∀ x, 0 ≤ x < 4096 → pa_mem s' (p + x) = pa_mem s (frame (entry (pa_mem s) d0 v) + x)) ∧
      (∀ v, pages_up sz ≤ v < VPAGES → entry (pa_mem s') d v = kernel_pte data v)) ∨
     (d = 0 ∧ (∀ p, R' p = R p) ∧ few_free R (1026 + pages_up sz))).
Proof. apply copyuvm_ok. Qed.

(** ** copyout *)

(** The kernel address of a byte of user memory. *)
Definition uaddr (m : mem) (d va : Z) : Z := frame (entry m d (va / 4096)) + va mod 4096.

Definition user_page (e : Z) : bool := present e && truthy (Z.land e PTE_U).

Lemma uva2ka_ok s R word0 d va :
  vm_ok s R → R d = Dir → 0 ≤ va < KERNBASE → user_page word0 = false →
  uva2ka word0 d va s =
  Ok (if user_page (entry (pa_mem s) d (va / 4096)) then frame (entry (pa_mem s) d (va / 4096)) else 0) s.
Proof.
  intros [Hok _] Hd Hva Hw0. unfold KERNBASE in Hva. unfold uva2ka.
  assert (∀ e, (if negb (present e) then mret (M := M K) 0
     else if negb (truthy (Z.land e PTE_U)) then mret 0 else mret (P2V (PTE_ADDR e))) s =
     Ok (if user_page e then frame e else 0) s) as Hif.
  { intros e. unfold user_page, frame. by destruct (present e), (truthy (Z.land e PTE_U)). }
  destruct (slot_cases s R d (va / 4096)) as [[E E0]|[r Hs]]; [done | done | unfold VPAGES; zmod | |].
  - destruct (walk_noalloc s R d va) as (r & Hw & [[-> _]|[_ Hs]]); [done | done | lia | |].
    + rewrite (bind_ok _ _ _ _ _ Hw), bind_gets. change (0 =? 0) with true. cbv iota.
      by rewrite Hif, Hw0, E0.
    + destruct Hs as (t & Ht & _). destruct (pt_tab s R Hok _ _ _ Ht) as (_ & _ & E').
      assert (pa_page t) as Hp by (by eapply pt_page_role). pose proof (V2P_aligned t Hp). lia.
  - destruct (walk_hit s R d va 0 r) as [Hw Hr]; [done | lia | done |].
    rewrite (bind_ok _ _ _ _ _ Hw), bind_gets, Hr, Hif. by rewrite (entry_slot s R d (va / 4096) r).
Qed.

(** Exactly the bytes at user addresses [va .. va + len) of [d] changed. *)
Definition copied_out (m m' : mem) (d va buf len : Z) : Prop :=
  (∀ i, 0 ≤ i < len → m' (uaddr m d (va + i)) = m (buf + i)) ∧
  (∀ a, (∀ i, 0 ≤ i < len → a ≠ uaddr m d (va + i)) → m' a = m a).

(** The source is kernel memory, not a page of the destination. *)
Definition source_ok (R : Z → role) (d buf len : Z) : Prop :=
  ∀ i v, 0 ≤ i < len → R (page_of (buf + i)) ≠ Frame d v.

Lemma uaddr_page s R d va :
  vm_ok s R → R d = Dir → 0 ≤ va < KERNBASE → present (entry (pa_mem s) d (va / 4096)) = true →
  R (page_of (uaddr (pa_mem s) d va)) = Frame d (va / 4096) ∧
  page_of (uaddr (pa_mem s) d va) = frame (entry (pa_mem s) d (va / 4096)).
Proof.
  intros [Hok [H1 _]] Hd Hva Hpr. unfold KERNBASE in Hva.
  specialize (H1 d (va / 4096) Hd). assert (0 ≤ va / 4096 < UPAGES) as Hv by (unfold UPAGES; zmod).
  specialize (H1 Hv Hpr). assert (pa_page (frame (entry (pa_mem s) d (va / 4096)))) as Hp by (by eapply pt_page_role).
  assert (page_of (uaddr (pa_mem s) d va) = frame (entry (pa_mem s) d (va / 4096))) as ->.
  { apply page_of_spec; [done|]. unfold uaddr, in_page, PGSIZE. zmod. }
  done.
Qed.

Lemma uaddr_inj s R d va va' :
  vm_ok s R → R d = Dir → 0 ≤ va < KERNBASE → 0 ≤ va' < KERNBASE →
  present (entry (pa_mem s) d (va / 4096)) = true → present (entry (pa_mem s) d (va' / 4096)) = true →
  uaddr (pa_mem s) d va = uaddr (pa_mem s) d va' → va = va'.
Proof.
  intros Hvm Hd Hva Hva' Hp Hp' E.
  destruct (uaddr_page s R d va) as [E1 _]; [done..|]. destruct (uaddr_page s R d va') as [E2 _]; [done..|].
  rewrite E in E1. assert (va / 4096 = va' / 4096) as Ev by congruence.
  unfold uaddr in E. rewrite Ev in E. zmod.
Qed.

(** One round of the loop. *)
Lemma copyout_one s R d va buf n :
  vm_ok s R → R d = Dir → 0 ≤ va < KERNBASE → user_page (entry (pa_mem s) d (va / 4096)) = true →
  0 ≤ n → va mod 4096 + n ≤ 4096 →
  ∃ s', pa_write (λ m, memmove m (frame (entry (pa_mem s) d (va / 4096)) + va mod 4096) buf n) s = Ok () s' ∧
    vm_ok s' R ∧ same_entries (pa_mem s) (pa_mem s') R ∧ copied_out (pa_mem s) (pa_mem s') d va buf n.
Proof.
  intros Hvm Hd Hva Hup Hn Hle. apply andb_true_iff in Hup as [Hpr _].
  destruct (uaddr_page s R d va) as [Hrole Hpg]; [done..|]. rewrite Hpg in Hrole. fold (uaddr (pa_mem s) d va).
  set (f := frame (entry (pa_mem s) d (va / 4096))) in *. destruct Hvm as [Hok Hfr].
  assert (pa_page f) as Hp by (by eapply pt_page_role). pose proof (pt_wf s R Hok) as Hwf.
  assert (∀ i, 0 ≤ i < n → uaddr (pa_mem s) d (va + i) = uaddr (pa_mem s) d va + i) as Hua.
  { intros i Hi. unfold uaddr. replace ((va + i) / 4096) with (va / 4096) by zmod.
    replace ((va + i) mod 4096) with (va mod 4096 + i) by zmod. lia. }
  destruct (pt_write s R f (λ m, memmove m (uaddr (pa_mem s) d va) buf n)) as (s' & Hr & Hok' & Hs' & He).
  { done. } { by rewrite Hrole. }
  { intros a. simpl. rewrite memmove_byte by done. unfold moved. case_decide; apply Hwf. }
  { intros a Ha. simpl. rewrite memmove_byte by done. unfold moved. rewrite decide_False; [done|].
    intros Hr. apply Ha. apply page_of_spec; [done|]. unfold uaddr, in_page, PGSIZE in *. fold f in Hr. zmod. }
  exists s'. split; [done|]. split; [split; [done | by eapply frames_ext]|]. split; [done|]. split.
  - intros i Hi. rewrite Hua, Hs', memmove_byte by done. unfold moved. rewrite decide_True by lia.
    f_equal. lia.
  - intros a Ha. rewrite Hs', memmove_byte by done. unfold moved. case_decide as Hin; [|done].
    destruct (Ha (a - uaddr (pa_mem s) d va)); [lia|]. rewrite Hua by lia. lia.
Qed.

Lemma copied_out_app s R m1 m2 d va buf n k :
  vm_ok s R → R d = Dir → 0 ≤ va → 0 ≤ n → 0 ≤ k → va + n + k ≤ KERNBASE →
  (∀ i, 0 ≤ i < n + k → present (entry (pa_mem s) d ((va + i) / 4096)) = true) →
  source_ok R d buf (n + k) → same_entries (pa_mem s) m1 R →
  copied_out (pa_mem s) m1 d va buf n → copied_out m1 m2 d (va + n) (buf + n) k →
  copied_out (pa_mem s) m2 d va buf (n + k).
Proof.
  intros Hvm Hd Hva Hn Hk Hend Hpr Hsrc He [C1 F1] [C2 F2]. unfold KERNBASE in Hend.
  assert (∀ i, 0 ≤ i < n + k → uaddr m1 d (va + i) = uaddr (pa_mem s) d (va + i)) as Hua.
  { intros i Hi. unfold uaddr. rewrite He; [done | done |]. unfold VPAGES. zmod. }
  split.
  - intros i Hi. destruct (decide (i < n)) as [Hlt|Hge].
    + rewrite F2; [by apply C1; lia|]. intros j Hj. rewrite <- Z.add_assoc, Hua by lia. intros E.
      assert (va + i = va + (n + j)); [|lia].
      eapply uaddr_inj; [exact Hvm | done | | | apply Hpr; lia | apply Hpr; lia | done]; unfold KERNBASE; lia.
    + rewrite <- Hua by lia. replace (va + i) with (va + n + (i - n)) by lia.
      rewrite C2 by lia. replace (buf + n + (i - n)) with (buf + i) by lia. apply F1.
      intros j Hj E. apply (Hsrc i ((va + j) / 4096)); [lia|]. rewrite E.
      apply (uaddr_page s R d (va + j)); [done | done | unfold KERNBASE; lia | apply Hpr; lia].
  - intros a Ha. rewrite F2, F1; [done | |].
    + intros i Hi. apply Ha. lia.
    + intros i Hi. rewrite <- Z.add_assoc, Hua by lia. apply Ha. lia.
Qed.

Lemma copyout_loop_ok word0 R d n : ∀ fuel s va buf len,
  (n < fuel)%nat → (va + len + 4095) / 4096 - va / 4096 ≤ Z.of_nat n →
  vm_ok s R → R d = Dir → 0 ≤ va → 0 ≤ len → va + len ≤ KERNBASE → user_page word0 = false →
  source_ok R d buf len →
  ∃ r s' k, copyout_loop fuel word0 d va buf len s = Ok r s' ∧ vm_ok s' R ∧
    same_entries (pa_mem s) (pa_mem s') R ∧ copied_out (pa_mem s) (pa_mem s') d va buf k ∧
    (∀ i, 0 ≤ i < k → user_page (entry (pa_mem s) d ((va + i) / 4096)) = true) ∧
    ((r = 0 ∧ k = len) ∨
     (r = -1 ∧ 0 ≤ k < len ∧ user_page (entry (pa_mem s) d ((va + k) / 4096)) = false)).
Proof.
  induction n as [|n IH]; intros [|fuel] s va buf len Hf Hn Hvm Hd Hva Hlen Hend Hw0 Hsrc; [lia| |lia|];
    cbn [copyout_loop]; destruct (Z.eqb_spec len 0) as [->|Hnz].
  2: exfalso; zmod.
  1, 2: exists 0, s, 0; split_and!; [done | done | done | split; [lia | done] | lia | by left].
  unfold KERNBASE in Hend. rewrite PGROUNDDOWN_spec by lia.
  assert ((va - va mod 4096) / 4096 = va / 4096) as Ediv by zmod.
  assert (0 ≤ va - va mod 4096 < KERNBASE) as Hr by (unfold KERNBASE; zmod).
  pose proof (uva2ka_ok s R word0 d (va - va mod 4096) Hvm Hd Hr Hw0) as Hu. rewrite Ediv in Hu.
  rewrite (bind_ok _ _ _ _ _ Hu). clear Hu.
  destruct (user_page (entry (pa_mem s) d (va / 4096))) eqn:Hup.
  2: { exists (-1), s, 0. split_and!; [done | done | done | split; [lia | done] | lia |].
       right. split; [done|]. split; [lia|]. by rewrite Z.add_0_r. }
  assert (pa_page (frame (entry (pa_mem s) d (va / 4096)))) as Hp.
  { destruct (uaddr_page s R d va) as [E1 <-]; [done | done | unfold KERNBASE; lia | |].
    - by apply andb_true_iff in Hup as [? _].
    - eapply pt_page_role; [apply Hvm | done | done]. }
  rewrite page_nonzero by done. replace (va - (va - va mod 4096)) with (va mod 4096) by lia.
  set (c := if len <? PGSIZE - va mod 4096 then len else PGSIZE - va mod 4096).
  assert (0 < c ≤ len ∧ va mod 4096 + c ≤ 4096 ∧ (c = len ∨ va + c = va - va mod 4096 + 4096)) as (Hc1 & Hc2 & Hc3).
  { subst c. unfold PGSIZE. destruct (Z.ltb_spec len (4096 - va mod 4096)); zmod. }
  destruct (copyout_one s R d va buf c) as (s1 & Hw & Hvm1 & He1 & Hco1);
    [done | done | unfold KERNBASE; lia | done | lia | lia |].
  rewrite (bind_ok _ _ _ _ _ Hw). unfold PGSIZE. rewrite u32_small by zmod.
  destruct (IH fuel s1 (va - va mod 4096 + 4096) (buf + c) (len - c))
    as (r & s' & k & Hl & Hvm' & He' & Hco & Hus & Hcase).
  { lia. } { zmod. } { done. } { done. } { zmod. } { lia. } { unfold KERNBASE. zmod. } { done. }
  { intros i v Hi. rewrite <- Z.add_assoc. apply Hsrc. lia. }
  assert (∀ i, 0 ≤ i < c → (va + i) / 4096 = va / 4096) as Hsame by (intros; zmod).
  assert (0 ≤ k ≤ len - c) as Hk by (destruct Hcase as [[_ ->]|(_ & ? & _)]; lia).
  assert (∀ i, 0 ≤ i → c + i < len → entry (pa_mem s1) d ((va - va mod 4096 + 4096 + i) / 4096) =
    entry (pa_mem s) d ((va + (c + i)) / 4096)) as Hent.
  { intros i Hi Hci. destruct Hc3 as [?|Hc3]; [lia|].
    rewrite <- Hc3, <- Z.add_assoc. apply He1; [done|]. unfold VPAGES. zmod. }
  assert (∀ i, 0 ≤ i < c + k → user_page (entry (pa_mem s) d ((va + i) / 4096)) = true) as Hall.
  { intros i Hi. destruct (decide (i < c)); [by rewrite Hsame by lia|].
    replace i with (c + (i - c)) by lia. rewrite <- Hent by lia. apply Hus. lia. }
  exists r, s', (c + k). split; [exact Hl|]. split; [done|]. split; [|split; [|split; [done|]]].
  - intros d' v Hd' Hv. rewrite He', He1 by done. done.
  - eapply (copied_out_app s R (pa_mem s1)); try done; try lia; try (unfold KERNBASE; lia).
    + intros i Hi. apply Hall in Hi. by apply andb_true_iff in Hi as [? _].
    + intros i v Hi. apply Hsrc. lia.
    + destruct Hc3 as [Hc3|Hc3]; [|by rewrite Hc3]. replace k with 0 in * by lia.
      destruct Hco as [_ F]. split; [lia|]. intros a _. apply F. lia.
  - destruct Hcase as [[-> ->]|(-> & Hk' & Hb)]; [left; lia|right]. split; [done|]. split; [lia|].
    by rewrite <- Hent by lia.
Qed.

(** [copyout] writes user memory and nothing else. With [len] bytes of
    kernel memory at [p] and a range below [KERNBASE], it stops at the first
    page the user may not access; the bytes before it, and only those, are in
    place afterwards, on the frames the page tables name, and it returns 0
    exactly when all were. *)
Theorem copyout_correct s R word0 d va p len :
  vm_ok s R → R d = Dir → 0 ≤ va → 0 ≤ len → va + len ≤ KERNBASE → user_page word0 = false →
  source_ok R d p len →
  ∃ r s' k, copyout word0 d va p len s = Ok r s' ∧ vm_ok s' R ∧
    same_entries (pa_mem s) (pa_mem s') R ∧ copied_out (pa_mem s) (pa_mem s') d va p k ∧
    (∀ i, 0 ≤ i < k → user_page (entry (pa_mem s) d ((va + i) / 4096)) = true) ∧
    ((r = 0 ∧ k = len) ∨
     (r = -1 ∧ 0 ≤ k < len ∧ user_page (entry (pa_mem s) d ((va + k) / 4096)) = false)).
Proof.
  intros. unfold copyout. apply copyout_loop_ok with (n := Z.to_nat (len / PGSIZE + 2)); try done; [lia|].
  unfold PGSIZE. zmod.
Qed.
End copy.
