(* ===== verification/VmMain.v ===== *)
(** * Address spaces: the main theorems

    [growproc] of proc.c on top of vm.c, the statements about [mappages],
    [setupkvm] and [freevm] in terms of the hardware's walk, and a concrete
    machine on which all of them apply. *)
From stdpp Require Import functions.
From S2P Require Import Prelude Machine CString Spin Kalloc Vm VmSpec VmUser VmSpace VmCopy.
Import KString.

Section growproc.
Context {K : Type} `{PageAlloc K}.

(** [growproc(n)] for a process with page directory [pgdir] and size [sz]:
    the result and the size afterwards. *)
Definition growproc (pgdir sz n : Z) : M K (Z * Z) :=
  if 0 <? n then
    sz' ← allocuvm pgdir sz (u32 (sz + n));
    if sz' =? 0 then mret (-1, sz) else mret (0, sz')
  else if n <? 0 then
    sz' ← deallocuvm pgdir sz (u32 (sz + n));
    if sz' =? 0 then mret (-1, sz) else mret (0, sz')
  else mret (0, sz).

Lemma allocuvm_ok s R d oldsz newsz :
  vm_ok s R → R d = Dir → 0 ≤ oldsz ≤ newsz → newsz < KERNBASE →
  (∀ v, pages_up oldsz ≤ v < pages_up newsz → present (entry (pa_mem s) d v) = false) →
  ∃ r s' R', allocuvm d oldsz newsz s = Ok r s' ∧ vm_ok s' R' ∧
    ((r = newsz ∧ grown (λ _, 7) (λ _ _, 0) (pa_mem s) (pa_mem s') R R' d (pages_up oldsz) (pages_up newsz)) ∨
     (r = 0 ∧ undone s R d (pages_up oldsz) (pages_up newsz) s' R')).
Proof.
  intros Hvm Hd Hsz Hnew Habs. unfold allocuvm.
  destruct (Z.leb_spec KERNBASE newsz); [lia|]. destruct (Z.ltb_spec newsz oldsz); [lia|].
  unfold KERNBASE in *. rewrite PGROUNDUP_pages by lia.
  apply (alloc_loop_ok s R d oldsz newsz (pages_up oldsz) (pages_up newsz)) with
    (n := Z.to_nat (newsz / PGSIZE + 1)) (v := pages_up oldsz) (R := R); try done.
  - lia.
  - unfold PGSIZE, pages_up. zmod.
  - unfold pages_up. zmod.
  - apply grown_none.
Qed.

(** C15: [growproc] on every branch, for a process of size [sz] with nothing
    mapped above. Growing adds cleared pages on fresh frames, or, past
    [KERNBASE] or out of memory, returns -1 with the address space as it was
    (only page tables may have been added). Shrinking returns the frames
    above the new size to the allocator; shrinking by more than the size does
    nothing and reports success (unless the size is zero); shrinking to zero frees everything and then
    reports failure, with the size field unchanged. *)
Theorem growproc_correct s R d sz n :
  vm_ok s R → R d = Dir → 0 ≤ sz < KERNBASE → -2147483648 ≤ n < 2147483648 →
  (∀ v, pages_up sz ≤ v < UPAGES → present (entry (pa_mem s) d v) = false) →
  (n = 0 → growproc d sz n s = Ok (0, sz) s) ∧
  (0 < n → KERNBASE ≤ sz + n → growproc d sz n s = Ok (-1, sz) s) ∧
  (0 < n → sz + n < KERNBASE → ∃ s' R', vm_ok s' R' ∧
     ((growproc d sz n s = Ok (0, sz + n) s' ∧
       grown (λ _, 7) (λ _ _, 0) (pa_mem s) (pa_mem s') R R' d (pages_up sz) (pages_up (sz + n))) ∨
      (growproc d sz n s = Ok (-1, sz) s' ∧ grows d R R' ∧
       unmapped (pa_mem s) (pa_mem s') R d (pages_up sz) (pages_up (sz + n)) ∧
       same_data (pa_mem s) (pa_mem s') R ∧
       few_free R (1026 + (pages_up (sz + n) - pages_up sz))))) ∧
  (n < 0 → sz + n < 0 → growproc d sz n s = Ok (if sz =? 0 then -1 else 0, sz) s) ∧
  (n < 0 → 0 ≤ sz + n → ∃ s' R',
     growproc d sz n s = Ok (if sz + n =? 0 then (-1, sz) else (0, sz + n)) s' ∧
     freed_range s s' R R' d (pages_up (sz + n)) (pages_up sz)).
Proof.
  intros Hvm Hd Hsz Hn Habs. unfold growproc. split_and!.
  - by intros ->.
  - intros Hpos Hbig. destruct (Z.ltb_spec 0 n); [|lia]. unfold KERNBASE in *. rewrite u32_small by lia.
    unfold allocuvm. unfold KERNBASE. destruct (Z.leb_spec 0x80000000 (sz + n)); [done|lia].
  - intros Hpos Hfit. destruct (Z.ltb_spec 0 n); [|lia]. rewrite u32_small by (unfold KERNBASE in *; lia).
    assert (pages_up sz ≤ pages_up (sz + n) ≤ UPAGES) as Hpu by (unfold pages_up, UPAGES, KERNBASE in *; zmod).
    destruct (allocuvm_ok s R d sz (sz + n)) as (r & s' & R' & Ha & Hvm' & Hc); [done | done | lia | done | |].
    { intros v Hv. apply Habs. lia. }
    exists s', R'. split; [done|]. rewrite (bind_ok _ _ _ _ _ Ha).
    destruct Hc as [[-> Hg]|(-> & Hgr & Hun & Hda & Hex)]; [left|right].
    + destruct (Z.eqb_spec (sz + n) 0); [lia|]. done.
    + split_and!; try done. apply exhausted_bound in Hex. by replace (Z.max 0 _) with (pages_up (sz + n) - pages_up sz) in Hex by lia.
  - intros Hneg Hlow. destruct (Z.ltb_spec 0 n); [lia|]. destruct (Z.ltb_spec n 0); [|lia].
    unfold KERNBASE in *. assert (u32 (sz + n) = sz + n + 4294967296) as -> by (unfold u32; zmod).
    unfold deallocuvm. destruct (Z.leb_spec sz (sz + n + 4294967296)); [|lia].
    rewrite bind_ret. by destruct (sz =? 0).
  - intros Hneg Hlow. destruct (Z.ltb_spec 0 n); [lia|]. destruct (Z.ltb_spec n 0); [|lia].
    rewrite u32_small by (unfold KERNBASE in *; lia).
    destruct (deallocuvm_ok s R d sz (sz + n)) as (s' & R' & Hde & Hfr); [done | done | lia | lia |].
    exists s', R'. split; [|done]. rewrite (bind_ok _ _ _ _ _ Hde). by destruct (Z.eqb_spec (sz + n) 0).
Qed.

(** [mappages] maps exactly its range. For a range of [n] pages none of
    which is mapped it sets the entry of page [i] of the range to physical
    page [pa + i * PGSIZE] with the given permissions, changes no other entry
    of any address space and no page but page tables, and returns 0; or, out
    of memory, it stops after a prefix and returns -1. It panics on a page
    that is mapped already. *)
Theorem mappages_correct s R d va size pa perm n :
  pt_ok s R → R d = Dir → 0 ≤ va → 0 < size → va + size ≤ 4294967296 →
  n = (va + size - 1) / 4096 - va / 4096 + 1 →
  pa mod 4096 = 0 → 0 ≤ pa → pa + 4096 * n ≤ 4294967296 → 0 ≤ perm < 4096 →
  ((∀ v, va / 4096 ≤ v < va / 4096 + n → present (entry (pa_mem s) d v) = false) →
   ∃ k r s' R', mappages d va size pa perm s = Ok r s' ∧
     pt_ok s' R' ∧ grows d R R' ∧ same_data (pa_mem s) (pa_mem s') R ∧
     mapped (pa_mem s) (pa_mem s') R d (va / 4096) k pa perm ∧
     ((r = 0 ∧ k = n) ∨ (r = -1 ∧ 0 ≤ k < n ∧ ∀ p, R' p ≠ Free))) ∧
  (present (entry (pa_mem s) d (va / 4096)) = true → mappages d va size pa perm s = Panic "remap").
Proof.
  intros. split; [intros; by eapply mappages_ok|]. intros. eapply mappages_remap; [done | done | lia | done].
Qed.

(** [setupkvm] builds the kernel's part of an address space: all entries
    of the new directory are those of the [kmap] table, on pages that were
    free; no other address space and no other page changes. Out of memory it
    returns 0 and every page is back where it was. *)
Theorem setupkvm_correct s R data :
  vm_ok s R → data_ok data →
  ∃ d s' R', setupkvm data s = Ok d s' ∧ vm_ok s' R' ∧
    same_data (pa_mem s) (pa_mem s') R ∧ same_entries (pa_mem s) (pa_mem s') R ∧
    ((d ≠ 0 ∧ R d = Free ∧ grows d (<[d := Dir]> R) R' ∧
      ∀ v, 0 ≤ v < VPAGES → entry (pa_mem s') d v = kernel_pte data v) ∨
     (d = 0 ∧ (∀ p, R' p = R p) ∧ few_free R 1026)).
Proof.
  intros Hvm Hdata. destruct (setupkvm_ok s R data) as (d & s' & R' & Hs & Hvm' & Hda & He & Hc); [done..|].
  exists d, s', R'. split_and!; try done. destruct Hc as [(Hz & Hr)|(-> & HR & d' & Hex)]; [left|right].
  - split; [by apply Z.eqb_neq|done].
  - split_and!; try done. apply (exhausted_bound _ _ _ _ Hex).
Qed.

(** [freevm] frees an address space without a leak and without freeing
    anything else: the directory, all its page tables and all its user frames
    become free pages, every other page keeps its role and contents, and the
    other address spaces their entries. *)
Theorem freevm_correct s R d :
  vm_ok s R → R d = Dir →
  ∃ s' R', freevm d s = Ok () s' ∧ vm_ok s' R' ∧ released d R R' ∧
    same_data (pa_mem s) (pa_mem s') R' ∧ others_same d (pa_mem s) (pa_mem s') R.
Proof. apply freevm_ok. Qed.

(** Without a page table [uva2ka] follows the word at address 0 as if it were
    a page-table entry. *)
Theorem uva2ka_follows_null s R word0 d va :
  vm_ok s R → R d = Dir → 0 ≤ va < KERNBASE → pde (pa_mem s) d (va / 4096 / 1024) = 0 →
  uva2ka word0 d va s = Ok (if user_page word0 then frame word0 else 0) s.
Proof.
  intros [Hok _] Hd Hva Hz. unfold KERNBASE in Hva.
  destruct (walk_noalloc s R d va) as (r & Hw & [[-> _]|[_ Hs]]); [done | done | lia | |].
  - unfold uva2ka. rewrite (bind_ok _ _ _ _ _ Hw), bind_gets. unfold user_page, frame. simpl.
    by destruct (present word0), (truthy (Z.land word0 PTE_U)).
  - destruct Hs as (t & Ht & _). destruct (pt_tab s R Hok _ _ _ Ht) as (_ & _ & E).
    assert (pa_page t) as Hp by (by eapply pt_page_role). pose proof (V2P_aligned t Hp). lia.
Qed.
End growproc.

(** ** A concrete machine *)

(** One process with one page: its directory, page table and frame, and one
    free page. *)
Definition ex_dir : Z := 0x80300000.
Definition ex_table : Z := 0x80301000.
Definition ex_frame : Z := 0x80302000.
Definition ex_free : Z := 0x80400000.

Lemma ex_above : KERNBASE < 0x80200000.
Proof. done. Qed.

#[local] Instance ex_alloc : PageAlloc ((mach * spinlock) * kmem) := kmem_alloc 0x80200000 ex_above.

Definition ex_mem : mem :=
  store32 (store32 (λ _, 0) (ex_dir + 4 * 0) (V2P ex_table + 7)) (ex_table + 4 * 0) (V2P ex_frame + 7).

Definition ex_state : (mach * spinlock) * kmem := (lock_example, Kmem true ex_free ex_mem).

Definition ex_roles : Z → role :=
  <[ex_free := Free]> (<[ex_frame := Frame ex_dir 0]> (<[ex_table := Table ex_dir 0]>
    (<[ex_dir := Dir]> (λ _, Other)))).

Lemma ex_load q j :
  pa_page q → 0 ≤ j < 1024 →
  load32 ex_mem (q + 4 * j) =
  if decide (ex_table = q ∧ 0 = j) then V2P ex_frame + 7
  else if decide (ex_dir = q ∧ 0 = j) then V2P ex_table + 7 else 0.
Proof.
  intros Hq Hj. unfold ex_mem. rewrite load_store_entry; [|done | done | done | done | done].
  case_decide; [done|]. rewrite load_store_entry; [|done | done | done | done | done].
  by case_decide.
Qed.

Lemma ex_role_cases p r :
  ex_roles p = r → r ≠ Other →
  (p = ex_free ∧ r = Free) ∨ (p = ex_frame ∧ r = Frame ex_dir 0) ∨
  (p = ex_table ∧ r = Table ex_dir 0) ∨ (p = ex_dir ∧ r = Dir).
Proof.
  unfold ex_roles. intros <- Hr. revert Hr.
  destruct (decide (p = ex_free)) as [->|]; [rewrite fn_lookup_insert; auto|].
  rewrite fn_lookup_insert_ne by done.
  destruct (decide (p = ex_frame)) as [->|]; [rewrite fn_lookup_insert; auto|].
  rewrite fn_lookup_insert_ne by done.
  destruct (decide (p = ex_table)) as [->|]; [rewrite fn_lookup_insert; auto 6|].
  rewrite fn_lookup_insert_ne by done.
  destruct (decide (p = ex_dir)) as [->|]; [rewrite fn_lookup_insert; auto 6|].
  by rewrite fn_lookup_insert_ne.
Qed.

Lemma ex_entry v : 0 ≤ v < VPAGES → entry ex_mem ex_dir v = if decide (v = 0) then V2P ex_frame + 7 else 0.
Proof.
  intros Hv. unfold VPAGES in Hv. unfold entry, pde. rewrite ex_load by (done || zmod).
  rewrite decide_False by (intros [E _]; done).
  destruct (decide (v / 1024 = 0)) as [E0|E0].
  - rewrite decide_True by done. rewrite present_page, frame_page by done.
    change (present 7) with true. cbv iota. rewrite ex_load by (done || zmod).
    destruct (decide (v = 0)) as [->|]; [done|].
    rewrite decide_False by (intros [_ E]; zmod). by rewrite decide_False by (intros [E _]; done).
  - rewrite decide_False by (intros [_ E]; lia). rewrite decide_False by zmod. done.
Qed.

Lemma ex_wf : wf_mem ex_mem.
Proof. apply store32_wf, store32_wf. intros a. lia. Qed.

Lemma ex_vm_ok : vm_ok ex_state ex_roles.
Proof.
  assert (ex_roles ex_dir = Dir) as Hdir by done.
  split; split.
  - exists [ex_free]. split.
    + split; [|intros _; apply lock_example_ready]. split_and!; simpl.
      * apply ex_wf.
      * done.
      * repeat constructor; done.
      * apply NoDup_singleton.
    + intros p. rewrite list_elem_of_singleton. split; [by intros ->|]. intros Hp.
      apply ex_role_cases in Hp as [[? _]|[[_ ?]|[[_ ?]|[_ ?]]]]; done.
  - intros p Hp. destruct (ex_role_cases p (ex_roles p)) as [[-> _]|[[-> _]|[[-> _]|[-> _]]]]; done.
  - intros d i Hd Hi. apply ex_role_cases in Hd as [[_ ?]|[[_ ?]|[[_ ?]|[-> _]]]]; try done.
    change (pa_mem ex_state) with ex_mem. unfold pde. rewrite ex_load by done.
    rewrite decide_False by (intros [E _]; done). case_decide as E; [right|by left].
    exists ex_table. destruct E as [_ <-]. done.
  - intros t d i Ht. apply ex_role_cases in Ht as [[_ ?]|[[_ ?]|[[-> E]|[_ ?]]]]; try done.
    injection E as -> ->. split; [done|]. split; [lia|]. change (pa_mem ex_state) with ex_mem.
    unfold pde. rewrite ex_load by done. rewrite decide_False by (intros [E _]; done). by rewrite decide_True.
  - intros d v Hd Hv. apply ex_role_cases in Hd as [[_ ?]|[[_ ?]|[[_ ?]|[-> _]]]]; try done.
    change (pa_mem ex_state) with ex_mem. rewrite ex_entry by (unfold UPAGES, VPAGES in *; lia).
    case_decide as E; [|done]. intros _. rewrite frame_page by done. by subst.
  - intros p d v Hp. apply ex_role_cases in Hp as [[_ ?]|[[-> E]|[[_ ?]|[_ ?]]]]; try done.
    injection E as -> ->. split; [done|]. split; [done|]. change (pa_mem ex_state) with ex_mem.
    rewrite ex_entry by done. rewrite decide_True by done. by rewrite present_page, frame_page.
Qed.

Lemma ex_data_ok : data_ok 0x80108000.
Proof. done. Qed.

Lemma ex_abs v : 1 ≤ v < UPAGES → present (entry (pa_mem ex_state) ex_dir v) = false.
Proof.
  intros Hv. change (pa_mem ex_state) with ex_mem.
  rewrite ex_entry by (unfold UPAGES, VPAGES in *; lia). by rewrite decide_False by lia.
Qed.

Lemma growproc_correct_witness :
  (∃ s' R', growproc ex_dir 4096 (-4096) ex_state = Ok (-1, 4096) s' ∧
     freed_range ex_state s' ex_roles R' ex_dir 0 1) ∧
  (∃ s' R', growproc ex_dir 4096 (-100) ex_state = Ok (0, 3996) s' ∧
     freed_range ex_state s' ex_roles R' ex_dir 1 1).
Proof.
  split.
  - destruct (growproc_correct ex_state ex_roles ex_dir 4096 (-4096)) as (_ & _ & _ & _ & Hs).
    { apply ex_vm_ok. } { done. } { done. } { lia. } { intros v Hv. by apply ex_abs. }
    apply Hs; lia.
  - destruct (growproc_correct ex_state ex_roles ex_dir 4096 (-100)) as (_ & _ & _ & _ & Hs).
    { apply ex_vm_ok. } { done. } { done. } { lia. } { intros v Hv. by apply ex_abs. }
    apply Hs; lia.
Defined.

Lemma mappages_correct_witness :
  mappages ex_dir 0 PGSIZE (V2P ex_free) 6 ex_state = Panic "remap".
Proof.
  refine (proj2 (mappages_correct ex_state ex_roles ex_dir 0 PGSIZE (V2P ex_free) 6 1 _ _ _ _ _ _ _ _ _ _) _).
  { apply ex_vm_ok. } { done. } { done. } { done. } { done. } { done. } { done. } { done. } { done. } { done. }
  change (pa_mem ex_state) with ex_mem. by rewrite ex_entry.
Defined.

Lemma setupkvm_correct_witness :
  ∃ d s' R', setupkvm 0x80108000 ex_state = Ok d s' ∧ vm_ok s' R' ∧
    same_data (pa_mem ex_state) (pa_mem s') ex_roles ∧
    same_entries (pa_mem ex_state) (pa_mem s') ex_roles ∧
    ((d ≠ 0 ∧ ex_roles d = Free ∧ grows d (<[d := Dir]> ex_roles) R' ∧
      ∀ v, 0 ≤ v < VPAGES → entry (pa_mem s') d v = kernel_pte 0x80108000 v) ∨
     (d = 0 ∧ (∀ p, R' p = ex_roles p) ∧ few_free ex_roles 1026)).
Proof. exact (setupkvm_correct ex_state ex_roles 0x80108000 ex_vm_ok ex_data_ok). Defined.

Lemma freevm_correct_witness :
  ∃ s' R', freevm ex_dir ex_state = Ok () s' ∧ vm_ok s' R' ∧
    R' ex_dir = Free ∧ R' ex_table = Free ∧ R' ex_frame = Free ∧ R' ex_free = Free.
Proof.
  destruct (freevm_correct ex_state ex_roles ex_dir ex_vm_ok) as (s' & R' & Hf & Hvm & Hr & _); [done|].
  exists s', R'. split; [exact Hf|]. split; [exact Hvm|].
  rewrite !Hr. repeat split.
Defined.

Lemma copyuvm_correct_witness :
  ∃ d s' R', copyuvm 0x80108000 ex_dir 4096 ex_state = Ok d s' ∧ vm_ok s' R' ∧
    same_data (pa_mem ex_state) (pa_mem s') ex_roles.
Proof.
  destruct (copyuvm_correct ex_state ex_roles 0x80108000 ex_dir 4096) as (d & s' & R' & Hc & Hvm & Hda & _).
  { apply ex_vm_ok. } { apply ex_data_ok. } { done. } { done. }
  { intros v Hv. change (pages_up 4096) with 1 in Hv. replace v with 0 by lia. by rewrite ex_entry. }
  exists d, s', R'. exact (conj Hc (conj Hvm Hda)).
Defined.

Lemma copyout_correct_witness :
  ∃ s', copyout 0 ex_dir 100 ex_free 8 ex_state = Ok 0 s' ∧
    copied_out (pa_mem ex_state) (pa_mem s') ex_dir 100 ex_free 8.
Proof.
  destruct (copyout_correct ex_state ex_roles 0 ex_dir 100 ex_free 8) as (r & s' & k & Hc & _ & _ & Hco & _ & Hr).
  { apply ex_vm_ok. } { done. } { done. } { done. } { done. } { done. }
  { intros i v Hi. assert (page_of (ex_free + i) = ex_free) as -> by (unfold page_of, ex_free, PGSIZE; zmod).
    done. }
  destruct Hr as [[-> ->]|(-> & Hk & Hb)]; [exists s'; exact (conj Hc Hco)|].
  exfalso. revert Hb. replace ((100 + k) / 4096) with 0 by zmod. change (pa_mem ex_state) with ex_mem.
  clear. by rewrite ex_entry.
Defined.
