(* ===== verification/FsBlock.v ===== *)
(** * File system: disk blocks (fs.c)

    The block layer of the file system: the superblock, clearing, allocating
    and freeing blocks, over an interface [BlockStore] to blocks read and
    logged inside a transaction. There is one device, so the [dev] arguments
    are left out. *)
From stdpp Require Import functions.
From S2P Require Import Prelude Machine CString Bio.
Import KString.

(** ** On-disk format (fs.h) *)

Definition ROOTINO : Z := 1.
Definition NDIRECT : Z := 12.
Definition NINDIRECT : Z := BSIZE / 4.
Definition MAXFILE : Z := NDIRECT + NINDIRECT.
(** [sizeof(struct dinode)] *)
Definition DINODE_SIZE : Z := 64.
Definition IPB : Z := BSIZE / DINODE_SIZE.
Definition BPB : Z := BSIZE * 8.
Definition DIRSIZ : Z := 14.

Record superblock := Superblock {
  sb_size : Z;
  sb_nblocks : Z;
  sb_ninodes : Z;
  sb_nlog : Z;
  sb_logstart : Z;
  sb_inodestart : Z;
  sb_bmapstart : Z
}.

Definition IBLOCK (i : Z) (sb : superblock) : Z := i / IPB + sb_inodestart sb.
Definition BBLOCK (b : Z) (sb : superblock) : Z := b / BPB + sb_bmapstart sb.

(** ** Blocks inside a transaction *)

(** What the file system relies on: [bs_read] is [bread] and locks a block's buffer, [bs_view]
    is the contents it shows, [bs_update] changes the contents and passes the
    buffer to [log_write], [bs_release] is [brelse] and unlocks it. A
    transaction holds at most [bs_cap] distinct blocks, from [bs_first], the
    block after the log, on, and a thread three buffers at a time. *)
Class BlockStore (S : Type) := {
  bs_inv : S → Prop;
  bs_view : S → Z → block;
  bs_held : S → gset Z;
  bs_logged : S → gset Z;
  bs_cap : nat;
  bs_first : Z;
  bs_read : Z → M S ();
  bs_update : Z → block → M S ();
  bs_release : Z → M S ();

  bs_read_ok s b :
    bs_inv s → bs_first ≤ b < FSSIZE → b ∉ bs_held s → (size (bs_held s) < 3)%nat →
    ∃ s', bs_read b s = Ok () s' ∧ bs_inv s' ∧ (∀ x, bs_view s' x = bs_view s x) ∧
      bs_held s' = {[b]} ∪ bs_held s ∧ bs_logged s' = bs_logged s;
  bs_update_ok s b v :
    bs_inv s → b ∈ bs_held s → (size ({[b]} ∪ bs_logged s) ≤ bs_cap)%nat →
    ∃ s', bs_update b v s = Ok () s' ∧ bs_inv s' ∧
      (∀ x, bs_view s' x = if x =? b then v else bs_view s x) ∧
      bs_held s' = bs_held s ∧ bs_logged s' = {[b]} ∪ bs_logged s;
  bs_release_ok s b :
    bs_inv s → b ∈ bs_held s →
    ∃ s', bs_release b s = Ok () s' ∧ bs_inv s' ∧ (∀ x, bs_view s' x = bs_view s x) ∧
      bs_held s' = bs_held s ∖ {[b]} ∧ bs_logged s' = bs_logged s
}.

(** ** Roles of blocks *)

(** Outside the data area, free, in use, the block [bn] of file [inum], or
    its indirect block. *)
Inductive brole := BMeta | BFree | BOther | BData (inum bn : Z) | BInd (inum : Z).

#[export] Instance brole_eq_dec : EqDecision brole.
Proof. solve_decision. Defined.

(** The bit the code tests with [1 << k]. *)
Lemma land_bit z k : 0 ≤ k → (Z.land z (Z.shiftl 1 k) =? 0) = negb (Z.testbit z k).
Proof.
  intros Hk. destruct (Z.testbit z k) eqn:E; simpl.
  - apply Z.eqb_neq. intros E0. assert (Z.testbit (Z.land z (Z.shiftl 1 k)) k = true) as Et.
    { rewrite Z.land_spec, E, Z.shiftl_spec, Z.sub_diag by done. done. }
    by rewrite E0, Z.bits_0 in Et.
  - apply Z.eqb_eq. apply Z.bits_inj'. intros i Hi. rewrite Z.land_spec, Z.shiftl_spec, Z.bits_0 by done.
    destruct (decide (i = k)) as [->|Hne]; [by rewrite E|].
    destruct (Z.ltb_spec i k); [by rewrite (Z.testbit_neg_r 1), andb_false_r by lia|].
    change 1 with (2 ^ 0). rewrite Z.pow2_bits_false by lia. by rewrite andb_false_r.
Qed.

Lemma u8_testbit z i : 0 ≤ i < 8 → Z.testbit (u8 z) i = Z.testbit z i.
Proof. intros Hi. unfold u8. change 256 with (2 ^ 8). apply Z.mod_pow2_bits_low. lia. Qed.

Lemma set_bit z k i : 0 ≤ k < 8 → 0 ≤ i < 8 →
  Z.testbit (u8 (Z.lor z (Z.shiftl 1 k))) i = (i =? k) || Z.testbit z i.
Proof.
  intros Hk Hi. rewrite u8_testbit, Z.lor_spec, Z.shiftl_spec by lia.
  destruct (Z.eqb_spec i k) as [->|Hne]; [by rewrite Z.sub_diag, orb_true_r|].
  destruct (Z.ltb_spec i k); [by rewrite (Z.testbit_neg_r 1), orb_false_r by lia|].
  change 1 with (2 ^ 0) at 1. rewrite Z.pow2_bits_false by lia. apply orb_false_r.
Qed.

Lemma clear_bit z k i : 0 ≤ k < 8 → 0 ≤ i < 8 →
  Z.testbit (u8 (Z.land z (Z.lnot (Z.shiftl 1 k)))) i = negb (i =? k) && Z.testbit z i.
Proof.
  intros Hk Hi. rewrite u8_testbit, Z.land_spec, Z.lnot_spec, Z.shiftl_spec by lia.
  destruct (Z.eqb_spec i k) as [->|Hne]; [rewrite Z.sub_diag; apply andb_false_r|].
  destruct (Z.ltb_spec i k); [by rewrite (Z.testbit_neg_r 1), andb_true_r by lia|].
  change 1 with (2 ^ 0) at 1. rewrite Z.pow2_bits_false by lia. apply andb_true_r.
Qed.

(** The least index at which a test fails. *)
Lemma find_first (f : Z → bool) (n : nat) :
  (∀ i, 0 ≤ i < Z.of_nat n → f i = true) ∨
  ∃ k, 0 ≤ k < Z.of_nat n ∧ f k = false ∧ ∀ i, 0 ≤ i < k → f i = true.
Proof.
  induction n as [|n [IH|(k & Hk & Hf & Hb)]]; [left; lia| |].
  - destruct (f (Z.of_nat n)) eqn:E.
    + left. intros i Hi. destruct (decide (i = Z.of_nat n)) as [->|]; [done|]. apply IH. lia.
    + right. exists (Z.of_nat n). split; [lia|]. done.
  - right. exists k. split; [lia|]. done.
Qed.

(** Loops whose first rounds do nothing. *)
Lemma for_until_none {S A R} (l : list A) (body : A → M S (option R)) s :
  (∀ x, x ∈ l → body x s = Ok None s) → for_until l body s = Ok None s.
Proof.
  induction l as [|x l IH]; intros Hl; cbn [for_until]; [done|].
  rewrite (bind_ok _ _ _ _ _ (Hl x ltac:(left))). apply IH. intros y Hy. apply Hl. by right.
Qed.

Lemma for_until_skip {S A R} (l1 l2 : list A) (body : A → M S (option R)) s :
  (∀ x, x ∈ l1 → body x s = Ok None s) → for_until (l1 ++ l2) body s = for_until l2 body s.
Proof.
  induction l1 as [|x l IH]; intros Hl; [done|]. cbn [app for_until].
  rewrite (bind_ok _ _ _ _ _ (Hl x ltac:(left))). apply IH. intros y Hy. apply Hl. by right.
Qed.

Lemma seqZ_split n k : 0 ≤ k < n → seqZ 0 n = seqZ 0 k ++ k :: seqZ (k + 1) (n - k - 1).
Proof.
  intros Hk. replace n with (k + (n - k)) at 1 by lia. rewrite seqZ_app by lia.
  f_equal. rewrite Z.add_0_l, seqZ_cons by lia. by f_equal.
Qed.

Section blocks.
Context {S : Type} `{BlockStore S}.

Definition bs_get (b : Z) : M S block := gets (λ s, bs_view s b).

(** The fields of the superblock as they lie in block 1. *)
Definition decode_sb (d : block) : superblock :=
  Superblock (load32 d 0) (load32 d 4) (load32 d 8) (load32 d 12) (load32 d 16)
    (load32 d 20) (load32 d 24).

Definition readsb : M S superblock :=
  bs_read 1;; d ← bs_get 1; bs_release 1;; mret (decode_sb d).

Definition bzero (bno : Z) : M S () :=
  bs_read bno;;
  d ← bs_get bno;
  bs_update bno (memset d 0 0 BSIZE);;
  bs_release bno.

Variable sb : superblock.

(** The bits of one bitmap block; [b] is the block number of the first. *)
Definition balloc_bit (b bi : Z) : M S (option Z) :=
  d ← bs_get (BBLOCK b sb);
  let m := Z.shiftl 1 (bi mod 8) in
  if Z.land (d (bi / 8)) m =? 0 then
    bs_update (BBLOCK b sb) (store8 d (bi / 8) (Z.lor (d (bi / 8)) m));;
    bs_release (BBLOCK b sb);;
    bzero (b + bi);;
    mret (Some (b + bi))
  else mret None.

Definition balloc_block (b : Z) : M S (option Z) :=
  bs_read (BBLOCK b sb);;
  r ← for_until (seqZ 0 (Z.min BPB (sb_size sb - b))) (balloc_bit b);
  match r with
  | Some x => mret (Some x)
  | None => bs_release (BBLOCK b sb);; mret None
  end.

Definition balloc : M S Z :=
  r ← for_until (seqZ 0 ((sb_size sb + BPB - 1) / BPB)) (λ k, balloc_block (k * BPB));
  match r with
  | Some x => mret x
  | None => panic "balloc: out of blocks"
  end.

Definition bfree (b : Z) : M S () :=
  bs_read (BBLOCK b sb);;
  d ← bs_get (BBLOCK b sb);
  let bi := b mod BPB in
  let m := Z.shiftl 1 (bi mod 8) in
  if Z.land (d (bi / 8)) m =? 0 then panic "freeing free block"
  else
    bs_update (BBLOCK b sb) (store8 d (bi / 8) (Z.land (d (bi / 8)) (Z.lnot m)));;
    bs_release (BBLOCK b sb).

(** ** Read-modify-write *)

Implicit Types (s : S) (v : Z → block) (b x : Z).

Lemma held_back (X : gset Z) b : b ∉ X → ({[b]} ∪ X) ∖ {[b]} = X.
Proof. set_solver. Qed.

Lemma held_here (X : gset Z) b : b ∈ {[b]} ∪ X.
Proof. set_solver. Qed.

Lemma bs_get_bind {A} b (f : block → M S A) s : (bs_get b ≫= f) s = f (bs_view s b) s.
Proof. done. Qed.

Definition fits (s : S) (X : gset Z) : Prop := (size (X ∪ bs_logged s) ≤ bs_cap)%nat.

(** Reading a block between [bread] and [brelse]. *)
Lemma read_release_ok {A} s b (f : block → M S A) :
  bs_inv s → bs_first ≤ b < FSSIZE → b ∉ bs_held s → (size (bs_held s) < 3)%nat →
  ∃ s', bs_inv s' ∧ (∀ x, bs_view s' x = bs_view s x) ∧ bs_held s' = bs_held s ∧
    bs_logged s' = bs_logged s ∧
    (bs_read b;; d ← bs_get b; bs_release b;; f d) s = f (bs_view s b) s'.
Proof.
  intros Hi Hb Hh Hn. destruct (bs_read_ok s b Hi Hb Hh Hn) as (s1 & E1 & I1 & V1 & H1 & L1).
  destruct (bs_release_ok s1 b I1) as (s2 & E2 & I2 & V2 & H2 & L2); [rewrite H1; apply held_here|].
  exists s2. split_and!; [done | by intros; rewrite V2, V1 | by rewrite H2, H1, held_back | by rewrite L2 |].
  rewrite (bind_ok _ _ _ _ _ E1), bs_get_bind, (bind_ok _ _ _ _ _ E2). by rewrite V1.
Qed.

Lemma rmw_ok s b (f : block → block) :
  bs_inv s → bs_first ≤ b < FSSIZE → b ∉ bs_held s → (size (bs_held s) < 3)%nat → fits s {[b]} →
  ∃ s', (bs_read b;; d ← bs_get b; bs_update b (f d);; bs_release b) s = Ok () s' ∧ bs_inv s' ∧
    (∀ x, bs_view s' x = if x =? b then f (bs_view s b) else bs_view s x) ∧
    bs_held s' = bs_held s ∧ bs_logged s' = {[b]} ∪ bs_logged s.
Proof.
  intros Hi Hb Hh Hn Hf. destruct (bs_read_ok s b Hi Hb Hh Hn) as (s1 & E1 & I1 & V1 & H1 & L1).
  destruct (bs_update_ok s1 b (f (bs_view s b)) I1) as (s2 & E2 & I2 & V2 & H2 & L2);
    [rewrite H1; apply held_here | by rewrite L1 |].
  destruct (bs_release_ok s2 b I2) as (s3 & E3 & I3 & V3 & H3 & L3);
    [rewrite H2, H1; apply held_here|].
  exists s3. split_and!; [| done | by intros; rewrite V3, V2, V1 | by rewrite H3, H2, H1, held_back | by rewrite L3, L2, L1].
  by rewrite (bind_ok _ _ _ _ _ E1), bs_get_bind, V1, (bind_ok _ _ _ _ _ E2).
Qed.

Lemma bzero_ok s b :
  bs_inv s → bs_first ≤ b < FSSIZE → b ∉ bs_held s → (size (bs_held s) < 3)%nat → fits s {[b]} →
  ∃ s', bzero b s = Ok () s' ∧ bs_inv s' ∧
    (∀ x, bs_view s' x = if x =? b then memset (bs_view s b) 0 0 BSIZE else bs_view s x) ∧
    bs_held s' = bs_held s ∧ bs_logged s' = {[b]} ∪ bs_logged s.
Proof. apply rmw_ok. Qed.

(** ** The allocator *)

Definition dstart : Z := sb_size sb - sb_nblocks sb.

(** The disk layout mkfs makes: inode blocks, one bitmap block, data. *)
Record layout_ok : Prop := {
  lo_inodes : (1 < sb_inodestart sb ∧ 0 ≤ sb_ninodes sb) ∧ bs_first ≤ sb_inodestart sb;
  lo_bmap : sb_inodestart sb + sb_ninodes sb / IPB < sb_bmapstart sb;
  lo_data : sb_bmapstart sb < dstart ≤ sb_size sb;
  lo_size : sb_size sb ≤ FSSIZE
}.

Definition bit (v : Z → block) (b : Z) : bool := Z.testbit (v (sb_bmapstart sb) (b / 8)) (b mod 8).

(** The bitmap agrees with the roles. *)
Record alloc_ok (v : Z → block) (O : Z → brole) : Prop := {
  al_bit b : 0 ≤ b < sb_size sb → bit v b = false ↔ O b = BFree;
  al_meta b : O b ≠ BMeta → dstart ≤ b < sb_size sb
}.

Context (Hlay : layout_ok).

Lemma bblock b : 0 ≤ b < sb_size sb → BBLOCK b sb = sb_bmapstart sb.
Proof using Hlay.
  intros Hb. destruct Hlay as [_ _ _ Hs]. unfold BBLOCK, BPB, BSIZE, FSSIZE in *.
  rewrite Z.div_small; lia.
Qed.

Lemma alloc_ok_ext v v' O :
  (∀ a, v' (sb_bmapstart sb) a = v (sb_bmapstart sb) a) → alloc_ok v O → alloc_ok v' O.
Proof using. clear Hlay. intros Hv [H1 H2]. split; [|done]. intros b Hb. unfold bit. rewrite Hv. by apply H1. Qed.

(** The effect of changing one bit of the bitmap. *)
Lemma bit_upd v v' b (y : bool) :
  0 ≤ b →
  v' (sb_bmapstart sb) = store8 (v (sb_bmapstart sb)) (b / 8)
    (if y then Z.lor (v (sb_bmapstart sb) (b / 8)) (Z.shiftl 1 (b mod 8))
     else Z.land (v (sb_bmapstart sb) (b / 8)) (Z.lnot (Z.shiftl 1 (b mod 8)))) →
  ∀ b', 0 ≤ b' → bit v' b' = if b' =? b then y else bit v b'.
Proof using. clear Hlay.
  intros Hb Hv b' Hb'. unfold bit. rewrite Hv. unfold store8.
  assert (0 ≤ b mod 8 < 8 ∧ 0 ≤ b' mod 8 < 8) as [Hm Hm'] by (split; apply Z.mod_pos_bound; lia).
  destruct (Z.eqb_spec (b' / 8) (b / 8)) as [Ed|Ed].
  - rewrite Ed. destruct y; [rewrite set_bit by done | rewrite clear_bit by done];
      destruct (Z.eqb_spec b' b) as [->|Hne]; rewrite ?Z.eqb_refl; simpl; try done;
      (destruct (Z.eqb_spec (b' mod 8) (b mod 8)) as [Em|]; [exfalso; zmod | done]).
  - destruct (Z.eqb_spec b' b) as [->|]; [done|done].
Qed.

(** Room in the transaction for the bitmap block and [k] others. *)
Definition room (s : S) (k : nat) : Prop :=
  (size ({[sb_bmapstart sb]} ∪ bs_logged s) + k ≤ bs_cap)%nat.

Lemma room_logged s s' X k :
  bs_logged s' ⊆ X ∪ ({[sb_bmapstart sb]} ∪ bs_logged s) → room s (size X + k) → room s' k.
Proof using. clear Hlay.
  unfold room. intros Hl Hr.
  assert (size ({[sb_bmapstart sb]} ∪ bs_logged s') ≤ size (X ∪ ({[sb_bmapstart sb]} ∪ bs_logged s)))%nat.
  { apply subseteq_size. set_solver. }
  pose proof (size_union_alt X ({[sb_bmapstart sb]} ∪ bs_logged s)).
  assert (size (({[sb_bmapstart sb]} ∪ bs_logged s) ∖ X) ≤ size ({[sb_bmapstart sb]} ∪ bs_logged s))%nat
    by (apply subseteq_size; set_solver).
  lia.
Qed.

Lemma room_fits s b k : room s (1 + k) → fits s {[b]}.
Proof using. clear Hlay.
  unfold room, fits. intros Hr. pose proof (size_union_alt {[b]} (bs_logged s)).
  assert (size (bs_logged s ∖ {[b]}) ≤ size ({[sb_bmapstart sb]} ∪ bs_logged s))%nat
    by (apply subseteq_size; set_solver).
  rewrite size_singleton in *. lia.
Qed.

Lemma room_bmap s k : room s k → fits s {[sb_bmapstart sb]}.
Proof using. clear Hlay. unfold room, fits. lia. Qed.

Lemma room_mono s k k' : room s k → (k' ≤ k)%nat → room s k'.
Proof using. clear Hlay. unfold room. lia. Qed.

(** A free bit found and taken. *)
Lemma balloc_take s b O :
  bs_inv s → alloc_ok (bs_view s) O → O b = BFree → sb_bmapstart sb ∈ bs_held s →
  b ∉ bs_held s → (size (bs_held s) ≤ 3)%nat → room s 1 →
  ∃ s', balloc_bit 0 b s = Ok (Some b) s' ∧ bs_inv s' ∧
    alloc_ok (bs_view s') (<[b := BOther]> O) ∧
    (∀ a, 0 ≤ a < BSIZE → bs_view s' b a = 0) ∧
    (∀ x, x ≠ b → x ≠ sb_bmapstart sb → bs_view s' x = bs_view s x) ∧
    bs_held s' = bs_held s ∖ {[sb_bmapstart sb]} ∧
    bs_logged s' = {[b]} ∪ ({[sb_bmapstart sb]} ∪ bs_logged s).
Proof using Hlay.
  intros Hi Hal Hfree Hbm Hnh Hsz Hroom.
  assert (dstart ≤ b < sb_size sb) as Hb by (apply (al_meta _ _ Hal); congruence).
  pose proof Hlay as [[[Hin1 Hin2] Hfst] Hbmap Hdata Hsize].
  assert (0 ≤ sb_ninodes sb / IPB) as Hdiv by (by apply Z.div_pos).
  assert (0 ≤ b) as Hb0 by lia. assert (bit (bs_view s) b = false) as Hbit by (apply (al_bit _ _ Hal); [lia|done]).
  unfold balloc_bit. rewrite bs_get_bind, bblock by lia.
  rewrite land_bit by (apply Z.mod_pos_bound; lia). unfold bit in Hbit. rewrite Hbit. cbn [negb]. cbv iota.
  destruct (bs_update_ok s (sb_bmapstart sb)
    (store8 (bs_view s (sb_bmapstart sb)) (b / 8)
       (Z.lor (bs_view s (sb_bmapstart sb) (b / 8)) (Z.shiftl 1 (b mod 8)))) Hi Hbm (room_bmap _ _ Hroom))
    as (s1 & E1 & I1 & V1 & H1 & L1).
  destruct (bs_release_ok s1 (sb_bmapstart sb) I1) as (s2 & E2 & I2 & V2 & H2 & L2); [by rewrite H1|].
  assert (room s2 1) as Hr2.
  { apply (room_logged s s2 ∅); [rewrite L2, L1; set_solver | done]. }
  destruct (bzero_ok s2 b I2) as (s3 & E3 & I3 & V3 & H3 & L3).
  { lia. } { rewrite H2, H1. set_solver. }
  { rewrite H2, H1, size_difference by set_solver. rewrite size_singleton. lia. } { by apply (room_fits s2 b 0). }
  exists s3. rewrite (bind_ok _ _ _ _ _ E1), (bind_ok _ _ _ _ _ E2), Z.add_0_l, (bind_ok _ _ _ _ _ E3).
  assert (∀ x, x ≠ b → bs_view s3 x = bs_view s1 x) as V31.
  { intros x Hx. rewrite V3, V2. by rewrite (proj2 (Z.eqb_neq x b)). }
  split; [done|]. split; [done|]. split; [|split; [|split; [|split]]].
  - split.
    + intros b' Hb'. rewrite (bit_upd (bs_view s) (bs_view s3) b true Hb0).
      * destruct (Z.eqb_spec b' b) as [->|Hne]; [by rewrite fn_lookup_insert|].
        rewrite fn_lookup_insert_ne by done. by apply (al_bit _ _ Hal).
      * rewrite V31 by lia. rewrite V1. by rewrite Z.eqb_refl.
      * lia.
    + intros b'. destruct (decide (b' = b)) as [->|]; [lia|]. rewrite fn_lookup_insert_ne by done.
      apply (al_meta _ _ Hal).
  - intros a Ha. rewrite V3, Z.eqb_refl, memset_byte by done. rewrite decide_True by lia. done.
  - intros x Hx Hxb. rewrite V31, V1 by done. by rewrite (proj2 (Z.eqb_neq x _)).
  - by rewrite H3, H2, H1.
  - by rewrite L3, L2, L1.
Qed.

(** A block was taken from the allocator: it is cleared, and nothing else
    changed but the bitmap. *)
Definition allocated (s s' : S) (O : Z → brole) (b : Z) : Prop :=
  O b = BFree ∧ (∀ b', O b' = BFree → b ≤ b') ∧ bs_inv s' ∧
  alloc_ok (bs_view s') (<[b := BOther]> O) ∧
  (∀ a, 0 ≤ a < BSIZE → bs_view s' b a = 0) ∧
  (∀ x, x ≠ b → x ≠ sb_bmapstart sb → bs_view s' x = bs_view s x) ∧
  bs_held s' = bs_held s ∧ bs_logged s' = {[b]} ∪ ({[sb_bmapstart sb]} ∪ bs_logged s).

Lemma balloc_bit_used s b :
  bit (bs_view s) b = true → 0 ≤ b < sb_size sb → balloc_bit 0 b s = Ok None s.
Proof using Hlay.
  intros Hb Hr. unfold balloc_bit. rewrite bs_get_bind, bblock by lia.
  rewrite land_bit by (apply Z.mod_pos_bound; lia). unfold bit in Hb. by rewrite Hb.
Qed.

Lemma balloc_ok s O :
  bs_inv s → alloc_ok (bs_view s) O → sb_bmapstart sb ∉ bs_held s →
  (∀ b, O b = BFree → b ∉ bs_held s) → (size (bs_held s) ≤ 2)%nat → room s 1 →
  (∃ b s', balloc s = Ok b s' ∧ allocated s s' O b) ∨
  ((∀ b, O b ≠ BFree) ∧ balloc s = Panic "balloc: out of blocks").
Proof using Hlay.
  intros Hi Hal Hbm Hnh Hsz Hroom. pose proof Hlay as [[[Hin1 Hin2] Hfst] Hbmap Hdata Hsize].
  assert (0 ≤ sb_ninodes sb / IPB) as Hdiv by (by apply Z.div_pos).
  unfold FSSIZE in Hsize. unfold balloc, BPB, BSIZE.
  replace ((sb_size sb + 512 * 8 - 1) / (512 * 8)) with 1 by zmod.
  change (seqZ 0 1) with [0]. cbn [for_until]. rewrite bind_assoc. unfold balloc_block.
  rewrite bblock, Z.mul_0_l, Z.sub_0_r by lia. unfold BPB, BSIZE. rewrite Z.min_r by lia.
  destruct (bs_read_ok s (sb_bmapstart sb)) as (s1 & E1 & I1 & V1 & H1 & L1); [done | unfold FSSIZE; lia | done | lia |].
  rewrite bind_assoc, (bind_ok _ _ _ _ _ E1).
  assert (alloc_ok (bs_view s1) O) as Hal1 by (eapply alloc_ok_ext; [|done]; intros a; by rewrite V1).
  assert (room s1 1) as Hroom1 by (apply (room_logged s s1 ∅); [rewrite L1; set_solver | done]).
  destruct (find_first (bit (bs_view s1)) (Z.to_nat (sb_size sb))) as [Hall|(b & Hb & Hfb & Hlt)];
    rewrite Z2Nat.id in * by lia.
  - right. split.
    { intros b Hf. assert (dstart ≤ b < sb_size sb) by (apply (al_meta _ _ Hal); congruence).
      apply (al_bit _ _ Hal1) in Hf; [|lia]. by rewrite Hall in Hf by lia. }
    assert (for_until (seqZ 0 (sb_size sb)) (balloc_bit 0) s1 = Ok None s1) as El.
    { apply for_until_none. intros x Hx%elem_of_seqZ. apply balloc_bit_used; [apply Hall|]; lia. }
    destruct (bs_release_ok s1 (sb_bmapstart sb) I1) as (s2 & E2 & _); [rewrite H1; apply held_here|].
    by rewrite bind_assoc, (bind_ok _ _ _ _ _ El), bind_assoc, (bind_ok _ _ _ _ _ E2).
  - left. assert (O b = BFree) as Hf by (by apply (al_bit _ _ Hal1); [lia|]).
    assert (dstart ≤ b) as Hbd by (apply (al_meta _ _ Hal); congruence).
    destruct (balloc_take s1 b O) as (s2 & E2 & I2 & Hal2 & Hz & Hfr & H2 & L2); try done.
    { rewrite H1. apply held_here. }
    { rewrite H1. specialize (Hnh b Hf). assert (b ≠ sb_bmapstart sb) by lia. set_solver. }
    { rewrite H1, size_union by set_solver. rewrite size_singleton. lia. }
    exists b, s2. split.
    + assert (for_until (seqZ 0 (sb_size sb)) (balloc_bit 0) s1 = Ok (Some b) s2) as El.
      { rewrite (seqZ_split _ b), for_until_skip by (lia || (intros x Hx%elem_of_seqZ;
          apply balloc_bit_used; [apply Hlt|]; lia)). cbn [for_until]. by rewrite (bind_ok _ _ _ _ _ E2). }
      by rewrite bind_assoc, (bind_ok _ _ _ _ _ El).
    + split_and!; try done.
      * intros b' Hb'. assert (dstart ≤ b' < sb_size sb) by (apply (al_meta _ _ Hal); congruence).
        apply (al_bit _ _ Hal1) in Hb'; [|lia]. destruct (decide (b' < b)); [|lia]. by rewrite Hlt in Hb' by lia.
      * intros x Hx Hxb. by rewrite Hfr, V1.
      * rewrite H2, H1. by apply held_back.
      * by rewrite L2, L1.
Qed.

Lemma bfree_ok s O b k :
  bs_inv s → alloc_ok (bs_view s) O → O b ≠ BMeta → O b ≠ BFree → sb_bmapstart sb ∉ bs_held s →
  (size (bs_held s) ≤ 2)%nat → room s k →
  ∃ s', bfree b s = Ok () s' ∧ bs_inv s' ∧ alloc_ok (bs_view s') (<[b := BFree]> O) ∧
    (∀ x, x ≠ sb_bmapstart sb → bs_view s' x = bs_view s x) ∧
    bs_held s' = bs_held s ∧ room s' k.
Proof using Hlay.
  intros Hi Hal Hm Hf Hbm Hsz Hroom. pose proof Hlay as [[[Hin1 Hin2] Hfst] Hbmap Hdata Hsize].
  assert (0 ≤ sb_ninodes sb / IPB) as Hdiv by (by apply Z.div_pos).
  assert (dstart ≤ b < sb_size sb) as Hb by (by apply (al_meta _ _ Hal)).
  unfold FSSIZE in Hsize. unfold bfree. rewrite bblock by lia.
  unfold BPB, BSIZE. rewrite (Z.mod_small b) by lia.
  destruct (bs_read_ok s (sb_bmapstart sb)) as (s1 & E1 & I1 & V1 & H1 & L1); [done | unfold FSSIZE; lia | done | lia |].
  assert (bit (bs_view s) b = true) as Hbit.
  { apply not_false_is_true. rewrite (al_bit _ _ Hal) by lia. done. }
  rewrite (bind_ok _ _ _ _ _ E1), bs_get_bind, V1, land_bit by (apply Z.mod_pos_bound; lia).
  unfold bit in Hbit. rewrite Hbit. cbn [negb].
  destruct (bs_update_ok s1 (sb_bmapstart sb) (store8 (bs_view s (sb_bmapstart sb)) (b / 8)
       (Z.land (bs_view s (sb_bmapstart sb) (b / 8)) (Z.lnot (Z.shiftl 1 (b mod 8)))))) as (s2 & E2 & I2 & V2 & H2 & L2).
  { done. } { rewrite H1. apply held_here. } { rewrite L1. by eapply room_bmap. }
  destruct (bs_release_ok s2 (sb_bmapstart sb) I2) as (s3 & E3 & I3 & V3 & H3 & L3); [rewrite H2, H1; apply held_here|].
  exists s3. rewrite (bind_ok _ _ _ _ _ E2). split; [done|]. split; [done|]. split; [|split; [|split]].
  - split.
    + intros b' Hb'. rewrite (bit_upd (bs_view s) (bs_view s3) b false).
      * destruct (Z.eqb_spec b' b) as [->|Hne]; [by rewrite fn_lookup_insert|].
        rewrite fn_lookup_insert_ne by done. by apply (al_bit _ _ Hal).
      * lia.
      * rewrite V3, V2. by rewrite Z.eqb_refl.
      * lia.
    + intros b'. destruct (decide (b' = b)) as [->|]; [lia|]. rewrite fn_lookup_insert_ne by done.
      apply (al_meta _ _ Hal).
  - intros x Hx. rewrite V3, V2, V1. by rewrite (proj2 (Z.eqb_neq x _)).
  - by rewrite H3, H2, H1, held_back.
  - apply (room_logged s s3 ∅); [rewrite L3, L2, L1; set_solver | done].
Qed.

Lemma bfree_free s O b :
  bs_inv s → alloc_ok (bs_view s) O → O b = BFree → sb_bmapstart sb ∉ bs_held s →
  (size (bs_held s) ≤ 2)%nat → bfree b s = Panic "freeing free block".
Proof using Hlay.
  intros Hi Hal Hf Hbm Hsz. pose proof Hlay as [[[Hin1 Hin2] Hfst] Hbmap Hdata Hsize].
  assert (0 ≤ sb_ninodes sb / IPB) as Hdiv by (by apply Z.div_pos).
  assert (dstart ≤ b < sb_size sb) as Hb by (apply (al_meta _ _ Hal); congruence).
  unfold FSSIZE in Hsize. unfold bfree. rewrite bblock by lia.
  unfold BPB, BSIZE. rewrite (Z.mod_small b) by lia.
  destruct (bs_read_ok s (sb_bmapstart sb)) as (s1 & E1 & I1 & V1 & H1 & L1); [done | unfold FSSIZE; lia | done | lia |].
  rewrite (bind_ok _ _ _ _ _ E1), bs_get_bind, V1, land_bit by (apply Z.mod_pos_bound; lia).
  apply (al_bit _ _ Hal) in Hf; [|lia]. unfold bit in Hf. by rewrite Hf.
Qed.

(** The block allocator. With the bitmap in agreement with the roles of
    the blocks, [balloc] takes the lowest free block, marks and clears it and
    changes no other block but the bitmap, or panics exactly when no block is
    free; [bfree] gives a block in use back and panics on a free one. A
    transaction with room for one more block beside the bitmap is enough. *)
Theorem balloc_bfree_correct s O :
  bs_inv s → alloc_ok (bs_view s) O → sb_bmapstart sb ∉ bs_held s →
  (∀ b, O b = BFree → b ∉ bs_held s) → (size (bs_held s) ≤ 2)%nat → room s 1 →
  ((∃ b, O b = BFree) → ∃ b s', balloc s = Ok b s' ∧ allocated s s' O b) ∧
  ((∀ b, O b ≠ BFree) → balloc s = Panic "balloc: out of blocks") ∧
  (∀ b, O b ≠ BMeta → O b ≠ BFree →
     ∃ s', bfree b s = Ok () s' ∧ bs_inv s' ∧ alloc_ok (bs_view s') (<[b := BFree]> O) ∧
       (∀ x, x ≠ sb_bmapstart sb → bs_view s' x = bs_view s x) ∧ bs_held s' = bs_held s) ∧
  (∀ b, O b = BFree → bfree b s = Panic "freeing free block").
Proof using Hlay.
  intros Hi Hal Hbm Hnh Hsz Hroom. split_and!.
  - intros [b Hb]. destruct (balloc_ok s O) as [?|[Hn _]]; try done. by destruct (Hn b).
  - intros Hn. destruct (balloc_ok s O) as [(b & s' & _ & [Hf _])|[_ ?]]; try done. by destruct (Hn b).
  - intros b Hm Hf. destruct (bfree_ok s O b 1) as (s' & ?); try done. exists s'. tauto.
  - intros b Hf. by eapply bfree_free.
Qed.
End blocks.
