(* ===== verification/FsInode.v ===== *)
(** * File system: inodes (fs.c)

    The inode cache, inodes on disk, the blocks of a file and reading and
    writing its contents. A [struct inode *] is an index into the cache. The
    sleep lock of an inode is a flag: a thread that asks for a lock that is
    taken waits for ever in a run of its own ([Hang]). *)
From S2P Require Import Prelude Machine CString Bio FsBlock.
Import KString.

Definition T_DIR : Z := 1.
Definition T_FILE : Z := 2.
Definition T_DEV : Z := 3.

Record inode := Inode {
  i_dev : Z;
  i_inum : Z;
  i_ref : Z;
  i_lock : bool;
  i_valid : bool;
  i_type : Z;
  i_major : Z;
  i_minor : Z;
  i_nlink : Z;
  i_size : Z;
  i_addrs : list Z
}.

#[export] Instance eta_inode : Settable inode := λ i,
  Inode (i_dev i) (i_inum i) (i_ref i) (i_lock i) (i_valid i) (i_type i) (i_major i) (i_minor i)
    (i_nlink i) (i_size i) (i_addrs i).

(** ** Inodes in a disk block *)

Definition s16 (z : Z) : Z := (z + 32768) mod 65536 - 32768.
Definition load16 (d : block) (a : Z) : Z := s16 (d a + 256 * d (a + 1)).
Definition store16 (d : block) (a v : Z) : block := store8 (store8 d a v) (a + 1) (v / 256).

Fixpoint store_addrs (d : block) (a : Z) (l : list Z) : block :=
  match l with
  | [] => d
  | w :: l' => store_addrs (store32 d a w) (a + 4) l'
  end.

Definition load_addrs (d : block) (a : Z) (n : nat) : list Z :=
  (λ k, load32 d (a + 4 * Z.of_nat k)) <$> seq 0 n.

(** The offset of inode [inum] in its block: [inum%IPB] inodes. *)
Definition dinode_off (inum : Z) : Z := inum mod IPB * DINODE_SIZE.

(** The assignments of [iupdate]. *)
Definition put_dinode (ip : inode) (d : block) : block :=
  let o := dinode_off (i_inum ip) in
  let d := store16 d o (i_type ip) in
  let d := store16 d (o + 2) (i_major ip) in
  let d := store16 d (o + 4) (i_minor ip) in
  let d := store16 d (o + 6) (i_nlink ip) in
  let d := store32 d (o + 8) (i_size ip) in
  store_addrs d (o + 12) (i_addrs ip).

(** The assignments of [ilock]. *)
Definition get_dinode (d : block) (ip : inode) : inode :=
  let o := dinode_off (i_inum ip) in
  ip <| i_type := load16 d o |> <| i_major := load16 d (o + 2) |> <| i_minor := load16 d (o + 4) |>
     <| i_nlink := load16 d (o + 6) |> <| i_size := load32 d (o + 8) |>
     <| i_addrs := load_addrs d (o + 12) 13 |>.

(** Bytes of a buffer, as [memmove] reads and writes them. *)
Fixpoint put_bytes (d : block) (a : Z) (bs : list Z) : block :=
  match bs with
  | [] => d
  | b :: bs' => put_bytes (store8 d a b) (a + 1) bs'
  end.

Definition get_bytes (d : block) (a : Z) (n : nat) : list Z :=
  (λ k, d (a + Z.of_nat k)) <$> seq 0 n.

Section inodes.
Context {S : Type} `{BlockStore S}.
Variable sb : superblock.

(** The block store beside [icache.inode]. *)
Definition fsys : Type := S * list inode.

Definition onbs {A} (m : M S A) : M fsys A := λ '(s, ic),
  match m s with
  | Ok a s' => Ok a (s', ic)
  | Panic e => Panic e
  | Hang => Hang
  end.

Definition inode_at (ip : nat) : M fsys inode := λ '(s, ic),
  match ic !! ip with
  | Some i => Ok i (s, ic)
  | None => Panic "trap"
  end.

Definition upd_inode (ip : nat) (f : inode → inode) : M fsys () := modify (λ '(s, ic), (s, alter f ip ic)).

(** ** The cache *)

(** [iinit]: the locks of the entries, and the superblock. *)
Definition iinit : M fsys superblock :=
  modify (λ '(s, ic), (s, (λ i, i <| i_lock := false |>) <$> ic));;
  onbs readsb.

(** The scan of [iget]: the entry, or the first empty slot. *)
Fixpoint iget_scan (ic : list inode) (k : nat) (empty : option nat) (dev inum : Z) : nat + option nat :=
  match ic with
  | [] => inr empty
  | i :: ic' =>
      if (0 <? i_ref i) && (i_dev i =? dev) && (i_inum i =? inum) then inl k
      else iget_scan ic' (Datatypes.S k)
             (match empty with None => if i_ref i =? 0 then Some k else None | Some _ => empty end) dev inum
  end.

Definition iget (dev inum : Z) : M fsys nat :=
  ic ← gets snd;
  match iget_scan ic 0 None dev inum with
  | inl ip => upd_inode ip (λ i, i <| i_ref := i_ref i + 1 |>);; mret ip
  | inr (Some ip) =>
      upd_inode ip (λ i, i <| i_dev := dev |> <| i_inum := inum |> <| i_ref := 1 |> <| i_valid := false |>);;
      mret ip
  | inr None => panic "iget: no inodes"
  end.

Definition idup (ip : nat) : M fsys nat :=
  upd_inode ip (λ i, i <| i_ref := i_ref i + 1 |>);; mret ip.

Definition ialloc (dev type : Z) : M fsys nat :=
  r ← for_until (seqZ 1 (sb_ninodes sb - 1)) (λ inum,
    onbs (bs_read (IBLOCK inum sb));;
    d ← onbs (bs_get (IBLOCK inum sb));
    let o := dinode_off inum in
    if load16 d o =? 0 then
      onbs (bs_update (IBLOCK inum sb) (store16 (memset d o 0 DINODE_SIZE) o type));;
      onbs (bs_release (IBLOCK inum sb));;
      ip ← iget dev inum;
      mret (Some ip)
    else onbs (bs_release (IBLOCK inum sb));; mret None);
  match r with
  | Some ip => mret ip
  | None => panic "ialloc: no inodes"
  end.

Definition iupdate (ip : nat) : M fsys () :=
  i ← inode_at ip;
  onbs (bs_read (IBLOCK (i_inum i) sb);;
        d ← bs_get (IBLOCK (i_inum i) sb);
        bs_update (IBLOCK (i_inum i) sb) (put_dinode i d);;
        bs_release (IBLOCK (i_inum i) sb)).

(** [acquiresleep(&ip->lock)] and [releasesleep(&ip->lock)] *)
Definition lock_inode (ip : nat) : M fsys () :=
  i ← inode_at ip;
  if i_lock i then hang else upd_inode ip (λ i, i <| i_lock := true |>).

Definition unlock_inode (ip : nat) : M fsys () := upd_inode ip (λ i, i <| i_lock := false |>).

Definition ilock (ip : nat) : M fsys () :=
  i ← inode_at ip;
  if i_ref i <? 1 then panic "ilock"
  else
    lock_inode ip;;
    if i_valid i then mret ()
    else
      d ← onbs (bs_read (IBLOCK (i_inum i) sb);;
                d ← bs_get (IBLOCK (i_inum i) sb);
                bs_release (IBLOCK (i_inum i) sb);;
                mret d);
      upd_inode ip (λ i, get_dinode d i <| i_valid := true |>);;
      i' ← inode_at ip;
      if i_type i' =? 0 then panic "ilock: no type" else mret ().

Definition iunlock (ip : nat) : M fsys () :=
  i ← inode_at ip;
  if negb (i_lock i) || (i_ref i <? 1) then panic "iunlock"
  else unlock_inode ip.

(** ** The blocks of a file *)

(** The indirect block, allocated if necessary. *)
Definition bmap_ind (ip : nat) (i : inode) : M fsys Z :=
  let addr := nth (Z.to_nat NDIRECT) (i_addrs i) 0 in
  if addr =? 0 then
    addr ← onbs (balloc sb);
    upd_inode ip (λ i, i <| i_addrs := <[Z.to_nat NDIRECT := addr]> (i_addrs i) |>);;
    mret addr
  else mret addr.

(** Entry [bn] of the indirect block [ind], allocated if necessary. *)
Definition bmap_entry (ind bn : Z) : M S Z :=
  bs_read ind;;
  a ← bs_get ind;
  addr ← (if load32 a (4 * bn) =? 0 then
            addr ← balloc sb;
            bs_update ind (store32 a (4 * bn) addr);;
            mret addr
          else mret (load32 a (4 * bn)));
  bs_release ind;;
  mret addr.

Definition bmap (ip : nat) (bn : Z) : M fsys Z :=
  i ← inode_at ip;
  if bn <? NDIRECT then
    let addr := nth (Z.to_nat bn) (i_addrs i) 0 in
    if addr =? 0 then
      addr ← onbs (balloc sb);
      upd_inode ip (λ i, i <| i_addrs := <[Z.to_nat bn := addr]> (i_addrs i) |>);;
      mret addr
    else mret addr
  else
    let bn := bn - NDIRECT in
    if bn <? NINDIRECT then
      ind ← bmap_ind ip i;
      onbs (bmap_entry ind bn)
    else panic "bmap: out of range".

(** The body of the first loop of [itrunc]. *)
Definition trunc_direct (ip k : nat) : M fsys () :=
  i ← inode_at ip;
  when (truthy (nth k (i_addrs i) 0))
    (onbs (bfree sb (nth k (i_addrs i) 0));;
     upd_inode ip (λ i, i <| i_addrs := <[k := 0]> (i_addrs i) |>)).

(** The body of the second. *)
Definition trunc_entry (a : block) (j : Z) : M S () :=
  when (truthy (load32 a (4 * j))) (bfree sb (load32 a (4 * j))).

Definition trunc_indirect (ind : Z) : M S () :=
  bs_read ind;;
  a ← bs_get ind;
  for_each (seqZ 0 NINDIRECT) (trunc_entry a);;
  bs_release ind;;
  bfree sb ind.

Definition itrunc (ip : nat) : M fsys () :=
  for_each (seq 0 (Z.to_nat NDIRECT)) (trunc_direct ip);;
  i ← inode_at ip;
  when (truthy (nth (Z.to_nat NDIRECT) (i_addrs i) 0))
    (onbs (trunc_indirect (nth (Z.to_nat NDIRECT) (i_addrs i) 0));;
     upd_inode ip (λ i, i <| i_addrs := <[Z.to_nat NDIRECT := 0]> (i_addrs i) |>));;
  upd_inode ip (λ i, i <| i_size := 0 |>);;
  iupdate ip.

Definition iput (ip : nat) : M fsys () :=
  lock_inode ip;;
  i ← inode_at ip;
  when (i_valid i && (i_nlink i =? 0) && (i_ref i =? 1))
    (itrunc ip;;
     upd_inode ip (λ i, i <| i_type := 0 |>);;
     iupdate ip;;
     upd_inode ip (λ i, i <| i_valid := false |>));;
  unlock_inode ip;;
  upd_inode ip (λ i, i <| i_ref := i_ref i - 1 |>).

Definition iunlockput (ip : nat) : M fsys () := iunlock ip;; iput ip.

(** [struct stat]: dev, ino, type, nlink, size *)
Definition stati (i : inode) : Z * Z * Z * Z * Z := (i_dev i, i_inum i, i_type i, i_nlink i, i_size i).

(** ** Contents *)

(** [devsw[major].read] and [.write], if there are any. *)
Variable dev_read : Z → option (nat → Z → M fsys (Z * list Z)).
Variable dev_write : Z → option (nat → list Z → M fsys Z).

(** The loop of [readi]; the result is what was stored from [dst] on. *)
Fixpoint readi_loop (fuel : nat) (ip : nat) (off n : Z) : M fsys (list Z) :=
  match fuel with
  | O => hang
  | Datatypes.S fuel' =>
      if n <=? 0 then mret []
      else
        b ← bmap ip (off / BSIZE);
        d ← onbs (bs_read b;; d ← bs_get b; bs_release b;; mret d);
        let m := Z.min n (BSIZE - off mod BSIZE) in
        rest ← readi_loop fuel' ip (off + m) (n - m);
        mret (get_bytes d (off mod BSIZE) (Z.to_nat m) ++ rest)
  end.

(** The return value and the bytes stored at [dst]. *)
Definition readi (ip : nat) (off n : Z) : M fsys (Z * list Z) :=
  i ← inode_at ip;
  if i_type i =? T_DEV then
    if (i_major i <? 0) || (NDEV <=? i_major i) then mret (-1, [])
    else match dev_read (i_major i) with
         | None => mret (-1, [])
         | Some rd => rd ip n
         end
  else if (i_size i <? off) || (u32 (off + n) <? off) then mret (-1, [])
  else
    let n := if i_size i <? off + n then i_size i - off else n in
    bs ← readi_loop (Datatypes.S (Z.to_nat (n / BSIZE + 2))) ip off n;
    mret (n, bs).

(** The loop of [writei]; the result is the final [off]. *)
Fixpoint writei_loop (fuel : nat) (ip : nat) (off : Z) (src : list Z) : M fsys Z :=
  match fuel with
  | O => hang
  | Datatypes.S fuel' =>
      if (length src =? 0)%nat then mret off
      else
        b ← bmap ip (off / BSIZE);
        let m := Z.min (Z.of_nat (length src)) (BSIZE - off mod BSIZE) in
        onbs (bs_read b;;
              d ← bs_get b;
              bs_update b (put_bytes d (off mod BSIZE) (take (Z.to_nat m) src));;
              bs_release b);;
        writei_loop fuel' ip (off + m) (drop (Z.to_nat m) src)
  end.

Definition writei (ip : nat) (off : Z) (src : list Z) : M fsys Z :=
  i ← inode_at ip;
  let n := Z.of_nat (length src) in
  if i_type i =? T_DEV then
    if (i_major i <? 0) || (NDEV <=? i_major i) then mret (-1)
    else match dev_write (i_major i) with
         | None => mret (-1)
         | Some wr => wr ip src
         end
  else if (i_size i <? off) || (u32 (off + n) <? off) then mret (-1)
  else if MAXFILE * BSIZE <? off + n then mret (-1)
  else
    off' ← writei_loop (Datatypes.S (Z.to_nat (n / BSIZE + 2))) ip off src;
    i' ← inode_at ip;
    when ((0 <? n) && (i_size i' <? off')) (upd_inode ip (λ i, i <| i_size := off' |>);; iupdate ip);;
    mret n.
End inodes.
