(* ===== verification/FsDinode.v ===== *)
(** * File system: inodes on disk

    [iupdate] writes the fields of an inode into its slot of an inode block
    and [ilock] reads them back: a round trip, which leaves the other slots of
    the block alone. *)
From S2P Require Import Prelude Machine CString Bio FsBlock FsInode.
Import KString.

(** The fields fit their widths on disk. *)
Record inode_wf (i : inode) : Prop := {
  iw_type : -32768 ≤ i_type i < 32768;
  iw_major : -32768 ≤ i_major i < 32768;
  iw_minor : -32768 ≤ i_minor i < 32768;
  iw_nlink : -32768 ≤ i_nlink i < 32768;
  iw_size : 0 ≤ i_size i < 4294967296;
  iw_addrs : length (i_addrs i) = 13%nat;
  iw_addr k : 0 ≤ nth k (i_addrs i) 0 < 4294967296
}.

Lemma store16_frame d a v x : x < a ∨ a + 2 ≤ x → store16 d a v x = d x.
Proof. intros Hx. unfold store16. by rewrite !store8_ne by lia. Qed.

Lemma load16_store16_eq d a v : -32768 ≤ v < 32768 → load16 (store16 d a v) a = v.
Proof.
  intros Hv. unfold load16, store16. rewrite store8_eq, store8_ne, store8_eq by lia.
  unfold s16, u8. zmod.
Qed.

Lemma load16_ext d d' a : (∀ x, a ≤ x < a + 2 → d x = d' x) → load16 d a = load16 d' a.
Proof. intros Hd. unfold load16. by rewrite !Hd by lia. Qed.

Lemma store_addrs_frame l : ∀ d a x,
  x < a ∨ a + 4 * Z.of_nat (length l) ≤ x → store_addrs d a l x = d x.
Proof.
  induction l as [|w l IH]; intros d a x Hx; cbn [store_addrs length] in *; [done|].
  rewrite IH by lia. by rewrite store32_byte, decide_False by lia.
Qed.

Lemma load32_store_addrs l : ∀ d a k,
  (k < length l)%nat → 0 ≤ nth k l 0 < 4294967296 → load32 (store_addrs d a l) (a + 4 * Z.of_nat k) = nth k l 0.
Proof.
  induction l as [|w l IH]; intros d a k Hk Hw; cbn [store_addrs length] in *; [lia|].
  destruct k as [|k]; cbn [nth] in *.
  - rewrite (load32_ext _ (store32 d a w)).
    + replace (a + 4 * Z.of_nat 0) with a by lia. by apply load32_store32_eq.
    + intros x Hx. apply store_addrs_frame. lia.
  - replace (a + 4 * Z.of_nat (S k)) with (a + 4 + 4 * Z.of_nat k) by lia. apply IH; [lia | done].
Qed.

Lemma load_store_addrs l d a :
  (∀ k, 0 ≤ nth k l 0 < 4294967296) → load_addrs (store_addrs d a l) a (length l) = l.
Proof.
  intros Hl. unfold load_addrs. apply list_eq. intros k. rewrite list_lookup_fmap.
  destruct (decide (k < length l)%nat) as [Hk|Hk].
  - rewrite lookup_seq_lt by done. simpl. rewrite load32_store_addrs by done.
    destruct (lookup_lt_is_Some_2 l k Hk) as [w Ew]. by rewrite Ew, (nth_lookup_Some _ _ _ _ Ew).
  - rewrite lookup_seq_ge, lookup_ge_None_2 by lia. done.
Qed.

Lemma load_addrs_ext d d' a n :
  (∀ x, a ≤ x < a + 4 * Z.of_nat n → d x = d' x) → load_addrs d a n = load_addrs d' a n.
Proof.
  intros Hd. apply list_fmap_ext. intros k x Hk%lookup_seq. apply load32_ext. intros y Hy. apply Hd. lia.
Qed.

Lemma nth_zeros n k : nth k (replicate n 0) 0 = 0.
Proof. rewrite nth_lookup. destruct (replicate n 0 !! k) eqn:E; [by apply lookup_replicate in E as [-> _] | done]. Qed.

(** Everything outside the slot is as before. *)
Lemma put_dinode_frame i d x :
  length (i_addrs i) = 13%nat → x < dinode_off (i_inum i) ∨ dinode_off (i_inum i) + DINODE_SIZE ≤ x →
  put_dinode i d x = d x.
Proof.
  intros Hl Hx. unfold DINODE_SIZE in Hx. unfold put_dinode. rewrite store_addrs_frame by lia.
  rewrite store32_byte, decide_False, !store16_frame by lia. done.
Qed.

Lemma get_put_dinode i d : inode_wf i → get_dinode (put_dinode i d) i = i.
Proof.
  intros [H1 H2 H3 H4 H5 H6 H7]. unfold get_dinode, put_dinode. set (o := dinode_off (i_inum i)). cbv zeta.
  rewrite <- H6, load_store_addrs by done.
  repeat match goal with
  | |- context [load16 (store_addrs ?d ?a ?l) ?x] =>
      rewrite (load16_ext (store_addrs d a l) d x) by (intros; apply store_addrs_frame; lia)
  | |- context [load32 (store_addrs ?d ?a ?l) ?x] =>
      rewrite (load32_ext (store_addrs d a l) d x) by (intros; apply store_addrs_frame; lia)
  | |- context [load16 (store32 ?d ?a ?l) ?x] =>
      rewrite (load16_ext (store32 d a l) d x) by (intros; rewrite store32_byte, decide_False by lia; done)
  end.
  rewrite load32_store32_eq by done.
  repeat first [rewrite load16_store16_eq by done |
    match goal with
    | |- context [load16 (store16 ?d ?a ?l) ?x] =>
        rewrite (load16_ext (store16 d a l) d x) by (intros; apply store16_frame; lia)
    end].
  by destruct i.
Qed.

Lemma load16_put_dinode i d : inode_wf i → load16 (put_dinode i d) (dinode_off (i_inum i)) = i_type i.
Proof.
  intros Hwf. pose proof (get_put_dinode i d Hwf) as E. revert E. generalize (put_dinode i d). intros d' E.
  rewrite <- E at 2. done.
Qed.

Lemma get_dinode_ext d d' j :
  (∀ x, dinode_off (i_inum j) ≤ x < dinode_off (i_inum j) + DINODE_SIZE → d x = d' x) →
  get_dinode d j = get_dinode d' j.
Proof.
  unfold DINODE_SIZE. intros Hd. unfold get_dinode. cbv zeta.
  rewrite (load_addrs_ext d d') by (intros; apply Hd; lia).
  rewrite !(load16_ext d d') by (intros; apply Hd; lia). by rewrite (load32_ext d d') by (intros; apply Hd; lia).
Qed.

(** Two inodes of one block do not overlap. *)
Lemma get_put_dinode_ne i j d :
  length (i_addrs i) = 13%nat → i_inum i mod IPB ≠ i_inum j mod IPB → get_dinode (put_dinode i d) j = get_dinode d j.
Proof.
  intros Hl Hne. apply get_dinode_ext. intros x Hx. apply put_dinode_frame; [done|].
  unfold dinode_off, DINODE_SIZE in *. lia.
Qed.
