(* ===== verification/FsFile.v ===== *)
(** * File system: the contents of files

    Which blocks a file owns, and what [bmap], [readi], [writei] and [itrunc]
    do to them. A file is the sequence of its bytes; every block of the data
    area has one owner, so files do not disturb each other. *)
From stdpp Require Import functions.
From S2P Require Import Prelude Machine CString Bio FsBlock FsInode.
Import KString.

(** ** Bytes of blocks *)

Lemma put_bytes_byte bs : ∀ d a x,
  put_bytes d a bs x =
  if decide (a ≤ x < a + Z.of_nat (length bs)) then u8 (nth (Z.to_nat (x - a)) bs 0) else d x.
Proof.
  induction bs as [|b bs IH]; intros d a x; cbn [put_bytes length].
  { by rewrite decide_False by lia. }
  rewrite IH. destruct (decide (x = a)) as [->|Hne].
  - rewrite decide_False, decide_True by lia. rewrite store8_eq, Z.sub_diag. done.
  - rewrite store8_ne by done. destruct (decide (a + 1 ≤ x < a + 1 + Z.of_nat (length bs))).
    + rewrite decide_True by lia. replace (Z.to_nat (x - a)) with (S (Z.to_nat (x - (a + 1)))) by lia. done.
    + by rewrite decide_False by lia.
Qed.

Lemma get_bytes_length d a n : length (get_bytes d a n) = n.
Proof. unfold get_bytes. by rewrite length_fmap, length_seq. Qed.

Lemma get_bytes_nth d a n k : (k < n)%nat → nth k (get_bytes d a n) 0 = d (a + Z.of_nat k).
Proof.
  intros Hk. unfold get_bytes. apply nth_lookup_Some. rewrite list_lookup_fmap, lookup_seq_lt by done. done.
Qed.

(** ** The blocks of a file *)

Section files.
Context {S : Type} `{BlockStore S}.
Variable sb : superblock.
Context (Hlay : layout_ok sb).

Implicit Types (s : S) (v : Z → block) (O : Z → brole) (b x bn : Z).

Definition ind_of (addrs : list Z) : Z := nth 12 addrs 0.

(** The disk block of block [bn] of a file, 0 if there is none. *)
Definition fblock (v : Z → block) (addrs : list Z) (bn : Z) : Z :=
  if bn <? NDIRECT then nth (Z.to_nat bn) addrs 0
  else if ind_of addrs =? 0 then 0 else load32 (v (ind_of addrs)) (4 * (bn - NDIRECT)).

(** File [inum] owns exactly the blocks its addresses lead to. *)
Record fowns (v : Z → block) (O : Z → brole) (inum : Z) (addrs : list Z) : Prop := {
  fo_len : length addrs = 13%nat;
  fo_data bn : 0 ≤ bn < MAXFILE → fblock v addrs bn ≠ 0 → O (fblock v addrs bn) = BData inum bn;
  fo_ind : ind_of addrs ≠ 0 → O (ind_of addrs) = BInd inum;
  fo_data_inv b bn : O b = BData inum bn → 0 ≤ bn < MAXFILE ∧ fblock v addrs bn = b;
  fo_ind_inv b : O b = BInd inum → ind_of addrs = b
}.

(** There are [n] free blocks. *)
Definition has_free (O : Z → brole) (n : nat) : Prop :=
  ∃ l, NoDup l ∧ length l = n ∧ ∀ b, b ∈ l → O b = BFree.

Lemma has_free_take O n b r : has_free O (1 + n) → has_free (<[b := r]> O) n.
Proof using. clear Hlay.
  intros (l & Hnd & Hlen & Hl). destruct (decide (b ∈ l)) as [Hin|Hin].
  - apply list_elem_of_split in Hin as (l1 & l2 & ->). exists (l1 ++ l2).
    apply NoDup_app in Hnd as (H1 & H2 & H3). apply NoDup_cons in H3 as [H3 H4].
    split; [apply NoDup_app; set_solver|]. rewrite length_app in *. simpl in *. split; [lia|].
    intros x Hx. rewrite fn_lookup_insert_ne by set_solver. apply Hl. set_solver.
  - destruct l as [|c l]; [done|]. exists l. apply NoDup_cons in Hnd as [? ?]. simpl in Hlen.
    split; [done|]. split; [lia|]. intros x Hx. rewrite fn_lookup_insert_ne by set_solver. apply Hl. by right.
Qed.

Lemma has_free_some O n : has_free O (1 + n) → ∃ b, O b = BFree.
Proof using. clear Hlay. intros ([|b l] & _ & Hlen & Hl); [done|]. exists b. apply Hl. left. Qed.

Lemma has_free_mono O n k : has_free O n → (k ≤ n)%nat → has_free O k.
Proof using. clear Hlay.
  intros (l & Hnd & Hlen & Hl) Hk. exists (take k l). split; [|split].
  - eapply sublist_NoDup; [done | apply sublist_take].
  - rewrite length_take. lia.
  - intros b Hb. apply Hl. eapply subseteq_take; done.
Qed.

(** Roles in the data area are interchangeable for the bitmap. *)
Lemma alloc_recast v O b r :
  alloc_ok sb v (<[b := BOther]> O) → r ≠ BFree → r ≠ BMeta → alloc_ok sb v (<[b := r]> O).
Proof using. clear Hlay.
  intros [H1 H2] Hf Hm. split.
  - intros x Hx. rewrite (H1 x Hx). destruct (decide (x = b)) as [->|].
    + by rewrite !fn_lookup_insert.
    + by rewrite !fn_lookup_insert_ne.
  - intros x. destruct (decide (x = b)) as [->|].
    + intros _. apply H2. by rewrite fn_lookup_insert.
    + rewrite fn_lookup_insert_ne by done. intros Hx. apply H2. by rewrite fn_lookup_insert_ne.
Qed.

Lemma role_range v O b : alloc_ok sb v O → O b ≠ BMeta → 0 < b < FSSIZE ∧ bs_first ≤ b ∧ b ≠ sb_bmapstart sb.
Proof using Hlay.
  intros Hal Hb. pose proof Hlay as [[[Hin1 Hin2] Hfst] Hbmap Hdata Hsize].
  assert (0 ≤ sb_ninodes sb / IPB) as Hdiv by (by apply Z.div_pos).
  apply (al_meta _ _ _ Hal) in Hb. lia.
Qed.

Lemma role_0 v O : alloc_ok sb v O → O 0 = BMeta.
Proof using Hlay.
  intros Hal. destruct (decide (O 0 = BMeta)) as [|Hn]; [done|]. apply (role_range v) in Hn; [lia|done].
Qed.

(** A free block becomes block [bn] of the file, or its indirect block. *)
Lemma fowns_data v v' O inum addrs addrs' bn b :
  fowns v O inum addrs → O 0 = BMeta → O b = BFree → 0 ≤ bn < MAXFILE → fblock v addrs bn = 0 →
  length addrs' = 13%nat → ind_of addrs' = ind_of addrs →
  (∀ n, 0 ≤ n < MAXFILE → fblock v' addrs' n = if decide (n = bn) then b else fblock v addrs n) →
  fowns v' (<[b := BData inum bn]> O) inum addrs'.
Proof using. clear Hlay.
  intros [H1 H2 H3 H4 H5] H0 Hb Hbn Hz Hl Hi Hf. split; [done|..].
  - intros n Hn Hnz. rewrite Hf in Hnz |- * by done. case_decide as En; [subst; by rewrite fn_lookup_insert|].
    specialize (H2 n Hn Hnz). rewrite fn_lookup_insert_ne; congruence.
  - rewrite Hi. intros Hnz. specialize (H3 Hnz). rewrite fn_lookup_insert_ne; congruence.
  - intros x n. destruct (decide (x = b)) as [->|].
    + rewrite fn_lookup_insert. intros [= <-]. rewrite Hf, decide_True by done. done.
    + rewrite fn_lookup_insert_ne by done. intros Hx. destruct (H4 x n Hx) as [Hn Hx'].
      split; [done|]. rewrite Hf by done. case_decide as En; [|done]. subst n. congruence.
  - intros x. destruct (decide (x = b)) as [->|]; [by rewrite fn_lookup_insert|].
    rewrite fn_lookup_insert_ne, Hi by done. apply H5.
Qed.

Lemma fowns_ind v v' O inum addrs addrs' b :
  fowns v O inum addrs → O 0 = BMeta → O b = BFree → ind_of addrs = 0 → ind_of addrs' = b →
  length addrs' = 13%nat →
  (∀ n, 0 ≤ n < MAXFILE → fblock v' addrs' n = fblock v addrs n) →
  fowns v' (<[b := BInd inum]> O) inum addrs'.
Proof using. clear Hlay.
  intros [H1 H2 H3 H4 H5] H0 Hb Hz Hi Hl Hf. split; [done|..].
  - intros n Hn Hnz. rewrite Hf in Hnz |- * by done. specialize (H2 n Hn Hnz).
    rewrite fn_lookup_insert_ne; congruence.
  - intros _. by rewrite Hi, fn_lookup_insert.
  - intros x n. destruct (decide (x = b)) as [->|]; [by rewrite fn_lookup_insert|].
    rewrite fn_lookup_insert_ne by done. intros Hx. destruct (H4 x n Hx) as [Hn Hx'].
    split; [done|]. by rewrite Hf.
  - intros x. destruct (decide (x = b)) as [->|]; [done|]. rewrite fn_lookup_insert_ne by done.
    intros Hx. pose proof (H5 _ Hx). congruence.
Qed.

(** Changes elsewhere leave the file alone. *)
Lemma fblock_ext v v' addrs bn :
  (ind_of addrs ≠ 0 → v' (ind_of addrs) = v (ind_of addrs)) → fblock v' addrs bn = fblock v addrs bn.
Proof using. clear Hlay.
  intros Hv. unfold fblock. case_match; [done|]. destruct (Z.eqb_spec (ind_of addrs) 0); [done|].
  by rewrite Hv.
Qed.

Lemma fowns_ext v v' O O' inum addrs :
  fowns v O inum addrs → (ind_of addrs ≠ 0 → v' (ind_of addrs) = v (ind_of addrs)) →
  (∀ x bn, O' x = BData inum bn ↔ O x = BData inum bn) → (∀ x, O' x = BInd inum ↔ O x = BInd inum) →
  fowns v' O' inum addrs.
Proof using. clear Hlay.
  intros [H1 H2 H3 H4 H5] Hv Hd Hi. split; [done|..].
  - intros n Hn. rewrite (fblock_ext v v') by done. intros Hz. apply Hd. auto.
  - intros Hz. apply Hi. auto.
  - intros x n Hx%Hd. rewrite (fblock_ext v v') by done. auto.
  - intros x Hx%Hi. auto.
Qed.

(** The three ways [bmap] stores a new address. *)
Lemma fblock_direct v addrs bn b n :
  length addrs = 13%nat → 0 ≤ bn < NDIRECT → 0 ≤ n →
  fblock v (<[Z.to_nat bn := b]> addrs) n = if decide (n = bn) then b else fblock v addrs n.
Proof using. clear Hlay.
  intros Hl Hbn Hn. unfold NDIRECT in *. unfold fblock, ind_of, NDIRECT.
  assert (nth 12 (<[Z.to_nat bn := b]> addrs) 0 = nth 12 addrs 0) as ->.
  { rewrite !nth_lookup, list_lookup_insert_ne by lia. done. }
  destruct (Z.ltb_spec n 12); [|by rewrite decide_False by lia].
  rewrite !nth_lookup. case_decide as E.
  - subst. rewrite list_lookup_insert_eq by lia. done.
  - rewrite list_lookup_insert_ne by lia. done.
Qed.

Lemma fblock_new_ind v v' addrs b n :
  length addrs = 13%nat → ind_of addrs = 0 → b ≠ 0 → (∀ a, 0 ≤ a < BSIZE → v' b a = 0) → 0 ≤ n < MAXFILE →
  fblock v' (<[12%nat := b]> addrs) n = fblock v addrs n.
Proof using. clear Hlay.
  intros Hl Hz Hb Hv Hn. unfold MAXFILE, NDIRECT, NINDIRECT, BSIZE in *. unfold fblock. rewrite Hz. unfold ind_of, NDIRECT.
  assert (nth 12 (<[12%nat := b]> addrs) 0 = b) as -> by (rewrite nth_lookup, list_lookup_insert_eq by lia; done).
  rewrite (proj2 (Z.eqb_neq b 0)) by done. destruct (Z.ltb_spec n 12).
  - rewrite !nth_lookup, list_lookup_insert_ne by lia. done.
  - change (512 / 4) with 128 in Hn. unfold load32. rewrite !Hv by lia. done.
Qed.

Lemma fblock_indirect v v' addrs bn b n :
  ind_of addrs ≠ 0 → NDIRECT ≤ bn < MAXFILE → 0 ≤ n → 0 ≤ b < 4294967296 →
  v' (ind_of addrs) = store32 (v (ind_of addrs)) (4 * (bn - NDIRECT)) b →
  fblock v' addrs n = if decide (n = bn) then b else fblock v addrs n.
Proof using. clear Hlay.
  intros Hi Hbn Hn Hb Hv. unfold fblock. rewrite (proj2 (Z.eqb_neq _ 0)), Hv by done.
  unfold NDIRECT in *. destruct (Z.ltb_spec n 12); [by rewrite decide_False by lia|].
  case_decide as E.
  - subst. by apply load32_store32_eq.
  - apply load32_store32_ne. lia.
Qed.

(** ** bmap *)

Definition fs_ok (s : S) (O : Z → brole) : Prop :=
  bs_inv s ∧ alloc_ok sb (bs_view s) O ∧ bs_held s = ∅.

(** What may happen to the blocks while file [inum] grows. *)
Record grows_file (inum : Z) (s s' : S) (O O' : Z → brole) : Prop := {
  gf_ok : fs_ok s' O';
  gf_roles x : O' x = O x ∨ (O x = BFree ∧ ((∃ bn, O' x = BData inum bn) ∨ O' x = BInd inum));
  gf_frame x : O x ≠ BFree → O x ≠ BInd inum → x ≠ sb_bmapstart sb → bs_view s' x = bs_view s x
}.

Lemma onbs_ok {A} (m : M S A) s ic a s' : m s = Ok a s' → onbs m (s, ic) = Ok a (s', ic).
Proof. intros E. unfold onbs. by rewrite E. Qed.

Lemma inode_at_ok (s : S) ic ip i : ic !! ip = Some i → inode_at ip (s, ic) = Ok i (s, ic).
Proof. intros E. unfold inode_at. by rewrite E. Qed.

Lemma upd_inode_ok (s : S) ic ip i f :
  ic !! ip = Some i → upd_inode ip f (s, ic) = Ok () (s, <[ip := f i]> ic).
Proof. intros E. unfold upd_inode, modify. by rewrite (alter_insert_list _ _ i). Qed.

(** The allocator on a state without locked buffers but for [h]. *)
Lemma balloc_file s O inum k :
  bs_inv s → alloc_ok sb (bs_view s) O → (∀ x, x ∈ bs_held s → O x = BInd inum) →
  (size (bs_held s) ≤ 1)%nat → room sb s 1 → has_free O (1 + k) →
  ∃ b s', balloc sb s = Ok b s' ∧ allocated sb s s' O b.
Proof using Hlay.
  intros Hi Hal Hh Hsz Hroom Hfree.
  destruct (balloc_ok sb Hlay s O) as [(b & s' & E & Ha)|[Hn _]]; [done | done | | | lia | done | eauto |].
  - intros Hb%Hh. destruct (role_range (bs_view s) O (sb_bmapstart sb)) as (_ & _ & Hne); [done | congruence | done].
  - intros b Hb Hb'%Hh. congruence.
  - apply has_free_some in Hfree as [b Hb]. by destruct (Hn b).
Qed.

Lemma room_step s s' X n k :
  bs_logged s' ⊆ X ∪ ({[sb_bmapstart sb]} ∪ bs_logged s) → (size X ≤ n)%nat → room sb s (n + k) → room sb s' k.
Proof using. clear Hlay. intros Hl Hx Hr. apply (room_logged sb s s' X); [done|]. eapply room_mono; [done | lia]. Qed.

(** A direct block that is not there yet. *)
Lemma bmap_direct s O inum addrs bn n :
  fs_ok s O → fowns (bs_view s) O inum addrs → 0 ≤ bn < NDIRECT → fblock (bs_view s) addrs bn = 0 →
  room sb s 1 → has_free O (1 + n) →
  ∃ b s' O', balloc sb s = Ok b s' ∧ grows_file inum s s' O O' ∧
    fowns (bs_view s') O' inum (<[Z.to_nat bn := b]> addrs) ∧ b ≠ 0 ∧ O' b = BData inum bn ∧
    (∀ a, 0 ≤ a < BSIZE → bs_view s' b a = 0) ∧
    (∀ j, 0 ≤ j < MAXFILE → fblock (bs_view s') (<[Z.to_nat bn := b]> addrs) j =
       if decide (j = bn) then b else fblock (bs_view s) addrs j) ∧
    bs_logged s' = {[b]} ∪ ({[sb_bmapstart sb]} ∪ bs_logged s) ∧ has_free O' n.
Proof using Hlay.
  intros (Hi & Hal & Hh) Hfo Hbn Hz Hroom Hfree. pose proof (fo_len _ _ _ _ Hfo) as Hlen.
  assert (NDIRECT ≤ MAXFILE) as Hmax by done.
  destruct (balloc_file s O inum n) as (b & s' & E & Hb & _ & I' & Hal' & Hzero & Hfr & Hh' & Hl');
    [done | done | set_solver | rewrite Hh, size_empty; lia | done | done |].
  assert (b ≠ 0) as Hb0 by (intros ->; rewrite (role_0 _ _ Hal) in Hb; done).
  assert (∀ j, 0 ≤ j < MAXFILE → fblock (bs_view s') (<[Z.to_nat bn := b]> addrs) j =
       if decide (j = bn) then b else fblock (bs_view s) addrs j) as Hfb.
  { intros j Hj. rewrite fblock_direct by (done || lia). case_decide; [done|]. apply fblock_ext.
    intros Hnz. pose proof (fo_ind _ _ _ _ Hfo Hnz) as Hr. apply Hfr; [congruence|].
    apply (role_range (bs_view s) O); [done | congruence]. }
  exists b, s', (<[b := BData inum bn]> O). split; [done|]. split; [|split_and!].
  - split.
    + split; [done|]. split; [by apply alloc_recast | by rewrite Hh'].
    + intros x. destruct (decide (x = b)) as [->|]; [right; rewrite fn_lookup_insert; eauto|].
      left. by rewrite fn_lookup_insert_ne.
    + intros x Hx _ Hbm. apply Hfr; [congruence | done].
  - eapply fowns_data; [done | by eapply role_0 | done | lia | done | by rewrite length_insert | |done].
    unfold ind_of. rewrite !nth_lookup, list_lookup_insert_ne by (unfold NDIRECT in *; lia). done.
  - done.
  - by rewrite fn_lookup_insert.
  - done.
  - done.
  - done.
  - by apply has_free_take.
Qed.

(** The indirect block that is not there yet. *)
Lemma bmap_new_ind s O inum addrs n :
  fs_ok s O → fowns (bs_view s) O inum addrs → ind_of addrs = 0 →
  room sb s 1 → has_free O (1 + n) →
  ∃ b s' O', balloc sb s = Ok b s' ∧ grows_file inum s s' O O' ∧
    fowns (bs_view s') O' inum (<[12%nat := b]> addrs) ∧ b ≠ 0 ∧ ind_of (<[12%nat := b]> addrs) = b ∧
    (∀ j, 0 ≤ j < MAXFILE → fblock (bs_view s') (<[12%nat := b]> addrs) j = fblock (bs_view s) addrs j) ∧
    bs_logged s' = {[b]} ∪ ({[sb_bmapstart sb]} ∪ bs_logged s) ∧ has_free O' n ∧
    (∀ x, O x ≠ BFree → x ≠ sb_bmapstart sb → bs_view s' x = bs_view s x).
Proof using Hlay.
  intros (Hi & Hal & Hh) Hfo Hz Hroom Hfree. pose proof (fo_len _ _ _ _ Hfo) as Hlen.
  destruct (balloc_file s O inum n) as (b & s' & E & Hb & _ & I' & Hal' & Hzero & Hfr & Hh' & Hl');
    [done | done | set_solver | rewrite Hh, size_empty; lia | done | done |].
  assert (b ≠ 0) as Hb0 by (intros ->; rewrite (role_0 _ _ Hal) in Hb; done).
  assert (ind_of (<[12%nat := b]> addrs) = b) as Hind.
  { unfold ind_of. rewrite nth_lookup, list_lookup_insert_eq by lia. done. }
  assert (∀ j, 0 ≤ j < MAXFILE → fblock (bs_view s') (<[12%nat := b]> addrs) j = fblock (bs_view s) addrs j) as Hfb.
  { intros j Hj. by apply fblock_new_ind. }
  exists b, s', (<[b := BInd inum]> O). split; [done|]. split; [|split_and!]; try done.
  - split.
    + split; [done|]. split; [by apply alloc_recast | by rewrite Hh'].
    + intros x. destruct (decide (x = b)) as [->|]; [right; rewrite fn_lookup_insert; eauto|].
      left. by rewrite fn_lookup_insert_ne.
    + intros x Hx _ Hbm. apply Hfr; [congruence | done].
  - eapply fowns_ind; [done | by eapply role_0 | done | done | done | by rewrite length_insert | done].
  - by apply has_free_take.
  - intros x Hx Hbm. apply Hfr; [congruence|done].
Qed.

(** An entry of the indirect block that is there. *)
Lemma bmap_entry_old s O inum addrs bn :
  fs_ok s O → fowns (bs_view s) O inum addrs → ind_of addrs ≠ 0 → NDIRECT ≤ bn < MAXFILE →
  fblock (bs_view s) addrs bn ≠ 0 →
  ∃ s', bmap_entry sb (ind_of addrs) (bn - NDIRECT) s = Ok (fblock (bs_view s) addrs bn) s' ∧
    bs_inv s' ∧ (∀ x, bs_view s' x = bs_view s x) ∧ bs_held s' = bs_held s ∧ bs_logged s' = bs_logged s.
Proof using Hlay.
  intros (Hi & Hal & Hh) Hfo Hind Hbn Hnz. pose proof (fo_ind _ _ _ _ Hfo Hind) as Hr.
  assert (fblock (bs_view s) addrs bn = load32 (bs_view s (ind_of addrs)) (4 * (bn - NDIRECT))) as Ef.
  { unfold fblock. destruct (Z.ltb_spec bn NDIRECT); [lia|]. by rewrite (proj2 (Z.eqb_neq _ 0)). }
  destruct (bs_read_ok s (ind_of addrs)) as (s1 & E1 & I1 & V1 & H1 & L1);
    [done | apply (role_range (bs_view s) O (ind_of addrs)) in Hal; [lia | congruence] | rewrite Hh; set_solver | rewrite Hh, size_empty; lia |].
  destruct (bs_release_ok s1 (ind_of addrs) I1) as (s2 & E2 & I2 & V2 & H2 & L2); [rewrite H1; apply held_here|].
  exists s2. unfold bmap_entry. rewrite (bind_ok _ _ _ _ _ E1), bs_get_bind, V1, <- Ef.
  rewrite (proj2 (Z.eqb_neq _ 0)), bind_ret, (bind_ok _ _ _ _ _ E2) by done.
  split; [done|]. split_and!; [done | by intros; rewrite V2, V1 | | by rewrite L2].
  rewrite H2, H1. apply held_back. rewrite Hh. set_solver.
Qed.

(** An entry of the indirect block that is not there yet. *)
Lemma bmap_entry_new s O inum addrs bn n :
  fs_ok s O → fowns (bs_view s) O inum addrs → ind_of addrs ≠ 0 → NDIRECT ≤ bn < MAXFILE →
  fblock (bs_view s) addrs bn = 0 → room sb s 1 → (∀ b, fits s ({[b; ind_of addrs; sb_bmapstart sb]})) →
  has_free O (1 + n) →
  ∃ b s' O', bmap_entry sb (ind_of addrs) (bn - NDIRECT) s = Ok b s' ∧ grows_file inum s s' O O' ∧
    fowns (bs_view s') O' inum addrs ∧ b ≠ 0 ∧ O' b = BData inum bn ∧
    (∀ a, 0 ≤ a < BSIZE → bs_view s' b a = 0) ∧
    (∀ j, 0 ≤ j < MAXFILE → fblock (bs_view s') addrs j = if decide (j = bn) then b else fblock (bs_view s) addrs j) ∧
    bs_logged s' = {[ind_of addrs]} ∪ ({[b]} ∪ ({[sb_bmapstart sb]} ∪ bs_logged s)) ∧ has_free O' n.
Proof using Hlay.
  intros (Hi & Hal & Hh) Hfo Hind Hbn Hz Hroom Hfits Hfree. pose proof (fo_ind _ _ _ _ Hfo Hind) as Hr.
  destruct (role_range (bs_view s) O (ind_of addrs)) as (Hrng & Hbf & Hnbm); [done | congruence |].
  set (ind := ind_of addrs) in *.
  assert (load32 (bs_view s ind) (4 * (bn - NDIRECT)) = 0) as Ef.
  { unfold fblock in Hz. destruct (Z.ltb_spec bn NDIRECT); [lia|]. fold ind in Hz. by rewrite (proj2 (Z.eqb_neq _ 0)) in Hz. }
  destruct (bs_read_ok s ind) as (s1 & E1 & I1 & V1 & H1 & L1);
    [done | lia | rewrite Hh; set_solver | rewrite Hh, size_empty; lia |].
  rewrite Hh in H1.
  destruct (balloc_file s1 O inum n) as (b & s2 & E2 & Hb & _ & I2 & Hal2 & Hzero & Hfr & H2 & L2).
  { done. } { eapply alloc_ok_ext; [|done]. intros a. by rewrite V1. }
  { intros x. rewrite H1. intros Hx. assert (x = ind) as -> by set_solver. done. }
  { rewrite H1, union_empty_r_L, size_singleton. lia. }
  { by apply (room_step s s1 ∅ 0 1); [rewrite L1; set_solver | rewrite size_empty |]. } { done. }
  assert (ind ≠ b) as Hib by congruence.
  assert (b ≠ 0) as Hb0 by (intros ->; rewrite (role_0 _ _ Hal) in Hb; done).
  destruct (role_range (bs_view s) O b) as (Hrb & _ & Hbbm); [done | congruence |].
  destruct (bs_update_ok s2 ind (store32 (bs_view s ind) (4 * (bn - NDIRECT)) b) I2) as (s3 & E3 & I3 & V3 & H3 & L3).
  { rewrite H2, H1. apply held_here. }
  { rewrite L2, L1. specialize (Hfits b). unfold fits in Hfits. eapply Nat.le_trans; [|exact Hfits].
    apply subseteq_size. set_solver. }
  destruct (bs_release_ok s3 ind I3) as (s4 & E4 & I4 & V4 & H4 & L4); [rewrite H3, H2, H1; apply held_here|].
  assert (∀ x, x ≠ ind → bs_view s4 x = bs_view s2 x) as V42.
  { intros x Hx. rewrite V4, V3. by rewrite (proj2 (Z.eqb_neq x ind)). }
  assert (∀ j, 0 ≤ j < MAXFILE → fblock (bs_view s4) addrs j = if decide (j = bn) then b else fblock (bs_view s) addrs j) as Hfb.
  { intros j Hj. apply fblock_indirect; [done | done | lia | unfold FSSIZE in Hrb; lia |].
    rewrite V4, V3. fold ind. by rewrite Z.eqb_refl. }
  exists b, s4, (<[b := BData inum bn]> O).
  split. { unfold bmap_entry. by rewrite (bind_ok _ _ _ _ _ E1), bs_get_bind, V1, Ef, Z.eqb_refl, bind_assoc,
    (bind_ok _ _ _ _ _ E2), bind_assoc, (bind_ok _ _ _ _ _ E3), bind_ret, (bind_ok _ _ _ _ _ E4). }
  split; [|split_and!]; try done.
  - split.
    + split; [done|]. split; [|by rewrite H4, H3, H2, H1, held_back by set_solver].
      apply alloc_recast; [|done|done]. eapply alloc_ok_ext; [|done]. intros a. by rewrite V42 by done.
    + intros x. destruct (decide (x = b)) as [->|]; [right; rewrite fn_lookup_insert; eauto|].
      left. by rewrite fn_lookup_insert_ne.
    + intros x Hx Hxi Hbm. rewrite V42, Hfr, V1; [done | congruence | done | congruence].
  - eapply fowns_data; [done | by eapply role_0 | done | unfold NDIRECT in *; lia | done | apply Hfo | done | done].
  - by rewrite fn_lookup_insert.
  - intros a Ha. rewrite V42 by done. by apply Hzero.
  - by rewrite L4, L3, L2, L1.
  - by apply has_free_take.
Qed.

Lemma size_pair (b c : Z) : (size ({[b; c]} : gset Z) ≤ 2)%nat.
Proof using. clear Hlay.
  pose proof (size_union_alt {[b]} ({[c]} : gset Z)). assert (size ({[c]} ∖ {[b]} : gset Z) ≤ size ({[c]} : gset Z))%nat.
  { apply subseteq_size. set_solver. }
  rewrite !size_singleton in *. lia.
Qed.

Lemma room_pair s s' b c k :
  room sb s (2 + k) → bs_logged s' ⊆ {[b; c]} ∪ ({[sb_bmapstart sb]} ∪ bs_logged s) → room sb s' k.
Proof using. clear Hlay. intros Hr Hl. by apply (room_step s s' {[b; c]} 2 k); [| apply size_pair |]. Qed.

Lemma fits_pair s s' b c X :
  room sb s 2 → X ∪ bs_logged s' ⊆ {[b; c]} ∪ ({[sb_bmapstart sb]} ∪ bs_logged s) → fits s' X.
Proof using. clear Hlay.
  unfold room, fits. intros Hr Hl%subseteq_size. pose proof (size_pair b c).
  pose proof (size_union_alt {[b; c]} ({[sb_bmapstart sb]} ∪ bs_logged s)).
  assert (size (({[sb_bmapstart sb]} ∪ bs_logged s) ∖ {[b; c]}) ≤ size ({[sb_bmapstart sb]} ∪ bs_logged s))%nat
    by (apply subseteq_size; set_solver).
  lia.
Qed.

(** Nothing happened but for the cache of blocks. *)
Record same_disk (s s' : S) : Prop := {
  sd_inv : bs_inv s';
  sd_view x : bs_view s' x = bs_view s x;
  sd_held : bs_held s' = bs_held s;
  sd_logged : bs_logged s' = bs_logged s
}.

Lemma same_disk_refl s : bs_inv s → same_disk s s.
Proof using. clear Hlay. by split. Qed.

Lemma same_disk_trans s1 s2 s3 : same_disk s1 s2 → same_disk s2 s3 → same_disk s1 s3.
Proof using. clear Hlay. intros [A B C D] [A' B' C' D']. split; [done | intros x; by rewrite B', B | by rewrite C' | by rewrite D']. Qed.

Lemma same_disk_ok s s' O : fs_ok s O → same_disk s s' → fs_ok s' O.
Proof using. clear Hlay.
  intros (Hi & Hal & Hh) [A B C D]. split; [done|]. split; [|by rewrite C].
  eapply alloc_ok_ext; [|done]. intros a. by rewrite B.
Qed.

Lemma fblock_view v v' addrs bn : (∀ x, v' x = v x) → fblock v' addrs bn = fblock v addrs bn.
Proof using. clear Hlay. intros Hv. by apply fblock_ext. Qed.

Lemma fowns_view v v' O inum addrs : (∀ x, v' x = v x) → fowns v O inum addrs → fowns v' O inum addrs.
Proof using. clear Hlay. intros Hv Hf. by eapply fowns_ext. Qed.

Lemma room_same s s' k : same_disk s s' → room sb s k → room sb s' k.
Proof using. clear Hlay. intros Hs Hr. by apply (room_step s s' ∅ 0 k); [rewrite (sd_logged _ _ Hs); set_solver | rewrite size_empty |]. Qed.

(** A block that is there is only looked up. *)
Lemma bmap_old s ic ip i O bn :
  fs_ok s O → ic !! ip = Some i → fowns (bs_view s) O (i_inum i) (i_addrs i) → 0 ≤ bn < MAXFILE →
  fblock (bs_view s) (i_addrs i) bn ≠ 0 →
  ∃ s', bmap sb ip bn (s, ic) = Ok (fblock (bs_view s) (i_addrs i) bn) (s', ic) ∧ same_disk s s'.
Proof using Hlay.
  intros Hok Hic Hfo Hbn Hnz. pose proof Hok as (Hi & _). unfold bmap. rewrite (bind_ok _ _ _ _ _ (inode_at_ok _ _ _ _ Hic)).
  destruct (Z.ltb_spec bn NDIRECT) as [Hd|Hd].
  - assert (fblock (bs_view s) (i_addrs i) bn = nth (Z.to_nat bn) (i_addrs i) 0) as E.
    { unfold fblock. by rewrite (proj2 (Z.ltb_lt _ _)). }
    cbv zeta. rewrite <- E, (proj2 (Z.eqb_neq _ 0)) by done. eexists. split; [done | by apply same_disk_refl].
  - cbv zeta. rewrite (proj2 (Z.ltb_lt _ _)) by (unfold MAXFILE in Hbn; lia).
    destruct (Z.eqb_spec (ind_of (i_addrs i)) 0) as [Hz|Hz].
    { exfalso. apply Hnz. unfold fblock. rewrite (proj2 (Z.ltb_ge _ _)), Hz by done. done. }
    unfold bmap_ind. cbv zeta. change (nth (Z.to_nat NDIRECT) (i_addrs i) 0) with (ind_of (i_addrs i)).
    rewrite (proj2 (Z.eqb_neq _ 0)), bind_ret by done. destruct (bmap_entry_old s O (i_inum i) (i_addrs i) bn) as (s' & E & ? & ? & ? & ?);
      [done | done | done | lia | done |].
    exists s'. split; [by apply onbs_ok | by split].
Qed.

Record bmap_post (inum : Z) (s s' : S) (O O' : Z → brole) (addrs addrs' : list Z) (bn b : Z) (n : nat) : Prop := {
  bp_grows : grows_file inum s s' O O';
  bp_owns : fowns (bs_view s') O' inum addrs';
  bp_role : O' b = BData inum bn;
  bp_block j : 0 ≤ j < MAXFILE →
    fblock (bs_view s') addrs' j = if decide (j = bn) then b else fblock (bs_view s) addrs j;
  bp_old : fblock (bs_view s) addrs bn ≠ 0 → b = fblock (bs_view s) addrs bn;
  bp_new : fblock (bs_view s) addrs bn = 0 → ∀ a, 0 ≤ a < BSIZE → bs_view s' b a = 0;
  bp_ind : ind_of addrs ≠ 0 → ind_of addrs' ≠ 0;
  bp_logged : ∃ c, bs_logged s' ⊆ {[b; c]} ∪ ({[sb_bmapstart sb]} ∪ bs_logged s);
  bp_free : has_free O' n
}.

(** The number of blocks that are allocated to make block [bn] of a file:
    the block itself and the indirect block, as far as they are missing. *)
Definition bmap_need (v : Z → block) (addrs : list Z) (bn : Z) : nat :=
  if fblock v addrs bn =? 0 then 1 + (if (NDIRECT <=? bn) && (ind_of addrs =? 0) then 1 else 0) else 0.

Lemma grows_file_same inum s s' O : fs_ok s O → same_disk s s' → grows_file inum s s' O O.
Proof using. clear Hlay. intros Hok Hs. split; [by eapply same_disk_ok | by left | intros x _ _ _; apply Hs]. Qed.

Lemma grows_file_trans inum s1 s2 s3 O1 O2 O3 :
  grows_file inum s1 s2 O1 O2 → grows_file inum s2 s3 O2 O3 → grows_file inum s1 s3 O1 O3.
Proof using. clear Hlay.
  intros [A B C] [A' B' C']. split; [done|..].
  - intros x. destruct (B x) as [E|[Ef E]], (B' x) as [E'|[Ef' E']]; [left; congruence | right | right | right].
    + by rewrite <- E.
    + by rewrite E'.
    + destruct E as [[? E]|E]; congruence.
  - intros x Hf Hi Hb. destruct (B x) as [E|[Ef E]]; [|done]. rewrite C', C; try done; congruence.
Qed.

Lemma bmap_ind_ok s ic ip i O n :
  fs_ok s O → ic !! ip = Some i → fowns (bs_view s) O (i_inum i) (i_addrs i) → room sb s 1 →
  has_free O ((if ind_of (i_addrs i) =? 0 then 1 else 0) + n) →
  ∃ s' O' addrs', bmap_ind sb ip i (s, ic) = Ok (ind_of addrs') (s', <[ip := i <| i_addrs := addrs' |>]> ic) ∧
    grows_file (i_inum i) s s' O O' ∧ fowns (bs_view s') O' (i_inum i) addrs' ∧ ind_of addrs' ≠ 0 ∧
    (∀ j, 0 ≤ j < MAXFILE → fblock (bs_view s') addrs' j = fblock (bs_view s) (i_addrs i) j) ∧
    bs_logged s' ⊆ {[ind_of addrs']} ∪ ({[sb_bmapstart sb]} ∪ bs_logged s) ∧ has_free O' n.
Proof using Hlay.
  intros Hok Hic Hfo Hroom Hfree. unfold bmap_ind. cbv zeta.
  change (nth (Z.to_nat NDIRECT) (i_addrs i) 0) with (ind_of (i_addrs i)).
  destruct (Z.eqb_spec (ind_of (i_addrs i)) 0) as [Hz|Hz].
  - destruct (bmap_new_ind s O (i_inum i) (i_addrs i) n) as (b & s' & O' & E & Hg & Hfo' & Hb & Hib & Hfb & Hl & Hf & _); try done.
    exists s', O', (<[12%nat := b]> (i_addrs i)). rewrite (bind_ok _ _ _ _ _ (onbs_ok _ _ _ _ _ E)).
    rewrite (bind_ok _ _ _ _ _ (upd_inode_ok _ _ _ _ _ Hic)), Hib.
    split; [done|]. split_and!; try done. rewrite Hl. done.
  - exists s, O, (i_addrs i). split.
    { rewrite list_insert_id; [done|]. rewrite Hic. by destruct i. }
    split; [apply grows_file_same; [done | apply same_disk_refl, Hok]|].
    split_and!; try done. set_solver.
Qed.

Lemma bmap_ok s ic ip i O bn n :
  fs_ok s O → ic !! ip = Some i → fowns (bs_view s) O (i_inum i) (i_addrs i) → 0 ≤ bn < MAXFILE →
  room sb s 2 → has_free O (bmap_need (bs_view s) (i_addrs i) bn + n) →
  ∃ b s' O' addrs', bmap sb ip bn (s, ic) = Ok b (s', <[ip := i <| i_addrs := addrs' |>]> ic) ∧
    bmap_post (i_inum i) s s' O O' (i_addrs i) addrs' bn b n.
Proof using Hlay.
  intros Hok Hic Hfo Hbn Hroom Hfree. unfold bmap_need in Hfree.
  destruct (decide (fblock (bs_view s) (i_addrs i) bn = 0)) as [Hz|Hz].
  - rewrite Hz in Hfree. change (0 =? 0) with true in Hfree. cbv iota in Hfree. unfold bmap. rewrite (bind_ok _ _ _ _ _ (inode_at_ok _ _ _ _ Hic)). cbv zeta.
    destruct (Z.ltb_spec bn NDIRECT) as [Hd|Hd].
    + destruct (bmap_direct s O (i_inum i) (i_addrs i) bn n)
        as (b & s' & O' & E & Hg & Hfo' & Hb & Hrole & Hnew & Hfb & Hl' & Hf');
        [done | done | lia | done | eapply room_mono; [done | lia] | eapply has_free_mono; [done | lia] |].
      assert (nth (Z.to_nat bn) (i_addrs i) 0 =? 0 = true) as ->.
      { unfold fblock in Hz. rewrite (proj2 (Z.ltb_lt _ _)) in Hz by done. lia. }
      exists b, s', O', (<[Z.to_nat bn := b]> (i_addrs i)). rewrite (bind_ok _ _ _ _ _ (onbs_ok _ _ _ _ _ E)).
      rewrite (bind_ok _ _ _ _ _ (upd_inode_ok _ _ _ _ _ Hic)). split; [done|]. split; try done.
      * unfold ind_of. rewrite !nth_lookup, list_lookup_insert_ne by (unfold NDIRECT in *; lia). done.
      * exists b. rewrite Hl'. set_solver.
    + rewrite (proj2 (Z.ltb_lt _ _)) by (unfold MAXFILE in Hbn; lia).
      destruct (bmap_ind_ok s ic ip i O (1 + n)) as (s1 & O1 & addrs1 & E1 & Hg1 & Hfo1 & Hind & Hfb1 & Hl1 & Hf1);
        [done | done | done | eapply room_mono; [done | lia] | |].
      { eapply has_free_mono; [done|]. rewrite (proj2 (Z.leb_le _ _)) by done. cbn [andb]. destruct (_ =? 0); lia. }
      destruct (bmap_entry_new s1 O1 (i_inum i) addrs1 bn n)
        as (b & s2 & O2 & E2 & Hg2 & Hfo2 & Hb & Hrole & Hnew & Hfb2 & Hl2 & Hf2);
        [apply Hg1 | done | done | lia | by rewrite Hfb1 | | | done |].
      { apply (room_step s s1 {[ind_of addrs1]} 1 1); [done | by rewrite size_singleton |].
        eapply room_mono; [done | lia]. }
      { intros b. apply (fits_pair s s1 b (ind_of addrs1)); [done | set_solver]. }
      rewrite (bind_ok _ _ _ _ _ E1), (onbs_ok _ _ _ _ _ E2).
      exists b, s2, O2, addrs1. split; [done|]. split; try done.
      * by eapply grows_file_trans.
      * intros j Hj. rewrite Hfb2, Hfb1 by done. done.
      * exists (ind_of addrs1). rewrite Hl2. set_solver.
  - destruct (bmap_old s ic ip i O bn) as (s' & E & Hs); try done.
    exists (fblock (bs_view s) (i_addrs i) bn), s', O, (i_addrs i). split.
    { rewrite list_insert_id; [done|]. rewrite Hic. by destruct i. }
    split; try done.
    + by apply grows_file_same.
    + eapply fowns_view; [apply Hs | done].
    + by apply fo_data.
    + intros j Hj. rewrite (fblock_view _ _ _ _ (sd_view _ _ Hs)). by case_decide; subst.
    + exists 0. rewrite (sd_logged _ _ Hs). set_solver.
    + eapply has_free_mono; [done | lia].
Qed.
End files.
