(* ===== verification/FsData.v ===== *)
(** * File system: reading and writing files (readi, writei, iupdate)

    A file is the sequence of its bytes. [readi] returns a part of it,
    [writei] replaces and extends it, leaves every other file alone, and
    stays within the room a transaction has. *)
From stdpp Require Import functions.
From S2P Require Import Prelude Machine CString Bio FsBlock FsInode FsDinode FsFile.
Import KString.

(** Byte [off] of a file; a block that is not there reads as zeros. *)
Definition fbyte (v : Z → block) (addrs : list Z) (off : Z) : Z :=
  if fblock v addrs (off / BSIZE) =? 0 then 0 else v (fblock v addrs (off / BSIZE)) (off mod BSIZE).

(** The bytes [off, off+n) of a file. *)
Definition fbytes (v : Z → block) (addrs : list Z) (off n : Z) : list Z := fbyte v addrs <$> seqZ off n.

(** Offsets within one block. *)
Lemma same_block off k : 0 ≤ off → 0 ≤ k → off mod BSIZE + k < BSIZE →
  (off + k) / BSIZE = off / BSIZE ∧ (off + k) mod BSIZE = off mod BSIZE + k.
Proof. unfold BSIZE. intros. split; zmod. Qed.

Lemma block_of_offset off o m : 0 ≤ off → 0 < m ≤ BSIZE - off mod BSIZE → off ≤ o < off + m →
  o / BSIZE = off / BSIZE ∧ o mod BSIZE = off mod BSIZE + (o - off).
Proof. intros H1 H2 H3. replace o with (off + (o - off)) by lia. destruct (same_block off (o - off)); lia. Qed.

Lemma offset_in_block off o m : 0 ≤ off → 0 < m ≤ BSIZE - off mod BSIZE → o / BSIZE = off / BSIZE →
  off ≤ o < off + m ↔ off mod BSIZE ≤ o mod BSIZE < off mod BSIZE + m.
Proof. unfold BSIZE. intros. zmod. Qed.

Lemma get_bytes_fbytes v addrs off m :
  0 ≤ off → 0 ≤ m ≤ BSIZE - off mod BSIZE → fblock v addrs (off / BSIZE) ≠ 0 →
  get_bytes (v (fblock v addrs (off / BSIZE))) (off mod BSIZE) (Z.to_nat m) = fbytes v addrs off m.
Proof.
  intros Hoff Hm Hnz. unfold get_bytes, fbytes. unfold seqZ. rewrite <- list_fmap_compose.
  apply list_fmap_ext. intros k x Hk%lookup_seq. destruct Hk as [-> Hk]. simpl. unfold fbyte.
  destruct (same_block off (Z.of_nat k)) as [E1 E2]; [lia..|].
  replace (Z.of_nat k + off) with (off + Z.of_nat k) by lia. rewrite E1, E2.
  by rewrite (proj2 (Z.eqb_neq _ 0)).
Qed.

Lemma fbytes_app v addrs off m n : 0 ≤ m → 0 ≤ n →
  fbytes v addrs off (m + n) = fbytes v addrs off m ++ fbytes v addrs (off + m) n.
Proof. intros Hm Hn. unfold fbytes. by rewrite seqZ_app, fmap_app. Qed.

Lemma fbytes_ext v v' addrs addrs' off n :
  (∀ o, off ≤ o < off + n → fbyte v' addrs' o = fbyte v addrs o) → fbytes v' addrs' off n = fbytes v addrs off n.
Proof.
  intros Hv. unfold fbytes. apply list_fmap_ext. intros k o Ho.
  apply Hv. apply list_elem_of_lookup_2, elem_of_seqZ in Ho. lia.
Qed.

Lemma fbyte_view v v' addrs off : (∀ x, v' x = v x) → fbyte v' addrs off = fbyte v addrs off.
Proof. intros Hv. unfold fbyte. rewrite (fblock_view v v') by done. by rewrite Hv. Qed.

(** ** Loops over the blocks of a range *)

(** [N] rounds suffice for [n] bytes from [off] on. *)
Definition rounds (off n : Z) (N : nat) : Prop := 0 < n → off mod BSIZE + n ≤ BSIZE * Z.of_nat N.

Lemma rounds_step off n N m :
  0 ≤ off → 0 < n → m = Z.min n (BSIZE - off mod BSIZE) → rounds off n N →
  0 < m ≤ BSIZE - off mod BSIZE ∧ m ≤ n ∧ ∃ N', N = Datatypes.S N' ∧ rounds (off + m) (n - m) N'.
Proof.
  unfold rounds, BSIZE. intros Hoff Hn -> Hr. specialize (Hr Hn).
  pose proof (Z.mod_pos_bound off 512 ltac:(lia)). split; [lia|]. split; [lia|].
  destruct N as [|N']; [lia|]. exists N'. split; [done|]. intros Hpos.
  rewrite Z.min_r in * by lia. replace ((off + (512 - off mod 512)) mod 512) with 0; [lia|]. zmod.
Qed.

Lemma rounds_fuel off n : 0 ≤ off → 0 ≤ n → rounds off n (Z.to_nat (n / BSIZE + 2)).
Proof. unfold rounds, BSIZE. intros. rewrite Z2Nat.id; zmod. Qed.

Lemma in_file off n : 0 ≤ off → 0 < n → off + n ≤ MAXFILE * BSIZE → 0 ≤ off / BSIZE < MAXFILE.
Proof. unfold MAXFILE, NDIRECT, NINDIRECT, BSIZE. change (512 / 4) with 128. intros. zmod. Qed.

(** The number of blocks that [n] bytes from [off] on touch. *)
Definition touched (off n : Z) : nat := Z.to_nat ((off mod BSIZE + n + (BSIZE - 1)) / BSIZE).

Lemma touched_rounds off n : 0 ≤ off → 0 ≤ n → rounds off n (touched off n).
Proof.
  unfold rounds, touched, BSIZE. intros Hoff Hn _. pose proof (Z.mod_pos_bound off 512 ltac:(lia)).
  rewrite Z2Nat.id by (apply Z.div_pos; lia). zmod.
Qed.

Lemma touched_le off n : 0 ≤ off → 0 ≤ n → (touched off n ≤ Z.to_nat (n / BSIZE + 2))%nat.
Proof.
  unfold touched, BSIZE. intros Hoff Hn. pose proof (Z.mod_pos_bound off 512 ltac:(lia)).
  apply Z2Nat.inj_le; zmod.
Qed.

(** ** Blocks a write allocates *)

(** The number of blocks missing among those in [l]. *)
Definition lacking (v : Z → block) (addrs : list Z) (l : list Z) : nat :=
  length (filter (λ bn, fblock v addrs bn = 0) l).

(** What a write to the [N] blocks from block [q] on allocates: the missing
    ones, and the indirect block if it is missing and used. *)
Definition write_need (v : Z → block) (addrs : list Z) (q : Z) (N : nat) : nat :=
  lacking v addrs (seqZ q (Z.of_nat N)) +
  (if (ind_of addrs =? 0) && (NDIRECT <? q + Z.of_nat N) && negb (N =? 0)%nat then 1 else 0).

Lemma lacking_mono v v' addrs addrs' l :
  (∀ j, j ∈ l → fblock v addrs j ≠ 0 → fblock v' addrs' j ≠ 0) → (lacking v' addrs' l ≤ lacking v addrs l)%nat.
Proof.
  unfold lacking. induction l as [|x l IH]; intros Hk; [done|]. rewrite !filter_cons.
  specialize (IH (λ j Hj, Hk j (list_elem_of_further _ _ _ Hj))).
  repeat case_decide; simpl; try lia. by destruct (Hk x (list_elem_of_here _ _)).
Qed.

Lemma fblock_has_ind v addrs bn : NDIRECT ≤ bn → fblock v addrs bn ≠ 0 → ind_of addrs ≠ 0.
Proof. intros Hb. unfold fblock. rewrite (proj2 (Z.ltb_ge _ _)) by done. by destruct (Z.eqb_spec (ind_of addrs) 0). Qed.

(** A file only gains blocks. *)
Record grown (v v' : Z → block) (addrs addrs' : list Z) : Prop := {
  gw_block j : 0 ≤ j < MAXFILE → fblock v addrs j ≠ 0 → fblock v' addrs' j ≠ 0;
  gw_ind : ind_of addrs ≠ 0 → ind_of addrs' ≠ 0
}.

Lemma grown_refl v addrs : grown v v addrs addrs.
Proof. done. Qed.

Lemma grown_trans v1 v2 v3 a1 a2 a3 : grown v1 v2 a1 a2 → grown v2 v3 a2 a3 → grown v1 v3 a1 a3.
Proof. intros [A B] [A' B']. split; auto. Qed.

Lemma write_need_step v v' addrs addrs' q N :
  (∀ j, q < j < q + 1 + Z.of_nat N → fblock v addrs j ≠ 0 → fblock v' addrs' j ≠ 0) →
  (ind_of addrs ≠ 0 → ind_of addrs' ≠ 0) → fblock v' addrs' q ≠ 0 →
  (bmap_need v addrs q + write_need v' addrs' (q + 1) N ≤ write_need v addrs q (Datatypes.S N))%nat.
Proof.
  intros Hk Hi Hq. unfold write_need, bmap_need.
  assert (seqZ q (Z.of_nat (Datatypes.S N)) = q :: seqZ (q + 1) (Z.of_nat N)) as ->.
  { rewrite seqZ_cons by lia. f_equal. f_equal; lia. }
  pose proof (lacking_mono v v' addrs addrs' (seqZ (q + 1) (Z.of_nat N))) as Hl.
  assert (lacking v' addrs' (seqZ (q + 1)%Z (Z.of_nat N)) ≤ lacking v addrs (seqZ (q + 1)%Z (Z.of_nat N)))%nat as Hle.
  { apply Hl. intros j Hj%elem_of_seqZ. apply Hk. lia. }
  assert (lacking v addrs (q :: seqZ (q + 1) (Z.of_nat N)) = (if (fblock v addrs q =? 0)%Z then 1 else 0) + lacking v addrs (seqZ (q + 1)%Z (Z.of_nat N)))%nat as ->.
  { unfold lacking. rewrite filter_cons. destruct (Z.eqb_spec (fblock v addrs q) 0); [rewrite decide_True by done|rewrite decide_False by done]; done. }
  replace (q + 1 + Z.of_nat N) with (q + Z.of_nat (Datatypes.S N)) by lia. rewrite andb_true_r.
  destruct (Z.leb_spec NDIRECT q) as [Hd|Hd].
  - pose proof (fblock_has_ind _ _ _ Hd Hq) as Hi'. rewrite (proj2 (Z.eqb_neq (ind_of addrs') 0)) by done. cbn [andb].
    rewrite (proj2 (Z.ltb_lt NDIRECT _)) by lia. destruct (Z.eqb_spec (fblock v addrs q) 0), (Z.eqb_spec (ind_of addrs) 0); simpl; lia.
  - cbn [andb]. destruct (Z.eqb_spec (ind_of addrs) 0) as [|Hz].
    + destruct (fblock v addrs q =? 0), (ind_of addrs' =? 0), (NDIRECT <? _), (N =? 0)%nat; simpl; lia.
    + rewrite (proj2 (Z.eqb_neq (ind_of addrs') 0)) by auto. destruct (fblock v addrs q =? 0); simpl; lia.
Qed.

Lemma write_need_le v addrs q N : (write_need v addrs q N ≤ 2 * N)%nat.
Proof.
  unfold write_need, lacking. pose proof (length_filter (λ bn, fblock v addrs bn = 0) (seqZ q (Z.of_nat N))) as Hl.
  rewrite length_seqZ, Nat2Z.id in Hl. destruct N; [by rewrite andb_false_r|]. case_match; lia.
Qed.

Lemma lacking_app v addrs l1 l2 : lacking v addrs (l1 ++ l2) = (lacking v addrs l1 + lacking v addrs l2)%nat.
Proof. unfold lacking. by rewrite filter_app, length_app. Qed.

(** The blocks of two ranges, the second of which starts where the first
    ends, in the same block or the next. *)
Lemma touched_split off n1 n2 : 0 ≤ off → 0 < n1 → 0 ≤ n2 →
  let q := off / BSIZE in let q2 := (off + n1) / BSIZE in
  let A := touched off n1 in let N2 := touched (off + n1) n2 in let T := touched off (n1 + n2) in
  (0 < A ≤ T)%nat ∧ q + Z.of_nat A - 1 = (off + n1 - 1) / BSIZE ∧
  (q2 = q + Z.of_nat A ∧ N2 = (T - A)%nat ∨ q2 = q + Z.of_nat A - 1 ∧ N2 = Datatypes.S (T - A)).
Proof.
  unfold touched, BSIZE. cbv zeta. intros Ho H1 H2. pose proof (Z.mod_pos_bound off 512 ltac:(lia)).
  pose proof (Z.mod_pos_bound (off + n1) 512 ltac:(lia)).
  pose proof (Z.div_pos (off mod 512 + n1 + 511) 512 ltac:(lia) ltac:(lia)). pose proof (Z.div_pos (off mod 512 + (n1 + n2) + 511) 512 ltac:(lia) ltac:(lia)).
  pose proof (Z.div_pos ((off + n1) mod 512 + n2 + 511) 512 ltac:(lia) ltac:(lia)).
  split; [split; [apply (Nat2Z.inj_lt 0)|apply Nat2Z.inj_le]; rewrite ?Z2Nat.id by done; zmod|].
  split; [rewrite Z2Nat.id by done; zmod|].
  destruct (decide ((off + n1) mod 512 = 0)); [left|right]; (split; [rewrite ?Z2Nat.id by done; zmod|]);
    apply Nat2Z.inj; rewrite ?Nat2Z.inj_succ, Nat2Z.inj_sub, !Z2Nat.id by (done || apply Nat2Z.inj_le; rewrite !Z2Nat.id by done; zmod); zmod.
Qed.

Lemma touched_inside off n : 0 ≤ off → 0 ≤ n → off + n ≤ MAXFILE * BSIZE → off / BSIZE + Z.of_nat (touched off n) ≤ MAXFILE.
Proof.
  intros Ho Hn Hm. change (MAXFILE * BSIZE) with 71680 in Hm. change MAXFILE with 140. unfold touched, BSIZE.
  pose proof (Z.mod_pos_bound off 512 ltac:(lia)). rewrite Z2Nat.id by (apply Z.div_pos; lia). zmod.
Qed.

Lemma write_need_view v v' addrs q N : (∀ x, v' x = v x) → write_need v' addrs q N = write_need v addrs q N.
Proof.
  intros Hv. unfold write_need, lacking. f_equal. f_equal. apply list_filter_iff. intros bn. by rewrite (fblock_view _ _ _ _ Hv).
Qed.

Lemma write_need_mono v addrs q N T : (N ≤ T)%nat → (write_need v addrs q N ≤ write_need v addrs q T)%nat.
Proof.
  intros HN. unfold write_need. replace (Z.of_nat T) with (Z.of_nat N + Z.of_nat (T - N)) at 1 by lia.
  rewrite seqZ_app, lacking_app by lia. destruct (Nat.eqb_spec N 0); [rewrite andb_false_r; lia|].
  rewrite (proj2 (Nat.eqb_neq T 0)) by lia. rewrite !andb_true_r. destruct (ind_of addrs =? 0); [|simpl; lia]. cbn [andb].
  destruct (Z.ltb_spec NDIRECT (q + Z.of_nat N)); [rewrite (proj2 (Z.ltb_lt NDIRECT _)) by lia|]; lia.
Qed.

(** A write in two parts allocates together what one write would. *)
Lemma write_need_app v v' addrs addrs' off n1 n2 :
  0 ≤ off → 0 < n1 → 0 ≤ n2 → off + n1 + n2 ≤ MAXFILE * BSIZE → grown v v' addrs addrs' →
  fblock v' addrs' ((off + n1 - 1) / BSIZE) ≠ 0 →
  (write_need v addrs (off / BSIZE) (touched off n1) + write_need v' addrs' ((off + n1) / BSIZE) (touched (off + n1) n2)
   ≤ write_need v addrs (off / BSIZE) (touched off (n1 + n2)))%nat.
Proof.
  intros Ho H1 H2 Hm [Hg Hgi] Hlast. destruct (touched_split off n1 n2 Ho H1 H2) as (HA & El & Hq2).
  pose proof (touched_inside off (n1 + n2) Ho ltac:(lia) ltac:(lia)) as Hin. pose proof (Z.div_pos off BSIZE Ho ltac:(done)) as Hq.
  rewrite <- El in Hlast. set (q := off / BSIZE) in *. set (A := touched off n1) in *. set (T := touched off (n1 + n2)) in *.
  set (q2 := (off + n1) / BSIZE) in *. set (N2 := touched (off + n1) n2) in *. unfold write_need.
  assert (q2 + Z.of_nat N2 = q + Z.of_nat T) as Eq2 by lia. rewrite Eq2.
  assert (lacking v' addrs' (seqZ q2 (Z.of_nat N2)) ≤ lacking v addrs (seqZ (q + Z.of_nat A)%Z (Z.of_nat (T - A))))%nat as Hl2.
  { etransitivity; [|apply (lacking_mono v v' addrs addrs'); intros j Hj%elem_of_seqZ; apply Hg; lia].
    destruct Hq2 as [[-> ->]|[-> ->]]; [done|]. rewrite seqZ_cons by lia. unfold lacking at 1. rewrite filter_cons, decide_False by done.
    unfold lacking. apply Nat.eq_le_incl. f_equal. f_equal. f_equal; lia. }
  assert (seqZ q (Z.of_nat T) = seqZ q (Z.of_nat A) ++ seqZ (q + Z.of_nat A) (Z.of_nat (T - A))) as ->.
  { replace (Z.of_nat T) with (Z.of_nat A + Z.of_nat (T - A)) by lia. apply seqZ_app; lia. }
  rewrite lacking_app. assert (negb (A =? 0)%nat = true ∧ negb (T =? 0)%nat = true) as [-> ->].
  { rewrite !negb_true_iff, !Nat.eqb_neq. lia. }
  rewrite !andb_true_r. destruct (Z.ltb_spec NDIRECT (q + Z.of_nat A)) as [Hd|Hd].
  - rewrite (proj2 (Z.eqb_neq (ind_of addrs') 0)) by (by eapply fblock_has_ind; [|exact Hlast]; lia). cbn [andb].
    rewrite (proj2 (Z.ltb_lt NDIRECT (q + Z.of_nat T))) by lia. destruct (ind_of addrs =? 0); simpl; lia.
  - rewrite andb_false_r. destruct (Z.eqb_spec (ind_of addrs) 0) as [|Hz].
    + destruct (ind_of addrs' =? 0), (NDIRECT <? _), (N2 =? 0)%nat; simpl; lia.
    + rewrite (proj2 (Z.eqb_neq (ind_of addrs') 0)) by auto. simpl. lia.
Qed.

Section data.
Context {S : Type} `{BlockStore S}.
Variable sb : superblock.
Context (Hlay : layout_ok sb).

Implicit Types (s : S) (v : Z → block) (O : Z → brole) (b x bn : Z).

(** ** Reading *)

(** A file: its size is covered by its blocks. *)
Record file_ok (v : Z → block) (O : Z → brole) (i : inode) : Prop := {
  fi_owns : fowns v O (i_inum i) (i_addrs i);
  fi_size : 0 ≤ i_size i ≤ MAXFILE * BSIZE;
  fi_full o : 0 ≤ o < i_size i → fblock v (i_addrs i) (o / BSIZE) ≠ 0
}.

Lemma file_ok_view v v' O i : (∀ x, v' x = v x) → file_ok v O i → file_ok v' O i.
Proof.
  intros Hv [H1 H2 H3]. split; [by eapply fowns_view | done|].
  intros o Ho. rewrite (fblock_view v v') by done. auto.
Qed.

Lemma readi_loop_ok N : ∀ s ic ip i O off n,
  fs_ok sb s O → ic !! ip = Some i → file_ok (bs_view s) O i → 0 ≤ off → 0 ≤ n → off + n ≤ i_size i →
  rounds off n N →
  ∃ s', readi_loop sb (Datatypes.S N) ip off n (s, ic) = Ok (fbytes (bs_view s) (i_addrs i) off n) (s', ic) ∧
    same_disk s s'.
Proof using Hlay.
  induction N as [|N IH]; intros s ic ip i O off n Hok Hic Hf Hoff Hn Hsz Hr; cbn [readi_loop];
    destruct (Z.leb_spec n 0) as [Hz|Hpos].
  1, 3: (assert (n = 0) as -> by lia; exists s; split; [done | apply same_disk_refl, Hok]).
  { exfalso. specialize (Hr Hpos). pose proof (Z.mod_pos_bound off BSIZE ltac:(done)). lia. }
  destruct (rounds_step off n _ _ Hoff Hpos eq_refl Hr) as (Hm & Hmn & N' & [= <-] & Hr').
  set (m := Z.min n (BSIZE - off mod BSIZE)) in *. destruct Hf as [Hfo Hfs Hff].
  assert (fblock (bs_view s) (i_addrs i) (off / BSIZE) ≠ 0) as Hnz by (apply Hff; lia).
  assert (0 ≤ off / BSIZE < MAXFILE) as Hbn by (apply (in_file off n); lia).
  destruct (bmap_old sb Hlay s ic ip i O (off / BSIZE)) as (s1 & E1 & Hs1); [done..|].
  destruct (same_disk_ok sb s s1 O Hok Hs1) as (I1 & Hal1 & H1).
  destruct (role_range sb Hlay (bs_view s1) O (fblock (bs_view s) (i_addrs i) (off / BSIZE))) as (Hrng & Hbf & _);
    [done | by rewrite (fo_data _ _ _ _ Hfo) |].
  destruct (read_release_ok s1 (fblock (bs_view s) (i_addrs i) (off / BSIZE)) (λ d, mret d)) as (s2 & I2 & V2 & H2 & L2 & E2);
    [done | lia | rewrite H1; apply not_elem_of_empty | rewrite H1, size_empty; lia |].
  assert (same_disk s s2) as Hs2 by (eapply same_disk_trans; [done | by split]).
  destruct (IH s2 ic ip i O (off + m) (n - m)) as (s3 & E3 & Hs3).
  { by eapply same_disk_ok. } { done. } { by eapply file_ok_view; [apply Hs2|]. } { lia. } { lia. } { lia. } { done. }
  exists s3. split; [|by eapply same_disk_trans].
  rewrite (bind_ok _ _ _ _ _ E1), (bind_ok _ _ _ _ _ (onbs_ok _ _ _ _ _ E2)). cbv zeta. fold m.
  rewrite (bind_ok _ _ _ _ _ E3), (sd_view _ _ Hs1), get_bytes_fbytes by (done || lia).
  rewrite (fbytes_ext (bs_view s) (bs_view s2) (i_addrs i)) by (intros; apply fbyte_view, Hs2).
  rewrite <- fbytes_app by lia. by replace (m + (n - m)) with n by lia.
Qed.

(** ** Writing *)

(** [bmap] does not change the contents of the file. *)
Lemma bmap_content inum s s' O O' addrs addrs' bn b n o :
  alloc_ok sb (bs_view s) O → fowns (bs_view s) O inum addrs →
  bmap_post sb inum s s' O O' addrs addrs' bn b n → 0 ≤ o < MAXFILE * BSIZE →
  fbyte (bs_view s') addrs' o = fbyte (bs_view s) addrs o.
Proof using Hlay.
  intros Hal Hfo Hp Ho. assert (0 ≤ o / BSIZE < MAXFILE) as Hj by (apply (in_file o 1); lia).
  pose proof (Z.mod_pos_bound o BSIZE ltac:(done)) as Hmod.
  assert (∀ x, x ≠ 0 → x = fblock (bs_view s) addrs (o / BSIZE) → bs_view s' x = bs_view s x) as Hold.
  { intros x Hx ->. pose proof (fo_data _ _ _ _ Hfo _ Hj Hx) as Hr.
    destruct (role_range sb Hlay (bs_view s) O (fblock (bs_view s) addrs (o / BSIZE))) as (_ & _ & Hbm); [done | congruence |].
    apply (gf_frame _ _ _ _ _ _ (bp_grows _ _ _ _ _ _ _ _ _ _ _ Hp)); congruence. }
  unfold fbyte. rewrite (bp_block _ _ _ _ _ _ _ _ _ _ _ Hp) by done. case_decide as Ej.
  - subst bn. destruct (Z.eqb_spec b 0) as [->|Hb].
    { pose proof (bp_role _ _ _ _ _ _ _ _ _ _ _ Hp) as Hr.
      rewrite (role_0 sb Hlay _ _ (proj1 (proj2 (gf_ok _ _ _ _ _ _ (bp_grows _ _ _ _ _ _ _ _ _ _ _ Hp))))) in Hr. done. }
    destruct (Z.eqb_spec (fblock (bs_view s) addrs (o / BSIZE)) 0) as [Hz|Hz].
    + by apply (bp_new _ _ _ _ _ _ _ _ _ _ _ Hp).
    + pose proof (bp_old _ _ _ _ _ _ _ _ _ _ _ Hp Hz) as ->. by rewrite Hold.
  - destruct (Z.eqb_spec (fblock (bs_view s) addrs (o / BSIZE)) 0); [done|]. by rewrite Hold.
Qed.

(** The effect of storing bytes in one block of a file. *)
Lemma put_content v v' O inum addrs off bs o :
  fowns v O inum addrs → 0 ≤ off → 0 < Z.of_nat (length bs) ≤ BSIZE - off mod BSIZE →
  fblock v addrs (off / BSIZE) ≠ 0 → 0 ≤ off / BSIZE < MAXFILE →
  (∀ x, v' x = if x =? fblock v addrs (off / BSIZE)
               then put_bytes (v (fblock v addrs (off / BSIZE))) (off mod BSIZE) bs else v x) →
  (∀ j, fblock v' addrs j = fblock v addrs j) → 0 ≤ o < MAXFILE * BSIZE →
  fbyte v' addrs o =
  if decide (off ≤ o < off + Z.of_nat (length bs)) then u8 (nth (Z.to_nat (o - off)) bs 0) else fbyte v addrs o.
Proof.
  intros Hfo Hoff Hm Hnz Hbn Hv Hfb Ho. unfold fbyte. rewrite Hfb.
  destruct (decide (o / BSIZE = off / BSIZE)) as [Ej|Ej].
  - rewrite Ej, (proj2 (Z.eqb_neq _ 0)), Hv, Z.eqb_refl, put_bytes_byte by done.
    pose proof (offset_in_block off o _ Hoff Hm Ej) as Hiff.
    destruct (decide (off ≤ o < off + Z.of_nat (length bs))) as [Hin|Hin].
    + rewrite decide_True by (by apply Hiff). destruct (block_of_offset off o _ Hoff Hm Hin) as [_ ->].
      do 2 f_equal. lia.
    + by rewrite decide_False by (by rewrite <- Hiff).
  - rewrite decide_False by (intros Hin; by destruct (block_of_offset off o _ Hoff Hm Hin)).
    destruct (Z.eqb_spec (fblock v addrs (o / BSIZE)) 0) as [|Hz]; [done|].
    rewrite Hv. destruct (Z.eqb_spec (fblock v addrs (o / BSIZE)) (fblock v addrs (off / BSIZE))) as [Eb|]; [|done].
    pose proof (fo_data _ _ _ _ Hfo _ (in_file o 1 ltac:(lia) ltac:(lia) ltac:(lia)) Hz) as H1.
    pose proof (fo_data _ _ _ _ Hfo _ Hbn Hnz) as H2. congruence.
Qed.

(** What may happen to the blocks while file [inum] is written. *)
Record wrote (inum : Z) (s s' : S) (O O' : Z → brole) : Prop := {
  wr_ok : fs_ok sb s' O';
  wr_roles x : O' x = O x ∨ (O x = BFree ∧ ((∃ bn, O' x = BData inum bn) ∨ O' x = BInd inum));
  wr_frame x : O x ≠ BFree → O x ≠ BInd inum → (∀ bn, O x ≠ BData inum bn) → x ≠ sb_bmapstart sb →
    bs_view s' x = bs_view s x
}.

Lemma wrote_trans inum s1 s2 s3 O1 O2 O3 :
  wrote inum s1 s2 O1 O2 → wrote inum s2 s3 O2 O3 → wrote inum s1 s3 O1 O3.
Proof.
  intros [A B C] [A' B' C']. split; [done|..].
  - intros x. destruct (B x) as [E|[Ef E]], (B' x) as [E'|[Ef' E']]; [left; congruence | right | right | right].
    + by rewrite <- E.
    + by rewrite E'.
    + destruct E as [[? E]|E]; congruence.
  - intros x Hf Hi Hd Hb. destruct (B x) as [E|[Ef E]]; [|done].
    rewrite C', C; try done; [congruence | congruence | intros bn; rewrite E; apply Hd].
Qed.

(** Another file does not notice. *)
Lemma wrote_other inum s s' O O' inum' addrs :
  alloc_ok sb (bs_view s) O → wrote inum s s' O O' → inum' ≠ inum → fowns (bs_view s) O inum' addrs →
  fowns (bs_view s') O' inum' addrs ∧
  (∀ o, 0 ≤ o < MAXFILE * BSIZE → fbyte (bs_view s') addrs o = fbyte (bs_view s) addrs o).
Proof using Hlay.
  intros Hal [A B C] Hne Hfo.
  assert (∀ x, (∃ bn, O x = BData inum' bn) ∨ O x = BInd inum' → bs_view s' x = bs_view s x) as Hfr.
  { intros x Hx. assert (O x ≠ BMeta) as Hm by (destruct Hx as [[? E]|E]; congruence).
    destruct (role_range sb Hlay (bs_view s) O x Hal Hm) as (_ & _ & Hbm).
    apply C; [destruct Hx as [[? E]|E]; congruence .. | intros bn; destruct Hx as [[? E]|E]; congruence | done]. }
  assert (∀ n, fblock (bs_view s') addrs n = fblock (bs_view s) addrs n) as Hfb.
  { intros n. apply fblock_ext. intros Hz. apply Hfr. right. by apply Hfo. }
  split.
  - apply (fowns_ext (bs_view s) _ O); [done | | |].
    + intros Hz. apply Hfr. right. by apply Hfo.
    + intros x bn. destruct (B x) as [->|[-> [[? ->]| ->]]]; [done | |]; split; congruence.
    + intros x. destruct (B x) as [->|[-> [[? ->]| ->]]]; [done | |]; split; congruence.
  - intros o Ho. unfold fbyte. rewrite Hfb. destruct (Z.eqb_spec (fblock (bs_view s) addrs (o / BSIZE)) 0) as [|Hz]; [done|].
    rewrite Hfr; [done|]. left. eexists. apply (fo_data _ _ _ _ Hfo); [apply (in_file o 1); lia | done].
Qed.

(** The file after the bytes [src] were stored from [off] on. *)
Record put_file (inum : Z) (s s' : S) (O O' : Z → brole) (addrs addrs' : list Z) (off : Z) (src : list Z) : Prop := {
  pf_wrote : wrote inum s s' O O';
  pf_owns : fowns (bs_view s') O' inum addrs';
  pf_kept j : 0 ≤ j < MAXFILE → fblock (bs_view s) addrs j ≠ 0 →
    fblock (bs_view s') addrs' j = fblock (bs_view s) addrs j;
  pf_there o : off ≤ o < off + Z.of_nat (length src) → fblock (bs_view s') addrs' (o / BSIZE) ≠ 0;
  pf_byte o : 0 ≤ o < MAXFILE * BSIZE → fbyte (bs_view s') addrs' o =
    if decide (off ≤ o < off + Z.of_nat (length src)) then u8 (nth (Z.to_nat (o - off)) src 0)
    else fbyte (bs_view s) addrs o;
  pf_ind : ind_of addrs ≠ 0 → ind_of addrs' ≠ 0;
  pf_same : (∀ o, off ≤ o < off + Z.of_nat (length src) → fblock (bs_view s) addrs (o / BSIZE) ≠ 0) → addrs' = addrs
}.

(** One round of the loop of [writei]. *)
Lemma write_block_ok s ic ip i O off bs n :
  fs_ok sb s O → ic !! ip = Some i → fowns (bs_view s) O (i_inum i) (i_addrs i) → 0 ≤ off →
  0 < Z.of_nat (length bs) ≤ BSIZE - off mod BSIZE → off + Z.of_nat (length bs) ≤ MAXFILE * BSIZE →
  room sb s 2 → has_free O (bmap_need (bs_view s) (i_addrs i) (off / BSIZE) + n) →
  ∃ b c s1 s' O' addrs' ic', bmap sb ip (off / BSIZE) (s, ic) = Ok b (s1, ic') ∧
    (bs_read b;; d ← bs_get b; bs_update b (put_bytes d (off mod BSIZE) bs);; bs_release b) s1 = Ok () s' ∧
    ic' = <[ip := i <| i_addrs := addrs' |>]> ic ∧
    put_file (i_inum i) s s' O O' (i_addrs i) addrs' off bs ∧
    bs_logged s' ⊆ {[b; c]} ∪ ({[sb_bmapstart sb]} ∪ bs_logged s) ∧ has_free O' n.
Proof using Hlay.
  intros Hok Hic Hfo Hoff Hm Hmax Hroom Hfree.
  assert (0 ≤ off / BSIZE < MAXFILE) as Hbn by (eapply (in_file off (Z.of_nat (length bs))); lia).
  destruct (bmap_ok sb Hlay s ic ip i O (off / BSIZE) n) as (b & s1 & O1 & addrs1 & E1 & Hp); [done..|].
  pose proof Hp as [Hg Hfo1 Hrole Hblk Hold Hnew Hind1 (c & Hl) Hf1]. pose proof Hg as [(I1 & Hal1 & H1) Hro Hfr].
  destruct (role_range sb Hlay (bs_view s1) O1 b) as (Hrng & Hbf & Hbm); [done | congruence |].
  destruct (rmw_ok s1 b (λ d, put_bytes d (off mod BSIZE) bs)) as (s2 & E2 & I2 & V2 & H2 & L2);
    [done | lia | rewrite H1; apply not_elem_of_empty | rewrite H1, size_empty; lia
    | apply (fits_pair sb s s1 b c); [done | set_solver] |].
  assert (fblock (bs_view s1) addrs1 (off / BSIZE) = b) as Eb by (by rewrite Hblk, decide_True).
  assert (∀ x, x ≠ b → bs_view s2 x = bs_view s1 x) as V21.
  { intros x Hx. rewrite V2. by rewrite (proj2 (Z.eqb_neq x b)). }
  assert (ind_of addrs1 ≠ 0 → bs_view s2 (ind_of addrs1) = bs_view s1 (ind_of addrs1)) as Hind.
  { intros Hz. apply V21. pose proof (fo_ind _ _ _ _ Hfo1 Hz). congruence. }
  assert (∀ j, fblock (bs_view s2) addrs1 j = fblock (bs_view s1) addrs1 j) as Hfb2 by (intros; by apply fblock_ext).
  exists b, c, s1, s2, O1, addrs1, (<[ip := i <| i_addrs := addrs1 |>]> ic).
  split; [done|]. split; [done|]. split; [done|]. split; [|split; [rewrite L2; set_solver | done]]. split.
  - split; [|done|].
    + split; [done|]. split; [|by rewrite H2]. eapply alloc_ok_ext; [|done]. intros a. by rewrite V21 by congruence.
    + intros x Hx Hxi Hxd Hxb. destruct (Hro x) as [Ex|[? _]]; [|done].
      rewrite V21, Hfr; [done.. |]. intros ->. apply (Hxd (off / BSIZE)). congruence.
  - by apply (fowns_ext (bs_view s1) _ O1).
  - intros j Hj Hz. rewrite Hfb2, Hblk by done. case_decide; [|done]. subst j. auto.
  - intros o Ho. rewrite Hfb2. destruct (block_of_offset off o _ Hoff Hm Ho) as [-> _]. rewrite Eb. lia.
  - intros o Ho. rewrite <- (bmap_content _ _ _ _ _ _ _ _ _ _ o (proj1 (proj2 Hok)) Hfo Hp) by done.
    apply (put_content _ _ O1 (i_inum i)); rewrite ?Eb; try done; lia.
  - done.
  - intros Hall. destruct (bmap_old sb Hlay s ic ip i O (off / BSIZE)) as (s1' & E1' & _);
      [done | done | done | done | apply Hall; lia |].
    rewrite E1 in E1'. injection E1' as _ _ E. apply (f_equal (.!! ip)) in E.
    rewrite list_lookup_insert_eq, Hic in E by (by eapply lookup_lt_Some). injection E as E. by rewrite <- E.
Qed.

Lemma put_file_app inum s1 s2 s3 O1 O2 O3 a1 a2 a3 off src1 src2 :
  put_file inum s1 s2 O1 O2 a1 a2 off src1 → put_file inum s2 s3 O2 O3 a2 a3 (off + Z.of_nat (length src1)) src2 →
  0 ≤ off → off + Z.of_nat (length src1) + Z.of_nat (length src2) ≤ MAXFILE * BSIZE →
  put_file inum s1 s3 O1 O3 a1 a3 off (src1 ++ src2).
Proof.
  intros [A B C D E I F] [A' B' C' D' E' I' F'] Hoff Hmax.
  assert (∀ o, off ≤ o < off + Z.of_nat (length src1) + Z.of_nat (length src2) → 0 ≤ o / BSIZE < MAXFILE) as Hin.
  { intros o Ho. apply (in_file o 1); lia. }
  split; rewrite ?length_app, ?Nat2Z.inj_add.
  - by eapply wrote_trans.
  - done.
  - intros j Hj Hz. rewrite C', C; [done.. |]. by rewrite C.
  - intros o Ho. destruct (decide (o < off + Z.of_nat (length src1))).
    + rewrite C'; [apply D; lia | apply Hin; lia | apply D; lia].
    + apply D'. lia.
  - intros o Ho. rewrite E', E by done.
    destruct (decide (o < off + Z.of_nat (length src1))).
    + rewrite decide_False by lia. repeat case_decide; try lia; try done. by rewrite app_nth1 by lia.
    + repeat case_decide; try lia; try done. rewrite app_nth2 by lia. do 2 f_equal. lia.
  - auto.
  - intros Hall. rewrite F', F; [done | intros; apply Hall; lia |].
    intros o Ho. rewrite C; [apply Hall; lia | apply Hin; lia | apply Hall; lia].
Qed.

Lemma put_file_nil inum s O addrs off : fs_ok sb s O → fowns (bs_view s) O inum addrs → put_file inum s s O O addrs addrs off [].
Proof using. clear Hlay.
  intros Hok Hfo. split; try done; simpl.
  - split; [done | by left | done].
  - lia.
  - intros o _. by rewrite decide_False by lia.
Qed.

Lemma writei_loop_S fuel ip off src :
  writei_loop sb (Datatypes.S fuel) ip off src =
  if (length src =? 0)%nat then mret (M := M fsys) off
  else
    b ← bmap sb ip (off / BSIZE);
    onbs (bs_read b;;
          d ← bs_get b;
          bs_update b (put_bytes d (off mod BSIZE)
            (take (Z.to_nat (Z.min (Z.of_nat (length src)) (BSIZE - off mod BSIZE))) src));;
          bs_release b);;
    writei_loop sb fuel ip (off + Z.min (Z.of_nat (length src)) (BSIZE - off mod BSIZE))
      (drop (Z.to_nat (Z.min (Z.of_nat (length src)) (BSIZE - off mod BSIZE))) src).
Proof. done. Qed.

Lemma bmap_need_le v addrs q N : (bmap_need v addrs q ≤ write_need v addrs q (Datatypes.S N))%nat.
Proof using.
  clear Hlay. unfold write_need, bmap_need, lacking. rewrite seqZ_cons by lia. rewrite filter_cons.
  destruct (Z.eqb_spec (fblock v addrs q) 0); [|lia]. rewrite decide_True by done. simpl length. rewrite andb_true_r.
  destruct (Z.leb_spec NDIRECT q); [|simpl; lia]. rewrite (proj2 (Z.ltb_lt _ _)) by lia. destruct (_ =? 0); simpl; lia.
Qed.

(** A round that does not use up the bytes ends at the end of its block. *)
Lemma next_block off m q : 0 ≤ off → off / BSIZE = q → m = BSIZE - off mod BSIZE → (off + m) / BSIZE = q + 1.
Proof using. clear Hlay. unfold BSIZE. intros. zmod. Qed.

Lemma writei_loop_ok N : ∀ fuel s ic ip i O off src q k n,
  (N < fuel)%nat → fs_ok sb s O → ic !! ip = Some i → fowns (bs_view s) O (i_inum i) (i_addrs i) → 0 ≤ off →
  off + Z.of_nat (length src) ≤ MAXFILE * BSIZE → rounds off (Z.of_nat (length src)) N →
  (0 < Z.of_nat (length src) → off / BSIZE = q) → 0 ≤ q → q + Z.of_nat N ≤ MAXFILE →
  room sb s (2 * N + k) → has_free O (write_need (bs_view s) (i_addrs i) q N + n) →
  ∃ s' O' addrs', writei_loop sb fuel ip off src (s, ic) =
      Ok (off + Z.of_nat (length src)) (s', <[ip := i <| i_addrs := addrs' |>]> ic) ∧
    put_file (i_inum i) s s' O O' (i_addrs i) addrs' off src ∧ room sb s' k ∧ has_free O' n.
Proof using Hlay.
  induction N as [|N IH]; intros [|fuel] s ic ip i O off src q k n Hfuel Hok Hic Hfo Hoff Hmax Hr Hq Hq0 HqN Hroom Hfree;
    try lia; rewrite writei_loop_S;
    destruct (Nat.eqb_spec (length src) 0) as [Hz|Hpos].
  1, 3: (apply nil_length_inv in Hz as ->; exists s, O, (i_addrs i); split;
    [simpl; rewrite Z.add_0_r, list_insert_id; [done | by rewrite Hic; destruct i]|]; split; [by apply put_file_nil|];
    split; [eapply room_mono; [done | lia] | eapply has_free_mono; [done | lia]]).
  { exfalso. specialize (Hr ltac:(lia)). pose proof (Z.mod_pos_bound off BSIZE ltac:(done)). lia. }
  destruct (rounds_step off _ _ _ Hoff (ltac:(lia) : 0 < Z.of_nat (length src)) eq_refl Hr) as (Hm & Hmn & N' & [= <-] & Hr').
  set (m := Z.min (Z.of_nat (length src)) (BSIZE - off mod BSIZE)) in *.
  assert (Z.of_nat (length (take (Z.to_nat m) src)) = m) as Hlm by (rewrite length_take; lia).
  specialize (Hq ltac:(lia)).
  destruct (write_block_ok s ic ip i O off (take (Z.to_nat m) src)
    (write_need (bs_view s) (i_addrs i) q (Datatypes.S N) - bmap_need (bs_view s) (i_addrs i) q + n))
    as (b & c & s1 & s2 & O2 & addrs2 & ic2 & E1 & E2 & -> & Hp & Hl & Hf2);
    [done | done | done | done | lia | lia | eapply room_mono; [done | lia] | |].
  { rewrite Hq. eapply has_free_mono; [done|]. pose proof (bmap_need_le (bs_view s) (i_addrs i) q N). lia. }
  pose proof (write_need_step (bs_view s) (bs_view s2) (i_addrs i) addrs2 q N) as Hneed.
  assert (fblock (bs_view s2) addrs2 q ≠ 0) as Hqz by (rewrite <- Hq; apply (pf_there _ _ _ _ _ _ _ _ _ Hp); lia).
  specialize (Hneed ltac:(intros j Hj Hz; rewrite (pf_kept _ _ _ _ _ _ _ _ _ Hp); (done || lia)) (pf_ind _ _ _ _ _ _ _ _ _ Hp) Hqz).
  destruct (IH fuel s2 (<[ip := i <| i_addrs := addrs2 |>]> ic) ip (i <| i_addrs := addrs2 |>) O2 (off + m) (drop (Z.to_nat m) src) (q + 1) k n)
    as (s3 & O3 & addrs3 & E3 & Hp3 & Hr3 & Hf3).
  { lia. } { apply Hp. } { rewrite list_lookup_insert_eq; [done | by eapply lookup_lt_Some]. } { apply Hp. } { lia. }
  { rewrite length_drop. lia. } { rewrite length_drop. replace (Z.of_nat _) with (Z.of_nat (length src) - m) by lia. done. }
  { rewrite length_drop. intros Hpos'. apply (next_block off m q); lia. } { lia. } { lia. }
  { eapply (room_pair sb s s2 b c); [|done]. eapply room_mono; [done | lia]. } { eapply has_free_mono; [done|]. simpl. lia. }
  exists s3, O3, addrs3. split; [|split; [|done]].
  - rewrite (bind_ok _ _ _ _ _ E1), (bind_ok _ _ _ _ _ (onbs_ok _ _ _ _ _ E2)), E3.
    rewrite length_drop, list_insert_insert_eq. f_equal. lia.
  - rewrite <- (take_drop (Z.to_nat m) src). eapply put_file_app; [done | by rewrite Hlm | done |].
    rewrite length_drop. lia.
Qed.

(** ** Inodes on disk *)

Definition synced (v : Z → block) (i : inode) : Prop := get_dinode (v (IBLOCK (i_inum i) sb)) i = i.

Lemma iblock_range inum : 0 ≤ inum < sb_ninodes sb → 0 ≤ IBLOCK inum sb < sb_bmapstart sb ∧ bs_first ≤ IBLOCK inum sb < FSSIZE.
Proof using Hlay.
  intros Hi. destruct Hlay as [[[H1 H2] Hf] H3 H4 H5]. unfold IBLOCK.
  assert (0 ≤ inum / IPB ≤ sb_ninodes sb / IPB); [|lia].
  split; [apply Z.div_pos; [lia | done] | apply Z.div_le_mono; [done | lia]].
Qed.

Lemma iblock_meta v O inum : alloc_ok sb v O → 0 ≤ inum < sb_ninodes sb → O (IBLOCK inum sb) = BMeta.
Proof using Hlay.
  intros Hal Hi. pose proof (iblock_range inum Hi). pose proof Hlay as [_ _ H4 _].
  destruct (decide (O (IBLOCK inum sb) = BMeta)) as [|Hm]; [done|]. apply (al_meta _ _ _ Hal) in Hm. lia.
Qed.

Lemma iupdate_ok s ic ip i O :
  fs_ok sb s O → ic !! ip = Some i → 0 ≤ i_inum i < sb_ninodes sb → fits s {[IBLOCK (i_inum i) sb]} →
  ∃ s', iupdate sb ip (s, ic) = Ok () (s', ic) ∧ fs_ok sb s' O ∧
    (∀ x, bs_view s' x = if x =? IBLOCK (i_inum i) sb then put_dinode i (bs_view s x) else bs_view s x) ∧
    bs_logged s' = {[IBLOCK (i_inum i) sb]} ∪ bs_logged s.
Proof using Hlay.
  intros (Hi & Hal & Hh) Hic Hin Hfit. destruct (iblock_range _ Hin) as [Hr1 Hr2].
  destruct (rmw_ok s (IBLOCK (i_inum i) sb) (put_dinode i)) as (s' & E & I & V & H' & L);
    [done | lia | rewrite Hh; apply not_elem_of_empty | rewrite Hh, size_empty; lia | done |].
  exists s'. unfold iupdate. rewrite (bind_ok _ _ _ _ _ (inode_at_ok _ _ _ _ Hic)). split; [by apply onbs_ok|].
  split; [|split; [|done]].
  - split; [done|]. split; [|by rewrite H']. eapply alloc_ok_ext; [|done]. intros a. rewrite V.
    by rewrite (proj2 (Z.eqb_neq _ (IBLOCK (i_inum i) sb))) by lia.
  - intros x. rewrite V. by destruct (Z.eqb_spec x (IBLOCK (i_inum i) sb)) as [->|].
Qed.

(** Changing metadata does not change any file. *)
Lemma fblock_meta v v' O inum addrs j :
  (∀ x, O x ≠ BMeta → v' x = v x) → fowns v O inum addrs → fblock v' addrs j = fblock v addrs j.
Proof.
  intros Hv Hfo. apply fblock_ext. intros Hz. apply Hv. by rewrite (fo_ind _ _ _ _ Hfo).
Qed.

Lemma fowns_meta v v' O inum addrs : (∀ x, O x ≠ BMeta → v' x = v x) → fowns v O inum addrs → fowns v' O inum addrs.
Proof.
  intros Hv Hfo. apply (fowns_ext v v' O); [done | | done | done]. intros Hz. apply Hv. by rewrite (fo_ind _ _ _ _ Hfo).
Qed.

Lemma fbyte_meta v v' O inum addrs o :
  (∀ x, O x ≠ BMeta → v' x = v x) → fowns v O inum addrs → 0 ≤ o < MAXFILE * BSIZE → fbyte v' addrs o = fbyte v addrs o.
Proof.
  intros Hv Hfo Ho. unfold fbyte. rewrite (fblock_meta v v' O inum) by done.
  destruct (Z.eqb_spec (fblock v addrs (o / BSIZE)) 0) as [|Hz]; [done|].
  rewrite Hv; [done|]. rewrite (fo_data _ _ _ _ Hfo); [done | apply (in_file o 1); lia | done].
Qed.

Lemma file_ok_meta v v' O i : (∀ x, O x ≠ BMeta → v' x = v x) → file_ok v O i → file_ok v' O i.
Proof.
  intros Hv [A B C]. split; [by eapply fowns_meta | done|]. intros o Ho.
  rewrite (fblock_meta v v' O (i_inum i)) by done. auto.
Qed.

(** The addresses of an inode are block numbers. *)
Lemma fowns_addr v O inum addrs k : alloc_ok sb v O → fowns v O inum addrs → 0 ≤ nth k addrs 0 < FSSIZE.
Proof using Hlay.
  intros Hal Hfo. destruct (decide (nth k addrs 0 = 0)) as [->|Hz]; [done|].
  assert (k < 13)%nat as Hk.
  { destruct (decide (k < 13)%nat); [done|]. rewrite nth_overflow in Hz; [done|]. rewrite (fo_len _ _ _ _ Hfo). lia. }
  assert (O (nth k addrs 0) ≠ BMeta) as Hr.
  { destruct (decide (k = 12)%nat) as [->|].
    - pose proof (fo_ind _ _ _ _ Hfo Hz) as E. unfold ind_of in E. by rewrite E.
    - assert (fblock v addrs (Z.of_nat k) = nth k addrs 0) as E.
      { unfold fblock, NDIRECT. rewrite (proj2 (Z.ltb_lt _ _)), Nat2Z.id by lia. done. }
      rewrite <- E in *. rewrite (fo_data _ _ _ _ Hfo); [done | change MAXFILE with 140; lia | done]. }
  apply (role_range sb Hlay v) in Hr; [lia | done].
Qed.

(** The file system after [src] was written to the file of [i] at [off]. *)
Record writei_post (s s' : S) (O O' : Z → brole) (i i' : inode) (off : Z) (src : list Z) : Prop := {
  wi_ok : fs_ok sb s' O';
  wi_file : file_ok (bs_view s') O' i';
  wi_wf : inode_wf i';
  wi_synced : synced (bs_view s') i';
  wi_size : i_size i' = Z.max (i_size i) (off + Z.of_nat (length src));
  wi_fields : i' = i <| i_addrs := i_addrs i' |> <| i_size := i_size i' |>;
  wi_byte o : 0 ≤ o < MAXFILE * BSIZE → fbyte (bs_view s') (i_addrs i') o =
    if decide (off ≤ o < off + Z.of_nat (length src)) then u8 (nth (Z.to_nat (o - off)) src 0)
    else fbyte (bs_view s) (i_addrs i) o;
  wi_others j : i_inum j ≠ i_inum i → 0 ≤ i_inum j < sb_ninodes sb → file_ok (bs_view s) O j →
    file_ok (bs_view s') O' j ∧
    (∀ o, 0 ≤ o < MAXFILE * BSIZE → fbyte (bs_view s') (i_addrs j) o = fbyte (bs_view s) (i_addrs j) o) ∧
    (synced (bs_view s) j → synced (bs_view s') j);
  wi_grown : grown (bs_view s) (bs_view s') (i_addrs i) (i_addrs i')
}.

Lemma wrote_meta inum s s' O O' x :
  wrote inum s s' O O' → O x = BMeta → x ≠ sb_bmapstart sb → bs_view s' x = bs_view s x ∧ O' x = BMeta.
Proof using. clear Hlay.
  intros [A B C] Hx Hb. destruct (B x) as [E|[E _]]; [|congruence].
  split; [apply C; congruence | congruence].
Qed.

Lemma put_file_others s s' O O' i addrs' off src j :
  fs_ok sb s O → put_file (i_inum i) s s' O O' (i_addrs i) addrs' off src → i_inum j ≠ i_inum i →
  0 ≤ i_inum j < sb_ninodes sb → file_ok (bs_view s) O j →
  file_ok (bs_view s') O' j ∧
  (∀ o, 0 ≤ o < MAXFILE * BSIZE → fbyte (bs_view s') (i_addrs j) o = fbyte (bs_view s) (i_addrs j) o) ∧
  bs_view s' (IBLOCK (i_inum j) sb) = bs_view s (IBLOCK (i_inum j) sb).
Proof using Hlay.
  intros (Hi & Hal & Hh) Hp Hne Hj [A B C]. pose proof (pf_wrote _ _ _ _ _ _ _ _ _ Hp) as Hw.
  destruct (wrote_other _ _ _ _ _ _ _ Hal Hw Hne A) as [A' Hb].
  split; [|split; [done|]].
  - split; [done | done|]. intros o Ho. specialize (C o Ho).
    rewrite (fblock_ext (bs_view s)); [done|]. intros Hz. pose proof (fo_ind _ _ _ _ A Hz) as Hr.
    destruct (role_range sb Hlay (bs_view s) O (ind_of (i_addrs j))) as (_ & _ & Hbm); [done | congruence |].
    apply (wr_frame _ _ _ _ _ Hw); [congruence | congruence | congruence | done].
  - apply (wrote_meta _ _ _ _ _ _ Hw); [by eapply iblock_meta | pose proof (iblock_range _ Hj); lia].
Qed.

(** No inode was written: nothing was added to the file. *)
Lemma writei_inside s s' O O' i addrs' off src :
  fs_ok sb s O → file_ok (bs_view s) O i → inode_wf i → synced (bs_view s) i → 0 ≤ i_inum i < sb_ninodes sb →
  0 ≤ off → off + Z.of_nat (length src) ≤ i_size i →
  put_file (i_inum i) s s' O O' (i_addrs i) addrs' off src →
  addrs' = i_addrs i ∧ writei_post s s' O O' i i off src.
Proof using Hlay.
  intros Hok [A B C] Hwf Hsync Hin Hoff Hsz Hp.
  assert (addrs' = i_addrs i) as -> by (apply (pf_same _ _ _ _ _ _ _ _ _ Hp); intros o Ho; apply C; lia).
  destruct (wrote_meta _ _ _ _ _ (IBLOCK (i_inum i) sb) (pf_wrote _ _ _ _ _ _ _ _ _ Hp)) as [E _];
    [by eapply iblock_meta; [apply Hok|] | pose proof (iblock_range _ Hin); lia |].
  split; [done|]. split; try done.
  - apply Hp.
  - split; [apply Hp | done|]. intros o Ho.
    rewrite (pf_kept _ _ _ _ _ _ _ _ _ Hp); [auto | apply (in_file o 1); lia | auto].
  - unfold synced. by rewrite E.
  - lia.
  - by destruct i.
  - apply Hp.
  - intros j Hne Hj Hf. destruct (put_file_others _ _ _ _ _ _ _ _ j Hok Hp Hne Hj Hf) as (H1 & H2 & H3).
    split; [done|]. split; [done|]. unfold synced. by rewrite H3.
  - split; [|done]. intros j Hj Hz. by rewrite (pf_kept _ _ _ _ _ _ _ _ _ Hp).
Qed.

(** The file grew and its inode was written. *)
Lemma writei_beyond s s1 s2 O O' i i' off src :
  fs_ok sb s O → file_ok (bs_view s) O i → inode_wf i → 0 ≤ i_inum i < sb_ninodes sb → 0 ≤ off ≤ i_size i →
  i_size i < off + Z.of_nat (length src) ≤ MAXFILE * BSIZE →
  put_file (i_inum i) s s1 O O' (i_addrs i) (i_addrs i') off src →
  i' = i <| i_addrs := i_addrs i' |> <| i_size := off + Z.of_nat (length src) |> → fs_ok sb s2 O' →
  (∀ x, bs_view s2 x = if x =? IBLOCK (i_inum i) sb then put_dinode i' (bs_view s1 x) else bs_view s1 x) →
  writei_post s s2 O O' i i' off src.
Proof using Hlay.
  intros Hok [A B C] Hwf Hin Hoff Hsz Hp Ei Hok2 V.
  assert (i_inum i' = i_inum i) as En by (by rewrite Ei).
  assert (i_size i' = off + Z.of_nat (length src)) as Es by (by rewrite Ei).
  pose proof (wr_ok _ _ _ _ _ (pf_wrote _ _ _ _ _ _ _ _ _ Hp)) as (_ & Hal1 & _).
  assert (∀ x, O' x ≠ BMeta → bs_view s2 x = bs_view s1 x) as Hmeta.
  { intros x Hx. rewrite V. destruct (Z.eqb_spec x (IBLOCK (i_inum i) sb)) as [->|]; [|done].
    destruct Hx. by eapply iblock_meta. }
  assert (inode_wf i') as Hwf'.
  { destruct Hwf. rewrite Ei. split; simpl; try done.
    - change (MAXFILE * BSIZE) with 71680 in Hsz. lia.
    - apply (pf_owns _ _ _ _ _ _ _ _ _ Hp).
    - intros k. pose proof (fowns_addr _ _ _ _ k Hal1 (pf_owns _ _ _ _ _ _ _ _ _ Hp)). unfold FSSIZE in *. lia. }
  split; try done.
  - apply (file_ok_meta (bs_view s1)); [done|]. split; [rewrite En; apply Hp | rewrite Es; lia |].
    intros o Ho. rewrite Es in Ho. destruct (decide (o < i_size i)).
    + rewrite (pf_kept _ _ _ _ _ _ _ _ _ Hp); [apply C; lia | apply (in_file o 1); lia | apply C; lia].
    + apply (pf_there _ _ _ _ _ _ _ _ _ Hp). lia.
  - unfold synced. rewrite En, V, Z.eqb_refl. by apply get_put_dinode.
  - lia.
  - by rewrite Es, <- Ei.
  - intros o Ho. rewrite (fbyte_meta (bs_view s1) _ O' (i_inum i)) by (done || apply Hp). by apply Hp.
  - intros j Hne Hj Hf. destruct (put_file_others _ _ _ _ _ _ _ _ j Hok Hp Hne Hj Hf) as (H1 & H2 & H3).
    split; [by apply (file_ok_meta (bs_view s1))|]. split.
    + intros o Ho. rewrite (fbyte_meta (bs_view s1) _ O' (i_inum j)); [by apply H2 | done | apply H1 | done].
    + unfold synced. rewrite <- H3, V. destruct (Z.eqb_spec (IBLOCK (i_inum j) sb) (IBLOCK (i_inum i) sb)) as [Eb|]; [|done].
      rewrite get_put_dinode_ne; [done | apply Hwf' |]. rewrite En. intros Em. apply Hne.
      unfold IBLOCK, IPB, BSIZE, DINODE_SIZE in *. change (512 / 64) with 8 in *. zmod.
  - split; [|apply Hp]. intros j Hj Hz. rewrite (fblock_meta (bs_view s1) _ O' (i_inum i)) by (done || apply Hp).
    by rewrite (pf_kept _ _ _ _ _ _ _ _ _ Hp).
Qed.

(** ** readi and writei *)

Notation dev_reads := (Z → option (nat → Z → M (@fsys S) (Z * list Z))).
Notation dev_writes := (Z → option (nat → list Z → M (@fsys S) Z)).

Lemma writei_ok (dev_write : dev_writes) s ic ip i O off src k n :
  fs_ok sb s O → ic !! ip = Some i → file_ok (bs_view s) O i → inode_wf i → synced (bs_view s) i →
  0 ≤ i_inum i < sb_ninodes sb → i_type i ≠ T_DEV → 0 ≤ off ≤ i_size i →
  off + Z.of_nat (length src) ≤ MAXFILE * BSIZE →
  let N := touched off (Z.of_nat (length src)) in
  room sb s (2 * N + (1 + k)) → has_free O (write_need (bs_view s) (i_addrs i) (off / BSIZE) N + n) →
  ∃ s' O' i', writei sb dev_write ip off src (s, ic) = Ok (Z.of_nat (length src)) (s', <[ip := i']> ic) ∧
    writei_post s s' O O' i i' off src ∧ room sb s' k ∧ has_free O' n.
Proof using Hlay.
  intros Hok Hic Hf Hwf Hsync Hin Ht Hoff Hmax N Hroom Hfree. pose proof Hf as [Hfo Hsz Hfull].
  pose proof (touched_rounds off (Z.of_nat (length src)) ltac:(lia) ltac:(lia)) as HN.
  pose proof (touched_le off (Z.of_nat (length src)) ltac:(lia) ltac:(lia)) as HN'.
  pose proof (touched_inside off (Z.of_nat (length src)) ltac:(lia) ltac:(lia) Hmax) as Hin'. fold N in HN, HN', Hin'.
  destruct (writei_loop_ok N (Datatypes.S (Z.to_nat (Z.of_nat (length src) / BSIZE + 2))) s ic ip i O off src (off / BSIZE) (1 + k) n)
    as (s1 & O1 & addrs1 & E1 & Hp & Hr1 & Hf1);
    [lia | done | done | done | lia | done | done | done | apply Z.div_pos; [lia | done] | done | done | done |].
  unfold writei. rewrite (bind_ok _ _ _ _ _ (inode_at_ok _ _ _ _ Hic)). cbv zeta.
  change (MAXFILE * BSIZE) with 71680 in *. unfold u32.
  rewrite (proj2 (Z.eqb_neq _ T_DEV)), Z.mod_small by (done || lia).
  rewrite (proj2 (Z.ltb_ge _ off)), (proj2 (Z.ltb_ge (off + _) off)), (proj2 (Z.ltb_ge 71680 _)) by lia. cbn [orb].
  rewrite (bind_ok _ _ _ _ _ E1). clear E1.
  assert (<[ip := i <| i_addrs := addrs1 |>]> ic !! ip = Some (i <| i_addrs := addrs1 |>)) as Hic1
    by (rewrite list_lookup_insert_eq; [done | by eapply lookup_lt_Some]).
  rewrite (bind_ok _ _ _ _ _ (inode_at_ok _ _ _ _ Hic1)).
  change (i_size (i <| i_addrs := addrs1 |>)) with (i_size i).
  destruct (Z.ltb_spec (i_size i) (off + Z.of_nat (length src))) as [Hgt|Hle].
  - rewrite (proj2 (Z.ltb_lt 0 _)) by lia. cbn [andb when]. rewrite bind_assoc.
    rewrite (bind_ok _ _ _ _ _ (upd_inode_ok _ _ _ _ _ Hic1)), list_insert_insert_eq.
    set (i' := i <| i_addrs := addrs1 |> <| i_size := off + Z.of_nat (length src) |>).
    destruct (iupdate_ok s1 (<[ip := i']> ic) ip i' O1) as (s2 & E2 & Hok2 & V2 & L2);
      [apply Hp | rewrite list_lookup_insert_eq; [done | by eapply lookup_lt_Some] | done | by eapply (room_fits sb s1 _ k) |].
    exists s2, O1, i'. rewrite (bind_ok _ _ _ _ _ E2). split; [done|]. split; [|split; [|done]].
    + by eapply (writei_beyond s s1 s2).
    + apply (room_step sb s1 s2 {[IBLOCK (i_inum i) sb]} 1 k); [rewrite L2; set_solver | by rewrite size_singleton | done].
  - rewrite andb_false_r. cbn [when]. rewrite bind_ret.
    destruct (writei_inside s s1 O O1 i addrs1 off src) as [-> Hpost]; [done | done | done | done | done | lia | lia | done |].
    exists s1, O1, i. split; [by replace (i <| i_addrs := i_addrs i |>) with i by (by destruct i)|].
    split; [done|]. split; [eapply room_mono; [done | lia] | done].
Qed.

Lemma readi_ok (dev_read : dev_reads) s ic ip i O off n :
  fs_ok sb s O → ic !! ip = Some i → file_ok (bs_view s) O i → i_type i ≠ T_DEV →
  0 ≤ off ≤ i_size i → 0 ≤ n → off + n < 4294967296 →
  ∃ s', readi sb dev_read ip off n (s, ic) =
      Ok (Z.min n (i_size i - off), fbytes (bs_view s) (i_addrs i) off (Z.min n (i_size i - off))) (s', ic) ∧
    same_disk s s'.
Proof using Hlay.
  intros Hok Hic Hf Ht Hoff Hn Hover. unfold readi. rewrite (bind_ok _ _ _ _ _ (inode_at_ok _ _ _ _ Hic)). cbv zeta.
  unfold u32. rewrite (proj2 (Z.eqb_neq _ T_DEV)), Z.mod_small by (done || lia).
  rewrite (proj2 (Z.ltb_ge _ off)), (proj2 (Z.ltb_ge (off + _) off)) by lia. cbn [orb].
  assert ((if i_size i <? off + n then i_size i - off else n) = Z.min n (i_size i - off)) as ->
    by (destruct (Z.ltb_spec (i_size i) (off + n)); lia).
  set (m := Z.min n (i_size i - off)).
  destruct (readi_loop_ok (Z.to_nat (m / BSIZE + 2)) s ic ip i O off m) as (s' & E & Hs);
    [done | done | done | lia | lia | lia | apply rounds_fuel; lia |].
  exists s'. by rewrite (bind_ok _ _ _ _ _ E).
Qed.

(** C13: writing a file, for an inode in memory that agrees with the one on
    disk. [writei] of [n] bytes at an offset within the file, not beyond the
    largest file size, returns [n], and afterwards byte [o] of the file is the
    one written if [off <= o < off+n] and the old one otherwise; the size is
    the maximum of the old size and [off+n]; the inode on disk agrees with the
    one in memory; the bitmap agrees with the blocks in use; and every other
    file keeps its blocks, its contents and its inode. It needs room in the
    transaction for two blocks per block touched, the inode and the bitmap,
    and as many free blocks on the disk as blocks are missing, the indirect
    block included, so none if all are there; nothing else of the free space
    is used. An offset beyond the end of the file or an end beyond the largest
    file, also one that wraps around, gives -1 and changes nothing. *)
Theorem writei_correct (dev_write : dev_writes) s ic ip i O off src k n :
  fs_ok sb s O → ic !! ip = Some i → file_ok (bs_view s) O i → inode_wf i → synced (bs_view s) i →
  0 ≤ i_inum i < sb_ninodes sb → i_type i ≠ T_DEV → 0 ≤ off < 4294967296 → Z.of_nat (length src) < 4294967296 →
  let N := touched off (Z.of_nat (length src)) in
  (off ≤ i_size i → off + Z.of_nat (length src) ≤ MAXFILE * BSIZE →
   room sb s (2 * N + (1 + k)) → has_free O (write_need (bs_view s) (i_addrs i) (off / BSIZE) N + n) →
   ∃ s' O' i', writei sb dev_write ip off src (s, ic) = Ok (Z.of_nat (length src)) (s', <[ip := i']> ic) ∧
     writei_post s s' O O' i i' off src ∧ room sb s' k ∧ has_free O' n) ∧
  (i_size i < off ∨ MAXFILE * BSIZE < off + Z.of_nat (length src) → writei sb dev_write ip off src (s, ic) = Ok (-1) (s, ic)).
Proof using Hlay.
  intros Hok Hic Hf Hwf Hsync Hin Ht Hoff Hlen N. split.
  - intros Hsz Hmax Hroom Hfree. apply (writei_ok dev_write s ic ip i O off src k n); (done || lia).
  - intros Hbad. unfold writei. rewrite (bind_ok _ _ _ _ _ (inode_at_ok _ _ _ _ Hic)). cbv zeta.
    rewrite (proj2 (Z.eqb_neq _ T_DEV)) by done. pose proof (fi_size _ _ _ Hf) as Hs.
    destruct (Z.ltb_spec (i_size i) off); [done|]. cbn [orb].
    destruct (Z.ltb_spec (u32 (off + Z.of_nat (length src))) off); [done|].
    by rewrite (proj2 (Z.ltb_lt _ _)) by (destruct Hbad; lia).
Qed.

Lemma readi_beyond (dev_read : dev_reads) s ic ip i off n :
  ic !! ip = Some i → i_type i ≠ T_DEV → 0 ≤ off < 4294967296 → 0 ≤ n < 4294967296 →
  i_size i < off ∨ 4294967296 ≤ off + n → readi sb dev_read ip off n (s, ic) = Ok (-1, []) (s, ic).
Proof using.
  intros Hic Ht Hoff Hn Hbad. unfold readi. rewrite (bind_ok _ _ _ _ _ (inode_at_ok _ _ _ _ Hic)). cbv zeta.
  rewrite (proj2 (Z.eqb_neq _ T_DEV)) by done.
  destruct (Z.ltb_spec (i_size i) off); [done|]. cbn [orb].
  rewrite (proj2 (Z.ltb_lt _ _)); [done|]. unfold u32. destruct Hbad; [lia|].
  rewrite <- (Z.mod_add _ (-1)), Z.mod_small by lia. lia.
Qed.

(** Reading a file. [readi] returns the bytes of the file from [off] on,
    as many as were asked for or as there are, and leaves the disk as it is;
    an offset beyond the end of the file, or an end that wraps around, gives
    -1. *)
Theorem readi_correct (dev_read : dev_reads) s ic ip i O off n :
  fs_ok sb s O → ic !! ip = Some i → file_ok (bs_view s) O i → i_type i ≠ T_DEV →
  0 ≤ off < 4294967296 → 0 ≤ n < 4294967296 →
  (off ≤ i_size i → off + n < 4294967296 →
   ∃ s', readi sb dev_read ip off n (s, ic) =
       Ok (Z.min n (i_size i - off), fbytes (bs_view s) (i_addrs i) off (Z.min n (i_size i - off))) (s', ic) ∧
     same_disk s s') ∧
  (i_size i < off ∨ 4294967296 ≤ off + n → readi sb dev_read ip off n (s, ic) = Ok (-1, []) (s, ic)).
Proof using Hlay.
  intros Hok Hic Hf Ht Hoff Hn. split.
  - intros Hsz Hover. apply (readi_ok dev_read s ic ip i O); try done; lia.
  - intros Hbad. by eapply readi_beyond.
Qed.

(** The bytes just written. *)
Lemma written_bytes s s' O O' i i' off src :
  writei_post s s' O O' i i' off src → 0 ≤ off → off + Z.of_nat (length src) ≤ MAXFILE * BSIZE →
  Forall (λ b, 0 ≤ b < 256) src → fbytes (bs_view s') (i_addrs i') off (Z.of_nat (length src)) = src.
Proof.
  intros Hp Hoff Hmax Hb. unfold fbytes. apply list_eq. intros k. rewrite list_lookup_fmap.
  destruct (decide (k < length src)%nat) as [Hk|Hk].
  - destruct (lookup_lt_is_Some_2 src k Hk) as [x Hx]. rewrite (lookup_seqZ_lt off) by lia. simpl. rewrite Hx. f_equal.
    rewrite (wi_byte _ _ _ _ _ _ _ _ Hp), decide_True by lia.
    replace (Z.to_nat (off + Z.of_nat k - off)) with k by lia. rewrite (nth_lookup_Some _ _ _ _ Hx).
    unfold u8. apply Z.mod_small. by eapply (proj1 (Forall_lookup _ _) Hb).
  - rewrite (lookup_seqZ_ge off) by lia. by rewrite lookup_ge_None_2 by lia.
Qed.
End data.
