(* ===== verification/FsStore.v ===== *)
(** * File system: transactions over the buffer cache and the log

    The interface the file system is written against, implemented by the
    buffer cache and [log_write]: a file-system operation that runs alone in
    the log. What such an operation wrote is committed as a whole. *)
From stdpp Require Import functions.
From S2P Require Import Prelude Machine Monitor Bio Log LogOps FsBlock.

(** Sets of blocks given by a test. *)
Definition blocks_of (f : Z → bool) : gset Z := list_to_set (filter (λ x, f x = true) (seqZ 0 FSSIZE)).

Lemma elem_of_blocks f x : x ∈ blocks_of f ↔ f x = true ∧ 0 ≤ x < FSSIZE.
Proof. unfold blocks_of. rewrite elem_of_list_to_set, list_elem_of_filter, elem_of_seqZ. naive_solver lia. Qed.

(** The blocks recorded in the header. *)
Definition recorded (lg : log) : list Z := take (Z.to_nat (lh_n lg)) (lh_block lg).

Section store.
Context {B : Type} `{BufCache B}.
(** The position and size of the log, and the disk when the operation began. *)
Variables (lstart lsize : Z) (d0 : Z → block).
Notation first := (lstart + lsize).

Implicit Types (lg : log) (s : B) (st : log * B).

(** [log_write] as a step of the thread that holds the buffer of [b]. *)
Definition log_write_buf (b : Z) : M (log * B) () :=
  lg ← getlog;
  if log_full lg || log_over lg then panic "too big a transaction"
  else if no_trans lg then panic "log_write outside of trans"
  else updlog (log_add b);; onb (bc_pin b).

Definition st_update (b : Z) (v : block) : M (log * B) () := onb (bc_set b v);; log_write_buf b.

Record txn_inv (st : log * B) : Prop := {
  ti_bc : bc_inv st.2;
  ti_log : log_ok st.1;
  ti_first : l_start st.1 = lstart ∧ l_size st.1 = lsize;
  ti_size : MAXOPBLOCKS + 2 ≤ lsize;
  ti_out : outstanding st.1 = 1;
  ti_committing : committing st.1 = false;
  ti_head : hb_n (d0 lstart) = 0;
  ti_n : lh_n st.1 ≤ MAXOPBLOCKS;
  ti_home x : x ∈ recorded st.1 → first ≤ x < FSSIZE;
  ti_pin x : bc_pinned st.2 x = bool_decide (x ∈ recorded st.1);
  ti_view x : bc_pinned st.2 x = false → bc_view st.2 x = bc_disk st.2 x;
  ti_held x : bc_held st.2 x = true → first ≤ x < FSSIZE;
  ti_disk x : bc_disk st.2 x = d0 x;
  ti_busy : bc_busy st.2 = size (blocks_of (bc_held st.2) ∪ list_to_set (recorded st.1))
}.

Definition st_held (st : log * B) : gset Z := blocks_of (bc_held st.2).
Definition st_logged (st : log * B) : gset Z := list_to_set (recorded st.1).

Lemma recorded_length lg : log_ok lg → length (recorded lg) = Z.to_nat (lh_n lg).
Proof.
  intros [_ _ Hn Hs Hl _ _]. unfold recorded. rewrite length_take. lia.
Qed.

Lemma recorded_blk lg i : log_ok lg → 0 ≤ i < lh_n lg → recorded lg !! Z.to_nat i = Some (blk lg i).
Proof.
  intros [_ _ Hn Hs Hl _ _] Hi. unfold recorded, blk. rewrite lookup_take_lt by lia.
  destruct (lookup_lt_is_Some_2 (lh_block lg) (Z.to_nat i) ltac:(lia)) as [x Hx].
  by rewrite Hx, (nth_lookup_Some _ _ _ _ Hx).
Qed.

Lemma recorded_nodup lg : log_ok lg → NoDup (recorded lg).
Proof.
  intros Hlg. apply NoDup_alt. intros i j x Hi Hj.
  assert (i < Z.to_nat (lh_n lg) ∧ j < Z.to_nat (lh_n lg))%nat as [Hi' Hj'].
  { apply lookup_lt_Some in Hi, Hj. rewrite recorded_length in Hi, Hj by done. done. }
  pose proof (recorded_blk lg (Z.of_nat i) Hlg ltac:(lia)) as E1.
  pose proof (recorded_blk lg (Z.of_nat j) Hlg ltac:(lia)) as E2.
  rewrite Nat2Z.id in E1, E2. pose proof (lo_inj lg Hlg (Z.of_nat i) (Z.of_nat j) ltac:(lia) ltac:(lia) ltac:(congruence)).
  lia.
Qed.

Lemma recorded_elem lg x : log_ok lg → x ∈ recorded lg ↔ ∃ i, 0 ≤ i < lh_n lg ∧ blk lg i = x.
Proof.
  intros Hlg. rewrite list_elem_of_lookup. split.
  - intros [i Hi]. exists (Z.of_nat i). pose proof (lookup_lt_Some _ _ _ Hi) as Hl. rewrite recorded_length in Hl by done.
    split; [lia|]. pose proof (recorded_blk lg (Z.of_nat i) Hlg ltac:(lia)) as E. rewrite Nat2Z.id in E. congruence.
  - intros (i & Hi & <-). exists (Z.to_nat i). by apply recorded_blk.
Qed.

(** A block not yet recorded is appended. *)
Lemma record_new lg b :
  log_ok lg → lh_n lg < l_size lg - 1 → 0 ≤ b < FSSIZE → ¬ in_log lg b → b ∉ recorded lg →
  let lg' := lg <| lh_block := <[Z.to_nat (lh_n lg) := b]> (lh_block lg) |> <| lh_n := lh_n lg + 1 |> in
  log_ok lg' ∧ recorded lg' = recorded lg ++ [b].
Proof.
  intros Hlg Hn Hb Hnl Hnr lg'. pose proof Hlg as [L1 L2 L3 L4 L5 L6 L7].
  assert (∀ i, 0 ≤ i < lh_n lg + 1 → blk lg' i = if decide (i = lh_n lg) then b else blk lg i) as Hblk.
  { intros i Hi. unfold blk, lg'. simpl. rewrite !nth_lookup. case_decide as E.
    - subst i. by rewrite list_lookup_insert_eq by lia.
    - by rewrite list_lookup_insert_ne by lia. }
  assert (∀ i, 0 ≤ i < lh_n lg → blk lg i ≠ b) as Hne.
  { intros i Hi E. apply Hnr, recorded_elem; [done|]. eauto. }
  split.
  - split; unfold lg'; simpl; try done; [lia | by rewrite length_insert | |]; fold lg'.
    + intros i Hi. rewrite Hblk by done. case_decide; [done|]. apply L6. lia.
    + intros i j Hi Hj. rewrite !Hblk by done. repeat case_decide; subst; try done.
      * intros E. symmetry in E. apply Hne in E; [done | lia].
      * intros E. apply Hne in E; [done | lia].
      * apply L7; lia.
  - unfold recorded, lg'. simpl. replace (Z.to_nat (lh_n lg + 1)) with (S (Z.to_nat (lh_n lg))) by lia.
    rewrite (take_S_r _ _ b) by (apply list_lookup_insert_eq; lia). by rewrite take_insert_ge by lia.
Qed.

(** Recording block [b]. *)
Lemma log_add_ok lg b :
  log_ok lg → 1 ≤ outstanding lg → lh_n lg < l_size lg - 1 → 0 ≤ b < FSSIZE → ¬ in_log lg b →
  log_full lg || log_over lg = false ∧ no_trans lg = false ∧
  ∃ lg', log_add b lg = lg' ∧ log_ok lg' ∧
    l_start lg' = l_start lg ∧ l_size lg' = l_size lg ∧ outstanding lg' = outstanding lg ∧ committing lg' = committing lg ∧
    (∀ x, x ∈ recorded lg' ↔ x = b ∨ x ∈ recorded lg).
Proof.
  intros Hlg Ho Hn Hb Hnl. pose proof Hlg as [L1 L2 L3 L4 L5 L6 L7].
  split; [apply orb_false_iff; split; apply Z.leb_gt; lia|]. split; [by apply Z.ltb_ge|]. unfold log_add.
  destruct (find_block_spec (Z.to_nat (lh_n lg)) (lh_block lg) b) as [[-> Hnb]|[Hi Hbi]]; [unfold LOGSIZE in *; lia | |].
  - rewrite Z2Nat.id, Z.eqb_refl by lia. destruct (record_new lg b) as [Hok Hr]; try done.
    eexists. split; [done|]. split_and!; try done. intros x. rewrite Hr, elem_of_app, list_elem_of_singleton. tauto.
  - rewrite (proj2 (Z.eqb_neq _ _)) by lia. rewrite list_insert_id by done. exists lg.
    split; [by destruct lg|]. split_and!; try done. intros x. split; [by right|]. intros [->|?]; [|done].
    apply list_elem_of_lookup. eexists. unfold recorded. by rewrite lookup_take_lt.
Qed.

Lemma recorded_size lg : log_ok lg → Z.of_nat (size (list_to_set (recorded lg) : gset Z)) = lh_n lg.
Proof.
  intros Hlg. rewrite size_list_to_set by (by apply recorded_nodup). rewrite recorded_length by done.
  pose proof (lo_n lg Hlg). lia.
Qed.

Lemma blocks_insert f g b : 0 ≤ b < FSSIZE → (∀ x, g x = (x =? b) || f x) → blocks_of g = {[b]} ∪ blocks_of f.
Proof.
  intros Hb Hg. apply set_eq. intros x. rewrite elem_of_union, !elem_of_blocks, Hg, elem_of_singleton, orb_true_iff, Z.eqb_eq.
  split; [tauto|]. intros [->|?]; tauto.
Qed.

Lemma blocks_delete f g b : (∀ x, g x = negb (x =? b) && f x) → blocks_of g = blocks_of f ∖ {[b]}.
Proof.
  intros Hg. apply set_eq. intros x. rewrite elem_of_difference, !elem_of_blocks, Hg, elem_of_singleton.
  rewrite andb_true_iff, negb_true_iff, Z.eqb_neq. tauto.
Qed.

Lemma blocks_ext f g : (∀ x, g x = f x) → blocks_of g = blocks_of f.
Proof. intros Hg. apply set_eq. intros x. by rewrite !elem_of_blocks, Hg. Qed.

Lemma first_pos st : txn_inv st → 0 < first.
Proof. intros Hi. pose proof (lo_start _ (ti_log _ Hi)). pose proof (lo_n _ (ti_log _ Hi)). destruct (ti_first _ Hi). lia. Qed.

Lemma not_held st b : txn_inv st → b ∉ st_held st → bc_held st.2 b = false.
Proof.
  intros Hi Hb. destruct (bc_held st.2 b) eqn:E; [|done]. destruct Hb. apply elem_of_blocks. split; [done|].
  pose proof (ti_held _ Hi _ E). pose proof (first_pos _ Hi). lia.
Qed.

Lemma is_held st b : b ∈ st_held st → bc_held st.2 b = true.
Proof. intros Hb. by apply elem_of_blocks in Hb as [? _]. Qed.

Lemma st_read_ok st b :
  txn_inv st → first ≤ b < FSSIZE → b ∉ st_held st → (size (st_held st) < 3)%nat →
  ∃ st', onb (bc_read b) st = Ok () st' ∧ txn_inv st' ∧ (∀ x, bc_view st'.2 x = bc_view st.2 x) ∧
    st_held st' = {[b]} ∪ st_held st ∧ st_logged st' = st_logged st.
Proof.
  intros Hi Hb Hh Hsz. pose proof Hi as [A1 A2 [A3 A3'] A4 A5 A5' A5'' A6 A7 A8 A9 A10 A10' A11]. pose proof (first_pos _ Hi) as Hf.
  pose proof (recorded_size _ A2) as Hn. destruct st as [lg s]; cbn [fst snd] in *.
  unfold st_held in *; cbn [fst snd] in *.
  assert (bc_busy s ≤ size (blocks_of (bc_held s)) + size (list_to_set (recorded lg) : gset Z))%nat as Hle.
  { rewrite A11, size_union_alt. apply Nat.add_le_mono_l, subseteq_size. set_solver. }
  destruct (bc_read_ok s b) as (s' & E & I' & V' & D' & W' & H' & P' & B').
  { done. } { lia. } { by apply (not_held (lg, s)). } { right. unfold NBUF, MAXOPBLOCKS in *. lia. }
  exists (lg, s'). split; [by apply onb_last|].
  assert (blocks_of (bc_held s') = {[b]} ∪ blocks_of (bc_held s)) as Hset by (apply blocks_insert; [lia | done]).
  split; [|by cbn]. split; cbn [fst snd]; try done.
  - intros x. by rewrite P'.
  - intros x. rewrite P', V', D'. apply A9.
  - intros x. rewrite H', orb_true_iff. intros [->%Z.eqb_eq|Hx]; [lia | by apply A10].
  - intros x. by rewrite D'.
  - rewrite B', A11, Hset, A8, <- (assoc_L (∪)). case_bool_decide as Hr.
    + f_equal. set_solver.
    + rewrite (size_union {[b]}), size_singleton; [done|]. set_solver.
Qed.

Lemma st_release_ok st b :
  txn_inv st → b ∈ st_held st →
  ∃ st', onb (bc_release b) st = Ok () st' ∧ txn_inv st' ∧ (∀ x, bc_view st'.2 x = bc_view st.2 x) ∧
    st_held st' = st_held st ∖ {[b]} ∧ st_logged st' = st_logged st.
Proof.
  intros Hi Hb. pose proof Hi as [A1 A2 [A3 A3'] A4 A5 A5' A5'' A6 A7 A8 A9 A10 A10' A11]. pose proof (is_held _ _ Hb) as Hh.
  destruct st as [lg s]; cbn [fst snd] in *. unfold st_held in *; cbn [fst snd] in *.
  destruct (bc_release_ok s b) as (s' & E & I' & V' & D' & W' & H' & P' & B').
  { done. } { done. } { destruct (bc_pinned s b) eqn:Ep; [by left | right; by apply A9]. }
  exists (lg, s'). split; [by apply onb_last|].
  assert (blocks_of (bc_held s') = blocks_of (bc_held s) ∖ {[b]}) as Hset by (by apply blocks_delete).
  split; [|by cbn]. split; cbn [fst snd]; try done.
  - intros x. by rewrite P'.
  - intros x. rewrite P', V', D'. apply A9.
  - intros x. rewrite H', andb_true_iff. intros [_ Hx]. by apply A10.
  - intros x. by rewrite D'.
  - rewrite Hset. rewrite A8, A11 in B'. case_bool_decide as Hr.
    + assert (blocks_of (bc_held s) ∖ {[b]} ∪ list_to_set (recorded lg) = blocks_of (bc_held s) ∪ list_to_set (recorded lg)) as ->.
      { apply set_eq. intros x. destruct (decide (x = b)) as [->|]; set_solver. }
      lia.
    + assert (blocks_of (bc_held s) ∖ {[b]} ∪ list_to_set (recorded lg) =
        (blocks_of (bc_held s) ∪ list_to_set (recorded lg)) ∖ {[b]}) as -> by set_solver.
      rewrite size_difference by set_solver. rewrite size_singleton. lia.
Qed.

Lemma st_update_ok st b v :
  txn_inv st → b ∈ st_held st → (size ({[b]} ∪ st_logged st) ≤ Z.to_nat MAXOPBLOCKS)%nat →
  ∃ st', st_update b v st = Ok () st' ∧ txn_inv st' ∧
    (∀ x, bc_view st'.2 x = if x =? b then v else bc_view st.2 x) ∧
    st_held st' = st_held st ∧ st_logged st' = {[b]} ∪ st_logged st.
Proof.
  intros Hi Hb Hsz. pose proof Hi as [A1 A2 [A3 A3'] A4 A5 A5' A5'' A6 A7 A8 A9 A10 A10' A11]. pose proof (is_held _ _ Hb) as Hh.
  pose proof (first_pos _ Hi) as Hf. destruct st as [lg s]; cbn [fst snd] in *. unfold st_held, st_logged in *; cbn [fst snd] in *.
  pose proof (A10 _ Hh) as Hr.
  destruct (bc_set_ok s b v A1 Hh) as (s1 & E1 & I1 & V1 & D1 & W1 & H1 & P1 & B1).
  destruct (log_add_ok lg b) as (T1 & T2 & lg' & E2 & Hlg' & Est & Esz & Eout & Ecom & Hrec).
  { done. } { lia. } { lia. } { lia. } { unfold in_log. lia. }
  destruct (bc_pin_ok s1 b I1) as (s2 & E3 & I2 & V2 & D2 & W2 & H2 & P2 & B2); [by rewrite H1|].
  exists (lg', s2). split.
  { unfold st_update. rewrite (onb_ok _ _ _ _ _ _ E1). unfold log_write_buf. rewrite at_getlog, T1, T2.
    rewrite at_updlog, E2. by apply onb_last. }
  assert (list_to_set (recorded lg') = ({[b]} ∪ list_to_set (recorded lg) : gset Z)) as Hset.
  { apply set_eq. intros x. rewrite elem_of_union, !elem_of_list_to_set, Hrec, elem_of_singleton. done. }
  assert (∀ x, bc_held s2 x = bc_held s x) as Hheld by (intros x; by rewrite H2, H1).
  split; [|split; [|split]]; cbn [fst snd]; try done.
  - split; cbn [fst snd]; rewrite ?Est, ?Esz, ?Eout, ?Ecom; try done.
    + pose proof (recorded_size _ Hlg') as Hn. rewrite Hset in Hn. unfold MAXOPBLOCKS in *. lia.
    + intros x [->|Hx]%Hrec; [done | by apply A7].
    + intros x. rewrite P2, P1, A8. destruct (Z.eqb_spec x b) as [->|Hne]; simpl.
      * rewrite bool_decide_eq_true_2; [done|]. apply Hrec. by left.
      * apply bool_decide_ext. rewrite Hrec. tauto.
    + intros x. rewrite P2, P1, V2, V1, D2, D1. destruct (Z.eqb_spec x b); [done | apply A9].
    + intros x. rewrite Hheld. apply A10.
    + intros x. by rewrite D2, D1.
    + rewrite B2, B1, A11, (blocks_ext _ _ Hheld), Hset. f_equal. set_solver.
  - intros x. by rewrite V2, V1.
  - by apply blocks_ext.
Qed.

#[export] Instance txn_store : BlockStore (log * B) := {|
  bs_inv := txn_inv; bs_view st := bc_view st.2; bs_held := st_held; bs_logged := st_logged;
  bs_cap := Z.to_nat MAXOPBLOCKS; bs_first := first;
  bs_read b := onb (bc_read b); bs_update := st_update; bs_release b := onb (bc_release b);
  bs_read_ok := st_read_ok; bs_update_ok := st_update_ok; bs_release_ok := st_release_ok
|}.

(** ** Commit *)

(** The log as the last [end_op] passes it to [commit]. *)
Lemma end_op_last lg : outstanding lg = 1 → committing lg = false →
  end_op lg = Segment (lg <| outstanding := 0 |> <| committing := true |>) [] [] (Goes OCommit).
Proof. intros Ho Hc. unfold end_op. rewrite Hc, Ho. done. Qed.

Lemma home_view lg s x : txn_inv (lg, s) → apply_writes (home lg (bc_view s)) d0 x = bc_view s x.
Proof.
  intros Hi. pose proof (ti_log _ Hi) as Hlg. cbn [fst] in Hlg. destruct (decide (x ∈ recorded lg)) as [Hx|Hx].
  - apply recorded_elem in Hx as (i & Hn & <-); [|done]. by apply home_in.
  - rewrite apply_notin.
    + rewrite <- (ti_disk _ Hi). symmetry. apply (ti_view _ Hi). cbn [snd]. rewrite (ti_pin _ Hi). by apply bool_decide_eq_false_2.
    + apply home_notin. intros i Hn E. apply Hx, recorded_elem; [done|]. eauto.
Qed.

Lemma txn_quiet lg s : txn_inv (lg, s) → st_held (lg, s) = ∅ →
  quiet s (bc_view s) (bc_disk s) (bc_pinned s) (bc_writes s) (bc_busy s) ∧ (bc_busy s < Z.to_nat NBUF)%nat.
Proof.
  intros Hi Hh. pose proof Hi as [A1 A2 [A3 A3'] A4 A5 A5' A5'' A6 A7 A8 A9 A10 A10' A11]. cbn [fst snd] in *. split.
  - split; try done. intros x. apply (not_held (lg, s)); [done|]. rewrite Hh. apply not_elem_of_empty.
  - unfold st_held in Hh. cbn [fst snd] in *. rewrite A11, Hh, union_empty_l_L. pose proof (recorded_size _ A2).
    unfold NBUF, MAXOPBLOCKS in *. lia.
Qed.

(** The end of an operation that ran alone: after a crash at any point of the
    commit the disk has all of its changes or none. *)
Lemma txn_commit lg s :
  txn_inv (lg, s) → st_held (lg, s) = ∅ →
  let lg1 := lg <| outstanding := 0 |> <| committing := true |> in
  ∃ lg' s' W, commit (lg1, s) = Ok () (lg', s') ∧ lh_n lg' = 0 ∧ bc_writes s' = bc_writes s ++ W ∧
    ∀ j lg0 s0, booted lg1 lg0 s0 (apply_writes (take j W) d0) →
      ∃ lg2 s2, recover_from_log (lg0, s0) = Ok () (lg2, s2) ∧
        ((∀ x, first ≤ x → bc_disk s2 x = d0 x) ∨
         (∀ x, first ≤ x → bc_disk s2 x = bc_view s x)).
Proof.
  intros Hi Hh lg1. pose proof (ti_head _ Hi) as Hd0. rewrite <- (proj1 (ti_first _ Hi)) in Hd0. destruct (txn_quiet _ _ Hi Hh) as [Hq Hk].
  assert (log_ok lg1) as Hlg by (pose proof (ti_log _ Hi) as [L1 L2 L3 L4 L5 L6 L7]; by split).
  assert (∀ x, first ≤ x → ¬ in_log lg1 x) as Hout by (intros x Hx; destruct (ti_first _ Hi); unfold in_log; simpl in *; lia).
  destruct (decide (lh_n lg = 0)) as [Hz|Hz].
  - exists lg1, s, []. split; [unfold commit; by rewrite at_getlog; unfold lg1; simpl; rewrite Hz|].
    split; [done|]. split; [by rewrite app_nil_r|]. intros j lg0 s0 Hb. rewrite take_nil in Hb.
    destruct (recover_header lg1 lg0 s0 _ Hlg Hb (cleared lg1)) as (lg2 & s2 & h & E & _ & _ & _ & Hx);
      [by apply cleared_ok | done | done | by apply header_empty |].
    exists lg2, s2. split; [done|]. left. intros x Hfx. rewrite Hx by (by apply Hout). exact (to_home_cleared lg1 _ x).
  - pose proof (lo_n _ Hlg) as Hn.
    assert (∀ i, 0 ≤ i < lh_n lg1 → bc_pinned s (blk lg1 i) = true) as Hp.
    { intros i Hin. rewrite (ti_pin _ Hi). apply bool_decide_eq_true_2, recorded_elem; [apply (ti_log _ Hi)|]. by exists i. }
    assert (∀ x, in_log lg1 x → bc_pinned s x = false) as Hnp.
    { intros x Hx. rewrite (ti_pin _ Hi). apply bool_decide_eq_false_2. intros Hr%(ti_home _ Hi). apply (Hout x); [lia | done]. }
    destruct (commit_run lg1 s _ _ _ _ _ Hlg ltac:(simpl in *; lia) Hq Hk Hp Hnp) as (s' & k' & p' & E & _ & _ & Hq').
    exists (cleared lg1), s', (commit_writes lg1 (bc_view s)). split; [done|]. split; [done|].
    split; [apply (q_writes _ _ _ _ _ _ Hq')|]. intros j lg0 s0 Hb.
    destruct (crash_recovers lg1 (bc_view s) d0 j lg0 s0) as (lg2 & s2 & E2 & _ & Hx);
      [done | simpl in *; lia | done | done |].
    exists lg2, s2. split; [done|]. destruct Hx as [[_ Hx]|[_ Hx]]; [left | right]; intros x Hfx.
    + by apply Hx, Hout.
    + rewrite Hx by (by apply Hout). apply (home_view lg s x Hi).
Qed.
End store.
