(* ===== verification/FsCrash.v ===== *)
(** * File system: a file write and a crash

    The file system over the log over the buffer cache over the disk: a
    [writei] in a transaction of its own either survives a crash or leaves no
    trace. The examples of the file-system theorems are here too. *)
From stdpp Require Import functions.
From S2P Require Import Prelude Machine CString Monitor Bio Log LogOps FsBlock FsInode FsDinode FsFile FsData FsStore.
Import KString.

Section crash.
Context {B : Type} `{BufCache B}.
Variables (lstart lsize : Z) (d0 : Z → block) (sb : superblock).
Notation first := (lstart + lsize).
Notation store := (log * B)%type.
#[local] Instance store_here : BlockStore store := txn_store lstart lsize d0.
Context (Hlay : layout_ok sb).

Implicit Types (st : store) (O : Z → brole).

(** The blocks of the file system lie after the log. *)
Lemma role_after v O x : alloc_ok sb v O → O x ≠ BMeta → first ≤ x.
Proof using Hlay. intros Hal Hx. by destruct (role_range sb Hlay v O x Hal Hx) as (_ & Hf & _). Qed.

(** What is on the disk after recovery, in terms of what was there. *)
Lemma recovered v v' O i :
  alloc_ok sb v O → file_ok v O i → 0 ≤ i_inum i < sb_ninodes sb → synced sb v i → (∀ x, first ≤ x → v' x = v x) →
  synced sb v' i ∧ ∀ o, 0 ≤ o < MAXFILE * BSIZE → fbyte v' (i_addrs i) o = fbyte v (i_addrs i) o.
Proof using Hlay.
  intros Hal Hf Hin Hs Hv. split.
  - unfold synced. destruct (iblock_range sb Hlay _ Hin) as [_ [Hr _]]. by rewrite Hv.
  - intros o Ho. apply (fbyte_meta v v' O (i_inum i)); [|apply Hf|done]. intros x Hx. by eapply Hv, role_after.
Qed.

(** C2: a file write is atomic with respect to crashes. Let an operation
    alone in the log, on the disk [d0], do a [writei] at an offset within a
    file that touches at most four blocks, with free blocks on the disk for
    those that are missing. The write and the commit succeed; and if the machine stops
    after any number of the block writes of the commit and boots and
    recovers, the disk holds either the file as before, inode and contents,
    or the file with exactly the new bytes in place. *)
Theorem writei_crash_atomic (dev_write : Z → option (nat → list Z → M (@fsys store) Z)) lg s ic ip i O off src n :
  fs_ok sb (lg, s) O → lh_n lg = 0 →
  ic !! ip = Some i → file_ok d0 O i → inode_wf i → synced sb d0 i →
  0 ≤ i_inum i < sb_ninodes sb → i_type i ≠ T_DEV → 0 ≤ off ≤ i_size i → off + Z.of_nat (length src) ≤ MAXFILE * BSIZE →
  (touched off (Z.of_nat (length src)) ≤ 4)%nat → has_free O (write_need d0 (i_addrs i) (off / BSIZE) (touched off (Z.of_nat (length src))) + n) →
  ∃ lg1 s1 i' lg2 s2 W,
    writei sb dev_write ip off src ((lg, s), ic) = Ok (Z.of_nat (length src)) ((lg1, s1), <[ip := i']> ic) ∧
    commit (seg_state (end_op lg1), s1) = Ok () (lg2, s2) ∧ lh_n lg2 = 0 ∧ bc_writes s2 = bc_writes s1 ++ W ∧
    ∀ j lg0 s0, booted lg lg0 s0 (apply_writes (take j W) d0) →
      ∃ lg3 s3, recover_from_log (lg0, s0) = Ok () (lg3, s3) ∧
        ((synced sb (bc_disk s3) i ∧
          ∀ o, 0 ≤ o < MAXFILE * BSIZE → fbyte (bc_disk s3) (i_addrs i) o = fbyte d0 (i_addrs i) o) ∨
         (synced sb (bc_disk s3) i' ∧ i_size i' = Z.max (i_size i) (off + Z.of_nat (length src)) ∧
          ∀ o, 0 ≤ o < MAXFILE * BSIZE → fbyte (bc_disk s3) (i_addrs i') o =
            if decide (off ≤ o < off + Z.of_nat (length src)) then u8 (nth (Z.to_nat (o - off)) src 0)
            else fbyte d0 (i_addrs i) o)).
Proof using Hlay.
  intros Hok Hn0 Hic Hf Hwf Hs Hin Ht Hoff Hmax Htc Hfree. pose proof Hok as (Hinv & Hal & Hh).
  assert (recorded lg = []) as Hrec by (unfold recorded; by rewrite Hn0).
  assert (∀ x, bc_view s x = d0 x) as Hv.
  { intros x. rewrite <- (ti_disk _ _ _ _ Hinv). apply (ti_view _ _ _ _ Hinv). rewrite (ti_pin _ _ _ _ Hinv). cbn [fst]. by rewrite Hrec. }
  assert (alloc_ok sb d0 O) as Hal0.
  { apply (alloc_ok_ext sb (bc_view s)); [|done]. intros a. by rewrite Hv. }
  assert (room sb (lg, s) (2 * touched off (Z.of_nat (length src)) + (1 + 0))) as Hroom.
  { unfold room. cbn [bs_logged bs_cap store_here txn_store]. unfold st_logged. cbn [fst]. rewrite Hrec.
    cbn [list_to_set]. rewrite union_empty_r_L, size_singleton. unfold MAXOPBLOCKS. lia. }
  destruct (writei_ok sb Hlay dev_write (lg, s) ic ip i O off src 0 n)
    as ([lg1 s1] & O1 & i' & E1 & Hp & _); try done.
  { apply (file_ok_view d0); [exact Hv | done]. }
  { unfold synced in *. change (bs_view (lg, s)) with (bc_view s). by rewrite Hv. }
  { rewrite (write_need_view d0) by exact Hv. done. }
  pose proof (wi_ok _ _ _ _ _ _ _ _ _ Hp) as (Hinv1 & Hal1 & Hh1).
  destruct (txn_commit lstart lsize d0 lg1 s1 Hinv1 Hh1) as (lg2 & s2 & W & E2 & Hn2 & HW & Hcr).
  exists lg1, s1, i', lg2, s2, W. split; [exact E1|].
  rewrite end_op_last; [|exact (ti_out _ _ _ _ Hinv1) | exact (ti_committing _ _ _ _ Hinv1)]. cbn [seg_state].
  split; [done|]. split; [done|]. split; [done|]. intros j lg0 s0 Hb.
  destruct (Hcr j lg0 s0) as (lg3 & s3 & E3 & Hd).
  { destruct (ti_first _ _ _ _ Hinv), (ti_first _ _ _ _ Hinv1). unfold booted in *. simpl in *. intuition congruence. }
  exists lg3, s3. split; [done|].
  destruct Hd as [Hd|Hd]; [left | right].
  - by apply (recovered d0 _ O).
  - destruct (recovered (bc_view s1) (bc_disk s3) O1 i') as [Hs' Hb']; [done | apply Hp | | apply Hp | done |].
    { rewrite (wi_fields _ _ _ _ _ _ _ _ _ Hp). done. }
    split; [done|]. split; [exact (wi_size _ _ _ _ _ _ _ _ _ Hp)|]. intros o Ho. rewrite Hb' by done.
    etransitivity; [exact (wi_byte _ _ _ _ _ _ _ _ _ Hp o Ho)|]. case_decide; [done|]. apply fbyte_view. exact Hv.
Qed.
End crash.

(** ** Examples *)

(** The disk of [mkfs]: log at 2, inodes at 32, bitmap at 58, data from 59
    on, with the empty file [i0] as inode 1. *)
Definition ex_sb : superblock := Superblock 1000 941 200 30 2 32 58.
Definition ex_inode : inode := Inode 1 1 1 true true T_FILE 0 0 1 0 (replicate 13 0).
Definition ex_bitmap : block := λ a, if a <? 7 then 255 else if a =? 7 then 7 else 0.
Definition ex_disk (i0 : inode) : Z → block := λ x,
  if x =? 32 then put_dinode i0 (λ _, 0) else if x =? 58 then ex_bitmap else λ _, 0.
Definition ex_blocks : Z → brole := λ x, if (59 <=? x) && (x <? 1000) then BFree else BMeta.
Definition ex_log : log := Log 2 30 1 false 0 (replicate 30 0).
Definition ex_store (i0 : inode) : log * bio := (ex_log, binit (λ _, ex_disk i0) true).

Lemma ex_alloc_ok i0 : alloc_ok ex_sb (ex_disk i0) ex_blocks.
Proof.
  split.
  - intros b Hb. change (sb_size ex_sb) with 1000 in Hb.
    assert (forallb (λ b, Bool.eqb (bit ex_sb (λ _, ex_bitmap) b) (negb (bool_decide (ex_blocks b = BFree)))) (seqZ 0 1000) = true) as Hall
      by (vm_compute; done).
    rewrite forallb_forall in Hall. specialize (Hall b). rewrite <- list_elem_of_In, elem_of_seqZ in Hall.
    specialize (Hall ltac:(lia)). apply eqb_prop in Hall. change (bit ex_sb (ex_disk i0) b) with (bit ex_sb (λ _, ex_bitmap) b).
    rewrite Hall, negb_false_iff. apply bool_decide_eq_true.
  - intros b. unfold ex_blocks, dstart. simpl. destruct (Z.leb_spec 59 b), (Z.ltb_spec b 1000); simpl; done || lia.
Qed.

Lemma ex_txn d : hb_n (d 2) = 0 → txn_inv 2 30 d (ex_log, binit (λ _, d) true).
Proof.
  intros Hd. pose proof (quiet_binit d) as [Q1 Q2 Q3 Q4 Q5 Q6 Q7].
  split; cbn [fst snd]; try done.
  - split; simpl; try done; lia.
  - intros x Hx. by apply elem_of_nil in Hx.
Qed.

(** The inodes of empty files. *)
Record ex_empty (i : inode) : Prop := {
  ee_wf : inode_wf i;
  ee_inum : i_inum i = 1;
  ee_addrs : i_addrs i = replicate 13 0;
  ee_size : i_size i = 0
}.

Lemma ex_file v i : ex_empty i → file_ok v ex_blocks i.
Proof.
  intros [Hwf Hn Ha Hs]. assert (∀ bn, fblock v (i_addrs i) bn = 0) as Hz.
  { intros bn. unfold fblock. rewrite Ha. case_match; [apply nth_zeros | done]. }
  split; [|rewrite Hs; done | rewrite Hs; lia].
  split; [by rewrite Ha | intros bn _ H0; by rewrite Hz in H0 | by rewrite Ha | |];
    unfold ex_blocks; intros b; intros; by destruct ((59 <=? b) && (b <? 1000)).
Qed.

Lemma ex_synced i : ex_empty i → synced ex_sb (ex_disk i) i.
Proof. intros [Hwf Hn Ha Hs]. unfold synced. rewrite Hn. apply (get_put_dinode i), Hwf. Qed.

Lemma ex_inode_empty : ex_empty ex_inode.
Proof.
  split; try done. split; try (simpl; done || lia). intros k. change (i_addrs ex_inode) with (replicate 13 0).
  rewrite nth_zeros. lia.
Qed.

(** The inode of an empty file but for type, links, counts and flags. *)
Lemma ex_empty_like i :
  i_inum i = 1 → i_addrs i = replicate 13 0 → i_size i = 0 → i_major i = 0 → i_minor i = 0 →
  0 ≤ i_type i < 32768 → 0 ≤ i_nlink i < 32768 → ex_empty i.
Proof.
  intros Hn Ha Hs Hma Hmi Ht Hl. split; try done. split; try lia; [by rewrite Ha|]. intros k. rewrite Ha, nth_zeros. lia.
Qed.

Lemma ex_has_free n : (n ≤ 900)%nat → has_free ex_blocks n.
Proof.
  intros Hn. exists (seqZ 100 (Z.of_nat n)). split; [apply NoDup_seqZ|]. split; [rewrite length_seqZ; lia|].
  intros b Hb%elem_of_seqZ. unfold ex_blocks. rewrite (proj2 (Z.leb_le _ _)), (proj2 (Z.ltb_lt _ _)) by lia. done.
Qed.

Section instance.
Variable i0 : inode.
#[local] Instance ex_bs : BlockStore (log * bio) := txn_store 2 30 (ex_disk i0).

Lemma ex_layout : layout_ok ex_sb.
Proof. split; repeat split; by vm_compute. Qed.

Lemma ex_fs_ok : fs_ok ex_sb (ex_store i0) ex_blocks.
Proof.
  split; [by apply (ex_txn (ex_disk i0))|]. split; [exact (ex_alloc_ok i0)|]. apply set_eq. intros x.
  change (bs_held (ex_store i0)) with (blocks_of (bc_held (binit (λ _, ex_disk i0) true))).
  rewrite elem_of_blocks, (q_held _ _ _ _ _ _ (quiet_binit (ex_disk i0))). set_solver.
Qed.

Lemma ex_room k : (k ≤ 9)%nat → room ex_sb (ex_store i0) k.
Proof.
  intros Hk. unfold room. change (bs_logged (ex_store i0)) with (∅ : gset Z). rewrite union_empty_r_L, size_singleton.
  change bs_cap with 10%nat. lia.
Qed.
End instance.

#[local] Notation ex_s := (ex_store ex_inode).
#[local] Instance ex_here : BlockStore (log * bio) := ex_bs ex_inode.

Definition no_dev_read : Z → option (nat → Z → M (@fsys (log * bio)) (Z * list Z)) := λ _, None.
Definition no_dev_write : Z → option (nat → list Z → M (@fsys (log * bio)) Z) := λ _, None.

Lemma balloc_bfree_correct_witness :
  ∃ b s', balloc ex_sb ex_s = Ok b s' ∧ allocated ex_sb ex_s s' ex_blocks b.
Proof.
  destruct (ex_fs_ok ex_inode) as (Hi & Hal & Hh).
  apply (proj1 (balloc_bfree_correct ex_sb (ex_layout ex_inode) ex_s ex_blocks Hi Hal
    ltac:(rewrite Hh; apply not_elem_of_empty) ltac:(intros; rewrite Hh; apply not_elem_of_empty)
    ltac:(rewrite Hh, size_empty; lia) (ex_room ex_inode 1 ltac:(lia)))).
  by exists 100.
Defined.

Lemma writei_correct_witness :
  (∃ s' O' i', writei ex_sb no_dev_write 0 0 [104; 105] (ex_s, [ex_inode]) = Ok 2 (s', [i']) ∧
     writei_post ex_sb ex_s s' ex_blocks O' ex_inode i' 0 [104; 105]) ∧
  writei ex_sb no_dev_write 0 5 [104; 105] (ex_s, [ex_inode]) = Ok (-1) (ex_s, [ex_inode]).
Proof.
  split.
  - destruct (proj1 (writei_correct ex_sb (ex_layout ex_inode) no_dev_write ex_s [ex_inode] 0 ex_inode ex_blocks 0 [104; 105] 0 0
      (ex_fs_ok ex_inode) eq_refl (ex_file _ _ ex_inode_empty) (ee_wf _ ex_inode_empty) (ex_synced _ ex_inode_empty) ltac:(simpl; lia) ltac:(done) ltac:(lia) ltac:(simpl; lia)))
      as (s' & O' & i' & E & Hp & _); [simpl; lia | by vm_compute | apply (ex_room ex_inode); vm_compute; lia | apply (ex_has_free 1); lia |].
    exists s', O', i'. split; [exact E | exact Hp].
  - apply (proj2 (writei_correct ex_sb (ex_layout ex_inode) no_dev_write ex_s [ex_inode] 0 ex_inode ex_blocks 5 [104; 105] 0 0
      (ex_fs_ok ex_inode) eq_refl (ex_file _ _ ex_inode_empty) (ee_wf _ ex_inode_empty) (ex_synced _ ex_inode_empty) ltac:(simpl; lia) ltac:(done) ltac:(lia) ltac:(simpl; lia))).
    left. simpl. lia.
Defined.

Lemma readi_correct_witness :
  (∃ s', readi ex_sb no_dev_read 0 0 10 (ex_s, [ex_inode]) = Ok (0, []) (s', [ex_inode])) ∧
  readi ex_sb no_dev_read 0 1 10 (ex_s, [ex_inode]) = Ok (-1, []) (ex_s, [ex_inode]).
Proof.
  split.
  - destruct (proj1 (readi_correct ex_sb (ex_layout ex_inode) no_dev_read ex_s [ex_inode] 0 ex_inode ex_blocks 0 10
      (ex_fs_ok ex_inode) eq_refl (ex_file _ _ ex_inode_empty) ltac:(done) ltac:(lia) ltac:(lia))) as (s' & E & _); [simpl; lia | lia |].
    exists s'. exact E.
  - apply (proj2 (readi_correct ex_sb (ex_layout ex_inode) no_dev_read ex_s [ex_inode] 0 ex_inode ex_blocks 1 10
      (ex_fs_ok ex_inode) eq_refl (ex_file _ _ ex_inode_empty) ltac:(done) ltac:(lia) ltac:(lia))).
    left. simpl. lia.
Defined.

Lemma writei_crash_atomic_witness :
  ∃ st i' W, writei ex_sb no_dev_write 0 0 [104; 105] (ex_s, [ex_inode]) = Ok 2 (st, [i']) ∧
    ∀ j, ∃ lg3 s3,
      recover_from_log (boot_log, binit (λ _, apply_writes (take j W) (ex_disk ex_inode)) true) = Ok () (lg3, s3) ∧
      (synced ex_sb (bio_disk s3) ex_inode ∨
       synced ex_sb (bio_disk s3) i' ∧ i_size i' = 2 ∧ fbyte (bio_disk s3) (i_addrs i') 0 = 104).
Proof.
  destruct (writei_crash_atomic 2 30 (ex_disk ex_inode) ex_sb (ex_layout ex_inode) no_dev_write ex_log (binit (λ _, (ex_disk ex_inode)) true) [ex_inode] 0
    ex_inode ex_blocks 0 [104; 105] 0 (ex_fs_ok ex_inode) eq_refl eq_refl (ex_file _ _ ex_inode_empty) (ee_wf _ ex_inode_empty) (ex_synced _ ex_inode_empty) ltac:(simpl; lia) ltac:(done)
    ltac:(simpl; lia) ltac:(by vm_compute) ltac:(vm_compute; lia) (ex_has_free 1 ltac:(lia)))
    as (lg1 & s1 & i' & lg2 & s2 & W & E & _ & _ & _ & Hcr).
  exists (lg1, s1), i', W. split; [exact E|]. intros j.
  destruct (Hcr j boot_log (binit (λ _, apply_writes (take j W) (ex_disk ex_inode)) true)) as (lg3 & s3 & E3 & Hd).
  { split; [apply quiet_binit | exact (conj eq_refl (conj eq_refl eq_refl))]. }
  exists lg3, s3. split; [exact E3|]. destruct Hd as [[Hs _]|(Hs & Hz & Hb)]; [left; exact Hs | right].
  split; [exact Hs|]. split; [exact Hz|]. apply (Hb 0). change (MAXFILE * BSIZE) with 71680. lia.
Defined.
