(* ===== verification/FsTrunc.v ===== *)
(** * File system: freeing files (itrunc, iput)

    [itrunc] gives every block of a file back to the allocator and no other;
    [iput] of the last reference to a file without links frees its inode
    too. *)
From stdpp Require Import functions.
From S2P Require Import Prelude Machine CString Bio FsBlock FsInode FsDinode FsFile FsData.
Import KString.

(** The blocks of file [inum]: direct ones, data, all. *)
Definition direct_of (inum : Z) (r : brole) : bool :=
  match r with BData n bn => (n =? inum) && (bn <? NDIRECT) | _ => false end.
Definition data_of (inum : Z) (r : brole) : bool :=
  match r with BData n _ => n =? inum | _ => false end.
Definition owned_by (inum : Z) (r : brole) : bool :=
  match r with BData n _ | BInd n => n =? inum | _ => false end.

Section trunc.
Context {S : Type} `{BlockStore S}.
Variable sb : superblock.
Context (Hlay : layout_ok sb).

Implicit Types (s : S) (v : Z → block) (O : Z → brole) (b x bn : Z).

Lemma nth_insert (l : list Z) k j x : (k < length l)%nat → nth j (<[k := x]> l) 0 = if decide (j = k) then x else nth j l 0.
Proof.
  intros Hk. rewrite !nth_lookup. case_decide as E; [subst; by rewrite list_lookup_insert_eq|].
  by rewrite list_lookup_insert_ne.
Qed.

Lemma decide_cons (j k : nat) ks (x y : Z) :
  (if decide (j ∈ k :: ks) then x else y) = if decide (j = k) then x else if decide (j ∈ ks) then x else y.
Proof.
  destruct (decide (j = k)) as [->|Hne]; [by rewrite decide_True by left|].
  destruct (decide (j ∈ ks)); [by rewrite decide_True by (by right)|].
  rewrite decide_False; [done|]. by intros [?|?]%elem_of_cons.
Qed.

Lemma trunc_direct_skip s ic ip i k :
  ic !! ip = Some i → nth k (i_addrs i) 0 = 0 → trunc_direct sb ip k (s, ic) = Ok () (s, ic).
Proof. intros Hic Hz. unfold trunc_direct. by rewrite (bind_ok _ _ _ _ _ (inode_at_ok _ _ _ _ Hic)), Hz. Qed.

Lemma trunc_direct_free s s' ic ip i k :
  ic !! ip = Some i → nth k (i_addrs i) 0 ≠ 0 → bfree sb (nth k (i_addrs i) 0) s = Ok () s' →
  trunc_direct sb ip k (s, ic) = Ok () (s', <[ip := i <| i_addrs := <[k := 0]> (i_addrs i) |>]> ic).
Proof.
  intros Hic Hz E. unfold trunc_direct. rewrite (bind_ok _ _ _ _ _ (inode_at_ok _ _ _ _ Hic)).
  unfold truthy. rewrite (proj2 (Z.eqb_neq _ 0)) by done. cbn [negb when].
  by rewrite (bind_ok _ _ _ _ _ (onbs_ok _ _ _ _ _ E)), (upd_inode_ok _ _ _ _ _ Hic).
Qed.

Lemma trunc_direct_loop ip inum m : ∀ ks s ic i O,
  NoDup ks → (∀ k, k ∈ ks → (k < 12)%nat) → fs_ok sb s O → ic !! ip = Some i → length (i_addrs i) = 13%nat →
  (∀ k, k ∈ ks → nth k (i_addrs i) 0 ≠ 0 → O (nth k (i_addrs i) 0) = BData inum (Z.of_nat k)) →
  (∀ x bn, O x = BData inum bn → bn < NDIRECT → ∃ k, k ∈ ks ∧ bn = Z.of_nat k ∧ nth k (i_addrs i) 0 = x) →
  room sb s m →
  ∃ s' O' addrs', for_each ks (trunc_direct sb ip) (s, ic) = Ok () (s', <[ip := i <| i_addrs := addrs' |>]> ic) ∧
    fs_ok sb s' O' ∧ (∀ x, O' x = if direct_of inum (O x) then BFree else O x) ∧
    (∀ x, x ≠ sb_bmapstart sb → bs_view s' x = bs_view s x) ∧ room sb s' m ∧ length addrs' = 13%nat ∧
    (∀ k, nth k addrs' 0 = if decide (k ∈ ks) then 0 else nth k (i_addrs i) 0).
Proof using Hlay.
  induction ks as [|k ks IH]; intros s ic i O Hnd Hks Hok Hic Hlen HD HR Hroom; cbn [for_each].
  { exists s, O, (i_addrs i). split; [rewrite list_insert_id; [done | by rewrite Hic; destruct i]|].
    split; [done|]. split; [|done]. intros x. destruct (direct_of inum (O x)) eqn:E; [|done]. unfold direct_of in E.
    destruct (O x) eqn:Ex; try done. apply andb_true_iff in E as [->%Z.eqb_eq E%Z.ltb_lt].
    destruct (HR _ _ Ex E) as (k & Hk & _). by apply elem_of_nil in Hk. }
  apply NoDup_cons in Hnd as [Hk Hnd]. pose proof Hok as (Hi & Hal & Hh).
  assert (k < 12)%nat as Hk12 by (apply Hks; left).
  destruct (Z.eqb_spec (nth k (i_addrs i) 0) 0) as [Hz|Hz].
  - rewrite (bind_ok _ _ _ _ _ (trunc_direct_skip s ic ip i k Hic Hz)).
    destruct (IH s ic i O) as (s' & O' & addrs' & E & Hok' & HO & Hv & Hr & Hl & Hn); try done.
    { intros j Hj. apply Hks. by right. } { intros j Hj. apply HD. by right. }
    { intros x bn Hx Hbn. destruct (HR _ _ Hx Hbn) as (j & Hj & -> & Ej). apply elem_of_cons in Hj as [->|Hj]; [|by exists j].
      exfalso. rewrite <- Ej, Hz, (role_0 sb Hlay _ _ Hal) in Hx. done. }
    exists s', O', addrs'. split; [done|]. split_and!; try done. intros j. rewrite Hn, decide_cons.
    by destruct (decide (j = k)) as [->|]; [rewrite decide_False|].
  - assert (O (nth k (i_addrs i) 0) = BData inum (Z.of_nat k)) as Hb by (apply HD; [left | done]).
    set (b := nth k (i_addrs i) 0) in *.
    destruct (bfree_ok sb Hlay s O b m) as (s1 & E1 & I1 & Hal1 & V1 & H1 & Hr1);
      [done | done | congruence | congruence | rewrite Hh; apply not_elem_of_empty | rewrite Hh, size_empty; lia | done |].
    rewrite (bind_ok _ _ _ _ _ (trunc_direct_free s s1 ic ip i k Hic Hz E1)).
    set (i1 := i <| i_addrs := <[k := 0]> (i_addrs i) |>).
    assert (∀ j, nth j (i_addrs i1) 0 = if decide (j = k) then 0 else nth j (i_addrs i) 0) as Hnth
      by (intros j; apply nth_insert; lia).
    destruct (IH s1 (<[ip := i1]> ic) i1 (<[b := BFree]> O)) as (s' & O' & addrs' & E & Hok' & HO & Hv & Hr & Hl & Hn); try done.
    { intros j Hj. apply Hks. by right. }
    { split; [done|]. split; [done|]. by rewrite H1. }
    { rewrite list_lookup_insert_eq; [done | by eapply lookup_lt_Some]. }
    { unfold i1. simpl. by rewrite length_insert. }
    { intros j Hj. assert (j ≠ k) by (by intros ->). rewrite Hnth, decide_False by done. intros Hjz.
      specialize (HD j ltac:(by right) Hjz). rewrite fn_lookup_insert_ne; [done|]. intros Eb. rewrite <- Eb, Hb in HD.
      injection HD as ?. lia. }
    { intros x bn Hx Hbn. destruct (decide (x = b)) as [->|Hxb]; [by rewrite fn_lookup_insert in Hx|].
      rewrite fn_lookup_insert_ne in Hx by done. destruct (HR _ _ Hx Hbn) as (j & Hj & -> & Ej).
      apply elem_of_cons in Hj as [->|Hj]; [done|]. exists j. rewrite Hnth, decide_False; [done|]. by intros ->. }
    exists s', O', addrs'. rewrite list_insert_insert_eq in E. split; [exact E|]. split; [done|]. split; [|split; [|split; [done|split; [done|]]]].
    + intros x. rewrite HO. destruct (decide (x = b)) as [->|Hxb].
      * rewrite fn_lookup_insert, Hb. simpl. by rewrite Z.eqb_refl, (proj2 (Z.ltb_lt _ _)) by (unfold NDIRECT; lia).
      * by rewrite fn_lookup_insert_ne.
    + intros x Hx. by rewrite Hv, V1.
    + intros j. rewrite Hn, Hnth, decide_cons. by destruct (decide (j = k)) as [->|]; [rewrite decide_False|].
Qed.

(** The loop over the indirect block [a]. *)
Lemma trunc_entries_loop a inum h m : ∀ js s O,
  NoDup js → bs_inv s → alloc_ok sb (bs_view s) O → bs_held s = h → sb_bmapstart sb ∉ h → (size h ≤ 2)%nat →
  (∀ j, j ∈ js → load32 a (4 * j) ≠ 0 → O (load32 a (4 * j)) = BData inum (NDIRECT + j)) →
  (∀ x bn, O x = BData inum bn → (bn - NDIRECT) ∈ js ∧ load32 a (4 * (bn - NDIRECT)) = x) →
  room sb s m →
  ∃ s' O', for_each js (trunc_entry sb a) s = Ok () s' ∧ bs_inv s' ∧ alloc_ok sb (bs_view s') O' ∧ bs_held s' = h ∧
    (∀ x, O' x = if data_of inum (O x) then BFree else O x) ∧
    (∀ x, x ≠ sb_bmapstart sb → bs_view s' x = bs_view s x) ∧ room sb s' m.
Proof using Hlay.
  induction js as [|j js IH]; intros s O Hnd Hi Hal Hh Hbm Hsz HD HR Hroom; cbn [for_each].
  { exists s, O. split; [done|]. do 3 (split; [done|]). split; [|done]. intros x. destruct (data_of inum (O x)) eqn:E; [|done].
    unfold data_of in E. destruct (O x) eqn:Ex; try done. apply Z.eqb_eq in E as ->.
    destruct (HR _ _ Ex) as [Hk _]. by apply elem_of_nil in Hk. }
  apply NoDup_cons in Hnd as [Hj Hnd]. destruct (Z.eqb_spec (load32 a (4 * j)) 0) as [Hz|Hz].
  - assert (trunc_entry sb a j s = Ok () s) as E0 by (unfold trunc_entry; by rewrite Hz).
    rewrite (bind_ok _ _ _ _ _ E0). apply IH; try done.
    + intros k Hk. apply HD. by right.
    + intros x bn Hx. destruct (HR _ _ Hx) as [[Ej|?]%elem_of_cons Ex]; [|done].
      exfalso. rewrite Ej, Hz in Ex. rewrite <- Ex, (role_0 sb Hlay _ _ Hal) in Hx. done.
  - assert (O (load32 a (4 * j)) = BData inum (NDIRECT + j)) as Hb by (apply HD; [left | done]).
    set (b := load32 a (4 * j)) in *.
    destruct (bfree_ok sb Hlay s O b m) as (s1 & E1 & I1 & Hal1 & V1 & H1 & Hr1);
      [done | done | congruence | congruence | by rewrite Hh | by rewrite Hh | done |].
    assert (trunc_entry sb a j s = Ok () s1) as E0.
    { unfold trunc_entry, truthy. fold b. by rewrite (proj2 (Z.eqb_neq _ 0)). }
    rewrite (bind_ok _ _ _ _ _ E0).
    destruct (IH s1 (<[b := BFree]> O)) as (s' & O' & E & I' & Hal' & Hh' & HO & Hv & Hr); try done.
    { by rewrite H1. }
    { intros k Hk Hkz. specialize (HD k ltac:(by right) Hkz). rewrite fn_lookup_insert_ne; [done|].
      intros Eb. rewrite <- Eb, Hb in HD. injection HD as ?. assert (k = j) as -> by lia. done. }
    { intros x bn Hx. destruct (decide (x = b)) as [->|Hxb]; [by rewrite fn_lookup_insert in Hx|].
      rewrite fn_lookup_insert_ne in Hx by done. destruct (HR _ _ Hx) as [[Ej|?]%elem_of_cons Ex]; [|done].
      exfalso. rewrite Ej in Ex. done. }
    exists s', O'. do 4 (split; [done|]). split; [|split; [|done]].
    + intros x. rewrite HO. destruct (decide (x = b)) as [->|Hxb].
      * rewrite fn_lookup_insert, Hb. simpl. by rewrite Z.eqb_refl.
      * by rewrite fn_lookup_insert_ne.
    + intros x Hx. by rewrite Hv, V1.
Qed.

(** Only the indirect block and the blocks it lists are left of the file. *)
Record only_indirect (v : Z → block) (O : Z → brole) (inum ind : Z) : Prop := {
  oi_role : O ind = BInd inum;
  oi_data j : 0 ≤ j < NINDIRECT → load32 (v ind) (4 * j) ≠ 0 → O (load32 (v ind) (4 * j)) = BData inum (NDIRECT + j);
  oi_data_inv x bn : O x = BData inum bn → 0 ≤ bn - NDIRECT < NINDIRECT ∧ load32 (v ind) (4 * (bn - NDIRECT)) = x;
  oi_ind_inv x : O x = BInd inum → x = ind
}.

Lemma trunc_indirect_ok s O inum ind m :
  fs_ok sb s O → only_indirect (bs_view s) O inum ind → room sb s m →
  ∃ s' O', trunc_indirect sb ind s = Ok () s' ∧ fs_ok sb s' O' ∧
    (∀ x, O' x = if owned_by inum (O x) then BFree else O x) ∧
    (∀ x, x ≠ sb_bmapstart sb → bs_view s' x = bs_view s x) ∧ room sb s' m.
Proof using Hlay.
  intros (Hi & Hal & Hh) [HI HD HR HIinv] Hroom.
  destruct (role_range sb Hlay (bs_view s) O ind) as (Hrng & Hf & Hbm); [done | congruence |].
  destruct (bs_read_ok s ind) as (s1 & E1 & I1 & V1 & H1 & L1);
    [done | lia | rewrite Hh; apply not_elem_of_empty | rewrite Hh, size_empty; lia |].
  rewrite Hh, union_empty_r_L in H1.
  destruct (trunc_entries_loop (bs_view s ind) inum {[ind]} m (seqZ 0 NINDIRECT) s1 O)
    as (s2 & O2 & E2 & I2 & Hal2 & H2 & HO2 & V2 & R2).
  { apply NoDup_seqZ. } { done. } { eapply alloc_ok_ext; [|done]. intros a. by rewrite V1. } { done. }
  { intros Hx%elem_of_singleton. done. } { rewrite size_singleton. lia. }
  { intros j Hj%elem_of_seqZ. apply HD. lia. }
  { intros x bn Hx. rewrite elem_of_seqZ. destruct (HR _ _ Hx). split; [lia | done]. }
  { apply (room_step sb s s1 ∅ 0 m); [rewrite L1; apply union_subseteq_r', union_subseteq_r | by rewrite size_empty | done]. }
  destruct (bs_release_ok s2 ind I2) as (s3 & E3 & I3 & V3 & H3 & L3); [rewrite H2; by apply elem_of_singleton|].
  rewrite H2, difference_diag_L in H3.
  assert (O2 ind = BInd inum) as Hi2 by (by rewrite HO2, HI).
  destruct (bfree_ok sb Hlay s3 O2 ind m) as (s4 & E4 & I4 & Hal4 & V4 & H4 & R4).
  { done. } { eapply alloc_ok_ext; [|done]. intros a. by rewrite V3. } { congruence. } { congruence. }
  { rewrite H3. apply not_elem_of_empty. } { rewrite H3, size_empty. lia. }
  { apply (room_step sb s2 s3 ∅ 0 m); [rewrite L3; apply union_subseteq_r', union_subseteq_r | by rewrite size_empty | done]. }
  exists s4, (<[ind := BFree]> O2). split; [|split; [|split; [|split; [|done]]]].
  - unfold trunc_indirect. rewrite (bind_ok _ _ _ _ _ E1), bs_get_bind, V1, (bind_ok _ _ _ _ _ E2).
    by rewrite (bind_ok _ _ _ _ _ E3).
  - split; [done|]. split; [done|]. by rewrite H4.
  - intros x. destruct (decide (x = ind)) as [->|Hx].
    + rewrite fn_lookup_insert, HI. simpl. by rewrite Z.eqb_refl.
    + rewrite fn_lookup_insert_ne, HO2 by done. destruct (O x) eqn:Ex; try done. simpl.
      destruct (Z.eqb_spec inum0 inum) as [->|]; [|done]. by apply HIinv in Ex.
  - intros x Hx. by rewrite V4, V3, V2, V1.
Qed.

(** What is left after the first loop. *)
Lemma after_direct v v' O O' inum addrs :
  alloc_ok sb v O → fowns v O inum addrs → (∀ x, O' x = if direct_of inum (O x) then BFree else O x) →
  (∀ x, x ≠ sb_bmapstart sb → v' x = v x) →
  (ind_of addrs = 0 → ∀ x, owned_by inum (O' x) = false) ∧
  (ind_of addrs ≠ 0 → only_indirect v' O' inum (ind_of addrs)).
Proof using Hlay.
  intros Hal Hfo HO Hv. pose proof Hfo as [Hlen HD HI HDi HIi].
  assert (∀ x bn, O' x = BData inum bn → O x = BData inum bn ∧ NDIRECT ≤ bn < MAXFILE ∧ fblock v addrs bn = x) as Hdata.
  { intros x bn Hx. rewrite HO in Hx. destruct (direct_of inum (O x)) eqn:Ed; [done|]. split; [done|].
    destruct (HDi _ _ Hx) as [Hr Hf]. split; [|done]. rewrite Hx in Ed. simpl in Ed. rewrite Z.eqb_refl in Ed.
    simpl in Ed. apply Z.ltb_ge in Ed. lia. }
  assert (∀ x, O' x = BInd inum → ind_of addrs = x) as Hind.
  { intros x Hx. rewrite HO in Hx. destruct (direct_of inum (O x)); [done|]. auto. }
  split.
  - intros Hz x. destruct (O' x) eqn:Ex; try done; simpl; destruct (Z.eqb_spec inum0 inum) as [->|]; try done; exfalso.
    + destruct (Hdata _ _ Ex) as (Hx & Hr & Hf). unfold fblock in Hf. rewrite (proj2 (Z.ltb_ge _ _)), Hz in Hf by lia.
      simpl in Hf. subst x. by rewrite (role_0 sb Hlay _ _ Hal) in Hx.
    + pose proof (Hind _ Ex) as Hx. rewrite Hz in Hx. subst x. rewrite HO, (role_0 sb Hlay _ _ Hal) in Ex. done.
  - intros Hz. pose proof (HI Hz) as Hr. destruct (role_range sb Hlay v O (ind_of addrs)) as (_ & _ & Hbm); [done | congruence |].
    assert (∀ bn, NDIRECT ≤ bn → fblock v addrs bn = load32 (v' (ind_of addrs)) (4 * (bn - NDIRECT))) as Hf.
    { intros bn Hbn. unfold fblock. by rewrite (proj2 (Z.ltb_ge _ _)), (proj2 (Z.eqb_neq _ 0)), Hv by done. }
    split.
    + by rewrite HO, Hr.
    + intros j Hj. replace (4 * j) with (4 * (NDIRECT + j - NDIRECT)) by lia. rewrite <- Hf by lia. intros Hz'.
      rewrite HO, HD; [|unfold MAXFILE, NDIRECT in *; lia | done]. simpl. rewrite (proj2 (Z.ltb_ge _ _)), andb_false_r by lia. done.
    + intros x bn Hx. destruct (Hdata _ _ Hx) as (_ & Hr' & Hf'). split; [unfold MAXFILE in *; lia|]. by rewrite <- Hf by lia.
    + intros x Hx. by rewrite (Hind _ Hx).
Qed.

(** The file is gone: its blocks, and only they, became free, and nothing
    changed but the bitmap and the inode's slot, which holds [i']. *)
Record freed (s s' : S) (O O' : Z → brole) (i' : inode) : Prop := {
  fr_ok : fs_ok sb s' O';
  fr_roles x : O' x = if owned_by (i_inum i') (O x) then BFree else O x;
  fr_slot : bs_view s' (IBLOCK (i_inum i') sb) = put_dinode i' (bs_view s (IBLOCK (i_inum i') sb));
  fr_frame x : x ≠ sb_bmapstart sb → x ≠ IBLOCK (i_inum i') sb → bs_view s' x = bs_view s x
}.

Definition cleared_inode (i : inode) : inode := i <| i_addrs := replicate 13 0 |> <| i_size := 0 |>.

Lemma zeros_eq (l : list Z) n : length l = n → (∀ k, nth k l 0 = 0) → l = replicate n 0.
Proof.
  intros <- Hl. apply list_eq. intros k. destruct (decide (k < length l)%nat) as [Hk|Hk].
  - destruct (lookup_lt_is_Some_2 l k Hk) as [x Hx]. rewrite lookup_replicate_2, Hx by done. f_equal.
    specialize (Hl k). by rewrite (nth_lookup_Some _ _ _ _ Hx) in Hl.
  - rewrite !lookup_ge_None_2; [done | rewrite length_replicate; lia | lia].
Qed.

Lemma lookup_here (ic : list inode) ip i j : ic !! ip = Some i → <[ip := j]> ic !! ip = Some j.
Proof. intros Hic. apply list_lookup_insert_eq. by eapply lookup_lt_Some. Qed.

(** The blocks are freed before the inode is written. *)
Lemma itrunc_blocks s ic ip i O m :
  fs_ok sb s O → ic !! ip = Some i → fowns (bs_view s) O (i_inum i) (i_addrs i) → room sb s m →
  ∃ s' O', fs_ok sb s' O' ∧ (∀ x, O' x = if owned_by (i_inum i) (O x) then BFree else O x) ∧
    (∀ x, x ≠ sb_bmapstart sb → bs_view s' x = bs_view s x) ∧ room sb s' m ∧
    itrunc sb ip (s, ic) = iupdate sb ip (s', <[ip := cleared_inode i]> ic).
Proof using Hlay.
  intros Hok Hic Hfo Hroom. pose proof Hok as (_ & Hal & _).
  destruct (trunc_direct_loop ip (i_inum i) m (seq 0 12) s ic i O) as (s1 & O1 & addrs1 & E1 & Hok1 & HO1 & V1 & R1 & Hl1 & Hn1).
  { apply NoDup_seq. } { intros k Hk%elem_of_seq. lia. } { done. } { done. } { apply Hfo. }
  { intros k Hk%elem_of_seq Hz. assert (fblock (bs_view s) (i_addrs i) (Z.of_nat k) = nth k (i_addrs i) 0) as Ef.
    { unfold fblock, NDIRECT. by rewrite (proj2 (Z.ltb_lt _ _)), Nat2Z.id by lia. }
    rewrite <- Ef in *. apply (fo_data _ _ _ _ Hfo); [change MAXFILE with 140; lia | done]. }
  { intros x bn Hx Hbn. destruct (fo_data_inv _ _ _ _ Hfo _ _ Hx) as [Hr Hf]. exists (Z.to_nat bn).
    unfold NDIRECT in *. split; [apply elem_of_seq; lia|]. split; [lia|]. unfold fblock, NDIRECT in Hf.
    by rewrite (proj2 (Z.ltb_lt _ _)) in Hf by lia. }
  { done. }
  destruct (after_direct (bs_view s) (bs_view s1) O O1 (i_inum i) (i_addrs i) Hal Hfo HO1 V1) as [Hno Hyes].
  assert (nth 12 addrs1 0 = ind_of (i_addrs i)) as E12 by (rewrite Hn1, decide_False; [done | rewrite elem_of_seq; lia]).
  assert (∀ k, nth k (<[12%nat := 0]> addrs1) 0 = 0) as Hz12.
  { intros k. rewrite nth_insert, Hn1 by lia. case_decide; [done|]. case_decide as Hk; [done|].
    apply nth_overflow. rewrite (fo_len _ _ _ _ Hfo). rewrite elem_of_seq in Hk. lia. }
  set (i1 := i <| i_addrs := addrs1 |>) in *.
  pose proof (lookup_here ic ip i i1 Hic) as Hic1.
  unfold itrunc. change (Z.to_nat NDIRECT) with 12%nat. rewrite (bind_ok _ _ _ _ _ E1), (bind_ok _ _ _ _ _ (inode_at_ok _ _ _ _ Hic1)).
  change (i_addrs i1) with addrs1. rewrite E12. unfold truthy. destruct (Z.eqb_spec (ind_of (i_addrs i)) 0) as [Hz|Hz]; cbn [negb when].
  - exists s1, O1. split; [done|]. split; [|split; [done|split; [done|]]].
    + intros x. specialize (Hno Hz x). rewrite HO1 in *. destruct (direct_of (i_inum i) (O x)) eqn:Ed.
      * unfold direct_of in Ed. destruct (O x); try done. apply andb_true_iff in Ed as [Ed _]. simpl. by rewrite Ed.
      * by rewrite Hno.
    + rewrite bind_ret, (bind_ok _ _ _ _ _ (upd_inode_ok _ _ _ _ _ Hic1)), list_insert_insert_eq.
      unfold cleared_inode. rewrite <- (zeros_eq addrs1 13); [done | done |]. intros k.
      specialize (Hz12 k). rewrite nth_insert in Hz12 by lia. case_decide; [subst; congruence | done].
  - destruct (trunc_indirect_ok s1 O1 (i_inum i) (ind_of (i_addrs i)) m Hok1 (Hyes Hz) R1) as (s2 & O2 & E2 & Hok2 & HO2 & V2 & R2).
    exists s2, O2. split; [done|]. split; [|split; [|split; [done|]]].
    + intros x. rewrite HO2, HO1. destruct (direct_of (i_inum i) (O x)) eqn:Ed; [|done].
      unfold direct_of in Ed. destruct (O x); try done. apply andb_true_iff in Ed as [Ed _]. simpl. by rewrite Ed.
    + intros x Hx. by rewrite V2, V1.
    + rewrite bind_assoc, (bind_ok _ _ _ _ _ (onbs_ok _ _ _ _ _ E2)), (bind_ok _ _ _ _ _ (upd_inode_ok _ _ _ _ _ Hic1)).
      rewrite list_insert_insert_eq, (bind_ok _ _ _ _ _ (upd_inode_ok _ _ _ _ _ (lookup_here _ _ _ _ Hic))).
      rewrite list_insert_insert_eq. unfold cleared_inode. rewrite <- (zeros_eq (<[12%nat := 0]> addrs1) 13);
        [done | by rewrite length_insert | done].
Qed.

Lemma itrunc_ok s ic ip i O m :
  fs_ok sb s O → ic !! ip = Some i → fowns (bs_view s) O (i_inum i) (i_addrs i) →
  0 ≤ i_inum i < sb_ninodes sb → room sb s (1 + m) →
  ∃ s' O', itrunc sb ip (s, ic) = Ok () (s', <[ip := cleared_inode i]> ic) ∧ freed s s' O O' (cleared_inode i) ∧
    (∃ X, bs_logged s' = {[IBLOCK (i_inum i) sb]} ∪ X ∧ room sb s' m).
Proof using Hlay.
  intros Hok Hic Hfo Hin Hroom. destruct (itrunc_blocks s ic ip i O (1 + m)) as (s1 & O1 & Hok1 & HO & V1 & R1 & E); try done.
  destruct (iupdate_ok sb Hlay s1 (<[ip := cleared_inode i]> ic) ip (cleared_inode i) O1) as (s2 & E2 & Hok2 & V2 & L2);
    [done | by eapply lookup_here | done | by eapply (room_fits sb s1 _ m) |].
  change (i_inum (cleared_inode i)) with (i_inum i) in *.
  destruct (iblock_range sb Hlay _ Hin) as [Hr _].
  exists s2, O1. rewrite E. split; [done|]. split.
  - split; try done.
    + change (i_inum (cleared_inode i)) with (i_inum i). by rewrite V2, Z.eqb_refl, V1 by lia.
    + change (i_inum (cleared_inode i)) with (i_inum i). intros x Hx Hxi. by rewrite V2, (proj2 (Z.eqb_neq _ _)), V1.
  - eexists. split; [done|]. apply (room_step sb s1 s2 {[IBLOCK (i_inum i) sb]} 1 m);
      [rewrite L2; set_solver | by rewrite size_singleton | done].
Qed.

(** ** iput *)

(** The inode as [iput] leaves it in the cache, and on disk. *)
Definition dead_inode (i : inode) : inode := cleared_inode i <| i_type := 0 |>.

Lemma iput_unused s ic ip i :
  ic !! ip = Some i → i_lock i = false → i_valid i && (i_nlink i =? 0) && (i_ref i =? 1) = false →
  iput sb ip (s, ic) = Ok () (s, <[ip := i <| i_ref := i_ref i - 1 |>]> ic).
Proof using.
  intros Hic Hl Hc. unfold iput, lock_inode, unlock_inode.
  rewrite bind_assoc, (bind_ok _ _ _ _ _ (inode_at_ok _ _ _ _ Hic)), Hl, (bind_ok _ _ _ _ _ (upd_inode_ok _ _ _ _ _ Hic)).
  rewrite (bind_ok _ _ _ _ _ (inode_at_ok _ _ _ _ (lookup_here _ _ _ _ Hic))).
  change (i_valid (i <| i_lock := true |>)) with (i_valid i). change (i_nlink (i <| i_lock := true |>)) with (i_nlink i).
  change (i_ref (i <| i_lock := true |>)) with (i_ref i). rewrite Hc. cbn [when]. rewrite bind_ret.
  rewrite (bind_ok _ _ _ _ _ (upd_inode_ok _ _ _ _ _ (lookup_here _ _ _ _ Hic))), list_insert_insert_eq.
  rewrite (upd_inode_ok _ _ _ _ _ (lookup_here _ _ _ _ Hic)), list_insert_insert_eq. destruct i; simpl in *. by subst.
Qed.

(** File [i] is gone, with its inode; the others are as before. *)
Record gone (s s' : S) (O O' : Z → brole) (i : inode) : Prop := {
  gn_ok : fs_ok sb s' O';
  gn_roles x : O' x = if owned_by (i_inum i) (O x) then BFree else O x;
  gn_disk : load16 (bs_view s' (IBLOCK (i_inum i) sb)) (dinode_off (i_inum i)) = 0;
  gn_others j : i_inum j ≠ i_inum i → 0 ≤ i_inum j < sb_ninodes sb → file_ok (bs_view s) O j →
    file_ok (bs_view s') O' j ∧
    (∀ o, 0 ≤ o < MAXFILE * BSIZE → fbyte (bs_view s') (i_addrs j) o = fbyte (bs_view s) (i_addrs j) o) ∧
    (synced sb (bs_view s) j → synced sb (bs_view s') j)
}.

Lemma slot_others v v' i j :
  v' (IBLOCK (i_inum i) sb) = put_dinode i (v (IBLOCK (i_inum i) sb)) → length (i_addrs i) = 13%nat →
  (∀ x, x ≠ sb_bmapstart sb → x ≠ IBLOCK (i_inum i) sb → v' x = v x) →
  i_inum j ≠ i_inum i → 0 ≤ i_inum j < sb_ninodes sb → synced sb v j → synced sb v' j.
Proof using Hlay.
  intros Hs Hl Hv Hne Hj. unfold synced. destruct (decide (IBLOCK (i_inum j) sb = IBLOCK (i_inum i) sb)) as [Eb|Hb].
  - rewrite Eb, Hs, get_put_dinode_ne; [done | done |]. intros Em. apply Hne.
    unfold IBLOCK, IPB, BSIZE, DINODE_SIZE in *. change (512 / 64) with 8 in *. zmod.
  - rewrite Hv; [done | pose proof (iblock_range sb Hlay _ Hj); lia | done].
Qed.

Lemma freed_others s s' O O' inum j :
  alloc_ok sb (bs_view s) O → 0 ≤ inum < sb_ninodes sb →
  (∀ x, O' x = if owned_by inum (O x) then BFree else O x) →
  (∀ x, x ≠ sb_bmapstart sb → x ≠ IBLOCK inum sb → bs_view s' x = bs_view s x) →
  i_inum j ≠ inum → file_ok (bs_view s) O j →
  file_ok (bs_view s') O' j ∧
  (∀ o, 0 ≤ o < MAXFILE * BSIZE → fbyte (bs_view s') (i_addrs j) o = fbyte (bs_view s) (i_addrs j) o).
Proof using Hlay.
  intros Hal Hin HO Hv Hne Hf.
  assert (∀ x, O x ≠ BMeta → bs_view s' x = bs_view s x) as Hm.
  { intros x Hx. destruct (role_range sb Hlay _ _ _ Hal Hx) as (_ & _ & Hb). apply Hv; [done|].
    intros ->. by rewrite (iblock_meta sb Hlay _ _ _ Hal Hin) in Hx. }
  split; [|intros o Ho; apply (fbyte_meta (bs_view s) _ O (i_inum j)); [done | apply Hf | done]].
  destruct (file_ok_meta (bs_view s) (bs_view s') O j Hm Hf) as [A B C]. split; [|done|done].
  apply (fowns_ext (bs_view s') _ O); [done | done | |]; intros x; rewrite HO; intros;
    destruct (O x) eqn:Ex; simpl; try done; destruct (Z.eqb_spec inum0 inum) as [->|]; split; congruence.
Qed.

(** The run of [iput], given those of [itrunc] and [iupdate]. *)
Lemma iput_run s s1 s2 ic ip i :
  ic !! ip = Some i → i_lock i = false → i_valid i = true → i_nlink i = 0 → i_ref i = 1 →
  itrunc sb ip (s, <[ip := i <| i_lock := true |>]> ic) = Ok () (s1, <[ip := cleared_inode (i <| i_lock := true |>)]> ic) →
  iupdate sb ip (s1, <[ip := dead_inode (i <| i_lock := true |>)]> ic) =
    Ok () (s2, <[ip := dead_inode (i <| i_lock := true |>)]> ic) →
  iput sb ip (s, ic) = Ok () (s2, <[ip := dead_inode i <| i_valid := false |> <| i_ref := 0 |>]> ic).
Proof using.
  intros Hic Hl Hv Hn Hr E1 E2. unfold iput, lock_inode, unlock_inode.
  rewrite bind_assoc, (bind_ok _ _ _ _ _ (inode_at_ok _ _ _ _ Hic)), Hl, (bind_ok _ _ _ _ _ (upd_inode_ok _ _ _ _ _ Hic)).
  rewrite (bind_ok _ _ _ _ _ (inode_at_ok _ _ _ _ (lookup_here _ _ _ _ Hic))).
  change (i_valid (i <| i_lock := true |>)) with (i_valid i). change (i_nlink (i <| i_lock := true |>)) with (i_nlink i).
  change (i_ref (i <| i_lock := true |>)) with (i_ref i). rewrite Hv, Hn, Hr. cbn [andb Z.eqb Pos.eqb when].
  rewrite bind_assoc, (bind_ok _ _ _ _ _ E1).
  rewrite bind_assoc, (bind_ok _ _ _ _ _ (upd_inode_ok _ _ _ _ _ (lookup_here _ _ _ _ Hic))), list_insert_insert_eq.
  rewrite bind_assoc, (bind_ok _ _ _ _ _ E2).
  rewrite (bind_ok _ _ _ _ _ (upd_inode_ok _ _ _ _ _ (lookup_here _ _ _ _ Hic))), list_insert_insert_eq.
  rewrite (bind_ok _ _ _ _ _ (upd_inode_ok _ _ _ _ _ (lookup_here _ _ _ _ Hic))), list_insert_insert_eq.
  rewrite (upd_inode_ok _ _ _ _ _ (lookup_here _ _ _ _ Hic)), list_insert_insert_eq.
  destruct i; simpl in *; subst. done.
Qed.

Lemma cleared_wf i l : inode_wf i → inode_wf (cleared_inode (i <| i_lock := l |>)) ∧ inode_wf (dead_inode (i <| i_lock := l |>)).
Proof using.
  intros [A1 A2 A3 A4 A5 A6 A7]. split; split; try (simpl; done || lia);
    intros k; change (i_addrs _) with (replicate 13 0); rewrite nth_zeros; lia.
Qed.

Lemma iput_last s ic ip i O m :
  fs_ok sb s O → ic !! ip = Some i → fowns (bs_view s) O (i_inum i) (i_addrs i) → inode_wf i → 0 ≤ i_inum i < sb_ninodes sb →
  i_lock i = false → i_valid i = true → i_nlink i = 0 → i_ref i = 1 → room sb s (1 + m) →
  ∃ s' O', iput sb ip (s, ic) = Ok () (s', <[ip := dead_inode i <| i_valid := false |> <| i_ref := 0 |>]> ic) ∧
    gone s s' O O' i ∧ room sb s' m.
Proof using Hlay.
  intros Hok Hic Hfo Hwf Hin Hl Hv Hn Hr Hroom. pose proof Hok as (_ & Hal & _).
  destruct (cleared_wf i true Hwf) as [Hw1 Hw2].
  destruct (itrunc_ok s (<[ip := i <| i_lock := true |>]> ic) ip (i <| i_lock := true |>) O m)
    as (s1 & O1 & E1 & [F1 F2 F3 F4] & (X & L1 & R1)); [done | by eapply lookup_here | done | done | done |].
  rewrite list_insert_insert_eq in E1.
  destruct (iupdate_ok sb Hlay s1 (<[ip := dead_inode (i <| i_lock := true |>)]> ic) ip (dead_inode (i <| i_lock := true |>)) O1)
    as (s2 & E2 & Hok2 & V2 & L2); [done | by eapply lookup_here | done | |].
  { unfold fits. rewrite L1, (assoc_L (∪)), union_idemp_L, <- L1. unfold room in R1.
    eapply Nat.le_trans; [|apply R1]. etransitivity; [apply subseteq_size, union_subseteq_r | apply Nat.le_add_r]. }
  exists s2, O1. split; [by eapply iput_run|].
  assert (∀ x, x ≠ sb_bmapstart sb → x ≠ IBLOCK (i_inum i) sb → bs_view s2 x = bs_view s x) as V3.
  { intros x Hx Hxi. rewrite V2, (proj2 (Z.eqb_neq _ _)) by done. by apply F4. }
  pose proof (V2 (IBLOCK (i_inum (dead_inode (i <| i_lock := true |>))) sb)) as Vslot. rewrite Z.eqb_refl in Vslot.
  split.
  - split; [done | done | |].
    + transitivity (load16 (put_dinode (dead_inode (i <| i_lock := true |>))
        (bs_view s1 (IBLOCK (i_inum (dead_inode (i <| i_lock := true |>))) sb))) (dinode_off (i_inum (dead_inode (i <| i_lock := true |>))))).
      * by rewrite <- Vslot.
      * by rewrite load16_put_dinode.
    + intros j Hne Hj Hf. destruct (freed_others s s2 O O1 (i_inum i) j Hal Hin F2 V3 Hne Hf) as [H1 H2].
      split; [done|]. split; [done|]. intros Hs.
      apply (slot_others (bs_view s1) (bs_view s2) _ j Vslot (iw_addrs _ Hw2)); [| done | done |].
      * intros x Hx Hxi. by rewrite V2, (proj2 (Z.eqb_neq _ _)).
      * exact (slot_others (bs_view s) (bs_view s1) _ j F3 (iw_addrs _ Hw1) F4 Hne Hj Hs).
  - apply (room_step sb s1 s2 ∅ 0 m); [|by rewrite size_empty | done].
    rewrite L2, L1, (assoc_L (∪)), union_idemp_L. apply union_subseteq_r', union_subseteq_r.
Qed.

(** C16: dropping the last reference frees the file. [iput] of the only
    reference to a file without links frees exactly the blocks of that file,
    direct, indirect and the indirect block itself, marks its inode free on
    disk, and leaves every other file as it was; the bitmap still agrees with
    the blocks in use. With a link or another reference left, [iput] only
    counts down. *)
Theorem iput_correct s ic ip i O m :
  fs_ok sb s O → ic !! ip = Some i → fowns (bs_view s) O (i_inum i) (i_addrs i) → inode_wf i → 0 ≤ i_inum i < sb_ninodes sb →
  i_lock i = false → i_valid i = true → room sb s (1 + m) →
  (i_nlink i = 0 → i_ref i = 1 →
   ∃ s' O', iput sb ip (s, ic) = Ok () (s', <[ip := dead_inode i <| i_valid := false |> <| i_ref := 0 |>]> ic) ∧
     gone s s' O O' i ∧ room sb s' m) ∧
  (i_nlink i ≠ 0 ∨ i_ref i ≠ 1 →
   iput sb ip (s, ic) = Ok () (s, <[ip := i <| i_ref := i_ref i - 1 |>]> ic)).
Proof using Hlay.
  intros Hok Hic Hfo Hwf Hin Hl Hv Hroom. split.
  - intros Hn Hr. by apply iput_last.
  - intros Hc. apply iput_unused; [done | done |]. rewrite Hv. simpl.
    destruct Hc; [rewrite (proj2 (Z.eqb_neq (i_nlink i) 0)) by done; done | rewrite (proj2 (Z.eqb_neq (i_ref i) 1)) by done; apply andb_false_r].
Qed.
End trunc.
