(* ===== verification/FsCache.v ===== *)
(** * File system: the inode cache (iget, idup, iput, ilock)

    The table of in-memory inodes counts references to inodes of the disk:
    there is at most one entry per inode, and [iget], [idup] and [iput] add
    and take away references to it. [ilock] makes the entry agree with the
    disk. *)
From stdpp Require Import functions.
From S2P Require Import Prelude Machine CString Bio FsBlock FsInode FsDinode FsFile FsData FsTrunc.
Import KString.

Definition in_use (dev inum : Z) (i : inode) : bool := (0 <? i_ref i) && (i_dev i =? dev) && (i_inum i =? inum).

(** At most one entry per inode, and no negative count. *)
Record icache_ok (ic : list inode) : Prop := {
  ic_ref k i : ic !! k = Some i → 0 ≤ i_ref i;
  ic_uniq k k' i i' dev inum : ic !! k = Some i → ic !! k' = Some i' →
    in_use dev inum i = true → in_use dev inum i' = true → k = k'
}.

(** The number of references to an inode of the disk. *)
Fixpoint refs (ic : list inode) (dev inum : Z) : Z :=
  match ic with
  | [] => 0
  | i :: ic' => (if in_use dev inum i then i_ref i else 0) + refs ic' dev inum
  end.

Lemma iget_scan_spec dev inum ic : ∀ k e,
  match iget_scan ic k e dev inum with
  | inl j => ∃ n i, j = (k + n)%nat ∧ ic !! n = Some i ∧ in_use dev inum i = true
  | inr r => (∀ n i, ic !! n = Some i → in_use dev inum i = false) ∧
      match e, r with
      | Some x, _ => r = Some x
      | None, Some j => ∃ n i, j = (k + n)%nat ∧ ic !! n = Some i ∧ i_ref i = 0
      | None, None => ∀ n i, ic !! n = Some i → i_ref i ≠ 0
      end
  end.
Proof.
  induction ic as [|i ic IH]; intros k e; cbn [iget_scan].
  { split; [done|]. by destruct e. }
  fold (in_use dev inum i). destruct (in_use dev inum i) eqn:E.
  { exists 0%nat, i. split; [lia|done]. }
  set (e' := match e with None => if i_ref i =? 0 then Some k else None | Some _ => e end).
  specialize (IH (S k) e'). destruct (iget_scan ic (S k) e' dev inum) as [j|r].
  - destruct IH as (n & i' & -> & Hn & Hu). exists (S n), i'. split; [lia|done].
  - destruct IH as [Hno Hr]. split.
    { intros [|n] i'; [by intros [= <-] | apply Hno]. }
    unfold e' in Hr. destruct e as [x|]; [done|]. destruct (Z.eqb_spec (i_ref i) 0) as [Hz|Hz].
    + rewrite Hr. exists 0%nat, i. split; [lia|done].
    + destruct r as [j|].
      * destruct Hr as (n & i' & -> & Hn & Hz'). exists (S n), i'. split; [lia|done].
      * intros [|n] i'; [by intros [= <-] | apply Hr].
Qed.

Lemma refs_insert ic : ∀ k i i' dev inum, ic !! k = Some i →
  refs (<[k := i']> ic) dev inum =
  refs ic dev inum - (if in_use dev inum i then i_ref i else 0) + (if in_use dev inum i' then i_ref i' else 0).
Proof.
  induction ic as [|j ic IH]; intros [|k] i i' dev inum Hk; [done | done | |].
  - injection Hk as ->. cbn. lia.
  - change (<[S k := i']> (j :: ic)) with (j :: <[k := i']> ic). cbn [refs].
    rewrite (IH k i i') by exact Hk. lia.
Qed.

Lemma refs_none ic dev inum : (∀ n i, ic !! n = Some i → in_use dev inum i = false) → refs ic dev inum = 0.
Proof.
  induction ic as [|j ic IH]; intros Hn; [done|]. cbn [refs]. rewrite (Hn 0%nat j eq_refl), IH; [done|].
  intros n i Hi. by apply (Hn (S n)).
Qed.

(** Changing the count of an entry in use. *)
Lemma icache_ok_count ic k i r :
  icache_ok ic → ic !! k = Some i → 0 < i_ref i → 0 ≤ r → icache_ok (<[k := i <| i_ref := r |>]> ic).
Proof.
  intros [H1 H2] Hk Hr Hr'. pose proof (lookup_lt_Some _ _ _ Hk) as Hlt.
  assert (∀ n j, <[k := i <| i_ref := r |>]> ic !! n = Some j →
    ∃ j', ic !! n = Some j' ∧ 0 ≤ i_ref j ∧ ∀ dev inum, in_use dev inum j = true → in_use dev inum j' = true) as Hall.
  { intros n j Hn. destruct (decide (n = k)) as [->|Hne].
    - rewrite list_lookup_insert_eq in Hn by done. injection Hn as <-. exists i. split; [done|]. split; [done|].
      intros dev inum. unfold in_use. simpl. rewrite !andb_true_iff. intros [[_ ?] ?]. split; [split; [by apply Z.ltb_lt|]|]; done.
    - rewrite list_lookup_insert_ne in Hn by done. exists j. split; [done|]. split; [by eapply H1 | done]. }
  split.
  - intros n j Hn. by destruct (Hall _ _ Hn) as (_ & _ & ? & _).
  - intros n n' j j' dev inum Hn Hn' Hu Hu'. destruct (Hall _ _ Hn) as (x & Hx & _ & Ux), (Hall _ _ Hn') as (y & Hy & _ & Uy).
    by eapply (H2 n n' x y dev inum); auto.
Qed.

Lemma icache_ok_new ic k i i' dev inum :
  icache_ok ic → ic !! k = Some i → i_ref i = 0 → (∀ n j, ic !! n = Some j → in_use dev inum j = false) →
  i_dev i' = dev → i_inum i' = inum → i_ref i' = 1 → icache_ok (<[k := i']> ic).
Proof.
  intros [H1 H2] Hk Hr Hno Ed Ei Er. pose proof (lookup_lt_Some _ _ _ Hk) as Hlt.
  assert (∀ n j, <[k := i']> ic !! n = Some j → (n = k ∧ j = i') ∨ (n ≠ k ∧ ic !! n = Some j)) as Hall.
  { intros n j Hn. destruct (decide (n = k)) as [->|Hne].
    - rewrite list_lookup_insert_eq in Hn by done. injection Hn as <-. by left.
    - rewrite list_lookup_insert_ne in Hn by done. by right. }
  assert (∀ d n, in_use d n i' = true → d = dev ∧ n = inum) as Hkey.
  { intros d n. unfold in_use. rewrite !andb_true_iff, !Z.eqb_eq. rewrite Ed, Ei. intros [[_ ->] ->]. done. }
  split.
  - intros n j Hn. destruct (Hall _ _ Hn) as [[_ ->]|[_ ?]]; [lia | by eapply H1].
  - intros n n' j j' d m Hn Hn' Hu Hu'. destruct (Hall _ _ Hn) as [[-> ->]|[Hne Hj]], (Hall _ _ Hn') as [[-> ->]|[Hne' Hj']].
    + done.
    + apply Hkey in Hu as [-> ->]. by rewrite (Hno _ _ Hj') in Hu'.
    + apply Hkey in Hu' as [-> ->]. by rewrite (Hno _ _ Hj) in Hu.
    + by eapply H2.
Qed.

Section cache.
Context {S : Type} `{BlockStore S}.
Variable sb : superblock.

Implicit Types (s : S).

Definition one_if (b : bool) : Z := if b then 1 else 0.
Definition same_key (dev inum d n : Z) : bool := (d =? dev) && (n =? inum).

Lemma in_use_key dev inum d n i : in_use dev inum i = true → in_use d n i = same_key dev inum d n.
Proof.
  unfold in_use, same_key. rewrite !andb_true_iff, !Z.eqb_eq. intros [[-> ->] ->]. simpl.
  by rewrite (Z.eqb_sym dev), (Z.eqb_sym inum).
Qed.

(** Counting an entry up or down. *)
Lemma count_entry ic ip i dev inum r :
  icache_ok ic → ic !! ip = Some i → in_use dev inum i = true → 0 ≤ r →
  icache_ok (<[ip := i <| i_ref := r |>]> ic) ∧
  ∀ d n, refs (<[ip := i <| i_ref := r |>]> ic) d n = refs ic d n + (if same_key dev inum d n then r - i_ref i else 0).
Proof.
  intros Hok Hi Hu Hr. assert (0 < i_ref i) as Hpos.
  { unfold in_use in Hu. rewrite !andb_true_iff in Hu. destruct Hu as [[?%Z.ltb_lt _] _]. lia. }
  split; [by apply icache_ok_count|]. intros d n. rewrite (refs_insert _ _ i) by done.
  rewrite (in_use_key dev inum) by done. unfold in_use, same_key in *. simpl.
  rewrite !andb_true_iff, !Z.eqb_eq in Hu. destruct Hu as [[_ ->] ->].
  rewrite (Z.eqb_sym dev d), (Z.eqb_sym inum n). destruct (d =? dev), (n =? inum), (Z.ltb_spec 0 r); simpl; lia.
Qed.

Lemma in_use_ref dev inum i : in_use dev inum i = true → 0 < i_ref i ∧ i_dev i = dev ∧ i_inum i = inum.
Proof. unfold in_use. rewrite !andb_true_iff, !Z.eqb_eq, Z.ltb_lt. tauto. Qed.

Lemma in_use_set dev inum i r : in_use dev inum i = true → 0 < r → in_use dev inum (i <| i_ref := r |>) = true.
Proof. intros (_ & <- & <-)%in_use_ref Hr. unfold in_use. simpl. by rewrite !Z.eqb_refl, (proj2 (Z.ltb_lt 0 r)). Qed.

(** The entry of [iget]: one in use, or a free one. *)
Lemma iget_run s ic dev inum :
  (∃ ip i0 i, iget dev inum (s, ic) = Ok ip (s, <[ip := i]> ic) ∧ ic !! ip = Some i0 ∧ in_use dev inum i = true ∧
     (in_use dev inum i0 = true ∧ i = i0 <| i_ref := i_ref i0 + 1 |> ∨
      i_ref i0 = 0 ∧ (∀ n j, ic !! n = Some j → in_use dev inum j = false) ∧
      i = i0 <| i_dev := dev |> <| i_inum := inum |> <| i_ref := 1 |> <| i_valid := false |>)) ∨
  (iget dev inum (s, ic) = Panic "iget: no inodes" ∧ (∀ n j, ic !! n = Some j → in_use dev inum j = false) ∧
   ∀ k i, ic !! k = Some i → i_ref i ≠ 0).
Proof.
  pose proof (iget_scan_spec dev inum ic 0 None) as Hs. unfold iget.
  assert (∀ (k : list inode → M fsys nat), (gets snd ≫= k) (s, ic) = k ic (s, ic)) as Hg by done. rewrite Hg.
  destruct (iget_scan ic 0 None dev inum) as [j|[j|]].
  - destruct Hs as (n & i & -> & Hi & Hu). left. exists n, i, (i <| i_ref := i_ref i + 1 |>).
    pose proof (in_use_ref _ _ _ Hu) as (Hpos & _). rewrite (bind_ok _ _ _ _ _ (upd_inode_ok _ _ _ _ _ Hi)).
    split; [done|]. split; [done|]. split; [apply in_use_set; [done | lia]|]. by left.
  - destruct Hs as [Hno (n & i & -> & Hi & Hz)]. left. eexists n, i, _. rewrite (bind_ok _ _ _ _ _ (upd_inode_ok _ _ _ _ _ Hi)).
    split; [done|]. split; [done|]. split; [unfold in_use; simpl; by rewrite !Z.eqb_refl|]. by right.
  - destruct Hs as [Hno Hfull]. by right.
Qed.

Lemma iget_ok s ic dev inum :
  icache_ok ic →
  (∃ ip i ic', iget dev inum (s, ic) = Ok ip (s, ic') ∧ icache_ok ic' ∧ ic' !! ip = Some i ∧ in_use dev inum i = true ∧
     ∀ d n, refs ic' d n = refs ic d n + one_if (same_key dev inum d n)) ∨
  (iget dev inum (s, ic) = Panic "iget: no inodes" ∧ refs ic dev inum = 0 ∧ ∀ k i, ic !! k = Some i → i_ref i ≠ 0).
Proof.
  intros Hok. destruct (iget_run s ic dev inum) as [(ip & i0 & i & E & Hi & Hu & Hc)|(E & Hno & Hfull)].
  - left. exists ip, i, (<[ip := i]> ic). split; [done|]. destruct Hc as [[Hu0 ->]|(Hz & Hno & ->)].
    + pose proof (in_use_ref _ _ _ Hu0) as (Hpos & _).
      destruct (count_entry ic ip i0 dev inum (i_ref i0 + 1) Hok Hi Hu0 ltac:(lia)) as [Hok' Hr].
      split; [done|]. split; [by eapply lookup_here|]. split; [done|].
      intros d m. rewrite Hr. unfold one_if. destruct (same_key dev inum d m); lia.
    + set (i := i0 <| i_dev := dev |> <| i_inum := inum |> <| i_ref := 1 |> <| i_valid := false |>) in *.
      split; [by eapply (icache_ok_new ic ip i0 i)|]. split; [by eapply lookup_here|]. split; [done|].
      intros d m. rewrite (refs_insert _ _ i0) by done. rewrite (in_use_key dev inum d m i) by done.
      assert (in_use d m i0 = false) as -> by (unfold in_use; by rewrite Hz). unfold one_if. simpl. lia.
  - right. split; [done|]. split; [by apply refs_none | done].
Qed.

(** The inode cache is a table of reference counts. [iget] returns an
    entry for the inode it was asked for and adds one reference to it, and
    panics exactly when the inode has no entry and every entry is in use;
    [idup] adds one, and [iput], when the file is not to be freed, takes one
    away. None changes the count of another inode, and there is never more
    than one entry for an inode. *)
Theorem icache_counts s ic dev inum :
  icache_ok ic →
  ((∃ ip i ic', iget dev inum (s, ic) = Ok ip (s, ic') ∧ icache_ok ic' ∧ ic' !! ip = Some i ∧ in_use dev inum i = true ∧
      ∀ d n, refs ic' d n = refs ic d n + one_if (same_key dev inum d n)) ∨
   (iget dev inum (s, ic) = Panic "iget: no inodes" ∧ refs ic dev inum = 0 ∧ ∀ k i, ic !! k = Some i → i_ref i ≠ 0)) ∧
  ∀ ip i, ic !! ip = Some i → in_use dev inum i = true →
    (∃ ic', idup ip (s, ic) = Ok ip (s, ic') ∧ icache_ok ic' ∧
       ∀ d n, refs ic' d n = refs ic d n + one_if (same_key dev inum d n)) ∧
    (i_lock i = false → i_valid i && (i_nlink i =? 0) && (i_ref i =? 1) = false →
     ∃ ic', iput sb ip (s, ic) = Ok () (s, ic') ∧ icache_ok ic' ∧
       ∀ d n, refs ic' d n = refs ic d n - one_if (same_key dev inum d n)).
Proof.
  intros Hok. split; [by apply iget_ok|]. intros ip i Hi Hu.
  pose proof (in_use_ref _ _ _ Hu) as (Hpos & _). split.
  - destruct (count_entry ic ip i dev inum (i_ref i + 1) Hok Hi Hu ltac:(lia)) as [Hok' Hr].
    exists (<[ip := i <| i_ref := i_ref i + 1 |>]> ic). split; [|split; [done|]].
    + unfold idup. by rewrite (bind_ok _ _ _ _ _ (upd_inode_ok _ _ _ _ _ Hi)).
    + intros d n. rewrite Hr. unfold one_if. destruct (same_key dev inum d n); lia.
  - intros Hl Hc. destruct (count_entry ic ip i dev inum (i_ref i - 1) Hok Hi Hu ltac:(lia)) as [Hok' Hr].
    exists (<[ip := i <| i_ref := i_ref i - 1 |>]> ic). split; [by apply iput_unused|]. split; [done|].
    intros d n. rewrite Hr. unfold one_if. destruct (same_key dev inum d n); lia.
Qed.
End cache.

Section lock.
Context {S : Type} `{BlockStore S}.
Variable sb : superblock.
Context (Hlay : layout_ok sb).

Lemma synced_lock v i l : synced sb v i → synced sb v (i <| i_lock := l |>).
Proof using.
  unfold synced. intros Hs. transitivity ((get_dinode (v (IBLOCK (i_inum i) sb)) i) <| i_lock := l |>); [by destruct i | by rewrite Hs].
Qed.

Lemma iunlock_ok (s : S) ic ip i :
  ic !! ip = Some i → i_lock i = true → 1 ≤ i_ref i → iunlock ip (s, ic) = Ok () (s, <[ip := i <| i_lock := false |>]> ic).
Proof using.
  clear Hlay. intros Hi Hl Hr. unfold iunlock. rewrite (bind_ok _ _ _ _ _ (inode_at_ok _ _ _ _ Hi)), Hl. simpl.
  rewrite (proj2 (Z.ltb_ge _ 1)) by lia. by apply upd_inode_ok.
Qed.

(** After [ilock] the entry is locked and agrees with the disk. *)
Lemma ilock_ok (s : S) ic ip i O :
  fs_ok sb s O → ic !! ip = Some i → 1 ≤ i_ref i → 0 ≤ i_inum i < sb_ninodes sb → i_lock i = false →
  (i_valid i = true → synced sb (bs_view s) i) →
  ∃ s' i', same_disk s s' ∧ i_lock i' = true ∧ i_valid i' = true ∧ i_ref i' = i_ref i ∧ i_inum i' = i_inum i ∧
    i_dev i' = i_dev i ∧
    synced sb (bs_view s) i' ∧ (i_valid i = true → i' = i <| i_lock := true |>) ∧
    ilock sb ip (s, ic) =
    if i_valid i || negb (i_type i' =? 0) then Ok () (s', <[ip := i']> ic) else Panic "ilock: no type".
Proof using Hlay.
  intros (Hi & Hal & Hh) Hic Hr Hin Hl Hs. unfold ilock, lock_inode.
  rewrite (bind_ok _ _ _ _ _ (inode_at_ok _ _ _ _ Hic)), (proj2 (Z.ltb_ge _ _)) by lia.
  rewrite bind_assoc, (bind_ok _ _ _ _ _ (inode_at_ok _ _ _ _ Hic)), Hl, (bind_ok _ _ _ _ _ (upd_inode_ok _ _ _ _ _ Hic)).
  destruct (i_valid i) eqn:Hv.
  - exists s, (i <| i_lock := true |>). split; [by apply same_disk_refl|]. do 5 (split; [done|]).
    split; [|done]. by apply synced_lock, Hs.
  - destruct (iblock_range sb Hlay _ Hin) as [_ Hrng].
    destruct (read_release_ok s (IBLOCK (i_inum i) sb) (λ d, mret d)) as (s2 & I2 & V2 & H2 & L2 & E2);
      [done | lia | rewrite Hh; apply not_elem_of_empty | rewrite Hh, size_empty; lia |].
    set (i' := get_dinode (bs_view s (IBLOCK (i_inum i) sb)) (i <| i_lock := true |>) <| i_valid := true |>).
    exists s2, i'. split; [by split|]. do 5 (split; [done|]). split; [by destruct i|]. split; [done|].
    rewrite (bind_ok _ _ _ _ _ (onbs_ok _ _ _ _ _ E2)).
    rewrite (bind_ok _ _ _ _ _ (upd_inode_ok _ _ _ _ _ (lookup_here _ _ _ _ Hic))), list_insert_insert_eq. fold i'.
    rewrite (bind_ok _ _ _ _ _ (inode_at_ok _ _ _ _ (lookup_here _ _ _ _ Hic))). cbn [orb].
    by destruct (i_type i' =? 0).
Qed.
End lock.
