(* ===== verification/FsPath.v ===== *)
(** * File system: names and paths (namecmp, skipelem)

    A C string is the list of its bytes before the terminating zero; a
    [char name[DIRSIZ]] is the list of its 14 bytes, which need not contain a
    zero. Splitting a path with [skipelem] is compared with a specification
    that cuts it at the slashes. *)
From S2P Require Import Prelude Machine CString Bio FsBlock.
Import KString.

Definition slash : Z := 47.
Definition dirsiz : nat := Z.to_nat DIRSIZ.

(** [strncmp] and [strncpy] on byte lists; beyond its end a list reads as the
    terminating zero. *)
Fixpoint bstrncmp (p q : list Z) (n : nat) : Z :=
  match n with
  | O => 0
  | S n' =>
      let a := hd 0 p in
      let b := hd 0 q in
      if truthy a && (a =? b) then bstrncmp (tl p) (tl q) n' else u8 a - u8 b
  end.

Fixpoint bstrncpy (t : list Z) (n : nat) : list Z :=
  match n with
  | O => []
  | S n' => if truthy (hd 0 t) then hd 0 t :: bstrncpy (tl t) n' else replicate (S n') 0
  end.

Definition namecmp (s t : list Z) : Z := bstrncmp s t dirsiz.

(** Stepping over slashes, and the length of the element at [path]. *)
Fixpoint skip_slashes (path : list Z) : list Z :=
  match path with
  | c :: path' => if c =? slash then skip_slashes path' else path
  | [] => []
  end.

Fixpoint elem_len (path : list Z) : nat :=
  match path with
  | c :: path' => if c =? slash then O else S (elem_len path')
  | [] => O
  end.

(** The rest of the path and [name]; [None] for the null pointer. *)
Definition skipelem (path name : list Z) : option (list Z * list Z) :=
  let path := skip_slashes path in
  match path with
  | [] => None
  | _ =>
      let len := elem_len path in
      let s := take len path in
      let name' := if (dirsiz <=? len)%nat then take dirsiz s else s ++ 0 :: drop (S len) name in
      Some (skip_slashes (drop len path), name')
  end.

(** ** What they mean *)

(** The string in a buffer of [DIRSIZ] bytes. *)
Fixpoint cstr (l : list Z) (n : nat) : list Z :=
  match n, l with
  | S n', c :: l' => if truthy c then c :: cstr l' n' else []
  | _, _ => []
  end.
Definition name_of (l : list Z) : list Z := cstr l dirsiz.

(** The elements of a path: cut at slashes, empty pieces dropped. *)
Fixpoint pieces (path : list Z) (acc : list Z) : list (list Z) :=
  match path with
  | [] => [rev acc]
  | c :: path' => if c =? slash then rev acc :: pieces path' [] else pieces path' (c :: acc)
  end.
Definition elements (path : list Z) : list (list Z) := filter (λ e, e ≠ []) (pieces path []).

(** The names [skipelem] produces when it is called until it returns 0. *)
Fixpoint skipelems (fuel : nat) (path name : list Z) : list (list Z) :=
  match fuel with
  | O => []
  | S fuel' =>
      match skipelem path name with
      | None => []
      | Some (path', name') => name_of name' :: skipelems fuel' path' name'
      end
  end.

Definition bytes_ok (l : list Z) : Prop := Forall (λ c, 0 ≤ c < 256) l.
Definition string_ok (l : list Z) : Prop := Forall (λ c, 0 < c < 256) l.

Lemma bstrncmp_zero n : ∀ p q, bytes_ok p → bytes_ok q → bstrncmp p q n = 0 ↔ cstr p n = cstr q n.
Proof.
  induction n as [|n IH]; intros p q Hp Hq; [by destruct p, q|].
  cbn [bstrncmp].
  destruct p as [|a p], q as [|b q]; cbn [hd tl cstr]; unfold truthy.
  - done.
  - apply Forall_cons in Hq as [Hb Hq]. simpl. unfold u8. rewrite Z.mod_0_l, Z.mod_small by lia.
    destruct (Z.eqb_spec b 0); simpl; split; intros; (done || lia).
  - apply Forall_cons in Hp as [Ha Hp]. unfold u8. rewrite Z.mod_0_l, (Z.mod_small a) by lia.
    destruct (Z.eqb_spec a 0) as [->|]; simpl; split; intros; (done || lia).
  - apply Forall_cons in Hp as [Ha Hp], Hq as [Hb Hq]. unfold u8. rewrite !Z.mod_small by lia.
    destruct (Z.eqb_spec a b) as [->|Hab].
    + destruct (Z.eqb_spec b 0); simpl; [split; [done | intros; lia]|]. rewrite IH by done.
      split; [by intros -> | by intros [= ->]].
    + rewrite andb_false_r. split; [lia|]. destruct (Z.eqb_spec a 0), (Z.eqb_spec b 0); simpl; try done; [lia | intros [= ?]; done].
Qed.

(** The list versions are those on memory. *)
Lemma bstrncmp_mem m n : ∀ p q a b,
  (∀ k, (k < n)%nat → m (a + Z.of_nat k) = nth k p 0) → (∀ k, (k < n)%nat → m (b + Z.of_nat k) = nth k q 0) →
  bytes_ok p → bytes_ok q → strncmp_loop m a b n = bstrncmp p q n.
Proof.
  induction n as [|n IH]; intros p q a b Hp Hq Bp Bq; [done|]. cbn [strncmp_loop bstrncmp].
  assert (∀ (l : list Z), nth 0 l 0 = hd 0 l) as Hhd by (by intros []).
  assert (∀ (l : list Z), bytes_ok l → u8 (hd 0 l) = hd 0 l ∧ bytes_ok (tl l)) as Hb.
  { intros [|c l] Hl; [done|]. apply Forall_cons in Hl as [Hc Hl]. split; [by apply Z.mod_small | done]. }
  destruct (Hb p Bp) as [-> Bp'], (Hb q Bq) as [-> Bq'].
  pose proof (Hp 0%nat ltac:(lia)) as Ha. pose proof (Hq 0%nat ltac:(lia)) as Hb0.
  rewrite Z.add_0_r, Hhd in Ha, Hb0. rewrite Ha, Hb0. case_match; [|done].
  assert (∀ (l : list Z) k, nth (S k) l 0 = nth k (tl l) 0) as Htl by (intros [|? ?] k; [by destruct k | done]).
  apply IH; [| |done|done]; intros k Hk; rewrite <- Htl; [rewrite <- Hp by lia | rewrite <- Hq by lia]; f_equal; lia.
Qed.

(** Comparing with a copy made by [strncpy]. *)
Lemma bstrncmp_copy n : ∀ p t, bstrncmp p (bstrncpy t n) n = bstrncmp p t n.
Proof.
  induction n as [|n IH]; intros p t; [done|]. cbn [bstrncmp bstrncpy]. unfold truthy.
  destruct (Z.eqb_spec (hd 0 t) 0) as [E|E]; cbn [negb hd tl replicate].
  - rewrite E. destruct (Z.eqb_spec (hd 0 p) 0) as [->|Hp]; done.
  - by rewrite IH.
Qed.

Lemma bstrncmp_refl n : ∀ p, bstrncmp p p n = 0.
Proof. induction n as [|n IH]; intros p; [done|]. cbn [bstrncmp]. rewrite Z.eqb_refl, andb_true_r, IH, Z.sub_diag. by case_match. Qed.

Lemma namecmp_zero s t : bytes_ok s → bytes_ok t → namecmp s t = 0 ↔ name_of s = name_of t.
Proof. apply bstrncmp_zero. Qed.

Lemma cstr_string l : ∀ n, string_ok l → cstr l n = take n l.
Proof.
  induction l as [|c l IH]; intros [|n] Hl; try done. apply Forall_cons in Hl as [Hc Hl]. simpl. unfold truthy.
  rewrite (proj2 (Z.eqb_neq c 0)) by lia. simpl. by rewrite IH.
Qed.

Lemma cstr_app_zero l r : ∀ n, string_ok l → cstr (l ++ 0 :: r) n = take n l.
Proof.
  induction l as [|c l IH]; intros [|n] Hl; try done. apply Forall_cons in Hl as [Hc Hl]. simpl. unfold truthy.
  rewrite (proj2 (Z.eqb_neq c 0)) by lia. simpl. by rewrite IH.
Qed.

Lemma cstr_strncpy n : ∀ t, bytes_ok t → cstr (bstrncpy t n) n = cstr t n ∧ length (bstrncpy t n) = n ∧ bytes_ok (bstrncpy t n).
Proof.
  induction n as [|n IH]; intros t Ht; [destruct t; (split; [done|]; split; [done | constructor])|]. cbn [bstrncpy]. unfold truthy.
  destruct t as [|c t]; cbn [hd tl].
  - simpl. split; [done|]. rewrite length_replicate. split; [done|]. apply Forall_cons. split; [lia|]. apply Forall_replicate. lia.
  - apply Forall_cons in Ht as [Hc Ht]. destruct (Z.eqb_spec c 0) as [->|Hz]; simpl.
    + split; [done|]. rewrite length_replicate. split; [done|]. apply Forall_cons. split; [lia|]. apply Forall_replicate. lia.
    + unfold truthy. rewrite (proj2 (Z.eqb_neq c 0)) by done. simpl. destruct (IH t Ht) as (-> & -> & ?).
      split; [done|]. split; [done|]. by apply Forall_cons.
Qed.

(** ** Paths *)

Lemma skip_slashes_length path : (length (skip_slashes path) ≤ length path)%nat.
Proof. induction path as [|c path IH]; [done|]. simpl. case_match; simpl in *; lia. Qed.

Lemma skip_slashes_string path : string_ok path → string_ok (skip_slashes path).
Proof.
  induction path as [|c path IH]; [done|]. simpl. intros Hp. case_match; [|done].
  apply Forall_cons in Hp as [_ Hp]. auto.
Qed.

Lemma skip_slashes_head path c r : skip_slashes path = c :: r → c ≠ slash.
Proof. induction path as [|a path IH]; [done|]. simpl. case_match eqn:E; [done|]. intros [= <- _]. by apply Z.eqb_neq. Qed.

Lemma elements_skip path : elements (skip_slashes path) = elements path.
Proof.
  induction path as [|c path IH]; [done|]. simpl. destruct (Z.eqb_spec c slash) as [->|]; [|done].
  rewrite IH. unfold elements. cbn [pieces]. rewrite Z.eqb_refl. by rewrite filter_cons_False by (by intros []).
Qed.

Lemma pieces_elem path : ∀ acc,
  pieces path acc = (rev acc ++ take (elem_len path) path) ::
    match drop (elem_len path) path with [] => [] | _ :: r => pieces r [] end.
Proof.
  induction path as [|c path IH]; intros acc; cbn [pieces elem_len]; [by rewrite app_nil_r|].
  destruct (c =? slash) eqn:E; [by cbn; rewrite app_nil_r|]. rewrite IH. cbn [rev take drop].
  by rewrite <- app_assoc.
Qed.

Lemma drop_elem path : drop (elem_len path) path = [] ∨ ∃ r, drop (elem_len path) path = slash :: r.
Proof.
  induction path as [|c path IH]; [by left|]. simpl. destruct (Z.eqb_spec c slash) as [->|]; [right; eauto | done].
Qed.

(** The first element of a path, and the others. *)
Lemma elements_cons path c r :
  skip_slashes path = c :: r →
  elements path = take (elem_len (c :: r)) (c :: r) :: elements (skip_slashes (drop (elem_len (c :: r)) (c :: r))).
Proof.
  intros E. rewrite elements_skip, <- elements_skip, E. pose proof (skip_slashes_head _ _ _ E) as Hc.
  unfold elements at 1. rewrite pieces_elem. cbn [rev app]. rewrite filter_cons_True.
  2: { simpl. rewrite (proj2 (Z.eqb_neq _ _)) by done. done. }
  f_equal. destruct (drop_elem (c :: r)) as [->|[r' ->]]; [done|].
  unfold elements. cbn [pieces]. rewrite Z.eqb_refl. by rewrite filter_cons_False by (by intros []).
Qed.

Lemma elements_nil path : elements (skip_slashes path) = [] ↔ skip_slashes path = [].
Proof.
  split; [|by intros ->]. destruct (skip_slashes path) as [|c r] eqn:E; [done|].
  rewrite <- E, elements_skip, (elements_cons _ _ _ E). done.
Qed.

(** One call of [skipelem]. *)
Lemma skipelem_step path name : string_ok path →
  match skipelem path name with
  | None => elements path = []
  | Some (path', name') =>
      elements path ≠ [] ∧ take dirsiz <$> elements path = name_of name' :: (take dirsiz <$> elements path') ∧
      (elements path' = [] ↔ path' = []) ∧ string_ok path' ∧ (length path' < length path)%nat
  end.
Proof.
  intros Hp. unfold skipelem. pose proof (skip_slashes_length path) as Hl. pose proof (skip_slashes_string path Hp) as Hs.
  destruct (skip_slashes path) as [|c r] eqn:E; [by rewrite <- elements_skip, E|].
  rewrite (elements_cons _ _ _ E). pose proof (skip_slashes_head _ _ _ E) as Hc.
  set (len := elem_len (c :: r)). assert (0 < len)%nat as Hlen.
  { unfold len. simpl. rewrite (proj2 (Z.eqb_neq _ _)) by done. lia. }
  split; [done|]. split; [|split; [apply elements_nil|split; [by apply skip_slashes_string, Forall_drop|]]].
  - cbn [fmap list_fmap]. f_equal. symmetry. unfold name_of. destruct (Nat.leb_spec dirsiz len).
    + rewrite cstr_string; [by rewrite take_take, Nat.min_id | do 2 apply Forall_take; done].
    + rewrite cstr_app_zero; [done | by apply Forall_take].
  - pose proof (skip_slashes_length (drop len (c :: r))). rewrite length_drop in *. simpl in *. lia.
Qed.

(** [skipelem] splits a path. Calling it until it returns 0 yields
    exactly the elements of the path, cut at slashes with empty ones dropped,
    each cut to [DIRSIZ] bytes, whatever the name buffer held before; with as
    many calls as the path has bytes it comes to an end. *)
Theorem skipelem_splits path : ∀ fuel name,
  string_ok path → (length path < fuel)%nat →
  skipelems fuel path name = take dirsiz <$> elements path.
Proof.
  intros fuel. revert path. induction fuel as [|fuel IH]; intros path name Hp Hf; [lia|]. cbn [skipelems].
  pose proof (skipelem_step path name Hp) as Hs. destruct (skipelem path name) as [[path' name']|]; [|by rewrite Hs].
  destruct Hs as (_ & -> & _ & Hp' & Hl). f_equal. apply IH; [done | lia].
Qed.

(** The path of the comment on [skipelem]: ["///a//bb"]. *)
Lemma skipelem_splits_witness :
  skipelems 9 [47; 47; 47; 97; 47; 47; 98; 98] (replicate 14 1) = [[97]; [98; 98]].
Proof. rewrite (skipelem_splits [47; 47; 47; 97; 47; 47; 98; 98] 9); [done | repeat constructor; lia | simpl; lia]. Defined.
