(* ===== verification/FsDir.v ===== *)
(** * File system: directories (dirlookup, dirlink, namex)

    A directory is a file of 16-byte entries. [dirlookup] finds the first
    entry with a name, [dirlink] adds one; seen as a map from names to inode
    numbers, it changes that name and no other. *)
From stdpp Require Import functions.
From S2P Require Import Prelude Machine CString Bio FsBlock FsInode FsDinode FsFile FsData FsTrunc FsCache FsPath.
Import KString.

(** [sizeof(struct dirent)] and its fields. *)
Definition DIRENT : Z := 16.
Definition de_inum (e : list Z) : Z := nth 0 e 0 + 256 * nth 1 e 0.
Definition de_name (e : list Z) : list Z := drop 2 e.
Definition mk_dirent (inum : Z) (name : list Z) : list Z := u8 inum :: u8 (inum / 256) :: bstrncpy name dirsiz.

(** [for(off = from; off < size; off += sizeof(de))] *)
Definition dir_offsets (from size : Z) : list Z :=
  (λ k, from + DIRENT * k) <$> seqZ 0 ((size - from + (DIRENT - 1)) / DIRENT).

Section dirs.
Context {S : Type} `{BlockStore S}.
Variable sb : superblock.
Variable dev_read : Z → option (nat → Z → M (@fsys S) (Z * list Z)).
Variable dev_write : Z → option (nat → list Z → M (@fsys S) Z).

Definition read_dirent (dp : nat) (off : Z) (msg : string) : M fsys (list Z) :=
  r ← readi sb dev_read dp off DIRENT;
  if negb (r.1 =? DIRENT) then panic msg else mret r.2.

(** The inode and the offset of its entry ([poff]), or nothing. *)
Definition dirlookup (dp : nat) (name : list Z) : M fsys (option (nat * Z)) :=
  d ← inode_at dp;
  if negb (i_type d =? T_DIR) then panic "dirlookup not DIR"
  else
    for_until (dir_offsets 0 (i_size d)) (λ off,
      de ← read_dirent dp off "dirlookup read";
      if de_inum de =? 0 then mret None
      else if namecmp name (de_name de) =? 0 then
        ip ← iget (i_dev d) (de_inum de);
        mret (Some (ip, off))
      else mret None).

Definition dirlink (dp : nat) (name : list Z) (inum : Z) : M fsys Z :=
  r ← dirlookup dp name;
  match r with
  | Some (ip, _) => iput sb ip;; mret (-1)
  | None =>
      d ← inode_at dp;
      e ← for_until (dir_offsets 0 (i_size d)) (λ off,
        de ← read_dirent dp off "dirlink read";
        mret (if de_inum de =? 0 then Some off else None));
      let off := default (DIRENT * ((i_size d + (DIRENT - 1)) / DIRENT)) e in
      w ← writei sb dev_write dp off (mk_dirent inum name);
      if negb (w =? DIRENT) then panic "dirlink" else mret 0
  end.

(** Is the directory empty except for [.] and [..]? *)
Definition isdirempty (dp : nat) : M fsys bool :=
  d ← inode_at dp;
  r ← for_until (dir_offsets (2 * DIRENT) (i_size d)) (λ off,
    de ← read_dirent dp off "isdirempty: readi";
    mret (if negb (de_inum de =? 0) then Some () else None));
  mret (match r with Some _ => false | None => true end).

(** The loop of [namex]; [None] for the null pointer. *)
Fixpoint namex_loop (fuel : nat) (ip : nat) (path : list Z) (parent : bool) (name : list Z) : M fsys (option (nat * list Z)) :=
  match fuel with
  | O => hang
  | Datatypes.S fuel' =>
      match skipelem path name with
      | None => if parent then iput sb ip;; mret None else mret (Some (ip, name))
      | Some (path', name') =>
          ilock sb ip;;
          i ← inode_at ip;
          if negb (i_type i =? T_DIR) then iunlockput sb ip;; mret None
          else if parent && (length path' =? 0)%nat then iunlock ip;; mret (Some (ip, name'))
          else
            next ← dirlookup ip name';
            match next with
            | None => iunlockput sb ip;; mret None
            | Some (nip, _) => iunlockput sb ip;; namex_loop fuel' nip path' parent name'
            end
      end
  end.

(** [cwd] is [myproc()->cwd]; the result carries [name]. *)
Definition namex (cwd : option nat) (path : list Z) (parent : bool) (name : list Z) : M fsys (option (nat * list Z)) :=
  ip ← (if hd 0 path =? slash then iget ROOTDEV ROOTINO
        else match cwd with Some c => idup c | None => panic "trap" end);
  namex_loop (Datatypes.S (length path)) ip path parent name.

(** [name] is the uninitialised buffer of [namei]. *)
Definition namei (cwd : option nat) (path name : list Z) : M fsys (option nat) :=
  r ← namex cwd path false name;
  mret (fst <$> r).

Definition nameiparent (cwd : option nat) (path name : list Z) : M fsys (option (nat * list Z)) :=
  namex cwd path true name.
End dirs.

(** * File system: what the directory operations do

    The contents of a directory as a map from names to inode numbers, and
    [dirlookup] and [dirlink] as lookup and insertion in it. *)

(** ** The first entry that passes a test *)

Fixpoint first_slot (f : Z → bool) (ks : list Z) : option Z :=
  match ks with
  | [] => None
  | k :: ks' => if f k then Some k else first_slot f ks'
  end.

Lemma first_slot_ext f g ks : (∀ k, k ∈ ks → f k = g k) → first_slot f ks = first_slot g ks.
Proof.
  induction ks as [|k ks IH]; intros Hfg; [done|]. simpl. rewrite (Hfg k) by left. destruct (g k); [done|].
  apply IH. intros j Hj. apply Hfg. by right.
Qed.

Lemma first_slot_none f ks : first_slot f ks = None ↔ ∀ k, k ∈ ks → f k = false.
Proof.
  induction ks as [|k ks IH]; simpl; [split; [by intros _ k Hk%elem_of_nil | done]|]. destruct (f k) eqn:E.
  - split; [done|]. intros Hall. rewrite (Hall k) in E by left. done.
  - rewrite IH. split; [intros Hall j [->|Hj]%elem_of_cons; auto | intros Hall j Hj; apply Hall; by right].
Qed.

Lemma first_slot_some f ks k : first_slot f ks = Some k → k ∈ ks ∧ f k = true.
Proof.
  induction ks as [|j ks IH]; simpl; [done|]. destruct (f j) eqn:E; [intros [= <-]; split; [left | done]|].
  intros [Hk Hf]%IH. split; [by right | done].
Qed.

(** A test that fails everywhere but at [k]. *)
Lemma first_slot_only f ks k : k ∈ ks → f k = true → (∀ j, j ∈ ks → j ≠ k → f j = false) → first_slot f ks = Some k.
Proof.
  induction ks as [|j ks IH]; intros Hk Hf Hno; [by apply elem_of_nil in Hk|]. simpl.
  destruct (decide (j = k)) as [->|Hne]; [by rewrite Hf|]. rewrite (Hno j) by (left || done).
  apply IH; [by apply elem_of_cons in Hk as [->|] | done |]. intros i Hi. apply Hno. by right.
Qed.

Lemma first_slot_app f ks1 ks2 : (∀ k, k ∈ ks2 → f k = false) → first_slot f (ks1 ++ ks2) = first_slot f ks1.
Proof.
  intros Hno. induction ks1 as [|k ks IH]; simpl; [by apply first_slot_none | by rewrite IH].
Qed.

(** ** Directories *)

Definition dir_slot (v : Z → block) (addrs : list Z) (k : Z) : list Z := fbytes v addrs (DIRENT * k) DIRENT.
Definition slot_match (name e : list Z) : bool := negb (de_inum e =? 0) && (namecmp name (de_name e) =? 0).
Definition nslots (d : inode) : Z := i_size d / DIRENT.

(** The slot of [name], and its inode number: the directory as a map. *)
Definition find_name (v : Z → block) (d : inode) (name : list Z) : option Z :=
  first_slot (λ k, slot_match name (dir_slot v (i_addrs d) k)) (seqZ 0 (nslots d)).
Definition dlookup (v : Z → block) (d : inode) (name : list Z) : option Z :=
  (λ k, de_inum (dir_slot v (i_addrs d) k)) <$> find_name v d name.

Lemma dir_offsets_slots d : 0 ≤ i_size d → i_size d mod DIRENT = 0 →
  dir_offsets 0 (i_size d) = (λ k, DIRENT * k) <$> seqZ 0 (nslots d).
Proof.
  intros Hs Hm. unfold dir_offsets, nslots. replace ((i_size d - 0 + (DIRENT - 1)) / DIRENT) with (i_size d / DIRENT).
  - apply list_fmap_ext. intros ? k ?. lia.
  - unfold DIRENT in *. zmod.
Qed.

Lemma for_until_ext {St A R} (l : list A) (f g : A → M St (option R)) s :
  (∀ x s, f x s = g x s) → for_until l f s = for_until l g s.
Proof.
  intros Hfg. revert s. induction l as [|x l IH]; intros s; [done|]. cbn [for_until].
  unfold mbind, M_bind. rewrite Hfg. destruct (g x s) as [[r|] s'|e|]; try done.
Qed.

Lemma bind_ext {St A C} (m : M St A) (f g : A → M St C) s : (∀ x s, f x s = g x s) → (m ≫= f) s = (m ≫= g) s.
Proof. intros Hfg. unfold mbind, M_bind. by destruct (m s). Qed.

Lemma mk_dirent_spec inum name : bytes_ok name → 0 ≤ inum < 65536 →
  length (mk_dirent inum name) = 16%nat ∧ bytes_ok (mk_dirent inum name) ∧ de_inum (mk_dirent inum name) = inum ∧
  ∀ t, namecmp t (de_name (mk_dirent inum name)) = namecmp t name.
Proof.
  intros Hn Hi. destruct (cstr_strncpy dirsiz name Hn) as (_ & Hl & Hb). unfold mk_dirent.
  split; [cbn [length]; by rewrite Hl|]. split; [|split].
  - apply Forall_cons. split; [apply Z.mod_pos_bound; lia|]. apply Forall_cons. split; [apply Z.mod_pos_bound; lia | done].
  - unfold de_inum. cbn [nth]. unfold u8. zmod.
  - intros t. unfold de_name. cbn [drop]. apply bstrncmp_copy.
Qed.

Section spec.
Context {S : Type} `{BlockStore S}.
Variable sb : superblock.
Context (Hlay : layout_ok sb).
Notation dev_reads := (Z → option (nat → Z → M (@fsys S) (Z * list Z))).
Notation dev_writes := (Z → option (nat → list Z → M (@fsys S) Z)).

Implicit Types (s : S) (v : Z → block) (O : Z → brole).

(** A directory: a file of whole entries. *)
Record dir_ok (v : Z → block) (O : Z → brole) (d : inode) : Prop := {
  di_file : file_ok v O d;
  di_type : i_type d = T_DIR;
  di_size : i_size d mod DIRENT = 0
}.

Lemma dir_ok_view v v' O d : (∀ x, v' x = v x) → dir_ok v O d → dir_ok v' O d.
Proof. intros Hv [A B C]. split; [by eapply file_ok_view | done | done]. Qed.

Lemma dir_slot_view v v' addrs k : (∀ x, v' x = v x) → dir_slot v' addrs k = dir_slot v addrs k.
Proof. intros Hv. apply fbytes_ext. intros o _. by apply fbyte_view. Qed.

Lemma read_dirent_ok (dev_read : dev_reads) s ic dp d O k msg :
  fs_ok sb s O → ic !! dp = Some d → dir_ok (bs_view s) O d → 0 ≤ k < nslots d →
  ∃ s', read_dirent sb dev_read dp (DIRENT * k) msg (s, ic) = Ok (dir_slot (bs_view s) (i_addrs d) k) (s', ic) ∧
    same_disk s s'.
Proof using Hlay.
  intros Hok Hic [Hf Ht Hm] Hk. pose proof (fi_size _ _ _ Hf) as Hsz. change (MAXFILE * BSIZE) with 71680 in Hsz.
  unfold nslots, DIRENT in *. assert (16 * k + 16 ≤ i_size d) as Hin by zmod.
  destruct (readi_ok sb Hlay dev_read s ic dp d O (16 * k) 16) as (s' & E & Hs);
    [done | done | done | by rewrite Ht | lia | lia | lia |].
  exists s'. split; [|done]. unfold read_dirent, DIRENT. rewrite (bind_ok _ _ _ _ _ E). cbn [fst snd].
  rewrite Z.min_l by lia. done.
Qed.

(** A scan of the directory for an entry that passes the test [hit]. *)
Lemma dir_scan {R} (dev_read : dev_reads) (hit : list Z → bool) (h : Z → list Z → M (@fsys S) R) msg ic dp d O : ∀ ks s,
  (∀ k, k ∈ ks → 0 ≤ k < nslots d) → fs_ok sb s O → ic !! dp = Some d → dir_ok (bs_view s) O d →
  ∃ s', same_disk s s' ∧
    for_until ((λ k, DIRENT * k) <$> ks) (λ off,
      de ← read_dirent sb dev_read dp off msg;
      if hit de then x ← h off de; mret (Some x) else mret None) (s, ic) =
    match first_slot (λ k, hit (dir_slot (bs_view s) (i_addrs d) k)) ks with
    | None => Ok None (s', ic)
    | Some k => (x ← h (DIRENT * k) (dir_slot (bs_view s) (i_addrs d) k); mret (Some x)) (s', ic)
    end.
Proof using Hlay.
  induction ks as [|k ks IH]; intros s Hks Hok Hic Hd.
  { exists s. split; [apply same_disk_refl, Hok | done]. }
  destruct (read_dirent_ok dev_read s ic dp d O k msg Hok Hic Hd) as (s1 & E1 & Hs1); [apply Hks; left|].
  cbn [fmap list_fmap for_until first_slot]. rewrite bind_assoc, (bind_ok _ _ _ _ _ E1).
  destruct (hit (dir_slot (bs_view s) (i_addrs d) k)) eqn:Eh.
  - exists s1. split; [done|]. rewrite bind_assoc. by apply bind_ext.
  - rewrite bind_ret. destruct (IH s1) as (s2 & Hs2 & E2).
    { intros j Hj. apply Hks. by right. } { by eapply same_disk_ok. } { done. } { by eapply dir_ok_view; [apply Hs1|]. }
    exists s2. split; [by eapply same_disk_trans|]. etransitivity; [exact E2|].
    rewrite (first_slot_ext (λ k, hit (dir_slot (bs_view s1) (i_addrs d) k)) (λ k, hit (dir_slot (bs_view s) (i_addrs d) k)))
      by (intros; by rewrite (dir_slot_view (bs_view s)) by apply Hs1).
    destruct (first_slot (λ k, hit (dir_slot (bs_view s) (i_addrs d) k)) ks); [|done]. by rewrite (dir_slot_view (bs_view s)) by apply Hs1.
Qed.

Lemma slots_in d k : k ∈ seqZ 0 (nslots d) → 0 ≤ k < nslots d.
Proof using. intros Hk%elem_of_seqZ. lia. Qed.

Lemma dirlookup_ok (dev_read : dev_reads) s ic dp d O name :
  fs_ok sb s O → ic !! dp = Some d → dir_ok (bs_view s) O d →
  ∃ s', same_disk s s' ∧
    dirlookup sb dev_read dp name (s, ic) =
    match find_name (bs_view s) d name with
    | None => Ok None (s', ic)
    | Some k => (ip ← iget (i_dev d) (de_inum (dir_slot (bs_view s) (i_addrs d) k)); mret (Some (ip, DIRENT * k))) (s', ic)
    end.
Proof using Hlay.
  intros Hok Hic Hd. pose proof Hd as [Hf Ht Hm]. pose proof (fi_size _ _ _ Hf) as Hsz.
  unfold dirlookup. rewrite (bind_ok _ _ _ _ _ (inode_at_ok _ _ _ _ Hic)), Ht, dir_offsets_slots by (done || lia).
  cbn [Z.eqb negb T_DIR Pos.eqb].
  destruct (dir_scan dev_read (slot_match name) (λ off de, ip ← iget (i_dev d) (de_inum de); mret (ip, off)) "dirlookup read" ic dp d O
    (seqZ 0 (nslots d)) s (slots_in d) Hok Hic Hd) as (s' & Hs & E).
  exists s'. split; [done|]. etransitivity; [|etransitivity; [exact E|]].
  - apply for_until_ext. intros off st. apply bind_ext. intros de st'. unfold slot_match.
    destruct (de_inum de =? 0), (namecmp name (de_name de) =? 0); cbn [negb andb]; try done. by rewrite bind_assoc.
  - unfold find_name. destruct (first_slot _ _); [|done]. by rewrite bind_assoc.
Qed.

(** ** dirlink *)

(** The slot [dirlink] writes to. *)
Definition free_dirent (v : Z → block) (d : inode) : Z :=
  default (nslots d) (first_slot (λ k, de_inum (dir_slot v (i_addrs d) k) =? 0) (seqZ 0 (nslots d))).

Lemma writei_post_same s s1 s' O O' i i' off src :
  same_disk s s1 → writei_post sb s1 s' O O' i i' off src → writei_post sb s s' O O' i i' off src.
Proof using.
  intros Hs [A B C D E F G Hj K]. split; try done.
  - intros o Ho. rewrite G by done. case_decide; [done|]. apply fbyte_view, Hs.
  - intros j Hne Hr Hf. destruct (Hj j Hne Hr) as (H1 & H2 & H3); [by eapply file_ok_view; [apply Hs|]|].
    split; [done|]. split; [intros o Ho; rewrite H2 by done; apply fbyte_view, Hs|].
    intros Hsy. apply H3. unfold synced in *. by rewrite (sd_view _ _ Hs).
  - destruct K as [K1 K2]. split; [|done]. intros j Hjr Hz. apply K1; [done|]. by rewrite (fblock_view _ _ _ _ (sd_view _ _ Hs)).
Qed.

(** What the directory becomes when slot [k] gets a new entry. *)
Section entry.
Context (s s' : S) (O O' : Z → brole) (d d' : inode) (k inum : Z) (name : list Z).
Context (Hname : bytes_ok name) (Hinum : 1 ≤ inum < 65536) (Hk : 0 ≤ k ≤ nslots d)
  (Hmax : DIRENT * k + DIRENT ≤ MAXFILE * BSIZE).
Context (Hp : writei_post sb s s' O O' d d' (DIRENT * k) (mk_dirent inum name)).
Context (Hsz : 0 ≤ i_size d) (Hmod : i_size d mod DIRENT = 0).

Lemma entry_len : Z.of_nat (length (mk_dirent inum name)) = DIRENT.
Proof using Hname Hinum. destruct (mk_dirent_spec inum name Hname) as [-> _]; [lia | done]. Qed.

Lemma entry_size : i_size d' = Z.max (i_size d) (DIRENT * k + DIRENT) ∧ i_size d' mod DIRENT = 0 ∧ nslots d' = Z.max (nslots d) (k + 1).
Proof using Hname Hinum Hk Hp Hsz Hmod.
  pose proof (wi_size _ _ _ _ _ _ _ _ _ Hp) as E. rewrite entry_len in E. split; [done|]. unfold nslots in *. rewrite E.
  clear Hp Hname. unfold DIRENT in *. split; zmod.
Qed.

Lemma entry_new : dir_slot (bs_view s') (i_addrs d') k = mk_dirent inum name.
Proof using Hname Hinum Hk Hp Hmax.
  destruct (mk_dirent_spec inum name Hname ltac:(lia)) as (Hl & Hb & _). unfold dir_slot. rewrite <- entry_len at 2.
  unfold DIRENT in *. eapply written_bytes; [done | lia | rewrite Hl; change (Z.of_nat 16) with 16; lia | done].
Qed.

Lemma entry_old j : 0 ≤ j → j ≠ k → DIRENT * j + DIRENT ≤ MAXFILE * BSIZE →
  dir_slot (bs_view s') (i_addrs d') j = dir_slot (bs_view s) (i_addrs d) j.
Proof using Hname Hinum Hp.
  clear Hk Hmax Hsz Hmod. intros Hj Hne Hm. apply fbytes_ext. intros o Ho. unfold DIRENT in *.
  rewrite (wi_byte _ _ _ _ _ _ _ _ _ Hp) by lia. rewrite entry_len, decide_False; [done|]. unfold DIRENT. lia.
Qed.

(** Slot [k] was free or beyond the end, and [name] was not there. *)
Lemma entry_lookup :
  (k < nslots d → de_inum (dir_slot (bs_view s) (i_addrs d) k) = 0) → find_name (bs_view s) d name = None →
  i_size d ≤ MAXFILE * BSIZE →
  dlookup (bs_view s') d' name = Some inum ∧
  ∀ t, namecmp t name ≠ 0 → dlookup (bs_view s') d' t = dlookup (bs_view s) d t.
Proof using Hname Hinum Hk Hp Hmax Hsz Hmod.
  intros Hfree Hno Hms. destruct entry_size as (Hs1 & Hs2 & Hn). pose proof entry_new as Hnew.
  destruct (mk_dirent_spec inum name Hname ltac:(lia)) as (_ & _ & Hi & Hcmp).
  assert (∀ j, 0 ≤ j < nslots d → j ≠ k → dir_slot (bs_view s') (i_addrs d') j = dir_slot (bs_view s) (i_addrs d) j) as Hold.
  { intros j Hj Hne. apply entry_old; [lia | done |]. clear - Hj Hms Hsz Hmod. unfold nslots, DIRENT in *. zmod. }
  assert (∀ t, slot_match t (mk_dirent inum name) = (namecmp t name =? 0)) as Hm.
  { intros t. unfold slot_match. rewrite Hi, Hcmp, (proj2 (Z.eqb_neq inum 0)) by lia. done. }
  split.
  - unfold dlookup, find_name. rewrite (first_slot_only _ _ k).
    + change (Some (de_inum (dir_slot (bs_view s') (i_addrs d') k)) = Some inum). by rewrite Hnew, Hi.
    + apply elem_of_seqZ. lia.
    + by rewrite Hnew, Hm, (bstrncmp_refl dirsiz name : namecmp name name = 0).
    + intros j Hj%elem_of_seqZ Hne. rewrite Hold by lia. unfold find_name in Hno. rewrite first_slot_none in Hno.
      apply Hno, elem_of_seqZ. lia.
  - intros t Ht. assert (slot_match t (dir_slot (bs_view s') (i_addrs d') k) = false) as Hf
      by (rewrite Hnew, Hm; by apply Z.eqb_neq).
    assert (find_name (bs_view s') d' t = find_name (bs_view s) d t) as E.
    { unfold find_name. rewrite Hn. transitivity (first_slot (λ j, slot_match t (dir_slot (bs_view s') (i_addrs d') j)) (seqZ 0 (nslots d))).
      - destruct (decide (k < nslots d)); [by rewrite Z.max_l by lia|]. rewrite Z.max_r by lia.
        assert (0 ≤ nslots d) by lia. replace (k + 1) with (nslots d + 1) by lia. rewrite seqZ_app by lia.
        apply first_slot_app. intros j Hj%elem_of_seqZ. replace j with k by lia. done.
      - apply first_slot_ext. intros j Hj%elem_of_seqZ. destruct (decide (j = k)) as [->|]; [|by rewrite Hold by lia].
        rewrite Hf. unfold slot_match. by rewrite Hfree by lia. }
    unfold dlookup. rewrite E. destruct (find_name (bs_view s) d t) as [j|] eqn:Ej; [|done]. simpl. f_equal.
    unfold find_name in Ej. apply first_slot_some in Ej as [Hj%elem_of_seqZ Hmj].
    rewrite Hold; [done | lia |]. intros ->. unfold slot_match in Hmj. by rewrite Hfree in Hmj by lia.
Qed.
End entry.

Lemma nslots_nonneg d : 0 ≤ i_size d → 0 ≤ nslots d.
Proof using. clear Hlay. intros Hs. by apply Z.div_pos. Qed.

Lemma free_dirent_spec v d : 0 ≤ i_size d →
  0 ≤ free_dirent v d ≤ nslots d ∧ (free_dirent v d < nslots d → de_inum (dir_slot v (i_addrs d) (free_dirent v d)) = 0).
Proof using.
  clear Hlay. intros Hs. pose proof (nslots_nonneg d Hs). unfold free_dirent.
  destruct (first_slot _ _) as [k|] eqn:E; cbn [from_option id]; [|split; [lia | intros; lia]].
  apply first_slot_some in E as [Hk%elem_of_seqZ Hz%Z.eqb_eq]. split; [lia | done].
Qed.

(** The search for the slot. *)
Lemma dirlink_scan (dev_read : dev_reads) s ic dp d O :
  fs_ok sb s O → ic !! dp = Some d → dir_ok (bs_view s) O d →
  ∃ s' e, same_disk s s' ∧
    for_until (dir_offsets 0 (i_size d)) (λ off,
      de ← read_dirent sb dev_read dp off "dirlink read";
      mret (if de_inum de =? 0 then Some off else None)) (s, ic) = Ok e (s', ic) ∧
    default (DIRENT * ((i_size d + (DIRENT - 1)) / DIRENT)) e = DIRENT * free_dirent (bs_view s) d.
Proof using Hlay.
  intros Hok Hic Hd. pose proof Hd as [Hf Ht Hm]. pose proof (fi_size _ _ _ Hf) as Hsz.
  destruct (dir_scan dev_read (λ de, de_inum de =? 0) (λ off de, mret off) "dirlink read" ic dp d O
    (seqZ 0 (nslots d)) s (slots_in d) Hok Hic Hd) as (s' & Hs & E).
  exists s'. rewrite dir_offsets_slots by (done || lia). unfold free_dirent.
  destruct (first_slot (λ k, de_inum (dir_slot (bs_view s) (i_addrs d) k) =? 0) (seqZ 0 (nslots d))) as [k|];
    [exists (Some (DIRENT * k)) | exists None]; (split; [done|]; split; [|cbn [from_option id]]).
  1, 3: (etransitivity; [|exact E]; apply for_until_ext; intros off st; apply bind_ext; intros de st'; by case_match).
  - done.
  - f_equal. unfold nslots, DIRENT in *. zmod.
Qed.

(** An entry lies in one block. *)
Lemma dirent_block k : 0 ≤ k → touched (DIRENT * k) 16 = 1%nat.
Proof using. clear Hlay. intros Hk. unfold touched, BSIZE, DIRENT. apply Nat2Z.inj. rewrite Z2Nat.id; zmod. Qed.

(** Dropping the reference that a lookup has just taken. *)
Lemma iget_iput s ic dev inum :
  icache_ok ic → (∀ k j, ic !! k = Some j → i_ref j = 0 → i_lock j = false) →
  ((∃ k j, ic !! k = Some j ∧ in_use dev inum j = true ∧ i_lock j = true) → (ip ← iget dev inum; iput sb ip) (s, ic) = Hang) ∧
  ((∀ k j, ic !! k = Some j → in_use dev inum j = false ∧ i_ref j ≠ 0) → iget dev inum (s, ic) = Panic "iget: no inodes") ∧
  ((∀ k j, ic !! k = Some j → in_use dev inum j = true → i_lock j = false) →
   (∃ k j, ic !! k = Some j ∧ (in_use dev inum j = true ∨ i_ref j = 0)) →
   ∃ ic', (ip ← iget dev inum; iput sb ip) (s, ic) = Ok () (s, ic') ∧ icache_ok ic' ∧
     (∀ d n, refs ic' d n = refs ic d n) ∧ ∀ k j, ic !! k = Some j → 0 < i_ref j → ic' !! k = Some j).
Proof using.
  clear Hlay. intros Hok Hunl. destruct (iget_run s ic dev inum) as [(ip & i0 & i & E & Hi0 & Hu & Hc)|(E & Hno & Hfull)].
  2: { split_and!; [intros (k & j & Hj & Hu & _); by rewrite (Hno k j Hj) in Hu | done|]. intros _ (k & j & Hj & [Hu|Hz]);
       [by rewrite (Hno k j Hj) in Hu | by destruct (Hfull k j Hj)]. }
  assert (icache_ok (<[ip := i]> ic)) as Hok1.
  { destruct Hc as [[Hu0 ->]|(Hz & Hno & ->)]; [|by eapply icache_ok_new].
    pose proof (in_use_ref _ _ _ Hu0) as (Hpos & _). apply icache_ok_count; (done || lia). }
  pose proof (in_use_ref _ _ _ Hu) as (Hpos1 & _).
  destruct (count_entry (<[ip := i]> ic) ip i dev inum (i_ref i - 1)) as [Hok' Hr']; [done | by eapply lookup_here | done | lia|].
  rewrite list_insert_insert_eq in *. split_and!.
  - intros (k & j & Hj & Huj & Hl). rewrite (bind_ok _ _ _ _ _ E). destruct Hc as [[Hu0 ->]|(_ & Hno & _)]; [|by rewrite (Hno k j Hj) in Huj].
    assert (k = ip) as -> by (by eapply (ic_uniq _ Hok)). rewrite Hi0 in Hj. injection Hj as <-. unfold iput, lock_inode.
    rewrite bind_assoc, (bind_ok _ _ _ _ _ (inode_at_ok _ _ _ _ (lookup_here _ _ _ _ Hi0))). simpl. by rewrite Hl.
  - intros Hn. destruct (Hn ip i0 Hi0) as [Hf Hz]. destruct Hc as [[Hu0 _]|[? _]]; congruence.
  - intros Hl _. exists (<[ip := i <| i_ref := i_ref i - 1 |>]> ic). split_and!; [|done| |].
    + rewrite (bind_ok _ _ _ _ _ E). rewrite (iput_unused sb s _ ip i); [by rewrite list_insert_insert_eq | by eapply lookup_here | |].
      * destruct Hc as [[Hu0 ->]|(Hz & _ & ->)]; simpl; [by apply (Hl ip) | by apply (Hunl ip)].
      * destruct Hc as [[Hu0 ->]|(Hz & _ & ->)]; simpl; [|done]. apply in_use_ref in Hu0 as (Hpos & _).
        rewrite (proj2 (Z.eqb_neq _ 1)) by lia. by rewrite andb_false_r.
    + intros d n. rewrite Hr'. rewrite (refs_insert _ _ i0) by done. rewrite (in_use_key dev inum d n i) by done.
      destruct Hc as [[Hu0 ->]|(Hz & _ & ->)]; simpl; unfold one_if.
      * rewrite (in_use_key dev inum d n i0) by done. destruct (same_key dev inum d n); lia.
      * assert (in_use d n i0 = false) as -> by (unfold in_use; by rewrite Hz). destruct (same_key dev inum d n); lia.
    + intros k j Hj Hpos. destruct (decide (k = ip)) as [->|]; [|by rewrite list_lookup_insert_ne].
      rewrite Hi0 in Hj. injection Hj as <-. destruct Hc as [[_ ->]|[? _]]; [|lia].
      rewrite list_lookup_insert_eq by (by eapply lookup_lt_Some). f_equal. destruct i0; simpl. unfold set_field; simpl. f_equal. lia.
Qed.

(** C20: linking a name. When the name is not in the directory, and the
    directory has a free entry or room for one more, the transaction has room
    for three blocks beside the bitmap and the disk has the free blocks a new
    entry needs, [dirlink] puts the name into the first free entry, or a new
    one at the end, and returns 0: afterwards the directory, read as a map
    from names to inode numbers, sends the name to the inode and is otherwise
    the same, and every other file is unchanged. When the name is there,
    [dirlink] looks its inode up and drops it again. It returns -1, with the
    disk and all reference counts as before, if the inode is unlocked and
    there is an entry for it in the cache or a free one; if the cache is full
    it panics; and if the inode is locked it waits for the lock, for ever when
    the name is that of the locked directory itself. Names are compared up to
    [DIRSIZ] bytes. The directory is in use and agrees with its inode on
    disk. *)
Theorem dirlink_correct (dev_read : dev_reads) (dev_write : dev_writes) s ic dp d O name inum m n :
  fs_ok sb s O → ic !! dp = Some d → 0 < i_ref d → dir_ok (bs_view s) O d → inode_wf d → synced sb (bs_view s) d →
  0 ≤ i_inum d < sb_ninodes sb → bytes_ok name → 1 ≤ inum < 65536 →
  let k := free_dirent (bs_view s) d in
  (dlookup (bs_view s) d name = None → DIRENT * k + DIRENT ≤ MAXFILE * BSIZE →
   room sb s (3 + m) → has_free O (write_need (bs_view s) (i_addrs d) (DIRENT * k / BSIZE) 1 + n) →
   ∃ s' O' d', dirlink sb dev_read dev_write dp name inum (s, ic) = Ok 0 (s', <[dp := d']> ic) ∧
     writei_post sb s s' O O' d d' (DIRENT * k) (mk_dirent inum name) ∧
     dir_ok (bs_view s') O' d' ∧ dlookup (bs_view s') d' name = Some inum ∧
     (∀ t, namecmp t name ≠ 0 → dlookup (bs_view s') d' t = dlookup (bs_view s) d t) ∧ room sb s' m ∧ has_free O' n) ∧
  (∀ i, dlookup (bs_view s) d name = Some i →
   icache_ok ic → (∀ k j, ic !! k = Some j → i_ref j = 0 → i_lock j = false) →
   let mine := in_use (i_dev d) i in
   ((∃ k j, ic !! k = Some j ∧ mine j = true ∧ i_lock j = true) →
      dirlink sb dev_read dev_write dp name inum (s, ic) = Hang) ∧
   ((∀ k j, ic !! k = Some j → mine j = false ∧ i_ref j ≠ 0) →
      dirlink sb dev_read dev_write dp name inum (s, ic) = Panic "iget: no inodes") ∧
   ((∀ k j, ic !! k = Some j → mine j = true → i_lock j = false) →
    (∃ k j, ic !! k = Some j ∧ (mine j = true ∨ i_ref j = 0)) →
    ∃ s' ic', dirlink sb dev_read dev_write dp name inum (s, ic) = Ok (-1) (s', ic') ∧ same_disk s s' ∧
      icache_ok ic' ∧ (∀ d n, refs ic' d n = refs ic d n) ∧ ic' !! dp = Some d)).
Proof using Hlay.
  intros Hok Hic Href Hd Hwf Hsy Hin Hname Hinum k. pose proof Hd as [Hf Ht Hm]. pose proof (fi_size _ _ _ Hf) as Hsz.
  destruct (dirlookup_ok dev_read s ic dp d O name Hok Hic Hd) as (s1 & Hs1 & E1). split.
  - intros Hno Hmax Hroom Hfree. unfold dlookup in Hno. destruct (find_name (bs_view s) d name) eqn:Efn; [done|].
    destruct (dirlink_scan dev_read s1 ic dp d O) as (s2 & e & Hs2 & E2 & Eoff);
      [by eapply same_disk_ok | done | by eapply dir_ok_view; [apply Hs1|] |].
    assert (free_dirent (bs_view s1) d = free_dirent (bs_view s) d) as Efs.
    { unfold free_dirent. f_equal. apply first_slot_ext. intros x _. by rewrite (dir_slot_view (bs_view s)) by apply Hs1. }
    rewrite Efs in Eoff. fold k in Eoff.
    destruct (free_dirent_spec (bs_view s) d ltac:(lia)) as [Hk Hkz]. fold k in Hk, Hkz.
    assert (same_disk s s2) as Hs by (by eapply same_disk_trans).
    destruct (mk_dirent_spec inum name Hname ltac:(lia)) as (Hl & _).
    assert (Z.of_nat (length (mk_dirent inum name)) = 16) as Hlz by (by rewrite Hl).
    destruct (writei_ok sb Hlay dev_write s2 ic dp d O (DIRENT * k) (mk_dirent inum name) m n)
      as (s3 & O3 & d3 & E3 & Hp & Hr3 & Hf3).
    { by eapply same_disk_ok. } { done. } { by eapply file_ok_view; [apply Hs|]. } { done. }
    { unfold synced in *. by rewrite (sd_view _ _ Hs). } { done. } { by rewrite Ht. }
    { clear - Hk Hm Hsz. unfold nslots, DIRENT in *. zmod. } { rewrite Hlz. unfold DIRENT in *. lia. }
    { rewrite Hlz, dirent_block by lia. eapply room_same; [done|]. eapply room_mono; [done | lia]. }
    { rewrite Hlz, dirent_block by lia. rewrite (write_need_view (bs_view s)) by apply Hs. done. }
    apply (writei_post_same s) in Hp; [|done]. exists s3, O3, d3. split; [|split; [done|split; [|]]].
    + unfold dirlink. rewrite (bind_ok _ _ _ _ _ E1), (bind_ok _ _ _ _ _ (inode_at_ok _ _ _ _ Hic)), (bind_ok _ _ _ _ _ E2).
      cbv zeta. rewrite Eoff, (bind_ok _ _ _ _ _ E3), Hlz. done.
    + destruct (entry_size s s3 O O3 d d3 k inum name Hname Hinum Hk Hp ltac:(lia) Hm) as (_ & Hmod & _).
      split; [apply Hp | | done]. by rewrite (wi_fields _ _ _ _ _ _ _ _ _ Hp).
    + destruct (entry_lookup s s3 O O3 d d3 k inum name Hname Hinum Hk Hmax Hp ltac:(lia) Hm Hkz Efn ltac:(lia)) as [H1 H2].
      split; [done|]. split; [done|]. done.
  - intros i Hi Hcache Hunl mine. unfold dlookup in Hi. destruct (find_name (bs_view s) d name) as [x|]; [|done].
    injection Hi as Hi. destruct (iget_iput s1 ic (i_dev d) i Hcache Hunl) as (H1 & H2 & H3).
    assert (dirlink sb dev_read dev_write dp name inum (s, ic) = ((ip ← iget (i_dev d) i; iput sb ip);; mret (-1)) (s1, ic)) as ->.
    { subst i. unfold dirlink, mbind, M_bind in *. rewrite E1. destruct (iget _ _ (s1, ic)); done. }
    split_and!.
    + intros Hl. unfold mbind at 1, M_bind at 1. by rewrite (H1 Hl).
    + intros Hfull. rewrite bind_assoc. unfold mbind at 1, M_bind at 1. by rewrite (H2 Hfull).
    + intros Hl Hfree. destruct (H3 Hl Hfree) as (ic' & E & Hok' & Hr & Hk). exists s1, ic'. rewrite (bind_ok _ _ _ _ _ E).
      split_and!; [done | done | done | done | by apply Hk].
Qed.
End spec.
