(* ===== verification/FsNamei.v ===== *)
(** * File system: resolving paths (namex)

    [namex] follows a path through the directories of the disk. The inodes
    it passes through are locked and referenced one at a time; in the end the
    cache holds one reference more, to the inode found, or none. *)
From stdpp Require Import functions.
From S2P Require Import Prelude Machine CString Bio FsBlock FsInode FsDinode FsFile FsData FsTrunc FsCache.
From S2P Require Import FsPath FsDir.
Import KString.

(** ** Free entries of the cache *)

Fixpoint nfree (ic : list inode) : nat :=
  match ic with
  | [] => 0
  | i :: ic' => (if i_ref i =? 0 then 1 else 0) + nfree ic'
  end.

Definition free_one (i : inode) : nat := if i_ref i =? 0 then 1 else 0.

Lemma nfree_insert ic : ∀ k i i', ic !! k = Some i → (nfree (<[k := i']> ic) + free_one i = nfree ic + free_one i')%nat.
Proof.
  induction ic as [|j ic IH]; intros [|k] i i' Hk; [done | done | |].
  - injection Hk as ->. cbn. unfold free_one. lia.
  - change (<[S k := i']> (j :: ic)) with (j :: <[k := i']> ic). cbn [nfree]. pose proof (IH k i i' Hk). lia.
Qed.

Lemma nfree_pos ic : (0 < nfree ic)%nat → ∃ k i, ic !! k = Some i ∧ i_ref i = 0.
Proof.
  induction ic as [|j ic IH]; simpl; [lia|]. destruct (Z.eqb_spec (i_ref j) 0) as [E|E].
  - intros _. by exists 0%nat, j.
  - intros (k & i & Hk & Hi)%IH. by exists (S k), i.
Qed.

(** ** Names in buffers *)

Lemma bstrncmp_cstr n : ∀ p q, bstrncmp (cstr p n) q n = bstrncmp p q n.
Proof.
  induction n as [|n IH]; intros p q; [done|]. destruct p as [|c p]; [done|]. cbn [cstr]. unfold truthy.
  destruct (Z.eqb_spec c 0) as [->|Hc]; cbn [negb bstrncmp hd tl]; [done|].
  rewrite IH. done.
Qed.

Lemma namecmp_name s t : namecmp (name_of s) t = namecmp s t.
Proof. apply bstrncmp_cstr. Qed.

Lemma dlookup_name v d name : dlookup v d (name_of name) = dlookup v d name.
Proof.
  unfold dlookup, find_name. f_equal. apply first_slot_ext. intros k _. unfold slot_match. by rewrite namecmp_name.
Qed.


Section namei.
Context {S : Type} `{BlockStore S}.
Variable sb : superblock.
Context (Hlay : layout_ok sb).
Notation dev_reads := (Z → option (nat → Z → M (@fsys S) (Z * list Z))).

Implicit Types (s : S) (v : Z → block) (O : Z → brole).

(** ** The tree on disk *)

(** Inode [inum] as the disk has it. *)
Definition on_disk (v : Z → block) (inum : Z) : inode :=
  get_dinode (v (IBLOCK inum sb)) (Inode ROOTDEV inum 0 false false 0 0 0 0 0 []).

(** The inodes [T] that can be reached by names. *)
Record tree_ok (v : Z → block) (O : Z → brole) (T : Z → Prop) : Prop := {
  tr_range inum : T inum → 0 ≤ inum < sb_ninodes sb;
  tr_type inum : T inum → i_type (on_disk v inum) ≠ 0;
  tr_link inum : T inum → i_nlink (on_disk v inum) ≠ 0;
  tr_dir inum : T inum → i_type (on_disk v inum) = T_DIR → dir_ok v O (on_disk v inum);
  tr_entry inum name j : T inum → i_type (on_disk v inum) = T_DIR → dlookup v (on_disk v inum) name = Some j → T j
}.

(** The inode that [names] lead to from [inum]; with [parent], the one
    before the last. *)
Fixpoint resolve (parent : bool) (v : Z → block) (inum : Z) (names : list (list Z)) : option Z :=
  match names with
  | [] => if parent then None else Some inum
  | n :: names' =>
      if i_type (on_disk v inum) =? T_DIR then
        if parent && (length names' =? 0)%nat then Some inum
        else j ← dlookup v (on_disk v inum) n; resolve parent v j names'
      else None
  end.

(** The fields of an entry that agrees with the disk. *)
Lemma synced_fields v i inum : synced sb v i → i_inum i = inum →
  i_type i = i_type (on_disk v inum) ∧ i_nlink i = i_nlink (on_disk v inum) ∧ i_size i = i_size (on_disk v inum) ∧
  i_addrs i = i_addrs (on_disk v inum).
Proof.
  unfold synced. intros Hs <-. set (d := get_dinode (v (IBLOCK (i_inum i) sb)) i) in Hs.
  split_and!; [change (i_type i = i_type d) | change (i_nlink i = i_nlink d) | change (i_size i = i_size d)
    | change (i_addrs i = i_addrs d)]; by rewrite Hs.
Qed.

Lemma synced_ref v i r : synced sb v i → synced sb v (i <| i_ref := r |>).
Proof using.
  unfold synced. intros Hs. transitivity ((get_dinode (v (IBLOCK (i_inum i) sb)) i) <| i_ref := r |>); [by destruct i | by rewrite Hs].
Qed.

Lemma dir_ok_fields v O i j :
  i_inum i = i_inum j → i_type i = i_type j → i_size i = i_size j → i_addrs i = i_addrs j → dir_ok v O j → dir_ok v O i.
Proof.
  intros En Et Es Ea [[A B C] D E]. split; [split; [by rewrite En, Ea | by rewrite Es |] | by rewrite Et | by rewrite Es].
  intros o Ho. rewrite Ea. apply C. by rewrite <- Es.
Qed.

Lemma find_name_fields v v' i j name :
  (∀ x, v' x = v x) → i_size i = i_size j → i_addrs i = i_addrs j → find_name v' i name = find_name v j name.
Proof.
  intros Hv Es Ea. unfold find_name, nslots. rewrite Es, Ea. apply first_slot_ext. intros k _. by rewrite (dir_slot_view v).
Qed.

(** ** The cache *)

(** At rest but for the lock on entry [L]. *)
Record cache_ok (v : Z → block) (L : option nat) (ic : list inode) : Prop := {
  co_ok : icache_ok ic;
  co_lock k i : ic !! k = Some i → i_lock i = bool_decide (L = Some k);
  co_sync k i : ic !! k = Some i → 0 < i_ref i → i_valid i = true → synced sb v i
}.

(** Replacing an entry. *)
Lemma cache_ok_insert v L L' ic k i :
  cache_ok v L ic → icache_ok (<[k := i]> ic) → (∀ k', k' ≠ k → bool_decide (L' = Some k') = bool_decide (L = Some k')) →
  i_lock i = bool_decide (L' = Some k) → (0 < i_ref i → i_valid i = true → synced sb v i) → cache_ok v L' (<[k := i]> ic).
Proof.
  intros [A B C] Hok HL Hl Hs. split; [done | |]; intros k' j Hj.
  - destruct (decide (k' = k)) as [->|Hne].
    + rewrite list_lookup_insert_eq in Hj by (apply lookup_lt_Some in Hj; by rewrite length_insert in Hj). by injection Hj as <-.
    + rewrite list_lookup_insert_ne in Hj by done. rewrite HL by done. by apply B.
  - destruct (decide (k' = k)) as [->|Hne].
    + rewrite list_lookup_insert_eq in Hj by (apply lookup_lt_Some in Hj; by rewrite length_insert in Hj). by injection Hj as <-.
    + rewrite list_lookup_insert_ne in Hj by done. by apply (C k').
Qed.

Lemma iget_cache v L s ic dev inum :
  cache_ok v L ic → (0 < nfree ic)%nat →
  ∃ ip i0 i, iget dev inum (s, ic) = Ok ip (s, <[ip := i]> ic) ∧ cache_ok v L (<[ip := i]> ic) ∧ ic !! ip = Some i0 ∧
    in_use dev inum i = true ∧
    (∀ d n, refs (<[ip := i]> ic) d n = refs ic d n + one_if (same_key dev inum d n)) ∧
    (0 < i_ref i0 ∧ i = i0 <| i_ref := i_ref i0 + 1 |> ∨ i_ref i0 = 0 ∧ i_ref i = 1).
Proof.
  intros Hc Hf. destruct (nfree_pos _ Hf) as (k & j & Hk & Hj).
  destruct (iget_ok s ic dev inum (co_ok _ _ _ Hc)) as [(ip & i & ic' & E & Hok & Hi & Hu & Hr)|(_ & _ & Hfull)]; [|by apply Hfull in Hk].
  destruct (iget_run s ic dev inum) as [(ip' & i0 & i' & E' & Hi0 & _ & Hcase)|(E' & _)]; [|by rewrite E' in E].
  rewrite E' in E. injection E as <- <-. rewrite (list_lookup_insert_eq ic ip' i') in Hi by (by eapply lookup_lt_Some).
  injection Hi as <-. exists ip', i0, i'. split; [done|]. split; [|split; [done|split; [done|split; [done|]]]].
  - pose proof (co_lock _ _ _ Hc _ _ Hi0) as Hl. apply (cache_ok_insert v L); try done.
    + by destruct Hcase as [[_ ->]|(_ & _ & ->)].
    + destruct Hcase as [[Hu0 ->]|(_ & _ & ->)]; [|done]. intros _ Hv.
      pose proof (co_sync _ _ _ Hc _ _ Hi0 ltac:(by apply in_use_ref in Hu0 as [? _]) Hv) as Hs.
      by apply synced_ref.
  - destruct Hcase as [[Hu0 ->]|(Hz & _ & ->)]; [left; split; [by apply in_use_ref in Hu0 as [? _] | done] | by right].
Qed.

(** An entry that stands for the same inode, with the same count. *)
Lemma same_entry ic k i i' :
  icache_ok ic → ic !! k = Some i → i_ref i' = i_ref i → i_dev i' = i_dev i → i_inum i' = i_inum i →
  icache_ok (<[k := i']> ic) ∧ (∀ d n, refs (<[k := i']> ic) d n = refs ic d n) ∧ nfree (<[k := i']> ic) = nfree ic.
Proof using.
  intros [A B] Hk Er Ed En. assert (∀ d n, in_use d n i' = in_use d n i) as Hu by (intros; unfold in_use; by rewrite Er, Ed, En).
  assert (∀ k' j, <[k := i']> ic !! k' = Some j → ∃ j', ic !! k' = Some j' ∧ i_ref j = i_ref j' ∧ ∀ d n, in_use d n j = in_use d n j') as Hall.
  { intros k' j Hj. destruct (decide (k' = k)) as [->|Hne].
    - rewrite list_lookup_insert_eq in Hj by (by eapply lookup_lt_Some). injection Hj as <-. by exists i.
    - rewrite list_lookup_insert_ne in Hj by done. by exists j. }
  split; [split|split].
  - intros k' j (j' & Hj & -> & _)%Hall. by eapply A.
  - intros k1 k2 j1 j2 d n (x & Hx & _ & Ux)%Hall (y & Hy & _ & Uy)%Hall. rewrite Ux, Uy. by apply B.
  - intros d n. rewrite (refs_insert _ _ i), Hu, Er by done. lia.
  - pose proof (nfree_insert ic k i i' Hk) as Hn. unfold free_one in Hn. rewrite Er in Hn. lia.
Qed.

Section walk.
Context (v : Z → block) (O : Z → brole) (T : Z → Prop) (Htree : tree_ok v O T).

(** Entry [ip] of the cache refers to inode [inum] of the tree. *)
Definition refers (ic : list inode) (ip : nat) (i : inode) (inum : Z) : Prop :=
  ic !! ip = Some i ∧ in_use ROOTDEV inum i = true ∧ T inum.

Lemma ilock_step s ic ip i inum :
  (∀ x, bs_view s x = v x) → fs_ok sb s O → cache_ok v None ic → refers ic ip i inum →
  ∃ s' i', same_disk s s' ∧ ilock sb ip (s, ic) = Ok () (s', <[ip := i']> ic) ∧ cache_ok v (Some ip) (<[ip := i']> ic) ∧
    refers (<[ip := i']> ic) ip i' inum ∧ i_ref i' = i_ref i ∧ synced sb v i' ∧ i_valid i' = true ∧
    (∀ d n, refs (<[ip := i']> ic) d n = refs ic d n) ∧ nfree (<[ip := i']> ic) = nfree ic.
Proof using Hlay Htree.
  intros Hv Hok Hc (Hi & Hu & HT). pose proof (in_use_ref _ _ _ Hu) as (Hpos & Hd & Hn).
  destruct (ilock_ok sb Hlay s ic ip i O Hok Hi ltac:(lia) ltac:(rewrite Hn; by apply (tr_range _ _ _ Htree)))
    as (s' & i' & Hs & El & Ev & Er & En & Ed & Hsy & _ & E).
  { by rewrite (co_lock _ _ _ Hc _ _ Hi). }
  { intros Hval. unfold synced. rewrite Hv. by apply (co_sync _ _ _ Hc _ _ Hi). }
  assert (synced sb v i') as Hsy' by (unfold synced in *; by rewrite <- Hv).
  destruct (synced_fields v i' inum Hsy' ltac:(congruence)) as (Et & _).
  rewrite Et, (proj2 (Z.eqb_neq _ 0)), orb_true_r in E by (by apply (tr_type _ _ _ Htree)).
  destruct (same_entry ic ip i i' (co_ok _ _ _ Hc) Hi Er Ed En) as (Hok' & Hr & Hf).
  exists s', i'. split; [done|]. split; [done|]. split.
  { apply (cache_ok_insert v None); try done.
    - intros k' Hk'. by rewrite !bool_decide_eq_false_2 by congruence.
    - by rewrite bool_decide_eq_true_2. }
  split; [|done]. split; [by eapply lookup_here|]. split; [|done].
  unfold in_use in *. by rewrite Er, Ed, En.
Qed.

(** Dropping a reference to an inode of the tree does not free it. *)
Lemma drop_step ic ip i inum L :
  cache_ok v L ic → refers ic ip i inum → (L = None ∨ L = Some ip) →
  let ic' := <[ip := i <| i_lock := false |> <| i_ref := i_ref i - 1 |>]> ic in
  cache_ok v None ic' ∧ (∀ d n, refs ic' d n = refs ic d n - one_if (same_key ROOTDEV inum d n)) ∧
  nfree ic' = (nfree ic + (if (i_ref i =? 1)%Z then 1 else 0))%nat.
Proof using.
  intros Hc (Hi & Hu & HT) HL ic'. pose proof (in_use_ref _ _ _ Hu) as (Hpos & Hd & Hn).
  set (i1 := i <| i_lock := false |>) in *.
  destruct (same_entry ic ip i i1 (co_ok _ _ _ Hc) Hi eq_refl eq_refl eq_refl) as (Hok1 & Hr1 & Hf1).
  destruct (count_entry _ ip i1 ROOTDEV inum (i_ref i - 1) Hok1 (lookup_here _ _ _ _ Hi) Hu ltac:(lia)) as [Hok2 Hr2].
  rewrite list_insert_insert_eq in Hok2, Hr2. fold ic' in Hok2, Hr2. split; [|split].
  - apply (cache_ok_insert v L); [done | exact Hok2 | | | ].
    + intros k' Hk'. rewrite (bool_decide_eq_false_2 (None = _)) by done.
      destruct HL as [->| ->]; rewrite bool_decide_eq_false_2; congruence.
    + by rewrite bool_decide_eq_false_2.
    + simpl. intros _ Hval. apply synced_ref, synced_lock. by apply (co_sync _ _ _ Hc _ _ Hi).
  - intros d n. rewrite Hr2, Hr1. simpl. unfold one_if. destruct (same_key ROOTDEV inum d n); lia.
  - set (i2 := i1 <| i_ref := i_ref i - 1 |>).
    assert (nfree ic' + free_one i = nfree ic + free_one i2)%nat as E by (by apply nfree_insert).
    unfold free_one in E. simpl in E. destruct (Z.eqb_spec (i_ref i) 0), (Z.eqb_spec (i_ref i) 1), (Z.eqb_spec (i_ref i - 1) 0); lia.
Qed.

(** The last reference to a file without links is never the one dropped. *)
Lemma kept ic ip i inum L : cache_ok v L ic → refers ic ip i inum → i_valid i && (i_nlink i =? 0) && (i_ref i =? 1) = false.
Proof using Htree.
  intros Hc (Hi & Hu & HT). pose proof (in_use_ref _ _ _ Hu) as (Hpos & Hd & Hn). destruct (i_valid i) eqn:Hv; [|done].
  destruct (synced_fields v i inum (co_sync _ _ _ Hc _ _ Hi Hpos Hv) Hn) as (_ & -> & _).
  by rewrite (proj2 (Z.eqb_neq _ 0)) by (by apply (tr_link _ _ _ Htree)).
Qed.

Lemma iput_step s ic ip i inum :
  cache_ok v None ic → refers ic ip i inum →
  iput sb ip (s, ic) = Ok () (s, <[ip := i <| i_lock := false |> <| i_ref := i_ref i - 1 |>]> ic).
Proof using Htree.
  intros Hc Hr. pose proof Hr as (Hi & _). pose proof (co_lock _ _ _ Hc _ _ Hi) as Hl. rewrite bool_decide_eq_false_2 in Hl by done.
  rewrite (iput_unused sb s ic ip i) by (done || by eapply kept). repeat f_equal. destruct i; simpl in *. by subst.
Qed.

Lemma iunlockput_step s ic ip i inum :
  cache_ok v (Some ip) ic → refers ic ip i inum →
  iunlockput sb ip (s, ic) = Ok () (s, <[ip := i <| i_lock := false |> <| i_ref := i_ref i - 1 |>]> ic).
Proof using Htree.
  intros Hc Hr. pose proof Hr as (Hi & Hu & _). pose proof (co_lock _ _ _ Hc _ _ Hi) as Hl. rewrite bool_decide_eq_true_2 in Hl by done.
  apply in_use_ref in Hu as (Hpos & _). unfold iunlockput. rewrite (bind_ok _ _ _ _ _ (iunlock_ok s ic ip i Hi Hl ltac:(lia))).
  rewrite (iput_unused sb s _ ip (i <| i_lock := false |>)).
  - by rewrite list_insert_insert_eq.
  - by eapply lookup_here.
  - done.
  - by apply (kept ic ip i inum (Some ip)).
Qed.

(** ** namex *)

(** What a run of [namex] comes to: the inode found with a reference of its
    own, or nothing; [base] are the counts without it. *)
Definition walked (parent : bool) (base : Z → Z → Z) (names : list (list Z)) (r : option Z)
    (out : outcome (@fsys S) (option (nat * list Z))) (s' : S) : Prop :=
  match r with
  | Some j => ∃ ip i buf ic', out = Ok (Some (ip, buf)) (s', ic') ∧ cache_ok v None ic' ∧ refers ic' ip i j ∧
      (∀ d n, refs ic' d n = base d n + one_if (same_key ROOTDEV j d n)) ∧
      (parent = true → last names = Some (name_of buf))
  | None => ∃ ic', out = Ok None (s', ic') ∧ cache_ok v None ic' ∧ ∀ d n, refs ic' d n = base d n
  end.

(** Room for the entry of the next inode. *)
Definition roomy (ic : list inode) (i : inode) : Prop := (2 ≤ nfree ic)%nat ∨ (1 ≤ nfree ic)%nat ∧ i_ref i = 1.

(** The step to the next directory: a reference to [j] is taken while the
    lock of [ip] is held, then [ip] is unlocked and dropped. *)
Lemma next_step s ic ip i inum j :
  cache_ok v (Some ip) ic → refers ic ip i inum → T j → roomy ic i →
  ∃ ip' i0 i' ic',
    iget ROOTDEV j (s, ic) = Ok ip' (s, <[ip' := i0]> ic) ∧
    iunlockput sb ip (s, <[ip' := i0]> ic) = Ok () (s, ic') ∧
    cache_ok v None ic' ∧ refers ic' ip' i' j ∧ roomy ic' i' ∧
    ∀ d n, refs ic' d n = refs ic d n - one_if (same_key ROOTDEV inum d n) + one_if (same_key ROOTDEV j d n).
Proof using Htree.
  intros Hc Hr HTj Hroom. pose proof Hr as (Hi & Hu & HT). pose proof (in_use_ref _ _ _ Hu) as (Hpos & _).
  destruct (iget_cache v (Some ip) s ic ROOTDEV j Hc ltac:(destruct Hroom; lia)) as (ip' & i0 & i1 & E1 & Hc1 & Hi0 & Hu1 & Hr1 & Hcase).
  pose proof (in_use_ref _ _ _ Hu1) as (Hpos1 & _).
  pose proof (nfree_insert ic ip' i0 i1 Hi0) as Hn1. pose proof (lookup_lt_Some _ _ _ Hi0) as Hlt.
  destruct (decide (ip' = ip)) as [->|Hne].
  - rewrite Hi in Hi0. injection Hi0 as <-. destruct Hcase as [[_ Ei]|[? _]]; [|lia].
    assert (refers (<[ip := i1]> ic) ip i1 inum) as Hr' by (split; [by apply list_lookup_insert_eq | split; [subst i1; apply in_use_set; [done | lia] | done]]).
    assert (j = inum) as -> by (subst i1; apply in_use_ref in Hu as (_ & _ & <-); by apply in_use_ref in Hu1 as (_ & _ & <-)).
    pose proof (iunlockput_step s _ ip i1 inum Hc1 Hr') as E2. destruct (drop_step _ ip i1 inum (Some ip) Hc1 Hr' ltac:(by right)) as (Hc2 & Hr2 & Hf2).
    set (ie := i1 <| i_lock := false |> <| i_ref := i_ref i1 - 1 |>) in *.
    exists ip, i1, ie, (<[ip := ie]> (<[ip := i1]> ic)). split; [done|]. split; [done|]. split; [done|].
    assert (i_ref ie = i_ref i) as Eie by (unfold ie; subst i1; simpl; lia). split; [|split].
    + split; [apply list_lookup_insert_eq; by rewrite length_insert|]. split; [|done].
      apply in_use_ref in Hu1 as (_ & <- & <-). unfold in_use. rewrite Eie. unfold ie. simpl. by rewrite !Z.eqb_refl, (proj2 (Z.ltb_lt _ _)).
    + unfold roomy in *. rewrite Eie, Hf2. subst i1. unfold free_one in Hn1. simpl in *.
      rewrite (proj2 (Z.eqb_neq (i_ref i) 0)), (proj2 (Z.eqb_neq (i_ref i + 1) 0)) in Hn1 by lia. destruct Hroom; lia.
    + intros d n. rewrite Hr2, Hr1. lia.
  - assert (refers (<[ip' := i1]> ic) ip i inum) as Hr' by (split; [by rewrite list_lookup_insert_ne | done]).
    pose proof (iunlockput_step s _ ip i inum Hc1 Hr') as E2. destruct (drop_step _ ip i inum (Some ip) Hc1 Hr' ltac:(by right)) as (Hc2 & Hr2 & Hf2).
    set (ie := i <| i_lock := false |> <| i_ref := i_ref i - 1 |>) in *.
    exists ip', i1, i1, (<[ip := ie]> (<[ip' := i1]> ic)). split; [done|]. split; [done|]. split; [done|]. split; [|split].
    + split; [rewrite list_lookup_insert_ne by done; by apply list_lookup_insert_eq | done].
    + unfold roomy in *. rewrite Hf2. unfold free_one in Hn1. rewrite (proj2 (Z.eqb_neq (i_ref i1) 0)) in Hn1 by lia.
      destruct Hcase as [[Hp0 _]|[Hz Hone]].
      * rewrite (proj2 (Z.eqb_neq (i_ref i0) 0)) in Hn1 by lia. destruct (Z.eqb_spec (i_ref i) 1), Hroom; lia.
      * rewrite Hz in Hn1. simpl in Hn1. destruct (Z.eqb_spec (i_ref i) 1), Hroom; lia.
    + intros d n. rewrite Hr2, Hr1. lia.
Qed.

Lemma walked_ext parent base base' names r out s' :
  (∀ d n, base d n = base' d n) → walked parent base names r out s' → walked parent base' names r out s'.
Proof using.
  intros Hb. unfold walked. destruct r as [j|].
  - intros (ip & i & buf & ic' & ? & ? & ? & Hr & ?). exists ip, i, buf, ic'. split_and!; try done. intros d n. by rewrite Hr, Hb.
  - intros (ic' & ? & ? & Hr). exists ic'. split_and!; try done. intros d n. by rewrite Hr, Hb.
Qed.

Lemma last_cons_more {A} (x : A) l : l ≠ [] → last (x :: l) = last l.
Proof using. by destruct l. Qed.

Lemma walked_cons parent base n names r out s' :
  (parent = true → names ≠ []) → walked parent base names r out s' → walked parent base (n :: names) r out s'.
Proof using.
  intros Hn. unfold walked. destruct r as [j|]; [|done]. intros (ip & i & buf & ic' & ? & ? & ? & ? & Hl).
  exists ip, i, buf, ic'. split_and!; try done. intros Hp. rewrite last_cons_more; auto.
Qed.

Lemma unlock_step ic ip i inum :
  cache_ok v (Some ip) ic → refers ic ip i inum →
  let i' := i <| i_lock := false |> in
  cache_ok v None (<[ip := i']> ic) ∧ refers (<[ip := i']> ic) ip i' inum ∧
  (∀ d n, refs (<[ip := i']> ic) d n = refs ic d n) ∧ ∀ s : S, iunlock ip (s, ic) = Ok () (s, <[ip := i']> ic).
Proof using.
  intros Hc Hr i'. pose proof Hr as (Hi & Hu & HT). pose proof (in_use_ref _ _ _ Hu) as (Hpos & _).
  pose proof (co_lock _ _ _ Hc _ _ Hi) as Hl. rewrite bool_decide_eq_true_2 in Hl by done.
  destruct (same_entry ic ip i i' (co_ok _ _ _ Hc) Hi eq_refl eq_refl eq_refl) as (Hok' & Hr' & _).
  split; [|split; [split; [by eapply lookup_here | done] | split; [done|]]].
  - apply (cache_ok_insert v (Some ip)); [done | done | | |].
    + intros k' Hk'. by rewrite !bool_decide_eq_false_2 by congruence.
    + by rewrite bool_decide_eq_false_2.
    + intros _ Hval. apply synced_lock. by apply (co_sync _ _ _ Hc _ _ Hi).
  - intros s. apply iunlock_ok; [done | done | lia].
Qed.

(** [dirlookup] in a locked directory of the tree. *)
Lemma dirlookup_step (dev_read : dev_reads) s ic ip i inum name :
  (∀ x, bs_view s x = v x) → fs_ok sb s O → refers ic ip i inum → synced sb v i → i_type (on_disk v inum) = T_DIR →
  ∃ s' off, same_disk s s' ∧
    dirlookup sb dev_read ip name (s, ic) =
    match dlookup v (on_disk v inum) name with
    | None => Ok None (s', ic)
    | Some j => (ip' ← iget ROOTDEV j; mret (Some (ip', off))) (s', ic)
    end.
Proof using Hlay Htree.
  intros Hv Hok (Hi & Hu & HT) Hsy Ht. apply in_use_ref in Hu as (_ & Hd & Hn).
  destruct (synced_fields v i inum Hsy Hn) as (Et & _ & Es & Ea).
  assert (dir_ok (bs_view s) O i) as Hdir.
  { apply (dir_ok_view v); [done|]. apply (dir_ok_fields v O i (on_disk v inum)); try done. by apply (tr_dir _ _ _ Htree). }
  destruct (dirlookup_ok sb Hlay dev_read s ic ip i O name Hok Hi Hdir) as (s' & Hs & E).
  rewrite (find_name_fields v (bs_view s) i (on_disk v inum)) in E by done. unfold dlookup.
  destruct (find_name v (on_disk v inum) name) as [k|]; cbn [fmap option_fmap option_map].
  - exists s', (DIRENT * k). split; [done|]. by rewrite <- Ea, <- (dir_slot_view v (bs_view s)), <- Hd by done.
  - by exists s', 0.
Qed.

(** No element is left. *)
Lemma walked_end parent s ic ip i inum name :
  cache_ok v None ic → refers ic ip i inum →
  walked parent (λ d n, refs ic d n - one_if (same_key ROOTDEV inum d n)) [] (resolve parent v inum [])
    ((if parent then iput sb ip;; mret None else mret (Some (ip, name))) (s, ic)) s.
Proof using Htree.
  intros Hc Hr. cbn [resolve]. destruct parent; cbn [walked].
  - destruct (drop_step ic ip i inum None Hc Hr ltac:(by left)) as (Hc2 & Hr2 & _). eexists.
    rewrite (bind_ok _ _ _ _ _ (iput_step s ic ip i inum Hc Hr)). split; [done|]. split; [exact Hc2 | exact Hr2].
  - exists ip, i, name, ic. split; [done|]. split; [done|]. split; [done|]. split; [intros; lia | done].
Qed.

Lemma namex_loop_ok (dev_read : dev_reads) parent : ∀ fuel path name s ic ip i inum,
  (∀ x, bs_view s x = v x) → fs_ok sb s O → cache_ok v None ic → refers ic ip i inum → roomy ic i →
  string_ok path → (length path < fuel)%nat →
  ∃ s', same_disk s s' ∧
    walked parent (λ d n, refs ic d n - one_if (same_key ROOTDEV inum d n)) (take dirsiz <$> elements path)
      (resolve parent v inum (take dirsiz <$> elements path)) (namex_loop sb dev_read fuel ip path parent name (s, ic)) s'.
Proof using Hlay Htree.
  induction fuel as [|fuel IH]; intros path name s ic ip i inum Hv Hok Hc Hr Hroom Hp Hf; [lia|].
  cbn [namex_loop]. pose proof (skipelem_step path name Hp) as Hsk. destruct (skipelem path name) as [[path' name']|].
  2: { exists s. split; [apply same_disk_refl, Hok|]. rewrite Hsk. by eapply walked_end. }
  destruct Hsk as (_ & Hel & Hnil & Hp' & Hlen). rewrite Hel. cbn [resolve].
  destruct (ilock_step s ic ip i inum Hv Hok Hc Hr) as (s1 & i1 & Hs1 & E1 & Hc1 & Hr1 & Er & Hsy & Hval & Hrefs & Hnf).
  rewrite (bind_ok _ _ _ _ _ E1), (bind_ok _ _ _ _ _ (inode_at_ok _ _ _ _ (proj1 Hr1))).
  assert (i_inum i1 = inum) as En by (destruct Hr1 as (_ & Hu1 & _); by apply in_use_ref in Hu1 as (_ & _ & ?)).
  destruct (synced_fields v i1 inum Hsy En) as (Et & _). rewrite Et.
  pose proof (λ s, iunlockput_step s _ ip i1 inum Hc1 Hr1) as Eput.
  destruct (drop_step _ ip i1 inum (Some ip) Hc1 Hr1 ltac:(by right)) as (Hc2 & Hr2 & _).
  assert (∀ d n, refs (<[ip := i1 <| i_lock := false |> <| i_ref := i_ref i1 - 1 |>]> (<[ip := i1]> ic)) d n =
    refs ic d n - one_if (same_key ROOTDEV inum d n)) as Hdrop by (intros d n; by rewrite Hr2, Hrefs).
  destruct (Z.eqb_spec (i_type (on_disk v inum)) T_DIR) as [Edir|Edir]; cbn [negb].
  2: { exists s1. split; [done|]. eexists. rewrite (bind_ok _ _ _ _ _ (Eput s1)). split; [done|]. by split. }
  assert ((length (take dirsiz <$> elements path') =? 0)%nat = (length path' =? 0)%nat) as ->.
  { rewrite length_fmap. apply eq_bool_prop_intro. rewrite !Is_true_true, !Nat.eqb_eq, !length_zero_iff_nil. done. }
  destruct (parent && (length path' =? 0)%nat) eqn:Estop.
  { apply andb_true_iff in Estop as [_ Hz%Nat.eqb_eq%length_zero_iff_nil]. exists s1. split; [done|].
    destruct (unlock_step _ ip i1 inum Hc1 Hr1) as (Hc3 & Hr3 & Hrefs3 & E3).
    eexists ip, _, name', _. rewrite (bind_ok _ _ _ _ _ (E3 s1)). split; [done|]. split; [done|]. split; [done|]. split.
    - intros d n. rewrite Hrefs3, Hrefs. lia.
    - intros _. by rewrite (proj2 Hnil Hz). }
  assert (∀ x, bs_view s1 x = v x) as Hv1 by (intros x; by rewrite (sd_view _ _ Hs1)).
  destruct (dirlookup_step dev_read s1 _ ip i1 inum name' Hv1 ltac:(by eapply same_disk_ok) Hr1 Hsy Edir) as (s2 & off & Hs2 & E2).
  rewrite dlookup_name. assert (same_disk s s2) as Hs02 by (by eapply same_disk_trans).
  destruct (dlookup v (on_disk v inum) name') as [j|] eqn:Ej; cbn [mbind option_bind].
  2: { exists s2. split; [done|]. eexists. rewrite (bind_ok _ _ _ _ _ E2), (bind_ok _ _ _ _ _ (Eput s2)). split; [done|]. by split. }
  destruct (next_step s2 _ ip i1 inum j Hc1 Hr1 (tr_entry _ _ _ Htree inum name' j (proj2 (proj2 Hr1)) Edir Ej) ltac:(unfold roomy in *; by rewrite Hnf, Er))
    as (ip' & i0 & i' & ic' & Eg & Ep & Hc' & Hr' & Hroom' & Hrefs').
  rewrite (bind_ok _ _ _ _ _ Eg) in E2. rewrite (bind_ok _ _ _ _ _ E2), (bind_ok _ _ _ _ _ Ep).
  destruct (IH path' name' s2 ic' ip' i' j) as (s3 & Hs3 & Hw); try done; [intros x; by rewrite (sd_view _ _ Hs2), Hv1 | by eapply same_disk_ok | lia |].
  exists s3. split; [by eapply same_disk_trans|]. eapply walked_ext; [|eapply walked_cons; [|exact Hw]].
  - intros d n. simpl. rewrite Hrefs', Hrefs. lia.
  - intros -> ->%fmap_nil_inv%Hnil. done.
Qed.
End walk.

(** The counts and the locks after [idup]. *)
Lemma idup_step v T s ic c i inum :
  cache_ok v None ic → refers T ic c i inum →
  ∃ i' ic', idup c (s, ic) = Ok c (s, ic') ∧ cache_ok v None ic' ∧ refers T ic' c i' inum ∧ nfree ic' = nfree ic ∧
    ∀ d n, refs ic' d n = refs ic d n + one_if (same_key ROOTDEV inum d n).
Proof using.
  intros Hc (Hi & Hu & HT). pose proof (in_use_ref _ _ _ Hu) as (Hpos & _). set (i' := i <| i_ref := i_ref i + 1 |>).
  destruct (count_entry ic c i ROOTDEV inum (i_ref i + 1) (co_ok _ _ _ Hc) Hi Hu ltac:(lia)) as [Hok' Hr].
  exists i', (<[c := i']> ic). split; [unfold idup; by rewrite (bind_ok _ _ _ _ _ (upd_inode_ok _ _ _ _ _ Hi))|]. split; [|split; [|split]].
  - apply (cache_ok_insert v None); [done | done | done | exact (co_lock _ _ _ Hc _ _ Hi) |].
    intros _ Hval. apply synced_ref. by apply (co_sync _ _ _ Hc _ _ Hi).
  - split; [by eapply lookup_here|]. split; [apply in_use_set; [done | lia] | done].
  - pose proof (nfree_insert ic c i i' Hi) as E. unfold free_one in E. subst i'. simpl in E.
    rewrite (proj2 (Z.eqb_neq (i_ref i) 0)), (proj2 (Z.eqb_neq (i_ref i + 1) 0)) in E by lia. lia.
  - intros d n. rewrite Hr. unfold one_if. destruct (same_key ROOTDEV inum d n); lia.
Qed.

(** The run of [namex] as a whole. *)
Lemma namex_ok (dev_read : dev_reads) v O T parent cwd path name s ic start :
  (∀ x, bs_view s x = v x) → fs_ok sb s O → tree_ok v O T → cache_ok v None ic → (2 ≤ nfree ic)%nat → string_ok path → T start →
  (if hd 0 path =? slash then start = ROOTINO
   else ∃ c i, cwd = Some c ∧ ic !! c = Some i ∧ in_use ROOTDEV start i = true) →
  let names := take dirsiz <$> elements path in
  ∃ s', same_disk s s' ∧
    walked v T parent (refs ic) names (resolve parent v start names)
      (namex sb dev_read cwd path parent name (s, ic)) s'.
Proof using Hlay.
  intros Hv Hok Htree Hc Hf Hp HT Hstart names. unfold namex.
  assert (∃ ip i ic', (if hd 0 path =? slash then iget ROOTDEV ROOTINO
      else match cwd with Some c => idup c | None => panic "trap" end) (s, ic) = Ok ip (s, ic') ∧
    cache_ok v None ic' ∧ refers T ic' ip i start ∧ roomy ic' i ∧
    ∀ d n, refs ic' d n = refs ic d n + one_if (same_key ROOTDEV start d n)) as (ip & i & ic' & E & Hc' & Hr & Hroom & Hrefs).
  { destruct (hd 0 path =? slash).
    - subst start. destruct (iget_cache v None s ic ROOTDEV ROOTINO Hc ltac:(lia)) as (ip & i0 & i & E & Hc' & Hi0 & Hu & Hrefs & Hcase).
      exists ip, i, (<[ip := i]> ic). split; [done|]. split; [done|]. split; [split; [by eapply lookup_here | done]|]. split; [|done].
      pose proof (nfree_insert ic ip i0 i Hi0) as En. unfold free_one in En. apply in_use_ref in Hu as (Hpos & _).
      rewrite (proj2 (Z.eqb_neq (i_ref i) 0)) in En by lia. unfold roomy.
      destruct Hcase as [[Hp0 _]|[Hz Hone]]; [rewrite (proj2 (Z.eqb_neq (i_ref i0) 0)) in En by lia | rewrite Hz in En; simpl in En]; lia.
    - destruct Hstart as (c & i & -> & Hi & Hu).
      destruct (idup_step v T s ic c i start Hc ltac:(by split)) as (i' & ic' & E & Hc' & Hr & En & Hrefs).
      exists c, i', ic'. split; [done|]. split; [done|]. split; [done|]. split; [left; lia | done]. }
  rewrite (bind_ok _ _ _ _ _ E).
  destruct (namex_loop_ok v O T Htree dev_read parent (Datatypes.S (length path)) path name s ic' ip i start) as (s' & Hs & Hw);
    try done; [lia|].
  exists s'. split; [done|]. eapply walked_ext; [|exact Hw]. intros d n. simpl. rewrite Hrefs. lia.
Qed.

(** C19: resolving a path, on a consistent tree of directories, with an inode
    cache in which no entry is locked and those in use agree with the disk.
    If the cache has two free entries: from the root or the current
    directory, [namex] goes through the elements of the path, cut to [DIRSIZ]
    bytes, as lookups in the directories of the disk say; it returns the inode
    found, the one before the last element for [nameiparent] with that element
    in [name], or 0 when an element is missing or not in a directory. It comes
    to an end and leaves the disk unchanged; afterwards no inode is locked and
    the cache counts exactly one reference more, to the inode returned. If
    every entry of the cache is in use and none is the root's, an absolute
    path makes it panic. *)
Theorem namex_correct (dev_read : dev_reads) O T parent cwd path name s ic start :
  fs_ok sb s O → tree_ok (bs_view s) O T → cache_ok (bs_view s) None ic → string_ok path → T start →
  (if hd 0 path =? slash then start = ROOTINO
   else ∃ c i, cwd = Some c ∧ ic !! c = Some i ∧ in_use ROOTDEV start i = true) →
  let names := take dirsiz <$> elements path in
  ((2 ≤ nfree ic)%nat →
   ∃ s', same_disk s s' ∧
     walked (bs_view s) T parent (refs ic) names (resolve parent (bs_view s) start names)
       (namex sb dev_read cwd path parent name (s, ic)) s') ∧
  (hd 0 path = slash → (∀ k j, ic !! k = Some j → i_ref j ≠ 0 ∧ in_use ROOTDEV ROOTINO j = false) →
   namex sb dev_read cwd path parent name (s, ic) = Panic "iget: no inodes").
Proof using Hlay.
  intros Hok Htree Hc Hp HT Hstart names. split; [intros Hn; by apply (namex_ok dev_read (bs_view s) O)|]. intros Hsl Hfull.
  unfold namex. rewrite Hsl, Z.eqb_refl.
  destruct (iget_run s ic ROOTDEV ROOTINO) as [(ip & i0 & i & E & Hi0 & Hu & Hcs)|(E & _)].
  - destruct (Hfull ip i0 Hi0). destruct Hcs as [[? _]|[? _]]; congruence.
  - unfold mbind, M_bind. by rewrite E.
Qed.
End namei.
