(* ===== verification/File.v ===== *)
(** * Open files (file.c)

    The table of open files over the file system, the log and pipes. The log
    and the pipes are used through interfaces: [Transactions] is [begin_op]
    and [end_op], [PipeLayer] the functions of pipe.c. *)
From stdpp Require Import functions.
From S2P Require Import Prelude Machine CString Bio FsBlock FsInode FsDinode FsFile FsData FsTrunc FsCache.
Import KString.

(** Between operations the store is idle; an operation starts with an empty
    transaction, and what it wrote is kept. *)
Class Transactions (S : Type) `{BlockStore S} := {
  tx_idle : S → Prop;
  tx_begin : M S ();
  tx_end : M S ();
  tx_begin_ok s : tx_idle s →
    ∃ s', tx_begin s = Ok () s' ∧ bs_inv s' ∧ bs_held s' = ∅ ∧ bs_logged s' = ∅ ∧ (∀ x, bs_view s' x = bs_view s x);
  tx_end_ok s : bs_inv s → bs_held s = ∅ →
    ∃ s', tx_end s = Ok () s' ∧ tx_idle s' ∧ (∀ x, bs_first ≤ x → bs_view s' x = bs_view s x)
}.

(** [pipealloc]'s page, [kfree], [pipeclose], [piperead] and [pipewrite]. *)
Class PipeLayer (P : Type) := {
  pl_alloc : M P (option nat);
  pl_close : nat → bool → M P ();
  pl_read : nat → Z → M P (Z * list Z);
  pl_write : nat → list Z → M P Z
}.

Inductive ftype := FD_NONE | FD_PIPE | FD_INODE.

Record file := File {
  f_type : ftype;
  f_ref : Z;
  f_readable : bool;
  f_writable : bool;
  f_pipe : nat;
  f_ip : nat;
  f_off : Z
}.
#[export] Instance eta_file : Settable file := λ f,
  File (f_type f) (f_ref f) (f_readable f) (f_writable f) (f_pipe f) (f_ip f) (f_off f).

Definition file0 : file := File FD_NONE 0 false false 0 0 0.

(** The first entry without references. *)
Fixpoint free_file (l : list file) (k : nat) : option nat :=
  match l with
  | [] => None
  | f :: l' => if f_ref f =? 0 then Some k else free_file l' (Datatypes.S k)
  end.

Section files.
Context {S : Type} `{Transactions S}.
Context {P : Type} `{PipeLayer P}.
Variable sb : superblock.
Variable dev_read : Z → option (nat → Z → M (@fsys S) (Z * list Z)).
Variable dev_write : Z → option (nat → list Z → M (@fsys S) Z).

(** The file system, [ftable.file], and the pipes. *)
Record kfs := Kfs { k_fs : @fsys S; k_files : list file; k_pipes : P }.
#[local] Instance eta_kfs : Settable kfs := λ k, Kfs (k_fs k) (k_files k) (k_pipes k).

Definition onfs {A} (m : M (@fsys S) A) : M kfs A := λ k,
  match m (k_fs k) with
  | Ok a fs' => Ok a (k <| k_fs := fs' |>)
  | Panic e => Panic e
  | Hang => Hang
  end.

Definition onpipe {A} (m : M P A) : M kfs A := λ k,
  match m (k_pipes k) with
  | Ok a p' => Ok a (k <| k_pipes := p' |>)
  | Panic e => Panic e
  | Hang => Hang
  end.

Definition file_at (f : nat) : M kfs file := λ k,
  match k_files k !! f with
  | Some x => Ok x k
  | None => Panic "trap"
  end.

Definition upd_file (f : nat) (g : file → file) : M kfs () := modify (λ k, k <| k_files := alter g f (k_files k) |>).

Definition do_begin_op : M kfs () := onfs (onbs tx_begin).
Definition do_end_op : M kfs () := onfs (onbs tx_end).

Definition filealloc : M kfs (option nat) :=
  l ← gets k_files;
  match free_file l 0 with
  | Some f => upd_file f (λ x, x <| f_ref := 1 |>);; mret (Some f)
  | None => mret None
  end.

Definition filedup (f : nat) : M kfs nat :=
  x ← file_at f;
  if f_ref x <? 1 then panic "filedup"
  else upd_file f (λ x, x <| f_ref := f_ref x + 1 |>);; mret f.

Definition fileclose (f : nat) : M kfs () :=
  x ← file_at f;
  if f_ref x <? 1 then panic "fileclose"
  else
    upd_file f (λ x, x <| f_ref := f_ref x - 1 |>);;
    if 0 <? f_ref x - 1 then mret ()
    else
      ff ← file_at f;
      upd_file f (λ x, x <| f_ref := 0 |> <| f_type := FD_NONE |>);;
      match f_type ff with
      | FD_PIPE => onpipe (pl_close (f_pipe ff) (f_writable ff))
      | FD_INODE => do_begin_op;; onfs (iput sb (f_ip ff));; do_end_op
      | FD_NONE => mret ()
      end.

(** The [struct stat], or -1. *)
Definition filestat (f : nat) : M kfs (option (Z * Z * Z * Z * Z)) :=
  x ← file_at f;
  match f_type x with
  | FD_INODE =>
      onfs (ilock sb (f_ip x));;
      i ← onfs (inode_at (f_ip x));
      onfs (iunlock (f_ip x));;
      mret (Some (stati i))
  | _ => mret None
  end.

(** The return value, and what was stored from [addr] on. *)
Definition fileread (f : nat) (n : Z) : M kfs (Z * list Z) :=
  x ← file_at f;
  if negb (f_readable x) then mret (-1, [])
  else
    match f_type x with
    | FD_PIPE => onpipe (pl_read (f_pipe x) n)
    | FD_INODE =>
        onfs (ilock sb (f_ip x));;
        r ← onfs (readi sb dev_read (f_ip x) (f_off x) n);
        when (0 <? r.1) (upd_file f (λ x, x <| f_off := u32 (f_off x + r.1) |>));;
        onfs (iunlock (f_ip x));;
        mret r
    | FD_NONE => panic "fileread"
    end.

(** [((MAXOPBLOCKS-1-1-2) / 2) * 512] *)
Definition max_chunk : Z := (MAXOPBLOCKS - 1 - 1 - 2) / 2 * 512.

(** One round of the loop of [filewrite]: the result of [writei]. *)
Definition filewrite_chunk (f : nat) (chunk : list Z) : M kfs Z :=
  do_begin_op;;
  x ← file_at f;
  onfs (ilock sb (f_ip x));;
  r ← onfs (writei sb dev_write (f_ip x) (f_off x) chunk);
  when (0 <? r) (upd_file f (λ x, x <| f_off := u32 (f_off x + r) |>));;
  onfs (iunlock (f_ip x));;
  do_end_op;;
  mret r.

(** The loop; the result is the final [i]. *)
Fixpoint filewrite_loop (fuel : nat) (f : nat) (src : list Z) (i : Z) : M kfs Z :=
  match fuel with
  | O => hang
  | Datatypes.S fuel' =>
      if (length src =? 0)%nat then mret i
      else
        let n1 := Z.min (Z.of_nat (length src)) max_chunk in
        r ← filewrite_chunk f (take (Z.to_nat n1) src);
        if r <? 0 then mret i
        else if negb (r =? n1) then panic "short filewrite"
        else filewrite_loop fuel' f (drop (Z.to_nat n1) src) (i + r)
  end.

Definition filewrite (f : nat) (src : list Z) : M kfs Z :=
  x ← file_at f;
  if negb (f_writable x) then mret (-1)
  else
    match f_type x with
    | FD_PIPE => onpipe (pl_write (f_pipe x) src)
    | FD_INODE =>
        i ← filewrite_loop (Datatypes.S (length src)) f src 0;
        mret (if i =? Z.of_nat (length src) then Z.of_nat (length src) else -1)
    | FD_NONE => panic "filewrite"
    end.

(** [pipealloc] of pipe.c: the two ends of a new pipe. *)
Definition pipealloc : M kfs (option (nat * nat)) :=
  of0 ← filealloc;
  match of0 with
  | None => mret None
  | Some f0 =>
      of1 ← filealloc;
      match of1 with
      | None => fileclose f0;; mret None
      | Some f1 =>
          op ← onpipe pl_alloc;
          match op with
          | None => fileclose f0;; fileclose f1;; mret None
          | Some p =>
              upd_file f0 (λ x, x <| f_type := FD_PIPE |> <| f_readable := true |> <| f_writable := false |> <| f_pipe := p |>);;
              upd_file f1 (λ x, x <| f_type := FD_PIPE |> <| f_readable := false |> <| f_writable := true |> <| f_pipe := p |>);;
              mret (Some (f0, f1))
          end
      end
  end.
End files.
