(* ===== verification/FileWrite.v ===== *)
(** * Writing an open file (filewrite)

    [filewrite] cuts a long write into transactions. Each fits the log, and
    together they replace the bytes of the file from its offset on. *)
From stdpp Require Import functions.
From S2P Require Import Prelude Machine CString Bio FsBlock FsInode FsDinode FsFile FsData FsTrunc FsCache File.
Import KString.

(** A chunk touches at most four blocks. *)
Lemma chunk_touched off n : 0 ≤ off → 0 ≤ n ≤ max_chunk → (touched off n ≤ 4)%nat.
Proof.
  intros Hoff Hn. change max_chunk with 1536 in Hn. unfold touched, BSIZE.
  pose proof (Z.mod_pos_bound off 512 ltac:(lia)). apply Nat2Z.inj_le. rewrite Z2Nat.id; zmod.
Qed.

Section fw.
Context {S : Type} `{Transactions S}.
Context {P : Type} `{PipeLayer P}.
Variable sb : superblock.
Context (Hlay : layout_ok sb).

Implicit Types (s : S) (v : Z → block) (O : Z → brole).

(** A file on the disk [v], in memory [i]. *)
Record fstate (v : Z → block) (O : Z → brole) (i : inode) : Prop := {
  fs_alloc : alloc_ok sb v O;
  fs_file : file_ok v O i;
  fs_wf : inode_wf i;
  fs_synced : synced sb v i
}.

(** The file after [src] was written at [off]; the others. *)
Record wpost (v v' : Z → block) (O O' : Z → brole) (i i' : inode) (off : Z) (src : list Z) : Prop := {
  wp_state : fstate v' O' i';
  wp_size : i_size i' = Z.max (i_size i) (off + Z.of_nat (length src));
  wp_fields : i' = i <| i_addrs := i_addrs i' |> <| i_size := i_size i' |>;
  wp_byte o : 0 ≤ o < MAXFILE * BSIZE → fbyte v' (i_addrs i') o =
    if decide (off ≤ o < off + Z.of_nat (length src)) then u8 (nth (Z.to_nat (o - off)) src 0)
    else fbyte v (i_addrs i) o;
  wp_others j : i_inum j ≠ i_inum i → 0 ≤ i_inum j < sb_ninodes sb → file_ok v O j →
    file_ok v' O' j ∧ (∀ o, 0 ≤ o < MAXFILE * BSIZE → fbyte v' (i_addrs j) o = fbyte v (i_addrs j) o) ∧
    (synced sb v j → synced sb v' j);
  wp_grown : grown v v' (i_addrs i) (i_addrs i')
}.

(** Disks that agree after the log. *)
Definition agree (v v' : Z → block) : Prop := ∀ x, bs_first ≤ x → v' x = v x.

Lemma agree_meta v v' O x : alloc_ok sb v O → agree v v' → O x ≠ BMeta → v' x = v x.
Proof using Hlay. intros Hal Hv Hx. apply Hv. by destruct (role_range sb Hlay v O x Hal Hx) as (_ & ? & _). Qed.

Lemma synced_agree v v' i : agree v v' → 0 ≤ i_inum i < sb_ninodes sb → synced sb v i → synced sb v' i.
Proof using Hlay. intros Hv Hi. unfold synced. destruct (iblock_range sb Hlay _ Hi) as [_ [? _]]. by rewrite Hv. Qed.

Lemma alloc_agree v v' O : agree v v' → alloc_ok sb v O → alloc_ok sb v' O.
Proof using Hlay.
  intros Hv Hal. eapply alloc_ok_ext; [|done]. intros a. rewrite Hv; [done|].
  destruct Hlay as [[[L1 L2] L3] L4 L5 L6]. assert (0 ≤ sb_ninodes sb / IPB) by (by apply Z.div_pos). lia.
Qed.

Lemma fstate_agree v v' O i : agree v v' → 0 ≤ i_inum i < sb_ninodes sb → fstate v O i → fstate v' O i.
Proof using Hlay.
  intros Hv Hi [A B C D]. split; [by eapply alloc_agree | | done | by eapply synced_agree].
  apply (file_ok_meta v v'); [|done]. intros x Hx. by eapply agree_meta.
Qed.

Lemma wpost_of_writei s s' O O' i i' off src :
  writei_post sb s s' O O' i i' off src → wpost (bs_view s) (bs_view s') O O' i i' off src.
Proof using. intros [A B C D E F G J K]. split; try done. split; [apply A | done | done | done]. Qed.

Lemma wpost_agree v0 v v' v1 O O' i i' off src :
  agree v0 v → agree v' v1 → alloc_ok sb v0 O → 0 ≤ i_inum i < sb_ninodes sb → file_ok v0 O i →
  wpost v v' O O' i i' off src → wpost v0 v1 O O' i i' off src.
Proof using Hlay.
  intros H01 H23 Hal0 Hi Hf0 [[A1 A2 A3 A4] B C D E [G1 G2]].
  assert (i_inum i' = i_inum i) as En by (by rewrite C).
  assert (∀ j, file_ok v0 O j → file_ok v O j ∧ ∀ o, 0 ≤ o < MAXFILE * BSIZE → fbyte v (i_addrs j) o = fbyte v0 (i_addrs j) o) as Hin.
  { intros j Hj. split; [by eapply (file_ok_meta v0); [intros; by eapply agree_meta|]|].
    intros o Ho. eapply (fbyte_meta v0 v O (i_inum j)); [intros; by eapply agree_meta | apply Hj | done]. }
  assert (∀ j, file_ok v' O' j → file_ok v1 O' j ∧ ∀ o, 0 ≤ o < MAXFILE * BSIZE → fbyte v1 (i_addrs j) o = fbyte v' (i_addrs j) o) as Hout.
  { intros j Hj. split; [by eapply (file_ok_meta v'); [intros; by eapply agree_meta|]|].
    intros o Ho. eapply (fbyte_meta v' v1 O' (i_inum j)); [intros; by eapply agree_meta | apply Hj | done]. }
  split; try done.
  - apply (fstate_agree v'); [done | by rewrite En | by split].
  - intros o Ho. rewrite (proj2 (Hout i' A2)), D by done. case_decide; [done|]. by apply Hin.
  - intros j Hne Hj Hfj. destruct (Hin j Hfj) as [Hfj' Hb]. destruct (E j Hne Hj Hfj') as (E1 & E2 & E3).
    destruct (Hout j E1) as [F1 F2]. split; [done|]. split.
    + intros o Ho. by rewrite F2, E2, Hb.
    + intros Hs. apply (synced_agree v'); [done | done |]. apply E3. by apply (synced_agree v0).
  - split; [|done]. intros j Hj Hz. rewrite (fblock_meta v' v1 O' (i_inum i')); [|intros; by eapply agree_meta | apply A2].
    apply G1; [done|]. by rewrite (fblock_meta v0 v O (i_inum i)); [|intros; by eapply agree_meta | apply Hf0].
Qed.

Lemma wpost_app v1 v2 v3 O1 O2 O3 i1 i2 i3 off src1 src2 :
  wpost v1 v2 O1 O2 i1 i2 off src1 → wpost v2 v3 O2 O3 i2 i3 (off + Z.of_nat (length src1)) src2 → 0 ≤ off →
  wpost v1 v3 O1 O3 i1 i3 off (src1 ++ src2).
Proof using.
  clear Hlay. intros [A B C D E G] [A' B' C' D' E' G'] Hoff. assert (i_inum i2 = i_inum i1) as En by (by rewrite C).
  split; rewrite ?length_app, ?Nat2Z.inj_add.
  - done.
  - lia.
  - rewrite C' at 1. rewrite C. by destruct i1.
  - intros o Ho. rewrite D', D by done.
    destruct (decide (o < off + Z.of_nat (length src1))).
    + rewrite decide_False by lia. repeat case_decide; try lia; try done. by rewrite app_nth1 by lia.
    + repeat case_decide; try lia; try done. rewrite app_nth2 by lia. do 2 f_equal. lia.
  - intros j Hne Hj Hf. destruct (E j Hne Hj Hf) as (E1 & E2 & E3).
    destruct (E' j ltac:(congruence) Hj E1) as (F1 & F2 & F3). split; [done|]. split; [|tauto].
    intros o Ho. by rewrite F2, E2.
  - by eapply grown_trans.
Qed.

Lemma wpost_nil v O i off : fstate v O i → 0 ≤ off ≤ i_size i → wpost v v O O i i off [].
Proof using.
  clear Hlay. intros Hf Hoff. split; try done.
  - simpl. lia.
  - by destruct i.
  - intros o Ho. rewrite decide_False by (simpl; lia). done.
Qed.

(** ** The calls *)

Notation kfs := (@kfs S P).
Implicit Types (fl : list file) (p : P).

Lemma onfs_ok {A} (m : M (@fsys S) A) fs fl p a fs' : m fs = Ok a fs' → onfs m (Kfs fs fl p) = Ok a (Kfs fs' fl p).
Proof using. intros E. unfold onfs. simpl. by rewrite E. Qed.

Lemma file_at_ok (fs : @fsys S) fl p f x : fl !! f = Some x → file_at f (Kfs fs fl p) = Ok x (Kfs fs fl p).
Proof using. intros E. unfold file_at. simpl. by rewrite E. Qed.

Lemma upd_file_ok (fs : @fsys S) fl p f x g :
  fl !! f = Some x → upd_file f g (Kfs fs fl p) = Ok () (Kfs fs (<[f := g x]> fl) p).
Proof using. intros E. unfold upd_file, modify. simpl. unfold set_field. simpl. by rewrite (alter_insert_list _ _ x). Qed.

Lemma fstate_lock v O i l : fstate v O i → fstate v O (i <| i_lock := l |>).
Proof using. intros [A B C D]. split; [done | by destruct B | by destruct C | by apply synced_lock]. Qed.

(** An open file between system calls. *)
Record open_file (s : S) (ic : list inode) (fl : list file) (O : Z → brole) (f ip : nat) (i : inode) (off : Z) : Prop := {
  of_idle : tx_idle s;
  of_state : fstate (bs_view s) O i;
  of_entry : ic !! ip = Some i;
  of_lock : i_lock i = false;
  of_valid : i_valid i = true;
  of_ref : 1 ≤ i_ref i;
  of_inum : 0 ≤ i_inum i < sb_ninodes sb;
  of_file : ∃ x, fl !! f = Some x ∧ f_ip x = ip ∧ f_off x = off ∧ f_type x = FD_INODE ∧ f_writable x = true
}.

Notation dev_writes := (Z → option (nat → list Z → M (@fsys S) Z)).

Lemma wpost_unlock v v' O O' i i' off src :
  i_lock i = false → wpost v v' O O' (i <| i_lock := true |>) i' off src → wpost v v' O O' i (i' <| i_lock := false |>) off src.
Proof using.
  clear Hlay. intros Hl [A B C D E G]. split.
  - by apply fstate_lock.
  - done.
  - rewrite C. destruct i; simpl in *. by subst.
  - done.
  - done.
  - done.
Qed.

Lemma filewrite_chunk_ok (dev_write : dev_writes) s ic fl p O f ip i off chunk n :
  (Z.to_nat MAXOPBLOCKS ≤ bs_cap)%nat →
  open_file s ic fl O f ip i off → i_type i ≠ T_DEV → 0 ≤ off ≤ i_size i →
  0 < Z.of_nat (length chunk) ≤ max_chunk → off + Z.of_nat (length chunk) ≤ MAXFILE * BSIZE →
  has_free O (write_need (bs_view s) (i_addrs i) (off / BSIZE) (touched off (Z.of_nat (length chunk))) + n) →
  ∃ s' O' i' fl',
    filewrite_chunk sb dev_write f chunk (Kfs (s, ic) fl p) = Ok (Z.of_nat (length chunk)) (Kfs (s', <[ip := i']> ic) fl' p) ∧
    wpost (bs_view s) (bs_view s') O O' i i' off chunk ∧
    open_file s' (<[ip := i']> ic) fl' O' f ip i' (off + Z.of_nat (length chunk)) ∧ has_free O' n ∧ i_ref i' = i_ref i.
Proof using Hlay.
  intros Hcap [Hidle Hst Hic Hl Hv Hr Hin (x & Hx & <- & <- & Hxt & Hxw)] Ht Hoff Hlen Hmax Hfree.
  set (ip := f_ip x) in *. set (off := f_off x) in *.
  destruct (tx_begin_ok s Hidle) as (s1 & E1 & I1 & H1' & L1 & V1).
  assert (agree (bs_view s) (bs_view s1)) as Ha1 by (intros y _; apply V1).
  pose proof (fstate_agree _ _ _ _ Ha1 Hin Hst) as [S1 S2 S3 S4].
  assert (fs_ok sb s1 O) as Hok1 by (split; [done|]; by split).
  destruct (ilock_ok sb Hlay s1 ic ip i O Hok1 Hic Hr Hin Hl (λ _, S4)) as (s2 & i2 & Hs2 & _ & _ & _ & _ & _ & _ & Ei2 & E2).
  rewrite Hv in E2. specialize (Ei2 Hv). subst i2. cbn [orb] in E2.
  pose proof (lookup_here ic ip i (i <| i_lock := true |>) Hic) as Hic2.
  pose proof (chunk_touched off (Z.of_nat (length chunk)) ltac:(lia) ltac:(lia)) as Htc.
  destruct (fstate_lock (bs_view s1) O i true ltac:(by split)) as [T1 T2 T3 T4].
  destruct (writei_ok sb Hlay dev_write s2 (<[ip := i <| i_lock := true |>]> ic) ip (i <| i_lock := true |>) O off chunk 0 n) as (s3 & O3 & i3 & E3 & Hp & _ & Hf3).
  { by eapply same_disk_ok. } { done. } { by eapply file_ok_view; [apply Hs2|]. } { done. }
  { unfold synced in *. by rewrite (sd_view _ _ Hs2). } { done. } { done. } { done. } { done. }
  { eapply room_same; [done|]. unfold room. rewrite L1, union_empty_r_L, size_singleton. unfold MAXOPBLOCKS in Hcap. lia. }
  { change (i_addrs (i <| i_lock := true |>)) with (i_addrs i). eapply has_free_mono; [done|].
    apply Nat.eq_le_incl. f_equal. apply write_need_view. intros y. by rewrite (sd_view _ _ Hs2), V1. }
  rewrite list_insert_insert_eq in E3.
  pose proof (wi_fields _ _ _ _ _ _ _ _ _ Hp) as Ef.
  assert (i_lock i3 = true ∧ i_ref i3 = i_ref i ∧ i_inum i3 = i_inum i ∧ i_valid i3 = true) as (El3 & Er3 & En3 & Ev3) by (rewrite Ef; by split_and!).
  destruct (tx_end_ok s3) as (s4 & E4 & Hid4 & V4); [apply Hp | apply (wi_ok _ _ _ _ _ _ _ _ _ Hp) |].
  pose proof (iunlock_ok s3 (<[ip := i3]> ic) ip i3 (lookup_here _ _ _ _ Hic) El3 ltac:(lia)) as E5.
  rewrite list_insert_insert_eq in E5.
  set (fl' := <[f := x <| f_off := off + Z.of_nat (length chunk) |>]> fl).
  assert (wpost (bs_view s) (bs_view s4) O O3 i (i3 <| i_lock := false |>) off chunk) as Hw.
  { eapply (wpost_agree _ (bs_view s2) (bs_view s3)); [| |apply Hst | done | apply Hst |].
    - intros y _. by rewrite (sd_view _ _ Hs2), V1.
    - exact V4.
    - apply wpost_unlock; [done|]. by apply wpost_of_writei. }
  exists s4, O3, (i3 <| i_lock := false |>), fl'. split; [|split; [done|split; [|split; [done|done]]]].
  - unfold filewrite_chunk, do_begin_op, do_end_op. rewrite (bind_ok _ _ _ _ _ (onfs_ok _ _ _ _ _ _ (onbs_ok _ _ _ _ _ E1))).
    rewrite (bind_ok _ _ _ _ _ (file_at_ok _ _ _ _ _ Hx)). fold ip off.
    rewrite (bind_ok _ _ _ _ _ (onfs_ok _ _ _ _ _ _ E2)), (bind_ok _ _ _ _ _ (onfs_ok _ _ _ _ _ _ E3)).
    rewrite (proj2 (Z.ltb_lt 0 _)) by lia. cbn [when]. rewrite (bind_ok _ _ _ _ _ (upd_file_ok _ _ _ _ _ _ Hx)).
    rewrite (bind_ok _ _ _ _ _ (onfs_ok _ _ _ _ _ _ E5)), (bind_ok _ _ _ _ _ (onfs_ok _ _ _ _ _ _ (onbs_ok _ _ _ _ _ E4))).
    fold off. unfold u32. rewrite Z.mod_small; [done|]. change (MAXFILE * BSIZE) with 71680 in Hmax. lia.
  - split; try done.
    + apply Hw.
    + by eapply lookup_here.
    + simpl. lia.
    + simpl. lia.
    + exists (x <| f_off := off + Z.of_nat (length chunk) |>). split; [|done].
      apply list_lookup_insert_eq. by eapply lookup_lt_Some.
Qed.

Lemma filewrite_loop_ok (dev_write : dev_writes) p f ip n : ∀ fuel s ic fl O i off src acc,
  (Z.to_nat MAXOPBLOCKS ≤ bs_cap)%nat →
  open_file s ic fl O f ip i off → i_type i ≠ T_DEV → 0 ≤ off ≤ i_size i → off + Z.of_nat (length src) ≤ MAXFILE * BSIZE →
  (length src < fuel)%nat →
  has_free O (write_need (bs_view s) (i_addrs i) (off / BSIZE) (touched off (Z.of_nat (length src))) + n) →
  ∃ s' O' i' fl',
    filewrite_loop sb dev_write fuel f src acc (Kfs (s, ic) fl p) =
      Ok (acc + Z.of_nat (length src)) (Kfs (s', <[ip := i']> ic) fl' p) ∧
    wpost (bs_view s) (bs_view s') O O' i i' off src ∧
    open_file s' (<[ip := i']> ic) fl' O' f ip i' (off + Z.of_nat (length src)) ∧ has_free O' n.
Proof using Hlay.
  induction fuel as [|fuel IH]; intros s ic fl O i off src acc Hcap Hof Ht Hoff Hmax Hfuel Hfree; [lia|]; cbn [filewrite_loop];
    destruct (Nat.eqb_spec (length src) 0) as [Hz|Hpos].
  1: (apply nil_length_inv in Hz as ->; exists s, O, i, fl; rewrite list_insert_id by apply Hof; simpl; rewrite !Z.add_0_r;
    split; [done|]; split; [apply wpost_nil; [apply Hof | done]|]; split; [done|]; eapply has_free_mono; [done | lia]).
  set (n1 := Z.min (Z.of_nat (length src)) max_chunk) in *.
  assert (0 < max_chunk) as Hmc by done.
  assert (Z.of_nat (length (take (Z.to_nat n1) src)) = n1) as Hl1 by (rewrite length_take; lia).
  destruct (filewrite_chunk_ok dev_write s ic fl p O f ip i off (take (Z.to_nat n1) src)
    (write_need (bs_view s) (i_addrs i) (off / BSIZE) (touched off (Z.of_nat (length src)))
     - write_need (bs_view s) (i_addrs i) (off / BSIZE) (touched off n1) + n))
    as (s1 & O1 & i1 & fl1 & E1 & Hw1 & Hof1 & Hf1 & _); rewrite ?Hl1; try done; [lia | lia | |].
  { eapply has_free_mono; [done|].
    destruct (touched_split off n1 (Z.of_nat (length src) - n1) ltac:(lia) ltac:(lia) ltac:(lia)) as ([_ Hle] & _).
    rewrite Zplus_minus in Hle. pose proof (write_need_mono (bs_view s) (i_addrs i) (off / BSIZE) _ _ Hle). lia. }
  rewrite Hl1 in *. pose proof (wp_size _ _ _ _ _ _ _ _ Hw1) as Hs1. rewrite Hl1 in Hs1.
  destruct (IH s1 (<[ip := i1]> ic) fl1 O1 i1 (off + n1) (drop (Z.to_nat n1) src) (acc + n1))
    as (s2 & O2 & i2 & fl2 & E2 & Hw2 & Hof2 & Hf2); try done.
  { by rewrite (wp_fields _ _ _ _ _ _ _ _ Hw1). } { lia. } { rewrite length_drop. lia. } { rewrite length_drop. lia. }
  { eapply has_free_mono; [done|].
    pose proof (write_need_app (bs_view s) (bs_view s1) (i_addrs i) (i_addrs i1) off n1 (Z.of_nat (length src) - n1)
      ltac:(lia) ltac:(lia) ltac:(lia) ltac:(lia) (wp_grown _ _ _ _ _ _ _ _ Hw1)
      ltac:(apply (fi_full _ _ _ (fs_file _ _ _ (wp_state _ _ _ _ _ _ _ _ Hw1))); lia)) as Happ.
    rewrite Zplus_minus in Happ. rewrite length_drop. replace (Z.of_nat (length src - Z.to_nat n1)) with (Z.of_nat (length src) - n1) by lia. lia. }
  rewrite length_drop, list_insert_insert_eq in *. exists s2, O2, i2, fl2. split; [|split; [|split; [|done]]].
  - cbv zeta. rewrite (bind_ok _ _ _ _ _ E1), (proj2 (Z.ltb_ge _ 0)), Z.eqb_refl by lia. cbn [negb].
    etransitivity; [exact E2|]. f_equal. lia.
  - rewrite <- (take_drop (Z.to_nat n1) src). eapply wpost_app; [done | by rewrite Hl1 | lia].
  - replace (off + Z.of_nat (length src)) with (off + n1 + Z.of_nat (length src - Z.to_nat n1)) by lia. done.
Qed.

(** C11: writing an open file. [filewrite] of [n] bytes, at an offset within
    a regular file or directory that is open for writing, not beyond the
    largest file size, returns [n] if the disk has as many free blocks as are
    missing in the range written, none for a range that is all there; it does
    so however many transactions it takes: every transaction stays within the
    [MAXOPBLOCKS] blocks the log reserves for it, since a chunk of [max_chunk]
    bytes touches at most four blocks. Afterwards the bytes of the file from
    the offset on are the ones written, the offset has advanced by [n], the
    inode on disk agrees with the one in memory and every other file is
    unchanged. The file is at rest before: no transaction is open, and its
    inode is in memory, unlocked and as on disk. *)
Theorem filewrite_correct (dev_write : dev_writes) p s ic fl O f ip i off src n :
  (Z.to_nat MAXOPBLOCKS ≤ bs_cap)%nat →
  open_file s ic fl O f ip i off → i_type i ≠ T_DEV → 0 ≤ off ≤ i_size i → off + Z.of_nat (length src) ≤ MAXFILE * BSIZE →
  has_free O (write_need (bs_view s) (i_addrs i) (off / BSIZE) (touched off (Z.of_nat (length src))) + n) →
  ∃ s' O' i' fl',
    filewrite sb dev_write f src (Kfs (s, ic) fl p) = Ok (Z.of_nat (length src)) (Kfs (s', <[ip := i']> ic) fl' p) ∧
    wpost (bs_view s) (bs_view s') O O' i i' off src ∧
    open_file s' (<[ip := i']> ic) fl' O' f ip i' (off + Z.of_nat (length src)) ∧ has_free O' n.
Proof using Hlay.
  intros Hcap Hof Ht Hoff Hmax Hfree.
  destruct (filewrite_loop_ok dev_write p f ip n (Datatypes.S (length src)) s ic fl O i off src 0)
    as (s' & O' & i' & fl' & E & Hw & Hof' & Hf'); try done; [lia|].
  exists s', O', i', fl'. split; [|done]. destruct (of_file _ _ _ _ _ _ _ _ Hof) as (x & Hx & _ & _ & Hxt & Hxw).
  unfold filewrite. rewrite (bind_ok _ _ _ _ _ (file_at_ok _ _ _ _ _ Hx)), Hxw, Hxt. cbn [negb].
  rewrite (bind_ok _ _ _ _ _ E), Z.add_0_l, Z.eqb_refl. done.
Qed.
End fw.
