(* ===== verification/FsTxn.v ===== *)
(** * File system: operations one after the other

    [begin_op] and [end_op] over the log and the buffer cache, for a thread
    that is alone: the interface [Transactions] of the file layer, with a
    commit at every [end_op]. *)
From stdpp Require Import functions.
From S2P Require Import Prelude Machine Monitor Bio Log LogOps FsBlock FsInode FsFile FsData FsTrunc FsCache File FsStore.

Section txn.
Context {B : Type} `{BufCache B}.
Variables (lstart lsize : Z).

Implicit Types (lg : log) (s : B) (st : log * B).

(** An operation on some disk. *)
Definition op_inv (st : log * B) : Prop := ∃ d0, txn_inv lstart lsize d0 st.

Lemma op_read_ok st b :
  op_inv st → lstart + lsize ≤ b < FSSIZE → b ∉ st_held st → (size (st_held st) < 3)%nat →
  ∃ st', onb (bc_read b) st = Ok () st' ∧ op_inv st' ∧ (∀ x, bc_view st'.2 x = bc_view st.2 x) ∧
    st_held st' = {[b]} ∪ st_held st ∧ st_logged st' = st_logged st.
Proof.
  intros [d0 Hi] Hb Hh Hs. destruct (st_read_ok lstart lsize d0 st b Hi Hb Hh Hs) as (st' & E & I & R).
  exists st'. split; [done|]. split; [by exists d0 | done].
Qed.

Lemma op_update_ok st b v :
  op_inv st → b ∈ st_held st → (size ({[b]} ∪ st_logged st) ≤ Z.to_nat MAXOPBLOCKS)%nat →
  ∃ st', st_update b v st = Ok () st' ∧ op_inv st' ∧
    (∀ x, bc_view st'.2 x = if x =? b then v else bc_view st.2 x) ∧
    st_held st' = st_held st ∧ st_logged st' = {[b]} ∪ st_logged st.
Proof.
  intros [d0 Hi] Hb Hs. destruct (st_update_ok lstart lsize d0 st b v Hi Hb Hs) as (st' & E & I & R).
  exists st'. split; [done|]. split; [by exists d0 | done].
Qed.

Lemma op_release_ok st b :
  op_inv st → b ∈ st_held st →
  ∃ st', onb (bc_release b) st = Ok () st' ∧ op_inv st' ∧ (∀ x, bc_view st'.2 x = bc_view st.2 x) ∧
    st_held st' = st_held st ∖ {[b]} ∧ st_logged st' = st_logged st.
Proof.
  intros [d0 Hi] Hb. destruct (st_release_ok lstart lsize d0 st b Hi Hb) as (st' & E & I & R).
  exists st'. split; [done|]. split; [by exists d0 | done].
Qed.

Instance op_store : BlockStore (log * B) := {|
  bs_inv := op_inv; bs_view st := bc_view st.2; bs_held := st_held; bs_logged := st_logged;
  bs_cap := Z.to_nat MAXOPBLOCKS; bs_first := lstart + lsize;
  bs_read b := onb (bc_read b); bs_update := st_update; bs_release b := onb (bc_release b);
  bs_read_ok := op_read_ok; bs_update_ok := op_update_ok; bs_release_ok := op_release_ok
|}.

(** ** begin_op and end_op *)

(** No operation in progress, nothing locked, nothing to commit. *)
Record idle (st : log * B) : Prop := {
  id_bc : bc_inv st.2;
  id_log : log_ok st.1;
  id_pos : l_start st.1 = lstart ∧ l_size st.1 = lsize;
  id_size : MAXOPBLOCKS + 2 ≤ lsize;
  id_out : outstanding st.1 = 0;
  id_committing : committing st.1 = false;
  id_n : lh_n st.1 = 0;
  id_head : hb_n (bc_disk st.2 lstart) = 0;
  id_held x : bc_held st.2 x = false;
  id_pin x : bc_pinned st.2 x = false
}.

(** A thread that would sleep in [begin_op] sleeps for ever on its own. *)
Definition run_begin : M (log * B) () :=
  lg ← getlog;
  match seg_end (begin_op [] lg) with
  | Goes _ => updlog (λ lg, seg_state (begin_op [] lg))
  | _ => hang
  end.

Definition run_end : M (log * B) () :=
  lg ← getlog;
  match seg_end (end_op lg) with
  | Returns (RPanic msg) => panic msg
  | Goes _ =>
      updlog (λ lg, seg_state (end_op lg));;
      commit;;
      updlog (λ lg, seg_state (commit_done lg))
  | _ => updlog (λ lg, seg_state (end_op lg))
  end.

Lemma no_blocks : blocks_of (λ _, false) = ∅.
Proof. apply set_eq. intros x. rewrite elem_of_blocks. set_solver. Qed.

Lemma run_begin_ok st : idle st →
  ∃ st', run_begin st = Ok () st' ∧ op_inv st' ∧ st_held st' = ∅ ∧ st_logged st' = ∅ ∧
    (∀ x, bc_view st'.2 x = bc_view st.2 x).
Proof.
  intros [I1 I2 I3 I4 I5 I6 I7 I8 I9 I10]. destruct st as [lg s]; cbn [fst snd] in *.
  assert (begin_op [] lg = Segment (lg <| outstanding := 1 |>) [] [] (Goes OEnd)) as E.
  { unfold begin_op. rewrite I6, I5, I7. done. }
  assert (recorded (lg <| outstanding := 1 |>) = []) as Er by (unfold recorded; simpl; by rewrite I7).
  assert (blocks_of (bc_held s) = ∅) as Eh by (rewrite <- no_blocks; by apply blocks_ext).
  exists (lg <| outstanding := 1 |>, s). split.
  { unfold run_begin. rewrite at_getlog, E. cbn [seg_end]. unfold updlog, modify. by rewrite E. }
  split; [|split; [done|split; [unfold st_logged; cbn [fst]; by rewrite Er | done]]].
  exists (bc_disk s). split; cbn [fst snd]; rewrite ?Er; try done.
  - destruct I2; by split.
  - simpl. rewrite I7. done.
  - intros x Hx. by apply elem_of_nil in Hx.
  - intros x _. apply bc_clean; done.
  - intros x Hx. by rewrite I9 in Hx.
  - rewrite bc_quiet by done. by rewrite Eh.
Qed.

(** The view of the blocks after the log does not change in a commit, and the
    header on disk is empty afterwards. *)
Lemma commit_view lg (v : Z → block) x :
  log_ok lg → 0 < lh_n lg → ¬ in_log lg x → apply_writes (commit_writes lg v) v x = v x.
Proof.
  intros Hlg Hn Hx. unfold commit_writes. rewrite !apply_app.
  assert (∀ f b, apply_writes [(l_start lg, b)] f x = f x) as Hs.
  { intros f b. apply apply_notin. simpl. intros Hin%list_elem_of_singleton. subst x. by apply Hx, in_log_start. }
  rewrite Hs. destruct (decide (x ∈ (home lg v).*1)) as [Hin|Hnin].
  - apply list_elem_of_fmap in Hin as (? & -> & (i & -> & Hi)%list_elem_of_fmap). simpl. apply home_in; [done|].
    by apply entries_in.
  - rewrite (apply_notin (home lg v)), Hs by done. apply apply_notin, outside_to_log; [done | done |].
    intros i. by rewrite entries_in.
Qed.

Lemma commit_header lg (v d : Z → block) :
  log_ok lg → hb_n (apply_writes (commit_writes lg v) d (l_start lg)) = 0.
Proof.
  intros Hlg. unfold commit_writes. rewrite !apply_app. simpl. unfold upd. rewrite Z.eqb_refl. by apply put_head_n.
Qed.

Lemma run_end_ok st : op_inv st → st_held st = ∅ →
  ∃ st', run_end st = Ok () st' ∧ idle st' ∧ (∀ x, lstart + lsize ≤ x → bc_view st'.2 x = bc_view st.2 x).
Proof.
  intros [d0 Hi] Hh. destruct st as [lg s]. destruct (txn_quiet _ _ _ _ _ Hi Hh) as [Hq Hk].
  pose proof Hi as [A1 A2 [A3 A3'] A4 A5 A5' A5'' A6 A7 A8 A9 A10 A10' A11]; cbn [fst snd] in *.
  set (lg1 := lg <| outstanding := 0 |> <| committing := true |>).
  assert (log_ok lg1) as Hlg1 by (destruct A2; by split).
  assert (∀ lg' s', commit (lg1, s) = Ok () (lg', s') → run_end (lg, s) = Ok () (lg' <| committing := false |>, s')) as Hrun.
  { intros lg' s' E. unfold run_end. rewrite at_getlog, end_op_last by done. cbn [seg_end].
    rewrite at_updlog, end_op_last by done. cbn [seg_state]. fold lg1. by rewrite (bind_ok _ _ _ _ _ E). }
  assert (∀ x, lstart + lsize ≤ x → ¬ in_log lg1 x) as Hout by (intros x Hx; unfold in_log; simpl; lia).
  destruct (decide (lh_n lg = 0)) as [Hz|Hz].
  - exists (lg1 <| committing := false |>, s). split.
    { apply Hrun. unfold commit. rewrite at_getlog. unfold lg1. simpl. by rewrite Hz. }
    split; [|done]. destruct Hq. assert (∀ x, bc_pinned s x = false) as Hp.
    { intros x. rewrite A8. apply bool_decide_eq_false_2. unfold recorded. rewrite Hz. apply not_elem_of_nil. }
    split; cbn [fst snd]; try done; [|by rewrite A10'].
    destruct A2. split; simpl; try done; lia.
  - pose proof (lo_n _ A2) as Hn.
    assert (∀ i, 0 ≤ i < lh_n lg1 → bc_pinned s (blk lg1 i) = true) as Hp.
    { intros i Hin. rewrite A8. apply bool_decide_eq_true_2, recorded_elem; [done|]. by exists i. }
    assert (∀ x, in_log lg1 x → bc_pinned s x = false) as Hnp.
    { intros x Hx. rewrite A8. apply bool_decide_eq_false_2. intros [Hr _]%A7. by apply (Hout x). }
    destruct (commit_run lg1 s _ _ _ _ _ Hlg1 ltac:(simpl; lia) Hq Hk Hp Hnp) as (s' & k' & p' & E & _ & Hp' & [Q1 Q2 Q3 Q4 Q5 Q6 Q7]).
    exists ((cleared lg1) <| committing := false |>, s'). split; [by apply Hrun|]. split.
    + split; cbn [fst snd]; try done.
      * destruct A2. split; simpl; try done; lia.
      * rewrite Q3, <- A3. exact (commit_header lg1 _ _ Hlg1).
      * intros x. rewrite Q4. destruct (p' x) eqn:Ep; [|done]. destruct (Hp' _ Ep) as [Hpx Hno].
        rewrite A8, bool_decide_eq_true in Hpx. apply recorded_elem in Hpx as (i & Hin & Hb); [|done]. by destruct (Hno i Hin).
    + intros x Hx. cbn [snd]. rewrite Q2. apply commit_view; [done | simpl; lia | by apply Hout].
Qed.

Instance op_transactions : Transactions (log * B) := {|
  tx_idle := idle; tx_begin := run_begin; tx_end := run_end;
  tx_begin_ok := run_begin_ok; tx_end_ok := run_end_ok
|}.
End txn.
