(* ===== verification/PipeTable.v ===== *)
(** * Pipes behind the file table

    The functions of pipe.c as one thread runs them to completion: the
    interface of the file layer, over the segments of the file on pipes. A
    call that goes to sleep never returns when no other thread runs. *)
From S2P Require Import Prelude Machine Monitor Pipe Bio FsBlock FsInode FsFile FsData FsTrunc FsCache File.

(** Pages that hold pipes; [None] is a free page. *)
Definition pipes : Type := list (option pipe).

Definition run_pipe (id : nat) (op : pipe_op) : M pipes pipe_res := λ ps,
  match ps !! id with
  | Some (Some p) =>
      match seg_end (pipe_segment op p) with
      | Returns r => Ok r (<[id := Some (seg_state (pipe_segment op p))]> ps)
      | _ => Hang
      end
  | _ => Panic "trap"
  end.

Fixpoint free_page (ps : pipes) (k : nat) : option nat :=
  match ps with
  | [] => None
  | None :: _ => Some k
  | Some _ :: ps' => free_page ps' (S k)
  end.

(** The page of [pipealloc], if there is one. *)
Definition pipe_page : M pipes (option nat) :=
  ps ← get;
  match free_page ps 0 with
  | None => mret None
  | Some k => put (<[k := Some (pipe_new (replicate (Z.to_nat PIPESIZE) 0))]> ps);; mret (Some k)
  end.

Definition close_pipe (id : nat) (writable : bool) : M pipes () :=
  r ← run_pipe id (OpClose writable);
  match r with
  | RClose true => modify (λ ps, <[id := None]> ps)
  | _ => mret ()
  end.

Definition read_pipe (id : nat) (n : Z) : M pipes (Z * list Z) :=
  r ← run_pipe id (OpRead false (Z.to_nat n));
  mret (match r with RRead x bs => (x, bs) | _ => (-1, []) end).

Definition write_pipe (id : nat) (src : list Z) : M pipes Z :=
  r ← run_pipe id (OpWrite false (Z.of_nat (length src)) src);
  mret (match r with RWrite x => x | _ => -1 end).

#[export] Instance pipe_table : PipeLayer pipes := {|
  pl_alloc := pipe_page; pl_close := close_pipe; pl_read := read_pipe; pl_write := write_pipe
|}.
