(* ===== verification/SysFile.v ===== *)
(** * System calls on files (sysfile.c)

    The handlers over the process table, the file table and the file system:
    argument checking, then calls into the layers below. A handler returns
    the value for [%eax]. *)
From stdpp Require Import functions.
From S2P Require Import Prelude Machine CString Proc Signal Syscall Bio.
From S2P Require Import FsBlock FsInode FsDinode FsFile FsData FsTrunc FsCache FsPath FsDir File.
Import KString.

Definition O_RDONLY : Z := 0.
Definition O_WRONLY : Z := 1.
Definition O_RDWR : Z := 2.
Definition O_CREATE : Z := 512.

(** [struct stat] in user memory: dev, ino, type, nlink, size. *)
Definition store_stat (m : mem) (a : Z) (st : Z * Z * Z * Z * Z) : mem :=
  let '(dev, ino, type, nlink, size) := st in
  let m := store16 m a type in
  let m := store32 m (a + 4) dev in
  let m := store32 m (a + 8) ino in
  let m := store16 m (a + 12) nlink in
  store32 m (a + 16) size.

Fixpoint free_fd (l : list (option nat)) (k : nat) : option nat :=
  match l with
  | [] => None
  | None :: _ => Some k
  | Some _ :: l' => free_fd l' (Datatypes.S k)
  end.

Section sysfile.
Context {S : Type} `{Transactions S}.
Context {P : Type} `{PipeLayer P}.
Variable sb : superblock.
Variable dev_read : Z → option (nat → Z → M (@fsys S) (Z * list Z)).
Variable dev_write : Z → option (nat → list Z → M (@fsys S) Z).

(** Processes and memory, and files. *)
Record sysst := Sysst { sy_k : kst; sy_f : @kfs S P }.

Definition onk {A} (m : M kst A) : M sysst A := λ '(Sysst k f),
  match m k with
  | Ok a k' => Ok a (Sysst k' f)
  | Panic e => Panic e
  | Hang => Hang
  end.

Definition onf {A} (m : M (@kfs S P) A) : M sysst A := λ '(Sysst k f),
  match m f with
  | Ok a f' => Ok a (Sysst k f')
  | Panic e => Panic e
  | Hang => Hang
  end.

Definition oni {A} (m : M (@fsys S) A) : M sysst A := onf (onfs m).

Notation "'try' x ← m ; k" := (r_ ← m; match r_ with None => mret (-1) | Some x => k end)
  (at level 20, x pattern, m at level 100, k at level 200, only parsing).

(** ** Descriptors *)

Definition argfd (n : Z) : M sysst (option (nat * nat)) :=
  ofd ← onk (argint n);
  match ofd with
  | None => mret None
  | Some fd =>
      p ← onk curproc;
      if (fd <? 0) || (Z.of_nat NOFILE <=? fd) then mret None
      else match ofile p !! Z.to_nat fd with
           | Some (Some f) => mret (Some (Z.to_nat fd, f))
           | _ => mret None
           end
  end.

Definition fdalloc (f : nat) : M sysst (option nat) :=
  p ← onk curproc;
  match free_fd (take NOFILE (ofile p)) 0 with
  | Some fd => onk (upd_cur (λ p, p <| ofile := <[fd := Some f]> (ofile p) |>));; mret (Some fd)
  | None => mret None
  end.

Definition clear_fd (fd : nat) : M sysst () := onk (upd_cur (λ p, p <| ofile := <[fd := None]> (ofile p) |>)).

Definition sys_dup : M sysst Z :=
  try (_, f) ← argfd 0;
  try fd ← fdalloc f;
  onf (filedup f);;
  mret (Z.of_nat fd).

Definition sys_read : M sysst Z :=
  try (_, f) ← argfd 0;
  try n ← onk (argint 2);
  try p ← onk (argptr 1 n);
  r ← onf (fileread sb dev_read f n);
  onk (modify (λ k, k <| ks_mem := put_bytes (ks_mem k) p r.2 |>));;
  mret r.1.

Definition sys_write : M sysst Z :=
  try (_, f) ← argfd 0;
  try n ← onk (argint 2);
  try p ← onk (argptr 1 n);
  m ← onk (gets ks_mem);
  onf (filewrite sb dev_write f (get_bytes m p (Z.to_nat n))).

Definition sys_close : M sysst Z :=
  try (fd, f) ← argfd 0;
  clear_fd fd;;
  onf (fileclose sb f);;
  mret 0.

Definition sys_fstat : M sysst Z :=
  try (_, f) ← argfd 0;
  try st ← onk (argptr 1 20);
  r ← onf (filestat sb f);
  match r with
  | None => mret (-1)
  | Some v => onk (modify (λ k, k <| ks_mem := store_stat (ks_mem k) st v |>));; mret 0
  end.

(** ** Paths *)

Definition begin_ : M sysst () := onf do_begin_op.
Definition end_ : M sysst () := onf do_end_op.

(** [argstr]: the bytes of the string. *)
Definition arg_path (n : Z) : M sysst (option (list Z)) :=
  r ← onk (argstr n);
  match r with
  | None => mret None
  | Some (a, len) => m ← onk (gets ks_mem); mret (Some (get_bytes m a (Z.to_nat len)))
  end.

Definition cwd_of : M sysst (option nat) := cwd <$> onk curproc.

(** The uninitialised [char name[DIRSIZ]] of a handler. *)
Variable name0 : list Z.

Definition sys_link : M sysst Z :=
  try old ← arg_path 0;
  try new ← arg_path 1;
  begin_;;
  c ← cwd_of;
  oip ← oni (namei sb dev_read c old name0);
  match oip with
  | None => end_;; mret (-1)
  | Some ip =>
      oni (ilock sb ip);;
      i ← oni (inode_at ip);
      if i_type i =? T_DIR then oni (iunlockput sb ip);; end_;; mret (-1)
      else
        oni (upd_inode ip (λ i, i <| i_nlink := s16 (i_nlink i + 1) |>));;
        oni (iupdate sb ip);;
        oni (iunlock ip);;
        let bad :=
          (oni (ilock sb ip);;
           oni (upd_inode ip (λ i, i <| i_nlink := s16 (i_nlink i - 1) |>));;
           oni (iupdate sb ip);;
           oni (iunlockput sb ip);;
           end_;;
           mret (-1)) in
        odp ← oni (nameiparent sb dev_read c new name0);
        match odp with
        | None => bad
        | Some (dp, name) =>
            oni (ilock sb dp);;
            d ← oni (inode_at dp);
            i ← oni (inode_at ip);
            r ← (if negb (i_dev d =? i_dev i) then mret (-1)
                 else oni (dirlink sb dev_read dev_write dp name (i_inum i)));
            if r <? 0 then oni (iunlockput sb dp);; bad
            else oni (iunlockput sb dp);; oni (iput sb ip);; end_;; mret 0
        end
  end.

Definition dot : list Z := [46].
Definition dotdot : list Z := [46; 46].

Definition sys_unlink : M sysst Z :=
  try path ← arg_path 0;
  begin_;;
  c ← cwd_of;
  odp ← oni (nameiparent sb dev_read c path name0);
  match odp with
  | None => end_;; mret (-1)
  | Some (dp, name) =>
      oni (ilock sb dp);;
      let bad := (oni (iunlockput sb dp);; end_;; mret (-1)) in
      if (namecmp name dot =? 0) || (namecmp name dotdot =? 0) then bad
      else
        oip ← oni (dirlookup sb dev_read dp name);
        match oip with
        | None => bad
        | Some (ip, off) =>
            oni (ilock sb ip);;
            i ← oni (inode_at ip);
            if i_nlink i <? 1 then onk (panic "unlink: nlink < 1")
            else
              empty ← (if i_type i =? T_DIR then oni (isdirempty sb dev_read ip) else mret true);
              if (i_type i =? T_DIR) && negb empty then oni (iunlockput sb ip);; bad
              else
                w ← oni (writei sb dev_write dp off (replicate (Z.to_nat DIRENT) 0));
                if negb (w =? DIRENT) then onk (panic "unlink: writei")
                else
                  (if i_type i =? T_DIR then
                     oni (upd_inode dp (λ d, d <| i_nlink := s16 (i_nlink d - 1) |>));; oni (iupdate sb dp)
                   else mret ());;
                  oni (iunlockput sb dp);;
                  oni (upd_inode ip (λ i, i <| i_nlink := s16 (i_nlink i - 1) |>));;
                  oni (iupdate sb ip);;
                  oni (iunlockput sb ip);;
                  end_;;
                  mret 0
        end
  end.

(** The inode of [path], locked; [None] for the null pointer. *)
Definition create (c : option nat) (path : list Z) (type major minor : Z) : M sysst (option nat) :=
  odp ← oni (nameiparent sb dev_read c path name0);
  match odp with
  | None => mret None
  | Some (dp, name) =>
      oni (ilock sb dp);;
      oip ← oni (dirlookup sb dev_read dp name);
      match oip with
      | Some (ip, _) =>
          oni (iunlockput sb dp);;
          oni (ilock sb ip);;
          i ← oni (inode_at ip);
          if (type =? T_FILE) && (i_type i =? T_FILE) then mret (Some ip)
          else oni (iunlockput sb ip);; mret None
      | None =>
          d ← oni (inode_at dp);
          ip ← oni (ialloc sb (i_dev d) type);
          oni (ilock sb ip);;
          oni (upd_inode ip (λ i, i <| i_major := s16 major |> <| i_minor := s16 minor |> <| i_nlink := 1 |>));;
          oni (iupdate sb ip);;
          i ← oni (inode_at ip);
          (if type =? T_DIR then
             oni (upd_inode dp (λ d, d <| i_nlink := s16 (i_nlink d + 1) |>));;
             oni (iupdate sb dp);;
             r1 ← oni (dirlink sb dev_read dev_write ip dot (i_inum i));
             if r1 <? 0 then onk (panic "create dots")
             else
               r2 ← oni (dirlink sb dev_read dev_write ip dotdot (i_inum d));
               if r2 <? 0 then onk (panic "create dots") else mret ()
           else mret ());;
          r ← oni (dirlink sb dev_read dev_write dp name (i_inum i));
          if r <? 0 then onk (panic "create: dirlink")
          else oni (iunlockput sb dp);; mret (Some ip)
      end
  end.

Definition sys_open : M sysst Z :=
  try path ← arg_path 0;
  try omode ← onk (argint 1);
  begin_;;
  c ← cwd_of;
  oip ← (if truthy (Z.land omode O_CREATE) then create c path T_FILE 0 0
         else
           oip ← oni (namei sb dev_read c path name0);
           match oip with
           | None => mret None
           | Some ip =>
               oni (ilock sb ip);;
               i ← oni (inode_at ip);
               if (i_type i =? T_DIR) && negb (omode =? O_RDONLY) then oni (iunlockput sb ip);; mret None
               else mret (Some ip)
           end);
  match oip with
  | None => end_;; mret (-1)
  | Some ip =>
      let bad := (oni (iunlockput sb ip);; end_;; mret (-1)) in
      ofl ← onf filealloc;
      match ofl with
      | None => bad
      | Some f =>
          ofd ← fdalloc f;
          match ofd with
          | None => onf (fileclose sb f);; bad
          | Some fd =>
              oni (iunlock ip);;
              end_;;
              onf (upd_file f (λ x, x <| f_type := FD_INODE |> <| f_ip := ip |> <| f_off := 0 |>
                <| f_readable := negb (truthy (Z.land omode O_WRONLY)) |>
                <| f_writable := truthy (Z.land omode O_WRONLY) || truthy (Z.land omode O_RDWR) |>));;
              mret (Z.of_nat fd)
          end
      end
  end.

Definition sys_mkdir : M sysst Z :=
  begin_;;
  opath ← arg_path 0;
  oip ← match opath with
        | None => mret None
        | Some path => c ← cwd_of; create c path T_DIR 0 0
        end;
  match oip with
  | None => end_;; mret (-1)
  | Some ip => oni (iunlockput sb ip);; end_;; mret 0
  end.

Definition sys_mknod : M sysst Z :=
  begin_;;
  opath ← arg_path 0;
  oip ← match opath with
        | None => mret None
        | Some path =>
            omajor ← onk (argint 1);
            match omajor with
            | None => mret None
            | Some major =>
                ominor ← onk (argint 2);
                match ominor with
                | None => mret None
                | Some minor => c ← cwd_of; create c path T_DEV (s16 major) (s16 minor)
                end
            end
        end;
  match oip with
  | None => end_;; mret (-1)
  | Some ip => oni (iunlockput sb ip);; end_;; mret 0
  end.

Definition sys_chdir : M sysst Z :=
  begin_;;
  opath ← arg_path 0;
  oip ← match opath with
        | None => mret None
        | Some path => c ← cwd_of; oni (namei sb dev_read c path name0)
        end;
  match oip with
  | None => end_;; mret (-1)
  | Some ip =>
      oni (ilock sb ip);;
      i ← oni (inode_at ip);
      if negb (i_type i =? T_DIR) then oni (iunlockput sb ip);; end_;; mret (-1)
      else
        oni (iunlock ip);;
        oc ← cwd_of;
        match oc with Some c => oni (iput sb c) | None => onk fault end;;
        end_;;
        onk (upd_cur (λ p, p <| cwd := Some ip |>));;
        mret 0
  end.

(** [exec] of exec.c: path and arguments. *)
Variable exec : list Z → list (list Z) → M sysst Z.

(** The loop of [sys_exec] from argument [i] on; [None] for -1. *)
Fixpoint exec_args (fuel : nat) (uargv i : Z) : M sysst (option (list (list Z))) :=
  match fuel with
  | O => mret None
  | Datatypes.S fuel' =>
      ouarg ← onk (fetchint (u32 (uargv + 4 * i)));
      match ouarg with
      | None => mret None
      | Some uarg =>
          if uarg =? 0 then mret (Some [])
          else
            os ← onk (fetchstr (u32 uarg));
            match os with
            | None => mret None
            | Some (a, len) =>
                m ← onk (gets ks_mem);
                rest ← exec_args fuel' uargv (i + 1);
                mret (cons (get_bytes m a (Z.to_nat len)) <$> rest)
            end
      end
  end.

Definition sys_exec : M sysst Z :=
  try path ← arg_path 0;
  try uargv ← onk (argint 1);
  try argv ← exec_args MAXARG (u32 uargv) 0;
  exec path argv.

Definition sys_pipe : M sysst Z :=
  try fd ← onk (argptr 0 8);
  try (rf, wf) ← onf (pipealloc sb);
  ofd0 ← fdalloc rf;
  match ofd0 with
  | None => onf (fileclose sb rf);; onf (fileclose sb wf);; mret (-1)
  | Some fd0 =>
      ofd1 ← fdalloc wf;
      match ofd1 with
      | None => clear_fd fd0;; onf (fileclose sb rf);; onf (fileclose sb wf);; mret (-1)
      | Some fd1 =>
          onk (modify (λ k, k <| ks_mem := store32 (store32 (ks_mem k) fd (Z.of_nat fd0)) (fd + 4) (Z.of_nat fd1) |>));;
          mret 0
      end
  end.
End sysfile.
