(* ===== verification/SysFileSpec.v ===== *)
(** * Descriptors and references

    The reference count of an open file is the number of descriptors that
    refer to it, and the calls that make and drop descriptors keep it so. *)
From stdpp Require Import functions.
From S2P Require Import Prelude Machine CString Proc Signal Syscall Bio.
From S2P Require Import FsBlock FsInode FsDinode FsFile FsData FsTrunc FsCache FsPath FsDir File SysFile.
Import KString.

(** The number of descriptors of a process, and of all, that refer to [f]. *)
Fixpoint count_fds (l : list (option nat)) (f : nat) : Z :=
  match l with
  | [] => 0
  | Some g :: l' => (if decide (g = f) then 1 else 0) + count_fds l' f
  | None :: l' => count_fds l' f
  end.

Fixpoint fd_refs (ps : list proc) (f : nat) : Z :=
  match ps with
  | [] => 0
  | p :: ps' => count_fds (ofile p) f + fd_refs ps' f
  end.

Definition fd_is (o : option nat) (f : nat) : Z :=
  match o with Some g => if decide (g = f) then 1 else 0 | None => 0 end.

Lemma count_fds_nonneg l f : 0 ≤ count_fds l f.
Proof. induction l as [|[g|] l IH]; simpl; [done | case_decide; lia | done]. Qed.

Lemma fd_refs_nonneg ps f : 0 ≤ fd_refs ps f.
Proof. induction ps as [|p ps IH]; simpl; [done|]. pose proof (count_fds_nonneg (ofile p) f). lia. Qed.

Lemma count_fds_insert l : ∀ k o o' f, l !! k = Some o →
  count_fds (<[k := o']> l) f = count_fds l f - fd_is o f + fd_is o' f.
Proof.
  induction l as [|x l IH]; intros [|k] o o' f Hk; [done | done | |].
  - injection Hk as ->. unfold fd_is. cbn. destruct o, o'; lia.
  - change (<[S k := o']> (x :: l)) with (x :: <[k := o']> l). cbn [count_fds].
    rewrite (IH k o o' f) by exact Hk. destruct x; lia.
Qed.

Lemma fd_refs_insert ps : ∀ k p p' f, ps !! k = Some p →
  fd_refs (<[k := p']> ps) f = fd_refs ps f - count_fds (ofile p) f + count_fds (ofile p') f.
Proof.
  induction ps as [|q ps IH]; intros [|k] p p' f Hk; [done | done | |].
  - injection Hk as ->. cbn. lia.
  - change (<[S k := p']> (q :: ps)) with (q :: <[k := p']> ps). cbn [fd_refs].
    rewrite (IH k p p' f) by exact Hk. lia.
Qed.

Lemma count_fds_pos l k f : l !! k = Some (Some f) → 1 ≤ count_fds l f.
Proof.
  revert k. induction l as [|x l IH]; intros [|k] Hk; [done | done | |].
  - injection Hk as ->. simpl. rewrite decide_True by done. pose proof (count_fds_nonneg l f). lia.
  - pose proof (IH k Hk). destruct x; simpl; [case_decide|]; lia.
Qed.

Lemma fd_refs_pos ps i p k f : ps !! i = Some p → ofile p !! k = Some (Some f) → 1 ≤ fd_refs ps f.
Proof.
  revert i. induction ps as [|q ps IH]; intros [|i] Hi Hk; [done | done | |].
  - injection Hi as ->. simpl. pose proof (count_fds_pos _ _ _ Hk). pose proof (fd_refs_nonneg ps f). lia.
  - simpl. pose proof (IH i Hi Hk). pose proof (count_fds_nonneg (ofile q) f). lia.
Qed.

Lemma alter_none {A} (g : A → A) (l : list A) : ∀ k, l !! k = None → alter g k l = l.
Proof.
  induction l as [|x l IH]; intros [|k] Hk; try done. change (alter g (S k) (x :: l)) with (x :: alter g k l).
  by rewrite IH.
Qed.

Lemma free_fd_spec l : ∀ k r, free_fd l k = Some r → ∃ j, r = (k + j)%nat ∧ l !! j = Some None.
Proof.
  induction l as [|[g|] l IH]; intros k r; simpl; [done | |].
  - intros (j & -> & Hj)%IH. exists (S j). split; [lia | done].
  - intros [= <-]. exists 0%nat. split; [lia | done].
Qed.

Section spec.
Context {S : Type} `{Transactions S}.
Context {P : Type} `{PipeLayer P}.
Variable sb : superblock.
Notation sysst := (@sysst S P).
Notation kfs := (@kfs S P).

(** Every reference to an open file is a descriptor, [extra f] of them
    still to be made. *)
Definition refs_ok (ps : list proc) (fl : list file) (extra : nat → Z) : Prop :=
  (∀ f x, fl !! f = Some x → f_ref x = fd_refs ps f + extra f) ∧
  (∀ f, 0 < fd_refs ps f + extra f → is_Some (fl !! f)).

Definition none : nat → Z := λ _, 0.
Definition one (f : nat) : nat → Z := λ g, if decide (f = g) then 1 else 0.

(** The invariant of the descriptor tables and the file table. *)
Definition fds_ok (st : sysst) : Prop := refs_ok (procs (sy_k st)) (k_files (sy_f st)) none.

(** ** Steps *)

Lemma refs_ok_ext ps fl e e' : (∀ f, e f = e' f) → refs_ok ps fl e → refs_ok ps fl e'.
Proof. intros He [A B]. split; [intros f x Hx; rewrite <- He; auto | intros f; rewrite <- He; auto]. Qed.

(** Changing one count together with what is owed. *)
Lemma refs_ok_file ps fl e e' f x x' :
  refs_ok ps fl e → fl !! f = Some x → e' f = e f + (f_ref x' - f_ref x) → (∀ g, g ≠ f → e' g = e g) →
  refs_ok ps (<[f := x']> fl) e'.
Proof.
  intros [A B] Hx Hf Hg. pose proof (lookup_lt_Some _ _ _ Hx) as Hlt. split.
  - intros g y Hy. destruct (decide (g = f)) as [->|Hne].
    + rewrite list_lookup_insert_eq in Hy by done. injection Hy as <-. rewrite Hf. pose proof (A _ _ Hx). lia.
    + rewrite list_lookup_insert_ne in Hy by done. rewrite Hg by done. auto.
  - intros g Hpos. destruct (decide (g = f)) as [->|Hne].
    + rewrite list_lookup_insert_eq by done. done.
    + rewrite list_lookup_insert_ne by done. apply B. by rewrite <- Hg.
Qed.

(** Changing one descriptor together with what is owed. *)
Lemma refs_ok_fd ps fl e e' i p fd o o' :
  refs_ok ps fl e → ps !! i = Some p → ofile p !! fd = Some o →
  (∀ g, e' g = e g + fd_is o g - fd_is o' g) →
  refs_ok (<[i := p <| ofile := <[fd := o']> (ofile p) |>]> ps) fl e'.
Proof.
  intros [A B] Hp Hfd He.
  assert (∀ g, fd_refs (<[i := p <| ofile := <[fd := o']> (ofile p) |>]> ps) g + e' g = fd_refs ps g + e g) as E.
  { intros g. rewrite (fd_refs_insert _ _ p) by done. simpl. rewrite (count_fds_insert _ _ o) by done. rewrite He. lia. }
  split; intros g; [intros x Hx|]; rewrite E; auto.
Qed.

(** ** Inversion of runs *)

Lemma onk_inv {A} (m : M kst A) k (f : kfs) a st' :
  onk m (Sysst k f) = Ok a st' → ∃ k', m k = Ok a k' ∧ st' = Sysst k' f.
Proof. unfold onk. destruct (m k) as [b k'|e|]; [intros [= -> <-]; eauto | done | done]. Qed.

Lemma onf_inv {A} (m : M kfs A) k (f : kfs) a st' :
  onf m (Sysst k f) = Ok a st' → ∃ f', m f = Ok a f' ∧ st' = Sysst k f'.
Proof. unfold onf. destruct (m f) as [b f'|e|]; [intros [= -> <-]; eauto | done | done]. Qed.

Lemma onfs_files {A} (m : M (@fsys S) A) (k k' : kfs) a : onfs m k = Ok a k' → k_files k' = k_files k.
Proof. unfold onfs. destruct (m (k_fs k)); [by intros [= _ <-] | done | done]. Qed.

Lemma onpipe_files {A} (m : M P A) (k k' : kfs) a : onpipe m k = Ok a k' → k_files k' = k_files k.
Proof. unfold onpipe. destruct (m (k_pipes k)); [by intros [= _ <-] | done | done]. Qed.

Lemma curproc_inv k p k' : curproc k = Ok p k' → k' = k ∧ ∃ i, running k i p.
Proof.
  unfold curproc, myproc, running. rewrite bind_gets. destruct (cur k) as [i|]; [|done].
  unfold proc_at. rewrite bind_get. destruct (procs k !! i) as [q|] eqn:E; [|done]. intros [= <- <-]. eauto.
Qed.

Lemma upd_cur_inv g k k' a : upd_cur g k = Ok a k' → ∃ i, cur k = Some i ∧ k' = k <| procs := alter g i (procs k) |>.
Proof.
  unfold upd_cur, myproc. rewrite bind_gets. destruct (cur k) as [i|]; [|done]. intros [= _ <-]. eauto.
Qed.

Lemma fetchint_inv a k r k' : fetchint a k = Ok r k' → k' = k.
Proof.
  unfold fetchint. intros (p & k1 & [-> _]%curproc_inv & E)%bind_inv. revert E. case_match; [by intros [= _ <-]|].
  rewrite bind_gets. by intros [= _ <-].
Qed.

Lemma argint_inv n k r k' : argint n k = Ok r k' → k' = k.
Proof. unfold argint. intros (p & k1 & [-> _]%curproc_inv & E%fetchint_inv)%bind_inv. done. Qed.

Lemma argptr_inv n size k r k' : argptr n size k = Ok r k' → k' = k.
Proof.
  unfold argptr. intros (p & k1 & [-> _]%curproc_inv & E)%bind_inv. apply bind_inv in E as (oi & k2 & ->%argint_inv & E).
  destruct oi; [|by injection E]. revert E. case_match; by intros [= _ <-].
Qed.

Lemma argfd_inv n k (f : kfs) r st' :
  argfd n (Sysst k f) = Ok r st' →
  st' = Sysst k f ∧ ∀ fd x, r = Some (fd, x) → ∃ i p, running k i p ∧ ofile p !! fd = Some (Some x).
Proof.
  unfold argfd. intros (ofd & st1 & (k1 & ->%argint_inv & ->)%onk_inv & E)%bind_inv.
  destruct ofd as [fd|]; [|by injection E as <- <-].
  apply bind_inv in E as (p & st2 & (k2 & [-> (i & Hrun)]%curproc_inv & ->)%onk_inv & E).
  revert E. case_match; [by intros [= <- <-]|]. destruct (ofile p !! Z.to_nat fd) as [[x|]|] eqn:Ef; intros [= <- <-]; split; try done.
  intros fd' x' [= <- <-]. eauto.
Qed.

Lemma fdalloc_inv x k (f : kfs) r st' :
  fdalloc x (Sysst k f) = Ok r st' →
  (r = None ∧ st' = Sysst k f) ∨
  ∃ fd i p, r = Some fd ∧ running k i p ∧ ofile p !! fd = Some None ∧
    st' = Sysst (with_proc k i (p <| ofile := <[fd := Some x]> (ofile p) |>)) f.
Proof.
  unfold fdalloc. intros (p & st1 & (k1 & [-> (i & Hrun)]%curproc_inv & ->)%onk_inv & E)%bind_inv.
  destruct (free_fd (take NOFILE (ofile p)) 0) as [fd|] eqn:Efd; [|injection E as <- <-; by left].
  apply bind_inv in E as (a & st2 & (k2 & E2 & ->)%onk_inv & E). injection E as <- <-. right.
  apply free_fd_spec in Efd as (j & -> & Hj). exists j, i, p. split; [done|]. split; [done|].
  split; [by apply lookup_take_Some in Hj as [? _]|]. f_equal.
  rewrite (upd_cur_ok k i p Hrun) in E2. by injection E2.
Qed.

Lemma clear_fd_inv fd k (f : kfs) i p a st' :
  running k i p → clear_fd fd (Sysst k f) = Ok a st' →
  st' = Sysst (with_proc k i (p <| ofile := <[fd := None]> (ofile p) |>)) f.
Proof.
  intros Hrun (k' & E & ->)%onk_inv. f_equal. rewrite (upd_cur_ok k i p Hrun) in E. by injection E.
Qed.

Lemma file_at_inv f (k k' : kfs) x : file_at f k = Ok x k' → k' = k ∧ k_files k !! f = Some x.
Proof. unfold file_at. destruct (k_files k !! f); [by intros [= <- <-] | done]. Qed.

Lemma upd_file_inv f g (k k' : kfs) x a :
  k_files k !! f = Some x → upd_file f g k = Ok a k' → k_files k' = <[f := g x]> (k_files k).
Proof. intros Hx [= _ <-]. simpl. by apply alter_insert_list. Qed.

(** ** The operations *)

Definition plus (e : nat → Z) (f : nat) : nat → Z := λ g, e g + one f g.
Definition minus (e : nat → Z) (f : nat) : nat → Z := λ g, e g - one f g.

Lemma refs_ok_step ps fl e e' f x x' :
  refs_ok ps fl e → fl !! f = Some x → (∀ g, e' g = e g + (f_ref x' - f_ref x) * one f g) → refs_ok ps (<[f := x']> fl) e'.
Proof.
  intros Hr Hx He. apply (refs_ok_file ps fl e e' f x); try done; intros; rewrite He; unfold one.
  - rewrite decide_True by done. lia.
  - rewrite decide_False by done. lia.
Qed.

Lemma filedup_refs ps e f (k k' : kfs) r :
  refs_ok ps (k_files k) e → filedup f k = Ok r k' → refs_ok ps (k_files k') (plus e f).
Proof.
  intros Hr (x & k1 & [-> Hx]%file_at_inv & E)%bind_inv. revert E. case_match; [done|].
  intros (a & k1 & E1 & E2)%bind_inv. injection E2 as _ <-. rewrite (upd_file_inv f _ _ _ x _ Hx E1).
  apply (refs_ok_step ps _ e _ f x); [done | done |]. intros g. unfold plus. simpl. lia.
Qed.

Lemma free_file_spec l : ∀ k r, free_file l k = Some r → ∃ j x, r = (k + j)%nat ∧ l !! j = Some x ∧ f_ref x = 0.
Proof.
  induction l as [|x l IH]; intros k r; simpl; [done|]. destruct (Z.eqb_spec (f_ref x) 0).
  - intros [= <-]. exists 0%nat, x. split; [lia | done].
  - intros (j & y & -> & Hj)%IH. exists (Datatypes.S j), y. split; [lia | done].
Qed.

Lemma filealloc_refs ps e (k k' : kfs) r :
  refs_ok ps (k_files k) e → filealloc k = Ok r k' →
  match r with
  | None => k_files k' = k_files k
  | Some f => refs_ok ps (k_files k') (plus e f)
  end.
Proof.
  intros Hr. unfold filealloc. rewrite bind_gets. destruct (free_file (k_files k) 0) as [f|] eqn:Ef; [|by intros [= <- <-]].
  intros (a & k1 & E1 & E2)%bind_inv. injection E2 as <- <-. apply free_file_spec in Ef as (j & x & -> & Hx & Hz).
  rewrite (upd_file_inv _ _ _ _ x _ Hx E1). apply (refs_ok_step ps _ e _ _ x); [done | done |].
  intros g. unfold plus. simpl. rewrite Hz. lia.
Qed.

Lemma fileclose_files f (k k' : kfs) a :
  fileclose sb f k = Ok a k' →
  ∃ x x', k_files k !! f = Some x ∧ 1 ≤ f_ref x ∧ f_ref x' = f_ref x - 1 ∧ k_files k' = <[f := x']> (k_files k).
Proof.
  intros (x & k1 & [-> Hx]%file_at_inv & E)%bind_inv. revert E. destruct (Z.ltb_spec (f_ref x) 1) as [|Hpos]; [done|].
  intros (u & k1 & E1 & E)%bind_inv. pose proof (upd_file_inv _ _ _ _ x _ Hx E1) as F1.
  pose proof (lookup_lt_Some _ _ _ Hx) as Hlt. exists x. revert E. destruct (Z.ltb_spec 0 (f_ref x - 1)) as [Hgt|Hle].
  { intros [= _ <-]. eexists. split; [done|]. split; [done|]. split; [|exact F1]. done. }
  intros (ff & k2 & [-> Hff]%file_at_inv & E)%bind_inv. apply bind_inv in E as (u2 & k2 & E2 & E).
  pose proof (upd_file_inv _ _ _ _ ff _ Hff E2) as F2. rewrite F1, list_insert_insert_eq in F2.
  exists (ff <| f_ref := 0 |> <| f_type := FD_NONE |>). split; [done|]. split; [done|]. split; [simpl; lia|].
  rewrite <- F2. destruct (f_type ff); [by injection E as _ <- | by eapply onpipe_files|].
  apply bind_inv in E as (u3 & k3 & E3%onfs_files & E). apply bind_inv in E as (u4 & k4 & E4%onfs_files & E5%onfs_files). congruence.
Qed.

Lemma fileclose_refs ps e f (k k' : kfs) a :
  refs_ok ps (k_files k) e → fileclose sb f k = Ok a k' → refs_ok ps (k_files k') (minus e f).
Proof.
  intros Hr (x & x' & Hx & _ & Hr' & ->)%fileclose_files. apply (refs_ok_step ps _ e _ f x); [done | done |].
  intros g. unfold minus. rewrite Hr'. lia.
Qed.

Lemma pipealloc_refs ps e (k k' : kfs) r :
  refs_ok ps (k_files k) e → pipealloc sb k = Ok r k' →
  refs_ok ps (k_files k') (match r with None => e | Some (f0, f1) => plus (plus e f0) f1 end).
Proof.
  intros Hr (r0 & k0 & E0 & E)%bind_inv. pose proof (filealloc_refs _ _ _ _ _ Hr E0) as R0.
  destruct r0 as [f0|]; [|injection E as <- <-; by rewrite R0].
  apply bind_inv in E as (r1 & k1 & E1 & E). pose proof (filealloc_refs _ _ _ _ _ R0 E1) as R1.
  destruct r1 as [f1|].
  - apply bind_inv in E as (rp & k2 & E2%onpipe_files & E). rewrite <- E2 in R1. destruct rp as [p|].
    + apply bind_inv in E as (u3 & k3 & E3 & E). apply bind_inv in E as (u4 & k4 & E4 & E). injection E as <- <-.
      assert (∀ f g (k k' : kfs) u e, (∀ x, f_ref (g x) = f_ref x) → refs_ok ps (k_files k) e → upd_file f g k = Ok u k' →
        refs_ok ps (k_files k') e) as Hupd.
      { intros f g ka kb u e0 Hg Hra Eu. destruct (k_files ka !! f) as [x|] eqn:Ex.
        - rewrite (upd_file_inv _ _ _ _ x _ Ex Eu). apply (refs_ok_step ps _ e0 _ f x); [done | done |]. intros h. rewrite Hg. lia.
        - injection Eu as _ <-. simpl. by rewrite alter_none. }
      eapply Hupd; [|eapply Hupd; [|exact R1|exact E3]|exact E4]; done.
    + apply bind_inv in E as (u3 & k3 & E3 & E). apply bind_inv in E as (u4 & k4 & E4 & E). injection E as <- <-.
      pose proof (fileclose_refs _ _ _ _ _ _ R1 E3) as R3. pose proof (fileclose_refs _ _ _ _ _ _ R3 E4) as R4.
      eapply refs_ok_ext; [|exact R4]. intros g. unfold minus, plus. lia.
  - rewrite <- R1 in R0. apply bind_inv in E as (u3 & k3 & E3 & E). injection E as <- <-.
    pose proof (fileclose_refs _ _ _ _ _ _ R0 E3) as R3. eapply refs_ok_ext; [|exact R3]. intros g. unfold minus, plus. lia.
Qed.

(** The step of [fdalloc], and of clearing a descriptor. *)
Lemma fdalloc_refs e x k (f : kfs) fd st' :
  refs_ok (procs k) (k_files f) e → fdalloc x (Sysst k f) = Ok (Some fd) st' →
  ∃ k', st' = Sysst k' f ∧ refs_ok (procs k') (k_files f) (minus e x) ∧
    ∃ i p, running k' i p ∧ ofile p !! fd = Some (Some x).
Proof.
  intros Hr [[? _]|(fd' & i & p & [= <-] & Hrun & Hfd & ->)]%fdalloc_inv; [done|]. eexists. split; [done|].
  pose proof (running_with k i p Hrun (p <| ofile := <[fd := Some x]> (ofile p) |>)) as Hrun'. split.
  - apply (refs_ok_fd _ _ e _ i p fd None (Some x)); [done | apply Hrun | done |]. intros g. unfold minus, one, fd_is. lia.
  - exists i, (p <| ofile := <[fd := Some x]> (ofile p) |>). split; [done|]. simpl. apply list_lookup_insert_eq. by eapply lookup_lt_Some.
Qed.

Lemma clear_fd_refs e fd x k (f : kfs) i p a st' :
  refs_ok (procs k) (k_files f) e → running k i p → ofile p !! fd = Some (Some x) → clear_fd fd (Sysst k f) = Ok a st' →
  ∃ k', st' = Sysst k' f ∧ refs_ok (procs k') (k_files f) (plus e x).
Proof.
  intros Hr Hrun Hfd ->%(clear_fd_inv _ _ _ _ _ _ _ Hrun). eexists. split; [done|].
  apply (refs_ok_fd _ _ e _ i p fd (Some x) None); [done | apply Hrun | done |]. intros g. unfold plus, one, fd_is. lia.
Qed.

Lemma sys_dup_refs st r st' : fds_ok st → sys_dup st = Ok r st' → fds_ok st'.
Proof.
  destruct st as [k f]. intros Hr (o & st1 & [-> _]%argfd_inv & E)%bind_inv. destruct o as [[fd0 x]|]; [|by injection E as _ <-].
  apply bind_inv in E as (o & st2 & E2 & E). destruct o as [fd|]; [|by apply fdalloc_inv in E2 as [[_ ->]|(? & ? & ? & [=] & _)]; injection E as _ <-].
  destruct (fdalloc_refs none x k f fd st2 Hr E2) as (k' & -> & Hr2 & _).
  apply bind_inv in E as (u & st3 & (f' & E3 & ->)%onf_inv & E). injection E as _ <-.
  eapply refs_ok_ext; [|eapply filedup_refs; [exact Hr2 | exact E3]]. intros g. unfold plus, minus. lia.
Qed.

Lemma sys_close_refs st r st' : fds_ok st → sys_close sb st = Ok r st' → fds_ok st'.
Proof.
  destruct st as [k f]. intros Hr (o & st1 & [-> Hfd]%argfd_inv & E)%bind_inv. destruct o as [[fd x]|]; [|by injection E as _ <-].
  destruct (Hfd fd x eq_refl) as (i & p & Hrun & Hx).
  apply bind_inv in E as (u & st2 & E2 & E). destruct (clear_fd_refs none fd x k f i p u st2 Hr Hrun Hx E2) as (k' & -> & Hr2).
  apply bind_inv in E as (u3 & st3 & (f' & E3 & ->)%onf_inv & E). injection E as _ <-.
  eapply refs_ok_ext; [|eapply fileclose_refs; [exact Hr2 | exact E3]]. intros g. unfold plus, minus. lia.
Qed.

Lemma close_both k e x y (f : kfs) a b st1 st2 :
  refs_ok (procs k) (k_files f) e → onf (fileclose sb x) (Sysst k f) = Ok a st1 → onf (fileclose sb y) st1 = Ok b st2 →
  ∃ f', st2 = Sysst k f' ∧ refs_ok (procs k) (k_files f') (minus (minus e x) y).
Proof.
  intros Hr (f1 & E1 & ->)%onf_inv (f2 & E2 & ->)%onf_inv. exists f2. split; [done|].
  eapply fileclose_refs; [|exact E2]. by eapply fileclose_refs.
Qed.

Lemma sys_pipe_refs st r st' : fds_ok st → sys_pipe sb st = Ok r st' → fds_ok st'.
Proof.
  destruct st as [k f]. intros Hr (o & st1 & (k1 & ->%argptr_inv & ->)%onk_inv & E)%bind_inv.
  destruct o as [a|]; [|by injection E as _ <-].
  apply bind_inv in E as (o & st2 & (f2 & E2 & ->)%onf_inv & E). pose proof (pipealloc_refs _ _ _ _ _ Hr E2) as R2.
  destruct o as [[rf wf]|]; [|injection E as _ <-; exact R2].
  apply bind_inv in E as (o & st3 & E3 & E). destruct o as [fd0|].
  - destruct (fdalloc_refs _ rf k f2 fd0 st3 R2 E3) as (k3 & -> & R3 & (i & p & Hrun & Hp)).
    apply bind_inv in E as (o & st4 & E4 & E). destruct o as [fd1|].
    + destruct (fdalloc_refs _ wf k3 f2 fd1 st4 R3 E4) as (k4 & -> & R4 & _).
      apply bind_inv in E as (u & st5 & (k5 & [= _ <-] & ->)%onk_inv & E). injection E as _ <-.
      eapply refs_ok_ext; [|exact R4]. intros g. unfold plus, minus. lia.
    + apply fdalloc_inv in E4 as [[_ ->]|(? & ? & ? & [=] & _)].
      apply bind_inv in E as (u & st5 & E5 & E). destruct (clear_fd_refs _ fd0 rf k3 f2 i p u st5 R3 Hrun Hp E5) as (k5 & -> & R5).
      apply bind_inv in E as (u6 & st6 & E6 & E). apply bind_inv in E as (u7 & st7 & E7 & E).
      destruct (close_both _ _ _ _ _ _ _ _ _ R5 E6 E7) as (f7 & -> & R7). injection E as _ <-.
      eapply refs_ok_ext; [|exact R7]. intros g. unfold plus, minus. lia.
  - apply fdalloc_inv in E3 as [[_ ->]|(? & ? & ? & [=] & _)].
    apply bind_inv in E as (u6 & st6 & E6 & E). apply bind_inv in E as (u7 & st7 & E7 & E).
    destruct (close_both _ _ _ _ _ _ _ _ _ R2 E6 E7) as (f7 & -> & R7). injection E as _ <-.
    eapply refs_ok_ext; [|exact R7]. intros g. unfold plus, minus. lia.
Qed.

(** ** Runs *)

(** What [argfd] finds: the descriptor and the open file. *)
Definition fd_arg (k : kst) (p : proc) (n : Z) : option (nat * nat) :=
  let a := u32 (tf_esp (tf p) + 4 + 4 * n) in
  let fd := s32 (load32 (ks_mem k) a) in
  if (a + 4 <=? sz p) && (0 <=? fd) && (fd <? Z.of_nat NOFILE) then
    f ← mjoin (ofile p !! Z.to_nat fd); Some (Z.to_nat fd, f)
  else None.

Lemma argfd_run k (f : kfs) i p n :
  running k i p → user_size p → argfd n (Sysst k f) = Ok (fd_arg k p n) (Sysst k f).
Proof.
  intros Hr Hsz. unfold argfd, fd_arg, mbind, M_bind. unfold onk at 1. rewrite (argint_run k i p n Hr Hsz). cbv zeta.
  destruct (Z.leb_spec (u32 (tf_esp (tf p) + 4 + 4 * n) + 4) (sz p)); cbn [andb]; [|done].
  unfold onk. rewrite (curproc_ok k i p Hr). set (fd := s32 _).
  destruct (Z.ltb_spec fd 0), (Z.leb_spec 0 fd), (Z.leb_spec (Z.of_nat NOFILE) fd), (Z.ltb_spec fd (Z.of_nat NOFILE));
    try lia; cbn [orb andb]; try done.
  by destruct (ofile p !! Z.to_nat fd) as [[x|]|].
Qed.

Lemma fd_arg_open k p n fd x : fd_arg k p n = Some (fd, x) → ofile p !! fd = Some (Some x).
Proof.
  unfold fd_arg. case_match; [|done]. destruct (ofile p !! Z.to_nat _) as [[y|]|] eqn:E; try done. by intros [= <- <-].
Qed.

(** A file that a descriptor refers to. *)
Lemma open_counted k (f : kfs) i p fd x :
  fds_ok (Sysst k f) → running k i p → ofile p !! fd = Some (Some x) →
  ∃ y, k_files f !! x = Some y ∧ f_ref y = fd_refs (procs k) x ∧ 1 ≤ f_ref y.
Proof.
  intros [A B] [_ Hp] Hfd. pose proof (fd_refs_pos _ _ _ _ _ Hp Hfd) as Hpos. unfold none in *. simpl in *.
  destruct (B x ltac:(lia)) as [y Hy]. exists y. pose proof (A _ _ Hy). split; [done | lia].
Qed.

(** The kernel after [o] was put into slot [fd] of the running process, and
    file [x] changed by [g]. *)
Definition with_fd (k : kst) (f : kfs) (i : nat) (p : proc) (fd : nat) (o : option nat) (x : nat) (g : file → file) : sysst :=
  Sysst (with_proc k i (p <| ofile := <[fd := o]> (ofile p) |>)) (Kfs (k_fs f) (alter g x (k_files f)) (k_pipes f)).

Lemma sys_dup_run k (f : kfs) i p :
  fds_ok (Sysst k f) → running k i p → user_size p →
  sys_dup (Sysst k f) =
    match fd_arg k p 0, free_fd (take NOFILE (ofile p)) 0 with
    | Some (_, x), Some fd => Ok (Z.of_nat fd) (with_fd k f i p fd (Some x) x (λ y, y <| f_ref := f_ref y + 1 |>))
    | _, _ => Ok (-1) (Sysst k f)
    end.
Proof.
  intros Hok Hr Hsz. unfold sys_dup. rewrite (bind_ok _ _ _ _ _ (argfd_run k f i p 0 Hr Hsz)).
  destruct (fd_arg k p 0) as [[fd0 x]|] eqn:Efd; [|done].
  destruct (open_counted k f i p fd0 x Hok Hr (fd_arg_open _ _ _ _ _ Efd)) as (y & Hy & _ & Hpos).
  unfold fdalloc, mbind, M_bind. unfold onk at 1. rewrite (curproc_ok k i p Hr).
  destruct (free_fd _ 0) as [fd|]; [|done]. unfold onk. rewrite (upd_cur_ok k i p Hr).
  unfold onf, filedup, mbind, M_bind, file_at. simpl. rewrite Hy.
  rewrite (proj2 (Z.ltb_ge (f_ref y) 1)) by lia. done.
Qed.

Lemma sys_close_shared k (f : kfs) i p fd x y :
  running k i p → user_size p → fd_arg k p 0 = Some (fd, x) → k_files f !! x = Some y → 1 < f_ref y →
  sys_close sb (Sysst k f) = Ok 0 (with_fd k f i p fd None x (λ y, y <| f_ref := f_ref y - 1 |>)).
Proof.
  intros Hr Hsz Efd Hy Hgt. unfold sys_close. rewrite (bind_ok _ _ _ _ _ (argfd_run k f i p 0 Hr Hsz)), Efd.
  unfold clear_fd, mbind, M_bind. unfold onk at 1. rewrite (upd_cur_ok k i p Hr).
  unfold onf, fileclose, mbind, M_bind, file_at. simpl. rewrite Hy.
  rewrite (proj2 (Z.ltb_ge (f_ref y) 1)), (proj2 (Z.ltb_lt 0 (f_ref y - 1))) by lia. done.
Qed.

(** C27: descriptors are references. The reference count of every open file
    is the number of descriptors, in all processes, that refer to it:
    [sys_dup], [sys_close] and [sys_pipe] keep it so on every path, also when
    descriptors, files or pages run out. So [sys_dup] never panics: it puts
    the file into the lowest free descriptor and counts it, or returns -1
    and changes nothing when the argument is no open descriptor or none is
    free; and [sys_close] of a file that other descriptors share returns 0,
    clears the descriptor and drops one reference. *)
Theorem descriptors_counted k (f : kfs) i p :
  fds_ok (Sysst k f) → running k i p → user_size p →
  (sys_dup (Sysst k f) =
    match fd_arg k p 0, free_fd (take NOFILE (ofile p)) 0 with
    | Some (_, x), Some fd => Ok (Z.of_nat fd) (with_fd k f i p fd (Some x) x (λ y, y <| f_ref := f_ref y + 1 |>))
    | _, _ => Ok (-1) (Sysst k f)
    end) ∧
  (∀ r st', sys_dup (Sysst k f) = Ok r st' → fds_ok st') ∧
  (∀ fd x, fd_arg k p 0 = Some (fd, x) → 1 < fd_refs (procs k) x →
    sys_close sb (Sysst k f) = Ok 0 (with_fd k f i p fd None x (λ y, y <| f_ref := f_ref y - 1 |>))) ∧
  (fd_arg k p 0 = None → sys_close sb (Sysst k f) = Ok (-1) (Sysst k f)) ∧
  (∀ r st', sys_close sb (Sysst k f) = Ok r st' → fds_ok st') ∧
  (∀ r st', sys_pipe sb (Sysst k f) = Ok r st' → fds_ok st').
Proof.
  intros Hok Hr Hsz. split; [by apply sys_dup_run|]. split; [intros r st'; by apply sys_dup_refs|]. split.
  { intros fd x Efd Hgt. destruct (open_counted k f i p fd x Hok Hr (fd_arg_open _ _ _ _ _ Efd)) as (y & Hy & Hc & _).
    eapply sys_close_shared; [done | done | done | exact Hy | lia]. }
  split; [intros Efd; unfold sys_close; by rewrite (bind_ok _ _ _ _ _ (argfd_run k f i p 0 Hr Hsz)), Efd|].
  split; [intros r st'; by apply sys_close_refs | intros r st'; by apply sys_pipe_refs].
Qed.
End spec.
