(* ===== verification/Examples.v ===== *)
(** * Examples for the file system

    A small disk on which the theorems on files, directories, the inode cache
    and descriptors apply. *)
From stdpp Require Import functions.
From S2P Require Import Prelude Machine CString Monitor Proc Signal Syscall Pipe Bio Log LogOps.
From S2P Require Import FsBlock FsInode FsDinode FsFile FsData FsStore FsCrash FsTrunc FsCache FsPath FsDir FsNamei.
From S2P Require Import File FileWrite FsTxn PipeTable SysFile SysFileSpec.
Import KString.

(** ** Freeing a file *)

(** The empty file without links, with one reference. *)
Definition ex_unlinked : inode := ex_inode <| i_lock := false |> <| i_nlink := 0 |>.

Section put.
#[local] Instance ex_put : BlockStore (log * bio) := ex_bs ex_unlinked.
#[local] Notation ex_s := (ex_store ex_unlinked).

Lemma ex_unlinked_empty : ex_empty ex_unlinked.
Proof. apply ex_empty_like; try done; simpl; lia. Qed.

Lemma iput_correct_witness :
  ∃ s' O', iput ex_sb 0 (ex_s, [ex_unlinked]) =
      Ok () (s', [dead_inode ex_unlinked <| i_valid := false |> <| i_ref := 0 |>]) ∧
    gone ex_sb ex_s s' ex_blocks O' ex_unlinked.
Proof.
  destruct (proj1 (iput_correct ex_sb (ex_layout _) ex_s [ex_unlinked] 0 ex_unlinked ex_blocks 0 (ex_fs_ok _) eq_refl
    (fi_owns _ _ _ (ex_file _ _ ex_unlinked_empty)) (ee_wf _ ex_unlinked_empty) ltac:(simpl; lia) eq_refl eq_refl
    (ex_room _ 1 ltac:(lia)))) as (s' & O' & E & Hg & _); [reflexivity | reflexivity |].
  exists s', O'. split; [exact E | exact Hg].
Defined.

Lemma icache_counts_witness :
  ∃ ip i ic', iget 1 7 (ex_s, [ex_inode; ex_unlinked <| i_ref := 0 |>]) = Ok ip (ex_s, ic') ∧
    ic' !! ip = Some i ∧ refs ic' 1 7 = 1 ∧ refs ic' 1 1 = 1.
Proof.
  destruct (proj1 (icache_counts ex_sb ex_s [ex_inode; ex_unlinked <| i_ref := 0 |>] 1 7
    ltac:(split; [intros [|[|k]] i [= <-]; simpl; lia
      | intros [|[|k]] [|[|k']] i i' dev inum [= <-] [= <-]; try done; unfold in_use; simpl; intros; done])))
    as [(ip & i & ic' & E & _ & Hi & _ & Hr)|(_ & _ & Hfull)].
  - exists ip, i, ic'. split; [exact E|]. split; [exact Hi|]. split; rewrite Hr; reflexivity.
  - exfalso. by apply (Hfull 1%nat (ex_unlinked <| i_ref := 0 |>) eq_refl).
Defined.
End put.

(** ** Linking a name *)

(** An empty directory, and the name "hi". *)
Definition ex_folder : inode := ex_inode <| i_type := T_DIR |>.

Section link.
#[local] Instance ex_link : BlockStore (log * bio) := ex_bs ex_folder.
#[local] Notation ex_s := (ex_store ex_folder).

Lemma ex_folder_empty : ex_empty ex_folder.
Proof. apply ex_empty_like; try done; simpl; lia. Qed.

Lemma ex_folder_ok : dir_ok (bs_view ex_s) ex_blocks ex_folder.
Proof. split; [apply (ex_file _ _ ex_folder_empty) | done | done]. Qed.

Lemma dirlink_correct_witness :
  ∃ s' d', dirlink ex_sb no_dev_read no_dev_write 0 [104; 105] 7 (ex_s, [ex_folder]) = Ok 0 (s', [d']) ∧
    dlookup (bs_view s') d' [104; 105] = Some 7 ∧ dlookup (bs_view s') d' [46] = None.
Proof.
  destruct (proj1 (dirlink_correct ex_sb (ex_layout _) no_dev_read no_dev_write ex_s [ex_folder] 0 ex_folder ex_blocks [104; 105] 7 0 0
    (ex_fs_ok _) eq_refl ltac:(simpl; lia) ex_folder_ok (ee_wf _ ex_folder_empty) (ex_synced _ ex_folder_empty) ltac:(simpl; lia)
    ltac:(repeat constructor; lia) ltac:(lia)) eq_refl ltac:(vm_compute; done) (ex_room _ 3 ltac:(lia)) (ex_has_free 1 ltac:(lia)))
    as (s' & O' & d' & E & _ & _ & Hl & Ho & _).
  exists s', d'. split; [exact E|]. split; [exact Hl|]. transitivity (dlookup (ex_disk ex_folder) ex_folder [46]); [apply Ho; by vm_compute | reflexivity].
Defined.
End link.

(** ** Writing an open file *)

(** The file at rest, and the file structure that has it open for writing. *)
Definition ex_rest : inode := ex_inode <| i_lock := false |>.
Definition ex_fd : file := File FD_INODE 1 false true 0 0 0.
Definition ex_idle : log * bio := (Log 2 30 0 false 0 (replicate 30 0), binit (λ _, ex_disk ex_rest) true).

Section write.
#[local] Instance ex_write : BlockStore (log * bio) := op_store 2 30.
#[local] Instance ex_ops : Transactions (log * bio) := op_transactions 2 30.

Lemma ex_rest_empty : ex_empty ex_rest.
Proof. apply ex_empty_like; try done; simpl; lia. Qed.

Lemma ex_idle_ok : idle 2 30 ex_idle.
Proof.
  pose proof (quiet_binit (ex_disk ex_rest)) as [Q1 Q2 Q3 Q4 Q5 Q6 Q7].
  split; cbn [ex_idle fst snd]; try done. split; simpl; try done; lia.
Qed.

Lemma ex_open : open_file ex_sb ex_idle [ex_rest] [ex_fd] ex_blocks 0 0 ex_rest 0.
Proof.
  split; try done.
  - exact ex_idle_ok.
  - split; [exact (ex_alloc_ok ex_rest) | exact (ex_file _ _ ex_rest_empty) | exact (ee_wf _ ex_rest_empty) | exact (ex_synced _ ex_rest_empty)].
  - by exists ex_fd.
Qed.

Lemma ex_op_layout : layout_ok ex_sb.
Proof. split; repeat split; by vm_compute. Qed.

(** 2000 bytes take two transactions. *)
Lemma filewrite_correct_witness :
  ∃ s' i' fl', filewrite ex_sb no_dev_write 0 (replicate 2000 7) (Kfs (ex_idle, [ex_rest]) [ex_fd] ([] : pipes)) =
      Ok 2000 (Kfs (s', [i']) fl' []) ∧
    i_size i' = 2000 ∧ fbyte (bs_view s') (i_addrs i') 1999 = 7.
Proof.
  destruct (filewrite_correct ex_sb ex_op_layout no_dev_write ([] : pipes) ex_idle [ex_rest] [ex_fd] ex_blocks 0 0 ex_rest 0 (replicate 2000 7) 0
    ltac:(by vm_compute) ex_open ltac:(done) ltac:(simpl; lia)) as (s' & O' & i' & fl' & E & Hw & _);
    [by vm_compute | apply (ex_has_free 4); lia |].
  exists s', i', fl'. split; [exact E|]. split; [exact (wp_size _ _ _ _ _ _ _ _ _ Hw)|].
  etransitivity; [apply (wp_byte _ _ _ _ _ _ _ _ _ Hw) | by vm_compute]. change (MAXFILE * BSIZE) with 71680. lia.
Defined.
End write.

(** ** Descriptors *)

(** One process, with descriptor 0 open and the argument 0 on its stack. *)
Definition ex_user : proc := (call_proc 10) <| ofile := Some 0%nat :: replicate 15 None |>.

Section descriptors.
#[local] Instance ex_fds : BlockStore (log * bio) := op_store 2 30.
#[local] Instance ex_fds_ops : Transactions (log * bio) := op_transactions 2 30.
Definition ex_kst : kst := Kst [ex_user] (Some 0%nat) 6 None (λ _, 0).
Definition ex_files : @kfs (log * bio) pipes := Kfs (ex_idle, [ex_rest]) [ex_fd] [].

Lemma ex_fds_ok : fds_ok (Sysst ex_kst ex_files).
Proof.
  split.
  - intros [|f] x [= <-]. reflexivity.
  - intros [|f]; [by eexists|]. unfold none. simpl. lia.
Qed.

Lemma descriptors_counted_witness :
  ∃ st', sys_dup (Sysst ex_kst ex_files) = Ok 1 st' ∧ fds_ok st'.
Proof.
  destruct (descriptors_counted ex_sb ex_kst ex_files 0 ex_user ex_fds_ok (conj eq_refl eq_refl)
    ltac:(unfold user_size, KERNBASE; simpl; lia)) as (E & Hk & _).
  eexists. split; [exact E|]. apply (Hk _ _ E).
Defined.
End descriptors.

(** ** Resolving a path *)

(** A root directory whose only entry, [hi], leads back to it. *)
Definition ex_root : inode := Inode ROOTDEV ROOTINO 1 false true T_DIR 0 0 1 16 (59 :: replicate 12 0).
Definition ex_root_disk : Z → block := λ x,
  if x =? 32 then put_dinode ex_root (λ _, 0)
  else if x =? 58 then (λ a, if a =? 7 then 15 else ex_bitmap a)
  else if x =? 59 then put_bytes (λ _, 0) 0 (mk_dirent 1 [104; 105]) else λ _, 0.
Definition ex_root_blocks : Z → brole := λ x, if x =? 59 then BData 1 0 else ex_blocks x.

Section resolve.
#[local] Instance ex_res : BlockStore (log * bio) := txn_store 2 30 ex_root_disk.
Definition ex_root_store : log * bio := (ex_log, binit (λ _, ex_root_disk) true).

Lemma ex_root_alloc : alloc_ok ex_sb ex_root_disk ex_root_blocks.
Proof.
  split.
  - intros b Hb. change (sb_size ex_sb) with 1000 in Hb.
    assert (forallb (λ b, Bool.eqb (bit ex_sb ex_root_disk b) (negb (bool_decide (ex_root_blocks b = BFree)))) (seqZ 0 1000) = true) as Hall
      by (vm_compute; done).
    rewrite forallb_forall in Hall. specialize (Hall b). rewrite <- list_elem_of_In, elem_of_seqZ in Hall.
    specialize (Hall ltac:(lia)). apply eqb_prop in Hall. rewrite Hall, negb_false_iff. apply bool_decide_eq_true.
  - intros b. unfold ex_root_blocks. destruct (Z.eqb_spec b 59) as [->|]; [done|]. apply (al_meta _ _ _ (ex_alloc_ok ex_root)).
Qed.

Lemma ex_root_wf : inode_wf ex_root.
Proof.
  split; try (simpl; done || lia). intros k. change (i_addrs ex_root) with (59 :: replicate 12 0).
  destruct k as [|k]; cbn [nth]; [lia|]. change (0 ≤ nth k (replicate 12 0) 0 < 4294967296). rewrite nth_zeros. lia.
Qed.

Lemma ex_root_synced : synced ex_sb ex_root_disk ex_root.
Proof. apply (get_put_dinode ex_root), ex_root_wf. Qed.

Lemma ex_root_block bn : 0 ≤ bn → fblock ex_root_disk (59 :: replicate 12 0) bn = if bn =? 0 then 59 else 0.
Proof.
  intros Hbn. unfold fblock. destruct (Z.ltb_spec bn NDIRECT) as [Hd|Hd].
  - destruct (Z.eqb_spec bn 0) as [->|Hne]; [done|]. replace (Z.to_nat bn) with (S (Z.to_nat (bn - 1))) by lia. apply (nth_zeros 12).
  - rewrite (proj2 (Z.eqb_neq bn 0)) by (change NDIRECT with 12 in Hd; lia). done.
Qed.

Lemma ex_root_dir : dir_ok ex_root_disk ex_root_blocks ex_root.
Proof.
  assert (∀ b, ex_root_blocks b = BData 1 0 ∧ b = 59 ∨ ex_root_blocks b = BFree ∨ ex_root_blocks b = BMeta) as Hb.
  { intros b. unfold ex_root_blocks, ex_blocks. destruct (Z.eqb_spec b 59); [by left|]. right. destruct (_ && _); auto. }
  split; [split; [split|..]|done|done].
  - done.
  - intros bn Hbn. change (i_addrs ex_root) with (59 :: replicate 12 0). rewrite ex_root_block by lia.
    destruct (Z.eqb_spec bn 0) as [->|]; done.
  - done.
  - intros b bn E. destruct (Hb b) as [[E' ->]|[E'|E']]; rewrite E' in E; [|done|done]. injection E as <-.
    split; [done|]. by apply ex_root_block.
  - intros b E. destruct (Hb b) as [[E' ->]|[E'|E']]; by rewrite E' in E.
  - simpl. change (MAXFILE * BSIZE) with 71680. lia.
  - intros o Ho. change (i_size ex_root) with 16 in Ho. change (i_addrs ex_root) with (59 :: replicate 12 0).
    rewrite Z.div_small by (change BSIZE with 512; lia). by rewrite ex_root_block.
Qed.

Lemma ex_root_tree : tree_ok ex_sb ex_root_disk ex_root_blocks (λ inum, inum = 1).
Proof.
  destruct (synced_fields ex_sb ex_root_disk ex_root 1 ex_root_synced eq_refl) as (Et & El & Es & Ea). split.
  - intros inum ->. simpl. lia.
  - intros inum ->. by rewrite <- Et.
  - intros inum ->. by rewrite <- El.
  - intros inum -> _. by apply (dir_ok_fields _ _ _ ex_root); try (symmetry; done); apply ex_root_dir.
  - intros inum name j -> _. unfold dlookup. destruct (find_name ex_root_disk (on_disk ex_sb ex_root_disk 1) name) as [k|] eqn:E; [|done].
    apply first_slot_some in E as [Hk%elem_of_seqZ _]. unfold nslots in Hk. rewrite <- Es in Hk.
    change (i_size ex_root / DIRENT) with 1 in Hk. intros Hj.
    change (Some (de_inum (dir_slot ex_root_disk (i_addrs (on_disk ex_sb ex_root_disk 1)) k)) = Some j) in Hj.
    rewrite <- Ea in Hj. replace k with 0 in Hj by lia. vm_compute in Hj. congruence.
Qed.

Lemma ex_root_ok : fs_ok ex_sb ex_root_store ex_root_blocks.
Proof.
  split; [by apply (ex_txn ex_root_disk)|]. split; [exact ex_root_alloc|]. apply set_eq. intros x.
  change (bs_held ex_root_store) with (blocks_of (bc_held (binit (λ _, ex_root_disk) true))).
  rewrite elem_of_blocks, (q_held _ _ _ _ _ _ (quiet_binit ex_root_disk)). set_solver.
Qed.

Lemma ex_res_layout : layout_ok ex_sb.
Proof. split; repeat split; by vm_compute. Qed.

(** The root is referenced once; two more entries are free. *)
Definition ex_cache : list inode := [ex_root; ex_root <| i_ref := 0 |>; ex_root <| i_ref := 0 |>].

Lemma ex_cache_ok : cache_ok ex_sb ex_root_disk None ex_cache.
Proof.
  split; [split| |].
  - intros [|[|[|k]]] i [= <-]; simpl; lia.
  - intros [|[|[|k]]] [|[|[|k']]] i i' dev inum [= <-] [= <-]; try done; unfold in_use; simpl; intros; done.
  - intros [|[|[|k]]] i [= <-]; done.
  - intros [|[|[|k]]] i [= <-]; simpl; try lia. intros _ _. exact ex_root_synced.
Qed.

(** What the example paths resolve to, found by evaluation. *)
Lemma ex_resolve path r names s' out :
  take dirsiz <$> elements path = names → resolve ex_sb false ex_root_disk 1 names = r →
  walked ex_sb ex_root_disk (λ inum, inum = 1) false (refs ex_cache) (take dirsiz <$> elements path)
    (resolve ex_sb false ex_root_disk 1 (take dirsiz <$> elements path)) out s' →
  walked (S := log * bio) ex_sb ex_root_disk (λ inum, inum = 1) false (refs ex_cache) names r out s'.
Proof. by intros -> ->. Qed.

(** [/hi] is the root; [/hi/ho] is not there. *)
Lemma namex_correct_witness :
  (∃ s' ip buf ic', namex ex_sb no_dev_read None [47; 104; 105] false [] (ex_root_store, ex_cache) = Ok (Some (ip, buf)) (s', ic') ∧
     refs ic' 1 1 = 2) ∧
  ∃ s' ic', namex ex_sb no_dev_read None [47; 104; 105; 47; 104; 111] false [] (ex_root_store, ex_cache) = Ok None (s', ic') ∧
     refs ic' 1 1 = 1.
Proof.
  split.
  - destruct (proj1 (namex_correct ex_sb ex_res_layout no_dev_read ex_root_blocks (λ inum, inum = 1) false None [47; 104; 105] [] ex_root_store ex_cache 1
      ex_root_ok ex_root_tree ex_cache_ok ltac:(repeat constructor; lia) eq_refl eq_refl) ltac:(simpl; lia)) as (s' & _ & Hw).
    apply (ex_resolve _ (Some 1) [[104; 105]]) in Hw; [|vm_compute; reflexivity|vm_compute; reflexivity].
    destruct Hw as (ip & i & buf & ic' & E & _ & _ & Hr & _). exists s', ip, buf, ic'. split; [exact E|]. rewrite Hr. reflexivity.
  - destruct (proj1 (namex_correct ex_sb ex_res_layout no_dev_read ex_root_blocks (λ inum, inum = 1) false None [47; 104; 105; 47; 104; 111] [] ex_root_store ex_cache 1
      ex_root_ok ex_root_tree ex_cache_ok ltac:(repeat constructor; lia) eq_refl eq_refl) ltac:(simpl; lia)) as (s' & _ & Hw).
    apply (ex_resolve _ None [[104; 105]; [104; 111]]) in Hw; [|vm_compute; reflexivity|vm_compute; reflexivity].
    destruct Hw as (ic' & E & _ & Hr). exists s', ic'. split; [exact E|]. rewrite Hr. reflexivity.
Defined.
End resolve.
