(* ===== verification/Exec.v ===== *)
(** * Loading programs (exec.c, elf.h)

    [exec] reads an ELF file through the file system, builds an address space
    for it with the routines of vm.c, puts the arguments on its stack, and
    makes it the address space of the process. The state is the pages of the
    allocator beside the file system. *)
From S2P Require Import Prelude Machine CString Spin Kalloc Proc Signal Bio Vm.
From S2P Require Import FsBlock FsInode FsDir File.

Definition ELF_MAGIC : Z := 0x464C457F.
Definition ELF_PROG_LOAD : Z := 1.

Record elfhdr := Elfhdr {
  e_magic : Z;
  e_elf : list Z;
  e_type : Z;
  e_machine : Z;
  e_version : Z;
  e_entry : Z;
  e_phoff : Z;
  e_shoff : Z;
  e_flags : Z;
  e_ehsize : Z;
  e_phentsize : Z;
  e_phnum : Z;
  e_shentsize : Z;
  e_shnum : Z;
  e_shstrndx : Z
}.

Record proghdr := Proghdr {
  p_type : Z;
  p_off : Z;
  p_vaddr : Z;
  p_paddr : Z;
  p_filesz : Z;
  p_memsz : Z;
  p_flags : Z;
  p_align : Z
}.

(** [sizeof] of the two structures. *)
Definition ELFHDR : Z := 52.
Definition PROGHDR : Z := 32.

(** A structure as the bytes read into it say. *)
Definition ushort_at (m : mem) (a : Z) : Z := m a + 256 * m (a + 1).

Definition elfhdr_of (bs : list Z) : elfhdr :=
  let m := put_bytes (λ _, 0) 0 bs in
  Elfhdr (load32 m 0) (get_bytes m 4 12) (ushort_at m 16) (ushort_at m 18) (load32 m 20) (load32 m 24)
    (load32 m 28) (load32 m 32) (load32 m 36) (ushort_at m 40) (ushort_at m 42) (ushort_at m 44)
    (ushort_at m 46) (ushort_at m 48) (ushort_at m 50).

Definition proghdr_of (bs : list Z) : proghdr :=
  let m := put_bytes (λ _, 0) 0 bs in
  Proghdr (load32 m 0) (load32 m 4) (load32 m 8) (load32 m 12) (load32 m 16) (load32 m 20)
    (load32 m 24) (load32 m 28).

(** The four bytes of a word. *)
Definition word_bytes (w : Z) : list Z := [w mod 256; w / 256 mod 256; w / 65536 mod 256; w / 16777216 mod 256].

(** The part of a path after the last slash. *)
Fixpoint last_name (last s : list Z) : list Z :=
  match s with
  | [] => last
  | c :: s' => last_name (if c =? 47 then s' else last) s'
  end.

(** [safestrcpy(dst, src, n)] into the array [dst], for a string [src]; a string
    that fits is copied with its terminator before the last byte is set. *)
Definition set_name (dst src : list Z) (n : nat) : list Z :=
  let t := take (n - 1) (src ++ [0]) ++ [0] in t ++ drop (length t) dst.

Section exec.
Context {K : Type} `{PageAlloc K}.
Context {S : Type} `{Transactions S}.
Variable sb : superblock.
Variable dev_read : Z → option (nat → Z → M (@fsys S) (Z * list Z)).

(** Where the kernel's data begins, and the word at address 0, which
    [uva2ka] reads where there is no page table. *)
Variables data word0 : Z.

Definition exst : Type := K * @fsys S.

(** [readi] to the kernel address [dst]. *)
Definition readi_to (ip : nat) (dst off n : Z) : M exst Z :=
  r ← onsnd (readi sb dev_read ip off n);
  onfst (pa_write (λ m, put_bytes m dst (snd r)));;
  mret (fst r).

(** [copyout] from outside the pages of the allocator: the strings that the
    arguments point to in the address space of the caller, and the array
    [ustack] on the kernel's stack. *)
Fixpoint copyout_bytes_loop (fuel : nat) (pgdir va : Z) (bs : list Z) : M K Z :=
  match fuel with
  | O => hang
  | Datatypes.S fuel' =>
      let len := Z.of_nat (length bs) in
      if len =? 0 then mret 0
      else
        let va0 := PGROUNDDOWN va in
        pa0 ← uva2ka word0 pgdir va0;
        if pa0 =? 0 then mret (-1)
        else
          let n0 := PGSIZE - (va - va0) in
          let n := if len <? n0 then len else n0 in
          pa_write (λ m, put_bytes m (pa0 + (va - va0)) (take (Z.to_nat n) bs));;
          copyout_bytes_loop fuel' pgdir (u32 (va0 + PGSIZE)) (drop (Z.to_nat n) bs)
  end.

Definition copyout_bytes (pgdir va : Z) (bs : list Z) : M K Z :=
  copyout_bytes_loop (Datatypes.S (Z.to_nat (Z.of_nat (length bs) / PGSIZE + 2))) pgdir va bs.

(** [switchuvm] but for the task state and the page-table register. *)
Definition switchuvm {X} (p : proc) : M X () :=
  if kstack p =? 0 then panic "switchuvm: no kstack"
  else if pgdir p =? 0 then panic "switchuvm: no pgdir"
  else mret ().

(** The label [bad]. *)
Definition bad (p : proc) (pg : Z) (ip : option nat) : M exst (Z * proc) :=
  when (negb (pg =? 0)) (onfst (freevm pg));;
  match ip with
  | Some ip => onsnd (iunlockput sb ip);; onsnd (onbs tx_end)
  | None => mret ()
  end;;
  mret (-1, p).

(** The loop over the program headers, [n] of them to go; [None] for [goto
    bad]. *)
Fixpoint load_segs (n : nat) (ip : nat) (pg off sz : Z) : M exst (option Z) :=
  match n with
  | O => mret (Some sz)
  | Datatypes.S n' =>
      r ← onsnd (readi sb dev_read ip off PROGHDR);
      if negb (fst r =? PROGHDR) then mret None
      else
        let ph := proghdr_of (snd r) in
        if negb (p_type ph =? ELF_PROG_LOAD) then load_segs n' ip pg (u32 (off + PROGHDR)) sz
        else if p_memsz ph <? p_filesz ph then mret None
        else if u32 (p_vaddr ph + p_memsz ph) <? p_vaddr ph then mret None
        else
          sz' ← onfst (allocuvm pg sz (u32 (p_vaddr ph + p_memsz ph)));
          if sz' =? 0 then mret None
          else if negb (p_vaddr ph mod PGSIZE =? 0) then mret None
          else
            r ← loaduvm (readi_to ip) pg (p_vaddr ph) (p_off ph) (p_filesz ph);
            if r <? 0 then mret None
            else load_segs n' ip pg (u32 (off + PROGHDR)) sz'
  end.

(** The loop over the arguments from number [argc] on: the stack pointer
    and the addresses of the strings. *)
Fixpoint push_args (argv : list (list Z)) (argc : nat) (pg sp : Z) : M exst (option (Z * list Z)) :=
  match argv with
  | [] => mret (Some (sp, []))
  | a :: argv' =>
      if (MAXARG <=? argc)%nat then mret None
      else
        let sp := Z.land (u32 (sp - (Z.of_nat (length a) + 1))) (u32 (Z.lnot 3)) in
        r ← onfst (copyout_bytes pg sp (a ++ [0]));
        if r <? 0 then mret None
        else
          o ← push_args argv' (argc + 1) pg sp;
          mret ((λ '(sp', ps), (sp', sp :: ps)) <$> o)
  end.

(** The changes to the process. *)
Definition new_image (p : proc) (path : list Z) (pg size entry sp : Z) : proc :=
  default_sighandlers
    (p <| name := set_name (name p) (last_name path path) 16 |> <| pgdir := pg |> <| Proc.sz := size |>
       <| tf := (tf p) <| tf_eip := entry |> <| tf_esp := sp |> |>).

(** The second half of [exec], after the file is closed. *)
Definition exec_stack (p : proc) (path : list Z) (argv : list (list Z)) (pg entry sz : Z) : M exst (Z * proc) :=
  let sz := PGROUNDUP sz in
  sz ← onfst (allocuvm pg sz (u32 (sz + 2 * PGSIZE)));
  if sz =? 0 then bad p pg None
  else
    onfst (clearpteu pg (u32 (sz - 2 * PGSIZE)));;
    o ← push_args argv 0 pg sz;
    match o with
    | None => bad p pg None
    | Some (sp, ps) =>
        let argc := Z.of_nat (length argv) in
        let ustack := [0xffffffff; argc; u32 (sp - (argc + 1) * 4)] ++ ps ++ [0] in
        let sp := u32 (sp - (3 + argc + 1) * 4) in
        r ← onfst (copyout_bytes pg sp (mjoin (word_bytes <$> ustack)));
        if r <? 0 then bad p pg None
        else
          let p' := new_image p path pg sz entry sp in
          switchuvm p';;
          onfst (freevm (pgdir p));;
          mret (0, p')
    end.

Definition exec (p : proc) (path : list Z) (argv : list (list Z)) : M exst (Z * proc) :=
  onsnd (onbs tx_begin);;
  oip ← onsnd (namei sb dev_read (cwd p) path []);
  match oip with
  | None => onsnd (onbs tx_end);; mret (-1, p)
  | Some ip =>
      onsnd (ilock sb ip);;
      r ← onsnd (readi sb dev_read ip 0 ELFHDR);
      if negb (fst r =? ELFHDR) then bad p 0 (Some ip)
      else
        let elf := elfhdr_of (snd r) in
        if negb (e_magic elf =? ELF_MAGIC) then bad p 0 (Some ip)
        else
          pg ← onfst (setupkvm data);
          if pg =? 0 then bad p 0 (Some ip)
          else
            o ← load_segs (Z.to_nat (e_phnum elf)) ip pg (e_phoff elf) 0;
            match o with
            | None => bad p pg (Some ip)
            | Some sz =>
                onsnd (iunlockput sb ip);;
                onsnd (onbs tx_end);;
                exec_stack p path argv pg (e_entry elf) sz
            end
  end.
End exec.
