(* ===== verification/ExecSpace.v ===== *)
(** * Address spaces under construction

    What [exec] knows of the address space it builds: [n] user pages, their
    flags and the bytes in them as a function of the user address, above them
    the kernel's mappings. Each routine [exec] uses is described by what it
    does to this picture; everything outside stays as it was. *)
From stdpp Require Import functions.
From S2P Require Import Prelude Machine CString Spin Kalloc Vm VmSpec VmUser VmSpace VmCopy VmMain.
From S2P Require Import Bio FsBlock FsInode FsFile File Exec.
Import KString.

Lemma put_bytes_app l1 : ∀ m a l2, put_bytes m a (l1 ++ l2) = put_bytes (put_bytes m a l1) (a + Z.of_nat (length l1)) l2.
Proof.
  induction l1 as [|b l1 IH]; intros m a l2; cbn [put_bytes app length]; [by rewrite Z.add_0_r|].
  rewrite IH. f_equal. lia.
Qed.

Lemma put_bytes_wf m a bs : wf_mem m → wf_mem (put_bytes m a bs).
Proof.
  intros Hm x. rewrite put_bytes_byte. case_decide; [|apply Hm]. unfold u8. apply Z.mod_pos_bound. lia.
Qed.

(** The user bit of an entry is one of its flags. *)
Definition user_flag (f : Z) : bool := truthy (Z.land f PTE_U).

Lemma user_flag_mod e : 0 ≤ e → user_flag (e mod 4096) = user_flag e.
Proof.
  intros He. unfold user_flag. f_equal. change 4096 with (2 ^ 12). rewrite <- Z.land_ones by lia.
  rewrite <- Z.land_assoc. done.
Qed.

Section space.
Context {K : Type} `{PageAlloc K}.
Variable data : Z.
Context (Hdata : data_ok data).

Implicit Types (s : K) (R : Z → role) (d v a : Z).

(** Directory [d] has [n] user pages with flags [fl] and bytes [img], which
    is zero above them, and otherwise the kernel's mappings. *)
Record space (s : K) (R : Z → role) (d n : Z) (fl img : Z → Z) : Prop := {
  as_vm : vm_ok s R;
  as_dir : R d = Dir;
  as_range : 0 ≤ n ≤ UPAGES;
  as_page v : 0 ≤ v < n → present (entry (pa_mem s) d v) = true ∧ entry (pa_mem s) d v mod 4096 = fl v;
  as_rest v : n ≤ v < VPAGES → entry (pa_mem s) d v = kernel_pte data v;
  as_byte a : 0 ≤ a < 4096 * n → pa_mem s (uaddr (pa_mem s) d a) = img a;
  as_zero a : 4096 * n ≤ a → img a = 0
}.

(** How far the state is from the one before: free pages went into the new
    address space, nothing else changed. *)
Record built (s0 : K) (R0 : Z → role) (s : K) (R : Z → role) (d : Z) : Prop := {
  bu_free : R0 d = Free;
  bu_takes : takes d (<[d := Dir]> R0) R;
  bu_entries : same_entries (pa_mem s0) (pa_mem s) R0;
  bu_data : same_data (pa_mem s0) (pa_mem s) R0
}.

Lemma built_keeps s0 R0 s R d p r : built s0 R0 s R d → R0 p = r → r ≠ Free → R p = r.
Proof.
  intros Hb Hp Hr. eapply takes_role; [apply (bu_takes _ _ _ _ _ Hb) | | done].
  rewrite fn_lookup_insert_ne; [done|]. intros <-. by rewrite (bu_free _ _ _ _ _ Hb) in Hp.
Qed.

(** Steps inside the new address space. *)
Lemma built_step s0 R0 s R s' R' d :
  built s0 R0 s R d → takes d R R' → others_same d (pa_mem s) (pa_mem s') R →
  (∀ a, plain (R (page_of a)) → (∀ v, R (page_of a) ≠ Frame d v) → pa_mem s' a = pa_mem s a) →
  vm_ok s0 R0 → built s0 R0 s' R' d.
Proof.
  intros Hb Ht Ho Hm Hvm. pose proof Hb as [Hf Ht0 He Hd]. split; [done | by eapply takes_trans | |].
  - intros d' v Hd' Hv. rewrite Ho; [by apply He | | |done].
    + by eapply built_keeps.
    + intros ->. congruence.
  - intros a Ha. assert (R (page_of a) = R0 (page_of a)) as E.
    { eapply built_keeps; [done | done|]. intros E. by rewrite E in Ha. }
    rewrite Hm; [by apply Hd | by rewrite E|]. intros v. rewrite E. intros Hfr.
    destruct Hvm as [_ [_ H2]]. destruct (H2 _ _ _ Hfr) as [Hdir _]. congruence.
Qed.

Lemma space_new s R s' R' d :
  vm_ok s' R' → R d = Free → grows d (<[d := Dir]> R) R' → same_data (pa_mem s) (pa_mem s') R → same_entries (pa_mem s) (pa_mem s') R →
  (∀ v, 0 ≤ v < VPAGES → entry (pa_mem s') d v = kernel_pte data v) →
  space s' R' d 0 (λ _, 7) (λ _, 0) ∧ built s R s' R' d.
Proof.
  intros Hvm Hd Hg Hda He Hk. split; split; try done; try lia.
  - eapply grows_role; [done | apply fn_lookup_insert | done].
  - by apply grows_takes.
Qed.

(** The frame behind a page. *)
Lemma space_frame s R d n fl img a :
  space s R d n fl img → 0 ≤ a < 4096 * n →
  R (page_of (uaddr (pa_mem s) d a)) = Frame d (a / 4096) ∧
  page_of (uaddr (pa_mem s) d a) = frame (entry (pa_mem s) d (a / 4096)) ∧ 0 ≤ a < KERNBASE.
Proof.
  intros [Hvm Hd Hn Hp _ _ _] Ha. unfold UPAGES, KERNBASE in *. assert (0 ≤ a < KERNBASE) by (unfold KERNBASE; lia).
  destruct (uaddr_page s R d a) as [H1 H2]; [done | done | done | apply Hp; zmod|]. done.
Qed.

Lemma space_inj s R d n fl img a b :
  space s R d n fl img → 0 ≤ a < 4096 * n → 0 ≤ b < 4096 * n → uaddr (pa_mem s) d a = uaddr (pa_mem s) d b → a = b.
Proof.
  intros Hs Ha Hb E. destruct (space_frame _ _ _ _ _ _ _ Hs Ha) as (_ & _ & Ha').
  destruct (space_frame _ _ _ _ _ _ _ Hs Hb) as (_ & _ & Hb'). destruct Hs as [Hvm Hd Hn Hp _ _ _].
  eapply uaddr_inj; [exact Hvm | done | done | done | apply Hp; zmod | apply Hp; zmod | done].
Qed.

(** ** Adding pages *)

Lemma grown_space s s' R R' d n n' img :
  space s R d n (λ _, 7) img → vm_ok s' R' → n ≤ n' ≤ UPAGES →
  grown (λ _, 7) (λ _ _, 0) (pa_mem s) (pa_mem s') R R' d n n' → space s' R' d n' (λ _, 7) img.
Proof.
  intros Hs Hvm' Hn' Hg. pose proof Hs as [Hvm Hd Hn Hp Hr Hb Hz]. unfold UPAGES, VPAGES in *.
  assert (∀ v, n ≤ v < n' → ∃ p, pa_page p ∧ R' p = Frame d v ∧ entry (pa_mem s') d v = V2P p + 7 ∧
    ∀ a, page_of a = p → pa_mem s' a = 0) as Hnew.
  { intros v Hv. destruct (grown_page _ _ _ _ _ _ _ _ _ Hg v Hv) as (p & Hp1 & Hp2 & Hp3).
    exists p. split; [|done]. eapply pt_page_role; [apply Hvm' | done | done]. }
  assert (∀ v, 0 ≤ v < 1048576 → ¬ n ≤ v < n' → entry (pa_mem s') d v = entry (pa_mem s) d v) as Hold.
  { intros v Hv Hnv. apply (grown_entry _ _ _ _ _ _ _ _ _ Hg); [done | done|]. intros [_ ?]. done. }
  split; try done.
  - by eapply grown_keeps.
  - unfold UPAGES. lia.
  - intros v Hv. destruct (decide (v < n)); [rewrite Hold by lia; apply Hp; lia|].
    destruct (Hnew v) as (p & Hpp & _ & -> & _); [lia|]. rewrite present_page by done. split; [done|].
    pose proof (V2P_aligned p Hpp). zmod.
  - intros v Hv. unfold VPAGES in Hv. rewrite Hold by lia. apply Hr. unfold VPAGES. lia.
  - intros a Ha. destruct (decide (a < 4096 * n)).
    + destruct (space_frame s R d n (λ _, 7) img a) as (Hf & Hpg & _); [done | lia|].
      assert (uaddr (pa_mem s') d a = uaddr (pa_mem s) d a) as -> by (unfold uaddr; rewrite Hold by zmod; done).
      rewrite (grown_data _ _ _ _ _ _ _ _ _ Hg); [apply Hb; lia|]. by rewrite Hf.
    + rewrite Hz by lia. destruct (Hnew (a / 4096)) as (p & Hpp & _ & E & Hc); [zmod|].
      apply Hc. unfold uaddr. rewrite E, frame_page by (done || lia). apply page_of_spec; [done|].
      unfold in_page, PGSIZE. zmod.
  - intros a Ha. apply Hz. lia.
Qed.

(** At most this many pages were free at first, if [k] are when the space
    has [n] pages. *)
Lemma few_free_built s0 R0 s R d n fl img k :
  vm_ok s0 R0 → built s0 R0 s R d → space s R d n fl img → few_free R k → few_free R0 (k + 1025 + n).
Proof.
  intros Hvm0 [Hf Ht _ _] [Hvm Hd Hn Hp Hr _ _] Hk l Hnd Hl.
  set (old := filter (λ p, R p = Free) l). set (new := filter (λ p, R p ≠ Free) l).
  assert (length l = length old + length new)%nat as Hlen.
  { subst old new. clear. induction l as [|p l IH]; [done|]. rewrite !filter_cons.
    destruct (decide (R p = Free)); [rewrite decide_False by tauto | rewrite decide_True by done]; cbn [length]; lia. }
  assert (Z.of_nat (length old) ≤ k) as Hold.
  { apply Hk; [by apply NoDup_filter|]. intros p Hp'%list_elem_of_filter. tauto. }
  assert (∀ p, p ∈ new → p = d ∨ p ≠ d ∧ ((∃ i, R p = Table d i) ∨ ∃ v, R p = Frame d v)) as Hc.
  { intros p [Hn1 Hn2]%list_elem_of_filter. destruct (decide (d = p)) as [<-|Hne]; [by left|right]. split; [done|].
    specialize (Hl p Hn2). destruct (Ht p) as [E|[_ E]]; [|done]. by rewrite fn_lookup_insert_ne, Hl in E. }
  assert (length (R <$> new) ≤ length (Dir :: (Table d <$> seqZ 0 1024) ++ (Frame d <$> seqZ 0 n)))%nat as Hle.
  { apply submseteq_length, NoDup_submseteq.
    - apply NoDup_fmap_2_strong; [|by apply NoDup_filter]. intros p q Hp1 Hq1 E.
      destruct (Hc p Hp1) as [->|[_ Hp2]].
      + destruct (Hc q Hq1) as [->|[_ [[? ?]|[? ?]]]]; congruence.
      + by eapply role_injective.
    - intros r (p & -> & Hp1)%list_elem_of_fmap. destruct (Hc p Hp1) as [->|[_ [[i Ei]|[v Ev]]]].
      + rewrite Hd. left.
      + right. apply elem_of_app. left. rewrite Ei. apply list_elem_of_fmap_2, elem_of_seqZ.
        apply (pt_tab s R (proj1 Hvm)) in Ei as (_ & ? & _). lia.
      + right. apply elem_of_app. right. rewrite Ev. apply list_elem_of_fmap_2, elem_of_seqZ.
        destruct Hvm as [_ [_ H2]]. destruct (H2 _ _ _ Ev) as (_ & Hv & Hpr & _).
        destruct (decide (v < n)); [lia|]. unfold UPAGES, VPAGES in *.
        rewrite Hr, kernel_pte_user in Hpr by (done || unfold UPAGES; lia). done. }
  rewrite length_cons, length_app, !length_fmap, !length_seqZ in Hle. lia.
Qed.

(** What is left when a step fails: an address space to be freed. *)
Definition failing (s0 : K) (R0 : Z → role) (s : K) (d : Z) : Prop :=
  ∃ R, vm_ok s R ∧ R d = Dir ∧ built s0 R0 s R d.

Lemma space_failing s0 R0 s R d n fl img : space s R d n fl img → built s0 R0 s R d → failing s0 R0 s d.
Proof. intros [Hvm Hd _ _ _ _ _] Hb. by exists R. Qed.

(** [allocuvm] from [sz] bytes to [newsz]. *)
Lemma space_alloc s0 R0 s R d sz newsz img :
  vm_ok s0 R0 → space s R d (pages_up sz) (λ _, 7) img → built s0 R0 s R d → 0 ≤ sz ≤ newsz → newsz < KERNBASE →
  ∃ r s', allocuvm d sz newsz s = Ok r s' ∧
    ((r = newsz ∧ ∃ R', space s' R' d (pages_up newsz) (λ _, 7) img ∧ built s0 R0 s' R' d) ∨
     (r = 0 ∧ failing s0 R0 s' d ∧ few_free R0 (2051 + pages_up newsz))).
Proof.
  intros Hvm0 Hs Hb Hsz Hnew. pose proof Hs as [Hvm Hd Hn Hp Hr Hby Hz].
  assert (pages_up sz ≤ pages_up newsz ≤ UPAGES) as Hpu by (unfold pages_up, UPAGES, KERNBASE in *; zmod).
  destruct (allocuvm_ok s R d sz newsz) as (r & s' & R' & E & Hvm' & Hc); [done | done | done | done | |].
  { intros v Hv. rewrite Hr by (unfold UPAGES, VPAGES in *; lia).
    rewrite kernel_pte_user; [done | done | unfold UPAGES in *; lia]. }
  exists r, s'. split; [done|]. destruct Hc as [[-> Hg]|(-> & Hgr & Hun & Hda & Hex)]; [left|right].
  - split; [done|]. exists R'. split; [by eapply grown_space|].
    eapply built_step; [done | by eapply grown_takes | by eapply grown_others | | done].
    intros a Ha _. by apply (grown_data _ _ _ _ _ _ _ _ _ Hg).
  - split; [done|]. split.
    + exists R'. split; [done|]. split; [by eapply grows_role|].
      eapply built_step; [done | by apply grows_takes | | | done].
      * intros d' v Hd' Hne Hv. specialize (Hun d' v Hd' Hv). rewrite decide_False in Hun by tauto. done.
      * intros a Ha _. by apply Hda.
    + apply exhausted_bound in Hex. apply (few_free_built s0 R0 s R d _ _ _ _ Hvm0 Hb Hs) in Hex.
      intros l Hnd Hl. specialize (Hex l Hnd Hl). lia.
Qed.

(** Giving up: every page is back where it was. *)
Lemma space_undo s0 R0 s d :
  vm_ok s0 R0 → failing s0 R0 s d →
  ∃ s', freevm d s = Ok () s' ∧ vm_ok s' R0 ∧ same_data (pa_mem s0) (pa_mem s') R0 ∧ same_entries (pa_mem s0) (pa_mem s') R0.
Proof.
  intros Hvm0 (R & Hvm & Hd & Hb). destruct (freevm_ok s R d Hvm Hd) as (s' & R' & E & Hvm' & Hrel & Hda & Ho).
  exists s'. split; [done|]. pose proof Hb as [Hf Ht He Hm].
  assert (∀ p, R' p = R0 p) as HR by (intros p; by eapply undo_setup).
  split; [destruct Hvm' as [A B]; split; [by eapply pt_ok_ext | by eapply frames_ok_ext]|]. split.
  - intros a Ha. rewrite Hda by (by rewrite HR). by apply Hm.
  - intros d' v Hd' Hv. rewrite Ho; [by apply He | by eapply built_keeps | | done]. intros ->. congruence.
Qed.

(** The new address space takes the place of the old one, [d0]. *)
Lemma space_switch s0 R0 s R d d0 n fl img :
  vm_ok s0 R0 → R0 d0 = Dir → space s R d n fl img → built s0 R0 s R d →
  ∃ s' R', freevm d0 s = Ok () s' ∧ space s' R' d n fl img ∧ released d0 R R' ∧
    (∀ a, plain (R0 (page_of a)) → (∀ v, R0 (page_of a) ≠ Frame d0 v) → pa_mem s' a = pa_mem s0 a) ∧
    others_same d0 (pa_mem s0) (pa_mem s') R0.
Proof.
  intros Hvm0 Hd0 Hs Hb. pose proof Hs as [Hvm Hd Hn Hp Hr Hby Hz].
  assert (R d0 = Dir) as Hd0' by (by eapply built_keeps).
  assert (d ≠ d0) as Hne by (intros ->; rewrite (bu_free _ _ _ _ _ Hb) in Hd0; done).
  destruct (freevm_ok s R d0 Hvm Hd0') as (s' & R' & E & Hvm' & Hrel & Hda & Ho).
  exists s', R'. split; [done|].
  assert (∀ v, 0 ≤ v < VPAGES → entry (pa_mem s') d v = entry (pa_mem s) d v) as He by (intros v Hv; by apply Ho).
  split; [|split; [done|split]].
  - unfold UPAGES, VPAGES in *. split; try done.
    + rewrite Hrel, Hd. by rewrite decide_False.
    + intros v Hv. rewrite He by lia. by apply Hp.
    + intros v Hv. unfold VPAGES in Hv. rewrite He by lia. by apply Hr.
    + intros a Ha. assert (uaddr (pa_mem s') d a = uaddr (pa_mem s) d a) as -> by (unfold uaddr; rewrite He by zmod; done).
      rewrite Hda; [by apply Hby|]. destruct (space_frame _ _ _ _ _ _ _ Hs Ha) as (Hf & _).
      rewrite Hrel, Hf. by rewrite decide_False.
  - intros a Ha Hnf. assert (R (page_of a) = R0 (page_of a)) as ER.
    { eapply built_keeps; [done | done|]. intros E'. by rewrite E' in Ha. }
    rewrite Hda; [by apply (bu_data _ _ _ _ _ Hb)|]. rewrite Hrel, ER.
    destruct (R0 (page_of a)) as [| | |d' i|d' v] eqn:E0; try done.
    rewrite decide_False; [done|]. intros ->. by apply (Hnf v).
  - intros d' v Hd' Hne' Hv. rewrite Ho; [by apply (bu_entries _ _ _ _ _ Hb) | by eapply built_keeps | done | done].
Qed.

(** ** Writing into the pages *)

(** Only the frames of [d] changed. *)
Definition inside (s : K) (R : Z → role) (s' : K) (d : Z) : Prop :=
  same_entries (pa_mem s) (pa_mem s') R ∧
  ∀ a, plain (R (page_of a)) → (∀ v, R (page_of a) ≠ Frame d v) → pa_mem s' a = pa_mem s a.

Lemma inside_refl s R d : inside s R s d.
Proof. done. Qed.

Lemma inside_trans s1 s2 s3 R d : inside s1 R s2 d → inside s2 R s3 d → inside s1 R s3 d.
Proof.
  intros [A1 B1] [A2 B2]. split; [intros d' v Hd Hv; rewrite A2, A1; done|]. intros a H1 H2. rewrite B2, B1; done.
Qed.

Lemma built_inside s0 R0 s R s' d : vm_ok s0 R0 → built s0 R0 s R d → inside s R s' d → built s0 R0 s' R d.
Proof.
  intros Hvm0 Hb [A B]. eapply built_step; [done | intros p; by left | | done | done]. intros d' v ? _ ?. by apply A.
Qed.

Lemma space_write s R d n fl img a bs :
  space s R d n fl img → 0 ≤ a < 4096 * n → a mod 4096 + Z.of_nat (length bs) ≤ 4096 →
  ∃ s', pa_write (λ m, put_bytes m (uaddr (pa_mem s) d a) bs) s = Ok () s' ∧
    space s' R d n fl (put_bytes img a bs) ∧ inside s R s' d.
Proof.
  intros Hs Ha Hlen. destruct (space_frame _ _ _ _ _ _ _ Hs Ha) as (Hf & Hpg & Hk).
  pose proof Hs as [Hvm Hd Hn Hp Hr Hby Hz]. rewrite Hpg in Hf. set (q := frame (entry (pa_mem s) d (a / 4096))) in *.
  assert (pa_page q) as Hpq by (eapply pt_page_role; [apply Hvm | done | done]).
  assert (uaddr (pa_mem s) d a = q + a mod 4096) as Eu by done.
  destruct (pt_write s R q (λ m, put_bytes m (uaddr (pa_mem s) d a) bs)) as (s' & E & Hpt & Hm & He).
  { apply Hvm. } { by rewrite Hf. } { apply put_bytes_wf. eapply pt_wf, Hvm. }
  { intros x Hx. rewrite put_bytes_byte, decide_False; [done|]. intros Hin. apply Hx, page_of_spec; [done|].
    unfold in_page, PGSIZE. rewrite Eu in Hin. zmod. }
  exists s'. split; [done|]. unfold UPAGES, VPAGES in *. split; [split|].
  - split; [done|]. eapply frames_ext; [exact He | apply Hvm].
  - done.
  - done.
  - intros v Hv. rewrite He by (done || unfold VPAGES; lia). by apply Hp.
  - intros v Hv. unfold VPAGES in Hv. rewrite He by (done || unfold VPAGES; lia). apply Hr. unfold VPAGES. lia.
  - intros b Hb. assert (uaddr (pa_mem s') d b = uaddr (pa_mem s) d b) as ->.
    { unfold uaddr. rewrite He by (done || unfold VPAGES; zmod). done. }
    rewrite Hm, !put_bytes_byte. destruct (decide (a ≤ b < a + Z.of_nat (length bs))) as [Hin|Hout].
    + assert (uaddr (pa_mem s) d b = q + a mod 4096 + (b - a)) as ->.
      { unfold uaddr. assert (b / 4096 = a / 4096) as -> by zmod. fold q. zmod. }
      rewrite Eu, decide_True by lia. by replace (q + a mod 4096 + (b - a) - (q + a mod 4096)) with (b - a) by lia.
    + rewrite decide_False; [by apply Hby|]. rewrite Eu. intros Hin.
      assert (b = a + (uaddr (pa_mem s) d b - (q + a mod 4096))); [|lia].
      eapply (space_inj s); [done | done | zmod |]. unfold uaddr at 2.
      assert ((a + (uaddr (pa_mem s) d b - (q + a mod 4096))) / 4096 = a / 4096) as -> by zmod. fold q. zmod.
  - intros b Hb. rewrite put_bytes_byte, decide_False by zmod. by apply Hz.
  - split; [done|]. intros x Hx Hnf. rewrite Hm, put_bytes_byte, decide_False; [done|]. rewrite Eu. intros Hin.
    apply (Hnf (a / 4096)). rewrite <- Hf. f_equal. apply page_of_spec; [done|]. unfold in_page, PGSIZE. zmod.
Qed.

(** The slot of a mapped page. *)
Lemma space_walk s R d n fl img a :
  space s R d n fl img → 0 ≤ a < 4096 * n →
  ∃ r, walkpgdir d a 0 s = Ok r s ∧ (r =? 0) = false ∧ slot s R d (a / 4096) r ∧ load32 (pa_mem s) r = entry (pa_mem s) d (a / 4096).
Proof.
  intros [Hvm Hd Hn Hp Hr Hby Hz] Ha. unfold UPAGES in *.
  destruct (slot_cases s R d (a / 4096)) as [[_ E]|[r Hsl]]; [apply Hvm | done | unfold VPAGES; zmod | |].
  - destruct (Hp (a / 4096)) as [Hpr _]; [zmod|]. by rewrite E in Hpr.
  - destruct (walk_hit s R d a 0 r) as [Hw Hnz]; [apply Hvm | lia | done|].
    exists r. split; [done|]. split; [done|]. split; [done|]. symmetry. eapply entry_slot; [apply Hvm | done].
Qed.

(** ** clearpteu *)

(** The entry keeps its frame and loses the user bit. *)
Lemma clear_user e : 0 ≤ e < 4294967296 → e mod 4096 = 7 →
  Z.land e (u32 (Z.lnot PTE_U)) = e - 4 ∧ present (e - 4) = present e ∧ frame (e - 4) = frame e.
Proof.
  intros He Hm. assert (∃ pa, e = pa + 7 ∧ pa mod 4096 = 0 ∧ 0 ≤ pa < 4294967296) as (pa & -> & Hp & Hr)
    by (exists (e - 7); zmod). split.
  - rewrite <- (lor_page pa 7) by lia. rewrite Z.land_lor_distr_l.
    assert (Z.land pa (u32 (Z.lnot PTE_U)) = pa) as ->.
    { assert (Z.land pa 0xFFFFF000 = pa) as E by (rewrite land_page_mask by lia; lia).
      rewrite <- E at 1. rewrite <- Z.land_assoc. exact E. }
    change (Z.land 7 (u32 (Z.lnot PTE_U))) with 3. rewrite lor_page by lia. rewrite lor_page by lia. lia.
  - replace (pa + 7 - 4) with (pa + 3) by lia. split.
    + destruct (present (pa + 3)) eqn:E, (present (pa + 7)) eqn:E'; try done; exfalso.
      * apply present_spec in E. apply not_true_iff_false in E'. apply E', present_spec. zmod.
      * apply present_spec in E'. apply not_true_iff_false in E. apply E, present_spec. zmod.
    + unfold frame. by rewrite !PTE_ADDR_page by lia.
Qed.

Lemma frames_same m m' R :
  (∀ d v, R d = Dir → 0 ≤ v < UPAGES → present (entry m' d v) = present (entry m d v) ∧ frame (entry m' d v) = frame (entry m d v)) →
  frames_ok m R → frames_ok m' R.
Proof.
  intros He [H1 H2]. split.
  - intros d v Hd Hv. destruct (He d v Hd Hv) as [-> ->]. by apply H1.
  - intros p d v Hp. destruct (H2 p d v Hp) as (Hd & Hv & Hr). destruct (He d v Hd Hv) as [-> ->]. done.
Qed.

(** The flags with page [g] closed to the user. *)
Definition stack_flags (g v : Z) : Z := if v =? g then 3 else 7.

Lemma clearpteu_ok s0 R0 s R d n img g :
  vm_ok s0 R0 → space s R d n (λ _, 7) img → built s0 R0 s R d → 0 ≤ g < n →
  ∃ s', clearpteu d (4096 * g) s = Ok () s' ∧ space s' R d n (stack_flags g) img ∧ built s0 R0 s' R d.
Proof.
  intros Hvm0 Hs Hb Hg. destruct (space_walk s R d n (λ _, 7) img (4096 * g) Hs) as (r & Hw & Hnz & Hsl & Hld); [lia|].
  rewrite (Z.mul_comm 4096 g), Z.div_mul in Hsl, Hld by done. pose proof Hs as [Hvm Hd Hn Hp Hr Hby Hz]. unfold UPAGES in *.
  set (e := entry (pa_mem s) d g) in *. destruct (Hp g Hg) as [Hpr Hfl]. fold e in Hpr, Hfl.
  assert (0 ≤ e < 4294967296) as He by (eapply entry_range; [apply Hvm | done | unfold VPAGES; lia]).
  destruct (clear_user e He Hfl) as (E1 & E2 & E3).
  destruct (pt_set s R d g r (e - 4) (λ m, store32 m r (Z.land (load32 m r) (u32 (Z.lnot PTE_U))))) as (s' & Hw' & Hpt & Hen & Hda).
  { apply Hvm. } { done. } { unfold VPAGES. lia. } { zmod. } { by rewrite Hld, E1. }
  exists s'. split.
  { unfold clearpteu. rewrite (Z.mul_comm 4096 g) in *. rewrite (bind_ok _ _ _ _ _ Hw), Hnz. exact Hw'. }
  assert (∀ v, 0 ≤ v < VPAGES → frame (entry (pa_mem s') d v) = frame (entry (pa_mem s) d v)) as Hfrm.
  { intros v Hv. rewrite Hen by done. case_decide as Hc; [|done]. destruct Hc as [_ ->]. done. }
  unfold VPAGES in *. split; [split|].
  - split; [done|]. apply (frames_same (pa_mem s)); [|apply Hvm]. intros d' v Hd' Hv. unfold UPAGES in Hv.
    rewrite Hen by (done || unfold VPAGES; lia). case_decide as Hc; [|done]. destruct Hc as [-> ->]. done.
  - done.
  - unfold UPAGES. lia.
  - intros v Hv. rewrite Hen by (done || unfold VPAGES; lia). unfold stack_flags. destruct (Z.eqb_spec v g) as [->|Hne].
    + rewrite decide_True by done. rewrite E2. split; [done|]. zmod.
    + rewrite decide_False by tauto. by apply Hp.
  - intros v Hv. unfold VPAGES in Hv. rewrite Hen by (done || unfold VPAGES; lia). rewrite decide_False by lia. apply Hr. unfold VPAGES. lia.
  - intros a Ha. assert (uaddr (pa_mem s') d a = uaddr (pa_mem s) d a) as -> by (unfold uaddr; rewrite Hfrm by zmod; done).
    rewrite Hda; [by apply Hby|]. destruct (space_frame _ _ _ _ _ _ _ Hs Ha) as (-> & _). simpl. tauto.
  - done.
  - eapply built_step; [done | intros p; by left | | | done].
    + intros d' v Hd' Hne Hv. rewrite Hen by done. rewrite decide_False by tauto. done.
    + intros a Ha _. apply Hda. by apply plain_not_tabular.
Qed.

(** ** copyout *)

Lemma uva2ka_space word0 s R d n fl img a :
  space s R d n fl img → 0 ≤ a < 4096 * n →
  uva2ka word0 d a s = Ok (if user_flag (fl (a / 4096)) then frame (entry (pa_mem s) d (a / 4096)) else 0) s.
Proof.
  intros Hs Ha. destruct (space_walk _ _ _ _ _ _ _ Hs Ha) as (r & Hw & Hnz & _ & Hld). unfold uva2ka.
  rewrite (bind_ok _ _ _ _ _ Hw), bind_gets, Hnz, Hld. pose proof Hs as [Hvm Hd Hn Hp _ _ _]. unfold UPAGES in *.
  destruct (Hp (a / 4096)) as [Hpr Hfl]; [zmod|]. rewrite Hpr, <- Hfl, user_flag_mod; cbn [negb].
  - unfold user_flag, frame. by destruct (truthy _).
  - apply (entry_range s R); [apply Hvm | done | unfold VPAGES; zmod].
Qed.

Lemma copyout_bytes_loop_ok word0 R d n fl N : ∀ fuel s a bs img,
  (N < fuel)%nat → (a + Z.of_nat (length bs) + 4095) / 4096 - a / 4096 ≤ Z.of_nat N →
  space s R d n fl img → 0 ≤ a → a + Z.of_nat (length bs) ≤ 4096 * n →
  ∃ r s' img', copyout_bytes_loop word0 fuel d a bs s = Ok r s' ∧ space s' R d n fl img' ∧ inside s R s' d ∧
    ((r = 0 ∧ img' = put_bytes img a bs ∧ ∀ x, a ≤ x < a + Z.of_nat (length bs) → user_flag (fl (x / 4096)) = true) ∨
     (r = -1 ∧ ∃ x, a ≤ x < a + Z.of_nat (length bs) ∧ user_flag (fl (x / 4096)) = false)).
Proof.
  induction N as [|N IH]; intros [|fuel] s a bs img Hf HN Hs Ha Hend; try lia;
    cbn [copyout_bytes_loop]; destruct (Z.eqb_spec (Z.of_nat (length bs)) 0) as [El|Hnz].
  2: exfalso; zmod.
  1, 2: destruct bs; [|simpl in El; lia]; exists 0, s, img; split_and!; [done | done | apply inside_refl | left; split_and!; [done | done | simpl; lia]].
  pose proof (as_range _ _ _ _ _ _ Hs) as Hn. unfold UPAGES in Hn. rewrite PGROUNDDOWN_spec by lia.
  rewrite (bind_ok _ _ _ _ _ (uva2ka_space word0 _ _ _ _ _ _ (a - a mod 4096) Hs ltac:(zmod))).
  assert ((a - a mod 4096) / 4096 = a / 4096) as -> by zmod.
  destruct (user_flag (fl (a / 4096))) eqn:Hu.
  2: { exists (-1), s, img. split_and!; [done | done | apply inside_refl|]. right. split; [done|]. exists a. split; [lia | done]. }
  destruct (space_frame _ _ _ _ _ _ a Hs ltac:(lia)) as (Hfr & Hpg & _).
  assert (pa_page (frame (entry (pa_mem s) d (a / 4096)))) as Hpp.
  { rewrite <- Hpg. eapply pt_page_role; [apply (as_vm _ _ _ _ _ _ Hs) | done | done]. }
  rewrite page_nonzero by done. replace (a - (a - a mod 4096)) with (a mod 4096) by lia.
  set (c := if Z.of_nat (length bs) <? PGSIZE - a mod 4096 then Z.of_nat (length bs) else PGSIZE - a mod 4096).
  assert (0 < c ≤ Z.of_nat (length bs) ∧ a mod 4096 + c ≤ 4096 ∧ (c = Z.of_nat (length bs) ∨ a + c = a - a mod 4096 + 4096)) as (Hc1 & Hc2 & Hc3).
  { subst c. unfold PGSIZE. destruct (Z.ltb_spec (Z.of_nat (length bs)) (4096 - a mod 4096)); zmod. }
  destruct (space_write s R d n fl img a (take (Z.to_nat c) bs)) as (s1 & Hw & Hs1 & Hi1); [done | lia | rewrite length_take; lia|].
  change (frame (entry (pa_mem s) d (a / 4096)) + a mod 4096) with (uaddr (pa_mem s) d a).
  rewrite (bind_ok _ _ _ _ _ Hw). unfold PGSIZE. rewrite u32_small by zmod.
  assert (Z.of_nat (length (drop (Z.to_nat c) bs)) = Z.of_nat (length bs) - c) as Hdl by (rewrite length_drop; lia).
  destruct Hc3 as [Hc3|Hc3].
  - (* the last chunk *)
    assert (drop (Z.to_nat c) bs = []) as -> by (apply nil_length_inv; lia).
    assert (take (Z.to_nat c) bs = bs) as Et by (apply take_ge; lia). rewrite Et in Hs1.
    assert (∃ fuel', fuel = S fuel') as [fuel' ->] by (destruct fuel; [lia | eauto]).
    exists 0, s1, (put_bytes img a bs). split_and!; [done | done | done|]. left. split_and!; [done | done|].
    intros x Hx. assert (x / 4096 = a / 4096) as -> by zmod. done.
  - rewrite <- Hc3. destruct (IH fuel s1 (a + c) (drop (Z.to_nat c) bs) (put_bytes img a (take (Z.to_nat c) bs)))
      as (r & s' & img' & Hl & Hs' & Hi' & Hcase); [lia | rewrite Hdl; zmod | done | lia | lia|].
    exists r, s', img'. split; [exact Hl|]. split; [done|]. split; [by eapply inside_trans|]. rewrite Hdl in Hcase.
    destruct Hcase as [(-> & -> & Hall)|(-> & x & Hx & Hxf)]; [left|right; split; [done | exists x; split; [lia | done]]].
    split; [done|]. split.
    + rewrite <- (take_drop (Z.to_nat c) bs) at 3. rewrite put_bytes_app, length_take. do 2 f_equal. lia.
    + intros x Hx. destruct (decide (x < a + c)); [|apply Hall; lia]. assert (x / 4096 = a / 4096) as -> by zmod. done.
Qed.

Lemma copyout_bytes_ok word0 s R d n fl img a bs :
  space s R d n fl img → 0 ≤ a → a + Z.of_nat (length bs) ≤ 4096 * n →
  ∃ r s' img', copyout_bytes word0 d a bs s = Ok r s' ∧ space s' R d n fl img' ∧ inside s R s' d ∧
    ((r = 0 ∧ img' = put_bytes img a bs ∧ ∀ x, a ≤ x < a + Z.of_nat (length bs) → user_flag (fl (x / 4096)) = true) ∨
     (r = -1 ∧ ∃ x, a ≤ x < a + Z.of_nat (length bs) ∧ user_flag (fl (x / 4096)) = false)).
Proof.
  intros Hs Ha Hend. apply copyout_bytes_loop_ok with (N := Z.to_nat (Z.of_nat (length bs) / PGSIZE + 2)); try done; [lia|].
  unfold PGSIZE. zmod.
Qed.
End space.
