(* ===== verification/ExecLoad.v ===== *)
(** * Loading the segments of a program

    What the program headers of a file ask for, as an image of user memory
    computed from the bytes of the file, and the proof that [loaduvm] and the
    loop of [exec] produce this image. *)
From stdpp Require Import functions.
From S2P Require Import Prelude Machine CString Spin Kalloc Vm VmSpec VmUser VmSpace VmCopy VmMain.
From S2P Require Import Bio FsBlock FsInode FsFile File Exec ExecSpace.
Import KString.

(** ** The image of a program *)

(** Reading [n] bytes at [off] of a file with bytes [bs]. *)
Definition read_at (bs : list Z) (off n : Z) : Z * list Z :=
  let len := Z.of_nat (length bs) in
  if (len <? off) || (4294967296 <=? off + n) then (-1, [])
  else let m := Z.min n (len - off) in (m, take (Z.to_nat m) (drop (Z.to_nat off) bs)).

(** The bytes of a segment are in the file, and its place is in user memory,
    on a page boundary. *)
Definition seg_ok (bs : list Z) (ph : proghdr) : bool :=
  (p_filesz ph <=? p_memsz ph) && (p_vaddr ph + p_memsz ph <? KERNBASE) && (p_vaddr ph mod 4096 =? 0) &&
  ((p_filesz ph =? 0) || (p_off ph + p_filesz ph <=? Z.of_nat (length bs))).

Definition seg_bytes (bs : list Z) (ph : proghdr) : list Z :=
  take (Z.to_nat (p_filesz ph)) (drop (Z.to_nat (p_off ph)) bs).

(** The size and the contents after the [n] program headers from [off] on. *)
Fixpoint image_segs (bs : list Z) (n : nat) (off sz : Z) (img : Z → Z) : option (Z * (Z → Z)) :=
  match n with
  | O => Some (sz, img)
  | S n' =>
      let r := read_at bs off PROGHDR in
      if negb (fst r =? PROGHDR) then None
      else
        let ph := proghdr_of (snd r) in
        if negb (p_type ph =? ELF_PROG_LOAD) then image_segs bs n' (u32 (off + PROGHDR)) sz img
        else
          let sz' := Z.max sz (p_vaddr ph + p_memsz ph) in
          if seg_ok bs ph && negb (sz' =? 0)
          then image_segs bs n' (u32 (off + PROGHDR)) sz' (put_bytes img (p_vaddr ph) (seg_bytes bs ph))
          else None
  end.

Lemma image_segs_mono bs n : ∀ off sz img sz' img', image_segs bs n off sz img = Some (sz', img') → sz ≤ sz'.
Proof.
  induction n as [|n IH]; intros off sz img sz' img'; cbn [image_segs]; [intros [= -> _]; lia|].
  destruct (negb (fst _ =? _)); [done|]. destruct (negb (p_type _ =? _)); [apply IH|].
  destruct (seg_ok _ _ && _); [|done]. intros Hi%IH. lia.
Qed.

Lemma proghdr_range bs :
  let ph := proghdr_of bs in
  (0 ≤ p_off ph < 4294967296 ∧ 0 ≤ p_vaddr ph < 4294967296) ∧
  0 ≤ p_filesz ph < 4294967296 ∧ 0 ≤ p_memsz ph < 4294967296.
Proof.
  assert (wf_mem (put_bytes (λ _, 0) 0 bs)) as Hwf by (apply put_bytes_wf; intros x; lia).
  repeat split; by apply load32_range.
Qed.

Lemma few_free_mono R a b : a ≤ b → few_free R a → few_free R b.
Proof. intros Hab Hf l Hnd Hl. specialize (Hf l Hnd Hl). lia. Qed.

Lemma pages_up_mono a b : a ≤ b → pages_up a ≤ pages_up b.
Proof. intros. apply Z.div_le_mono; lia. Qed.

Section load.
Context {K : Type} `{PageAlloc K}.
Context {F : Type}.
Variable data : Z.
Context (Hdata : data_ok data).

Lemma onfst_ok {A} (m : M K A) k (f : F) a k' : m k = Ok a k' → onfst m (k, f) = Ok a (k', f).
Proof. intros E. unfold onfst. by rewrite E. Qed.

Lemma onsnd_ok {A} (m : M F A) (k : K) f a f' : m f = Ok a f' → onsnd m (k, f) = Ok a (k, f').
Proof. intros E. unfold onsnd. by rewrite E. Qed.

(** ** loaduvm *)

(** A file with bytes [bs], open in the states [Fok], and what reads it to
    kernel memory. *)
Context (Fok : F → Prop) (bs : list Z) (rdi : Z → Z → Z → M (K * F) Z).
Context (Hlen : Z.of_nat (length bs) < 2147483648).
Context (Hrdi : ∀ f off n, Fok f → 0 ≤ off < 4294967296 → 0 ≤ n < 4294967296 →
  ∃ f', Fok f' ∧ ∀ k dst, rdi dst off n (k, f) =
    (onfst (pa_write (λ m, put_bytes m dst (snd (read_at bs off n))));; mret (fst (read_at bs off n))) (k, f')).

Lemma read_at_bound off n : 0 ≤ n → Z.of_nat (length (snd (read_at bs off n))) ≤ n.
Proof.
  intros Hn. unfold read_at. destruct (_ || _); simpl; [lia|]. rewrite length_take. lia.
Qed.

(** A read is complete when the file goes that far. *)
Lemma read_at_full off n :
  0 ≤ off < 4294967296 → 0 < n ≤ 4096 →
  (fst (read_at bs off n) =? n) = (off + n <=? Z.of_nat (length bs)) ∧
  (off + n ≤ Z.of_nat (length bs) → snd (read_at bs off n) = take (Z.to_nat n) (drop (Z.to_nat off) bs)).
Proof.
  intros Ho Hn. unfold read_at. destruct (Z.ltb_spec (Z.of_nat (length bs)) off); cbn [orb].
  { cbn [fst]. split; [|lia]. rewrite (proj2 (Z.eqb_neq _ _)), (proj2 (Z.leb_gt _ _)) by lia. done. }
  destruct (Z.leb_spec 4294967296 (off + n)); cbn [fst snd].
  { split; [|lia]. rewrite (proj2 (Z.eqb_neq _ _)), (proj2 (Z.leb_gt _ _)) by lia. done. }
  split; [|intros; do 2 f_equal; lia].
  destruct (Z.leb_spec (off + n) (Z.of_nat (length bs))); [apply Z.eqb_eq | apply Z.eqb_neq]; lia.
Qed.

Lemma loaduvm_loop_ok R d n fl va off fsz N : ∀ fuel s f i img,
  (N < fuel)%nat → (fsz - i + 4095) / 4096 ≤ Z.of_nat N →
  space data s R d n fl img → Fok f → va mod 4096 = 0 → 0 ≤ va → va + fsz ≤ 4096 * n → 0 ≤ off < 4294967296 →
  0 ≤ i → i mod 4096 = 0 → (i = 0 ∨ off + i ≤ Z.of_nat (length bs) ∨ fsz ≤ i) →
  ∃ r s' f' img', loaduvm_loop rdi fuel d va off fsz i (s, f) = Ok r (s', f') ∧
    space data s' R d n fl img' ∧ Fok f' ∧ inside s R s' d ∧
    ((r = 0 ∧ (fsz ≤ i ∨ off + fsz ≤ Z.of_nat (length bs)) ∧
      img' = put_bytes img (va + i) (take (Z.to_nat (fsz - i)) (drop (Z.to_nat (off + i)) bs))) ∨
     (r = -1 ∧ i < fsz ∧ Z.of_nat (length bs) < off + fsz)).
Proof.
  induction N as [|N IH]; intros [|fuel] s f i img Hf HN Hs Hfo Hal Hva Hend Hoff Hi Him Hpre; try lia;
    cbn [loaduvm_loop]; destruct (Z.ltb_spec i fsz) as [Hlt|Hge]; cbn [negb].
  1: exfalso; zmod.
  1, 3: exists 0, s, f, img; split_and!; [done | done | done | apply inside_refl|]; left; split_and!; [done | by left|];
    by replace (Z.to_nat (fsz - i)) with 0%nat by lia.
  pose proof (as_range _ _ _ _ _ _ _ Hs) as Hn. unfold UPAGES in Hn. rewrite (u32_small (va + i)) by lia.
  destruct (space_walk data s R d n fl img (va + i) Hs) as (r & Hw & Hnz & _ & Hld); [lia|].
  rewrite (bind_ok _ _ _ _ _ (onfst_ok _ _ f _ _ Hw)), Hnz.
  rewrite (bind_ok _ _ _ _ _ (onfst_ok (gets (λ s, PTE_ADDR (load32 (pa_mem s) r))) s f _ _ eq_refl)), Hld.
  set (c := if fsz - i <? PGSIZE then fsz - i else PGSIZE).
  assert (0 < c ≤ 4096 ∧ (c = fsz - i ∨ c = 4096 ∧ 4096 ≤ fsz - i)) as [Hc Hcc].
  { subst c. unfold PGSIZE. destruct (Z.ltb_spec (fsz - i) 4096); lia. }
  assert (u32 (off + i) = off + i) as Eo by (apply u32_small; lia).
  destruct (Hrdi f (u32 (off + i)) c Hfo) as (f1 & Hf1 & Hr); [lia | lia|]. cbv zeta.
  assert (P2V (PTE_ADDR (entry (pa_mem s) d ((va + i) / 4096))) = uaddr (pa_mem s) d (va + i)) as ->.
  { unfold uaddr, frame. zmod. }
  destruct (space_write data s R d n fl img (va + i) (snd (read_at bs (u32 (off + i)) c))) as (s1 & Hw1 & Hs1 & Hi1);
    [done | lia | pose proof (read_at_bound (u32 (off + i)) c); zmod|].
  rewrite (bind_ok _ _ (s, f) (fst (read_at bs (u32 (off + i)) c)) (s1, f1));
    [|by rewrite Hr, (bind_ok _ _ _ _ _ (onfst_ok _ _ f1 _ _ Hw1))].
  rewrite Eo in *. destruct (read_at_full (off + i) c) as [Efull Hfull]; [lia | lia|]. rewrite Efull.
  destruct (Z.leb_spec (off + i + c) (Z.of_nat (length bs))) as [Hin|Hout]; cbn [negb].
  2: { exists (-1), s1, f1. eexists. split_and!; [done | exact Hs1 | done | done|]. right. split_and!; [done | lia | lia]. }
  unfold PGSIZE. rewrite u32_small by lia. rewrite Hfull in Hs1 by done.
  destruct (IH fuel s1 f1 (i + 4096) (put_bytes img (va + i) (take (Z.to_nat c) (drop (Z.to_nat (off + i)) bs))))
    as (r' & s' & f' & img' & Hl & Hs' & Hf' & Hi' & Hcase); [lia | zmod | done.. | lia | zmod | lia|].
  exists r', s', f', img'. split; [exact Hl|]. split; [done|]. split; [done|]. split; [by eapply inside_trans|].
  destruct Hcase as [(-> & Hl' & ->)|(-> & Hl' & Hb)]; [left|right; split_and!; [done | lia | lia]].
  split; [done|]. split; [lia|]. destruct Hcc as [Hcc|[Hcc Hcc']].
  - replace (Z.to_nat (fsz - (i + 4096))) with 0%nat by lia. cbn [take put_bytes]. by rewrite Hcc.
  - replace (Z.to_nat (fsz - i)) with (Z.to_nat c + Z.to_nat (fsz - (i + 4096)))%nat by lia.
    rewrite <- take_take_drop, put_bytes_app, drop_drop, length_take, length_drop.
    replace (Z.to_nat (off + i) + Z.to_nat c)%nat with (Z.to_nat (off + (i + 4096))) by lia. f_equal. lia.
Qed.

Lemma loaduvm_ok s f R d n fl img va off fsz :
  space data s R d n fl img → Fok f → va mod 4096 = 0 → 0 ≤ va → 0 ≤ fsz → va + fsz ≤ 4096 * n → 0 ≤ off < 4294967296 →
  ∃ r s' f' img', loaduvm rdi d va off fsz (s, f) = Ok r (s', f') ∧
    space data s' R d n fl img' ∧ Fok f' ∧ inside s R s' d ∧
    ((r = 0 ∧ (fsz = 0 ∨ off + fsz ≤ Z.of_nat (length bs)) ∧
      img' = put_bytes img va (take (Z.to_nat fsz) (drop (Z.to_nat off) bs))) ∨
     (r = -1 ∧ fsz ≠ 0 ∧ Z.of_nat (length bs) < off + fsz)).
Proof.
  intros Hs Hf Hal Hva Hfsz Hend Hoff. pose proof (as_range _ _ _ _ _ _ _ Hs) as Hn. unfold UPAGES in Hn.
  unfold loaduvm. rewrite u32_small by lia. change PGSIZE with 4096. rewrite Hal. cbn [Z.eqb negb].
  destruct (loaduvm_loop_ok R d n fl va off fsz (Z.to_nat (fsz / 4096 + 1)) (S (Z.to_nat (fsz / 4096 + 1))) s f 0 img)
    as (r & s' & f' & img' & E & Hs' & Hf' & Hi & Hc); try done; [lia | zmod | by left|].
  exists r, s', f', img'. split_and!; [done..|]. rewrite Z.sub_0_r, !Z.add_0_r in Hc.
  destruct Hc as [(-> & ? & ->)|(-> & ? & ?)]; [left|right]; split_and!; try done; lia.
Qed.
End load.

Section segments.
Context {K : Type} `{PageAlloc K}.
Context {S : Type} `{Transactions S}.
Variable sb : superblock.
Variable dev_read : Z → option (nat → Z → M (@fsys S) (Z * list Z)).
Variable data : Z.
Context (Hdata : data_ok data).

(** An inode with bytes [bs], open in the states [Fok]. *)
Context (Fok : @fsys S → Prop) (bs : list Z) (ip : nat).
Context (Hlen : Z.of_nat (length bs) < 2147483648).
Context (Hread : ∀ f off n, Fok f → 0 ≤ off < 4294967296 → 0 ≤ n < 4294967296 →
  ∃ f', readi sb dev_read ip off n f = Ok (read_at bs off n) f' ∧ Fok f').

Lemma readi_to_ok f off n :
  Fok f → 0 ≤ off < 4294967296 → 0 ≤ n < 4294967296 →
  ∃ f', Fok f' ∧ ∀ (k : K) dst, readi_to sb dev_read ip dst off n (k, f) =
    (onfst (pa_write (λ m, put_bytes m dst (snd (read_at bs off n))));; mret (fst (read_at bs off n))) (k, f').
Proof.
  intros Hf Hoff Hn. destruct (Hread f off n Hf Hoff Hn) as (f' & E & Hf'). exists f'. split; [done|].
  intros k dst. unfold readi_to. by rewrite (bind_ok _ _ _ _ _ (onsnd_ok _ k _ _ _ E)).
Qed.

Section loop.
Context (s0 : K) (R0 : Z → role) (d : Z) (Hvm0 : vm_ok s0 R0).

(** What the loop comes to: the image, or a reason to give up. *)
Definition loaded (img : option (Z * (Z → Z))) (out : outcome (exst (K := K) (S := S)) (option Z)) : Prop :=
  ∃ o s' f', out = Ok o (s', f') ∧ Fok f' ∧
    match o with
    | Some sz' => 0 ≤ sz' < KERNBASE ∧
        ∃ img' R', img = Some (sz', img') ∧ space data s' R' d (pages_up sz') (λ _, 7) img' ∧ built s0 R0 s' R' d
    | None => failing s0 R0 s' d ∧ ∀ sz' img', img = Some (sz', img') → few_free R0 (2051 + pages_up sz')
    end.

Lemma loaded_none s f : Fok f → failing s0 R0 s d → loaded None (Ok None (s, f)).
Proof. intros Hf Hs. exists None, s, f. done. Qed.

(** The memory of a segment that is within bounds. *)
Lemma segment_alloc s R sz newsz img :
  space data s R d (pages_up sz) (λ _, 7) img → built s0 R0 s R d → 0 ≤ sz < KERNBASE → 0 ≤ newsz < KERNBASE →
  let sz' := Z.max sz newsz in
  ∃ r s', allocuvm d sz newsz s = Ok r s' ∧
    ((r = sz' ∧ ∃ R', space data s' R' d (pages_up sz') (λ _, 7) img ∧ built s0 R0 s' R' d) ∨
     (r = 0 ∧ failing s0 R0 s' d ∧ few_free R0 (2051 + pages_up sz'))).
Proof.
  intros Hs Hb Hsz Hnew sz'. destruct (decide (newsz < sz)) as [Hlt|Hge].
  - exists sz, s. unfold allocuvm. rewrite (proj2 (Z.leb_gt _ _)), (proj2 (Z.ltb_lt _ _)) by lia. split; [done|]. left.
    assert (sz' = sz) as -> by (subst sz'; lia). split; [done|]. by exists R.
  - assert (sz' = newsz) as -> by (subst sz'; lia). apply (space_alloc data Hdata s0 R0 s R d sz newsz img); try done; lia.
Qed.

(** One segment within bounds, and what comes after it. *)
Lemma segment_ok s f R sz img ph next k :
  space data s R d (pages_up sz) (λ _, 7) img → built s0 R0 s R d → Fok f → 0 ≤ sz < KERNBASE →
  0 ≤ p_off ph < 4294967296 → 0 ≤ p_vaddr ph → 0 ≤ p_filesz ph ≤ p_memsz ph → p_vaddr ph + p_memsz ph < KERNBASE →
  let sz' := Z.max sz (p_vaddr ph + p_memsz ph) in
  (∀ n1 img1, next = Some (n1, img1) → sz' ≤ n1) →
  (∀ s' f' R', space data s' R' d (pages_up sz') (λ _, 7) (put_bytes img (p_vaddr ph) (seg_bytes bs ph)) →
     built s0 R0 s' R' d → Fok f' → loaded next (k sz' (s', f'))) →
  loaded (if seg_ok bs ph && negb (sz' =? 0) then next else None)
    ((sz' ← onfst (allocuvm d sz (u32 (p_vaddr ph + p_memsz ph)));
      if sz' =? 0 then mret None
      else if negb (p_vaddr ph mod PGSIZE =? 0) then mret None
      else
        r ← loaduvm (readi_to sb dev_read ip) d (p_vaddr ph) (p_off ph) (p_filesz ph);
        if r <? 0 then mret None else k sz') (s, f)).
Proof.
  intros Hs Hb Hf Hsz Hoff Hva Hfs Hend sz' Hmono Hk. unfold KERNBASE in *. rewrite u32_small by lia.
  destruct (segment_alloc s R sz (p_vaddr ph + p_memsz ph) img) as (r & s1 & Ea & Hc); [done | done | done | unfold KERNBASE; lia|].
  fold sz' in Hc. rewrite (bind_ok _ _ _ _ _ (onfst_ok _ _ f _ _ Ea)).
  destruct Hc as [(-> & R1 & Hs1 & Hb1)|(-> & Hfail & Hfew)].
  2: { exists None, s1, f. split; [done|]. split; [done|]. split; [done|]. intros n1 img1 E.
       destruct (seg_ok bs ph && negb (sz' =? 0)); [|done]. apply Hmono in E.
       eapply few_free_mono; [|exact Hfew]. apply pages_up_mono in E. lia. }
  destruct (sz' =? 0); [rewrite andb_false_r; apply loaded_none; [done | by eapply space_failing]|].
  rewrite andb_true_r. unfold seg_ok. change PGSIZE with 4096.
  rewrite (proj2 (Z.leb_le _ _)), (proj2 (Z.ltb_lt _ _)) by (unfold KERNBASE; lia). cbn [andb].
  destruct (Z.eqb_spec (p_vaddr ph mod 4096) 0) as [Hal|Hal]; cbn [negb andb]; [|apply loaded_none; [done | by eapply space_failing]].
  destruct (loaduvm_ok data Fok bs (readi_to sb dev_read ip) Hlen readi_to_ok s1 f R1 d (pages_up sz') (λ _, 7) img (p_vaddr ph) (p_off ph) (p_filesz ph))
    as (r & s2 & f2 & img2 & El & Hs2 & Hf2 & Hi2 & Hc); [done | done | done | done | lia | subst sz'; unfold pages_up; zmod | done|].
  rewrite (bind_ok _ _ _ _ _ El). assert (built s0 R0 s2 R1 d) as Hb2 by (by eapply built_inside).
  destruct Hc as [(-> & Hin & ->)|(-> & Hnz & Hout)].
  - assert ((p_filesz ph =? 0) || (p_off ph + p_filesz ph <=? Z.of_nat (length bs)) = true) as ->.
    { destruct Hin; [rewrite (proj2 (Z.eqb_eq _ _)) | rewrite (proj2 (Z.leb_le _ _)), orb_true_r]; done. }
    by apply (Hk s2 f2 R1).
  - rewrite (proj2 (Z.eqb_neq _ _)), (proj2 (Z.leb_gt _ _)) by done. cbn [orb].
    apply loaded_none; [done | by eapply space_failing].
Qed.

Lemma load_segs_ok n : ∀ s f R off sz img,
  space data s R d (pages_up sz) (λ _, 7) img → built s0 R0 s R d → Fok f → 0 ≤ sz < KERNBASE → 0 ≤ off < 4294967296 →
  loaded (image_segs bs n off sz img) (load_segs sb dev_read n ip d off sz (s, f)).
Proof.
  induction n as [|n IH]; intros s f R off sz img Hs Hb Hf Hsz Hoff; cbn [load_segs image_segs].
  { exists (Some sz), s, f. split; [done|]. split; [done|]. split; [done|]. by exists img, R. }
  destruct (Hread f off PROGHDR Hf Hoff) as (f1 & Er & Hf1); [by unfold PROGHDR|].
  rewrite (bind_ok _ _ _ _ _ (onsnd_ok _ s _ _ _ Er)).
  destruct (negb (fst (read_at bs off PROGHDR) =? PROGHDR)); [apply loaded_none; [done | by eapply space_failing]|].
  set (ph := proghdr_of (snd (read_at bs off PROGHDR))). cbv zeta.
  assert (0 ≤ u32 (off + PROGHDR) < 4294967296) as Hoff' by (unfold u32; apply Z.mod_pos_bound; lia).
  destruct (negb (p_type ph =? ELF_PROG_LOAD)); [by apply IH with R|].
  destruct (proghdr_range (snd (read_at bs off PROGHDR))) as ((Ro & Rv) & Rf & Rm). fold ph in Ro, Rv, Rf, Rm.
  assert (∀ b, seg_ok bs ph = false → loaded (if seg_ok bs ph && b then image_segs bs n (u32 (off + PROGHDR))
    (Z.max sz (p_vaddr ph + p_memsz ph)) (put_bytes img (p_vaddr ph) (seg_bytes bs ph)) else None) (Ok None (s, f1))) as Hbad.
  { intros b E. rewrite E. apply loaded_none; [done | by eapply space_failing]. }
  destruct (Z.ltb_spec (p_memsz ph) (p_filesz ph)).
  { apply Hbad. unfold seg_ok. by rewrite (proj2 (Z.leb_gt _ _)). }
  destruct (Z.ltb_spec (u32 (p_vaddr ph + p_memsz ph)) (p_vaddr ph)) as [Hwrap|Hwrap].
  { apply Hbad. unfold seg_ok. rewrite (proj2 (Z.ltb_ge (p_vaddr ph + p_memsz ph) _)), andb_false_r; [done|].
    unfold KERNBASE. destruct (decide (p_vaddr ph + p_memsz ph < 4294967296)); [rewrite u32_small in Hwrap; lia | lia]. }
  destruct (decide (p_vaddr ph + p_memsz ph < KERNBASE)) as [Hin|Hout].
  - apply (segment_ok s f1 R sz img ph _ (λ sz', load_segs sb dev_read n ip d (u32 (off + PROGHDR)) sz')); try done; try lia.
    + intros n1 img1. apply image_segs_mono.
    + intros s' f' R' Hs' Hb' Hf'. apply IH with R'; try done. lia.
  - assert (∀ A (m : Z → M (exst (K := K) (S := S)) A), (onfst (allocuvm d sz (u32 (p_vaddr ph + p_memsz ph))) ≫= m) (s, f1) = m 0 (s, f1)) as Ea.
    { intros A m. apply bind_ok, onfst_ok. unfold allocuvm. rewrite (proj2 (Z.leb_le _ _)); [done|].
      destruct (decide (p_vaddr ph + p_memsz ph < 4294967296)); [rewrite u32_small; lia|].
      unfold u32, KERNBASE in *. zmod. }
    rewrite Ea. apply Hbad. unfold seg_ok. by rewrite (proj2 (Z.ltb_ge (p_vaddr ph + p_memsz ph) _)), andb_false_r by lia.
Qed.
End loop.
End segments.
