(* ===== verification/ExecStack.v ===== *)
(** * The first stack of a program

    The arguments of [exec] as they are laid out at the top of the user
    memory, what [main] finds there, and the proof that the loop of [exec]
    produces this layout within the one page the stack has, or fails. *)
From stdpp Require Import functions.
From S2P Require Import Prelude Machine CString Spin Kalloc Vm VmSpec VmUser VmSpace VmCopy VmMain.
From S2P Require Import Bio FsBlock FsInode FsFile File Exec ExecSpace ExecLoad.
Import KString.

(** ** The layout *)

(** The address of string [a] below [sp], at a multiple of four. *)
Definition arg_sp (sp : Z) (a : list Z) : Z := (sp - (Z.of_nat (length a) + 1)) / 4 * 4.

Fixpoint arg_addrs (sp : Z) (argv : list (list Z)) : list Z :=
  match argv with
  | [] => []
  | a :: argv' => arg_sp sp a :: arg_addrs (arg_sp sp a) argv'
  end.

Fixpoint args_end (sp : Z) (argv : list (list Z)) : Z :=
  match argv with
  | [] => sp
  | a :: argv' => args_end (arg_sp sp a) argv'
  end.

Fixpoint put_args (img : Z → Z) (sp : Z) (argv : list (list Z)) : Z → Z :=
  match argv with
  | [] => img
  | a :: argv' => put_args (put_bytes img (arg_sp sp a) (a ++ [0])) (arg_sp sp a) argv'
  end.

(** The words below the strings, and the stack pointer. *)
Definition stack_words (top : Z) (argv : list (list Z)) : list Z :=
  [0xffffffff; Z.of_nat (length argv); args_end top argv - (Z.of_nat (length argv) + 1) * 4] ++ arg_addrs top argv ++ [0].

Definition stack_ptr (top : Z) (argv : list (list Z)) : Z := args_end top argv - (3 + Z.of_nat (length argv) + 1) * 4.

Definition put_stack (img : Z → Z) (top : Z) (argv : list (list Z)) : Z → Z :=
  put_bytes (put_args img top argv) (stack_ptr top argv) (mjoin (word_bytes <$> stack_words top argv)).

Lemma arg_sp_below sp a : arg_sp sp a + Z.of_nat (length a) + 1 ≤ sp.
Proof. unfold arg_sp. zmod. Qed.

Lemma arg_sp_close sp a : sp - 4 < arg_sp sp a + Z.of_nat (length a) + 1.
Proof. unfold arg_sp. zmod. Qed.

Lemma args_end_below argv : ∀ sp, args_end sp argv ≤ sp.
Proof.
  induction argv as [|a argv IH]; intros sp; cbn [args_end]; [lia|].
  pose proof (IH (arg_sp sp a)). pose proof (arg_sp_below sp a). lia.
Qed.

Lemma length_addrs argv : ∀ sp, length (arg_addrs sp argv) = length argv.
Proof. induction argv as [|a argv IH]; intros sp; cbn [arg_addrs length]; [done | by rewrite IH]. Qed.

Lemma addrs_bounds argv : ∀ sp i p, arg_addrs sp argv !! i = Some p → args_end sp argv ≤ p ≤ sp.
Proof.
  induction argv as [|a argv IH]; intros sp [|i] p; cbn [arg_addrs args_end]; try done.
  - intros [= <-]. pose proof (arg_sp_below sp a). pose proof (args_end_below argv (arg_sp sp a)). lia.
  - intros Hi%IH. pose proof (arg_sp_below sp a). lia.
Qed.

(** Strings are written below the stack pointer, and later ones below the
    earlier ones. *)
Lemma put_args_above argv : ∀ img sp x, sp ≤ x → put_args img sp argv x = img x.
Proof.
  induction argv as [|a argv IH]; intros img sp x Hx; cbn [put_args]; [done|]. pose proof (arg_sp_below sp a).
  rewrite IH by lia. rewrite put_bytes_byte, decide_False; [done|]. rewrite length_app. simpl. lia.
Qed.

Lemma put_args_below argv : ∀ img sp x, x < args_end sp argv → put_args img sp argv x = img x.
Proof.
  induction argv as [|a argv IH]; intros img sp x Hx; cbn [put_args args_end] in *; [done|].
  pose proof (args_end_below argv (arg_sp sp a)).
  rewrite IH by lia. rewrite put_bytes_byte, decide_False by lia. done.
Qed.

(** A C string in user memory. *)
Definition cstring_at (img : Z → Z) (p : Z) (a : list Z) : Prop :=
  (∀ k c, a !! k = Some c → img (p + Z.of_nat k) = c) ∧ img (p + Z.of_nat (length a)) = 0.

Lemma put_args_string argv : ∀ img sp i a,
  Forall (Forall (λ c, 0 ≤ c < 256)) argv → argv !! i = Some a →
  ∃ p, arg_addrs sp argv !! i = Some p ∧ cstring_at (put_args img sp argv) p a.
Proof.
  induction argv as [|b argv IH]; intros img sp [|i] a Hb Hi; try done; apply Forall_cons in Hb as [Hb Hbs]; cbn [arg_addrs put_args].
  - injection Hi as ->. exists (arg_sp sp a). split; [done|]. split.
    + intros k c Hk. rewrite put_args_above by lia. pose proof (lookup_lt_Some _ _ _ Hk) as Hlt.
      rewrite put_bytes_byte, decide_True by (rewrite length_app; simpl; lia).
      replace (Z.to_nat (arg_sp sp a + Z.of_nat k - arg_sp sp a)) with k by lia.
      rewrite app_nth1 by done. rewrite (nth_lookup_Some _ _ _ _ Hk).
      unfold u8. apply Z.mod_small. by eapply (Forall_lookup_1 _ _ _ _ Hb).
    + rewrite put_args_above by lia. rewrite put_bytes_byte, decide_True by (rewrite length_app; simpl; lia).
      replace (Z.to_nat _) with (length a) by lia. by rewrite app_nth2, Nat.sub_diag by lia.
  - by apply IH.
Qed.

(** ** Words *)

Lemma word_bytes_store m a w : put_bytes m a (word_bytes w) = store32 m a w.
Proof.
  assert (∀ v, u8 (v mod 256) = u8 v) as E by (intros v; unfold u8; by rewrite Z.mod_mod).
  unfold word_bytes, store32. cbn [put_bytes]. unfold store8. rewrite !E.
  by rewrite <- !Z.add_assoc.
Qed.

Lemma words_cons w ws : mjoin (word_bytes <$> (w :: ws)) = word_bytes w ++ mjoin (word_bytes <$> ws).
Proof. done. Qed.

Lemma length_words ws : length (mjoin (word_bytes <$> ws)) = (4 * length ws)%nat.
Proof. induction ws as [|w ws IH]; [done|]. rewrite words_cons, length_app, IH. simpl. lia. Qed.

Lemma load_put_words ws : ∀ m a i w, ws !! i = Some w → 0 ≤ w < 4294967296 →
  load32 (put_bytes m a (mjoin (word_bytes <$> ws))) (a + 4 * Z.of_nat i) = w.
Proof.
  induction ws as [|w' ws IH]; intros m a [|i] w Hi Hw; try done; rewrite words_cons, put_bytes_app;
    change (length (word_bytes w')) with 4%nat.
  - injection Hi as ->. rewrite Z.mul_0_r, Z.add_0_r. rewrite word_bytes_store.
    etransitivity; [|by apply (load32_store32_eq m a w)]. apply load32_ext. intros x Hx.
    by rewrite put_bytes_byte, decide_False by lia.
  - replace (a + 4 * Z.of_nat (S i)) with (a + Z.of_nat 4 + 4 * Z.of_nat i) by lia. by apply IH.
Qed.

(** What [main] finds at the stack pointer: a return address, [argc] and
    [argv], an array of pointers to the arguments that ends with a null
    pointer. *)
Record main_args (img : Z → Z) (sp : Z) (argv : list (list Z)) : Prop := {
  ma_ret : load32 img sp = 0xffffffff;
  ma_argc : load32 img (sp + 4) = Z.of_nat (length argv);
  ma_argv : load32 img (sp + 8) = sp + 12;
  ma_arg i a : argv !! i = Some a → ∃ p, load32 img (sp + 12 + 4 * Z.of_nat i) = p ∧ sp < p ∧ cstring_at img p a;
  ma_null : load32 img (sp + 12 + 4 * Z.of_nat (length argv)) = 0
}.

Lemma put_stack_main img top argv :
  Forall (Forall (λ c, 0 ≤ c < 256)) argv → (length argv ≤ MAXARG)%nat → 0 ≤ stack_ptr top argv → top < 4294967296 →
  main_args (put_stack img top argv) (stack_ptr top argv) argv.
Proof.
  intros Hb Hargc Hsp Htop. unfold MAXARG in Hargc. pose proof (args_end_below argv top) as Hend.
  assert (args_end top argv = stack_ptr top argv + 4 * (Z.of_nat (length argv) + 4)) as He by (unfold stack_ptr; lia).
  assert (∀ i w, stack_words top argv !! i = Some w → 0 ≤ w < 4294967296 →
    load32 (put_stack img top argv) (stack_ptr top argv + 4 * Z.of_nat i) = w) as Hw by (intros; by apply load_put_words).
  split.
  - rewrite <- (Hw 0%nat 0xffffffff) by done. f_equal. lia.
  - rewrite <- (Hw 1%nat (Z.of_nat (length argv))) by (done || lia). f_equal.
  - rewrite <- (Hw 2%nat (stack_ptr top argv + 12)); [f_equal | | lia]. unfold stack_words, stack_ptr. cbn [app lookup list_lookup]. f_equal. lia.
  - intros i a Hi. destruct (put_args_string argv img top i a Hb Hi) as (p & Hp & Hs1 & Hs2).
    pose proof (addrs_bounds _ _ _ _ Hp) as Hpb. exists p. split; [|split; [lia|]].
    + rewrite <- (Hw (3 + i)%nat p); [f_equal; lia | | lia]. unfold stack_words.
      change (([0xffffffff; Z.of_nat (length argv); args_end top argv - (Z.of_nat (length argv) + 1) * 4] ++ arg_addrs top argv ++ [0]) !! (3 + i)%nat)
        with ((arg_addrs top argv ++ [0]) !! i). by apply lookup_app_l_Some.
    + assert (∀ x, args_end top argv ≤ x → put_stack img top argv x = put_args img top argv x) as Hsame.
      { intros x Hx. unfold put_stack. rewrite put_bytes_byte, decide_False; [done|]. rewrite length_words.
        unfold stack_words. rewrite !length_app, length_addrs. simpl. lia. }
      split; [intros k c Hk|]; rewrite Hsame by lia; [by apply Hs1 | done].
  - rewrite <- (Hw (3 + length argv)%nat 0); [f_equal; lia | | lia]. unfold stack_words.
    change (([0xffffffff; Z.of_nat (length argv); args_end top argv - (Z.of_nat (length argv) + 1) * 4] ++ arg_addrs top argv ++ [0]) !! (3 + length argv)%nat)
      with ((arg_addrs top argv ++ [0]) !! length argv). rewrite lookup_app_r by (rewrite length_addrs; lia).
    by rewrite length_addrs, Nat.sub_diag.
Qed.

(** ** The loop over the arguments *)

Lemma land_word_mask a : 0 ≤ a < 4294967296 → Z.land a (u32 (Z.lnot 3)) = a / 4 * 4.
Proof.
  intros Ha. change (u32 (Z.lnot 3)) with (Z.shiftl (Z.ones 30) 2).
  assert (Z.land a (Z.shiftl (Z.ones 30) 2) = Z.shiftl (Z.shiftr a 2) 2) as ->.
  { replace (Z.shiftr a 2) with (Z.land (Z.shiftr a 2) (Z.ones 30)).
    - apply Z.bits_inj'. intros n Hn. rewrite Z.land_spec, !Z.shiftl_spec by done. destruct (Z.leb_spec 2 n).
      + rewrite Z.land_spec, Z.shiftr_spec by lia. by replace (n - 2 + 2) with n by lia.
      + rewrite !(Z.testbit_neg_r _ (n - 2)) by lia. apply andb_false_r.
    - rewrite Z.land_ones by lia. apply Z.mod_small. rewrite Z.shiftr_div_pow2 by lia.
      change (2 ^ 2) with 4. change (2 ^ 30) with 1073741824. zmod. }
  rewrite Z.shiftl_mul_pow2, Z.shiftr_div_pow2 by lia. done.
Qed.

Section push.
Context {K : Type} `{PageAlloc K}.
Context {S : Type} `{Transactions S}.
Variables data word0 : Z.

(** The stack is page [g + 1], above the closed page [g]. *)
Context (d g : Z) (R : Z → role).

Lemma stack_flags_user v : user_flag (stack_flags g v) = negb (v =? g).
Proof. unfold stack_flags. by destruct (v =? g). Qed.

(** A copy that ends at [sp] or just below, within or above the stack page,
    is complete when it stays in the page and refused otherwise. *)
Lemma stack_copy s img sp a bs :
  space data s R d (g + 2) (stack_flags g) img → 0 ≤ g → 4096 * (g + 1) ≤ sp ≤ 4096 * (g + 2) →
  0 ≤ a → a + Z.of_nat (length bs) ≤ sp → sp - 4 < a + Z.of_nat (length bs) → (0 < length bs)%nat →
  ∃ r s' img', copyout_bytes word0 d a bs s = Ok r s' ∧ space data s' R d (g + 2) (stack_flags g) img' ∧ inside s R s' d ∧
    ((r = 0 ∧ 4096 * (g + 1) ≤ a ∧ img' = put_bytes img a bs) ∨ (r = -1 ∧ a < 4096 * (g + 1))).
Proof.
  intros Hs Hg Hsp Ha Hend Hclose Hne.
  destruct (copyout_bytes_ok data word0 s R d (g + 2) (stack_flags g) img a bs) as (r & s' & img' & E & Hs' & Hi & Hc); [done | done | lia|].
  exists r, s', img'. split_and!; [done..|]. destruct Hc as [(-> & -> & Hall)|(-> & x & Hx & Hf)]; [left|right]; split; try done.
  - split; [|done]. destruct (decide (4096 * (g + 1) ≤ a)); [done|]. exfalso.
    set (x := Z.max a (4096 * (g + 1) - 4)). specialize (Hall x). rewrite stack_flags_user in Hall.
    assert (x / 4096 = g) as E' by (subst x; destruct (decide (4096 * g ≤ a)); zmod).
    rewrite E', Z.eqb_refl in Hall. specialize (Hall ltac:(lia)). done.
  - rewrite stack_flags_user, negb_false_iff, Z.eqb_eq in Hf. zmod.
Qed.

Lemma push_args_ok argv : ∀ (f : @fsys S) argc s img sp,
  space data s R d (g + 2) (stack_flags g) img → 0 ≤ g → 4096 * (g + 1) ≤ sp ≤ 4096 * (g + 2) →
  Forall (λ a, Z.of_nat (length a) < 4096) argv →
  ∃ o s' img', push_args word0 argv argc d sp (s, f) = Ok o (s', f) ∧ space data s' R d (g + 2) (stack_flags g) img' ∧ inside s R s' d ∧
    match o with
    | Some (sp', ps) => (argc + length argv ≤ MAXARG ∨ argv = [])%nat ∧ 4096 * (g + 1) ≤ args_end sp argv ∧
        sp' = args_end sp argv ∧ ps = arg_addrs sp argv ∧ img' = put_args img sp argv
    | None => ¬ (argc + length argv ≤ MAXARG)%nat ∨ args_end sp argv < 4096 * (g + 1)
    end.
Proof.
  induction argv as [|a argv IH]; intros f argc s img sp Hs Hg Hsp Hlen; cbn [push_args args_end arg_addrs put_args].
  { exists (Some (sp, [])), s, img. split_and!; [done | done | apply inside_refl | by right | lia | done..]. }
  apply Forall_cons in Hlen as [Ha Hlen]. cbn [length].
  destruct (Nat.leb_spec MAXARG argc).
  { exists None, s, img. split_and!; [done | done | apply inside_refl | left; lia]. }
  pose proof (as_range _ _ _ _ _ _ _ Hs) as Hn. unfold UPAGES in Hn.
  rewrite u32_small by lia. rewrite land_word_mask by lia. fold (arg_sp sp a).
  pose proof (arg_sp_below sp a) as Hb. pose proof (arg_sp_close sp a) as Hc.
  destruct (stack_copy s img sp (arg_sp sp a) (a ++ [0])) as (r & s1 & img1 & E & Hs1 & Hi1 & Hcase);
    [done | done | done | unfold arg_sp; zmod | rewrite length_app; simpl; lia.. |].
  rewrite (bind_ok _ _ _ _ _ (onfst_ok _ _ f _ _ E)). destruct Hcase as [(-> & Hlow & ->)|(-> & Hlow)].
  - change (0 <? 0) with false. cbv iota.
    destruct (IH f (argc + 1)%nat s1 (put_bytes img (arg_sp sp a) (a ++ [0])) (arg_sp sp a)) as (o & s' & img' & E' & Hs' & Hi' & Ho);
      [done | done | lia | done|].
    rewrite (bind_ok _ _ _ _ _ E'). exists ((λ '(sp', ps), (sp', arg_sp sp a :: ps)) <$> o), s', img'.
    split; [done|]. split; [done|]. split; [by eapply inside_trans|]. destruct o as [[sp' ps]|]; simpl.
    + destruct Ho as (Hargc & Hfit & -> & -> & ->). split_and!; try done. left. destruct Hargc as [?| ->]; simpl; lia.
    + destruct Ho; [left | right]; lia.
  - exists None, s1, img1. split_and!; [done | done | done|]. right. pose proof (args_end_below argv (arg_sp sp a)). lia.
Qed.
End push.
