(* ===== verification/ExecFile.v ===== *)
(** * The file of a program

    Opening, reading and closing the file that [exec] loads: one transaction
    of the file system that leaves the disk and the counts of the inode cache
    as they were. *)
From stdpp Require Import functions.
From S2P Require Import Prelude Machine CString Spin Kalloc Bio FsBlock FsInode FsDinode FsFile FsData FsTrunc FsCache.
From S2P Require Import FsPath FsDir FsNamei File Exec ExecLoad.
Import KString.

(** Reading part of a file that is known as a whole. *)
Lemma fbytes_part v addrs off n size :
  0 ≤ off → 0 ≤ n → off + n ≤ size →
  fbytes v addrs off n = take (Z.to_nat n) (drop (Z.to_nat off) (fbytes v addrs 0 size)).
Proof.
  intros Ho Hn Hs. replace size with (off + (n + (size - off - n))) by lia. rewrite !fbytes_app by lia.
  assert (∀ o m, length (fbytes v addrs o m) = Z.to_nat m) as Hl by (intros; unfold fbytes; by rewrite length_fmap, length_seqZ).
  rewrite drop_app_length' by (rewrite Hl; lia). rewrite Z.add_0_l. by rewrite take_app_length' by (rewrite Hl; lia).
Qed.

Section file.
Context {S : Type} `{Transactions S}.
Variable sb : superblock.
Context (Hlay : layout_ok sb).
Variable dev_read : Z → option (nat → Z → M (@fsys S) (Z * list Z)).

(** The inode at [path] and its bytes. *)
Definition prog_inum (v : Z → block) (start : Z) (path : list Z) : option Z :=
  resolve sb false v start (take dirsiz <$> elements path).

Definition prog_bytes (v : Z → block) (j : Z) : list Z :=
  fbytes v (i_addrs (on_disk sb v j)) 0 (i_size (on_disk sb v j)).

(** The file system between operations, with [path] to be looked up from
    inode [start] and leading to no device. *)
Record fs_ready (f : @fsys S) (O : Z → brole) (T : Z → Prop) (cwd : option nat) (start : Z) (path : list Z) : Prop := {
  fr_idle : tx_idle (fst f);
  fr_alloc : alloc_ok sb (bs_view (fst f)) O;
  fr_tree : tree_ok sb (bs_view (fst f)) O T;
  fr_cache : cache_ok sb (bs_view (fst f)) None (snd f);
  fr_room : (2 ≤ nfree (snd f))%nat;
  fr_path : string_ok path;
  fr_start : T start;
  fr_cwd : if hd 0 path =? slash then start = ROOTINO
           else ∃ c i, cwd = Some c ∧ snd f !! c = Some i ∧ in_use ROOTDEV start i = true;
  fr_file j : prog_inum (bs_view (fst f)) start path = Some j →
    i_type (on_disk sb (bs_view (fst f)) j) ≠ T_DEV ∧ file_ok (bs_view (fst f)) O (on_disk sb (bs_view (fst f)) j)
}.

(** The same disk, and no reference or lock left behind. *)
Definition fs_same (f f' : @fsys S) : Prop :=
  tx_idle (fst f') ∧ (∀ x, bs_first ≤ x → bs_view (fst f') x = bs_view (fst f) x) ∧
  cache_ok sb (bs_view (fst f)) None (snd f') ∧ ∀ d n, refs (snd f') d n = refs (snd f) d n.

(** [end_op] with the cache back at rest. *)
Lemma close_txn f s ic :
  bs_inv s → bs_held s = ∅ → (∀ x, bs_view s x = bs_view (fst f) x) →
  cache_ok sb (bs_view (fst f)) None ic → (∀ d n, refs ic d n = refs (snd f) d n) →
  ∃ f', onbs tx_end (s, ic) = Ok () f' ∧ fs_same f f'.
Proof.
  intros Hi Hh Hv Hc Hr. destruct (tx_end_ok s Hi Hh) as (s' & E & Hidle & Hv'). exists (s', ic).
  split; [by apply onbs_ok|]. split; [done|]. split; [intros x Hx; simpl; by rewrite Hv', Hv | done].
Qed.

(** [readi] of an inode whose entry agrees with the disk. *)
Lemma read_synced v O s ic ip i j off n :
  fs_ok sb s O → (∀ x, bs_view s x = v x) → ic !! ip = Some i → synced sb v i → i_inum i = j →
  i_type (on_disk sb v j) ≠ T_DEV → file_ok v O (on_disk sb v j) → 0 ≤ off < 4294967296 → 0 ≤ n < 4294967296 →
  ∃ s', readi sb dev_read ip off n (s, ic) = Ok (read_at (prog_bytes v j) off n) (s', ic) ∧ same_disk s s'.
Proof using Hlay.
  intros Hok Hv Hi Hsy Hj Ht Hf Hoff Hn. destruct (synced_fields sb v i j Hsy Hj) as (Et & _ & Es & Ea).
  assert (i_inum (on_disk sb v j) = j) as Ej by done.
  assert (file_ok v O i) as Hfi by (destruct Hf as [A B C]; split; [by rewrite Hj, Ea, <- Ej | by rewrite Es | by rewrite Es, Ea]).
  pose proof (fi_size _ _ _ Hf) as Hsz. assert (length (prog_bytes v j) = Z.to_nat (i_size (on_disk sb v j))) as Hl.
  { unfold prog_bytes, fbytes. by rewrite length_fmap, length_seqZ. }
  unfold read_at. rewrite Hl, Z2Nat.id by lia. destruct (Z.ltb_spec (i_size (on_disk sb v j)) off) as [Hlt|Hge]; cbn [orb].
  { exists s. split; [|apply same_disk_refl, Hok]. eapply readi_beyond; [done | by rewrite Et | done | done | left; lia]. }
  destruct (Z.leb_spec 4294967296 (off + n)).
  { exists s. split; [|apply same_disk_refl, Hok]. eapply readi_beyond; [done | by rewrite Et | done | done | right; lia]. }
  destruct (readi_ok sb Hlay dev_read s ic ip i O off n) as (s' & E & Hs'); [done | done | | by rewrite Et | lia | lia | lia |].
  { by apply (file_ok_view v). }
  exists s'. split; [|done]. rewrite E, Es, Ea. do 2 f_equal.
  rewrite (fbytes_ext v (bs_view s) (i_addrs (on_disk sb v j)) (i_addrs (on_disk sb v j))) by (intros; by apply fbyte_view). apply fbytes_part; lia.
Qed.

(** [begin_op] and [namei], up to the lock on the inode. *)
Lemma open_program f O T cwd start path :
  fs_ready f O T cwd start path →
  ∃ f1, onbs tx_begin f = Ok () f1 ∧
  match prog_inum (bs_view (fst f)) start path with
  | None => ∃ f2 f3, namei sb dev_read cwd path [] f1 = Ok None f2 ∧ onbs tx_end f2 = Ok () f3 ∧ fs_same f f3
  | Some j => ∃ ip f2 f3 (Fok : @fsys S → Prop),
      namei sb dev_read cwd path [] f1 = Ok (Some ip) f2 ∧ ilock sb ip f2 = Ok () f3 ∧ Fok f3 ∧
      Z.of_nat (length (prog_bytes (bs_view (fst f)) j)) < 2147483648 ∧
      (∀ f' off n, Fok f' → 0 ≤ off < 4294967296 → 0 ≤ n < 4294967296 →
        ∃ f'', readi sb dev_read ip off n f' = Ok (read_at (prog_bytes (bs_view (fst f)) j) off n) f'' ∧ Fok f'') ∧
      (∀ f', Fok f' → ∃ f'' f''', iunlockput sb ip f' = Ok () f'' ∧ onbs tx_end f'' = Ok () f''' ∧ fs_same f f''')
  end.
Proof using Hlay.
  destruct f as [s ic]. intros [Hidle Hal Htree Hc Hroom Hp HT Hcwd Hfile]. cbn [fst snd] in *. set (v := bs_view s) in *.
  destruct (tx_begin_ok s Hidle) as (s1 & E1 & Hi1 & Hh1 & _ & Hv1). exists (s1, ic). split; [by apply onbs_ok|].
  assert (fs_ok sb s1 O) as Hok1.
  { split; [done|]. split; [|done]. eapply alloc_ok_ext; [|done]. intros a. by rewrite Hv1. }
  destruct (namex_ok sb Hlay dev_read v O T false cwd path [] s1 ic start) as (s2 & Hs2 & Hw); try done.
  fold (prog_inum v start path) in Hw. pose proof (same_disk_ok _ _ _ _ Hok1 Hs2) as Hok2.
  assert (∀ x, bs_view s2 x = v x) as Hv2 by (intros x; by rewrite (sd_view _ _ Hs2), Hv1).
  destruct (prog_inum v start path) as [j|].
  - destruct Hw as (ip & i & buf & ic2 & En & Hc2 & Hr2 & Hrefs & _).
    destruct (ilock_step sb Hlay v O T Htree s2 ic2 ip i j Hv2 Hok2 Hc2 Hr2)
      as (s3 & i3 & Hs3 & El & Hc3 & Hr3 & _ & Hsy & _ & Hrefs3 & _).
    destruct (Hfile j eq_refl) as [Htd Hfo].
    exists ip, (s2, ic2), (s3, <[ip := i3]> ic2), (λ f', snd f' = <[ip := i3]> ic2 ∧ same_disk s3 (fst f')).
    split; [unfold namei; by rewrite (bind_ok _ _ _ _ _ En)|]. split; [done|].
    pose proof (same_disk_ok _ _ _ _ Hok2 Hs3) as Hok3. split; [split; [done | apply same_disk_refl, Hok3]|]. split; [|split].
    + unfold prog_bytes, fbytes. rewrite length_fmap, length_seqZ. pose proof (fi_size _ _ _ Hfo).
      change (MAXFILE * BSIZE) with 71680 in *. lia.
    + intros [s' ic'] off n [Hic Hs'] Hoff Hn. cbn [fst snd] in *. subst ic'.
      pose proof (proj1 Hr3) as Hi3. pose proof (in_use_ref _ _ _ (proj1 (proj2 Hr3))) as (_ & _ & Hinum).
      destruct (read_synced v O s' (<[ip := i3]> ic2) ip i3 j off n) as (s'' & E & Hs''); try done.
      * by eapply same_disk_ok.
      * intros x. by rewrite (sd_view _ _ Hs'), (sd_view _ _ Hs3).
      * exists (s'', <[ip := i3]> ic2). split; [done|]. split; [done|]. by eapply same_disk_trans.
    + intros [s' ic'] [Hic Hs']. cbn [fst snd] in *. subst ic'.
      destruct (drop_step sb v T _ _ _ _ _ Hc3 Hr3 (or_intror eq_refl)) as (Hc4 & Hrefs4 & _).
      eexists (s', _). pose proof (same_disk_ok _ _ _ _ Hok3 Hs') as (Hi' & _ & Hh').
      destruct (close_txn (s, ic) s' _ Hi' Hh' ltac:(intros x; by rewrite (sd_view _ _ Hs'), (sd_view _ _ Hs3), Hv2) Hc4) as (f' & E & Hsame).
      { intros d n. rewrite Hrefs4, Hrefs3, Hrefs. simpl. lia. }
      exists f'. split; [by apply (iunlockput_step sb v O T Htree s' _ ip i3 j)|]. done.
  - destruct Hw as (ic2 & En & Hc2 & Hrefs). destruct Hok2 as (Hi2 & _ & Hh2).
    destruct (close_txn (s, ic) s2 ic2 Hi2 Hh2 Hv2 Hc2 Hrefs) as (f3 & E & Hsame).
    exists (s2, ic2), f3. split; [unfold namei; by rewrite (bind_ok _ _ _ _ _ En) | done].
Qed.
End file.
