(* ===== verification/ExecSpec.v ===== *)
(** * exec

    The image of a program and its arguments as a function of the bytes of
    the file, and the theorem that [exec] makes it the address space of the
    process or leaves everything as it was. *)
From stdpp Require Import functions.
From S2P Require Import Prelude Machine CString Spin Kalloc Proc Signal Vm VmSpec VmUser VmSpace VmCopy VmMain.
From S2P Require Import Bio FsBlock FsInode FsFile FsData FsCache FsPath FsDir FsNamei File.
From S2P Require Import Exec ExecSpace ExecLoad ExecStack ExecFile.
Import KString.

(** ** The image *)

(** Entry point, size, stack pointer and contents. *)
Record image := Image { im_entry : Z; im_size : Z; im_sp : Z; im_bytes : Z → Z }.

(** Above the segments, of [sz] bytes, come a page closed to the user and
    the page of the stack. *)
Definition stack_image (entry sz : Z) (img : Z → Z) (argv : list (list Z)) : option image :=
  let top := 4096 * (pages_up sz + 2) in
  if (top <? KERNBASE) && (length argv <=? MAXARG)%nat && (top - 4096 <=? stack_ptr top argv)
  then Some (Image entry top (stack_ptr top argv) (put_stack img top argv))
  else None.

Definition exec_image (bs : list Z) (argv : list (list Z)) : option image :=
  let r := read_at bs 0 ELFHDR in
  if negb (fst r =? ELFHDR) then None
  else
    let elf := elfhdr_of (snd r) in
    if negb (e_magic elf =? ELF_MAGIC) then None
    else
      '(sz, img) ← image_segs bs (Z.to_nat (e_phnum elf)) (e_phoff elf) 0 (λ _, 0);
      stack_image (e_entry elf) sz img argv.

(** The image is at least as large as its segments. *)
Lemma stack_image_size entry sz img argv i : stack_image entry sz img argv = Some i → pages_up sz ≤ im_size i / 4096.
Proof.
  unfold stack_image. destruct (_ && _); [|done]. intros [= <-]. cbn [im_size]. rewrite Z.mul_comm, Z.div_mul by done. lia.
Qed.

Lemma exec_image_args bs argv im :
  exec_image bs argv = Some im → Forall string_ok argv → main_args (im_bytes im) (im_sp im) argv.
Proof.
  unfold exec_image. destruct (negb _); [done|]. destruct (negb _); [done|]. intros E Hs.
  apply bind_Some in E as ([sz img] & Hi%image_segs_mono & E). unfold stack_image in E.
  destruct ((_ <? _) && _ && _) eqn:Hc; [|done]. injection E as <-.
  apply andb_true_iff in Hc as [[H1 H2]%andb_true_iff H3]. apply Z.ltb_lt in H1. apply Nat.leb_le in H2. apply Z.leb_le in H3.
  assert (0 ≤ pages_up sz) by (unfold pages_up; zmod). unfold KERNBASE in H1. apply put_stack_main; [|done|lia|lia].
  eapply Forall_impl; [exact Hs|]. intros a Ha. eapply Forall_impl; [exact Ha|]. simpl. lia.
Qed.

Section exec.
Context {K : Type} `{PageAlloc K}.
Context {S : Type} `{Transactions S}.
Variable sb : superblock.
Context (Hlay : layout_ok sb).
Variable dev_read : Z → option (nat → Z → M (@fsys S) (Z * list Z)).
Variables data word0 : Z.
Context (Hdata : data_ok data).

(** Every page where it was, every other page and address space unchanged. *)
Definition untouched (s0 : K) (R0 : Z → role) (s : K) : Prop :=
  vm_ok s R0 ∧ same_data (pa_mem s0) (pa_mem s) R0 ∧ same_entries (pa_mem s0) (pa_mem s) R0.

(** The address space [d0] is gone and [d] is there, on pages that were
    free, with the image and with nothing mapped but the image and the
    kernel; no other page and no other address space has changed. *)
Record replaced (s0 : K) (R0 : Z → role) (d0 : Z) (s : K) (d : Z) (im : image) : Prop := {
  rp_free : R0 d = Free;
  rp_space : ∃ R R', takes d (<[d := Dir]> R0) R ∧ released d0 R R' ∧
    space data s R' d (im_size im / 4096) (stack_flags (im_size im / 4096 - 2)) (im_bytes im);
  rp_data a : plain (R0 (page_of a)) → (∀ v, R0 (page_of a) ≠ Frame d0 v) → pa_mem s a = pa_mem s0 a;
  rp_others : others_same d0 (pa_mem s0) (pa_mem s) R0
}.

Section stack.
Context (s0 : K) (R0 : Z → role) (Hvm0 : vm_ok s0 R0).
Context (p : proc) (Hold : R0 (pgdir p) = Dir) (Hks : kstack p ≠ 0).

(** [goto bad] with the new address space in hand and the file closed. *)
Lemma bad_space (f : @fsys S) s d :
  failing s0 R0 s d → ∃ s', bad sb p d None (s, f) = Ok (-1, p) (s', f) ∧ untouched s0 R0 s'.
Proof using Hvm0.
  intros Hf. destruct (space_undo s0 R0 s d Hvm0 Hf) as (s' & E & Hu). exists s'. split; [|done].
  destruct Hf as (R & Hvm & Hd & _). unfold bad.
  rewrite page_nonzero by (eapply pt_page_role; [apply Hvm | done | done]). cbn [negb when].
  rewrite (bind_ok _ _ _ _ _ (onfst_ok _ _ f _ _ E)). done.
Qed.

(** What the second half of [exec] comes to. *)
Definition settled (path : list Z) (d : Z) (im : option image) (out : outcome (exst (K := K) (S := S)) (Z * proc)) (f' : @fsys S) : Prop :=
  (∃ s' i, out = Ok (0, new_image p path d (im_size i) (im_entry i) (im_sp i)) (s', f') ∧
     im = Some i ∧ replaced s0 R0 (pgdir p) s' d i) ∨
  (∃ s', out = Ok (-1, p) (s', f') ∧ untouched s0 R0 s' ∧ ∀ i, im = Some i → few_free R0 (2051 + im_size i / 4096)).

Lemma settled_bad path d im s f :
  failing s0 R0 s d → (∀ i, im = Some i → few_free R0 (2051 + im_size i / 4096)) →
  settled path d im (bad sb p d None (s, f)) f.
Proof using Hvm0. intros Hf Hi. destruct (bad_space f s d Hf) as (s' & E & Hu). right. by exists s'. Qed.

(** The commit, once the stack is in place. *)
Lemma commit_ok path d n fl img s f R (i : image) :
  space data s R d n fl img → built s0 R0 s R d → n = im_size i / 4096 → fl = stack_flags (n - 2) → img = im_bytes i →
  settled path d (Some i)
    ((let p' := new_image p path d (im_size i) (im_entry i) (im_sp i) in
      switchuvm p';; onfst (freevm (pgdir p));; mret (0, p')) (s, f)) f.
Proof using Hvm0 Hold Hks.
  intros Hs Hb -> -> ->. left. cbv zeta.
  destruct (space_switch data s0 R0 s R d (pgdir p) _ _ _ Hvm0 Hold Hs Hb) as (s' & R' & E & Hs' & Hrel & Hda & Ho).
  exists s', i. split; [|split; [done|]].
  - assert (switchuvm (new_image p path d (im_size i) (im_entry i) (im_sp i)) (s, f) = Ok () (s, f)) as Esw.
    { unfold switchuvm. change (kstack (new_image _ _ _ _ _ _)) with (kstack p). change (pgdir (new_image _ _ _ _ _ _)) with d.
      rewrite (proj2 (Z.eqb_neq _ _)) by done. rewrite page_nonzero; [done|].
      eapply pt_page_role; [apply (as_vm _ _ _ _ _ _ _ Hs) | apply (as_dir _ _ _ _ _ _ _ Hs) | done]. }
    rewrite (bind_ok _ _ _ _ _ Esw), (bind_ok _ _ _ _ _ (onfst_ok _ _ f _ _ E)). done.
  - split; [apply Hb | | done | done]. exists R, R'. split; [apply Hb | done].
Qed.

(** The arguments and the words below them. *)
Lemma exec_push path argv d g entry s f R img :
  space data s R d (g + 2) (stack_flags g) img → built s0 R0 s R d → 0 ≤ g → 4096 * (g + 2) < KERNBASE →
  Forall (λ a, Z.of_nat (length a) < 4096) argv →
  let top := 4096 * (g + 2) in
  settled path d
    (if (length argv <=? MAXARG)%nat && (top - 4096 <=? stack_ptr top argv)
     then Some (Image entry top (stack_ptr top argv) (put_stack img top argv)) else None)
    ((o ← push_args word0 argv 0 d top;
      match o with
      | None => bad sb p d None
      | Some (sp, ps) =>
          let argc := Z.of_nat (length argv) in
          let ustack := [0xffffffff; argc; u32 (sp - (argc + 1) * 4)] ++ ps ++ [0] in
          let sp := u32 (sp - (3 + argc + 1) * 4) in
          r ← onfst (copyout_bytes word0 d sp (mjoin (word_bytes <$> ustack)));
          if r <? 0 then bad sb p d None
          else
            let p' := new_image p path d top entry sp in
            switchuvm p';;
            onfst (freevm (pgdir p));;
            mret (0, p')
      end) (s, f)) f.
Proof using Hvm0 Hold Hks.
  intros Hs Hb Hg Htop Hlen top. unfold KERNBASE in Htop. pose proof (args_end_below argv top) as Hbelow.
  destruct (push_args_ok data word0 d g R argv f 0 s img top) as (o & s1 & img1 & E & Hs1 & Hi1 & Ho); [done | done | subst top; lia | done|].
  rewrite (bind_ok _ _ _ _ _ E). assert (built s0 R0 s1 R d) as Hb1 by (by eapply built_inside).
  destruct o as [[sp ps]|].
  2: { apply settled_bad; [by eapply space_failing|]. intros i. destruct (_ && _) eqn:Hc; [|done].
       apply andb_true_iff in Hc as [Hn1%Nat.leb_le Hn2%Z.leb_le]. unfold stack_ptr in Hn2. subst top. destruct Ho; lia. }
  destruct Ho as (Hargc & Hfit & -> & -> & ->). unfold MAXARG in *.
  assert (length argv ≤ 32)%nat as Hargc' by (destruct Hargc as [?| ->]; simpl; lia). cbv zeta.
  rewrite !u32_small by (subst top; lia). fold (stack_ptr top argv) (stack_words top argv).
  rewrite (proj2 (Nat.leb_le _ _)) by lia. cbn [andb].
  assert (Z.of_nat (length (mjoin (word_bytes <$> stack_words top argv))) = 4 * (Z.of_nat (length argv) + 4)) as Hwl.
  { rewrite length_words. unfold stack_words. rewrite !length_app, length_addrs. simpl. lia. }
  destruct (stack_copy data word0 d g R s1 (put_args img top argv) (args_end top argv) (stack_ptr top argv) (mjoin (word_bytes <$> stack_words top argv)))
    as (r & s2 & img2 & E2 & Hs2 & Hi2 & Hc2); [done | done | subst top; lia | unfold stack_ptr; lia | unfold stack_ptr; lia.. |].
  rewrite (bind_ok _ _ _ _ _ (onfst_ok _ _ f _ _ E2)). assert (built s0 R0 s2 R d) as Hb2 by (by eapply built_inside).
  destruct Hc2 as [(-> & Hlow & ->)|(-> & Hlow)].
  - rewrite (proj2 (Z.leb_le _ _)) by (subst top; lia).
    apply (commit_ok path d (g + 2) (stack_flags g) (put_stack img top argv) s2 f R (Image entry top (stack_ptr top argv) (put_stack img top argv)));
      [done | done | | | done]; cbn [im_size].
    + subst top. by rewrite Z.mul_comm, Z.div_mul.
    + f_equal. lia.
  - rewrite (proj2 (Z.leb_gt _ _)) by (subst top; lia). apply settled_bad; [by eapply space_failing | done].
Qed.

Lemma exec_stack_ok path argv d entry s f R sz img :
  space data s R d (pages_up sz) (λ _, 7) img → built s0 R0 s R d → 0 ≤ sz < KERNBASE →
  Forall (λ a, Z.of_nat (length a) < 4096) argv →
  settled path d (stack_image entry sz img argv) (exec_stack sb word0 p path argv d entry sz (s, f)) f.
Proof using Hvm0 Hold Hks Hdata.
  clear dev_read. intros Hs Hb Hsz Hlen. unfold exec_stack, stack_image. unfold KERNBASE in Hsz. rewrite PGROUNDUP_pages by lia.
  set (g := pages_up sz) in *. assert (0 ≤ g ≤ 524288) as Hg by (subst g; unfold pages_up; zmod).
  change PGSIZE with 4096. rewrite u32_small by lia. replace (4096 * g + 2 * 4096) with (4096 * (g + 2)) by lia.
  assert (∀ x, pages_up (4096 * x) = x) as Hpu by (intros x; unfold pages_up; zmod).
  destruct (Z.ltb_spec (4096 * (g + 2)) KERNBASE) as [Htop|Htop]; cbn [andb].
  2: { assert (allocuvm d (4096 * g) (4096 * (g + 2)) s = Ok 0 s) as E
         by (unfold allocuvm; by rewrite (proj2 (Z.leb_le _ _)) by done).
       rewrite (bind_ok _ _ _ _ _ (onfst_ok _ _ f _ _ E)). apply settled_bad; [by eapply space_failing | done]. }
  destruct (space_alloc data Hdata s0 R0 s R d (4096 * g) (4096 * (g + 2)) img) as (r & s1 & E & Hc);
    [done | by rewrite Hpu | done | lia | done|]. rewrite Hpu in Hc.
  rewrite (bind_ok _ _ _ _ _ (onfst_ok _ _ f _ _ E)). destruct Hc as [(-> & R1 & Hs1 & Hb1)|(-> & Hf1 & Hfew)].
  2: { apply settled_bad; [done|]. intros i. destruct (_ && _); [|done]. intros [= <-]. cbn [im_size].
       by rewrite Z.mul_comm, Z.div_mul by done. }
  rewrite (proj2 (Z.eqb_neq _ _)) by lia. unfold KERNBASE in Htop. rewrite u32_small by lia.
  replace (4096 * (g + 2) - 2 * 4096) with (4096 * g) by lia.
  destruct (clearpteu_ok data s0 R0 s1 R1 d (g + 2) img g) as (s2 & E2 & Hs2 & Hb2); [done | done | done | lia|].
  rewrite (bind_ok _ _ _ _ _ (onfst_ok _ _ f _ _ E2)).
  apply (exec_push path argv d g entry s2 f R1 img); try done. lia.
Qed.

(** ** The first half *)

(** [goto bad] with the file open; [d] is 0 before there is a new address
    space. *)
Lemma bad_open (s s' : K) (ip : nat) (d : Z) (f f1 f2 : @fsys S) :
  iunlockput sb ip f = Ok () f1 → onbs tx_end f1 = Ok () f2 →
  (if d =? 0 then s' = s else freevm d s = Ok () s') → bad sb p d (Some ip) (s, f) = Ok (-1, p) (s', f2).
Proof using.
  intros E1 E2 Hd. unfold bad.
  assert (when (negb (d =? 0)) (onfst (freevm d)) (s, f) = Ok () (s', f)) as E.
  { destruct (d =? 0); cbn [negb when]; [by subst s' | by apply onfst_ok]. }
  rewrite (bind_ok _ _ _ _ _ E). rewrite bind_assoc.
  rewrite (bind_ok _ _ _ _ _ (onsnd_ok _ s' _ _ _ E1)), (bind_ok _ _ _ _ _ (onsnd_ok _ s' _ _ _ E2)). done.
Qed.

Section program.
Context (f : @fsys S) (path : list Z) (argv : list (list Z)).
Context (Hlen : Forall (λ a, Z.of_nat (length a) < 4096) argv).

(** What [exec] comes to, for the image [im]. *)
Definition finished (im : option image) (out : outcome (exst (K := K) (S := S)) (Z * proc)) : Prop :=
  ∃ s' f', fs_same sb f f' ∧
  ((∃ i d, im = Some i ∧ out = Ok (0, new_image p path d (im_size i) (im_entry i) (im_sp i)) (s', f') ∧
      replaced s0 R0 (pgdir p) s' d i) ∨
   (out = Ok (-1, p) (s', f') ∧ untouched s0 R0 s' ∧ ∀ i, im = Some i → few_free R0 (2051 + im_size i / 4096))).

Lemma finished_settled d im out f' : settled path d im out f' → fs_same sb f f' → finished im out.
Proof using.
  intros [(s' & i & -> & -> & Hr)|(s' & -> & Hu & Hi)] Hf; exists s', f'; split; try done; [left | right; done].
  by exists i, d.
Qed.

(** The file is open in the states [Fok]. *)
Context (Fok : @fsys S → Prop) (bs : list Z) (ip : nat).
Context (Hlen_bs : Z.of_nat (length bs) < 2147483648).
Context (Hread : ∀ f' off n, Fok f' → 0 ≤ off < 4294967296 → 0 ≤ n < 4294967296 →
  ∃ f1, readi sb dev_read ip off n f' = Ok (read_at bs off n) f1 ∧ Fok f1).
Context (Hclose : ∀ f', Fok f' → ∃ f1 f2, iunlockput sb ip f' = Ok () f1 ∧ onbs tx_end f1 = Ok () f2 ∧ fs_same sb f f2).

Lemma finished_early im s f' :
  Fok f' → untouched s0 R0 s → (∀ i, im = Some i → few_free R0 (2051 + im_size i / 4096)) →
  finished im (bad sb p 0 (Some ip) (s, f')).
Proof using Hclose.
  intros Hf Hu Hi. destruct (Hclose f' Hf) as (f1 & f2 & E1 & E2 & Hs). exists s, f2. split; [done|]. right.
  split; [by eapply bad_open | done].
Qed.

Lemma finished_late im s d f' :
  Fok f' → failing s0 R0 s d → (∀ i, im = Some i → few_free R0 (2051 + im_size i / 4096)) →
  finished im (bad sb p d (Some ip) (s, f')).
Proof using Hclose Hvm0.
  intros Hf Hd Hi. destruct (Hclose f' Hf) as (f1 & f2 & E1 & E2 & Hs).
  destruct (space_undo s0 R0 s d Hvm0 Hd) as (s' & E & Hu). exists s', f2. split; [done|]. right.
  split; [|done]. destruct Hd as (R & Hvm & Hd & _). eapply bad_open; [done | done|].
  by rewrite page_nonzero by (eapply pt_page_role; [apply Hvm | done | done]).
Qed.

(** After the header has been checked. *)
Lemma load_program elf f' :
  Fok f' → 0 ≤ e_phoff elf < 4294967296 →
  finished ('(sz, img) ← image_segs bs (Z.to_nat (e_phnum elf)) (e_phoff elf) 0 (λ _, 0); stack_image (e_entry elf) sz img argv)
    ((pg ← onfst (setupkvm data);
      if pg =? 0 then bad sb p 0 (Some ip)
      else
        o ← load_segs sb dev_read (Z.to_nat (e_phnum elf)) ip pg (e_phoff elf) 0;
        match o with
        | None => bad sb p pg (Some ip)
        | Some sz =>
            onsnd (iunlockput sb ip);;
            onsnd (onbs tx_end);;
            exec_stack sb word0 p path argv pg (e_entry elf) sz
        end) (s0, f')).
Proof using Hvm0 Hold Hks Hdata Hlen Hlen_bs Hread Hclose.
  intros Hf Hoff. destruct (setupkvm_ok s0 R0 data Hvm0 Hdata) as (d & s1 & R1 & E1 & Hvm1 & Hda1 & He1 & Hc).
  rewrite (bind_ok _ _ _ _ _ (onfst_ok _ _ f' _ _ E1)).
  set (im := image_segs bs (Z.to_nat (e_phnum elf)) (e_phoff elf) 0 (λ _, 0)).
  assert (∀ i, ('(sz, img) ← im; stack_image (e_entry elf) sz img argv) = Some i →
    ∃ sz img, im = Some (sz, img) ∧ 0 ≤ pages_up sz ≤ im_size i / 4096) as Him.
  { intros i Hi. apply bind_Some in Hi as ([sz img] & Ei & Hi). exists sz, img. split; [done|].
    apply stack_image_size in Hi. split; [|done]. apply image_segs_mono in Ei. unfold pages_up. zmod. }
  destruct Hc as [(Hnz & Hfree & Hg & Hk)|(-> & HR & d' & Hex)].
  2: { apply finished_early; [done | |].
       - split; [|done]. destruct Hvm1 as [A B]. split; [by eapply pt_ok_ext | by eapply frames_ok_ext].
       - intros i (sz & img & _ & Hi)%Him. apply exhausted_bound in Hex. eapply few_free_mono; [|exact Hex]. lia. }
  rewrite Hnz. destruct (space_new data s0 R0 s1 R1 d Hvm1 Hfree Hg Hda1 He1 Hk) as [Hs1 Hb1].
  destruct (load_segs_ok sb dev_read data Hdata Fok bs ip Hlen_bs Hread s0 R0 d Hvm0 (Z.to_nat (e_phnum elf)) s1 f' R1 (e_phoff elf) 0 (λ _, 0))
    as (o & s2 & f2 & E2 & Hf2 & Ho); [done | done | done | done | done|].
  rewrite (bind_ok _ _ _ _ _ E2). fold im in Ho. destruct o as [sz|].
  - destruct Ho as (Hsz & img & R2 & Ei & Hs2 & Hb2). rewrite Ei. cbn [mbind option_bind].
    destruct (Hclose f2 Hf2) as (f3 & f4 & E3 & E4 & Hsame).
    rewrite (bind_ok _ _ _ _ _ (onsnd_ok _ s2 _ _ _ E3)), (bind_ok _ _ _ _ _ (onsnd_ok _ s2 _ _ _ E4)).
    eapply finished_settled; [|exact Hsame]. by eapply exec_stack_ok.
  - destruct Ho as [Hfail Hfew]. apply finished_late; [done | done|]. intros i (sz & img & Ei & Hi)%Him.
    eapply few_free_mono; [|exact (Hfew _ _ Ei)]. lia.
Qed.
End program.
End stack.

(** C4: [exec], for arguments of fewer than 4096 bytes each. Let [bs] be the
    bytes of the file that [path] leads to, if there is one; it is not a
    device. The file system is at rest, its tree consistent and two entries
    of the inode cache free. If [bs] are a program that fits, with its
    arguments, in user memory, [exec] returns 0, unless too few pages are
    free: the process has a new address space on fresh pages, with the
    segments of the file, zero bytes elsewhere, a page closed to the user,
    and above it the stack, where [main] finds its arguments; the old
    address space is freed, the user's signal handlers are reset. Otherwise
    (no such file, not such a program, or too few pages) [exec] returns -1
    and the process, its address space and all pages are as before. Either
    way the file system is at rest again, its disk and the reference counts
    of its inodes unchanged. *)
Theorem exec_correct s0 R0 f O T start p path argv :
  vm_ok s0 R0 → R0 (pgdir p) = Dir → kstack p ≠ 0 → fs_ready sb f O T (cwd p) start path →
  Forall string_ok argv → Forall (λ a, Z.of_nat (length a) < 4096) argv →
  let im := j ← prog_inum sb (bs_view (fst f)) start path; exec_image (prog_bytes sb (bs_view (fst f)) j) argv in
  ∃ s' f', fs_same sb f f' ∧
  ((∃ i d, im = Some i ∧
      exec sb dev_read data word0 p path argv (s0, f) =
        Ok (0, new_image p path d (im_size i) (im_entry i) (im_sp i)) (s', f') ∧
      replaced s0 R0 (pgdir p) s' d i ∧ main_args (im_bytes i) (im_sp i) argv) ∨
   (exec sb dev_read data word0 p path argv (s0, f) = Ok (-1, p) (s', f') ∧ untouched s0 R0 s' ∧
      ∀ i, im = Some i → few_free R0 (2051 + im_size i / 4096))).
Proof using Hlay Hdata.
  intros Hvm0 Hold Hks Hready Hstr Hlen im.
  assert (finished s0 R0 p f path im (exec sb dev_read data word0 p path argv (s0, f))) as (s' & f' & Hsame & Hc).
  2: { exists s', f'. split; [done|]. destruct Hc as [(i & d & Ei & E & Hr)|Hc]; [left | by right].
       exists i, d. split_and!; [done | done | done|]. subst im. apply bind_Some in Ei as (j & _ & Ei). by eapply exec_image_args. }
  unfold exec. destruct (open_program sb Hlay dev_read f O T (cwd p) start path Hready) as (f1 & E1 & Hop).
  rewrite (bind_ok _ _ _ _ _ (onsnd_ok _ s0 _ _ _ E1)). subst im.
  destruct (prog_inum sb (bs_view (fst f)) start path) as [j|]; cbn [mbind option_bind].
  2: { destruct Hop as (f2 & f3 & E2 & E3 & Hsame). exists s0, f3. split; [done|]. right.
       rewrite (bind_ok _ _ _ _ _ (onsnd_ok _ s0 _ _ _ E2)), (bind_ok _ _ _ _ _ (onsnd_ok _ s0 _ _ _ E3)). done. }
  destruct Hop as (ip & f2 & f3 & Fok & E2 & E3 & HF3 & Hl & Hread & Hclose). set (bs := prog_bytes sb (bs_view (fst f)) j) in *.
  rewrite (bind_ok _ _ _ _ _ (onsnd_ok _ s0 _ _ _ E2)), (bind_ok _ _ _ _ _ (onsnd_ok _ s0 _ _ _ E3)).
  destruct (Hread f3 0 ELFHDR HF3) as (f4 & E4 & HF4); [lia | unfold ELFHDR; lia|].
  rewrite (bind_ok _ _ _ _ _ (onsnd_ok _ s0 _ _ _ E4)). unfold exec_image.
  destruct (negb (fst (read_at bs 0 ELFHDR) =? ELFHDR)); [by eapply finished_early|].
  destruct (negb (e_magic _ =? ELF_MAGIC)); [by eapply finished_early|].
  eapply load_program; try done. unfold elfhdr_of. cbn [e_phoff]. apply load32_range, put_bytes_wf. intros x. lia.
Qed.
End exec.
