(* ===== verification/ExecExample.v ===== *)
(** * A program on a disk

    A machine with 2100 free pages and a disk whose root directory has one
    program, [sh], with a segment of one page: [exec] loads it. *)
From stdpp Require Import functions.
From S2P Require Import Prelude Machine CString Spin Kalloc Proc Signal Vm VmSpec VmUser VmSpace VmCopy VmMain.
From S2P Require Import Bio Log FsBlock FsInode FsDinode FsFile FsData FsStore FsCrash FsTrunc FsCache FsPath FsDir FsNamei.
From S2P Require Import File FsTxn Exec ExecSpace ExecLoad ExecStack ExecFile ExecSpec.
Import KString.

(** ** Pages *)

Definition pool_first : Z := 0x80400000.
Definition pool_size : nat := 2100.
Definition pool_last : Z := 0x80C34000.

(** Every page of the pool points to the next one. *)
Definition pool_mem : mem := λ a,
  if (pool_first <=? a) && (a <? pool_last) && (a mod 4096 <? 4) then
    let p := a - a mod 4096 in
    (if p + 4096 =? pool_last then 0 else p + 4096) / 256 ^ (a mod 4096) mod 256
  else 0.

Definition pool : (mach * spinlock) * kmem := (lock_example, Kmem false pool_first pool_mem).

Definition pool_roles : Z → role := λ p,
  if p =? ex_dir then Dir
  else if (pool_first <=? p) && (p <? pool_last) && (p mod 4096 =? 0) then Free else Other.

#[local] Instance pool_alloc : PageAlloc ((mach * spinlock) * kmem) := kmem_alloc 0x80200000 ex_above.

Lemma pool_wf : wf_mem pool_mem.
Proof.
  intros a. unfold pool_mem. destruct (_ && _ && _); [|lia]. apply Z.mod_pos_bound. lia.
Qed.

Lemma pool_next p :
  pool_first ≤ p < pool_last → p mod 4096 = 0 → load32 pool_mem p = if p + 4096 =? pool_last then 0 else p + 4096.
Proof.
  unfold pool_first, pool_last. intros Hp Hm. set (nx := if p + 4096 =? 0x80C34000 then 0 else p + 4096).
  assert (0 ≤ nx < 4294967296) as Hnx by (subst nx; destruct (_ =? _); lia).
  assert (∀ i, 0 ≤ i < 4 → pool_mem (p + i) = nx / 256 ^ i mod 256) as Hb.
  { intros i Hi. unfold pool_mem, pool_first, pool_last. assert ((p + i) mod 4096 = i) as Ei by zmod.
    rewrite Ei. replace (p + i - i) with p by lia.
    rewrite (proj2 (Z.leb_le _ _)), (proj2 (Z.ltb_lt (p + i) _)), (proj2 (Z.ltb_lt i _)) by zmod. done. }
  unfold load32. rewrite <- (Z.add_0_r p) at 1. rewrite !Hb by lia.
  change (256 ^ 0) with 1. change (256 ^ 1) with 256. change (256 ^ 2) with 65536. change (256 ^ 3) with 16777216.
  clearbody nx. zmod.
Qed.

Lemma pool_chain k : ∀ p,
  pool_first ≤ p → p mod 4096 = 0 → p + Z.of_nat (S k) * 4096 = pool_last → chain pool_mem p (pages_from p (S k)).
Proof.
  induction k as [|k IH]; intros p Hp Hm Hl; rewrite pages_from_S; (split; [done|]); rewrite pool_next by lia.
  - by rewrite (proj2 (Z.eqb_eq _ _)) by lia.
  - rewrite (proj2 (Z.eqb_neq _ _)) by lia. change PGSIZE with 4096. apply IH; [lia | zmod | lia].
Qed.

Lemma pool_pages p : p ∈ pages_from pool_first pool_size ↔ pool_roles p = Free.
Proof.
  unfold pool_roles, pages_from. rewrite list_elem_of_fmap. unfold pool_first, pool_last, pool_size, ex_dir. change PGSIZE with 4096. split.
  - intros (i & -> & Hi%elem_of_seq). rewrite (proj2 (Z.eqb_neq _ _)), (proj2 (Z.leb_le _ _)), (proj2 (Z.ltb_lt _ _)) by lia.
    cbn [andb]. by rewrite (proj2 (Z.eqb_eq _ _)) by zmod.
  - destruct (Z.eqb_spec p 0x80300000); [done|]. destruct (_ && _ && _) eqn:E; [|done]. intros _.
    apply andb_true_iff in E as [[H1%Z.leb_le H2%Z.ltb_lt]%andb_true_iff H3%Z.eqb_eq].
    exists (Z.to_nat ((p - 0x80400000) / 4096)). split; [zmod|]. apply elem_of_seq. zmod.
Qed.

Lemma pool_nodup : NoDup (pages_from pool_first pool_size).
Proof.
  unfold pages_from. apply NoDup_fmap_2; [|apply NoDup_seq]. intros i j. change PGSIZE with 4096. lia.
Qed.

Lemma pool_role_cases p : pool_roles p = Other ∨ pool_roles p = Dir ∧ p = ex_dir ∨ pool_roles p = Free ∧ page_ok 0x80200000 p.
Proof.
  unfold pool_roles. destruct (Z.eqb_spec p ex_dir) as [->|]; [auto|]. destruct (_ && _ && _) eqn:E; [|auto].
  apply andb_true_iff in E as [[H1%Z.leb_le H2%Z.ltb_lt]%andb_true_iff H3%Z.eqb_eq]. right. right. split; [done|].
  unfold page_ok, KERNBASE, PHYSTOP, PGSIZE, pool_first, pool_last in *. lia.
Qed.

Lemma pool_pde i : 0 ≤ i < 1024 → pde pool_mem ex_dir i = 0.
Proof.
  intros Hi. unfold pde, ex_dir. assert (∀ x, x < pool_first → pool_mem x = 0) as Hz.
  { intros x Hx. unfold pool_mem. by rewrite (proj2 (Z.leb_gt _ _)) by lia. }
  unfold load32. by rewrite !Hz by (unfold pool_first; lia).
Qed.

Lemma pool_vm_ok : vm_ok pool pool_roles.
Proof.
  assert (∀ v, 0 ≤ v < UPAGES → entry pool_mem ex_dir v = 0) as He.
  { intros v Hv. unfold UPAGES in Hv. unfold entry. by rewrite pool_pde by zmod. }
  split; split.
  - exists (pages_from pool_first pool_size). split; [|exact pool_pages]. split; [|done]. split_and!; cbn [snd kmem_mem freelist pool].
    + exact pool_wf.
    + unfold pool_size. by apply (pool_chain 2099).
    + apply Forall_forall. intros p Hp%pool_pages. destruct (pool_role_cases p) as [E|[[E _]|[_ Hp']]]; [congruence.. | done].
    + exact pool_nodup.
  - intros p Hp. destruct (pool_role_cases p) as [E|[[_ ->]|[_ Hp']]]; done.
  - intros d i Hd Hi. destruct (pool_role_cases d) as [E|[[_ ->]|[E _]]]; [congruence | | congruence]. left. by apply pool_pde.
  - intros t d i Ht. destruct (pool_role_cases t) as [E|[[E _]|[E _]]]; congruence.
  - intros d v Hd Hv. destruct (pool_role_cases d) as [E|[[_ ->]|[E _]]]; [congruence | | congruence].
    change (pa_mem pool) with pool_mem. by rewrite He.
  - intros p d v Hp. destruct (pool_role_cases p) as [E|[[E _]|[E _]]]; congruence.
Qed.

Lemma pool_plenty n : few_free pool_roles n → 2100 ≤ n.
Proof.
  intros Hf. specialize (Hf _ pool_nodup ltac:(intros p; apply pool_pages)).
  unfold pages_from in Hf. rewrite length_fmap, length_seq in Hf. exact Hf.
Qed.

(** ** The disk *)

(** [jmp .], to be loaded at address 0, which is also the entry point. *)
Definition sh_bytes : list Z :=
  [127; 69; 76; 70] ++ replicate 12 0 ++ [2; 0; 3; 0] ++ word_bytes 1 ++ word_bytes 0 ++ word_bytes 52 ++ word_bytes 0 ++
  word_bytes 0 ++ [52; 0; 32; 0; 1; 0; 0; 0; 0; 0; 0; 0] ++
  word_bytes 1 ++ word_bytes 84 ++ word_bytes 0 ++ word_bytes 0 ++ word_bytes 2 ++ word_bytes 4096 ++ word_bytes 5 ++ word_bytes 4096 ++
  [235; 254].

Definition sh_root : inode := Inode ROOTDEV ROOTINO 1 false true T_DIR 0 0 1 16 (59 :: replicate 12 0).
Definition sh_file : inode := Inode ROOTDEV 2 1 false true T_FILE 0 0 1 86 (60 :: replicate 12 0).
Definition sh_disk : Z → block := λ x,
  if x =? 32 then put_dinode sh_file (put_dinode sh_root (λ _, 0))
  else if x =? 58 then (λ a, if a =? 7 then 31 else ex_bitmap a)
  else if x =? 59 then put_bytes (λ _, 0) 0 (mk_dirent 2 [115; 104])
  else if x =? 60 then put_bytes (λ _, 0) 0 sh_bytes else λ _, 0.
Definition sh_blocks : Z → brole := λ x, if x =? 59 then BData 1 0 else if x =? 60 then BData 2 0 else ex_blocks x.
Definition sh_store : log * bio := (Log 2 30 0 false 0 (replicate 30 0), binit (λ _, sh_disk) true).
Definition sh_cache : list inode := [sh_root; sh_root <| i_ref := 0 |>; sh_root <| i_ref := 0 |>].

Lemma sh_block v b bn : 0 ≤ bn → fblock v (b :: replicate 12 0) bn = if bn =? 0 then b else 0.
Proof.
  intros Hbn. unfold fblock. destruct (Z.ltb_spec bn NDIRECT) as [Hd|Hd].
  - destruct (Z.eqb_spec bn 0) as [->|Hne]; [done|]. replace (Z.to_nat bn) with (S (Z.to_nat (bn - 1))) by lia. apply (nth_zeros 12).
  - rewrite (proj2 (Z.eqb_neq bn 0)) by (change NDIRECT with 12 in Hd; lia). done.
Qed.

Lemma sh_blocks_cases b :
  sh_blocks b = BData 1 0 ∧ b = 59 ∨ sh_blocks b = BData 2 0 ∧ b = 60 ∨ sh_blocks b = BFree ∨ sh_blocks b = BMeta.
Proof.
  unfold sh_blocks, ex_blocks. destruct (Z.eqb_spec b 59); [auto|]. destruct (Z.eqb_spec b 60); [auto|]. destruct (_ && _); auto.
Qed.

(** A file of one block. *)
Lemma sh_file_ok i b :
  i_addrs i = b :: replicate 12 0 → (i_inum i = 1 ∧ b = 59 ∨ i_inum i = 2 ∧ b = 60) → 0 ≤ i_size i ≤ 512 → file_ok sh_disk sh_blocks i.
Proof.
  intros Ha Hb Hs. split; [split|..]; rewrite ?Ha.
  - done.
  - intros bn Hbn. rewrite sh_block by lia. destruct (Z.eqb_spec bn 0) as [->|]; [|done]. by destruct Hb as [[-> ->]|[-> ->]].
  - done.
  - intros b' bn E. assert (b' = b ∧ bn = 0) as [-> ->].
    { destruct (sh_blocks_cases b') as [[E' ->]|[[E' ->]|[E'|E']]]; rewrite E' in E; try done; injection E as Ei <-;
        destruct Hb as [[Hi ->]|[Hi ->]]; rewrite Hi in Ei; done. }
    split; [done|]. by rewrite sh_block.
  - intros b' E. destruct (sh_blocks_cases b') as [[E' _]|[[E' _]|[E'|E']]]; by rewrite E' in E.
  - change (MAXFILE * BSIZE) with 71680. lia.
  - intros o Ho. change BSIZE with 512. rewrite sh_block by zmod. rewrite (proj2 (Z.eqb_eq _ _)) by zmod.
    by destruct Hb as [[_ ->]|[_ ->]].
Qed.

Lemma sh_alloc : alloc_ok ex_sb sh_disk sh_blocks.
Proof.
  split.
  - intros b Hb. change (sb_size ex_sb) with 1000 in Hb.
    assert (forallb (λ b, Bool.eqb (bit ex_sb sh_disk b) (negb (bool_decide (sh_blocks b = BFree)))) (seqZ 0 1000) = true) as Hall
      by (vm_compute; done).
    rewrite forallb_forall in Hall. specialize (Hall b). rewrite <- list_elem_of_In, elem_of_seqZ in Hall.
    specialize (Hall ltac:(lia)). apply eqb_prop in Hall. rewrite Hall, negb_false_iff. apply bool_decide_eq_true.
  - intros b. unfold sh_blocks. destruct (Z.eqb_spec b 59) as [->|]; [done|]. destruct (Z.eqb_spec b 60) as [->|]; [done|].
    apply (al_meta _ _ _ (ex_alloc_ok sh_root)).
Qed.

(** The inodes as the disk has them. *)
Lemma sh_on_disk :
  on_disk ex_sb sh_disk 1 = Inode ROOTDEV 1 0 false false T_DIR 0 0 1 16 (59 :: replicate 12 0) ∧
  on_disk ex_sb sh_disk 2 = Inode ROOTDEV 2 0 false false T_FILE 0 0 1 86 (60 :: replicate 12 0).
Proof. split; vm_compute; reflexivity. Qed.

Definition sh_inodes (j : Z) : Prop := j = 1 ∨ j = 2.

Lemma sh_dir_ok : dir_ok sh_disk sh_blocks (Inode ROOTDEV 1 0 false false T_DIR 0 0 1 16 (59 :: replicate 12 0)).
Proof.
  split; [|reflexivity|reflexivity]. eapply sh_file_ok; [reflexivity | left; split; reflexivity | cbn [i_size]; lia].
Qed.

Lemma sh_entry : de_inum (dir_slot sh_disk (59 :: replicate 12 0) 0) = 2.
Proof. vm_compute. reflexivity. Qed.

Lemma sh_tree : tree_ok ex_sb sh_disk sh_blocks sh_inodes.
Proof.
  destruct sh_on_disk as [E1 E2]. split.
  - intros inum [->| ->]; cbn [ex_sb sb_ninodes]; lia.
  - intros inum [->| ->]; [rewrite E1 | rewrite E2]; discriminate.
  - intros inum [->| ->]; [rewrite E1 | rewrite E2]; discriminate.
  - intros inum [->| ->]; [rewrite E1; intros _; exact sh_dir_ok | rewrite E2; discriminate].
  - intros inum name j [->| ->]; [|rewrite E2; discriminate]. intros _. unfold dlookup. rewrite E1.
    destruct (find_name sh_disk _ name) as [k|] eqn:E; [|discriminate].
    apply first_slot_some in E as [Hk%elem_of_seqZ _]. unfold nslots in Hk. cbn [i_size] in Hk.
    change (16 / DIRENT) with 1 in Hk. replace k with 0 by lia. cbn [fmap option_fmap option_map i_addrs]. rewrite sh_entry.
    intros [= <-]. by right.
Qed.

(** ** Running it *)

#[local] Instance sh_bs : BlockStore (log * bio) := op_store 2 30.
#[local] Instance sh_ops : Transactions (log * bio) := op_transactions 2 30.

Lemma sh_layout : layout_ok ex_sb.
Proof. split; repeat split; by vm_compute. Qed.

Lemma sh_idle : idle 2 30 sh_store.
Proof.
  pose proof (quiet_binit sh_disk) as [Q1 Q2 Q3 Q4 Q5 Q6 Q7].
  split; cbn [sh_store fst snd]; try done. split; simpl; try done; lia.
Qed.

Lemma sh_synced : synced ex_sb sh_disk sh_root.
Proof. vm_compute. reflexivity. Qed.

Lemma sh_cache_ok : cache_ok ex_sb sh_disk None sh_cache.
Proof.
  split; [split| |].
  - intros [|[|[|k]]] i [= <-]; cbn; lia.
  - intros [|[|[|k]]] [|[|[|k']]] i i' dev inum [= <-] [= <-]; try done; unfold in_use; cbn; intros; done.
  - intros [|[|[|k]]] i [= <-]; done.
  - intros [|[|[|k]]] i [= <-]; cbn [i_ref sh_root]; try (cbn; lia). intros _ _. exact sh_synced.
Qed.

Definition sh_path : list Z := [47; 115; 104].

Lemma sh_resolve : prog_inum ex_sb sh_disk 1 sh_path = Some 2.
Proof. vm_compute. reflexivity. Qed.

Lemma sh_ready : fs_ready ex_sb (sh_store, sh_cache) sh_blocks sh_inodes None 1 sh_path.
Proof.
  split; cbn [fst snd].
  - exact sh_idle.
  - exact sh_alloc.
  - exact sh_tree.
  - exact sh_cache_ok.
  - vm_compute. lia.
  - repeat constructor; lia.
  - by left.
  - reflexivity.
  - intros j. change (bs_view sh_store) with sh_disk. rewrite sh_resolve. intros [= <-].
    rewrite (proj2 sh_on_disk). split; [discriminate|].
    eapply sh_file_ok; [reflexivity | right; split; reflexivity | cbn [i_size]; lia].
Qed.

(** A process whose address space is empty. *)
Definition sh_proc : proc := user_example <| pgdir := ex_dir |> <| cwd := None |>.

Lemma sh_image_size : im_size <$> exec_image (prog_bytes ex_sb sh_disk 2) [[115; 104]; [45; 99]] = Some 12288.
Proof. vm_compute. reflexivity. Qed.

Lemma exec_correct_witness :
  ∃ s' f' p', exec ex_sb no_dev_read 0x80108000 0 sh_proc sh_path [[115; 104]; [45; 99]] (pool, (sh_store, sh_cache)) = Ok (0, p') (s', f') ∧
    Proc.sz p' = 12288.
Proof.
  destruct (exec_correct ex_sb sh_layout no_dev_read 0x80108000 0 ex_data_ok pool pool_roles (sh_store, sh_cache) sh_blocks sh_inodes 1
    sh_proc sh_path [[115; 104]; [45; 99]] pool_vm_ok eq_refl ltac:(discriminate) sh_ready
    ltac:(repeat constructor; lia) ltac:(repeat constructor)) as (s' & f' & _ & Hc).
  change (bs_view (fst (sh_store, sh_cache))) with sh_disk in Hc. rewrite sh_resolve in Hc. cbn [mbind option_bind] in Hc.
  destruct Hc as [(i & d & Ei & E & _)|(_ & _ & Hfew)].
  - exists s', f'. eexists. split; [exact E|]. pose proof sh_image_size as Hs. rewrite Ei in Hs. injection Hs as Hs. exact Hs.
  - exfalso. pose proof sh_image_size as Hs. destruct (exec_image _ _) as [i|]; [|discriminate]. injection Hs as Hs.
    specialize (Hfew i eq_refl). rewrite Hs in Hfew. apply pool_plenty in Hfew. vm_compute in Hfew. by apply Hfew.
Defined.
