(* ===== verification/Life.v ===== *)
(** * The life of a process (fork, exit and wait of proc.c)

    What [allocproc], [fork], [exit], [wait] and [userinit] do to the data of
    a process: its slot, its kernel stack, its address space, its open files
    and its directory. The order of the accesses to [p->state] on several
    processors is in [Sched]; here one processor runs, so that a [cas] finds
    what the test before it saw. The state is the pages of the allocator
    beside the process table and the files. *)
From S2P Require Import Prelude Machine CString Spin Kalloc Proc Signal Bio Vm.
From S2P Require Import FsBlock FsInode FsDir File SysFile Exec.

(** [sizeof(struct context)]. *)
Definition SIZEOF_CONTEXT : Z := 20.

(** Where a kernel stack has its trap frame, the return address of [forkret]
    and the context. *)
Definition stack_tf (ks : Z) : Z := ks + KSTACKSIZE - SIZEOF_TRAPFRAME.
Definition stack_ret (ks : Z) : Z := stack_tf ks - 4.
Definition stack_ctx (ks : Z) : Z := stack_ret ks - SIZEOF_CONTEXT.

(** The string in a character array. *)
Fixpoint until_nul (l : list Z) : list Z :=
  match l with
  | [] => []
  | c :: l' => if c =? 0 then [] else c :: until_nul l'
  end.

(** The scan for an unused slot. *)
Fixpoint find_unused (ps : list proc) (j : nat) : option nat :=
  match ps with
  | [] => None
  | p :: ps' => if decide (state p = UNUSED) then Some j else find_unused ps' (Datatypes.S j)
  end.

(** [cas(&ptable.proc[j].state, e, n)]. *)
Definition cas_proc (j : nat) (e n : procstate) : M kst bool :=
  p ← proc_at j;
  let '(ok, cell) := cas (state p) e n in
  upd_proc j (λ p, p <| state := cell |>);;
  mret ok.

Definition allocpid : M kst Z :=
  pid ← gets nextpid;
  modify (λ k, k <| nextpid := s32 (pid + 1) |>);;
  mret pid.

(** [wakeup1]: a process that is still on its way to sleep is waited for, by
    spinning. *)
Definition wakeup1_at (c : channel) (j : nat) : M kst () :=
  p ← proc_at j;
  if (bool_decide (state p = SLEEPING) || bool_decide (state p = MINUS_SLEEPING)) && bool_decide (chan p = c) then
    ok ← cas_proc j SLEEPING MINUS_RUNNABLE;
    if (ok : bool) then cas_proc j MINUS_RUNNABLE RUNNABLE;; mret () else hang
  else mret ().

Definition wakeup1 (c : channel) : M kst () := for_each (seq 0 NPROC) (wakeup1_at c).

(** [sig_handlers[i] = SIG_DFL] for each of the 32 entries. *)
Definition reset_handlers : list Z := replicate SIG_HANDLERS_NUM SIG_DFL.

Section life.
Context {K : Type} `{PageAlloc K}.
Context {S : Type} `{Transactions S}.
Context {P : Type} `{PipeLayer P}.
Variable sb : superblock.
Variable dev_read : Z → option (nat → Z → M (@fsys S) (Z * list Z)).

(** Where the kernel's data begins, and the addresses of the code of
    [trapret] and [forkret]. *)
Variables data trapret forkret : Z.

Notation lst := (K * @sysst S P)%type.

Definition onp {A} (m : M K A) : M lst A := onfst m.
Definition ont {A} (m : M kst A) : M lst A := onsnd (onk m).
Definition onfl {A} (m : M (@kfs S P) A) : M lst A := onsnd (onf m).
Definition onin {A} (m : M (@fsys S) A) : M lst A := onsnd (oni m).

(** ** allocproc *)

(** [p->tf] and [p->context] made to point into the stack, the structures
    there being whatever the memory holds, and [*p->tf] and [*p->context]
    assigned. *)
Definition point_tf (j : nat) (a : Z) : M lst () :=
  m ← onp (gets pa_mem);
  ont (upd_proc j (λ p, p <| tf := load_tf m a |>)).

Definition set_tf (j : nat) (t : trapframe) : M lst () :=
  p ← ont (proc_at j);
  onp (pa_write (λ m, store_tf m (stack_tf (kstack p)) t));;
  ont (upd_proc j (λ p, p <| tf := t |>)).

Definition set_ctx (j : nat) (a : Z) (eip : Z) : M lst () :=
  onp (pa_write (λ m, store32 (KString.memset m a 0 SIZEOF_CONTEXT) (a + 16) eip));;
  ont (upd_proc j (λ p, p <| ctx := Context 0 0 0 0 eip |>)).

(** [None] for the null pointer. *)
Definition allocproc : M lst (option nat) :=
  ps ← ont (gets procs);
  match find_unused ps 0 with
  | None => mret None
  | Some j =>
      ont (cas_proc j UNUSED EMBRYO);;
      pid ← ont allocpid;
      ont (upd_proc j (λ p, p <| Proc.pid := pid |>));;
      ks ← onp pa_kalloc;
      ont (upd_proc j (λ p, p <| kstack := ks |>));;
      if ks =? 0 then ont (upd_proc j (λ p, p <| state := UNUSED |>));; mret None
      else
        point_tf j (stack_tf ks);;
        onp (pa_write (λ m, store32 m (stack_ret ks) trapret));;
        set_ctx j (stack_ctx ks) forkret;;
        ont (upd_proc j (λ p, p <| psignals := 0 |> <| sigmask := 0 |> <| sig_handlers := reset_handlers |>));;
        mret (Some j)
  end.

(** ** fork *)

(** The loop over the descriptors. *)
Definition dup_fd (j fd : nat) : M lst () :=
  p ← ont curproc;
  match ofile p !! fd with
  | Some (Some f) =>
      g ← onfl (filedup f);
      ont (upd_proc j (λ p, p <| ofile := <[fd := Some g]> (ofile p) |>))
  | _ => mret ()
  end.

(** The child in slot [np] made a copy of [cp], whose memory it has by now. *)
Definition fork_child (np : nat) (cp : proc) : M lst Z :=
  me ← ont myproc;
  ont (upd_proc np (λ p, p <| Proc.sz := sz cp |> <| parent := me |>));;
  set_tf np (tf cp);;
  ont (upd_proc np (λ p, p <| sigmask := sigmask cp |> <| sig_handlers := copySigHandlers (sig_handlers cp) |>));;
  set_tf np ((tf cp) <| tf_eax := 0 |>);;
  for_each (seq 0 NOFILE) (dup_fd np);;
  c ← match cwd cp with Some c => onin (idup c) | None => ont fault end;
  ont (upd_proc np (λ p, p <| cwd := Some c |> <| name := set_name (name p) (until_nul (name cp)) 16 |>));;
  p ← ont (proc_at np);
  ont (cas_proc np EMBRYO RUNNABLE);;
  mret (pid p).

Definition fork : M lst Z :=
  onew ← allocproc;
  match onew with
  | None => mret (-1)
  | Some np =>
      cp ← ont curproc;
      pg ← onp (copyuvm data (pgdir cp) (sz cp));
      ont (upd_proc np (λ p, p <| pgdir := pg |>));;
      if pg =? 0 then
        p ← ont (proc_at np);
        onp (pa_kfree (kstack p));;
        ont (upd_proc np (λ p, p <| kstack := 0 |>));;
        ont (upd_proc np (λ p, p <| state := UNUSED |>));;
        mret (-1)
      else fork_child np cp
  end.

(** ** exit *)

Definition close_fd (fd : nat) : M lst () :=
  p ← ont curproc;
  match ofile p !! fd with
  | Some (Some f) => onfl (fileclose sb f);; onsnd (clear_fd fd)
  | _ => mret ()
  end.

(** A child of the process in slot [me] passed to [initproc]. *)
Definition pass_child (me : nat) (j : nat) : M kst () :=
  p ← proc_at j;
  if decide (parent p = Some me) then
    ini ← gets initproc;
    upd_proc j (λ p, p <| parent := ini |>);;
    p ← proc_at j;
    if decide (state p = ZOMBIE) then match ini with Some i => wakeup1 (CProc i) | None => wakeup1 CNull end
    else mret ()
  else mret ().

(** [exit], up to the call of [sched] that does not return. *)
Definition exit : M lst () :=
  me ← ont myproc;
  match me with
  | None => ont fault
  | Some i =>
      ini ← ont (gets initproc);
      if decide (ini = Some i) then panic "init exiting"
      else
        for_each (seq 0 NOFILE) close_fd;;
        onsnd begin_;;
        p ← ont curproc;
        match cwd p with Some c => onin (iput sb c) | None => ont fault end;;
        onsnd end_;;
        ont (upd_cur (λ p, p <| cwd := None |>));;
        ok ← ont (cas_proc i RUNNING MINUS_ZOMBIE);
        if negb ok then panic "process should be at running state!"
        else ont (for_each (seq 0 NPROC) (pass_child i))
  end.

(** ** wait *)

(** One slot of the scan; [Some r] is [return r]. *)
Definition reap (me j : nat) : M lst (option Z) :=
  p ← ont (proc_at j);
  if negb (bool_decide (parent p = Some me)) then mret None
  else
    ok ← ont (cas_proc j ZOMBIE MINUS_UNUSED);
    if negb ok then mret None
    else
      onp (pa_kfree (kstack p));;
      ont (upd_proc j (λ p, p <| kstack := 0 |>));;
      onp (freevm (pgdir p));;
      ont (upd_proc j (λ p, p <| pid := 0 |> <| parent := None |> <| name := <[0%nat := 0]> (name p) |> <| killed := 0 |>));;
      ont (upd_proc me (λ p, p <| chan := CNull |>));;
      ont (cas_proc me MINUS_SLEEPING RUNNING);;
      ont (cas_proc j MINUS_UNUSED UNUSED);;
      mret (Some (pid p)).

Definition has_kids (me : nat) (ps : list proc) : bool :=
  existsb (λ p, bool_decide (parent p = Some me)) ps.

(** One round of the loop of [wait]: the value returned, or [None] for the
    call of [sched]. [havekids] is set for every child the scan passes. *)
Definition wait_round : M lst (option Z) :=
  ome ← ont myproc;
  match ome with
  | None => ont fault
  | Some me =>
      ok ← ont (cas_proc me RUNNING MINUS_SLEEPING);
      if negb ok then panic "wait: failed  process should be running!"
      else
        ont (upd_proc me (λ p, p <| chan := CProc me |>));;
        r ← for_until (seq 0 NPROC) (reap me);
        match r with
        | Some pid => mret (Some pid)
        | None =>
            ps ← ont (gets procs);
            p ← ont (proc_at me);
            if negb (has_kids me ps) || truthy (killed p) then
              ont (upd_proc me (λ p, p <| chan := CNull |>));;
              ok ← ont (cas_proc me MINUS_SLEEPING RUNNING);
              if negb ok then panic "should be minus sleeping!" else mret (Some (-1))
            else mret None
        end
  end.

(** ** userinit *)

(** The kernel address and the size of the binary of initcode. *)
Variables initcode_start initcode_size : Z.

(** The uninitialised buffer of [namei]. *)
Variable name0 : list Z.

(** The trap frame that starts initcode. *)
Definition init_tf : trapframe :=
  zero_trapframe <| tf_cs := Z.lor (Z.shiftl SEG_UCODE 3) DPL_USER |>
    <| tf_ds := Z.lor (Z.shiftl SEG_UDATA 3) DPL_USER |> <| tf_es := Z.lor (Z.shiftl SEG_UDATA 3) DPL_USER |>
    <| tf_ss := Z.lor (Z.shiftl SEG_UDATA 3) DPL_USER |> <| tf_eflags := FL_IF |> <| tf_esp := PGSIZE |> <| tf_eip := 0 |>.

Definition userinit : M lst () :=
  op ← allocproc;
  ont (modify (λ k, k <| initproc := op |>));;
  match op with
  | None => ont fault
  | Some j =>
      pg ← onp (setupkvm data);
      ont (upd_proc j (λ p, p <| pgdir := pg |>));;
      if pg =? 0 then panic "userinit: out of memory?"
      else
        onp (inituvm pg initcode_start initcode_size);;
        ont (upd_proc j (λ p, p <| Proc.sz := PGSIZE |>));;
        set_tf j init_tf;;
        ont (upd_proc j (λ p, p <| name := set_name (name p) [105; 110; 105; 116; 99; 111; 100; 101] 16 |>));;
        ip ← onin (namei sb dev_read None [47] name0);
        ont (upd_proc j (λ p, p <| cwd := ip |> <| state := RUNNABLE |>))
  end.
End life.
