(* ===== verification/LifeSpec.v ===== *)
(** * The life of a process: who owns what

    Every page that is not free belongs to one process or to the kernel: a
    kernel stack or a page directory to the process in one slot, tables and
    frames to their directory. Open files are counted by descriptors, and the
    slots of finished processes have none. *)
From stdpp Require Import functions.
From S2P Require Import Prelude Machine CString Spin Kalloc Proc Signal Bio.
From S2P Require Import Vm VmSpec VmUser VmSpace VmCopy.
From S2P Require Import FsBlock FsInode FsDir File SysFile SysFileSpec Exec Life.
Import KString.

(** ** Slots *)

Definition live (p : proc) : Prop := state p ≠ UNUSED.

Definition finished (s : procstate) : Prop :=
  match s with UNUSED | MINUS_UNUSED | ZOMBIE | MINUS_ZOMBIE => True | _ => False end.

Definition closed (p : proc) : Prop := ofile p = replicate NOFILE None ∧ cwd p = None.

Lemma closed_count p f : closed p → count_fds (ofile p) f = 0.
Proof. intros [-> _]. done. Qed.

(** The descriptor tables. *)
Definition slots_ok (ps : list proc) : Prop :=
  ∀ j p, ps !! j = Some p → length (ofile p) = NOFILE ∧ (finished (state p) → closed p).

Lemma slots_insert ps j p :
  slots_ok ps → length (ofile p) = NOFILE → (finished (state p) → closed p) → slots_ok (<[j := p]> ps).
Proof.
  intros Hs Hl Hf i q Hi. apply list_lookup_insert_Some in Hi as [(-> & <- & _)|[_ Hi]]; [done | eauto].
Qed.

Lemma find_unused_spec ps : ∀ k,
  match find_unused ps k with
  | Some r => ∃ j p, r = (k + j)%nat ∧ ps !! j = Some p ∧ state p = UNUSED
  | None => ∀ j p, ps !! j = Some p → live p
  end.
Proof.
  induction ps as [|p ps IH]; intros k; simpl; [intros j q Hj; by destruct j|].
  destruct (decide (state p = UNUSED)) as [E|E]; [exists 0%nat, p; by rewrite Nat.add_0_r|].
  specialize (IH (S k)). destruct (find_unused ps (S k)).
  - destruct IH as (j & q & -> & Hj & Hq). exists (S j), q. split; [lia | done].
  - intros [|j] q Hj; [by injection Hj as <- | by apply (IH j)].
Qed.

(** ** References to inodes *)

Fixpoint sumZ {A} (g : A → Z) (l : list A) : Z :=
  match l with
  | [] => 0
  | x :: l' => g x + sumZ g l'
  end.

Lemma sumZ_insert {A} (g : A → Z) l : ∀ j (x y : A), l !! j = Some x → sumZ g (<[j := y]> l) = sumZ g l - g x + g y.
Proof.
  induction l as [|z l IH]; intros [|j] x y Hj; [done | done | |].
  - injection Hj as ->. cbn. lia.
  - change (<[S j := y]> (z :: l)) with (z :: <[j := y]> l). cbn [sumZ]. rewrite (IH j x y) by exact Hj. lia.
Qed.

Lemma sumZ_ext {A} (g h : A → Z) l l' : length l' = length l →
  (∀ j x y, l !! j = Some x → l' !! j = Some y → h y = g x) → sumZ h l' = sumZ g l.
Proof.
  revert l'. induction l as [|x l IH]; intros [|y l'] Hlen E; try done. cbn [sumZ].
  rewrite (E 0%nat x y), (IH l'); [done | by injection Hlen | | done | done]. intros j a b Ha Hb. by apply (E (S j)).
Qed.

(** An open file on the inode [c], and a process in the directory [c]. *)
Definition file_on (c : nat) (y : file) : Z :=
  match f_type y with FD_INODE => if decide (f_ip y = c) then if 0 <? f_ref y then 1 else 0 else 0 | _ => 0 end.

Definition cwd_is (c : nat) (p : proc) : Z := if decide (cwd p = Some c) then 1 else 0.

(** The count of an inode is the number of open files and processes on it. *)
Definition inodes_ok (ps : list proc) (fl : list file) (ic : list inode) : Prop :=
  (∀ c ino, ic !! c = Some ino → i_ref ino = sumZ (file_on c) fl + sumZ (cwd_is c) ps) ∧
  (∀ j p c, ps !! j = Some p → cwd p = Some c → is_Some (ic !! c)).

Lemma inodes_same ps fl ic j q q' :
  inodes_ok ps fl ic → ps !! j = Some q → cwd q' = cwd q → inodes_ok (<[j := q']> ps) fl ic.
Proof.
  intros [A B] Hj Hc. split.
  - intros c ino Hi. rewrite (sumZ_insert _ _ j q) by done. unfold cwd_is at 2 3. rewrite Hc, (A c ino Hi). lia.
  - intros l p c Hl Hp. apply list_lookup_insert_Some in Hl as [(<- & <- & _)|[_ Hl]]; [|by eapply B].
    rewrite Hc in Hp. by eapply B.
Qed.

(** ** Pages *)

Section vm.
Context {K : Type} `{PageAlloc K}.

Implicit Types (ps : list proc).

Lemma vm_take (s : K) R :
  vm_ok s R →
  (∃ s', pa_kalloc s = Ok 0 s' ∧ vm_ok s' R ∧ pa_mem s' = pa_mem s ∧ ∀ p, R p ≠ Free) ∨
  (∃ p s', pa_kalloc s = Ok p s' ∧ R p = Free ∧ pa_page p ∧ vm_ok s' (<[p := Other]> R) ∧ pa_mem s' = pa_mem s).
Proof.
  intros [Hok Hf]. destruct (pt_alloc s R Hok) as [(s' & Ha & Hok' & Hm & Hn)|(p & s' & Ha & Hp & Hpg & Hok' & Hm)].
  - left. exists s'. split; [done|]. split; [split; [done | by rewrite Hm]|]. done.
  - right. exists p, s'. split; [done|]. split; [done|]. split; [done|]. split; [|done]. split; [done|].
    rewrite Hm. apply frames_idle; [done | by right | by left].
Qed.

Lemma vm_give (s : K) R p :
  vm_ok s R → pa_page p → R p = Other →
  ∃ s', pa_kfree p s = Ok () s' ∧ vm_ok s' (<[p := Free]> R) ∧
    (∀ a, page_of a ≠ p → pa_mem s' a = pa_mem s a) ∧ same_entries (pa_mem s) (pa_mem s') R.
Proof.
  intros [Hok Hf] Hp Ho. destruct (pt_kfree s R p) as (s' & Hr & Hok' & Hm & He); [done | done | by rewrite Ho |].
  exists s'. split; [done|]. split; [|done]. split; [done|]. apply frames_idle; [by eapply frames_ext | by left | by right].
Qed.

Lemma vm_store (s : K) R p f :
  vm_ok s R → R p = Other → wf_mem (f (pa_mem s)) → (∀ a, page_of a ≠ p → f (pa_mem s) a = pa_mem s a) →
  ∃ s', pa_write f s = Ok () s' ∧ vm_ok s' R ∧ pa_mem s' = f (pa_mem s) ∧ same_entries (pa_mem s) (pa_mem s') R.
Proof.
  intros [Hok Hf] Ho Hw Hm. destruct (pt_write s R p f) as (s' & Hr & Hok' & Hm' & He); [done | by rewrite Ho | done | done |].
  exists s'. split; [done|]. split; [|done]. split; [done|]. by eapply frames_ext.
Qed.

(** The pages of the processes [ps], the others being the kernel's ([X]). *)
Record owned (X : Z → Prop) (ps : list proc) (R : Z → role) : Prop := {
  ow_stack j p : ps !! j = Some p → live p → pa_page (kstack p) ∧ R (kstack p) = Other ∧ ¬ X (kstack p);
  ow_dir j p : ps !! j = Some p → live p → R (pgdir p) = Dir ∧ ¬ X (pgdir p);
  ow_apart i j p q : ps !! i = Some p → ps !! j = Some q → live p → live q → i ≠ j →
    kstack p ≠ kstack q ∧ pgdir p ≠ pgdir q;
  ow_stacks a : pa_page a → R a = Other → X a ∨ ∃ j p, ps !! j = Some p ∧ live p ∧ kstack p = a;
  ow_dirs d : R d = Dir → X d ∨ ∃ j p, ps !! j = Some p ∧ live p ∧ pgdir p = d;
  ow_kernel a : X a → R a = Other ∨ R a = Dir
}.

(** The memory of every process is mapped. *)
Definition mapped_ok (m : mem) (ps : list proc) : Prop :=
  ∀ j p, ps !! j = Some p → live p →
    0 ≤ sz p ≤ KERNBASE ∧ ∀ v, 0 ≤ v < pages_up (sz p) → present (entry m (pgdir p) v) = true.

Lemma owned_ext X ps R R' : (∀ a, R a = R' a) → owned X ps R → owned X ps R'.
Proof.
  intros E [A B C D F G]. split.
  - intros j p Hj Hl. rewrite <- E. eauto.
  - intros j p Hj Hl. rewrite <- E. eauto.
  - exact C.
  - intros a. rewrite <- E. apply D.
  - intros d. rewrite <- E. apply F.
  - intros a. rewrite <- E. apply G.
Qed.

(** A live slot after an update of another slot that is or was live. *)
Lemma keeps_live ps (j i : nat) (q q' p : proc) :
  ps !! j = Some q → ps !! i = Some p → live p → (j = i → live q' ∧ kstack q' = kstack p ∧ pgdir q' = pgdir p) →
  ∃ k r, <[j := q']> ps !! k = Some r ∧ live r ∧ kstack r = kstack p ∧ pgdir r = pgdir p.
Proof.
  intros Hj Hi Hl Hq. destruct (decide (j = i)) as [E|E].
  - exists j, q'. rewrite list_lookup_insert_eq by (by eapply lookup_lt_Some). split; [done | by apply Hq].
  - exists i, p. by rewrite list_lookup_insert_ne.
Qed.

(** An update that leaves the stack and the directory alone. *)
Lemma owned_same X ps R j q q' :
  owned X ps R → ps !! j = Some q → (live q' ↔ live q) → (live q → kstack q' = kstack q ∧ pgdir q' = pgdir q) →
  owned X (<[j := q']> ps) R.
Proof.
  intros [A B C D F G] Hj Hl Hk.
  assert (∀ i p, <[j := q']> ps !! i = Some p → live p →
    ∃ p0, ps !! i = Some p0 ∧ live p0 ∧ kstack p0 = kstack p ∧ pgdir p0 = pgdir p) as Hold.
  { intros i p Hi Hp. apply list_lookup_insert_Some in Hi as [(<- & <- & _)|[_ Hi]]; [exists q | exists p]; naive_solver. }
  assert (∀ i p, ps !! i = Some p → live p → ∃ k r, <[j := q']> ps !! k = Some r ∧ live r ∧ kstack r = kstack p ∧ pgdir r = pgdir p) as Hnew.
  { intros i p Hi Hp. eapply keeps_live; [done..|]. intros <-. rewrite Hi in Hj. injection Hj as ->. naive_solver. }
  split; [| | | | |done].
  - intros i p Hi Hp. destruct (Hold i p Hi Hp) as (p0 & ? & ? & <- & _). eauto.
  - intros i p Hi Hp. destruct (Hold i p Hi Hp) as (p0 & ? & ? & _ & <-). eauto.
  - intros i k p r Hp Hr Lp Lr Hne. destruct (Hold _ _ Hp Lp) as (p0 & ? & ? & <- & <-).
    destruct (Hold _ _ Hr Lr) as (r0 & ? & ? & <- & <-). eauto.
  - intros a Ha Ho. destruct (D a Ha Ho) as [?|(i & p & Hi & Hp & <-)]; [by left|]. right.
    destruct (Hnew i p Hi Hp) as (k & r & ? & ? & ? & _). eauto.
  - intros d Hdir. destruct (F d Hdir) as [?|(i & p & Hi & Hp & <-)]; [by left|]. right.
    destruct (Hnew i p Hi Hp) as (k & r & ? & ? & _ & ?). eauto.
Qed.

(** A slot filled with pages that were free. *)
Lemma owned_add X ps R R' j q q' :
  owned X ps R → ps !! j = Some q → state q = UNUSED → live q' → pa_page (kstack q') →
  R (kstack q') = Free → R' (kstack q') = Other → R (pgdir q') = Free → R' (pgdir q') = Dir →
  (∀ a, R a ≠ Free → R' a = R a) →
  (∀ a, R a = Free → a ≠ kstack q' → a ≠ pgdir q' → R' a ≠ Other ∧ R' a ≠ Dir) →
  owned X (<[j := q']> ps) R'.
Proof.
  intros [A B C D F G] Hj Hu Hlive Hpg Hk Hk' Hd Hd' Hkeep Hfree.
  pose proof (lookup_lt_Some _ _ _ Hj) as Hlt.
  assert (∀ i p, ps !! i = Some p → live p → <[j := q']> ps !! i = Some p) as Hnew.
  { intros i p Hi Hl. rewrite list_lookup_insert_ne; [done|]. intros <-. rewrite Hj in Hi. injection Hi as <-. done. }
  assert (∀ a, X a → R a ≠ Free) as HX by (intros a [?|?]%G; congruence).
  assert (∀ a, R a = Free → ¬ X a) as HX' by (intros a Ha ?%HX; done).
  split.
  - intros i p Hi Hl. apply list_lookup_insert_Some in Hi as [(<- & <- & _)|[_ Hi]]; [by auto|].
    destruct (A i p Hi Hl) as (? & E & ?). split; [done|]. split; [by rewrite Hkeep; congruence | done].
  - intros i p Hi Hl. apply list_lookup_insert_Some in Hi as [(<- & <- & _)|[_ Hi]]; [by auto|].
    destruct (B i p Hi Hl) as (E & ?). split; [by rewrite Hkeep; congruence | done].
  - intros i k p r Hi Hr Lp Lr Hne.
    assert (∀ n w, ps !! n = Some w → live w → kstack w ≠ kstack q' ∧ pgdir w ≠ pgdir q') as Hn.
    { intros n w Hw Hl. destruct (A n w Hw Hl) as (_ & E1 & _), (B n w Hw Hl) as (E2 & _). split; congruence. }
    apply list_lookup_insert_Some in Hi as [(<- & <- & _)|[? Hi]]; apply list_lookup_insert_Some in Hr as [(<- & <- & _)|[? Hr]].
    + done.
    + destruct (Hn k r Hr Lr). split; by apply not_eq_sym.
    + eauto.
    + eauto.
  - intros a Ha Ho. destruct (decide (a = kstack q')) as [->|Hne].
    { right. exists j, q'. rewrite list_lookup_insert_eq by done. done. }
    destruct (decide (R a = Free)) as [Hf|Hf].
    { destruct (decide (a = pgdir q')); [congruence|]. destruct (Hfree a Hf); congruence. }
    rewrite Hkeep in Ho by done. destruct (D a Ha Ho) as [?|(i & p & Hi & Hl & E)]; [by left|]. right. eauto 6.
  - intros d Hdir. destruct (decide (d = pgdir q')) as [->|Hne].
    { right. exists j, q'. rewrite list_lookup_insert_eq by done. done. }
    destruct (decide (R d = Free)) as [Hf|Hf].
    { destruct (decide (d = kstack q')); [congruence|]. destruct (Hfree d Hf); congruence. }
    rewrite Hkeep in Hdir by done. destruct (F d Hdir) as [?|(i & p & Hi & Hl & E)]; [by left|]. right. eauto 6.
  - intros a Ha. rewrite Hkeep by auto. auto.
Qed.

(** A slot emptied, and its pages given back. *)
Lemma owned_remove X ps R R' j q q' :
  owned X ps R → ps !! j = Some q → live q → state q' = UNUSED →
  (∀ a, R' a = Other ↔ R a = Other ∧ a ≠ kstack q) → (∀ a, R' a = Dir ↔ R a = Dir ∧ a ≠ pgdir q) →
  owned X (<[j := q']> ps) R'.
Proof.
  intros [A B C D F G] Hj Hl Hu Ho Hd. pose proof (lookup_lt_Some _ _ _ Hj) as Hlt.
  assert (∀ i p, <[j := q']> ps !! i = Some p → live p → ps !! i = Some p ∧ i ≠ j) as Hold.
  { intros i p Hi Hp. apply list_lookup_insert_Some in Hi as [(<- & <- & _)|[? Hi]]; [done | auto]. }
  assert (∀ i p, ps !! i = Some p → i ≠ j → <[j := q']> ps !! i = Some p) as Hnew.
  { intros i p Hi Hne. by rewrite list_lookup_insert_ne. }
  split.
  - intros i p Hi Hp. destruct (Hold i p Hi Hp) as [Hi' Hne]. destruct (A i p Hi' Hp) as (? & ? & ?).
    destruct (C i j p q Hi' Hj Hp Hl Hne). rewrite Ho. done.
  - intros i p Hi Hp. destruct (Hold i p Hi Hp) as [Hi' Hne]. destruct (B i p Hi' Hp).
    destruct (C i j p q Hi' Hj Hp Hl Hne). rewrite Hd. done.
  - intros i k p r Hi Hr Lp Lr Hne. destruct (Hold i p Hi Lp), (Hold k r Hr Lr). eauto.
  - intros a Ha [Hr Hne]%Ho. destruct (D a Ha Hr) as [?|(i & p & Hi & Hp & <-)]; [by left|]. right.
    exists i, p. split; [apply Hnew; [done|] | done]. intros ->. rewrite Hj in Hi. by injection Hi as ->.
  - intros d [Hr Hne]%Hd. destruct (F d Hr) as [?|(i & p & Hi & Hp & <-)]; [by left|]. right.
    exists i, p. split; [apply Hnew; [done|] | done]. intros ->. rewrite Hj in Hi. by injection Hi as ->.
  - intros a Ha. destruct (A j q Hj Hl) as (_ & _ & Hk), (B j q Hj Hl) as (_ & Hg). rewrite Ho, Hd.
    destruct (G a Ha) as [?|?]; [left | right]; (split; [done|]); by intros ->.
Qed.
End vm.
