(* ===== verification/LifeFork.v ===== *)
(** * The life of a process: fork

    [fork] makes a process that is a copy of its parent, on memory of its
    own, or leaves everything as it was. *)
From stdpp Require Import functions.
From S2P Require Import Prelude Machine CString Spin Kalloc Proc Signal Bio.
From S2P Require Import Vm VmSpec VmUser VmSpace VmCopy.
From S2P Require Import FsBlock FsInode FsDir File SysFile SysFileSpec Exec Asm AsmSwitch Life LifeSpec.
Import KString.

(** Process identifiers are handed out in order. *)
Definition pids_ok (ps : list proc) (n : Z) : Prop :=
  0 < n ∧ (∀ j p, ps !! j = Some p → live p → 0 < pid p < n) ∧
  ∀ i j p q, ps !! i = Some p → ps !! j = Some q → live p → live q → i ≠ j → pid p ≠ pid q.

Lemma pids_insert ps n j q :
  pids_ok ps n → pid q = n → pids_ok (<[j := q]> ps) (n + 1).
Proof.
  intros (Hn & Hp & Hd) E. split; [lia|]. split.
  - intros i p Hi Hl. apply list_lookup_insert_Some in Hi as [(<- & <- & _)|[_ Hi]]; [lia|].
    pose proof (Hp i p Hi Hl). lia.
  - intros i k p r Hi Hk Lp Lr Hne.
    apply list_lookup_insert_Some in Hi as [(<- & <- & _)|[_ Hi]]; apply list_lookup_insert_Some in Hk as [(<- & <- & _)|[_ Hk]].
    + done.
    + pose proof (Hp k r Hk Lr). lia.
    + pose proof (Hp i p Hi Lp). lia.
    + eauto.
Qed.

(** A slot that keeps its identifier or is given up. *)
Lemma pids_same ps n j q q' :
  pids_ok ps n → ps !! j = Some q → (live q' → live q ∧ pid q' = pid q) → pids_ok (<[j := q']> ps) n.
Proof.
  intros (Hn & Hp & Hd) Hj Hq. split; [done|].
  assert (∀ i p, <[j := q']> ps !! i = Some p → live p → ∃ p0, ps !! i = Some p0 ∧ live p0 ∧ pid p0 = pid p) as Hold.
  { intros i p Hi Hl. apply list_lookup_insert_Some in Hi as [(<- & <- & _)|[_ Hi]]; [|by eauto].
    destruct (Hq Hl). eauto. }
  split.
  - intros i p Hi Hl. destruct (Hold i p Hi Hl) as (p0 & ? & ? & <-). eauto.
  - intros i k p r Hi Hk Lp Lr Hne. destruct (Hold i p Hi Lp) as (? & ? & ? & <-), (Hold k r Hk Lr) as (? & ? & ? & <-). eauto.
Qed.

Lemma pids_more ps n : pids_ok ps n → pids_ok ps (n + 1).
Proof. intros (? & Hp & ?). split; [lia|]. split; [|done]. intros j p Hj Hl. pose proof (Hp j p Hj Hl). lia. Qed.

(** Free pages before and after one is taken. *)
Lemma few_free_none (R : Z → role) n : (∀ a, R a ≠ Free) → 0 ≤ n → few_free R n.
Proof. intros Hn H0 [|a l] _ Hl; [done|]. exfalso. apply (Hn a), Hl. left. Qed.

Lemma few_free_take (R : Z → role) ks n : few_free (<[ks := Other]> R) (1026 + n) → few_free R (1027 + n).
Proof.
  intros Hf l Hnd Hl. assert (Z.of_nat (length (filter (λ a, a ≠ ks) l)) ≤ 1026 + n) as Hle.
  { apply Hf; [by apply NoDup_filter|]. intros a [Hne Ha]%list_elem_of_filter. rewrite fn_lookup_insert_ne; [by apply Hl | by apply not_eq_sym]. }
  assert (length l ≤ Datatypes.S (length (filter (λ a, a ≠ ks) l)))%nat; [|lia].
  apply (submseteq_length l (ks :: filter (λ a, a ≠ ks) l)), NoDup_submseteq; [done|]. intros x Hx.
  destruct (decide (x = ks)) as [->|]; [left | right; by apply list_elem_of_filter].
Qed.

(** Updates of a process computed field by field. *)
Ltac proc_fields :=
  cbv [set_field Proc.sz Proc.pgdir Proc.kstack Proc.state Proc.pid Proc.parent Proc.tf Proc.ctx Proc.chan Proc.killed
    Proc.ofile Proc.cwd Proc.name Proc.psignals Proc.sigmask Proc.sigmask_backup Proc.sig_handlers Proc.tf_backup Proc.frozen].

Section fork.
Context {K : Type} `{PageAlloc K}.
Context {S : Type} `{Transactions S}.
Context {P : Type} `{PipeLayer P}.
Variables data trapret forkret : Z.
Notation lst := (K * @sysst S P)%type.

(** ** The invariant *)

Record life_ok (X : Z → Prop) (s : lst) (R : Z → role) : Prop := {
  lf_vm : vm_ok (fst s) R;
  lf_own : owned X (procs (sy_k (snd s))) R;
  lf_map : mapped_ok (pa_mem (fst s)) (procs (sy_k (snd s)));
  lf_fds : fds_ok (snd s);
  lf_inodes : inodes_ok (procs (sy_k (snd s))) (k_files (sy_f (snd s))) (snd (k_fs (sy_f (snd s))));
  lf_slots : slots_ok (procs (sy_k (snd s)));
  lf_pids : pids_ok (procs (sy_k (snd s))) (nextpid (sy_k (snd s)))
}.

(** ** Running the parts of the state *)

Lemma onp_ok {A} (m : M K A) s s' (y : @sysst S P) a : m s = Ok a s' → onp m (s, y) = Ok a (s', y).
Proof. intros E. unfold onp, onfst. by rewrite E. Qed.

Lemma ont_ok {A} (m : M kst A) (s : K) k k' (f : @kfs S P) a : m k = Ok a k' → ont m (s, Sysst k f) = Ok a (s, Sysst k' f).
Proof. intros E. unfold ont, onsnd, onk. by rewrite E. Qed.

Lemma onfl_ok {A} (m : M (@kfs S P) A) (s : K) k f f' a : m f = Ok a f' → onfl m (s, Sysst k f) = Ok a (s, Sysst k f').
Proof. intros E. unfold onfl, onsnd, onf. by rewrite E. Qed.

Lemma onin_ok {A} (m : M (@fsys S) A) (s : K) k (f : @kfs S P) x a :
  m (k_fs f) = Ok a x → onin m (s, Sysst k f) = Ok a (s, Sysst k (Kfs x (k_files f) (k_pipes f))).
Proof. intros E. unfold onin, oni, onsnd, onf, onfs. rewrite E. done. Qed.

(** The slot [j] under construction. *)
Section slot.
Variables (k : kst) (j : nat).
Hypothesis Hj : (j < length (procs k))%nat.

Lemma upd_with q g : upd_proc j g (with_proc k j q) = Ok () (with_proc k j (g q)).
Proof.
  unfold upd_proc, modify, with_proc, set_field. simpl. f_equal. f_equal.
  rewrite (alter_insert_list _ _ q) by (by apply list_lookup_insert_eq). by rewrite list_insert_insert_eq.
Qed.

Lemma at_with q : proc_at j (with_proc k j q) = Ok q (with_proc k j q).
Proof. unfold proc_at. rewrite bind_get. simpl. by rewrite list_lookup_insert_eq. Qed.

Lemma cas_with q e n : state q = e → cas_proc j e n (with_proc k j q) = Ok true (with_proc k j (q <| state := n |>)).
Proof.
  intros Hq. unfold cas_proc. rewrite (bind_ok _ _ _ _ _ (at_with q)). rewrite Hq. unfold cas.
  rewrite decide_True by done. rewrite (bind_ok _ _ _ _ _ (upd_with q _)). done.
Qed.

Context {B : Type}.
Variables (s : K) (f : @kfs S P).
Lemma run_upd q g (c : () → M lst B) :
  (ont (upd_proc j g) ≫= c) (s, Sysst (with_proc k j q) f) = c () (s, Sysst (with_proc k j (g q)) f).
Proof. by rewrite (bind_ok _ _ _ _ _ (ont_ok _ s _ _ f _ (upd_with q g))). Qed.

Lemma run_at q (c : proc → M lst B) :
  (ont (proc_at j) ≫= c) (s, Sysst (with_proc k j q) f) = c q (s, Sysst (with_proc k j q) f).
Proof. by rewrite (bind_ok _ _ _ _ _ (ont_ok _ s _ _ f _ (at_with q))). Qed.

Lemma run_cas q e n (c : bool → M lst B) :
  state q = e →
  (ont (cas_proc j e n) ≫= c) (s, Sysst (with_proc k j q) f) = c true (s, Sysst (with_proc k j (q <| state := n |>)) f).
Proof. intros Hq. by rewrite (bind_ok _ _ _ _ _ (ont_ok _ s _ _ f _ (cas_with q e n Hq))). Qed.

Lemma run_cur i p q (c : proc → M lst B) :
  running k i p → i ≠ j → (ont curproc ≫= c) (s, Sysst (with_proc k j q) f) = c p (s, Sysst (with_proc k j q) f).
Proof.
  intros [Hc Hp] Hne. assert (running (with_proc k j q) i p) as Hr.
  { split; [done|]. simpl. by rewrite list_lookup_insert_ne. }
  by rewrite (bind_ok _ _ _ _ _ (ont_ok _ s _ _ f _ (curproc_ok _ _ _ Hr))).
Qed.
End slot.

Lemma with_self k j q : procs k !! j = Some q → with_proc k j q = k.
Proof. intros Hj. unfold with_proc, set_field. rewrite list_insert_id by done. by destruct k. Qed.

(** ** allocproc *)

(** The next identifier taken. *)
Definition took_pid (k : kst) : kst := k <| nextpid := s32 (nextpid k + 1) |>.

Definition new_slot (q : proc) (n ks : Z) (t : trapframe) : proc :=
  q <| state := EMBRYO |> <| pid := n |> <| kstack := ks |> <| tf := t |> <| ctx := Context 0 0 0 0 forkret |>
    <| psignals := 0 |> <| sigmask := 0 |> <| sig_handlers := reset_handlers |>.

Definition new_stack (m : mem) (ks : Z) : mem :=
  store32 (memset (store32 m (stack_ret ks) trapret) (stack_ctx ks) 0 SIZEOF_CONTEXT) (stack_ctx ks + 16) forkret.

Lemma memset_wf m a n : wf_mem m → 0 ≤ n → wf_mem (memset m a 0 n).
Proof. intros Hm Hn x. rewrite memset_byte by done. case_decide; [by vm_compute | apply Hm]. Qed.

(** Bytes of the stack page. *)
Lemma in_stack ks a : pa_page ks → page_of a ≠ ks → ¬ (ks ≤ a < ks + 4096).
Proof. intros Hp Hne Ha. apply Hne, page_of_spec; [done|]. unfold in_page, PGSIZE. lia. Qed.

Lemma store_in_stack m ks o w a :
  pa_page ks → 0 ≤ o ≤ 4092 → page_of a ≠ ks → store32 m (ks + o) w a = m a.
Proof. intros Hp Ho Ha. rewrite store32_byte, decide_False; [done|]. pose proof (in_stack ks a Hp Ha). lia. Qed.

Lemma set_ctx_write m ks a :
  pa_page ks → page_of a ≠ ks →
  store32 (memset m (stack_ctx ks) 0 SIZEOF_CONTEXT) (stack_ctx ks + 16) forkret a = m a.
Proof.
  intros Hp Ha. pose proof (in_stack ks a Hp Ha). unfold stack_ctx, stack_ret, stack_tf, KSTACKSIZE, SIZEOF_TRAPFRAME, SIZEOF_CONTEXT in *.
  rewrite store32_byte, decide_False by lia. rewrite memset_byte, decide_False by lia. done.
Qed.

Lemma new_stack_elsewhere m ks a : pa_page ks → page_of a ≠ ks → new_stack m ks a = m a.
Proof.
  intros Hp Ha. unfold new_stack. rewrite set_ctx_write by done.
  replace (stack_ret ks) with (ks + 4016) by (unfold stack_ret, stack_tf, KSTACKSIZE, SIZEOF_TRAPFRAME; lia). by apply store_in_stack.
Qed.

Lemma allocproc_ok s k (f : @kfs S P) R :
  vm_ok s R →
  (allocproc trapret forkret (s, Sysst k f) = Ok None (s, Sysst k f) ∧ ∀ j p, procs k !! j = Some p → live p) ∨
  ∃ j q, procs k !! j = Some q ∧ state q = UNUSED ∧
   ((∃ s', allocproc trapret forkret (s, Sysst k f) =
       Ok None (s', Sysst (with_proc (took_pid k) j (q <| pid := nextpid k |> <| kstack := 0 |>)) f) ∧
       vm_ok s' R ∧ pa_mem s' = pa_mem s ∧ ∀ p, R p ≠ Free) ∨
    (∃ s' ks t, allocproc trapret forkret (s, Sysst k f) =
       Ok (Some j) (s', Sysst (with_proc (took_pid k) j (new_slot q (nextpid k) ks t)) f) ∧
       R ks = Free ∧ pa_page ks ∧ vm_ok s' (<[ks := Other]> R) ∧ pa_mem s' = new_stack (pa_mem s) ks ∧
       same_entries (pa_mem s) (pa_mem s') R)).
Proof.
  intros Hvm. pose proof (find_unused_spec (procs k) 0) as Hfind.
  assert (∀ c : list proc → M lst (option nat), (ont (gets procs) ≫= c) (s, Sysst k f) = c (procs k) (s, Sysst k f)) as Eg by done.
  unfold allocproc. rewrite Eg. destruct (find_unused (procs k) 0) as [j'|]; [|by left]. right.
  destruct Hfind as (j & q & -> & Hj & Hq). exists j, q. split; [done|]. split; [done|]. simpl plus.
  pose proof (lookup_lt_Some _ _ _ Hj) as Hlt. assert (j < length (procs (took_pid k)))%nat as Hlt' by exact Hlt.
  replace (s, Sysst k f) with (s, Sysst (with_proc k j q) f) by (by rewrite with_self). rewrite run_cas by done.
  assert (∀ q (c : Z → M lst (option nat)), (ont allocpid ≫= c) (s, Sysst (with_proc k j q) f) =
    c (nextpid k) (s, Sysst (with_proc (took_pid k) j q) f)) as Ep by done.
  rewrite Ep, run_upd by done. clear Eg Ep.
  destruct (vm_take s R Hvm) as [(s1 & Ha & Hvm1 & Hm1 & Hnf)|(ks & s1 & Ha & Hks & Hpg & Hvm1 & Hm1)];
    rewrite (bind_ok _ _ _ _ _ (onp_ok _ _ _ _ _ Ha)), run_upd by done.
  - left. exists s1. change (0 =? 0) with true. cbv iota. rewrite run_upd by done. split; [|done].
    by destruct q; simpl in *; subst.
  - right. rewrite page_nonzero by done. unfold point_tf. rewrite bind_assoc.
    assert (∀ y (c : mem → M lst (option nat)), (onp (gets pa_mem) ≫= c) (s1, y) = c (pa_mem s1) (s1, y)) as Eg by done.
    rewrite Eg, run_upd by done. clear Eg.
    assert (pt_wf1 : wf_mem (pa_mem s1)) by (apply (pt_wf s1 _ (proj1 Hvm1))).
    assert (stack_ret ks = ks + 4016 ∧ stack_ctx ks = ks + 3996) as [Er Ec] by (unfold stack_ctx, stack_ret, stack_tf, KSTACKSIZE, SIZEOF_TRAPFRAME, SIZEOF_CONTEXT; lia).
    destruct (vm_store s1 (<[ks := Other]> R) ks (λ m, store32 m (stack_ret ks) trapret)) as (s2 & E2 & Hvm2 & Hm2 & He2).
    { done. } { apply fn_lookup_insert. } { by apply store32_wf. } { intros a Ha'. rewrite Er. by apply store_in_stack. }
    rewrite (bind_ok _ _ _ _ _ (onp_ok _ _ _ _ _ E2)). unfold set_ctx. rewrite bind_assoc.
    destruct (vm_store s2 (<[ks := Other]> R) ks (λ m, store32 (memset m (stack_ctx ks) 0 SIZEOF_CONTEXT) (stack_ctx ks + 16) forkret))
      as (s3 & E3 & Hvm3 & Hm3 & He3).
    { done. } { apply fn_lookup_insert. } { apply store32_wf, memset_wf; [apply (pt_wf s2 _ (proj1 Hvm2)) | by vm_compute]. } { intros a Ha'. by apply set_ctx_write. }
    rewrite (bind_ok _ _ _ _ _ (onp_ok _ _ _ _ _ E3)), !run_upd by done.
    eexists s3, ks, _. split; [reflexivity|]. split; [done|]. split; [done|]. split; [done|]. split.
    + rewrite Hm3, Hm2, Hm1. reflexivity.
    + apply (recast_same_entries _ _ R ks Other); [by rewrite Hks; intros []|]. rewrite <- Hm1.
      intros d v Hd Hv. rewrite He3, He2 by done. done.
Qed.

(** ** The descriptors *)

Definition with_files (f : @kfs S P) (fl : list file) : @kfs S P := Kfs (k_fs f) fl (k_pipes f).

Lemma filedup_run (f : @kfs S P) x y :
  k_files f !! x = Some y → 1 ≤ f_ref y →
  filedup x f = Ok x (with_files f (<[x := y <| f_ref := f_ref y + 1 |>]> (k_files f))).
Proof.
  intros Hx Hr. unfold filedup, file_at. unfold mbind at 1, M_bind at 1. rewrite Hx. simpl.
  rewrite (proj2 (Z.ltb_ge _ 1)) by lia. unfold upd_file, mbind, M_bind, modify, mret, M_ret, set_field, with_files. simpl.
  by rewrite (alter_insert_list _ _ y).
Qed.

(** Every reference to a file [x] raised by the descriptors in [l]. *)
Definition raised (l : list (option nat)) (fl fl' : list file) : Prop :=
  length fl' = length fl ∧
  ∀ x y, fl !! x = Some y → fl' !! x = Some (y <| f_ref := f_ref y + count_fds l x |>).

Lemma raised_nil fl : raised [] fl fl.
Proof. split; [done|]. intros x y Hx. rewrite Hx. f_equal. destruct y; simpl. f_equal. unfold set_field; simpl. f_equal. lia. Qed.

Lemma raised_cons l fl fl' x y :
  fl !! x = Some y → raised l (<[x := y <| f_ref := f_ref y + 1 |>]> fl) fl' → raised (Some x :: l) fl fl'.
Proof.
  intros Hx [Hl Hr]. rewrite length_insert in Hl. split; [done|]. intros z w Hz. simpl count_fds.
  destruct (decide (x = z)) as [<-|Hne].
  - rewrite Hx in Hz. injection Hz as <-. erewrite Hr by (apply list_lookup_insert_eq; by eapply lookup_lt_Some).
    f_equal. unfold set_field. simpl. f_equal. lia.
  - erewrite Hr by (by rewrite list_lookup_insert_ne). done.
Qed.

Lemma dup_fd_open k i j p (s : K) : running k i p → i ≠ j → (j < length (procs k))%nat →
  ∀ fd q f x y, ofile p !! fd = Some (Some x) → k_files f !! x = Some y → 1 ≤ f_ref y →
  dup_fd j fd (s, Sysst (with_proc k j q) f) =
  Ok () (s, Sysst (with_proc k j (q <| ofile := <[fd := Some x]> (ofile q) |>))
    (with_files f (<[x := y <| f_ref := f_ref y + 1 |>]> (k_files f)))).
Proof.
  intros Hrun Hij Hlt fd q f x y Ho Hy Hr. unfold dup_fd. rewrite (run_cur k j s f i p) by done. rewrite Ho.
  rewrite (bind_ok _ _ _ _ _ (onfl_ok _ _ _ _ _ _ (filedup_run _ _ _ Hy Hr))). apply ont_ok.
  exact (upd_with k j Hlt q (λ p, p <| ofile := <[fd := Some x]> (ofile p) |>)).
Qed.

Lemma dup_fd_none k i j p (s : K) : running k i p → i ≠ j → (j < length (procs k))%nat →
  ∀ fd q (f : @kfs S P), ofile p !! fd = Some None → dup_fd j fd (s, Sysst (with_proc k j q) f) = Ok () (s, Sysst (with_proc k j q) f).
Proof. intros Hrun Hij Hlt fd q f Ho. unfold dup_fd. rewrite (run_cur k j s f i p) by done. by rewrite Ho. Qed.

Lemma dup_fds_ok k i j p (s : K) : running k i p → i ≠ j → (j < length (procs k))%nat → length (ofile p) = NOFILE →
  ∀ n fd q f, (fd + n = NOFILE)%nat → ofile q = take fd (ofile p) ++ replicate n None →
  (∀ c x, ofile p !! c = Some (Some x) → ∃ y, k_files f !! x = Some y ∧ 1 ≤ f_ref y) →
  ∃ fl', for_each (seq fd n) (dup_fd j) (s, Sysst (with_proc k j q) f)
    = Ok () (s, Sysst (with_proc k j (q <| ofile := ofile p |>)) (with_files f fl')) ∧
    raised (drop fd (ofile p)) (k_files f) fl'.
Proof.
  intros Hrun Hij Hlt Hlen. induction n as [|n IH]; intros fd q f Hn Hq Hopen.
  - exists (k_files f). rewrite Nat.add_0_r in Hn. subst fd. rewrite <- Hlen, drop_all. split; [|apply raised_nil].
    rewrite <- Hlen, firstn_all, app_nil_r in Hq. simpl. rewrite <- Hq. by destruct q, f.
  - destruct (lookup_lt_is_Some_2 (ofile p) fd) as [o Ho]; [lia|].
    rewrite (drop_S _ o fd Ho). cbn [seq for_each].
    assert (∀ o', ofile q = take fd (ofile p) ++ replicate (Datatypes.S n) None →
      <[fd := o']> (ofile q) = take fd (ofile p) ++ o' :: replicate n None) as Hins.
    { intros o' ->. rewrite insert_app_r_alt by (rewrite length_take; lia). rewrite length_take.
      replace (fd - _)%nat with 0%nat by lia. done. }
    destruct o as [x|].
    + destruct (Hopen fd x Ho) as (y & Hy & Hr). rewrite (bind_ok _ _ _ _ _ (dup_fd_open k i j p s Hrun Hij Hlt fd q f x y Ho Hy Hr)).
      destruct (IH (Datatypes.S fd) (q <| ofile := <[fd := Some x]> (ofile q) |>) (with_files f (<[x := y <| f_ref := f_ref y + 1 |>]> (k_files f))))
        as (fl' & E & Hrs); [lia | | |].
      { cbn [ofile set_field]. rewrite (take_S_r _ _ (Some x) Ho), <- app_assoc. by apply Hins. }
      { intros c z Hc. destruct (Hopen c z Hc) as (w & Hw & Hrw). simpl. destruct (decide (x = z)) as [<-|Hne].
        - rewrite list_lookup_insert_eq by (by eapply lookup_lt_Some). eexists. split; [done|]. simpl. lia.
        - rewrite list_lookup_insert_ne by done. eauto. }
      exists fl'. split; [exact E|]. by eapply raised_cons.
    + rewrite (bind_ok _ _ _ _ _ (dup_fd_none k i j p s Hrun Hij Hlt fd q f Ho)). destruct (IH (Datatypes.S fd) q f) as (fl' & E & Hrs); [lia | | done |].
      { rewrite Hq, (take_S_r _ _ None Ho), <- app_assoc. done. }
      exists fl'. split; [exact E | exact Hrs].
Qed.

(** ** The child *)

Definition child (i : nat) (p q : proc) (n ks d : Z) : proc :=
  q <| sz := sz p |> <| pgdir := d |> <| kstack := ks |> <| state := RUNNABLE |> <| pid := n |> <| parent := Some i |>
    <| tf := (tf p) <| tf_eax := 0 |> |> <| ctx := Context 0 0 0 0 forkret |> <| ofile := ofile p |> <| cwd := cwd p |>
    <| name := set_name (name q) (until_nul (name p)) 16 |> <| psignals := 0 |> <| sigmask := sigmask p |>
    <| sig_handlers := copySigHandlers (sig_handlers p) |>.

Lemma store_words_wf ws : ∀ m a, wf_mem m → wf_mem (store_words m a ws).
Proof. induction ws as [|w ws IH]; intros m a Hm; simpl; [done|]. by apply IH, store32_wf. Qed.

Lemma store_tf_elsewhere m ks t a : pa_page ks → page_of a ≠ ks → store_tf m (stack_tf ks) t a = m a.
Proof.
  intros Hp Ha. pose proof (in_stack ks a Hp Ha). apply store_tf_frame.
  unfold stack_tf, KSTACKSIZE, SIZEOF_TRAPFRAME. lia.
Qed.

Lemma set_tf_ok k j (s : K) (f : @kfs S P) R q t :
  (j < length (procs k))%nat → vm_ok s R → pa_page (kstack q) → R (kstack q) = Other →
  ∃ s', set_tf j t (s, Sysst (with_proc k j q) f) = Ok () (s', Sysst (with_proc k j (q <| tf := t |>)) f) ∧
    vm_ok s' R ∧ pa_mem s' = store_tf (pa_mem s) (stack_tf (kstack q)) t ∧ same_entries (pa_mem s) (pa_mem s') R.
Proof.
  intros Hlt Hvm Hp Ho.
  destruct (vm_store s R (kstack q) (λ m, store_tf m (stack_tf (kstack q)) t)) as (s' & E & Hvm' & Hm & He).
  { done. } { done. } { apply store_words_wf, (pt_wf s R (proj1 Hvm)). } { intros a Ha. by apply store_tf_elsewhere. }
  exists s'. split; [|done]. unfold set_tf. rewrite run_at by done. rewrite (bind_ok _ _ _ _ _ (onp_ok _ _ _ _ _ E)).
  apply ont_ok. exact (upd_with k j Hlt q (λ p, p <| tf := t |>)).
Qed.

(** What a new kernel stack holds: the trap frame, the return address of
    [forkret], and the context [swtch] resumes. *)
Definition stack_ready (m : mem) (ks : Z) (t : trapframe) : Prop :=
  load_tf m (stack_tf ks) = t ∧ load32 m (stack_ret ks) = trapret ∧ ctx_of m (stack_ctx ks) = Context 0 0 0 0 forkret.

Lemma new_stack_ready m ks t : word trapret → word forkret → tf_ok t → stack_ready (store_tf (new_stack m ks) (stack_tf ks) t) ks t.
Proof.
  intros Hr Hf Ht. split; [by apply load_store_tf|].
  assert (∀ b, b < stack_tf ks → store_tf (new_stack m ks) (stack_tf ks) t b = new_stack m ks b) as Hb.
  { intros b Hb. apply store_tf_frame. lia. }
  unfold new_stack, stack_ctx, stack_ret in *. set (a := stack_tf ks) in *. clearbody a. unfold SIZEOF_CONTEXT in *.
  set (m1 := store32 m (a - 4) trapret) in *.
  assert (∀ x, store32 (memset m1 (a - 4 - 20) 0 20) (a - 4 - 20 + 16) forkret x =
    if decide (a - 8 ≤ x < a - 4) then store32 m1 (a - 8) forkret x else if decide (a - 24 ≤ x < a - 4) then 0 else m1 x) as Hx.
  { intros x. replace (a - 4 - 20 + 16) with (a - 8) by lia. rewrite !store32_byte, memset_byte by lia. repeat case_decide; lia || done. }
  split.
  - rewrite (load32_ext _ m1); [by apply load32_store32_eq|]. intros x Hx'. rewrite Hb by lia. rewrite Hx.
    rewrite !decide_False by lia. done.
  - assert (∀ b, a - 24 ≤ b → b + 4 ≤ a - 8 → load32 (store_tf (store32 (memset m1 (a - 4 - 20) 0 20) (a - 4 - 20 + 16) forkret) a t) b = 0) as Hz.
    { intros b H1' H2'. rewrite (load32_ext _ (λ _, 0)); [done|]. intros x Hx'. rewrite Hb, Hx by lia.
      rewrite decide_False, decide_True by lia. done. }
    unfold ctx_of. rewrite !Hz by lia. f_equal. replace (a - 4 - 20 + 16) with (a - 8) by lia.
    rewrite (load32_ext _ (store32 m1 (a - 8) forkret)); [by apply load32_store32_eq|]. intros x Hx'.
    replace (a - 8) with (a - 4 - 20 + 16) at 1 by lia. rewrite Hb, Hx by lia. rewrite decide_True by lia. done.
Qed.

Lemma store_words_ext ws : ∀ m m' a x,
  (¬ (a ≤ x < a + 4 * Z.of_nat (length ws)) → m x = m' x) → store_words m a ws x = store_words m' a ws x.
Proof.
  induction ws as [|w ws IH]; intros m m' a x E; cbn [store_words length] in *; [apply E; lia|].
  apply IH. intros Hx. rewrite !store32_byte. case_decide; [done|]. apply E. lia.
Qed.

Lemma stack_ready_ext m m' ks t :
  (∀ x, ks ≤ x < ks + 4096 → m x = m' x) → stack_ready m ks t → stack_ready m' ks t.
Proof.
  unfold stack_ready, stack_ctx, stack_ret, stack_tf, KSTACKSIZE, SIZEOF_TRAPFRAME, SIZEOF_CONTEXT. intros E (A & B & C).
  split; [|split].
  - rewrite <- A. symmetry. apply load_tf_ext. unfold SIZEOF_TRAPFRAME. intros x Hx. apply E. lia.
  - rewrite <- B. symmetry. apply load32_ext. intros x Hx. apply E. lia.
  - rewrite <- C. symmetry. apply ctx_of_ext. intros x Hx. apply E. lia.
Qed.

(** ** The memory after fork *)

Record forked (m m' : mem) (R R' : Z → role) (p : proc) (ks d : Z) : Prop := {
  fk_page : pa_page ks;
  fk_stack : R ks = Free ∧ R' ks = Other ∧ stack_ready m' ks ((tf p) <| tf_eax := 0 |>);
  fk_dir : R d = Free ∧ R' d = Dir ∧ ks ≠ d;
  fk_frames v : 0 ≤ v < pages_up (sz p) → ∃ a, R a = Free ∧ R' a = Frame d v ∧
    entry m' d v = V2P a + entry m (pgdir p) v mod 4096 ∧
    ∀ x, 0 ≤ x < 4096 → m' (a + x) = m (frame (entry m (pgdir p) v) + x);
  fk_kernel v : pages_up (sz p) ≤ v < VPAGES → entry m' d v = kernel_pte data v;
  fk_keep a : R a ≠ Free → R' a = R a;
  fk_taken a : R a = Free → a ≠ ks → a ≠ d → R' a ≠ Other ∧ R' a ≠ Dir;
  fk_data : same_data m m' R;
  fk_entries : same_entries m m' R
}.

Lemma forked_ok (s s1 s2 s4 : K) R R2 p ks d t0 :
  word trapret → word forkret → tf_ok ((tf p) <| tf_eax := 0 |>) → vm_ok s R → R (pgdir p) = Dir → 0 ≤ sz p ≤ KERNBASE →
  (∀ v, 0 ≤ v < pages_up (sz p) → present (entry (pa_mem s) (pgdir p) v) = true) →
  R ks = Free → pa_page ks → pa_mem s1 = new_stack (pa_mem s) ks → same_entries (pa_mem s) (pa_mem s1) R →
  vm_ok s2 R2 → same_data (pa_mem s1) (pa_mem s2) (<[ks := Other]> R) → same_entries (pa_mem s1) (pa_mem s2) (<[ks := Other]> R) →
  <[ks := Other]> R d = Free → R2 d = Dir → takes d (<[d := Dir]> (<[ks := Other]> R)) R2 →
  (∀ v, 0 ≤ v < pages_up (sz p) → ∃ a, <[ks := Other]> R a = Free ∧ R2 a = Frame d v ∧
     entry (pa_mem s2) d v = V2P a + entry (pa_mem s1) (pgdir p) v mod 4096 ∧
     ∀ x, 0 ≤ x < 4096 → pa_mem s2 (a + x) = pa_mem s1 (frame (entry (pa_mem s1) (pgdir p) v) + x)) →
  (∀ v, pages_up (sz p) ≤ v < VPAGES → entry (pa_mem s2) d v = kernel_pte data v) →
  pa_mem s4 = store_tf (store_tf (pa_mem s2) (stack_tf ks) t0) (stack_tf ks) ((tf p) <| tf_eax := 0 |>) →
  same_entries (pa_mem s2) (pa_mem s4) R2 → forked (pa_mem s) (pa_mem s4) R R2 p ks d.
Proof.
  intros Htr Hfr Ht Hvm Hd0 Hsz Hpar Hks Hpg Hm1 He1 Hvm2 Hda2 He2 Hd Hd2 Htk Hfr2 Hk2 Hm4 He4.
  assert (ks ≠ d) as Hkd by (intros ->; rewrite fn_lookup_insert in Hd; done).
  rewrite fn_lookup_insert_ne in Hd by done.
  assert (∀ a, R a ≠ Free → R2 a = R a) as Hkeep.
  { intros a Ha. eapply takes_role; [done| |done]. rewrite !fn_lookup_insert_ne by congruence. done. }
  assert (R2 ks = Other) as Hk2s by (eapply takes_role; [done| |done]; rewrite fn_lookup_insert_ne, fn_lookup_insert by congruence; done).
  assert (∀ a, page_of a ≠ ks → pa_mem s4 a = pa_mem s2 a) as Hout4.
  { intros a Ha. rewrite Hm4, !store_tf_elsewhere by done. done. }
  assert (∀ a, page_of a ≠ ks → pa_mem s1 a = pa_mem s a) as Hout1.
  { intros a Ha. rewrite Hm1. by apply new_stack_elsewhere. }
  assert (∀ v, 0 ≤ v < pages_up (sz p) → 0 ≤ v < UPAGES ∧ 0 ≤ v < VPAGES) as Hrange.
  { intros v Hv. unfold pages_up, UPAGES, VPAGES, KERNBASE in *. zmod. }
  split; [done | | done | | | done | | |].
  - split; [done|]. split; [done|]. eapply stack_ready_ext; [|by apply (new_stack_ready (pa_mem s) ks)].
    intros x Hx. rewrite Hm4. apply store_words_ext. intros Hx'. rewrite store_tf_frame by exact Hx'. rewrite <- Hm1.
    symmetry. apply Hda2. assert (page_of x = ks) as -> by (apply page_of_spec; [done|]; unfold in_page, PGSIZE; lia).
    by rewrite fn_lookup_insert.
  - intros v Hv. destruct (Hfr2 v Hv) as (a & Ha & Ha2 & Hea & Hba). destruct (Hrange v Hv) as [Hu Hvv].
    assert (pa_page a) as Hpa by (eapply (pt_page s2 R2 (proj1 Hvm2)); congruence).
    rewrite fn_lookup_insert_ne in Ha by congruence. exists a. split; [done|]. split; [done|].
    rewrite He4, Hea, He1 by done. split; [done|]. intros x Hx.
    pose proof (proj1 (proj2 Hvm) (pgdir p) v Hd0 Hu (Hpar v Hv)) as Hfp.
    set (fp := frame (entry (pa_mem s) (pgdir p) v)) in *. assert (pa_page fp) as Hpf by (eapply (pt_page s R (proj1 Hvm)); congruence).
    assert (∀ b, pa_page b → page_of (b + x) = b) as Hpo by (intros b Hb; apply page_of_spec; [done|]; unfold in_page, PGSIZE; lia).
    rewrite Hout4, Hba, He1 by (rewrite ?Hpo by done; done || congruence). fold fp. apply Hout1. rewrite Hpo by done. congruence.
  - intros v Hv. rewrite He4; [by apply Hk2 | done | unfold pages_up in *; zmod].
  - intros a Ha Hne Hne'. destruct (Htk a) as [E|(_ & [[? E]|[? E]])]; rewrite E; [|done..].
    rewrite !fn_lookup_insert_ne by done. rewrite Ha. done.
  - intros a Ha. assert (page_of a ≠ ks) as Hne by (intros E; rewrite E, Hks in Ha; done).
    rewrite Hout4, Hda2, Hout1; [done | done | by rewrite fn_lookup_insert_ne | done].
  - intros d' v Hd' Hv. assert (d' ≠ ks) by congruence.
    rewrite He4, He2, He1; [done | done | done | by rewrite fn_lookup_insert_ne | done | rewrite Hkeep; congruence | done].
Qed.

(** ** fork *)

Lemma tf_ok_eax t : tf_ok t → tf_ok (t <| tf_eax := 0 |>).
Proof.
  intros [Hw Hh]. split; [|exact Hh]. revert Hw. unfold tf_words. rewrite !Forall_cons. simpl. naive_solver lia.
Qed.

(** The files after the descriptors and the directory were shared. *)
Definition shared (f : @kfs S P) (c : nat) (ino : inode) (fl : list file) : @kfs S P :=
  Kfs (fst (k_fs f), <[c := ino <| i_ref := i_ref ino + 1 |>]> (snd (k_fs f))) fl (k_pipes f).

Lemma idup_run (x : @fsys S) c ino :
  snd x !! c = Some ino → idup c x = Ok c (fst x, <[c := ino <| i_ref := i_ref ino + 1 |>]> (snd x)).
Proof.
  destruct x as [fs ic]. intros Hc. unfold idup, upd_inode, mbind, M_bind, modify. simpl in *. by rewrite (alter_insert_list _ _ ino).
Qed.

Section run.
Variables (s : K) (k : kst) (f : @kfs S P) (R : Z → role) (i : nat) (p : proc) (c : nat) (ino : inode).
Hypothesis Hvm : vm_ok s R.
Hypothesis Hrun : running k i p.
Hypothesis Hlive : live p.
Hypothesis Hdata : data_ok data.
Hypothesis Hwords : word trapret ∧ word forkret ∧ tf_ok (tf p).
Hypothesis Hdir : R (pgdir p) = Dir ∧ 0 ≤ sz p ≤ KERNBASE ∧
  ∀ v, 0 ≤ v < pages_up (sz p) → present (entry (pa_mem s) (pgdir p) v) = true.
Hypothesis Hofile : length (ofile p) = NOFILE ∧
  ∀ d x, ofile p !! d = Some (Some x) → ∃ y, k_files f !! x = Some y ∧ 1 ≤ f_ref y.
Hypothesis Hcwd : cwd p = Some c ∧ snd (k_fs f) !! c = Some ino.

Lemma fork_child_ok j q n ks d t (s2 : K) R2 :
  procs k !! j = Some q → i ≠ j → closed q → vm_ok s2 R2 → pa_page ks → R2 ks = Other →
  ∃ s4 fl, fork_child j p (s2, Sysst (with_proc (took_pid k) j ((new_slot q n ks t) <| pgdir := d |>)) f)
    = Ok n (s4, Sysst (with_proc (took_pid k) j (child i p q n ks d)) (shared f c ino fl)) ∧
    vm_ok s4 R2 ∧ raised (ofile p) (k_files f) fl ∧ same_entries (pa_mem s2) (pa_mem s4) R2 ∧
    pa_mem s4 = store_tf (store_tf (pa_mem s2) (stack_tf ks) (tf p)) (stack_tf ks) ((tf p) <| tf_eax := 0 |>).
Proof.
  intros Hj Hij Hcl Hvm2 Hpg Ho. pose proof (lookup_lt_Some _ _ _ Hj) as Hlt.
  assert (j < length (procs (took_pid k)))%nat as Hlt' by exact Hlt. assert (running (took_pid k) i p) as Hrun' by exact Hrun.
  assert (∀ y (w : option nat → M lst Z), (ont myproc ≫= w) (s2, Sysst (with_proc (took_pid k) j y) f) =
    w (Some i) (s2, Sysst (with_proc (took_pid k) j y) f)) as Em.
  { intros y w. unfold ont, onsnd, onk, myproc, gets, mbind, M_bind. simpl. destruct Hrun as [-> _]. done. }
  unfold fork_child. rewrite Em, run_upd by done. clear Em.
  set (q1 := _ <| parent := Some i |>). assert (kstack q1 = ks) as Ek by exact eq_refl.
  destruct (set_tf_ok (took_pid k) j s2 f R2 q1 (tf p) Hlt' Hvm2) as (s3 & E3 & Hvm3 & Hm3 & He3); [by rewrite Ek | by rewrite Ek|].
  rewrite (bind_ok _ _ _ _ _ E3), run_upd by done. rewrite Ek in Hm3.
  set (q2 := _ <| sig_handlers := _ |>). assert (kstack q2 = ks) as Ek2 by exact eq_refl.
  destruct (set_tf_ok (took_pid k) j s3 f R2 q2 ((tf p) <| tf_eax := 0 |>) Hlt' Hvm3) as (s4 & E4 & Hvm4 & Hm4 & He4); [by rewrite Ek2 | by rewrite Ek2|].
  rewrite (bind_ok _ _ _ _ _ E4). rewrite Ek2 in Hm4.
  destruct Hofile as [Hlen Hopen], Hcwd as [Hc Hino].
  set (q3 := q2 <| tf := (tf p) <| tf_eax := 0 |> |>). assert (ofile q3 = take 0 (ofile p) ++ replicate NOFILE None) as Ho3 by exact (proj1 Hcl).
  destruct (dup_fds_ok (took_pid k) i j p s4 Hrun' Hij Hlt' Hlen NOFILE 0 q3 f eq_refl Ho3 Hopen) as (fl & E5 & Hfl).
  rewrite (bind_ok _ _ _ _ _ E5), Hc.
  assert (idup c (k_fs (with_files f fl)) = Ok c (fst (k_fs f), <[c := ino <| i_ref := i_ref ino + 1 |>]> (snd (k_fs f)))) as Ei.
  { by apply idup_run. }
  rewrite (bind_ok _ _ _ _ _ (onin_ok _ _ _ _ _ _ Ei)), run_upd, run_at by done. rewrite run_cas by (exact Hlt' || exact eq_refl).
  exists s4, fl. split; [|split; [exact Hvm4|split; [exact Hfl|split; [|rewrite Hm4, Hm3; reflexivity]]]].
  - clear - Hc. unfold child, q3, q2, q1, new_slot, shared. rewrite Hc. destruct q.
    proc_fields. reflexivity.
  - intros d' v Hd' Hv. by rewrite He4, He3.
Qed.

(** The slot after a failure. *)
Definition given_up (q q' : proc) : Prop := state q' = UNUSED ∧ ofile q' = ofile q ∧ cwd q' = cwd q.

Lemma fork_run :
  slots_ok (procs k) →
  (fork data trapret forkret (s, Sysst k f) = Ok (-1) (s, Sysst k f) ∧ ∀ j q, procs k !! j = Some q → live q) ∨
  ∃ j q, procs k !! j = Some q ∧ state q = UNUSED ∧
   ((∃ s' R' q', fork data trapret forkret (s, Sysst k f) = Ok (-1) (s', Sysst (with_proc (took_pid k) j q') f) ∧
       given_up q q' ∧ vm_ok s' R' ∧ (∀ a, R' a = R a) ∧ same_data (pa_mem s) (pa_mem s') R ∧
       same_entries (pa_mem s) (pa_mem s') R ∧ few_free R (1027 + pages_up (sz p))) ∨
    (∃ s' R' ks d fl, fork data trapret forkret (s, Sysst k f) =
       Ok (nextpid k) (s', Sysst (with_proc (took_pid k) j (child i p q (nextpid k) ks d)) (shared f c ino fl)) ∧
       vm_ok s' R' ∧ raised (ofile p) (k_files f) fl ∧ forked (pa_mem s) (pa_mem s') R R' p ks d)).
Proof.
  intros Hsl. unfold fork. destruct (allocproc_ok s k f R Hvm) as [[E Hno]|(j & q & Hj & Hq & [(s1 & E & Hvm1 & Hm1 & Hnf)|(s1 & ks & t & E & Hks & Hpg & Hvm1 & Hm1 & He1)])];
    [left; by rewrite (bind_ok _ _ _ _ _ E) | right; exists j, q..]; rewrite (bind_ok _ _ _ _ _ E); (split; [done|]; split; [done|]).
  { left. exists s1, R, (q <| pid := nextpid k |> <| kstack := 0 |>). split; [reflexivity|]. split; [exact (conj Hq (conj eq_refl eq_refl))|]. split; [exact Hvm1|]. split; [done|].
    unfold same_data, same_entries. rewrite Hm1. split; [done|]. split; [done|].
    apply few_free_none; [done|]. destruct Hdir as (_ & Hsz & _). unfold pages_up. zmod. }
  assert (i ≠ j) as Hij by (intros ->; destruct Hrun as [_ Hi]; rewrite Hj in Hi; injection Hi as ->; done).
  pose proof (lookup_lt_Some _ _ _ Hj) as Hlt. assert (j < length (procs (took_pid k)))%nat as Hlt' by exact Hlt.
  rewrite (run_cur (took_pid k) j s1 f i p) by done. destruct Hdir as (Hd0 & Hsz & Hpar).
  assert (R (pgdir p) ≠ Free) as Hnf by congruence.
  destruct (copyuvm_ok s1 (<[ks := Other]> R) data (pgdir p) (sz p)) as (d & s2 & R2 & E2 & Hvm2 & Hda2 & He2 & Hc); [done | done | | done | |].
  { rewrite fn_lookup_insert_ne by congruence. done. } { intros v Hv. rewrite He1; [by apply Hpar | done |]. unfold pages_up, VPAGES, KERNBASE in *. zmod. }
  rewrite (bind_ok _ _ _ _ _ (onp_ok _ _ _ _ _ E2)), run_upd by done.
  destruct Hc as [(Hd & Hd2 & Htk & Hfr & Hk)|(-> & HR & Hfew)].
  - right. assert (pa_page d) as Hpd by (eapply (pt_page s2 R2 (proj1 Hvm2)); congruence). rewrite page_nonzero by done.
    assert (ks ≠ d) as Hkd by (intros ->; rewrite fn_lookup_insert in Hd; done).
    destruct (fork_child_ok j q (nextpid k) ks d t s2 R2) as (s4 & fl & E4 & Hvm4 & Hfl & He4 & Hm4); [done | done | | done | done | |].
    { apply (Hsl j q Hj). by rewrite Hq. } { eapply takes_role; [done| |done]. rewrite fn_lookup_insert_ne, fn_lookup_insert by congruence. done. }
    exists s4, R2, ks, d, fl. split; [exact E4|]. split; [exact Hvm4|]. split; [exact Hfl|].
    destruct Hwords as (Hw1 & Hw2 & Hw3). exact (forked_ok s s1 s2 s4 R R2 p ks d (tf p) Hw1 Hw2 (tf_ok_eax _ Hw3) Hvm Hd0 Hsz Hpar
      Hks Hpg Hm1 He1 Hvm2 Hda2 He2 Hd Hd2 Htk Hfr Hk Hm4 He4).
  - left. change (0 =? 0) with true. cbv iota. rewrite run_at by done.
    change (kstack ((new_slot q (nextpid k) ks t) <| pgdir := 0 |>)) with ks.
    assert (R2 ks = Other) as Hk2 by (rewrite HR; apply fn_lookup_insert).
    destruct (vm_give s2 R2 ks Hvm2 Hpg Hk2) as (s3 & E3 & Hvm3 & Hm3 & He3).
    rewrite (bind_ok _ _ _ _ _ (onp_ok _ _ _ _ _ E3)), !run_upd by done.
    eexists s3, _, _. split; [reflexivity|]. split; [exact (conj eq_refl (conj eq_refl eq_refl))|]. split; [exact Hvm3|].
    split; [|split; [|split; [|by apply (few_free_take R ks)]]].
    + intros a. destruct (decide (a = ks)) as [->|]; [by rewrite fn_lookup_insert|]. by rewrite fn_lookup_insert_ne, HR, fn_lookup_insert_ne.
    + intros a Ha. assert (page_of a ≠ ks) by (intros Ea; rewrite Ea, Hks in Ha; done).
      rewrite Hm3, Hda2, Hm1 by (done || by rewrite fn_lookup_insert_ne). by apply new_stack_elsewhere.
    + intros d' v Hd' Hv. assert (d' ≠ ks) by congruence.
      rewrite He3, He2, He1; [done | done | done | by rewrite fn_lookup_insert_ne | done | by rewrite HR, fn_lookup_insert_ne | done].
Qed.
End run.

(** ** The invariant after fork *)

Lemma fd_refs_ge ps : ∀ i (p : proc) x, ps !! i = Some p → count_fds (ofile p) x ≤ fd_refs ps x.
Proof.
  induction ps as [|q ps IH]; intros [|i] p x Hi; [done | done | |]; simpl.
  - injection Hi as ->. pose proof (fd_refs_nonneg ps x). lia.
  - pose proof (IH i p x Hi). pose proof (count_fds_nonneg (ofile q) x). lia.
Qed.

Lemma refs_raised ps (p q q' : proc) (i j : nat) fl fl' :
  refs_ok ps fl none → ps !! i = Some p → ps !! j = Some q → closed q → ofile q' = ofile p →
  raised (ofile p) fl fl' → refs_ok (<[j := q']> ps) fl' none.
Proof.
  intros [A B] Hi Hj Hcl Hq' [Hlen Hr]. split.
  - intros x y' Hy'. destruct (lookup_lt_is_Some_2 fl x) as [y Hy]; [rewrite <- Hlen; by eapply lookup_lt_Some|].
    rewrite (Hr x y Hy) in Hy'. injection Hy' as <-. rewrite (fd_refs_insert _ _ q) by done. rewrite Hq', (closed_count q) by done.
    change (f_ref y + count_fds (ofile p) x = fd_refs ps x - 0 + count_fds (ofile p) x + none x). rewrite (A x y Hy). lia.
  - intros x. rewrite (fd_refs_insert _ _ q) by done. rewrite Hq', (closed_count q) by done. pose proof (fd_refs_ge ps i p x Hi). unfold none in *. intros Hpos.
    destruct (B x) as [y Hy]; [lia|]. rewrite (Hr x y Hy). done.
Qed.

Lemma refs_same ps (q q' : proc) j fl e : refs_ok ps fl e → ps !! j = Some q → ofile q' = ofile q → refs_ok (<[j := q']> ps) fl e.
Proof.
  intros [A B] Hj Hq. assert (∀ x, fd_refs (<[j := q']> ps) x = fd_refs ps x) as E by (intros x; rewrite (fd_refs_insert _ _ q) by done; rewrite Hq; lia).
  split; intros x; rewrite E; [apply A | apply B].
Qed.

Lemma inodes_raised ps (p q q' : proc) i j fl fl' ic c ino :
  refs_ok ps fl none → inodes_ok ps fl ic → ps !! j = Some q → closed q → cwd p = Some c → cwd q' = cwd p →
  raised (ofile p) fl fl' → ic !! c = Some ino → ps !! i = Some p →
  inodes_ok (<[j := q']> ps) fl' (<[c := ino <| i_ref := i_ref ino + 1 |>]> ic).
Proof.
  intros [A B] [I1 I2] Hj [_ Hcl] Hc Hq' [Hlen Hr] Hino Hi.
  assert (∀ d, sumZ (file_on d) fl' = sumZ (file_on d) fl) as Es.
  { intros d. apply sumZ_ext; [done|]. intros x y y' Hy Hy'. rewrite (Hr x y Hy) in Hy'. injection Hy' as <-.
    unfold file_on. simpl. pose proof (A x y Hy) as Ha. pose proof (fd_refs_ge ps i p x Hi). pose proof (count_fds_nonneg (ofile p) x). unfold none in Ha.
    assert ((0 <? f_ref y + count_fds (ofile p) x) = (0 <? f_ref y)) as -> by lia. done. }
  split.
  - intros d ino' Hd. rewrite Es, (sumZ_insert _ _ j q) by done. unfold cwd_is at 2 3. rewrite Hq', Hcl, Hc.
    rewrite decide_False by done. apply list_lookup_insert_Some in Hd as [(<- & <- & _)|[Hne Hd]].
    + rewrite decide_True by done. change (i_ref (ino <| i_ref := i_ref ino + 1 |>)) with (i_ref ino + 1). rewrite (I1 c ino Hino). lia.
    + rewrite decide_False by congruence. rewrite (I1 d ino' Hd). lia.
  - intros l r d Hl Hd. rewrite list_lookup_insert_is_Some.
    apply list_lookup_insert_Some in Hl as [(<- & <- & _)|[_ Hl]]; [|by eapply I2]. rewrite Hq' in Hd. by eapply I2.
Qed.

Lemma mapped_insert m m' ps R j q' :
  (∀ l r, ps !! l = Some r → live r → R (pgdir r) = Dir) → mapped_ok m ps → same_entries m m' R →
  (live q' → 0 ≤ sz q' ≤ KERNBASE ∧ ∀ v, 0 ≤ v < pages_up (sz q') → present (entry m' (pgdir q') v) = true) →
  mapped_ok m' (<[j := q']> ps).
Proof.
  intros Hd Hmp He Hq l r Hl Lr. apply list_lookup_insert_Some in Hl as [(<- & <- & _)|[_ Hl]]; [by apply Hq|].
  destruct (Hmp l r Hl Lr) as [Hsz Hp]. split; [done|]. intros v Hv.
  rewrite He; [by apply Hp | by eapply Hd|]. unfold pages_up, VPAGES, KERNBASE in *. zmod.
Qed.

Lemma s32_next n : 0 < n < 2147483647 → s32 (n + 1) = n + 1.
Proof. intros Hn. apply s32_small. lia. Qed.

Section life.
Variables (X : Z → Prop) (s : K) (k : kst) (f : @kfs S P) (R : Z → role).
Hypothesis Hlf : life_ok X (s, Sysst k f) R.
Hypothesis Hpid : nextpid k < 2147483647.

Lemma live_dirs l r : procs k !! l = Some r → live r → R (pgdir r) = Dir.
Proof. intros Hl Lr. by apply (ow_dir _ _ _ (lf_own _ _ _ Hlf) l r). Qed.

Lemma took_small : nextpid (took_pid k) = nextpid k + 1.
Proof. destruct (lf_pids _ _ _ Hlf) as [H0' _]. apply s32_next. simpl in H0'. lia. Qed.

Lemma life_given_up j q q' s' R' :
  procs k !! j = Some q → state q = UNUSED → given_up q q' → vm_ok s' R' → (∀ a, R' a = R a) →
  same_entries (pa_mem s) (pa_mem s') R → life_ok X (s', Sysst (with_proc (took_pid k) j q') f) R'.
Proof.
  intros Hj Hq (Hu & Ho & Hcw) Hvm' HR He. pose proof Hlf as [A B C D I F G]. split.
  - exact Hvm'.
  - apply (owned_ext X _ R); [by intros a|]. eapply owned_same; [exact B | exact Hj | by unfold live; rewrite Hu, Hq | by intros []].
  - eapply mapped_insert; [exact live_dirs | exact C | exact He | by intros []].
  - by eapply refs_same.
  - by eapply inodes_same.
  - apply slots_insert; [exact F | rewrite Ho; by eapply F | intros _; unfold closed; rewrite Ho, Hcw; eapply F; [done | by rewrite Hq]].
  - change (nextpid (sy_k _)) with (nextpid (took_pid k)). rewrite took_small. apply pids_more.
    eapply pids_same; [exact G | exact Hj | by intros []].
Qed.

Lemma copied_present (a e : Z) : pa_page a → present e = true → present (V2P a + e mod 4096) = true.
Proof. intros Ha He. rewrite present_page by done. apply present_spec in He. apply present_spec. zmod. Qed.

Lemma life_forked i j p q s' R' ks d c ino fl :
  procs k !! i = Some p → live p → cwd p = Some c ∧ snd (k_fs f) !! c = Some ino → procs k !! j = Some q → state q = UNUSED → vm_ok s' R' →
  raised (ofile p) (k_files f) fl → forked (pa_mem s) (pa_mem s') R R' p ks d →
  life_ok X (s', Sysst (with_proc (took_pid k) j (child i p q (nextpid k) ks d)) (shared f c ino fl)) R'.
Proof.
  intros Hi Lp Hc Hj Hq Hvm' Hfl Hfk. pose proof Hlf as [A B C D I F G]. pose proof Hfk as [Hpg (Hk & Hk' & _) (Hd & Hd' & _) Hfr _ Hkeep Htk _ He]. split.
  - exact Hvm'.
  - eapply (owned_add X _ R); [exact B | exact Hj | exact Hq | done | exact Hpg | exact Hk | exact Hk' | exact Hd | exact Hd' | exact Hkeep | exact Htk].
  - eapply mapped_insert; [exact live_dirs | exact C | exact He |]. intros _. destruct (C i p Hi Lp) as [Hsz Hp].
    split; [exact Hsz|]. intros v Hv. destruct (Hfr v Hv) as (a & _ & Ha & E & _). change (present (entry (pa_mem s') d v) = true). rewrite E.
    apply copied_present; [|by apply Hp]. eapply (pt_page s' R' (proj1 Hvm')). congruence.
  - eapply refs_raised; [exact D | exact Hi | exact Hj | | reflexivity | exact Hfl]. eapply F; [exact Hj | by rewrite Hq].
  - destruct Hc as [Hc Hino]. eapply inodes_raised; [exact D | exact I | exact Hj | | exact Hc | reflexivity | exact Hfl | exact Hino | exact Hi].
    eapply F; [exact Hj | by rewrite Hq].
  - apply slots_insert; [exact F | by apply (F i p) | by intros []].
  - change (nextpid (sy_k _)) with (nextpid (took_pid k)). rewrite took_small. by apply pids_insert.
Qed.

Lemma life_open i p d x : procs k !! i = Some p → ofile p !! d = Some (Some x) → ∃ y, k_files f !! x = Some y ∧ 1 ≤ f_ref y.
Proof.
  intros Hi Hd. destruct (lf_fds _ _ _ Hlf) as [A B]. pose proof (fd_refs_pos _ _ _ _ _ Hi Hd) as Hpos.
  change (procs (sy_k (snd (s, Sysst k f)))) with (procs k) in *. change (k_files (sy_f (snd (s, Sysst k f)))) with (k_files f) in *.
  destruct (B x) as [y Hy]; [unfold none; lia|]. exists y. split; [done|]. rewrite (A x y Hy). unfold none. lia.
Qed.

(** C3: [fork] makes a copy of the process. Called by a running process, it
    either returns -1, because every slot is taken or the free pages do not
    suffice, and then no process, page or file is changed; or it returns a
    fresh identifier, and the child in a slot that was unused has the
    parent's size, trap frame with %eax 0, signal mask and handlers, open
    files, directory and name, on a stack, a page directory and frames taken
    from the free pages, the frames with the parent's flags and bytes, the
    stack prepared for [swtch] and [trapret]; each file counts the
    descriptors it gained, and the inode of the directory one reference. In
    every case each page in use still belongs to exactly one live process or
    to the kernel, every process's memory is mapped, open files are counted by
    descriptors and identifiers are distinct. *)
Theorem fork_correct i p c ino :
  running k i p → live p → data_ok data → word trapret ∧ word forkret ∧ tf_ok (tf p) →
  cwd p = Some c ∧ snd (k_fs f) !! c = Some ino →
  ∃ r s' R', fork data trapret forkret (s, Sysst k f) = Ok r s' ∧ life_ok X s' R' ∧
    ((r = -1 ∧ (∀ a, R' a = R a) ∧ same_data (pa_mem s) (pa_mem (fst s')) R ∧ same_entries (pa_mem s) (pa_mem (fst s')) R ∧
      sy_f (snd s') = f ∧ (∀ l q, procs k !! l = Some q → live q → procs (sy_k (snd s')) !! l = Some q) ∧
      ((∀ l q, procs k !! l = Some q → live q) ∨ few_free R (1027 + pages_up (sz p)))) ∨
     (r = nextpid k ∧ ∃ j q ks d fl, procs k !! j = Some q ∧ state q = UNUSED ∧
      snd s' = Sysst (with_proc (took_pid k) j (child i p q r ks d)) (shared f c ino fl) ∧
      raised (ofile p) (k_files f) fl ∧ forked (pa_mem s) (pa_mem (fst s')) R R' p ks d)).
Proof.
  intros Hrun Lp Hdata Hw Hc. pose proof Hlf as [A B C D I F G]. pose proof (proj2 Hrun) as Hi.
  destruct (fork_run s k f R i p c ino A Hrun Lp Hdata Hw) as [[E Hno]|(j & q & Hj & Hq & [(s' & R' & q' & E & Hg & Hvm' & HR & Hda & He & Hfew)|(s' & R' & ks & d & fl & E & Hvm' & Hfl & Hfk)])].
  { split; [by apply (ow_dir _ _ _ B i p) | by apply (C i p)]. }
  { split; [by apply (F i p) | intros d x; by apply (life_open i p)]. } { exact Hc. } { exact F. }
  - exists (-1), (s, Sysst k f), R. split; [exact E|]. split; [exact Hlf|]. left. repeat (split; [done|]). by left.
  - exists (-1), (s', Sysst (with_proc (took_pid k) j q') f), R'. split; [exact E|]. split; [by eapply life_given_up|]. left.
    split; [done|]. split; [exact HR|]. split; [exact Hda|]. split; [exact He|]. split; [done|]. split; [|by right].
    intros l r Hl Lr. simpl. rewrite list_lookup_insert_ne; [done|]. intros ->. rewrite Hj in Hl. by injection Hl as ->.
  - eexists (nextpid k), (s', _), R'. split; [exact E|]. split; [by eapply life_forked|]. right. split; [done|].
    exists j, q, ks, d, fl. split; [done|]. split; [done|]. split; [reflexivity|]. split; [exact Hfl | exact Hfk].
Qed.
End life.
End fork.
