(* ===== verification/LifeStart.v ===== *)
(** * The first run of a new process

    The stack that [allocproc] and [fork] prepare, on the processor: [swtch]
    to it enters [forkret], whose return enters [trapret], which loads the
    child's trap frame. *)
From stdpp Require Import functions.
From S2P Require Import Prelude Machine CString Spin Kalloc Proc Bio Vm VmSpec Asm AsmSwitch Life LifeSpec LifeFork.

Section start.
Variable ccall : cfun → M x86 ().
Variable task : tss.
Variable idt : Z → gate.
Notation run := (run ccall task idt).

(** The addresses of the code of [trapret] and [forkret]. *)
Variables trapret_addr forkret_addr : Z.

(** [ret] of a function whose stack pointer is back at the return address. *)
Definition after_ret (c : x86) : x86 := (drop_words 1 c) <| eip := top c |>.

Lemma after_ret_ok c e : gpr c ESP = e → word (e + 4) →
  run [Ret] c = Ok () (after_ret c) ∧ gpr (after_ret c) ESP = e + 4 ∧ eip (after_ret c) = load32 (x_mem c) e ∧
  x_mem (after_ret c) = x_mem c ∧ ∀ s, seg (after_ret c) s = seg c s.
Proof.
  intros He Hw. destruct (drop_at (x_mem c) c e 1 (conj He eq_refl)) as ([D1 D2] & _ & D4); [by replace (e + 4 * 1) with (e + 4) by lia|].
  split; [reflexivity|]. split; [replace (e + 4) with (e + 4 * 1) by lia; exact D1|].
  split; [|split; [exact D2 | exact D4]].
  change (eip (after_ret c)) with (load32 (x_mem c) (gpr c ESP)). by rewrite He.
Qed.

(** What the calling convention promises of [forkret]: it returns with the
    stack pointer it was entered with, and leaves its caller's part of the
    stack alone. *)
Record forkret_ran (c c' : x86) (ks : Z) : Prop := {
  fr_ret : returned c c';
  fr_frame x : stack_ret ks ≤ x < ks + KSTACKSIZE → x_mem c' x = x_mem c x
}.

(** [trapret] from the stack of a new process, once [handle_signals] has
    returned. *)
Lemma trapret_new c ks c4 :
  gpr c ESP = stack_tf ks → cpl (seg c CS) = 0 → 4096 ≤ ks → word (ks + 4096) →
  ccall Chandle_signals (push (stack_tf ks) c) = Ok () c4 → returned (push (stack_tf ks) c) c4 →
  ∃ c', run trapret c = Ok () c' ∧ resumed c4 c' (stack_tf ks) (load_tf (x_mem c4) (stack_tf ks)).
Proof.
  intros He Hc Hk Hw E [R1 R2 R3]. unfold word in *. assert (stack_tf ks = ks + 4020) as Ea by (unfold stack_tf, KSTACKSIZE, SIZEOF_TRAPFRAME; lia).
  destruct (pushed_one c (stack_tf ks)) as [P1 _ P3 _ _ _ _]; [unfold word; lia | lia | rewrite He; unfold word; lia |]. cbn [length] in P1.
  destruct (trapret_tail_ok ccall task idt c4 (stack_tf ks)) as (c' & Et & Hr); [lia | unfold word; lia | unfold word; lia | done | by rewrite R2, P3 |].
  exists c'. split; [|done]. rewrite trapret_split, run_app. cbn [Asm.run step app]. rewrite bind_assoc, bind_modify, bind_assoc, He, (bind_ok _ _ _ _ _ E). exact Et.
Qed.

(** C25: A new process starts where its trap frame says. When the scheduler
    switches to the context that [allocproc] put on the stack, the processor
    enters [forkret] on that stack; when [forkret] returns, it enters
    [trapret]; and when [handle_signals] has returned, [trapret] loads every
    register from the trap frame on the stack, which is the one [fork] or
    [userinit] stored unless [handle_signals] has changed it. *)
Theorem new_process_starts c ks t :
  can_switch c → cpl (seg c CS) = 0 → new_arg c = stack_ctx ks → 4096 ≤ ks → word (ks + 4096) →
  apart ks 4096 (gpr c ESP - 16) 16 → apart ks 4096 (old_arg c) 4 → stack_ready trapret_addr forkret_addr (x_mem c) ks t →
  ∃ c1, run swtch c = Ok () c1 ∧ eip c1 = forkret_addr ∧ gpr c1 ESP = stack_ret ks ∧
    ∀ c2, forkret_ran c1 c2 ks →
    ∃ c3, run [Ret] c2 = Ok () c3 ∧ eip c3 = trapret_addr ∧
      ∀ c4, ccall Chandle_signals (push (stack_tf ks) c3) = Ok () c4 → returned (push (stack_tf ks) c3) c4 →
        ∃ c', run trapret c3 = Ok () c' ∧ resumed c4 c' (stack_tf ks) (load_tf (x_mem c4) (stack_tf ks)) ∧
          ((∀ x, stack_tf ks ≤ x < ks + KSTACKSIZE → x_mem c4 x = x_mem (push (stack_tf ks) c3) x) → resumed c4 c' (stack_tf ks) t).
Proof.
  intros Hc Hcpl Hn Hk Hw Ha1 Ha2 (Ht & Hr & Hx).
  destruct (swtch_ok ccall task idt c Hc) as (c1 & E1 & [_ _ _ _ Hip Hsp] & _ & _ & Hseg & _ & Hmem). rewrite Hn, Hx in *.
  assert (stack_ctx ks = ks + 3996 ∧ stack_ret ks = ks + 4016 ∧ stack_tf ks = ks + 4020) as (K1 & K2 & K3)
    by (unfold stack_ctx, stack_ret, stack_tf, KSTACKSIZE, SIZEOF_TRAPFRAME, SIZEOF_CONTEXT; lia).
  exists c1. split; [exact E1|]. split; [exact Hip|]. split; [lia|]. unfold KSTACKSIZE in *. unfold apart, word in *.
  assert (∀ x, ks ≤ x < ks + 4096 → x_mem c1 x = x_mem c x) as Hm1 by (intros x Hx'; apply Hmem; lia).
  intros c2 [[Q1 Q2 Q3] Q4]. unfold KSTACKSIZE in Q4. destruct (after_ret_ok c2 (stack_ret ks)) as (E3 & A1 & A2 & A3 & A4); [lia | unfold word; lia |].
  set (c3 := after_ret c2) in *. clearbody c3. exists c3. split; [exact E3|]. split.
  { rewrite A2, <- Hr. apply load32_ext. intros x Hx'. rewrite Q4, Hm1 by lia. done. }
  intros c4 E4 R4. destruct (trapret_new c3 ks c4) as (c' & E' & Hres); [lia | by rewrite A4, Q2, Hseg | done | unfold word; lia | done | done |].
  exists c'. split; [exact E'|]. split; [exact Hres|]. intros Hkeep. replace t with (load_tf (x_mem c4) (stack_tf ks)); [done|].
  rewrite <- Ht. apply load_tf_ext. unfold SIZEOF_TRAPFRAME. intros x Hx'. rewrite Hkeep by lia.
  destruct (pushed_one c3 (stack_tf ks)) as [_ _ _ _ _ P6 _]; [unfold word; lia | lia | unfold word; lia |].
  rewrite P6 by lia. rewrite A3, Q4, Hm1 by lia. done.
Qed.
End start.
