(* ===== verification/LifeWait.v ===== *)
(** * The life of a process: wait

    [wait] gives back the stack and the memory of one zombie child and empties
    its slot; without one it reports an error or goes to sleep. *)
From stdpp Require Import functions.
From S2P Require Import Prelude Machine CString Spin Kalloc Proc Signal Bio.
From S2P Require Import Vm VmSpec VmUser VmSpace VmCopy.
From S2P Require Import FsBlock FsInode FsDir File SysFile SysFileSpec Exec Life LifeSpec LifeFork.
Import KString.

(** A zombie child of the process in slot [me]. *)
Definition zombie_of (me : nat) (q : proc) : Prop := parent q = Some me ∧ state q = ZOMBIE.

#[export] Instance zombie_of_dec me q : Decision (zombie_of me q).
Proof. unfold zombie_of. apply _. Defined.

Lemma with_swap k i j p q : i ≠ j → with_proc (with_proc k i p) j q = with_proc (with_proc k j q) i p.
Proof. intros Hne. unfold with_proc, set_field. simpl. by rewrite list_insert_insert_ne. Qed.

Section wait.
Context {K : Type} `{PageAlloc K}.
Context {S : Type} `{Transactions S}.
Context {P : Type} `{PipeLayer P}.
Notation lst := (K * @sysst S P)%type.

(** ** The invariant under updates of a slot *)

Lemma life_upd X (s : K) k (f : @kfs S P) R j q q' :
  life_ok X (s, Sysst k f) R → procs k !! j = Some q → (live q' ↔ live q) →
  kstack q' = kstack q → pgdir q' = pgdir q → sz q' = sz q → pid q' = pid q → ofile q' = ofile q → cwd q' = cwd q →
  (finished (state q') → closed q') → life_ok X (s, Sysst (with_proc k j q') f) R.
Proof.
  intros [A B C D I F G] Hj Hl Hk Hd Hs Hp Ho Hc Hfin. split.
  - exact A.
  - eapply owned_same; [exact B | exact Hj | exact Hl | done].
  - eapply (mapped_insert _ _ _ R); [|exact C | done |].
    + intros l r Hr Lr. by apply (ow_dir _ _ _ B l r).
    + intros Lq. rewrite Hs, Hd. apply (C j q Hj). by apply Hl.
  - by eapply refs_same.
  - by eapply inodes_same.
  - apply slots_insert; [exact F | rewrite Ho; by apply (F j q) | done].
  - eapply pids_same; [exact G | exact Hj | intros Lq; split; [by apply Hl | done]].
Qed.

(** ** Reaping a child *)

(** The slot after [wait] has emptied it. *)
Definition emptied (q : proc) : proc :=
  q <| state := UNUSED |> <| kstack := 0 |> <| pid := 0 |> <| parent := None |> <| name := <[0%nat := 0]> (name q) |> <| killed := 0 |>.

(** The pages of the process [q] are free, the others are as before. *)
Definition given_back (q : proc) (R R' : Z → role) : Prop :=
  ∀ a, R' a = if decide (a = kstack q) then Free else
              match R a with
              | Dir => if decide (a = pgdir q) then Free else Dir
              | Table d i => if decide (d = pgdir q) then Free else Table d i
              | Frame d v => if decide (d = pgdir q) then Free else Frame d v
              | r => r
              end.

Lemma life_reaped X (s : K) k (f : @kfs S P) R j q s' R' :
  life_ok X (s, Sysst k f) R → procs k !! j = Some q → state q = ZOMBIE → vm_ok s' R' → given_back q R R' →
  (∀ d v, R d = Dir → d ≠ pgdir q → 0 ≤ v < VPAGES → entry (pa_mem s') d v = entry (pa_mem s) d v) →
  life_ok X (s', Sysst (with_proc k j (emptied q)) f) R'.
Proof.
  intros [A B C D I F G] Hj Hz Hvm' Hgb He. assert (live q) as Lq by (unfold live; by rewrite Hz).
  destruct (ow_stack _ _ _ B j q Hj Lq) as (Hpg & Hks & _). destruct (ow_dir _ _ _ B j q Hj Lq) as (Hdir & _).
  simpl in B, C, D, I, F, G. split.
  - exact Hvm'.
  - eapply (owned_remove X _ R); [exact B | exact Hj | exact Lq | reflexivity | |]; intros a; rewrite Hgb.
    + destruct (decide (a = kstack q)) as [->|]; [naive_solver|]. destruct (R a); repeat case_decide; naive_solver.
    + destruct (decide (a = kstack q)) as [->|]; [naive_solver congruence|]. destruct (R a); repeat case_decide; naive_solver.
  - intros l r Hl Lr. apply list_lookup_insert_Some in Hl as [(<- & <- & _)|[Hne Hl]]; [done|]. simpl in Hl.
    destruct (C l r Hl Lr) as [Hsz Hp]. split; [done|]. intros v Hv.
    destruct (ow_apart _ _ _ B l j r q Hl Hj Lr Lq (not_eq_sym Hne)) as [_ Hdd]. simpl.
    rewrite He; [by apply Hp | by apply (ow_dir _ _ _ B l r) | done | unfold pages_up, VPAGES, KERNBASE in *; zmod].
  - by eapply refs_same.
  - by eapply inodes_same.
  - apply slots_insert; [exact F | by apply (F j q) | intros _; apply (F j q Hj); by rewrite Hz].
  - eapply pids_same; [exact G | exact Hj | done].
Qed.

(** The two frees. *)
Lemma free_pages (s : K) R q :
  vm_ok s R → pa_page (kstack q) → R (kstack q) = Other → R (pgdir q) = Dir →
  ∃ s1 s2 R2, pa_kfree (kstack q) s = Ok () s1 ∧ freevm (pgdir q) s1 = Ok () s2 ∧ vm_ok s2 R2 ∧ given_back q R R2 ∧
    (∀ d v, R d = Dir → d ≠ pgdir q → 0 ≤ v < VPAGES → entry (pa_mem s2) d v = entry (pa_mem s) d v) ∧
    (∀ a, plain (R2 (page_of a)) → pa_mem s2 a = pa_mem s a).
Proof.
  intros Hvm Hpg Hk Hd. destruct (vm_give s R (kstack q) Hvm Hpg Hk) as (s1 & E1 & Hvm1 & Hm1 & He1).
  assert (pgdir q ≠ kstack q) as Hne by congruence.
  destruct (freevm_ok s1 (<[kstack q := Free]> R) (pgdir q)) as (s2 & R2 & E2 & Hvm2 & Hrel & Hda & Hot); [done | by rewrite fn_lookup_insert_ne by congruence|].
  exists s1, s2, R2. split; [done|]. split; [done|]. split; [done|].
  assert (given_back q R R2) as Hgb.
  { intros a. rewrite Hrel. destruct (decide (a = kstack q)) as [->|]; [by rewrite fn_lookup_insert|]. by rewrite fn_lookup_insert_ne. }
  split; [exact Hgb|]. split.
  - intros d v Hdd Hned Hv. rewrite Hot; [by apply He1 | by rewrite fn_lookup_insert_ne by congruence | done | done].
  - intros a Ha. rewrite Hda by done. apply Hm1. intros E. rewrite E, Hgb, decide_True in Ha by done. done.
Qed.

(** ** The scan *)

Lemma upd_proc_at k j q g : procs k !! j = Some q → upd_proc j g k = Ok () (with_proc k j (g q)).
Proof. intros Hj. rewrite <- (with_self k j q Hj) at 1. apply upd_with. by eapply lookup_lt_Some. Qed.

Lemma at_ok k j q : procs k !! j = Some q → proc_at j k = Ok q k.
Proof. intros Hj. unfold proc_at. rewrite bind_get. by rewrite Hj. Qed.

Lemma cas_miss k j q e n : procs k !! j = Some q → state q ≠ e → cas_proc j e n k = Ok false k.
Proof.
  intros Hj Hne. unfold cas_proc. rewrite (bind_ok _ _ _ _ _ (at_ok k j q Hj)). unfold cas. rewrite decide_False by done.
  rewrite (bind_ok _ _ _ _ _ (upd_proc_at k j q _ Hj)). replace (q <| state := state q |>) with q by (by destruct q). by rewrite with_self.
Qed.

Lemma cas_hit k j q n : procs k !! j = Some q → cas_proc j (state q) n k = Ok true (with_proc k j (q <| state := n |>)).
Proof. intros Hj. rewrite <- (with_self k j q Hj) at 1. apply cas_with; [by eapply lookup_lt_Some | done]. Qed.

Lemma reap_skip me j (s : K) k (f : @kfs S P) q :
  procs k !! j = Some q → ¬ zombie_of me q → reap me j (s, Sysst k f) = Ok None (s, Sysst k f).
Proof.
  intros Hj Hz. unfold reap. rewrite (bind_ok _ _ _ _ _ (ont_ok _ s _ _ f _ (at_ok k j q Hj))).
  destruct (decide (parent q = Some me)) as [Hp|Hp]; [|by rewrite bool_decide_eq_false_2].
  rewrite bool_decide_eq_true_2 by done. change (negb true) with false. cbv iota.
  rewrite (bind_ok _ _ _ _ _ (ont_ok _ s _ _ f _ (cas_miss k j q ZOMBIE MINUS_UNUSED Hj (λ E, Hz (conj Hp E))))). done.
Qed.

(** The parent when it has found a child. *)
Definition awake (p : proc) : proc := p <| chan := CNull |> <| state := RUNNING |>.

Lemma reap_run me j (s s1 s2 : K) k (f : @kfs S P) p q :
  procs k !! j = Some q → zombie_of me q → procs k !! me = Some p → state p = MINUS_SLEEPING →
  pa_kfree (kstack q) s = Ok () s1 → freevm (pgdir q) s1 = Ok () s2 →
  reap me j (s, Sysst k f) = Ok (Some (pid q)) (s2, Sysst (with_proc (with_proc k me (awake p)) j (emptied q)) f).
Proof.
  intros Hj [Hp Hz] Hme Hst E1 E2. assert (me ≠ j) as Hne by (intros ->; rewrite Hj in Hme; injection Hme as ->; congruence).
  pose proof (lookup_lt_Some _ _ _ Hj) as Hlt. pose proof (lookup_lt_Some _ _ _ Hme) as Hlm.
  unfold reap. rewrite (bind_ok _ _ _ _ _ (ont_ok _ s _ _ f _ (at_ok k j q Hj))). rewrite bool_decide_eq_true_2 by done. change (negb true) with false. cbv iota.
  rewrite <- Hz at 1. rewrite (bind_ok _ _ _ _ _ (ont_ok _ s _ _ f _ (cas_hit k j q MINUS_UNUSED Hj))). change (negb true) with false. cbv iota.
  rewrite (bind_ok _ _ _ _ _ (onp_ok _ _ _ _ _ E1)), run_upd by done. rewrite (bind_ok _ _ _ _ _ (onp_ok _ _ _ _ _ E2)), run_upd by done.
  set (q' := _ <| killed := 0 |>). assert (state q' = MINUS_UNUSED) as Hq' by reflexivity.
  assert (q' <| state := UNUSED |> = emptied q) as He' by (clear; unfold q', emptied; destruct q; proc_fields; reflexivity). clearbody q'.
  rewrite <- (with_self k me p Hme), with_swap by done.
  rewrite run_upd by (simpl; by rewrite length_insert). rewrite run_cas by ((simpl; by rewrite length_insert) || exact Hst).
  rewrite with_swap by (by apply not_eq_sym). rewrite run_cas by ((simpl; by rewrite length_insert) || exact Hq').
  rewrite He', with_with. reflexivity.
Qed.

(** ** wait *)

(** The parent while it looks for a child. *)
Definition dozing (i : nat) (p : proc) : proc := p <| state := MINUS_SLEEPING |> <| chan := CProc i |>.

Lemma awake_dozing i p : state p = RUNNING → awake (dozing i p) = p <| chan := CNull |>.
Proof. intros Hp. destruct p. simpl in Hp. subst. reflexivity. Qed.

Lemma has_kids_insert me ps : ∀ j q q', ps !! j = Some q → parent q' = parent q → has_kids me (<[j := q']> ps) = has_kids me ps.
Proof.
  unfold has_kids. induction ps as [|r ps IH]; intros [|j] q q' Hj Hp; [done | done | |].
  - injection Hj as ->. simpl. by rewrite Hp.
  - change (<[Datatypes.S j := q']> (r :: ps)) with (r :: <[j := q']> ps). cbn [existsb]. by rewrite (IH j q q').
Qed.

Section round.
Variables (X : Z → Prop) (s : K) (k : kst) (f : @kfs S P) (R : Z → role) (i : nat) (p : proc).
Hypothesis Hlf : life_ok X (s, Sysst k f) R.
Hypothesis Hrun : running k i p.
Hypothesis Hst : state p = RUNNING.
Hypothesis Htab : length (procs k) = NPROC.

Lemma doze_life : life_ok X (s, Sysst (with_proc k i (dozing i p)) f) R.
Proof. destruct Hrun as [_ Hi]. eapply life_upd; try done. unfold live. simpl. by rewrite Hst. Qed.

Lemma doze_slot l q : procs (with_proc k i (dozing i p)) !! l = Some q → zombie_of i q → procs k !! l = Some q ∧ l ≠ i.
Proof.
  intros Hl [_ Hz]. simpl in Hl. apply list_lookup_insert_Some in Hl as [(<- & <- & _)|[Hne Hl]]; [done | auto].
Qed.

(** The start of a round. *)
Lemma round_start {B} (c : () → M lst B) :
  (ont (upd_proc i (λ p, p <| chan := CProc i |>)) ≫= c) (s, Sysst (with_proc k i (p <| state := MINUS_SLEEPING |>)) f)
  = c () (s, Sysst (with_proc k i (dozing i p)) f).
Proof. destruct Hrun as [_ Hi]. rewrite run_upd by (by eapply lookup_lt_Some). done. Qed.

Lemma round_enter : wait_round (s, Sysst k f) =
  (r ← for_until (seq 0 NPROC) (reap i);
   match r with
   | Some pid => mret (Some pid)
   | None =>
       ps ← ont (gets procs);
       p ← ont (proc_at i);
       if negb (has_kids i ps) || truthy (killed p) then
         ont (upd_proc i (λ p, p <| chan := CNull |>));;
         ok ← ont (cas_proc i MINUS_SLEEPING RUNNING);
         if negb ok then panic "should be minus sleeping!" else mret (Some (-1))
       else mret None
   end) (s, Sysst (with_proc k i (dozing i p)) f).
Proof.
  destruct Hrun as [Hc Hi]. unfold wait_round.
  assert (∀ w : option nat → M lst (option Z), (ont myproc ≫= w) (s, Sysst k f) = w (Some i) (s, Sysst k f)) as ->.
  { intros w. unfold ont, onsnd, onk, myproc, gets, mbind, M_bind. simpl. by rewrite Hc. }
  rewrite <- Hst at 1. rewrite (bind_ok _ _ _ _ _ (ont_ok _ s _ _ f _ (cas_hit k i p MINUS_SLEEPING Hi))).
  change (negb true) with false. cbv iota. by rewrite round_start.
Qed.

(** Slots without a zombie child are passed over. *)
Lemma round_skip j : (j < NPROC)%nat → (∀ q, procs k !! j = Some q → ¬ zombie_of i q) →
  reap i j (s, Sysst (with_proc k i (dozing i p)) f) = Ok None (s, Sysst (with_proc k i (dozing i p)) f).
Proof.
  intros Hj Hno. destruct (lookup_lt_is_Some_2 (procs (with_proc k i (dozing i p))) j) as [q Hq]; [simpl; rewrite length_insert; lia|].
  apply (reap_skip i j s _ f q Hq). intros Hz. destruct (doze_slot j q Hq Hz) as [Hq' _]. by apply (Hno q).
Qed.

Lemma round_none : (∀ l q, procs k !! l = Some q → ¬ zombie_of i q) →
  wait_round (s, Sysst k f) =
  if negb (has_kids i (procs k)) || truthy (killed p)
  then Ok (Some (-1)) (s, Sysst (with_proc k i (p <| chan := CNull |>)) f)
  else Ok None (s, Sysst (with_proc k i (dozing i p)) f).
Proof.
  intros Hno. rewrite round_enter. destruct Hrun as [_ Hi]. pose proof (lookup_lt_Some _ _ _ Hi) as Hlt.
  assert (for_until (seq 0 NPROC) (reap i) (s, Sysst (with_proc k i (dozing i p)) f) = Ok None (s, Sysst (with_proc k i (dozing i p)) f)) as E.
  { apply for_until_none. intros j Hj%elem_of_seq. apply round_skip; [lia|]. intros q. apply Hno. }
  rewrite (bind_ok _ _ _ _ _ E).
  assert (∀ c : list proc → M lst (option Z), (ont (gets procs) ≫= c) (s, Sysst (with_proc k i (dozing i p)) f) =
    c (<[i := dozing i p]> (procs k)) (s, Sysst (with_proc k i (dozing i p)) f)) as -> by done.
  rewrite run_at by done. rewrite (has_kids_insert i _ i p) by done. change (killed (dozing i p)) with (killed p).
  destruct (negb (has_kids i (procs k)) || truthy (killed p)); [|done].
  rewrite run_upd, run_cas by done. change (negb true) with false. cbv iota. rewrite <- (awake_dozing i p Hst). reflexivity.
Qed.

Lemma round_found j q s1 s2 :
  procs k !! j = Some q → zombie_of i q → (∀ l r, (l < j)%nat → procs k !! l = Some r → ¬ zombie_of i r) →
  pa_kfree (kstack q) s = Ok () s1 → freevm (pgdir q) s1 = Ok () s2 →
  wait_round (s, Sysst k f) = Ok (Some (pid q)) (s2, Sysst (with_proc (with_proc k i (p <| chan := CNull |>)) j (emptied q)) f).
Proof.
  intros Hj Hz Hbefore E1 E2. rewrite round_enter. destruct Hrun as [_ Hi]. pose proof (lookup_lt_Some _ _ _ Hj) as Hlt.
  assert (i ≠ j) as Hne by (intros <-; rewrite Hj in Hi; injection Hi as ->; destruct Hz; congruence).
  assert (for_until (seq 0 NPROC) (reap i) (s, Sysst (with_proc k i (dozing i p)) f) =
    Ok (Some (pid q)) (s2, Sysst (with_proc (with_proc k i (p <| chan := CNull |>)) j (emptied q)) f)) as E; [|by rewrite (bind_ok _ _ _ _ _ E)].
  replace NPROC with (j + Datatypes.S (NPROC - j - 1))%nat by lia. rewrite seq_app. rewrite for_until_skip.
  - cbn [seq for_until Nat.add]. erewrite bind_ok; [|apply (reap_run i j s s1 s2 _ f (dozing i p) q)]; [| | done | | done | done | done].
    + rewrite with_with, awake_dozing by done. done.
    + simpl. by rewrite list_lookup_insert_ne.
    + simpl. apply list_lookup_insert_eq. by eapply lookup_lt_Some.
  - intros l Hl%elem_of_seq. apply round_skip; [lia|]. intros r Hr. apply (Hbefore l r); [lia | done].
Qed.

(** C5: [wait] reaps. One round of it, up to the call of [sched], takes the
    first zombie child in the table if there is one: it returns its identifier,
    its kernel stack, page directory, page tables and frames are free again
    and no other page changes its role, the pages still in use keep their
    contents, and the slot is unused. Otherwise nothing is freed; the call
    returns -1 if there is no child or the process has been killed, and else
    goes to sleep on its own slot. The invariant on pages, files and
    identifiers holds in every case. *)
Theorem wait_correct :
  ∃ r s' R', wait_round (s, Sysst k f) = Ok r s' ∧ life_ok X s' R' ∧
    ((∃ j q, procs k !! j = Some q ∧ zombie_of i q ∧ (∀ l q', (l < j)%nat → procs k !! l = Some q' → ¬ zombie_of i q') ∧
        r = Some (pid q) ∧ snd s' = Sysst (with_proc (with_proc k i (p <| chan := CNull |>)) j (emptied q)) f ∧
        given_back q R R' ∧ ∀ a, plain (R' (page_of a)) → pa_mem (fst s') a = pa_mem s a) ∨
     ((∀ l q, procs k !! l = Some q → ¬ zombie_of i q) ∧ R' = R ∧
      if negb (has_kids i (procs k)) || truthy (killed p)
      then r = Some (-1) ∧ s' = (s, Sysst (with_proc k i (p <| chan := CNull |>)) f)
      else r = None ∧ s' = (s, Sysst (with_proc k i (dozing i p)) f))).
Proof.
  destruct Hrun as [_ Hi].
  assert (life_ok X (s, Sysst (with_proc k i (p <| chan := CNull |>)) f) R) as Hlf1.
  { eapply life_upd; try done. change (state (p <| chan := CNull |>)) with (state p). by rewrite Hst. }
  destruct (list_find (zombie_of i) (procs k)) as [[j q]|] eqn:Ef.
  - apply list_find_Some in Ef as (Hj & Hz & Hb).
    assert (i ≠ j) as Hne by (intros <-; rewrite Hj in Hi; injection Hi as ->; destruct Hz; congruence).
    assert (live q) as Lq by (destruct Hz as [_ Hz]; unfold live; by rewrite Hz).
    pose proof Hlf as [A B _ _ _ _ _]. destruct (ow_stack _ _ _ B j q Hj Lq) as (Hpg & Hks & _). destruct (ow_dir _ _ _ B j q Hj Lq) as (Hdir & _).
    destruct (free_pages s R q A Hpg Hks Hdir) as (s1 & s2 & R2 & E1 & E2 & Hvm2 & Hgb & He & Hda).
    eexists (Some (pid q)), _, R2. split; [eapply (round_found j q s1 s2); try done; intros l r Hlt Hl; by eapply (Hb l)|].
    split; [|left; exists j, q; split_and!; [done | done | | done | reflexivity | exact Hgb | exact Hda]].
    + eapply (life_reaped X s _ f R j q); [exact Hlf1 | simpl; by rewrite list_lookup_insert_ne | apply Hz | exact Hvm2 | exact Hgb | exact He].
    + intros l r Hlt Hl. by eapply (Hb l).
  - apply list_find_None in Ef. assert (∀ l q, procs k !! l = Some q → ¬ zombie_of i q) as Hno.
    { intros l q Hl. rewrite Forall_lookup in Ef. by eapply Ef. }
    pose proof (round_none Hno) as E. destruct (negb (has_kids i (procs k)) || truthy (killed p)).
    + eexists _, _, R. split; [exact E|]. split; [exact Hlf1|]. right. done.
    + eexists _, _, R. split; [exact E|]. split; [exact doze_life|]. right. done.
Qed.
End round.
End wait.
