(* ===== verification/LifeExit.v ===== *)
(** * The life of a process: exit

    [exit] closes the files of the process, leaves its directory and passes
    its children to init. *)
From stdpp Require Import functions.
From S2P Require Import Prelude Machine CString Spin Kalloc Proc Signal Bio.
From S2P Require Import Vm VmSpec VmUser VmSpace VmCopy.
From S2P Require Import FsBlock FsInode FsDinode FsFile FsData FsTrunc FsCache FsDir File SysFile SysFileSpec Exec Life LifeSpec LifeFork LifeWait.
Import KString.

(** ** Tables whose processes change in place *)

(** Changes that the invariant does not see. *)
Record harmless (g : proc → proc) : Prop := {
  hl_kstack q : kstack (g q) = kstack q;
  hl_pgdir q : pgdir (g q) = pgdir q;
  hl_sz q : sz (g q) = sz q;
  hl_pid q : pid (g q) = pid q;
  hl_ofile q : ofile (g q) = ofile q;
  hl_cwd q : cwd (g q) = cwd q;
  hl_live q : live (g q) ↔ live q;
  hl_finished q : finished (state (g q)) → finished (state q)
}.

Lemma fd_refs_fmap g ps x : harmless g → fd_refs (g <$> ps) x = fd_refs ps x.
Proof. intros Hg. induction ps as [|p ps IH]; [done|]. cbn. by rewrite (hl_ofile _ Hg), IH. Qed.

Lemma fmap_slot (g : proc → proc) (ps : list proc) j r : (g <$> ps) !! j = Some r → ∃ q, ps !! j = Some q ∧ r = g q.
Proof. rewrite list_lookup_fmap. destruct (ps !! j) as [q|]; [|done]. intros [= <-]. eauto. Qed.

Section exit.
Context {K : Type} `{PageAlloc K}.
Context {S : Type} `{Transactions S}.
Context {P : Type} `{PipeLayer P}.
Variable sb : superblock.
Notation lst := (K * @sysst S P)%type.

Definition with_procs (k : kst) (ps : list proc) : kst := k <| procs := ps |>.

Lemma owned_fmap X ps R g : harmless g → owned X ps R → owned X (g <$> ps) R.
Proof.
  intros Hg [A B C D F G]. split.
  - intros j r Hj Lr. apply fmap_slot in Hj as (q & Hj & ->). rewrite (hl_kstack _ Hg). apply (proj1 (hl_live _ Hg _)) in Lr. eauto.
  - intros j r Hj Lr. apply fmap_slot in Hj as (q & Hj & ->). rewrite (hl_pgdir _ Hg). apply (proj1 (hl_live _ Hg _)) in Lr. eauto.
  - intros i j r r' Hi Hj Lr Lr' Hne. apply fmap_slot in Hi as (q & Hi & ->), Hj as (q' & Hj & ->).
    rewrite !(hl_kstack _ Hg), !(hl_pgdir _ Hg). apply (proj1 (hl_live _ Hg _)) in Lr, Lr'. eauto.
  - intros a Ha Ho. destruct (D a Ha Ho) as [?|(j & q & Hj & Lq & <-)]; [by left|]. right. exists j, (g q).
    rewrite list_lookup_fmap, Hj. split; [done|]. split; [by apply (hl_live _ Hg) | apply (hl_kstack _ Hg)].
  - intros d Hd. destruct (F d Hd) as [?|(j & q & Hj & Lq & <-)]; [by left|]. right. exists j, (g q).
    rewrite list_lookup_fmap, Hj. split; [done|]. split; [by apply (hl_live _ Hg) | apply (hl_pgdir _ Hg)].
  - exact G.
Qed.

Lemma life_fmap X (s : K) k (f : @kfs S P) R g :
  harmless g → life_ok X (s, Sysst k f) R → life_ok X (s, Sysst (with_procs k (g <$> procs k)) f) R.
Proof.
  intros Hg [A B C D I F G]. split; simpl.
  - exact A.
  - by apply owned_fmap.
  - intros j r Hj Lr. apply fmap_slot in Hj as (q & Hj & ->). rewrite (hl_sz _ Hg), (hl_pgdir _ Hg). apply (proj1 (hl_live _ Hg _)) in Lr. by apply (C j q).
  - destruct D as [D1 D2]. split; intros x; simpl; rewrite fd_refs_fmap by done; [apply D1 | apply D2].
  - destruct I as [I1 I2]. split.
    + intros c ino Hc. rewrite (I1 c ino Hc). f_equal. symmetry. apply sumZ_ext; [apply length_fmap|].
      intros j q r Hq Hr. apply fmap_slot in Hr as (q' & Hq' & ->). simpl in Hq. rewrite Hq in Hq'. injection Hq' as <-. unfold cwd_is. by rewrite (hl_cwd _ Hg).
    + intros j r c Hj. apply fmap_slot in Hj as (q & Hj & ->). rewrite (hl_cwd _ Hg). by apply (I2 j q).
  - intros j r Hj. apply fmap_slot in Hj as (q & Hj & ->). destruct (F j q Hj) as [F1 F2]. unfold closed in *.
    rewrite (hl_ofile _ Hg), (hl_cwd _ Hg). split; [done|]. intros Hf. apply F2. by apply (hl_finished _ Hg).
  - destruct G as (G0 & G1 & G2). split; [done|]. split.
    + intros j r Hj Lr. apply fmap_slot in Hj as (q & Hj & ->). rewrite (hl_pid _ Hg). apply (proj1 (hl_live _ Hg _)) in Lr. eauto.
    + intros i j r r' Hi Hj Lr Lr' Hne. apply fmap_slot in Hi as (q & Hi & ->), Hj as (q' & Hj & ->).
      rewrite !(hl_pid _ Hg). apply (proj1 (hl_live _ Hg _)) in Lr, Lr'. eauto.
Qed.

(** ** Closing *)

(** Between operations, with no inode locked or unlinked while it is open. *)
Record files_ready (f : @kfs S P) : Prop := {
  fr_idle : tx_idle (fst (k_fs f));
  fr_inode x y : k_files f !! x = Some y → f_type y = FD_INODE → 0 < f_ref y → is_Some (snd (k_fs f) !! f_ip y);
  fr_linked c ino : snd (k_fs f) !! c = Some ino → i_lock ino = false ∧ i_valid ino && (i_nlink ino =? 0) = false
}.

(** [begin_op(); iput(ip); end_op()]. *)
Lemma put_inode (x : @fsys S) c ino :
  tx_idle (fst x) → snd x !! c = Some ino → i_lock ino = false → i_valid ino && (i_nlink ino =? 0) = false →
  ∃ st, (onbs tx_begin;; iput sb c;; onbs tx_end) x = Ok () (st, <[c := ino <| i_ref := i_ref ino - 1 |>]> (snd x)) ∧ tx_idle st.
Proof.
  destruct x as [s0 ic]. intros Hid Hc Hl Hn. simpl in *. destruct (tx_begin_ok s0 Hid) as (s1 & E1 & Hi1 & Hh1 & _).
  destruct (tx_end_ok s1 Hi1 Hh1) as (s2 & E2 & Hid2 & _). exists s2. split; [|done].
  rewrite (bind_ok _ _ _ _ _ (onbs_ok _ _ _ _ _ E1)). rewrite (bind_ok _ _ _ _ _ (iput_unused sb s1 ic c ino Hc Hl ltac:(by rewrite Hn))).
  by apply onbs_ok.
Qed.

(** One reference less to file [x], and what follows from the last one. *)
Record closed_one (x : nat) (y : file) (f f' : @kfs S P) : Prop := {
  co_files : ∃ y', k_files f' = <[x := y']> (k_files f) ∧ f_ref y' = f_ref y - 1 ∧ (0 < f_ref y' → y' = y <| f_ref := f_ref y - 1 |>) ∧
    (f_ref y' = 0 → f_type y' = FD_NONE);
  co_inodes ps : inodes_ok ps (k_files f) (snd (k_fs f)) → inodes_ok ps (k_files f') (snd (k_fs f'));
  co_ready : files_ready f'
}.

Lemma ready_files (f : @kfs S P) x y' y :
  files_ready f → k_files f !! x = Some y → (0 < f_ref y' → f_type y' = f_type y ∧ f_ip y' = f_ip y ∧ 0 < f_ref y) →
  files_ready (with_files f (<[x := y']> (k_files f))).
Proof.
  intros [A B C] Hx Hy. split; [done | | done]. intros z w Hz. simpl in *.
  apply list_lookup_insert_Some in Hz as [(<- & <- & _)|[_ Hz]]; [|by apply (B z)]. intros Ht Hr.
  destruct (Hy Hr) as (E1 & E2 & E3). rewrite E2. apply (B x y); congruence || done.
Qed.

Lemma inodes_files ps (fl : list file) x y y' ic :
  inodes_ok ps fl ic → fl !! x = Some y → (∀ c, file_on c y' = file_on c y) → inodes_ok ps (<[x := y']> fl) ic.
Proof.
  intros [A B] Hx Hy. split; [|done]. intros c ino Hc. rewrite (sumZ_insert _ _ x y) by done. rewrite Hy, (A c ino Hc). lia.
Qed.

Lemma close_shared (f : @kfs S P) x y :
  files_ready f → k_files f !! x = Some y → 2 ≤ f_ref y →
  ∃ f', fileclose sb x f = Ok () f' ∧ closed_one x y f f'.
Proof.
  intros Hf Hx Hr. exists (with_files f (<[x := y <| f_ref := f_ref y - 1 |>]> (k_files f))). split; [|split].
  - unfold fileclose, file_at. unfold mbind at 1, M_bind at 1. rewrite Hx. cbv beta iota. rewrite (proj2 (Z.ltb_ge _ 1)) by lia.
    unfold upd_file, mbind, M_bind, modify, set_field, with_files. cbv beta iota. cbn [k_fs k_files k_pipes].
    rewrite (alter_insert_list _ _ y) by done. rewrite (proj2 (Z.ltb_lt 0 _)) by lia. done.
  - eexists. split; [reflexivity|]. split; [done|]. split; [done|]. intros Hz. simpl in Hz. lia.
  - intros ps Hi. apply (inodes_files ps _ x y); [done | done |]. intros c. unfold file_on. simpl.
    assert ((0 <? f_ref y - 1) = (0 <? f_ref y)) as -> by lia. done.
  - apply (ready_files f x _ y); [done | done |]. simpl. intros _. split; [done|]. split; [done|]. lia.
Qed.

(** The file without references. *)
Definition released_file (y : file) : file := y <| f_ref := f_ref y - 1 |> <| f_ref := 0 |> <| f_type := FD_NONE |>.

(** The calls of [fileclose] up to the switch on the type. *)
Lemma fileclose_last (f : @kfs S P) x y :
  k_files f !! x = Some y → f_ref y = 1 →
  fileclose sb x f =
  match f_type y with
  | FD_PIPE => onpipe (pl_close (f_pipe y) (f_writable y))
  | FD_INODE => do_begin_op;; onfs (iput sb (f_ip y));; do_end_op
  | FD_NONE => mret ()
  end (with_files f (<[x := released_file y]> (k_files f))).
Proof.
  intros Hx Hr. unfold fileclose, file_at. unfold mbind at 1, M_bind at 1. rewrite Hx. cbv beta iota. rewrite (proj2 (Z.ltb_ge _ 1)) by lia.
  unfold upd_file. rewrite bind_modify. rewrite (proj2 (Z.ltb_ge 0 _)) by lia.
  unfold mbind at 1, M_bind at 1, set_field at 1. cbn [k_fs k_files k_pipes]. rewrite (alter_insert_list _ _ y) by done.
  rewrite list_lookup_insert_eq by (by eapply lookup_lt_Some). rewrite bind_modify. unfold set_field at 3. cbn [k_fs k_files k_pipes].
  erewrite (alter_insert_list _ x) by (apply list_lookup_insert_eq; by eapply lookup_lt_Some).
  unfold set_field. cbn [k_fs k_files k_pipes]. rewrite list_insert_insert_eq. reflexivity.
Qed.

Lemma put_in_files (f : @kfs S P) c ino :
  files_ready f → snd (k_fs f) !! c = Some ino →
  ∃ st, (do_begin_op;; onfs (iput sb c);; do_end_op) f =
    Ok () (Kfs (st, <[c := ino <| i_ref := i_ref ino - 1 |>]> (snd (k_fs f))) (k_files f) (k_pipes f)) ∧ tx_idle st.
Proof.
  intros [A B C] Hc. destruct (C c ino Hc) as [Hl Hn]. destruct (put_inode (k_fs f) c ino A Hc Hl Hn) as (st & E & Hst).
  exists st. split; [|done]. revert E. unfold do_begin_op, do_end_op, onfs, mbind, M_bind. destruct f as [fs fl ps]. simpl.
  destruct (onbs tx_begin fs) as [u x1|e|]; [|done|done]. simpl. destruct (iput sb c x1) as [u2 x2|e|]; [|done|done]. simpl.
  intros ->. done.
Qed.

(** The count of an inode that loses an open file or a directory. *)
Lemma ready_put (f : @kfs S P) st c ino :
  files_ready f → snd (k_fs f) !! c = Some ino → tx_idle st →
  files_ready (Kfs (st, <[c := ino <| i_ref := i_ref ino - 1 |>]> (snd (k_fs f))) (k_files f) (k_pipes f)).
Proof.
  intros [A B C] Hc Hst. split; [exact Hst | |]; simpl.
  - intros x y Hx Ht Hr. rewrite list_lookup_insert_is_Some. by apply (B x).
  - intros d i Hd. apply list_lookup_insert_Some in Hd as [(<- & <- & _)|[_ Hd]]; [by apply (C c ino) | by apply (C d)].
Qed.

Lemma close_last (f : @kfs S P) x y :
  files_ready f → k_files f !! x = Some y → f_ref y = 1 → f_type y ≠ FD_PIPE →
  ∃ f', fileclose sb x f = Ok () f' ∧ closed_one x y f f'.
Proof.
  intros Hf Hx Hr Ht. rewrite (fileclose_last f x y Hx Hr). pose proof (lookup_lt_Some _ _ _ Hx) as Hlt.
  assert (files_ready (with_files f (<[x := released_file y]> (k_files f)))) as Hf' by (by apply (ready_files f x _ y)).
  assert (∃ y', <[x := released_file y]> (k_files f) = <[x := y']> (k_files f) ∧ f_ref y' = f_ref y - 1 ∧ (0 < f_ref y' → y' = y <| f_ref := f_ref y - 1 |>) ∧
    (f_ref y' = 0 → f_type y' = FD_NONE)) as Hfl.
  { exists (released_file y). split; [done|]. split; [simpl; lia|]. split; [simpl; lia | done]. }
  destruct (f_type y) eqn:Ety; [|done|].
  - eexists. split; [reflexivity|]. split; [exact Hfl | | exact Hf']. intros ps Hi. apply (inodes_files ps _ x y); [done | done |].
    intros c. unfold file_on. simpl. by rewrite Ety.
  - destruct (fr_inode f Hf x y Hx Ety ltac:(lia)) as [ino Hino].
    destruct (put_in_files _ (f_ip y) ino Hf' Hino) as (st & E & Hst). eexists. split; [exact E|].
    split; [exact Hfl | | by apply (ready_put _ st (f_ip y) ino)]. intros ps [I1 I2]. split; simpl.
    + intros c i Hc. rewrite (sumZ_insert _ _ x y) by done. assert (file_on c (released_file y) = 0) as -> by done.
      unfold file_on at 2. rewrite Ety, Hr. apply list_lookup_insert_Some in Hc as [(<- & <- & _)|[Hne Hc]].
      * rewrite decide_True by done. change (i_ref (ino <| i_ref := i_ref ino - 1 |>)) with (i_ref ino - 1). rewrite (I1 _ ino Hino). simpl. lia.
      * rewrite decide_False by done. rewrite (I1 c i Hc). lia.
    + intros j p c Hj Hp. rewrite list_lookup_insert_is_Some. by apply (I2 j p).
Qed.

Lemma close_one (f : @kfs S P) x y :
  files_ready f → k_files f !! x = Some y → 1 ≤ f_ref y → (f_type y = FD_PIPE → 1 < f_ref y) →
  ∃ f', fileclose sb x f = Ok () f' ∧ closed_one x y f f'.
Proof.
  intros Hf Hx Hr Hp. destruct (decide (f_ref y = 1)) as [E|E]; [|apply close_shared; [done | done | lia]].
  apply close_last; [done | done | done |]. intros Ht. specialize (Hp Ht). lia.
Qed.

(** ** The descriptors *)

(** The pipes of a process have another end in other hands. *)
Definition pipes_shared (l : list (option nat)) (fl : list file) : Prop :=
  ∀ x y, fl !! x = Some y → f_type y = FD_PIPE → 0 < count_fds l x → count_fds l x < f_ref y.

(** The references of the descriptors in [l] given up. *)
Definition lowered (l : list (option nat)) (fl fl' : list file) : Prop :=
  length fl' = length fl ∧
  ∀ x y, fl !! x = Some y → ∃ y', fl' !! x = Some y' ∧ f_ref y' = f_ref y - count_fds l x ∧ (0 < f_ref y' → y' = y <| f_ref := f_ref y' |>).

Lemma lowered_none l fl : (∀ x, count_fds l x = 0) → lowered l fl fl.
Proof.
  intros Hl. split; [done|]. intros x y Hx. exists y. rewrite Hl. split; [done|]. split; [lia|]. intros _. by destruct y.
Qed.

Lemma lowered_trans l l1 l2 fl fl1 fl2 :
  (∀ x, count_fds l x = count_fds l1 x + count_fds l2 x) → (∀ x y, fl1 !! x = Some y → 0 ≤ f_ref y - count_fds l2 x) →
  lowered l1 fl fl1 → lowered l2 fl1 fl2 → lowered l fl fl2.
Proof.
  intros Hc Hpos [L1 A1] [L2 A2]. split; [congruence|]. intros x y Hx. destruct (A1 x y Hx) as (y1 & H1' & E1 & F1).
  destruct (A2 x y1 H1') as (y2 & H2' & E2 & F2). exists y2. split; [done|]. rewrite Hc. split; [lia|]. intros Hr.
  pose proof (count_fds_nonneg l2 x). rewrite (F2 Hr). rewrite F1 by lia. simpl. unfold set_field. by destruct y.
Qed.

Lemma lowered_one x y (f f' : @kfs S P) l : k_files f !! x = Some y → closed_one x y f f' →
  (∀ z, count_fds l z = if decide (x = z) then 1 else 0) → lowered l (k_files f) (k_files f').
Proof.
  intros Hx [(y' & -> & Hr & Hk & _) _ _] Hl. split; [apply length_insert|]. intros z w Hz. rewrite Hl. destruct (decide (x = z)) as [<-|Hne].
  - rewrite Hx in Hz. injection Hz as <-. exists y'. rewrite list_lookup_insert_eq by (by eapply lookup_lt_Some). split; [done|]. split; [done|].
    intros Hpos. rewrite Hr. by apply Hk.
  - exists w. rewrite list_lookup_insert_ne by done. split; [done|]. split; [lia|]. intros _. by destruct w.
Qed.

Section close.
Variables (X : Z → Prop) (s : K) (R : Z → role) (i : nat).

Lemma close_fd_ok k (f : @kfs S P) p fd x :
  life_ok X (s, Sysst k f) R → running k i p → ¬ finished (state p) → files_ready f → pipes_shared (ofile p) (k_files f) →
  ofile p !! fd = Some (Some x) →
  ∃ f', close_fd sb fd (s, Sysst k f) = Ok () (s, Sysst (with_proc k i (p <| ofile := <[fd := None]> (ofile p) |>)) f') ∧
    life_ok X (s, Sysst (with_proc k i (p <| ofile := <[fd := None]> (ofile p) |>)) f') R ∧ files_ready f' ∧
    pipes_shared (<[fd := None]> (ofile p)) (k_files f') ∧ lowered [Some x] (k_files f) (k_files f').
Proof.
  intros Hlf Hrun Hfin Hf Hps Hfd. pose proof Hrun as [_ Hi]. destruct (life_open X s k f R Hlf i p fd x Hi Hfd) as (y & Hy & Hr).
  pose proof (count_fds_pos _ _ _ Hfd) as Hcp.
  destruct (close_one f x y Hf Hy Hr) as (f' & E & Hco). { intros Ht. pose proof (Hps x y Hy Ht ltac:(lia)). lia. }
  exists f'. pose proof Hco as [(y' & Efl & Hr' & Hk & Hz) Hin Hrd]. split; [|split; [|split; [exact Hrd|split]]].
  - unfold close_fd. rewrite (bind_ok _ _ _ _ _ (ont_ok _ s _ _ f _ (curproc_ok _ _ _ Hrun))). rewrite Hfd.
    rewrite (bind_ok _ _ _ _ _ (onfl_ok _ _ _ _ _ _ E)). unfold clear_fd, onsnd, onk. by rewrite (upd_cur_ok _ _ _ Hrun).
  - pose proof Hlf as [A B C D I F G]. split.
    + exact A.
    + eapply owned_same; [exact B | exact Hi | done | done].
    + eapply (mapped_insert _ _ _ R); [|exact C | done | intros Lp; apply (C i p Hi Lp)]. intros l r Hl Lr. by apply (ow_dir _ _ _ B l r).
    + unfold fds_ok. simpl. rewrite Efl. eapply (refs_ok_fd _ _ (minus none x)); [|exact Hi | exact Hfd |].
      * eapply (refs_ok_file _ _ none); [exact D | exact Hy | |]; unfold minus, one, none; [rewrite decide_True by done; lia|].
        intros g Hg. rewrite decide_False by done. lia.
      * intros g. unfold minus, one, none, fd_is. destruct (decide (x = g)); lia.
    + eapply inodes_same; [apply Hin; exact I | exact Hi | done].
    + apply slots_insert; [exact F | simpl; rewrite length_insert; by apply (F i p) | done].
    + by eapply pids_same.
  - intros z w Hz' Ht Hpos. rewrite (count_fds_insert _ _ (Some x)) in * by done. simpl fd_is in *. rewrite Efl in Hz'.
    apply list_lookup_insert_Some in Hz' as [(<- & <- & _)|[Hne Hz']].
    + rewrite decide_True in * by done. destruct (decide (f_ref y' = 0)) as [E0|E0]; [by rewrite Hz in Ht|]. rewrite Hk in Ht by lia.
      pose proof (Hps x y Hy Ht ltac:(lia)). lia.
    + rewrite decide_False in * by done. pose proof (Hps z w Hz' Ht ltac:(lia)). lia.
  - eapply lowered_one; [exact Hy | exact Hco|]. intros z. simpl. destruct (decide (x = z)); lia.
Qed.

(** The process with its first [n] descriptors closed. *)
Definition closed_upto (n : nat) (p : proc) : proc := p <| ofile := replicate n None ++ drop n (ofile p) |>.

Lemma closed_upto_0 p : closed_upto 0 p = p.
Proof. by destruct p. Qed.

Lemma closed_upto_at n p : (n < length (ofile p))%nat → ofile (closed_upto n p) !! n = ofile p !! n.
Proof.
  intros Hn. simpl. rewrite lookup_app_r by (by rewrite length_replicate). rewrite length_replicate, Nat.sub_diag, lookup_drop. f_equal. lia.
Qed.

Lemma closed_upto_S n p : (n < length (ofile p))%nat →
  closed_upto (Datatypes.S n) p = (closed_upto n p) <| ofile := <[n := None]> (ofile (closed_upto n p)) |>.
Proof.
  intros Hn. unfold closed_upto, set_field. simpl ofile. f_equal. rewrite insert_app_r_alt by (by rewrite length_replicate).
  rewrite length_replicate, Nat.sub_diag. destruct (lookup_lt_is_Some_2 (ofile p) n Hn) as [o Ho]. rewrite (drop_S _ o n Ho).
  rewrite replicate_S_end, <- app_assoc. done.
Qed.

Lemma count_fds_app l1 l2 x : count_fds (l1 ++ l2) x = count_fds l1 x + count_fds l2 x.
Proof. induction l1 as [|[g|] l1 IH]; simpl; lia. Qed.

Lemma count_none n x : count_fds (replicate n None) x = 0.
Proof. induction n as [|n IH]; [done | exact IH]. Qed.

Lemma close_all_ok k p : running k i p → ¬ finished (state p) → length (ofile p) = NOFILE → ∀ n fd (f : @kfs S P),
  (fd + n = NOFILE)%nat → life_ok X (s, Sysst (with_proc k i (closed_upto fd p)) f) R → files_ready f →
  pipes_shared (ofile (closed_upto fd p)) (k_files f) →
  ∃ f', for_each (seq fd n) (close_fd sb) (s, Sysst (with_proc k i (closed_upto fd p)) f)
    = Ok () (s, Sysst (with_proc k i (closed_upto NOFILE p)) f') ∧
    life_ok X (s, Sysst (with_proc k i (closed_upto NOFILE p)) f') R ∧ files_ready f' ∧ lowered (drop fd (ofile p)) (k_files f) (k_files f').
Proof.
  intros Hrun Hfin Hlen. induction n as [|n IH]; intros fd f Hn Hlf Hf Hps.
  - rewrite Nat.add_0_r in Hn. subst fd. exists f. split; [done|]. split; [done|]. split; [done|]. apply lowered_none. intros x. rewrite <- Hlen, drop_all. done.
  - assert (fd < length (ofile p))%nat as Hlt by lia. destruct (lookup_lt_is_Some_2 (ofile p) fd Hlt) as [o Ho].
    pose proof (closed_upto_at fd p Hlt) as Hat. rewrite Ho in Hat. assert (running (with_proc k i (closed_upto fd p)) i (closed_upto fd p)) as Hrun' by (by eapply running_with).
    cbn [seq for_each]. rewrite (drop_S _ o fd Ho). destruct o as [x|].
    + destruct (close_fd_ok _ f _ fd x Hlf Hrun' Hfin Hf Hps Hat) as (f1 & E1 & Hlf1 & Hf1 & Hps1 & Hlow1).
      rewrite with_with, <- closed_upto_S in E1, Hlf1 by done. rewrite (bind_ok _ _ _ _ _ E1).
      destruct (IH (Datatypes.S fd) f1) as (f2 & E2 & Hlf2 & Hf2 & Hlow2); [lia | done | done | by rewrite closed_upto_S |].
      exists f2. split; [exact E2|]. split; [done|]. split; [done|].
      eapply (lowered_trans _ [Some x] (drop (Datatypes.S fd) (ofile p))); [intros z; simpl; lia | | exact Hlow1 | exact Hlow2].
      intros z w Hz. destruct (lf_fds _ _ _ Hlf1) as [D1 _]. rewrite (D1 z w Hz). unfold none.
      assert (procs (sy_k (snd (s, Sysst (with_proc k i (closed_upto (Datatypes.S fd) p)) f1))) !! i = Some (closed_upto (Datatypes.S fd) p)) as Hi1.
      { simpl. apply list_lookup_insert_eq. destruct Hrun as [_ Hi]. by eapply lookup_lt_Some. }
      pose proof (fd_refs_ge _ _ _ z Hi1) as Hge. simpl in Hge. rewrite count_fds_app, count_none in Hge. simpl. lia.
    + assert (close_fd sb fd (s, Sysst (with_proc k i (closed_upto fd p)) f) = Ok () (s, Sysst (with_proc k i (closed_upto fd p)) f)) as E1.
      { unfold close_fd. rewrite (bind_ok _ _ _ _ _ (ont_ok _ s _ _ f _ (curproc_ok _ _ _ Hrun'))). by rewrite Hat. }
      rewrite (bind_ok _ _ _ _ _ E1). assert (closed_upto (Datatypes.S fd) p = closed_upto fd p) as Eq.
      { rewrite closed_upto_S by done. rewrite list_insert_id by done. by destruct (closed_upto fd p). }
      rewrite <- Eq in *. by apply IH; [lia | ..].
Qed.
End close.

(** ** The children *)

Definition wake (c : channel) (q : proc) : proc :=
  if decide (state q = SLEEPING ∧ chan q = c) then q <| state := RUNNABLE |> else q.

Definition adopt (i n : nat) (q : proc) : proc :=
  if decide (parent q = Some i) then q <| parent := Some n |> else q.

(** Every process that sleeps on [c] is asleep. *)
Definition settled (c : channel) (q : proc) : Prop := ¬ (state q = MINUS_SLEEPING ∧ chan q = c).

Lemma wake_harmless c : harmless (wake c).
Proof.
  split; intros q; unfold wake; destruct (decide _) as [[Es Ec]|]; try done; unfold live; simpl; by rewrite Es.
Qed.

Lemma adopt_harmless i n : harmless (adopt i n).
Proof. split; intros q; unfold adopt; by destruct (decide _). Qed.

Lemma harmless_comp g h : harmless g → harmless h → harmless (g ∘ h).
Proof.
  intros [A1 A2 A3 A4 A5 A6 A7 A8] [B1 B2 B3 B4 B5 B6 B7 B8]. split; intros q; unfold compose; try congruence.
  - by rewrite A7.
  - intros ?%A8. by apply B8.
Qed.

Lemma wake_idem c q : wake c (wake c q) = wake c q.
Proof. unfold wake. destruct (decide (state q = SLEEPING ∧ chan q = c)) as [|Hn]; [by rewrite decide_False by (by intros [])|]. by rewrite decide_False. Qed.

Lemma wake_settled c q : settled c q → settled c (wake c q).
Proof. intros Hq. unfold wake. destruct (decide _); [by intros []|done]. Qed.

Lemma wakeup1_at_ok c k j q :
  procs k !! j = Some q → settled c q → wakeup1_at c j k = Ok () (with_proc k j (wake c q)).
Proof.
  intros Hj Hq. unfold wakeup1_at. rewrite (bind_ok _ _ _ _ _ (at_ok k j q Hj)). unfold wake.
  destruct (decide (state q = SLEEPING ∧ chan q = c)) as [[Es Ec]|Hn].
  - rewrite (bool_decide_eq_true_2 _ Es), (bool_decide_eq_true_2 _ Ec). cbn [orb andb].
    pose proof (cas_hit k j q MINUS_RUNNABLE Hj) as E1. rewrite Es in E1. rewrite (bind_ok _ _ _ _ _ E1).
    assert (j < length (procs k))%nat as Hlt by (by eapply lookup_lt_Some).
    set (q1 := q <| state := MINUS_RUNNABLE |>). assert (state q1 = MINUS_RUNNABLE) as Eq by done.
    rewrite (bind_ok _ _ _ _ _ (cas_with k j Hlt q1 MINUS_RUNNABLE RUNNABLE Eq)).
    reflexivity.
  - replace ((bool_decide (state q = SLEEPING) || bool_decide (state q = MINUS_SLEEPING)) && bool_decide (chan q = c)) with false.
    { by rewrite with_self. }
    symmetry. unfold settled in Hq. repeat case_bool_decide; tauto.
Qed.

(** A loop over the slots that treats each one by itself. *)
Lemma for_slots (body : nat → M kst ()) (g : proc → proc) (good : proc → Prop) :
  (∀ k j q, procs k !! j = Some q → good q → body j k = Ok () (with_proc k j (g q))) →
  ∀ l2 l1 k, procs k = l1 ++ l2 → Forall good l2 →
  for_each (seq (length l1) (length l2)) body k = Ok () (with_procs k (l1 ++ (g <$> l2))).
Proof.
  intros Hb. induction l2 as [|q l2 IH]; intros l1 k Hk Hg.
  - simpl. rewrite <- Hk. by destruct k.
  - apply Forall_cons_1 in Hg as [Hq Hg]. cbn [length seq for_each].
    assert (procs k !! length l1 = Some q) as Hj by (rewrite Hk; by apply list_lookup_middle).
    rewrite (bind_ok _ _ _ _ _ (Hb k (length l1) q Hj Hq)).
    assert (procs (with_proc k (length l1) (g q)) = (l1 ++ [g q]) ++ l2) as Hk'.
    { simpl. rewrite Hk, <- app_assoc. by rewrite insert_app_r_alt, Nat.sub_diag by done. }
    replace (Datatypes.S (length l1)) with (length (l1 ++ [g q])) by (rewrite length_app; simpl; lia).
    rewrite (IH _ _ Hk' Hg). rewrite fmap_cons, <- app_assoc. done.
Qed.

Lemma wakeup1_ok c k : length (procs k) = NPROC → Forall (settled c) (procs k) → wakeup1 c k = Ok () (with_procs k (wake c <$> procs k)).
Proof.
  intros Hl Hs. unfold wakeup1. rewrite <- Hl. by apply (for_slots (wakeup1_at c) (wake c) (settled c) (λ k j q, wakeup1_at_ok c k j q) (procs k) []).
Qed.

(** The table after the children of [i] up to slot [j] have been passed to
    [n], [w] telling whether one of them was a zombie. *)
Definition handed (i n : nat) (w : bool) (q : proc) : proc := (if w then wake (CProc n) else id) (adopt i n q).

Definition has_zombie (i : nat) (ps : list proc) : bool := existsb (λ q, bool_decide (zombie_of i q)) ps.

Definition partly_handed (i n : nat) (l1 l2 : list proc) : list proc :=
  (if has_zombie i l1 then fmap (wake (CProc n)) else id) ((adopt i n <$> l1) ++ l2).

Lemma has_zombie_same i ps : ∀ j (q q' : proc), ps !! j = Some q → ¬ zombie_of i q → ¬ zombie_of i q' → has_zombie i (<[j := q']> ps) = has_zombie i ps.
Proof.
  unfold has_zombie. induction ps as [|r ps IH]; intros [|j] q q' Hj Hq Hq'; [done | done | |].
  - injection Hj as ->. simpl. by rewrite !bool_decide_eq_false_2.
  - change (<[Datatypes.S j := q']> (r :: ps)) with (r :: <[j := q']> ps). cbn [existsb]. by rewrite (IH j q q').
Qed.

Lemma has_zombie_snoc i l q : has_zombie i (l ++ [q]) = has_zombie i l || bool_decide (zombie_of i q).
Proof. unfold has_zombie. rewrite existsb_app. simpl. by rewrite orb_false_r. Qed.

Lemma wake_parent c q : parent (wake c q) = parent q.
Proof. unfold wake. by destruct (decide _). Qed.

Lemma wake_zombie c q : state (wake c q) = ZOMBIE ↔ state q = ZOMBIE.
Proof. unfold wake. destruct (decide _) as [[-> _]|]; simpl; [split; congruence | done]. Qed.

Lemma wake_adopt i n c q : wake c (adopt i n q) = adopt i n (wake c q).
Proof.
  unfold adopt. rewrite wake_parent. unfold wake. destruct (decide (parent q = Some i)); simpl; destruct (decide (state q = SLEEPING ∧ chan q = c)); by destruct q.
Qed.

Lemma fmap_wake_idem c (l : list proc) : wake c <$> (wake c <$> l) = wake c <$> l.
Proof. rewrite <- list_fmap_compose. apply list_fmap_ext. intros j q _. apply wake_idem. Qed.

Lemma partly_lookup i n l1 q l2 :
  partly_handed i n l1 (q :: l2) !! length l1 = Some ((if has_zombie i l1 then wake (CProc n) else id) q).
Proof.
  unfold partly_handed. assert (((adopt i n <$> l1) ++ q :: l2) !! length l1 = Some q) as E.
  { rewrite lookup_app_r by (by rewrite length_fmap). by rewrite length_fmap, Nat.sub_diag. }
  destruct (has_zombie i l1); [|exact E]. rewrite list_lookup_fmap, E. done.
Qed.

Lemma partly_insert i n l1 q l2 :
  <[length l1 := (if has_zombie i l1 then wake (CProc n) else id) (adopt i n q)]> (partly_handed i n l1 (q :: l2)) =
  (if has_zombie i l1 then fmap (wake (CProc n)) else id) ((adopt i n <$> (l1 ++ [q])) ++ l2).
Proof.
  unfold partly_handed. assert (length (adopt i n <$> l1) = length l1) as El by apply length_fmap.
  destruct (has_zombie i l1); unfold id; rewrite ?fmap_app, insert_app_r_alt, ?length_fmap, Nat.sub_diag, <- ?app_assoc by (rewrite ?length_fmap; done); done.
Qed.

Lemma settled_adopt i n c q : settled c q → settled c (adopt i n q).
Proof. unfold settled, adopt. by destruct (decide _). Qed.

Lemma partly_settled i n c l1 l2 : Forall (settled c) (l1 ++ l2) → Forall (settled c) ((adopt i n <$> l1) ++ l2).
Proof. rewrite !Forall_app. intros [H1' H2']. split; [|done]. apply Forall_fmap. eapply Forall_impl; [done|]. intros q. apply settled_adopt. Qed.

Lemma pass_child_ok i n k l1 q l2 :
  procs k = partly_handed i n l1 (q :: l2) → length (l1 ++ q :: l2) = NPROC → initproc k = Some n →
  Forall (settled (CProc n)) (l1 ++ q :: l2) →
  pass_child i (length l1) k = Ok () (with_procs k (partly_handed i n (l1 ++ [q]) l2)).
Proof.
  intros Hk Hlen Hini Hset. pose proof (partly_lookup i n l1 q l2) as Hj. rewrite <- Hk in Hj. set (q' := _ q) in Hj.
  assert (parent q' = parent q) as Hp by (unfold q'; destruct (has_zombie i l1); [apply wake_parent | done]).
  assert (state q' = ZOMBIE ↔ state q = ZOMBIE) as Hz by (unfold q'; destruct (has_zombie i l1); [apply wake_zombie | done]).
  assert (adopt i n q' = (if has_zombie i l1 then wake (CProc n) else id) (adopt i n q)) as Ha.
  { unfold q'. destruct (has_zombie i l1); [by rewrite wake_adopt | done]. }
  unfold pass_child. rewrite (bind_ok _ _ _ _ _ (at_ok k _ q' Hj)). unfold partly_handed. rewrite has_zombie_snoc.
  pose proof (partly_insert i n l1 q l2) as Hins. rewrite <- Ha, <- Hk in Hins. clearbody q'.
  destruct (decide (parent q' = Some i)) as [Hc|Hc].
  - rewrite bind_gets. rewrite (bind_ok _ _ _ _ _ (upd_proc_at k _ q' _ Hj)). rewrite Hini.
    assert (q' <| parent := Some n |> = adopt i n q') as Eq by (unfold adopt; by rewrite decide_True). rewrite Eq.
    assert (procs (with_proc k (length l1) (adopt i n q')) !! length l1 = Some (adopt i n q')) as Hj'.
    { simpl. apply list_lookup_insert_eq. by eapply lookup_lt_Some. }
    rewrite (bind_ok _ _ _ _ _ (at_ok _ _ _ Hj')). assert (state (adopt i n q') = state q') as Est by (by rewrite <- Eq).
    assert (with_proc k (length l1) (adopt i n q') = with_procs k (<[length l1 := adopt i n q']> (procs k))) as -> by done.
    destruct (decide (state (adopt i n q') = ZOMBIE)) as [Ez|Ez]; rewrite Est in Ez.
    + rewrite bool_decide_eq_true_2, orb_true_r by (split; [by rewrite <- Hp | by apply Hz]). rewrite Hins.
      rewrite wakeup1_ok; simpl.
      * destruct (has_zombie i l1); [|done]. unfold with_procs, set_field. simpl. by rewrite fmap_wake_idem.
      * destruct (has_zombie i l1); unfold id; rewrite ?length_fmap, length_app, ?length_fmap; rewrite !length_app in *; simpl in *; lia.
      * assert (Forall (settled (CProc n)) ((adopt i n <$> (l1 ++ [q])) ++ l2)) as Hs by (apply partly_settled; by rewrite <- app_assoc).
        destruct (has_zombie i l1); [|exact Hs]. apply Forall_fmap. eapply Forall_impl; [exact Hs|]. intros r. apply wake_settled.
    + rewrite bool_decide_eq_false_2, orb_false_r by (intros [_ Hzz]; by apply Ez, Hz). by rewrite Hins.
  - rewrite bool_decide_eq_false_2, orb_false_r by (intros [Hpp _]; congruence). rewrite <- Hins.
    assert (adopt i n q' = q') as -> by (unfold adopt; by rewrite decide_False). rewrite list_insert_id by done. by destruct k.
Qed.

Lemma pass_children_ok i n k ps :
  procs k = ps → length ps = NPROC → initproc k = Some n → Forall (settled (CProc n)) ps →
  for_each (seq 0 NPROC) (pass_child i) k = Ok () (with_procs k (handed i n (has_zombie i ps) <$> ps)).
Proof.
  intros Hk Hlen Hini Hset.
  assert (∀ l2 l1 k, ps = l1 ++ l2 → procs k = partly_handed i n l1 l2 → initproc k = Some n →
    for_each (seq (length l1) (length l2)) (pass_child i) k = Ok () (with_procs k (partly_handed i n ps []))) as Hgen.
  { induction l2 as [|q l2 IH]; intros l1 k' Hps Hk' Hini'.
    - rewrite app_nil_r in Hps. subst l1. cbn. rewrite <- Hk'. by destruct k'.
    - cbn [length seq for_each]. rewrite (bind_ok _ _ _ _ _ (pass_child_ok i n k' l1 q l2 Hk' ltac:(by rewrite <- Hps) Hini' ltac:(by rewrite <- Hps))).
      replace (Datatypes.S (length l1)) with (length (l1 ++ [q])) by (rewrite length_app; simpl; lia).
      rewrite IH; [done | by rewrite <- app_assoc | done | done]. }
  specialize (Hgen ps [] k eq_refl Hk Hini). rewrite Hlen in Hgen. simpl length in Hgen. rewrite Hgen. unfold partly_handed. rewrite app_nil_r.
  unfold handed. destruct (has_zombie i ps); [by rewrite <- list_fmap_compose | done].
Qed.

(** ** exit *)

(** The file system after the directory [c] was left. *)
Definition left_dir (f : @kfs S P) (st : S) (c : nat) (ino : inode) : @kfs S P :=
  Kfs (st, <[c := ino <| i_ref := i_ref ino - 1 |>]> (snd (k_fs f))) (k_files f) (k_pipes f).

Lemma life_left X (s : K) k (f : @kfs S P) R i p c ino st :
  life_ok X (s, Sysst k f) R → procs k !! i = Some p → cwd p = Some c → snd (k_fs f) !! c = Some ino → ¬ finished (state p) →
  life_ok X (s, Sysst (with_proc k i (p <| cwd := None |>)) (left_dir f st c ino)) R.
Proof.
  intros [A B C D [I1 I2] F G] Hi Hc Hino Hfin. split.
  - exact A.
  - eapply owned_same; [exact B | exact Hi | done | done].
  - eapply (mapped_insert _ _ _ R); [|exact C | done | intros Lp; apply (C i p Hi Lp)]. intros l r Hl Lr. by apply (ow_dir _ _ _ B l r).
  - by eapply refs_same.
  - split; simpl.
    + intros d i' Hd. rewrite (sumZ_insert _ _ i p) by done. assert (cwd_is d (p <| cwd := None |>) = 0) as -> by done.
      unfold cwd_is at 2. rewrite Hc. apply list_lookup_insert_Some in Hd as [(<- & <- & _)|[Hne Hd]].
      * rewrite decide_True by done. change (i_ref (ino <| i_ref := i_ref ino - 1 |>)) with (i_ref ino - 1). rewrite (I1 c ino Hino). simpl. lia.
      * rewrite decide_False by congruence. rewrite (I1 d i' Hd). simpl. lia.
    + intros j q d Hj Hd. rewrite list_lookup_insert_is_Some. apply list_lookup_insert_Some in Hj as [(<- & <- & _)|[_ Hj]]; [done | by apply (I2 j q)].
  - apply slots_insert; [exact F | by apply (F i p) | done].
  - by eapply pids_same.
Qed.

(** The process that has left. *)
Definition exited (p : proc) : proc := p <| ofile := replicate NOFILE None |> <| cwd := None |> <| state := MINUS_ZOMBIE |>.

Section run.
Variables (X : Z → Prop) (s : K) (k : kst) (f : @kfs S P) (R : Z → role) (i n : nat) (p : proc) (c : nat).
Hypothesis Hlf : life_ok X (s, Sysst k f) R.
Hypothesis Hrun : running k i p.
Hypothesis Hst : state p = RUNNING.
Hypothesis Htab : length (procs k) = NPROC.
Hypothesis Hini : initproc k = Some n ∧ n ≠ i.
Hypothesis Hset : Forall (settled (CProc n)) (procs k).
Hypothesis Hcwd : cwd p = Some c.
Hypothesis Hf : files_ready f.
Hypothesis Hps : pipes_shared (ofile p) (k_files f).

Lemma exit_closes :
  ∃ f1 st ino, for_each (seq 0 NOFILE) (close_fd sb) (s, Sysst k f) = Ok () (s, Sysst (with_proc k i (p <| ofile := replicate NOFILE None |>)) f1) ∧
    (do_begin_op;; onfs (iput sb c);; do_end_op) f1 = Ok () (left_dir f1 st c ino) ∧
    life_ok X (s, Sysst (with_proc k i (p <| ofile := replicate NOFILE None |> <| cwd := None |>)) (left_dir f1 st c ino)) R ∧
    files_ready (left_dir f1 st c ino) ∧ lowered (ofile p) (k_files f) (k_files f1).
Proof.
  pose proof Hrun as [_ Hi]. destruct (lf_slots _ _ _ Hlf i p Hi) as [Hlen _]. assert (¬ finished (state p)) as Hfin by (rewrite Hst; by intros []).
  destruct (close_all_ok X s R i k p Hrun Hfin Hlen NOFILE 0 f eq_refl) as (f1 & E1 & Hlf1 & Hf1 & Hlow).
  { by rewrite closed_upto_0, with_self. } { done. } { by rewrite closed_upto_0. }
  rewrite closed_upto_0, with_self in E1 by done.
  assert (closed_upto NOFILE p = p <| ofile := replicate NOFILE None |>) as Ec by (unfold closed_upto; by rewrite <- Hlen, drop_all, app_nil_r).
  rewrite Ec in *. set (p1 := p <| ofile := _ |>) in *.
  assert (procs (with_proc k i p1) !! i = Some p1) as Hi1 by (simpl; apply list_lookup_insert_eq; by eapply lookup_lt_Some).
  destruct (proj2 (lf_inodes _ _ _ Hlf1) i p1 c Hi1 Hcwd) as [ino Hino].
  destruct (put_in_files f1 c ino Hf1 Hino) as (st & E2 & Hid). exists f1, st, ino. split; [exact E1|]. split; [exact E2|].
  split; [|split; [by apply ready_put | exact Hlow]].
  pose proof (life_left X s _ f1 R i p1 c ino st Hlf1 Hi1 Hcwd Hino Hfin) as Hl. by rewrite with_with in Hl.
Qed.

(** C6: [exit] releases what the process holds. For a running process other
    than init whose inodes stay linked and whose pipes have another holder,
    it reaches its call of [sched] with every descriptor closed and each open
    file counting that many references less, the directory left, the process
    on its way to be a zombie, its children passed to init, which is woken if
    it sleeps and one of them is a zombie, and no other process changed; the
    pages stay as they are until [wait]. Pages, files, inodes and identifiers
    are accounted for as before. *)
Theorem exit_correct :
  ∃ fl st ino fd, exit sb (s, Sysst k f) = Ok () (s, Sysst (with_procs k (handed i n (has_zombie i (procs k)) <$> <[i := exited p]> (procs k))) fl) ∧
    fl = left_dir fd st c ino ∧ lowered (ofile p) (k_files f) (k_files fl) ∧ files_ready fl ∧
    life_ok X (s, Sysst (with_procs k (handed i n (has_zombie i (procs k)) <$> <[i := exited p]> (procs k))) fl) R.
Proof.
  destruct exit_closes as (f1 & st & ino & E1 & E2 & Hlf2 & Hf2 & Hlow). pose proof Hrun as [Hc Hi]. destruct Hini as [Hin Hne].
  pose proof (lookup_lt_Some _ _ _ Hi) as Hlt. set (p1 := p <| ofile := replicate NOFILE None |>) in *. set (f2 := left_dir f1 st c ino) in *.
  exists f2, st, ino, f1. split; [|split; [done|split; [exact Hlow|split; [exact Hf2|]]]].
  - unfold exit.
    assert (∀ w : option nat → M lst (), (ont myproc ≫= w) (s, Sysst k f) = w (Some i) (s, Sysst k f)) as ->.
    { intros w. unfold ont, onsnd, onk, myproc, gets, mbind, M_bind. simpl. by rewrite Hc. }
    assert (∀ w : option nat → M lst (), (ont (gets initproc) ≫= w) (s, Sysst k f) = w (Some n) (s, Sysst k f)) as ->.
    { intros w. unfold ont, onsnd, onk, gets, mbind, M_bind. simpl. by rewrite Hin. }
    rewrite decide_False by congruence. rewrite (bind_ok _ _ _ _ _ E1).
    apply bind_inv in E2 as ([] & fa & Ea & E2). apply bind_inv in E2 as ([] & fb & Eb & Ed).
    set (k1 := with_proc k i p1). assert (running k1 i p1) as Hr1 by (by eapply running_with).
    assert (onsnd begin_ (s, Sysst k1 f1) = Ok () (s, Sysst k1 fa)) as E3 by (unfold onsnd, begin_, onf; by rewrite Ea).
    rewrite (bind_ok _ _ _ _ _ E3), (bind_ok _ _ _ _ _ (ont_ok _ s _ _ fa _ (curproc_ok _ _ _ Hr1))).
    change (cwd p1) with (cwd p). rewrite Hcwd.
    assert (onin (iput sb c) (s, Sysst k1 fa) = Ok () (s, Sysst k1 fb)) as E4 by (unfold onin, oni, onsnd, onf; by rewrite Eb).
    assert (onsnd end_ (s, Sysst k1 fb) = Ok () (s, Sysst k1 f2)) as E5 by (unfold onsnd, end_, onf; by rewrite Ed).
    rewrite (bind_ok _ _ _ _ _ E4), (bind_ok _ _ _ _ _ E5), (bind_ok _ _ _ _ _ (ont_ok _ s _ _ f2 _ (upd_cur_ok _ _ _ Hr1 _))).
    unfold k1. rewrite with_with, run_cas by (exact Hlt || exact Hst). change (negb true) with false. cbv iota. apply ont_ok.
    rewrite (pass_children_ok i n _ (<[i := exited p]> (procs k))); [|done | by rewrite length_insert | done | apply Forall_insert; [done | by intros []]].
    by rewrite (has_zombie_same i (procs k) i p (exited p)); [ | done | intros [_ Hz]; congruence | intros [_ Hz] ].
  - apply (life_fmap X s (with_proc k i (exited p)) f2 R).
    + unfold handed. destruct (has_zombie i (procs k)); [apply (harmless_comp (wake (CProc n)) (adopt i n) (wake_harmless _)), adopt_harmless | apply adopt_harmless].
    + rewrite <- (with_with k i (p1 <| cwd := None |>)). eapply life_upd; [exact Hlf2 | simpl; by apply list_lookup_insert_eq | | done..].
      unfold live. change (state (p1 <| cwd := None |>)) with (state p). by rewrite Hst.
Qed.
End run.
End exit.
