(* ===== verification/LifeExample.v ===== *)
(** * Examples for the life of a process

    Three processes: init, asleep; a process with an open file; and a zombie
    child of it. The theorems on [fork], [wait], [exit] and the first run of a
    process apply to them. *)
From stdpp Require Import functions.
From S2P Require Import Prelude Machine CString Spin Kalloc Proc Signal Bio Log LogOps.
From S2P Require Import Vm VmSpec VmUser VmSpace VmCopy VmMain Asm AsmSwitch.
From S2P Require Import FsBlock FsInode FsDinode FsFile FsData FsStore FsCrash FsTrunc FsCache FsDir File FsTxn PipeTable SysFile SysFileSpec Examples.
From S2P Require Import Exec Life LifeSpec LifeFork LifeStart LifeWait LifeExit.
Import KString.

Section example.
#[local] Instance life_alloc : PageAlloc ((mach * spinlock) * kmem) := kmem_alloc 0x80200000 ex_above.
#[local] Instance life_blocks : BlockStore (log * bio) := op_store 2 30.
#[local] Instance life_ops : Transactions (log * bio) := op_transactions 2 30.

(** ** The state *)

Definition life_proc (n : Z) (st : procstate) (par : option nat) (c : channel) (fds : list (option nat)) (dir : option nat) : proc :=
  proc0 <| pgdir := 0x80300000 + n * 0x1000 |> <| kstack := 0x80310000 + n * 0x1000 |> <| state := st |> <| pid := n + 1 |>
    <| parent := par |> <| chan := c |> <| ofile := fds |> <| cwd := dir |>.

Definition life_init : proc := life_proc 0 SLEEPING None (CProc 0) (replicate NOFILE None) (Some 0%nat).
Definition life_cur : proc := life_proc 1 RUNNING (Some 0%nat) CNull (Some 0%nat :: replicate 15 None) (Some 0%nat).
Definition life_zombie : proc := life_proc 2 ZOMBIE (Some 1%nat) CNull (replicate NOFILE None) None.

Definition life_k : kst := Kst (life_init :: life_cur :: life_zombie :: replicate 61 proc0) (Some 1%nat) 4 (Some 0%nat) (λ _, 0).
Definition life_f : @kfs (log * bio) pipes := Kfs (ex_idle, [ex_rest <| i_ref := 3 |>]) [ex_fd] [].
Definition life_pages : (mach * spinlock) * kmem := (lock_example, Kmem true ex_free (λ _, 0)).

Definition life_roles : Z → role :=
  <[ex_free := Free]> (<[0x80300000 := Dir]> (<[0x80301000 := Dir]> (<[0x80302000 := Dir]> (λ _, Other)))).

(** Every page but those of the processes and the free one is the kernel's. *)
Definition life_kernel (a : Z) : Prop := life_roles a = Other ∧ a ∉ [0x80310000; 0x80311000; 0x80312000].

Lemma life_role_cases a r :
  life_roles a = r → r ≠ Other → (a = ex_free ∧ r = Free) ∨ (a ∈ [0x80300000; 0x80301000; 0x80302000] ∧ r = Dir).
Proof.
  unfold life_roles. intros <- Hr. revert Hr.
  destruct (decide (a = ex_free)) as [->|]; [rewrite fn_lookup_insert; auto|]. rewrite fn_lookup_insert_ne by done.
  destruct (decide (a = 0x80300000)) as [->|]; [rewrite fn_lookup_insert; right; split; [set_solver | done]|]. rewrite fn_lookup_insert_ne by done.
  destruct (decide (a = 0x80301000)) as [->|]; [rewrite fn_lookup_insert; right; split; [set_solver | done]|]. rewrite fn_lookup_insert_ne by done.
  destruct (decide (a = 0x80302000)) as [->|]; [rewrite fn_lookup_insert; right; split; [set_solver | done]|]. by rewrite fn_lookup_insert_ne.
Qed.

Lemma life_vm : vm_ok life_pages life_roles.
Proof.
  split; split.
  - exists [ex_free]. split.
    + split; [|intros _; apply lock_example_ready]. split_and!; simpl.
      * intros a. lia.
      * done.
      * repeat constructor; done.
      * apply NoDup_singleton.
    + intros p. rewrite list_elem_of_singleton. split; [by intros ->|]. intros Hp.
      apply life_role_cases in Hp as [[? _]|[_ ?]]; done.
  - intros p Hp. destruct (life_role_cases p (life_roles p)) as [[-> _]|[Hin _]]; [done | done | done |].
    rewrite !elem_of_cons, elem_of_nil in Hin. destruct Hin as [->|[->|[->|[]]]]; done.
  - intros d i Hd Hi. by left.
  - intros t d i Ht. apply life_role_cases in Ht as [[_ ?]|[_ ?]]; done.
  - intros d v Hd Hv Hp. exfalso. revert Hp. done.
  - intros p d v Hp. apply life_role_cases in Hp as [[_ ?]|[_ ?]]; done.
Qed.

Lemma life_slots j q : procs life_k !! j = Some q →
  (j = 0%nat ∧ q = life_init) ∨ (j = 1%nat ∧ q = life_cur) ∨ (j = 2%nat ∧ q = life_zombie) ∨ ((3 ≤ j)%nat ∧ q = proc0).
Proof.
  destruct j as [|[|[|j]]]; [intros [= <-]; auto.. |]. intros Hj. change (replicate 61 proc0 !! j = Some q) in Hj.
  apply lookup_replicate in Hj as [-> _]. right. right. right. split; [lia | done].
Qed.

Ltac life_cases H := destruct (life_slots _ _ H) as [[-> ->]|[[-> ->]|[[-> ->]|[? ->]]]].

Lemma life_owned : owned life_kernel (procs life_k) life_roles.
Proof.
  assert (∀ a, a ∈ [0x80310000; 0x80311000; 0x80312000] → ¬ life_kernel a) as Hks by (intros a Ha [_ Hn]; done).
  assert (∀ a, life_roles a = Dir → ¬ life_kernel a) as Hdk by (intros a Ha [Hn _]; congruence).
  split.
  - intros j p Hj Lp. life_cases Hj; try done; (split; [done|]; split; [done|]; apply Hks; simpl; set_solver).
  - intros j p Hj Lp. life_cases Hj; try done; (split; [done|]; by apply Hdk).
  - intros i j p q Hi Hj Lp Lq Hne. life_cases Hi; life_cases Hj; done.
  - intros a Ha Ho. destruct (decide (a ∈ [0x80310000; 0x80311000; 0x80312000])) as [Hin|Hn]; [right | by left].
    rewrite !elem_of_cons, elem_of_nil in Hin. destruct Hin as [->|[->|[->|[]]]];
      [exists 0%nat, life_init | exists 1%nat, life_cur | exists 2%nat, life_zombie]; done.
  - intros d Hd. apply life_role_cases in Hd as [[_ ?]|[Hin _]]; [done | | done]. right.
    rewrite !elem_of_cons, elem_of_nil in Hin. destruct Hin as [->|[->|[->|[]]]];
      [exists 0%nat, life_init | exists 1%nat, life_cur | exists 2%nat, life_zombie]; done.
  - intros a [Ha _]. by left.
Qed.

Lemma life_example : life_ok life_kernel (life_pages, Sysst life_k life_f) life_roles.
Proof.
  split.
  - exact life_vm.
  - exact life_owned.
  - intros j p Hj Lp. life_cases Hj; try done; (split; [done|]; intros v Hv; change (pages_up _) with 0 in Hv; lia).
  - split; [intros [|x] y [= <-]; reflexivity|]. intros [|x]; [by eexists|]. unfold none. simpl. lia.
  - split; [intros [|c] ino [= <-]; reflexivity|]. intros j p c Hj Hc. life_cases Hj; try done; injection Hc as <-; by eexists.
  - intros j p Hj. life_cases Hj; (split; [done|]); done.
  - split; [done|]. split; [intros j p Hj Lp; life_cases Hj; done|]. intros i j p q Hi Hj Lp Lq Hne. life_cases Hi; life_cases Hj; done.
Qed.

Lemma life_running : running life_k 1 life_cur.
Proof. done. Qed.

Lemma life_ready : files_ready life_f.
Proof.
  split; [exact ex_idle_ok | | ].
  - intros [|x] y [= <-] _ _. by eexists.
  - intros [|c] ino [= <-]. done.
Qed.

(** ** The theorems at work *)

(** With one free page [fork] cannot succeed: it takes the page for a stack,
    fails to copy the address space and gives it back. *)
Lemma fork_correct_witness :
  ∃ r s' R', fork 0x80108000 0x80106000 0x80103900 (life_pages, Sysst life_k life_f) = Ok r s' ∧ life_ok life_kernel s' R' ∧
    (r = -1 ∨ r = 4).
Proof.
  destruct (fork_correct 0x80108000 0x80106000 0x80103900 life_kernel life_pages life_k life_f life_roles life_example ltac:(done) 1 life_cur 0 (ex_rest <| i_ref := 3 |>)
    life_running ltac:(done) ex_data_ok ltac:(split; [done|]; split; [done|]; split; repeat constructor; done) ltac:(done)) as (r & s' & R' & E & Hlf & [(Er & _)|(Er & _)]);
    exists r, s', R'; (split; [exact E|]; split; [exact Hlf|]); [left | right]; exact Er.
Defined.

(** The zombie is reaped: its identifier is 3. *)
Lemma wait_correct_witness :
  ∃ s' R', wait_round (life_pages, Sysst life_k life_f) = Ok (Some 3) s' ∧ life_ok life_kernel s' R' ∧ R' 0x80302000 = Free ∧ R' 0x80312000 = Free.
Proof.
  destruct (wait_correct life_kernel life_pages life_k life_f life_roles 1 life_cur life_example life_running ltac:(done) ltac:(done))
    as (r & s' & R' & E & Hlf & [(j & q & Hj & Hz & _ & -> & _ & Hgb & _)|(Hno & _)]).
  - destruct Hz as [_ Hz]. destruct (life_slots j q Hj) as [[-> ->]|[[-> ->]|[[-> ->]|[? ->]]]]; [discriminate Hz | discriminate Hz | | discriminate Hz].
    exists s', R'. split; [exact E|]. split; [exact Hlf|]. rewrite !Hgb. split; reflexivity.
  - exfalso. exact (Hno 2%nat life_zombie eq_refl (conj eq_refl eq_refl)).
Defined.

(** The child is passed to init, which is woken. *)
Lemma exit_correct_witness :
  ∃ k' fl, exit ex_sb (life_pages, Sysst life_k life_f) = Ok () (life_pages, Sysst k' fl) ∧
    (parent <$> procs k' !! 2%nat) = Some (Some 0%nat) ∧ (state <$> procs k' !! 0%nat) = Some RUNNABLE ∧ (f_ref <$> k_files fl !! 0%nat) = Some 0.
Proof.
  destruct (exit_correct ex_sb life_kernel life_pages life_k life_f life_roles 1 0 life_cur 0 life_example life_running ltac:(done) ltac:(done) ltac:(done))
    as (fl & st & ino & fd & E & _ & Hlow & _).
  { apply Forall_lookup. intros j q Hj. destruct (life_slots j q Hj) as [[-> ->]|[[-> ->]|[[-> ->]|[? ->]]]]; by intros [? ?]. }
  { done. } { exact life_ready. } { intros [|x] y [= <-]; done. }
  eexists _, fl. split; [exact E|]. split; [reflexivity|]. split; [reflexivity|].
  destruct (proj2 Hlow 0%nat ex_fd eq_refl) as (y' & Hy & Hr & _). rewrite Hy. simpl. by rewrite Hr.
Defined.

(** The scheduler on its stack at 0x1000, about to switch to a stack prepared
    at 0x80310000 for a process that returns 0 to address 0x40. *)
Definition start_tf : trapframe := zero_trapframe <| tf_cs := 27 |> <| tf_eip := 0x40 |> <| tf_esp := 0x2000 |>.
Definition start_mem : mem :=
  store_tf (new_stack 0x80106000 0x80103900
    (store32 (store32 (store32 (λ _, 0) 0x1000 0x80104321) 0x1004 0x2000) 0x1008 (stack_ctx 0x80310000)) 0x80310000) (stack_tf 0x80310000) start_tf.
Definition start_x86 : x86 := X86 (λ r, match r with ESP => 0x1000 | _ => 1 end) (λ _, 16) 0 0 start_mem.

Lemma start_ready : stack_ready 0x80106000 0x80103900 (x_mem start_x86) 0x80310000 start_tf.
Proof. apply new_stack_ready; [done | done |]. split; repeat constructor; done. Qed.

Lemma start_args : new_arg start_x86 = stack_ctx 0x80310000 ∧ old_arg start_x86 = 0x2000.
Proof. split; vm_compute; reflexivity. Qed.

Lemma start_switch : can_switch start_x86.
Proof.
  destruct start_args as [Hn Ho]. split.
  - split; [intros []; by vm_compute | intros []; by vm_compute |].
    apply store_words_wf. unfold new_stack. apply store32_wf, memset_wf; [|by vm_compute]. by do 4 apply store32_wf.
  - by vm_compute.
  - rewrite Hn. by vm_compute.
  - rewrite Ho. right. by vm_compute.
  - rewrite Hn, Ho. split; right; by vm_compute.
Qed.

Lemma new_process_starts_witness :
  ∃ c1, run no_call user_task (λ _, Gate true false 0 8 0) swtch start_x86 = Ok () c1 ∧ eip c1 = 0x80103900 ∧ gpr c1 ESP = 0x80310fb0.
Proof.
  destruct start_args as [Hn Ho].
  destruct (new_process_starts no_call user_task (λ _, Gate true false 0 8 0) 0x80106000 0x80103900 start_x86 0x80310000 start_tf
    start_switch ltac:(by vm_compute) Hn ltac:(by vm_compute) ltac:(by vm_compute) ltac:(right; by vm_compute) ltac:(rewrite Ho; right; by vm_compute) start_ready)
    as (c1 & E & Hip & Hsp & _).
  exists c1. split; [exact E|]. split; [exact Hip | exact Hsp].
Defined.
End example.
