(* ===== verification/LifeInit.v ===== *)
(** * The life of a process: the first one

    [userinit] makes the first process: initcode in the one page of its
    memory, a stack that starts it, the root as its directory. It begins the
    life of processes in which [fork], [wait] and [exit] keep the
    invariant. *)
From stdpp Require Import functions.
From S2P Require Import Prelude Machine CString Spin Kalloc Proc Signal Bio Log LogOps.
From S2P Require Import Vm VmSpec VmUser VmSpace VmCopy VmMain.
From S2P Require Import FsBlock FsInode FsDinode FsFile FsData FsStore FsCrash FsTrunc FsCache FsPath FsDir File FsTxn PipeTable SysFile SysFileSpec Examples.
From S2P Require Import Exec Asm AsmSwitch Life LifeSpec LifeFork.
Import KString.

Section userinit.
Context {K : Type} `{PageAlloc K}.
Context {S : Type} `{Transactions S}.
Context {P : Type} `{PipeLayer P}.
Variable sb : superblock.
Variable dev_read : Z → option (nat → Z → M (@fsys S) (Z * list Z)).
Variables data trapret forkret initcode_start initcode_size : Z.
Variable name0 : list Z.
Notation lst := (K * @sysst S P)%type.

(** ** inituvm *)

(** The page [a] with the bytes of initcode is mapped at 0. *)
Record loaded (m m' : mem) (R R' : Z → role) (d a init sz : Z) : Prop := {
  ld_free : R a = Free;
  ld_frame : R' a = Frame d 0;
  ld_takes : takes d R R';
  ld_entry d' v : R d' = Dir → 0 ≤ v < VPAGES → entry m' d' v = if decide (d' = d ∧ v = 0) then V2P a + 7 else entry m d' v;
  ld_bytes x : 0 ≤ x < 4096 → m' (a + x) = if decide (x < sz) then m (init + x) else 0;
  ld_data : same_data m m' R
}.

(** No page is left: the address space took them all. *)
Lemma ran_out d R0 R (sx : K) Rx y : grows d (<[d := Dir]> R0) R → vm_ok sx Rx → grows d R Rx ∨ grows d (<[y := Other]> R) Rx →
  (∀ p, Rx p ≠ Free) → few_free R0 1026.
Proof.
  intros Hg Hx Hgx Hno. apply (exhausted_bound R0 d 0 0). exists sx, Rx, d, y. split; [done|]. intros p Hp.
  destruct (decide (p = d)) as [->|Hpd]; [by left|]. destruct (decide (p = y)) as [->|Hpy]; [by right; left|]. right; right; left.
  destruct (Hg p) as [E|(_ & i & E)].
  - rewrite fn_lookup_insert_ne, Hp in E by done. destruct Hgx as [Hgx|Hgx]; destruct (Hgx p) as [E'|(_ & i & E')]; [|by exists i| |by exists i]; exfalso; apply (Hno p).
    + by rewrite E'.
    + by rewrite E', fn_lookup_insert_ne.
  - exists i. destruct Hgx as [Hgx|Hgx]; (eapply grows_role; [exact Hgx| |done]); [done|by rewrite fn_lookup_insert_ne].
Qed.

(** The page [a], zeroed in [m2], is mapped in [m3] and then filled. *)
Lemma loaded_ok m m2 m3 m4 R R3 d a init sz :
  R a = Free → R d = Dir → pa_page a → 0 ≤ sz < 4096 → (∀ x, 0 ≤ x < sz → plain (R (page_of (init + x)))) →
  (∀ x, m2 x = if decide (a ≤ x < a + 4096) then 0 else m x) → same_entries m m2 (<[a := Other]> R) →
  grows d (<[a := Other]> R) R3 → same_data m2 m3 (<[a := Other]> R) → mapped m2 m3 (<[a := Other]> R) d 0 1 (V2P a) (Z.lor PTE_W PTE_U) →
  (∀ x, m4 x = if decide (a ≤ x < a + sz) then m3 (init + (x - a)) else m3 x) → same_entries m3 m4 (<[a := Frame d 0]> R3) →
  loaded m m4 R (<[a := Frame d 0]> R3) d a init sz.
Proof.
  intros Hfa Hd Hpg Hsz Hpl Hm2 He2 Hg3 Hda3 Hmap Hm4 He4. set (R' := <[a := Frame d 0]> R3) in *.
  assert (∀ x, page_of x = a ↔ a ≤ x < a + 4096) as Hpage by (intros x; rewrite page_of_spec by done; done).
  assert (∀ q, q ≠ a → R q ≠ Free → R' q = R q) as Hkeep.
  { intros q Hq Hf. unfold R'. rewrite fn_lookup_insert_ne by done. eapply grows_role; [done| |done]. by rewrite fn_lookup_insert_ne. }
  assert (∀ x, plain (R (page_of x)) → page_of x ≠ a) as Hpa by (intros x Hx E; rewrite E, Hfa in Hx; done).
  assert (∀ x, plain (R (page_of x)) → m3 x = m x) as Hsame.
  { intros x Hx. pose proof (Hpa x Hx) as Hne. rewrite Hda3 by (by rewrite fn_lookup_insert_ne). rewrite Hm2, decide_False; [done|by rewrite <- Hpage]. }
  split; [done|unfold R'; apply fn_lookup_insert| | | |].
  - intros q. destruct (decide (q = a)) as [->|Hq]; [right; split; [done|right; exists 0; unfold R'; apply fn_lookup_insert]|].
    unfold R'. rewrite fn_lookup_insert_ne by done. destruct (Hg3 q) as [->|(Hf & i & Hi)]; rewrite fn_lookup_insert_ne in * by done; [by left|].
    right. split; [done|]. left. by exists i.
  - intros d' v Hd' Hv. rewrite He4 by (done || rewrite Hkeep; congruence). rewrite Hmap by (done || by rewrite fn_lookup_insert_ne by congruence).
    rewrite He2 by (done || by rewrite fn_lookup_insert_ne by congruence). change (Z.lor (Z.lor PTE_W PTE_U) PTE_P) with 7.
    destruct (decide (d' = d)) as [->|]; [|by rewrite !decide_False by tauto]. repeat case_decide; lia || done.
  - intros x Hx. rewrite Hm4. destruct (decide (x < sz)).
    + rewrite decide_True by lia. replace (a + x - a) with x by lia. apply Hsame, Hpl. lia.
    + rewrite decide_False by lia. rewrite Hda3 by (rewrite (proj2 (Hpage _)), fn_lookup_insert by lia; done).
      rewrite Hm2, decide_True by lia. done.
  - intros x Hx. rewrite Hm4, decide_False; [by apply Hsame|]. intros Hx'. apply (Hpa x Hx), Hpage. lia.
Qed.

Lemma inituvm_ok (s : K) R R0 d init sz :
  vm_ok s R → R d = Dir → grows d (<[d := Dir]> R0) R → present (entry (pa_mem s) d 0) = false → 0 ≤ sz < 4096 →
  (∀ x, 0 ≤ x < sz → plain (R (page_of (init + x)))) → ¬ few_free R0 1026 →
  ∃ s' R' a, inituvm d init sz s = Ok () s' ∧ vm_ok s' R' ∧ loaded (pa_mem s) (pa_mem s') R R' d a init sz.
Proof.
  intros Hvm Hd Hg Habs Hsz Hpl Hmany. unfold inituvm. rewrite (proj2 (Z.leb_gt _ _)) by (unfold PGSIZE; lia).
  destruct (vm_take s R Hvm) as [(s1 & Ha & Hvm1 & _ & Hno)|(a & s1 & Ha & Hfa & Hpg & Hvm1 & Hm1)].
  { exfalso. apply Hmany, (ran_out d R0 R s1 R 0); [done|done|left; apply grows_refl|done]. }
  rewrite (bind_ok _ _ _ _ _ Ha). assert (a ≠ d) as Had by congruence.
  pose proof (pt_wf s1 _ (proj1 Hvm1)) as Hwf1.
  assert (∀ x, page_of x = a ↔ a ≤ x < a + 4096) as Hpage by (intros x; rewrite page_of_spec by done; done).
  destruct (vm_store s1 (<[a := Other]> R) a (λ m, memset m a 0 PGSIZE)) as (s2 & E2 & Hvm2 & Hm2 & He2).
  { done. } { apply fn_lookup_insert. } { by apply memset_wf. } { intros x Hx. rewrite memset_byte, decide_False by (done || by rewrite <- Hpage). done. }
  rewrite (bind_ok _ _ _ _ _ E2). rewrite Hm1 in *.
  destruct (map_user_page s2 (<[a := Other]> R) d 0 a (Z.lor PTE_W PTE_U)) as (r & s3 & R3 & E3 & Hg3 & Hda3 & Hc); [done| |done|apply fn_lookup_insert|done|done| |].
  { by rewrite fn_lookup_insert_ne. } { rewrite He2; [done|by rewrite fn_lookup_insert_ne|by vm_compute]. }
  rewrite Z.mul_0_r in E3. rewrite (bind_ok _ _ _ _ _ E3).
  destruct Hc as [(_ & Hvm3 & Hmap)|(_ & Hvm3 & _ & Hno)]; [|exfalso; apply Hmany, (ran_out d R0 R s3 R3 a); [done|done|by right|done]].
  pose proof (pt_wf s3 _ (proj1 Hvm3)) as Hwf3. set (R' := <[a := Frame d 0]> R3) in *.
  assert (∀ x, memmove (pa_mem s3) a init sz x = if decide (a ≤ x < a + sz) then pa_mem s3 (init + (x - a)) else pa_mem s3 x) as Hmv
    by (intros x; by rewrite memmove_byte by (done || lia)).
  destruct (pt_write s3 R' a (λ m, memmove m a init sz)) as (s4 & E4 & Hok4 & Hm4 & He4); [apply Hvm3| | | |].
  { unfold R'. by rewrite fn_lookup_insert. } { intros x. simpl. rewrite Hmv. case_decide; apply Hwf3. }
  { intros x Hx. simpl. rewrite Hmv, decide_False; [done|]. intros Hx'. apply Hx, Hpage. lia. }
  exists s4, R', a. split; [exact E4|]. split; [split; [done|]; by eapply frames_ext, Hvm3|].
  apply (loaded_ok _ (pa_mem s2) (pa_mem s3)); try done.
  - intros x. rewrite Hm2. by rewrite memset_byte.
  - intros x. by rewrite Hm4, Hmv.
Qed.

(** ** The root directory *)

Lemma namei_root (x : @fsys S) : (∃ c ino, snd x !! c = Some ino ∧ i_ref ino = 0) →
  ∃ c i0 i, namei sb dev_read None [47] name0 x = Ok (Some c) (fst x, <[c := i]> (snd x)) ∧ snd x !! c = Some i0 ∧
    in_use ROOTDEV ROOTINO i = true ∧ i_ref i = i_ref i0 + 1.
Proof.
  destruct x as [fs ic]. intros (c0 & ino & Hc0 & Hz). simpl in Hc0.
  destruct (iget_run fs ic ROOTDEV ROOTINO) as [(c & i0 & i & E & Hi & Hu & Hc)|(_ & _ & Hfull)]; [|by destruct (Hfull c0 ino Hc0)].
  exists c, i0, i. split; [|split; [done|split; [done|]]].
  - unfold namei, namex. cbn [hd]. change (47 =? slash) with true. cbv iota. rewrite bind_assoc, (bind_ok _ _ _ _ _ E). done.
  - destruct Hc as [[_ ->]|(E0 & _ & ->)]; [done|]. rewrite E0. done.
Qed.

(** A directory for a process that had none. *)
Lemma inodes_cwd ps fl ic j (q q' : proc) c i0 i :
  inodes_ok ps fl ic → ps !! j = Some q → cwd q = None → cwd q' = Some c → ic !! c = Some i0 → i_ref i = i_ref i0 + 1 →
  inodes_ok (<[j := q']> ps) fl (<[c := i]> ic).
Proof.
  intros [A B] Hj Hq Hq' Hc Hi. split.
  - intros d ino Hd. rewrite (sumZ_insert _ _ j q) by done. unfold cwd_is at 2 3. rewrite Hq, Hq', decide_False by done.
    apply list_lookup_insert_Some in Hd as [(<- & <- & _)|[Hne Hd]].
    + rewrite decide_True, Hi, (A c i0 Hc) by done. lia.
    + rewrite decide_False, (A d ino Hd) by congruence. lia.
  - intros l r d Hl Hd. rewrite list_lookup_insert_is_Some.
    apply list_lookup_insert_Some in Hl as [(<- & <- & _)|[_ Hl]]; [|by eapply B]. rewrite Hq' in Hd. injection Hd as <-. by exists i0.
Qed.

(** ** userinit *)

Definition initcode_name : list Z := [105; 110; 105; 116; 99; 111; 100; 101].

(** The first process, in the slot of [q]. *)
Definition first_proc (q : proc) (n ks d : Z) (c : nat) : proc :=
  q <| Proc.sz := PGSIZE |> <| pgdir := d |> <| kstack := ks |> <| state := RUNNABLE |> <| pid := n |> <| tf := init_tf |>
    <| ctx := Context 0 0 0 0 forkret |> <| cwd := Some c |> <| name := set_name (name q) initcode_name 16 |>
    <| psignals := 0 |> <| sigmask := 0 |> <| sig_handlers := reset_handlers |>.

(** Its pages: [ks] is the stack, [d] the directory, [a] the memory. *)
Record started (m m' : mem) (R R' : Z → role) (ks d a : Z) : Prop := {
  sd_page : pa_page ks;
  sd_stack : R ks = Free ∧ R' ks = Other ∧ stack_ready trapret forkret m' ks init_tf;
  sd_dir : R d = Free ∧ R' d = Dir ∧ ks ≠ d;
  sd_frame : R a = Free ∧ R' a = Frame d 0;
  sd_code x : 0 ≤ x < 4096 → m' (a + x) = if decide (x < initcode_size) then m (initcode_start + x) else 0;
  sd_entry v : 0 ≤ v < VPAGES → entry m' d v = if decide (v = 0) then V2P a + 7 else kernel_pte data v;
  sd_keep b : R b ≠ Free → R' b = R b;
  sd_taken b : R b = Free → b ≠ ks → b ≠ d → R' b ≠ Other ∧ R' b ≠ Dir;
  sd_entries : same_entries m m' R
}.

Lemma kernel_pte_0 : data_ok data → kernel_pte data 0 = 0.
Proof. intros [_ Hd]. unfold KERNLINK, KERNBASE, EXTMEM in Hd. unfold kernel_pte. repeat case_decide; done || zmod. Qed.

Lemma init_tf_ok : tf_ok init_tf.
Proof. split; repeat constructor; done. Qed.

Lemma started_ok (s s1 s2 s3 s4 : K) R R2 R3 ks d a :
  word trapret → word forkret → 0 ≤ initcode_size → vm_ok s3 R3 →
  (∀ x, 0 ≤ x < initcode_size → plain (R (page_of (initcode_start + x)))) →
  R ks = Free → pa_page ks → pa_mem s1 = new_stack trapret forkret (pa_mem s) ks → same_entries (pa_mem s) (pa_mem s1) R →
  same_data (pa_mem s1) (pa_mem s2) (<[ks := Other]> R) → same_entries (pa_mem s1) (pa_mem s2) (<[ks := Other]> R) →
  <[ks := Other]> R d = Free → grows d (<[d := Dir]> (<[ks := Other]> R)) R2 →
  (∀ v, 0 ≤ v < VPAGES → entry (pa_mem s2) d v = kernel_pte data v) →
  loaded (pa_mem s2) (pa_mem s3) R2 R3 d a initcode_start initcode_size →
  pa_mem s4 = store_tf (pa_mem s3) (stack_tf ks) init_tf → same_entries (pa_mem s3) (pa_mem s4) R3 →
  started (pa_mem s) (pa_mem s4) R R3 ks d a.
Proof.
  intros Htr Hfr Hsz Hvm3 Hcode Hks Hpg Hm1 He1 Hda2 He2 Hd Hg2 Hk2 [Hfa Hfa3 Htk Hen Hby Hda3] Hm4 He4.
  assert (ks ≠ d) as Hkd by (intros ->; rewrite fn_lookup_insert in Hd; done). rewrite fn_lookup_insert_ne in Hd by done.
  assert (∀ b, R b ≠ Free → R2 b = R b) as Hkeep2.
  { intros b Hb. eapply grows_role; [done| |done]. rewrite !fn_lookup_insert_ne by congruence. done. }
  assert (∀ b, R b ≠ Free → R3 b = R b) as Hkeep by (intros b Hb; eapply takes_role; [done|by apply Hkeep2|done]).
  assert (R2 ks = Other) as Hk2s by (eapply grows_role; [done| |done]; rewrite fn_lookup_insert_ne, fn_lookup_insert by congruence; done).
  assert (R2 d = Dir) as Hd2 by (eapply grows_role; [done|apply fn_lookup_insert|done]).
  assert (R3 ks = Other) as Hk3 by (by eapply takes_role). assert (R3 d = Dir) as Hd3 by (by eapply takes_role).
  assert (R a = Free) as Ha by (destruct (decide (R a = Free)) as [|Hn]; [done|]; rewrite Hkeep2 in Hfa by done; done).
  assert (pa_page a) as Hpa by (eapply (pt_page s3 R3 (proj1 Hvm3)); congruence).
  assert (∀ b, page_of b ≠ ks → pa_mem s4 b = pa_mem s3 b) as Hout4 by (intros b Hb; rewrite Hm4; by apply store_tf_elsewhere).
  split; [done| |done|done| | |done| |].
  - split; [done|]. split; [done|]. eapply stack_ready_ext; [|by apply (new_stack_ready trapret forkret (pa_mem s) ks), init_tf_ok].
    intros x Hx. rewrite Hm4. apply store_words_ext. intros _. rewrite <- Hm1. symmetry.
    assert (page_of x = ks) as Ex by (apply page_of_spec; [done|]; unfold in_page, PGSIZE; lia).
    rewrite Hda3 by (by rewrite Ex, Hk2s). apply Hda2. by rewrite Ex, fn_lookup_insert.
  - intros x Hx. rewrite Hout4, Hby by (done || rewrite (proj2 (page_of_spec _ _ Hpa)) by (unfold in_page, PGSIZE; lia); congruence).
    case_decide as Hlt; [|done]. specialize (Hcode x ltac:(lia)).
    assert (page_of (initcode_start + x) ≠ ks) as Hne by (intros E; rewrite E, Hks in Hcode; done).
    rewrite Hda2 by (by rewrite fn_lookup_insert_ne). rewrite Hm1. by apply new_stack_elsewhere.
  - intros v Hv. rewrite He4, Hen by done. destruct (decide (v = 0)); [by rewrite decide_True|]. rewrite decide_False by tauto. by apply Hk2.
  - intros b Hb Hne Hne'. destruct (Htk b) as [E|(_ & [[? E]|[? E]])]; rewrite E; [|done..].
    destruct (Hg2 b) as [E2|(_ & ? & E2)]; rewrite E2; [|done]. rewrite !fn_lookup_insert_ne by done. by rewrite Hb.
  - intros d' v Hd' Hv. assert (d' ≠ ks) by congruence. assert (d' ≠ d) by congruence.
    rewrite He4, Hen, decide_False, He2, He1; [done|done|done|by rewrite fn_lookup_insert_ne|done|tauto|rewrite Hkeep2; congruence|done|rewrite Hkeep; congruence|done].
Qed.

Definition with_init (k : kst) (j : nat) : kst := (took_pid k) <| initproc := Some j |>.

Section run.
Variables (s : K) (k : kst) (f : @kfs S P) (R : Z → role).
Hypothesis Hvm : vm_ok s R.
Hypothesis Hdata : data_ok data.
Hypothesis Hwords : word trapret ∧ word forkret.
Hypothesis Hsize : 0 ≤ initcode_size < 4096.
Hypothesis Hcode : ∀ x, 0 ≤ x < initcode_size → plain (R (page_of (initcode_start + x))).
Hypothesis Hmany : ¬ few_free R 1027.
Hypothesis Hslot : ∃ j q, procs k !! j = Some q ∧ state q = UNUSED.
Hypothesis Hinode : ∃ c ino, snd (k_fs f) !! c = Some ino ∧ i_ref ino = 0.

Lemma userinit_run : ∃ s' R' j q ks d a c i0 i, procs k !! j = Some q ∧ state q = UNUSED ∧
  userinit sb dev_read data trapret forkret initcode_start initcode_size name0 (s, Sysst k f) =
    Ok () (s', Sysst (with_proc (with_init k j) j (first_proc q (nextpid k) ks d c)) (Kfs (fst (k_fs f), <[c := i]> (snd (k_fs f))) (k_files f) (k_pipes f))) ∧
  vm_ok s' R' ∧ started (pa_mem s) (pa_mem s') R R' ks d a ∧
  snd (k_fs f) !! c = Some i0 ∧ in_use ROOTDEV ROOTINO i = true ∧ i_ref i = i_ref i0 + 1.
Proof.
  unfold userinit. destruct (allocproc_ok trapret forkret s k f R Hvm) as [[_ Hno]|(j & q & Hj & Hq & [(s1 & _ & _ & _ & Hnf)|(s1 & ks & t & E & Hks & Hpg & Hvm1 & Hm1 & He1)])].
  { destruct Hslot as (j & q & Hj & Hq). exfalso. destruct (Hno j q Hj). by rewrite Hq. }
  { exfalso. apply Hmany, few_free_none; [done|lia]. }
  rewrite (bind_ok _ _ _ _ _ E). pose proof (lookup_lt_Some _ _ _ Hj) as Hlt.
  assert (j < length (procs (with_init k j)))%nat as Hlt' by exact Hlt.
  assert (∀ y (w : () → M lst ()), (ont (modify (λ k, k <| initproc := Some j |>)) ≫= w) (s1, Sysst (with_proc (took_pid k) j y) f) =
    w () (s1, Sysst (with_proc (with_init k j) j y) f)) as Ei by done.
  rewrite Ei. clear Ei.
  assert (¬ few_free (<[ks := Other]> R) 1026) as Hmany1 by (intros Hfew; apply Hmany; by apply (few_free_take R ks 0)).
  destruct (setupkvm_ok s1 (<[ks := Other]> R) data Hvm1 Hdata) as (d & s2 & R2 & E2 & Hvm2 & Hda2 & He2 & Hc).
  rewrite (bind_ok _ _ _ _ _ (onp_ok _ _ _ _ _ E2)), run_upd by done.
  destruct Hc as [(Hd0 & Hfd & Hg2 & Hk2)|(_ & _ & d' & Hex)]; [|exfalso; apply Hmany1; by apply (exhausted_bound _ d' 0 0)].
  rewrite Hd0. destruct Hwords as [Hw1 Hw2].
  assert (ks ≠ d) as Hkd by (intros ->; rewrite fn_lookup_insert in Hfd; done).
  assert (R2 d = Dir) as Hd2 by (eapply grows_role; [done|apply fn_lookup_insert|done]).
  assert (R2 ks = Other) as Hk2s by (eapply grows_role; [done| |done]; rewrite fn_lookup_insert_ne, fn_lookup_insert by congruence; done).
  destruct (inituvm_ok s2 R2 (<[ks := Other]> R) d initcode_start initcode_size Hvm2 Hd2 Hg2) as (s3 & R3 & a & E3 & Hvm3 & Hld); [|done| |done|].
  { rewrite Hk2 by done. by rewrite kernel_pte_0. }
  { intros x Hx. pose proof (Hcode x Hx) as Hp. assert (R (page_of (initcode_start + x)) ≠ Free) as Hn by (intros E'; by rewrite E' in Hp).
    rewrite (grows_role _ _ _ _ (R (page_of (initcode_start + x))) Hg2); [done| |done]. rewrite !fn_lookup_insert_ne; [done|congruence|].
    intros Ed. apply Hn. rewrite <- Ed. by rewrite fn_lookup_insert_ne in Hfd. }
  rewrite (bind_ok _ _ _ _ _ (onp_ok _ _ _ _ _ E3)), run_upd by done.
  set (q1 := _ <| Proc.sz := PGSIZE |>). assert (kstack q1 = ks) as Ek by exact eq_refl.
  assert (R3 ks = Other) as Hk3 by (by eapply takes_role; [apply (ld_takes _ _ _ _ _ _ _ _ Hld)|..]).
  destruct (set_tf_ok (with_init k j) j s3 f R3 q1 init_tf Hlt' Hvm3) as (s4 & E4 & Hvm4 & Hm4 & He4); [by rewrite Ek|by rewrite Ek|].
  rewrite (bind_ok _ _ _ _ _ E4), run_upd by done. rewrite Ek in Hm4.
  destruct (namei_root (k_fs f) Hinode) as (c & i0 & i & En & Hi0 & Hu & Hi).
  rewrite (bind_ok _ _ _ _ _ (onin_ok _ _ _ _ _ _ En)).
  exists s4, R3, j, q, ks, d, a, c, i0, i. split; [done|]. split; [done|]. split; [|split; [exact Hvm4|split; [|done]]].
  - rewrite (ont_ok _ s4 _ _ _ _ (upd_with (with_init k j) j Hlt' _ _)). reflexivity.
  - exact (started_ok s s1 s2 s3 s4 R R2 R3 ks d a Hw1 Hw2 (proj1 Hsize) Hvm3 Hcode Hks Hpg Hm1 He1 Hda2 He2 Hfd Hg2 Hk2 Hld Hm4 He4).
Qed.

(** C7: [userinit] makes the first process. With an unused slot, a free entry
    of the inode cache and more than 1027 free pages, it returns, and
    [initproc] is a runnable process in a slot that was unused: its memory is
    one page with the bytes of initcode and zeros after them, mapped writable
    at 0, in an address space whose kernel part is that of [kmap]; its stack
    is prepared so that it starts at address 0 in user mode with the stack
    pointer at 4096; its directory is the root, with one more reference. The
    invariant that [fork], [wait] and [exit] keep holds: every page, file and
    reference has its owner. *)
Theorem userinit_correct (X : Z → Prop) : life_ok X (s, Sysst k f) R → nextpid k < 2147483647 →
  ∃ s' R' j q ks d a c i0 i, procs k !! j = Some q ∧ state q = UNUSED ∧
    userinit sb dev_read data trapret forkret initcode_start initcode_size name0 (s, Sysst k f) = Ok () s' ∧
    snd s' = Sysst (with_proc (with_init k j) j (first_proc q (nextpid k) ks d c)) (Kfs (fst (k_fs f), <[c := i]> (snd (k_fs f))) (k_files f) (k_pipes f)) ∧
    life_ok X s' R' ∧ started (pa_mem s) (pa_mem (fst s')) R R' ks d a ∧
    snd (k_fs f) !! c = Some i0 ∧ in_use ROOTDEV ROOTINO i = true ∧ i_ref i = i_ref i0 + 1.
Proof.
  intros Hlf Hpid. destruct userinit_run as (s' & R' & j & q & ks & d & a & c & i0 & i & Hj & Hq & E & Hvm' & Hst & Hi0 & Hu & Hi).
  eexists (s', _), R', j, q, ks, d, a, c, i0, i. split; [done|]. split; [done|]. split; [exact E|]. split; [reflexivity|]. split; [|done].
  pose proof Hlf as [A B C D I F G]. pose proof Hst as [Hpg (Hk & Hk' & _) (Hd & Hd' & _) (_ & Ha') _ Hen Hkeep Htk He].
  assert (closed q) as Hcl by (eapply F; [exact Hj|by rewrite Hq]). split.
  - exact Hvm'.
  - eapply (owned_add X _ R); [exact B|exact Hj|exact Hq|done|exact Hpg|exact Hk|exact Hk'|exact Hd|exact Hd'|exact Hkeep|exact Htk].
  - eapply mapped_insert; [exact (live_dirs X s k f R Hlf)|exact C|exact He|]. intros _. split; [by vm_compute|]. intros v Hv.
    change (sz (first_proc q (nextpid k) ks d c)) with 4096 in Hv. change (pages_up 4096) with 1 in Hv.
    change (present (entry (pa_mem s') d v) = true). replace v with 0 by lia. rewrite Hen, decide_True by done.
    rewrite present_page; [done|]. eapply (pt_page s' R' (proj1 Hvm')). congruence.
  - eapply refs_same; [exact D|exact Hj|reflexivity].
  - eapply inodes_cwd; [exact I|exact Hj|apply Hcl|reflexivity|exact Hi0|exact Hi].
  - apply slots_insert; [exact F|by apply (F j q)|by intros []].
  - change (nextpid (sy_k _)) with (nextpid (took_pid k)). rewrite (took_small X s k f R Hlf Hpid). by apply pids_insert.
Qed.
End run.
End userinit.

(** ** Example *)

(** The machine at boot: no process, 1100 free pages, an empty inode cache. *)
Section example.
#[local] Instance boot_alloc : PageAlloc ((mach * spinlock) * kmem) := kmem_alloc 0x80200000 ex_above.
#[local] Instance boot_blocks : BlockStore (log * bio) := op_store 2 30.
#[local] Instance boot_ops : Transactions (log * bio) := op_transactions 2 30.

Definition free_pages : list Z := (λ i, 0x80400000 + 4096 * Z.of_nat i) <$> seq 0 1100.

Lemma free_pages_spec a : a ∈ free_pages → a mod 4096 = 0 ∧ 0x80400000 ≤ a < 0x80900000.
Proof. unfold free_pages. rewrite list_elem_of_fmap. intros (i & -> & Hi%elem_of_seq). zmod. Qed.

Lemma free_pages_nodup : NoDup free_pages.
Proof. apply NoDup_fmap_2_strong; [|apply NoDup_seq]. intros i j _ _ E. lia. Qed.

Lemma free_each l : ∀ (s : (mach * spinlock) * kmem) l0, pa_inv s l0 → Forall pa_page l → NoDup l → (∀ p, p ∈ l → p ∉ l0) →
  ∃ s', for_each l pa_kfree s = Ok () s' ∧ pa_inv s' (rev l ++ l0).
Proof.
  induction l as [|p l IH]; intros s l0 Hs Hl Hn Hd; [by exists s|]. apply Forall_cons in Hl as [Hp Hl]. apply NoDup_cons in Hn as [Hpn Hn].
  destruct (pa_kfree_ok s l0 p Hs Hp ltac:(apply Hd; left)) as (s1 & E1 & Hs1 & _).
  destruct (IH s1 (p :: l0) Hs1 Hl Hn) as (s2 & E2 & Hs2).
  { intros q Hq. rewrite elem_of_cons. intros [->|Hq']; [done|]. eapply Hd; [by right|done]. }
  exists s2. simpl. rewrite (bind_ok _ _ _ _ _ E1). split; [done|]. by rewrite <- app_assoc.
Qed.

Definition boot_empty : (mach * spinlock) * kmem := (lock_example, Kmem true 0 (λ _, 0)).
Definition boot_pages : (mach * spinlock) * kmem :=
  match for_each free_pages pa_kfree boot_empty with Ok _ s => s | _ => boot_empty end.

Lemma boot_free : pa_inv boot_pages (rev free_pages).
Proof.
  destruct (free_each free_pages boot_empty []) as (s' & E & Hs); [| | apply free_pages_nodup | by intros p _ ?%elem_of_nil |].
  - split; [|intros _; apply lock_example_ready]. split_and!; simpl; [by intros a; lia|done|constructor|constructor].
  - apply Forall_forall. intros p Hp%free_pages_spec. split; [apply Hp|]. unfold KERNBASE, PHYSTOP. lia.
  - unfold boot_pages. rewrite E. by rewrite app_nil_r in Hs.
Qed.

Definition boot_roles (a : Z) : role := if decide (a ∈ free_pages) then Free else Other.

Lemma boot_role a r : boot_roles a = r → r ≠ Other → a ∈ free_pages ∧ r = Free.
Proof. unfold boot_roles. intros <-. by case_decide. Qed.

Lemma boot_vm : vm_ok boot_pages boot_roles.
Proof.
  assert (∀ a r, boot_roles a = r → r ≠ Other → r = Free) as Hr by (intros a r E Hn; by eapply boot_role).
  split; split.
  - exists (rev free_pages). split; [apply boot_free|]. intros p. rewrite list_elem_of_In, <- in_rev, <- list_elem_of_In. unfold boot_roles. by case_decide.
  - intros p Hp. destruct (boot_role p (boot_roles p)) as [Hin _]; [done|done|]. apply free_pages_spec in Hin.
    split; [apply Hin|]. unfold KERNBASE, PHYSTOP. lia.
  - intros d i Hd. discriminate (Hr _ _ Hd ltac:(discriminate)).
  - intros t d i Ht. discriminate (Hr _ _ Ht ltac:(discriminate)).
  - intros d v Hd. discriminate (Hr _ _ Hd ltac:(discriminate)).
  - intros p d v Hp. discriminate (Hr _ _ Hp ltac:(discriminate)).
Qed.

Definition boot_k : kst := Kst (replicate 64 proc0) None 1 None (λ _, 0).
Definition boot_f : @kfs (log * bio) pipes := Kfs (ex_idle, [ex_rest <| i_ref := 0 |>]) [] [].

Lemma no_fds n x : fd_refs (replicate n proc0) x = 0.
Proof. induction n as [|n IH]; [done|]. simpl. by rewrite IH. Qed.

Lemma boot_life : life_ok (λ a, boot_roles a = Other) (boot_pages, Sysst boot_k boot_f) boot_roles.
Proof.
  assert (∀ j p, procs boot_k !! j = Some p → p = proc0) as Hp by (intros j p Hj; by apply lookup_replicate in Hj as [-> _]).
  assert (∀ j p, procs boot_k !! j = Some p → live p → False) as Hl by (intros j p Hj%Hp; by subst p).
  split.
  - exact boot_vm.
  - split; try (intros j p Hj Lp; destruct (Hl j p Hj Lp)); try (intros i j p q Hi _ Lp; destruct (Hl i p Hi Lp)).
    + intros a _ Ha. by left.
    + intros d Hd. by apply boot_role in Hd as [_ ?].
    + intros a Ha. by left.
  - intros j p Hj Lp. destruct (Hl j p Hj Lp).
  - split; [by intros x y Hx|]. intros x Hx. exfalso. change (0 < fd_refs (replicate 64 proc0) x + none x) in Hx. rewrite no_fds in Hx. unfold none in Hx. lia.
  - split; [intros [|c] ino [= <-]; reflexivity|]. intros j p c Hj Hc. apply Hp in Hj as ->. done.
  - intros j p Hj. apply Hp in Hj as ->. done.
  - split; [done|]. split; [intros j p Hj Lp; destruct (Hl j p Hj Lp)|]. intros i j p q Hi _ Lp. destruct (Hl i p Hi Lp).
Qed.

(** initcode is 44 bytes long. *)
Lemma userinit_correct_witness : ∃ s' R' j ks d a c, userinit ex_sb (λ _, None) 0x80108000 0x80106000 0x80103900 0x8010b460 44 [] (boot_pages, Sysst boot_k boot_f) = Ok () s' ∧
  life_ok (λ a, boot_roles a = Other) s' R' ∧ procs (sy_k (snd s')) !! j = Some (first_proc 0x80103900 proc0 1 ks d c) ∧ R' a = Frame d 0.
Proof.
  destruct (userinit_correct ex_sb (λ _, None) 0x80108000 0x80106000 0x80103900 0x8010b460 44 [] boot_pages boot_k boot_f boot_roles)
    with (X := λ a, boot_roles a = Other) as (s' & R' & j & q & ks & d & a & c & i0 & i & Hj & Hq & E & Es & Hlf & Hst & _).
  - exact boot_vm.
  - exact ex_data_ok.
  - done.
  - lia.
  - intros x Hx. unfold boot_roles. rewrite decide_False; [done|]. intros Hin%free_pages_spec.
    unfold page_of, PGSIZE in Hin. zmod.
  - intros Hf. specialize (Hf free_pages free_pages_nodup).
    assert (length free_pages = 1100%nat) as Hlen by (unfold free_pages; by rewrite length_fmap, length_seq). rewrite Hlen in Hf.
    assert (Z.of_nat 1100 ≤ 1027); [|lia]. apply Hf. intros p Hp. unfold boot_roles. by rewrite decide_True.
  - by exists 0%nat, proc0.
  - by exists 0%nat, (ex_rest <| i_ref := 0 |>).
  - exact boot_life.
  - done.
  - exists s', R', j, ks, d, a, c. split; [exact E|]. split; [exact Hlf|]. apply lookup_replicate in Hj as Hp. destruct Hp as [-> _].
    rewrite Es. split; [|apply Hst]. simpl. apply list_lookup_insert_eq. by eapply lookup_lt_Some.
Defined.
End example.
