(* ===== verification/Mkfs.v ===== *)
(** * Making a disk image (mkfs.c)

    The host program that writes the first disk: the superblock, an empty
    log, the inodes, a root directory with the files of the command line, and
    the bitmap. The image is the file [fs.img], a function from sectors to
    blocks with its length in sectors; reading beyond the end makes the
    program exit, which is [Panic] here, as is a failed [assert]. Integers
    in the image are little-endian ([xshort], [xint]), which is how blocks
    are read and written everywhere in this development. The files of the
    command line exist and can be opened. *)
From S2P Require Import Prelude Machine CString Bio FsBlock FsInode FsPath FsDir.

Definition NINODES : Z := 200.

Definition nbitmap : Z := FSSIZE / (BSIZE * 8) + 1.
Definition ninodeblocks : Z := NINODES / IPB + 1.
Definition nlog : Z := LOGSIZE.
Definition nmeta : Z := 2 + nlog + ninodeblocks + nbitmap.
Definition nblocks : Z := FSSIZE - nmeta.

(** The assignments to [sb]. *)
Definition mk_sb : superblock :=
  Superblock FSSIZE nblocks NINODES nlog 2 (2 + nlog) (2 + nlog + ninodeblocks).

Record mkst := Mkst { mk_img : Z → block; mk_end : Z; freeinode : Z; freeblock : Z }.
#[export] Instance eta_mkst : Settable mkst := λ s, Mkst (mk_img s) (mk_end s) (freeinode s) (freeblock s).

Definition wsect (sec : Z) (buf : block) : M mkst () :=
  modify (λ s, s <| mk_img := λ x, if x =? sec then buf else mk_img s x |> <| mk_end := Z.max (mk_end s) (sec + 1) |>).

Definition rsect (sec : Z) : M mkst block :=
  s ← get;
  if sec <? mk_end s then mret (mk_img s sec) else panic "read".

(** An inode as [struct dinode] has it; the fields of the cache are unused. *)
Definition din0 (inum : Z) : inode := Inode ROOTDEV inum 0 false false 0 0 0 0 0 (replicate 13 0).

(** [din] has the number [inum]. *)
Definition winode (inum : Z) (din : inode) : M mkst () :=
  let bn := IBLOCK inum mk_sb in
  buf ← rsect bn;
  wsect bn (put_dinode din buf).

Definition rinode (inum : Z) : M mkst inode :=
  buf ← rsect (IBLOCK inum mk_sb);
  mret (get_dinode buf (din0 inum)).

Definition mk_ialloc (type : Z) : M mkst Z :=
  inum ← gets freeinode;
  modify (λ s, s <| freeinode := u32 (inum + 1) |>);;
  winode inum ((din0 inum) <| i_type := type |> <| i_nlink := 1 |> <| i_size := 0 |>);;
  mret inum.

(** The bits set by [balloc(used)]. *)
Fixpoint bitmap_loop (fuel : nat) (i used : Z) (buf : block) : block :=
  match fuel with
  | O => buf
  | S fuel' =>
      if i <? used then bitmap_loop fuel' (i + 1) used (store8 buf (i / 8) (Z.lor (buf (i / 8)) (Z.shiftl 1 (i mod 8))))
      else buf
  end.

Definition mk_balloc (used : Z) : M mkst () :=
  if negb (used <? BSIZE * 8) then panic "assert"
  else wsect (sb_bmapstart mk_sb) (bitmap_loop (Z.to_nat used) 0 used (λ _, 0)).

(** [freeblock++] *)
Definition new_block : M mkst Z :=
  b ← gets freeblock;
  modify (λ s, s <| freeblock := u32 (b + 1) |>);;
  mret b.

(** The block of [din] with number [fbn], allocated if need be. *)
Definition mk_bmap (din : inode) (fbn : Z) : M mkst (inode * Z) :=
  if fbn <? NDIRECT then
    din ← (if nth (Z.to_nat fbn) (i_addrs din) 0 =? 0 then
             b ← new_block; mret (din <| i_addrs := <[Z.to_nat fbn := b]> (i_addrs din) |>)
           else mret din);
    mret (din, nth (Z.to_nat fbn) (i_addrs din) 0)
  else
    din ← (if nth 12 (i_addrs din) 0 =? 0 then
             b ← new_block; mret (din <| i_addrs := <[12%nat := b]> (i_addrs din) |>)
           else mret din);
    indirect ← rsect (nth 12 (i_addrs din) 0);
    if load32 indirect (4 * (fbn - NDIRECT)) =? 0 then
      b ← new_block;
      wsect (nth 12 (i_addrs din) 0) (store32 indirect (4 * (fbn - NDIRECT)) b);;
      mret (din, b)
    else mret (din, load32 indirect (4 * (fbn - NDIRECT))).

(** The loop of [iappend]: the inode and the offset after it. *)
Fixpoint iappend_loop (fuel : nat) (din : inode) (off : Z) (p : list Z) : M mkst (inode * Z) :=
  match fuel with
  | O => hang
  | S fuel' =>
      let n := Z.of_nat (length p) in
      if negb (0 <? n) then mret (din, off)
      else
        let fbn := off / BSIZE in
        if negb (fbn <? MAXFILE) then panic "assert"
        else
          r ← mk_bmap din fbn;
          let n1 := Z.min n ((fbn + 1) * BSIZE - off) in
          buf ← rsect (snd r);
          wsect (snd r) (put_bytes buf (off - fbn * BSIZE) (take (Z.to_nat n1) p));;
          iappend_loop fuel' (fst r) (off + n1) (drop (Z.to_nat n1) p)
  end.

Definition iappend (inum : Z) (p : list Z) : M mkst () :=
  din ← rinode inum;
  r ← iappend_loop (S (length p)) din (i_size din) p;
  winode inum ((fst r) <| i_size := snd r |>).

(** A file of the command line, with what the calls of [read] return. *)
Definition host_file : Type := list Z * list (list Z).

(** [if(argv[i][0] == '_') ++argv[i];] *)
Definition base_name (arg : list Z) : list Z := if hd 0 arg =? 95 then tl arg else arg.

Definition add_file (rootino : Z) (f : host_file) : M mkst () :=
  if existsb (λ c, c =? slash) (fst f) then panic "assert"
  else
    inum ← mk_ialloc T_FILE;
    iappend rootino (mk_dirent inum (base_name (fst f)));;
    for_each (snd f) (λ buf, iappend inum buf).

(** The superblock in its block. *)
Definition sb_block : block :=
  store_addrs (λ _, 0) 0
    [sb_size mk_sb; sb_nblocks mk_sb; sb_ninodes mk_sb; sb_nlog mk_sb; sb_logstart mk_sb; sb_inodestart mk_sb; sb_bmapstart mk_sb].

(** [main]; the file is empty at first. *)
Definition mkfs (files : list host_file) : M mkst () :=
  modify (λ s, s <| mk_end := 0 |> <| freeinode := 1 |> <| freeblock := nmeta |>);;
  for_each (seqZ 0 FSSIZE) (λ i, wsect i (λ _, 0));;
  wsect 1 sb_block;;
  rootino ← mk_ialloc T_DIR;
  if negb (rootino =? ROOTINO) then panic "assert"
  else
    iappend rootino (mk_dirent rootino [46]);;
    iappend rootino (mk_dirent rootino [46; 46]);;
    for_each files (add_file rootino);;
    din ← rinode rootino;
    winode rootino (din <| i_size := u32 ((i_size din / BSIZE + 1) * BSIZE) |>);;
    used ← gets freeblock;
    mk_balloc used.
