(* ===== verification/MkfsSpec.v ===== *)
(** * mkfs: appending to files

    The image under construction: blocks are handed out in order, a file has
    exactly the blocks its size needs, and reads as the bytes appended to it. *)
From stdpp Require Import functions.
From S2P Require Import Prelude Machine CString Bio FsBlock FsInode FsDinode FsFile FsData FsPath FsDir Mkfs.
Import KString.

(** Blocks for a file of [n] bytes, the indirect block included. *)
Definition cost (n : Z) : Z := (n + 511) / 512 + (if 6144 <? n then 1 else 0).

Lemma cost_mono a b : a ≤ b → cost a ≤ cost b.
Proof. intros. unfold cost. destruct (Z.ltb_spec 6144 a), (Z.ltb_spec 6144 b); zmod. Qed.

(** Appending within a block costs what its first byte does. *)
Lemma cost_block off o : 0 ≤ off < o → o ≤ (off / 512 + 1) * 512 → cost o = cost (off + 1).
Proof. intros H1 H2. unfold cost. destruct (Z.ltb_spec 6144 o), (Z.ltb_spec 6144 (off + 1)); zmod. Qed.

Implicit Types (v : Z → block) (O : Z → brole).

(** ** The bytes of a file *)

(** File [inum] with addresses [addrs] reads as [bs], followed by zeros, and
    has no more blocks than that takes. *)
Record content v O (inum : Z) (addrs bs : list Z) : Prop := {
  ct_owns : fowns v O inum addrs;
  ct_word k : 0 ≤ nth k addrs 0 < 4294967296;
  ct_len : Z.of_nat (length bs) ≤ MAXFILE * BSIZE;
  ct_block bn : 0 ≤ bn < MAXFILE → fblock v addrs bn ≠ 0 ↔ bn * 512 < Z.of_nat (length bs);
  ct_ind : ind_of addrs ≠ 0 ↔ 6144 < Z.of_nat (length bs);
  ct_byte o : 0 ≤ o < MAXFILE * BSIZE → fbyte v addrs o = nth (Z.to_nat o) bs 0
}.

(** What may happen to the blocks while file [inum] grows. *)
Record appended (inum : Z) v v' O O' : Prop := {
  ap_roles x : O' x = O x ∨ (O x = BFree ∧ ((∃ bn, O' x = BData inum bn) ∨ O' x = BInd inum));
  ap_frame x : O x ≠ BFree → O x ≠ BInd inum → (∀ bn, O x ≠ BData inum bn) → v' x = v x
}.

Lemma appended_refl inum v O : appended inum v v O O.
Proof. split; [by left | done]. Qed.

Lemma appended_trans inum v1 v2 v3 O1 O2 O3 :
  appended inum v1 v2 O1 O2 → appended inum v2 v3 O2 O3 → appended inum v1 v3 O1 O3.
Proof.
  intros [B C] [B' C']. split.
  - intros x. destruct (B x) as [E|[Ef E]], (B' x) as [E'|[Ef' E']]; [left; congruence | right | right | right].
    + by rewrite <- E.
    + by rewrite E'.
    + destruct E as [[? E]|E]; congruence.
  - intros x Hf Hi Hd. destruct (B x) as [E|[Ef E]]; [|done].
    rewrite C', C; try done; [congruence | congruence | intros bn; rewrite E; apply Hd].
Qed.

(** Blocks of the file outside changes. *)
Lemma content_ext v v' O O' inum addrs bs :
  content v O inum addrs bs →
  (∀ x, (∃ bn, O x = BData inum bn) ∨ O x = BInd inum → v' x = v x) →
  (∀ x bn, O' x = BData inum bn ↔ O x = BData inum bn) → (∀ x, O' x = BInd inum ↔ O x = BInd inum) →
  content v' O' inum addrs bs.
Proof.
  intros [A B C D E F] Hv Hd Hi.
  assert (ind_of addrs ≠ 0 → v' (ind_of addrs) = v (ind_of addrs)) as Hind by (intros Hz; apply Hv; right; by apply A).
  assert (∀ n, fblock v' addrs n = fblock v addrs n) as Hfb by (intros n; by apply fblock_ext).
  split; try done.
  - by eapply fowns_ext.
  - intros bn Hbn. rewrite Hfb. by apply D.
  - intros o Ho. rewrite <- F by done. unfold fbyte. rewrite Hfb. destruct (Z.eqb_spec (fblock v addrs (o / BSIZE)) 0) as [|Hz]; [done|].
    rewrite Hv; [done|]. left. eexists. apply (fo_data _ _ _ _ A); [|done]. unfold BSIZE, MAXFILE, NDIRECT, NINDIRECT in *. zmod.
Qed.

Lemma content_other inum v v' O O' inum' addrs bs :
  appended inum v v' O O' → inum' ≠ inum → content v O inum' addrs bs → content v' O' inum' addrs bs.
Proof.
  intros [B C] Hne Hc. eapply content_ext; [done | | |].
  - intros x Hx. apply C; [destruct Hx as [[? E]|E]; congruence .. | intros bn; destruct Hx as [[? E]|E]; congruence].
  - intros x bn. destruct (B x) as [->|[-> [[? ->]| ->]]]; [done | |]; split; congruence.
  - intros x. destruct (B x) as [->|[-> [[? ->]| ->]]]; [done | |]; split; congruence.
Qed.

(** A file without bytes. *)
Lemma content_nil v O inum :
  O 0 = BMeta → (∀ x, (∀ bn, O x ≠ BData inum bn) ∧ O x ≠ BInd inum) → content v O inum (replicate 13 0) [].
Proof.
  intros H0 Hno. assert (∀ n, fblock v (replicate 13 0) n = 0) as Hz.
  { intros n. unfold fblock. destruct (n <? NDIRECT); [apply nth_zeros | done]. }
  split.
  - split; [done | | done | |].
    + intros bn _ Hn. by rewrite Hz in Hn.
    + intros b bn E. by destruct (Hno b) as [Hn _]; destruct (Hn bn).
    + intros b E. by destruct (Hno b).
  - intros k. rewrite nth_zeros. lia.
  - done.
  - intros bn Hbn. rewrite Hz. simpl. split; [done | lia].
  - unfold ind_of. rewrite nth_zeros. simpl. split; [done | lia].
  - intros o Ho. unfold fbyte. rewrite Hz. simpl. by destruct (Z.to_nat o).
Qed.

(** ** The image *)

Record mk_ok (s : mkst) O : Prop := {
  mo_end : mk_end s = FSSIZE;
  mo_free : nmeta ≤ freeblock s ≤ FSSIZE;
  mo_role b : O b = BFree ↔ freeblock s ≤ b < FSSIZE;
  mo_data b : O b ≠ BMeta → nmeta ≤ b < FSSIZE;
  mo_zero b a : freeblock s ≤ b < FSSIZE → mk_img s b a = 0;
  mo_inum b i : (∃ bn, O b = BData i bn) ∨ O b = BInd i → i < freeinode s
}.

Lemma mk_role_0 s O : mk_ok s O → O 0 = BMeta.
Proof.
  intros Hok. destruct (decide (O 0 = BMeta)) as [|Hn]; [done|]. apply (mo_data _ _ Hok) in Hn. by destruct Hn.
Qed.

Lemma rsect_ok s O b : mk_ok s O → b < FSSIZE → rsect b s = Ok (mk_img s b) s.
Proof. intros Hok Hb. unfold rsect. rewrite bind_get, (mo_end _ _ Hok). by rewrite (proj2 (Z.ltb_lt _ _)). Qed.

(** Writing a sector that is not free. *)
Lemma wsect_ok s O b buf :
  mk_ok s O → b < freeblock s →
  ∃ s', wsect b buf s = Ok () s' ∧ mk_ok s' O ∧ (∀ x, mk_img s' x = if x =? b then buf else mk_img s x) ∧
    freeblock s' = freeblock s ∧ freeinode s' = freeinode s.
Proof.
  intros [A B C D E F] Hb. eexists. split; [reflexivity|]. split; [|done]. split; simpl; try done.
  - rewrite A. lia.
  - intros x a Hx. rewrite (proj2 (Z.eqb_neq _ _)) by lia. by apply E.
Qed.

Lemma new_block_ok s O r inum :
  mk_ok s O → freeblock s < FSSIZE → (∃ bn, r = BData inum bn) ∨ r = BInd inum → inum < freeinode s →
  ∃ s', new_block s = Ok (freeblock s) s' ∧ mk_ok s' (<[freeblock s := r]> O) ∧ (∀ x, mk_img s' x = mk_img s x) ∧
    freeblock s' = freeblock s + 1 ∧ freeinode s' = freeinode s ∧ O (freeblock s) = BFree ∧ freeblock s ≠ 0.
Proof.
  intros [A B C D E F] Hb Hr Hi. change FSSIZE with 1000 in *. change nmeta with 59 in *.
  eexists. split; [unfold new_block; by rewrite bind_gets, bind_modify|].
  split; [|split_and!; simpl; [done | apply u32_small; lia | done | apply C; lia | lia]].
  split; simpl; rewrite ?u32_small by lia.
  - done.
  - change FSSIZE with 1000. change nmeta with 59. lia.
  - intros b. destruct (decide (b = freeblock s)) as [->|Hne].
    + rewrite fn_lookup_insert. split; [destruct Hr as [[? ->]| ->]; done | lia].
    + rewrite fn_lookup_insert_ne by done. rewrite C. change FSSIZE with 1000. lia.
  - intros b. destruct (decide (b = freeblock s)) as [->|Hne]; [intros _; change nmeta with 59; change FSSIZE with 1000; lia|].
    rewrite fn_lookup_insert_ne by done. apply D.
  - intros b a Hba. apply E. change FSSIZE with 1000 in *. lia.
  - intros b i. destruct (decide (b = freeblock s)) as [->|Hne]; [|rewrite fn_lookup_insert_ne by done; apply F].
    rewrite fn_lookup_insert. destruct Hr as [[? ->]| ->]; intros [[? E']|E']; congruence.
Qed.

Lemma mk_used s O b : mk_ok s O → O b ≠ BFree → O b ≠ BMeta → nmeta ≤ b < freeblock s.
Proof.
  intros Hok Hf Hm. apply (mo_data _ _ Hok) in Hm. pose proof (mo_role _ _ Hok b) as Hr.
  destruct (decide (freeblock s ≤ b)); [|lia]. destruct Hf. apply Hr. lia.
Qed.

(** ** A block for the next byte *)

(** Block [x] is now block [fbn] of the file, and nothing else about it has
    changed. *)
Record extended (inum fbn x : Z) v v' O O' (addrs addrs' : list Z) : Prop := {
  ex_owns : fowns v' O' inum addrs';
  ex_word k : 0 ≤ nth k addrs' 0 < 4294967296;
  ex_nz : x ≠ 0;
  ex_block n : 0 ≤ n < MAXFILE → fblock v' addrs' n = if decide (n = fbn) then x else fblock v addrs n;
  ex_byte o : 0 ≤ o < MAXFILE * BSIZE → fbyte v' addrs' o = fbyte v addrs o;
  ex_app : appended inum v v' O O';
  ex_ind : fbn < NDIRECT → ind_of addrs' = ind_of addrs
}.

Lemma extended_byte inum v v' O addrs addrs' fbn x :
  fowns v O inum addrs → fblock v addrs fbn = 0 → x ≠ 0 → (∀ a, v' x a = 0) →
  (∀ n, 0 ≤ n < MAXFILE → fblock v' addrs' n = if decide (n = fbn) then x else fblock v addrs n) →
  (∀ y bn, O y = BData inum bn → v' y = v y) →
  ∀ o, 0 ≤ o < MAXFILE * BSIZE → fbyte v' addrs' o = fbyte v addrs o.
Proof.
  intros Hfo Hz Hx Hx0 Hb Hv o Ho. assert (0 ≤ o / BSIZE < MAXFILE) as Hn by (unfold BSIZE, MAXFILE, NDIRECT, NINDIRECT in *; zmod).
  unfold fbyte. rewrite Hb by done. case_decide as E.
  - rewrite E, Hz, (proj2 (Z.eqb_neq x 0)) by done. by rewrite Hx0.
  - destruct (Z.eqb_spec (fblock v addrs (o / BSIZE)) 0) as [|Hnz]; [done|].
    rewrite (Hv _ (o / BSIZE)); [done|]. by apply Hfo.
Qed.

Lemma words_insert addrs k b :
  (∀ j, 0 ≤ nth j addrs 0 < 4294967296) → 0 ≤ b < 4294967296 → ∀ j, 0 ≤ nth j (<[k := b]> addrs) 0 < 4294967296.
Proof.
  intros Ha Hb j. rewrite nth_lookup. destruct (decide (k = j)) as [<-|Hne].
  - destruct (decide (k < length addrs)%nat); [by rewrite list_lookup_insert_eq by done|].
    rewrite list_insert_ge by lia. rewrite <- nth_lookup. apply Ha.
  - rewrite list_lookup_insert_ne by done. rewrite <- nth_lookup. apply Ha.
Qed.

Lemma inode_same din : din <| i_addrs := i_addrs din |> = din.
Proof. by destruct din. Qed.

Section bmap.
Context (s : mkst) (O : Z → brole) (inum : Z) (din : inode).
Context (Hok : mk_ok s O) (Hinum : inum < freeinode s).

(** The result of [mk_bmap], with [k] new blocks. *)
Definition mapped_to (fbn k : Z) (out : outcome mkst (inode * Z)) : Prop :=
  ∃ addrs' x s' O', out = Ok (din <| i_addrs := addrs' |>, x) s' ∧ mk_ok s' O' ∧
    freeblock s' = freeblock s + k ∧ freeinode s' = freeinode s ∧
    extended inum fbn x (mk_img s) (mk_img s') O O' (i_addrs din) addrs'.

Context (Hfo : fowns (mk_img s) O inum (i_addrs din)) (Hw : ∀ k, 0 ≤ nth k (i_addrs din) 0 < 4294967296).

Lemma bmap_there fbn :
  0 ≤ fbn < MAXFILE → fblock (mk_img s) (i_addrs din) fbn ≠ 0 → mapped_to fbn 0 (mk_bmap din fbn s).
Proof.
  intros Hfbn Hnz. exists (i_addrs din), (fblock (mk_img s) (i_addrs din) fbn), s, O. rewrite inode_same.
  split; [|split; [done|split; [lia|split; [done|]]]].
  - unfold mk_bmap. unfold fblock in *. fold (ind_of (i_addrs din)). destruct (fbn <? NDIRECT).
    + rewrite (proj2 (Z.eqb_neq _ _)), bind_ret by done. done.
    + destruct (Z.eqb_spec (ind_of (i_addrs din)) 0) as [E|E]; [done|]. rewrite bind_ret.
      fold (ind_of (i_addrs din)). pose proof (fo_ind _ _ _ _ Hfo E) as Hr.
      destruct (mo_data _ _ Hok (ind_of (i_addrs din))) as [_ Hlt]; [congruence|].
      rewrite (bind_ok _ _ _ _ _ (rsect_ok s O _ Hok Hlt)). by rewrite (proj2 (Z.eqb_neq _ _)).
  - split; try done; [|apply appended_refl]. intros n Hn. by case_decide as E; [subst n|].
Qed.

Lemma mk_bmap_direct fbn :
  0 ≤ fbn < NDIRECT → fblock (mk_img s) (i_addrs din) fbn = 0 → freeblock s < FSSIZE → mapped_to fbn 1 (mk_bmap din fbn s).
Proof.
  intros Hfbn Hz Hroom. unfold mk_bmap, fblock in *. pose proof (fo_len _ _ _ _ Hfo) as Hlen.
  rewrite (proj2 (Z.ltb_lt fbn NDIRECT)) in * by lia. rewrite Hz. change (0 =? 0) with true. cbv iota.
  destruct (new_block_ok s O (BData inum fbn) inum Hok Hroom) as (s1 & E1 & Hok1 & Hv1 & Hfb1 & Hfi1 & HO & Hnz); [eauto | done|].
  set (b := freeblock s) in *. set (addrs' := <[Z.to_nat fbn := b]> (i_addrs din)).
  exists addrs', b, s1, (<[b := BData inum fbn]> O). split.
  { rewrite bind_assoc, (bind_ok _ _ _ _ _ E1), bind_ret.
    change (Ok (din <| i_addrs := addrs' |>, nth (Z.to_nat fbn) addrs' 0) s1 = Ok (din <| i_addrs := addrs' |>, b) s1).
    unfold addrs' at 2. by rewrite nth_lookup, list_lookup_insert_eq by (unfold NDIRECT in Hfbn; lia). }
  assert (∀ n, 0 ≤ n < MAXFILE → fblock (mk_img s1) addrs' n = if decide (n = fbn) then b else fblock (mk_img s) (i_addrs din) n) as Hf.
  { intros n Hn. rewrite (fblock_ext (mk_img s)) by (intros; apply Hv1). apply fblock_direct; [done | done | lia]. }
  assert (fblock (mk_img s) (i_addrs din) fbn = 0) as Hz' by (unfold fblock; by rewrite (proj2 (Z.ltb_lt fbn NDIRECT)) by lia).
  split; [done|]. split; [done|]. split; [done|]. split; try done.
  - eapply fowns_data; [done | by eapply mk_role_0 | done | change MAXFILE with 140; change NDIRECT with 12 in *; lia | done | | | done].
    + unfold addrs'. by rewrite length_insert.
    + unfold ind_of, addrs', NDIRECT in *. by rewrite !nth_lookup, list_lookup_insert_ne by lia.
  - apply words_insert; [done|]. pose proof (mo_free _ _ Hok). change FSSIZE with 1000 in *. change nmeta with 59 in *. lia.
  - eapply extended_byte; [done | done | done | | done |].
    + intros a. rewrite Hv1. apply (mo_zero _ _ Hok). lia.
    + intros y bn _. apply Hv1.
  - split; [|intros; apply Hv1]. intros x. destruct (decide (x = b)) as [->|Hne].
    + right. rewrite fn_lookup_insert. eauto.
    + left. by rewrite fn_lookup_insert_ne.
  - intros _. unfold ind_of, addrs', NDIRECT in *. by rewrite !nth_lookup, list_lookup_insert_ne by lia.
Qed.

(** The entry in the indirect block. *)
Definition bmap_entry (fbn : Z) : M mkst (inode * Z) :=
  indirect ← rsect (nth 12 (i_addrs din) 0);
  if load32 indirect (4 * (fbn - NDIRECT)) =? 0 then
    b ← new_block;
    wsect (nth 12 (i_addrs din) 0) (store32 indirect (4 * (fbn - NDIRECT)) b);;
    mret (din, b)
  else mret (din, load32 indirect (4 * (fbn - NDIRECT))).

Lemma bmap_entry_ok fbn :
  NDIRECT ≤ fbn < MAXFILE → ind_of (i_addrs din) ≠ 0 → fblock (mk_img s) (i_addrs din) fbn = 0 → freeblock s < FSSIZE →
  mapped_to fbn 1 (bmap_entry fbn s).
Proof.
  intros Hfbn Hind Hz Hroom. pose proof (fo_ind _ _ _ _ Hfo Hind) as Hr.
  destruct (mk_used s O (ind_of (i_addrs din)) Hok) as [Hlo Hlt]; [congruence | congruence|].
  unfold bmap_entry. fold (ind_of (i_addrs din)). rewrite (bind_ok _ _ _ _ _ (rsect_ok s O (ind_of (i_addrs din)) Hok ltac:(lia))).
  assert (load32 (mk_img s (ind_of (i_addrs din))) (4 * (fbn - NDIRECT)) = 0) as ->.
  { revert Hz. unfold fblock. by rewrite (proj2 (Z.ltb_ge fbn NDIRECT)), (proj2 (Z.eqb_neq _ _)) by (done || lia). }
  change (0 =? 0) with true. cbv iota.
  destruct (new_block_ok s O (BData inum fbn) inum Hok Hroom) as (s1 & E1 & Hok1 & Hv1 & Hfb1 & Hfi1 & HO & Hnz); [eauto | done|].
  set (b := freeblock s) in *. rewrite (bind_ok _ _ _ _ _ E1).
  destruct (wsect_ok s1 (<[b := BData inum fbn]> O) (ind_of (i_addrs din))
    (store32 (mk_img s (ind_of (i_addrs din))) (4 * (fbn - NDIRECT)) b) Hok1) as (s2 & E2 & Hok2 & Hv2 & Hfb2 & Hfi2); [lia|].
  rewrite (bind_ok _ _ _ _ _ E2).
  assert (0 ≤ b < 4294967296) as Hbr by (pose proof (mo_free _ _ Hok); change FSSIZE with 1000 in *; change nmeta with 59 in *; lia).
  assert (b ≠ ind_of (i_addrs din)) as Hbi by lia.
  assert (∀ n, 0 ≤ n < MAXFILE → fblock (mk_img s2) (i_addrs din) n = if decide (n = fbn) then b else fblock (mk_img s) (i_addrs din) n) as Hf.
  { intros n Hn. apply fblock_indirect; [done | done | lia | done|]. by rewrite Hv2, Z.eqb_refl. }
  assert (∀ y, y ≠ ind_of (i_addrs din) → mk_img s2 y = mk_img s y) as Hsame.
  { intros y Hy. rewrite Hv2, (proj2 (Z.eqb_neq _ _)) by done. apply Hv1. }
  exists (i_addrs din), b, s2, (<[b := BData inum fbn]> O). rewrite inode_same.
  split; [done|]. split; [done|]. split; [lia|]. split; [congruence|]. split; try done.
  - eapply fowns_data; [done | by eapply mk_role_0 | done | | done | apply Hfo | done | done]. change NDIRECT with 12 in *. lia.
  - eapply extended_byte; [done | done | done | | done |].
    + intros a. rewrite Hsame by done. apply (mo_zero _ _ Hok). lia.
    + intros y bn Hy. apply Hsame. intros ->. congruence.
  - split.
    + intros x. destruct (decide (x = b)) as [->|Hne]; [right; rewrite fn_lookup_insert; eauto | left; by rewrite fn_lookup_insert_ne].
    + intros x Hx1 Hx2 _. apply Hsame. intros ->. congruence.
Qed.
End bmap.

(** With a new indirect block first. *)
Lemma bmap_indirect s O inum din fbn :
  mk_ok s O → inum < freeinode s → fowns (mk_img s) O inum (i_addrs din) → (∀ k, 0 ≤ nth k (i_addrs din) 0 < 4294967296) →
  NDIRECT ≤ fbn < MAXFILE → fblock (mk_img s) (i_addrs din) fbn = 0 →
  let k := if ind_of (i_addrs din) =? 0 then 2 else 1 in
  freeblock s + k ≤ FSSIZE → mapped_to s O inum din fbn k (mk_bmap din fbn s).
Proof.
  intros Hok Hinum Hfo Hw Hfbn Hz k Hroom. unfold mk_bmap. rewrite (proj2 (Z.ltb_ge fbn NDIRECT)) by lia.
  fold (ind_of (i_addrs din)). subst k. destruct (Z.eqb_spec (ind_of (i_addrs din)) 0) as [E|E].
  2: { rewrite bind_ret. apply bmap_entry_ok; (done || lia). }
  destruct (new_block_ok s O (BInd inum) inum Hok ltac:(lia)) as (s1 & E1 & Hok1 & Hv1 & Hfb1 & Hfi1 & HO & Hnz); [eauto | done|].
  set (b := freeblock s) in *. set (addrs1 := <[12%nat := b]> (i_addrs din)). set (din1 := din <| i_addrs := addrs1 |>).
  rewrite bind_assoc, (bind_ok _ _ _ _ _ E1), bind_ret. fold addrs1. fold din1.
  pose proof (fo_len _ _ _ _ Hfo) as Hlen.
  assert (ind_of addrs1 = b) as Hi1 by (unfold ind_of, addrs1; by rewrite nth_lookup, list_lookup_insert_eq by lia).
  assert (∀ n, 0 ≤ n < MAXFILE → fblock (mk_img s1) addrs1 n = fblock (mk_img s) (i_addrs din) n) as Hf1.
  { intros n Hn. apply fblock_new_ind; [done | done | done | | done]. intros a _. rewrite Hv1. apply (mo_zero _ _ Hok). lia. }
  assert (fowns (mk_img s1) (<[b := BInd inum]> O) inum addrs1) as Hfo1.
  { eapply fowns_ind; [done | by eapply mk_role_0 | done | done | done | unfold addrs1; by rewrite length_insert | done]. }
  destruct (bmap_entry_ok s1 (<[b := BInd inum]> O) inum din1 Hok1 ltac:(lia) Hfo1) with (fbn := fbn)
    as (addrs2 & x & s2 & O2 & E2 & Hok2 & Hfb2 & Hfi2 & [X1 X2 X3 X4 X5 X6 X7]).
  { apply words_insert; [done|]. pose proof (mo_free _ _ Hok). change FSSIZE with 1000 in *. change nmeta with 59 in *. lia. }
  { done. } { change (ind_of addrs1 ≠ 0). by rewrite Hi1. } { change (fblock (mk_img s1) addrs1 fbn = 0). by rewrite Hf1 by (unfold NDIRECT in *; lia). }
  { lia. }
  exists addrs2, x, s2, O2. split; [exact E2|]. split; [done|]. split; [lia|]. split; [congruence|].
  change (i_addrs din1) with addrs1 in *. split; try done.
  - intros n Hn. rewrite X4 by done. case_decide; [done | by apply Hf1].
  - intros o Ho. rewrite X5 by done. assert (0 ≤ o / BSIZE < MAXFILE) by (unfold BSIZE, MAXFILE, NDIRECT, NINDIRECT in *; zmod).
    unfold fbyte. rewrite Hf1 by done. by rewrite Hv1.
  - eapply appended_trans; [|exact X6]. split; [|intros; apply Hv1]. intros y. destruct (decide (y = b)) as [->|Hne].
    + right. rewrite fn_lookup_insert. eauto.
    + left. by rewrite fn_lookup_insert_ne.
  - lia.
Qed.

Lemma mk_bmap_ok s O inum din bs :
  mk_ok s O → inum < freeinode s → content (mk_img s) O inum (i_addrs din) bs →
  let off := Z.of_nat (length bs) in
  off < MAXFILE * BSIZE → freeblock s + (cost (off + 1) - cost off) ≤ FSSIZE →
  mapped_to s O inum din (off / BSIZE) (cost (off + 1) - cost off) (mk_bmap din (off / BSIZE) s).
Proof.
  intros Hok Hinum [A B C D E F] off Hlt Hroom. change (MAXFILE * BSIZE) with 71680 in *. change BSIZE with 512 in *.
  change MAXFILE with 140 in *. specialize (D (off / 512) ltac:(zmod)).
  destruct (decide (off mod 512 = 0)) as [Hm|Hm].
  - assert (fblock (mk_img s) (i_addrs din) (off / 512) = 0) as Hz.
    { destruct (decide (fblock (mk_img s) (i_addrs din) (off / 512) = 0)) as [|Hn]; [done|]. apply D in Hn. fold off in Hn. zmod. }
    destruct (decide (off / 512 < NDIRECT)) as [Hd|Hd].
    + assert (cost (off + 1) - cost off = 1) as Ec.
      { change NDIRECT with 12 in Hd. unfold cost. destruct (Z.ltb_spec 6144 (off + 1)), (Z.ltb_spec 6144 off); zmod. }
      rewrite Ec in *. apply mk_bmap_direct; try done; [change NDIRECT with 12 in *; zmod | lia].
    + assert (cost (off + 1) - cost off = if ind_of (i_addrs din) =? 0 then 2 else 1) as Ec.
      { change NDIRECT with 12 in Hd. unfold cost. fold off in E. destruct (Z.eqb_spec (ind_of (i_addrs din)) 0) as [Ei|Ei].
        - assert (off ≤ 6144) by (destruct (decide (off ≤ 6144)); [done|]; by destruct (proj2 E ltac:(lia))).
          destruct (Z.ltb_spec 6144 (off + 1)), (Z.ltb_spec 6144 off); zmod.
        - apply E in Ei. destruct (Z.ltb_spec 6144 (off + 1)), (Z.ltb_spec 6144 off); zmod. }
      rewrite Ec in *. apply bmap_indirect; try done. change NDIRECT with 12 in *. change MAXFILE with 140. zmod.
  - assert (cost (off + 1) - cost off = 0) as Ec.
    { unfold cost. destruct (Z.ltb_spec 6144 (off + 1)), (Z.ltb_spec 6144 off); zmod. }
    rewrite Ec. apply bmap_there; try done; [change MAXFILE with 140; zmod|]. apply D. fold off. zmod.
Qed.

(** ** iappend *)

(** Bytes stored in the block of the end of the file. *)
Lemma content_append v v' v2 O O' inum addrs addrs' bs p x :
  content v O inum addrs bs →
  let off := Z.of_nat (length bs) in
  extended inum (off / BSIZE) x v v' O O' addrs addrs' →
  (0 < length p)%nat → off + Z.of_nat (length p) ≤ (off / BSIZE + 1) * BSIZE → off + Z.of_nat (length p) ≤ MAXFILE * BSIZE →
  bytes_ok p → (ind_of addrs' ≠ 0 ↔ 6144 < off + 1) →
  (∀ y, v2 y = if y =? x then put_bytes (v' x) (off - off / BSIZE * BSIZE) p else v' y) →
  content v2 O' inum addrs' (bs ++ p).
Proof.
  intros Hc off Hx Hp Hend Hmax Hby Hind Hv2. pose proof Hc as [A B C D E F]. pose proof Hx as [X1 X2 X3 X4 X5 X6 X7].
  change (MAXFILE * BSIZE) with 71680 in *. change BSIZE with 512 in *. change MAXFILE with 140 in *. fold off in C, D, E.
  assert (0 ≤ off / 512 < 140) as Hfbn by zmod.
  assert (fblock v' addrs' (off / 512) = x) as Efb by (rewrite X4, decide_True by done; done).
  assert (O' x = BData inum (off / 512)) as Hrx by (rewrite <- Efb; apply (fo_data _ _ _ _ X1); [done | by rewrite Efb]).
  assert (ind_of addrs' ≠ 0 → v2 (ind_of addrs') = v' (ind_of addrs')) as Hindv.
  { intros Hi. rewrite Hv2, (proj2 (Z.eqb_neq _ _)); [done|]. intros Ei. pose proof (fo_ind _ _ _ _ X1 Hi) as Hr. rewrite Ei in Hr. congruence. }
  assert (∀ n, fblock v2 addrs' n = fblock v' addrs' n) as Hfb2 by (intros n; by apply fblock_ext).
  assert (Z.of_nat (length (bs ++ p)) = off + Z.of_nat (length p)) as El by (rewrite length_app; lia).
  split.
  - by apply (fowns_ext v' v2 O' O').
  - done.
  - rewrite El. change (MAXFILE * BSIZE) with 71680. lia.
  - intros bn Hbn. change MAXFILE with 140 in Hbn. rewrite El, Hfb2, X4 by done. case_decide as Eb.
    + split; [zmod | done].
    + rewrite D by done. zmod.
  - rewrite El, Hind. zmod.
  - intros o Ho. change (MAXFILE * BSIZE) with 71680 in Ho.
    rewrite (put_content v' v2 O' inum addrs' off p o); try done; change BSIZE with 512; change MAXFILE with 140; try zmod.
    + rewrite X5, F by done. case_decide as Hin.
      * rewrite app_nth2 by (unfold off in *; lia). unfold off. replace (Z.to_nat o - length bs)%nat with (Z.to_nat (o - Z.of_nat (length bs))) by lia.
        apply Z.mod_small. assert (Z.to_nat (o - Z.of_nat (length bs)) < length p)%nat as Hlt by (unfold off in *; lia).
        destruct (lookup_lt_is_Some_2 p _ Hlt) as [c Hcx]. rewrite (nth_lookup_Some _ _ _ _ Hcx). by eapply (Forall_lookup_1 _ _ _ _ Hby).
      * destruct (decide (o < off)).
        -- rewrite app_nth1 by (unfold off in *; lia). done.
        -- rewrite !nth_overflow by (rewrite ?length_app; unfold off in *; lia). done.
    + intros y. rewrite Efb, Hv2. replace (off - off / 512 * 512) with (off mod 512) by zmod. done.
Qed.

(** After the block for it, the indirect block is there if the next byte
    needs it. *)
Lemma mapped_ind s O inum din bs addrs' x s' O' :
  content (mk_img s) O inum (i_addrs din) bs →
  let off := Z.of_nat (length bs) in
  off < MAXFILE * BSIZE → extended inum (off / BSIZE) x (mk_img s) (mk_img s') O O' (i_addrs din) addrs' →
  ind_of addrs' ≠ 0 ↔ 6144 < off + 1.
Proof.
  intros [A B C D E F] off Hlt [X1 X2 X3 X4 X5 X6 X7]. change (MAXFILE * BSIZE) with 71680 in *. change BSIZE with 512 in *.
  change NDIRECT with 12 in *. fold off in E. destruct (decide (off / 512 < 12)) as [Hs|Hs].
  - rewrite X7, E by done. zmod.
  - split; [intros _; zmod|]. intros _ Hi. specialize (X4 (off / 512)). change MAXFILE with 140 in X4.
    rewrite decide_True in X4 by done. apply X3. rewrite <- X4 by zmod. unfold fblock. change NDIRECT with 12.
    rewrite (proj2 (Z.ltb_ge _ _)) by lia. by rewrite Hi.
Qed.

Lemma iappend_loop_ok inum fuel : ∀ p din s O bs,
  (length p < fuel)%nat → mk_ok s O → inum < freeinode s → content (mk_img s) O inum (i_addrs din) bs → bytes_ok p →
  let off := Z.of_nat (length bs) in
  let n := Z.of_nat (length p) in
  off + n ≤ MAXFILE * BSIZE → freeblock s + (cost (off + n) - cost off) ≤ FSSIZE →
  ∃ addrs' s' O', iappend_loop fuel din off p s = Ok (din <| i_addrs := addrs' |>, off + n) s' ∧ mk_ok s' O' ∧
    freeblock s' = freeblock s + (cost (off + n) - cost off) ∧ freeinode s' = freeinode s ∧
    content (mk_img s') O' inum addrs' (bs ++ p) ∧ appended inum (mk_img s) (mk_img s') O O'.
Proof.
  induction fuel as [|fuel IH]; intros p din s O bs Hf Hok Hinum Hc Hby off n Hmax Hroom; [lia|]. cbn [iappend_loop]. fold n.
  change (MAXFILE * BSIZE) with 71680 in *. destruct (Z.ltb_spec 0 n) as [Hn|Hn]; cbn [negb].
  2: { assert (p = []) as -> by (apply nil_length_inv; subst n; lia). exists (i_addrs din), s, O. rewrite inode_same, app_nil_r.
       replace (off + n) with off by lia. split_and!; try done; [lia | apply appended_refl]. }
  change BSIZE with 512. rewrite (proj2 (Z.ltb_lt (off / 512) MAXFILE)) by (change MAXFILE with 140; zmod). cbn [negb].
  pose proof (cost_mono (off + 1) (off + n) ltac:(lia)) as Hcm. pose proof (cost_mono off (off + 1) ltac:(lia)) as Hcm'.
  destruct (mk_bmap_ok s O inum din bs Hok Hinum Hc) as (addrs1 & x & s1 & O1 & E1 & Hok1 & Hfb1 & Hfi1 & Hx);
    [change (MAXFILE * BSIZE) with 71680; fold off; lia | fold off; lia|].
  fold off in E1, Hfb1, Hx. change BSIZE with 512 in E1, Hx. rewrite (bind_ok _ _ _ _ _ E1). cbn [fst snd]. cbv zeta.
  set (n1 := Z.min n ((off / 512 + 1) * 512 - off)). assert (0 < n1 ≤ n) as Hn1 by (subst n1; zmod).
  assert (O1 x = BData inum (off / 512)) as Hrx.
  { destruct Hx as [X1 X2 X3 X4 _ _ _]. specialize (X4 (off / 512)). change MAXFILE with 140 in X4. rewrite decide_True in X4 by done.
    rewrite <- X4 by zmod. apply (fo_data _ _ _ _ X1); [change MAXFILE with 140; zmod | rewrite X4; [done | zmod]]. }
  destruct (mk_used s1 O1 x Hok1) as [_ Hxu]; [congruence | congruence|].
  rewrite (bind_ok _ _ _ _ _ (rsect_ok s1 O1 x Hok1 ltac:(pose proof (mo_free _ _ Hok1); lia))).
  set (q := take (Z.to_nat n1) p). assert (Z.of_nat (length q) = n1) as Hq by (subst q n; rewrite length_take; lia).
  destruct (wsect_ok s1 O1 x (put_bytes (mk_img s1 x) (off - off / 512 * 512) q) Hok1 Hxu) as (s2 & E2 & Hok2 & Hv2 & Hfb2 & Hfi2).
  rewrite (bind_ok _ _ _ _ _ E2).
  assert (content (mk_img s2) O1 inum addrs1 (bs ++ q)) as Hc2.
  { eapply (content_append (mk_img s) (mk_img s1) (mk_img s2) O O1 inum (i_addrs din) addrs1 bs q x); try done.
    - lia.
    - change BSIZE with 512. fold off. lia.
    - change (MAXFILE * BSIZE) with 71680. fold off. lia.
    - by apply Forall_take.
    - eapply mapped_ind; [done | change (MAXFILE * BSIZE) with 71680; fold off; lia | done]. }
  assert (Z.of_nat (length (bs ++ q)) = off + n1) as El by (rewrite length_app; lia).
  assert (Z.of_nat (length (drop (Z.to_nat n1) p)) = n - n1) as Hd by (rewrite length_drop; subst n; lia).
  assert (cost (off + n1) = cost (off + 1)) as Ecost by (apply cost_block; subst n1; zmod).
  destruct (IH (drop (Z.to_nat n1) p) (din <| i_addrs := addrs1 |>) s2 O1 (bs ++ q)) as (addrs' & s' & O' & E & Hok' & Hfb' & Hfi' & Hc' & Hap);
    rewrite ?El, ?Hd in *; [lia | done | lia | done | by apply Forall_drop | lia | |].
  { replace (off + n1 + (n - n1)) with (off + n) by lia. lia. }
  replace (off + n1 + (n - n1)) with (off + n) in * by lia.
  exists addrs', s', O'. split; [exact E|]. split; [done|]. split; [lia|]. split; [congruence|]. split.
  - rewrite <- app_assoc in Hc'. subst q. by rewrite take_drop in Hc'.
  - eapply appended_trans; [apply (ex_app _ _ _ _ _ _ _ _ _ Hx)|]. eapply appended_trans; [|exact Hap].
    split; [by left|]. intros y _ _ Hy. rewrite Hv2, (proj2 (Z.eqb_neq _ _)); [done|]. intros ->. by apply (Hy (off / 512)).
Qed.
