(* ===== verification/MkfsFiles.v ===== *)
(** * mkfs: inodes and files

    The inodes of the image with the bytes of their files, through [ialloc]
    and [iappend]. *)
From stdpp Require Import functions.
From S2P Require Import Prelude Machine CString Bio FsBlock FsInode FsDinode FsFile FsData FsTrunc FsCache FsPath FsDir FsNamei Mkfs MkfsSpec.
Import KString.

(** Inode [j] of the image is a file of type [ty] with the bytes [bs]. *)
Record holds (s : mkst) (O : Z → brole) (j ty : Z) (bs : list Z) : Prop := {
  ho_type : i_type (on_disk mk_sb (mk_img s) j) = ty;
  ho_major : i_major (on_disk mk_sb (mk_img s) j) = 0;
  ho_minor : i_minor (on_disk mk_sb (mk_img s) j) = 0;
  ho_nlink : i_nlink (on_disk mk_sb (mk_img s) j) = 1;
  ho_size : i_size (on_disk mk_sb (mk_img s) j) = Z.of_nat (length bs);
  ho_content : content (mk_img s) O j (i_addrs (on_disk mk_sb (mk_img s) j)) bs
}.

Definition inode_no (j : Z) : Prop := 1 ≤ j < NINODES.
Definition file_type (ty : Z) : Prop := ty = T_DIR ∨ ty = T_FILE.

Lemma iblock_bounds j : inode_no j → 32 ≤ IBLOCK j mk_sb < 58.
Proof.
  unfold inode_no, NINODES, IBLOCK. change (sb_inodestart mk_sb) with 32. unfold IPB, BSIZE, DINODE_SIZE. change (512 / 64) with 8. zmod.
Qed.

Lemma mk_meta s O x : mk_ok s O → x < nmeta → O x = BMeta.
Proof.
  intros Hok Hx. destruct (decide (O x = BMeta)) as [|Hn]; [done|]. apply (mo_data _ _ Hok) in Hn. lia.
Qed.

(** Metadata blocks do not matter to files, except for their inodes. *)
Lemma holds_ext s s' O O' j ty bs :
  holds s O j ty bs → mk_img s' (IBLOCK j mk_sb) = mk_img s (IBLOCK j mk_sb) →
  content (mk_img s') O' j (i_addrs (on_disk mk_sb (mk_img s) j)) bs → holds s' O' j ty bs.
Proof.
  intros [A B C D E F] Hv Hc. assert (on_disk mk_sb (mk_img s') j = on_disk mk_sb (mk_img s) j) as Ed by (unfold on_disk; by rewrite Hv).
  split; rewrite Ed; done.
Qed.

Lemma din0_disk v j : get_dinode (v (IBLOCK j mk_sb)) (din0 j) = on_disk mk_sb v j.
Proof. done. Qed.

Lemma rinode_ok s O j : mk_ok s O → inode_no j → rinode j s = Ok (on_disk mk_sb (mk_img s) j) s.
Proof.
  intros Hok Hj. pose proof (iblock_bounds j Hj). unfold rinode.
  rewrite (bind_ok _ _ _ _ _ (rsect_ok s O (IBLOCK j mk_sb) Hok ltac:(change FSSIZE with 1000; lia))). done.
Qed.

Lemma get_dinode_fields d i :
  get_dinode d i = let o := dinode_off (i_inum i) in
    Inode (i_dev i) (i_inum i) (i_ref i) (i_lock i) (i_valid i) (load16 d o) (load16 d (o + 2)) (load16 d (o + 4))
      (load16 d (o + 6)) (load32 d (o + 8)) (load_addrs d (o + 12) 13).
Proof. done. Qed.

(** An inode written to the image and read again. *)
Lemma winode_ok s O j din :
  mk_ok s O → inode_no j → inode_wf din → i_inum din = j →
  ∃ s', winode j din s = Ok () s' ∧ mk_ok s' O ∧ freeblock s' = freeblock s ∧ freeinode s' = freeinode s ∧
    (∀ x, x ≠ IBLOCK j mk_sb → mk_img s' x = mk_img s x) ∧
    on_disk mk_sb (mk_img s') j = Inode ROOTDEV j 0 false false (i_type din) (i_major din) (i_minor din) (i_nlink din) (i_size din) (i_addrs din) ∧
    (∀ j', inode_no j' → j' ≠ j → on_disk mk_sb (mk_img s') j' = on_disk mk_sb (mk_img s) j').
Proof.
  intros Hok Hj Hwf Hinum. pose proof (iblock_bounds j Hj) as Hb. pose proof (mo_free _ _ Hok) as Hfree. change nmeta with 59 in Hfree.
  destruct (wsect_ok s O (IBLOCK j mk_sb) (put_dinode din (mk_img s (IBLOCK j mk_sb))) Hok ltac:(lia)) as (s' & E & Hok' & Hv & Hfb & Hfi).
  exists s'. split; [unfold winode; rewrite (bind_ok _ _ _ _ _ (rsect_ok s O (IBLOCK j mk_sb) Hok ltac:(lia))); exact E|].
  split; [done|]. split; [done|]. split; [done|]. split; [|split].
  - intros x Hx. by rewrite Hv, (proj2 (Z.eqb_neq _ _)).
  - unfold on_disk. rewrite Hv, Z.eqb_refl. pose proof (get_put_dinode din (mk_img s (IBLOCK j mk_sb)) Hwf) as G.
    rewrite get_dinode_fields in G |- *. cbn [i_dev i_inum i_ref i_lock i_valid]. rewrite Hinum in G.
    pose proof (f_equal i_type G) as <-. pose proof (f_equal i_major G) as <-. pose proof (f_equal i_minor G) as <-.
    pose proof (f_equal i_nlink G) as <-. pose proof (f_equal i_size G) as <-. pose proof (f_equal i_addrs G) as <-. done.
  - intros j' Hj' Hne. unfold on_disk. rewrite Hv. destruct (Z.eqb_spec (IBLOCK j' mk_sb) (IBLOCK j mk_sb)) as [Eb|]; [|done].
    rewrite Eb. apply get_put_dinode_ne; [apply Hwf|]. cbn [i_inum]. rewrite Hinum. revert Eb.
    unfold inode_no, NINODES, IBLOCK, IPB, BSIZE, DINODE_SIZE in *. change (512 / 64) with 8. intros. zmod.
Qed.

(** The other files, the superblock and the log stay. *)
Record keeps (s : mkst) (O : Z → brole) (s' : mkst) (O' : Z → brole) (except : Z → Prop) : Prop := {
  ke_holds j ty bs : inode_no j → ¬ except j → holds s O j ty bs → holds s' O' j ty bs;
  ke_disk j : inode_no j → ¬ except j → on_disk mk_sb (mk_img s') j = on_disk mk_sb (mk_img s) j;
  ke_low x : x < 32 → mk_img s' x = mk_img s x
}.

Lemma keeps_trans s1 O1 s2 O2 s3 O3 P :
  keeps s1 O1 s2 O2 P → keeps s2 O2 s3 O3 P → keeps s1 O1 s3 O3 P.
Proof. intros [A D B] [A' D' B']. split; [eauto | intros j Hj Hn; by rewrite D', D | intros x Hx; by rewrite B', B]. Qed.

Lemma keeps_weaken s O s' O' (P Q : Z → Prop) : (∀ j, P j → Q j) → keeps s O s' O' P → keeps s O s' O' Q.
Proof. intros HPQ [A D B]. split; [intros j ty bs Hj HQ; apply A; auto | intros j Hj HQ; apply D; auto | done]. Qed.

Lemma iappend_ok s O j ty bs p :
  mk_ok s O → inode_no j → j < freeinode s → file_type ty → holds s O j ty bs → bytes_ok p →
  let n := Z.of_nat (length bs) in
  let n' := n + Z.of_nat (length p) in
  n' ≤ MAXFILE * BSIZE → freeblock s + (cost n' - cost n) ≤ FSSIZE →
  ∃ s' O', iappend j p s = Ok () s' ∧ mk_ok s' O' ∧ freeblock s' = freeblock s + (cost n' - cost n) ∧ freeinode s' = freeinode s ∧
    holds s' O' j ty (bs ++ p) ∧ keeps s O s' O' (λ i, i = j).
Proof.
  intros Hok Hj Hfi Hty Hh Hby n n' Hmax Hroom. pose proof Hh as [H1 H2 H3 H4 H5 H6]. unfold iappend.
  rewrite (bind_ok _ _ _ _ _ (rinode_ok s O j Hok Hj)). set (din := on_disk mk_sb (mk_img s) j) in *. rewrite H5.
  assert (i_inum din = j) as Hinum by done. clearbody din.
  destruct (iappend_loop_ok j (S (length p)) p din s O bs ltac:(lia) Hok Hfi H6 Hby Hmax Hroom)
    as (addrs' & s1 & O1 & E1 & Hok1 & Hfb1 & Hfi1 & Hc1 & Hap1). fold n in E1. fold n' in E1, Hfb1.
  rewrite (bind_ok _ _ _ _ _ E1). cbn [fst snd]. change (MAXFILE * BSIZE) with 71680 in *.
  destruct (winode_ok s1 O1 j (din <| i_addrs := addrs' |> <| i_size := n' |>) Hok1 Hj) as (s' & E' & Hok' & Hfb' & Hfi' & Hv' & Hd' & Hd'').
  { split; simpl; rewrite ?H1, ?H2, ?H3, ?H4; try lia; [destruct Hty as [->| ->]; unfold T_DIR, T_FILE; lia | apply Hc1 | apply (ct_word _ _ _ _ _ Hc1)]. }
  { done. }
  exists s', O1. split; [exact E'|]. split; [done|]. split; [fold n n' in Hfb1; lia|]. split; [congruence|].
  pose proof (iblock_bounds j Hj) as Hb.
  assert (∀ i bs' addrs, content (mk_img s1) O1 i addrs bs' → content (mk_img s') O1 i addrs bs') as Hce.
  { intros i bs' addrs Hc. eapply content_ext; [done | | done | done]. intros x Hx. apply Hv'. intros ->.
    rewrite (mk_meta s1 O1) in Hx by (done || (change nmeta with 59; lia)). destruct Hx as [[? ?]|?]; done. }
  split.
  - split; rewrite Hd'; cbn [i_type i_major i_minor i_nlink i_size i_addrs]; try done; [rewrite length_app; unfold n', n; simpl; lia|].
    change (content (mk_img s') O1 j addrs' (bs ++ p)). by apply Hce.
  - assert (∀ i, inode_no i → i ≠ j → on_disk mk_sb (mk_img s') i = on_disk mk_sb (mk_img s) i) as Ed.
    { intros i Hi Hne. rewrite Hd'' by done. unfold on_disk. f_equal. apply (ap_frame _ _ _ _ _ Hap1);
        rewrite (mk_meta s O) by (done || (pose proof (iblock_bounds i Hi); change nmeta with 59; lia)); done. }
    split; [|done|].
    + intros i ty' bs' Hi Hne Hh'. pose proof Hh' as [G1 G2 G3 G4 G5 G6].
      split; rewrite Ed by done; try done. apply Hce. by eapply content_other.
    + intros x Hx. rewrite Hv' by lia. apply (ap_frame _ _ _ _ _ Hap1); rewrite (mk_meta s O) by (done || (change nmeta with 59; lia)); done.
Qed.

Lemma mk_ialloc_ok s O ty :
  mk_ok s O → inode_no (freeinode s) → file_type ty →
  ∃ s', mk_ialloc ty s = Ok (freeinode s) s' ∧ mk_ok s' O ∧ freeblock s' = freeblock s ∧ freeinode s' = freeinode s + 1 ∧
    holds s' O (freeinode s) ty [] ∧ keeps s O s' O (λ i, i = freeinode s).
Proof.
  intros Hok Hj Hty. set (j := freeinode s) in *. unfold mk_ialloc. rewrite bind_gets. fold j. rewrite bind_modify.
  unfold inode_no, NINODES in Hj. rewrite u32_small by lia. set (s1 := s <| freeinode := j + 1 |>).
  assert (mk_ok s1 O) as Hok1.
  { destruct Hok as [A B C D E F]. split; try done. intros b i Hb. apply F in Hb. change (freeinode s1) with (j + 1). fold j in Hb. lia. }
  destruct (winode_ok s1 O j ((din0 j) <| i_type := ty |> <| i_nlink := 1 |> <| i_size := 0 |>) Hok1) as (s' & E' & Hok' & Hfb' & Hfi' & Hv' & Hd' & Hd'').
  { done. }
  { split; simpl; try lia; [destruct Hty as [->| ->]; unfold T_DIR, T_FILE; lia|]. intros k. change (0 ≤ nth k (replicate 13 0) 0 < 4294967296). rewrite (nth_zeros 13). lia. }
  { done. }
  exists s'. split; [by rewrite (bind_ok _ _ _ _ _ E')|]. split; [done|]. split; [done|]. split; [done|].
  pose proof (iblock_bounds j Hj) as Hb. split.
  - split; rewrite Hd'; try done. apply content_nil; [by eapply mk_role_0|]. intros x. split; [intros bn|]; intros Ex;
      (assert (j < freeinode s) as Hlt by (apply (mo_inum _ _ Hok x); eauto)); fold j in Hlt; lia.
  - split; [|done|intros x Hx; by rewrite Hv' by lia].
    intros i ty' bs' Hi Hne [G1 G2 G3 G4 G5 G6]. split; rewrite Hd'' by done; try done. change (mk_img s1) with (mk_img s).
    eapply content_ext; [done | | done | done]. intros x Hx. rewrite Hv'; [done|]. intros ->.
    rewrite (mk_meta s O) in Hx by (done || (change nmeta with 59; lia)). destruct Hx as [[? ?]|?]; done.
Qed.
