(* ===== verification/MkfsRoot.v ===== *)
(** * mkfs: the files of the command line

    The loops of [main]: one inode, one directory entry and the bytes of each
    file, and then the root directory as a map from names. *)
From stdpp Require Import functions.
From S2P Require Import Prelude Machine CString Bio FsBlock FsInode FsDinode FsFile FsData FsTrunc FsCache FsPath FsDir FsNamei Mkfs MkfsSpec MkfsFiles.
Import KString.

(** The bytes of a file, and all blocks that files need. *)
Definition file_bytes (f : host_file) : list Z := concat (snd f).
Definition file_len (f : host_file) : Z := Z.of_nat (length (file_bytes f)).
Definition total_cost (files : list host_file) : Z := foldr (λ f n, cost (file_len f) + n) 0 files.

(** A file that fits, and whose name is a string without a slash. *)
Record file_fits (f : host_file) : Prop := {
  ff_name : string_ok (fst f);
  ff_slash : slash ∉ fst f;
  ff_bytes : Forall bytes_ok (snd f);
  ff_len : file_len f ≤ MAXFILE * BSIZE
}.

(** The entries of the root directory. *)
Notation entry := (Z * list Z)%type.
Definition entry_bytes (e : entry) : list Z := mk_dirent (fst e) (snd e).
Fixpoint file_entries (j : Z) (files : list host_file) : list entry :=
  match files with
  | [] => []
  | f :: files' => (j, base_name (fst f)) :: file_entries (j + 1) files'
  end.
Definition dir_bytes (es : list entry) : list Z := concat (entry_bytes <$> es).

Lemma cost_nonneg n : 0 ≤ n → 0 ≤ cost n.
Proof. intros. unfold cost. destruct (6144 <? n); zmod. Qed.

Lemma total_cost_nonneg files : 0 ≤ total_cost files.
Proof.
  induction files as [|f files IH]; [done|]. simpl. pose proof (cost_nonneg (file_len f) ltac:(unfold file_len; lia)). lia.
Qed.

Lemma base_name_string arg : string_ok arg → string_ok (base_name arg).
Proof. intros Ha. unfold base_name. destruct (hd 0 arg =? 95); [|done]. destruct Ha; [constructor | done]. Qed.

Lemma string_bytes l : string_ok l → bytes_ok l.
Proof. intros Hl. eapply Forall_impl; [done|]. simpl. lia. Qed.

Lemma length_entry j n : bytes_ok n → 0 ≤ j < 65536 → length (entry_bytes (j, n)) = 16%nat.
Proof. intros Hn Hj. by destruct (mk_dirent_spec j n Hn Hj). Qed.

Lemma chunks_ok j ty : ∀ chunks s O bs,
  mk_ok s O → inode_no j → j < freeinode s → file_type ty → holds s O j ty bs → Forall bytes_ok chunks →
  let n := Z.of_nat (length bs) in
  let n' := n + Z.of_nat (length (concat chunks)) in
  n' ≤ MAXFILE * BSIZE → freeblock s + (cost n' - cost n) ≤ FSSIZE →
  ∃ s' O', for_each chunks (λ buf, iappend j buf) s = Ok () s' ∧ mk_ok s' O' ∧
    freeblock s' = freeblock s + (cost n' - cost n) ∧ freeinode s' = freeinode s ∧
    holds s' O' j ty (bs ++ concat chunks) ∧ keeps s O s' O' (λ i, i = j).
Proof.
  induction chunks as [|c cs IH]; intros s O bs Hok Hj Hfi Hty Hh Hby n n' Hmax Hroom.
  { exists s, O. split; [done|]. split; [done|]. unfold n'. simpl. rewrite Z.add_0_r, app_nil_r.
    split; [lia|]. split; [done|]. split; [done|]. by split. }
  apply Forall_cons in Hby as [Hc Hcs]. unfold n' in *. cbn [concat] in *. rewrite length_app in *.
  pose proof (cost_mono (n + Z.of_nat (length c)) (n + Z.of_nat (length c + length (concat cs))) ltac:(lia)) as Hm.
  destruct (iappend_ok s O j ty bs c Hok Hj Hfi Hty Hh Hc) as (s1 & O1 & E1 & Hok1 & Hfb1 & Hfi1 & Hh1 & Hk1); fold n; [lia | lia |].
  fold n in Hfb1. destruct (IH s1 O1 (bs ++ c) Hok1 Hj ltac:(lia) Hty Hh1 Hcs) as (s2 & O2 & E2 & Hok2 & Hfb2 & Hfi2 & Hh2 & Hk2).
  { rewrite length_app. lia. }
  { rewrite length_app, Hfb1. replace (Z.of_nat (length bs + length c) + Z.of_nat (length (concat cs))) with (n + Z.of_nat (length c + length (concat cs))) by lia.
    replace (Z.of_nat (length bs + length c)) with (n + Z.of_nat (length c)) by lia. lia. }
  exists s2, O2. cbn [for_each]. rewrite (bind_ok _ _ _ _ _ E1). split; [done|]. split; [done|]. split; [|split; [congruence|]].
  - rewrite Hfb2, Hfb1, length_app. replace (Z.of_nat (length bs + length c)) with (n + Z.of_nat (length c)) by lia.
    rewrite Nat2Z.inj_add, Z.add_assoc. lia.
  - rewrite app_assoc. split; [done|]. by eapply keeps_trans.
Qed.

Lemma add_file_ok s O rb f :
  mk_ok s O → 2 ≤ freeinode s < NINODES → holds s O 1 T_DIR rb → file_fits f →
  let n := Z.of_nat (length rb) in
  n + 16 ≤ MAXFILE * BSIZE → freeblock s + (cost (n + 16) - cost n) + cost (file_len f) ≤ FSSIZE →
  ∃ s' O', add_file 1 f s = Ok () s' ∧ mk_ok s' O' ∧
    freeblock s' = freeblock s + (cost (n + 16) - cost n) + cost (file_len f) ∧ freeinode s' = freeinode s + 1 ∧
    holds s' O' 1 T_DIR (rb ++ entry_bytes (freeinode s, base_name (fst f))) ∧
    holds s' O' (freeinode s) T_FILE (file_bytes f) ∧ keeps s O s' O' (λ i, i = 1 ∨ i = freeinode s).
Proof.
  intros Hok Hfi Hroot [Hn Hsl Hby Hlen] n Hmax Hroom. set (j := freeinode s) in *. unfold NINODES in Hfi.
  unfold add_file. destruct (existsb (λ c, c =? slash) (fst f)) eqn:Es.
  { apply existsb_exists in Es as (c & Hc & ->%Z.eqb_eq). destruct Hsl. by apply list_elem_of_In. }
  destruct (mk_ialloc_ok s O T_FILE Hok) as (s1 & E1 & Hok1 & Hfb1 & Hfi1 & Hh1 & Hk1); [split; unfold NINODES; lia | by right |].
  fold j in E1, Hfi1, Hh1, Hk1. rewrite (bind_ok _ _ _ _ _ E1).
  destruct (mk_dirent_spec j (base_name (fst f)) ltac:(by apply string_bytes, base_name_string) ltac:(lia)) as (El & Eb & _).
  pose proof (cost_nonneg (file_len f) ltac:(unfold file_len; lia)) as Hcf.
  assert (holds s1 O 1 T_DIR rb) as Hroot1 by (apply (ke_holds _ _ _ _ _ Hk1); [split; unfold NINODES; lia | lia | done]).
  destruct (iappend_ok s1 O 1 T_DIR rb (mk_dirent j (base_name (fst f))) Hok1) as (s2 & O2 & E2 & Hok2 & Hfb2 & Hfi2 & Hh2 & Hk2);
    [split; unfold NINODES; lia | lia | by left | done | done | rewrite El; fold n; lia | rewrite El; fold n; change (Z.of_nat 16) with 16; lia |].
  rewrite El in Hfb2. fold n in Hfb2. change (Z.of_nat 16) with 16 in Hfb2. rewrite (bind_ok _ _ _ _ _ E2).
  destruct (chunks_ok j T_FILE (snd f) s2 O2 []) as (s3 & O3 & E3 & Hok3 & Hfb3 & Hfi3 & Hh3 & Hk3);
    [done | split; unfold NINODES; lia | lia | by right | | done | done | |].
  { apply (ke_holds _ _ _ _ _ Hk2); [split; unfold NINODES; lia | lia | done]. }
  { change (freeblock s2 + (cost (file_len f) - 0) ≤ FSSIZE). lia. }
  change (freeblock s3 = freeblock s2 + (cost (file_len f) - 0)) in Hfb3.
  exists s3, O3. split; [done|]. split; [done|]. split; [lia|]. split; [lia|]. split; [|split; [done|]].
  - apply (ke_holds _ _ _ _ _ Hk3); [split; unfold NINODES; lia | lia | done].
  - eapply keeps_trans; [|eapply keeps_trans]; (eapply keeps_weaken; [|eassumption]; intros i ->; auto).
Qed.

Lemma length_dir_bytes es : Forall (λ e, 0 ≤ fst e < 65536 ∧ bytes_ok (snd e)) es → length (dir_bytes es) = (16 * length es)%nat.
Proof.
  induction 1 as [|[j n] es [Hj Hn] _ IH]; [done|]. unfold dir_bytes in *. cbn [fmap list_fmap concat].
  rewrite length_app, length_entry, IH by done. simpl. lia.
Qed.

Lemma add_files_ok files : ∀ s O rb,
  mk_ok s O → 2 ≤ freeinode s → freeinode s + Z.of_nat (length files) ≤ NINODES → holds s O 1 T_DIR rb → Forall file_fits files →
  let n := Z.of_nat (length rb) in
  let n' := n + 16 * Z.of_nat (length files) in
  n' ≤ MAXFILE * BSIZE → freeblock s + (cost n' - cost n) + total_cost files ≤ FSSIZE →
  ∃ s' O', for_each files (add_file 1) s = Ok () s' ∧ mk_ok s' O' ∧
    freeblock s' = freeblock s + (cost n' - cost n) + total_cost files ∧ freeinode s' = freeinode s + Z.of_nat (length files) ∧
    holds s' O' 1 T_DIR (rb ++ dir_bytes (file_entries (freeinode s) files)) ∧
    (∀ i f, files !! i = Some f → holds s' O' (freeinode s + Z.of_nat i) T_FILE (file_bytes f)) ∧
    keeps s O s' O' (λ i, i = 1 ∨ freeinode s ≤ i < freeinode s').
Proof.
  induction files as [|f files IH]; intros s O rb Hok H2 Hmaxi Hroot Hfit n n' Hmax Hroom.
  { exists s, O. unfold n'. simpl. rewrite !Z.add_0_r, app_nil_r. split; [done|]. split; [done|]. split; [lia|]. split; [done|].
    split; [done|]. split; [done|]. by split. }
  apply Forall_cons in Hfit as [Hf Hfs]. unfold n' in *. cbn [length total_cost foldr for_each file_entries] in *. fold (total_cost files) in *.
  pose proof (total_cost_nonneg files) as Ht. pose proof (cost_mono (n + 16) (n + 16 * Z.of_nat (Datatypes.S (length files))) ltac:(lia)) as Hm.
  destruct (add_file_ok s O rb f Hok ltac:(lia) Hroot Hf) as (s1 & O1 & E1 & Hok1 & Hfb1 & Hfi1 & Hr1 & Hh1 & Hk1); fold n; [lia | lia |].
  fold n in Hfb1. set (j := freeinode s) in *. rewrite (bind_ok _ _ _ _ _ E1).
  assert (Z.of_nat (length (rb ++ entry_bytes (j, base_name (fst f)))) = n + 16) as Hl.
  { rewrite length_app, length_entry; [lia | apply string_bytes, base_name_string, Hf | unfold NINODES in Hmaxi; lia]. }
  destruct (IH s1 O1 _ Hok1 ltac:(lia) ltac:(lia) Hr1 Hfs) as (s2 & O2 & E2 & Hok2 & Hfb2 & Hfi2 & Hr2 & Hh2 & Hk2); rewrite ?Hl in *; [lia | |].
  { replace (n + 16 + 16 * Z.of_nat (length files)) with (n + 16 * Z.of_nat (Datatypes.S (length files))) by lia. lia. }
  exists s2, O2. split; [done|]. split; [done|]. split; [|split; [lia|]; split; [|split]].
  - replace (n + 16 + 16 * Z.of_nat (length files)) with (n + 16 * Z.of_nat (Datatypes.S (length files))) in Hfb2 by lia. lia.
  - rewrite Hfi1, <- app_assoc in Hr2. exact Hr2.
  - intros [|i] g Hg.
    + injection Hg as <-. rewrite Z.add_0_r. apply (ke_holds _ _ _ _ _ Hk2); [split; unfold NINODES in *; lia | lia | done].
    + replace (j + Z.of_nat (Datatypes.S i)) with (freeinode s1 + Z.of_nat i) by lia. by apply Hh2.
  - eapply keeps_trans; (eapply keeps_weaken; [|eassumption]; simpl; intros i [->| Hi]; [by left | right; lia]).
Qed.
