(* ===== verification/MkfsMain.v ===== *)
(** * mkfs: the image

    The image that [main] leaves: the superblock, an empty log, a bitmap that
    agrees with the blocks of the files, and a root directory in which every
    file of the command line is found under its name, with its bytes. *)
From stdpp Require Import functions.
From S2P Require Import Prelude Machine CString Bio FsBlock FsInode FsDinode FsFile FsData FsTrunc FsCache FsPath FsDir FsNamei Mkfs MkfsSpec MkfsFiles MkfsRoot.
Import KString.

(** ** The first steps of [main] *)

Definition zero_block : block := λ _, 0.

Lemma zero_loop n : ∀ i s, 0 ≤ i → mk_end s = i →
  ∃ s', for_each (seqZ i (Z.of_nat n)) (λ i, wsect i zero_block) s = Ok () s' ∧ mk_end s' = i + Z.of_nat n ∧
    freeblock s' = freeblock s ∧ freeinode s' = freeinode s ∧
    (∀ x, i ≤ x < i + Z.of_nat n → mk_img s' x = zero_block) ∧ ∀ x, x < i → mk_img s' x = mk_img s x.
Proof.
  induction n as [|n IH]; intros i s Hi He.
  { exists s. simpl. split; [done|]. split; [lia|]. split; [done|]. split; [done|]. split; [lia | done]. }
  rewrite Nat2Z.inj_succ, seqZ_cons by lia. cbn [for_each].
  assert (∃ s1, wsect i zero_block s = Ok () s1 ∧ mk_end s1 = Z.succ i ∧ freeblock s1 = freeblock s ∧ freeinode s1 = freeinode s ∧
    ∀ x, mk_img s1 x = if x =? i then zero_block else mk_img s x) as (s1 & E1 & He1 & Hfb1 & Hfi1 & Hz1).
  { eexists. split; [reflexivity|]. simpl. split; [lia | done]. }
  rewrite (bind_ok _ _ _ _ _ E1), Z.pred_succ. destruct (IH (Z.succ i) s1) as (s' & E & He' & Hfb & Hfi & Hz & Hlow); [lia | done |].
  exists s'. split; [done|]. split; [lia|]. split; [congruence|]. split; [congruence|]. split.
  - intros x Hx. destruct (decide (x = i)) as [->|]; [|apply Hz; lia]. by rewrite Hlow, Hz1, Z.eqb_refl by lia.
  - intros x Hx. rewrite Hlow, Hz1 by lia. by rewrite (proj2 (Z.eqb_neq _ _)) by lia.
Qed.

(** The blocks of the empty file system. *)
Definition mk_roles : Z → brole := λ b, if (nmeta <=? b) && (b <? FSSIZE) then BFree else BMeta.

Lemma mk_roles_free b : mk_roles b = BFree ↔ nmeta ≤ b < FSSIZE.
Proof.
  unfold mk_roles. destruct (Z.leb_spec nmeta b), (Z.ltb_spec b FSSIZE); simpl; (split; [intros; done || lia | intros; done || lia]).
Qed.

Lemma mk_start s : mk_end s = FSSIZE → freeblock s = nmeta → (∀ x, 0 ≤ x < FSSIZE → x ≠ 1 → mk_img s x = zero_block) → mk_ok s mk_roles.
Proof.
  intros He Hf Hz. split; [done | | | | |].
  - rewrite Hf. by vm_compute.
  - intros b. rewrite Hf. apply mk_roles_free.
  - intros b Hb. unfold mk_roles in Hb. destruct (Z.leb_spec nmeta b), (Z.ltb_spec b FSSIZE); simpl in Hb; done.
  - intros b a Hb. rewrite Hf in Hb. change nmeta with 59 in Hb. rewrite Hz by lia. done.
  - intros b i Hb. unfold mk_roles in Hb. destruct (_ && _); destruct Hb as [[? ?]|?]; done.
Qed.

Lemma sb_block_decodes : decode_sb sb_block = mk_sb.
Proof. vm_compute. reflexivity. Qed.

(** ** The bitmap *)

Lemma bitmap_loop_ok fuel : ∀ i used buf, 0 ≤ i → used - i ≤ Z.of_nat fuel →
  ∀ b, 0 ≤ b → Z.testbit (bitmap_loop fuel i used buf (b / 8)) (b mod 8) =
    ((i <=? b) && (b <? used)) || Z.testbit (buf (b / 8)) (b mod 8).
Proof.
  induction fuel as [|fuel IH]; intros i used buf Hi Hf b Hb; cbn [bitmap_loop].
  { by destruct (Z.leb_spec i b), (Z.ltb_spec b used); simpl; try done; lia. }
  destruct (Z.ltb_spec i used) as [Hlt|Hge].
  2: { by destruct (Z.leb_spec i b), (Z.ltb_spec b used); simpl; try done; lia. }
  rewrite IH by lia. set (buf1 := store8 _ _ _).
  pose proof (bit_upd mk_sb (λ _, buf) (λ _, buf1) i true Hi eq_refl b Hb) as Hu. unfold bit in Hu. rewrite Hu.
  destruct (Z.eqb_spec b i) as [->|Hne].
  - rewrite Z.leb_refl, (proj2 (Z.ltb_lt _ _) Hlt). simpl. apply orb_true_r.
  - f_equal. f_equal. apply eq_bool_prop_intro. rewrite !Is_true_true, !Z.leb_le. lia.
Qed.

(** After [balloc] the bitmap has the blocks below [freeblock]. *)
Lemma mk_balloc_ok s O :
  mk_ok s O → ∃ s', mk_balloc (freeblock s) s = Ok () s' ∧ mk_ok s' O ∧ alloc_ok mk_sb (mk_img s') O ∧ ∀ x, x ≠ 58 → mk_img s' x = mk_img s x.
Proof.
  intros Hok. pose proof (mo_free _ _ Hok) as Hf. change nmeta with 59 in Hf. change FSSIZE with 1000 in Hf. unfold mk_balloc.
  rewrite (proj2 (Z.ltb_lt _ _)) by (change (BSIZE * 8) with 4096; lia). cbn [negb].
  destruct (wsect_ok s O (sb_bmapstart mk_sb) (bitmap_loop (Z.to_nat (freeblock s)) 0 (freeblock s) (λ _, 0)) Hok) as (s' & E & Hok' & Hv & Hfb & Hfi);
    [change (sb_bmapstart mk_sb) with 58; lia|].
  exists s'. split; [done|]. split; [done|]. split; [split|].
  - intros b Hb. change (sb_size mk_sb) with 1000 in Hb. unfold bit. rewrite Hv, Z.eqb_refl, bitmap_loop_ok by lia. rewrite Z.testbit_0_l, orb_false_r.
    rewrite (mo_role _ _ Hok), andb_false_iff, Z.leb_gt, Z.ltb_ge. change FSSIZE with 1000. lia.
  - intros b Hb. apply (mo_data _ _ Hok) in Hb. exact Hb.
  - intros x Hx. rewrite Hv. by rewrite (proj2 (Z.eqb_neq _ _)).
Qed.

(** ** The root directory *)

Lemma nth_flat16 (ls : list (list Z)) : Forall (λ l, length l = 16%nat) ls → ∀ k m, (m < 16)%nat →
  nth (16 * k + m) (concat ls) 0 = nth m (default [] (ls !! k)) 0.
Proof.
  induction 1 as [|l ls Hl _ IH]; intros k m Hm; [by destruct (16 * k + m)%nat, m|]. cbn [concat].
  destruct k as [|k]; simpl lookup.
  - rewrite Nat.mul_0_r. simpl. rewrite app_nth1 by lia. done.
  - rewrite app_nth2 by lia. rewrite Hl. replace (16 * Datatypes.S k + m - 16)%nat with (16 * k + m)%nat by lia. by apply IH.
Qed.

Definition entries_ok (es : list entry) : Prop := Forall (λ e, 0 < fst e < 65536 ∧ bytes_ok (snd e)) es.

(** The slots of a directory with the entries [es]. *)
Lemma dir_slot_entry v addrs es k :
  entries_ok es → (∀ o, 0 ≤ o < MAXFILE * BSIZE → fbyte v addrs o = nth (Z.to_nat o) (dir_bytes es) 0) →
  0 ≤ k < 4480 → dir_slot v addrs k = default (replicate 16 0) (entry_bytes <$> es !! Z.to_nat k).
Proof.
  intros He Hb Hk. unfold dir_slot, fbytes. apply list_eq. intros m. rewrite list_lookup_fmap.
  assert (length (default (replicate 16 0) (entry_bytes <$> es !! Z.to_nat k)) = 16%nat) as Hl.
  { destruct (es !! Z.to_nat k) as [[j n]|] eqn:E; [|done]. apply (Forall_lookup_1 _ _ _ _ He) in E as [Hj Hn]. simpl in *. apply (length_entry j n); [done | lia]. }
  destruct (decide (m < 16)%nat) as [Hm|Hm].
  2: { rewrite !lookup_ge_None_2; [done | rewrite Hl; lia | rewrite length_seqZ; unfold DIRENT; lia]. }
  rewrite lookup_seqZ_lt by (unfold DIRENT; lia). cbn [fmap option_fmap option_map]. change (MAXFILE * BSIZE) with 71680 in Hb.
  rewrite Hb by (unfold DIRENT; lia). replace (Z.to_nat (DIRENT * k + Z.of_nat m)) with (16 * Z.to_nat k + m)%nat by (unfold DIRENT; lia).
  unfold dir_bytes. rewrite nth_flat16; [|apply Forall_fmap; eapply Forall_impl; [exact He|]; intros [j n] [Hj Hn]; simpl in *; apply (length_entry j n); [done | lia]|done].
  rewrite list_lookup_fmap. destruct (es !! Z.to_nat k) as [e|]; cbn [fmap option_fmap option_map default from_option id] in *.
  - rewrite nth_lookup. destruct (entry_bytes e !! m) eqn:Em; [done|]. apply lookup_ge_None in Em. lia.
  - rewrite lookup_replicate_2 by done. by destruct m.
Qed.

(** The test of [dirlookup] on a slot. *)
Definition entry_match (name : list Z) (e : entry) : bool := namecmp name (snd e) =? 0.

Lemma slot_match_entry v addrs es name k :
  entries_ok es → (∀ o, 0 ≤ o < MAXFILE * BSIZE → fbyte v addrs o = nth (Z.to_nat o) (dir_bytes es) 0) → 0 ≤ k < 4480 →
  slot_match name (dir_slot v addrs k) = match es !! Z.to_nat k with Some e => entry_match name e | None => false end.
Proof.
  intros He Hb Hk. rewrite (dir_slot_entry v addrs es k He Hb Hk). destruct (es !! Z.to_nat k) as [[j n]|] eqn:E; [|done].
  apply (Forall_lookup_1 _ _ _ _ He) in E as [Hj Hn]. simpl in Hj, Hn. cbn [fmap option_fmap option_map default from_option id].
  destruct (mk_dirent_spec j n Hn ltac:(lia)) as (_ & _ & Ei & Ec). unfold slot_match, entry_bytes, entry_match. cbn [fst snd].
  rewrite Ei, Ec, (proj2 (Z.eqb_neq _ _)) by lia. done.
Qed.

(** A directory whose names differ is the map of its entries. *)
Lemma dlookup_entry v d es k j n :
  entries_ok es → (∀ o, 0 ≤ o < MAXFILE * BSIZE → fbyte v (i_addrs d) o = nth (Z.to_nat o) (dir_bytes es) 0) →
  Z.of_nat (length es) ≤ nslots d ≤ 4480 → NoDup (name_of ∘ snd <$> es) → es !! k = Some (j, n) → dlookup v d n = Some j.
Proof.
  intros He Hb Hn Hnd Hk. pose proof (lookup_lt_Some _ _ _ Hk) as Hlt. pose proof (Forall_lookup_1 _ _ _ _ He Hk) as [Hj Hby]. simpl in Hj, Hby.
  assert (find_name v d n = Some (Z.of_nat k)) as E.
  - apply first_slot_only.
    + apply elem_of_seqZ. lia.
    + rewrite (slot_match_entry v _ es) by (done || lia). rewrite Nat2Z.id, Hk. apply Z.eqb_eq. by apply namecmp_zero.
    + intros m Hm%elem_of_seqZ Hne. rewrite (slot_match_entry v _ es) by (done || lia). destruct (es !! Z.to_nat m) as [[j' n']|] eqn:Em; [|done].
      pose proof (Forall_lookup_1 _ _ _ _ He Em) as [_ Hby']. apply Z.eqb_neq. rewrite namecmp_zero by done. intros Heq.
      assert (Z.to_nat m = k); [|lia]. apply (NoDup_lookup _ _ _ (name_of n) Hnd); rewrite list_lookup_fmap; [rewrite Em | rewrite Hk]; simpl; by rewrite ?Heq.
  - unfold dlookup. rewrite E. cbn [fmap option_fmap option_map]. rewrite (dir_slot_entry v _ es) by (done || lia). rewrite Nat2Z.id, Hk.
    cbn [fmap option_fmap option_map default from_option id]. f_equal. by destruct (mk_dirent_spec j n Hby ltac:(lia)) as (_ & _ & Ei & _).
Qed.

(** What is found is an entry. *)
Lemma dlookup_inv v d es name j :
  entries_ok es → (∀ o, 0 ≤ o < MAXFILE * BSIZE → fbyte v (i_addrs d) o = nth (Z.to_nat o) (dir_bytes es) 0) →
  nslots d ≤ 4480 → dlookup v d name = Some j → ∃ k n, es !! k = Some (j, n).
Proof.
  intros He Hb Hn. unfold dlookup. destruct (find_name v d name) as [k|] eqn:E; [|done]. apply first_slot_some in E as [Hk%elem_of_seqZ Hm].
  rewrite (slot_match_entry v _ es) in Hm by (done || lia). destruct (es !! Z.to_nat k) as [[i n]|] eqn:Ek; [|done].
  cbn [fmap option_fmap option_map]. rewrite (dir_slot_entry v _ es), Ek by (done || lia). cbn [fmap option_fmap option_map default from_option id].
  pose proof (Forall_lookup_1 _ _ _ _ He Ek) as [Hi Hby]. simpl in Hi, Hby.
  destruct (mk_dirent_spec i n Hby ltac:(lia)) as (_ & _ & Ei & _). unfold entry_bytes. cbn [fst snd]. rewrite Ei. intros [= <-]. eauto.
Qed.
