(* ===== verification/MkfsImage.v ===== *)
(** * mkfs: what the image promises to the kernel

    The image that [main] leaves is one the file system can be used on: the
    superblock, an empty log, a bitmap that agrees with the blocks of the
    files, free inodes, and a tree in which every file of the command line is
    found under its name, with its bytes. *)
From stdpp Require Import functions.
From S2P Require Import Prelude Machine CString Bio FsBlock FsInode FsDinode FsFile FsData FsTrunc FsCache FsPath FsDir FsNamei Mkfs MkfsSpec MkfsFiles MkfsRoot MkfsMain.
Import KString.

Definition nfiles (files : list host_file) : Z := Z.of_nat (length files).

(** The command lines that make a whole image: the inodes, the names and the
    blocks suffice, and the entries of the root do not fill its last block. *)
Record files_ok (files : list host_file) : Prop := {
  fk_fits : Forall file_fits files;
  fk_count : 2 + nfiles files ≤ NINODES;
  fk_round : (2 + nfiles files) mod 32 ≠ 0;
  fk_names : NoDup ([] :: [46] :: [46; 46] :: (take dirsiz ∘ base_name ∘ fst <$> files));
  fk_room : nmeta + cost (16 * (2 + nfiles files)) + total_cost files ≤ FSSIZE
}.

Definition root_entries (files : list host_file) : list entry := (1, [46]) :: (1, [46; 46]) :: file_entries 2 files.

Record image (files : list host_file) (v : Z → block) (O : Z → brole) : Prop := {
  im_sb : decode_sb (v 1) = mk_sb;
  im_log a : v 2 a = 0;
  im_alloc : alloc_ok mk_sb v O;
  im_tree : tree_ok mk_sb v O (λ j, 1 ≤ j ≤ 1 + nfiles files);
  im_free j : 2 + nfiles files ≤ j < NINODES → i_type (on_disk mk_sb v j) = 0;
  im_dots : dlookup v (on_disk mk_sb v 1) [46] = Some 1 ∧ dlookup v (on_disk mk_sb v 1) [46; 46] = Some 1;
  im_file i f : files !! i = Some f →
    let j := 2 + Z.of_nat i in
    let d := on_disk mk_sb v j in
    resolve mk_sb false v ROOTINO (take dirsiz <$> elements (slash :: base_name (fst f))) = Some j ∧
    i_type d = T_FILE ∧ i_nlink d = 1 ∧ file_ok v O d ∧ fbytes v (i_addrs d) 0 (i_size d) = file_bytes f
}.

(** ** The entries *)

Lemma file_entries_lookup files : ∀ j i f, files !! i = Some f → file_entries j files !! i = Some (j + Z.of_nat i, base_name (fst f)).
Proof.
  induction files as [|g files IH]; intros j [|i] f Hi; [done | done | |]; simpl in *.
  - injection Hi as ->. by rewrite Z.add_0_r.
  - rewrite (IH _ _ f Hi). f_equal. f_equal. lia.
Qed.

Lemma file_entries_inv files : ∀ j k i n, file_entries j files !! k = Some (i, n) → j ≤ i < j + nfiles files.
Proof.
  unfold nfiles. induction files as [|g files IH]; intros j [|k] i n Hk; [done | done | |]; simpl in *.
  - injection Hk as <- <-. lia.
  - apply IH in Hk. lia.
Qed.

Lemma file_entries_names files : ∀ j, Forall file_fits files → name_of ∘ snd <$> file_entries j files = take dirsiz ∘ base_name ∘ fst <$> files.
Proof.
  induction files as [|g files IH]; intros j Hf; [done|]. apply Forall_cons in Hf as [Hg Hf]. cbn [file_entries fmap list_fmap]. rewrite <- (IH (j + 1)) by done.
  f_equal. unfold compose, name_of. simpl. apply cstr_string, base_name_string, Hg.
Qed.

Lemma file_entries_ok files : ∀ j, Forall file_fits files → 0 < j → j + nfiles files ≤ 65536 → entries_ok (file_entries j files).
Proof.
  unfold nfiles. induction files as [|g files IH]; intros j Hf H0 Hj; [constructor|]. apply Forall_cons in Hf as [Hg Hf]. simpl in Hj.
  apply Forall_cons. split; [|apply IH; [done | lia | lia]]. simpl. split; [lia|]. apply string_bytes, base_name_string, Hg.
Qed.

Lemma root_entries_ok files : files_ok files → entries_ok (root_entries files).
Proof.
  intros [Hf Hc _ _ _]. unfold NINODES in Hc. apply Forall_cons. split; [simpl; split; [lia | repeat constructor; lia]|].
  apply Forall_cons. split; [simpl; split; [lia | repeat constructor; lia]|]. apply file_entries_ok; [done | lia | lia].
Qed.

Lemma root_entries_names files : files_ok files → NoDup (name_of ∘ snd <$> root_entries files).
Proof.
  intros [Hf _ _ Hn _]. apply NoDup_cons in Hn as [_ Hn]. cbn [root_entries fmap list_fmap]. by rewrite file_entries_names.
Qed.

Lemma length_file_entries files j : length (file_entries j files) = length files.
Proof. revert j. induction files as [|g files IH]; intros j; simpl; [done | by rewrite IH]. Qed.

Lemma length_root files : files_ok files → Z.of_nat (length (dir_bytes (root_entries files))) = 16 * (2 + nfiles files).
Proof.
  intros Hok. rewrite length_dir_bytes.
  - cbn [root_entries length]. rewrite length_file_entries. unfold nfiles. lia.
  - eapply Forall_impl; [by apply root_entries_ok|]. simpl. intros e [? ?]. split; [lia | done].
Qed.

(** The path of a file has one element. *)
Lemma pieces_plain l : ∀ acc, slash ∉ l → pieces l acc = [rev acc ++ l].
Proof.
  induction l as [|c l IH]; intros acc Hl; [by rewrite app_nil_r|]. apply not_elem_of_cons in Hl as [Hc Hl]. cbn [pieces].
  rewrite (proj2 (Z.eqb_neq _ _)) by done. rewrite IH by done. simpl. by rewrite <- app_assoc.
Qed.

Lemma elements_file name : slash ∉ name → name ≠ [] → elements (slash :: name) = [name].
Proof. intros Hs Hn. unfold elements. cbn [pieces]. rewrite Z.eqb_refl, pieces_plain by done. simpl. by rewrite filter_cons_False, filter_cons_True by tauto. Qed.

Lemma base_name_slash arg : slash ∉ arg → slash ∉ base_name arg.
Proof. unfold base_name. intros Ha. destruct (hd 0 arg =? 95); [|done]. destruct arg; [done|]. by apply not_elem_of_cons in Ha as [_ ?]. Qed.

(** ** A file of the image *)

Lemma holds_file s O j bs : holds s O j T_FILE bs →
  let d := on_disk mk_sb (mk_img s) j in
  i_type d = T_FILE ∧ i_nlink d = 1 ∧ file_ok (mk_img s) O d ∧ fbytes (mk_img s) (i_addrs d) 0 (i_size d) = bs.
Proof.
  intros [A _ _ D E F] d. split; [done|]. split; [done|]. pose proof (ct_len _ _ _ _ _ F) as Hl. fold d in E, F. split.
  - split; [apply F | rewrite E; lia|]. intros o Ho. rewrite E in Ho. apply (ct_block _ _ _ _ _ F); [|unfold BSIZE; zmod].
    unfold MAXFILE, NDIRECT, NINDIRECT, BSIZE in *. zmod.
  - apply list_eq. intros k. unfold fbytes. rewrite list_lookup_fmap, E. destruct (decide (k < length bs)%nat) as [Hk|Hk].
    + rewrite lookup_seqZ_lt by lia. cbn [fmap option_fmap option_map]. rewrite (ct_byte _ _ _ _ _ F) by lia.
      replace (Z.to_nat (0 + Z.of_nat k)) with k by lia. rewrite nth_lookup.
      destruct (bs !! k) eqn:Ek; [done|]. apply lookup_ge_None in Ek. lia.
    + rewrite lookup_seqZ_ge by lia. by rewrite lookup_ge_None_2 by lia.
Qed.

(** ** The files are in place *)

Record built (files : list host_file) (s : mkst) (O : Z → brole) : Prop := {
  bu_ok : mk_ok s O;
  bu_root : holds s O 1 T_DIR (dir_bytes (root_entries files));
  bu_file i f : files !! i = Some f → holds s O (2 + Z.of_nat i) T_FILE (file_bytes f);
  bu_free j : 2 + nfiles files ≤ j < NINODES → i_type (on_disk mk_sb (mk_img s) j) = 0;
  bu_low : mk_img s 1 = sb_block ∧ mk_img s 2 = zero_block
}.

(** [main] up to the root inode. *)
Lemma mk_first s0 :
  ∃ s, (∀ k : M mkst (), (modify (λ s, s <| mk_end := 0 |> <| freeinode := 1 |> <| freeblock := nmeta |>);;
          for_each (seqZ 0 FSSIZE) (λ i, wsect i (λ _, 0));; wsect 1 sb_block;; k) s0 = k s) ∧
    mk_ok s mk_roles ∧ freeblock s = nmeta ∧ freeinode s = 1 ∧ mk_img s 1 = sb_block ∧
    ∀ x, 0 ≤ x < FSSIZE → x ≠ 1 → mk_img s x = zero_block.
Proof.
  set (s1 := s0 <| mk_end := 0 |> <| freeinode := 1 |> <| freeblock := nmeta |>).
  destruct (zero_loop 1000 0 s1 ltac:(lia) eq_refl) as (s2 & E2 & He & Hfb & Hfi & Hz & _).
  change (Z.of_nat 1000) with FSSIZE in *. rewrite Z.add_0_l in He, Hz.
  exists (s2 <| mk_img := λ x, if x =? 1 then sb_block else mk_img s2 x |> <| mk_end := Z.max (mk_end s2) (1 + 1) |>).
  assert (∀ x, 0 ≤ x < FSSIZE → x ≠ 1 → (if x =? 1 then sb_block else mk_img s2 x) = zero_block) as Hz'.
  { intros x Hx Hne. rewrite (proj2 (Z.eqb_neq x 1)) by done. by apply Hz. }
  split; [intros k; rewrite bind_modify; fold s1; by rewrite (bind_ok _ _ _ _ _ E2)|].
  split; [apply mk_start; simpl; [by rewrite He | done | exact Hz']|]. split; [done|]. split; [done|]. split; [done|]. exact Hz'.
Qed.

(** The root inode with its own two entries. *)
Lemma mk_root s :
  mk_ok s mk_roles → freeblock s = nmeta → freeinode s = 1 → (∀ x, 0 ≤ x < FSSIZE → x ≠ 1 → mk_img s x = zero_block) →
  ∃ s1 s2 s3 O, mk_ialloc T_DIR s = Ok 1 s1 ∧ iappend 1 (mk_dirent 1 [46]) s1 = Ok () s2 ∧ iappend 1 (mk_dirent 1 [46; 46]) s2 = Ok () s3 ∧
    mk_ok s3 O ∧ freeblock s3 = nmeta + 1 ∧ freeinode s3 = 2 ∧ holds s3 O 1 T_DIR (dir_bytes [(1, [46]); (1, [46; 46])]) ∧
    mk_img s3 1 = mk_img s 1 ∧ mk_img s3 2 = zero_block ∧ ∀ j, 2 ≤ j < NINODES → i_type (on_disk mk_sb (mk_img s3) j) = 0.
Proof.
  intros Hok Hfb Hfi Hz. assert (inode_no 1) as H1 by (by vm_compute).
  assert (∀ n, bytes_ok n → bytes_ok (mk_dirent 1 n)) as Hdot by (intros n Hn; apply (mk_dirent_spec 1 n Hn); lia).
  destruct (mk_ialloc_ok s mk_roles T_DIR Hok) as (s1 & E1 & Hok1 & Hfb1 & Hfi1 & Hh1 & Hk1); [by rewrite Hfi | by left |]. rewrite Hfi in *.
  destruct (iappend_ok s1 mk_roles 1 T_DIR [] (mk_dirent 1 [46]) Hok1 H1) as (s2 & O2 & E2 & Hok2 & Hfb2 & Hfi2 & Hh2 & Hk2);
    [lia | by left | done | by apply Hdot; repeat constructor | by vm_compute | rewrite Hfb1, Hfb; by vm_compute |].
  rewrite Hfb1, Hfb in Hfb2. change (freeblock s2 = 60) in Hfb2.
  destruct (iappend_ok s2 O2 1 T_DIR (mk_dirent 1 [46]) (mk_dirent 1 [46; 46]) Hok2 H1) as (s3 & O3 & E3 & Hok3 & Hfb3 & Hfi3 & Hh3 & Hk3);
    [lia | by left | exact Hh2 | by apply Hdot; repeat constructor | by vm_compute | rewrite Hfb2; by vm_compute |].
  pose proof (keeps_trans _ _ _ _ _ _ _ Hk1 (keeps_trans _ _ _ _ _ _ _ Hk2 Hk3)) as [_ Hd Hl].
  exists s1, s2, s3, O3. split; [done|]. split; [done|]. split; [done|]. split; [done|].
  split; [rewrite Hfb3, Hfb2; done|]. split; [lia|]. split; [done|]. split; [by apply Hl|]. split; [rewrite Hl by lia; by apply Hz|].
  intros j Hj. unfold NINODES in Hj. assert (inode_no j) as Hj' by (split; unfold NINODES; lia). pose proof (iblock_bounds j Hj').
  rewrite Hd by (done || lia). unfold on_disk. rewrite Hz by (change FSSIZE with 1000; lia). done.
Qed.

Lemma mk_built files s0 : files_ok files →
  ∃ s O, built files s O ∧ mkfs files s0 =
    (din ← rinode 1; winode 1 (din <| i_size := u32 ((i_size din / BSIZE + 1) * BSIZE) |>);; used ← gets freeblock; mk_balloc used) s.
Proof.
  intros Hfk. pose proof Hfk as [Hfit Hcnt _ _ Hroom]. unfold NINODES, nfiles in *. change nmeta with 59 in *. change FSSIZE with 1000 in *.
  destruct (mk_first s0) as (sa & Ea & Hoka & Hfba & Hfia & Hba & Hza).
  destruct (mk_root sa Hoka Hfba Hfia Hza) as (s1 & s2 & s3 & O3 & E1 & E2 & E3 & Hok3 & Hfb3 & Hfi3 & Hr3 & Hb3 & Hl3 & Hf3). change (nmeta + 1) with 60 in Hfb3.
  destruct (add_files_ok files s3 O3 _ Hok3 ltac:(lia) ltac:(unfold NINODES; lia) Hr3 Hfit) as (s4 & O4 & E4 & Hok4 & Hfb4 & Hfi4 & Hr4 & Hh4 & [_ Hd4 Hl4]).
  { change (Z.of_nat (length (dir_bytes _))) with 32. change (MAXFILE * BSIZE) with 71680. lia. }
  { change (Z.of_nat (length (dir_bytes _))) with 32. change (cost 32) with 1. replace (32 + 16 * Z.of_nat (length files)) with (16 * (2 + Z.of_nat (length files))) by lia.
    change FSSIZE with 1000. lia. }
  rewrite Hfi3 in Hr4, Hh4, Hd4, Hfi4. exists s4, O4. split; [split|].
  - done.
  - exact Hr4.
  - exact Hh4.
  - unfold nfiles, NINODES. intros j Hj. rewrite Hd4 by (unfold inode_no, NINODES; lia). apply Hf3. unfold NINODES. lia.
  - rewrite !Hl4, Hb3 by lia. done.
  - unfold mkfs. rewrite Ea, (bind_ok _ _ _ _ _ E1). change (negb (1 =? ROOTINO)) with false. cbn iota.
    by rewrite (bind_ok _ _ _ _ _ E2), (bind_ok _ _ _ _ _ E3), (bind_ok _ _ _ _ _ E4).
Qed.

(** The size of the root directory in the end. *)
Definition root_size (files : list host_file) : Z := (16 * (2 + nfiles files) / BSIZE + 1) * BSIZE.

(** ** The last steps of [main] *)

Record finished (files : list host_file) (s : mkst) (O : Z → brole) : Prop := {
  fn_ok : mk_ok s O;
  fn_alloc : alloc_ok mk_sb (mk_img s) O;
  fn_root : let d := on_disk mk_sb (mk_img s) 1 in
    i_type d = T_DIR ∧ i_nlink d = 1 ∧ i_size d = root_size files ∧ content (mk_img s) O 1 (i_addrs d) (dir_bytes (root_entries files));
  fn_file i f : files !! i = Some f → holds s O (2 + Z.of_nat i) T_FILE (file_bytes f);
  fn_free j : 2 + nfiles files ≤ j < NINODES → i_type (on_disk mk_sb (mk_img s) j) = 0;
  fn_low : mk_img s 1 = sb_block ∧ ∀ a, mk_img s 2 a = 0
}.

(** Metadata that holds no inode does not matter to the files. *)
Lemma content_meta s s' O x0 i addrs bs :
  mk_ok s O → x0 < nmeta → (∀ x, x ≠ x0 → mk_img s' x = mk_img s x) → content (mk_img s) O i addrs bs → content (mk_img s') O i addrs bs.
Proof.
  intros Hok Hx0 Hv Hc. eapply content_ext; [done | | done | done]. intros x Hx. apply Hv. intros ->.
  rewrite (mk_meta s O) in Hx by done. destruct Hx as [[? ?]|?]; done.
Qed.

Lemma on_disk_meta s s' j : inode_no j → (∀ x, x ≠ 58 → mk_img s' x = mk_img s x) → on_disk mk_sb (mk_img s') j = on_disk mk_sb (mk_img s) j.
Proof. intros Hj Hv. pose proof (iblock_bounds j Hj). unfold on_disk. by rewrite Hv by lia. Qed.

Lemma mk_finish files s O : files_ok files → built files s O →
  ∃ s', (din ← rinode 1; winode 1 (din <| i_size := u32 ((i_size din / BSIZE + 1) * BSIZE) |>);; used ← gets freeblock; mk_balloc used) s = Ok () s' ∧
    finished files s' O.
Proof.
  intros Hfk [Hok Hr Hf Hfree [Hl1 Hl2]]. pose proof (fk_count _ Hfk) as Hcnt. pose proof (length_root files Hfk) as Hlen.
  pose proof Hr as [R1 R2 R3 R4 R5 R6]. assert (inode_no 1) as H1 by (by vm_compute). rewrite (bind_ok _ _ _ _ _ (rinode_ok s O 1 Hok H1)).
  set (d := on_disk mk_sb (mk_img s) 1) in *. assert (i_inum d = 1) as Hinum by done. rewrite R5, Hlen.
  fold (root_size files). assert (0 ≤ root_size files < 65536) as Hrs by (unfold root_size, NINODES, nfiles, BSIZE in *; zmod). rewrite u32_small by lia.
  destruct (winode_ok s O 1 (d <| i_size := root_size files |>) Hok H1) as (s1 & E1 & Hok1 & Hfb1 & Hfi1 & Hv1 & Hd1 & Ho1).
  { clearbody d. split; simpl; rewrite ?R1, ?R2, ?R3, ?R4; try lia; [done | apply R6 | apply (ct_word _ _ _ _ _ R6)]. }
  { done. }
  rewrite (bind_ok _ _ _ _ _ E1), bind_gets. destruct (mk_balloc_ok s1 O Hok1) as (s2 & E2 & Hok2 & Hal & Hv2).
  exists s2. split; [done|].
  assert (IBLOCK 1 mk_sb = 32) as Eib by reflexivity. rewrite Eib in Hv1.
  assert (∀ i addrs bs, content (mk_img s) O i addrs bs → content (mk_img s2) O i addrs bs) as Hc.
  { intros i addrs bs Hc. eapply (content_meta s1 s2 O 58); [done | by vm_compute | done|]. by eapply (content_meta s s1 O 32); [done | by vm_compute | done|]. }
  assert (∀ j, inode_no j → j ≠ 1 → on_disk mk_sb (mk_img s2) j = on_disk mk_sb (mk_img s) j) as Hd.
  { intros j Hj Hne. rewrite (on_disk_meta s1 s2) by done. by apply Ho1. }
  split; [done | done | | | |].
  - cbv zeta. rewrite (on_disk_meta s1 s2), Hd1 by done. cbn [i_type i_nlink i_size i_addrs]. split; [done|]. split; [done|]. split; [done|]. by apply Hc.
  - intros i f Hi. pose proof (Hf i f Hi) as [A B C D E F]. pose proof (lookup_lt_Some _ _ _ Hi) as Hlt.
    assert (inode_no (2 + Z.of_nat i)) as Hj by (unfold inode_no, nfiles, NINODES in *; lia). split; rewrite Hd by (done || lia); try done. by apply Hc.
  - intros j Hj. unfold nfiles in Hj. rewrite Hd by (unfold inode_no; lia). by apply Hfree.
  - rewrite !Hv2, !Hv1, Hl1, Hl2 by lia. done.
Qed.

Lemma root_dir files s O : files_ok files → finished files s O → dir_ok (mk_img s) O (on_disk mk_sb (mk_img s) 1).
Proof.
  intros Hfk Hfin. pose proof (length_root files Hfk) as Hlen. pose proof (fk_round _ Hfk) as Hround. pose proof (fk_count _ Hfk) as Hcnt.
  destruct (fn_root _ _ _ Hfin) as (R1 & R2 & R3 & R4). set (d := on_disk mk_sb (mk_img s) 1) in *.
  assert (i_inum d = 1) as Hinum by done. clearbody d. unfold root_size, nfiles, NINODES, BSIZE in *.
  split; [split | done |].
  - rewrite Hinum. apply R4.
  - rewrite R3. change (MAXFILE * BSIZE) with 71680. zmod.
  - intros o Ho. rewrite R3 in Ho. apply (ct_block _ _ _ _ _ R4); [change MAXFILE with 140 | rewrite Hlen]; unfold BSIZE; zmod.
  - rewrite R3. unfold DIRENT. set (q := _ + 1). replace (q * 512) with (q * 32 * 16) by lia. by apply Z.mod_mul.
Qed.

Lemma root_byte files s O : finished files s O → ∀ o, 0 ≤ o < MAXFILE * BSIZE →
  fbyte (mk_img s) (i_addrs (on_disk mk_sb (mk_img s) 1)) o = nth (Z.to_nat o) (dir_bytes (root_entries files)) 0.
Proof. intros Hfin o Ho. destruct (fn_root _ _ _ Hfin) as (_ & _ & _ & R4). by apply (ct_byte _ _ _ _ _ R4). Qed.

Lemma root_slots files s O : files_ok files → finished files s O →
  Z.of_nat (length (root_entries files)) ≤ nslots (on_disk mk_sb (mk_img s) 1) ≤ 4480.
Proof.
  intros Hfk Hfin. destruct (fn_root _ _ _ Hfin) as (_ & _ & R3 & _). pose proof (fk_count _ Hfk) as Hcnt. unfold nslots. rewrite R3.
  cbn [root_entries length]. rewrite length_file_entries. unfold root_size, nfiles, NINODES, BSIZE, DIRENT in *. zmod.
Qed.

Lemma root_lookup files s O k j n : files_ok files → finished files s O → root_entries files !! k = Some (j, n) →
  dlookup (mk_img s) (on_disk mk_sb (mk_img s) 1) n = Some j.
Proof.
  intros Hfk Hfin Hk. eapply (dlookup_entry _ _ (root_entries files)); [by apply root_entries_ok | by eapply root_byte | by eapply root_slots | by apply root_entries_names | done].
Qed.

Lemma image_tree files s O : files_ok files → finished files s O → tree_ok mk_sb (mk_img s) O (λ j, 1 ≤ j ≤ 1 + nfiles files).
Proof.
  intros Hfk Hfin. pose proof (fk_count _ Hfk) as Hcnt. destruct (fn_root _ _ _ Hfin) as (R1 & R2 & R3 & R4).
  assert (∀ j, 2 ≤ j ≤ 1 + nfiles files → i_type (on_disk mk_sb (mk_img s) j) = T_FILE ∧ i_nlink (on_disk mk_sb (mk_img s) j) = 1) as Hfile.
  { intros j Hj. unfold nfiles in Hj. destruct (lookup_lt_is_Some_2 files (Z.to_nat (j - 2))) as [f Hf]; [lia|].
    apply (fn_file _ _ _ Hfin) in Hf as [A _ _ D _ _]. replace (2 + Z.of_nat (Z.to_nat (j - 2))) with j in * by lia. done. }
  assert (∀ j, 1 ≤ j ≤ 1 + nfiles files → j = 1 ∨ 2 ≤ j ≤ 1 + nfiles files) as Hcase by lia. split.
  - intros j Hj. change (sb_ninodes mk_sb) with NINODES. lia.
  - intros j [->|Hj]%Hcase; [by rewrite R1 | by rewrite (proj1 (Hfile j Hj))].
  - intros j [->|Hj]%Hcase; [by rewrite R2 | by rewrite (proj2 (Hfile j Hj))].
  - intros j [->|Hj]%Hcase Ht; [by eapply root_dir | by rewrite (proj1 (Hfile j Hj)) in Ht].
  - intros j name i [->|Hj]%Hcase Ht Hl; [|by rewrite (proj1 (Hfile j Hj)) in Ht].
    apply (dlookup_inv _ _ (root_entries files)) in Hl as (k & n & Hk); [|by apply root_entries_ok | by eapply root_byte | by eapply root_slots].
    destruct k as [|[|k]]; [injection Hk as <- _; unfold nfiles; lia .. |]. apply file_entries_inv in Hk. lia.
Qed.

Lemma image_file files s O i f : files_ok files → finished files s O → files !! i = Some f →
  resolve mk_sb false (mk_img s) ROOTINO (take dirsiz <$> elements (slash :: base_name (fst f))) = Some (2 + Z.of_nat i).
Proof.
  intros Hfk Hfin Hi. destruct (fn_root _ _ _ Hfin) as (R1 & _). pose proof (Forall_lookup_1 _ _ _ _ (fk_fits _ Hfk) Hi) as Hf.
  rewrite elements_file; [|apply base_name_slash, Hf|].
  - cbn [fmap list_fmap resolve]. change ROOTINO with 1. rewrite R1, Z.eqb_refl. cbn [andb].
    rewrite <- (cstr_string _ dirsiz) by apply base_name_string, Hf. fold (name_of (base_name (fst f))). rewrite dlookup_name.
    rewrite (root_lookup files s O (Datatypes.S (Datatypes.S i)) (2 + Z.of_nat i)); [done | done | done|]. by apply (file_entries_lookup files 2).
  - intros E. pose proof (fk_names _ Hfk) as [Hn _]%NoDup_cons. apply Hn, list_elem_of_further, list_elem_of_further.
    apply list_elem_of_fmap. exists f. unfold compose. rewrite E. split; [done|]. by eapply list_elem_of_lookup_2.
Qed.

Lemma mkfs_finishes files s0 : files_ok files → ∃ s' O, mkfs files s0 = Ok () s' ∧ finished files s' O.
Proof.
  intros Hfk. destruct (mk_built files s0 Hfk) as (s & O & Hb & ->). destruct (mk_finish files s O Hfk Hb) as (s' & -> & Hfin). by exists s', O.
Qed.

(** The header of the log may be written again. *)
Lemma finished_ext files s O v' :
  finished files s O → (∀ x, x ≠ 2 → v' x = mk_img s x) → (∀ a, v' 2 a = 0) → files_ok files → finished files (s <| mk_img := v' |>) O.
Proof.
  intros Hfin Hv Hz Hfk. pose proof Hfin as [[A1 A2 A3 A4 A5 A6] B C D E [F1 F2]]. set (s' := s <| mk_img := v' |>).
  assert (∀ x, x ≠ 2 → mk_img s' x = mk_img s x) as Hv' by exact Hv.
  assert (∀ i addrs bs, content (mk_img s) O i addrs bs → content (mk_img s') O i addrs bs) as Hc.
  { intros i addrs bs. by apply (content_meta s s' O 2); [apply Hfin | by vm_compute |]. }
  assert (∀ j, inode_no j → on_disk mk_sb (mk_img s') j = on_disk mk_sb (mk_img s) j) as Hd.
  { intros j Hj. pose proof (iblock_bounds j Hj). unfold on_disk. by rewrite Hv' by lia. }
  pose proof (fk_count _ Hfk) as Hcnt. split.
  - split; try done. intros b a Hb. change nmeta with 59 in A2. rewrite Hv' by (simpl in Hb; lia). by apply A5.
  - eapply alloc_ok_ext; [|exact B]. intros a. by rewrite Hv'.
  - cbv zeta. rewrite Hd by (by vm_compute). destruct C as (C1 & C2 & C3 & C4). split; [done|]. split; [done|]. split; [done|]. by apply Hc.
  - intros i f Hi. pose proof (D i f Hi) as [G1 G2 G3 G4 G5 G6]. pose proof (lookup_lt_Some _ _ _ Hi).
    assert (inode_no (2 + Z.of_nat i)) by (unfold inode_no, nfiles in *; lia). split; rewrite Hd by done; try done. by apply Hc.
  - intros j Hj. rewrite Hd by (unfold inode_no, nfiles in *; lia). by apply E.
  - split; [by rewrite Hv' | exact Hz].
Qed.

(** A finished image is one the kernel can use. *)
Lemma finished_image files s O : files_ok files → finished files s O → image files (mk_img s) O.
Proof.
  intros Hfk Hfin. destruct (fn_low _ _ _ Hfin) as [L1 L2]. split.
  - rewrite L1. apply sb_block_decodes.
  - exact L2.
  - apply Hfin.
  - by apply image_tree.
  - apply Hfin.
  - split; [by eapply (root_lookup files s O 0) | by eapply (root_lookup files s O 1)].
  - intros i f Hi. cbv zeta. split; [by eapply image_file|]. apply holds_file. by apply Hfin.
Qed.

(** C10: for every command line of files within these limits: names of
    nonzero bytes without slashes, whose first 14 bytes, after dropping a
    leading underscore, are all different and none of them empty, dot or
    dot-dot; no file longer than the largest file size; inodes and blocks
    enough for all; and a number of files, with the two dots, that is not a
    multiple of 32, which would make the root directory fill its last block.
    Then [mkfs] ends without a failed assertion and leaves [FSSIZE] blocks
    that are a whole file system: block 1 decodes to the superblock, the log
    is empty, the bitmap marks exactly the metadata and the blocks of the
    files, unused inodes are free, the root directory has its dots and every
    entry leads to a used inode, and the path made of a slash and the file's
    name (without a leading underscore) leads to an ordinary file with one
    link and the file's bytes. *)
Theorem mkfs_correct files s0 : files_ok files →
  ∃ s' O, mkfs files s0 = Ok () s' ∧ mk_end s' = FSSIZE ∧ image files (mk_img s') O.
Proof.
  intros Hfk. destruct (mkfs_finishes files s0 Hfk) as (s' & O & E & Hfin). exists s', O. split; [done|].
  split; [apply Hfin | by apply finished_image].
Qed.
