(* ===== verification/MkfsBoot.v ===== *)
(** * Booting on the image that mkfs made

    The first process initializes the file system in [forkret]: [iinit] reads
    the superblock and [initlog] recovers the log. On an image made by mkfs
    it then finds and reads the files of mkfs's command line. *)
From stdpp Require Import functions.
From S2P Require Import Prelude Machine CString Spin Kalloc Bio Log FsBlock FsInode FsDinode FsFile FsData FsTrunc FsCache FsStore FsTxn FsCrash.
From S2P Require Import FsPath FsDir FsNamei File Exec ExecLoad ExecFile Mkfs MkfsSpec MkfsFiles MkfsRoot MkfsMain MkfsImage.
Import KString.

(** The state before the first process runs: nothing cached, static data zero. *)
Definition log0 : log := Log 0 0 0 false 0 (replicate (Z.to_nat LOGSIZE) 0).
Definition inode0 : inode := Inode 0 0 0 false false 0 0 0 0 0 (replicate 13 0).
Definition icache0 : list inode := replicate NINODE inode0.

Section boot.
#[local] Instance boot_bs : BlockStore (log * bio) := op_store 2 30.
#[local] Instance boot_ops : Transactions (log * bio) := op_transactions 2 30.

(** What [forkret] does the first time; the result is the global [sb]. *)
Definition forkret_first : M (@fsys (log * bio)) superblock :=
  sb ← iinit;
  sb' ← onbs readsb;
  onbs (initlog (sb_logstart sb') (sb_nlog sb'));;
  mret sb.

(** [readsb] on a quiet cache. *)
Lemma readsb_quiet lg s v ic ws :
  quiet s v v (λ _, false) ws 0 →
  ∃ s', onbs readsb ((lg, s), ic) = Ok (decode_sb (v 1)) ((lg, s'), ic) ∧ quiet s' v v (λ _, false) ws 0.
Proof.
  intros [I V D P Hh W Bz].
  destruct (bc_read_ok s 1 I) as (s1 & E1 & I1 & V1 & D1 & W1 & H1 & P1 & B1); [by vm_compute | done | right; rewrite Bz; by vm_compute; lia |].
  destruct (bc_release_ok s1 1 I1) as (s2 & E2 & I2 & V2 & D2 & W2 & H2 & P2 & B2); [by rewrite H1 | right; by rewrite V1, D1, V, D |].
  exists s2. split.
  - unfold onbs, readsb. cbn [fst snd]. rewrite (bind_ok _ _ _ () (lg, s1)) by (by apply onb_last). unfold bs_get. rewrite bind_gets.
    rewrite (bind_ok _ _ _ () (lg, s2)) by (by apply onb_last). cbn [bs_view boot_bs op_store snd]. by rewrite V1, V.
  - rewrite P1, P in B2. rewrite P in B1. split; try done.
    + intros x. by rewrite V2, V1.
    + intros x. by rewrite D2, D1.
    + intros x. by rewrite P2, P1.
    + intros x. rewrite H2, H1, Hh. by destruct (x =? 1).
    + by rewrite W2, W1.
    + lia.
Qed.

(** Recovery of an empty log. *)
Lemma initlog_quiet s v :
  quiet s v v (λ _, false) [] 0 → (∀ a, v 2 a = 0) →
  ∃ lg s', initlog 2 30 (log0, s) = Ok () (lg, s') ∧ idle 2 30 (lg, s') ∧
    (∀ x, x ≠ 2 → bc_view s' x = v x) ∧ ∀ a, bc_view s' 2 a = 0.
Proof.
  intros Hq Hz. assert (hb_n (v 2) = 0) as Hn.
  { unfold hb_n. rewrite (load32_ext (v 2) (λ _, 0)) by (intros; apply Hz). done. }
  set (lg := log0 <| l_start := 2 |> <| l_size := 30 |>).
  assert (read_log lg (v (l_start lg)) = lg) as El by (unfold read_log; change (l_start lg) with 2; by rewrite Hn).
  destruct (recover_run lg s v [] 0 Hq) as (s' & k' & E & Hk & Hq'); rewrite ?El in *.
  { split; try (by vm_compute). - intros i Hi. simpl in Hi. lia. - intros i j Hi. simpl in Hi. lia. }
  { done. } { by vm_compute; lia. }
  set (v' := upd v 2 (store32 (v 2) 0 0)). change (quiet s' v' v' (λ _, false) ([] ++ recovery_writes lg v) k') in Hq'.
  assert (∀ a, v' 2 a = 0) as Hz'.
  { intros a. unfold v', upd. rewrite Z.eqb_refl. unfold store32, store8. by repeat case_match. }
  destruct Hq' as [I V D P Hh W Bz]. exists (cleared lg), s'. split; [exact E|]. split; [split|split; [|intros a; by rewrite V]].
  - exact I.
  - split; try (by vm_compute); [intros i Hi; simpl in Hi; lia | intros i j Hi; simpl in Hi; lia].
  - done.
  - by vm_compute.
  - done.
  - done.
  - done.
  - cbn [snd]. rewrite D. unfold hb_n. by rewrite (load32_ext (v' 2) (λ _, 0)) by (intros; apply Hz').
  - exact Hh.
  - exact P.
  - intros x Hx. rewrite V. unfold v', upd. by rewrite (proj2 (Z.eqb_neq _ _)).
Qed.

Lemma icache0_entry k i : icache0 !! k = Some i → i = inode0.
Proof. by intros [? _]%lookup_replicate. Qed.

Lemma icache0_ok sb v : cache_ok sb v None icache0.
Proof.
  split; [split| |].
  - intros k i ->%icache0_entry. done.
  - intros k k' i i' dev inum ->%icache0_entry _. done.
  - intros k i ->%icache0_entry. done.
  - intros k i ->%icache0_entry. done.
Qed.

Lemma mk_layout : layout_ok mk_sb.
Proof. split; repeat split; by vm_compute. Qed.

(** The file system after [forkret] on the image of [files]. *)
Lemma boot_image files s O :
  files_ok files → finished files s O →
  ∃ st, forkret_first ((log0, binit (λ _, mk_img s) true), icache0) = Ok mk_sb (st, icache0) ∧ tx_idle st ∧ image files (bs_view st) O.
Proof.
  intros Hfk Hfin. pose proof (finished_image _ _ _ Hfk Hfin) as Him. set (v := mk_img s) in *.
  destruct (readsb_quiet log0 _ v icache0 [] (quiet_binit v)) as (s1 & E1 & Hq1).
  destruct (readsb_quiet log0 s1 v icache0 [] Hq1) as (s2 & E2 & Hq2). rewrite (im_sb _ _ _ Him) in E1, E2.
  destruct (initlog_quiet s2 v Hq2 (im_log _ _ _ Him)) as (lg & s3 & E3 & Hidle & Hx & Hz).
  exists (lg, s3). split; [|split; [exact Hidle|]].
  - unfold forkret_first, iinit. rewrite bind_assoc, bind_modify. change (_ <$> icache0) with icache0.
    rewrite (bind_ok _ _ _ _ _ E1), (bind_ok _ _ _ _ _ E2). change (sb_logstart mk_sb) with 2. change (sb_nlog mk_sb) with 30.
    by rewrite (bind_ok _ _ _ _ _ (onbs_ok _ _ _ _ _ E3)).
  - exact (finished_image _ _ _ Hfk (finished_ext files s O (bc_view s3) Hfin Hx Hz Hfk)).
Qed.

Lemma boot_ready files st O i f :
  files_ok files → tx_idle st → image files (bs_view st) O → files !! i = Some f →
  fs_ready mk_sb (st, icache0) O (λ j, 1 ≤ j ≤ 1 + nfiles files) None 1 (slash :: base_name (fst f)) ∧
  prog_inum mk_sb (bs_view st) 1 (slash :: base_name (fst f)) = Some (2 + Z.of_nat i) ∧
  prog_bytes mk_sb (bs_view st) (2 + Z.of_nat i) = file_bytes f.
Proof.
  intros Hfk Hidle Him Hi. destruct (im_file _ _ _ Him i f Hi) as (Hr & Ht & Hl & Hf & Hb). change ROOTINO with 1 in Hr.
  split; [|split; [exact Hr | exact Hb]]. pose proof (Forall_lookup_1 _ _ _ _ (fk_fits _ Hfk) Hi) as Hfit. split; cbn [fst snd].
  - exact Hidle.
  - apply Him.
  - apply Him.
  - apply icache0_ok.
  - by vm_compute; lia.
  - apply Forall_cons. split; [unfold slash; lia | apply base_name_string, Hfit].
  - unfold nfiles. lia.
  - done.
  - intros j. unfold prog_inum. rewrite Hr. intros [= <-]. split; [by rewrite Ht | done].
Qed.

(** C9: the disk image round trip. For a command line of files within these
    limits: names of nonzero bytes without slashes, whose first 14 bytes,
    after dropping a leading underscore, are all different and none of them
    empty, dot or dot-dot; no file longer than the largest file size; inodes
    and blocks enough for all; and a number of files, with the two dots,
    that is not a multiple of 32. Then on the image that [mkfs] wrote, the
    first process's initialization (superblock, log recovery) succeeds with
    [mkfs]'s superblock, and after it, in a transaction, [namei] on a slash
    and the name of any file of the command line, [ilock] and [readi] of any
    part of it return exactly those bytes of the host's file, and [-1]
    beyond its end. *)
Theorem mkfs_boots files s0 (dev_read : Z → option (nat → Z → M (@fsys (log * bio)) (Z * list Z))) :
  files_ok files →
  ∃ s' st, mkfs files s0 = Ok () s' ∧ forkret_first ((log0, binit (λ _, mk_img s') true), icache0) = Ok mk_sb (st, icache0) ∧
  ∀ i f off n, files !! i = Some f → 0 ≤ off < 4294967296 → 0 ≤ n < 4294967296 →
  ∃ ip f1 f2 f3 f4, onbs tx_begin (st, icache0) = Ok () f1 ∧
    namei mk_sb dev_read None (slash :: base_name (fst f)) [] f1 = Ok (Some ip) f2 ∧ ilock mk_sb ip f2 = Ok () f3 ∧
    readi mk_sb dev_read ip off n f3 = Ok (read_at (file_bytes f) off n) f4.
Proof.
  intros Hfk. destruct (mkfs_finishes files s0 Hfk) as (s' & O & E & Hfin).
  destruct (boot_image files s' O Hfk Hfin) as (st & Eb & Hidle & Him). exists s', st. split; [done|]. split; [done|].
  intros i f off n Hi Hoff Hn. destruct (boot_ready files st O i f Hfk Hidle Him Hi) as (Hready & Hj & Hb).
  destruct (open_program mk_sb mk_layout dev_read _ _ _ _ _ _ Hready) as (f1 & E1 & Hopen). cbn [fst] in Hopen. rewrite Hj in Hopen.
  destruct Hopen as (ip & f2 & f3 & Fok & E2 & E3 & H3 & _ & Hread & _). rewrite Hb in Hread.
  destruct (Hread f3 off n H3 Hoff Hn) as (f4 & E4 & _). exists ip, f1, f2, f3, f4.
  split; [exact E1|]. split; [exact E2|]. split; [exact E3 | exact E4].
Qed.
End boot.

(** ** An example: two files, one of them with a leading underscore *)

Definition host_files : list host_file :=
  [([95; 99; 97; 116], [[127; 69; 76; 70]; [1; 2]]); ([82; 69; 65; 68; 77; 69], [[104; 105; 10]])].

Lemma host_files_ok : files_ok host_files.
Proof.
  split.
  - repeat (apply Forall_cons; split); [..|done]; (split; [repeat constructor; lia | | repeat constructor; lia | by vm_compute]);
      apply (bool_decide_unpack _); vm_compute; done.
  - by vm_compute.
  - by vm_compute.
  - apply (bool_decide_unpack _). vm_compute. done.
  - by vm_compute.
Qed.

Lemma mkfs_correct_witness :
  ∃ s' O, mkfs host_files (Mkst (λ _ _, 0) 0 0 0) = Ok () s' ∧ dlookup (mk_img s') (on_disk mk_sb (mk_img s') 1) [46] = Some 1 ∧ image host_files (mk_img s') O.
Proof.
  destruct (mkfs_correct host_files (Mkst (λ _ _, 0) 0 0 0) host_files_ok) as (s' & O & E & _ & Him).
  exists s', O. split; [exact E|]. split; [apply Him | exact Him].
Defined.

(** [/cat] holds the six bytes of the two chunks. *)
Lemma mkfs_boots_witness :
  ∃ s' st ip f3 f4, mkfs host_files (Mkst (λ _ _, 0) 0 0 0) = Ok () s' ∧
    forkret_first ((log0, binit (λ _, mk_img s') true), icache0) = Ok mk_sb (st, icache0) ∧
    readi (S := log * bio) (H := op_store 2 30) mk_sb no_dev_read ip 0 512 f3 = Ok (6, [127; 69; 76; 70; 1; 2]) f4.
Proof.
  destruct (mkfs_boots host_files (Mkst (λ _ _, 0) 0 0 0) no_dev_read host_files_ok) as (s' & st & E & Eb & Hread).
  destruct (Hread 0%nat _ 0 512 eq_refl ltac:(lia) ltac:(lia)) as (ip & f1 & f2 & f3 & f4 & _ & _ & _ & E4).
  exists s', st, ip, f3, f4. split; [exact E|]. split; [exact Eb | exact E4].
Defined.
