(* ===== verification/Console.v ===== *)
(** * The console (console.c)

    The input line with its editing keys and the readers that sleep until a
    line is complete, as segments under [cons.lock]; the screen memory with
    its cursor. [consoleread] gives up the lock of the console's inode while
    it runs; the inode is not part of this state. *)
From S2P Require Import Prelude Machine Monitor.

(** ** The screen *)

(** The cursor registers and the text memory. *)
Record screen := Screen { cursor : Z; crt : Z → Z }.

Definition BACKSPACE : Z := 256.

(** [memmove(crt, crt+80, ...)] and [memset(crt+pos, 0, ...)] *)
Definition scroll (pos : Z) (m : Z → Z) : Z → Z := λ k,
  if (pos <=? k) && (k <? 1920) then 0 else if (0 <=? k) && (k <? 1840) then m (k + 80) else m k.

Definition set_cell (k v : Z) (m : Z → Z) : Z → Z := λ j, if j =? k then v else m j.

Definition cgaputc (c : Z) : M screen () := λ s,
  let pos := cursor s in
  let '(pos, m) :=
    if c =? 10 then (pos + (80 - pos mod 80), crt s)
    else if c =? BACKSPACE then (if 0 <? pos then pos - 1 else pos, crt s)
    else (pos + 1, set_cell pos (Z.lor (Z.land c 255) 0x0700) (crt s)) in
  if (pos <? 0) || (25 * 80 <? pos) then Panic "pos under/overflow"
  else
    let '(pos, m) := if 24 <=? pos / 80 then (pos - 80, scroll (pos - 80) m) else (pos, m) in
    Ok () (Screen pos (set_cell pos (Z.lor 32 0x0700) m)).

(** The two outputs of the console: the screen, and the bytes sent to the
    serial port, which [uartinit] has found or not; [panicked] freezes every
    processor that prints. *)
Record con_out := ConOut { scr : screen; uart : bool; serial : list Z; panicked : bool }.
#[export] Instance eta_con_out : Settable con_out := λ o, ConOut (scr o) (uart o) (serial o) (panicked o).

Definition uartputc (c : Z) (o : con_out) : con_out :=
  if uart o then o <| serial := serial o ++ [u8 c] |> else o.

Definition consputc (c : Z) : M con_out () := λ o,
  if panicked o then Hang
  else
    let o1 := if c =? BACKSPACE then uartputc 8 (uartputc 32 (uartputc 8 o)) else uartputc c o in
    match cgaputc c (scr o1) with
    | Ok _ s => Ok () (o1 <| scr := s |>)
    | Panic m => Panic m
    | Hang => Hang
    end.

Fixpoint consputs (cs : list Z) : M con_out () :=
  match cs with
  | [] => mret ()
  | c :: cs' => consputc c;; consputs cs'
  end.

(** [consolewrite] of the first [n] bytes of [buf]. *)
Definition consolewrite (buf : list Z) (n : Z) : M con_out Z :=
  consputs ((λ b, Z.land b 255) <$> take (Z.to_nat n) buf);; mret n.

(** ** Input *)

Definition INPUT_BUF : Z := 128.

Record input := Input { ibuf : list Z; in_r : Z; in_w : Z; in_e : Z }.
#[export] Instance eta_input : Settable input := λ i, Input (ibuf i) (in_r i) (in_w i) (in_e i).

Definition input0 : input := Input (replicate 128 0) 0 0 0.

(** What can be seen: a key pressed, a byte taken by a reader, a character
    echoed with [consputc], a listing of the processes. *)
Inductive con_ev := EKey (c : Z) | EGot (c : Z) | EOut (c : Z) | EProcdump.

Definition C_ (c : Z) : Z := c - 64.

(** [input.buf[(input.e-1) % INPUT_BUF]] *)
Definition last_char (i : input) : Z := nth (Z.to_nat (u32 (in_e i - 1) mod INPUT_BUF)) (ibuf i) 0.

(** The loop of [C('U')]. *)
Fixpoint kill_line (fuel : nat) (i : input) : input * list con_ev :=
  match fuel with
  | O => (i, [])
  | S fuel' =>
      if negb (in_e i =? in_w i) && negb (last_char i =? 10) then
        let '(i', es) := kill_line fuel' (i <| in_e := u32 (in_e i - 1) |>) in
        (i', EOut BACKSPACE :: es)
      else (i, [])
  end.

(** One key: the new state, what was echoed, and whether readers are
    woken. *)
Definition con_key (c : Z) (i : input) : input * list con_ev * bool :=
  if c =? C_ 80 then (i, [], false)
  else if c =? C_ 85 then (kill_line (Z.to_nat INPUT_BUF) i, false)
  else if (c =? C_ 72) || (c =? 127) then
    if negb (in_e i =? in_w i) then (i <| in_e := u32 (in_e i - 1) |>, [EOut BACKSPACE], false)
    else (i, [], false)
  else if negb (c =? 0) && (u32 (in_e i - in_r i) <? INPUT_BUF) then
    let c := if c =? 13 then 10 else c in
    let i := i <| ibuf := <[Z.to_nat (in_e i mod INPUT_BUF) := u8 c]> (ibuf i) |> <| in_e := u32 (in_e i + 1) |> in
    if (c =? 10) || (c =? C_ 68) || (in_e i =? u32 (in_r i + INPUT_BUF)) then
      (i <| in_w := in_e i |>, [EOut c], true)
    else (i, [EOut c], false)
  else (i, [], false).

(** Operations: an interrupt with the characters [getc] returns before -1,
    and [consoleread] with [n] of [target] bytes still to come; [killed] is the
    flag of the calling process. *)
Inductive con_op := OpIntr (cs : list Z) | OpConsRead (killed : bool) (target n : nat) (dst : list Z).
Inductive con_res := RIntr | RConsRead (r : Z) (dst : list Z).

Definition con_seg := segment input () con_op con_res con_ev.

Fixpoint consoleintr (cs : list Z) (doprocdump : bool) (wakes : list ()) (es : list con_ev) (i : input) : con_seg :=
  match cs with
  | [] => Segment i wakes (es ++ if doprocdump then [EProcdump] else []) (Returns RIntr)
  | c :: cs' =>
      let '(i', out, woke) := con_key c i in
      consoleintr cs' (doprocdump || (c =? C_ 80)) (if (woke : bool) then [()] else wakes) (es ++ EKey c :: out) i'
  end.

Fixpoint consoleread (killed : bool) (target n : nat) (dst : list Z) (es : list con_ev) (i : input) : con_seg :=
  match n with
  | O => Segment i [] es (Returns (RConsRead (Z.of_nat target) dst))
  | S n' =>
      if in_r i =? in_w i then
        if killed then Segment i [] es (Returns (RConsRead (-1) dst))
        else Segment i [] es (Sleeps () (OpConsRead killed target n dst))
      else
        let c := nth (Z.to_nat (in_r i mod INPUT_BUF)) (ibuf i) 0 in
        let i' := i <| in_r := u32 (in_r i + 1) |> in
        if c =? C_ 68 then
          if (n <? target)%nat then
            Segment (i' <| in_r := u32 (in_r i' - 1) |>) [] es (Returns (RConsRead (Z.of_nat (target - n)) dst))
          else Segment i' [] (es ++ [EGot c]) (Returns (RConsRead (Z.of_nat (target - n)) dst))
        else if c =? 10 then
          Segment i' [] (es ++ [EGot c]) (Returns (RConsRead (Z.of_nat (target - n')) (dst ++ [c])))
        else consoleread killed target n' (dst ++ [c]) (es ++ [EGot c]) i'
  end.

Definition con_segment (l : con_op) (i : input) : con_seg :=
  match l with
  | OpIntr cs => consoleintr cs false [] [] i
  | OpConsRead killed target n dst => consoleread killed target n dst [] i
  end.

(** A process waiting for input may be killed. *)
Definition con_adjust (l l' : con_op) : Prop :=
  match l, l' with
  | OpConsRead _ target n dst, OpConsRead _ target' n' dst' => target = target' ∧ n = n' ∧ dst = dst'
  | _, _ => False
  end.
Definition con_runs := mruns con_segment con_adjust.

(** * What the console does

    The input buffer implements a line editor over a queue: keys edit the
    last line, complete lines are handed to readers in order. The cursor
    stays on the screen. *)

(** ** The line editor *)

(** The bytes readers may take, and the line that is being edited. *)
Notation editor := (list Z * list Z)%type.

Definition ed_key (c : Z) (ed : editor) : editor :=
  let '(q, l) := ed in
  if c =? C_ 80 then ed
  else if c =? C_ 85 then (q, [])
  else if (c =? C_ 72) || (c =? 127) then (q, removelast l)
  else if negb (c =? 0) && (length q + length l <? 128)%nat then
    let c := if c =? 13 then 10 else c in
    if (c =? 10) || (c =? C_ 68) || (length q + length l + 1 =? 128)%nat then (q ++ l ++ [c], [])
    else (q, l ++ [c])
  else ed.

(** An editor that has seen [es]; taking a byte takes the first. *)
Definition ed_step (ed : option editor) (e : con_ev) : option editor :=
  match e with
  | EKey c => ed_key c <$> ed
  | EGot c => match ed with Some (x :: q, l) => if x =? c then Some (q, l) else None | _ => None end
  | EOut _ | EProcdump => ed
  end.
Definition ed_run (ed : option editor) (es : list con_ev) : option editor := fold_left ed_step es ed.

(** ** The ring *)

Definition in_slot (i : input) (k : Z) : Z := nth (Z.to_nat ((in_r i + k) mod INPUT_BUF)) (ibuf i) 0.
Definition rng (i : input) (a b : Z) : list Z := in_slot i <$> seqZ a (b - a).

(** How far the write and edit positions are behind the read position. *)
Definition qlen (i : input) : Z := u32 (in_w i - in_r i).
Definition elen (i : input) : Z := u32 (in_e i - in_r i).

Definition queue (i : input) : list Z := rng i 0 (qlen i).
Definition line (i : input) : list Z := rng i (qlen i) (elen i).

Record con_inv (i : input) : Prop := {
  ci_buf : length (ibuf i) = 128%nat;
  ci_r : 0 ≤ in_r i < 4294967296;
  ci_w : 0 ≤ in_w i < 4294967296;
  ci_e : 0 ≤ in_e i < 4294967296;
  ci_len : 0 ≤ qlen i ≤ elen i ∧ elen i ≤ INPUT_BUF;
  ci_line : Forall (λ c, c ≠ 10) (line i)
}.

Lemma rng_length i a b : length (rng i a b) = Z.to_nat (b - a).
Proof. unfold rng. by rewrite length_fmap, length_seqZ. Qed.

Lemma rng_app i a b c : a ≤ b ≤ c → rng i a c = rng i a b ++ rng i b c.
Proof.
  intros Hab. unfold rng. rewrite <- fmap_app. f_equal. replace (c - a) with ((b - a) + (c - b)) by lia.
  rewrite seqZ_app by lia. by replace (a + (b - a)) with b by lia.
Qed.

Lemma rng_one i a : rng i a (a + 1) = [in_slot i a].
Proof. unfold rng. by replace (a + 1 - a) with 1 by lia. Qed.

Lemma rng_nil i a : rng i a a = [].
Proof. unfold rng. by rewrite Z.sub_diag. Qed.

(** Two buffers that agree on a range, possibly seen from another position. *)
Lemma rng_ext i j a b d : (∀ k, a ≤ k < b → in_slot j (k - d) = in_slot i k) → rng j (a - d) (b - d) = rng i a b.
Proof.
  intros Hs. apply list_eq. intros n. unfold rng. replace (b - d - (a - d)) with (b - a) by lia. rewrite !list_lookup_fmap.
  destruct (decide (Z.of_nat n < b - a)) as [Hn|Hn].
  - rewrite !lookup_seqZ_lt by lia. simpl. f_equal. replace (a - d + Z.of_nat n) with (a + Z.of_nat n - d) by lia. apply Hs. lia.
  - by rewrite !lookup_seqZ_ge by lia.
Qed.

Lemma rng_same i j a b : (∀ k, a ≤ k < b → in_slot j k = in_slot i k) → rng j a b = rng i a b.
Proof. intros Hs. pose proof (rng_ext i j a b 0) as E. rewrite !Z.sub_0_r in E. apply E. intros k Hk. rewrite Z.sub_0_r. by apply Hs. Qed.

Lemma queue_length i : con_inv i → Z.of_nat (length (queue i)) = qlen i ∧ Z.of_nat (length (queue i) + length (line i)) = elen i.
Proof. intros [_ _ _ _ [? ?] _]. unfold queue, line. rewrite !rng_length. lia. Qed.

(** ** The steps on the ring *)

(** Moving the edit position. *)
Lemma edit_inv i e : con_inv i → 0 ≤ e < 4294967296 → qlen i ≤ u32 (e - in_r i) ≤ INPUT_BUF →
  Forall (λ c, c ≠ 10) (rng i (qlen i) (u32 (e - in_r i))) →
  con_inv (i <| in_e := e |>) ∧ queue (i <| in_e := e |>) = queue i ∧ line (i <| in_e := e |>) = rng i (qlen i) (u32 (e - in_r i)).
Proof. intros [A B C D [E E'] F] He Hl Hf. split; [|done]. split; try done. unfold qlen, elen in *. simpl. lia. Qed.

Lemma back_inv i : con_inv i → in_e i ≠ in_w i →
  let i' := i <| in_e := u32 (in_e i - 1) |> in
  con_inv i' ∧ queue i' = queue i ∧ line i = line i' ++ [last_char i].
Proof.
  intros Hi Hne i'. pose proof Hi as [A B C D [E E'] F].
  assert (elen i = u32 (u32 (in_e i - 1) - in_r i) + 1 ∧ qlen i < elen i) as [He Hlt].
  { unfold qlen, elen, INPUT_BUF in *. unfold u32 in *. zmod. }
  assert (line i = rng i (qlen i) (u32 (u32 (in_e i - 1) - in_r i)) ++ [in_slot i (elen i - 1)]) as Hsplit.
  { unfold line. rewrite (rng_app i (qlen i) (elen i - 1) (elen i)) by lia. f_equal; [f_equal; lia|].
    rewrite <- rng_one. f_equal. lia. }
  destruct (edit_inv i (u32 (in_e i - 1)) Hi (u32_range _)) as (Hi' & Hq & Hl).
  { lia. } { rewrite Hsplit in F. by apply Forall_app in F as [? _]. }
  split; [exact Hi'|]. split; [exact Hq|]. fold i' in Hl. rewrite Hl, Hsplit. do 2 f_equal. unfold in_slot, last_char. do 2 f_equal.
  unfold elen, INPUT_BUF, u32 in *. zmod.
Qed.

Lemma kill_line_inv fuel : ∀ i, con_inv i → (length (line i) ≤ fuel)%nat →
  let r := kill_line fuel i in
  con_inv r.1 ∧ queue r.1 = queue i ∧ line r.1 = [] ∧ ∀ ed, ed_run ed r.2 = ed.
Proof.
  assert (∀ i, con_inv i → in_e i = in_w i ↔ line i = []) as Hnil.
  { intros i [A B C D [E E'] F]. unfold line. split.
    - intros Ee. assert (elen i = qlen i) as -> by (unfold elen, qlen; by rewrite Ee). apply rng_nil.
    - intros Hl%(f_equal length). rewrite rng_length in Hl. simpl in Hl. assert (elen i = qlen i) as Ee by lia. unfold elen, qlen, u32 in *. zmod. }
  induction fuel as [|fuel IH]; intros i Hi Hf; cbn [kill_line].
  { simpl. split; [done|]. split; [done|]. split; [by apply nil_length_inv; lia | done]. }
  destruct (Z.eqb_spec (in_e i) (in_w i)) as [Ee|Hne]; cbn [negb andb].
  { split; [done|]. split; [done|]. split; [by apply Hnil | done]. }
  destruct (back_inv i Hi Hne) as (Hi' & Hq & Hl). pose proof (ci_line _ Hi) as Hno. rewrite Hl in Hno.
  apply Forall_app in Hno as [_ Hlast]. rewrite Forall_singleton in Hlast. rewrite (proj2 (Z.eqb_neq _ 10)) by exact Hlast. cbn [negb].
  destruct (IH _ Hi') as (J1 & J2 & J3 & J4); [rewrite Hl, length_app in Hf; simpl in *; lia|].
  destruct (kill_line fuel (i <| in_e := u32 (in_e i - 1) |>)) as [i' es]. cbn [fst snd] in *.
  split; [done|]. split; [congruence|]. split; [done|]. exact J4.
Qed.

(** Storing a character at the edit position. *)
Lemma push_slots i c : 0 ≤ c < 256 → con_inv i → elen i < INPUT_BUF →
  let i' := i <| ibuf := <[Z.to_nat (in_e i mod INPUT_BUF) := u8 c]> (ibuf i) |> <| in_e := u32 (in_e i + 1) |> in
  elen i' = elen i + 1 ∧ qlen i' = qlen i ∧ queue i' = queue i ∧ line i' = line i ++ [c].
Proof.
  intros Hc [A B C D [E E'] F] Hlt. rewrite (u8_small c Hc). intros i'. assert (elen i' = elen i + 1) as He.
  { unfold elen, INPUT_BUF, u32 in *. simpl. zmod. }
  assert ((in_r i + elen i) mod INPUT_BUF = in_e i mod INPUT_BUF) as Hpos by (unfold elen, INPUT_BUF, u32; zmod).
  assert (∀ k, 0 ≤ k < elen i → in_slot i' k = in_slot i k) as Hold.
  { intros k Hk. unfold in_slot, i'. simpl. rewrite !nth_lookup, list_lookup_insert_ne; [done|].
    rewrite <- Hpos. unfold INPUT_BUF in *. zmod. }
  assert (in_slot i' (elen i) = c) as Hnew.
  { unfold in_slot, i'. simpl. rewrite Hpos, nth_lookup, list_lookup_insert_eq; [done|]. rewrite A. unfold INPUT_BUF. zmod. }
  split; [done|]. split; [done|]. split.
  - apply rng_same. intros k Hk. apply Hold. change (qlen i') with (qlen i) in Hk. lia.
  - unfold line. rewrite He. change (qlen i') with (qlen i). rewrite (rng_app i' (qlen i) (elen i)) by lia. f_equal.
    + apply rng_same. intros k Hk. apply Hold. lia.
    + by rewrite rng_one, Hnew.
Qed.

(** Making the line available to readers. *)
Lemma commit_slots i : queue (i <| in_w := in_e i |>) = rng i 0 (elen i) ∧ line (i <| in_w := in_e i |>) = [].
Proof. split; [done|]. apply rng_nil. Qed.

Lemma con_key_inv c i : 0 ≤ c < 256 → con_inv i →
  let '(i', out, woke) := con_key c i in
  con_inv i' ∧ (queue i', line i') = ed_key c (queue i, line i) ∧ (∀ ed, ed_run ed out = ed) ∧
  (woke = false → queue i' = queue i).
Proof.
  intros Hc Hi. pose proof Hi as [A B C D [E E'] F]. pose proof (queue_length i Hi) as [Hq Hl]. unfold con_key, ed_key.
  destruct (c =? C_ 80); [by split_and!|]. destruct (c =? C_ 85).
  { destruct (kill_line_inv (Z.to_nat INPUT_BUF) i Hi) as (J1 & J2 & J3 & J4); [unfold INPUT_BUF in *; lia|].
    destruct (kill_line (Z.to_nat INPUT_BUF) i) as [i' es]. cbn [fst snd] in *. rewrite J2, J3. by split_and!. }
  destruct ((c =? C_ 72) || (c =? 127)).
  { destruct (Z.eqb_spec (in_e i) (in_w i)) as [Ee|Hne]; cbn [negb].
    - assert (line i = []) as -> by (unfold line; assert (elen i = qlen i) as -> by (unfold elen, qlen; by rewrite Ee); apply rng_nil). by split_and!.
    - destruct (back_inv i Hi Hne) as (Hi' & Hq' & Hl'). split; [exact Hi'|]. rewrite Hq', Hl', removelast_last. by split_and!. }
  assert ((length (queue i) + length (line i) <? 128)%nat = (u32 (in_e i - in_r i) <? INPUT_BUF)) as ->.
  { fold (elen i). apply eq_bool_prop_intro. rewrite !Is_true_true, Nat.ltb_lt, Z.ltb_lt. unfold INPUT_BUF. lia. }
  destruct (c =? 0); cbn [negb andb]; [by split_and!|]. destruct (Z.ltb_spec (u32 (in_e i - in_r i)) INPUT_BUF) as [Hlt|]; [|by split_and!].
  fold (elen i) in Hlt. set (c' := if c =? 13 then 10 else c). cbv zeta.
  assert (0 ≤ c' < 256) as Hc' by (unfold c'; case_match; lia). destruct (push_slots i c' Hc' Hi Hlt) as (He & Hqq & Hqueue & Hline). cbv zeta in *.
  set (i' := i <| ibuf := <[Z.to_nat (in_e i mod INPUT_BUF) := u8 c']> (ibuf i) |> <| in_e := u32 (in_e i + 1) |>) in *.
  assert ((length (queue i) + length (line i) + 1 =? 128)%nat = (in_e i' =? u32 (in_r i' + INPUT_BUF))) as ->.
  { apply eq_bool_prop_intro. rewrite !Is_true_true, Nat.eqb_eq, Z.eqb_eq. transitivity (elen i' = 128); [lia|].
    clear - B D. unfold elen, INPUT_BUF, u32. simpl. unfold u32. split; intros; zmod. }
  assert (length (ibuf i') = 128%nat) as A' by (unfold i'; simpl; by rewrite length_insert).
  destruct ((c' =? 10) || (c' =? C_ 68) || (in_e i' =? u32 (in_r i' + INPUT_BUF))) eqn:Ecommit.
  - destruct (commit_slots i') as [Hcq Hcl]. split_and!; try done.
    + split; try done; [apply u32_range | apply u32_range | | by rewrite Hcl].
      change (elen (i' <| in_w := in_e i' |>)) with (elen i'). change (qlen (i' <| in_w := in_e i' |>)) with (elen i'). lia.
    + rewrite Hcq, Hcl, (rng_app i' 0 (qlen i')) by lia. change (rng i' 0 (qlen i')) with (queue i'). change (rng i' (qlen i') (elen i')) with (line i').
      by rewrite Hqueue, Hline.
  - apply orb_false_iff in Ecommit as [[Hn%Z.eqb_neq _]%orb_false_iff Hfull%Z.eqb_neq]. split_and!; try done; [|by rewrite Hqueue, Hline].
    split; try done; [apply u32_range | | by rewrite Hline; apply Forall_app; split; [|apply Forall_singleton]].
    rewrite He, Hqq. unfold INPUT_BUF in *. lia.
Qed.

(** Taking the oldest byte. *)
Lemma take_inv i : con_inv i → in_r i ≠ in_w i →
  let i' := i <| in_r := u32 (in_r i + 1) |> in
  con_inv i' ∧ queue i = nth (Z.to_nat (in_r i mod INPUT_BUF)) (ibuf i) 0 :: queue i' ∧ line i' = line i.
Proof.
  intros [A B C D [E E'] F] Hne i'.
  assert (qlen i' = qlen i - 1 ∧ elen i' = elen i - 1) as [Hq He].
  { unfold qlen, elen, INPUT_BUF in *. simpl. unfold u32 in *. zmod. }
  assert (∀ k, in_slot i' (k - 1) = in_slot i k) as Hs.
  { intros k. unfold in_slot, i'. simpl. do 2 f_equal. unfold INPUT_BUF, u32. zmod. }
  assert (0 < qlen i) as Hpos by (unfold qlen, u32 in *; zmod).
  assert (line i' = line i) as Hl by (unfold line; rewrite Hq, He; apply rng_ext; intros; apply Hs).
  split; [|split; [|exact Hl]].
  - split; try done; [apply u32_range | lia | by rewrite Hl].
  - unfold queue. rewrite (rng_app i 0 1 (qlen i)), Hq by lia. change (rng i 0 1) with (rng i 0 (0 + 1)). rewrite (rng_one i 0). unfold in_slot at 1. rewrite Z.add_0_r. simpl. f_equal.
    symmetry. apply (rng_ext i i' 1 (qlen i) 1). intros; apply Hs.
Qed.

Lemma queue_empty i : con_inv i → in_r i = in_w i → queue i = [].
Proof. intros [A B C D [E E'] F] Er. unfold queue, qlen. by rewrite Er, Z.sub_diag. Qed.

Lemma ed_run_app ed xs ys : ed_run ed (xs ++ ys) = ed_run (ed_run ed xs) ys.
Proof. unfold ed_run. by rewrite fold_left_app. Qed.

(** [consoleread] takes bytes from the front of the queue, and sleeps only
    when it has taken them all. *)
Lemma consoleread_spec killed target n : ∀ dst es i, con_inv i →
  let g := consoleread killed target n dst es i in
  con_inv (seg_state g) ∧ line (seg_state g) = line i ∧ seg_wakes g = [] ∧
  (∃ got, queue i = got ++ queue (seg_state g) ∧ seg_events g = es ++ (EGot <$> got)) ∧
  (∀ c l, seg_end g = Sleeps c l → queue (seg_state g) = []).
Proof.
  induction n as [|n IH]; intros dst es i Hi; cbn [consoleread].
  { simpl. split_and!; try done. exists []. by rewrite app_nil_r. }
  destruct (Z.eqb_spec (in_r i) (in_w i)) as [Er|Hne].
  { pose proof (queue_empty i Hi Er) as Hq. destruct killed; simpl; (split_and!; try done); exists []; by rewrite app_nil_r. }
  destruct (take_inv i Hi Hne) as (Hi' & Hq & Hl). set (c := nth _ _ 0) in *. cbv zeta in *. set (i' := i <| in_r := _ |>) in *.
  destruct (c =? C_ 68); [destruct (S n <? target)%nat|].
  - simpl. assert (i' <| in_r := u32 (u32 (in_r i + 1) - 1) |> = i) as ->.
    { assert (u32 (u32 (in_r i + 1) - 1) = in_r i) as -> by (pose proof (ci_r _ Hi); unfold u32; zmod). by destruct i. }
    split_and!; try done. exists []. by rewrite app_nil_r.
  - split_and!; try done. by exists [c].
  - destruct (c =? 10).
    + split_and!; try done. by exists [c].
    + destruct (IH (dst ++ [c]) (es ++ [EGot c]) i' Hi') as (J1 & J2 & J3 & (got & J4 & J5) & J6). cbv zeta in *.
      split_and!; try done; [congruence|]. exists (c :: got). rewrite Hq, J4, J5, <- app_assoc. done.
Qed.

Lemma ed_run_got got q l : ed_run (Some (got ++ q, l)) (EGot <$> got) = Some (q, l).
Proof. induction got as [|c got IH]; [done|]. cbn. by rewrite Z.eqb_refl. Qed.

Lemma consoleintr_spec cs : ∀ dump wakes es i, Forall (λ c, 0 ≤ c < 256) cs → con_inv i →
  let g := consoleintr cs dump wakes es i in
  con_inv (seg_state g) ∧ seg_end g = Returns RIntr ∧
  (∃ es', seg_events g = es ++ es' ∧ ed_run (Some (queue i, line i)) es' = Some (queue (seg_state g), line (seg_state g))) ∧
  (() ∉ seg_wakes g → () ∉ wakes ∧ queue (seg_state g) = queue i).
Proof.
  induction cs as [|c cs IH]; intros dump wakes es i Hcs Hi; cbn [consoleintr].
  { simpl. split_and!; try done. eexists. split; [done|]. by destruct dump. }
  apply Forall_cons in Hcs as [Hc Hcs]. pose proof (con_key_inv c i Hc Hi) as Hk. destruct (con_key c i) as [[i' out] woke].
  destruct Hk as (Hi' & Hed & Hout & Hw).
  destruct (IH (dump || (c =? C_ 80)) (if woke then [()] else wakes) (es ++ EKey c :: out) i' Hcs Hi') as (J1 & J2 & (es' & J3 & J4) & J5).
  cbv zeta in *. split_and!; try done.
  - exists (EKey c :: out ++ es'). rewrite J3, <- app_assoc. split; [done|].
    change (EKey c :: out ++ es') with ([EKey c] ++ out ++ es'). rewrite !ed_run_app.
    change (ed_run (Some (queue i, line i)) [EKey c]) with (Some (ed_key c (queue i, line i))). by rewrite Hout, <- Hed.
  - intros Hnw. destruct (J5 Hnw) as [Ha Hb]. destruct woke; [by destruct Ha; constructor|]. split; [done|]. by rewrite Hb, Hw.
Qed.

(** [uartgetc] and [kbdgetc] return bytes. *)
Definition byte_keys (l : con_op) (i : input) : Prop :=
  match l with OpIntr cs => Forall (λ c, 0 ≤ c < 256) cs | _ => True end.

(** A reader has a reason to sleep when there is nothing to read. *)
Definition con_reason (c : ()) (l : con_op) (i : input) : Prop := queue i = [].

Lemma con_segment_spec l i : con_inv i → byte_keys l i →
  let g := con_segment l i in
  con_inv (seg_state g) ∧ ed_run (Some (queue i, line i)) (seg_events g) = Some (queue (seg_state g), line (seg_state g)) ∧
  (∀ c l', seg_end g = Sleeps c l' → queue (seg_state g) = []) ∧
  (() ∉ seg_wakes g → queue i = [] → queue (seg_state g) = []).
Proof.
  intros Hi Hk. destruct l as [cs|killed target n dst]; cbn [con_segment].
  - destruct (consoleintr_spec cs false [] [] i Hk Hi) as (J1 & J2 & (es' & J3 & J4) & J5). cbv zeta in *.
    rewrite J2, J3. split_and!; try done. intros Hw <-. by apply J5.
  - destruct (consoleread_spec killed target n dst [] i Hi) as (J1 & J2 & J3 & (got & J4 & J5) & J6). cbv zeta in *.
    split_and!; try done; [by rewrite J2, J4, J5, ed_run_got|]. intros _ Hq. rewrite J4 in Hq. by apply app_eq_nil in Hq as [_ ?].
Qed.

(** C31: the console's ring buffer, its three [uint] indices and the sleeping
    readers implement a line editor over a queue. Whatever interrupts and
    reads are interleaved, however often the indices wrap: replaying the keys
    and the bytes taken on the editor succeeds, so every byte a reader took
    was at that moment the oldest of the complete lines, and leaves exactly
    what is in the buffer; no more than [INPUT_BUF] bytes are held; and a
    reader is asleep only when there is no complete line to read. *)
Theorem console_line_editor ts es i ts' :
  Forall (λ t, ∀ c l, t ≠ TAsleep c l) ts → con_runs byte_keys (input0, ts) es (i, ts') →
  ed_run (Some ([], [])) es = Some (queue i, line i) ∧ (length (queue i) + length (line i) ≤ 128)%nat ∧
  ∀ k c l, ts' !! k = Some (TAsleep c l) → queue i = [].
Proof.
  intros Hts Hr. assert (con_inv input0) as H0 by (split; try done; vm_compute; split; congruence).
  pose proof (monitor_invariant con_segment con_adjust (λ es i, con_inv i ∧ ed_run (Some ([], [])) es = Some (queue i, line i)) byte_keys) as Hinv.
  destruct (λ H, Hinv H _ _ _ Hr) as [Hi He]; [|done|].
  { intros es' l s [Hs Hrun] Hk. destruct (con_segment_spec l s Hs Hk) as (J1 & J2 & _). split; [done|]. by rewrite ed_run_app, Hrun. }
  split; [exact He|]. split; [pose proof (queue_length _ Hi); pose proof (ci_len _ Hi); unfold INPUT_BUF in *; cbn [fst] in *; lia|].
  apply (no_lost_wakeup con_segment con_adjust con_inv con_reason byte_keys) in Hr as [_ Hs]; [exact Hs|..|done|].
  - intros l s Hs Hk. by apply con_segment_spec.
  - intros l s c l' Hs Hk. by apply con_segment_spec.
  - intros l s [] l' Hs Hk Hq Hw. by apply con_segment_spec.
  - intros j c' l' Hj. simpl in Hj. by destruct (Forall_lookup_1 _ _ _ _ Hts Hj c' l').
Qed.

(** A reader waits; "ab", a backspace, "c" and return are typed; the reader
    gets "ac" and the newline. *)
Lemma console_line_editor_witness :
  ∃ es i ts', con_runs byte_keys (input0, [TDone None; TDone None]) es (i, ts')
  ∧ ts' !! 0%nat = Some (TDone (Some (RConsRead 3 [97; 99; 10])))
  ∧ ed_run (Some ([], [])) es = Some (queue i, line i).
Proof.
  destruct (run_acts con_segment (λ l _, match l with OpIntr cs => forallb (λ c, (0 <=? c) && (c <? 256)) cs | _ => true end)
    [ACall 0 (OpConsRead false 10 10 []); ASeg 0; ACall 1 (OpIntr [97; 98; 8; 99; 13]); ASeg 1; ASeg 0]
    input0 [TDone None; TDone None] []) as [[[i ts'] es]|] eqn:E; [|by vm_compute in E].
  assert (Hr : con_runs byte_keys (input0, [TDone None; TDone None]) es (i, ts')).
  { eapply run_acts_runs; [|apply mruns_refl|exact E]. intros [cs|] s H; [|done]. simpl. apply Forall_forall. intros c Hc.
    rewrite forallb_forall in H. apply list_elem_of_In in Hc. specialize (H c Hc). simpl in H. lia. }
  exists es, i, ts'. split; [exact Hr|]. split.
  - vm_compute in E. by injection E as <- <- <-.
  - apply (console_line_editor [TDone None; TDone None] es i ts'); [by repeat constructor | exact Hr].
Defined.
