(* ===== verification/Kbd.v ===== *)
(** * The keyboard (kbd.c)

    The tables of [kbd.h] and the state machine that turns scan codes into
    characters. Its results are what the console's interrupt takes as input:
    the last theorem composes the two. *)
From S2P Require Import Prelude Machine Monitor Console.

Definition KBS_DIB : Z := 1.

Definition SHIFT : Z := 1.
Definition CTL : Z := 2.
Definition ALT : Z := 4.
Definition CAPSLOCK : Z := 8.
Definition NUMLOCK : Z := 16.
Definition SCROLLLOCK : Z := 32.
Definition E0ESC : Z := 64.

Definition KEY_HOME : Z := 0xE0.
Definition KEY_END : Z := 0xE1.
Definition KEY_UP : Z := 0xE2.
Definition KEY_DN : Z := 0xE3.
Definition KEY_LF : Z := 0xE4.
Definition KEY_RT : Z := 0xE5.
Definition KEY_PGUP : Z := 0xE6.
Definition KEY_PGDN : Z := 0xE7.
Definition KEY_INS : Z := 0xE8.
Definition KEY_DEL : Z := 0xE9.

(** An initialiser of a [uchar] array of 256: elements in order, then
    designated ones; the rest is zero. *)
Definition table (l : list Z) (ds : list (nat * Z)) : list Z :=
  fold_left (λ t '(i, v), <[i := v]> t) ds (l ++ replicate (256 - length l) 0).

Definition shiftcode : list Z :=
  table [] [(0x1D%nat, CTL); (0x2A%nat, SHIFT); (0x36%nat, SHIFT); (0x38%nat, ALT); (0x9D%nat, CTL); (0xB8%nat, ALT)].

Definition togglecode : list Z := table [] [(0x3A%nat, CAPSLOCK); (0x45%nat, NUMLOCK); (0x46%nat, SCROLLLOCK)].

(** The keys behind an E0 escape, which the three maps share but for the
    first two. *)
Definition e0_keys (enter div : Z) : list (nat * Z) :=
  [(0x9C%nat, enter); (0xB5%nat, div); (0xC8%nat, KEY_UP); (0xD0%nat, KEY_DN); (0xC9%nat, KEY_PGUP); (0xD1%nat, KEY_PGDN);
   (0xCB%nat, KEY_LF); (0xCD%nat, KEY_RT); (0x97%nat, KEY_HOME); (0xCF%nat, KEY_END); (0xD2%nat, KEY_INS); (0xD3%nat, KEY_DEL)].

Definition normalmap : list Z := table
  [0; 0x1B; 49; 50; 51; 52; 53; 54;
   55; 56; 57; 48; 45; 61; 8; 9;
   113; 119; 101; 114; 116; 121; 117; 105;
   111; 112; 91; 93; 10; 0; 97; 115;
   100; 102; 103; 104; 106; 107; 108; 59;
   39; 96; 0; 92; 122; 120; 99; 118;
   98; 110; 109; 44; 46; 47; 0; 42;
   0; 32; 0; 0; 0; 0; 0; 0;
   0; 0; 0; 0; 0; 0; 0; 55;
   56; 57; 45; 52; 53; 54; 43; 49;
   50; 51; 48; 46; 0; 0; 0; 0] (e0_keys 10 47).

Definition shiftmap : list Z := table
  [0; 27; 33; 64; 35; 36; 37; 94;
   38; 42; 40; 41; 95; 43; 8; 9;
   81; 87; 69; 82; 84; 89; 85; 73;
   79; 80; 123; 125; 10; 0; 65; 83;
   68; 70; 71; 72; 74; 75; 76; 58;
   34; 126; 0; 124; 90; 88; 67; 86;
   66; 78; 77; 60; 62; 63; 0; 42;
   0; 32; 0; 0; 0; 0; 0; 0;
   0; 0; 0; 0; 0; 0; 0; 55;
   56; 57; 45; 52; 53; 54; 43; 49;
   50; 51; 48; 46; 0; 0; 0; 0] (e0_keys 10 47).

(** The entry for the slash is a control character below zero, which the
    array holds as a byte. *)
Definition ctlmap : list Z := table
  [0; 0; 0; 0; 0; 0; 0; 0;
   0; 0; 0; 0; 0; 0; 0; 0;
   C_ 81; C_ 87; C_ 69; C_ 82; C_ 84; C_ 89; C_ 85; C_ 73;
   C_ 79; C_ 80; 0; 0; 13; 0; C_ 65; C_ 83;
   C_ 68; C_ 70; C_ 71; C_ 72; C_ 74; C_ 75; C_ 76; 0;
   0; 0; 0; C_ 92; C_ 90; C_ 88; C_ 67; C_ 86;
   C_ 66; C_ 78; C_ 77; 0; 0; u8 (C_ 47); 0; 0] (e0_keys 13 (u8 (C_ 47))).

(** [charcode] *)
Definition charcode : list (list Z) := [normalmap; shiftmap; ctlmap; ctlmap].

Definition entry (t : list Z) (i : Z) : Z := nth (Z.to_nat i) t 0.

(** [kbdgetc] with what the status and data ports hold: the result and the
    new value of the static [shift]. *)
Definition kbdgetc (st data shift : Z) : Z * Z :=
  if Z.land st KBS_DIB =? 0 then (-1, shift)
  else if data =? 0xE0 then (0, Z.lor shift E0ESC)
  else if truthy (Z.land data 0x80) then
    let data := if truthy (Z.land shift E0ESC) then data else Z.land data 0x7F in
    (0, Z.ldiff shift (Z.lor (entry shiftcode data) E0ESC))
  else
    let '(data, shift) :=
      if truthy (Z.land shift E0ESC) then (Z.lor data 0x80, Z.ldiff shift E0ESC) else (data, shift) in
    let shift := Z.lor shift (entry shiftcode data) in
    let shift := Z.lxor shift (entry togglecode data) in
    let c := entry (nth (Z.to_nat (Z.land shift (Z.lor CTL SHIFT))) charcode []) data in
    let c :=
      if truthy (Z.land shift CAPSLOCK) then
        if (97 <=? c) && (c <=? 122) then u32 (c + (65 - 97))
        else if (65 <=? c) && (c <=? 90) then u32 (c + (97 - 65))
        else c
      else c in
    (c, shift).

(** The calls of [kbdgetc] by [kbdintr], one for every code the controller
    has: what they return before the -1 that ends the loop. *)
Fixpoint kbd_chars (codes : list Z) (shift : Z) : list Z * Z :=
  match codes with
  | [] => ([], shift)
  | d :: codes' =>
      let '(c, shift) := kbdgetc KBS_DIB d shift in
      let '(cs, shift) := kbd_chars codes' shift in (c :: cs, shift)
  end.

Definition kbdintr (codes : list Z) (shift : Z) : con_op * Z :=
  let '(cs, shift) := kbd_chars codes shift in (OpIntr cs, shift).

(** ** What the keyboard can do *)

(** The states and the codes are few enough to try them all. *)
Definition all_Z (n : nat) (f : Z → bool) : bool := forallb f (Z.of_nat <$> seq 0 n).

Lemma all_Z_spec n f : all_Z n f = true → ∀ z, 0 ≤ z < Z.of_nat n → f z = true.
Proof.
  unfold all_Z. rewrite forallb_forall. intros H z Hz. apply H. apply list_elem_of_In, list_elem_of_fmap.
  exists (Z.to_nat z). split; [lia|]. apply elem_of_seq. lia.
Qed.

Definition step_ok (shift data : Z) : bool :=
  let '(c, shift') := kbdgetc KBS_DIB data shift in
  (0 <=? c) && (c <? 256) && (0 <=? shift') && (shift' <? 128).

Lemma steps_ok : all_Z 128 (λ s, all_Z 256 (step_ok s)) = true.
Proof. by vm_compute. Qed.

Lemma kbdgetc_range data shift : 0 ≤ data < 256 → 0 ≤ shift < 128 →
  0 ≤ (kbdgetc KBS_DIB data shift).1 < 256 ∧ 0 ≤ (kbdgetc KBS_DIB data shift).2 < 128.
Proof.
  intros Hd Hs. pose proof (all_Z_spec 256 _ (all_Z_spec 128 _ steps_ok shift Hs) data Hd) as H. unfold step_ok in H.
  destruct (kbdgetc KBS_DIB data shift) as [c s']. rewrite !andb_true_iff in H. simpl. lia.
Qed.

Lemma kbd_chars_range codes : ∀ shift, Forall (λ d, 0 ≤ d < 256) codes → 0 ≤ shift < 128 →
  Forall (λ c, 0 ≤ c < 256) (kbd_chars codes shift).1 ∧ 0 ≤ (kbd_chars codes shift).2 < 128.
Proof.
  induction codes as [|d codes IH]; intros shift Hd Hs; [done|]. apply Forall_cons in Hd as [Hd Hds]. cbn [kbd_chars].
  destruct (kbdgetc_range d shift Hd Hs) as [Hc Hs']. destruct (kbdgetc KBS_DIB d shift) as [c s']. cbn [fst snd] in *.
  destruct (IH s' Hds Hs') as [Hcs Hs'']. destruct (kbd_chars codes s') as [cs s'']. split; [by constructor | done].
Qed.

(** The keys of letters, and the modifiers that choose their case. *)
Definition letter (d : Z) : bool := (97 <=? entry normalmap d) && (entry normalmap d <=? 122).
Definition has (shift bit : Z) : bool := truthy (Z.land shift bit).

(** The character of a letter key without an E0 before it. *)
Definition letter_char (shift d : Z) : Z :=
  if has shift CTL then entry normalmap d - 96
  else if xorb (has shift SHIFT) (has shift CAPSLOCK) then entry normalmap d - 32
  else entry normalmap d.

Definition letter_ok (shift d : Z) : bool :=
  if letter d && negb (has shift E0ESC) then bool_decide (kbdgetc KBS_DIB d shift = (letter_char shift d, shift)) else true.

Lemma letters_ok : all_Z 128 (λ s, all_Z 128 (letter_ok s)) = true.
Proof. by vm_compute. Qed.

(** The codes a key sends, with an E0 before them if it is an extended one,
    and its place in the tables. *)
Definition key_codes (e : bool) (d : Z) : list Z := if e then [0xE0; d] else [d].
Definition key_index (e : bool) (d : Z) : Z := if e then d + 128 else d.

(** Pressing and releasing a key; pressing a lock key twice. *)
Definition modifier_ok (e : bool) (shift d : Z) : bool :=
  let s1 := (kbd_chars (key_codes e d) shift).2 in
  let s2 := (kbd_chars (key_codes e (d + 128)) s1).2 in
  let s3 := (kbd_chars (key_codes e d) s2).2 in
  let m := entry shiftcode (key_index e d) in
  let l := entry togglecode (key_index e d) in
  if has shift E0ESC || (d =? 0x60) then true
  else (has s1 m || (m =? 0)) && (s2 =? Z.ldiff (Z.lxor shift l) m) && ((l =? 0) || (s3 =? shift)).

Lemma modifiers_ok : all_Z 128 (λ s, all_Z 128 (λ d, modifier_ok false s d && modifier_ok true s d)) = true.
Proof. by vm_compute. Qed.

Lemma modifier_ok_iff e shift d : 0 ≤ shift < 128 → 0 ≤ d < 128 → modifier_ok e shift d = true.
Proof.
  intros Hs Hd. pose proof (all_Z_spec 128 _ (all_Z_spec 128 _ modifiers_ok shift Hs) d Hd) as H.
  apply andb_true_iff in H as [H1 H2]. by destruct e.
Qed.

(** C33: what the keyboard hands to the console is of the right type and
    means what the keys say. For every sequence of bytes as scan codes, from
    every state of the modifiers, the characters are bytes, which is what the
    console's line editor relies on, and the modifiers stay in their seven
    bits, so that no table is indexed out of its bounds. When no E0 prefix
    is pending: a letter key gives its control character if Ctrl is held and
    else the upper-case letter exactly if one of shift and caps lock is on,
    and leaves the modifiers alone; pressing a modifier key sets its bit, and
    pressing and releasing any key, plain or extended by E0, leaves the
    modifiers as they were, except that it ends the effect of the modifier it
    is or toggles the lock it is, which a second press undoes. The code 0x60
    is no key, since its release would be the prefix itself. *)
Theorem kbdintr_typed codes shift i d :
  Forall (λ d, 0 ≤ d < 256) codes → 0 ≤ shift < 128 → 0 ≤ d < 128 →
  byte_keys (kbdintr codes shift).1 i ∧ 0 ≤ (kbdintr codes shift).2 < 128 ∧
  (has shift E0ESC = false → letter d = true → kbdgetc KBS_DIB d shift = (letter_char shift d, shift)) ∧
  (∀ e, has shift E0ESC = false → d ≠ 0x60 →
    let m := entry shiftcode (key_index e d) in
    let l := entry togglecode (key_index e d) in
    let s1 := (kbd_chars (key_codes e d) shift).2 in
    let s2 := (kbd_chars (key_codes e (d + 128)) s1).2 in
    (m ≠ 0 → has s1 m = true) ∧ s2 = Z.ldiff (Z.lxor shift l) m ∧
    (l ≠ 0 → (kbd_chars (key_codes e d) s2).2 = shift)).
Proof.
  intros Hc Hs Hd. destruct (kbd_chars_range codes shift Hc Hs) as [H1 H2]. unfold kbdintr. destruct (kbd_chars codes shift) as [cs s'].
  split; [done|]. split; [done|]. split.
  - intros E1 E2. pose proof (all_Z_spec 128 _ (all_Z_spec 128 _ letters_ok shift Hs) d Hd) as H. unfold letter_ok in H.
    rewrite E1, E2 in H. cbn [negb andb] in H. by apply bool_decide_eq_true in H.
  - intros e E Hne. pose proof (modifier_ok_iff e shift d Hs Hd) as H. unfold modifier_ok in H.
    rewrite E, (proj2 (Z.eqb_neq d 0x60)) in H by done. cbn [orb] in H. rewrite !andb_true_iff, !orb_true_iff, !Z.eqb_eq in H. tauto.
Qed.

(** Shift down, "a", shift up, "a". *)
Lemma kbdintr_typed_witness :
  byte_keys (kbdintr [0x2A; 0x1E; 0x9E; 0xAA; 0x1E] 0).1 input0 ∧
  (kbdintr [0x2A; 0x1E; 0x9E; 0xAA; 0x1E] 0).1 = OpIntr [0; 65; 0; 0; 97] ∧
  kbdgetc KBS_DIB 0x1E 0 = (97, 0).
Proof.
  destruct (kbdintr_typed [0x2A; 0x1E; 0x9E; 0xAA; 0x1E] 0 input0 0x1E) as (H1 & _ & H3 & _); [by repeat constructor | lia | lia |].
  split; [exact H1|]. split; [by vm_compute|]. by apply H3.
Defined.

(** The Home key sends E0 47, as its neighbours send E0 48 (up) and E0 4F
    (end); the maps have its entry at 97 instead of C7, so it does
    nothing. *)
Lemma home_key_dead : kbd_chars [0xE0; 0x47; 0xE0; 0x48; 0xE0; 0x4F] 0 = ([0; 0; 0; KEY_UP; 0; KEY_END], 0).
Proof. by vm_compute. Qed.
