(* ===== verification/Print.v ===== *)
(** * Formatted output

    [printint] and [cprintf] of console.c, [printint] and [printf] of
    printf.c, and [atoi] of ulib.c. Formats, strings and the arguments on the
    stack are read from memory; a loop over a string has fuel, and running
    out of it is a loop that has not ended ([Hang] in the kernel, [None] in
    user space). *)
From S2P Require Import Prelude Machine Console.

(** The character constants of the formats. *)
Definition ch_pct : Z := 37.
Definition ch_c : Z := 99.
Definition ch_d : Z := 100.
Definition ch_p : Z := 112.
Definition ch_s : Z := 115.
Definition ch_x : Z := 120.
Definition ch_minus : Z := 45.

(** ["0123456789abcdef"] and ["0123456789ABCDEF"] *)
Definition digits : list Z := [48; 49; 50; 51; 52; 53; 54; 55; 56; 57; 97; 98; 99; 100; 101; 102].
Definition DIGITS : list Z := [48; 49; 50; 51; 52; 53; 54; 55; 56; 57; 65; 66; 67; 68; 69; 70].

(** ["(null)"] *)
Definition null_text : list Z := [40; 110; 117; 108; 108; 41].

(** A byte as a [char], which is signed. *)
Definition schar (b : Z) : Z := if b <? 128 then b else b - 256.

(** [do{ buf[i++] = digits[x % base]; }while((x /= base) != 0);], the bytes in
    the order they are stored. *)
Fixpoint digit_loop (digits : list Z) (fuel : nat) (x base : Z) : list Z :=
  match fuel with
  | O => []
  | S fuel' =>
      nth (Z.to_nat (x mod base)) digits 0 ::
      (let x := x / base in if negb (x =? 0) then digit_loop digits fuel' x base else [])
  end.

(** ** The kernel *)

(** What [printint] has in [buf]; 32 rounds are enough for any base. *)
Definition int_buf (xx base : Z) (sign : bool) : list Z :=
  let sign := sign && (xx <? 0) in
  let x := if sign then u32 (- xx) else u32 xx in
  digit_loop digits 32 x base ++ if sign then [ch_minus] else [].

Definition printint (xx base : Z) (sign : bool) : M con_out () := consputs (rev (int_buf xx base sign)).

(** [for(; *s; s++) consputc( *s);] *)
Fixpoint put_str (fuel : nat) (m : mem) (s : Z) : M con_out () :=
  match fuel with
  | O => hang
  | S fuel' => if m s =? 0 then mret () else consputc (schar (m s));; put_str fuel' m (s + 1)
  end.

(** The loop of [cprintf]; [lim] is the fuel of the strings. *)
Fixpoint cprintf_loop (lim fuel : nat) (m : mem) (fmt argp : Z) : M con_out () :=
  match fuel with
  | O => hang
  | S fuel' =>
      let c := m fmt in
      if c =? 0 then mret ()
      else if negb (c =? ch_pct) then consputc c;; cprintf_loop lim fuel' m (fmt + 1) argp
      else
        let c := m (fmt + 1) in
        if c =? 0 then mret ()
        else if c =? ch_d then
          printint (s32 (load32 m argp)) 10 true;; cprintf_loop lim fuel' m (fmt + 2) (argp + 4)
        else if (c =? ch_x) || (c =? ch_p) then
          printint (s32 (load32 m argp)) 16 false;; cprintf_loop lim fuel' m (fmt + 2) (argp + 4)
        else if c =? ch_s then
          (let s := load32 m argp in if s =? 0 then consputs null_text else put_str lim m s);;
          cprintf_loop lim fuel' m (fmt + 2) (argp + 4)
        else if c =? ch_pct then consputc ch_pct;; cprintf_loop lim fuel' m (fmt + 2) argp
        else consputc ch_pct;; consputc c;; cprintf_loop lim fuel' m (fmt + 2) argp
  end.

(** [cprintf] between taking and releasing [cons.lock]. *)
Definition cprintf (lim : nat) (m : mem) (fmt argp : Z) : M con_out () :=
  if fmt =? 0 then panic "null fmt" else cprintf_loop lim lim m fmt argp.

(** ** User space *)

(** The bytes [printint] hands to [putc], in order. *)
Definition user_printint (xx base : Z) (sgn : bool) : list Z :=
  let '(neg, x) := if sgn && (xx <? 0) then (true, u32 (- xx)) else (false, u32 xx) in
  let buf := digit_loop DIGITS 32 x base in
  let buf := if (neg : bool) then buf ++ [ch_minus] else buf in
  rev buf.

(** [while( *s != 0) putc(fd, *s++)] *)
Fixpoint str_text (fuel : nat) (m : mem) (s : Z) : option (list Z) :=
  match fuel with
  | O => None
  | S fuel' => if m s =? 0 then Some [] else (m s ::.) <$> str_text fuel' m (s + 1)
  end.

(** The bytes [printf] writes one at a time to its descriptor. *)
Fixpoint printf_loop (lim fuel : nat) (m : mem) (fmt state ap : Z) : option (list Z) :=
  match fuel with
  | O => None
  | S fuel' =>
      let c := m fmt in
      if c =? 0 then Some []
      else if state =? 0 then
        if c =? ch_pct then printf_loop lim fuel' m (fmt + 1) ch_pct ap
        else (c ::.) <$> printf_loop lim fuel' m (fmt + 1) state ap
      else if state =? ch_pct then
        if c =? ch_d then
          (user_printint (s32 (load32 m ap)) 10 true ++.) <$> printf_loop lim fuel' m (fmt + 1) 0 (ap + 4)
        else if (c =? ch_x) || (c =? ch_p) then
          (user_printint (s32 (load32 m ap)) 16 false ++.) <$> printf_loop lim fuel' m (fmt + 1) 0 (ap + 4)
        else if c =? ch_s then
          t ← (let s := load32 m ap in if s =? 0 then Some null_text else str_text lim m s);
          (t ++.) <$> printf_loop lim fuel' m (fmt + 1) 0 (ap + 4)
        else if c =? ch_c then (u8 (load32 m ap) ::.) <$> printf_loop lim fuel' m (fmt + 1) 0 (ap + 4)
        else if c =? ch_pct then (c ::.) <$> printf_loop lim fuel' m (fmt + 1) 0 ap
        else ([ch_pct; c] ++.) <$> printf_loop lim fuel' m (fmt + 1) 0 ap
      else printf_loop lim fuel' m (fmt + 1) state ap
  end.

Definition printf (lim : nat) (m : mem) (fmt ap : Z) : option (list Z) := printf_loop lim lim m fmt 0 ap.

(** [atoi], with the wrap-around of [int]. *)
Fixpoint atoi_loop (fuel : nat) (m : mem) (s n : Z) : option Z :=
  match fuel with
  | O => None
  | S fuel' =>
      if (48 <=? schar (m s)) && (schar (m s) <=? 57) then
        atoi_loop fuel' m (s + 1) (s32 (n * 10 + schar (m s) - 48))
      else Some n
  end.
Definition atoi (fuel : nat) (m : mem) (s : Z) : option Z := atoi_loop fuel m s 0.

(** * What the printing functions print

    The console never leaves the screen, whatever is sent to it; [cprintf] and
    [printf] format_text formats the same way; numbers fit the buffer of
    [printint] and are read back by [atoi]. *)

(** ** The console's output *)

Definition out_ok (o : con_out) : Prop := panicked o = false ∧ 0 ≤ cursor (scr o) < 1920.

(** [o'] is [o] after the bytes [t] went to the serial port. Nothing outside
    the 24 lines of the screen memory is touched. *)
Definition emits (o : con_out) (t : list Z) (o' : con_out) : Prop :=
  out_ok o' ∧ uart o' = uart o ∧ serial o' = serial o ++ (if uart o then t else []) ∧
  ∀ k, k < 0 ∨ 1920 ≤ k → crt (scr o') k = crt (scr o) k.

Lemma emits_nil o : out_ok o → emits o [] o.
Proof. intros H. split_and!; try done. by destruct (uart o); rewrite app_nil_r. Qed.

Lemma emits_trans o t o' t' o'' : emits o t o' → emits o' t' o'' → emits o (t ++ t') o''.
Proof.
  intros (A1 & A2 & A3 & A4) (B1 & B2 & B3 & B4). split_and!; [done|congruence| |].
  - rewrite B3, A3, A2, <- app_assoc. by destruct (uart o).
  - intros k Hk. by rewrite B4, A4.
Qed.

(** The cursor stays on the first 24 lines; [cgaputc] does not panic. *)
Lemma cgaputc_ok c s : 0 ≤ cursor s < 1920 →
  ∃ s', cgaputc c s = Ok () s' ∧ 0 ≤ cursor s' < 1920 ∧ ∀ k, k < 0 ∨ 1920 ≤ k → crt s' k = crt s k.
Proof.
  intros Hc. unfold cgaputc.
  set (r := if c =? 10 then _ else _).
  assert (0 ≤ r.1 ≤ 1920 ∧ ∀ k, k < 0 ∨ 1920 ≤ k → r.2 k = crt s k) as [Hp Hm].
  { unfold r. destruct (c =? 10); [split; [simpl; zmod|done]|]. destruct (c =? BACKSPACE).
    - split; [simpl; case_match; lia|done].
    - split; [simpl; lia|]. intros k Hk. cbn [snd]. unfold set_cell. by rewrite (proj2 (Z.eqb_neq k _)) by lia. }
  destruct r as [pos m]. cbn [fst snd] in *.
  assert ((pos <? 0) || (25 * 80 <? pos) = false) as -> by lia.
  assert (∀ p m1, 0 ≤ p < 1920 → (∀ k, k < 0 ∨ 1920 ≤ k → m1 k = crt s k) →
    ∃ s', Ok () (Screen p (set_cell p (Z.lor 32 0x0700) m1)) = Ok () s' ∧ 0 ≤ cursor s' < 1920 ∧ ∀ k, k < 0 ∨ 1920 ≤ k → crt s' k = crt s k) as Hend.
  { intros p m1 Hp1 Hm1. eexists. split; [done|]. split; [done|]. intros k Hk. simpl. unfold set_cell.
    rewrite (proj2 (Z.eqb_neq k _)) by lia. by apply Hm1. }
  destruct (24 <=? pos / 80) eqn:E; [|apply Hend; [zmod|done]].
  apply Hend; [zmod|]. intros k Hk. unfold scroll.
  assert ((pos - 80 <=? k) && (k <? 1920) = false) as -> by (apply Z.leb_le in E; zmod).
  assert ((0 <=? k) && (k <? 1840) = false) as -> by lia. by apply Hm.
Qed.

(** A character on the serial port; the backspace is three. *)
Definition uart_text (c : Z) : list Z := if c =? BACKSPACE then [8; 32; 8] else [u8 c].

Lemma consputc_emits c o : out_ok o → ∃ o', consputc c o = Ok () o' ∧ emits o (uart_text c) o'.
Proof.
  intros [Hp Hc]. unfold consputc. rewrite Hp.
  set (o1 := if c =? BACKSPACE then _ else _).
  assert (scr o1 = scr o ∧ uart o1 = uart o ∧ panicked o1 = panicked o ∧ serial o1 = serial o ++ (if uart o then uart_text c else [])) as (E1 & E2 & E3 & E4).
  { unfold o1, uart_text, uartputc. destruct o as [s [|] l p], (c =? BACKSPACE); simpl; rewrite ?app_nil_r, <- ?app_assoc; done. }
  destruct (cgaputc_ok c (scr o1)) as (s' & -> & Hs & Hk); [by rewrite E1|].
  eexists. split; [done|]. rewrite E1 in Hk. split; [split; simpl; [congruence|done]|]. by split_and!.
Qed.

Lemma consputs_emits cs : ∀ o, out_ok o → ∃ o', consputs cs o = Ok () o' ∧ emits o (cs ≫= uart_text) o'.
Proof.
  induction cs as [|c cs IH]; intros o Ho; cbn [consputs].
  - exists o. split; [done|]. by apply emits_nil.
  - destruct (consputc_emits c o Ho) as (o1 & E1 & H1). destruct (IH o1 (proj1 H1)) as (o2 & E2 & H2).
    exists o2. rewrite (bind_ok _ _ _ _ _ E1). split; [exact E2|]. cbn. by eapply emits_trans.
Qed.

(** Output that leads with one character or one piece of text. *)
Lemma emits_then {m1 : M con_out ()} {m2 : () → M con_out ()} {o t o1} :
  m1 o = Ok () o1 → emits o t o1 →
  ∀ t', (out_ok o1 → ∃ o2, m2 () o1 = Ok () o2 ∧ emits o1 t' o2) → ∃ o2, (m1 ≫= m2) o = Ok () o2 ∧ emits o (t ++ t') o2.
Proof.
  intros E1 H1 t' H2. destruct (H2 (proj1 H1)) as (o2 & E2 & H2'). exists o2. rewrite (bind_ok _ _ _ _ _ E1).
  split; [exact E2|]. by eapply emits_trans.
Qed.

(** ** Numbers *)

Definition int_text (digits : list Z) (xx base : Z) (sign : bool) : list Z :=
  if sign && (xx <? 0) then ch_minus :: rev (digit_loop digits 32 (u32 (- xx)) base)
  else rev (digit_loop digits 32 (u32 xx) base).

Lemma int_buf_text xx base sign : rev (int_buf xx base sign) = int_text digits xx base sign.
Proof. unfold int_buf, int_text. destruct (sign && (xx <? 0)); rewrite ?rev_app_distr, ?app_nil_r; done. Qed.

Lemma user_printint_text xx base sign : user_printint xx base sign = int_text DIGITS xx base sign.
Proof. unfold user_printint, int_text. destruct (sign && (xx <? 0)); rewrite ?rev_app_distr; done. Qed.

(** The letters of the two digit tables. *)
Definition lower (c : Z) : Z := if (65 <=? c) && (c <=? 70) then c + 32 else c.

Lemma lower_digits k : lower (nth k DIGITS 0) = lower (nth k digits 0).
Proof. do 16 (destruct k as [|k]; [done|]). by rewrite !nth_overflow by (simpl; lia). Qed.

Lemma lower_digit_loop fuel base : ∀ x, lower <$> digit_loop DIGITS fuel x base = lower <$> digit_loop digits fuel x base.
Proof.
  induction fuel as [|fuel IH]; intros x; [done|]. cbn [digit_loop fmap list_fmap]. rewrite lower_digits. f_equal.
  cbv zeta. destruct (negb _); [apply IH | done].
Qed.

Lemma lower_int_text xx base sign : lower <$> int_text DIGITS xx base sign = lower <$> int_text digits xx base sign.
Proof.
  unfold int_text. assert (∀ l : list Z, lower <$> rev l = rev (lower <$> l)) as Hr by (intros l; apply map_rev).
  destruct (sign && (xx <? 0)); cbn [fmap list_fmap]; rewrite ?Hr; by rewrite ?lower_digit_loop.
Qed.

Lemma digit_ascii k : 0 ≤ nth k digits 0 < 128.
Proof. do 16 (destruct k as [|k]; [done|]). rewrite nth_overflow by (simpl; lia). done. Qed.

Lemma digit_loop_ascii fuel base : ∀ x, Forall (λ c, 0 ≤ c < 128) (digit_loop digits fuel x base).
Proof.
  induction fuel as [|fuel IH]; intros x; cbn [digit_loop]; [constructor|]. constructor; [apply digit_ascii|].
  cbv zeta. destruct (negb _); [apply IH|constructor].
Qed.

Lemma int_text_ascii xx base sign : Forall (λ c, 0 ≤ c < 128) (int_text digits xx base sign).
Proof.
  unfold int_text. destruct (sign && (xx <? 0)); [constructor; [done|]|]; apply Forall_rev, digit_loop_ascii.
Qed.

(** ASCII goes to the serial port as it is. *)
Lemma uart_text_ascii t : Forall (λ c, 0 ≤ c < 256) t → t ≫= uart_text = t.
Proof.
  induction 1 as [|c t Hc _ IH]; [done|]. cbn [mbind list_bind]. rewrite IH. unfold uart_text, BACKSPACE.
  rewrite (proj2 (Z.eqb_neq c 256)) by lia. by rewrite u8_small.
Qed.

(** ** Formats *)

(** The string [f] at [a]. *)
Fixpoint cstring (m : mem) (a : Z) (f : list Z) : Prop :=
  match f with
  | [] => m a = 0
  | c :: f' => m a = c ∧ c ≠ 0 ∧ cstring m (a + 1) f'
  end.

(** What a format stands for: every conversion takes the next word of the
    arguments, and what is not a conversion is copied. The result is not
    defined when the argument of a %s has no end. *)
Fixpoint format_text (m : mem) (lim : nat) (f : list Z) (ap : Z) : option (list Z) :=
  match f with
  | [] => Some []
  | a :: f1 =>
      if negb (a =? ch_pct) then (a ::.) <$> format_text m lim f1 ap
      else
        match f1 with
        | [] => Some []
        | c :: f2 =>
            if c =? ch_d then (int_text digits (s32 (load32 m ap)) 10 true ++.) <$> format_text m lim f2 (ap + 4)
            else if (c =? ch_x) || (c =? ch_p) then
              (int_text digits (s32 (load32 m ap)) 16 false ++.) <$> format_text m lim f2 (ap + 4)
            else if c =? ch_s then
              t ← (if load32 m ap =? 0 then Some null_text else str_text lim m (load32 m ap));
              (t ++.) <$> format_text m lim f2 (ap + 4)
            else if c =? ch_pct then (ch_pct ::.) <$> format_text m lim f2 ap
            else ([ch_pct; c] ++.) <$> format_text m lim f2 ap
        end
  end.

(** The conversion characters of a format. *)
Fixpoint convs (f : list Z) : list Z :=
  match f with
  | [] => []
  | a :: f1 => if negb (a =? ch_pct) then convs f1 else match f1 with [] => [] | c :: f2 => c :: convs f2 end
  end.

(** Induction that steps over a conversion at once. *)
Lemma format_ind (P : list Z → Prop) :
  P [] → (∀ a f, a ≠ ch_pct → P f → P (a :: f)) → P [ch_pct] → (∀ c f, P f → P (ch_pct :: c :: f)) → ∀ f, P f.
Proof.
  intros H0 H1 H2 H3 f. remember (length f) as n eqn:En. revert f En.
  induction n as [n IH] using lt_wf_ind. intros [|a f] En; [done|]. destruct (decide (a = ch_pct)) as [->|Ha].
  - destruct f as [|c f]; [done|]. apply H3. eapply IH; [|done]. simpl in En. lia.
  - apply H1; [done|]. eapply IH; [|done]. simpl in En. lia.
Qed.

Lemma schar_u8 b : 0 ≤ b < 256 → uart_text (schar b) = [b].
Proof. intros Hb. unfold uart_text, schar, BACKSPACE, u8. destruct (Z.ltb_spec b 128); (rewrite (proj2 (Z.eqb_neq _ 256)) by lia); f_equal; zmod. Qed.

Lemma str_text_bytes m : wf_mem m → ∀ lim a t, str_text lim m a = Some t → Forall (λ c, 0 ≤ c < 256) t.
Proof.
  intros Hm lim. induction lim as [|lim IH]; intros a t; [done|]. cbn [str_text]. destruct (m a =? 0); [by intros [= <-]|].
  intros (t' & Ht & ->)%fmap_Some. constructor; [apply Hm | by apply (IH (a + 1))].
Qed.

Lemma put_str_emits m : wf_mem m → ∀ lim a t o, str_text lim m a = Some t → out_ok o → ∃ o', put_str lim m a o = Ok () o' ∧ emits o t o'.
Proof.
  intros Hm lim. induction lim as [|lim IH]; intros a t o; [done|]. cbn [str_text put_str]. destruct (m a =? 0).
  { intros [= <-] Ho. exists o. split; [done|]. by apply emits_nil. }
  intros (t' & Ht & ->)%fmap_Some Ho. destruct (consputc_emits (schar (m a)) o Ho) as (o1 & E1 & H1).
  rewrite schar_u8 in H1 by apply Hm. apply (emits_then E1 H1). intros Ho1. by apply IH.
Qed.

(** One character of the format. *)
Lemma consputc_byte c o : 0 ≤ c < 256 → out_ok o → ∃ o', consputc c o = Ok () o' ∧ emits o [c] o'.
Proof.
  intros Hc Ho. destruct (consputc_emits c o Ho) as (o1 & E1 & H1). exists o1. split; [done|].
  rewrite <- (uart_text_ascii [c]); [|by constructor]. cbn. by rewrite app_nil_r.
Qed.

Lemma printint_emits xx base sign o : out_ok o → ∃ o', printint xx base sign o = Ok () o' ∧ emits o (int_text digits xx base sign) o'.
Proof.
  intros Ho. unfold printint. rewrite int_buf_text. destruct (consputs_emits (int_text digits xx base sign) o Ho) as (o1 & E1 & H1).
  exists o1. split; [done|]. rewrite uart_text_ascii in H1; [done|]. eapply Forall_impl; [apply int_text_ascii|]. simpl. lia.
Qed.

Lemma cprintf_loop_text m lim f : wf_mem m → ∀ fuel fmt ap t o,
  cstring m fmt f → (length f < fuel)%nat → format_text m lim f ap = Some t → out_ok o →
  ∃ o', cprintf_loop lim fuel m fmt ap o = Ok () o' ∧ emits o t o'.
Proof.
  intros Hm. induction f as [|a f Ha IH| |c f IH] using format_ind; intros [|fuel] fmt ap t o Hf Hl Hr Ho; simpl in Hl; try lia;
    cbn [cprintf_loop].
  - simpl in Hf. rewrite Hf. injection Hr as <-. exists o. split; [done|]. by apply emits_nil.
  - destruct Hf as (Hma & Hnz & Hf). cbn [format_text] in Hr. rewrite (proj2 (Z.eqb_neq a _)) in Hr by done. cbn [negb] in Hr.
    rewrite Hma, (proj2 (Z.eqb_neq a 0)), (proj2 (Z.eqb_neq a _)) by done. cbn [negb].
    apply fmap_Some in Hr as (t' & Hr & ->). assert (0 ≤ a < 256) as Hb by (rewrite <- Hma; apply Hm).
    destruct (consputc_byte a o Hb Ho) as (o1 & E1 & H1).
    apply (emits_then E1 H1). intros Ho1. apply IH; [done|lia|done|done].
  - destruct Hf as (Hma & _ & Hz). simpl in Hz. injection Hr as <-. rewrite Hma, Hz. simpl. exists o. split; [done|]. by apply emits_nil.
  - destruct Hf as (Hma & _ & Hmc & Hnz & Hf). cbn [format_text] in Hr. rewrite Z.eqb_refl in Hr. cbn [negb] in Hr.
    rewrite Hma, Hmc. change (ch_pct =? 0) with false. rewrite Z.eqb_refl. cbn [negb]. rewrite (proj2 (Z.eqb_neq c 0)) by done.
    replace (fmt + 1 + 1) with (fmt + 2) in Hf by lia. assert (0 ≤ c < 256) as Hb by (rewrite <- Hmc; apply Hm).
    assert (∀ ap' t' o1, format_text m lim f ap' = Some t' → out_ok o1 →
      ∃ o2, cprintf_loop lim fuel m (fmt + 2) ap' o1 = Ok () o2 ∧ emits o1 t' o2) as Hrec by (intros; apply IH; [done|lia|done|done]).
    destruct (c =? ch_d); [|destruct ((c =? ch_x) || (c =? ch_p)); [|destruct (c =? ch_s); [|destruct (c =? ch_pct)]]].
    + apply fmap_Some in Hr as (t' & Hr & ->). destruct (printint_emits (s32 (load32 m ap)) 10 true o Ho) as (o1 & E1 & H1).
      apply (emits_then E1 H1). intros Ho1. by apply Hrec.
    + apply fmap_Some in Hr as (t' & Hr & ->). destruct (printint_emits (s32 (load32 m ap)) 16 false o Ho) as (o1 & E1 & H1).
      apply (emits_then E1 H1). intros Ho1. by apply Hrec.
    + apply bind_Some in Hr as (ts & Hs & (t' & Hr & ->)%fmap_Some). cbv zeta.
      assert (∃ o1, (if load32 m ap =? 0 then consputs null_text else put_str lim m (load32 m ap)) o = Ok () o1 ∧ emits o ts o1) as (o1 & E1 & H1).
      { destruct (load32 m ap =? 0); [|by apply put_str_emits]. injection Hs as <-. apply (consputs_emits null_text o Ho). }
      apply (emits_then E1 H1). intros Ho1. by apply Hrec.
    + apply fmap_Some in Hr as (t' & Hr & ->). destruct (consputc_byte ch_pct o) as (o1 & E1 & H1); [done|done|].
      apply (emits_then E1 H1). intros Ho1. by apply Hrec.
    + apply fmap_Some in Hr as (t' & Hr & ->). destruct (consputc_byte ch_pct o) as (o1 & E1 & H1); [done|done|].
      change ([ch_pct; c] ++ t') with ([ch_pct] ++ [c] ++ t'). apply (emits_then E1 H1). intros Ho1.
      destruct (consputc_byte c o1 Hb Ho1) as (o2 & E2 & H2). apply (emits_then E2 H2). intros Ho2. by apply Hrec.
Qed.

(** [t'] is [t] up to the case of hexadecimal digits. *)
Definition same_text (t t' : list Z) : Prop := lower <$> t' = lower <$> t.

Lemma same_text_app x x' r (t : list Z) :
  same_text x x' → (∃ t', r = Some t' ∧ same_text t t') → ∃ t', (x' ++.) <$> r = Some t' ∧ same_text (x ++ t) t'.
Proof. intros Hx (t' & -> & Ht). exists (x' ++ t'). split; [done|]. unfold same_text in *. by rewrite !fmap_app, Hx, Ht. Qed.

Lemma printf_loop_text m lim f : ∀ fuel fmt ap t,
  cstring m fmt f → (length f < fuel)%nat → ch_c ∉ convs f → format_text m lim f ap = Some t →
  ∃ t', printf_loop lim fuel m fmt 0 ap = Some t' ∧ same_text t t'.
Proof.
  induction f as [|a f Ha IH| |c f IH] using format_ind; intros fuel fmt ap t Hf Hl Hc Hr; simpl in Hl.
  - destruct fuel as [|fuel]; [lia|]. simpl in Hf. cbn [printf_loop]. rewrite Hf. injection Hr as <-. by exists [].
  - destruct fuel as [|fuel]; [lia|]. destruct Hf as (Hma & Hnz & Hf). cbn [format_text convs] in Hr, Hc.
    rewrite (proj2 (Z.eqb_neq a _)) in Hr, Hc by done. cbn [negb] in Hr, Hc. cbn [printf_loop].
    rewrite Hma, (proj2 (Z.eqb_neq a 0)), (proj2 (Z.eqb_neq a _)) by done. cbn [Z.eqb].
    apply fmap_Some in Hr as (t' & Hr & ->). apply (same_text_app [a] [a]); [done|]. apply IH; [done|lia|done|done].
  - destruct fuel as [|[|fuel]]; [lia..|]. destruct Hf as (Hma & _ & Hz). simpl in Hz. injection Hr as <-. cbn [printf_loop].
    rewrite Hma, Hz. by exists [].
  - destruct fuel as [|[|fuel]]; [lia..|]. destruct Hf as (Hma & _ & Hmc & Hnz & Hf). cbn [format_text convs] in Hr, Hc.
    rewrite Z.eqb_refl in Hr, Hc. cbn [negb] in Hr, Hc. apply not_elem_of_cons in Hc as [Hcc Hc].
    cbn [printf_loop]. rewrite Hma, Hmc. change (ch_pct =? 0) with false. rewrite Z.eqb_refl. cbv iota. rewrite (proj2 (Z.eqb_neq c 0)) by done.
    assert (∀ ap' t', format_text m lim f ap' = Some t' → ∃ t'', printf_loop lim fuel m (fmt + 1 + 1) 0 ap' = Some t'' ∧ same_text t' t'') as Hrec
      by (intros; apply IH; [done|lia|done|done]).
    rewrite (proj2 (Z.eqb_neq c ch_c)) by congruence. rewrite !user_printint_text.
    destruct (c =? ch_d); [|destruct ((c =? ch_x) || (c =? ch_p)); [|destruct (c =? ch_s); [|destruct (Z.eqb_spec c ch_pct) as [->|_]]]].
    + apply fmap_Some in Hr as (t' & Hr & ->). apply same_text_app; [apply lower_int_text | by apply Hrec].
    + apply fmap_Some in Hr as (t' & Hr & ->). apply same_text_app; [apply lower_int_text | by apply Hrec].
    + apply bind_Some in Hr as (ts & Hs & (t' & Hr & ->)%fmap_Some). cbv zeta. rewrite Hs. cbn [mbind option_bind].
      apply same_text_app; [done | by apply Hrec].
    + apply fmap_Some in Hr as (t' & Hr & ->). apply (same_text_app [ch_pct] [ch_pct]); [done | by apply Hrec].
    + apply fmap_Some in Hr as (t' & Hr & ->). apply same_text_app; [done | by apply Hrec].
Qed.

(** The kernel's and the users' formatted output agree. For a format in
    memory whose conversions stand for [t], [cprintf] returns, has sent
    exactly [t] to the serial port, has not written outside the 24 lines of
    the screen memory and has left the cursor on them, so that printing never
    panics; and [printf], a different program with a state instead of a
    lookahead, writes the same text up to the case of hexadecimal digits,
    unless the format has a %c, which only [printf] knows. *)
Theorem cprintf_printf_agree m lim f fmt ap t o :
  wf_mem m → fmt ≠ 0 → cstring m fmt f → (length f < lim)%nat → format_text m lim f ap = Some t → out_ok o →
  (∃ o', cprintf lim m fmt ap o = Ok () o' ∧ emits o t o') ∧
  (ch_c ∉ convs f → ∃ t', printf lim m fmt ap = Some t' ∧ same_text t t').
Proof.
  intros Hm Hz Hf Hl Hr Ho. split.
  - unfold cprintf. rewrite (proj2 (Z.eqb_neq fmt 0)) by done. by apply (cprintf_loop_text m lim f).
  - intros Hc. by apply (printf_loop_text m lim f).
Qed.

(** The format "%d is %x" at 1, its arguments -10 and 171 at 100. *)
Definition ex_fmt : list Z := [37; 100; 32; 105; 115; 32; 37; 120].
Definition ex_print_mem : mem := λ a,
  if a =? 100 then 246 else if (101 <=? a) && (a <=? 103) then 255 else if a =? 104 then 171
  else if a <? 1 then 0 else nth (Z.to_nat (a - 1)) ex_fmt 0.
Definition ex_out : con_out := ConOut (Screen 1919 (λ _, 0)) true [] false.

Lemma ex_print_mem_wf : wf_mem ex_print_mem.
Proof.
  intros a. unfold ex_print_mem. repeat (case_match; [lia|]). remember (Z.to_nat (a - 1)) as k eqn:E. clear.
  do 8 (destruct k as [|k]; [done|]). rewrite nth_overflow by (simpl; lia). done.
Qed.

Lemma cprintf_printf_agree_witness :
  (∃ o', cprintf 20 ex_print_mem 1 100 ex_out = Ok () o' ∧ emits ex_out [45; 49; 48; 32; 105; 115; 32; 97; 98] o') ∧
  ∃ t', printf 20 ex_print_mem 1 100 = Some t' ∧ t' = [45; 49; 48; 32; 105; 115; 32; 65; 66] ∧
    same_text [45; 49; 48; 32; 105; 115; 32; 97; 98] t'.
Proof.
  destruct (cprintf_printf_agree ex_print_mem 20 ex_fmt 1 100 [45; 49; 48; 32; 105; 115; 32; 97; 98] ex_out) as [H1 H2];
    [apply ex_print_mem_wf | done | by vm_compute | simpl; lia | by vm_compute | by vm_compute |].
  split; [exact H1|]. destruct H2 as (t' & Ht & Hs); [by apply (bool_decide_eq_true_1 (ch_c ∉ convs ex_fmt))|]. exists t'. split; [done|]. split; [|done].
  vm_compute in Ht. by injection Ht as <-.
Defined.

(** ** Reading numbers back *)

Lemma digit_char d : 0 ≤ d < 10 → nth (Z.to_nat d) DIGITS 0 = d + 48.
Proof.
  intros Hd. rewrite <- (Z2Nat.id d) at 2 by lia. assert (Z.to_nat d < 10)%nat as Hk by lia.
  revert Hk. generalize (Z.to_nat d). intros k Hk. do 10 (destruct k as [|k]; [done|]). lia.
Qed.

(** The value of a row of digits. *)
Definition number (n : Z) (t : list Z) : Z := fold_left (λ n c, s32 (n * 10 + c - 48)) t n.

Lemma digit_loop_number fuel : ∀ x, 0 ≤ x < 10 ^ Z.of_nat fuel → 0 ≤ x < 2147483648 → (0 < fuel)%nat →
  number 0 (rev (digit_loop DIGITS fuel x 10)) = x ∧ Forall (λ c, 48 ≤ c ≤ 57) (digit_loop DIGITS fuel x 10).
Proof.
  induction fuel as [|fuel IH]; intros x Hx Hlt Hf; [lia|]. cbn [digit_loop]. cbv zeta.
  rewrite digit_char by (apply Z.mod_pos_bound; lia). rewrite Nat2Z.inj_succ, Z.pow_succ_r in Hx by lia.
  pose proof (Z.mod_pos_bound x 10). destruct (Z.eqb_spec (x / 10) 0) as [E|Hne]; cbn [negb].
  - split; [|constructor; [lia|constructor]]. cbn. rewrite s32_small; zmod.
  - destruct fuel as [|fuel]; [simpl in Hx; zmod|]. destruct (IH (x / 10)) as [Hn Hd]; [zmod|zmod|lia|].
    split; [|constructor; [lia|done]]. cbn [rev]. unfold number in *. rewrite fold_left_app, Hn. cbn [fold_left].
    rewrite s32_small; zmod.
Qed.

Lemma atoi_loop_number m fuel t : ∀ a n, cstring m a t → Forall (λ c, 48 ≤ c ≤ 57) t → (length t < fuel)%nat →
  atoi_loop fuel m a n = Some (number n t).
Proof.
  revert fuel. induction t as [|c t IH]; intros [|fuel] a n Hm Hd Hf; simpl in Hf; try lia; cbn [atoi_loop].
  - simpl in Hm. by rewrite Hm.
  - destruct Hm as (-> & _ & Hm). apply Forall_cons in Hd as [Hc Hd]. unfold schar. rewrite (proj2 (Z.ltb_lt c 128)) by lia.
    assert ((48 <=? c) && (c <=? 57) = true) as -> by lia. apply IH; [done|done|lia].
Qed.

Lemma digit_loop_length dg base fuel : 2 ≤ base → ∀ k x, 0 ≤ x < base ^ Z.of_nat k → (0 < k)%nat → (length (digit_loop dg fuel x base) ≤ k)%nat.
Proof.
  intros Hb. induction fuel as [|fuel IH]; intros k x Hx Hk; cbn [digit_loop length]; [lia|]. cbv zeta.
  destruct (Z.eqb_spec (x / base) 0) as [E|Hne]; cbn [negb]; [simpl; lia|].
  destruct k as [|k]; [lia|]. rewrite Nat2Z.inj_succ, Z.pow_succ_r in Hx by lia.
  assert (0 ≤ x / base < base ^ Z.of_nat k) as Hd by (split; [apply Z.div_pos; lia | apply Z.div_lt_upper_bound; lia]).
  destruct k as [|k]; [simpl in Hd; lia|]. pose proof (IH (S k) (x / base) Hd). lia.
Qed.

Lemma int_buf_length xx : -2147483648 ≤ xx < 2147483648 →
  (length (int_buf xx 10 true) ≤ 11 ∧ length (int_buf xx 16 false) ≤ 8)%nat.
Proof.
  intros Hx. unfold int_buf. rewrite andb_true_l, andb_false_l, app_nil_r.
  assert (∀ z, 0 ≤ u32 z < 10 ^ Z.of_nat 10) as H10 by (intros z; pose proof (u32_range z); change (10 ^ Z.of_nat 10) with 10000000000; lia).
  split; [|apply digit_loop_length; [lia | apply u32_range | lia]]. rewrite length_app.
  pose proof (λ z, digit_loop_length digits 10 32 ltac:(lia) 10 (u32 z) (H10 z) ltac:(lia)) as Hl.
  destruct (xx <? 0); cbn [length]; [pose proof (Hl (- xx)) | pose proof (Hl xx)]; lia.
Qed.

(** Numbers fit and can be read back. For every [int], the digits and the
    sign that [printint] stores, in decimal or hexadecimal, are at most 11
    and 8 of the 16 bytes of [buf], INT_MIN included; and [atoi] of the
    decimal text of a number that is not negative is that number, up to
    INT_MAX, while the text of a negative number, whose sign it does not
    know, is 0. *)
Theorem printint_atoi xx m a fuel :
  -2147483648 ≤ xx < 2147483648 → cstring m a (user_printint xx 10 true) → (11 < fuel)%nat →
  (length (int_buf xx 10 true) ≤ 11)%nat ∧ (length (int_buf xx 16 false) ≤ 8)%nat ∧
  atoi fuel m a = Some (if xx <? 0 then 0 else xx).
Proof.
  intros Hx Hm Hf. destruct (int_buf_length xx Hx) as [H10 H16]. split; [exact H10|]. split; [exact H16|].
  rewrite user_printint_text in Hm. unfold int_text in Hm. cbn [andb] in Hm. unfold atoi.
  destruct (Z.ltb_spec xx 0) as [Hn|Hn].
  - destruct Hm as (Hm & _ & _). destruct fuel as [|fuel]; [lia|]. cbn [atoi_loop]. rewrite Hm. done.
  - rewrite u32_small in Hm by lia. destruct (digit_loop_number 32 xx) as [Hv Hd]; [change (10 ^ Z.of_nat 32) with (10 ^ 32); lia | lia | lia |].
    rewrite (atoi_loop_number _ _ _ _ _ Hm); [by rewrite Hv | by apply Forall_rev |]. rewrite length_rev.
    pose proof (digit_loop_length DIGITS 10 32 ltac:(lia) 11 xx) as Hl. change (10 ^ Z.of_nat 11) with 100000000000 in Hl. lia.
Qed.

(** The largest [int]. *)
Lemma printint_atoi_witness :
  (length (int_buf 2147483647 10 true) ≤ 11)%nat ∧ (length (int_buf 2147483647 16 false) ≤ 8)%nat ∧
  atoi 12 (λ a, if a <? 0 then 0 else nth (Z.to_nat a) [50; 49; 52; 55; 52; 56; 51; 54; 52; 55] 0) 0 = Some 2147483647.
Proof. apply (printint_atoi 2147483647); [lia | by vm_compute | lia]. Defined.
