(* ===== verification/Ide.v ===== *)
(** * The disk driver (ide.c)

    The queue of requests, the command the drive is working on, and the
    interrupt that completes it and starts the next; callers sleep on their
    buffer. The theorem is that this driver, in any interleaving, does what
    the synchronous [iderw] of the buffer cache's model does, once per
    request and in order, and it says exactly when a step panics. The end of
    the file is the memory disk. *)
From S2P Require Import Prelude Machine Monitor Bio.

(** ** The drive *)

(** The task file registers [idestart] writes. *)
Record ata := Ata { r_count : Z; r_lba0 : Z; r_lba1 : Z; r_lba2 : Z; r_device : Z }.

(** A command given to the drive, with the data [outsl] has handed over. *)
Record command := Command { c_regs : ata; c_write : bool; c_data : block }.

(** How the drive reads its registers. *)
Definition ata_sector (r : ata) : Z :=
  r_lba0 r + 256 * r_lba1 r + 65536 * r_lba2 r + 16777216 * Z.land (r_device r) 15.
Definition ata_drive (r : ata) : Z := Z.land (Z.shiftr (r_device r) 4) 1.

(** ** The driver *)

(** The buffers and drives as the cache has them; the process that holds the
    sleep lock of a locked buffer ([lock.pid]); [idequeue] by buffer number;
    what the drive is doing. *)
Record ide := Ide { cache : bio; lkpid : nat → nat; idequeue : list nat; active : option command }.
#[export] Instance eta_ide : Settable ide := λ s, Ide (cache s) (lkpid s) (idequeue s) (active s).

Definition SECTOR_SIZE : Z := 512.

(** [idestart], without the wait for the drive to become ready. *)
Definition idestart (b : buf) : string + command :=
  if FSSIZE <=? b_blockno b then inl "incorrect blockno"
  else
    let sector_per_block := BSIZE / SECTOR_SIZE in
    let sector := b_blockno b * sector_per_block in
    if 7 <? sector_per_block then inl "idestart"
    else
      let r := Ata sector_per_block (Z.land sector 255) (Z.land (Z.shiftr sector 8) 255) (Z.land (Z.shiftr sector 16) 255)
        (Z.lor (Z.lor 0xe0 (Z.shiftl (Z.land (b_dev b) 1) 4)) (Z.land (Z.shiftr sector 24) 15)) in
      inr (Command r (b_dirty b) (b_data b)).

Definition valid_clean (b : buf) : bool := b_valid b && negb (b_dirty b).

(** How the drive finished: a failed command sets the error bits of the status
    register, and a failed write leaves whatever it likes in its sector. *)
Inductive drive_status := DOk | DFail (v : block).
Definition failed (st : drive_status) : bool := match st with DOk => false | DFail _ => true end.

(** What process [p] does: [iderw] of buffer [i], its part after
    [acquire(&idelock)], the loop after a sleep; the interrupt; what [p] does
    to a buffer between requests, its sleep lock included; and the changes to
    reference counts, which [bcache.lock] protects, not the sleep lock. *)
Inductive ide_op :=
| OpRw (p i : nat) | OpEnq (p i : nat) | OpWait (p i : nat) | OpIdeIntr (st : drive_status)
| OpOwner (p i : nat) (b : buf) | OpRef (i : nat) (n : Z).
Inductive ide_res := RIde | RIdePanic (msg : string).

(** A request was served; a buffer was changed otherwise. *)
Inductive ide_ev := EServe (i : nat) (st : drive_status) | EOwner (i : nat) (b : buf).

Definition ide_seg := segment ide nat ide_op ide_res ide_ev.

Definition seg_panic (s : ide) (msg : string) : ide_seg := Segment s [] [] (Returns (RIdePanic msg)).

(** [holdingsleep(&b->lock)], called by process [p]. *)
Definition holds_buf (p i : nat) (s : ide) (b : buf) : bool := b_locked b && (lkpid s i =? p)%nat.

(** [iderw] up to [acquire(&idelock)]. *)
Definition iderw_check (p i : nat) (s : ide) : ide_seg :=
  match bufs (cache s) !! i with
  | None => seg_panic s "trap"
  | Some b =>
      if negb (holds_buf p i s b) then seg_panic s "iderw: buf not locked"
      else if valid_clean b then seg_panic s "iderw: nothing to do"
      else if negb (b_dev b =? 0) && negb (havedisk1 (cache s)) then seg_panic s "iderw: ide disk 1 not present"
      else Segment s [] [] (Goes (OpEnq p i))
  end.

(** [while((b->flags & (B_VALID|B_DIRTY)) != B_VALID) sleep(b, &idelock);] *)
Definition iderw_wait (p i : nat) (s : ide) : ide_seg :=
  match bufs (cache s) !! i with
  | Some b => if valid_clean b then Segment s [] [] (Returns RIde) else Segment s [] [] (Sleeps i (OpWait p i))
  | None => seg_panic s "trap"
  end.

Definition iderw_start (p i : nat) (s : ide) : ide_seg :=
  match bufs (cache s) !! i with
  | None => seg_panic s "trap"
  | Some b =>
      let s := s <| idequeue := idequeue s ++ [i] |> in
      if decide (head (idequeue s) = Some i) then
        match idestart b with
        | inl msg => seg_panic s msg
        | inr c => iderw_wait p i (s <| active := Some c |>)
        end
      else iderw_wait p i s
  end.

(** A sector of a drive gets new contents. *)
Definition put_sector (d n : Z) (v : block) (s : bio) : bio :=
  s <| drives := (λ d' n', if (d' =? d) && (n' =? n) then v else drives s d' n') |>
    <| written := written s ++ [(d, n, v)] |>.

(** The drive finishes its command: a write reaches the platters. *)
Definition drive_done (st : drive_status) (c : command) (s : bio) : bio :=
  if c_write c
  then put_sector (ata_drive (c_regs c)) (ata_sector (c_regs c)) (match st with DOk => c_data c | DFail v => v end) s
  else s.

(** [insl(0x1f0, b->data, BSIZE/4)] *)
Definition insl (c : command) (s : bio) (b : buf) : buf :=
  b <| b_data := drives s (ata_drive (c_regs c)) (ata_sector (c_regs c)) |>.

(** [ideintr]; the drive raises the interrupt when it has finished. *)
Definition ideintr (st : drive_status) (s : ide) : ide_seg :=
  match idequeue s, active s with
  | i :: q, Some c =>
      match bufs (cache s) !! i with
      | None => seg_panic s "trap"
      | Some b =>
          let d := drive_done st c (cache s) in
          let b := if negb (b_dirty b) && negb (failed st) then insl c d b else b in
          let b := b <| b_valid := true |> <| b_dirty := false |> in
          let s := Ide (d <| bufs := <[i := b]> (bufs d) |>) (lkpid s) q None in
          match head q with
          | None => Segment s [i] [EServe i st] (Returns RIde)
          | Some j =>
              match bufs (cache s) !! j with
              | None => seg_panic s "trap"
              | Some b' =>
                  match idestart b' with
                  | inl msg => seg_panic s msg
                  | inr c' => Segment (s <| active := Some c' |>) [i] [EServe i st] (Returns RIde)
                  end
              end
          end
      end
  | _, _ => Segment s [] [] (Returns RIde)
  end.

Definition set_buf (i : nat) (b : buf) (s : ide) : ide := s <| cache := (cache s) <| bufs := <[i := b]> (bufs (cache s)) |> |>.

(** [acquiresleep] sets [lock.pid], [releasesleep] clears it. *)
Definition owner_change (p i : nat) (b : buf) (s : ide) : ide :=
  (set_buf i b s) <| lkpid := (λ j, if decide (j = i) then (if b_locked b then p else O) else lkpid s j) |>.

Definition ide_segment (l : ide_op) (s : ide) : ide_seg :=
  match l with
  | OpRw p i => iderw_check p i s
  | OpEnq p i => iderw_start p i s
  | OpWait p i => iderw_wait p i s
  | OpIdeIntr st => ideintr st s
  | OpOwner p i b => Segment (owner_change p i b s) [] [EOwner i b] (Returns RIde)
  | OpRef i n =>
      match bufs (cache s) !! i with
      | Some b => let b' := b <| b_refcnt := n |> in Segment (set_buf i b' s) [] [EOwner i b'] (Returns RIde)
      | None => seg_panic s "trap"
      end
  end.

(** ** Runs *)

Notation ithread := (thread nat ide_op ide_res).

Definition no_panic (e : ending nat ide_op ide_res) : Prop := ∀ msg, e ≠ Returns (RIdePanic msg).

(** What the driver relies on: [struct buf] pointers point to buffers, block
    numbers are unsigned, and a locked buffer is changed only by the process
    that holds it. *)
Definition ide_ok (l : ide_op) (s : ide) : Prop :=
  match l with
  | OpRw p i => ∃ b, bufs (cache s) !! i = Some b ∧ 0 ≤ b_blockno b
  | OpOwner p i b => ∀ b0, bufs (cache s) !! i = Some b0 → b_locked b0 = true → lkpid s i = p
  | OpRef i n => is_Some (bufs (cache s) !! i)
  | _ => True
  end.

(** What thread [k] may call: process [k] acts for itself. *)
Definition ide_call (k : nat) (l : ide_op) : Prop :=
  match l with
  | OpRw p _ | OpOwner p _ _ => p = k
  | OpIdeIntr _ | OpRef _ _ => True
  | OpEnq _ _ | OpWait _ _ => False
  end.
Definition ide_calls (x y : ide * list ithread) : Prop :=
  ∀ k r l, x.2 !! k = Some (TDone r) → y.2 !! k = Some (TReady l) → ide_call k l.

Notation ide_step := (mstep ide_segment (λ _ _, False) (λ l s, ide_ok l s ∧ no_panic (seg_end (ide_segment l s)))).

(** Runs up to the first panic. *)
Inductive ide_runs : ide * list ithread → list ide_ev → ide * list ithread → Prop :=
| ide_runs_refl x : ide_runs x [] x
| ide_runs_step x es y fs z : ide_runs x es y → ide_step y fs z → ide_calls y z → ide_runs x (es ++ fs) z.

(** When a step panics: a request that is not allowed; and a block number
    beyond the disk, which the driver finds only when it gives the request to
    the drive, for a request that had to wait in the interrupt before. *)
Definition beyond (s : ide) (i : nat) : Prop := ∃ b, bufs (cache s) !! i = Some b ∧ FSSIZE ≤ b_blockno b.

Definition ide_panics (l : ide_op) (s : ide) : Prop :=
  match l with
  | OpRw p i => ∃ b, bufs (cache s) !! i = Some b ∧
      (holds_buf p i s b = false ∨ valid_clean b = true ∨ (b_dev b ≠ 0 ∧ havedisk1 (cache s) = false))
  | OpEnq p i => idequeue s = [] ∧ beyond s i
  | OpIdeIntr _ => ∃ i j q, idequeue s = i :: j :: q ∧ beyond s j
  | _ => False
  end.

(** ** The synchronous disk *)

(** A request the drive failed. *)
Definition iderw_failed (i : nat) (v : block) : M bio () :=
  b ← buf_at i;
  when (b_dirty b) (modify (put_sector (Z.land (b_dev b) 1) (b_blockno b) v));;
  upd_buf i (λ b, b <| b_valid := true |> <| b_dirty := false |>).

Definition sync_serve (i : nat) (st : drive_status) : M bio () :=
  match st with DOk => iderw i | DFail v => iderw_failed i v end.

(** The synchronous disk, driven by what happened. *)
Definition sync_step (s : option bio) (e : ide_ev) : option bio :=
  s ≫= λ s, match e with
            | EServe i st => match sync_serve i st s with Ok _ s' => Some s' | _ => None end
            | EOwner i b => Some (s <| bufs := <[i := b]> (bufs s) |>)
            end.
Definition sync_run (s : option bio) (es : list ide_ev) : option bio := fold_left sync_step es s.

(** * The driver implements the synchronous disk *)

(** ** Requests *)

(** A buffer that has passed the tests of [iderw]. *)
Definition queued (hd1 : bool) (b : buf) : Prop :=
  b_locked b = true ∧ valid_clean b = false ∧ (b_dev b = 0 ∨ hd1 = true) ∧ 0 ≤ b_blockno b.

(** The command a request becomes, as the drive reads it. *)
Lemma idestart_command b : 0 ≤ b_blockno b < FSSIZE →
  ∃ c, idestart b = inr c ∧ ata_sector (c_regs c) = b_blockno b ∧ ata_drive (c_regs c) = Z.land (b_dev b) 1 ∧
    c_write c = b_dirty b ∧ c_data c = b_data b.
Proof.
  intros Hb. unfold idestart, FSSIZE in *. rewrite (proj2 (Z.leb_gt 1000 (b_blockno b))) by lia.
  change (BSIZE / SECTOR_SIZE) with 1. cbn [Z.ltb Z.compare Pos.compare Pos.compare_cont]. rewrite Z.mul_1_r.
  eexists. split; [done|]. simpl. unfold ata_sector, ata_drive. simpl.
  assert (∀ n, 0 ≤ n → Z.shiftr (b_blockno b) n = b_blockno b / 2 ^ n) as Hs by (intros; by apply Z.shiftr_div_pow2).
  rewrite !Hs by lia. change 255 with (Z.ones 8). change 15 with (Z.ones 4). rewrite !Z.land_ones by lia.
  change (2 ^ 8) with 256. change (2 ^ 16) with 65536. change (2 ^ 24) with 16777216. change (2 ^ 4) with 16.
  assert (b_blockno b / 16777216 = 0) as -> by zmod. assert (b_blockno b / 65536 = 0) as -> by zmod.
  assert (Z.land (b_dev b) 1 = 0 ∨ Z.land (b_dev b) 1 = 1) as Hd by (pose proof (Z.land_ones (b_dev b) 1) as E; change (Z.ones 1) with 1 in E; change (2 ^ 1) with 2 in E; zmod).
  split; [|split; [by destruct Hd as [-> | ->]|done]].
  assert (Z.lor (Z.lor 224 (Z.shiftl (Z.land (b_dev b) 1) 4)) (0 mod 16) mod 16 = 0) as -> by (by destruct Hd as [-> | ->]).
  zmod.
Qed.

Lemma idestart_beyond b : FSSIZE ≤ b_blockno b → idestart b = inl "incorrect blockno".
Proof. intros Hb. unfold idestart. by rewrite (proj2 (Z.leb_le _ _)). Qed.

Lemma idestart_inr b c : 0 ≤ b_blockno b → idestart b = inr c → b_blockno b < FSSIZE.
Proof. intros Hb Hc. destruct (Z.lt_ge_cases (b_blockno b) FSSIZE); [done|]. by rewrite idestart_beyond in Hc. Qed.

(** A request that the drive has finished has the effect of the synchronous
    one. *)
Lemma served_sync st s i b c : bufs s !! i = Some b → queued (havedisk1 s) b → idestart b = inr c →
  let d := drive_done st c s in
  let b' := (if negb (b_dirty b) && negb (failed st) then insl c d b else b) <| b_valid := true |> <| b_dirty := false |> in
  sync_serve i st s = Ok () (d <| bufs := <[i := b']> (bufs d) |>).
Proof.
  intros Hi Hb Hc. pose proof Hb as (Hl & Hv & Hdev & Hn). pose proof (idestart_inr _ _ Hn Hc) as Hlt.
  destruct (idestart_command b ltac:(lia)) as (c' & Hc' & Hs & Hd & Hw & Hdt). rewrite Hc in Hc'. injection Hc' as <-.
  unfold drive_done, insl, sync_serve, put_sector. rewrite Hs, Hd, Hw, Hdt. destruct st as [|v].
  - unfold valid_clean in Hv. unfold iderw, buf_at, upd_buf. mrun. rewrite Hi. rewrite Hl, Hv. cbn [negb].
    assert (negb (b_dev b =? 0) && negb (havedisk1 s) = false) as -> by (destruct Hdev as [-> | ->]; [done|]; apply andb_false_r).
    rewrite (proj2 (Z.leb_gt FSSIZE (b_blockno b))) by lia. destruct (b_dirty b); cbn [negb failed andb]; cbv zeta.
    + cbn. by rewrite (alter_insert_list (bufs s) i b _ Hi).
    + cbn. rewrite (alter_insert_list (bufs s) i b _ Hi). erewrite alter_insert_list by (apply list_lookup_insert_eq; by eapply lookup_lt_Some).
      by rewrite list_insert_insert_eq.
  - unfold iderw_failed, buf_at, upd_buf, when, put_sector. mrun. rewrite Hi.
    destruct (b_dirty b); cbn [negb failed andb]; cbn; by rewrite (alter_insert_list (bufs s) i b _ Hi).
Qed.

(** ** The invariant *)

(** Thread [k] is in the loop of [iderw] for buffer [i]. *)
Definition waits (k i : nat) (t : ithread) : Prop := t = TReady (OpWait k i) ∨ t = TAsleep i (OpWait k i).

(** Buffer [i] is [b], locked by process [k]. *)
Definition held_by (s : ide) (k i : nat) (b : buf) : Prop :=
  bufs (cache s) !! i = Some b ∧ b_locked b = true ∧ lkpid s i = k.

Definition thread_fits (s : ide) (k : nat) (t : ithread) : Prop :=
  match t with
  | TDone _ => True
  | TReady (OpRw p _) | TReady (OpOwner p _ _) => p = k
  | TReady (OpEnq p i) => p = k ∧ ∃ b, held_by s k i b ∧ queued (havedisk1 (cache s)) b
  | TReady (OpWait p i) => p = k ∧ ∃ b, held_by s k i b ∧ (i ∈ idequeue s ∨ valid_clean b = true)
  | TReady _ => True
  | TAsleep i l => l = OpWait k i ∧ i ∈ idequeue s ∧ lkpid s i = k
  end.

Record ide_inv (s : ide) (ts : list ithread) : Prop := {
  ii_nodup : NoDup (idequeue s);
  ii_queue i : i ∈ idequeue s →
    (∃ b, bufs (cache s) !! i = Some b ∧ queued (havedisk1 (cache s)) b) ∧ ∃ t, ts !! lkpid s i = Some t ∧ waits (lkpid s i) i t;
  ii_active : match idequeue s with
              | [] => active s = None
              | i :: _ => ∃ b c, bufs (cache s) !! i = Some b ∧ idestart b = inr c ∧ active s = Some c
              end;
  ii_thread k t : ts !! k = Some t → thread_fits s k t
}.

(** A thread in the queue waits there. *)
Lemma queue_waits s ts k t i : ide_inv s ts → ts !! k = Some t → i ∈ idequeue s → lkpid s i = k → waits k i t.
Proof. intros Hinv Hk Hi <-. destruct (ii_queue _ _ Hinv i Hi) as (_ & u & Hu & Hw). rewrite Hk in Hu. by injection Hu as <-. Qed.

(** What another thread does to the buffers of process [k]: a request stays
    in the queue until it is served, and a buffer that is not in the queue
    stays as it is, its reference count aside. *)
Definition same_request (b b' : buf) : Prop :=
  b_locked b' = b_locked b ∧ b_valid b' = b_valid b ∧ b_dirty b' = b_dirty b ∧ b_dev b' = b_dev b ∧ b_blockno b' = b_blockno b.

Definition keeps (k : nat) (s s' : ide) : Prop :=
  havedisk1 (cache s') = havedisk1 (cache s) ∧
  ∀ i b, held_by s k i b → ∃ b', held_by s' k i b' ∧
    (same_request b b' ∨ i ∈ idequeue s ∧ valid_clean b' = true) ∧ (i ∈ idequeue s → i ∈ idequeue s' ∨ valid_clean b' = true).

Lemma same_queued hd b b' : same_request b b' → queued hd b → queued hd b'.
Proof. unfold queued, valid_clean. by intros (-> & -> & -> & -> & ->). Qed.

Lemma same_clean b b' : same_request b b' → valid_clean b' = valid_clean b.
Proof. unfold valid_clean. by intros (_ & -> & -> & _). Qed.

Lemma keeps_same s s' k : cache s' = cache s → lkpid s' = lkpid s → (∀ i, i ∈ idequeue s → i ∈ idequeue s') → keeps k s s'.
Proof. intros Ec El Eq. split; [by rewrite Ec|]. intros i b Hb. exists b. unfold held_by in *. rewrite Ec, El. split; [done|]. split; [by left | auto]. Qed.

(** The others fit after a step that keeps their buffers. *)
Lemma fits_kept s s' ts k t ws : ide_inv s ts → ts !! k = Some t → keeps k s s' →
  (∀ i, i ∈ idequeue s → i ∈ idequeue s' ∨ i ∈ ws) → thread_fits s' k (wake ws t).
Proof.
  intros Hinv Hk [Ehd Hkeep] Hq. pose proof (ii_thread _ _ Hinv k t Hk) as Hf.
  assert (∀ i b, held_by s k i b → (i ∈ idequeue s ∨ valid_clean b = true) →
    ∃ b', held_by s' k i b' ∧ (i ∈ idequeue s' ∨ valid_clean b' = true)) as Hwait.
  { intros i b Hb Hi. destruct (Hkeep i b Hb) as (b' & Hb' & Hs & Hq'). exists b'. split; [done|].
    destruct Hi as [Hi|Hv]; [auto|]. right. destruct Hs as [Hs|[_ ?]]; [by rewrite (same_clean _ _ Hs) | done]. }
  destruct t as [r|l|i l]; simpl in Hf |- *; [done| |].
  - destruct l as [p i|p i|p i|st|p i b|i n]; try done.
    + destruct Hf as (-> & b & Hb & Hqd). split; [done|]. destruct (Hkeep i b Hb) as (b' & Hb' & Hs & _). exists b'. split; [done|].
      rewrite Ehd. destruct Hs as [Hs|[Hi _]]; [by eapply same_queued|].
      destruct (queue_waits _ _ _ _ _ Hinv Hk Hi ltac:(apply Hb)); done.
    + destruct Hf as (-> & b & Hb & Hi). split; [done|]. by apply (Hwait i b).
  - destruct Hf as (-> & Hi & Hl). destruct (ii_queue _ _ Hinv i Hi) as ((b & Hb & Hqd) & _).
    assert (held_by s k i b) as Hh by (split; [done|]; split; [apply Hqd | done]).
    case_decide as Hd; simpl; (split; [done|]); [apply (Hwait i b); auto|].
    destruct (Hkeep i b Hh) as (b' & (_ & _ & Hl') & _). split; [|done]. by destruct (Hq i Hi).
Qed.

(** One thread moves from [t] to [t']. *)
Lemma ide_moved s s' ts k t t' ws : ide_inv s ts → ts !! k = Some t →
  (∀ j, j ≠ k → keeps j s s') → (∀ i, i ∈ idequeue s → i ∈ idequeue s' ∨ i ∈ ws) → NoDup (idequeue s') →
  (∀ i, i ∈ idequeue s' → (∃ b, bufs (cache s') !! i = Some b ∧ queued (havedisk1 (cache s')) b) ∧
     ((i ∈ idequeue s ∧ lkpid s' i = lkpid s i ∧ (waits k i t → waits k i t')) ∨ (lkpid s' i = k ∧ waits k i t'))) →
  match idequeue s' with
  | [] => active s' = None
  | i :: _ => ∃ b c, bufs (cache s') !! i = Some b ∧ idestart b = inr c ∧ active s' = Some c
  end →
  thread_fits s' k t' → ide_inv s' (moved_on k t' ws ts).
Proof.
  intros Hinv Hk Hkeep Hq Hnd Hqs Ha Hf. split; [done| |done|].
  - intros i Hi. destruct (Hqs i Hi) as [Hb Hw]. split; [done|]. destruct Hw as [(Hi0 & -> & Hw)|[-> Hw]].
    + destruct (ii_queue _ _ Hinv i Hi0) as (_ & u & Hu & Hwu). destruct (decide (lkpid s i = k)) as [Elk|Hne].
      * rewrite Elk in *. exists t'. split; [by eapply moved_self|]. apply Hw. rewrite Hk in Hu. by injection Hu as <-.
      * exists (wake ws u). split; [by apply moved_other|]. destruct Hwu as [->| ->]; simpl; [by left|]. case_decide; [by left | by right].
    + exists t'. split; [by eapply moved_self | done].
  - intros j u Hj. destruct (moved_lookup _ _ _ _ _ _ _ Hk Hj) as [[-> ->]|(Hne & v & Hv & ->)]; [done|].
    by eapply fits_kept; [| |apply Hkeep|].
Qed.

(** A move of thread [k] that leaves the driver alone. *)
Lemma ide_moved_same s ts k t t' : ide_inv s ts → ts !! k = Some t → (∀ i, i ∈ idequeue s → waits k i t → waits k i t') →
  thread_fits s k t' → ide_inv s (moved_on k t' [] ts).
Proof.
  intros Hinv Hk Hw Hf. pose proof Hinv as [Hn Hq Ha Ht]. apply (ide_moved s s ts k t); auto.
  - intros j _. by apply keeps_same.
  - intros i Hi. destruct (Hq i Hi) as [Hb _]. split; [done|]. left. split; [done|]. split; [done|]. by apply Hw.
Qed.

(** ** The segments *)

(** [l], run by thread [k], keeps the invariant, and does to the buffers and
    drives what the synchronous disk does. *)
Definition segment_fits (s : ide) (ts : list ithread) (k : nat) (l : ide_op) : Prop :=
  let g := ide_segment l s in
  ide_inv (seg_state g) (moved_on k (ended (seg_end g)) (seg_wakes g) ts) ∧
  sync_run (Some (cache s)) (seg_events g) = Some (cache (seg_state g)).

Section segments.
Variables (s : ide) (ts : list ithread) (k : nat).
Hypothesis Hinv : ide_inv s ts.

Lemma check_fits p i : ts !! k = Some (TReady (OpRw p i)) → ide_ok (OpRw p i) s →
  (no_panic (seg_end (iderw_check p i s)) ↔ ¬ ide_panics (OpRw p i) s) ∧
  (no_panic (seg_end (iderw_check p i s)) → segment_fits s ts k (OpRw p i)).
Proof using Hinv.
  intros Hk (b & Hb & Hbn). pose proof (ii_thread _ _ Hinv k _ Hk) as Hp. simpl in Hp. subst p.
  unfold segment_fits. cbn [ide_segment ide_panics]. unfold iderw_check. rewrite Hb.
  destruct (holds_buf k i s b) eqn:Eh; cbn [negb];
    [|split; [split; [intros H; by destruct (H "iderw: buf not locked") | intros []; eauto] | intros H; by destruct (H "iderw: buf not locked")]].
  destruct (valid_clean b) eqn:Ev;
    [split; [split; [intros H; by destruct (H "iderw: nothing to do") | intros []; eauto] | intros H; by destruct (H "iderw: nothing to do")]|].
  destruct (negb (b_dev b =? 0) && negb (havedisk1 (cache s))) eqn:Ed.
  { apply andb_true_iff in Ed as [E1%negb_true_iff%Z.eqb_neq E2%negb_true_iff].
    split; [split; [intros H; by destruct (H "iderw: ide disk 1 not present") | intros []; eauto 6]
      | intros H; by destruct (H "iderw: ide disk 1 not present")]. }
  assert (b_dev b = 0 ∨ havedisk1 (cache s) = true) as Hd.
  { apply andb_false_iff in Ed as [E1%negb_false_iff%Z.eqb_eq|E2%negb_false_iff]; auto. }
  split.
  - split; [|done]. intros _ (b1 & [= <-] & H).
    destruct H as [?|[?|[H1 H2]]]; [congruence | congruence |]. destruct Hd; [done | congruence].
  - intros _. split; [|done]. cbn. unfold holds_buf in Eh. apply andb_true_iff in Eh as [El Elk%Nat.eqb_eq].
    apply (ide_moved_same s ts k _ _ Hinv Hk); [by intros ? _ [?|?]|]. simpl. split; [done|]. by exists b.
Qed.

Lemma wait_fits p i : ts !! k = Some (TReady (OpWait p i)) →
  no_panic (seg_end (iderw_wait p i s)) ∧ segment_fits s ts k (OpWait p i).
Proof using Hinv.
  intros Hk. destruct (ii_thread _ _ Hinv k _ Hk) as (-> & b & Hh & Hq). unfold segment_fits. cbn [ide_segment]. unfold iderw_wait.
  destruct Hh as (Hb & Hl & Hlk). rewrite Hb. destruct (valid_clean b) eqn:Ev; (split; [done|]); cbn; (split; [|done]).
  - apply (ide_moved_same s ts k _ _ Hinv Hk); [|done]. intros j Hj [[= ->]|?]; [|done].
    destruct (ii_queue _ _ Hinv j Hj) as ((b1 & Hb1 & _ & Hv & _) & _). congruence.
  - apply (ide_moved_same s ts k _ _ Hinv Hk); [intros j Hj [[= ->]|?]; [by right | done]|]. simpl. split; [done|].
    split; [|done]. by destruct Hq.
Qed.

(** A request is put at the end of the queue, and starts the drive when it is
    alone. *)
Lemma start_fits p i : ts !! k = Some (TReady (OpEnq p i)) →
  (no_panic (seg_end (iderw_start p i s)) ↔ ¬ ide_panics (OpEnq p i) s) ∧
  (no_panic (seg_end (iderw_start p i s)) → segment_fits s ts k (OpEnq p i)).
Proof using Hinv.
  intros Hk. destruct (ii_thread _ _ Hinv k _ Hk) as (-> & b & (Hb & Hl & Hlk) & Hqd). pose proof Hqd as (_ & Hv & _ & Hbn).
  pose proof Hinv as [Hn Hq Ha Ht].
  assert (i ∉ idequeue s) as Hi by (intros Hi; by destruct (queue_waits _ _ _ _ _ Hinv Hk Hi Hlk)).
  assert (∀ s', cache s' = cache s → lkpid s' = lkpid s → idequeue s' = idequeue s ++ [i] →
    match idequeue s' with [] => active s' = None | j :: _ => ∃ b c, bufs (cache s') !! j = Some b ∧ idestart b = inr c ∧ active s' = Some c end →
    ide_inv s' (moved_on k (TAsleep i (OpWait k i)) [] ts)) as Hgo.
  { intros s' E1 E2 E3 Ha'. apply (ide_moved s s' ts k (TReady (OpEnq k i))); try done.
    - intros j _. apply keeps_same; [done|done|]. rewrite E3. set_solver.
    - intros j Hj. left. rewrite E3. set_solver.
    - rewrite E3. apply NoDup_app. split_and!; [done | set_solver | apply NoDup_singleton].
    - rewrite E1, E2, E3. intros j [Hj| ->%list_elem_of_singleton]%elem_of_app.
      + destruct (Hq j Hj) as [Hbj _]. split; [done|]. left. split; [done|]. split; [done|]. by intros [?|?].
      + split; [by exists b|]. right. split; [done|]. by right.
    - simpl. rewrite E2, E3. split; [done|]. split; [set_solver | done]. }
  unfold segment_fits. cbn [ide_segment ide_panics]. unfold iderw_start. rewrite Hb. cbv zeta.
  set (s1 := s <| idequeue := idequeue s ++ [i] |>). change (idequeue s1) with (idequeue s ++ [i]).
  assert (cache s1 = cache s ∧ lkpid s1 = lkpid s ∧ active s1 = active s ∧ idequeue s1 = idequeue s ++ [i]) as (E1 & E2 & E3 & E4) by done. clearbody s1.
  destruct (idequeue s) as [|j q] eqn:Eq; cbn [head app] in *.
  - rewrite decide_True by done. destruct (Z.lt_ge_cases (b_blockno b) FSSIZE) as [Hlt|Hge].
    + destruct (idestart_command b ltac:(lia)) as (c & Hc & _). rewrite Hc. unfold iderw_wait. cbn. rewrite E1, Hb, Hv.
      split; [split; [|done]; intros _ [_ (b1 & Hb1 & Hge)]; rewrite Hb in Hb1; injection Hb1 as <-; lia|].
      intros _. cbn. rewrite E1. split; [|done]. apply Hgo; try done. cbn. rewrite E4, E1. by exists b, c.
    + rewrite idestart_beyond by done. split; [split|]; [intros H; by destruct (H "incorrect blockno") | | intros H; by destruct (H "incorrect blockno")].
      intros []. split; [done|]. by exists b.
  - rewrite decide_False by (intros [= ->]; set_solver). unfold iderw_wait. rewrite E1, Hb, Hv. cbn.
    split; [split; [|done]; intros _ [? _]; done|]. intros _. rewrite E1. split; [|done]. apply Hgo; try done. by rewrite E4, E1, E3.
Qed.

(** The interrupt completes the first request, like the synchronous disk, and
    gives the drive the next one. *)
Lemma ideintr_serves st i q : idequeue s = i :: q → (∀ j, head q = Some j → ¬ beyond s j) →
  ∃ s', ideintr st s = Segment s' [i] [EServe i st] (Returns RIde) ∧ sync_serve i st (cache s) = Ok () (cache s') ∧
    lkpid s' = lkpid s ∧ idequeue s' = q ∧ havedisk1 (cache s') = havedisk1 (cache s) ∧
    (∀ j, j ≠ i → bufs (cache s') !! j = bufs (cache s) !! j) ∧
    (∃ b b', bufs (cache s) !! i = Some b ∧ bufs (cache s') !! i = Some b' ∧ valid_clean b' = true ∧ b_locked b' = b_locked b ∧ b_blockno b' = b_blockno b) ∧
    match q with
    | [] => active s' = None
    | j :: _ => ∃ b c, bufs (cache s') !! j = Some b ∧ idestart b = inr c ∧ active s' = Some c
    end.
Proof using Hinv.
  intros Eq Hby. pose proof Hinv as [Hn Hr Ha _]. rewrite Eq in *. destruct Ha as (b & c & Hb & Hc & Hact). apply NoDup_cons in Hn as [Hiq Hn].
  destruct (Hr i) as [(b1 & Hb1 & Hreq) _]; [by left|]. rewrite Hb in Hb1. injection Hb1 as <-.
  pose proof (served_sync st _ _ _ _ Hb Hreq Hc) as Hsv. cbv zeta in Hsv. unfold ideintr. rewrite Eq, Hact, Hb. cbv zeta.
  set (d := drive_done st c (cache s)) in *.
  set (b' := (if negb (b_dirty b) && negb (failed st) then insl c d b else b) <| b_valid := true |> <| b_dirty := false |>) in *.
  assert (bufs d = bufs (cache s) ∧ havedisk1 d = havedisk1 (cache s)) as [Ed Eh] by (unfold d, drive_done; by destruct (c_write c)).
  assert (valid_clean b' = true ∧ b_locked b' = b_locked b ∧ b_blockno b' = b_blockno b) as Hb' by (unfold b'; by case_match).
  set (s1 := d <| bufs := <[i := b']> (bufs d) |>) in *.
  assert (bufs s1 !! i = Some b') as Hi by (unfold s1; cbn; rewrite Ed; apply list_lookup_insert_eq; by eapply lookup_lt_Some).
  assert (∀ j, j ≠ i → bufs s1 !! j = bufs (cache s) !! j) as Hj by (intros j Hj; unfold s1; cbn; rewrite Ed; by apply list_lookup_insert_ne).
  assert (havedisk1 s1 = havedisk1 (cache s)) as Hd1 by done. clearbody s1 b'.
  cbn [cache]. destruct q as [|j q]; cbn [head].
  - eexists. split; [done|]. split_and!; try done. by exists b, b'.
  - destruct (Hr j) as [(b2 & Hb2 & _ & _ & _ & Hbn) _]; [right; left|]. assert (j ≠ i) as Hji by (intros ->; set_solver).
    rewrite Hj, Hb2 by done. destruct (Z.lt_ge_cases (b_blockno b2) FSSIZE) as [Hlt|Hge]; [|destruct (Hby j eq_refl); by exists b2].
    destruct (idestart_command b2 ltac:(lia)) as (c2 & Hc2 & _). rewrite Hc2.
    eexists. split; [done|]. cbn. split_and!; try done; [by exists b, b' | exists b2, c2; by rewrite Hj].
Qed.

Lemma ideintr_panics st i q j : idequeue s = i :: q → head q = Some j → beyond s j → ¬ no_panic (seg_end (ideintr st s)).
Proof using Hinv.
  intros Eq Hj (b2 & Hb2 & Hge) H. pose proof Hinv as [Hn _ Ha _]. rewrite Eq in *. destruct Ha as (b & c & Hb & Hc & Hact).
  apply NoDup_cons in Hn as [Hiq Hn]. destruct q as [|j' q]; [done|]. injection Hj as ->.
  assert (i ≠ j) as Hij by (intros ->; set_solver). apply (H "incorrect blockno"). unfold ideintr. rewrite Eq, Hact, Hb. cbn.
  assert (bufs (drive_done st c (cache s)) = bufs (cache s)) as -> by (unfold drive_done; by destruct (c_write c)).
  rewrite list_lookup_insert_ne, Hb2 by done. by rewrite idestart_beyond.
Qed.

Lemma intr_fits st : ts !! k = Some (TReady (OpIdeIntr st)) →
  (no_panic (seg_end (ideintr st s)) ↔ ¬ ide_panics (OpIdeIntr st) s) ∧
  (no_panic (seg_end (ideintr st s)) → segment_fits s ts k (OpIdeIntr st)).
Proof using Hinv.
  intros Hk. pose proof Hinv as [Hn Hq Ha Ht]. unfold segment_fits. cbn [ide_segment ide_panics].
  destruct (idequeue s) as [|i q] eqn:Eq.
  { unfold ideintr. rewrite Eq. split; [split; [intros _ (? & ? & ? & ? & _)|]; done|]. intros _. cbn. split; [|done].
    apply (ide_moved_same s ts k _ _ Hinv Hk); [|done]. rewrite Eq. set_solver. }
  assert (no_panic (seg_end (ideintr st s)) → ∀ j, head q = Some j → ¬ beyond s j) as Hby.
  { intros H j Hj Hb. by apply (ideintr_panics st i q j). }
  split.
  - split; [intros H (i' & j & q' & [= <- ->] & Hb); by apply (Hby H j)|]. intros H.
    destruct (ideintr_serves st i q Eq) as (s' & -> & _); [|done]. intros j Hj Hb. apply H. destruct q as [|j' q]; [done|].
    injection Hj as ->. eauto.
  - intros H. destruct (ideintr_serves st i q Eq (Hby H)) as (s' & -> & Hsv & El & Eq' & Ehd & Hbo & (b & b' & Hb & Hb' & Hv & Hlk & _) & Ha').
    cbn. rewrite Hsv. split; [|done]. apply NoDup_cons in Hn as [Hiq Hn]. apply (ide_moved s s' ts k _ _ _ Hinv Hk); rewrite ?Eq', ?Eq; try done.
    + intros j _. split; [done|]. intros x bx (Hx & Hlx & Hkx). destruct (decide (x = i)) as [->|Hne].
      * exists b'. rewrite Hb in Hx. injection Hx as <-. unfold held_by. rewrite El, Hlk. split; [done|]. split; [|auto]. right. split; [|done]. rewrite Eq. left.
      * exists bx. unfold held_by. rewrite El, Hbo by done. split; [done|]. split; [by left|]. rewrite Eq, Eq'. set_solver.
    + set_solver.
    + intros j Hj. assert (j ≠ i) as Hne by (intros ->; done). rewrite Ehd, Hbo, El by done.
      destruct (Hq j) as [Hbj _]; [by right|]. split; [done|]. left. split; [by right|]. split; [done|]. by intros [?|?].
Qed.

(** Changing a buffer that is not in the queue, or only its reference count. *)
Lemma change_fits s' i b : cache s' = (cache s) <| bufs := <[i := b]> (bufs (cache s)) |> → idequeue s' = idequeue s → active s' = active s →
  (∀ j, j ≠ i → lkpid s' j = lkpid s j) →
  ((i ∉ idequeue s ∧ ∀ j b0, j ≠ k → ¬ held_by s j i b0) ∨ (∃ b0 n, bufs (cache s) !! i = Some b0 ∧ b = b0 <| b_refcnt := n |> ∧ lkpid s' i = lkpid s i)) →
  (∀ j t, ts !! k = Some t → ¬ waits k j t) → ∀ t, ts !! k = Some t → ide_inv s' (moved_on k (TDone (Some RIde)) [] ts).
Proof using Hinv.
  intros Ec Eq Ea El Hb Hnw t Hk. pose proof Hinv as [Hn Hq Ha Ht].
  assert (∀ j, j ≠ i → bufs (cache s') !! j = bufs (cache s) !! j) as Hbo by (intros j Hj; rewrite Ec; cbn; by apply list_lookup_insert_ne).
  assert (havedisk1 (cache s') = havedisk1 (cache s)) as Ehd by (by rewrite Ec).
  assert (∀ x bx, bufs (cache s) !! x = Some bx → x ∈ idequeue s ∨ (∃ j, j ≠ k ∧ held_by s j x bx) →
    lkpid s' x = lkpid s x ∧ ∃ b', bufs (cache s') !! x = Some b' ∧ same_request bx b' ∧ b_data b' = b_data bx) as Hsame.
  { intros x bx Hx Hor. destruct (decide (x = i)) as [->|Hne]; [|split; [by apply El|]; exists bx; by rewrite Hbo].
    destruct Hb as [[Hi Hh]|(b0 & n & Hb0 & -> & Hl)]; [destruct Hor as [?|(j & Hj & Hhj)]; [done | by destruct (Hh j bx Hj)]|].
    split; [done|]. rewrite Hx in Hb0. injection Hb0 as <-. rewrite Ec. cbn. eexists.
    split; [apply list_lookup_insert_eq; by eapply lookup_lt_Some | done]. }
  apply (ide_moved s s' ts k t _ _ Hinv Hk); rewrite ?Eq; try done; auto.
  - intros j Hj. split; [done|]. intros x bx Hx. destruct (Hsame x bx) as (Hl & b' & Hb' & Hs & _); [apply Hx | eauto |].
    exists b'. rewrite Eq. split; [|auto]. destruct Hx as (Hx & Hlx & Hkx). split; [done|]. split; [|congruence]. destruct Hs as [-> _]. done.
  - intros x Hx. destruct (Hq x Hx) as [(bx & Hbx & Hqx) _]. destruct (Hsame x bx Hbx ltac:(auto)) as (Hl & b' & Hb' & Hs & _). split.
    + exists b'. split; [done|]. rewrite Ehd. by eapply same_queued.
    + left. split; [done|]. split; [done|]. intros Hw. by destruct (Hnw x t Hk).
  - rewrite Ea. destruct (idequeue s) as [|j q] eqn:Ej; [done|]. destruct Ha as (bj & c & Hbj & Hc & Hact).
    destruct (Hsame j bj Hbj ltac:(left; left)) as (_ & b' & Hb' & (_ & _ & Ed & Edev & Ebn) & Edt). exists b', c. split; [done|]. split; [|done].
    unfold idestart in *. by rewrite Ed, Edev, Ebn, Edt.
Qed.

Lemma other_fits l : ts !! k = Some (TReady l) → ide_ok l s → match l with OpOwner _ _ _ | OpRef _ _ => True | _ => False end →
  no_panic (seg_end (ide_segment l s)) ∧ segment_fits s ts k l.
Proof using Hinv.
  intros Hk Hok Hl. assert (∀ j t, ts !! k = Some t → ¬ waits k j t) as Hnw.
  { intros j t Ht. rewrite Hk in Ht. injection Ht as <-. by intros [[= ->]|?]. }
  destruct l as [| | | |p i b|i n]; try done; unfold segment_fits; cbn [ide_segment].
  - split; [done|]. split; [|done]. pose proof (ii_thread _ _ Hinv k _ Hk) as Hp. simpl in Hp. subst p. simpl in Hok.
    refine (change_fits _ i b _ _ _ _ _ Hnw _ Hk); try done; [intros j Hj; cbn; by rewrite decide_False|]. left. split.
    + intros Hi. destruct (ii_queue _ _ Hinv i Hi) as [(b0 & Hb0 & Hlk & _) _].
      destruct (Hnw i _ Hk). eapply queue_waits; eauto.
    + intros j b0 Hj (Hb0 & Hlk & Hpid). rewrite (Hok b0 Hb0 Hlk) in Hpid. done.
  - destruct Hok as [b Hb]. rewrite Hb. split; [done|]. split; [|done].
    refine (change_fits _ i (b <| b_refcnt := n |>) _ _ _ _ _ Hnw _ Hk); try done. right. by exists b, n.
Qed.

Lemma ide_segment_fits l : ts !! k = Some (TReady l) → ide_ok l s →
  (no_panic (seg_end (ide_segment l s)) ↔ ¬ ide_panics l s) ∧
  (no_panic (seg_end (ide_segment l s)) → segment_fits s ts k l).
Proof using Hinv.
  intros Hk Hok. destruct l as [p i|p i|p i|st|p i b|i n].
  - by apply check_fits.
  - by apply start_fits.
  - destruct (wait_fits p i Hk). split; [by split; [intros _ []|] | done].
  - by apply intr_fits.
  - destruct (other_fits _ Hk Hok I). split; [by split; [intros _ []|] | done].
  - destruct (other_fits _ Hk Hok I). split; [by split; [intros _ []|] | done].
Qed.
End segments.

(** ** Runs *)

Lemma ide_step_inv x fs y : ide_inv x.1 x.2 → ide_step x fs y → ide_calls x y →
  ide_inv y.1 y.2 ∧ sync_run (Some (cache x.1)) fs = Some (cache y.1).
Proof.
  intros Hinv Hs Hc. destruct Hs as [s ts k r l Hk|s ts k c l Hk|s ts k l l' Hk []|s ts k l Hk [Hok Hnp] g]; cbn [fst snd] in *.
  - split; [|done]. rewrite <- (wake_none ts). apply (ide_moved_same s ts k _ _ Hinv Hk); [by intros ? _ [?|?]|].
    pose proof (Hc k r l Hk) as Hcall. simpl in Hcall. rewrite list_lookup_insert_eq in Hcall by (by eapply lookup_lt_Some).
    specialize (Hcall eq_refl). by destruct l.
  - split; [|done]. rewrite <- (wake_none ts). destruct (ii_thread _ _ Hinv k _ Hk) as (-> & Hq & Hl).
    apply (ide_moved_same s ts k _ _ Hinv Hk); [intros j _ [?|[= ->]]; [done | by left]|]. simpl. split; [done|].
    destruct (ii_queue _ _ Hinv c Hq) as [(b & Hb & Hlk & _) _]. exists b. split; [done | by left].
  - by apply ide_segment_fits.
Qed.

Lemma sync_run_app s es fs : sync_run s (es ++ fs) = sync_run (sync_run s es) fs.
Proof. unfold sync_run. by rewrite fold_left_app. Qed.

Lemma ide_runs_inv x es y : ide_runs x es y → ide_inv x.1 x.2 →
  ide_inv y.1 y.2 ∧ sync_run (Some (cache x.1)) es = Some (cache y.1).
Proof.
  intros Hr Hx. induction Hr as [x|x es y fs z _ IH Hs Hc]; [done|]. destruct (IH Hx) as [Hy Es].
  destruct (ide_step_inv _ _ _ Hy Hs Hc) as [Hz Ez]. split; [done|]. by rewrite sync_run_app, Es.
Qed.

(** One more thread, at an interrupt. *)
Lemma ide_inv_more s ts st : ide_inv s ts → ide_inv s (ts ++ [TReady (OpIdeIntr st)]).
Proof.
  intros [Hn Hq Ha Ht]. split; try done.
  - intros x Hx. destruct (Hq x Hx) as [? (u & Hu & ?)]. split; [done|]. exists u. split; [|done]. by apply lookup_app_l_Some.
  - intros k t [Hk|[_ Hk]]%lookup_app_Some; [by apply Ht|]. by apply list_lookup_singleton_Some in Hk as [_ <-].
Qed.

(** Interrupts in a row. *)
Fixpoint intrs (sts : list drive_status) (s : ide) : ide :=
  match sts with [] => s | st :: sts' => intrs sts' (seg_state (ideintr st s)) end.

(** Requests are served in order, one per interrupt, whatever the drive
    reports. The interrupts come while the callers sleep. *)
Lemma intr_serves sts : ∀ s ts i, ide_inv s ts → (∀ j, j ∈ idequeue s → ¬ beyond s j) →
  idequeue s !! length sts = Some i → ∀ st,
  ∃ b, bufs (cache (intrs (sts ++ [st]) s)) !! i = Some b ∧ valid_clean b = true ∧
    idequeue (intrs (sts ++ [st]) s) = drop (S (length sts)) (idequeue s).
Proof.
  induction sts as [|st0 sts IH]; intros s ts i Hinv Hby Hi st; (destruct (idequeue s) as [|j q] eqn:Eq; [done|]).
  - destruct (ideintr_serves s ts Hinv st j q Eq) as (s' & Hin & _ & _ & Hq & _ & _ & (b & b' & _ & Hb' & Hv & _) & _).
    { intros x Hx. apply Hby. right. by apply head_Some_elem_of. }
    injection Hi as ->. simpl. rewrite Hin. by exists b'.
  - destruct (ideintr_serves s ts Hinv st0 j q Eq) as (s' & Hin & _ & _ & Hq & _ & Hbo & _).
    { intros x Hx. apply Hby. right. by apply head_Some_elem_of. }
    assert (ide_inv s (ts ++ [TReady (OpIdeIntr st0)])) as Hinv1 by (by apply ide_inv_more).
    destruct (intr_fits s _ (length ts) Hinv1 st0) as [_ Hf]; [by apply list_lookup_middle|].
    destruct Hf as [Hinv' _]; [by rewrite Hin|]. cbn [ide_segment] in Hinv'. rewrite Hin in Hinv'. cbn [seg_state] in Hinv'.
    pose proof (ii_nodup _ _ Hinv) as Hn. rewrite Eq in Hn. apply NoDup_cons in Hn as [Hjq _].
    simpl. rewrite Hin. cbn [seg_state]. destruct (IH s' _ i Hinv') with (st := st) as (b & Hb & Hv & Hd).
    { rewrite Hq. intros x Hx (bx & Hbx & Hge). apply (Hby x); [by right|]. exists bx. rewrite <- Hbo by (intros ->; done). done. }
    { by rewrite Hq. }
    exists b. split; [done|]. split; [done|]. by rewrite Hd, Hq.
Qed.

(** C30: the interrupt-driven driver implements the synchronous disk the
    buffer cache is proved against, with any number of processes. Requests,
    interrupts (of commands that succeeded or failed), wakeups, and what
    processes do to buffers they hold, are interleaved in any way, from an empty
    queue up to the first panic; requests are for existing buffers with
    unsigned block numbers, a locked buffer is changed only by its holder, its
    reference count aside, and the drive interrupts when its command is
    finished. Then the buffers and the drives are exactly what one [iderw]
    per served request, in the order of the queue, makes of them; a failed
    command marks its buffer valid all the same, a failed read with the old
    data. A process sleeps only while its request is in the queue and it
    holds the buffer, so no wakeup is lost. A step panics if and only if it
    is a request for a buffer the process does not hold, that has nothing to
    do or is on a disk that is not there, or a request for a block beyond the
    disk is given to the drive. If no block in the queue is beyond the disk,
    the request at position [n] is done after [n + 1] interrupts. *)
Theorem ide_driver_synchronous s0 ts es s ts' :
  idequeue s0 = [] → active s0 = None → Forall (λ t, ∃ r, t = TDone r) ts →
  ide_runs (s0, ts) es (s, ts') →
  sync_run (Some (cache s0)) es = Some (cache s) ∧
  (∀ k l, ts' !! k = Some (TReady l) → ide_ok l s → (no_panic (seg_end (ide_segment l s)) ↔ ¬ ide_panics l s)) ∧
  (∀ k c l, ts' !! k = Some (TAsleep c l) → c ∈ idequeue s ∧ l = OpWait k c ∧ lkpid s c = k) ∧
  ((∀ j, j ∈ idequeue s → ¬ beyond s j) → ∀ sts st i, idequeue s !! length sts = Some i →
    ∃ b, bufs (cache (intrs (sts ++ [st]) s)) !! i = Some b ∧ valid_clean b = true ∧
      idequeue (intrs (sts ++ [st]) s) = drop (S (length sts)) (idequeue s)).
Proof.
  intros Hq0 Ha0 Hts Hr. destruct (ide_runs_inv _ _ _ Hr) as [Hinv Es].
  { split; cbn [fst snd]; rewrite ?Hq0; [constructor | set_solver | done |].
    intros k t Ht. by destruct (Forall_lookup_1 _ _ _ _ Hts Ht) as [r ->]. }
  cbn [fst snd] in *. split; [done|]. split; [intros k l Hk Hok; by eapply ide_segment_fits|]. split.
  - intros k c l Hk. destruct (ii_thread _ _ Hinv k _ Hk) as (? & ? & ?). done.
  - intros Hby sts st i Hi. by eapply intr_serves.
Qed.

(** ** Concrete runs *)

Definition ide_okb (l : ide_op) (s : ide) : bool :=
  match l with
  | OpRw p i => match bufs (cache s) !! i with Some b => 0 <=? b_blockno b | None => false end
  | OpOwner p i b => match bufs (cache s) !! i with Some b0 => negb (b_locked b0) || (lkpid s i =? p)%nat | None => true end
  | OpRef i n => match bufs (cache s) !! i with Some _ => true | None => false end
  | _ => true
  end.

Definition ide_callb (k : nat) (l : ide_op) : bool :=
  match l with
  | OpRw p _ | OpOwner p _ _ => (p =? k)%nat
  | OpIdeIntr _ | OpRef _ _ => true
  | OpEnq _ _ | OpWait _ _ => false
  end.

Definition ide_act (a : act ide_op) (x : ide * list ithread) : option (list ide_ev * (ide * list ithread)) :=
  match a with
  | ACall k l =>
      match x.2 !! k with
      | Some (TDone _) => if ide_callb k l then Some ([], (x.1, <[k := TReady l]> x.2)) else None
      | _ => None
      end
  | ASeg k =>
      match x.2 !! k with
      | Some (TReady l) =>
          let g := ide_segment l x.1 in
          match ide_okb l x.1, seg_end g with
          | false, _ | _, Returns (RIdePanic _) => None
          | true, e => Some (seg_events g, (seg_state g, moved_on k (ended e) (seg_wakes g) x.2))
          end
      | _ => None
      end
  end.

Fixpoint ide_acts (acts : list (act ide_op)) (x : ide * list ithread) : option (list ide_ev * (ide * list ithread)) :=
  match acts with
  | [] => Some ([], x)
  | a :: acts' =>
      match ide_act a x with
      | Some (es, y) => match ide_acts acts' y with Some (fs, z) => Some (es ++ fs, z) | None => None end
      | None => None
      end
  end.

Lemma ide_okb_ok l s : ide_okb l s = true → ide_ok l s.
Proof.
  destruct l as [p i|p i|p i|st|p i b|i n]; simpl; try done; (destruct (bufs (cache s) !! i) as [b0|]; [|done]).
  - intros H%Z.leb_le. eauto.
  - intros H b1 [= <-] Hl. rewrite Hl in H. by apply Nat.eqb_eq.
  - by eexists.
Qed.

Lemma ide_act_runs a x es y fs z : ide_runs x es y → ide_act a y = Some (fs, z) → ide_runs x (es ++ fs) z.
Proof.
  intros Hr. destruct y as [s ts], a as [k l|k]; simpl.
  - destruct (ts !! k) as [[r| |]|] eqn:Hk; try done. destruct (ide_callb k l) eqn:Ec; [|done]. intros [= <- <-].
    eapply ide_runs_step; [done | by eapply mstep_call|]. intros j r' l' Hj Hj'. simpl in *.
    destruct (decide (k = j)) as [->|Hne]; [|rewrite list_lookup_insert_ne in Hj' by done; congruence].
    rewrite list_lookup_insert_eq in Hj' by by eapply lookup_lt_Some. injection Hj' as <-.
    destruct l; try done; by apply Nat.eqb_eq in Ec.
  - destruct (ts !! k) as [[|l|]|] eqn:Hk; try done. destruct (ide_okb l s) eqn:Eo; [|done]. intros E.
    assert (no_panic (seg_end (ide_segment l s)) ∧ fs = seg_events (ide_segment l s) ∧
      z = (seg_state (ide_segment l s), moved_on k (ended (seg_end (ide_segment l s))) (seg_wakes (ide_segment l s)) ts)) as (Hnp & -> & ->).
    { destruct (seg_end (ide_segment l s)) as [|[]|]; simplify_eq; (split; [intros msg; congruence | done]). }
    eapply ide_runs_step; [done | apply (mstep_segment ide_segment _ (λ l s, ide_ok l s ∧ _) s ts k l Hk); split; [by apply ide_okb_ok | done]|].
    intros j r' l' Hj Hj'. simpl in *. change (moved_on k (ended (seg_end (ide_segment l s))) (seg_wakes (ide_segment l s)) ts !! j = Some (TReady l')) in Hj'.
    destruct (decide (k = j)) as [->|Hne]; [congruence|]. rewrite (moved_other _ _ _ _ _ _ Hne Hj) in Hj'. done.
Qed.

Lemma ide_acts_runs acts x : ∀ y es fs z, ide_runs x es y → ide_acts acts y = Some (fs, z) → ide_runs x (es ++ fs) z.
Proof.
  induction acts as [|a acts IH]; intros y es fs z Hr; simpl; [intros [= <- <-]; by rewrite app_nil_r|].
  destruct (ide_act a y) as [[es1 y1]|] eqn:E; [|done]. destruct (ide_acts acts y1) as [[fs1 z1]|] eqn:E1; [|done]. intros [= <- <-].
  rewrite app_assoc. eapply IH; [|done]. by eapply ide_act_runs.
Qed.

(** A small cache, with buffers [l]. *)
Definition ex_bio (l : list buf) : bio := Bio l (λ _ _ _, 7) [] false.
Definition ex_dirty : buf := Buf false true 0 5 true 1 (λ _, 3).
Definition ex_invalid : buf := Buf false false 0 6 true 1 (λ _, 0).

(** Two callers, a write and a read: both requests are in the queue before the
    first is served; after one interrupt the first caller has returned and
    released its buffer, and the second still sleeps. *)
Lemma ide_driver_synchronous_witness :
  ∃ es s ts', ide_runs (Ide (ex_bio [ex_dirty; ex_invalid]) id [] None, [TDone None; TDone None; TDone None]) es (s, ts')
  ∧ length es = 2%nat ∧ idequeue s = [1%nat] ∧ ts' !! 1%nat = Some (TAsleep 1%nat (OpWait 1 1)) ∧ lkpid s 1 = 1%nat
  ∧ sync_run (Some (ex_bio [ex_dirty; ex_invalid])) es = Some (cache s).
Proof.
  set (s0 := Ide (ex_bio [ex_dirty; ex_invalid]) id [] None).
  destruct (ide_acts [ACall 0 (OpRw 0 0); ASeg 0; ACall 1 (OpRw 1 1); ASeg 1; ASeg 0; ASeg 1; ACall 2 (OpIdeIntr DOk); ASeg 2; ASeg 0;
    ACall 0 (OpOwner 0 0 (ex_dirty <| b_valid := true |> <| b_dirty := false |> <| b_locked := false |>)); ASeg 0]
    (s0, [TDone None; TDone None; TDone None])) as [[es [s ts']]|] eqn:E; [|by vm_compute in E].
  assert (Hr : ide_runs (s0, [TDone None; TDone None; TDone None]) es (s, ts')).
  { apply (ide_acts_runs _ _ _ [] _ _ (ide_runs_refl _) E). }
  exists es, s, ts'. split; [exact Hr|].
  destruct (ide_driver_synchronous s0 [TDone None; TDone None; TDone None] es s ts') as (Hsync & _ & Hsl & _);
    [done | done | repeat constructor; by eexists | exact Hr |].
  assert (Ht : ts' !! 1%nat = Some (TAsleep 1%nat (OpWait 1 1))) by (vm_compute in E; by injection E as Ee Es <-).
  destruct (Hsl 1%nat 1%nat _ Ht) as (_ & _ & Hl). vm_compute in E. injection E as Ee Es Et.
  split; [by rewrite <- Ee|]. split; [by rewrite <- Es|]. split; [exact Ht|]. split; [exact Hl | exact Hsync].
Defined.

(** The driver does not report a read error: when the status has an error
    bit, [insl] is skipped and the buffer, with its old contents, is marked
    valid all the same. *)
Lemma ide_error_ignored :
  let s0 := Ide (ex_bio [ex_invalid]) id [] None in
  let s := seg_state (ideintr (DFail (λ _, 0)) (seg_state (iderw_start 0 0 s0))) in
  ∃ b, bufs (cache s) !! 0%nat = Some b ∧ valid_clean b = true ∧ b_data b 0 = 0 ∧ drives (cache s) 0 6 0 = 7.
Proof. eexists. split; [reflexivity|]. by vm_compute. Qed.

(** * The memory disk (memide.c)

    The alternative to the driver above for a kernel that has its file system
    in memory: [iderw] copies the block at once. It keeps in step with the
    synchronous [iderw] that the buffer cache is proved against. *)

(** The image in memory from [md_start] on, and the buffers. *)
Record memdisk := MemDisk { md_start : Z; disksize : Z; md_mem : mem; md_bufs : list buf }.

Definition mem_ideinit (start size : Z) (m : mem) (l : list buf) : memdisk := MemDisk start (u32 size / BSIZE) m l.

Definition mem_iderw (i : nat) : M memdisk () := λ s,
  match md_bufs s !! i with
  | None => Panic "trap"
  | Some b =>
      if negb (b_locked b) then Panic "iderw: buf not locked"
      else if valid_clean b then Panic "iderw: nothing to do"
      else if negb (b_dev b =? 1) then Panic "iderw: request not for disk 1"
      else if disksize s <=? b_blockno b then Panic "iderw: block out of range"
      else
        let p := u32 (md_start s + u32 (b_blockno b * BSIZE)) in
        if b_dirty b then
          Ok () (MemDisk (md_start s) (disksize s)
                   (λ a, if decide (p ≤ a < p + BSIZE) then b_data b (a - p) else md_mem s a)
                   (<[i := b <| b_dirty := false |> <| b_valid := true |>]> (md_bufs s)))
        else
          Ok () (MemDisk (md_start s) (disksize s) (md_mem s)
                   (<[i := b <| b_data := λ o, if decide (0 ≤ o < BSIZE) then md_mem s (p + o) else b_data b o |> <| b_valid := true |>]> (md_bufs s)))
  end.

(** The same buffer, as far as its 512 bytes go. *)
Record same_buf (b c : buf) : Prop := {
  sb_flags : b_valid b = b_valid c ∧ b_dirty b = b_dirty c ∧ b_locked b = b_locked c ∧ b_refcnt b = b_refcnt c;
  sb_key : b_dev b = b_dev c ∧ b_blockno b = b_blockno c;
  sb_data o : 0 ≤ o < BSIZE → b_data b o = b_data c o
}.

(** Drive 1 is the image. *)
Record in_memory (s : memdisk) (c : bio) : Prop := {
  im_room : 0 ≤ md_start s ∧ 0 ≤ disksize s ≤ FSSIZE ∧ md_start s + BSIZE * disksize s ≤ 4294967296;
  im_disk : havedisk1 c = true;
  im_bufs : Forall2 same_buf (md_bufs s) (bufs c);
  im_block n o : 0 ≤ n < disksize s → 0 ≤ o < BSIZE → drives c 1 n o = md_mem s (md_start s + BSIZE * n + o)
}.

Lemma mem_address s c n : in_memory s c → 0 ≤ n < disksize s → u32 (md_start s + u32 (n * BSIZE)) = md_start s + BSIZE * n.
Proof. intros [(H1 & H2 & H3) _ _ _] Hn. unfold BSIZE, FSSIZE in *. rewrite (u32_small (n * 512)) by lia. rewrite u32_small by lia. lia. Qed.

(** A request for a block of the image is served, like the synchronous one:
    a dirty buffer goes to its block and no other, an invalid one gets the
    bytes of its block. *)
Lemma mem_iderw_ok s c i b : in_memory s c → md_bufs s !! i = Some b → b_locked b = true → valid_clean b = false →
  b_dev b = 1 → 0 ≤ b_blockno b < disksize s →
  ∃ s' c', mem_iderw i s = Ok () s' ∧ iderw i c = Ok () c' ∧ in_memory s' c'.
Proof.
  intros Him Hb Hl Hv Hd Hn. pose proof Him as [Hroom Hd1 Hbufs Hblk].
  destruct (Forall2_lookup_l _ _ _ _ _ Hbufs Hb) as (b' & Hb' & Hsame). pose proof Hsame as [(Ev & Ed & El & Er) (Ek1 & Ek2) Edata].
  pose proof (take_drop_middle _ _ _ Hb') as Hsplit. pose proof (lookup_lt_Some _ _ _ Hb') as Hlt.
  assert (length (take i (bufs c)) = i) as Hlen by (rewrite length_take; lia).
  assert (∀ x, take i (bufs c) ++ x :: drop (S i) (bufs c) = <[i := x]> (bufs c)) as Hins by (intros x; by rewrite insert_take_drop).
  assert (b_blockno b' < FSSIZE) as Hfs by (rewrite <- Ek2; lia).
  unfold mem_iderw. rewrite Hb, Hl, Hv, Hd, (proj2 (Z.leb_gt _ _)) by lia. cbn [negb Z.eqb Pos.eqb].
  rewrite (mem_address s c) by done. set (p := md_start s + BSIZE * b_blockno b). unfold valid_clean in Hv.
  destruct (b_dirty b) eqn:Edb.
  - pose proof (iderw_write c _ b' _ (eq_sym Hsplit) Hd1 ltac:(congruence) ltac:(congruence) ltac:(unfold ROOTDEV; congruence) Hfs) as E.
    rewrite Hlen, Hins in E. eexists _, _. split; [done|]. split; [exact E|]. split; simpl; [done|done| |].
    + apply Forall2_insert; [done|]. by split; simpl; [|done|done].
    + intros n o Hn' Ho. rewrite <- Ek2. destruct (Z.eqb_spec n (b_blockno b)) as [->|Hne].
      * rewrite decide_True by (unfold p, BSIZE in *; lia). rewrite <- Edata by done. f_equal. unfold p. lia.
      * rewrite decide_False by (unfold p, BSIZE in *; lia). by apply Hblk.
  - rewrite andb_true_r in Hv.
    pose proof (iderw_read c _ b' _ (eq_sym Hsplit) Hd1 ltac:(congruence) ltac:(congruence) ltac:(congruence) ltac:(unfold ROOTDEV; congruence) Hfs) as E.
    rewrite Hlen, Hins in E. eexists _, _. split; [done|]. split; [exact E|]. split; simpl; [done|done| |done].
    apply Forall2_insert; [done|]. split; simpl; [done|done|]. intros o Ho. rewrite decide_True, <- Ek2 by done. symmetry. by apply Hblk.
Qed.

(** Anything else is refused. *)
Lemma mem_iderw_refuses s i b : md_bufs s !! i = Some b →
  b_locked b = false ∨ valid_clean b = true ∨ b_dev b ≠ 1 ∨ disksize s ≤ b_blockno b → ∃ msg, mem_iderw i s = Panic msg.
Proof.
  intros Hb Hc. unfold mem_iderw. rewrite Hb. destruct (b_locked b); [|by eexists]. destruct (valid_clean b); [by eexists|].
  destruct (Z.eqb_spec (b_dev b) 1); [|by eexists]. destruct (Z.leb_spec (disksize s) (b_blockno b)); [by eexists|].
  destruct Hc as [?|[?|[?|?]]]; done || lia.
Qed.
