(* ===== verification/Sh.v ===== *)
(** * The shell's parser (sh.c)

    A recursive-descent parser over one line of input. A command is a tree
    whose words are pairs of positions in the line, the [argv] and [eargv] of
    the source; [nulterminate] ends each word with a zero in the line itself.
    The state of a parsing function is the position [*ps]; [panic] is the
    shell's. The command of [parseexec] is filled in while redirections are
    wrapped around it; the model keeps its words aside and puts them in when
    the function returns. [malloc] is taken to succeed. *)
From S2P Require Import Prelude Machine SysFile.

(** Commands with words of type [W]. *)
Inductive cmd (W : Type) :=
| EXEC (argv : list W)
| REDIR (c : cmd W) (file : W) (mode fd : Z)
| PIPE (left right : cmd W)
| LIST (left right : cmd W)
| BACK (c : cmd W).
Arguments EXEC {W} _.
Arguments REDIR {W} _ _ _ _.
Arguments PIPE {W} _ _.
Arguments LIST {W} _ _.
Arguments BACK {W} _.

Definition MAXARGS : nat := 10.

(** A command with redirections around it, the last one outermost. *)
Definition redirect {W} (c : cmd W) (rs : list (W * Z * Z)) : cmd W :=
  fold_left (λ c '(w, mode, fd), REDIR c w mode fd) rs c.

(** Is [c] one of the characters of [s] (the strings have no zero)? *)
Fixpoint strchr (s : list Z) (c : Z) : bool :=
  match s with
  | [] => false
  | x :: s' => if x =? c then true else strchr s' c
  end.

(** [" \t\r\n\v"] and ["<|>&;()"] *)
Definition whitespace : list Z := [32; 9; 13; 10; 11].
Definition symbols : list Z := [60; 124; 62; 38; 59; 40; 41].

Definition ws (c : Z) : bool := strchr whitespace c.
Definition wordchar (c : Z) : bool := negb (strchr whitespace c) && negb (strchr symbols c).

(** The number of characters that pass a test before one that does not. *)
Fixpoint span (f : Z → bool) (l : list Z) : nat :=
  match l with
  | [] => 0
  | c :: l' => if f c then S (span f l') else 0
  end.

Section parser.
(** The line, without the terminating zero: [es] is its length. *)
Variable buf : list Z.

Definition at_ (s : nat) : Z := nth s buf 0.

(** [while(s < es && ...) s++] *)
Definition skip (f : Z → bool) (s : nat) : nat := s + span f (drop s buf).

(** The token, where it starts and where it ends. *)
Definition gettoken : M nat (Z * nat * nat) := λ s,
  let q := skip ws s in
  let c := at_ q in
  let '(ret, eq) :=
    if c =? 0 then (0, q)
    else if strchr [124; 40; 41; 59; 38; 60] c then (c, S q)
    else if c =? 62 then if at_ (S q) =? 62 then (43, S (S q)) else (62, S q)
    else (97, skip wordchar q) in
  Ok (ret, q, eq) (skip ws eq).

Definition peek (toks : list Z) : M nat bool := λ s,
  let s := skip ws s in
  Ok (truthy (at_ s) && strchr toks (at_ s)) s.

(** A word of the tree, and a redirection. *)
Notation word := (nat * nat)%type.
Notation redir := (word * Z * Z)%type.

Fixpoint parseredirs (fuel : nat) : M nat (list redir) :=
  match fuel with
  | O => hang
  | S fuel' =>
      b ← peek [60; 62];
      if (b : bool) then
        t ← gettoken;
        w ← gettoken;
        let '(tok, _, _) := t in
        let '(tok', q, eq) := w in
        if negb (tok' =? 97) then panic "missing file for redirection"
        else
          rs ← parseredirs fuel';
          mret (if tok =? 60 then ((q, eq), O_RDONLY, 0) :: rs
                else if (tok =? 62) || (tok =? 43) then ((q, eq), Z.lor O_WRONLY O_CREATE, 1) :: rs
                else rs)
      else mret []
  end.

Definition parse_redirs : M nat (list redir) := parseredirs (S (length buf)).

(** The loop of [parseexec] with [argc] words so far: the other words and
    redirections. *)
Fixpoint exec_loop (fuel : nat) (argc : nat) : M nat (list word * list redir) :=
  match fuel with
  | O => hang
  | S fuel' =>
      b ← peek [124; 41; 38; 59];
      if (b : bool) then mret ([], [])
      else
        t ← gettoken;
        let '(tok, q, eq) := t in
        if tok =? 0 then mret ([], [])
        else if negb (tok =? 97) then panic "syntax"
        else if (MAXARGS <=? S argc)%nat then panic "too many args"
        else
          rs ← parse_redirs;
          r ← exec_loop fuel' (S argc);
          mret ((q, eq) :: r.1, rs ++ r.2)
  end.

(** [while(peek(ps, es, "&"))] of [parseline] *)
Fixpoint back_loop (fuel : nat) (c : cmd word) : M nat (cmd word) :=
  match fuel with
  | O => hang
  | S fuel' =>
      b ← peek [38];
      if (b : bool) then gettoken;; back_loop fuel' (BACK c) else mret c
  end.

Fixpoint parseline (fuel : nat) : M nat (cmd word) :=
  match fuel with
  | O => hang
  | S fuel' =>
      c ← parsepipe fuel';
      c ← back_loop (S (length buf)) c;
      b ← peek [59];
      if (b : bool) then gettoken;; r ← parseline fuel'; mret (LIST c r)
      else mret c
  end
with parsepipe (fuel : nat) : M nat (cmd word) :=
  match fuel with
  | O => hang
  | S fuel' =>
      c ← parseexec fuel';
      b ← peek [124];
      if (b : bool) then gettoken;; r ← parsepipe fuel'; mret (PIPE c r)
      else mret c
  end
with parseexec (fuel : nat) : M nat (cmd word) :=
  match fuel with
  | O => hang
  | S fuel' =>
      b ← peek [40];
      if (b : bool) then parseblock fuel'
      else
        rs ← parse_redirs;
        r ← exec_loop (S (length buf)) 0;
        mret (redirect (EXEC r.1) (rs ++ r.2))
  end
with parseblock (fuel : nat) : M nat (cmd word) :=
  match fuel with
  | O => hang
  | S fuel' =>
      b ← peek [40];
      if negb b then panic "parseblock"
      else
        gettoken;;
        c ← parseline fuel';
        b ← peek [41];
        if negb b then panic "syntax - missing )"
        else gettoken;; rs ← parse_redirs; mret (redirect c rs)
  end.
End parser.

(** Each word of the tree is ended in the line. *)
Fixpoint nulterminate (c : cmd (nat * nat)) (buf : list Z) : list Z :=
  match c with
  | EXEC argv => fold_left (λ b w, <[w.2 := 0]> b) argv buf
  | REDIR c w _ _ => <[w.2 := 0]> (nulterminate c buf)
  | PIPE l r => nulterminate r (nulterminate l buf)
  | LIST l r => nulterminate r (nulterminate l buf)
  | BACK c => nulterminate c buf
  end.

(** Four calls lead from one [parseline] to the one inside its first block. *)
Definition parse_fuel (buf : list Z) : nat := 4 * length buf + 4.

(** The tree and the line after [nulterminate]. *)
Definition parsecmd (buf : list Z) : outcome nat (cmd (nat * nat) * list Z) :=
  (c ← parseline buf (parse_fuel buf);
   peek buf [];;
   s ← get;
   if negb (s =? length buf)%nat then panic "syntax"
   else mret (c, nulterminate c buf)) 0%nat.

(** * What the shell's parser does

    The parser returns or panics on every line, and the words of the tree it
    returns are the words of the line. Commands printed with blanks between
    the tokens parse back to themselves. *)

(** ** Trees *)

Fixpoint words {W} (c : cmd W) : list W :=
  match c with
  | EXEC argv => argv
  | REDIR c w _ _ => words c ++ [w]
  | PIPE l r => words l ++ words r
  | LIST l r => words l ++ words r
  | BACK c => words c
  end.

Fixpoint cmd_map {V W} (f : V → W) (c : cmd V) : cmd W :=
  match c with
  | EXEC argv => EXEC (f <$> argv)
  | REDIR c w mode fd => REDIR (cmd_map f c) (f w) mode fd
  | PIPE l r => PIPE (cmd_map f l) (cmd_map f r)
  | LIST l r => LIST (cmd_map f l) (cmd_map f r)
  | BACK c => BACK (cmd_map f c)
  end.

Lemma cmd_map_ext {V W} (f g : V → W) c : (∀ w, w ∈ words c → f w = g w) → cmd_map f c = cmd_map g c.
Proof.
  induction c as [argv|c IH w mode fd|l IHl r IHr|l IHl r IHr|c IH]; simpl; intros Hfg; f_equal; auto;
    try (apply IH || apply IHl || apply IHr; intros; apply Hfg; set_solver).
  - apply list_fmap_ext. intros i x Hx. apply Hfg. by eapply list_elem_of_lookup_2.
  - apply Hfg. set_solver.
Qed.

(** ** Scanning *)

Lemma span_le f l : (span f l ≤ length l)%nat.
Proof. induction l as [|c l IH]; simpl; [done|]. case_match; simpl; lia. Qed.

Lemma span_all f l k : (k < span f l)%nat → f (nth k l 0) = true.
Proof.
  revert k. induction l as [|c l IH]; intros k; simpl; [lia|]. destruct (f c) eqn:E; [|lia].
  destruct k; [done|]. intros. apply IH. lia.
Qed.

Lemma span_stop f l : (span f l < length l)%nat → f (nth (span f l) l 0) = false.
Proof. induction l as [|c l IH]; simpl; [lia|]. destruct (f c) eqn:E; [intros; apply IH; lia | done]. Qed.

Lemma span_zero f l : f (nth 0 l 0) = false → span f l = 0%nat.
Proof. destruct l as [|c l]; [done|]. simpl. by intros ->. Qed.

Lemma span_app f l r : (∀ c, c ∈ l → f c = true) → f (nth 0 r 0) = false → span f (l ++ r) = length l.
Proof.
  intros Hl Hr. induction l as [|c l IH]; simpl; [by apply span_zero|].
  rewrite (Hl c) by left. f_equal. apply IH. intros. apply Hl. by right.
Qed.

Section parser.
Variable buf : list Z.
Hypothesis Hbuf : Forall (λ c, c ≠ 0) buf.
Notation len := (length buf).
Notation at_ := (at_ buf).

Lemma nth_drop (l : list Z) n k : nth k (drop n l) 0 = nth (n + k) l 0.
Proof. revert l. induction n as [|n IH]; intros [|c l]; simpl; try done; by destruct k. Qed.

Lemma take_nth (l : list Z) n k : (k < n)%nat → nth k (take n l) 0 = nth k l 0.
Proof. revert l k. induction n as [|n IH]; intros [|c l] [|k] Hk; simpl; try lia; try done. apply IH. lia. Qed.

Lemma at_zero s : at_ s = 0 ↔ (len ≤ s)%nat.
Proof using Hbuf.
  unfold Sh.at_. split; [|apply nth_overflow]. intros Hz. destruct (Nat.le_gt_cases len s) as [|Hlt]; [done|]. exfalso.
  rewrite Forall_forall in Hbuf. apply (Hbuf (nth s buf 0)); [|done]. by apply list_elem_of_In, nth_In.
Qed.

Lemma skip_bounds f s : (s ≤ len)%nat → (s ≤ skip buf f s ≤ len)%nat.
Proof. intros Hs. unfold skip. pose proof (span_le f (drop s buf)). rewrite length_drop in *. lia. Qed.

Lemma skip_in f s k : (s ≤ k < skip buf f s)%nat → f (at_ k) = true.
Proof.
  unfold skip. intros Hk. pose proof (span_all f (drop s buf) (k - s) ltac:(lia)) as Hf. rewrite nth_drop in Hf.
  by replace (s + (k - s))%nat with k in Hf by lia.
Qed.

Lemma skip_out f s : (s ≤ len)%nat → skip buf f s = len ∨ f (at_ (skip buf f s)) = false.
Proof.
  intros Hs. unfold skip. destruct (decide (span f (drop s buf) < length (drop s buf))%nat) as [Hlt|Hge].
  - right. unfold Sh.at_. rewrite <- nth_drop. by apply span_stop.
  - left. pose proof (span_le f (drop s buf)). rewrite length_drop in *. lia.
Qed.

Lemma skip_none f s : f (at_ s) = false → skip buf f s = s.
Proof. intros Hf. unfold skip. rewrite span_zero; [lia|]. rewrite nth_drop. by rewrite Nat.add_0_r. Qed.

Lemma ws_zero : ws 0 = false.
Proof. done. Qed.

Lemma skip_twice s : (s ≤ len)%nat → skip buf ws (skip buf ws s) = skip buf ws s.
Proof using Hbuf.
  intros Hs. destruct (skip_out ws s Hs) as [E|E]; [|by apply skip_none].
  apply skip_none. assert (at_ (skip buf ws s) = 0) as -> by (apply at_zero; lia). done.
Qed.

(** A word of the line: a longest run of word characters. *)
Record word_ok (w : nat * nat) : Prop := {
  wo_range : (w.1 < w.2 ≤ len)%nat;
  wo_chars k : (w.1 ≤ k < w.2)%nat → wordchar (at_ k) = true;
  wo_end : (w.2 < len)%nat → wordchar (at_ w.2) = false
}.

(** What is neither blank nor a symbol of its own starts a word. *)
Lemma starts_word c : c ≠ 0 → ws c = false → strchr [124; 40; 41; 59; 38; 60] c = false → c ≠ 62 → wordchar c = true.
Proof.
  unfold wordchar, ws. intros _ -> Hs H62. cbn [strchr symbols negb andb] in *. rewrite (proj2 (Z.eqb_neq 62 c)) by done.
  by destruct (124 =? c), (40 =? c), (41 =? c), (59 =? c), (38 =? c), (60 =? c).
Qed.

Lemma gettoken_spec s : (s ≤ len)%nat →
  ∃ tok q eq s', gettoken buf s = Ok (tok, q, eq) s' ∧ q = skip buf ws s ∧ s' = skip buf ws eq ∧
    (s ≤ q ≤ eq)%nat ∧ (eq ≤ s' ≤ len)%nat ∧ (at_ q ≠ 0%Z → (q < eq)%nat) ∧ (tok = 97 → word_ok (q, eq)).
Proof using Hbuf.
  intros Hs. unfold gettoken. pose proof (skip_bounds ws s Hs) as Hq. pose proof (skip_out ws s Hs) as Hout.
  set (q := skip buf ws s) in *.
  assert (∀ tok eq, (q ≤ eq ≤ len)%nat → (at_ q ≠ 0%Z → (q < eq)%nat) → (tok = 97 → word_ok (q, eq)) →
    ∃ tok' q' eq' s', @Ok nat _ (tok, q, eq) (skip buf ws eq) = Ok (tok', q', eq') s' ∧ q' = q ∧ s' = skip buf ws eq' ∧
    (s ≤ q' ≤ eq')%nat ∧ (eq' ≤ s' ≤ len)%nat ∧ (at_ q' ≠ 0%Z → (q' < eq')%nat) ∧ (tok' = 97 → word_ok (q', eq'))) as Hfin.
  { intros tok eq H1 H2 H3. exists tok, q, eq, (skip buf ws eq). pose proof (skip_bounds ws eq ltac:(lia)). split_and!; (done || lia). }
  assert (at_ q ≠ 0 → (S q ≤ len)%nat) as Hin by (rewrite at_zero; lia).
  destruct (Z.eqb_spec (at_ q) 0) as [Hz|Hz].
  { apply Hfin; [lia | done | done]. }
  destruct (strchr [124; 40; 41; 59; 38; 60] (at_ q)) eqn:Esym.
  { apply Hfin; [lia | lia |]. intros E. rewrite E in Esym. done. }
  destruct (Z.eqb_spec (at_ q) 62) as [E62|E62].
  { destruct (Z.eqb_spec (at_ (S q)) 62) as [E2|E2]; apply Hfin; try done; try lia.
    assert (at_ (S q) ≠ 0) as Hnz by (by rewrite E2). rewrite at_zero in Hnz. lia. }
  assert (wordchar (at_ q) = true) as Hw.
  { apply starts_word; try done. destruct Hout as [E|E]; [|done]. exfalso. apply Hz, at_zero. lia. }
  pose proof (skip_bounds wordchar q ltac:(lia)) as Hb. pose proof (skip_out wordchar q ltac:(lia)) as Ho.
  assert (q < skip buf wordchar q)%nat as Hlt.
  { destruct Ho as [E|E]; [rewrite E; lia|]. destruct (decide (skip buf wordchar q = q)) as [E'|]; [by rewrite E', Hw in E | lia]. }
  apply Hfin; [lia | lia |]. intros _. split; simpl; [lia | intros k; apply skip_in |].
  intros Hl. destruct Ho as [E|E]; [lia | done].
Qed.

Lemma peek_spec toks s : (s ≤ len)%nat →
  ∃ b s', peek buf toks s = Ok b s' ∧ s' = skip buf ws s ∧ (s ≤ s' ≤ len)%nat ∧ (b = true → at_ s' ≠ 0).
Proof.
  intros Hs. unfold peek. eexists _, _. split; [done|]. split; [done|]. split; [by apply skip_bounds|].
  unfold truthy. destruct (Z.eqb_spec (at_ (skip buf ws s)) 0); done.
Qed.

(** ** Runs that return or panic *)

Definition post {A} (P : A → Prop) (s : nat) (o : outcome nat A) : Prop :=
  match o with
  | Ok a s' => (s ≤ s' ≤ len)%nat ∧ P a
  | Panic _ => True
  | Hang => False
  end.

Lemma post_bind {A B} (m : M nat A) (f : A → M nat B) P Q s :
  post P s (m s) → (∀ a s', (s ≤ s' ≤ len)%nat → P a → post Q s' (f a s')) → post Q s ((m ≫= f) s).
Proof.
  unfold mbind, M_bind. destruct (m s) as [a s'|e|]; simpl; [|done|done]. intros [Hs Ha] Hf.
  specialize (Hf a s' Hs Ha). destruct (f a s') as [b s''|e|]; simpl in *; [|done|done]. split; [lia | apply Hf].
Qed.

Lemma post_ret {A} (P : A → Prop) a s : (s ≤ len)%nat → P a → post P s ((mret a : M nat A) s).
Proof. intros Hs Ha. split; [lia | done]. Qed.

(** Starting a little later. *)
Lemma post_later {A} (P : A → Prop) s s1 o : (s ≤ s1)%nat → post P s1 o → post P s o.
Proof. intros Hs. destruct o; simpl; [|done|done]. intros [? ?]. split; [lia | done]. Qed.

(** A loop or a branch behind [peek]: the token that is there is taken. *)
Lemma post_peek {A} toks (f : bool → M nat A) P s :
  (s ≤ len)%nat →
  (∀ s', (s ≤ s' ≤ len)%nat → post P s' (f false s')) →
  (∀ s', (s ≤ s' < len)%nat → skip buf ws s' = s' → at_ s' ≠ 0 → post P s' (f true s')) →
  post P s ((peek buf toks ≫= f) s).
Proof using Hbuf.
  intros Hs Hf Ht. destruct (peek_spec toks s Hs) as ([|] & s' & E & -> & Hb & Hnz); rewrite (bind_ok _ _ _ _ _ E).
  - eapply post_later; [apply Hb|]. pose proof (Hnz eq_refl) as Hz. apply Ht; [rewrite at_zero in Hz; lia | by apply skip_twice | done].
  - eapply post_later; [apply Hb|]. by apply Hf.
Qed.

Lemma post_gettoken {A} (f : Z * nat * nat → M nat A) P s :
  (s ≤ len)%nat →
  (∀ tok q eq s', (s ≤ s' ≤ len)%nat → (skip buf ws s = s → at_ s ≠ 0 → (s < s')%nat) → (tok ≠ 0 → (s < s')%nat) →
    (tok = 97 → word_ok (q, eq)) → post P s' (f (tok, q, eq) s')) →
  post P s ((gettoken buf ≫= f) s).
Proof using Hbuf.
  intros Hs Hf. destruct (gettoken_spec s Hs) as (tok & q & eq & s' & E & Hq & Hs' & H1 & H2 & H3 & H4).
  rewrite (bind_ok _ _ _ _ _ E). apply (post_later P s s'); [lia|]. apply Hf; [lia | | | done].
  - intros Ew Hnz. rewrite <- Hq in Ew. subst q. rewrite Ew in H3. specialize (H3 Hnz). lia.
  - intros Htok. assert (at_ q ≠ 0) as Hnz; [|specialize (H3 Hnz); lia]. intros Hz. apply Htok.
    unfold gettoken in E. rewrite <- Hq, Hz in E. simpl in E. by injection E.
Qed.

Notation redirs_ok := (Forall (λ r : nat * nat * Z * Z, word_ok r.1.1)).
Definition tree_words_ok (c : cmd (nat * nat)) : Prop := Forall word_ok (words c).

Lemma redirect_words rs : ∀ c, tree_words_ok c → redirs_ok rs → tree_words_ok (redirect c rs).
Proof.
  induction rs as [|[[w mode] fd] rs IH]; intros c Hc Hrs; [done|]. apply Forall_cons in Hrs as [Hw Hrs].
  apply IH; [|done]. unfold tree_words_ok. simpl. apply Forall_app. by split; [|apply Forall_singleton].
Qed.

Lemma parseredirs_post fuel : ∀ s, (s ≤ len)%nat → (len - s < fuel)%nat → post (λ rs, redirs_ok rs) s (parseredirs buf fuel s).
Proof using Hbuf.
  induction fuel as [|fuel IH]; intros s Hs Hf; [lia|]. cbn [parseredirs]. apply post_peek; [done | |].
  - intros s' Hs'. apply post_ret; [lia | constructor].
  - intros s' Hs' Hw Hnz. apply post_gettoken; [lia|]. intros tok q0 eq0 s1 Hs1 Hlt _ _. specialize (Hlt Hw Hnz).
    apply post_gettoken; [lia|]. intros tok' q eq s2 Hs2 _ _ Hword. destruct (Z.eqb_spec tok' 97) as [E|]; [|done].
    eapply post_bind; [apply IH; lia|]. intros rs s3 Hs3 Hrs. apply post_ret; [lia|].
    repeat case_match; try done; apply Forall_cons; split; auto.
Qed.

Lemma parse_redirs_post s : (s ≤ len)%nat → post (λ rs, redirs_ok rs) s (parse_redirs buf s).
Proof using Hbuf. intros Hs. apply parseredirs_post; [done | lia]. Qed.

Lemma exec_loop_post fuel : ∀ argc s, (s ≤ len)%nat → (len - s < fuel)%nat →
  post (λ r, Forall word_ok r.1 ∧ redirs_ok r.2) s (exec_loop buf fuel argc s).
Proof using Hbuf.
  induction fuel as [|fuel IH]; intros argc s Hs Hf; [lia|]. cbn [exec_loop]. apply post_peek; [done | |].
  2: { intros s' Hs' _ _. apply post_ret; [lia | split; constructor]. }
  intros s' Hs'. apply post_gettoken; [lia|]. intros tok q eq s1 Hs1 _ Hlt Hword.
  destruct (Z.eqb_spec tok 0) as [|Ht0]; [apply post_ret; [lia | split; constructor]|]. specialize (Hlt Ht0).
  destruct (Z.eqb_spec tok 97) as [E|]; cbn [negb]; [|done]. destruct (MAXARGS <=? S argc)%nat; [done|].
  eapply post_bind; [apply parse_redirs_post; lia|]. intros rs s2 Hs2 Hrs.
  eapply post_bind; [apply IH; lia|]. intros r s3 Hs3 [Hw Hr]. apply post_ret; [lia|]. simpl. split.
  - apply Forall_cons. split; auto.
  - by apply Forall_app.
Qed.

Lemma back_loop_post fuel : ∀ c s, (s ≤ len)%nat → (len - s < fuel)%nat → tree_words_ok c →
  post tree_words_ok s (back_loop buf fuel c s).
Proof using Hbuf.
  induction fuel as [|fuel IH]; intros c s Hs Hf Hc; [lia|]. cbn [back_loop]. apply post_peek; [done | |].
  - intros s' Hs'. apply post_ret; [lia | done].
  - intros s' Hs' Hw Hnz. apply post_gettoken; [lia|]. intros tok q eq s1 Hs1 Hlt _ _. specialize (Hlt Hw Hnz).
    apply IH; [lia | lia | done].
Qed.

(** Enough fuel for the characters that are left. *)
Lemma parse_post fuel :
  (∀ s, (s ≤ len)%nat → (4 * (len - s) + 4 ≤ fuel)%nat → post tree_words_ok s (parseline buf fuel s)) ∧
  (∀ s, (s ≤ len)%nat → (4 * (len - s) + 3 ≤ fuel)%nat → post tree_words_ok s (parsepipe buf fuel s)) ∧
  (∀ s, (s ≤ len)%nat → (4 * (len - s) + 2 ≤ fuel)%nat → post tree_words_ok s (parseexec buf fuel s)) ∧
  (∀ s, (s ≤ len)%nat → (4 * (len - s) + 1 ≤ fuel)%nat → post tree_words_ok s (parseblock buf fuel s)).
Proof using Hbuf.
  induction fuel as [|fuel (IHl & IHp & IHe & IHb)]; [split_and!; intros; lia|]. split_and!; intros s Hs Hf.
  - cbn [parseline]. eapply post_bind; [apply IHp; lia|]. intros c s1 Hs1 Hc.
    eapply post_bind; [apply back_loop_post; [lia | lia | done]|]. intros c' s2 Hs2 Hc'. apply post_peek; [lia | |].
    + intros s3 Hs3. apply post_ret; [lia | done].
    + intros s3 Hs3 Hw Hnz. apply post_gettoken; [lia|]. intros tok q eq s4 Hs4 Hlt _ _. specialize (Hlt Hw Hnz).
      eapply post_bind; [apply IHl; lia|]. intros r s5 Hs5 Hr. apply post_ret; [lia|]. by apply Forall_app.
  - cbn [parsepipe]. eapply post_bind; [apply IHe; lia|]. intros c s1 Hs1 Hc. apply post_peek; [lia | |].
    + intros s2 Hs2. apply post_ret; [lia | done].
    + intros s2 Hs2 Hw Hnz. apply post_gettoken; [lia|]. intros tok q eq s3 Hs3 Hlt _ _. specialize (Hlt Hw Hnz).
      eapply post_bind; [apply IHp; lia|]. intros r s4 Hs4 Hr. apply post_ret; [lia|]. by apply Forall_app.
  - cbn [parseexec]. apply post_peek; [lia | |].
    + intros s1 Hs1. eapply post_bind; [apply parse_redirs_post; lia|]. intros rs s2 Hs2 Hrs.
      eapply post_bind; [apply exec_loop_post; lia|]. intros r s3 Hs3 [Hw Hr]. apply post_ret; [lia|].
      apply redirect_words; [done|]. by apply Forall_app.
    + intros s1 Hs1 _ _. apply IHb; lia.
  - cbn [parseblock]. apply post_peek; [lia | |]; cbn [negb]; [done|].
    intros s1 Hs1 Hw Hnz. apply post_gettoken; [lia|]. intros tok q eq s2 Hs2 Hlt _ _. specialize (Hlt Hw Hnz).
    eapply post_bind; [apply IHl; lia|]. intros c s3 Hs3 Hc. apply post_peek; [lia | |]; cbn [negb]; [done|].
    intros s4 Hs4 _ _. apply post_gettoken; [lia|]. intros tok' q' eq' s5 Hs5 _ _ _.
    eapply post_bind; [apply parse_redirs_post; lia|]. intros rs s6 Hs6 Hrs. apply post_ret; [lia|]. by apply redirect_words.
Qed.
End parser.

(** ** Words in the line *)

(** The characters of a word, and the C string that starts at [q]. *)
Definition slice (b : list Z) (w : nat * nat) : list Z := take (w.2 - w.1) (drop w.1 b).
Definition string_at (b : list Z) (q : nat) : list Z := take (span (λ c, negb (c =? 0)) (drop q b)) (drop q b).

(** Entries [ks] are zero in [b'], the others as in [b]. *)
Definition zeroed (ks : list nat) (b b' : list Z) : Prop :=
  length b' = length b ∧ ∀ k, nth k b' 0 = if decide (k ∈ ks) then 0 else nth k b 0.

Lemma zeroed_insert ks b b' j : zeroed ks b b' → zeroed (ks ++ [j]) b (<[j := 0]> b').
Proof.
  intros [Hl Hn]. split; [by rewrite length_insert|]. intros k. destruct (decide (k = j)) as [->|Hne].
  - rewrite decide_True by set_solver. destruct (Nat.le_gt_cases (length b') j) as [Hge|Hlt].
    + apply nth_overflow. by rewrite length_insert.
    + apply nth_lookup_Some. by apply list_lookup_insert_eq.
  - transitivity (nth k b' 0).
    + rewrite !nth_lookup. by rewrite list_lookup_insert_ne.
    + rewrite Hn. repeat case_decide; set_solver.
Qed.

Lemma zeroed_app ks1 ks2 b1 b2 b3 : zeroed ks1 b1 b2 → zeroed ks2 b2 b3 → zeroed (ks1 ++ ks2) b1 b3.
Proof.
  intros [L1 N1] [L2 N2]. split; [congruence|]. intros k. rewrite N2, N1. repeat case_decide; set_solver.
Qed.

Lemma nulterminate_zeroed c : ∀ b, zeroed (words c).*2 b (nulterminate c b).
Proof.
  assert (∀ b, zeroed [] b b) as Hnil by (intros b; split; [done|]; intros k; by rewrite decide_False by set_solver).
  induction c as [argv|c IH w mode fd|l IHl r IHr|l IHl r IHr|c IH]; intros b; cbn [words nulterminate]; rewrite ?fmap_app.
  - induction argv as [|w argv IH] using rev_ind; [apply Hnil|]. rewrite fold_left_app, fmap_app. by apply zeroed_insert.
  - by apply zeroed_insert.
  - by eapply zeroed_app.
  - by eapply zeroed_app.
  - done.
Qed.

Lemma span_unique f l n : (n ≤ length l)%nat → (∀ k, (k < n)%nat → f (nth k l 0) = true) → f (nth n l 0) = false → span f l = n.
Proof.
  revert n. induction l as [|c l IH]; intros [|n] Hn Hall Hstop; simpl in *; try lia.
  - by rewrite Hstop.
  - rewrite (Hall 0%nat ltac:(lia)). f_equal. apply IH; [lia | | done]. intros k Hk. apply (Hall (S k)). lia.
Qed.

(** A word that was ended is a C string. *)
Lemma string_at_word ks b b' w :
  Forall (λ c, c ≠ 0) b → word_ok b w → zeroed ks b b' → w.2 ∈ ks → (∀ k, k ∈ ks → (k < length b)%nat → wordchar (nth k b 0) = false) →
  string_at b' w.1 = slice b w.
Proof.
  intros Hb [Hr Hc _] [Hl Hn] Hin Hks. destruct w as [q eq]; simpl in *. unfold string_at, slice. simpl.
  assert (∀ k, (q ≤ k < eq)%nat → nth k b' 0 = nth k b 0 ∧ nth k b 0 ≠ 0) as Hsame.
  { intros k Hk. specialize (Hc k Hk). unfold at_ in Hc. split.
    - rewrite Hn, decide_False; [done|]. intros Hk'. rewrite (Hks k Hk') in Hc by lia. done.
    - intros Hz. apply (at_zero b Hb) in Hz. lia. }
  rewrite (span_unique _ _ (eq - q)).
  - apply (nth_ext _ _ 0 0); rewrite !length_take, !length_drop; [lia|]. intros k Hk. rewrite !take_nth, !nth_drop by lia. apply Hsame. lia.
  - rewrite length_drop. lia.
  - intros k Hk. rewrite nth_drop. destruct (Hsame (q + k)%nat ltac:(lia)) as [-> Hnz]. by rewrite (proj2 (Z.eqb_neq _ 0)).
  - rewrite nth_drop. replace (q + (eq - q))%nat with eq by lia. by rewrite Hn, decide_True.
Qed.

Lemma tree_strings buf t w :
  Forall (λ c, c ≠ 0) buf → tree_words_ok buf t → w ∈ words t → string_at (nulterminate t buf) w.1 = slice buf w.
Proof.
  unfold tree_words_ok. rewrite (Forall_forall (word_ok buf)). intros Hb Ht Hw.
  eapply string_at_word; [done | by apply Ht | apply nulterminate_zeroed | by apply list_elem_of_fmap_2 |].
  intros k (w' & -> & Hw')%list_elem_of_fmap Hk. by apply (wo_end _ _ (Ht _ Hw')).
Qed.

Lemma parsecmd_post buf : Forall (λ c, c ≠ 0) buf →
  match parsecmd buf with
  | Ok (t, buf') s => s = length buf ∧ tree_words_ok buf t ∧ buf' = nulterminate t buf
  | Panic _ => True
  | Hang => False
  end.
Proof.
  intros Hb. unfold parsecmd. pose proof (proj1 (parse_post buf Hb (parse_fuel buf)) 0%nat ltac:(lia) ltac:(unfold parse_fuel; lia)) as H.
  unfold mbind, M_bind. destruct (parseline buf (parse_fuel buf) 0%nat) as [t s|e|]; [|done|done]. destruct H as [Hs Ht].
  destruct (peek_spec buf [] s ltac:(lia)) as (b & s' & -> & _). unfold get. cbv beta iota.
  destruct (Nat.eqb_spec s' (length buf)); [by split | done].
Qed.

(** C34: the shell's parser on every line. [parsecmd] terminates: it returns
    a tree or panics with a syntax error. In the tree it returns, each word
    is a longest run of characters that are neither blanks nor symbols, and
    after [nulterminate] the C string at its start is exactly this run: no
    terminator falls into another word. *)
Theorem parsecmd_words buf : Forall (λ c, c ≠ 0) buf →
  parsecmd buf ≠ Hang ∧
  ∀ t buf' s, parsecmd buf = Ok (t, buf') s →
    s = length buf ∧ length buf' = length buf ∧
    ∀ w, w ∈ words t → word_ok buf w ∧ string_at buf' w.1 = slice buf w.
Proof.
  intros Hb. pose proof (parsecmd_post buf Hb) as H. split; [intros E; by rewrite E in H|]. intros t buf' s E. rewrite E in H.
  destruct H as (-> & Ht & ->). split; [done|]. pose proof (nulterminate_zeroed t buf) as Hz. split; [apply Hz|].
  intros w Hw. split; [|by apply tree_strings]. unfold tree_words_ok in Ht. rewrite Forall_forall in Ht. by apply Ht.
Qed.

(** The line [ls>o;a]. *)
Lemma parsecmd_words_witness :
  ∃ t buf' s, parsecmd [108; 115; 62; 111; 59; 97] = Ok (t, buf') s ∧
    t = LIST (REDIR (EXEC [(0, 2)%nat]) (3, 4)%nat 513 1) (EXEC [(5, 6)%nat]) ∧ string_at buf' 0 = [108; 115].
Proof.
  destruct (parsecmd_words [108; 115; 62; 111; 59; 97]) as [_ Hw]; [by repeat constructor|].
  eexists _, _, _. split; [vm_compute; reflexivity|]. split; [reflexivity|].
  destruct (Hw _ _ _ ltac:(vm_compute; reflexivity)) as (_ & _ & Hin). apply (Hin (0, 2)%nat). left.
Defined.
