(* ===== verification/ShPrint.v ===== *)
(** * Printing commands and parsing them back

    Every command tree can be written as a line, with blocks where the
    grammar needs them, and the parser reads this line as the same tree. *)
From S2P Require Import Prelude Machine SysFile Sh.

(** ** Tokens *)

Notation token := (list Z) (only parsing).

(** Tokens with a blank after each. *)
Definition flat (ts : list token) : list Z := concat ((λ t, t ++ [32]) <$> ts).

Definition is_word (t : token) : Prop := t ≠ [] ∧ Forall (λ c, wordchar c = true ∧ c ≠ 0) t.
Definition is_symbol (t : token) : Prop := ∃ c, t = [c] ∧ strchr symbols c = true.
Definition tok_ok (t : token) : Prop := is_word t ∨ is_symbol t.

Definition code (t : token) : Z := if strchr symbols (hd 0 t) then hd 0 t else 97.

(** ** The printer *)

(** What is printed at which level: 0 for a line, 1 before a semicolon, 2 for
    a pipe, 3 for one command of it. *)
Definition paren (b : bool) (ts : list token) : list token := if b then [40] :: ts ++ [[41]] else ts.

Definition rtok (r : token * Z * Z) : list token := [[if r.2 =? 0 then 60 else 62]; r.1.1].
Definition rtoks (rs : list (token * Z * Z)) : list token := concat (rtok <$> rs).

Fixpoint pr (lvl : nat) (c : cmd token) : list token :=
  match c with
  | EXEC argv => argv
  | REDIR c w mode fd => pr 3 c ++ rtok (w, mode, fd)
  | PIPE l r => paren (2 <? lvl)%nat (pr 3 l ++ [124] :: pr 2 r)
  | LIST l r => paren (0 <? lvl)%nat (pr 1 l ++ [59] :: pr 0 r)
  | BACK c => paren (1 <? lvl)%nat (pr 1 c ++ [[38]])
  end.

Definition print (c : cmd token) : list Z := flat (pr 0 c).

(** Commands that can be written: proper words, fewer than [MAXARGS] in a
    simple command, redirections of standard input or output. *)
Definition redir_ok (r : token * Z * Z) : Prop :=
  is_word r.1.1 ∧ (r.1.2 = O_RDONLY ∧ r.2 = 0 ∨ r.1.2 = Z.lor O_WRONLY O_CREATE ∧ r.2 = 1).

Fixpoint cmd_ok (c : cmd token) : Prop :=
  match c with
  | EXEC argv => Forall is_word argv ∧ (length argv < MAXARGS)%nat
  | REDIR c w mode fd => cmd_ok c ∧ redir_ok (w, mode, fd)
  | PIPE l r => cmd_ok l ∧ cmd_ok r
  | LIST l r => cmd_ok l ∧ cmd_ok r
  | BACK c => cmd_ok c
  end.

(** ** Facts about tokens *)

Lemma strchr_in s c : strchr s c = true ↔ c ∈ s.
Proof.
  induction s as [|x s IH]; simpl; [split; [done | by intros ?%elem_of_nil]|].
  destruct (Z.eqb_spec x c) as [->|Hne]; [split; [intros; left | done]|]. rewrite IH, elem_of_cons. naive_solver.
Qed.

Lemma symbol_nonws c : strchr symbols c = true → ws c = false ∧ c ≠ 0.
Proof. rewrite strchr_in. unfold symbols. set_unfold. intros Hc. repeat destruct Hc as [->|Hc]; try done. Qed.

Lemma tok_head t : tok_ok t → ∃ c r, t = c :: r ∧ ws c = false ∧ c ≠ 0.
Proof.
  intros [[Hne Hw]|(c & -> & Hc)].
  - destruct t as [|c r]; [done|]. apply Forall_cons in Hw as [[Hc Hz] _]. exists c, r. split; [done|]. split; [|done].
    unfold wordchar in Hc. apply andb_true_iff in Hc as [Hc _]. by apply negb_true_iff.
  - exists c, []. split; [done|]. by apply symbol_nonws.
Qed.

Lemma word_code t : is_word t → code t = 97 ∧ strchr symbols (hd 0 t) = false.
Proof.
  intros [Hne Hw]. destruct t as [|c r]; [done|]. apply Forall_cons in Hw as [[Hc _] _]. unfold wordchar in Hc.
  apply andb_true_iff in Hc as [_ Hc%negb_true_iff]. unfold code. simpl hd. by rewrite Hc.
Qed.

Lemma flat_nil : flat [] = [].
Proof. done. Qed.

Lemma flat_cons t ts : flat (t :: ts) = t ++ 32 :: flat ts.
Proof. unfold flat. simpl. by rewrite <- app_assoc. Qed.

Lemma flat_app ts1 ts2 : flat (ts1 ++ ts2) = flat ts1 ++ flat ts2.
Proof. unfold flat. by rewrite fmap_app, concat_app. Qed.

(** Arithmetic on the lengths of lines. *)
Ltac flat_lia :=
  repeat match goal with
  | H : context [length (flat _)] |- _ => revert H
  end;
  repeat first [rewrite flat_app | rewrite flat_cons | rewrite flat_nil | rewrite length_app | progress cbn [app length]]; intros; lia.

Lemma flat_length ts : (length ts ≤ length (flat ts))%nat.
Proof. induction ts as [|t ts IH]; [done|]. rewrite flat_cons, length_app. simpl. lia. Qed.

Lemma flat_head ts : Forall tok_ok ts → ws (nth 0 (flat ts) 0) = false.
Proof.
  intros Hts. destruct ts as [|t ts]; [done|]. apply Forall_cons in Hts as [(c & r & -> & Hc & _)%tok_head _]. by rewrite flat_cons.
Qed.

Lemma flat_nonzero ts : Forall tok_ok ts → Forall (λ c, c ≠ 0) (flat ts).
Proof.
  induction ts as [|t ts IH]; [done|]. intros [Ht Hts]%Forall_cons. rewrite flat_cons. apply Forall_app. split; [|apply Forall_cons; auto].
  destruct Ht as [[_ Hw]|(c & -> & Hc)]; [eapply Forall_impl; [exact Hw|]; simpl; tauto|].
  apply Forall_singleton. by apply symbol_nonws.
Qed.

(** ** Tokens in the line *)

Section line.
Variable buf : list Z.

(** From position [s] on the line is [ts]. *)
Definition pos (ts : list token) (s : nat) : Prop := drop s buf = flat ts.

Lemma at_pos ts s k : pos ts s → at_ buf (s + k) = nth k (flat ts) 0.
Proof. unfold pos, at_. intros <-. by rewrite nth_drop. Qed.

Lemma at_pos0 ts s : pos ts s → at_ buf s = nth 0 (flat ts) 0.
Proof. intros Hp. rewrite <- (Nat.add_0_r s). by apply at_pos. Qed.

Lemma pos_next t ts s : pos (t :: ts) s → pos ts (s + length t + 1).
Proof.
  unfold pos. rewrite flat_cons. intros E. rewrite <- drop_drop, <- drop_drop, E.
  rewrite drop_app_length. done.
Qed.

Lemma pos_length ts s : pos ts s → (length (flat ts) ≤ length buf)%nat.
Proof. unfold pos. intros <-. rewrite length_drop. lia. Qed.

Lemma skip_pos ts s : pos ts s → Forall tok_ok ts → skip buf ws s = s.
Proof. intros Hp Hts. apply skip_none. rewrite (at_pos0 ts) by done. by apply flat_head. Qed.

Lemma skip_blank t ts s : pos (t :: ts) s → Forall tok_ok ts → skip buf ws (s + length t) = (s + length t + 1)%nat.
Proof.
  intros Hp Hts. unfold skip. rewrite <- drop_drop. unfold pos in Hp. rewrite Hp, flat_cons, drop_app_length.
  change (32 :: flat ts) with ([32] ++ flat ts). rewrite span_app; [done | |by apply flat_head].
  intros c ->%list_elem_of_singleton. done.
Qed.

Lemma peek_at toks ts s : pos ts s → Forall tok_ok ts →
  peek buf toks s = Ok (match ts with [] => false | t :: _ => strchr toks (hd 0 t) end) s.
Proof.
  intros Hp Hts. unfold peek. rewrite (skip_pos ts), (at_pos0 ts) by done.
  destruct ts as [|t ts]; [done|]. apply Forall_cons in Hts as [(c & r & -> & _ & Hc)%tok_head _]. rewrite flat_cons. simpl.
  unfold truthy. by rewrite (proj2 (Z.eqb_neq c 0)).
Qed.

Lemma gettoken_end s : pos [] s → gettoken buf s = Ok (0, s, s) s.
Proof.
  intros Hp. pose proof (skip_pos [] s Hp ltac:(constructor)) as Hs. unfold gettoken. rewrite Hs, (at_pos0 []) by done. simpl. by rewrite Hs.
Qed.

Lemma gettoken_at t ts s : pos (t :: ts) s → tok_ok t → Forall tok_ok ts →
  gettoken buf s = Ok (code t, s, (s + length t)%nat) (s + length t + 1)%nat.
Proof.
  intros Hp Ht Hts. unfold gettoken. rewrite (skip_pos (t :: ts)) by (done || by apply Forall_cons).
  pose proof (skip_blank t ts s Hp Hts) as Hb. destruct (tok_head t Ht) as (c & r & E & Hws & Hz).
  assert (∀ k, at_ buf (s + k) = nth k (t ++ 32 :: flat ts) 0) as Hat by (intros k; rewrite (at_pos (t :: ts)), flat_cons; done).
  assert (at_ buf s = c) as Hc by (rewrite (at_pos0 (t :: ts)), flat_cons, E; done).
  rewrite Hc, (proj2 (Z.eqb_neq c 0)) by done. destruct Ht as [Hw|(c' & E' & Hsym)].
  - destruct (word_code t Hw) as [-> Hns]. rewrite E in Hns. simpl hd in Hns.
    assert (strchr [124; 40; 41; 59; 38; 60] c = false ∧ c =? 62 = false) as [-> ->].
    { cbn [strchr symbols] in Hns |- *. rewrite (Z.eqb_sym c 62). repeat case_match; done. }
    assert (skip buf wordchar s = (s + length t)%nat) as ->; [|by rewrite Hb].
    unfold skip. unfold pos in Hp. rewrite Hp, flat_cons, span_app; [done | | done].
    destruct Hw as [_ Hw]. rewrite Forall_forall in Hw. intros x Hx. by apply Hw.
  - rewrite E in E'. injection E' as -> ->. subst t. unfold code. simpl hd. rewrite Hsym. cbn [length] in *. rewrite Nat.add_1_r in *.
    destruct (strchr [124; 40; 41; 59; 38; 60] c') eqn:E1; [by rewrite Hb|].
    assert (c' = 62) as ->.
    { rewrite strchr_in in Hsym. unfold symbols in Hsym. set_unfold. repeat destruct Hsym as [->|Hsym]; done. }
    rewrite Z.eqb_refl, <- Nat.add_1_r, Hat. simpl. by rewrite Nat.add_1_r, Hb.
Qed.

Lemma slice_at t ts s : pos (t :: ts) s → slice buf (s, (s + length t)%nat) = t.
Proof. unfold pos, slice. simpl. intros ->. rewrite flat_cons. replace (s + length t - s)%nat with (length t) by lia. apply take_app_length. Qed.

(** ** The parser on printed tokens *)

(** The next token, if any, is one of the symbols [f]. *)
Definition follow (f : list Z) (ts : list token) : Prop :=
  match ts with [] => True | t :: _ => strchr f (hd 0 t) = true end.

(** [m], started at the tokens [ts], stops at [rest] with a result in [Q]. *)
Definition runs {A} (m : M nat A) (ts rest : list token) (Q : A → Prop) : Prop :=
  ∀ s, pos (ts ++ rest) s → ∃ a s', m s = Ok a s' ∧ pos rest s' ∧ Q a.

Lemma runs_bind {A B} (m : M nat A) (f : A → M nat B) ts1 ts2 rest P Q :
  runs m ts1 (ts2 ++ rest) P → (∀ a, P a → runs (f a) ts2 rest Q) → runs (m ≫= f) (ts1 ++ ts2) rest Q.
Proof.
  intros Hm Hf s Hs. rewrite <- app_assoc in Hs. destruct (Hm s Hs) as (a & s1 & E & Hs1 & Ha).
  destruct (Hf a Ha s1 Hs1) as (b & s2 & E2 & Hs2 & Hb). exists b, s2. by rewrite (bind_ok _ _ _ _ _ E).
Qed.

Lemma runs_ret {A} (a : A) rest (Q : A → Prop) : Q a → runs (mret a) [] rest Q.
Proof. intros Ha s Hs. by exists a, s. Qed.

Lemma runs_conseq {A} (m : M nat A) ts rest (P Q : A → Prop) : (∀ a, P a → Q a) → runs m ts rest P → runs m ts rest Q.
Proof. intros HPQ Hm s Hs. destruct (Hm s Hs) as (a & s' & ? & ? & ?). exists a, s'. auto. Qed.

(** A branch on the next token. *)
Lemma runs_peek {A} toks (f : bool → M nat A) ts rest Q :
  Forall tok_ok (ts ++ rest) →
  runs (f (match ts ++ rest with [] => false | t :: _ => strchr toks (hd 0 t) end)) ts rest Q →
  runs (peek buf toks ≫= f) ts rest Q.
Proof. intros Hts Hf s Hs. rewrite (bind_ok _ _ _ _ _ (peek_at toks (ts ++ rest) s Hs Hts)). by apply Hf. Qed.

(** Taking a token; a word is found in the line where it is. *)
Lemma runs_gettoken {A} (f : Z * nat * nat → M nat A) t ts rest Q :
  tok_ok t → Forall tok_ok (ts ++ rest) →
  (∀ q eq, slice buf (q, eq) = t → runs (f (code t, q, eq)) ts rest Q) → runs (gettoken buf ≫= f) (t :: ts) rest Q.
Proof.
  intros Ht Hts Hf s Hs. change ((t :: ts) ++ rest) with (t :: (ts ++ rest)) in Hs.
  rewrite (bind_ok _ _ _ _ _ (gettoken_at t (ts ++ rest) s Hs Ht Hts)). apply Hf; [by eapply slice_at | by apply pos_next].
Qed.

Notation sl := (cmd_map (slice buf)).
Notation rsl := (fmap (λ r : nat * nat * Z * Z, (slice buf r.1.1, r.1.2, r.2))).

Lemma rtoks_ok rs : Forall redir_ok rs → Forall tok_ok (rtoks rs).
Proof.
  induction rs as [|r rs IH]; intros Hrs; [done|]. apply Forall_cons in Hrs as [[Hw _] Hrs].
  change (Forall tok_ok ([if r.2 =? 0 then 60 else 62] :: r.1.1 :: rtoks rs)). apply Forall_cons. split; [right; by case_match; eexists|].
  apply Forall_cons. split; [by left | auto].
Qed.

Lemma words_ok argv : Forall is_word argv → Forall tok_ok argv.
Proof. intros Hw. eapply Forall_impl; [exact Hw|]. by left. Qed.

(** Tokens that do not start a redirection. *)
Definition no_redir (ts : list token) : Prop := match ts with [] => True | t :: _ => strchr [60; 62] (hd 0 t) = false end.

Lemma parseredirs_runs fuel : ∀ rs rest, (length rs < fuel)%nat → Forall redir_ok rs → Forall tok_ok rest → no_redir rest →
  runs (parseredirs buf fuel) (rtoks rs) rest (λ rs', rsl rs' = rs).
Proof.
  induction fuel as [|fuel IH]; intros rs rest Hf Hrs Hrest Hno; [lia|]. cbn [parseredirs].
  pose proof (rtoks_ok rs Hrs) as Hok. apply runs_peek; [by apply Forall_app|]. destruct rs as [|r rs].
  - replace (match rtoks [] ++ rest with [] => false | t :: _ => strchr [60; 62] (hd 0 t) end) with false
      by (destruct rest; [done | by symmetry]). by apply runs_ret.
  - apply Forall_cons in Hrs as [[Hw Hmode] Hrs].
    change (rtoks (r :: rs)) with ([if r.2 =? 0 then 60 else 62] :: r.1.1 :: rtoks rs) in *. cbn [app hd].
    apply Forall_cons in Hok as [Hsym [_ Hok]%Forall_cons].
    assert (strchr [60; 62] (if r.2 =? 0 then 60 else 62) = true) as -> by (by case_match).
    apply runs_gettoken; [done | apply Forall_cons; split; [by left | by apply Forall_app]|]. intros q0 eq0 _.
    apply runs_gettoken; [by left | by apply Forall_app|]. intros q eq Hsl.
    destruct (word_code _ Hw) as [-> _]. cbn [Z.eqb negb]. rewrite <- (app_nil_r (rtoks rs)).
    eapply runs_bind; [apply (IH rs); [simpl in Hf; lia | done | done | done]|]. intros rs' Hrs'. apply runs_ret.
    destruct r as [[w mode] fd]; cbn [fst snd] in *. destruct Hmode as [[-> ->]|[-> ->]]; cbn -[fmap slice Z.lor]; by rewrite fmap_cons, Hrs', <- Hsl.
Qed.

(** The loops have as much fuel as the line has characters. *)
Lemma runs_fuel {A} (m : M nat A) n ts rest Q :
  (n ≤ length (ts ++ rest))%nat → ((n < S (length buf))%nat → runs m ts rest Q) → runs m ts rest Q.
Proof.
  intros Hn Hm s Hs. apply Hm; [|done]. pose proof (pos_length _ _ Hs). pose proof (flat_length (ts ++ rest)). lia.
Qed.

Lemma rtoks_length rs : (length rs ≤ length (rtoks rs))%nat.
Proof. induction rs as [|r rs IH]; [done|]. change (rtoks (r :: rs)) with (rtok r ++ rtoks rs). rewrite length_app. simpl. lia. Qed.

Lemma parse_redirs_runs rs rest : Forall redir_ok rs → Forall tok_ok rest → no_redir rest →
  runs (parse_redirs buf) (rtoks rs) rest (λ rs', rsl rs' = rs).
Proof.
  intros Hrs Hrest Hno. apply (runs_fuel _ (length rs)); [rewrite length_app; pose proof (rtoks_length rs); lia|].
  intros Hf. by apply parseredirs_runs.
Qed.

Lemma follow_no_redir rest : follow [124; 41; 38; 59] rest → no_redir rest.
Proof.
  destruct rest as [|t rest]; [done|]. simpl. destruct (strchr [60; 62] (hd 0 t)) eqn:E; [|done]. rewrite strchr_in in E.
  set_unfold. by destruct E as [->|[->|?]].
Qed.

Lemma word_no_symbol toks t : toks ⊆ symbols → is_word t → strchr toks (hd 0 t) = false.
Proof.
  intros Hsub Hw. destruct (strchr toks (hd 0 t)) eqn:E; [|done]. rewrite strchr_in in E. apply Hsub, strchr_in in E.
  by rewrite (proj2 (word_code t Hw)) in E.
Qed.

Lemma exec_loop_runs fuel : ∀ argv argc rs rest,
  (length argv < fuel)%nat → Forall is_word argv → (argc + length argv < MAXARGS)%nat → Forall redir_ok rs → (argv = [] → rs = []) →
  Forall tok_ok rest → follow [124; 41; 38; 59] rest →
  runs (exec_loop buf fuel argc) (argv ++ rtoks rs) rest (λ r, slice buf <$> r.1 = argv ∧ rsl r.2 = rs).
Proof.
  induction fuel as [|fuel IH]; intros argv argc rs rest Hf Hw Hargc Hrs Hnil Hrest Hfol; [lia|]. cbn [exec_loop].
  pose proof (rtoks_ok rs Hrs) as Hok. apply runs_peek; [apply Forall_app; split; [apply Forall_app; split; [by apply words_ok|]|]; done|].
  destruct argv as [|w argv].
  - rewrite Hnil by done. change (([] ++ rtoks []) ++ rest) with rest. destruct rest as [|t rest].
    + intros s Hs. rewrite (bind_ok _ _ _ _ _ (gettoken_end s Hs)). by exists ([], []), s.
    + unfold follow in Hfol. rewrite Hfol. by apply runs_ret.
  - apply Forall_cons in Hw as [Hw Hws]. cbn [app].
    rewrite word_no_symbol by (done || set_solver).
    apply runs_gettoken; [by left | apply Forall_app; split; [apply Forall_app; split; [by apply words_ok|]|]; done|]. intros q eq Hsl.
    destruct (word_code w Hw) as [-> _]. cbn [Z.eqb Pos.eqb negb]. rewrite (proj2 (Nat.leb_gt _ _)) by (simpl in Hargc; lia).
    assert (∀ rs1 rs2, Forall redir_ok rs1 → Forall redir_ok rs2 → (argv = [] → rs2 = []) → no_redir (argv ++ rtoks rs2 ++ rest) →
      runs (rs ← parse_redirs buf; r ← exec_loop buf fuel (S argc); mret ((q, eq) :: r.1, rs ++ r.2)) (rtoks rs1 ++ (argv ++ rtoks rs2)) rest
        (λ r, slice buf <$> r.1 = w :: argv ∧ rsl r.2 = rs1 ++ rs2)) as Hgo.
    { intros rs1 rs2 H1 H2 Hn Hno. eapply runs_bind.
      - apply parse_redirs_runs; [done | | by rewrite <- app_assoc].
        apply Forall_app. split; [apply Forall_app; split; [by apply words_ok | by apply rtoks_ok] | done].
      - intros rs' Hrs'. rewrite <- (app_nil_r (argv ++ rtoks rs2)).
        eapply runs_bind; [apply (IH argv (S argc) rs2); simpl in *; try done; lia|].
        intros r [Hr1 Hr2]. apply runs_ret. cbn [fst snd]. by rewrite fmap_cons, fmap_app, Hsl, Hr1, Hrs', Hr2. }
    destruct argv as [|w' argv].
    + specialize (Hgo rs [] Hrs ltac:(done) ltac:(done)). rewrite app_nil_r in Hgo. cbn [app] in *. rewrite app_nil_r in Hgo. apply Hgo. by apply follow_no_redir.
    + apply (Hgo [] rs); [done | done | done |]. apply Forall_cons in Hws as [Hw' _].
      apply (word_no_symbol [60; 62] w'); [set_solver | done].
Qed.

Lemma back_loop_runs fuel : ∀ k c rest, (k < fuel)%nat → Forall tok_ok rest → follow [41; 59] rest →
  runs (back_loop buf fuel c) (replicate k [38]) rest (λ c', c' = Nat.iter k BACK c).
Proof.
  induction fuel as [|fuel IH]; intros k c rest Hk Hrest Hfol; [lia|]. cbn [back_loop].
  assert (∀ k, Forall tok_ok (replicate k [38] ++ rest)) as Hok.
  { intros j. apply Forall_app. split; [|done]. apply Forall_replicate. right. by exists 38. }
  apply runs_peek; [done|]. destruct k as [|k].
  - replace (match replicate 0 [38] ++ rest with [] => false | t :: _ => strchr [38] (hd 0 t) end) with false.
    { by apply runs_ret. }
    destruct rest as [|t rest]; [done|]. cbn [follow replicate app] in *. destruct (strchr [38] (hd 0 t)) eqn:E; [|done].
    rewrite strchr_in in E. apply list_elem_of_singleton in E. by rewrite E in Hfol.
  - cbn [replicate app hd]. apply runs_gettoken; [right; by exists 38 | done|]. intros q eq _.
    eapply runs_conseq; [|apply (IH k (BACK c)); [lia | done | done]]. simpl. intros c' ->. by rewrite Nat.iter_swap.
Qed.

(** ** The levels of the grammar *)

(** With fuel for the tokens ahead and [k] more. *)
Definition frun (k : nat) (f : nat → M nat (cmd (nat * nat))) (ts rest : list token) (c : cmd token) : Prop :=
  ∀ n, (4 * length (flat (ts ++ rest)) + k ≤ n)%nat → runs (f n) ts rest (λ t, sl t = c).

Definition P3 (c : cmd token) : Prop := ∀ rs rest, Forall redir_ok rs → Forall tok_ok rest → follow [124; 41; 38; 59] rest →
  frun 2 (parseexec buf) (pr 3 c ++ rtoks rs) rest (redirect c rs).
Definition P2 (c : cmd token) : Prop := ∀ rest, Forall tok_ok rest → follow [41; 38; 59] rest → frun 3 (parsepipe buf) (pr 2 c) rest c.
Definition pipe_back (n : nat) : M nat (cmd (nat * nat)) := c ← parsepipe buf n; back_loop buf (S (length buf)) c.
Definition P1 (c : cmd token) : Prop := ∀ k rest, Forall tok_ok rest → follow [41; 59] rest →
  frun 3 pipe_back (pr 1 c ++ replicate k [38]) rest (Nat.iter k BACK c).
Definition P0 (c : cmd token) : Prop := ∀ rest, Forall tok_ok rest → follow [41] rest → frun 4 (parseline buf) (pr 0 c) rest c.

Lemma sl_redirect rs : ∀ t, sl (redirect t rs) = redirect (sl t) (rsl rs).
Proof. induction rs as [|[[w mode] fd] rs IH]; intros t; [done|]. apply (IH (REDIR t w mode fd)). Qed.

Lemma sl_back k t : sl (Nat.iter k BACK t) = Nat.iter k BACK (sl t).
Proof. induction k as [|k IH]; [done|]. simpl. by rewrite IH. Qed.

Lemma redirect_snoc (c : cmd token) w mode fd rs : redirect (REDIR c w mode fd) rs = redirect c ((w, mode, fd) :: rs).
Proof. done. Qed.

Lemma paren_ok b ts : Forall tok_ok ts → Forall tok_ok (paren b ts).
Proof.
  intros Hts. destruct b; [|done]. apply Forall_cons. split; [right; by exists 40|]. apply Forall_app. split; [done|].
  apply Forall_singleton. right. by exists 41.
Qed.

Lemma pr_ok c : ∀ lvl, cmd_ok c → Forall tok_ok (pr lvl c).
Proof.
  induction c as [argv|c IH w mode fd|l IHl r IHr|l IHl r IHr|c IH]; intros lvl; cbn [cmd_ok pr].
  - intros [Hw _]. by apply words_ok.
  - intros [Hc Hr]. apply Forall_app. split; [auto|]. rewrite <- (app_nil_r (rtok _)). by apply (rtoks_ok [(w, mode, fd)]), Forall_singleton.
  - intros [Hl Hr]. apply paren_ok, Forall_app. split; [auto|]. apply Forall_cons. split; [right; by exists 124 | auto].
  - intros [Hl Hr]. apply paren_ok, Forall_app. split; [auto|]. apply Forall_cons. split; [right; by exists 59 | auto].
  - intros Hc. apply paren_ok, Forall_app. split; [auto|]. apply Forall_singleton. right. by exists 38.
Qed.

(** [peek] for a symbol that cannot come next. *)
Lemma follow_not f c rest : follow f rest → strchr f c = false → match rest with [] => false | t :: _ => strchr [c] (hd 0 t) end = false.
Proof.
  destruct rest as [|t rest]; [done|]. cbn [follow]. intros Hf Hc. destruct (strchr [c] (hd 0 t)) eqn:E; [|done].
  rewrite strchr_in in E. apply list_elem_of_singleton in E. by rewrite E, Hc in Hf.
Qed.

Lemma follow_sub f g rest : f ⊆ g → follow f rest → follow g rest.
Proof. intros Hs. destruct rest as [|t rest]; [done|]. cbn [follow]. rewrite !strchr_in. apply Hs. Qed.

Lemma P2_of_P3 c : pr 2 c = pr 3 c → P3 c → P2 c.
Proof.
  intros Epr Hc rest Hrest Hfol [|n] Hn; [lia|]. rewrite Epr in *. cbn [parsepipe]. rewrite <- (app_nil_r (pr 3 c)).
  eapply runs_bind.
  - rewrite <- (app_nil_r (pr 3 c)). apply (Hc [] rest); [done | done | eapply follow_sub; [|done]; set_solver |].
    change (rtoks []) with (@nil token). rewrite app_nil_r. lia.
  - intros t Ht. apply runs_peek; [done|]. rewrite (follow_not [41; 38; 59]) by done. by apply runs_ret.
Qed.

Lemma P1_of_P2 c : pr 1 c = pr 2 c → P2 c → P1 c.
Proof.
  intros Epr Hc k rest Hrest Hfol n Hn. rewrite Epr in *. unfold pipe_back.
  assert (Forall tok_ok (replicate k [38] ++ rest)) as Hok.
  { apply Forall_app. split; [|done]. apply Forall_replicate. right. by exists 38. }
  eapply runs_bind.
  - apply (Hc (replicate k [38] ++ rest)); [done | destruct k; [eapply follow_sub; [|done]; set_solver | done] |].
    by rewrite app_assoc.
  - intros t Ht. apply (runs_fuel _ k); [rewrite length_app, length_replicate; lia|]. intros Hk.
    eapply runs_conseq; [|by apply back_loop_runs]. intros c' ->. by rewrite sl_back, Ht.
Qed.

(** What [parseline] does after the part before a semicolon. *)
Lemma parseline_unfold n s : parseline buf (S n) s = (c ← pipe_back n; b ← peek buf [59];
  if (b : bool) then gettoken buf;; r ← parseline buf n; mret (LIST c r) else mret c) s.
Proof. unfold pipe_back. by rewrite bind_assoc. Qed.

Lemma P0_of_P1 c : pr 0 c = pr 1 c → P1 c → P0 c.
Proof.
  intros Epr Hc rest Hrest Hfol [|n] Hn; [lia|]. rewrite Epr in *. intros s Hs. rewrite parseline_unfold. revert s Hs.
  change (runs (c ← pipe_back n; b ← peek buf [59]; if (b : bool) then gettoken buf;; r ← parseline buf n; mret (LIST c r) else mret c)
    (pr 1 c) rest (λ t, sl t = c)). rewrite <- (app_nil_r (pr 1 c)). eapply runs_bind.
  - rewrite <- (app_nil_r (pr 1 c)). apply (Hc 0%nat rest); [done | eapply follow_sub; [|done]; set_solver |].
    cbn [replicate]. rewrite app_nil_r. lia.
  - intros t Ht. apply runs_peek; [done|]. rewrite (follow_not [41]) by done. by apply runs_ret.
Qed.

(** A block. *)
Lemma P3_of_P0 c : cmd_ok c → pr 3 c = [40] :: pr 0 c ++ [[41]] → P0 c → P3 c.
Proof.
  intros Hok Epr Hc rs rest Hrs Hrest Hfol [|[|n]] Hn; [lia | lia |]. rewrite Epr in *.
  pose proof (pr_ok c 0 Hok) as H0. pose proof (rtoks_ok rs Hrs) as Hr.
  assert (tok_ok [40] ∧ tok_ok [41]) as [Hl Hrp] by (split; right; by eexists).
  assert (([40] :: pr 0 c ++ [[41]]) ++ rtoks rs = [40] :: pr 0 c ++ [41] :: rtoks rs) as E by (simpl; by rewrite <- app_assoc).
  rewrite E in *. clear E.
  assert (Forall tok_ok (([40] :: pr 0 c ++ [41] :: rtoks rs) ++ rest)) as Hall.
  { apply Forall_app. split; [|done]. apply Forall_cons. split; [done|]. apply Forall_app. split; [done | by apply Forall_cons]. }
  cbn [parseexec]. apply runs_peek; [done|]. cbn [app hd]. change (strchr [40] 40) with true. cbv iota.
  cbn [parseblock]. apply runs_peek; [done|]. cbn [app hd]. change (strchr [40] 40) with true. cbn [negb].
  apply Forall_cons in Hall as [_ Hall]. apply runs_gettoken; [done | done|]. intros q0 eq0 _.
  eapply runs_bind.
  - apply Hc; [by apply Forall_app; split; [apply Forall_cons|] | done |].
    flat_lia.
  - intros t Ht. apply runs_peek; [by apply Forall_app; split; [apply Forall_cons|]|]. cbn [app hd]. change (strchr [41] 41) with true. cbn [negb].
    apply runs_gettoken; [done | by apply Forall_app|]. intros q1 eq1 _. rewrite <- (app_nil_r (rtoks rs)).
    eapply runs_bind; [apply parse_redirs_runs; [done | done | by apply follow_no_redir]|].
    intros rs' Hrs'. apply runs_ret. by rewrite sl_redirect, Ht, Hrs'.
Qed.

Lemma P3_exec argv : cmd_ok (EXEC argv) → P3 (EXEC argv).
Proof.
  intros [Hw Hlen] rs rest Hrs Hrest Hfol [|n] Hn; [lia|]. cbn [pr parseexec]. pose proof (rtoks_ok rs Hrs) as Hr.
  apply runs_peek; [apply Forall_app; split; [apply Forall_app; split; [by apply words_ok|]|]; done|].
  replace (match (argv ++ rtoks rs) ++ rest with [] => false | t :: _ => strchr [40] (hd 0 t) end) with false.
  2: { destruct argv as [|w argv]; cbn [app].
       - destruct rs as [|r rs]; [symmetry; by apply (follow_not [124; 41; 38; 59])|].
         change (rtoks (r :: rs)) with ([if r.2 =? 0 then 60 else 62] :: r.1.1 :: rtoks rs). cbn [app hd]. by destruct (r.2 =? 0).
       - apply Forall_cons in Hw as [Hw _]. symmetry. apply (word_no_symbol [40]); [set_solver | done]. }
  (* The first redirections come before any word. *)
  assert (∀ rs1 rs2, Forall redir_ok rs1 → Forall redir_ok rs2 → (argv = [] → rs2 = []) → no_redir (argv ++ rtoks rs2 ++ rest) →
    runs (rs ← parse_redirs buf; r ← exec_loop buf (S (length buf)) 0; mret (redirect (EXEC r.1) (rs ++ r.2)))
      (rtoks rs1 ++ (argv ++ rtoks rs2)) rest (λ t, sl t = redirect (EXEC argv) (rs1 ++ rs2))) as Hgo.
  { intros rs1 rs2 H1 H2 Hnil Hno. eapply runs_bind.
    - apply parse_redirs_runs; [done | | by rewrite <- app_assoc].
      apply Forall_app. split; [apply Forall_app; split; [by apply words_ok | by apply rtoks_ok] | done].
    - intros rs' Hrs'. rewrite <- (app_nil_r (argv ++ rtoks rs2)). eapply runs_bind.
      + apply (runs_fuel _ (length argv)); [rewrite !length_app; lia|]. intros Hf. by apply exec_loop_runs.
      + intros r [Hr1 Hr2]. apply runs_ret. rewrite sl_redirect, fmap_app, Hrs', Hr2. cbn [cmd_map]. by rewrite Hr1. }
  destruct argv as [|w argv].
  - specialize (Hgo rs [] Hrs ltac:(done) ltac:(done)). cbn [app] in *. rewrite !app_nil_r in Hgo. apply Hgo. by apply follow_no_redir.
  - apply (Hgo [] rs); [done | done | done |]. apply Forall_cons in Hw as [Hw _]. apply (word_no_symbol [60; 62] w); [set_solver | done].
Qed.

Lemma P3_redir c w mode fd : redir_ok (w, mode, fd) → P3 c → P3 (REDIR c w mode fd).
Proof.
  intros Hr Hc rs rest Hrs Hrest Hfol. cbn [pr]. rewrite <- app_assoc.
  apply (Hc ((w, mode, fd) :: rs) rest); [by apply Forall_cons | done | done].
Qed.

Lemma P2_pipe l r : cmd_ok r → P3 l → P2 r → P2 (PIPE l r).
Proof.
  intros Hrok Hl Hr rest Hrest Hfol [|n] Hn; [lia|]. cbn [pr paren Nat.ltb Nat.leb] in *. cbn [parsepipe].
  assert (tok_ok [124]) as Hbar by (right; by exists 124). pose proof (pr_ok r 2 Hrok) as Hrt.
  assert (Forall tok_ok (([124] :: pr 2 r) ++ rest)) as Hall by (apply Forall_app; split; [by apply Forall_cons | done]).
  eapply runs_bind.
  - rewrite <- (app_nil_r (pr 3 l)). apply (Hl [] (([124] :: pr 2 r) ++ rest)); [done | done | done |].
    change (rtoks []) with (@nil token). rewrite app_nil_r, app_assoc. lia.
  - intros t Ht. apply runs_peek; [done|]. cbn [app hd]. change (strchr [124] 124) with true. cbv iota.
    apply runs_gettoken; [done | by apply Forall_app|]. intros q eq _. rewrite <- (app_nil_r (pr 2 r)). eapply runs_bind.
    + apply Hr; [done | done |]. flat_lia.
    + intros t' Ht'. apply runs_ret. simpl. by rewrite Ht, Ht'.
Qed.

Lemma P0_list l r : cmd_ok r → P1 l → P0 r → P0 (LIST l r).
Proof.
  intros Hrok Hl Hr rest Hrest Hfol [|n] Hn; [lia|]. cbn [pr paren Nat.ltb Nat.leb] in *.
  assert (tok_ok [59]) as Hsemi by (right; by exists 59). pose proof (pr_ok r 0 Hrok) as Hrt.
  assert (Forall tok_ok (([59] :: pr 0 r) ++ rest)) as Hall by (apply Forall_app; split; [by apply Forall_cons | done]).
  intros s Hs. rewrite parseline_unfold. revert s Hs.
  change (runs (c ← pipe_back n; b ← peek buf [59]; if (b : bool) then gettoken buf;; r ← parseline buf n; mret (LIST c r) else mret c)
    (pr 1 l ++ [59] :: pr 0 r) rest (λ t, sl t = LIST l r)). eapply runs_bind.
  - rewrite <- (app_nil_r (pr 1 l)). apply (Hl 0%nat (([59] :: pr 0 r) ++ rest)); [done | done |].
    cbn [replicate]. rewrite app_nil_r, app_assoc. lia.
  - intros t Ht. apply runs_peek; [done|]. cbn [app hd]. change (strchr [59] 59) with true. cbv iota.
    apply runs_gettoken; [done | by apply Forall_app|]. intros q eq _. rewrite <- (app_nil_r (pr 0 r)). eapply runs_bind.
    + apply Hr; [done | done |]. flat_lia.
    + intros t' Ht'. apply runs_ret. cbn [cmd_map]. by rewrite Ht, Ht'.
Qed.

Lemma P1_back c : P1 c → P1 (BACK c).
Proof.
  intros Hc k rest Hrest Hfol n Hn. cbn [pr paren Nat.ltb Nat.leb] in *.
  assert ((pr 1 c ++ [[38]]) ++ replicate k [38] = pr 1 c ++ replicate (S k) [38]) as E by (by rewrite <- app_assoc). rewrite E in *.
  eapply runs_conseq; [|apply (Hc (S k) rest); [done | done | exact Hn]]. intros t Ht. by rewrite Ht, Nat.iter_swap.
Qed.

Lemma all_levels c : cmd_ok c → P3 c ∧ P2 c ∧ P1 c ∧ P0 c.
Proof.
  assert (∀ c, pr 2 c = pr 3 c → pr 1 c = pr 2 c → pr 0 c = pr 1 c → P3 c → P3 c ∧ P2 c ∧ P1 c ∧ P0 c) as Hup.
  { intros c' E2 E1 E0 H3. pose proof (P2_of_P3 c' E2 H3) as H2. pose proof (P1_of_P2 c' E1 H2) as H1. pose proof (P0_of_P1 c' E0 H1). by split_and!. }
  induction c as [argv|c IH w mode fd|l IHl r IHr|l IHl r IHr|c IH]; intros Hok; pose proof Hok as Hok'; cbn [cmd_ok] in Hok'.
  - apply Hup; try done. by apply P3_exec.
  - destruct Hok' as [Hc Hr]. apply Hup; try done. apply P3_redir; [done | by apply IH].
  - destruct Hok' as [Hl Hr]. assert (P2 (PIPE l r)) as H2 by (apply P2_pipe; [done | by apply IHl | by apply IHr]).
    pose proof (P1_of_P2 (PIPE l r) eq_refl H2) as H1. pose proof (P0_of_P1 (PIPE l r) eq_refl H1) as H0. split_and!; try done. by apply P3_of_P0.
  - destruct Hok' as [Hl Hr]. assert (P0 (LIST l r)) as H0 by (apply P0_list; [done | by apply IHl | by apply IHr]).
    assert (P3 (LIST l r)) as H3 by (by apply P3_of_P0). pose proof (P2_of_P3 (LIST l r) eq_refl H3) as H2.
    pose proof (P1_of_P2 (LIST l r) eq_refl H2). by split_and!.
  - assert (P1 (BACK c)) as H1 by (by apply P1_back, IH). pose proof (P0_of_P1 (BACK c) eq_refl H1) as H0.
    assert (P3 (BACK c)) as H3 by (by apply P3_of_P0). pose proof (P2_of_P3 (BACK c) eq_refl H3). by split_and!.
Qed.
End line.

(** C35: printing and parsing. For every command tree that can be written,
    [parsecmd] applied to the printed line returns a tree of the same shape;
    the C strings at its words in the line it leaves behind are the words of
    the command, in order. *)
Theorem parsecmd_print c : cmd_ok c →
  ∃ t buf', parsecmd (print c) = Ok (t, buf') (length (print c)) ∧ cmd_map (λ w, string_at buf' w.1) t = c.
Proof.
  intros Hok. pose proof (pr_ok c 0 Hok) as Ht. set (buf := print c). assert (pos buf (pr 0 c ++ []) 0) as Hs by (rewrite app_nil_r; done).
  pose proof (flat_nonzero _ Ht : Forall (λ x, x ≠ 0) buf) as Hnz.
  destruct (all_levels buf c Hok) as (_ & _ & _ & H0).
  destruct (H0 [] ltac:(done) ltac:(done) (parse_fuel buf) ltac:(rewrite app_nil_r; done) 0%nat Hs) as (t & s & E & Hend & Hsl).
  exists t, (nulterminate t buf). pose proof (parsecmd_post buf Hnz) as Hpost.
  assert (parsecmd buf = Ok (t, nulterminate t buf) (length buf)) as Ep.
  { unfold parsecmd in *. rewrite (bind_ok _ _ _ _ _ E) in *. rewrite (bind_ok _ _ _ _ _ (peek_at buf [] [] s Hend ltac:(constructor))) in *.
    rewrite bind_get in *. destruct (Nat.eqb_spec s (length buf)) as [->|Hne]; [done|]. exfalso.
    pose proof (proj1 (parse_post buf Hnz (parse_fuel buf)) 0%nat ltac:(lia) ltac:(unfold parse_fuel; lia)) as Hp. rewrite E in Hp.
    destruct Hp as [Hb _]. unfold pos in Hend. apply (f_equal length) in Hend. rewrite length_drop in Hend. simpl in Hend. lia. }
  split; [exact Ep|]. rewrite Ep in Hpost. destruct Hpost as (_ & Hw & _). rewrite <- Hsl. apply cmd_map_ext. intros w Hin.
  by apply tree_strings.
Qed.

(** [( ls | wc -l > o ) & ; a] *)
Definition cmd_example : cmd token :=
  LIST (BACK (PIPE (EXEC [[108; 115]]) (REDIR (EXEC [[119; 99]; [45; 108]]) [111] 513 1))) (EXEC [[97]]).

Lemma parsecmd_print_witness :
  ∃ t buf', parsecmd (print cmd_example) = Ok (t, buf') (length (print cmd_example)) ∧
    cmd_map (λ w, string_at buf' w.1) t = cmd_example.
Proof.
  apply (parsecmd_print cmd_example). cbn [cmd_ok cmd_example]. unfold redir_ok, is_word, MAXARGS.
  repeat split; try done; try (repeat constructor; done); simpl; lia.
Defined.
