(* ===== verification/Grep.v ===== *)
(** * Searching for patterns (grep.c)

    The matcher for [^ . * $] and the loop that reads lines into a buffer.
    The matcher is compared with the languages that patterns denote, the loop
    with the lines of its input. A C string is the list of its characters. *)
From S2P Require Import Prelude.

(** ** The matcher *)

(** The loop of [matchstar]; [mh] is [matchhere] on the rest of the
    pattern. *)
Fixpoint matchstar (mh : list Z → bool) (c : Z) (text : list Z) : bool :=
  if mh text then true
  else match text with
       | [] => false
       | t :: text' => if (t =? c) || (c =? 46) then matchstar mh c text' else false
       end.

Fixpoint matchhere (re text : list Z) : bool :=
  match re with
  | [] => true
  | c :: re1 =>
      match re1 with
      | d :: re2 =>
          if d =? 42 then matchstar (matchhere re2) c text
          else match text with
               | t :: text' => if (c =? 46) || (c =? t) then matchhere re1 text' else false
               | [] => false
               end
      | [] =>
          if c =? 36 then match text with [] => true | _ => false end
          else match text with
               | t :: text' => if (c =? 46) || (c =? t) then matchhere re1 text' else false
               | [] => false
               end
      end
  end.

(** The loop of [match] over the suffixes of [text]. *)
Fixpoint match_loop (re text : list Z) : bool :=
  if matchhere re text then true
  else match text with
       | [] => false
       | _ :: text' => match_loop re text'
       end.

Definition match_ (re text : list Z) : bool :=
  match re with
  | 94 :: re' => matchhere re' text
  | _ => match_loop re text
  end.

(** ** The loop over the input *)

(** [strchr] for a newline: the offset of the first newline of the string. *)
Fixpoint find_nl (p : list Z) : option nat :=
  match p with
  | [] => None
  | c :: p' => if c =? 0 then None else if c =? 10 then Some O else S <$> find_nl p'
  end.

(** The lines of the buffer from [p] on: what is written, and what is left. *)
Fixpoint scan_lines (fuel : nat) (pattern p : list Z) : list Z * list Z :=
  match fuel with
  | O => ([], p)
  | S fuel' =>
      match find_nl p with
      | None => ([], p)
      | Some n =>
          let '(out, rest) := scan_lines fuel' pattern (drop (S n) p) in
          ((if match_ pattern (take n p) then take n p ++ [10] else []) ++ out, rest)
      end
  end.

(** One turn of the loop: the output and the bytes kept, from the bytes kept
    before and the ones read. *)
Definition grep_step (pattern kept chunk : list Z) : list Z * list Z :=
  let buf := kept ++ chunk in
  let '(out, rest) := scan_lines (S (length buf)) pattern buf in
  (out, if (length rest =? length buf)%nat then [] else rest).

(** [grep]: what it writes when [read] returns [chunks], one after the other,
    and then 0. *)
Fixpoint grep_loop (pattern kept : list Z) (chunks : list (list Z)) : list Z :=
  match chunks with
  | [] => []
  | chunk :: chunks' =>
      let '(out, kept') := grep_step pattern kept chunk in
      out ++ grep_loop pattern kept' chunks'
  end.

Definition grep (pattern : list Z) (chunks : list (list Z)) : list Z := grep_loop pattern [] chunks.

(** ** What patterns denote *)

Inductive item := Char (c : Z) | Star (c : Z).

(** The items of a pattern without [^], and whether it ends in [$]. *)
Fixpoint items (re : list Z) : list item :=
  match re with
  | [] => []
  | c :: re1 =>
      match re1 with
      | d :: re2 => if d =? 42 then Star c :: items re2 else Char c :: items re1
      | [] => if c =? 36 then [] else [Char c]
      end
  end.

Fixpoint to_end (re : list Z) : bool :=
  match re with
  | [] => false
  | c :: re1 =>
      match re1 with
      | d :: re2 => if d =? 42 then to_end re2 else to_end re1
      | [] => c =? 36
      end
  end.

Definition char_ok (c t : Z) : Prop := c = 46 ∨ c = t.

(** The strings of an item, and of a sequence of items. *)
Definition item_lang (i : item) (w : list Z) : Prop :=
  match i with
  | Char c => ∃ t, w = [t] ∧ char_ok c t
  | Star c => Forall (char_ok c) w
  end.

Fixpoint lang (its : list item) (w : list Z) : Prop :=
  match its with
  | [] => w = []
  | i :: its' => ∃ w1 w2, w = w1 ++ w2 ∧ item_lang i w1 ∧ lang its' w2
  end.

(** [re] matches a prefix of [text], all of it if [re] ends in [$]. *)
Definition denotes (re text : list Z) : Prop :=
  ∃ w rest, text = w ++ rest ∧ lang (items re) w ∧ (to_end re = true → rest = []).

Lemma char_okb c t : (c =? 46) || (c =? t) = true ↔ char_ok c t.
Proof. unfold char_ok. by rewrite orb_true_iff, !Z.eqb_eq. Qed.

Lemma matchstar_spec mh c text :
  matchstar mh c text = true ↔ ∃ w rest, text = w ++ rest ∧ Forall (char_ok c) w ∧ mh rest = true.
Proof.
  induction text as [|t text IH]; cbn [matchstar].
  - destruct (mh []) eqn:E; split; try done.
    + intros _. by exists [], [].
    + intros (w & rest & Ht & _ & Hm). symmetry in Ht. apply app_nil in Ht as [-> ->]. by rewrite E in Hm.
  - destruct (mh (t :: text)) eqn:E.
    { split; [|done]. intros _. by exists [], (t :: text). }
    rewrite orb_comm, (Z.eqb_sym t). destruct ((c =? 46) || (c =? t)) eqn:Ec.
    + apply char_okb in Ec. rewrite IH. split.
      * intros (w & rest & -> & Hw & Hm). exists (t :: w), rest. split; [done|]. split; [by apply Forall_cons | done].
      * intros ([|x w] & rest & Ht & Hw & Hm); simpl in Ht; [subst rest; by rewrite E in Hm|]. injection Ht as -> ->.
        apply Forall_cons in Hw as [_ Hw]. eauto.
    + split; [done|]. intros ([|x w] & rest & Ht & Hw & Hm); simpl in Ht; [subst rest; by rewrite E in Hm|]. injection Ht as -> ->.
      apply Forall_cons in Hw as [Hx _]. apply char_okb in Hx. by rewrite Hx in Ec.
Qed.

(** A pattern is empty, starts with a starred character, is the final [$], or
    starts with a plain character. *)
Lemma pattern_ind (P : list Z → Prop) :
  P [] → (∀ c re, P re → P (c :: 42 :: re)) → P [36] →
  (∀ c re, P re → (c ≠ 36 ∨ re ≠ []) → (∀ re2, re ≠ 42 :: re2) → P (c :: re)) → ∀ re, P re.
Proof.
  intros Hnil Hstar Hend Hchar. assert (∀ n re, (length re ≤ n)%nat → P re) as Hall; [|eauto].
  induction n as [|n IH]; intros [|c [|d re]] Hn; simpl in Hn; try lia; try done.
  - destruct (decide (c = 36)) as [->|]; [done|]. apply Hchar; [done | by left | done].
  - destruct (decide (d = 42)) as [->|Hd].
    + apply Hstar, IH. lia.
    + apply Hchar; [apply IH; simpl; lia | by right |]. intros re2 [= ? ?]. done.
Qed.

(** What the functions do on a plain character. *)
Lemma plain_char c re text :
  (c ≠ 36 ∨ re ≠ []) → (∀ re2, re ≠ 42 :: re2) →
  matchhere (c :: re) text = match text with [] => false | t :: text' => if (c =? 46) || (c =? t) then matchhere re text' else false end ∧
  items (c :: re) = Char c :: items re ∧ to_end (c :: re) = to_end re.
Proof.
  intros Hc Hre. destruct re as [|d re2]; cbn [matchhere items to_end].
  - destruct (Z.eqb_spec c 36); [by destruct Hc|]. done.
  - destruct (Z.eqb_spec d 42) as [->|]; [by destruct (Hre re2)|]. done.
Qed.

Lemma matchhere_denotes re : ∀ text, matchhere re text = true ↔ denotes re text.
Proof.
  induction re as [|c re IH| |c re IH Hc Hre] using pattern_ind; intros text.
  - split; [|done]. intros _. by exists [], text.
  - change (matchhere (c :: 42 :: re) text) with (matchstar (matchhere re) c text). rewrite matchstar_spec. unfold denotes.
    change (items (c :: 42 :: re)) with (Star c :: items re). change (to_end (c :: 42 :: re)) with (to_end re). split.
    + intros (w1 & rest & -> & Hw & (w2 & rest' & -> & Hl & He)%IH). exists (w1 ++ w2), rest'. rewrite app_assoc. split; [done|].
      split; [by exists w1, w2 | done].
    + intros (w & rest & -> & (w1 & w2 & -> & Hw & Hl) & He). exists w1, (w2 ++ rest). rewrite app_assoc. split; [done|]. split; [done|].
      apply IH. by exists w2, rest.
  - unfold denotes. simpl. destruct text as [|t text]; split; try done.
    + intros _. by exists [], [].
    + intros (w & rest & E & -> & He). by rewrite He in E.
  - destruct (plain_char c re text Hc Hre) as (-> & Ei & Et). unfold denotes. rewrite Ei, Et. destruct text as [|t text].
    + split; [done|]. intros (w & rest & E & (w1 & w2 & -> & (t & -> & _) & _) & _). done.
    + destruct ((c =? 46) || (c =? t)) eqn:Ec.
      * apply char_okb in Ec. rewrite IH. split.
        -- intros (w & rest & -> & Hl & He). exists (t :: w), rest. split; [done|]. split; [|done]. exists [t], w. split; [done|]. split; [|done]. by exists t.
        -- intros (w & rest & E & (w1 & w2 & -> & (t' & -> & _) & Hl) & He). injection E as -> ->. by exists w2, rest.
      * split; [done|]. intros (w & rest & E & (w1 & w2 & -> & (t' & -> & Ht) & Hl) & He). injection E as -> ->.
        apply char_okb in Ht. by rewrite Ht in Ec.
Qed.

(** C38: the matcher finds what patterns denote. A pattern is a sequence of
    characters, the dot standing for any, each possibly starred; [match]
    returns 1 exactly when some part of the text is in the language of this
    sequence, the part starting at the beginning of the text if the pattern
    starts with [^] and ending at its end if the pattern ends in [$]. *)
Theorem match_correct re text :
  match_ re text = true ↔
  match re with
  | 94 :: re' => denotes re' text
  | _ => ∃ before after, text = before ++ after ∧ denotes re after
  end.
Proof.
  assert (∀ text, match_loop re text = true ↔ ∃ before after, text = before ++ after ∧ denotes re after) as Hloop.
  { clear text. induction text as [|t text IH]; cbn [match_loop].
    - destruct (matchhere re []) eqn:E; split; try done.
      + intros _. exists [], []. split; [done|]. by apply matchhere_denotes.
      + intros (b & a & Hba & Hd). symmetry in Hba. apply app_nil in Hba as [-> ->]. apply matchhere_denotes in Hd. by rewrite E in Hd.
    - destruct (matchhere re (t :: text)) eqn:E.
      + split; [|done]. intros _. exists [], (t :: text). split; [done|]. by apply matchhere_denotes.
      + rewrite IH. split.
        * intros (b & a & -> & Hd). by exists (t :: b), a.
        * intros ([|x b] & a & Hba & Hd); simpl in Hba; [subst a; apply matchhere_denotes in Hd; by rewrite E in Hd|].
          injection Hba as -> ->. by exists b, a. }
  unfold match_. repeat case_match; try apply Hloop. apply matchhere_denotes.
Qed.

(** ** What the loop writes *)

(** The complete lines of a text, and what follows the last newline. *)
Fixpoint lines_from (acc p : list Z) : list (list Z) * list Z :=
  match p with
  | [] => ([], rev acc)
  | c :: p' =>
      if c =? 10 then (rev acc :: (lines_from [] p').1, (lines_from [] p').2)
      else lines_from (c :: acc) p'
  end.
Definition lines (p : list Z) : list (list Z) * list Z := lines_from [] p.

Definition render (pattern : list Z) (ls : list (list Z)) : list Z :=
  concat ((λ l, if match_ pattern l then l ++ [10] else []) <$> ls).

Lemma find_nl_none p : Forall (λ c, c ≠ 0) p → find_nl p = None → ∀ acc, lines_from acc p = ([], rev acc ++ p).
Proof.
  induction p as [|c p IH]; intros Hp Hn acc; [by rewrite app_nil_r|]. apply Forall_cons in Hp as [Hc Hp]. simpl in *.
  rewrite (proj2 (Z.eqb_neq c 0)) in Hn by done. destruct (c =? 10); [done|]. destruct (find_nl p); [done|].
  rewrite IH by done. simpl. by rewrite <- app_assoc.
Qed.

Lemma find_nl_some p n : find_nl p = Some n → (n < length p)%nat ∧ ∀ acc,
  lines_from acc p = ((rev acc ++ take n p) :: (lines (drop (S n) p)).1, (lines (drop (S n) p)).2).
Proof.
  revert n. induction p as [|c p IH]; intros n; simpl; [done|]. destruct (c =? 0); [done|]. destruct (c =? 10).
  - intros [= <-]. split; [lia|]. intros acc. simpl. by rewrite app_nil_r, drop_0.
  - destruct (find_nl p) as [k|]; [|done]. intros [= <-]. destruct (IH k eq_refl) as [Hk Hl]. split; [lia|].
    intros acc. rewrite Hl. simpl. by rewrite <- app_assoc.
Qed.

Lemma scan_lines_spec pattern fuel : ∀ p, Forall (λ c, c ≠ 0) p → (length p < fuel)%nat →
  scan_lines fuel pattern p = (render pattern (lines p).1, (lines p).2).
Proof.
  induction fuel as [|fuel IH]; intros p Hp Hf; [lia|]. cbn [scan_lines]. unfold lines. destruct (find_nl p) as [n|] eqn:E.
  - destruct (find_nl_some p n E) as [Hn Hl]. rewrite Hl, IH; [done | by apply Forall_drop | rewrite length_drop; lia].
  - by rewrite (find_nl_none p Hp E []).
Qed.

Lemma lines_tail (P : Z → Prop) p : ∀ acc, Forall P acc → (∀ c, c ∈ p → c ≠ 10 → P c) → Forall P (lines_from acc p).2.
Proof.
  induction p as [|c p IH]; intros acc Ha Hp; simpl; [by apply Forall_rev|].
  destruct (Z.eqb_spec c 10); apply IH; try (intros; apply Hp; [by right | done]); [done|]. apply Forall_cons. split; [apply Hp; [left | done] | done].
Qed.

Lemma lines_plain w : ∀ acc q, Forall (λ c, c ≠ 10) w → lines_from acc (w ++ q) = lines_from (rev w ++ acc) q.
Proof.
  induction w as [|c w IH]; intros acc q Hw; [done|]. apply Forall_cons in Hw as [Hc Hw]. simpl.
  rewrite (proj2 (Z.eqb_neq c 10)) by done. rewrite IH by done. by rewrite <- app_assoc.
Qed.

Lemma lines_app p q : ∀ acc, Forall (λ c, c ≠ 10) acc →
  lines_from acc (p ++ q) = ((lines_from acc p).1 ++ (lines ((lines_from acc p).2 ++ q)).1, (lines ((lines_from acc p).2 ++ q)).2).
Proof.
  induction p as [|c p IH]; intros acc Ha; simpl.
  - unfold lines. rewrite (lines_plain (rev acc)) by (by apply Forall_rev). rewrite rev_involutive, app_nil_r. by destruct (lines_from acc q).
  - destruct (Z.eqb_spec c 10); [by rewrite IH|]. apply IH. by apply Forall_cons.
Qed.

Lemma lines_shorter p : ∀ acc, 10 ∈ p → (length (lines_from acc p).2 < length acc + length p)%nat.
Proof.
  assert (∀ p acc, (length (lines_from acc p).2 ≤ length acc + length p)%nat) as Hle.
  { clear p. induction p as [|c p IH]; intros acc; simpl; [rewrite length_rev; lia|]. destruct (c =? 10); simpl; [|specialize (IH (c :: acc)); simpl in IH; lia].
    specialize (IH []). simpl in IH. lia. }
  induction p as [|c p IH]; intros acc Hin; [by apply elem_of_nil in Hin|]. simpl. destruct (Z.eqb_spec c 10) as [->|Hne]; simpl.
  - specialize (Hle p []). simpl in Hle. lia.
  - apply elem_of_cons in Hin as [?|Hin]; [done|]. specialize (IH (c :: acc) Hin). simpl in IH. lia.
Qed.

(** What [grep] writes. When no byte read is zero and every [read]
    brings a newline, it writes the complete lines of its input that match
    the pattern, in order, however the input is cut into reads. *)
Theorem grep_correct pattern chunks :
  Forall (Forall (λ c, c ≠ 0)) chunks → Forall (λ chunk, 10 ∈ chunk) chunks →
  grep pattern chunks = render pattern (lines (concat chunks)).1.
Proof.
  intros Hz Hnl. unfold grep. assert (∀ kept, Forall (λ c, c ≠ 10) kept → Forall (λ c, c ≠ 0) kept →
    grep_loop pattern kept chunks = render pattern (lines (kept ++ concat chunks)).1) as Hall; [|by apply Hall].
  induction chunks as [|c cs IH]; intros kept Hk Hkz; cbn [grep_loop concat].
  { unfold lines. by rewrite lines_plain by done. }
  apply Forall_cons in Hz as [Hcz Hz], Hnl as [Hc Hnl]. unfold grep_step.
  rewrite scan_lines_spec by (lia || by apply Forall_app).
  rewrite (proj2 (Nat.eqb_neq _ _)) by (pose proof (lines_shorter (kept ++ c) [] ltac:(set_solver)); unfold lines; simpl in *; lia).
  cbv beta iota zeta. rewrite IH; [| done | done | |].
  - rewrite app_assoc. change (lines ((kept ++ c) ++ concat cs)) with (lines_from [] ((kept ++ c) ++ concat cs)).
    rewrite (lines_app (kept ++ c)) by done. unfold render. cbn [fst]. by rewrite fmap_app, concat_app.
  - apply lines_tail; [done|]. by intros.
  - apply lines_tail; [done|]. intros x Hx _. assert (Forall (λ c, c ≠ 0) (kept ++ c)) as Hall by (by apply Forall_app).
    rewrite Forall_forall in Hall. by apply Hall.
Qed.

Lemma grep_correct_witness : grep [97; 36] [[98; 97; 10; 99]; [97; 10; 97; 98; 10]] = [98; 97; 10; 99; 97; 10].
Proof.
  rewrite (grep_correct [97; 36] [[98; 97; 10; 99]; [97; 10; 97; 98; 10]]); [by vm_compute | by repeat constructor |].
  repeat constructor; set_solver.
Defined.

(** The proviso is needed: the bytes of a read without a newline are lost. *)
Lemma grep_loses_short_read :
  grep [97] [[97]; [98; 10]] = [] ∧ grep [97] [[97; 98; 10]] = [97; 98; 10].
Proof. by vm_compute. Qed.
