(* ===== verification/UString.v ===== *)
(** * The string routines of the user library (ulib.c)

    Over the byte memory of [Machine], like the kernel's in [CString]. They
    differ from the kernel's: [memmove] only copies upwards, and [memset] has
    no word stores. A routine that scans for a NUL takes fuel; the theorems
    say how much is enough. *)
From S2P Require Import Prelude Machine CString Print.

(** [while(( *s++ = *t++) != 0)]; the memory it leaves. *)
Fixpoint strcpy (fuel : nat) (m : mem) (s t : Z) : option mem :=
  match fuel with
  | O => None
  | S fuel' =>
      let m' := store8 m s (m t) in
      if m' s =? 0 then Some m' else strcpy fuel' m' (s + 1) (t + 1)
  end.

Fixpoint strcmp (fuel : nat) (m : mem) (p q : Z) : option Z :=
  match fuel with
  | O => None
  | S fuel' =>
      if truthy (m p) && (m p =? m q) then strcmp fuel' m (p + 1) (q + 1)
      else Some (u8 (m p) - u8 (m q))
  end.

(** [for(n = 0; s[n]; n++)] *)
Fixpoint strlen_loop (fuel : nat) (m : mem) (s n : Z) : option Z :=
  match fuel with
  | O => None
  | S fuel' => if m (s + n) =? 0 then Some n else strlen_loop fuel' m s (n + 1)
  end.

Definition strlen (fuel : nat) (m : mem) (s : Z) : option Z := strlen_loop fuel m s 0.

Definition memset (m : mem) (dst c n : Z) : mem := stosb m dst c (Z.to_nat n).

(** The address found, or 0. *)
Fixpoint strchr (fuel : nat) (m : mem) (s c : Z) : option Z :=
  match fuel with
  | O => None
  | S fuel' =>
      if m s =? 0 then Some 0
      else if m s =? c then Some s
      else strchr fuel' m (s + 1) c
  end.

(** [while(n-- > 0) *dst++ = *src++] *)
Definition memmove (m : mem) (vdst vsrc n : Z) : mem := KString.copy_up m vdst vsrc (Z.to_nat n).

(** ** What they do *)

Lemma strlen_loop_ok m s : ∀ f fuel n, cstring m (s + n) f → (length f < fuel)%nat →
  strlen_loop fuel m s n = Some (n + Z.of_nat (length f)).
Proof.
  induction f as [|c f IH]; intros [|fuel] n Hs Hf; simpl in Hf; try lia; cbn [strlen_loop].
  - simpl in Hs. rewrite Hs. f_equal. simpl. lia.
  - destruct Hs as (Hc & Hz & Hs). rewrite Hc, (proj2 (Z.eqb_neq _ _)) by done.
    rewrite IH; [f_equal; simpl; lia | by rewrite Z.add_assoc | lia].
Qed.

Lemma strlen_ok m s f fuel : cstring m s f → (length f < fuel)%nat → strlen fuel m s = Some (Z.of_nat (length f)).
Proof. intros Hs Hf. unfold strlen. rewrite (strlen_loop_ok m s f) by (done || by rewrite Z.add_0_r). done. Qed.

(** The difference of the first characters that differ. *)
Fixpoint compare (f g : list Z) : Z :=
  match f, g with
  | [], [] => 0
  | [], d :: _ => 0 - d
  | c :: _, [] => c
  | c :: f', d :: g' => if c =? d then compare f' g' else c - d
  end.

Lemma strcmp_ok m : wf_mem m → ∀ f g p q fuel, cstring m p f → cstring m q g → (length f < fuel)%nat →
  strcmp fuel m p q = Some (compare f g).
Proof.
  intros Hwf. induction f as [|c f IH]; intros g p q [|fuel] Hp Hq Hf; simpl in Hf; try lia; cbn [strcmp].
  - simpl in Hp. rewrite Hp. cbn [truthy Z.eqb negb andb]. destruct g as [|d g]; simpl in Hq.
    + by rewrite Hq.
    + destruct Hq as (<- & _). simpl. f_equal. rewrite (u8_small (m q)) by apply Hwf. done.
  - destruct Hp as (Hc & Hz & Hp). unfold truthy. rewrite (proj2 (Z.eqb_neq _ _)) by congruence. cbn [negb andb].
    pose proof (Hwf p) as Hbp. pose proof (Hwf q) as Hbq. rewrite !u8_small by done. destruct g as [|d g]; simpl in Hq.
    + rewrite Hq, (proj2 (Z.eqb_neq _ _)) by congruence. rewrite Hc. simpl. f_equal. lia.
    + destruct Hq as (Hd & _ & Hq). rewrite Hc, Hd. simpl. destruct (Z.eqb_spec c d); [|done]. apply IH; done || lia.
Qed.

Lemma compare_zero f : ∀ g, Forall (λ c, c ≠ 0) f → Forall (λ c, c ≠ 0) g → compare f g = 0 ↔ f = g.
Proof.
  induction f as [|c f IH]; intros [|d g] Hf Hg; simpl; [done| | |].
  - apply Forall_cons in Hg as [Hd _]. split; [lia|done].
  - apply Forall_cons in Hf as [Hc _]. split; [lia|done].
  - apply Forall_cons in Hf as [Hc Hf], Hg as [Hd Hg]. destruct (Z.eqb_spec c d) as [->|].
    + rewrite IH by done. split; [by intros ->|by intros [= ->]].
    + split; [lia|by intros [= ? ?]].
Qed.

Lemma cstring_ext m m' : ∀ f a, (∀ x, a ≤ x ≤ a + Z.of_nat (length f) → m x = m' x) → cstring m a f → cstring m' a f.
Proof.
  induction f as [|c f IH]; intros a E Hs; simpl in *; [rewrite <- E by lia; done|].
  destruct Hs as (Hc & Hz & Hs). split_and!; [rewrite <- E by lia; done|done|]. apply IH; [|done]. intros x Hx. apply E. lia.
Qed.

(** The copy of a string that does not overlap the original. *)
Lemma strcpy_ok f : ∀ fuel m s t, wf_mem m → cstring m t f → (length f < fuel)%nat →
  s + Z.of_nat (length f) < t ∨ t + Z.of_nat (length f) < s →
  ∃ m', strcpy fuel m s t = Some m' ∧ cstring m' s f ∧
    ∀ x, x < s ∨ s + Z.of_nat (length f) < x → m' x = m x.
Proof.
  induction f as [|c f IH]; intros [|fuel] m s t Hwf Ht Hf Hd; simpl in Hf; try lia; cbn [strcpy];
    (assert (store8 m s (m t) s = m t) as Es by (by apply store8_load)); rewrite Es.
  - simpl in Ht. rewrite (proj2 (Z.eqb_eq _ _) Ht). exists (store8 m s (m t)). split; [done|]. split; [simpl; congruence|].
    intros x Hx. rewrite store8_ne; [done|]. simpl in Hx. lia.
  - destruct Ht as (Hc & Hz & Ht). rewrite (proj2 (Z.eqb_neq _ _)) by congruence. simpl in Hd.
    destruct (IH fuel (store8 m s (m t)) (s + 1) (t + 1)) as (m' & E & Hs & Hx); [by apply store8_wf| |lia|lia|].
    { eapply cstring_ext; [|exact Ht]. intros x Hx. rewrite store8_ne; [done|]. lia. }
    exists m'. split; [done|]. split.
    + simpl. split; [|split; [done|done]]. rewrite Hx by lia. congruence.
    + intros x Hx'. simpl in Hx'. rewrite Hx by lia. rewrite store8_ne; [done|lia].
Qed.

Lemma memmove_up m dst src n x : wf_mem m → 0 ≤ n → dst ≤ src ∨ src + n ≤ dst →
  memmove m dst src n x = moved m dst src n x.
Proof. intros Hwf Hn Hd. unfold memmove. rewrite copy_up_spec, Z2Nat.id by (rewrite ?Z2Nat.id by done; done || lia). done. Qed.

(** Copying to an overlapping place above repeats the first bytes, unlike the
    kernel's routine of this name. *)
Lemma memmove_overlap : let m := λ a, a in
  memmove m 1 0 3 3 = 0 ∧ KString.memmove m 1 0 3 3 = 2.
Proof. by vm_compute. Qed.
