(* ===== verification/User.v ===== *)
(** * User programs (ulib.c, cat.c, wc.c, grep.c, ls.c, init.c and others)

    A user program is a tree of system calls: [Vis c k] makes the call [c]
    and goes on as [k r] when the kernel answers [r]. A C string is the list
    of its characters, without the zero. A loop that need not end has fuel;
    [Spin] is a program whose fuel has run out. *)
From S2P Require Import Prelude Machine CString Proc SysFile Print Sh Grep.

(** ** Programs *)

(** [struct stat] *)
Record ustat := Ustat { st_type : Z; st_dev : Z; st_ino : Z; st_nlink : Z; st_size : Z }.

(** The system calls of user.h that these programs use, and what they return.
    A failing [read] is [None]; otherwise the bytes read are as many as the
    value returned. [pipe] and [fstat] return what they store, or [None] for
    a negative result. *)
Inductive call : Set → Type :=
| Fork : call Z
| Exit : call Empty_set
| Wait : call Z
| Pipe : call (option (Z * Z))
| Read (fd n : Z) : call (option (list Z))
| Kill (pid signum : Z) : call Z
| Exec (path : list Z) (argv : list (list Z)) : call Z
| Fstat (fd : Z) : call (option ustat)
| Chdir (path : list Z) : call Z
| Dup (fd : Z) : call Z
| Sleep (n : Z) : call Z
| Open (path : list Z) (mode : Z) : call Z
| Write (fd : Z) (bytes : list Z) : call Z
| Mknod (path : list Z) (major minor : Z) : call Z
| Unlink (path : list Z) : call Z
| Link (old new : list Z) : call Z
| Mkdir (path : list Z) : call Z
| Close (fd : Z) : call Z.

Inductive prog (A : Type) :=
| Ret (a : A)
| Vis {R : Set} (c : call R) (k : R → prog A)
| Spin.
Arguments Ret {A} _.
Arguments Vis {A R} _ _.
Arguments Spin {A}.

#[export] Instance prog_ret : MRet prog := λ A a, Ret a.

Fixpoint prog_then {A B} (f : A → prog B) (p : prog A) : prog B :=
  match p with
  | Ret a => f a
  | Vis c k => Vis c (λ r, prog_then f (k r))
  | Spin => Spin
  end.

#[export] Instance prog_bind : MBind prog := @prog_then.

Definition sys {R : Set} (c : call R) : prog R := Vis c Ret.

(** [exit] does not return. *)
Definition exit {A} : prog A := Vis Exit (λ e, match e with end).

(** ** Formatted output (printf.c) *)

Fixpoint cstr (s : string) : list Z :=
  match s with
  | EmptyString => []
  | String a s' => Z.of_N (Ascii.N_of_ascii a) :: cstr s'
  end.

(** An argument of [printf]. *)
Inductive parg := PInt (x : Z) | PStr (s : list Z).

Definition pint (a : parg) : Z := match a with PInt x => x | PStr _ => 0 end.
Definition pstr (a : parg) : list Z := match a with PInt _ => [] | PStr s => s end.

(** The text of a format. [state] is the variable of the source; the formats
    of the programs have as many conversions as arguments. *)
Fixpoint printf_text (fmt : list Z) (state : Z) (args : list parg) : list Z :=
  match fmt with
  | [] => []
  | c :: fmt' =>
      if state =? 0 then
        if c =? ch_pct then printf_text fmt' ch_pct args
        else c :: printf_text fmt' state args
      else if state =? ch_pct then
        let a := hd (PInt 0) args in
        if c =? ch_d then user_printint (pint a) 10 true ++ printf_text fmt' 0 (tl args)
        else if (c =? ch_x) || (c =? ch_p) then user_printint (pint a) 16 false ++ printf_text fmt' 0 (tl args)
        else if c =? ch_s then pstr a ++ printf_text fmt' 0 (tl args)
        else if c =? ch_c then u8 (pint a) :: printf_text fmt' 0 (tl args)
        else if c =? ch_pct then c :: printf_text fmt' 0 args
        else [ch_pct; c] ++ printf_text fmt' 0 args
      else printf_text fmt' state args
  end.

(** [putc] writes one character. *)
Definition putc (fd c : Z) : prog () := sys (Write fd [c]) ≫= λ _, Ret ().

Fixpoint puts (fd : Z) (text : list Z) : prog () :=
  match text with
  | [] => Ret ()
  | c :: text' => putc fd c ≫= λ _, puts fd text'
  end.

Definition printf (fd : Z) (fmt : list Z) (args : list parg) : prog () := puts fd (printf_text fmt 0 args).

Definition NL : list Z := [10].

(** ** The library (ulib.c) *)

(** The loop of [gets]: [n] characters fit before the last place. *)
Fixpoint gets_loop (n : nat) : prog (list Z) :=
  match n with
  | O => Ret []
  | S n' =>
      r ← sys (Read 0 1);
      match r with
      | Some (c :: _) =>
          if (c =? 10) || (c =? 13) then Ret [c] else s ← gets_loop n'; Ret (c :: s)
      | _ => Ret []
      end
  end.

Definition gets (max : Z) : prog (list Z) := gets_loop (Z.to_nat (max - 1)).

Definition stat (n : list Z) : prog (option ustat) :=
  fd ← sys (Open n O_RDONLY);
  if fd <? 0 then Ret None
  else r ← sys (Fstat fd); _ ← sys (Close fd); Ret r.

(** [atoi] of a string. *)
Fixpoint satoi (s : list Z) (n : Z) : Z :=
  match s with
  | c :: s' => if (48 <=? c) && (c <=? 57) then satoi s' (s32 (n * 10 + c - 48)) else n
  | [] => n
  end.

(** ** cat.c *)

Definition bytes_of (r : option (list Z)) : list Z := default [] r.

Fixpoint cat (fuel : nat) (fd : Z) : prog () :=
  match fuel with
  | O => Spin
  | S fuel' =>
      r ← sys (Read fd 512);
      match r with
      | None => _ ← printf 1 (cstr "cat: read error" ++ NL) []; exit
      | Some [] => Ret ()
      | Some buf =>
          n ← sys (Write 1 buf);
          if negb (n =? Z.of_nat (length buf)) then _ ← printf 1 (cstr "cat: write error" ++ NL) []; exit
          else cat fuel' fd
      end
  end.

(** The loop over the arguments of [cat] and [wc]: [open], work, [close]. *)
Fixpoint each_file (who : list Z) (work : Z → list Z → prog ()) (args : list (list Z)) : prog () :=
  match args with
  | [] => exit
  | a :: args' =>
      fd ← sys (Open a 0);
      if fd <? 0 then _ ← printf 1 (who ++ cstr ": cannot open %s" ++ NL) [PStr a]; exit
      else _ ← work fd a; _ ← sys (Close fd); each_file who work args'
  end.

(** [args] is [argv] from 1 on. *)
Definition cat_main (fuel : nat) (args : list (list Z)) : prog () :=
  match args with
  | [] => _ ← cat fuel 0; exit
  | _ => each_file (cstr "cat") (λ fd _, cat fuel fd) args
  end.

(** ** wc.c *)

(** [" \r\t\n\v"] *)
Definition wc_blanks : list Z := [32; 13; 9; 10; 11].

Record counts := Counts { lines_n : Z; words_n : Z; chars_n : Z; inword : bool }.

(** The body of the loop over the buffer. *)
Definition wc_char (s : counts) (c : Z) : counts :=
  let chars := s32 (chars_n s + 1) in
  let ls := if c =? 10 then s32 (lines_n s + 1) else lines_n s in
  if strchr wc_blanks c then Counts ls (words_n s) chars false
  else if negb (inword s) then Counts ls (s32 (words_n s + 1)) chars true
  else Counts ls (words_n s) chars true.

Fixpoint wc_loop (fuel : nat) (fd : Z) (name : list Z) (s : counts) : prog () :=
  match fuel with
  | O => Spin
  | S fuel' =>
      r ← sys (Read fd 512);
      match r with
      | None => _ ← printf 1 (cstr "wc: read error" ++ NL) []; exit
      | Some [] =>
          printf 1 (cstr "%d %d %d %s" ++ NL) [PInt (lines_n s); PInt (words_n s); PInt (chars_n s); PStr name]
      | Some buf => wc_loop fuel' fd name (fold_left wc_char buf s)
      end
  end.

Definition wc (fuel : nat) (fd : Z) (name : list Z) : prog () := wc_loop fuel fd name (Counts 0 0 0 false).

Definition wc_main (fuel : nat) (args : list (list Z)) : prog () :=
  match args with
  | [] => _ ← wc fuel 0 []; exit
  | _ => each_file (cstr "wc") (wc fuel) args
  end.

(** ** grep.c *)

(** The lines of the buffer from [p] on; what is left of it. *)
Fixpoint grep_lines (fuel : nat) (pattern p : list Z) : prog (list Z) :=
  match fuel with
  | O => Ret p
  | S fuel' =>
      match find_nl p with
      | None => Ret p
      | Some n =>
          if match_ pattern (take n p) then
            _ ← sys (Write 1 (take n p ++ [10])); grep_lines fuel' pattern (drop (S n) p)
          else grep_lines fuel' pattern (drop (S n) p)
      end
  end.

(** [kept] are the [m] bytes at the start of the buffer. *)
Fixpoint grep_read (fuel : nat) (pattern : list Z) (fd : Z) (kept : list Z) : prog () :=
  match fuel with
  | O => Spin
  | S fuel' =>
      r ← sys (Read fd (1024 - Z.of_nat (length kept) - 1));
      match r with
      | None | Some [] => Ret ()
      | Some chunk =>
          let buf := kept ++ chunk in
          rest ← grep_lines (S (length buf)) pattern buf;
          grep_read fuel' pattern fd (if (length rest =? length buf)%nat then [] else rest)
      end
  end.

Definition grep (fuel : nat) (pattern : list Z) (fd : Z) : prog () := grep_read fuel pattern fd [].

Definition grep_main (fuel : nat) (args : list (list Z)) : prog () :=
  match args with
  | [] => _ ← printf 2 (cstr "usage: grep pattern [file ...]" ++ NL) []; exit
  | [pattern] => _ ← grep fuel pattern 0; exit
  | pattern :: files => each_file (cstr "grep") (λ fd _, grep fuel pattern fd) files
  end.

(** ** ls.c *)

(** The loop back to the last slash; the offset of the character after it. *)
Fixpoint name_start (path : list Z) (k : nat) : nat :=
  if nth k path 0 =? 47 then S k
  else match k with O => O | S k' => name_start path k' end.

Definition fmtname (path : list Z) : list Z :=
  let p := drop (name_start path (length path)) path in
  if (14 <=? length p)%nat then p else p ++ replicate (14 - length p) 32.

Definition ls_line (name : list Z) (st : ustat) : prog () :=
  printf 1 (cstr "%s %d %d %d" ++ NL) [PStr (fmtname name); PInt (st_type st); PInt (st_ino st); PInt (st_size st)].

(** A string in an array of characters. *)
Definition to_nul (l : list Z) : list Z := take (span (λ c, negb (c =? 0)) l) l.

(** The loop over the directory; [prefix] is the path and the slash. *)
Fixpoint ls_entries (fuel : nat) (fd : Z) (prefix : list Z) : prog () :=
  match fuel with
  | O => Spin
  | S fuel' =>
      r ← sys (Read fd 16);
      match r with
      | None => Ret ()
      | Some de =>
          if negb (length de =? 16)%nat then Ret ()
          else if nth 0 de 0 + 256 * nth 1 de 0 =? 0 then ls_entries fuel' fd prefix
          else
            let buf := prefix ++ to_nul (drop 2 de) in
            st ← stat buf;
            _ ← match st with
                | None => printf 1 (cstr "ls: cannot stat %s" ++ NL) [PStr buf]
                | Some st => ls_line buf st
                end;
            ls_entries fuel' fd prefix
      end
  end.

Definition ls (fuel : nat) (path : list Z) : prog () :=
  fd ← sys (Open path 0);
  if fd <? 0 then printf 2 (cstr "ls: cannot open %s" ++ NL) [PStr path]
  else
    r ← sys (Fstat fd);
    match r with
    | None => _ ← printf 2 (cstr "ls: cannot stat %s" ++ NL) [PStr path]; _ ← sys (Close fd); Ret ()
    | Some st =>
        _ ← (if st_type st =? 2 then ls_line path st
             else if st_type st =? 1 then
               if (512 <? length path + 1 + 14 + 1)%nat then printf 1 (cstr "ls: path too long" ++ NL) []
               else ls_entries fuel fd (path ++ [47])
             else Ret ());
        _ ← sys (Close fd); Ret ()
    end.

Fixpoint ls_each (fuel : nat) (args : list (list Z)) : prog () :=
  match args with
  | [] => exit
  | a :: args' => _ ← ls fuel a; ls_each fuel args'
  end.

Definition ls_main (fuel : nat) (args : list (list Z)) : prog () :=
  match args with
  | [] => _ ← ls fuel (cstr "."); exit
  | _ => ls_each fuel args
  end.

(** ** echo.c, kill.c, ln.c, mkdir.c, rm.c, zombie.c *)

Fixpoint echo_main (args : list (list Z)) : prog () :=
  match args with
  | [] => exit
  | a :: args' =>
      _ ← printf 1 (cstr "%s%s") [PStr a; PStr (match args' with [] => NL | _ => [32] end)];
      echo_main args'
  end.

Fixpoint kill_each (args : list (list Z)) : prog () :=
  match args with
  | [] => exit
  | a :: args' => _ ← sys (Kill (satoi a 0) SIGKILL); kill_each args'
  end.

Definition kill_main (args : list (list Z)) : prog () :=
  match args with
  | [] => _ ← printf 2 (cstr "usage: kill pid..." ++ NL) []; exit
  | _ => kill_each args
  end.

Definition ln_main (args : list (list Z)) : prog () :=
  match args with
  | [old; new] =>
      r ← sys (Link old new);
      _ ← (if r <? 0 then printf 2 (cstr "link %s %s: failed" ++ NL) [PStr old; PStr new] else Ret ());
      exit
  | _ => _ ← printf 2 (cstr "Usage: ln old new" ++ NL) []; exit
  end.

(** The loop of [mkdir] and [rm], which stops at the first failure. *)
Fixpoint each_path (work : list Z → call Z) (complaint : list Z) (args : list (list Z)) : prog () :=
  match args with
  | [] => exit
  | a :: args' =>
      r ← sys (work a);
      if r <? 0 then _ ← printf 2 complaint [PStr a]; exit else each_path work complaint args'
  end.

Definition mkdir_main (args : list (list Z)) : prog () :=
  match args with
  | [] => _ ← printf 2 (cstr "Usage: mkdir files..." ++ NL) []; exit
  | _ => each_path Mkdir (cstr "mkdir: %s failed to create" ++ NL) args
  end.

Definition rm_main (args : list (list Z)) : prog () :=
  match args with
  | [] => _ ← printf 2 (cstr "Usage: rm files..." ++ NL) []; exit
  | _ => each_path Unlink (cstr "rm: %s failed to delete" ++ NL) args
  end.

Definition zombie_main : prog () :=
  pid ← sys Fork;
  _ ← (if 0 <? pid then _ ← sys (Sleep 5); Ret () else Ret ());
  exit.

(** ** initcode.S and init.c *)

(** [exec("/init", argv)], then [exit] for ever. *)
Definition initcode : prog () := _ ← sys (Exec (cstr "/init") [cstr "/init"]); exit.

(** [while((wpid=wait()) >= 0 && wpid != pid)] *)
Fixpoint init_wait (fuel : nat) (pid : Z) : prog () :=
  match fuel with
  | O => Spin
  | S fuel' =>
      wpid ← sys Wait;
      if (0 <=? wpid) && negb (wpid =? pid) then _ ← printf 1 (cstr "zombie!" ++ NL) []; init_wait fuel' pid
      else Ret ()
  end.

(** [fuel] bounds the shells that are started, [wfuel] the children reaped
    while one of them runs. *)
Fixpoint init_loop (fuel wfuel : nat) : prog () :=
  match fuel with
  | O => Spin
  | S fuel' =>
      _ ← printf 1 (cstr "init: starting sh" ++ NL) [];
      pid ← sys Fork;
      if pid <? 0 then _ ← printf 1 (cstr "init: fork failed" ++ NL) []; exit
      else if pid =? 0 then
        _ ← sys (Exec (cstr "sh") [cstr "sh"]);
        _ ← printf 1 (cstr "init: exec sh failed" ++ NL) []; exit
      else _ ← init_wait wfuel pid; init_loop fuel' wfuel
  end.

Definition init_main (fuel wfuel : nat) : prog () :=
  fd ← sys (Open (cstr "console") O_RDWR);
  _ ← (if fd <? 0 then
         _ ← sys (Mknod (cstr "console") 1 1); _ ← sys (Open (cstr "console") O_RDWR); Ret ()
       else Ret ());
  _ ← sys (Dup 0);
  _ ← sys (Dup 0);
  init_loop fuel wfuel.

(** * Running user programs

    What a user program does: the kernel's side of its system calls is a table
    of descriptors, filled from the lowest free place on as [fdalloc] does,
    the bytes that are to be read from each open file, and an oracle for
    everything a program cannot foresee: which calls succeed, what the files
    hold and in which pieces reading delivers them. *)

(** ** Descriptors *)

(** What a descriptor refers to: the terminal, an open file, or an end of a
    pipe. The numbers tell openings apart. *)
Inductive handle :=
| HTty
| HFile (path : list Z) (mode : Z) (id : nat)
| HPipeR (id : nat)
| HPipeW (id : nat).

#[export] Instance handle_eq_dec : EqDecision handle.
Proof. solve_decision. Defined.

Notation fdtab := (list (option handle)).

(** The lowest free place of a table. *)
Fixpoint first_free {H} (t : list (option H)) : option nat :=
  match t with
  | [] => None
  | None :: _ => Some O
  | Some _ :: t' => S <$> first_free t'
  end.

(** It is the one the kernel takes. *)
Lemma free_fd_first t : ∀ k, free_fd t k = (λ j, (k + j)%nat) <$> first_free t.
Proof.
  induction t as [|[h|] t IH]; intros k; simpl; [done| |f_equal; lia].
  rewrite IH. destruct (first_free t); simpl; [|done]. f_equal. lia.
Qed.

(** The file of descriptor [fd]. *)
Definition handle_of (t : fdtab) (fd : Z) : option handle :=
  if fd <? 0 then None else mjoin (t !! Z.to_nat fd).

(** ** The kernel's answers *)

(** The unread pieces of every open file, and a clock that counts the calls
    whose result is the oracle's. *)
Record kern := Kern { pend : handle → list (list Z); clock : nat }.

Definition tick (k : kern) : kern := Kern (pend k) (S (clock k)).
Definition set_pend (h : handle) (bs : list (list Z)) (k : kern) : kern :=
  Kern (λ h', if decide (h' = h) then bs else pend k h') (clock k).

Record oracle := Oracle {
  can_fork : nat → bool;
  can_pipe : nat → bool;
  can_exec : list Z → list (list Z) → nat → bool;
  can_write : handle → bool;
  content : list Z → Z → nat → option (list (list Z));
  stats : handle → option ustat;
  reaped : nat → Z;
  reply : call Z → nat → Z }.

(** What is seen of a process: a program it becomes, a child, a wait for a
    child with the descriptors that are open during it, what it writes, other
    calls. *)
Inductive event :=
| Launched (path : list Z) (argv : list (list Z)) (t : fdtab)
| Child (es : list event)
| Waited (t : fdtab)
| Wrote (h : handle) (bytes : list Z)
| Asked (c : call Z) (r : Z).

Inductive fin (A : Type) := Returned (a : A) | Gone | Lost.
Arguments Returned {A} _.
Arguments Gone {A}.
Arguments Lost {A}.

Section run.
Variable O : oracle.

(** At most [n] bytes of the first piece that is left. *)
Definition take_bytes (n : Z) (l : list (list Z)) : list Z * list (list Z) :=
  match l with
  | [] => ([], [])
  | b :: l' =>
      let n := Z.to_nat n in
      (take n b, if (length b <=? n)%nat then l' else drop n b :: l')
  end.

(** The calls that only return; [None] for a process that is gone. *)
Definition answer {R : Set} (c : call R) (t : fdtab) (k : kern) : list event * option R * fdtab * kern :=
  match c in call R return list event * option R * fdtab * kern with
  | Fork => ([], None, t, k)
  | Exit => ([], None, t, k)
  | Wait => ([Waited t], Some (reaped O (clock k)), t, tick k)
  | Pipe =>
      match first_free t with
      | Some r =>
          let t1 := <[r := Some (HPipeR (clock k))]> t in
          match first_free t1 with
          | Some w =>
              if can_pipe O (clock k)
              then ([], Some (Some (Z.of_nat r, Z.of_nat w)), <[w := Some (HPipeW (clock k))]> t1, tick k)
              else ([], Some None, t, tick k)
          | None => ([], Some None, t, tick k)
          end
      | None => ([], Some None, t, tick k)
      end
  | Read fd n =>
      match handle_of t fd with
      | Some h =>
          let '(bs, l) := take_bytes n (pend k h) in ([], Some (Some bs), t, set_pend h l k)
      | None => ([], Some None, t, k)
      end
  | Write fd bs =>
      match handle_of t fd with
      | Some h => if can_write O h then ([Wrote h bs], Some (Z.of_nat (length bs)), t, k) else ([], Some (-1), t, k)
      | None => ([], Some (-1), t, k)
      end
  | Exec path argv =>
      if can_exec O path argv (clock k) then ([Launched path argv t], None, t, tick k) else ([], Some (-1), t, tick k)
  | Fstat fd => ([], Some (handle_of t fd ≫= stats O), t, k)
  | Dup fd =>
      match handle_of t fd, first_free t with
      | Some h, Some j => ([], Some (Z.of_nat j), <[j := Some h]> t, k)
      | _, _ => ([], Some (-1), t, k)
      end
  | Open path mode =>
      match content O path mode (clock k), first_free t with
      | Some bs, Some j =>
          let h := HFile path mode (clock k) in
          ([], Some (Z.of_nat j), <[j := Some h]> t, set_pend h bs (tick k))
      | _, _ => ([], Some (-1), t, tick k)
      end
  | Close fd =>
      match handle_of t fd with
      | Some _ => ([], Some 0, <[Z.to_nat fd := None]> t, k)
      | None => ([], Some (-1), t, k)
      end
  | Kill pid s => ([Asked (Kill pid s) (reply O (Kill pid s) (clock k))], Some (reply O (Kill pid s) (clock k)), t, tick k)
  | Chdir p => ([Asked (Chdir p) (reply O (Chdir p) (clock k))], Some (reply O (Chdir p) (clock k)), t, tick k)
  | Sleep n => ([Asked (Sleep n) (reply O (Sleep n) (clock k))], Some (reply O (Sleep n) (clock k)), t, tick k)
  | Mknod p a b => ([Asked (Mknod p a b) (reply O (Mknod p a b) (clock k))], Some (reply O (Mknod p a b) (clock k)), t, tick k)
  | Unlink p => ([Asked (Unlink p) (reply O (Unlink p) (clock k))], Some (reply O (Unlink p) (clock k)), t, tick k)
  | Link a b => ([Asked (Link a b) (reply O (Link a b) (clock k))], Some (reply O (Link a b) (clock k)), t, tick k)
  | Mkdir p => ([Asked (Mkdir p) (reply O (Mkdir p) (clock k))], Some (reply O (Mkdir p) (clock k)), t, tick k)
  end.

Definition fork_result {R : Set} (c : call R) : option (Z → R) :=
  match c in call R return option (Z → R) with
  | Fork => Some id
  | _ => None
  end.

Definition outcome_of (A : Type) : Type := list event * fin A * fdtab * kern.

Definition after {A} (es : list event) (o : outcome_of A) : outcome_of A :=
  let '(es', r, t, k) := o in (es ++ es', r, t, k).

(** A child has a copy of the table and shares the open files. It is run
    first; it and its parent do not look at each other's events. *)
Fixpoint run {A} (p : prog A) (t : fdtab) (k : kern) : outcome_of A :=
  match p with
  | Ret a => ([], Returned a, t, k)
  | Spin => ([], Lost, t, k)
  | Vis c K =>
      match fork_result c with
      | Some inj =>
          if can_fork O (clock k) then
            let '(es, _, _, k1) := run (K (inj 0)) t (tick k) in
            after [Child es] (run (K (inj (1 + Z.of_nat (clock k)))) t k1)
          else run (K (inj (-1))) t (tick k)
      | None =>
          let '(es, r, t', k') := answer c t k in
          match r with
          | Some r => after es (run (K r) t' k')
          | None => (es, Gone, t', k')
          end
      end
  end.

(** ** Runs without [fork] *)

(** [p] makes some calls and goes on as [q]. *)
Inductive reach {A} : prog A → fdtab → kern → list event → prog A → fdtab → kern → Prop :=
| reach_refl p t k : reach p t k [] p t k
| reach_vis {R : Set} (c : call R) K t k es r t1 k1 es' q t2 k2 :
    fork_result c = None → answer c t k = (es, Some r, t1, k1) → reach (K r) t1 k1 es' q t2 k2 →
    reach (Vis c K) t k (es ++ es') q t2 k2.

Lemma after_after {A} es es' (o : outcome_of A) : after es (after es' o) = after (es ++ es') o.
Proof. destruct o as [[[es'' r] t] k]. simpl. by rewrite app_assoc. Qed.

Lemma after_nil {A} (o : outcome_of A) : after [] o = o.
Proof. by destruct o as [[[es r] t] k]. Qed.

Lemma run_reach {A} (p : prog A) t k es q t' k' : reach p t k es q t' k' → run p t k = after es (run q t' k').
Proof.
  induction 1 as [|R c K t k es r t1 k1 es' q t2 k2 Hf Ha _ IH]; [by rewrite after_nil|].
  simpl. by rewrite Hf, Ha, IH, after_after.
Qed.

Lemma reach_trans {A} (p : prog A) t k es q t1 k1 es' q' t2 k2 :
  reach p t k es q t1 k1 → reach q t1 k1 es' q' t2 k2 → reach p t k (es ++ es') q' t2 k2.
Proof. induction 1; intros; [done|]. rewrite <- app_assoc. econstructor; eauto. Qed.

Lemma reach_bind {A B} (f : A → prog B) p t k es a t' k' :
  reach p t k es (Ret a) t' k' → reach (p ≫= f) t k es (f a) t' k'.
Proof. remember (Ret a) as q eqn:E. induction 1; subst; [constructor|]. econstructor; eauto. Qed.

(** A call, and a piece of a program, before the rest. *)
Lemma reach_sys {R : Set} {B} (c : call R) (f : R → prog B) {t k es r t1 k1} es' {q t2 k2} :
  answer c t k = (es, Some r, t1, k1) → fork_result c = None → reach (f r) t1 k1 es' q t2 k2 →
  reach (sys c ≫= f) t k (es ++ es') q t2 k2.
Proof. intros Ha Hf. by apply reach_vis. Qed.

Lemma reach_silent {R : Set} {B} (c : call R) (f : R → prog B) {t k r t1 k1} es' {q t2 k2} :
  answer c t k = ([], Some r, t1, k1) → fork_result c = None → reach (f r) t1 k1 es' q t2 k2 →
  reach (sys c ≫= f) t k es' q t2 k2.
Proof. apply (reach_sys c f (es := [])). Qed.

Lemma reach_seq {A B} {f : A → prog B} {p t k es a t1 k1} es' {q t2 k2} :
  reach p t k es (Ret a) t1 k1 → reach (f a) t1 k1 es' q t2 k2 → reach (p ≫= f) t k (es ++ es') q t2 k2.
Proof. intros H. apply reach_trans, reach_bind, H. Qed.

(** A call that does not return. *)
Lemma run_gone {R : Set} {B} (c : call R) (f : R → prog B) t k es t' k' :
  answer c t k = (es, None, t', k') → fork_result c = None → run (sys c ≫= f) t k = (es, Gone, t', k').
Proof. intros Ha Hf. change (sys c ≫= f) with (Vis c f). cbn [run]. by rewrite Hf, Ha. Qed.

Lemma run_exit {A} t k : run (exit : prog A) t k = ([], Gone, t, k).
Proof. done. Qed.

(** What printing [text] on a descriptor shows. *)
Definition says (t : fdtab) (fd : Z) (text : list Z) : list event :=
  match handle_of t fd with
  | Some h => if can_write O h then (λ c, Wrote h [c]) <$> text else []
  | None => []
  end.

Lemma reach_puts fd text t k : reach (puts fd text) t k (says t fd text) (Ret ()) t k.
Proof.
  unfold says. destruct (handle_of t fd) as [h|] eqn:Eh; [destruct (can_write O h) eqn:Ew|];
    (induction text as [|c text IH]; [constructor|]); simpl.
  - apply (reach_vis (Write fd [c]) _ _ _ [Wrote h [c]] 1 t k (_ <$> text)); [done| |done]. simpl. by rewrite Eh, Ew.
  - apply (reach_vis (Write fd [c]) _ _ _ [] (-1) t k []); [done| |done]. simpl. by rewrite Eh, Ew.
  - apply (reach_vis (Write fd [c]) _ _ _ [] (-1) t k []); [done| |done]. simpl. by rewrite Eh.
Qed.

Lemma reach_printf fd fmt args t k : reach (printf fd fmt args) t k (says t fd (printf_text fmt 0 args)) (Ret ()) t k.
Proof. apply reach_puts. Qed.

(** A message and [exit]. *)
Lemma run_say_exit {A} fd fmt args t k :
  run (_ ← printf fd fmt args; (exit : prog A)) t k = (says t fd (printf_text fmt 0 args), Gone, t, k).
Proof. rewrite (run_reach _ _ _ _ _ _ _ (reach_bind _ _ _ _ _ _ _ _ (reach_printf fd fmt args t k))). simpl. by rewrite app_nil_r. Qed.
End run.

(** ** Reading *)

(** The pieces in which a file is delivered are not empty. *)
Definition pieces (l : list (list Z)) : Prop := Forall (λ b, b ≠ []) l.

Lemma take_bytes_spec n l : 0 < n → pieces l →
  ∃ bs l', take_bytes n l = (bs, l') ∧ concat l = bs ++ concat l' ∧ pieces l' ∧ (bs = [] → l = []) ∧ Z.of_nat (length bs) ≤ n.
Proof.
  intros Hn Hl. destruct l as [|b l]; simpl; [exists [], []; split_and!; [done..|simpl; lia]|].
  apply Forall_cons in Hl as [Hb Hl]. eexists _, _. split; [done|].
  assert (take (Z.to_nat n) b ≠ []) as Ht by (destruct b; [done|]; by destruct (Z.to_nat n) eqn:E; [lia|]).
  destruct (Nat.leb_spec (length b) (Z.to_nat n)) as [Hle|Hgt].
  - split_and!; [by rewrite take_ge by lia|done|done|]. rewrite length_take. lia.
  - split_and!; [simpl; by rewrite app_assoc, take_drop| |done|rewrite length_take; lia].
    apply Forall_cons. split; [|done]. intros E. apply (f_equal length) in E. rewrite length_drop in E. simpl in E. lia.
Qed.

(** Reading changes what is pending for one file. *)
Definition only_read (h : handle) (k k' : kern) : Prop :=
  clock k' = clock k ∧ ∀ h', h' ≠ h → pend k' h' = pend k h'.

Lemma set_pend_same h l k : pend (set_pend h l k) h = l.
Proof. simpl. by rewrite decide_True. Qed.

Lemma set_pend_only h l k : only_read h k (set_pend h l k).
Proof. split; [done|]. intros h' Hne. simpl. by rewrite decide_False. Qed.

Lemma only_read_trans h k1 k2 k3 : only_read h k1 k2 → only_read h k2 k3 → only_read h k1 k3.
Proof. intros [C1 P1] [C2 P2]. split; [congruence|]. intros h' Hne. by rewrite P2, P1. Qed.

Lemma answer_read O fd n t k h : handle_of t fd = Some h → 0 < n → pieces (pend k h) →
  ∃ bs l, answer O (Read fd n) t k = ([], Some (Some bs), t, set_pend h l k) ∧
    concat (pend k h) = bs ++ concat l ∧ pieces l ∧ (bs = [] → pend k h = []) ∧ Z.of_nat (length bs) ≤ n.
Proof.
  intros Hh Hn Hp. destruct (take_bytes_spec n (pend k h) Hn Hp) as (bs & l & E & H). exists bs, l. split; [|done].
  simpl. by rewrite Hh, E.
Qed.

(** The bytes written to a file, in order. *)
Definition written (h : handle) (es : list event) : list Z :=
  concat ((λ e, match e with Wrote h' bs => if decide (h' = h) then bs else [] | _ => [] end) <$> es).

Lemma written_app h es es' : written h (es ++ es') = written h es ++ written h es'.
Proof. unfold written. by rewrite fmap_app, concat_app. Qed.

Lemma written_says O t fd h text : handle_of t fd = Some h → can_write O h = true → written h (says O t fd text) = text.
Proof.
  intros Hh Hw. unfold says. rewrite Hh, Hw. unfold written.
  induction text as [|c text IH]; [done|]. simpl. rewrite decide_True by done. simpl. f_equal. exact IH.
Qed.
