(* ===== verification/UserSpec.v ===== *)
(** * What the user programs do

    [cat], [wc] and [grep] on files that reading delivers in arbitrary pieces,
    and the directory listing of [ls]. *)
From S2P Require Import Prelude Machine CString Proc SysFile Print Sh Grep User.

(** ** Reference definitions *)

Definition blank (c : Z) : bool := strchr wc_blanks c.

(** The words of a text: the longest runs of characters that are not blank. *)
Fixpoint fields_from (acc : list Z) (l : list Z) : list (list Z) :=
  match l with
  | [] => match acc with [] => [] | _ => [rev acc] end
  | c :: l' =>
      if blank c then match acc with [] => fields_from [] l' | _ => rev acc :: fields_from [] l' end
      else fields_from (c :: acc) l'
  end.

Definition fields (l : list Z) : list (list Z) := fields_from [] l.

Definition count (c : Z) (l : list Z) : Z := Z.of_nat (length (filter (λ x, x = c) l)).

(** The line that [wc] prints. *)
Definition wc_text (data name : list Z) : list Z :=
  printf_text (cstr "%d %d %d %s" ++ NL) 0
    [PInt (count 10 data); PInt (Z.of_nat (length (fields data))); PInt (Z.of_nat (length data)); PStr name].

(** ** wc *)

(** One character. *)
Lemma wc_char_fields s c : 0 ≤ chars_n s < 2147483647 → 0 ≤ lines_n s ≤ chars_n s → 0 ≤ words_n s ≤ chars_n s →
  chars_n (wc_char s c) = chars_n s + 1 ∧ lines_n (wc_char s c) = lines_n s + (if c =? 10 then 1 else 0) ∧
  words_n (wc_char s c) = words_n s + (if blank c then 0 else if inword s then 0 else 1) ∧
  inword (wc_char s c) = negb (blank c).
Proof.
  intros Hc Hl Hw. assert (∀ x, 0 ≤ x ≤ chars_n s → s32 (x + 1) = x + 1) as Hs by (intros; apply s32_small; lia).
  unfold wc_char. fold (blank c). rewrite (Hs (chars_n s)) by lia.
  destruct (blank c), (inword s), (c =? 10); simpl; rewrite ?Hs by lia; split_and!; try done; lia.
Qed.

Lemma count_cons c x l : count c (x :: l) = (if x =? c then 1 else 0) + count c l.
Proof. unfold count. rewrite filter_cons. case_decide; destruct (Z.eqb_spec x c); simpl; lia || done. Qed.

(** The counters after [data]; [acc] is the word that has begun. *)
Lemma wc_fold data : ∀ s acc, Z.of_nat (length data) + chars_n s < 2147483648 →
  0 ≤ lines_n s ≤ chars_n s → 0 ≤ words_n s ≤ chars_n s → inword s = negb (bool_decide (acc = [])) →
  let s' := fold_left wc_char data s in
  chars_n s' = chars_n s + Z.of_nat (length data) ∧ lines_n s' = lines_n s + count 10 data ∧
  words_n s' + (if inword s then 1 else 0) = words_n s + Z.of_nat (length (fields_from acc data)).
Proof.
  induction data as [|c data IH]; intros s acc Hb Hl Hw Hi; cbn [fold_left fields_from length] in *.
  { split_and!; [lia|unfold count; simpl; lia|]. rewrite Hi. destruct acc; simpl; lia. }
  destruct (wc_char_fields s c) as (Ec & El & Ew & Ei); [lia|done|done|]. rewrite count_cons.
  destruct (IH (wc_char s c) (if blank c then [] else c :: acc)) as (A & B & C);
    [lia | rewrite El, Ec; destruct (c =? 10); lia | rewrite Ew, Ec; destruct (blank c), (inword s); lia | rewrite Ei; by destruct (blank c) |].
  rewrite A, B, Ec, El. split_and!; [lia|lia|]. rewrite Ew, Ei in C.
  destruct (blank c); cbn [negb] in C; [|destruct (inword s); lia]. rewrite Hi. destruct acc; simpl; lia.
Qed.

Lemma wc_reads fd name fuel O t h : ∀ k s, handle_of t fd = Some h → pieces (pend k h) → (length (concat (pend k h)) < fuel)%nat →
  ∃ k', reach O (wc_loop fuel fd name s) t k
    (let s' := fold_left wc_char (concat (pend k h)) s in
     says O t 1 (printf_text (cstr "%d %d %d %s" ++ NL) 0 [PInt (lines_n s'); PInt (words_n s'); PInt (chars_n s'); PStr name]))
    (Ret ()) t k' ∧ pend k' h = [] ∧ only_read h k k'.
Proof.
  induction fuel as [|fuel IH]; intros k s Hh Hp Hf; [lia|].
  destruct (answer_read O fd 512 t k h Hh ltac:(lia) Hp) as (bs & l & Ea & Ec & Hl & Hnil & _). cbn [wc_loop].
  destruct bs as [|b bs].
  - specialize (Hnil eq_refl). rewrite Hnil in *. simpl in Ec. exists (set_pend h l k).
    split; [|split; [|apply set_pend_only]].
    + eapply (reach_sys _ _ _ (says _ _ _ _) Ea eq_refl). apply reach_printf.
    + rewrite set_pend_same. destruct l as [|b l]; [done|]. apply Forall_cons in Hl as [Hb _]. by destruct b.
  - destruct (IH (set_pend h l k) (fold_left wc_char (b :: bs) s) Hh) as (k' & Hr & Hk & Ho);
      [by rewrite set_pend_same | rewrite set_pend_same; rewrite Ec, length_app in Hf; simpl in Hf; lia |].
    rewrite set_pend_same in Hr. exists k'. split; [|split; [done|]; eapply only_read_trans; [apply set_pend_only|done]].
    eapply (reach_sys _ _ _ (says _ _ _ _) Ea eq_refl). rewrite Ec, fold_left_app. exact Hr.
Qed.

(** Whatever the pieces, [wc] prints the number of lines, words and
    characters of the file. *)
Lemma wc_counts O t k h fd name fuel : handle_of t fd = Some h → pieces (pend k h) →
  (length (concat (pend k h)) < fuel)%nat → Z.of_nat (length (concat (pend k h))) < 2147483648 →
  ∃ k', reach O (wc fuel fd name) t k (says O t 1 (wc_text (concat (pend k h)) name)) (Ret ()) t k' ∧
    pend k' h = [] ∧ only_read h k k'.
Proof.
  intros Hh Hp Hf Hb. destruct (wc_reads fd name fuel O t h k (Counts 0 0 0 false) Hh Hp Hf) as (k' & Hr & H).
  exists k'. split; [|done]. set (data := concat (pend k h)) in *. unfold wc, wc_text.
  destruct (wc_fold data (Counts 0 0 0 false) []) as (A & B & C); [simpl; lia|simpl; lia|simpl; lia|done|].
  cbn [chars_n lines_n words_n inword] in A, B, C. cbv zeta in Hr. rewrite Z.add_0_r, Z.add_0_l in C.
  rewrite Z.add_0_l in A, B. unfold fields. rewrite <- A, <- B, <- C. exact Hr.
Qed.

(** ** cat *)

Lemma cat_copies fd fuel O t h h1 : ∀ k, handle_of t fd = Some h → pieces (pend k h) → (length (concat (pend k h)) < fuel)%nat →
  handle_of t 1 = Some h1 → can_write O h1 = true →
  ∃ es k', reach O (cat fuel fd) t k es (Ret ()) t k' ∧ written h1 es = concat (pend k h) ∧ pend k' h = [] ∧ only_read h k k'.
Proof.
  induction fuel as [|fuel IH]; intros k Hh Hp Hf H1 Hw; [lia|].
  destruct (answer_read O fd 512 t k h Hh ltac:(lia) Hp) as (bs & l & Ea & Ec & Hl & Hnil & _). cbn [cat].
  destruct bs as [|b bs].
  - specialize (Hnil eq_refl). rewrite Hnil in *. simpl in Ec. exists [], (set_pend h l k).
    split; [eapply (reach_sys _ _ _ [] Ea eq_refl); constructor|]. split; [done|]. split; [|apply set_pend_only].
    rewrite set_pend_same. destruct l as [|b l]; [done|]. apply Forall_cons in Hl as [Hb _]. by destruct b.
  - destruct (IH (set_pend h l k) Hh) as (es & k' & Hr & He & Hk & Ho);
      [by rewrite set_pend_same | rewrite set_pend_same; rewrite Ec, length_app in Hf; simpl in Hf; lia | done | done |].
    rewrite set_pend_same in He. exists (Wrote h1 (b :: bs) :: es), k'. split; [|split; [|split; [done|]; eapply only_read_trans; [apply set_pend_only|done]]].
    + eapply (reach_sys _ _ _ (_ :: es) Ea eq_refl). change (Wrote h1 (b :: bs) :: es) with ([Wrote h1 (b :: bs)] ++ es).
      eapply (reach_sys _ (Write 1 (b :: bs)) _ es); [simpl; by rewrite H1, Hw|done|].
      rewrite Z.eqb_refl. exact Hr.
    + change (written h1 ([Wrote h1 (b :: bs)] ++ es) = concat (pend k h)). rewrite written_app, He, Ec. f_equal.
      unfold written. simpl. rewrite decide_True by done. by rewrite app_nil_r.
Qed.

(** ** The loop over the arguments *)

(** In the table [t] the next descriptor is [j]; descriptor 1 is [h1]. *)
Record output_to (O : oracle) (t : fdtab) (h1 : handle) (j : nat) : Prop := {
  ot_free : first_free t = Some j;
  ot_out : handle_of t 1 = Some h1;
  ot_write : can_write O h1 = true }.

Lemma first_free_spec {H} (t : list (option H)) j : first_free t = Some j → t !! j = Some None.
Proof.
  revert j. induction t as [|[h|] t IH]; intros j E; simpl in E; [done| |by injection E as <-].
  apply fmap_Some in E as (i & E & ->). by apply IH.
Qed.

Lemma handle_of_new (t : fdtab) j h : t !! j = Some None → handle_of (<[j := Some h]> t) (Z.of_nat j) = Some h.
Proof.
  intros Hj. unfold handle_of. rewrite (proj2 (Z.ltb_ge _ _)) by lia. rewrite Nat2Z.id.
  rewrite list_lookup_insert_eq; [done|]. by eapply lookup_lt_Some.
Qed.

Lemma handle_of_other (t : fdtab) j o fd h : t !! j = Some None → handle_of t fd = Some h → handle_of (<[j := o]> t) fd = Some h.
Proof.
  unfold handle_of. intros Hj Hh. destruct (fd <? 0); [done|]. rewrite list_lookup_insert_ne; [done|].
  intros E. by rewrite <- E, Hj in Hh.
Qed.

Lemma close_new (t : fdtab) j h : t !! j = Some None → <[j := None]> (<[j := Some h]> t) = t.
Proof. intros Hj. rewrite list_insert_insert_eq. by apply list_insert_id. Qed.

(** [f] is opened, in pieces that [P] allows, whenever it is tried. *)
Definition readable (O : oracle) (P : list (list Z) → Prop) (f data : list Z) : Prop :=
  ∀ n, ∃ l, content O f 0 n = Some l ∧ P l ∧ concat l = data.

(** Work that reads a file, leaves the table alone and writes [out]. *)
Definition processes (O : oracle) (P : list (list Z) → Prop) (t : fdtab) (h1 : handle) (work : prog ()) (fd : Z) (data out : list Z) : Prop :=
  ∀ k h, handle_of t fd = Some h → P (pend k h) → concat (pend k h) = data →
  ∃ es k', reach O work t k es (Ret ()) t k' ∧ written h1 es = out.

Lemma each_file_run O P who work out t h1 j args datas : output_to O t h1 j →
  (∀ a data h, (a, data) ∈ zip args datas → processes O P (<[j := Some h]> t) h1 (work (Z.of_nat j) a) (Z.of_nat j) data (out data a)) →
  Forall2 (readable O P) args datas →
  ∀ k, ∃ es k', run O (each_file who work args) t k = (es, Gone, t, k') ∧ written h1 es = concat (zip_with out datas args).
Proof.
  intros Ht Hw Hr. pose proof (first_free_spec _ _ (ot_free _ _ _ _ Ht)) as Hj.
  induction Hr as [|a data args datas Ha Hr IH]; intros k; [by eexists [], k|].
  destruct (Ha (clock k)) as (l & El & Hl & Hd). set (h := HFile a 0 (clock k)). set (k1 := set_pend h l (tick k)).
  destruct (Hw a data h ltac:(by left) k1 h) as (es & k2 & Hes & Ho);
    [by apply handle_of_new | by unfold k1; rewrite set_pend_same | by unfold k1; rewrite set_pend_same |].
  destruct IH with (k := k2) as (es' & k3 & Hrun & Ho'); [intros; apply Hw; by right|].
  exists (es ++ es'), k3. split; [|by rewrite written_app, Ho, Ho']. cbn [each_file].
  assert (reach O (sys (Open a 0) ≫= λ fd, if fd <? 0 then (printf 1 (who ++ cstr ": cannot open %s" ++ NL) [PStr a] ≫= λ _, exit)
    else (work fd a ≫= λ _, sys (Close fd) ≫= λ _, each_file who work args)) t k ([] ++ es ++ [] ++ []) (each_file who work args) t k2) as Hreach.
  { eapply reach_sys; [simpl; rewrite El, (ot_free _ _ _ _ Ht); reflexivity | done |].
    rewrite (proj2 (Z.ltb_ge _ _)) by lia. eapply reach_seq; [exact Hes|].
    eapply reach_sys; [cbn [answer]; rewrite (handle_of_new t j h Hj); reflexivity | done |].
    rewrite Nat2Z.id, (close_new t j h Hj). constructor. }
  rewrite !app_nil_r in Hreach. rewrite (run_reach _ _ _ _ _ _ _ _ Hreach). by rewrite Hrun.
Qed.

(** A file that cannot be opened ends the program with a message. *)
Lemma each_file_missing O who work a args t k : content O a 0 (clock k) = None →
  run O (each_file who work (a :: args)) t k =
    (says O t 1 (printf_text (who ++ cstr ": cannot open %s" ++ NL) 0 [PStr a]), Gone, t, tick k).
Proof.
  intros E. cbn [each_file]. change (run O (sys (Open a 0) ≫= ?f) t k) with
    (let '(es, r, t', k') := answer O (Open a 0) t k in match r with Some r => after es (run O (f r) t' k') | None => (es, Gone, t', k') end).
  simpl answer. rewrite E. cbv beta iota zeta. change (-1 <? 0) with true. cbv iota. by rewrite run_say_exit.
Qed.

(** ** Whole programs *)

Definition regular (l : list (list Z)) : Prop := pieces l ∧ (length l ≤ 1)%nat.

(** C37: [wc] counts lines, words and characters. For files whose contents are
    shorter than 2^31 bytes, delivered in any pieces, the program prints for
    each file in turn the number of its newlines, of its words (the longest
    runs of characters that are not blank) and of its characters; it leaves
    the descriptors as they were and ends. *)
Theorem wc_main_correct O t k h1 j args datas fuel : output_to O t h1 j → args ≠ [] →
  Forall2 (readable O pieces) args datas → Forall (λ d, (length d < fuel)%nat ∧ Z.of_nat (length d) < 2147483648) datas →
  ∃ es k', run O (wc_main fuel args) t k = (es, Gone, t, k') ∧ written h1 es = concat (zip_with wc_text datas args).
Proof.
  intros Ht Hne Hr Hd. pose proof (first_free_spec _ _ (ot_free _ _ _ _ Ht)) as Hj.
  unfold wc_main. destruct args as [|a args]; [done|]. eapply each_file_run; [done| |done].
  intros b data h Hin k1 h' Hh Hp Hc. apply elem_of_zip_r in Hin. rewrite Forall_forall in Hd. destruct (Hd _ Hin).
  subst data. destruct (wc_counts O _ k1 h' (Z.of_nat j) b fuel Hh Hp) as (k' & Hreach & _); [done|done|].
  eexists _, k'. split; [exact Hreach|]. apply written_says; [|apply Ht]. by apply handle_of_other, Ht.
Qed.

Lemma zip_with_left {A B C} (f : A → C) (l : list A) : ∀ (l' : list B), length l = length l' → zip_with (λ a _, f a) l l' = f <$> l.
Proof. induction l as [|a l IH]; intros [|b l'] H; simpl in *; try done. f_equal. apply IH. lia. Qed.

(** [cat] copies its files to descriptor 1, one after the other. *)
Theorem cat_main_correct O t k h1 j args datas fuel : output_to O t h1 j → args ≠ [] →
  Forall2 (readable O pieces) args datas → Forall (λ d, (length d < fuel)%nat) datas →
  ∃ es k', run O (cat_main fuel args) t k = (es, Gone, t, k') ∧ written h1 es = concat datas.
Proof.
  intros Ht Hne Hr Hd. pose proof (first_free_spec _ _ (ot_free _ _ _ _ Ht)) as Hj.
  assert (length args = length datas) as Hlen by (by eapply Forall2_length).
  assert (concat datas = concat (zip_with (λ d _, d) datas args)) as ->.
  { f_equal. rewrite (zip_with_left id) by lia. by rewrite list_fmap_id. }
  unfold cat_main. destruct args as [|a args]; [done|]. eapply each_file_run; [done| |done].
  intros b data h Hin k1 h' Hh Hp Hc. apply elem_of_zip_r in Hin. rewrite Forall_forall in Hd. specialize (Hd _ Hin).
  subst data. destruct (cat_copies (Z.of_nat j) fuel O _ h' h1 k1 Hh Hp) as (es & k' & Hreach & Hw & _); [done| |apply Ht|by exists es, k'].
  by apply handle_of_other, Ht.
Qed.

(** ** grep *)

(** A text made of lines that fit the buffer of [grep], without zeros. *)
Record fits (text : list Z) : Prop := {
  fits_nz : Forall (λ c, c ≠ 0) text;
  fits_short : Forall (λ l, (length l < 1023)%nat) (lines text).1;
  fits_end : (lines text).2 = [] }.

(** A line that has begun goes into the first line, or into the rest. *)
Lemma lines_from_acc q : ∀ acc,
  (length acc ≤ length (lines_from acc q).2)%nat ∨ ∃ l ls, (lines_from acc q).1 = l :: ls ∧ (length acc ≤ length l)%nat.
Proof.
  induction q as [|c q IH]; intros acc; simpl; [left; rewrite length_rev; lia|].
  destruct (c =? 10); [right; simpl; eexists _, _; split; [done|rewrite length_rev; lia]|].
  destruct (IH (c :: acc)) as [H|(l & ls & E & H)]; simpl in H; [left; lia|right; exists l, ls; split; [done|lia]].
Qed.

Lemma read_has_newline kept bs q : Forall (λ c, c ≠ 10) kept → fits (kept ++ bs ++ q) → bs ≠ [] →
  (q = [] ∨ (length kept + length bs = 1023)%nat) → 10 ∈ bs.
Proof.
  intros Hk [_ Hs He] Hne Hq. destruct (decide (10 ∈ bs)) as [|Hn]; [done|exfalso].
  assert (Forall (λ c, c ≠ 10) (kept ++ bs)) as Hw.
  { apply Forall_app. split; [done|]. rewrite Forall_forall. intros c Hc ->. done. }
  rewrite app_assoc in Hs, He. unfold lines in Hs, He. rewrite (lines_plain _ _ _ Hw), app_nil_r in Hs, He.
  destruct Hq as [->|Hl].
  - simpl in He. rewrite rev_involutive in He. by destruct kept, bs.
  - pose proof (lines_from_acc q (rev (kept ++ bs))) as Ha. rewrite length_rev, length_app, Hl in Ha.
    destruct Ha as [Ha|(l & ls & E & Ha)]; [rewrite He in Ha; simpl in Ha; lia|].
    rewrite E in Hs. apply Forall_cons in Hs as [Hs _]. lia.
Qed.

Lemma lines_rest p q : fits (p ++ q) →
  (lines (p ++ q)).1 = (lines p).1 ++ (lines ((lines p).2 ++ q)).1 ∧ fits ((lines p).2 ++ q) ∧
  Forall (λ c, c ≠ 10) (lines p).2 ∧ ((lines p).2 ++ q = [] ∨ (length (lines p).2 < 1023)%nat).
Proof.
  intros [Hz Hs He]. assert (Forall (λ c, c ≠ 10) (lines p).2) as Hp by (apply lines_tail; [done|by intros]).
  unfold lines in Hs, He. rewrite lines_app in Hs, He by done. apply Forall_app in Hs as [_ Hs].
  change (lines_from [] p) with (lines p) in *. simpl in Hs, He. apply Forall_app in Hz as [Hzp Hzq].
  split_and!; [|split; [|done..]|done|].
  - unfold lines at 1. by rewrite lines_app.
  - apply Forall_app. split; [|done]. apply lines_tail; [done|]. intros c Hc _. rewrite Forall_forall in Hzp. by apply Hzp.
  - pose proof (lines_plain (lines p).2 [] q Hp) as Ep. rewrite app_nil_r in Ep.
    change (lines_from [] ((lines p).2 ++ q)) with (lines ((lines p).2 ++ q)) in Ep. rewrite Ep in Hs, He.
    pose proof (lines_from_acc q (rev (lines p).2)) as Ha. rewrite length_rev in Ha.
    destruct Ha as [Ha|(l & ls & E & Ha)]; [rewrite He in Ha; simpl in Ha; right; lia|].
    rewrite E in Hs. apply Forall_cons in Hs as [Hs _]. right; lia.
Qed.

Lemma grep_lines_reach O t h1 pattern k : handle_of t 1 = Some h1 → can_write O h1 = true → ∀ fuel p,
  ∃ es, reach O (grep_lines fuel pattern p) t k es (Ret (scan_lines fuel pattern p).2) t k ∧
    written h1 es = (scan_lines fuel pattern p).1.
Proof.
  intros H1 Hw. induction fuel as [|fuel IH]; intros p; cbn [grep_lines scan_lines]; [exists []; by split; [constructor|]|].
  destruct (find_nl p) as [n|]; [|exists []; by split; [constructor|]]. destruct (IH (drop (S n) p)) as (es & Hr & Ho).
  destruct (scan_lines fuel pattern (drop (S n) p)) as [out rest]. simpl in Hr, Ho. destruct (match_ pattern (take n p)); [|by exists es].
  exists ([Wrote h1 (take n p ++ [10])] ++ es). split.
  - eapply reach_sys; [simpl; rewrite H1, Hw; reflexivity|done|exact Hr].
  - rewrite written_app, Ho. f_equal. unfold written. simpl. rewrite decide_True by done. by rewrite app_nil_r.
Qed.

Lemma take_bytes_regular n l : 0 < n → regular l → ∃ bs l', take_bytes n l = (bs, l') ∧ concat l = bs ++ concat l' ∧ regular l' ∧
  (bs = [] → concat l = []) ∧ (concat l' = [] ∨ Z.of_nat (length bs) = n).
Proof.
  intros Hn [Hp Hl]. destruct (take_bytes_spec n l Hn Hp) as (bs & l' & E & Ec & Hp' & Hnil & _). exists bs, l'. split_and!; [done|done| | |].
  - split; [done|]. destruct l as [|b [|]]; simpl in Hl, E; [by injection E as <- <-| |lia]. injection E as <- <-. case_match; simpl; lia.
  - intros H. by rewrite (Hnil H).
  - destruct l as [|b [|]]; simpl in Hl, E; [injection E as <- <-; by left| |lia]. injection E as <- <-.
    destruct (Nat.leb_spec (length b) (Z.to_nat n)); [by left|]. right. rewrite length_take. lia.
Qed.

(** The turns of the loop. *)
Lemma grep_reads O t h h1 pattern fd : handle_of t fd = Some h → handle_of t 1 = Some h1 → can_write O h1 = true →
  ∀ fuel k kept, regular (pend k h) → Forall (λ c, c ≠ 10) kept → (length kept < 1023)%nat → fits (kept ++ concat (pend k h)) →
  (length (concat (pend k h)) < fuel)%nat →
  ∃ es k', reach O (grep_read fuel pattern fd kept) t k es (Ret ()) t k' ∧
    written h1 es = render pattern (lines (kept ++ concat (pend k h))).1.
Proof.
  intros Hh H1 Hw. induction fuel as [|fuel IH]; intros k kept Hreg Hk Hkl Hf Hfu; [lia|]. cbn [grep_read].
  set (n := 1024 - Z.of_nat (length kept) - 1). destruct (take_bytes_regular n _ ltac:(lia) Hreg) as (bs & l & E & Ec & Hl & Hnil & Hfull).
  assert (answer O (Read fd n) t k = ([], Some (Some bs), t, set_pend h l k)) as Ea by (simpl; by rewrite Hh, E).
  rewrite Ec in *. destruct bs as [|b bs].
  - exists [], (set_pend h l k). split; [eapply (reach_sys _ _ _ [] Ea eq_refl); constructor|].
    rewrite (Hnil eq_refl), app_nil_r. unfold lines. by rewrite <- (app_nil_r kept), (lines_plain _ _ _ Hk), app_nil_r.
  - pose proof (read_has_newline kept (b :: bs) (concat l) Hk Hf ltac:(done) ltac:(destruct Hfull; [by left|right; lia])) as Hnl.
    destruct (lines_rest (kept ++ b :: bs) (concat l)) as (El & Hf' & Hn' & Hshort); [by rewrite <- app_assoc|].
    rewrite <- app_assoc in El. set (buf := kept ++ b :: bs) in *.
    assert (Forall (λ c, c ≠ 0) buf) as Hz by (destruct Hf as [Hz _ _]; rewrite app_assoc in Hz; by apply Forall_app in Hz as [Hz _]).
    destruct (grep_lines_reach O t h1 pattern (set_pend h l k) H1 Hw (S (length buf)) buf) as (es & Hr & Ho).
    rewrite scan_lines_spec in Hr, Ho by (done || lia). simpl in Hr, Ho.
    assert ((length (lines buf).2 =? length buf)%nat = false) as Hneq.
    { apply Nat.eqb_neq. pose proof (lines_shorter buf [] ltac:(set_solver)). unfold lines. simpl in *. lia. }
    destruct (IH (set_pend h l k) (lines buf).2) as (es' & k' & Hr' & Ho'); [by rewrite set_pend_same|done| | | |].
    + destruct Hshort as [Hs|]; [apply app_nil in Hs as [-> _]; simpl; lia|done].
    + by rewrite set_pend_same.
    + rewrite set_pend_same. rewrite length_app in Hfu. simpl in Hfu. lia.
    + rewrite set_pend_same in Ho'. exists (es ++ es'), k'. split.
      * eapply (reach_sys _ _ _ (es ++ es') Ea eq_refl). fold buf. eapply reach_seq; [exact Hr|]. rewrite Hneq. exact Hr'.
      * rewrite written_app, Ho, Ho', El. unfold render. by rewrite fmap_app, concat_app.
Qed.


(** ** ls *)

(** The name in a directory entry of 16 bytes, its path, and the text printed
    for it; [st_of] is what [stat] finds. *)
Definition entry_path (prefix de : list Z) : list Z := prefix ++ to_nul (drop 2 de).

Definition line_text (name : list Z) (st : ustat) : list Z :=
  printf_text (cstr "%s %d %d %d" ++ NL) 0 [PStr (fmtname name); PInt (st_type st); PInt (st_ino st); PInt (st_size st)].

Definition entry_text (st_of : list Z → option ustat) (prefix de : list Z) : list Z :=
  if nth 0 de 0 + 256 * nth 1 de 0 =? 0 then []
  else match st_of (entry_path prefix de) with
       | Some st => line_text (entry_path prefix de) st
       | None => printf_text (cstr "ls: cannot stat %s" ++ NL) 0 [PStr (entry_path prefix de)]
       end.

(** [stat] finds what [st_of] says. *)
Definition stat_oracle (O : oracle) (st_of : list Z → option ustat) : Prop := ∀ p n,
  match st_of p with
  | Some st => (∃ l, content O p 0 n = Some l) ∧ stats O (HFile p 0 n) = Some st
  | None => content O p 0 n = None
  end.

Lemma stat_reach O t k st_of p j : stat_oracle O st_of → first_free t = Some j →
  ∃ k', reach O (stat p) t k [] (Ret (st_of p)) t k' ∧ (clock k ≤ clock k')%nat ∧
    ∀ h, (∀ p n, (clock k ≤ n)%nat → h ≠ HFile p 0 n) → pend k' h = pend k h.
Proof.
  intros HO Hj. specialize (HO p (clock k)). pose proof (first_free_spec _ _ Hj) as Hn. unfold stat, O_RDONLY. destruct (st_of p) as [st|].
  - destruct HO as [[l El] Hst]. set (h := HFile p 0 (clock k)). exists (set_pend h l (tick k)). split; [|split; [simpl; lia|]].
    + eapply reach_silent; [simpl; rewrite El, Hj; reflexivity|done|].
      rewrite (proj2 (Z.ltb_ge _ _)) by lia. eapply reach_silent; [cbn [answer]; rewrite (handle_of_new t j _ Hn); simpl; rewrite Hst; reflexivity|done|].
      eapply reach_silent; [cbn [answer]; rewrite (handle_of_new t j _ Hn); reflexivity|done|].
      rewrite Nat2Z.id, (close_new t j _ Hn). constructor.
    + intros h' Hh'. simpl. rewrite decide_False; [done|]. by apply Hh'.
  - exists (tick k). split; [|split; [simpl; lia|done]]. eapply reach_silent; [simpl; rewrite HO; reflexivity|done|constructor].
Qed.

(** A directory as reading delivers it. *)
Definition dir_pieces (des : list (list Z)) : list (list Z) := match des with [] => [] | _ => [concat des] end.

Lemma take_entry de des : length de = 16%nat → Forall (λ d, length d = 16%nat) des →
  take_bytes 16 (dir_pieces (de :: des)) = (de, dir_pieces des).
Proof.
  intros Hd Hds. simpl. change (Z.to_nat 16) with 16%nat. rewrite <- Hd, take_app_length, drop_app_length. f_equal.
  rewrite length_app. destruct des as [|d des]; simpl; [by rewrite (proj2 (Nat.leb_le _ _)) by lia|].
  apply Forall_cons in Hds as [Hd' _]. rewrite length_app, Hd'. by rewrite (proj2 (Nat.leb_gt _ _)) by lia.
Qed.

(** The listing has a line for every entry that is in use. *)
Lemma ls_entries_reach O t h h1 fd j st_of prefix : output_to O t h1 j → handle_of t fd = Some h → stat_oracle O st_of →
  ∀ des fuel k, Forall (λ d, length d = 16%nat) des → pend k h = dir_pieces des → (length des < fuel)%nat →
  (∀ p n, (clock k ≤ n)%nat → h ≠ HFile p 0 n) →
  ∃ es k', reach O (ls_entries fuel fd prefix) t k es (Ret ()) t k' ∧ written h1 es = concat (entry_text st_of prefix <$> des).
Proof.
  intros Ht Hh HO des. induction des as [|de des IH]; intros [|fuel] k Hd Hp Hf Hfresh; try (simpl in Hf; lia); cbn [ls_entries].
  - eexists [], _. split; [|done]. eapply (reach_silent _ (Read fd 16) _ []); [simpl; rewrite Hh, Hp; reflexivity|done|constructor].
  - apply Forall_cons in Hd as [Hde Hd]. set (k1 := set_pend h (dir_pieces des) k).
    assert (answer O (Read fd 16) t k = ([], Some (Some de), t, k1)) as Ea by (cbn [answer]; rewrite Hh, Hp, take_entry by done; done).
    assert (pend k1 h = dir_pieces des) as Hp1 by apply set_pend_same. cbn [fmap list_fmap concat]. unfold entry_text at 1.
    destruct (nth 0 de 0 + 256 * nth 1 de 0 =? 0) eqn:Ez.
    + destruct (IH fuel k1 Hd Hp1 ltac:(simpl in Hf; lia) Hfresh) as (es & k' & Hr & Ho). exists es, k'. split; [|done].
      eapply (reach_sys _ _ _ es Ea eq_refl). rewrite Hde. change (negb (16 =? 16)%nat) with false. cbv iota. by rewrite Ez.
    + destruct (stat_reach O t k1 st_of (entry_path prefix de) j HO (ot_free _ _ _ _ Ht)) as (k2 & Hst & Hc & Hpk).
      destruct (IH fuel k2 Hd) as (es & k' & Hr & Ho); [by rewrite Hpk|simpl in Hf; lia| |].
      { intros p n Hn. apply Hfresh. simpl in Hc. lia. }
      set (text := match st_of (entry_path prefix de) with Some st => _ | None => _ end).
      exists (says O t 1 text ++ es), k'. split; [|by rewrite written_app, Ho, written_says by apply Ht].
      eapply (reach_sys _ _ _ (_ ++ es) Ea eq_refl). rewrite Hde. change (negb (16 =? 16)%nat) with false. cbv iota. rewrite Ez.
      eapply (reach_seq _ (_ ++ es) Hst). fold (entry_path prefix de). eapply (reach_seq _ es); [|exact Hr].
      unfold text. destruct (st_of (entry_path prefix de)); apply reach_printf.
Qed.

(** [ls] of a directory: two descriptors are free, the path leaves room for
    the names. *)
Theorem ls_lists O t k h1 j path st_of st des fuel : output_to O t h1 j →
  (∀ h : handle, is_Some (first_free (<[j := Some h]> t))) → stat_oracle O st_of →
  st_of path = Some st → st_type st = 1 → (length path + 16 ≤ 512)%nat →
  content O path 0 (clock k) = Some (dir_pieces des) → Forall (λ d, length d = 16%nat) des → (length des < fuel)%nat →
  ∃ es k', reach O (ls fuel path) t k es (Ret ()) t k' ∧ written h1 es = concat (entry_text st_of (path ++ [47]) <$> des).
Proof.
  intros Ht Hfree HO Hst Hty Hlen Hc Hd Hfu. pose proof (first_free_spec _ _ (ot_free _ _ _ _ Ht)) as Hj.
  set (h := HFile path 0 (clock k)). destruct (Hfree h) as [j2 Hj2].
  pose proof (HO path (clock k)) as Hs. rewrite Hst in Hs. destruct Hs as [_ Hs].
  destruct (ls_entries_reach O (<[j := Some h]> t) h h1 (Z.of_nat j) j2 st_of (path ++ [47])) with (des := des) (fuel := fuel)
    (k := set_pend h (dir_pieces des) (tick k)) as (es & k' & Hr & Ho); [| |done|done| |done| |].
  - split; [done| |apply Ht]. by apply handle_of_other, Ht.
  - by apply handle_of_new.
  - apply set_pend_same.
  - intros p n Hn E. unfold h in E. injection E as _ <-. simpl in Hn. lia.
  - exists (es ++ []), k'. split; [|by rewrite app_nil_r]. unfold ls.
    eapply reach_silent; [simpl; rewrite Hc, (ot_free _ _ _ _ Ht); reflexivity|done|]. rewrite (proj2 (Z.ltb_ge _ _)) by lia.
    eapply reach_silent; [cbn [answer]; rewrite (handle_of_new t j _ Hj); simpl; rewrite Hs; reflexivity|done|].
    cbv beta iota. rewrite Hty. change (1 =? 2) with false. change (1 =? 1) with true. cbv iota.
    rewrite (proj2 (Nat.ltb_ge _ _)) by lia. eapply reach_seq; [exact Hr|].
    eapply reach_silent; [cbn [answer]; rewrite (handle_of_new t j _ Hj); reflexivity|done|].
    rewrite Nat2Z.id, (close_new t j _ Hj). constructor.
Qed.

(** The name that is printed: what follows the last slash, filled up with
    blanks to 14 characters. *)
Lemma name_start_spec path : ∀ k, (∀ i, (k < i < length path)%nat → nth i path 0 ≠ 47) →
  ∃ p, p = name_start path k ∧ (p ≤ S k)%nat ∧ (∀ i, (p ≤ i < length path)%nat → nth i path 0 ≠ 47) ∧ (p = 0%nat ∨ nth (p - 1) path 0 = 47).
Proof.
  induction k as [|k IH]; intros Hk; cbn [name_start].
  - destruct (Z.eqb_spec (nth 0 path 0) 47) as [E|E]; eexists; (split; [done|]).
    + split_and!; [lia|intros i Hi; apply Hk; lia|by right].
    + split_and!; [lia| |by left]. intros [|i] Hi; [done|]. apply Hk. lia.
  - destruct (Z.eqb_spec (nth (S k) path 0) 47) as [E|E].
    + eexists; (split; [done|]). split_and!; [lia|intros i Hi; apply Hk; lia|right]. by replace (S (S k) - 1)%nat with (S k) by lia.
    + destruct IH as (p & -> & Hp & Hi & Hs); [|eexists; (split; [done|]); split_and!; [lia|done|done]].
      intros i Hi. destruct (decide (i = S k)) as [->|]; [done|]. apply Hk. lia.
Qed.

Lemma fmtname_spec path : ∃ dir name, path = dir ++ name ∧ Forall (λ c, c ≠ 47) name ∧ (dir = [] ∨ ∃ d, dir = d ++ [47]) ∧
  fmtname path = name ++ replicate (14 - length name) 32.
Proof.
  destruct (name_start_spec path (length path)) as (p & Ep & Hp & Hi & Hs); [lia|]. exists (take p path), (drop p path).
  split; [by rewrite take_drop|]. split_and!.
  - rewrite Forall_forall. intros c Hc. apply list_elem_of_lookup in Hc as [i Hc]. rewrite lookup_drop in Hc.
    pose proof (lookup_lt_Some _ _ _ Hc). rewrite <- (nth_lookup_Some _ _ 0 _ Hc). apply Hi. lia.
  - destruct Hs as [->|Hs]; [by left|]. right. assert (p ≤ length path)%nat as Hle.
    { destruct (Nat.le_gt_cases p (length path)); [done|]. rewrite nth_overflow in Hs by lia. done. }
    destruct p as [|p]; [simpl in Hs|]; [|replace (S p - 1)%nat with p in Hs by lia; exists (take p path)].
    { destruct path; simpl in *; [done|]. exists []. exfalso. specialize (Hi 0%nat). simpl in Hi. apply Hi; [lia|done]. }
    destruct (lookup_lt_is_Some_2 path p) as [c Hc]; [lia|]. rewrite (take_S_r _ _ _ Hc). apply (nth_lookup_Some _ _ 0) in Hc. congruence.
  - unfold fmtname. rewrite <- Ep. destruct (Nat.leb_spec 14 (length (drop p path))); [|done].
    replace (14 - length (drop p path))%nat with 0%nat by lia. by rewrite app_nil_r.
Qed.

(** ** The list version of [printf] *)

(** The arguments in memory from [ap] on are the ones the format wants. *)
Fixpoint args_fit (m : mem) (lim : nat) (fmt : list Z) (state : Z) (args : list parg) (ap : Z) : Prop :=
  match fmt with
  | [] => True
  | c :: fmt' =>
      if state =? 0 then args_fit m lim fmt' (if c =? ch_pct then ch_pct else state) args ap
      else if state =? ch_pct then
        if (c =? ch_d) || (c =? ch_x) || (c =? ch_p) || (c =? ch_c) then
          hd_error args = Some (PInt (s32 (load32 m ap))) ∧ args_fit m lim fmt' 0 (tl args) (ap + 4)
        else if c =? ch_s then
          (∃ s, hd_error args = Some (PStr s) ∧ load32 m ap ≠ 0 ∧ cstring m (load32 m ap) s ∧ (length s < lim)%nat) ∧
          args_fit m lim fmt' 0 (tl args) (ap + 4)
        else args_fit m lim fmt' 0 args ap
      else args_fit m lim fmt' state args ap
  end.

Lemma str_text_cstring m lim : ∀ s a, cstring m a s → (length s < lim)%nat → str_text lim m a = Some s.
Proof.
  induction lim as [|lim IH]; intros [|c s] a Hs Hl; simpl in *; try lia.
  - by rewrite Hs.
  - destruct Hs as (Hc & Hz & Hs). rewrite Hc, (proj2 (Z.eqb_neq _ _)) by done. rewrite (IH s) by (done || lia). done.
Qed.

Lemma printf_text_memory m lim f : ∀ fuel fmt state args ap, cstring m fmt f → (length f < fuel)%nat → args_fit m lim f state args ap →
  Print.printf_loop lim fuel m fmt state ap = Some (printf_text f state args).
Proof.
  induction f as [|c f IH]; intros [|fuel] fmt state args ap Hf Hl Ha; simpl in Hl; try lia; cbn [printf_loop printf_text].
  - simpl in Hf. by rewrite Hf.
  - destruct Hf as (Hc & Hz & Hf). cbn [args_fit] in Ha. rewrite Hc, (proj2 (Z.eqb_neq c 0)) by done.
    assert (∀ st args ap, args_fit m lim f st args ap → printf_loop lim fuel m (fmt + 1) st ap = Some (printf_text f st args)) as Hrec.
    { intros. apply IH; [done|lia|done]. }
    destruct (state =? 0) eqn:E0; [destruct (c =? ch_pct); rewrite (Hrec _ _ _ Ha); done|].
    destruct (state =? ch_pct) eqn:E1; [|by apply Hrec].
    destruct (c =? ch_d) eqn:Ed; [|destruct (c =? ch_x) eqn:Ex; [|destruct (c =? ch_p) eqn:Ep; [|destruct (c =? ch_c) eqn:Ecc]]]; cbn [orb] in *.
    1-3: destruct Ha as [Ha Ht]; destruct args as [|a args]; [done|]; injection Ha as ->; by rewrite (Hrec _ _ _ Ht).
    + destruct Ha as [Ha Ht]. destruct args as [|a args]; [done|]. injection Ha as ->. rewrite (Hrec _ _ _ Ht).
      destruct (Z.eqb_spec c ch_s) as [->|]; [done|]. simpl. do 2 f_equal. unfold u8, s32. zmod.
    + destruct (c =? ch_s).
      * destruct Ha as [(s & Ha & Hnz & Hs & Hlen) Ht]. destruct args as [|a args]; [done|]. injection Ha as ->.
        rewrite (proj2 (Z.eqb_neq _ _)) by done. rewrite (str_text_cstring m lim s) by done. simpl. by rewrite (Hrec _ _ _ Ht).
      * rewrite (Hrec _ _ _ Ha). by destruct (c =? ch_pct).
Qed.

(** ** Examples *)

(** Two files, delivered in pieces or at once; descriptors 0 to 2 are the
    terminal. *)
Definition user_table : fdtab := Some HTty :: Some HTty :: Some HTty :: replicate 13 None.
Definition user_kern : kern := Kern (λ _, []) 0.
Definition user_oracle (files : list Z → list (list Z)) : oracle :=
  Oracle (λ _, true) (λ _, true) (λ _ _ _, true) (λ _, true) (λ p _ _, Some (files p)) (λ _, None) (λ _, 1) (λ _ _, 0).

Lemma user_output files : output_to (user_oracle files) user_table HTty 3.
Proof. done. Qed.

Definition wc_files (p : list Z) : list (list Z) := if decide (p = cstr "a") then [cstr "two wo"; cstr "rds" ++ NL] else [cstr "x"].

Lemma wc_main_correct_witness : ∃ es k', run (user_oracle wc_files) (wc_main 20 [cstr "a"; cstr "b"]) user_table user_kern = (es, Gone, user_table, k') ∧
  written HTty es = cstr "1 2 10 a" ++ NL ++ cstr "0 1 1 b" ++ NL.
Proof.
  apply (wc_main_correct (user_oracle wc_files) user_table user_kern HTty 3 [cstr "a"; cstr "b"] [cstr "two words" ++ NL; cstr "x"] 20);
    [apply user_output | done | | by repeat constructor].
  repeat constructor; intros n; (eexists; split; [reflexivity|]); split; by repeat constructor.
Defined.

Definition grep_files (p : list Z) : list (list Z) := if decide (p = cstr "a") then [cstr "no" ++ NL ++ cstr "yes" ++ NL] else [cstr "eyes" ++ NL].

