(* ===== verification/ShRun.v ===== *)
(** * The shell's commands (sh.c)

    [runcmd] and the shell's main loop as user programs. The words of a
    command are the strings in the line that [parsecmd] has cut up. *)
From S2P Require Import Prelude Machine CString Proc SysFile Print Sh ShPrint User UserSpec.

Definition sh_panic {A} (s : string) : prog A := _ ← printf 2 (cstr "%s" ++ NL) [PStr (cstr s)]; exit.

(** Fork but panics on failure. *)
Definition fork1 : prog Z :=
  pid ← sys Fork;
  if pid =? -1 then sh_panic "fork" else Ret pid.

(** Execute a command. Never returns. *)
Fixpoint runcmd (c : cmd (list Z)) : prog () :=
  match c with
  | EXEC argv =>
      match argv with
      | [] => exit
      | a :: _ => _ ← sys (Exec a argv); _ ← printf 2 (cstr "exec %s failed" ++ NL) [PStr a]; exit
      end
  | REDIR c file mode fd =>
      _ ← sys (Close fd);
      r ← sys (Open file mode);
      if r <? 0 then _ ← printf 2 (cstr "open %s failed" ++ NL) [PStr file]; exit
      else _ ← runcmd c; exit
  | LIST l r =>
      pid ← fork1;
      _ ← (if pid =? 0 then runcmd l else Ret ());
      _ ← sys Wait;
      _ ← runcmd r;
      exit
  | PIPE l r =>
      p ← sys Pipe;
      match p with
      | None => sh_panic "pipe"
      | Some (p0, p1) =>
          pid ← fork1;
          _ ← (if pid =? 0 then
                 _ ← sys (Close 1); _ ← sys (Dup p1); _ ← sys (Close p0); _ ← sys (Close p1); runcmd l
               else Ret ());
          pid ← fork1;
          _ ← (if pid =? 0 then
                 _ ← sys (Close 0); _ ← sys (Dup p0); _ ← sys (Close p0); _ ← sys (Close p1); runcmd r
               else Ret ());
          _ ← sys (Close p0);
          _ ← sys (Close p1);
          _ ← sys Wait;
          _ ← sys Wait;
          exit
      end
  | BACK c =>
      pid ← fork1;
      _ ← (if pid =? 0 then runcmd c else Ret ());
      exit
  end.

(** [None] for the end of the input; the array is zeroed first, so what is
    read ends in a zero. *)
Definition getcmd (nbuf : Z) : prog (option (list Z)) :=
  _ ← printf 2 (cstr "$ ") [];
  s ← gets nbuf;
  Ret (if hd 0 s =? 0 then None else Some (to_nul s)).

(** What [parsecmd] prints before it panics on a line that goes on after the
    command. *)
Definition leftovers (buf : list Z) : option (list Z) :=
  match (parseline buf (parse_fuel buf);; peek buf [];; get) 0%nat with
  | Ok s _ => if (s =? length buf)%nat then None else Some (drop s buf)
  | _ => None
  end.

(** [runcmd(parsecmd(buf))] *)
Definition run_line (buf : list Z) : prog () :=
  match parsecmd buf with
  | Ok (c, buf') _ => runcmd (cmd_map (λ w, string_at buf' w.1) c)
  | Panic e =>
      _ ← match leftovers buf with
          | Some s => printf 2 (cstr "leftovers: %s" ++ NL) [PStr s]
          | None => Ret ()
          end;
      sh_panic e
  | Hang => Spin
  end.

(** The directory of a line that starts with [cd ]. *)
Definition cd_path (buf : list Z) : option (list Z) :=
  if (nth 0 buf 0 =? 99) && (nth 1 buf 0 =? 100) && (nth 2 buf 0 =? 32)
  then Some (drop 3 (take (length buf - 1) buf)) else None.

(** Read and run input commands. *)
Fixpoint sh_loop (fuel : nat) : prog () :=
  match fuel with
  | O => Spin
  | S fuel' =>
      r ← getcmd 100;
      match r with
      | None => exit
      | Some buf =>
          match cd_path buf with
          | Some dir =>
              r ← sys (Chdir dir);
              _ ← (if r <? 0 then printf 2 (cstr "cannot cd %s" ++ NL) [PStr dir] else Ret ());
              sh_loop fuel'
          | None =>
              pid ← fork1;
              _ ← (if pid =? 0 then run_line buf else Ret ());
              _ ← sys Wait;
              sh_loop fuel'
          end
      end
  end.

(** Ensure that three file descriptors are open. *)
Fixpoint open_console (fuel : nat) : prog () :=
  match fuel with
  | O => Spin
  | S fuel' =>
      fd ← sys (Open (cstr "console") O_RDWR);
      if 0 <=? fd then
        if 3 <=? fd then _ ← sys (Close fd); Ret () else open_console fuel'
      else Ret ()
  end.

(** Four turns open the missing descriptors and notice it. *)
Definition sh_main (fuel : nat) : prog () := _ ← open_console 4; sh_loop fuel.

(** * What the shell does with a line

    A command is run by processes whose descriptors are exactly the ones the
    command asks for: [plan] says this without closing, duplicating or forking
    anything, and [runcmd] does what [plan] says. *)

(** ** Programs that do not return *)

Fixpoint ends {A} (p : prog A) : Prop :=
  match p with
  | Ret _ => False
  | Vis _ k => ∀ r, ends (k r)
  | Spin => True
  end.

Lemma ends_after {A B} (p : prog A) (f : A → prog B) : (∀ a, ends (f a)) → ends (p ≫= f).
Proof. intros Hf. induction p as [a|R c k IH|]; [apply Hf | intros r; apply IH | done]. Qed.

Lemma ends_exit {A} : ends (exit : prog A).
Proof. intros []. Qed.

Lemma run_ends O {A} (p : prog A) (f : A → prog A) : ends p → ∀ t k, run O (p ≫= f) t k = run O p t k.
Proof.
  induction p as [a|R c K IH|]; intros He t k; [done| |done].
  change (Vis c K ≫= f) with (Vis c (λ r, K r ≫= f)). cbn [run]. destruct (fork_result c) as [inj|].
  - destruct (can_fork O (clock k)); [|by apply IH]. rewrite IH by apply He.
    destruct (run O (K (inj 0)) t (tick k)) as [[[es r] t'] k']. by rewrite IH by apply He.
  - destruct (answer O c t k) as [[[es [r|]] t'] k']; [|done]. by rewrite IH by apply He.
Qed.

Lemma runcmd_ends c : ends (runcmd c).
Proof.
  destruct c as [[|a argv]|c f m fd|l r|l r|c]; cbn [runcmd].
  - apply ends_exit.
  - repeat (apply ends_after; intros ?). apply ends_exit.
  - do 2 (apply ends_after; intros ?). case_match; apply ends_after; intros; apply ends_exit.
  - apply ends_after. intros [[p0 p1]|]; [repeat (apply ends_after; intros ?)|apply ends_after; intros]; apply ends_exit.
  - repeat (apply ends_after; intros ?). apply ends_exit.
  - repeat (apply ends_after; intros ?). apply ends_exit.
Qed.

Lemma reach_under O {A B} (f : A → prog B) p t k es q t' k' :
  reach O p t k es q t' k' → reach O (p ≫= f) t k es (q ≫= f) t' k'.
Proof. induction 1; [constructor|]. by econstructor. Qed.

Definition panic_text (s : string) : list Z := printf_text (cstr "%s" ++ NL) 0 [PStr (cstr s)].

Lemma run_panic O {A B} (f : A → prog B) s t k : run O (sh_panic s ≫= f) t k = (says O t 2 (panic_text s), Gone, t, k).
Proof.
  unfold sh_panic. rewrite (run_reach _ _ _ _ _ _ _ _ (reach_under O f _ _ _ _ _ _ _ (reach_bind O _ _ _ _ _ _ _ _ (reach_printf O 2 _ _ t k)))).
  simpl. by rewrite app_nil_r.
Qed.

Lemma run_sh_panic O {A} s t k : run O (sh_panic s : prog A) t k = (says O t 2 (panic_text s), Gone, t, k).
Proof. apply run_say_exit. Qed.

(** Both sides of a [fork1]. *)
Lemma run_fork1 O {B} (f : Z → prog B) t k : run O (fork1 ≫= f) t k =
  if can_fork O (clock k) then
    let '(es, _, _, k1) := run O (f 0) t (tick k) in after [Child es] (run O (f (1 + Z.of_nat (clock k))) t k1)
  else (says O t 2 (panic_text "fork"), Gone, t, tick k).
Proof.
  change (fork1 ≫= f) with (Vis Fork (λ pid, (if pid =? -1 then sh_panic "fork" else Ret pid) ≫= f)). cbn [run fork_result].
  destruct (can_fork O (clock k)); [|apply run_panic]. unfold id. change (0 =? -1) with false. cbv iota.
  rewrite (proj2 (Z.eqb_neq _ _)) by lia. done.
Qed.

(** ** The plan of a command *)

Section plan.
Variable O : oracle.

Definition say (t : fdtab) (fmt : list Z) (s : list Z) : list event := says O t 2 (printf_text fmt 0 [PStr s]).
Definition exec_failed : list Z := cstr "exec %s failed" ++ NL.
Definition open_failed : list Z := cstr "open %s failed" ++ NL.

(** The events of a process that runs [c] with the descriptors [t], from
    clock [n] on. *)
Fixpoint plan (c : cmd (list Z)) (t : fdtab) (n : nat) : list event * nat :=
  match c with
  | EXEC [] => ([], n)
  | EXEC ((a :: _) as argv) =>
      (if can_exec O a argv n then [Launched a argv t] else say t exec_failed a, S n)
  | REDIR c f mode fd =>
      match content O f mode n with
      | Some _ => plan c (<[Z.to_nat fd := Some (HFile f mode n)]> t) (S n)
      | None => (say t open_failed f, S n)
      end
  | LIST l r =>
      if can_fork O n then
        let '(es, n1) := plan l t (S n) in
        let '(es', n2) := plan r t (S n1) in (Child es :: Waited t :: es', n2)
      else (says O t 2 (panic_text "fork"), S n)
  | PIPE l r =>
      if can_pipe O n then
        if can_fork O (S n) then
          let '(es, n1) := plan l (<[1%nat := Some (HPipeW n)]> t) (S (S n)) in
          if can_fork O n1 then
            let '(es', n2) := plan r (<[0%nat := Some (HPipeR n)]> t) (S n1) in
            ([Child es; Child es'; Waited t; Waited t], S (S n2))
          else (Child es :: says O t 2 (panic_text "fork"), S n1)
        else (says O t 2 (panic_text "fork"), S (S n))
      else (says O t 2 (panic_text "pipe"), S n)
  | BACK c =>
      if can_fork O n then let '(es, n1) := plan c t (S n) in ([Child es], n1)
      else (says O t 2 (panic_text "fork"), S n)
  end.
End plan.

(** Descriptors 0, 1 and 2 are open and two others are free. *)
Definition shell_table (t : fdtab) : Prop :=
  ∃ h0 h1 h2 rest a b, t = Some h0 :: Some h1 :: Some h2 :: rest ∧ first_free rest = Some a ∧
    ∀ h : handle, first_free (<[a := Some h]> rest) = Some b.

(** Redirections are of descriptors 0 and 1. *)
Fixpoint std_redirs {W} (c : cmd W) : Prop :=
  match c with
  | EXEC _ => True
  | REDIR c _ _ fd => (fd = 0 ∨ fd = 1) ∧ std_redirs c
  | PIPE l r | LIST l r => std_redirs l ∧ std_redirs r
  | BACK c => std_redirs c
  end.

(** Files that are open already. *)
Definition old (k : kern) (h : handle) : Prop := ∀ p m n, (clock k ≤ n)%nat → h ≠ HFile p m n.

(** What is left to read from them is the same. *)
Definition keeps (k k' : kern) : Prop := (clock k ≤ clock k')%nat ∧ ∀ h, old k h → pend k' h = pend k h.

Lemma keeps_refl k : keeps k k.
Proof. by split. Qed.

Lemma keeps_tick k : keeps k (tick k).
Proof. split; [simpl; lia|done]. Qed.

Lemma old_keeps k k' h : keeps k k' → old k h → old k' h.
Proof. intros [Hc _] H p m n Hn. apply H. lia. Qed.

Lemma keeps_chain k1 k2 k3 : keeps k1 k2 → keeps k2 k3 → keeps k1 k3.
Proof.
  intros H12 H23. pose proof H12 as [C1 P1]. pose proof H23 as [C2 P2]. split; [lia|]. intros h Hh.
  rewrite P2 by (by eapply old_keeps). by apply P1.
Qed.

Lemma keeps_open k p m bs : keeps k (set_pend (HFile p m (clock k)) bs (tick k)).
Proof. split; [simpl; lia|]. intros h Hh. simpl. rewrite decide_False; [done|]. by apply Hh. Qed.

(** ** [runcmd] does what is planned *)

(** The process [p] shows the events [r.1] and is gone. *)
Definition does (O : oracle) (p : prog ()) (t : fdtab) (k : kern) (r : list event * nat) : Prop :=
  ∃ t' k', run O p t k = (r.1, Gone, t', k') ∧ clock k' = r.2 ∧ keeps k k'.

Lemma does_reach O p t k es q t1 k1 r : reach O p t k es q t1 k1 → keeps k k1 → does O q t1 k1 r → does O p t k (es ++ r.1, r.2).
Proof.
  intros Hr Hk (t' & k' & E & Hc & Hk'). exists t', k'. rewrite (run_reach _ _ _ _ _ _ _ _ Hr), E. split; [done|]. split; [done|].
  by eapply keeps_chain.
Qed.

Lemma does_silent O p t k q t1 k1 r : reach O p t k [] q t1 k1 → keeps k k1 → does O q t1 k1 r → does O p t k r.
Proof. intros Hr Hk Hq. pose proof (does_reach _ _ _ _ _ _ _ _ _ Hr Hk Hq) as H. by destruct r. Qed.

Lemma does_exit O t k : does O exit t k ([], clock k).
Proof. exists t, k. split; [done|]. split; [done|apply keeps_refl]. Qed.

Lemma does_ends O p (f : () → prog ()) t k r : ends p → does O p t k r → does O (p ≫= f) t k r.
Proof. intros He (t' & k' & E & H). exists t', k'. by rewrite run_ends. Qed.

Lemma does_say O fd fmt args t k : does O (printf fd fmt args ≫= λ _, exit) t k (says O t fd (printf_text fmt 0 args), clock k).
Proof. exists t, k. split; [apply run_say_exit|]. split; [done|apply keeps_refl]. Qed.

Lemma does_panic O s t k : does O (sh_panic s) t k (says O t 2 (panic_text s), clock k).
Proof. apply does_say. Qed.

(** A fork: the child's events and what the parent does after. *)
Lemma does_fork1 O (f : Z → prog ()) t k es n r : can_fork O (clock k) = true → does O (f 0) t (tick k) (es, n) →
  (∀ pid k1, 0 < pid → clock k1 = n → keeps k k1 → does O (f pid) t k1 r) → does O (fork1 ≫= f) t k (Child es :: r.1, r.2).
Proof.
  intros Hf (t1 & k1 & E1 & Hc1 & Hk1) Hp. simpl in E1, Hc1. pose proof (keeps_chain _ _ _ (keeps_tick k) Hk1) as Hk.
  destruct (Hp (1 + Z.of_nat (clock k)) k1 ltac:(lia) Hc1 Hk) as (t2 & k2 & E2 & Hc2 & Hk2).
  exists t2, k2. rewrite run_fork1, Hf, E1, E2. split; [done|]. split; [done|]. by eapply keeps_chain.
Qed.

Lemma does_fork1_fails O (f : Z → prog ()) t k : can_fork O (clock k) = false →
  does O (fork1 ≫= f) t k (says O t 2 (panic_text "fork"), S (clock k)).
Proof. intros Hf. exists t, (tick k). rewrite run_fork1, Hf. split; [done|]. split; [done|apply keeps_tick]. Qed.

Lemma does_wait O (f : Z → prog ()) t k r : (∀ z, does O (f z) t (tick k) r) → does O (sys Wait ≫= f) t k (Waited t :: r.1, r.2).
Proof.
  intros H. eapply (does_reach _ _ _ _ [Waited t]); [|apply keeps_tick|apply (H (reaped O (clock k)))].
  change [Waited t] with ([Waited t] ++ []). eapply reach_sys; [done|done|constructor].
Qed.

(** *** Tables *)

Lemma handle_of_rest (x y z : option handle) rest a : handle_of (x :: y :: z :: rest) (Z.of_nat (3 + a)) = mjoin (rest !! a).
Proof. unfold handle_of. rewrite (proj2 (Z.ltb_ge _ _)) by lia. by rewrite Nat2Z.id. Qed.

Section pipe_ends.
Context (O : oracle) (h0 h1 h2 : handle) (rest : fdtab) (a b : nat).
Hypothesis Ha : first_free rest = Some a.
Hypothesis Hb : ∀ h : handle, first_free (<[a := Some h]> rest) = Some b.

Notation t := (Some h0 :: Some h1 :: Some h2 :: rest).
Notation piped n := (Some h0 :: Some h1 :: Some h2 :: <[b := Some (HPipeW n)]> (<[a := Some (HPipeR n)]> rest)).

Lemma places : rest !! a = Some None ∧ rest !! b = Some None ∧ a ≠ b.
Proof using Ha Hb.
  pose proof (first_free_spec _ _ Ha) as Hra. pose proof (first_free_spec _ _ (Hb HTty)) as Hrb.
  assert (a ≠ b) as Hne.
  { intros <-. rewrite list_lookup_insert_eq in Hrb by (by eapply lookup_lt_Some). done. }
  by rewrite list_lookup_insert_ne in Hrb.
Qed.

Lemma answer_pipe k : answer O Pipe t k =
  if can_pipe O (clock k) then ([], Some (Some (Z.of_nat (3 + a), Z.of_nat (3 + b))), piped (clock k), tick k)
  else ([], Some None, t, tick k).
Proof using Ha Hb.
  cbn [answer first_free]. rewrite Ha. cbn [fmap option_fmap option_map].
  change (<[S (S (S a)) := ?x]> (Some h0 :: Some h1 :: Some h2 :: rest)) with (Some h0 :: Some h1 :: Some h2 :: <[a := x]> rest).
  cbn [first_free]. rewrite Hb. cbn [fmap option_fmap option_map]. by destruct (can_pipe O (clock k)).
Qed.

(** Both ends are closed again. *)
Lemma both_ends n x y z : <[b := None]> (<[a := None]> (<[b := Some (HPipeW n)]> (<[a := Some (HPipeR n)]> rest))) = rest ∧
  handle_of (x :: y :: z :: <[b := Some (HPipeW n)]> (<[a := Some (HPipeR n)]> rest)) (Z.of_nat (3 + a)) = Some (HPipeR n) ∧
  handle_of (x :: y :: z :: <[b := Some (HPipeW n)]> (<[a := Some (HPipeR n)]> rest)) (Z.of_nat (3 + b)) = Some (HPipeW n) ∧
  handle_of (x :: y :: z :: <[a := None]> (<[b := Some (HPipeW n)]> (<[a := Some (HPipeR n)]> rest))) (Z.of_nat (3 + b)) = Some (HPipeW n).
Proof using Ha Hb.
  destruct places as (Hra & Hrb & Hne). pose proof (lookup_lt_Some _ _ _ Hra). pose proof (lookup_lt_Some _ _ _ Hrb).
  rewrite !handle_of_rest. split_and!.
  - rewrite (list_insert_insert_ne _ a b) by done. rewrite !list_insert_insert_eq. rewrite (list_insert_id rest a) by done. by apply list_insert_id.
  - rewrite list_lookup_insert_ne, list_lookup_insert_eq by done. done.
  - rewrite list_lookup_insert_eq by (by rewrite length_insert). done.
  - rewrite list_lookup_insert_ne, list_lookup_insert_eq by (done || by rewrite length_insert). done.
Qed.

Lemma close_rest (x y z : option handle) l i h k (q : prog ()) : handle_of (x :: y :: z :: l) (Z.of_nat (3 + i)) = Some h →
  reach O (sys (Close (Z.of_nat (3 + i))) ≫= λ _, q) (x :: y :: z :: l) k [] q (x :: y :: z :: <[i := None]> l) k.
Proof using Type. intros Hh. eapply reach_silent; [cbn [answer]; rewrite Hh, Nat2Z.id; reflexivity | done | constructor]. Qed.

Lemma close_ends n x y z k (q : prog ()) :
  reach O (sys (Close (Z.of_nat (3 + a))) ≫= λ _, sys (Close (Z.of_nat (3 + b))) ≫= λ _, q)
    (x :: y :: z :: <[b := Some (HPipeW n)]> (<[a := Some (HPipeR n)]> rest)) k [] q (x :: y :: z :: rest) k.
Proof using Ha Hb.
  destruct (both_ends n x y z) as (E & E1 & _ & E2). eapply (reach_trans _ _ _ _ [] _ _ _ []); [eapply close_rest, E1|].
  rewrite <- E at 2. eapply close_rest, E2.
Qed.

(** The left side writes to the pipe, the right side reads from it; neither
    keeps another end. *)
Lemma left_end n k (q : prog ()) :
  reach O (sys (Close 1) ≫= λ _, sys (Dup (Z.of_nat (3 + b))) ≫= λ _, sys (Close (Z.of_nat (3 + a))) ≫= λ _,
    sys (Close (Z.of_nat (3 + b))) ≫= λ _, q) (piped n) k [] q (<[1%nat := Some (HPipeW n)]> t) k.
Proof using Ha Hb.
  destruct (both_ends n (Some h0) None (Some h2)) as (_ & _ & E & _).
  eapply reach_silent; [reflexivity | done |]. change (<[Z.to_nat 1 := None]> (piped n)) with (Some h0 :: None :: Some h2 :: <[b := Some (HPipeW n)]> (<[a := Some (HPipeR n)]> rest)).
  eapply reach_silent; [cbn [answer]; rewrite E; reflexivity | done |]. apply close_ends.
Qed.

Lemma right_end n k (q : prog ()) :
  reach O (sys (Close 0) ≫= λ _, sys (Dup (Z.of_nat (3 + a))) ≫= λ _, sys (Close (Z.of_nat (3 + a))) ≫= λ _,
    sys (Close (Z.of_nat (3 + b))) ≫= λ _, q) (piped n) k [] q (<[0%nat := Some (HPipeR n)]> t) k.
Proof using Ha Hb.
  destruct (both_ends n None (Some h1) (Some h2)) as (_ & E & _ & _).
  eapply reach_silent; [reflexivity | done |]. change (<[Z.to_nat 0 := None]> (piped n)) with (None :: Some h1 :: Some h2 :: <[b := Some (HPipeW n)]> (<[a := Some (HPipeR n)]> rest)).
  eapply reach_silent; [cbn [answer]; rewrite E; reflexivity | done |]. apply close_ends.
Qed.
End pipe_ends.

Lemma shell_table_std t fd h : shell_table t → fd = 0 ∨ fd = 1 → shell_table (<[Z.to_nat fd := Some h]> t).
Proof.
  intros (h0 & h1 & h2 & rest & a & b & -> & H) [->| ->]; [exists h, h1, h2, rest, a, b | exists h0, h, h2, rest, a, b]; by split.
Qed.

(** Closing a standard descriptor and opening a file puts the file there. *)
Lemma answer_reopen O t k fd f mode bs : shell_table t → fd = 0 ∨ fd = 1 → content O f mode (clock k) = Some bs →
  answer O (Open f mode) (<[Z.to_nat fd := None]> t) k =
    ([], Some fd, <[Z.to_nat fd := Some (HFile f mode (clock k))]> t, set_pend (HFile f mode (clock k)) bs (tick k)).
Proof. intros (h0 & h1 & h2 & rest & a & b & -> & _) [->| ->] E; cbn [answer]; by rewrite E. Qed.

Lemma close_std O t k fd : shell_table t → fd = 0 ∨ fd = 1 →
  answer O (Close fd) t k = ([], Some 0, <[Z.to_nat fd := None]> t, k).
Proof. by intros (h0 & h1 & h2 & rest & a & b & -> & _) [->| ->]. Qed.

Lemma says_std O t fd o text : shell_table t → fd = 0 ∨ fd = 1 → says O (<[Z.to_nat fd := o]> t) 2 text = says O t 2 text.
Proof. by intros (h0 & h1 & h2 & rest & a & b & -> & _) [->| ->]. Qed.

Lemma does_ret O {A} (a : A) (f : A → prog ()) t k r : does O (f a) t k r → does O (Ret a ≫= f) t k r.
Proof. done. Qed.

(** The guard of a child's code, in the child and in the parent. *)
Lemma does_child O (p : prog ()) (f : () → prog ()) t k r : ends p → does O p t k r → does O ((if 0 =? 0 then p else Ret ()) ≫= f) t k r.
Proof. apply does_ends. Qed.

Lemma does_parent O pid (p : prog ()) (f : () → prog ()) t k r : 0 < pid → does O (f ()) t k r → does O ((if pid =? 0 then p else Ret ()) ≫= f) t k r.
Proof. intros Hp H. by rewrite (proj2 (Z.eqb_neq pid 0)) by lia. Qed.

Notation planned O c := (∀ t k, shell_table t → does O (runcmd c) t k (plan O c t (clock k))).

Lemma runcmd_redir O c f mode fd t k : shell_table t → fd = 0 ∨ fd = 1 → planned O c →
  does O (runcmd (REDIR c f mode fd)) t k (plan O (REDIR c f mode fd) t (clock k)).
Proof.
  intros Ht Hfd IH. cbn [runcmd plan]. destruct (content O f mode (clock k)) as [bs|] eqn:E.
  - eapply does_silent; [|apply keeps_open|apply does_ends, IH; [apply runcmd_ends|by apply shell_table_std]].
    eapply reach_silent; [by apply close_std|done|]. eapply reach_silent; [by apply answer_reopen|done|].
    rewrite (proj2 (Z.ltb_ge _ _)) by lia. constructor.
  - unfold say. rewrite <- (says_std O t fd None) by done. eapply does_silent; [|apply keeps_tick|apply does_say].
    eapply reach_silent; [by apply close_std|done|]. eapply reach_silent; [cbn [answer]; rewrite E; reflexivity|done|constructor].
Qed.

Lemma runcmd_list O l r t k : shell_table t → planned O l → planned O r →
  does O (runcmd (LIST l r)) t k (plan O (LIST l r) t (clock k)).
Proof.
  intros Ht IHl IHr. cbn [runcmd plan]. destruct (can_fork O (clock k)) eqn:Ef; [|by apply does_fork1_fails].
  pose proof (IHl t (tick k) Ht) as HL. change (clock (tick k)) with (S (clock k)) in HL. destruct (plan O l t (S (clock k))) as [es n1].
  destruct (plan O r t (S n1)) as [es' n2] eqn:Er. apply (does_fork1 O _ t k es n1 (Waited t :: es', n2)); [done| |].
  - apply does_child; [apply runcmd_ends|exact HL].
  - intros pid k1 Hpid Hk1 _. apply does_parent; [done|]. apply (does_wait O _ t k1 (es', n2)). intros _.
    apply does_ends; [apply runcmd_ends|]. rewrite <- Er, <- Hk1. apply (IHr t (tick k1) Ht).
Qed.

Lemma runcmd_back O c t k : shell_table t → planned O c → does O (runcmd (BACK c)) t k (plan O (BACK c) t (clock k)).
Proof.
  intros Ht IH. cbn [runcmd plan]. destruct (can_fork O (clock k)) eqn:Ef; [|by apply does_fork1_fails].
  pose proof (IH t (tick k) Ht) as HC. change (clock (tick k)) with (S (clock k)) in HC. destruct (plan O c t (S (clock k))) as [es n1].
  apply (does_fork1 O _ t k es n1 ([], n1)); [done|by apply does_child; [apply runcmd_ends|]|].
  intros pid k1 Hpid <- _. apply does_parent; [done|]. apply does_exit.
Qed.

Lemma runcmd_pipe O l r t k : shell_table t → planned O l → planned O r →
  does O (runcmd (PIPE l r)) t k (plan O (PIPE l r) t (clock k)).
Proof.
  intros Ht IHl IHr. cbn [runcmd plan]. pose proof Ht as (h0 & h1 & h2 & rest & a & b & -> & Ha & Hb). set (n := clock k).
  pose proof (answer_pipe O h0 h1 h2 rest a b Ha Hb k) as Ep. fold n in Ep. destruct (can_pipe O n) eqn:Ecp.
  2: { eapply does_silent; [|apply (keeps_tick k)|apply (does_panic O "pipe" _ (tick k))]. eapply reach_silent; [exact Ep|done|constructor]. }
  eapply does_silent; [eapply reach_silent; [exact Ep|done|constructor]|apply keeps_tick|]. cbv beta iota.
  set (t := Some h0 :: Some h1 :: Some h2 :: rest) in *. set (tp := Some h0 :: _).
  assert (∀ text, says O tp 2 text = says O t 2 text) as Hsay by done.
  destruct (can_fork O (S n)) eqn:Ef1; [|rewrite <- Hsay; by apply (does_fork1_fails O _ tp (tick k))].
  pose proof (IHl (<[1%nat := Some (HPipeW n)]> t) (tick (tick k)) ltac:(apply (shell_table_std t 1); [done|by right])) as HL.
  change (clock (tick (tick k))) with (S (S n)) in HL. destruct (plan O l _ (S (S n))) as [es n1].
  set (rest1 := λ _ : (), fork1 ≫= _). 
  assert (does O ((if 0 =? 0 then (_ ← sys (Close 1); _ ← sys (Dup (Z.of_nat (3 + b))); _ ← sys (Close (Z.of_nat (3 + a)));
    _ ← sys (Close (Z.of_nat (3 + b))); runcmd l) else Ret ()) ≫= rest1) tp (tick (tick k)) (es, n1)) as Hleft.
  { apply does_child; [repeat (apply ends_after; intros _); apply runcmd_ends|].
    eapply does_silent; [apply (left_end O h0 h1 h2 rest a b Ha Hb)|apply keeps_refl|exact HL]. }
  destruct (can_fork O n1) eqn:Ef2.
  - destruct (plan O r (<[0%nat := Some (HPipeR n)]> t) (S n1)) as [es' n2] eqn:Er.
    apply (does_fork1 O _ tp (tick k) es n1 ([Child es'; Waited t; Waited t], S (S n2))); [done|exact Hleft|].
    intros pid k1 Hpid Hk1 _. apply does_parent; [done|]. unfold rest1.
    apply (does_fork1 O _ tp k1 es' n2 ([Waited t; Waited t], S (S n2))); [by rewrite Hk1| |].
    + apply does_child; [repeat (apply ends_after; intros _); apply runcmd_ends|].
      eapply does_silent; [apply (right_end O h0 h1 h2 rest a b Ha Hb)|apply keeps_refl|].
      rewrite <- Er, <- Hk1. apply (IHr _ (tick k1)). apply (shell_table_std t 0); [done|by left].
    + intros pid' k2 Hpid' Hk2 _. apply does_parent; [done|].
      eapply does_silent; [apply (close_ends O rest a b Ha Hb)|apply keeps_refl|].
      apply (does_wait O _ _ k2 ([Waited t], S (S n2))). intros _. apply (does_wait O _ _ (tick k2) ([], S (S n2))). intros _.
      rewrite <- Hk2. apply does_exit.
  - apply (does_fork1 O _ tp (tick k) es n1 (says O t 2 (panic_text "fork"), S n1)); [done|exact Hleft|].
    intros pid k1 Hpid Hk1 _. apply does_parent; [done|]. rewrite <- Hsay, <- Hk1. apply does_fork1_fails. by rewrite Hk1.
Qed.

Lemma runcmd_does O c : ∀ t k, shell_table t → std_redirs c → does O (runcmd c) t k (plan O c t (clock k)).
Proof.
  induction c as [argv|c IH f mode fd|l IHl r IHr|l IHl r IHr|c IH]; intros t k Ht Hc.
  - destruct argv as [|a argv]; cbn [runcmd plan]; [apply does_exit|]. destruct (can_exec O a (a :: argv) (clock k)) eqn:E.
    + exists t, (tick k). split; [|split; [done|apply keeps_tick]].
      apply run_gone; [simpl; rewrite E; reflexivity|reflexivity].
    + eapply does_silent; [|apply keeps_tick|apply (does_say O 2 exec_failed [PStr a] t (tick k))].
      eapply reach_silent; [cbn [answer]; rewrite E; reflexivity|done|constructor].
  - destruct Hc as [Hfd Hc]. apply runcmd_redir; auto.
  - destruct Hc as [Hl Hr]. apply runcmd_pipe; auto.
  - destruct Hc as [Hl Hr]. apply runcmd_list; auto.
  - apply runcmd_back; auto.
Qed.

(** ** Redirections of parsed commands *)

Definition yields {A} (P : A → Prop) (m : M nat A) : Prop := ∀ s a s', m s = Ok a s' → P a.

Lemma yields_bind {A B} (P : A → Prop) (Q : B → Prop) (m : M nat A) (f : A → M nat B) :
  yields P m → (∀ a, P a → yields Q (f a)) → yields Q (m ≫= f).
Proof. intros Hm Hf s b s' E. apply bind_inv in E as (a & s1 & E1 & E2). by eapply Hf; [eapply Hm|]. Qed.

Lemma yields_any {A B} (Q : B → Prop) (m : M nat A) (f : A → M nat B) : (∀ a, yields Q (f a)) → yields Q (m ≫= f).
Proof. intros Hf. apply (yields_bind (λ _, True)); [done|]. intros a _. apply Hf. Qed.

Lemma yields_ret {A} (P : A → Prop) a : P a → yields P (mret a).
Proof. intros Ha s b s' E. by injection E as <- _. Qed.

Notation std_fds := (Forall (λ r : nat * nat * Z * Z, r.2 = 0 ∨ r.2 = 1)).

Lemma redirect_std rs : ∀ c : cmd (nat * nat), std_redirs c → std_fds rs → std_redirs (redirect c rs).
Proof.
  induction rs as [|[[w m] fd] rs IH]; intros c Hc Hr; [done|]. apply Forall_cons in Hr as [Hfd Hr]. by apply IH.
Qed.

Section parsed.
Context (buf : list Z).

Lemma parseredirs_std fuel : yields std_fds (parseredirs buf fuel).
Proof.
  induction fuel as [|fuel IH]; [done|]. cbn [parseredirs]. apply yields_any. intros [|]; [|by apply yields_ret].
  apply yields_any. intros [[tok q0] eq0]. apply yields_any. intros [[tok' q] eq]. destruct (negb (tok' =? 97)); [done|].
  apply (yields_bind std_fds); [done|]. intros rs Hrs. apply yields_ret.
  repeat case_match; try done; apply Forall_cons; split; [by left|done|by right|done].
Qed.

Lemma exec_loop_std fuel : ∀ argc, yields (λ r, std_fds r.2) (exec_loop buf fuel argc).
Proof.
  induction fuel as [|fuel IH]; intros argc; [done|]. cbn [exec_loop]. apply yields_any. intros [|]; [by apply yields_ret|].
  apply yields_any. intros [[tok q] eq]. destruct (tok =? 0); [by apply yields_ret|]. destruct (negb (tok =? 97)); [done|].
  destruct (MAXARGS <=? S argc)%nat; [done|]. apply (yields_bind std_fds); [apply parseredirs_std|]. intros rs Hrs.
  eapply yields_bind; [apply IH|]. intros r Hr. apply yields_ret. by apply Forall_app.
Qed.

Lemma back_loop_std fuel : ∀ c, std_redirs c → yields std_redirs (back_loop buf fuel c).
Proof.
  induction fuel as [|fuel IH]; intros c Hc; [done|]. cbn [back_loop]. apply yields_any. intros [|]; [|by apply yields_ret].
  apply yields_any. intros _. by apply IH.
Qed.

Lemma parse_std fuel : yields std_redirs (parseline buf fuel) ∧ yields std_redirs (parsepipe buf fuel) ∧
  yields std_redirs (parseexec buf fuel) ∧ yields std_redirs (parseblock buf fuel).
Proof.
  induction fuel as [|fuel (IHl & IHp & IHe & IHb)]; [done|]. split_and!.
  - cbn [parseline]. eapply yields_bind; [apply IHp|]. intros c Hc. eapply yields_bind; [by apply back_loop_std|]. intros c' Hc'.
    apply yields_any. intros [|]; [|by apply yields_ret]. apply yields_any. intros _. eapply yields_bind; [apply IHl|].
    intros r Hr. by apply yields_ret.
  - cbn [parsepipe]. eapply yields_bind; [apply IHe|]. intros c Hc. apply yields_any. intros [|]; [|by apply yields_ret].
    apply yields_any. intros _. eapply yields_bind; [apply IHp|]. intros r Hr. by apply yields_ret.
  - cbn [parseexec]. apply yields_any. intros [|]; [apply IHb|]. apply (yields_bind std_fds); [apply parseredirs_std|]. intros rs Hrs.
    eapply yields_bind; [apply exec_loop_std|]. intros r Hr. apply yields_ret. apply redirect_std; [done|]. by apply Forall_app.
  - cbn [parseblock]. apply yields_any. intros [|]; [|done]. apply yields_any. intros _. eapply yields_bind; [apply IHl|]. intros c Hc.
    apply yields_any. intros [|]; [|done]. apply yields_any. intros _. apply (yields_bind std_fds); [apply parseredirs_std|]. intros rs Hrs.
    apply yields_ret. by apply redirect_std.
Qed.

Lemma parsecmd_std c buf' s : parsecmd buf = Ok (c, buf') s → std_redirs c.
Proof.
  unfold parsecmd. intros E. apply bind_inv in E as (c0 & s1 & E1 & E). apply bind_inv in E as (b & s2 & _ & E).
  apply bind_inv in E as (s3 & s4 & _ & E). destruct (negb (s3 =? length buf)%nat); [done|]. injection E as <- _ _.
  by eapply (proj1 (parse_std _)).
Qed.
End parsed.

Lemma std_redirs_map {V W} (f : V → W) c : std_redirs c → std_redirs (cmd_map f c).
Proof. induction c; simpl; naive_solver. Qed.

(** ** A session *)

Section session.
Variable O : oracle.

(** The process that runs a line. *)
Definition line_plan (buf : list Z) (t : fdtab) (n : nat) : list event * nat :=
  match parsecmd buf with
  | Ok (c, buf') _ => plan O (cmd_map (λ w, string_at buf' w.1) c) t n
  | Panic e =>
      (match leftovers buf with
       | Some s => say O t (cstr "leftovers: %s" ++ NL) s
       | None => []
       end ++ says O t 2 (panic_text e), n)
  | Hang => ([], n)
  end.

Definition prompt (t : fdtab) : list event := says O t 2 (cstr "$ ").

(** What the shell shows when it reads the lines [ls]. *)
Fixpoint session (ls : list (list Z)) (t : fdtab) (n : nat) : list event * nat :=
  match ls with
  | [] => (prompt t, n)
  | l :: ls' =>
      match cd_path l with
      | Some dir =>
          let r := reply O (Chdir dir) n in
          let '(es, n1) := session ls' t (S n) in
          (prompt t ++ Asked (Chdir dir) r :: (if r <? 0 then say O t (cstr "cannot cd %s" ++ NL) dir else []) ++ es, n1)
      | None =>
          if can_fork O n then
            let '(es, n1) := line_plan l t (S n) in
            let '(es', n2) := session ls' t (S n1) in
            (prompt t ++ Child es :: Waited t :: es', n2)
          else (prompt t ++ says O t 2 (panic_text "fork"), S n)
      end
  end.
End session.

(** A line of text that fits the shell's buffer. *)
Definition line_ok (l : list Z) : Prop :=
  ∃ body, l = body ++ [10] ∧ Forall (λ c, c ≠ 0 ∧ c ≠ 10 ∧ c ≠ 13) body ∧ (length body < 99)%nat.

Lemma run_line_ends buf : ends (run_line buf).
Proof.
  unfold run_line. destruct (parsecmd buf) as [[c buf'] s|e|]; [apply runcmd_ends| |done].
  apply ends_after. intros _. apply ends_after. intros _. apply ends_exit.
Qed.

Lemma run_line_does O buf t k : shell_table t → Forall (λ c, c ≠ 0) buf → does O (run_line buf) t k (line_plan O buf t (clock k)).
Proof.
  intros Ht Hz. unfold run_line, line_plan. pose proof (parsecmd_post buf Hz) as Hpost.
  destruct (parsecmd buf) as [[c buf'] s|e|] eqn:E; [| |done].
  - apply runcmd_does; [done|]. eapply std_redirs_map, parsecmd_std, E.
  - apply (does_reach O _ t k _ (sh_panic e) t k (says O t 2 (panic_text e), clock k)); [|apply keeps_refl|apply does_panic].
    apply (reach_bind O (λ _, sh_panic e) _ _ _ _ ()). destruct (leftovers buf); [apply reach_printf|constructor].
Qed.

(** *** Reading a line *)

Lemma answer_byte O fd t k h c data : handle_of t fd = Some h → pieces (pend k h) → concat (pend k h) = c :: data →
  ∃ l, answer O (Read fd 1) t k = ([], Some (Some [c]), t, set_pend h l k) ∧ concat l = data ∧ pieces l.
Proof.
  intros Hh Hp Hc. destruct (answer_read O fd 1 t k h Hh ltac:(lia) Hp) as (bs & l & Ea & Ec & Hl & Hnil & Hlen).
  exists l. rewrite Hc in Ec. destruct bs as [|b [|b' bs]]; simpl in *; [|by injection Ec as -> <-|lia].
  specialize (Hnil eq_refl). by rewrite Hnil in Hc.
Qed.

Lemma gets_line O t h body data : handle_of t 0 = Some h → Forall (λ c, c ≠ 0 ∧ c ≠ 10 ∧ c ≠ 13) body →
  ∀ n k, (length body < n)%nat → pieces (pend k h) → concat (pend k h) = (body ++ [10]) ++ data →
  ∃ k', reach O (gets_loop n) t k [] (Ret (body ++ [10])) t k' ∧ concat (pend k' h) = data ∧ pieces (pend k' h) ∧ only_read h k k'.
Proof.
  intros Hh. induction body as [|c body IH]; intros Hb [|n] k Hn Hp Hc; simpl in Hn; try lia; cbn [gets_loop]; simpl in Hc.
  - destruct (answer_byte O 0 t k h _ _ Hh Hp Hc) as (l & Ea & El & Hl). exists (set_pend h l k).
    rewrite set_pend_same. split_and!; [|done|done|apply set_pend_only]. eapply reach_silent; [exact Ea|done|constructor].
  - apply Forall_cons in Hb as [(_ & H10 & H13) Hb]. destruct (answer_byte O 0 t k h _ _ Hh Hp Hc) as (l & Ea & El & Hl).
    destruct (IH Hb n (set_pend h l k)) as (k' & Hr & Hd & Hp' & Ho); [lia|by rewrite set_pend_same|by rewrite set_pend_same|].
    exists k'. split_and!; [|done|done|eapply only_read_trans; [apply set_pend_only|done]].
    eapply reach_silent; [exact Ea|done|]. cbv beta iota. rewrite !(proj2 (Z.eqb_neq _ _)) by done. cbn [orb].
    exact (reach_bind O (λ s, Ret (c :: s)) _ _ _ _ _ _ _ Hr).
Qed.

Lemma gets_end O t h k n : handle_of t 0 = Some h → pend k h = [] → (0 < n)%nat →
  reach O (gets_loop n) t k [] (Ret []) t (set_pend h [] k).
Proof.
  intros Hh Hp Hn. destruct n as [|n]; [lia|]. cbn [gets_loop].
  eapply reach_silent; [cbn [answer]; rewrite Hh, Hp; reflexivity|done|constructor].
Qed.

Lemma to_nul_plain l : Forall (λ c, c ≠ 0) l → to_nul l = l.
Proof.
  unfold to_nul. induction 1 as [|c l Hc _ IH]; [done|]. simpl. rewrite (proj2 (Z.eqb_neq c 0)) by done. simpl. by rewrite IH.
Qed.

Lemma line_ok_nz l : line_ok l → Forall (λ c, c ≠ 0) l ∧ hd 0 l ≠ 0.
Proof.
  intros (body & -> & Hb & _). assert (Forall (λ c, c ≠ 0) (body ++ [10])) as H.
  { apply Forall_app. split; [|by repeat constructor]. eapply Forall_impl; [exact Hb|]. by intros c [? _]. }
  split; [done|]. by destruct body; simpl in *; [|apply Forall_cons in H as [? _]].
Qed.

Lemma getcmd_line O t h k l data : handle_of t 0 = Some h → line_ok l → pieces (pend k h) → concat (pend k h) = l ++ data →
  ∃ k', reach O (getcmd 100) t k (prompt O t) (Ret (Some l)) t k' ∧ concat (pend k' h) = data ∧ pieces (pend k' h) ∧ only_read h k k'.
Proof.
  intros Hh Hl Hp Hc. destruct (line_ok_nz l Hl) as [Hz Hhd]. destruct Hl as (body & -> & Hb & Hlen).
  destruct (gets_line O t h body data Hh Hb 99 k Hlen Hp Hc) as (k' & Hr & H). exists k'. split; [|done].
  unfold getcmd. rewrite <- (app_nil_r (prompt O t)). eapply reach_seq; [apply reach_printf|].
  pose proof (reach_bind O (λ s, Ret (if hd 0 s =? 0 then None else Some (to_nul s))) _ _ _ _ _ _ _ Hr) as Hr'.
  cbv beta in Hr'. rewrite (proj2 (Z.eqb_neq _ _)), to_nul_plain in Hr' by done. exact Hr'.
Qed.

Lemma getcmd_end O t h k : handle_of t 0 = Some h → pend k h = [] →
  reach O (getcmd 100) t k (prompt O t) (Ret None) t (set_pend h [] k).
Proof.
  intros Hh Hp. unfold getcmd. rewrite <- (app_nil_r (prompt O t)). eapply reach_seq; [apply reach_printf|].
  exact (reach_bind O (λ s, Ret (if hd 0 s =? 0 then None else Some (to_nul s))) _ _ _ _ _ _ _ (gets_end O t h k 99 Hh Hp ltac:(lia))).
Qed.

(** *** The loop *)

Definition shows (O : oracle) (p : prog ()) (t : fdtab) (k : kern) (r : list event * nat) : Prop :=
  ∃ t' k', run O p t k = (r.1, Gone, t', k') ∧ clock k' = r.2.

Lemma shows_reach O p t k es q t1 k1 r : reach O p t k es q t1 k1 → shows O q t1 k1 r → shows O p t k (es ++ r.1, r.2).
Proof. intros Hr (t' & k' & E & Hc). exists t', k'. by rewrite (run_reach _ _ _ _ _ _ _ _ Hr), E. Qed.

Lemma shows_bind O {A} (p : prog A) f t k es a t1 k1 r : reach O p t k es (Ret a) t1 k1 → shows O (f a) t1 k1 r →
  shows O (p ≫= f) t k (es ++ r.1, r.2).
Proof. intros Hr. by eapply shows_reach, reach_bind. Qed.

Lemma no_pieces l : pieces l → concat l = [] → l = [].
Proof. destruct l as [|b l]; [done|]. intros Hp E. apply Forall_cons in Hp as [Hb _]. by destruct b. Qed.

(** What the loop has to read: the lines [ls] on the open file [h]. *)
Record to_read (t : fdtab) (k : kern) (h : handle) (ls : list (list Z)) : Prop := {
  tr_fd : handle_of t 0 = Some h;
  tr_old : old k h;
  tr_lines : Forall line_ok ls;
  tr_pieces : pieces (pend k h);
  tr_data : concat (pend k h) = concat ls }.

Lemma to_read_keeps t k k' h ls : to_read t k h ls → keeps k k' → to_read t k' h ls.
Proof.
  intros [H1 H2 H3 H4 H5] Hk. pose proof (proj2 Hk h H2) as E. split; rewrite ?E; try done. by eapply old_keeps.
Qed.

Lemma getcmd_reads O t k h l ls : to_read t k h (l :: ls) →
  ∃ k', reach O (getcmd 100) t k (prompt O t) (Ret (Some l)) t k' ∧ to_read t k' h ls ∧ clock k' = clock k.
Proof.
  intros [H1 H2 H3 H4 H5]. apply Forall_cons in H3 as [Hl H3]. destruct (getcmd_line O t h k l (concat ls) H1 Hl H4 H5) as (k' & Hr & Hd & Hp & Ho).
  exists k'. split; [done|]. split; [|apply Ho]. split; try done. intros p m n. rewrite (proj1 Ho). apply H2.
Qed.

(** A line that is run by a child. *)
Lemma sh_fork_shows O t k h l ls (q : prog ()) : shell_table t → to_read t k h ls → Forall (λ c, c ≠ 0) l →
  (∀ k1, to_read t k1 h ls → shows O q t k1 (session O ls t (clock k1))) →
  shows O (pid ← fork1; _ ← (if pid =? 0 then run_line l else Ret ()); _ ← sys Wait; q) t k
    (if can_fork O (clock k) then
       let '(es, n1) := line_plan O l t (S (clock k)) in
       let '(es', n2) := session O ls t (S n1) in (Child es :: Waited t :: es', n2)
     else (says O t 2 (panic_text "fork"), S (clock k))).
Proof.
  intros Ht Hr Hz Hq. destruct (can_fork O (clock k)) eqn:Ef; [|exists t, (tick k); by rewrite run_fork1, Ef].
  pose proof (run_line_does O l t (tick k) Ht Hz) as HL. change (clock (tick k)) with (S (clock k)) in HL.
  destruct (line_plan O l t (S (clock k))) as [es n1]. destruct HL as (t1 & k1 & E1 & Hc1 & Hk1). simpl in E1, Hc1.
  destruct (Hq (tick k1)) as (t2 & k2 & E2 & Hc2).
  { eapply to_read_keeps; [|apply keeps_tick]. eapply to_read_keeps; [|exact Hk1]. eapply to_read_keeps; [done|apply keeps_tick]. }
  change (clock (tick k1)) with (S (clock k1)) in E2, Hc2. rewrite Hc1 in E2, Hc2. destruct (session O ls t (S n1)) as [es' n2].
  exists t2, k2. split; [|done]. rewrite run_fork1, Ef. change (0 =? 0) with true. cbv iota. rewrite run_ends by apply run_line_ends.
  rewrite E1. rewrite (proj2 (Z.eqb_neq _ 0)) by lia.
  assert (reach O (Ret () ≫= λ _, sys Wait ≫= λ _, q) t k1 [Waited t] q t (tick k1)) as Hw.
  { change [Waited t] with ([Waited t] ++ []). eapply (reach_sys O Wait (λ _, q)); [done|done|constructor]. }
  by rewrite (run_reach _ _ _ _ _ _ _ _ Hw), E2.
Qed.

Lemma sh_loop_shows O t h : shell_table t → ∀ ls fuel k, to_read t k h ls → (length ls < fuel)%nat →
  shows O (sh_loop fuel) t k (session O ls t (clock k)).
Proof.
  intros Ht. induction ls as [|l ls IH]; intros [|fuel] k Hr Hf; try (simpl in Hf; lia); cbn [sh_loop session].
  - pose proof (no_pieces _ (tr_pieces _ _ _ _ Hr) (tr_data _ _ _ _ Hr)) as Hp. rewrite <- (app_nil_r (prompt O t)).
    apply (shows_bind O _ _ _ _ _ _ _ _ ([], clock k) (getcmd_end O t h k (tr_fd _ _ _ _ Hr) Hp)). by exists t, (set_pend h [] k).
  - destruct (getcmd_reads O t k h l ls Hr) as (k1 & Hg & Hr1 & Hc1). rewrite <- Hc1.
    pose proof (tr_lines _ _ _ _ Hr) as Hl. apply Forall_cons in Hl as [Hl _]. apply line_ok_nz in Hl as [Hz _].
    assert (∀ k2, to_read t k2 h ls → shows O (sh_loop fuel) t k2 (session O ls t (clock k2))) as Hq
      by (intros; apply IH; [done|simpl in Hf; lia]).
    destruct (cd_path l) as [dir|] eqn:Ed.
    + pose proof (Hq (tick k1) ltac:(eapply to_read_keeps; [done|apply keeps_tick])) as H.
      change (clock (tick k1)) with (S (clock k1)) in H. destruct (session O ls t (S (clock k1))) as [es n1].
      apply (shows_bind O _ _ _ _ _ _ _ _ (_ :: _ ++ es, n1) Hg). cbv beta iota. rewrite Ed.
      eapply (shows_reach O _ t k1 ([Asked (Chdir dir) (reply O (Chdir dir) (clock k1))] ++ []) _ t (tick k1) (_ ++ es, n1));
        [eapply reach_sys; [done|done|constructor]|].
      apply (shows_bind O _ (λ _, sh_loop fuel) t (tick k1) _ () t (tick k1) (es, n1)); [|exact H].
      destruct (reply O (Chdir dir) (clock k1) <? 0); [apply reach_printf|constructor].
    + pose proof (sh_fork_shows O t k1 h l ls (sh_loop fuel) Ht Hr1 Hz Hq) as H.
      destruct (can_fork O (clock k1)); [destruct (line_plan O l t (S (clock k1))) as [es n1]; destruct (session O ls t (S n1)) as [es' n2]|].
      * apply (shows_bind O _ _ _ _ _ _ _ _ (Child es :: Waited t :: es', n2) Hg). cbv beta iota. rewrite Ed. exact H.
      * apply (shows_bind O _ _ _ _ _ _ _ _ (says O t 2 (panic_text "fork"), S (clock k1)) Hg). cbv beta iota. rewrite Ed. exact H.
Qed.

(** With descriptors 0 to 2 open, the console is opened and closed again. *)
Lemma open_console_reach O t k fuel : shell_table t → (0 < fuel)%nat →
  ∃ k', reach O (open_console fuel) t k [] (Ret ()) t k' ∧ keeps k k' ∧ clock k' = S (clock k).
Proof.
  intros (h0 & h1 & h2 & rest & a & b & -> & Ha & _) Hf. destruct fuel as [|fuel]; [lia|]. cbn [open_console].
  pose proof (first_free_spec _ _ Ha) as Hn.
  destruct (content O (cstr "console") O_RDWR (clock k)) as [bs|] eqn:Ec.
  - eexists. split; [|split; [apply (keeps_open k (cstr "console") O_RDWR bs)|done]].
    eapply reach_silent; [cbn [answer first_free]; rewrite Ec, Ha; reflexivity|done|].
    change (<[S (S (S a)) := ?x]> (Some h0 :: Some h1 :: Some h2 :: rest)) with (Some h0 :: Some h1 :: Some h2 :: <[a := x]> rest).
    rewrite (proj2 (Z.leb_le 0 _)), (proj2 (Z.leb_le 3 _)) by lia.
    eapply (reach_trans _ _ _ _ []); [eapply (close_rest O _ _ _ _ a)|].
    + rewrite handle_of_rest, list_lookup_insert_eq by (by eapply lookup_lt_Some). done.
    + rewrite list_insert_insert_eq, list_insert_id by done. constructor.
  - exists (tick k). split; [|split; [apply keeps_tick|done]]. eapply reach_silent; [cbn [answer]; rewrite Ec; reflexivity|done|constructor].
Qed.

(** C8: the shell. Started with descriptors 0, 1 and 2 open and two more free,
    on input that consists of lines of fewer than 99 characters before the
    newline, without zero bytes and carriage returns, the shell shows exactly
    the session of these lines, in whatever pieces they arrive, and ends with
    the input. For every line there is a prompt; [cd] is done by the shell
    itself; any other line is parsed and run by a child the shell waits for.
    The programs a command starts have exactly the descriptors it asks for:
    those of the shell with redirected ones replaced and, in a pipeline, the
    writing end as 1 on the left and the reading end as 0 on the right, and no
    other end of a pipe. A process that waits for others, the one that made
    the pipe included, has no end of a pipe open beyond those it was started
    with. Syntax errors and calls that fail are reported on descriptor 2. *)
Theorem shell_session O t k h ls fuel : shell_table t → to_read t k h ls → (length ls < fuel)%nat →
  ∃ t' k', run O (sh_main fuel) t k = ((session O ls t (S (clock k))).1, Gone, t', k').
Proof.
  intros Ht Hr Hf. destruct (open_console_reach O t k 4 Ht ltac:(lia)) as (k1 & Ho & Hk & Hc).
  destruct (sh_loop_shows O t h Ht ls fuel k1 (to_read_keeps _ _ _ _ _ Hr Hk) Hf) as (t' & k' & E & _). exists t', k'.
  unfold sh_main. rewrite (run_reach _ _ _ _ _ _ _ _ (reach_bind O (λ _, sh_loop fuel) _ _ _ _ _ _ _ Ho)), E, Hc. done.
Qed.

(** The lines [ls|wc >o] and [cd a] arrive in two pieces; everything works. *)
Definition sh_oracle : oracle := Oracle (λ _, true) (λ _, true) (λ _ _ _, true) (λ _, true) (λ _ _ _, Some []) (λ _, None) (λ _, 1) (λ _ _, 0).
Definition sh_table : fdtab := Some HTty :: Some HTty :: Some HTty :: replicate 13 None.
Definition sh_input : list (list Z) := [cstr "ls|wc >o" ++ NL; cstr "cd a" ++ NL].
Definition sh_kern : kern := Kern (λ h, if decide (h = HTty) then [cstr "ls|"; cstr "wc >o" ++ NL ++ cstr "cd a" ++ NL] else []) 0.

Lemma shell_session_witness : ∃ t' k', run sh_oracle (sh_main 3) sh_table sh_kern =
  (says sh_oracle sh_table 2 (cstr "$ ") ++
   [Child [Child [Launched (cstr "ls") [cstr "ls"] (<[1%nat := Some (HPipeW 2)]> sh_table)];
           Child [Launched (cstr "wc") [cstr "wc"] (<[1%nat := Some (HFile (cstr "o") 513 6)]> (<[0%nat := Some (HPipeR 2)]> sh_table))];
           Waited sh_table; Waited sh_table]; Waited sh_table] ++
   says sh_oracle sh_table 2 (cstr "$ ") ++ [Asked (Chdir (cstr "a")) 0] ++ says sh_oracle sh_table 2 (cstr "$ "), Gone, t', k').
Proof.
  assert (shell_table sh_table) as Ht.
  { exists HTty, HTty, HTty, (replicate 13 None), 0%nat, 1%nat. by split_and!. }
  assert (to_read sh_table sh_kern HTty sh_input) as Hr.
  { split; [done|by intros p m n _| |by repeat constructor|done].
    repeat constructor; [exists (cstr "ls|wc >o")|exists (cstr "cd a")]; (split; [done|]; split; [by repeat constructor|simpl; lia]). }
  exact (shell_session sh_oracle sh_table sh_kern HTty sh_input 3 Ht Hr ltac:(simpl; lia)).
Defined.

(** ** init *)

Definition zombie_text : list Z := cstr "zombie!" ++ NL.

(** While [init] waits, [m] other children end before the shell. *)
Lemma init_wait_reach O t pid m : ∀ w k, (m < w)%nat → (∀ i, (i < m)%nat → 0 ≤ reaped O (clock k + i) ∧ reaped O (clock k + i) ≠ pid) →
  reaped O (clock k + m) = pid →
  ∃ k', reach O (init_wait w pid) t k (concat (replicate m (Waited t :: says O t 1 zombie_text)) ++ [Waited t]) (Ret ()) t k' ∧
    clock k' = S (clock k + m) ∧ pend k' = pend k.
Proof.
  induction m as [|m IH]; intros [|w] k Hw Hz He; try lia; cbn [init_wait].
  - exists (tick k). split; [|split; [simpl; lia|done]]. change (concat _ ++ [Waited t]) with ([Waited t] ++ []).
    eapply reach_sys; [done|done|]. rewrite Nat.add_0_r in He. rewrite He, Z.eqb_refl, andb_false_r. constructor.
  - destruct (IH w (tick k)) as (k' & Hr & Hc & Hp); [lia| | |].
    { intros i Hi. replace (clock (tick k) + i)%nat with (clock k + S i)%nat by (simpl; lia). apply Hz. lia. }
    { by replace (clock (tick k) + m)%nat with (clock k + S m)%nat by (simpl; lia). }
    exists k'. split; [|split; [simpl in Hc; lia|done]]. cbn [replicate concat]. rewrite <- !app_assoc.
    change ((Waited t :: ?a) ++ ?b) with ([Waited t] ++ a ++ b). eapply reach_sys; [done|done|].
    destruct (Hz 0%nat ltac:(lia)) as [H0 Hne]. rewrite Nat.add_0_r in H0, Hne. rewrite (proj2 (Z.leb_le _ _)), (proj2 (Z.eqb_neq _ _)) by done.
    cbn [andb negb]. eapply reach_seq; [apply reach_printf|exact Hr].
Qed.

Lemma run_fork O {B} (f : Z → prog B) t k : run O (sys Fork ≫= f) t k =
  if can_fork O (clock k) then
    let '(es, _, _, k1) := run O (f 0) t (tick k) in after [Child es] (run O (f (1 + Z.of_nat (clock k))) t k1)
  else run O (f (-1)) t (tick k).
Proof. done. Qed.

(** A turn of [init]: a shell is started, the orphans that end are buried,
    and when the shell ends the next turn begins. *)
Lemma init_turn O t k n w m : can_fork O (clock k) = true → can_exec O (cstr "sh") [cstr "sh"] (S (clock k)) = true → (m < w)%nat →
  (∀ i, (i < m)%nat → 0 ≤ reaped O (S (S (clock k)) + i) ∧ reaped O (S (S (clock k)) + i) ≠ 1 + Z.of_nat (clock k)) →
  reaped O (S (S (clock k)) + m) = 1 + Z.of_nat (clock k) →
  ∃ k', run O (init_loop (S n) w) t k =
    after (says O t 1 (cstr "init: starting sh" ++ NL) ++ [Child [Launched (cstr "sh") [cstr "sh"] t]] ++
           concat (replicate m (Waited t :: says O t 1 zombie_text)) ++ [Waited t]) (run O (init_loop n w) t k').
Proof.
  intros Hf He Hw Hz Hm. cbn [init_loop]. set (rest := λ pid : Z, if pid <? 0 then _ else _).
  rewrite (run_reach _ _ _ _ _ _ _ _ (reach_bind O (λ _, sys Fork ≫= rest) _ _ _ _ _ _ _ (reach_printf O 1 _ [] t k))).
  assert (run O (rest 0) t (tick k) = ([Launched (cstr "sh") [cstr "sh"] t], Gone, t, tick (tick k))) as Hchild.
  { unfold rest. cbn [Z.ltb Z.eqb Z.compare]. apply run_gone; [cbn [answer]; simpl clock; by rewrite He|done]. }
  destruct (init_wait_reach O t (1 + Z.of_nat (clock k)) m w (tick (tick k)) Hw Hz Hm) as (k' & Hr & _). exists k'.
  rewrite (run_fork O rest), Hf, Hchild. unfold rest. rewrite (proj2 (Z.ltb_ge _ _)), (proj2 (Z.eqb_neq _ _)) by lia.
  rewrite (run_reach _ _ _ _ _ _ _ _ (reach_bind O (λ _, init_loop n w) _ _ _ _ _ _ _ Hr)).
  rewrite !after_after, <- !app_assoc. reflexivity.
Qed.

Lemma reach_ret O {A B} (a : A) (f : A → prog B) t k es q t' k' : reach O (f a) t k es q t' k' → reach O (Ret a ≫= f) t k es q t' k'.
Proof. done. Qed.

(** [init] gives the shell the table it expects: the console as 0, 1 and 2. *)
Lemma init_table O k n w bs : content O (cstr "console") O_RDWR (clock k) = Some bs →
  let h := HFile (cstr "console") O_RDWR (clock k) in
  let t := Some h :: Some h :: Some h :: replicate 13 None in
  ∃ k', run O (init_main n w) (replicate 16 None) k = run O (init_loop n w) t k' ∧ shell_table t.
Proof.
  intros Hc h t. exists (set_pend h bs (tick k)). split.
  - rewrite <- (after_nil (run O (init_loop n w) t _)). apply run_reach. unfold init_main.
    eapply reach_silent; [cbn [answer]; rewrite Hc; reflexivity|done|]. change (Z.of_nat 0 <? 0) with false. cbv iota.
    apply reach_ret. eapply reach_silent; [reflexivity|done|]. eapply reach_silent; [reflexivity|done|]. constructor.
  - exists h, h, h, (replicate 13 None), 0%nat, 1%nat. by split_and!.
Qed.
