(* ===== verification/Umalloc.v ===== *)
(** * The user-level allocator (umalloc.c)

    The allocator of Kernighan and Ritchie: a circular list of free blocks in
    order of address, threaded through the blocks, with [base] as a block of
    size zero. Sizes are in units of the 8 bytes of a [Header]. *)
From S2P Require Import Prelude Machine.

(** [sizeof(Header)] *)
Definition HDR : Z := 8.

(** The memory of the process, [freep], and the end of the memory. *)
Record heap := Heap { umem : mem; freep : Z; brk : Z }.
#[export] Instance eta_heap : Settable heap := λ h, Heap (umem h) (freep h) (brk h).

(** [p->s.ptr] and [p->s.size] *)
Definition hptr (m : mem) (p : Z) : Z := load32 m p.
Definition hsize (m : mem) (p : Z) : Z := load32 m (p + 4).

Definition set_ptr (p v : Z) : M heap () := modify (λ h, h <| umem := store32 (umem h) p v |>).
Definition set_size (p v : Z) : M heap () := modify (λ h, h <| umem := store32 (umem h) (p + 4) v |>).

(** [p + n] for a [Header *p] *)
Definition hadd (p n : Z) : Z := u32 (p + HDR * n).

Section umalloc.
(** The address of [base], and whether the kernel grants [n] more bytes at
    the end [b] of the memory. *)
Variables (base : Z) (grant : Z → Z → bool).

(** The system call [sbrk]. *)
Definition sbrk (n : Z) : M heap Z := λ h,
  if grant (brk h) n then Ok (brk h) (h <| brk := u32 (brk h + n) |>) else Ok (u32 (-1)) h.

(** The search of [free] for the place of [bp], from [p] on. *)
Fixpoint free_find (fuel : nat) (m : mem) (bp p : Z) : option Z :=
  match fuel with
  | O => None
  | S fuel' =>
      if (p <? bp) && (bp <? hptr m p) then Some p
      else if (hptr m p <=? p) && ((p <? bp) || (bp <? hptr m p)) then Some p
      else free_find fuel' m bp (hptr m p)
  end.

Definition free (fuel : nat) (ap : Z) : M heap () :=
  let bp := ap - HDR in
  h ← get;
  match free_find fuel (umem h) bp (freep h) with
  | None => hang
  | Some p =>
      m ← gets umem;
      (if hadd bp (hsize m bp) =? hptr m p then
         set_size bp (u32 (hsize m bp + hsize m (hptr m p)));;
         m ← gets umem; set_ptr bp (hptr m (hptr m p))
       else set_ptr bp (hptr m p));;
      m ← gets umem;
      (if hadd p (hsize m p) =? bp then
         set_size p (u32 (hsize m p + hsize m bp));;
         m ← gets umem; set_ptr p (hptr m bp)
       else set_ptr p bp);;
      modify (λ h, h <| freep := p |>)
  end.

Definition morecore (fuel : nat) (nu : Z) : M heap Z :=
  let nu := if nu <? 4096 then 4096 else nu in
  p ← sbrk (s32 (nu * HDR));
  if p =? u32 (-1) then mret 0
  else
    set_size p nu;;
    free fuel (hadd p 1);;
    gets freep.

(** The loop of [malloc]. *)
Fixpoint malloc_loop (fuel : nat) (nunits prevp p : Z) : M heap Z :=
  match fuel with
  | O => hang
  | S fuel' =>
      h ← get;
      let m := umem h in
      if nunits <=? hsize m p then
        p ← (if hsize m p =? nunits then set_ptr prevp (hptr m p);; mret p
             else
               let rest := u32 (hsize m p - nunits) in
               set_size p rest;;
               let p := hadd p rest in
               set_size p nunits;; mret p);
        modify (λ h, h <| freep := prevp |>);;
        mret (hadd p 1)
      else if p =? freep h then
        p ← morecore fuel nunits;
        if p =? 0 then mret 0
        else m ← gets umem; malloc_loop fuel' nunits p (hptr m p)
      else malloc_loop fuel' nunits p (hptr m p)
  end.

Definition malloc (fuel : nat) (nbytes : Z) : M heap Z :=
  let nunits := u32 (u32 (nbytes + HDR - 1) / HDR + 1) in
  h ← get;
  (if freep h =? 0 then
     set_ptr base base;;
     modify (λ h, h <| freep := base |>);;
     set_size base 0
   else mret ());;
  prevp ← gets freep;
  m ← gets umem;
  malloc_loop fuel nunits prevp (hptr m prevp).
End umalloc.

(** ** Findings *)

(** The size in units wraps: a request for nearly the whole address space is
    answered with a block of one unit, which has no room at all. *)
Lemma malloc_size_wraps :
  let h := Heap (store32 (store32 (store32 (store32 (λ _, 0) 16 1000) 20 0) 1000 16) 1004 1) 16 2000 in
  ∃ h', malloc 16 (λ _ _, false) 10 4294967295 h = Ok 1008 h' ∧ hsize (umem h') 1000 = 1.
Proof. eexists. split; [vm_compute; reflexivity|]. by vm_compute. Qed.

(** The number of bytes asked of the kernel becomes negative: where the
    kernel accepts it, as [growproc] does when the result wraps, [malloc]
    returns a block of memory that does not exist. *)
Lemma malloc_asks_negative :
  ∃ h', malloc 16 (λ _ n, n <? 0) 10 2147483648 (Heap (λ _, 0) 0 4096) = Ok 4104 h'.
Proof. eexists. vm_compute. reflexivity. Qed.

(** * What [malloc] and [free] do

    Free blocks are kept in order of address and never touch each other;
    blocks handed out are disjoint from them and from each other, nothing is
    lost, and nobody's memory is changed. *)

(** A block: its address and its size in units, with the header. *)
Notation blk := (Z * Z)%type.

Definition bend (b : blk) : Z := b.1 + 8 * b.2.
Definition disj (b c : blk) : Prop := bend b ≤ c.1 ∨ bend c ≤ b.1.
Definition units (l : list blk) : Z := foldr (λ b n, b.2 + n) 0 l.

(** In order, with a gap between any two. *)
Fixpoint ordered (lo : Z) (F : list blk) : Prop :=
  match F with
  | [] => True
  | b :: F' => lo < b.1 ∧ 0 < b.2 ∧ ordered (bend b) F'
  end.

Fixpoint pairwise (A : list blk) : Prop :=
  match A with
  | [] => True
  | b :: A' => Forall (disj b) A' ∧ pairwise A'
  end.

(** The header before the rest of a list, and the linked blocks. *)
Fixpoint lastp (p : Z) (F : list blk) : Z :=
  match F with [] => p | b :: F' => lastp b.1 F' end.

Fixpoint seg (m : mem) (p : Z) (F : list blk) : Prop :=
  match F with
  | [] => True
  | b :: F' => hptr m p = b.1 ∧ hsize m b.1 = b.2 ∧ seg m b.1 F'
  end.

Lemma units_app F G : units (F ++ G) = units F + units G.
Proof. induction F as [|b F IH]; simpl; lia. Qed.

Lemma lastp_app p F G : lastp p (F ++ G) = lastp (lastp p F) G.
Proof. revert p. induction F as [|b F IH]; intros p; [done|]. apply IH. Qed.

Lemma seg_app m p F G : seg m p (F ++ G) ↔ seg m p F ∧ seg m (lastp p F) G.
Proof. revert p. induction F as [|b F IH]; intros p; simpl; [naive_solver|]. rewrite IH. naive_solver. Qed.

(** ** Headers *)

(** [m'] differs from [m] only in the headers at [H]. *)
Definition changes (H : list Z) (m m' : mem) : Prop := ∀ x, (∀ a, a ∈ H → x < a ∨ a + 8 ≤ x) → m' x = m x.

Lemma changes_hdr H m m' a : changes H m m' → (∀ c, c ∈ H → a + 8 ≤ c ∨ c + 8 ≤ a) → hptr m' a = hptr m a ∧ hsize m' a = hsize m a.
Proof.
  intros Hc Hd. split; apply load32_ext; intros x Hx; apply Hc; intros c Hin; destruct (Hd c Hin); lia.
Qed.

Lemma changes_trans H m m1 m2 : changes H m m1 → changes H m1 m2 → changes H m m2.
Proof. intros H1 H2 x Hx. by rewrite H2, H1. Qed.

Lemma changes_sub H H' m m' : (∀ a, a ∈ H → a ∈ H') → changes H m m' → changes H' m m'.
Proof. intros Hs Hc x Hx. apply Hc. intros a Ha. apply Hx, Hs, Ha. Qed.

Lemma store_ptr m p v : 0 ≤ v < 4294967296 →
  let m' := store32 m p v in changes [p] m m' ∧ hptr m' p = v ∧ hsize m' p = hsize m p.
Proof.
  intros Hv m'. split; [|split].
  - intros x Hx. unfold m'. rewrite store32_byte. destruct (decide _) as [Hd|]; [|done]. specialize (Hx p ltac:(set_solver)). lia.
  - by apply load32_store32_eq.
  - apply load32_store32_ne. lia.
Qed.

Lemma store_size m p v : 0 ≤ v < 4294967296 →
  let m' := store32 m (p + 4) v in changes [p] m m' ∧ hsize m' p = v ∧ hptr m' p = hptr m p.
Proof.
  intros Hv m'. split; [|split].
  - intros x Hx. unfold m'. rewrite store32_byte. destruct (decide _) as [Hd|]; [|done]. specialize (Hx p ltac:(set_solver)). lia.
  - by apply load32_store32_eq.
  - apply load32_store32_ne. lia.
Qed.

(** ** Ordered lists *)

Lemma ordered_weaken lo lo' F : lo' ≤ lo → ordered lo F → ordered lo' F.
Proof. destruct F; simpl; [done|]. intros ? (? & ? & ?). split_and!; [lia|done|done]. Qed.

Lemma ordered_bounds lo F : ordered lo F → Forall (λ b, lo < b.1 ∧ 0 < b.2) F.
Proof.
  revert lo. induction F as [|b F IH]; intros lo; [constructor|]. intros (H1 & H2 & H3). constructor; [done|].
  apply IH in H3. eapply Forall_impl; [exact H3|]. simpl. unfold bend. lia.
Qed.

(** The end of the last block before a position. *)
Fixpoint last_end (lo : Z) (F : list blk) : Z :=
  match F with [] => lo | b :: F' => last_end (bend b) F' end.

Lemma ordered_app lo F G : ordered lo (F ++ G) ↔ ordered lo F ∧ ordered (last_end lo F) G.
Proof. revert lo. induction F as [|b F IH]; intros lo; simpl; [naive_solver|]. rewrite IH. naive_solver. Qed.

Lemma last_end_ge lo F : ordered lo F → lo ≤ last_end lo F ∧ Forall (λ b, bend b ≤ last_end lo F) F.
Proof.
  revert lo. induction F as [|b F IH]; intros lo; simpl; [split; [lia|constructor]|]. intros (H1 & H2 & H3).
  destruct (IH _ H3) as [H4 H5]. split; [unfold bend in *; lia|]. by constructor.
Qed.

(** Every free block is before or behind a block that is disjoint from all. *)
Lemma ordered_split lo F b : ordered lo F → lo < b.1 → 0 < b.2 → Forall (disj b) F →
  ∃ F1 F2, F = F1 ++ F2 ∧ Forall (λ c, bend c ≤ b.1) F1 ∧ Forall (λ c, bend b ≤ c.1) F2.
Proof.
  revert lo. induction F as [|c F IH]; intros lo Ho Hb Hn Hd; [by exists [], []|]. destruct Ho as (H1 & H2 & H3).
  apply Forall_cons in Hd as [[Hd|Hd] Hds].
  - exists [], (c :: F). split_and!; [done|constructor|]. constructor; [done|]. apply ordered_bounds in H3.
    eapply Forall_impl; [exact H3|]. simpl. unfold bend in *. lia.
  - destruct (decide (bend c < b.1)) as [Hlt|Hge].
    + destruct (IH _ H3 Hlt Hn Hds) as (F1 & F2 & -> & HF1 & HF2). exists (c :: F1), F2. split_and!; [done|by constructor|done].
    + exists [c], F. split_and!; [done|by repeat constructor|]. apply ordered_bounds in H3.
      clear IH. induction F as [|d F IH']; [constructor|]. apply Forall_cons in H3 as [? H3]. apply Forall_cons in Hds as [Hd1 Hds].
      constructor; [destruct Hd1; unfold bend in *; lia | by apply IH'].
Qed.

Lemma lastp_end p lo G : p + 7 ≤ lo → ordered lo G → lastp p G + 7 ≤ last_end lo G.
Proof.
  revert p lo. induction G as [|b G IH]; intros p lo Hp; [done|]. intros (H1 & H2 & H3). simpl. apply IH; [unfold bend; lia|done].
Qed.

Lemma lastp_in p G : lastp p G = p ∨ lastp p G ∈ G.*1.
Proof.
  revert p. induction G as [|b G IH]; intros p; [by left|]. right. simpl. destruct (IH b.1) as [-> | Hin]; [by left|by right].
Qed.

(** A list is not changed by writes to headers elsewhere. *)
Lemma seg_frame H m m' p F : changes H m m' → (∀ a c, a ∈ p :: F.*1 → c ∈ H → a + 8 ≤ c ∨ c + 8 ≤ a) → seg m p F → seg m' p F.
Proof.
  intros Hc. revert p. induction F as [|b F IH]; intros p Hd; [done|]. intros (H1 & H2 & H3). cbn [seg].
  destruct (changes_hdr _ _ _ p Hc) as [-> _]; [intros; apply Hd; [by left|done]|].
  destruct (changes_hdr _ _ _ b.1 Hc) as [_ ->]; [intros; apply Hd; [right; by left|done]|].
  split_and!; [done|done|]. apply IH; [|done]. intros a c Ha Hin. apply Hd; [by right|done].
Qed.

(** The list behind [p] is now behind [p']. *)
Lemma tail_move H m m' p p' F e : changes H m m' → (∀ a c, a ∈ F.*1 → c ∈ H → a + 8 ≤ c ∨ c + 8 ≤ a) →
  hptr m' p' = hptr m p → seg m p F → hptr m (lastp p F) = e → seg m' p' F ∧ hptr m' (lastp p' F) = e.
Proof.
  intros Hc Hd Hp. destruct F as [|b F]; [simpl; intros _ <-; by split|]. intros (H1 & H2 & H3) He. simpl in He |- *.
  destruct (changes_hdr _ _ _ b.1 Hc) as [_ Hs]; [intros; apply Hd; [by left|done]|].
  assert (∀ a c, a ∈ b.1 :: F.*1 → c ∈ H → a + 8 ≤ c ∨ c + 8 ≤ a) as Hd' by (intros a c Ha; apply Hd; exact Ha).
  split; [|rewrite <- He; apply (changes_hdr _ _ _ _ Hc); intros c Hin; apply Hd'; [|done];
           destruct (lastp_in b.1 F) as [-> |]; [by left|by right]].
  split_and!; [congruence|congruence|]. by apply (seg_frame H m).
Qed.

(** The state [h] with memory [m], and the steps on it. *)
Definition wm (h : heap) (m : mem) : heap := Heap m (freep h) (brk h).

Lemma wm_self h : wm h (umem h) = h.
Proof. by destruct h. Qed.
Lemma gets_wm {A} (k : mem → M heap A) h m : (gets umem ≫= k) (wm h m) = k m (wm h m).
Proof. done. Qed.
Lemma set_ptr_wm {A} (k : () → M heap A) p v h m : (set_ptr p v ≫= k) (wm h m) = k () (wm h (store32 m p v)).
Proof. done. Qed.
Lemma set_size_wm {A} (k : () → M heap A) p v h m : (set_size p v ≫= k) (wm h m) = k () (wm h (store32 m (p + 4) v)).
Proof. done. Qed.
Lemma set_ptr_end p v h m : set_ptr p v (wm h m) = Ok () (wm h (store32 m p v)).
Proof. done. Qed.

Section list.
Context (base hi : Z) (Hbase : 0 < base) (Hroom : base + 8 ≤ hi) (Hhi : hi ≤ 2147483648).

(** The free list [F] in memory, below [hi]. *)
Record flist (m : mem) (F : list blk) : Prop := {
  fl_zero : hsize m base = 0;
  fl_seg : seg m base F;
  fl_end : hptr m (lastp base F) = base;
  fl_ord : ordered (base + 7) F;
  fl_hi : Forall (λ b, bend b ≤ hi) F
}.

(** The headers of the list. *)
Definition node (F : list blk) (q : Z) : Prop := ∃ G H, F = G ++ H ∧ q = lastp base G.

Lemma node_next m F G c H : flist m F → F = G ++ c :: H → hptr m (lastp base G) = c.1 ∧ hsize m c.1 = c.2 ∧ lastp base G + 8 ≤ c.1 ∧ 0 < c.2 ∧ bend c ≤ hi.
Proof.
  intros [_ Hs _ Ho Hb] ->. apply seg_app in Hs as [_ (H1 & H2 & _)]. apply ordered_app in Ho as [HG (H3 & H4 & _)].
  pose proof (lastp_end base (base + 7) G ltac:(lia) HG). apply Forall_app in Hb as [_ Hb]. apply Forall_cons in Hb as [Hb _]. split_and!; try done; lia.
Qed.

Lemma node_ge F G : ordered (base + 7) (F ++ G) → base ≤ lastp base F.
Proof.
  intros [Ho _]%ordered_app. destruct (lastp_in base F) as [-> | Hin]; [lia|]. apply list_elem_of_fmap in Hin as (b & -> & Hb).
  apply ordered_bounds in Ho. rewrite Forall_forall in Ho. apply Ho in Hb. lia.
Qed.

(** ** The search of [free] *)

Section find.
Context (m : mem) (F1 F2 : list blk) (bp : Z).
Context (Hf : flist m (F1 ++ F2)) (H1 : Forall (λ c, bend c ≤ bp) F1) (H2 : Forall (λ c, bp < c.1) F2) (Hbp : base < bp).

Lemma last_below : lastp base F1 < bp.
Proof using H1 Hbp Hf.
  destruct (lastp_in base F1) as [-> | Hin]; [done|]. apply list_elem_of_fmap in Hin as (b & -> & Hb).
  pose proof (fl_ord _ _ Hf) as [Ho _]%ordered_app. apply ordered_bounds in Ho. rewrite Forall_forall in H1, Ho.
  specialize (H1 b Hb). specialize (Ho b Hb). unfold bend in *. lia.
Qed.

Lemma find_here fuel : free_find (S fuel) m bp (lastp base F1) = Some (lastp base F1).
Proof using H1 H2 Hbp Hf.
  pose proof last_below as Hlt. cbn [free_find]. destruct F2 as [|c H] eqn:E.
  - pose proof (fl_end _ _ Hf) as He. rewrite app_nil_r in He. rewrite He. pose proof (node_ge F1 [] (fl_ord _ _ Hf)).
    assert ((lastp base F1 <? bp) && (bp <? base) = false) as -> by lia.
    assert ((base <=? lastp base F1) && ((lastp base F1 <? bp) || (bp <? base)) = true) as -> by lia. done.
  - destruct (node_next m _ F1 c H Hf eq_refl) as (-> & _). apply Forall_cons in H2 as [Hc _].
    assert ((lastp base F1 <? bp) && (bp <? c.1) = true) as -> by lia. done.
Qed.

Lemma find_forward H : ∀ G fuel, F1 = G ++ H → (length H < fuel)%nat → free_find fuel m bp (lastp base G) = Some (lastp base F1).
Proof using H1 H2 Hbp Hf.
  induction H as [|c H IH]; intros G fuel E Hfu; (destruct fuel as [|fuel]; [simpl in Hfu; lia|]).
  - rewrite app_nil_r in E. subst G. apply find_here.
  - cbn [free_find]. destruct (node_next m (F1 ++ F2) G c (H ++ F2) Hf) as (-> & _ & Hn & Hs & _); [by rewrite E, <- app_assoc|].
    assert (bend c ≤ bp) as Hc by (rewrite E in H1; apply Forall_app in H1 as [_ H1']; by apply Forall_cons in H1' as [? _]).
    unfold bend in Hc. assert ((lastp base G <? bp) && (bp <? c.1) = false) as -> by lia.
    assert ((c.1 <=? lastp base G) && ((lastp base G <? bp) || (bp <? c.1)) = false) as -> by lia.
    specialize (IH (G ++ [c]) fuel). rewrite lastp_app in IH. apply IH; [by rewrite E, <- app_assoc|simpl in Hfu; lia].
Qed.

Lemma find_around H : ∀ G fuel, F2 = G ++ H → G ≠ [] → (length H + length F1 + 1 < fuel)%nat →
  free_find fuel m bp (lastp base (F1 ++ G)) = Some (lastp base F1).
Proof using H1 H2 Hbp Hf.
  induction H as [|c H IH]; intros G fuel E Hne Hfu; (destruct fuel as [|fuel]; [simpl in Hfu; lia|]); cbn [free_find];
    assert (bp < lastp base (F1 ++ G)) as Hgt by
      (rewrite lastp_app; destruct G as [|g G]; [done|]; simpl; destruct (lastp_in g.1 G) as [-> | Hin];
       [rewrite E in H2; by apply Forall_cons in H2 as [? _]
       |apply list_elem_of_fmap in Hin as (b & -> & Hb); rewrite Forall_forall in H2; apply H2; rewrite E; right; apply elem_of_app; by left]).
  - rewrite app_nil_r in E. rewrite <- E in *. rewrite (fl_end _ _ Hf).
    assert ((lastp base (F1 ++ F2) <? bp) && (bp <? base) = false) as -> by lia.
    assert ((base <=? lastp base (F1 ++ F2)) && ((lastp base (F1 ++ F2) <? bp) || (bp <? base)) = false) as -> by lia.
    apply (find_forward F1 []); [done|simpl in Hfu; lia].
  - destruct (node_next m (F1 ++ F2) (F1 ++ G) c H Hf) as (-> & _ & Hn & Hs & _); [by rewrite E, <- app_assoc|].
    assert ((lastp base (F1 ++ G) <? bp) && (bp <? c.1) = false) as -> by lia.
    assert ((c.1 <=? lastp base (F1 ++ G)) && ((lastp base (F1 ++ G) <? bp) || (bp <? c.1)) = false) as -> by lia.
    specialize (IH (G ++ [c]) fuel). rewrite app_assoc, lastp_app in IH.
    apply IH; [by rewrite E, <- app_assoc|by destruct G|simpl in Hfu; lia].
Qed.

Lemma find_ok q fuel : node (F1 ++ F2) q → (length (F1 ++ F2) + 1 < fuel)%nat → free_find fuel m bp q = Some (lastp base F1).
Proof using H1 H2 Hbp Hf.
  intros (G & H & E & ->) Hfu. rewrite length_app in Hfu. apply app_eq_app in E as (l & [[E1 E2]|[E1 E2]]).
  - apply (find_forward l); [done|]. rewrite E1, length_app in Hfu. lia.
  - destruct l as [|c l]; [rewrite app_nil_r in E1; subst G; apply (find_forward []); [by rewrite app_nil_r|simpl; lia]|].
    rewrite E1. apply (find_around H); [done|done|]. rewrite E2, length_app in Hfu. simpl in Hfu. lia.
Qed.
End find.

(** ** Putting a block back *)

(** A block that may be freed: its header, and its place among the others. *)
Record loose (m : mem) (b : blk) (F : list blk) : Prop := {
  lo_size : hsize m b.1 = b.2;
  lo_pos : 0 < b.2;
  lo_low : base + 8 ≤ b.1;
  lo_hi : bend b ≤ hi;
  lo_disj : Forall (disj b) F
}.

(** Blocks that touch count as one for every other block. *)
Lemma disj_join u b c : 0 < u.2 → bend b = c.1 → disj u b → disj u c → disj u (b.1, b.2 + c.2).
Proof. unfold disj, bend. simpl. lia. Qed.

(** What joining a block with the list behind it or before it keeps. *)
Definition joined (old new : list blk) : Prop :=
  units new = units old ∧ (∀ u, 0 < u.2 → Forall (disj u) old → Forall (disj u) new) ∧
  (∀ n, Exists (λ b, n ≤ b.2) old → Exists (λ b, n ≤ b.2) new) ∧ (length new ≤ length old)%nat.

Lemma joined_step F b c H : 0 < b.2 → 0 < c.2 → bend b = c.1 → joined (F ++ b :: c :: H) (F ++ (b.1, b.2 + c.2) :: H).
Proof.
  intros Hb Hc E. split_and!.
  - rewrite !units_app. simpl. lia.
  - intros u Hu. rewrite !Forall_app, !Forall_cons. intros (HF & H1 & H2 & HH). split_and!; [done|by apply disj_join|done].
  - intros n. rewrite !Exists_app, !Exists_cons. simpl. intros [?|[?|[?|?]]]; [by left|right; left; lia|right; left; lia|by right; right].
  - rewrite !length_app. simpl. lia.
Qed.

Lemma joined_trans F G H : joined F G → joined G H → joined F H.
Proof. intros (A1 & A2 & A3 & A4) (B1 & B2 & B3 & B4). split_and!; [congruence|auto|auto|lia]. Qed.

(** The first half of [free]: the block and the list behind it. *)
Definition join_right (bp p : Z) : M heap () :=
  m ← gets umem;
  if hadd bp (hsize m bp) =? hptr m p then
    set_size bp (u32 (hsize m bp + hsize m (hptr m p)));;
    m ← gets umem; set_ptr bp (hptr m (hptr m p))
  else set_ptr bp (hptr m p).

(** The second half: the list before it. *)
Definition join_left (bp p : Z) : M heap () :=
  m ← gets umem;
  if hadd p (hsize m p) =? bp then
    set_size p (u32 (hsize m p + hsize m bp));;
    m ← gets umem; set_ptr p (hptr m bp)
  else set_ptr p bp.

Lemma free_unfold fuel ap h p : free_find fuel (umem h) (ap - HDR) (freep h) = Some p →
  free fuel ap h = (join_right (ap - HDR) p;; join_left (ap - HDR) p;; modify (λ h, h <| freep := p |>)) h.
Proof. intros E. unfold free. rewrite bind_get, E. unfold join_right, join_left. mrun. repeat case_match; done. Qed.

(** A list whose first header is at [b] and that ends at [base]. *)
Definition tail_of (m : mem) (b : blk) (R : list blk) : Prop :=
  hsize m b.1 = b.2 ∧ seg m b.1 R ∧ hptr m (lastp b.1 R) = base.

Lemma hadd_bend b : 0 < b.1 → bend b ≤ hi → 0 ≤ b.2 → hadd b.1 b.2 = bend b.
Proof using Hhi. intros. unfold hadd, HDR, bend in *. apply u32_small. lia. Qed.


Lemma loose_apart m b F a : loose m b F → ordered (base + 7) F → a ∈ base :: F.*1 → a + 8 ≤ b.1 ∨ b.1 + 8 ≤ a.
Proof.
  intros [_ Hp Hl _ Hd] Ho [->|Ha]%elem_of_cons; [by left|]. apply list_elem_of_fmap in Ha as (c & -> & Hc).
  rewrite Forall_forall in Hd. specialize (Hd c Hc). apply ordered_bounds in Ho. rewrite Forall_forall in Ho. specialize (Ho c Hc).
  unfold disj, bend in Hd. lia.
Qed.

Lemma join_right_ok h m F1 F2 b :
  flist m (F1 ++ F2) → loose m b (F1 ++ F2) → Forall (λ c, bend b ≤ c.1) F2 →
  ∃ m' b' R, join_right b.1 (lastp base F1) (wm h m) = Ok () (wm h m') ∧ changes [b.1] m m' ∧ b'.1 = b.1 ∧
    tail_of m' b' R ∧ ordered (b.1 - 1) (b' :: R) ∧ Forall (λ c, bend c ≤ hi) (b' :: R) ∧ joined (b :: F2) (b' :: R).
Proof using Hbase Hroom Hhi.
  intros Hf Hl H2. pose proof Hl as [Ls Lp Ll Lh Ld]. set (p := lastp base F1).
  pose proof (fl_seg _ _ Hf) as [_ Hs]%seg_app. pose proof (fl_end _ _ Hf) as He. rewrite lastp_app in He. fold p in Hs, He.
  pose proof (fl_ord _ _ Hf) as Ho. pose proof Ho as [Ho1 Ho2]%ordered_app. pose proof (fl_hi _ _ Hf) as [_ Hh]%Forall_app.
  assert (∀ a c, a ∈ F2.*1 → c ∈ [b.1] → a + 8 ≤ c ∨ c + 8 ≤ a) as Hap.
  { intros a c Ha ->%list_elem_of_singleton. apply (loose_apart m b (F1 ++ F2)); [done|done|]. right. rewrite fmap_app. apply elem_of_app. by right. }
  assert (p + 8 ≤ b.1 ∨ b.1 + 8 ≤ p) as Hpb.
  { apply (loose_apart m b (F1 ++ F2)); [done|done|]. unfold p. destruct (lastp_in base F1) as [-> |]; [by left|right].
    rewrite fmap_app. apply elem_of_app. by left. }
  unfold join_right. rewrite gets_wm, Ls, hadd_bend by (unfold bend in *; lia).
  assert (∀ v, v = hptr m p → 0 ≤ v < 4294967296 → bend b ≠ v → Forall (λ c, bend b < c.1) F2 →
    ∃ m' b' R, set_ptr b.1 v (wm h m) = Ok () (wm h m') ∧ changes [b.1] m m' ∧ b'.1 = b.1 ∧
    tail_of m' b' R ∧ ordered (b.1 - 1) (b' :: R) ∧ Forall (λ c, bend c ≤ hi) (b' :: R) ∧ joined (b :: F2) (b' :: R)) as Hplain.
  { intros v Hv Hr Hne Hgap. destruct (store_ptr m b.1 v Hr) as (C & E1 & E2). exists (store32 m b.1 v), b, F2.
    destruct (tail_move _ _ _ p b.1 F2 base C Hap ltac:(congruence) Hs He) as [T1 T2].
    split_and!; try done; [split_and!; [congruence|done|done]| |by constructor].
    split_and!; [lia|done|]. destruct F2 as [|c F2]; [done|]. apply Forall_cons in Hgap as [Hc _]. destruct Ho2 as (_ & O2 & O3). done. }
  destruct F2 as [|c F2].
  - simpl in He. rewrite He. rewrite (proj2 (Z.eqb_neq (bend b) base)) by (unfold bend; lia).
    apply (Hplain base); [done|lia|unfold bend; lia|constructor].
  - destruct Hs as (S1 & S2 & S3). simpl in He. destruct Ho2 as (O1 & O2 & O3). apply Forall_cons in Hh as [Hc Hh]. apply Forall_cons in H2 as [Hbc H2].
    rewrite S1. destruct (Z.eqb_spec (bend b) c.1) as [Ej|Hne].
    + rewrite S2. set (n := u32 (b.2 + c.2)). assert (n = b.2 + c.2) as En by (apply u32_small; unfold bend in *; lia).
      destruct (store_size m b.1 n ltac:(apply u32_range)) as (C1 & E1 & _). set (m1 := store32 m (b.1 + 4) n) in *.
      destruct (changes_hdr _ _ _ p C1) as [Ep _]; [intros ? ->%list_elem_of_singleton; exact Hpb|].
      destruct (changes_hdr _ _ _ c.1 C1) as [Ec _]; [intros ? Hin; apply Hap; [by left|done]|].
      rewrite set_size_wm, gets_wm. fold m1. rewrite Ep, S1, Ec, set_ptr_end. set (v := hptr m c.1).
      assert (0 ≤ v < 4294967296) as Hv by
        (unfold v; destruct F2 as [|d F2]; simpl in He; [rewrite He; lia|destruct S3 as (-> & _); apply Forall_cons in Hh as [? _];
         destruct O3 as (? & ? & _); unfold bend in *; lia]).
      destruct (store_ptr m1 b.1 v Hv) as (C2 & E2 & E3). pose proof (changes_trans _ _ _ _ C1 C2) as C.
      exists (store32 m1 b.1 v), (b.1, b.2 + c.2), F2.
      destruct (tail_move _ _ (store32 m1 b.1 v) c.1 b.1 F2 base C) as [T1 T2]; [|done|done|done|].
      { intros a d Ha Hin. apply Hap; [by right|done]. }
      assert (bend (b.1, b.2 + c.2) = bend c) as Eb by (unfold bend in *; simpl; lia).
      split_and!; try done; [split_and!; [simpl; congruence|done|done]| | |apply (joined_step [] b c F2); [done|lia|done]].
      * cbn [ordered fst snd]. rewrite Eb. split_and!; [lia|lia|done].
      * constructor; [lia|done].
    + apply (Hplain c.1); [done|unfold bend in *; lia|done|]. constructor; [lia|]. apply ordered_bounds in O3.
      eapply Forall_impl; [exact O3|]. simpl. unfold bend in *. lia.
Qed.

(** A header is apart from the ones before and behind it. *)
Lemma apart_before G c a : ordered (base + 7) (G ++ [c]) → a ∈ base :: G.*1 → a + 8 ≤ c.1.
Proof.
  intros [HG (H1 & _)]%ordered_app Ha. pose proof (last_end_ge _ _ HG) as [H2 H3]. apply elem_of_cons in Ha as [-> | Ha]; [lia|].
  apply list_elem_of_fmap in Ha as (d & -> & Hd). apply ordered_bounds in HG. rewrite Forall_forall in H3, HG.
  specialize (H3 d Hd). specialize (HG d Hd). unfold bend in *. lia.
Qed.

Lemma apart_behind lo R a : ordered lo R → a ∈ R.*1 → lo < a.
Proof. intros Ho (d & -> & Hd)%list_elem_of_fmap. apply ordered_bounds in Ho. rewrite Forall_forall in Ho. apply Ho in Hd. lia. Qed.

(** What is before a header does not notice a change of it. *)
Lemma before_frame m m' G c : changes [c.1] m m' → ordered (base + 7) (G ++ [c]) → hsize m base = 0 → seg m base G →
  hsize m' base = 0 ∧ seg m' base G ∧ hptr m' (lastp base G) = hptr m (lastp base G).
Proof.
  intros C Ho Hz Hs.
  assert (∀ a d, a ∈ base :: G.*1 → d ∈ [c.1] → a + 8 ≤ d ∨ d + 8 ≤ a) as Hap by
    (intros a d Ha ->%list_elem_of_singleton; left; by apply (apart_before G c)).
  split_and!; [|by apply (seg_frame _ m m' _ _ C)|].
  - destruct (changes_hdr _ _ _ base C) as [_ ->]; [intros; apply Hap; [by left|done]|done].
  - apply (changes_hdr _ _ _ (lastp base G) C). intros d. apply Hap. destruct (lastp_in base G) as [-> |]; [by left|by right].
Qed.

(** Nor does the part of the list that ends in a header notice a change of
    its pointer. *)
Lemma upto_frame m m' G : changes [lastp base G] m m' → hsize m' (lastp base G) = hsize m (lastp base G) →
  hsize m base = 0 → seg m base G → ordered (base + 7) G → hsize m' base = 0 ∧ seg m' base G.
Proof.
  intros C Es Hz Hs Ho. destruct G as [|g G' _] using rev_ind; [simpl in *; by rewrite Es|]. rewrite lastp_app in *. simpl in *.
  apply seg_app in Hs as [Hs (S1 & S2 & _)]. destruct (before_frame m m' G' g C Ho Hz Hs) as (W1 & W2 & W3).
  split; [done|]. apply seg_app. split; [done|]. split_and!; [congruence|congruence|done].
Qed.

(** The header at [p], the last of [G], now points to [b]. *)
Lemma link_ok m m' G b R :
  changes [lastp base G] m m' → hptr m' (lastp base G) = b.1 → hsize m' (lastp base G) = hsize m (lastp base G) →
  hsize m base = 0 → seg m base G → ordered (base + 7) (G ++ b :: R) → Forall (λ c, bend c ≤ hi) (G ++ b :: R) → tail_of m b R →
  flist m' (G ++ b :: R).
Proof.
  intros C Ep Es Hz Hs Ho Hh (T1 & T2 & T3). pose proof Ho as [HoG Hob]%ordered_app. pose proof Hob as (O1 & O2 & O3).
  pose proof (lastp_end base (base + 7) G ltac:(lia) HoG) as Hle.
  assert (∀ a c, a ∈ b.1 :: R.*1 → c ∈ [lastp base G] → a + 8 ≤ c ∨ c + 8 ≤ a) as Hap.
  { intros a c Ha ->%list_elem_of_singleton. right. apply elem_of_cons in Ha as [-> | Ha]; [lia|]. apply (apart_behind _ _ _ O3) in Ha. unfold bend in Ha. lia. }
  assert (hsize m' b.1 = b.2 ∧ seg m' b.1 R ∧ hptr m' (lastp b.1 R) = base) as (U1 & U2 & U3).
  { split; [|split]; [|by apply (seg_frame _ m m' _ _ C)|].
    - destruct (changes_hdr _ _ _ b.1 C) as [_ ->]; [intros; apply Hap; [by left|done]|done].
    - destruct (changes_hdr _ _ _ (lastp b.1 R) C) as [-> _]; [intros; apply Hap; [|done]; destruct (lastp_in b.1 R) as [-> |]; [by left|by right]|done]. }
  destruct (upto_frame m m' G C Es Hz Hs HoG) as [V1 V2].
  split; [done| |rewrite lastp_app; done|done|done]. apply seg_app. by split.
Qed.

Lemma join_left_ok h m F1 b R :
  hsize m base = 0 → seg m base F1 → ordered (base + 7) F1 → Forall (λ c, bend c ≤ hi) F1 → Forall (λ c, bend c ≤ b.1) F1 →
  tail_of m b R → ordered (b.1 - 1) (b :: R) → Forall (λ c, bend c ≤ hi) (b :: R) → base + 8 ≤ b.1 →
  ∃ m' F', join_left b.1 (lastp base F1) (wm h m) = Ok () (wm h m') ∧ changes [lastp base F1] m m' ∧ flist m' F' ∧
    node F' (lastp base F1) ∧ joined (F1 ++ b :: R) F'.
Proof using Hbase Hroom Hhi.
  intros Hz Hs Ho Hh Hb Ht (_ & Hpos & Hor) Hhr Hlow. pose proof Hhr as [Hbh _]%Forall_cons.
  assert (0 ≤ b.1 < 4294967296) as Hbr by (unfold bend in Hbh; lia).
  assert (last_end (base + 7) F1 < b.1 → bend b ≤ hi → ∃ m' F', set_ptr (lastp base F1) b.1 (wm h m) = Ok () (wm h m') ∧ changes [lastp base F1] m m' ∧ flist m' F' ∧
    node F' (lastp base F1) ∧ joined (F1 ++ b :: R) F') as Hlink.
  { intros Hgap _. destruct (store_ptr m (lastp base F1) b.1 Hbr) as (C & E1 & E2). exists (store32 m (lastp base F1) b.1), (F1 ++ b :: R).
    split_and!; try done; [|by exists F1, (b :: R)]. apply (link_ok m); try done; [|by apply Forall_app]. apply ordered_app. by split. }
  unfold join_left. rewrite gets_wm. destruct F1 as [|c G _] using rev_ind.
  - simpl. rewrite Hz. assert (hadd base 0 = base) as -> by (unfold hadd, HDR; rewrite Z.mul_0_r, Z.add_0_r; apply u32_small; lia).
    rewrite (proj2 (Z.eqb_neq base b.1)) by lia. apply Hlink; [simpl; lia|done].
  - rewrite lastp_app in *. simpl in *. pose proof Hs as [HsG (S1 & S2 & _)]%seg_app. pose proof Ho as [HoG (O1 & O2 & _)]%ordered_app.
    apply Forall_app in Hh as [HhG [Hc _]%Forall_cons]. apply Forall_app in Hb as [_ [Hcb _]%Forall_cons].
    pose proof (apart_before G c base Ho (list_elem_of_here _ _)) as Hc8. rewrite S2, hadd_bend by (try done; lia). destruct (Z.eqb_spec (bend c) b.1) as [Ej|Hne].
    + destruct Ht as (T1 & T2 & T3). rewrite T1. set (n := u32 (c.2 + b.2)). assert (n = c.2 + b.2) as En by (apply u32_small; unfold bend in *; lia).
      destruct (store_size m c.1 n ltac:(apply u32_range)) as (C1 & E1 & E1'). rewrite set_size_wm, gets_wm, set_ptr_end. set (m1 := store32 m (c.1 + 4) n) in *.
      assert (∀ a d, a ∈ b.1 :: R.*1 → d ∈ [c.1] → a + 8 ≤ d ∨ d + 8 ≤ a) as Hap.
      { intros a d Ha ->%list_elem_of_singleton. right. apply elem_of_cons in Ha as [-> | Ha]; [unfold bend in *; lia|].
        apply (apart_behind _ _ _ Hor) in Ha. unfold bend in *. lia. }
      destruct (changes_hdr _ _ _ b.1 C1) as [Eb _]; [intros; apply Hap; [by left|done]|]. rewrite Eb. set (v := hptr m b.1).
      assert (0 ≤ v < 4294967296) as Hv by
        (unfold v; destruct R as [|d R]; simpl in T3; [rewrite T3; lia|destruct T2 as (-> & _); apply Forall_cons in Hhr as [_ [? _]%Forall_cons];
         destruct Hor as (? & ? & _); unfold bend in *; lia]).
      destruct (store_ptr m1 c.1 v Hv) as (C2 & E2 & E3). pose proof (changes_trans _ _ _ _ C1 C2) as C. set (m2 := store32 m1 c.1 v) in *.
      exists m2, (G ++ (c.1, c.2 + b.2) :: R). split_and!; try done; [| |].
      * destruct (tail_move _ _ m2 b.1 c.1 R base C) as [U1 U2]; [intros a d Ha Hin; apply Hap; [by right|done]|done|done|done|].
        destruct (before_frame m m2 G c C Ho Hz HsG) as (W1 & W2 & W3). split; [done| | | |].
        -- apply seg_app. split; [done|]. split_and!; simpl; [congruence|congruence|done].
        -- rewrite lastp_app. done.
        -- apply ordered_app. split; [done|]. cbn [ordered fst snd]. assert (bend (c.1, c.2 + b.2) = bend b) as -> by (unfold bend in *; simpl; lia).
           split_and!; [done|lia|done].
        -- apply Forall_app. split; [done|]. apply Forall_cons in Hhr as [? ?]. constructor; [unfold bend in *; simpl in *; lia|done].
      * exists (G ++ [(c.1, c.2 + b.2)]), R. rewrite <- app_assoc, lastp_app. done.
      * rewrite <- app_assoc. by apply joined_step.
    + apply Hlink; [|done]. rewrite (ordered_app (base + 7) G [c]) in Ho.
      assert (∀ lo, last_end lo (G ++ [c]) = bend c) as -> by (clear; induction G as [|g G IH]; intros lo; [done|]; apply IH). lia.
Qed.

(** ** [free] *)

Lemma joined_app G old new : joined old new → joined (G ++ old) (G ++ new).
Proof.
  intros (A1 & A2 & A3 & A4). split_and!.
  - rewrite !units_app. lia.
  - intros u Hu. rewrite !Forall_app. naive_solver.
  - intros n. rewrite !Exists_app. naive_solver.
  - rewrite !length_app. lia.
Qed.

Lemma joined_mid b F1 F2 : joined (b :: F1 ++ F2) (F1 ++ b :: F2).
Proof.
  split_and!.
  - rewrite units_app. simpl. rewrite units_app. lia.
  - intros u Hu. rewrite Forall_app, !Forall_cons, Forall_app. naive_solver.
  - intros n. rewrite Exists_app, !Exists_cons, Exists_app. naive_solver.
  - simpl. rewrite !length_app. simpl. lia.
Qed.

(** Writes elsewhere. *)
Lemma flist_frame H m m' F : changes H m m' → (∀ a c, a ∈ base :: F.*1 → c ∈ H → a + 8 ≤ c ∨ c + 8 ≤ a) → flist m F → flist m' F.
Proof.
  intros C Hap [F1 F2 F3 F4 F5]. split; [| by apply (seg_frame _ m m' _ _ C) | | done | done].
  - destruct (changes_hdr _ _ _ base C) as [_ ->]; [intros; apply Hap; [by left|done]|done].
  - transitivity (hptr m (lastp base F)); [|done]. apply (changes_hdr _ _ _ (lastp base F) C). intros c. apply Hap. destruct (lastp_in base F) as [-> |]; [by left|by right].
Qed.

Lemma node_in F q : node F q → q ∈ base :: F.*1.
Proof. intros (G & H & -> & ->). destruct (lastp_in base G) as [-> |]; [by left|right]. rewrite fmap_app. apply elem_of_app. by left. Qed.

Lemma free_ok h F b fuel :
  flist (umem h) F → node F (freep h) → loose (umem h) b F → (length F + 1 < fuel)%nat →
  ∃ m' F' p, free fuel (b.1 + 8) h = Ok () (Heap m' p (brk h)) ∧ changes (base :: b.1 :: F.*1) (umem h) m' ∧
    flist m' F' ∧ node F' p ∧ joined (b :: F) F'.
Proof using Hbase Hroom Hhi.
  intros Hf Hn Hl Hfu. pose proof Hl as [Ls Lp Ll Lh Ld]. pose proof (fl_ord _ _ Hf) as Ho.
  destruct (ordered_split (base + 7) F b Ho ltac:(lia) Lp Ld) as (F1 & F2 & -> & H1 & H2).
  assert (free_find fuel (umem h) (b.1 + 8 - HDR) (freep h) = Some (lastp base F1)) as Hfind.
  { replace (b.1 + 8 - HDR) with b.1 by (unfold HDR; lia). apply (find_ok (umem h) F1 F2); try done; [|lia].
    eapply Forall_impl; [exact H2|]. simpl. unfold bend. lia. }
  rewrite (free_unfold _ _ _ _ Hfind). replace (b.1 + 8 - HDR) with b.1 by (unfold HDR; lia).
  destruct (join_right_ok h (umem h) F1 F2 b Hf Hl H2) as (m1 & b' & R & E1 & C1 & Eb & T & Hor & Hhr & J1). rewrite wm_self in E1.
  rewrite (bind_ok _ _ _ _ _ E1).
  assert (∀ a c, a ∈ base :: F1.*1 → c ∈ [b.1] → a + 8 ≤ c ∨ c + 8 ≤ a) as Hap.
  { intros a c Ha ->%list_elem_of_singleton. apply (loose_apart (umem h) b (F1 ++ F2)); [done|done|]. rewrite fmap_app. set_solver. }
  destruct (changes_hdr _ _ _ base C1) as [_ Ez]; [intros; apply Hap; [by left|done]|]. rewrite (fl_zero _ _ Hf) in Ez.
  pose proof (fl_seg _ _ Hf) as [Hs _]%seg_app. pose proof (seg_frame _ _ _ _ _ C1 Hap Hs) as Hs1.
  apply ordered_app in Ho as [Ho1 _]. pose proof (fl_hi _ _ Hf) as [Hh1 _]%Forall_app. rewrite <- Eb in H1, Hor, Ll |- *.
  destruct (join_left_ok h m1 F1 b' R Ez Hs1 Ho1 Hh1 H1 T Hor Hhr Ll) as (m2 & F' & E2 & C2 & Hf' & Hn' & J2).
  rewrite (bind_ok _ _ _ _ _ E2). exists m2, F', (lastp base F1). split; [done|]. split_and!; [|done|done|].
  - eapply changes_trans; [eapply changes_sub; [|exact C1] | eapply changes_sub; [|exact C2]].
    + intros a ->%list_elem_of_singleton. rewrite Eb. set_solver.
    + intros a ->%list_elem_of_singleton. pose proof (node_in (F1 ++ F2) (lastp base F1) ltac:(by exists F1, F2)). set_solver.
  - eapply joined_trans; [apply joined_mid|]. eapply joined_trans; [apply joined_app, J1|]. done.
Qed.

(** ** Taking a block *)

(** What is taken from the list: a block [b] of [n] units, the rest [F']. *)
Definition takes (F F' : list blk) (b : blk) : Prop :=
  units F' + b.2 = units F ∧ base + 8 ≤ b.1 ∧ 0 < b.2 ∧ bend b ≤ hi ∧ Forall (disj b) F' ∧
  ∀ u, 0 < u.2 → Forall (disj u) F → Forall (disj u) F' ∧ disj u b.

Lemma ordered_others lo G c H : ordered lo (G ++ c :: H) → Forall (λ d, bend d < c.1) G ∧ Forall (λ d, bend c < d.1) H.
Proof.
  intros [HG (H1 & H2 & H3)]%ordered_app. split.
  - apply last_end_ge in HG as [_ HG]. eapply Forall_impl; [exact HG|]. simpl. lia.
  - apply ordered_bounds in H3. eapply Forall_impl; [exact H3|]. simpl. lia.
Qed.

Lemma takes_tail G c H n : ordered (base + 7) (G ++ c :: H) → bend c ≤ hi → 0 < n ≤ c.2 →
  takes (G ++ c :: H) (if decide (n = c.2) then G ++ H else G ++ (c.1, c.2 - n) :: H) (bend c - 8 * n, n).
Proof.
  intros Ho Hh Hn. pose proof (ordered_others _ _ _ _ Ho) as [HG HH]. pose proof (ordered_bounds _ _ Ho) as Hb.
  apply Forall_app in Hb as [_ [[Hb _] _]%Forall_cons]. unfold takes. simpl.
  assert (bend (bend c - 8 * n, n) = bend c) as Ee by (unfold bend; simpl; lia). rewrite Ee.
  assert (Forall (disj (bend c - 8 * n, n)) G ∧ Forall (disj (bend c - 8 * n, n)) H) as [DG DH].
  { split; (eapply Forall_impl; [eassumption|]); intros d Hd; unfold disj; rewrite Ee; simpl; unfold bend in *; lia. }
  split_and!; [|unfold bend; lia|lia|done| |].
  - case_decide; rewrite !units_app; simpl; lia.
  - case_decide; apply Forall_app; (split; [done|]); [done|]. constructor; [|done]. unfold disj, bend. simpl. lia.
  - intros u Hu. rewrite Forall_app, Forall_cons. intros (UG & UC & UH). split.
    + case_decide; apply Forall_app; (split; [done|]); [done|]. constructor; [|done]. unfold disj, bend in *. simpl. lia.
    + unfold disj in *. rewrite Ee. simpl. unfold bend in *. lia.
Qed.

(** Unlinking a block. *)
Lemma unlink_ok m G c H : flist m (G ++ c :: H) →
  let m' := store32 m (lastp base G) (hptr m c.1) in
  changes [lastp base G] m m' ∧ flist m' (G ++ H) ∧ hsize m' c.1 = c.2.
Proof using Hbase Hroom Hhi.
  intros Hf m'. pose proof (node_next m _ G c H Hf eq_refl) as (N1 & N2 & N3 & N4 & N5).
  pose proof (fl_seg _ _ Hf) as [HsG (_ & _ & HsH)]%seg_app. pose proof (fl_end _ _ Hf) as He. rewrite lastp_app in He. simpl in He.
  pose proof (fl_ord _ _ Hf) as Ho. pose proof Ho as [HoG (O1 & O2 & O3)]%ordered_app.
  pose proof (lastp_end base (base + 7) G ltac:(lia) HoG) as Hle.
  pose proof (fl_hi _ _ Hf) as Hh. pose proof Hh as [HhG [_ HhH]%Forall_cons]%Forall_app.
  assert (0 ≤ hptr m c.1 < 4294967296) as Hv.
  { destruct H as [|d H]; simpl in He; [rewrite He; lia|]. destruct HsH as (-> & _). destruct O3 as (? & ? & _).
    apply Forall_cons in HhH as [? _]. pose proof (ordered_bounds _ _ Ho) as [_ [[? ?] _]%Forall_cons]%Forall_app. unfold bend in *. lia. }
  destruct (store_ptr m (lastp base G) _ Hv) as (C & E1 & E2). fold m' in C, E1, E2.
  destruct (upto_frame m m' G C E2 (fl_zero _ _ Hf) HsG HoG) as [V1 V2].
  assert (∀ a d, a ∈ c.1 :: H.*1 → d ∈ [lastp base G] → a + 8 ≤ d ∨ d + 8 ≤ a) as Hap.
  { intros a d Ha ->%list_elem_of_singleton. right. apply elem_of_cons in Ha as [-> | Ha]; [lia|]. apply (apart_behind _ _ _ O3) in Ha. unfold bend in Ha. lia. }
  destruct (tail_move _ _ m' c.1 (lastp base G) H base C) as [T1 T2]; [intros a d Ha; apply Hap; by right|done|done|done|].
  split; [done|]. split; [|destruct (changes_hdr _ _ _ c.1 C) as [_ ->]; [intros d; apply Hap; by left|done]].
  split; [done|apply seg_app; by split|by rewrite lastp_app| |by apply Forall_app].
  apply ordered_app. split; [done|]. eapply ordered_weaken; [|exact O3]. unfold bend in *. lia.
Qed.

(** Making a block smaller. *)
Lemma shrink_ok m G c H r : flist m (G ++ c :: H) → 0 < r < c.2 →
  let m' := store32 m (c.1 + 4) r in changes [c.1] m m' ∧ flist m' (G ++ (c.1, r) :: H).
Proof using Hbase Hroom Hhi.
  intros Hf Hr m'. pose proof (node_next m _ G c H Hf eq_refl) as (N1 & N2 & N3 & N4 & N5).
  pose proof (fl_seg _ _ Hf) as [HsG (_ & _ & HsH)]%seg_app. pose proof (fl_end _ _ Hf) as He. rewrite lastp_app in He. simpl in He.
  pose proof (fl_ord _ _ Hf) as Ho. pose proof Ho as [HoG (O1 & O2 & O3)]%ordered_app.
  pose proof (fl_hi _ _ Hf) as Hh. pose proof Hh as [HhG [_ HhH]%Forall_cons]%Forall_app.
  pose proof (ordered_bounds _ _ Ho) as [_ [[Hc _] _]%Forall_cons]%Forall_app.
  destruct (store_size m c.1 r ltac:(unfold bend in *; lia)) as (C & E1 & E2). fold m' in C, E1, E2.
  destruct (before_frame m m' G c C) as (W1 & W2 & W3); [apply ordered_app; split; [done|by split_and!] | apply (fl_zero _ _ Hf) | done |].
  destruct (tail_move _ _ m' c.1 c.1 H base C) as [T1 T2]; [|done|done|done|].
  { intros a d Ha ->%list_elem_of_singleton. right. apply (apart_behind _ _ _ O3) in Ha. unfold bend in Ha. lia. }
  split; [done|]. split; [done| |by rewrite lastp_app| |].
  - apply seg_app. split; [done|]. split_and!; simpl; [congruence|done|done].
  - apply ordered_app. split; [done|]. simpl. split_and!; [done|lia|]. eapply ordered_weaken; [|exact O3]. unfold bend. simpl. lia.
  - apply Forall_app. split; [done|]. constructor; [unfold bend in *; simpl; lia|done].
Qed.

Lemma take_ok grant fuel h G c H n : flist (umem h) (G ++ c :: H) → 0 < n ≤ c.2 →
  ∃ m' F' a, malloc_loop grant (S fuel) n (lastp base G) c.1 h = Ok (a + 8) (Heap m' (lastp base G) (brk h)) ∧
    changes (a :: base :: (G ++ c :: H).*1) (umem h) m' ∧ hsize m' a = n ∧ flist m' F' ∧ node F' (lastp base G) ∧ takes (G ++ c :: H) F' (a, n).
Proof using Hbase Hroom Hhi.
  intros Hf Hn. set (m := umem h) in *. pose proof (node_next m _ G c H Hf eq_refl) as (N1 & N2 & N3 & N4 & N5).
  pose proof (takes_tail G c H n (fl_ord _ _ Hf) N5 Hn) as Ht. pose proof (node_in (G ++ c :: H) (lastp base G) ltac:(by exists G, (c :: H))) as Hin.
  pose proof (ordered_bounds _ _ (fl_ord _ _ Hf)) as [_ [[Hc _] _]%Forall_cons]%Forall_app.
  cbn [malloc_loop]. rewrite bind_get. cbv zeta. fold m. rewrite N2, (proj2 (Z.leb_le n c.2)) by lia.
  assert (h = wm h m) as Eh by (by destruct h). rewrite Eh.
  destruct (Z.eqb_spec c.2 n) as [E|Hne].
  - subst n. rewrite decide_True in Ht by done. destruct (unlink_ok m G c H Hf) as (C & Hf' & Es).
    exists (store32 m (lastp base G) (hptr m c.1)), (G ++ H), c.1. rewrite bind_assoc, set_ptr_wm, bind_ret, bind_modify.
    assert (hadd c.1 1 = c.1 + 8) as -> by (unfold hadd, HDR, bend in *; apply u32_small; lia).
    split_and!; try done; [|by exists G, H|by replace c.1 with (bend c - 8 * c.2) by (unfold bend; lia)].
    eapply changes_sub; [|exact C]. intros a ->%list_elem_of_singleton. set_solver.
  - rewrite decide_False in Ht by done. assert (u32 (c.2 - n) = c.2 - n) as Er by (apply u32_small; unfold bend in *; lia). rewrite Er.
    destruct (shrink_ok m G c H (c.2 - n) Hf ltac:(lia)) as (C1 & Hf1). set (m1 := store32 m (c.1 + 4) (c.2 - n)) in *.
    set (a := bend c - 8 * n) in *. assert (hadd c.1 (c.2 - n) = a) as Ea by (unfold hadd, HDR, a, bend in *; rewrite u32_small; lia).
    rewrite bind_assoc, set_size_wm, Ea, bind_assoc, set_size_wm, bind_ret, bind_modify. fold m1.
    destruct (store_size m1 a n ltac:(unfold bend in *; lia)) as (C2 & E2 & _). set (m2 := store32 m1 (a + 4) n) in *.
    destruct Ht as (T1 & T2 & T3 & T4 & T5 & T6). exists m2, (G ++ (c.1, c.2 - n) :: H), a.
    assert (hadd a 1 = a + 8) as -> by (unfold hadd, HDR, bend in *; simpl in *; apply u32_small; lia).
    split_and!; try done; [|apply (flist_frame [a] m1); [done| |done]|by exists G, ((c.1, c.2 - n) :: H)].
    + eapply changes_trans; [eapply changes_sub; [|exact C1] | eapply changes_sub; [|exact C2]]; intros x ->%list_elem_of_singleton;
        rewrite ?fmap_app; set_solver.
    + intros x d Hx ->%list_elem_of_singleton. assert (loose m2 (a, n) (G ++ (c.1, c.2 - n) :: H)) as Hl by (by split).
      apply (loose_apart m2 (a, n) _ x Hl); [apply (fl_ord _ _ Hf1)|done].
Qed.

(** ** The search of [malloc] *)

Lemma node_before F1 F2 a : ordered (base + 7) (F1 ++ F2) → a ∈ F2.*1 → lastp base F1 < a.
Proof.
  intros [H1 H2]%ordered_app Ha. pose proof (lastp_end base (base + 7) F1 ltac:(lia) H1). apply (apart_behind _ _ _ H2) in Ha. lia.
Qed.

Lemma skip_one grant fuel h n q p : hsize (umem h) p < n → p ≠ freep h →
  malloc_loop grant (S fuel) n q p h = malloc_loop grant fuel n p (hptr (umem h) p) h.
Proof.
  intros Hs Hp. cbn [malloc_loop]. rewrite bind_get. cbv zeta. rewrite (proj2 (Z.leb_gt n _)) by lia. by rewrite (proj2 (Z.eqb_neq p _)) by done.
Qed.

Lemma skip_all grant h n H : ∀ G K fuel, flist (umem h) (G ++ H ++ K) → Forall (λ b, b.2 < n) H → freep h ∉ H.*1 →
  malloc_loop grant (length H + fuel) n (lastp base G) (hptr (umem h) (lastp base G)) h =
  malloc_loop grant fuel n (lastp base (G ++ H)) (hptr (umem h) (lastp base (G ++ H))) h.
Proof.
  induction H as [|c H IH]; intros G K fuel Hf Hs Hn; [by rewrite app_nil_r|]. apply Forall_cons in Hs as [Hc Hs].
  destruct (node_next _ _ G c (H ++ K) Hf) as (-> & N2 & _); [done|]. cbn [length Nat.add fmap list_fmap] in *. apply not_elem_of_cons in Hn as [Hn1 Hn2].
  rewrite skip_one by (try lia; congruence). specialize (IH (G ++ [c]) K fuel). rewrite lastp_app, <- !app_assoc in IH. by apply IH.
Qed.

Lemma skip_base grant h n F fuel : flist (umem h) F → 0 < n → base ≠ freep h →
  malloc_loop grant (S fuel) n (lastp base F) (hptr (umem h) (lastp base F)) h =
  malloc_loop grant fuel n (lastp base []) (hptr (umem h) (lastp base [])) h.
Proof. intros Hf Hn Hb. pose proof (fl_zero _ _ Hf) as Hz. rewrite (fl_end _ _ Hf). apply (skip_one grant fuel h n _ base); [lia|done]. Qed.

(** The first block that is large enough. *)
Lemma first_fit n F : Exists (λ b : blk, n ≤ b.2) F → ∃ G c H, F = G ++ c :: H ∧ n ≤ c.2 ∧ Forall (λ b, b.2 < n) G.
Proof.
  induction F as [|b F IH]; [by intros ?%Exists_nil|]. intros He. destruct (decide (n ≤ b.2)) as [Hb|Hb].
  - by exists [], b, F.
  - apply Exists_cons in He as [?|He]; [done|]. destruct (IH He) as (G & c & H & -> & Hc & HG). exists (b :: G), c, H.
    split_and!; [done|done|]. constructor; [lia|done].
Qed.

Lemma scan_found grant h F n fuel : flist (umem h) F → node F (freep h) → 0 < n → Exists (λ b, n ≤ b.2) F → (length F + 1 < fuel)%nat →
  ∃ G c H fuel', F = G ++ c :: H ∧ n ≤ c.2 ∧
    malloc_loop grant fuel n (freep h) (hptr (umem h) (freep h)) h = malloc_loop grant (S fuel') n (lastp base G) c.1 h.
Proof.
  intros Hf (F1 & F2 & -> & Ef) Hn He Hfu. pose proof (fl_ord _ _ Hf) as Ho. rewrite length_app in Hfu.
  destruct (decide (Exists (λ b, n ≤ b.2) F2)) as [H2|H2].
  - destruct (first_fit _ _ H2) as (G & c & H & -> & Hc & HG). exists (F1 ++ G), c, H, (fuel - length G - 1)%nat.
    split; [by rewrite <- app_assoc|]. split; [done|]. rewrite Ef. rewrite length_app in Hfu. simpl in Hfu.
    replace fuel with (length G + S (fuel - length G - 1))%nat at 1 by lia.
    rewrite (skip_all grant h n G F1 (c :: H)); [|done|done|].
    + destruct (node_next (umem h) _ (F1 ++ G) c H Hf) as (-> & _); [by rewrite <- app_assoc|done].
    + rewrite Ef. intros Ha. assert (lastp base F1 < lastp base F1); [|lia]. apply (node_before F1 (G ++ c :: H)); [done|]. rewrite fmap_app. set_solver.
  - assert (Exists (λ b, n ≤ b.2) F1) as H1 by (apply Exists_app in He as [?|?]; done).
    assert (Forall (λ b, b.2 < n) F2) as HF2 by (apply not_Exists_Forall in H2; [|apply _]; eapply Forall_impl; [exact H2|]; simpl; lia).
    destruct (first_fit _ _ H1) as (G & c & H & -> & Hc & HG). exists G, c, (H ++ F2), (fuel - length F2 - 1 - length G - 1)%nat.
    split; [by rewrite <- app_assoc|]. split; [done|]. rewrite Ef. rewrite length_app in Hfu. simpl in Hfu.
    assert (∀ a, a ∈ base :: G.*1 → a ≠ freep h) as Hne.
    { intros a Ha Eq. assert (a + 8 ≤ c.1) as Hac. { apply (apart_before G c); [|done]. rewrite <- app_assoc in Ho. apply (ordered_app _ G (c :: H ++ F2)) in Ho as [HG' (O1 & O2 & _)].
        apply ordered_app. split; [done|]. by split_and!. }
      rewrite lastp_app in Ef. simpl in Ef. destruct (lastp_in c.1 H) as [El|El]; rewrite Eq, Ef in Hac; [lia|].
      apply (node_before (G ++ [c]) H) in El as Hl; [rewrite lastp_app in Hl; simpl in Hl; lia|]. rewrite <- !app_assoc in Ho. simpl in Ho.
      change (G ++ c :: H ++ F2) with (G ++ ([c] ++ H) ++ F2) in Ho. rewrite app_assoc in Ho. apply ordered_app in Ho as [Ho _]. by rewrite app_assoc in Ho. }
    replace fuel with (length F2 + S (length G + S (fuel - length F2 - 1 - length G - 1)))%nat at 1 by lia.
    rewrite (skip_all grant h n F2 (G ++ c :: H) []); [|by rewrite app_nil_r|done|].
    2: { rewrite Ef. intros Ha. apply (node_before (G ++ c :: H) F2) in Ha; [lia|done]. }
    rewrite skip_base; [|done|done|apply Hne; by left]. rewrite (skip_all grant h n G [] (c :: H ++ F2)); [|by rewrite <- app_assoc in Hf|done|].
    2: { intros Ha. by apply (Hne (freep h)); [right|]. }
    simpl. destruct (node_next (umem h) _ G c (H ++ F2) Hf) as (-> & _); [by rewrite <- app_assoc|done].
Qed.

(** When no block is large enough the search comes back to where it
    started. *)
Lemma scan_none grant h F n fuel : flist (umem h) F → node F (freep h) → 0 < n → Forall (λ b, b.2 < n) F →
  hsize (umem h) (freep h) < n ∧
  ∃ q, malloc_loop grant (length F + fuel) n (freep h) (hptr (umem h) (freep h)) h = malloc_loop grant fuel n q (freep h) h.
Proof.
  intros Hf (F1 & F2 & -> & Ef) Hn Hs. pose proof (fl_ord _ _ Hf) as Ho. pose proof Hs as [Hs1 Hs2]%Forall_app.
  assert (freep h ∉ F2.*1) as Hf2 by (rewrite Ef; intros Ha; apply (node_before F1 F2) in Ha; [lia|done]).
  destruct F1 as [|c G _] using rev_ind.
  - simpl in Ef. rewrite Ef. split; [by rewrite (fl_zero _ _ Hf)|]. exists (lastp base F2).
    pose proof (skip_all grant h n F2 [] [] fuel) as Hk. rewrite app_nil_r in Hk. simpl in Hk, Hf |- *. rewrite Hk; [|done|done|done].
    by rewrite (fl_end _ _ Hf).
  - assert (lastp base (G ++ [c]) = c.1) as Ec by (by rewrite lastp_app). assert (freep h = c.1) as Efc by congruence.
    assert (flist (umem h) (G ++ c :: F2)) as Hf' by (by rewrite <- app_assoc in Hf).
    pose proof (node_next _ _ G c F2 Hf' eq_refl) as (N1 & N2 & N3 & _).
    apply Forall_app in Hs1 as [HsG [Hsc _]%Forall_cons]. split; [rewrite Efc; lia|]. exists (lastp base G).
    assert (∀ a, a ∈ base :: G.*1 → a ≠ freep h) as Hne.
    { intros a Ha. apply (apart_before G c) in Ha; [lia|]. by apply ordered_app in Ho as [? _]. }
    rewrite !length_app. simpl. replace (length G + 1 + length F2 + fuel)%nat with (length F2 + S (length G + fuel))%nat by lia.
    rewrite Ef at 1 2. rewrite (skip_all grant h n F2 (G ++ [c]) []); [|by rewrite app_nil_r|done|done].
    rewrite skip_base; [|done|done|apply Hne; by left]. rewrite (skip_all grant h n G [] (c :: F2)); [|done|done|].
    + simpl. by rewrite N1, Efc.
    + intros Ha. by apply (Hne (freep h)); [right|].
Qed.
End list.

Lemma flist_hi base hi hi' m F : hi ≤ hi' → flist base hi m F → flist base hi' m F.
Proof. intros Hh [F1 F2 F3 F4 F5]. split; try done. eapply Forall_impl; [exact F5|]. simpl. lia. Qed.

Section theorem.
Context (base : Z) (grant : Z → Z → bool) (Hbase : 0 < base).

(** The kernel does not let a process grow into the kernel. *)
Context (Hgrant : ∀ b n, 0 < n → grant b n = true → b + n ≤ 2147483648).

Definition more (n : Z) : Z := if n <? 4096 then 4096 else n.

Lemma morecore_ok fuel h F n :
  base + 8 ≤ brk h ≤ 2147483648 → flist base (brk h) (umem h) F → node base F (freep h) → 0 < n → 8 * n < 2147483648 → (length F + 1 < fuel)%nat →
  morecore grant fuel n h = Ok 0 h ∧ grant (brk h) (8 * more n) = false ∨
  ∃ m' F' p, brk h + 8 * more n ≤ 2147483648 ∧ morecore grant fuel n h = Ok p (Heap m' p (brk h + 8 * more n)) ∧ p ≠ 0 ∧
    changes (base :: brk h :: F.*1) (umem h) m' ∧ flist base (brk h + 8 * more n) m' F' ∧ node base F' p ∧ joined ((brk h, more n) :: F) F'.
Proof using Hbase Hgrant.
  intros Hb Hf Hn Hpos Hlt Hfu. unfold morecore. cbv zeta. fold (more n). assert (0 < more n ∧ 8 * more n < 2147483648 ∧ n ≤ more n) as (M1 & M2 & M3) by (unfold more; case_match; lia).
  replace (more n * HDR) with (8 * more n) by (unfold HDR; lia). rewrite s32_small by lia.
  destruct (grant (brk h) (8 * more n)) eqn:G; [right|left; split; [|done]; unfold sbrk, mbind, M_bind; by rewrite G].
  assert (0 < 8 * more n) as Hp8 by lia. pose proof (Hgrant _ _ Hp8 G) as Hnew.
  assert (sbrk grant (8 * more n) h = Ok (brk h) (h <| brk := brk h + 8 * more n |>)) as E0 by (unfold sbrk; rewrite G, u32_small by lia; done).
  rewrite (bind_ok _ _ _ _ _ E0). change (u32 (-1)) with 4294967295.
  rewrite (proj2 (Z.eqb_neq (brk h) _)) by lia. assert (hadd (brk h) 1 = brk h + 8) as -> by (unfold hadd, HDR; apply u32_small; lia).
  destruct (store_size (umem h) (brk h) (more n) ltac:(lia)) as (C1 & E1 & _). set (m1 := store32 (umem h) (brk h + 4) (more n)) in *.
  set (h1 := Heap m1 (freep h) (brk h + 8 * more n)).
  assert (∀ k : () → M heap Z, (set_size (brk h) (more n) ≫= k) (h <| brk := brk h + 8 * more n |>) = k () h1) as -> by done.
  pose proof (fl_hi _ _ _ _ Hf) as Hhi. pose proof (fl_ord _ _ _ _ Hf) as Ho.
  assert (flist base (brk h + 8 * more n) m1 F) as Hf1.
  { apply (flist_hi _ (brk h)); [lia|]. apply (flist_frame base (brk h) [brk h] (umem h)); [done| |done].
    intros a c Ha ->%list_elem_of_singleton. left. apply elem_of_cons in Ha as [-> | Ha]; [lia|]. apply list_elem_of_fmap in Ha as (d & -> & Hd).
    apply ordered_bounds in Ho. rewrite Forall_forall in Hhi, Ho. specialize (Hhi d Hd). specialize (Ho d Hd). unfold bend in *. lia. }
  destruct (free_ok base (brk h + 8 * more n) Hbase ltac:(lia) ltac:(lia) h1 F (brk h, more n) fuel) as (m2 & F' & p & E2 & C2 & Hf2 & Hn2 & J); try done.
  { split; simpl; [done|done|lia|unfold bend; simpl; lia|]. eapply Forall_impl; [exact Hhi|]. intros d Hd. right. exact Hd. }
  cbn [fst] in E2. rewrite (bind_ok _ _ _ _ _ E2). exists m2, F', p. split_and!; try done.
  - pose proof (node_in _ _ _ Hn2) as [-> | Ha]%elem_of_cons; [lia|]. apply (apart_behind _ _ _ (fl_ord _ _ _ _ Hf2)) in Ha. lia.
  - eapply changes_trans; [eapply changes_sub; [|exact C1]|exact C2]. intros a ->%list_elem_of_singleton. set_solver.
Qed.

(** Free blocks [F] and blocks in use [A] that do not overlap. *)
Record heap_inv (h : heap) (F A : list blk) : Prop := {
  hv_brk : base + 8 ≤ brk h ≤ 2147483648;
  hv_list : flist base (brk h) (umem h) F;
  hv_freep : node base F (freep h);
  hv_used : Forall (λ b, loose base (brk h) (umem h) b F) A;
  hv_pair : pairwise A
}.

(** The blocks in use are as they were. *)
Definition untouched (A : list blk) (m m' : mem) : Prop := Forall (λ b, ∀ x, b.1 ≤ x < bend b → m' x = m x) A.

Lemma untouched_trans A m m1 m2 : untouched A m m1 → untouched A m1 m2 → untouched A m m2.
Proof. unfold untouched. rewrite !Forall_forall. intros H1 H2 b Hb x Hx. by rewrite (H2 b Hb x Hx), (H1 b Hb x Hx). Qed.

(** Blocks in use through a change of headers elsewhere. *)
Lemma used_frame hi hi' m m' H F F' A :
  hi ≤ hi' → changes H m m' → Forall (λ b, loose base hi m b F) A → (∀ b c, b ∈ A → c ∈ H → c + 8 ≤ b.1 ∨ bend b ≤ c) →
  (∀ u, u ∈ A → Forall (disj u) F') → Forall (λ b, loose base hi' m' b F') A ∧ untouched A m m'.
Proof.
  intros Hh C HA Hap Hd. unfold untouched. rewrite !Forall_forall in *. split; intros b Hb; destruct (HA b Hb) as [L1 L2 L3 L4 L5].
  - split; try done; [|lia|by apply Hd]. destruct (changes_hdr _ _ _ b.1 C) as [_ ->]; [|done].
    intros c Hc. destruct (Hap b c Hb Hc) as [?|?]; [by right|left; unfold bend in *; lia].
  - intros x Hx. apply C. intros c Hc. destruct (Hap b c Hb Hc); lia.
Qed.

(** Headers of free blocks are outside of blocks in use. *)
Lemma header_outside hi m b F c : loose base hi m b F → ordered (base + 7) F → c ∈ base :: F.*1 → c + 8 ≤ b.1 ∨ bend b ≤ c.
Proof.
  intros [_ Hp Hl _ Hd] Ho [-> | Ha]%elem_of_cons; [by left|]. apply list_elem_of_fmap in Ha as (d & -> & Hd').
  rewrite Forall_forall in Hd. specialize (Hd d Hd'). apply ordered_bounds in Ho. rewrite Forall_forall in Ho. specialize (Ho d Hd').
  unfold disj, bend in *. lia.
Qed.

Lemma pairwise_app A1 b A2 : pairwise (A1 ++ b :: A2) → pairwise (A1 ++ A2) ∧ Forall (disj b) (A1 ++ A2).
Proof.
  assert (∀ x y, disj x y → disj y x) as Hsym by (unfold disj; naive_solver).
  induction A1 as [|a A1 IH]; simpl; [naive_solver|]. intros [Ha Hp]. destruct (IH Hp) as [H1 H2].
  apply Forall_app in Ha as [Ha1 [Hab Ha2]%Forall_cons]. split; [split; [by apply Forall_app|done]|]. constructor; [by apply Hsym|done].
Qed.

(** [free] gives the block back to the list. *)
Lemma free_inv h F A1 b A2 fuel : heap_inv h F (A1 ++ b :: A2) → (length F + 1 < fuel)%nat →
  ∃ h' F', free fuel (b.1 + 8) h = Ok () h' ∧ heap_inv h' F' (A1 ++ A2) ∧ units F' = units F + b.2 ∧ brk h' = brk h ∧
    untouched (A1 ++ A2) (umem h) (umem h').
Proof using Hbase.
  intros [Hb Hf Hn Hu Hp] Hfu. pose proof Hu as [Hu1 [Hl Hu2]%Forall_cons]%Forall_app. apply pairwise_app in Hp as [Hp Hpb].
  destruct (free_ok base (brk h) Hbase ltac:(lia) ltac:(lia) h F b fuel Hf Hn Hl Hfu) as (m' & F' & p & E & C & Hf' & Hn' & J1 & J2 & _).
  assert (Forall (λ b, loose base (brk h) (umem h) b F) (A1 ++ A2)) as HA by (by apply Forall_app).
  destruct (used_frame (brk h) (brk h) (umem h) m' _ F F' (A1 ++ A2) ltac:(lia) C HA) as [HA' Ht].
  - intros d c Hd Hc. rewrite Forall_forall in HA, Hpb. specialize (HA d Hd). specialize (Hpb d Hd).
    apply elem_of_cons in Hc as [-> |[-> |Hc]%elem_of_cons].
    + apply (header_outside _ _ _ _ _ HA (fl_ord _ _ _ _ Hf)). by left.
    + destruct Hl as [_ ? _ _ _]. unfold disj, bend in *. lia.
    + apply (header_outside _ _ _ _ _ HA (fl_ord _ _ _ _ Hf)). by right.
  - intros u Hu'. rewrite Forall_forall in HA, Hpb. specialize (HA u Hu'). specialize (Hpb u Hu'). apply J2; [apply HA|].
    constructor; [unfold disj in *; naive_solver|apply HA].
  - exists (Heap m' p (brk h)), F'. split; [done|]. split_and!; [by split|simpl in J1; lia|done|done].
Qed.

Lemma take_heap h F A G c H n fuel : heap_inv h F A → F = G ++ c :: H → 0 < n ≤ c.2 →
  ∃ h' F' a, malloc_loop grant (S fuel) n (lastp base G) c.1 h = Ok (a + 8) h' ∧ heap_inv h' F' ((a, n) :: A) ∧
    units F' + n = units F ∧ brk h' = brk h ∧ untouched A (umem h) (umem h').
Proof using Hbase.
  intros [Hb Hf Hn Hu Hp] -> Hc.
  destruct (take_ok base (brk h) Hbase ltac:(lia) ltac:(lia) grant fuel h G c H n Hf Hc) as (m' & F' & a & E & C & Es & Hf' & Hn' & T1 & T2 & T3 & T4 & T5 & T6).
  assert (∀ u, u ∈ A → Forall (disj u) F' ∧ disj u (a, n)) as Hd.
  { intros u Hin. rewrite Forall_forall in Hu. destruct (Hu u Hin) as [_ Hpos _ _ Hdj]. by apply T6. }
  destruct (used_frame (brk h) (brk h) (umem h) m' _ _ F' A ltac:(lia) C Hu) as [HA' Ht].
  - intros u x Hin Hx. rewrite Forall_forall in Hu. specialize (Hu u Hin). apply elem_of_cons in Hx as [-> |Hx].
    + destruct (Hd u Hin) as [_ Hua]. unfold disj, bend in *. simpl in *. lia.
    + by apply (header_outside _ _ _ _ _ Hu (fl_ord _ _ _ _ Hf)).
  - intros u Hin. by apply Hd.
  - exists (Heap m' (lastp base G) (brk h)), F', a. split; [done|]. split_and!; try done. split; try done.
    + constructor; [by split|done].
    + split; [|done]. apply Forall_forall. intros u Hin. destruct (Hd u Hin) as [_ Hua]. unfold disj in *. naive_solver.
Qed.

Lemma grow_heap h F A n fuel : heap_inv h F A → 0 < n → 8 * n < 2147483648 → (length F + 1 < fuel)%nat →
  morecore grant fuel n h = Ok 0 h ∧ grant (brk h) (8 * more n) = false ∨
  ∃ h' F', morecore grant fuel n h = Ok (freep h') h' ∧ freep h' ≠ 0 ∧ heap_inv h' F' A ∧ units F' = units F + more n ∧
    brk h' = brk h + 8 * more n ∧ untouched A (umem h) (umem h') ∧ Exists (λ b, n ≤ b.2) F' ∧ (length F' ≤ S (length F))%nat.
Proof using Hbase Hgrant.
  intros [Hb Hf Hn Hu Hp] Hpos Hlt Hfu. assert (n ≤ more n) as Hmore by (unfold more; case_match; lia).
  destruct (morecore_ok fuel h F n Hb Hf Hn Hpos Hlt Hfu) as [?|(m' & F' & p & Hb' & E & Hp0 & C & Hf' & Hn' & J1 & J2 & J3 & J4)]; [by left|right].
  destruct (used_frame (brk h) (brk h + 8 * more n) (umem h) m' _ F F' A ltac:(lia) C Hu) as [HA' Ht].
  - intros u x Hin Hx. rewrite Forall_forall in Hu. specialize (Hu u Hin). apply elem_of_cons in Hx as [-> |[-> |Hx]%elem_of_cons].
    + apply (header_outside _ _ _ _ _ Hu (fl_ord _ _ _ _ Hf)). by left.
    + right. apply Hu.
    + apply (header_outside _ _ _ _ _ Hu (fl_ord _ _ _ _ Hf)). by right.
  - intros u Hin. rewrite Forall_forall in Hu. destruct (Hu u Hin) as [_ Hup _ Hub Hud]. apply J2; [done|]. constructor; [by left|done].
  - exists (Heap m' p (brk h + 8 * more n)), F'. split; [done|]. simpl in J1. split_and!; try done; [split; try done; simpl; lia|lia|].
    apply J3. left. simpl. lia.
Qed.

(** What [malloc] may do with a request for [n] units. *)
Definition allocated (h : heap) (F A : list blk) (n r : Z) (h' : heap) : Prop :=
  (r = 0 ∧ h' = h ∧ Forall (λ b, b.2 < n) F ∧ grant (brk h) (8 * more n) = false) ∨
  ∃ F', heap_inv h' F' ((r - 8, n) :: A) ∧ 8 * (units F' + n) = 8 * units F + (brk h' - brk h) ∧ untouched A (umem h) (umem h').

Lemma malloc_found h F A n fuel : heap_inv h F A → 0 < n → Exists (λ b, n ≤ b.2) F → (length F + 1 < fuel)%nat →
  ∃ r h', malloc_loop grant fuel n (freep h) (hptr (umem h) (freep h)) h = Ok r h' ∧
    ∃ F', heap_inv h' F' ((r - 8, n) :: A) ∧ units F' + n = units F ∧ brk h' = brk h ∧ untouched A (umem h) (umem h').
Proof using Hbase.
  intros Hi Hn He Hfu. pose proof (hv_brk _ _ _ Hi) as Hb. destruct (scan_found base (brk h) Hbase ltac:(lia) ltac:(lia) grant h F n fuel) as (G & c & H & fuel' & -> & Hc & ->); try done; [apply Hi|apply Hi|].
  destruct (take_heap h _ A G c H n fuel' Hi eq_refl ltac:(lia)) as (h' & F' & a & E & Hi' & Eu & Eb & Ht).
  exists (a + 8), h'. split; [done|]. exists F'. by replace (a + 8 - 8) with a by lia.
Qed.

Lemma malloc_loop_ok h F A n fuel : heap_inv h F A → 0 < n → 8 * n < 2147483648 → (2 * length F + 4 < fuel)%nat →
  ∃ r h', malloc_loop grant fuel n (freep h) (hptr (umem h) (freep h)) h = Ok r h' ∧ allocated h F A n r h'.
Proof using Hbase Hgrant.
  intros Hi Hn Hlt Hfu. destruct (decide (Exists (λ b, n ≤ b.2) F)) as [He|He].
  { destruct (malloc_found h F A n fuel Hi Hn He ltac:(lia)) as (r & h' & E & F' & Hi' & Eu & Eb & Ht). exists r, h'. split; [done|].
    right. exists F'. split_and!; [done|lia|done]. }
  assert (Forall (λ b, b.2 < n) F) as Hs by (apply not_Exists_Forall in He; [|apply _]; eapply Forall_impl; [exact He|]; simpl; lia).
  replace fuel with (length F + S (fuel - length F - 1))%nat by lia.
  pose proof (hv_brk _ _ _ Hi) as Hb. destruct (scan_none base (brk h) grant h F n (S (fuel - length F - 1))) as (Hsz & q & ->); [apply Hi|apply Hi|done|done|].
  set (f := (fuel - length F - 1)%nat). assert (length F + 2 < f)%nat as Hf by lia.
  cbn [malloc_loop]. rewrite bind_get. cbv zeta. rewrite (proj2 (Z.leb_gt n _)) by lia. rewrite Z.eqb_refl.
  destruct (grow_heap h F A n (S f) Hi Hn Hlt ltac:(lia)) as [[E G]|(h1 & F1 & E & Hp0 & Hi1 & Eu & Eb & Ht & He1 & Hlen)].
  - rewrite (bind_ok _ _ _ _ _ E). exists 0, h. split; [done|]. by left.
  - rewrite (bind_ok _ _ _ _ _ E). rewrite (proj2 (Z.eqb_neq _ 0)) by done. rewrite bind_gets.
    destruct (malloc_found h1 F1 A n f Hi1 Hn He1 ltac:(lia)) as (r & h2 & E2 & F2 & Hi2 & Eu2 & Eb2 & Ht2).
    exists r, h2. split; [done|]. right. exists F2. split_and!; [done|lia|by eapply untouched_trans].
Qed.

(** The first call makes [base] a list of its own. *)
Definition started (h : heap) : heap :=
  if freep h =? 0 then Heap (store32 (store32 (umem h) base base) (base + 4) 0) base (brk h) else h.

Definition heap_ok (h : heap) (F A : list blk) : Prop :=
  heap_inv h F A ∨ freep h = 0 ∧ F = [] ∧ A = [] ∧ base + 8 ≤ brk h ≤ 2147483648.

Lemma started_inv h F A : heap_ok h F A → heap_inv (started h) F A.
Proof using Hbase.
  unfold started. intros [Hi|(Hz & -> & -> & Hb)].
  - pose proof (hv_freep _ _ _ Hi) as Hn. pose proof (node_in _ _ _ Hn) as Ha. assert (base ≤ freep h) as Hge.
    { apply elem_of_cons in Ha as [-> | Ha]; [lia|]. apply (apart_behind _ _ _ (fl_ord _ _ _ _ (hv_list _ _ _ Hi))) in Ha. lia. }
    by rewrite (proj2 (Z.eqb_neq (freep h) 0)) by lia.
  - rewrite Hz. simpl. destruct (store_ptr (umem h) base base ltac:(lia)) as (_ & E1 & _).
    destruct (store_size (store32 (umem h) base base) base 0 ltac:(lia)) as (_ & E2 & E3).
    split; simpl; [done| |by exists [], []|constructor|done]. split; simpl; try done. by rewrite E3.
Qed.

Lemma malloc_started fuel nbytes h :
  malloc base grant fuel nbytes h =
  malloc_loop grant fuel (u32 (u32 (nbytes + HDR - 1) / HDR + 1)) (freep (started h)) (hptr (umem (started h)) (freep (started h))) (started h).
Proof. unfold malloc, started. rewrite bind_get. by destruct (freep h =? 0). Qed.

(** C32: the allocator, in a process whose memory stays below 2^31 bytes. As
    long as the free list [F] and the blocks in use [A] are in order, which
    they are at the start, [malloc] of a request below 2^31 - 16 bytes and
    [free] of a block in use return and keep them so: the free blocks are in
    order of address and no two of them touch, the blocks in use overlap
    neither each other nor free ones, the contents of the blocks in use do
    not change, and no unit is lost between the free list, the blocks in use
    and what the kernel granted. For such a request [malloc] returns a block
    with room for it, and 0 only when no free block is large enough and the
    kernel refused; [free] of a block in use makes it free. *)
Theorem umalloc_correct h F A : heap_ok h F A →
  (∀ nbytes fuel, 0 ≤ nbytes < 2147483632 → (2 * length F + 4 < fuel)%nat →
    ∃ r h' n, malloc base grant fuel nbytes h = Ok r h' ∧ nbytes + 8 ≤ 8 * n ∧ allocated (started h) F A n r h') ∧
  (∀ A1 b A2 fuel, A = A1 ++ b :: A2 → (length F + 1 < fuel)%nat →
    ∃ h' F', free fuel (b.1 + 8) h = Ok () h' ∧ heap_inv h' F' (A1 ++ A2) ∧ units F' = units F + b.2 ∧ brk h' = brk h ∧
      untouched (A1 ++ A2) (umem h) (umem h')).
Proof using Hbase Hgrant.
  intros Hok. split.
  - intros nbytes fuel Hb Hfu. rewrite malloc_started. unfold HDR. set (n := (nbytes + 8 - 1) / 8 + 1).
    assert (u32 (u32 (nbytes + 8 - 1) / 8 + 1) = n) as -> by (rewrite !u32_small; unfold n; [done|lia|rewrite u32_small by lia; zmod]).
    destruct (malloc_loop_ok (started h) F A n fuel (started_inv h F A Hok)) as (r & h' & E & Ha); [unfold n; zmod|unfold n; zmod|done|].
    exists r, h', n. split_and!; [done|unfold n; zmod|done].
  - intros A1 b A2 fuel -> Hfu. destruct Hok as [Hi|(_ & _ & E & _)]; [by apply free_inv|]. by destruct A1.
Qed.
End theorem.

(** A process with its [base] at 64 and 4096 bytes of memory asks for 100
    bytes. *)
Definition ex_grant (b n : Z) : bool := b + n <=? 1048576.

Lemma umalloc_correct_witness :
  heap_ok 64 (Heap (λ _, 0) 0 4096) [] [] ∧
  ∃ r h' n, malloc 64 ex_grant 10 100 (Heap (λ _, 0) 0 4096) = Ok r h' ∧ r = 36760 ∧ 100 + 8 ≤ 8 * n ∧
    allocated 64 ex_grant (started 64 (Heap (λ _, 0) 0 4096)) [] [] n r h'.
Proof.
  assert (heap_ok 64 (Heap (λ _, 0) 0 4096) [] []) as Hok by (right; simpl; split_and!; (done || lia)). split; [exact Hok|].
  destruct (umalloc_correct 64 ex_grant ltac:(lia) ltac:(intros b n _ Hg; unfold ex_grant in Hg; lia) (Heap (λ _, 0) 0 4096) [] [] Hok) as [Hm _].
  destruct (Hm 100 10%nat ltac:(lia) ltac:(simpl; lia)) as (r & h' & n & E & Hn & Ha). exists r, h', n. split; [exact E|]. split; [|by split].
  vm_compute in E. by injection E as <- _.
Defined.
